(* ===== verification/_CoqProject ===== *)
-Q . S2P
Prelude.v
Access.v
AccessSpec.v
AccessProps.v
AuditLedger.v
AuditSpec.v
AuditAnchors.v
AuditProps.v
Statements.v
Text.v
Redis.v
Session.v
SessionProps.v
Snowflake.v
RateLimit.v
CasTickets.v
CasHandler.v
CasProps.v
CasFlows.v
GroupRule.v
GroupSync.v
GroupSyncProps.v
Org.v
OrgProps.v
OrgTree.v
AppAccess.v
AppAccessProps.v
Outbox.v
Mfa.v
MfaProps.v
MfaCodes.v
MfaLimit.v
Authn.v
AuthnHttp.v
AuthnProps.v
AuthnLocks.v
AuthnGates.v
AuthnRuns.v
OidcJson.v
OidcTokens.v
OidcProps.v
OidcRevocation.v
OidcFlows.v
OidcRotation.v
Authz.v
AuthzProps.v
AuthzCache.v
Perm.v
PermEffective.v
PermHttp.v
PermProps.v
PermPod.v
PermRuns.v
User.v
UserExternal.v
UserProps.v
UserLinks.v
UserLogin.v
UserAccounts.v
UserRevocation.v
UserHttp.v
UserRuns.v
Portal.v
PortalProps.v
PortalPrivacy.v
PortalCodes.v
PortalRuns.v
Apps.v
AppsProps.v
AppsTenants.v
AppsConfig.v
AppsSecrets.v
AppsHttp.v
AppsRuns.v
SamlRedirect.v
Saml.v
SamlProps.v
GlobalLogout.v
OidcKeys.v
Offboarding.v
