(* ===== verification/Prelude.v ===== *)
(** * MXID: a verification development of the identity provider

    The program (src/, Go) is a multi-tenant identity and access management
    server: it signs users in, keeps their sessions, issues tickets and tokens to
    applications (OIDC, CAS, SAML), grants privileges for a limited time, groups
    users by rules and writes everything it does to a tamper-evident ledger. Its
    state is split between PostgreSQL (through gorm) and Redis (through go-redis).
    This library models the parts that carry the security of the system, from the
    code as it is, and proves what they promise; where the code keeps less than it
    promises, the theorem says what happens.

    ** How the code is read

    A Go function that reads and writes a store and may fail is a function of the
    state/error monad [M] below; [let!], [do!], [attempt] and [guard] are the
    code's sequencing and its [if err != nil]. Integers are Z with their
    wrap-around written out where it can occur ([wrap64]); times and durations are
    nanoseconds. The two stores fail:
    - PostgreSQL: [query], [write] and [txn] below (and the same in Access) model
      one statement each, which the driver may fail, and gorm's transaction, which
      undoes its writes on an error;
    - Redis.v: typed values with deadlines; each command may be refused, or lose
      its reply after it was applied; the clock moves between operations. [fine]
      states say that no command fails.
    Handlers that interleave are step relations over the commands or transactions
    they consist of. Random strings and fresh ids are arguments, or come from the
    [IdGen] interface, which Snowflake.v implements.

    ** The parts

    - Access.v (src/internal/domain/access: model.go, service.go, repository.go,
      sweeper.go): just-in-time access requests, approvals, grants and their
      expiry. AccessSpec.v states the grant invariant and the atomic commits the
      handlers are made of; AccessProps.v the interleaving of handlers.
    - AuditLedger.v (src/internal/domain/audit: chain.go, chainer.go, merkle.go,
      anchor.go, anchorer.go, verify.go, checkpoint.go, anchorsink.go): the hash
      chains per tenant and class, the anchors over them, signed floors, pruning and
      the verifiers. AuditSpec.v: the chain invariant; AuditAnchors.v: anchors and
      floors on top of it; AuditProps.v: the guarantees.
    - Session.v (src/pkg/session/manager.go, logout of
      src/internal/domain/authn): sessions and the per-user index;
      SessionProps.v.
    - RateLimit.v (src/pkg/ratelimit/ratelimit.go).
    - Snowflake.v (src/pkg/snowflake/snowflake.go): ids, and the [IdGen] instance.
    - CasTickets.v, CasHandler.v (src/internal/protocol/cas, src/pkg/ssoflow,
      src/internal/protocol/resolver/subject.go): tickets, endpoints, proxying and
      single logout; CasProps.v and CasFlows.v.
    - OidcJson.v, OidcTokens.v (src/internal/protocol/oidcop): the documents and
      operations of the OpenID provider's store; OidcProps.v (typing),
      OidcRevocation.v (the index invariant), OidcFlows.v and OidcRotation.v.
    - GroupRule.v, GroupSync.v (src/internal/domain/group): rules of dynamic
      groups, their compilation to SQL and the sync; GroupSyncProps.v.
    - Org.v (src/internal/domain/org): the tree of organizations by materialized
      paths; OrgProps.v, and OrgTree.v for the tree that is listed.
    - AppAccess.v (src/internal/domain/appaccess): who may launch an application;
      AppAccessProps.v.
    - Outbox.v (src/internal/outbox): messages delivered at least once by any number
      of replicas.
    - Mfa.v (src/internal/domain/user: totp.go, totp_replay.go, backup_codes.go):
      second factors and recovery codes; MfaProps.v, MfaCodes.v. MfaLimit.v
      (src/internal/domain/authn/mfa_ratelimit.go): their limiter.
    - Authn.v (src/internal/domain/authn: engine.go and the local provider):
      signing in, in one step or two, and stepping up, over Session, RateLimit,
      MfaLimit and a record of operations that Mfa.v implements; AuthnHttp.v: the
      endpoints, the session middleware and the gates; AuthnProps.v, AuthnLocks.v,
      AuthnGates.v, and AuthnRuns.v for runs of the whole.
    - Authz.v (src/pkg/authz): the engine that answers whether a user has a
      permission on a target, its two-level cache and the messages between pods, the
      Casbin engine, the gateway, the middlewares; AuthzProps.v, AuthzCache.v.
    - Perm.v (src/internal/domain/permission, SetSuperAdmin of the user service, the
      queries of src/app/adapters_authz.go): roles, their permissions and members and
      what is in effect for a user; PermEffective.v, PermProps.v. PermHttp.v (the
      handlers, src/app/authz_console.go and the subscriptions of src/app): the pods
      that put the engine over these tables; PermPod.v, PermRuns.v.
    - User.v (src/internal/domain/user: model.go, service.go, repository_impl.go,
      login_record.go; the license quota of src/app/run.go): accounts, profiles,
      passwords and external identities; UserExternal.v (external_login.go): signing in
      through an identity provider, provisioning and binding. UserProps.v (the
      invariant of the tables), UserLinks.v, UserLogin.v, UserAccounts.v;
      UserRevocation.v (the subscribers of src/app/run.go) over
      Session.v; UserHttp.v (handler.go, dto.go, src/pkg/mask); UserRuns.v.
    - Portal.v (src/internal/gateway/portal: password_reset.go, magic_link.go,
      sms_otp.go, email_verify.go, profile_handler.go; the adapter for accounts of
      src/app/adapters_portal.go): links and codes sent out of band, over User.v,
      RateLimit.v and Session.v; PortalProps.v (histories of requests), PortalPrivacy.v,
      PortalCodes.v, PortalRuns.v.
    - Apps.v (src/internal/domain/app: model.go, repository_impl.go, key_service.go,
      service.go): applications, their configurations, secrets and signing keys, and the
      groups of them, over tables with the constraints of the migrations. AppsProps.v (the
      invariant of the tables), AppsTenants.v (what a request of a tenant reaches),
      AppsConfig.v (rotation, loading and publishing of keys, patches and creation).
      AppsSecrets.v (src/internal/protocol/resolver/app_resolver.go): the view the protocols
      have of them, and a compromised application, over the store of OidcTokens.v; AppsHttp.v (handler.go, templates); AppsRuns.v.
    - SamlRedirect.v (src/internal/protocol/saml: slo.go, xml_decode.go): messages and
      signatures in query strings; Saml.v (the other files of that directory and
      src/internal/protocol/resolver/session_resolver.go): signing in to service
      providers and single logout from either side, over Session.v and CasTickets.v;
      SamlProps.v. GlobalLogout.v (src/internal/protocol/oidclogout and the fan-out in
      src/app/run.go): a logout told to clients, providers and services.
    - OidcKeys.v (src/internal/domain/oidckey, and what src/internal/protocol/oidcop/storage.go
      signs with and publishes): the signing keys of the OpenID provider, their rotation beside
      other replicas.
    - Offboarding.v (src/internal/domain/offboarding and provisioning, and their adapters
      offboarding_*.go in src/app): a person leaves: the account of User.v, the clients of
      GlobalLogout.v, the sessions of Session.v, and the list of applications to go through.
    - Text.v, Statements.v and Redis.v are shared; this file holds the monad, the store, the
      integers, the inversion tactic [minv] and the list lemmas.

    Definitions carry the names of the code; a record field that would clash has a
    prefix letter ([r_], [p_], ...).

    ** What the theorems show

    - Access: every active grant is backed by an approved, unexpired request, in
      every interleaving of the handlers except one that is exhibited; handlers
      follow the request life cycle, leave no trace when they fail, and grant no
      longer than allowed; the sweeper expires exactly what is due.
    - Audit: every history of the program verifies; a verifier's yes binds the
      whole history to the head, up to a collision of the hash; each pending row is
      chained once; pruning deletes anchored history only; a Merkle root binds its
      leaves; the sink check finds rewritten anchors.
    - OIDC: the store stays well typed under any faults; a logout and an operator's
      revocation reach every live token; replaying a spent refresh token revokes its
      family; an exchange rotates; what two simultaneous exchanges leave behind;
      documents are read back as written.
    - Sessions: none outlives its absolute timeout; revocation reaches every
      session as long as that timeout is not lowered, and the ways around it that the code leaves open.
    - CAS: a ticket validates once, for the login it was issued for; proxy chains
      lead to a login; a validated service is told of the logout.
    - Limiter and ids: brute force trips the lock; ids strictly increase.
    - Groups: a sync makes the membership what the rule says, from any state; rules
      that validate compile, and match literally.
    - Organizations: paths stay those of the parents until a move; ancestry by path
      is ancestry; the listed tree has every organization once; what a move loses.
    - Application access: a launch is decided by the rules; the portal lists what can
      be launched; what a failed lookup and a foreign delete do.
    - Outbox: no message is lost, every message is settled; what a crash and a late
      report do.
    - Second factors: accepted time steps increase, a recovery code lets in once, each
      generated code does; the limiter locks on the fifteenth failure and forgets its
      escalation after an hour.
    - Signing in: a second step takes a challenge that was given for a good first
      factor and is spent by it; a scan locks its address, the lock of a user keeps
      nobody out; a step-up takes the proof the account owes, and what a failed lookup
      does to it; debts hold a session until they are settled, and which of them keep
      it from the protocols.
    - Permissions: a request that is allowed rests on a binding the tables warranted
      at most six minutes before, whatever was lost on the way; with no message lost an
      invalidation is final for every read that begins after it; Casbin decides as the permission sets do; the
      permissions of a role are what was set last; a handler of the console
      runs only for a caller with its permission, and an undeclared route is refused;
      what a member with a scope may grant, what a failed lookup grants, and which
      changes leave the cache as it was.
    - Accounts: a live binding has a live owner, and names, addresses and external
      ids are unique within a tenant, after any requests and whichever statements fail; an external
      login is decided by the bindings there are and were, and repeats; a binding never
      takes a live one away; what each password operation asks for; an account that is
      locked, disabled by its status, deleted or reset has no session left, and the edit that
      disables without that; what a late edit undoes, and what is not masked.
    - Links and codes: one that is honoured was drawn in time for the account that had
      the address, and works once; no answer shows a secret or tells which accounts there
      are; guessing a code locks the phone; and what the flows leave open.
    - Applications: the tables stay sound, after any requests and whichever statements fail, and
      a request of a tenant changes no application, group or certificate of another, and
      its groups only by deleting a shared application; what the key service keeps published in
      a rotation, which SAML does not ask it for; an emergency leaves the new secret only and, on a store
      without faults, no token of the application; a patch changes what it names; an application is created with every
      column asked for, or its row is taken back, unless that fails as well.
    - SAML: a signature covers the request that is read, and what is signed reads back;
      an assertion goes to the registered endpoint for a user who is signed in, admitted
      and has confirmed; a logout lands at the provider; a global logout tells every
      client, provider and service there is a live entry of; and what a second RelayState, a
      shorter session life and an owed password do.
    - Signing keys: a token signed after a tick of the rotation that worked verifies for the life
      of a key less the period and an interval, whatever other replicas do; what short terms of
      leadership do.
    - Offboarding: the account is disabled, has no session left and its clients were told, whatever of the
      rest fails; the review lists count exactly, with one operation at a time; what a
      subscriber that is first, two marks at once and a foreign Save do.

    ** Fuel

    Loops of the code that are not structural have fuel and a theorem that it is
    enough: the batch loops of the verifiers take one round per remaining entry and
    one more ([verify_loop], [leaves_loop]); a Merkle tree halves its level
    ([merkle_loop], fuel: the number of leaves); the snowflake generator waits at
    most as many readings as the clock needs ([wait_next]); the SCAN loop of the
    OpenID store has the code's own bound of 10000 rounds ([maxCursors]); the back-off
    of the outbox doubles at most eight times before its cap; the purge of the shared
    cache takes one round per cursor ([purgeL2], enough when the SCAN ends, see
    [ScanLaws]); the encoder of the tree
    of organizations goes as deep as the longest path; a provisioned name is
    tried in the code's own bound of 1000 variants ([alloc_from]).

    ** What is a parameter

    SHA-256, HMAC and Ed25519 (with collision and forgery stated in the theorems
    that need them), bcrypt, the mail and SMS services, PostgreSQL's lower(), the order of a map iteration, URL parsing and Unicode
    case folding, the answer of PostgreSQL to the compiled rule query, Redis'
    SCAN (a full iteration returns every matching key), the rounding of TTL, the
    library of one-time passwords, AES-GCM, the library of captchas, Casbin's enforcer
    ([CasbinLib], with [CasbinLaws] for its model of roles), RSA, X.509, PEM ([KeyLib], with [key_laws] and
    [KeyLaws]), base64, gorm's Save of a row with a key (provisioning), DEFLATE and the XML of SAML messages ([SamlLib], with [SamlLaws]), the crewjam
    library ([IdpLib], with [AcsLaw]: the endpoint of a request it accepts is one of the
    metadata), the handlers of the outbox and the providers of identities other than the local one.

    ** What is not modelled

    The web frontend, most HTTP plumbing (gin handlers, DTOs, CSRF, CORS),
    configuration and start-up (src/app, src/internal/bootstrap), migrations, mail,
    SMS, GeoIP and metrics do no deciding of their own. The event bus,
    the sending of logout requests, tokens and webhooks, the election of a leader, the parser of SAML
    metadata, queries over the ledger, settings, the gateways of the portal and
    the console other than the links, the license seam, and of
    applications the favourites and the texts of code samples are left out. *)

From stdpp Require Export base gmap sets list strings.
From Stdlib Require Export ZArith Lia Bool.

#[global] Open Scope Z_scope.

(** ** Results and the state/error monad

    A Go function [func (...) (T, error)] that reads and writes a store is a
    function from the store to the new store and a [res]. *)

Inductive res (E A : Type) : Type :=
| Ok (a : A)
| Err (e : E).
Arguments Ok {E A} a.
Arguments Err {E A} e.

Definition M (W E A : Type) : Type := W -> W * res E A.

Section Monad.
Context {W E : Type}.

Definition ret {A} (a : A) : M W E A := fun w => (w, Ok a).
Definition throw {A} (e : E) : M W E A := fun w => (w, Err e).
Definition bind {A B} (m : M W E A) (k : A -> M W E B) : M W E B :=
  fun w => match m w with
           | (w', Ok a) => k a w'
           | (w', Err e) => (w', Err e)
           end.
Definition gets {A} (f : W -> A) : M W E A := fun w => (w, Ok (f w)).
Definition modify (f : W -> W) : M W E unit := fun w => (f w, Ok tt).
(** [if cond { return e }] *)
Definition guard (b : bool) (e : E) : M W E unit :=
  if b then throw e else ret tt.
(** [x, err := m; if err != nil { ... }]: runs [m] and hands its result,
    error included, to [k]. *)
Definition attempt {A B} (m : M W E A) (k : res E A -> M W E B) : M W E B :=
  fun w => let '(w', r) := m w in k r w'.
End Monad.

Declare Scope go_scope.
Delimit Scope go_scope with go.
Notation "'let!' x := m 'in' k" := (bind m (fun x => k))
  (at level 10, x binder, m at level 100, k at level 200) : go_scope.
Notation "'do!' m 'in' k" := (bind m (fun _ : unit => k))
  (at level 10, m at level 100, k at level 200) : go_scope.
#[global] Open Scope go_scope.

(** ** Machine integers *)

Definition int64_min : Z := - 2 ^ 63.
Definition int64_max : Z := 2 ^ 63 - 1.
Definition in_int64 (z : Z) : Prop := int64_min <= z <= int64_max.
(** two's-complement wrap-around of Go's int64 arithmetic *)
Definition wrap64 (z : Z) : Z := (z + 2 ^ 63) mod 2 ^ 64 - 2 ^ 63.

Lemma wrap64_id z : in_int64 z -> wrap64 z = z.
Proof.
  unfold in_int64, wrap64, int64_min, int64_max. intros H.
  rewrite Z.mod_small; lia.
Qed.

Lemma wrap64_range z : in_int64 (wrap64 z).
Proof.
  unfold in_int64, wrap64, int64_min, int64_max.
  pose proof (Z.mod_pos_bound (z + 2 ^ 63) (2 ^ 64) ltac:(lia)). lia.
Qed.

(** ** Identifier generators

    What a service needs of its id generator (pkg/snowflake in production): ids
    strictly above every id it issued before. [id_bound g] is the last id
    issued by [g]. *)

Class IdGen (G : Type) : Type := {
  Generate : G -> G * Z;
  id_bound : G -> Z;
  Generate_fresh : forall g g' id,
    Generate g = (g', id) -> id_bound g < id /\ id_bound g' = id
}.

(** A counter is the simplest generator that keeps the promise. *)
Definition counter_generate (g : Z) : Z * Z := (g + 1, g + 1).

#[refine, export] Instance counter_idgen : IdGen Z :=
  {| Generate := counter_generate; id_bound := fun g => g |}.
Proof. intros g g' id. unfold counter_generate. intros Hg. injection Hg as <- <-. lia. Defined.

(** ** Automation *)

Create HintDb mxid.

(** Inversion of monadic runs: what a run that ended in [Ok] or [Err] did. *)
Section MonadInv.
Context {W E : Type}.
Implicit Types w : W.

Lemma bind_ok {A B} (m : M W E A) (k : A -> M W E B) w w' b :
  bind m k w = (w', Ok b) ->
  exists a w1, m w = (w1, Ok a) /\ k a w1 = (w', Ok b).
Proof. unfold bind. destruct (m w) as [w1 [a|e]]; [eauto | discriminate]. Qed.

Lemma bind_err {A B} (m : M W E A) (k : A -> M W E B) w w' e :
  bind m k w = (w', Err e) ->
  m w = (w', Err e) \/ exists a w1, m w = (w1, Ok a) /\ k a w1 = (w', Err e).
Proof. unfold bind. destruct (m w) as [w1 [a|e']]; intros; simplify_eq; eauto. Qed.

Lemma bind_cases {A B} (m : M W E A) (k : A -> M W E B) w w' r :
  bind m k w = (w', r) ->
  (exists e, m w = (w', Err e) /\ r = Err e)
  \/ exists a w1, m w = (w1, Ok a) /\ k a w1 = (w', r).
Proof. unfold bind. destruct (m w) as [w1 [a|e']]; intros; simplify_eq; eauto. Qed.

Lemma run_result {A} (m : M W E A) w r : (m w).2 = r -> m w = ((m w).1, r).
Proof. intros <-. apply surjective_pairing. Qed.

Lemma bind_ok_run {A B} (m : M W E A) (k : A -> M W E B) w w1 a :
  m w = (w1, Ok a) -> bind m k w = k a w1.
Proof. intros Hm. unfold bind. rewrite Hm. reflexivity. Qed.

Lemma guard_ok (b : bool) (e : E) w w' u :
  guard b e w = (w', Ok u) -> b = false /\ w' = w.
Proof. unfold guard, throw, ret. destruct b; intros; simplify_eq; auto. Qed.

Lemma guard_err (b : bool) (e e' : E) w w' :
  guard b e w = (w', Err e') -> b = true /\ w' = w /\ e' = e.
Proof. unfold guard, throw, ret. destruct b; intros; simplify_eq; auto. Qed.
End MonadInv.

(** Component-specific primitives; components extend it with [::=]. *)
Ltac mprim H := fail.

(** Splits an equation between two (store, result) pairs and uses it up. *)
Ltac inv_pair H :=
  first [discriminate H | injection H; clear H; intros; subst | clear H].

Ltac minv H :=
  lazymatch type of H with
  | bind _ _ _ = (_, Ok _) =>
      let a := fresh "a" in let w1 := fresh "w1" in let H1 := fresh "Hm" in
      apply bind_ok in H as (a & w1 & H1 & H); minv H1; minv H
  | bind _ _ _ = (_, Err _) =>
      let a := fresh "a" in let w1 := fresh "w1" in let H1 := fresh "Hm" in
      apply bind_err in H as [H | (a & w1 & H1 & H)]; [minv H | minv H1; minv H]
  | ret _ _ = _ => unfold ret in H; inv_pair H
  | throw _ _ = _ => unfold throw in H; inv_pair H
  | gets _ _ = _ => unfold gets in H; inv_pair H
  | modify _ _ = _ => unfold modify in H; inv_pair H
  | guard _ _ _ = (_, Ok _) =>
      let Hg := fresh "Hg" in apply guard_ok in H as [Hg H]; subst
  | guard _ _ _ = (_, Err _) =>
      let Hg := fresh "Hg" in apply guard_err in H as (Hg & H & ?); subst
  | (if ?b then _ else _) _ = _ => let Hc := fresh "Hc" in destruct b eqn:Hc; minv H
  | (match ?o with _ => _ end) _ = _ => let Hc := fresh "Hc" in destruct o eqn:Hc; minv H
  | _ => try mprim H
  end.

(** Boolean hypotheses of the code's conditions as propositions. *)
Ltac to_prop :=
  repeat match goal with
    | H : negb _ = true |- _ => apply negb_true_iff in H
    | H : negb _ = false |- _ => apply negb_false_iff in H
    | H : (_ && _)%bool = true |- _ => apply andb_true_iff in H; destruct H
    | H : (_ || _)%bool = false |- _ => apply orb_false_iff in H; destruct H
    | H : (_ =? _)%Z = true |- _ => apply Z.eqb_eq in H
    | H : (_ =? _)%Z = false |- _ => apply Z.eqb_neq in H
    | H : (_ <? _)%Z = true |- _ => apply Z.ltb_lt in H
    | H : (_ <? _)%Z = false |- _ => apply Z.ltb_ge in H
    | H : (_ <=? _)%Z = true |- _ => apply Z.leb_le in H
    | H : (_ <=? _)%Z = false |- _ => apply Z.leb_gt in H
    | H : bool_decide _ = true |- _ => apply bool_decide_eq_true in H
    | H : bool_decide _ = false |- _ => apply bool_decide_eq_false in H
    end.

(** ** Generic lemmas *)

(** Rows of a table keyed by one of their own columns. *)
Lemma keyed_fst {A} (m : gmap Z A) (key : A -> Z) :
  (forall i x, m !! i = Some x -> key x = i) ->
  key <$> (map_to_list m).*2 = (map_to_list m).*1.
Proof.
  intros Hk. rewrite <- list_fmap_compose. apply list_fmap_ext. intros n [i x] Hn.
  apply list_elem_of_lookup_2, elem_of_map_to_list in Hn. simpl. by apply Hk.
Qed.

Lemma NoDup_keyed {A} (m : gmap Z A) (key : A -> Z) (P : A -> Prop) `{!forall x, Decision (P x)} :
  (forall i x, m !! i = Some x -> key x = i) ->
  NoDup (key <$> filter P (map_to_list m).*2).
Proof.
  intros Hk. eapply sublist_NoDup; [apply (NoDup_fst_map_to_list m)|].
  rewrite <- (keyed_fst m key Hk). apply fmap_sublist, sublist_filter.
Qed.

Lemma filter_all {A} (P : A -> Prop) `{!forall x, Decision (P x)} (l : list A) :
  (forall x, x ∈ l -> P x) -> filter P l = l.
Proof.
  induction l as [|x l IH]; intros Hl; [done|].
  rewrite filter_cons_True by (apply Hl; left). f_equal. apply IH. intros y Hy. apply Hl. by right.
Qed.

Lemma filter_none {A} (P : A -> Prop) `{!forall x, Decision (P x)} (l : list A) :
  (forall x, x ∈ l -> ~ P x) -> filter P l = [].
Proof.
  induction l as [|x l IH]; intros Hl; [done|].
  rewrite filter_cons_False by (apply Hl; left). apply IH. intros y Hy. apply Hl. by right.
Qed.

Lemma take_nonempty {A} (n : nat) (l : list A) : (0 < n)%nat -> l <> [] -> exists l' x, take n l = l' ++ [x].
Proof.
  intros Hn Hl. destruct (take n l) as [|y ys] eqn:Et using rev_ind.
  - destruct n; [lia|]. destruct l; [done | discriminate].
  - eauto.
Qed.

(** Rule induction on runs: what every step keeps holds in every reachable state. *)
Lemma rtc_invariant {S} (R : relation S) (I : S -> Prop) x y :
  (forall a b, R a b -> I a -> I b) -> rtc R x y -> I x -> I y.
Proof. intros Hstep. induction 1 as [|a b c Hab _ IH]; eauto. Qed.

(** ** A store behind a driver that can fail

    [query] is one statement sent to the database: the driver may fail it;
    [txn] is gorm's [db.Transaction]: writes are undone on an error. *)

Record Store (D : Type) : Type := mkStore {
  sdb : D;
  sfail : nat -> bool;
  scalls : nat
}.
Arguments mkStore {D}. Arguments sdb {D}. Arguments sfail {D}. Arguments scalls {D}.

Section StoreOps.
Context {D E : Type} (errDB : E).

Definition query : M (Store D) E D := fun s =>
  (mkStore (sdb s) (sfail s) (S (scalls s)),
   if sfail s (scalls s) then Err errDB else Ok (sdb s)).

Definition write (f : D -> D) : M (Store D) E unit :=
  modify (fun s => mkStore (f (sdb s)) (sfail s) (scalls s)).

Definition txn {A} (body : M (Store D) E A) : M (Store D) E A := fun s =>
  match bind body (fun a => bind query (fun _ => ret a)) s with
  | (s', Ok a) => (s', Ok a)
  | (s', Err e) => (mkStore (sdb s) (sfail s') (scalls s'), Err e)
  end.

Lemma query_ok s s' d :
  query s = (s', Ok d) ->
  d = sdb s /\ sfail s (scalls s) = false /\ s' = mkStore (sdb s) (sfail s) (S (scalls s)).
Proof. unfold query. destruct (sfail s (scalls s)); intros; simplify_eq; auto. Qed.

Lemma query_err s s' e :
  query s = (s', Err e) ->
  sfail s (scalls s) = true /\ e = errDB /\ s' = mkStore (sdb s) (sfail s) (S (scalls s)).
Proof. unfold query. destruct (sfail s (scalls s)); intros; simplify_eq; auto. Qed.

Lemma txn_ok {A} (body : M (Store D) E A) s s' a :
  txn body s = (s', Ok a) -> exists s1, body s = (s1, Ok a) /\ sdb s' = sdb s1.
Proof.
  unfold txn. destruct (bind body _ s) as [s1 [a'|e]] eqn:Eb; intros Hr; simplify_eq.
  apply bind_ok in Eb as (a0 & s2 & Hb & Hq). apply bind_ok in Hq as (? & s3 & Hq & Hret).
  apply query_ok in Hq as (_ & _ & ->). unfold ret in Hret. simplify_eq. eauto.
Qed.

Lemma txn_err {A} (body : M (Store D) E A) s s' e :
  txn body s = (s', Err e) -> sdb s' = sdb s.
Proof. unfold txn. destruct (bind body _ s) as [s1 [a'|e']]; intros; by simplify_eq. Qed.
End StoreOps.

(** ** Bytes *)

Definition bytes : Type := list Z.

(** [binary.BigEndian.PutUint64] / [PutUint16]: the [n] low bytes of [z], most
    significant first; a negative int64 is converted to uint64 first. *)
Fixpoint be_bytes (n : nat) (z : Z) : bytes :=
  match n with
  | O => []
  | S n' => Z.land (Z.shiftr z (8 * Z.of_nat n')) 255 :: be_bytes n' z
  end.
Definition be64 (z : Z) : bytes := be_bytes 8 (z mod 2 ^ 64).
Definition be16 (z : Z) : bytes := be_bytes 2 (z mod 2 ^ 16).

(** The bytes of a Go string. *)
Fixpoint str_bytes (s : string) : bytes :=
  match s with
  | EmptyString => []
  | String c s' => Z.of_nat (Ascii.nat_of_ascii c) :: str_bytes s'
  end.
