(* ===== verification/Access.v ===== *)
(** * Access: just-in-time privileged access (src/internal/domain/access) *)

From stdpp Require Import sorting.
From S2P Require Import Prelude.

(** ** Data: model.go *)

Definition TargetConsole : string := "console".
Definition TargetApp : string := "app".

(** Request lifecycle states ([Status*] constants). *)
Inductive Status : Type :=
| StatusPending
| StatusApproved
| StatusRejected
| StatusCancelled
| StatusExpired
| StatusRevoked.

#[export] Instance Status_eq_dec : EqDecision Status.
Proof. solve_decision. Defined.

(** Binding row status ([Binding*] constants). *)
Definition BindingActive : Z := 1.
Definition BindingExpired : Z := 2.
Definition BindingRevoked : Z := 3.

(** Approver subject types. *)
Definition ApproverRole : string := "role".
Definition ApproverGroup : string := "group".
Definition ApproverUser : string := "user".
Definition ApproverAuto : string := "auto".

Record Eligibility : Type := mkEligibility {
  e_ID : Z;
  e_TenantID : Z;
  e_TargetKind : string;
  e_RoleID : Z;
  e_ScopeType : option string;
  e_ScopeID : option Z;
  e_AppID : option Z;
  e_RequesterSubjectType : string;
  e_RequesterSubjectID : Z;
  e_AllowedDurations : list Z;
  e_MaxDurationSeconds : Z;
  e_ApproverSubjectType : string;
  e_ApproverSubjectID : Z;
  e_RequireJustification : bool;
  e_RequireStepUp : bool;
  e_Status : Z;
  e_CreatedAt : Z;
  e_CreatedBy : option Z;
  e_UpdatedAt : Z
}.

Definition DurationAllowed (e : Eligibility) (seconds : Z) : bool :=
  bool_decide (seconds ∈ e_AllowedDurations e).

Definition ClampDuration (e : Eligibility) (seconds : Z) : Z :=
  if (0 <? e_MaxDurationSeconds e) && (e_MaxDurationSeconds e <? seconds)
  then e_MaxDurationSeconds e else seconds.

Record Request : Type := mkRequest {
  r_ID : Z;
  r_TenantID : Z;
  r_RequesterID : Z;
  r_EligibilityID : Z;
  r_TargetKind : string;
  r_RoleID : Z;
  r_ScopeType : option string;
  r_ScopeID : option Z;
  r_AppID : option Z;
  r_RequestedSeconds : Z;
  r_Justification : string;
  r_Status : Status;
  r_ApproverID : option Z;
  r_DecidedAt : option Z;
  r_DecisionReason : string;
  r_ActivatedAt : option Z;
  r_ExpiresAt : option Z;
  r_BindingID : option Z;
  r_CreatedAt : Z;
  r_UpdatedAt : Z
}.

Record CreateEligibilityRequest : Type := mkCER {
  c_TargetKind : string;
  c_RoleID : Z;
  c_ScopeType : option string;
  c_ScopeID : option Z;
  c_AppID : option Z;
  c_RequesterSubjectType : string;
  c_RequesterSubjectID : Z;
  c_AllowedDurations : list Z;
  c_MaxDurationSeconds : Z;
  c_ApproverSubjectType : string;
  c_ApproverSubjectID : Z;
  c_RequireJustification : option bool;
  c_RequireStepUp : option bool
}.

Record CreateAccessRequest : Type := mkCAR {
  a_EligibilityID : Z;
  a_RequestedSeconds : Z;
  a_Justification : string
}.

(** Rows of the two binding tables the grants are materialised in
    (mxid_role_binding, mxid_app_role_binding); [grant_id] and [expires_at]
    are NULL for a permanent binding. *)
Record RoleBinding : Type := mkRB {
  rb_role_id : Z;
  rb_subject_type : string;
  rb_subject_id : Z;
  rb_scope_type : option string;
  rb_scope_id : option Z;
  rb_grant_id : option Z;
  rb_expires_at : option Z;
  rb_status : Z
}.

Record AppRoleBinding : Type := mkARB {
  arb_app_id : option Z;
  arb_app_group_id : option Z;
  arb_tenant_id : Z;
  arb_app_role_id : Z;
  arb_subject_type : string;
  arb_subject_id : Z;
  arb_grant_id : option Z;
  arb_expires_at : option Z;
  arb_status : Z
}.

(** The four tables the component reads and writes, keyed by primary key. *)
Record DB : Type := mkDB {
  eligs : gmap Z Eligibility;
  reqs : gmap Z Request;
  role_bindings : gmap Z RoleBinding;
  app_bindings : gmap Z AppRoleBinding
}.

Definition set_eligs (f : gmap Z Eligibility -> gmap Z Eligibility) (d : DB) : DB :=
  mkDB (f (eligs d)) (reqs d) (role_bindings d) (app_bindings d).
Definition set_reqs (f : gmap Z Request -> gmap Z Request) (d : DB) : DB :=
  mkDB (eligs d) (f (reqs d)) (role_bindings d) (app_bindings d).
Definition set_role_bindings (f : gmap Z RoleBinding -> gmap Z RoleBinding) (d : DB) : DB :=
  mkDB (eligs d) (reqs d) (f (role_bindings d)) (app_bindings d).
Definition set_app_bindings (f : gmap Z AppRoleBinding -> gmap Z AppRoleBinding) (d : DB) : DB :=
  mkDB (eligs d) (reqs d) (role_bindings d) (f (app_bindings d)).

(** ** Errors, events, effects *)

Inductive Error : Type :=
| ErrSelfApproval
| ErrApproverNotEligible
| ErrRequestNotPending
| ErrInvalidEligibility
| ErrRequestNotAllowed
| ErrRequestNotCancellable
| ErrGrantNotRevocable
| ErrRequestNotFound
| ErrEligibilityNotFound
| ErrAppIDRequired        (* "access: app_id is required for TargetApp grant" *)
| ErrUnknownTargetKind    (* "access: unknown target_kind" *)
| ErrDB.                  (* any error the driver returns *)

(** Domain event types (events.go). *)
Inductive EventType : Type :=
| EventRequestCreated
| EventRequestApproved
| EventRequestRejected
| EventRequestCancelled
| EventGrantActivated
| EventGrantExpired
| EventGrantRevoked
| EventEligibilityCreated
| EventEligibilityUpdated
| EventEligibilityDeleted.

(** The published payloads, key by key. *)
Inductive Payload : Type :=
| RequestPayload (resource_id tenant_id requester_id : Z) (target_kind : string)
    (role_id : Z) (app_id expires_at : option Z) (extra_approver_id : option Z)
| EligibilityPayload (resource_id tenant_id : Z) (target_kind : string)
    (role_id : Z) (app_id : option Z).

(** Calls that leave the component, in order. *)
Inductive Effect : Type :=
| Published (ty : EventType) (p : Payload)
| Invalidated (tenantID userID : Z)
| Terminated (tenantID userID appID : Z).

(** [SubjectMatcher], the membership interface the service is given. *)
Record SubjectMatcher : Type := mkMatcher {
  UserInGroup : Z -> Z -> Z -> bool;
  UserInOrg : Z -> Z -> Z -> bool;
  UserHasRole : Z -> Z -> Z -> bool
}.

(** The store, the id generator, the calls made so far, and the environment:
    the wall clock as the sequence of its readings (nanoseconds) and, for each
    statement sent to the database, whether the driver fails it. *)
Record World (G : Type) : Type := mkWorld {
  db : DB;
  gen : G;
  trace : list Effect;
  clock : nat -> Z;
  reads : nat;
  faults : nat -> bool;
  calls : nat
}.
Arguments mkWorld {G}.
Arguments db {G}. Arguments gen {G}. Arguments trace {G}.
Arguments clock {G}. Arguments reads {G}. Arguments faults {G}. Arguments calls {G}.

Section Ops.
Context {G : Type} `{IdGen G}.
Context (matcher : SubjectMatcher) (superAdmin : option (Z -> bool)) (bus : bool).

Abbreviation W := (World G).
Abbreviation Op := (M W Error).

Definition set_db (f : DB -> DB) (w : W) : W :=
  mkWorld (f (db w)) (gen w) (trace w) (clock w) (reads w) (faults w) (calls w).
Definition emit (e : Effect) : Op unit :=
  modify (fun w => mkWorld (db w) (gen w) (trace w ++ [e]) (clock w) (reads w) (faults w) (calls w)).

(** [time.Now()] / SQL [NOW()]: the next reading of the clock. *)
Definition now : Op Z := fun w =>
  (mkWorld (db w) (gen w) (trace w) (clock w) (S (reads w)) (faults w) (calls w),
   Ok (clock w (reads w))).

Definition generate : Op Z := fun w =>
  let '(g', id) := Generate (gen w) in
  (mkWorld (db w) g' (trace w) (clock w) (reads w) (faults w) (calls w), Ok id).

(** One statement reaches the database; the driver may fail it. *)
Definition stmt : Op unit := fun w =>
  (mkWorld (db w) (gen w) (trace w) (clock w) (reads w) (faults w) (S (calls w)),
   if faults w (calls w) then Err ErrDB else Ok tt).

(** gorm's [db.Transaction(func(tx) error)]: the body's writes are undone when
    it returns an error or when COMMIT fails. *)
Definition Transaction {A} (body : Op A) : Op A := fun w =>
  match bind body (fun a => bind stmt (fun _ => ret a)) w with
  | (w', Ok a) => (w', Ok a)
  | (w', Err e) => (set_db (fun _ => db w) w', Err e)
  end.

(** ** repository.go *)

Definition repo_CreateEligibility (e : Eligibility) : Op unit :=
  do! stmt in
  let! t := now in
  let! d := gets db in
  do! guard (bool_decide (is_Some (eligs d !! e_ID e))) ErrDB in
  modify (set_db (set_eligs (<[e_ID e :=
    mkEligibility (e_ID e) (e_TenantID e) (e_TargetKind e) (e_RoleID e) (e_ScopeType e)
      (e_ScopeID e) (e_AppID e) (e_RequesterSubjectType e) (e_RequesterSubjectID e)
      (e_AllowedDurations e) (e_MaxDurationSeconds e) (e_ApproverSubjectType e)
      (e_ApproverSubjectID e) (e_RequireJustification e) (e_RequireStepUp e)
      (e_Status e) t (e_CreatedBy e) t]>))).

Definition repo_GetEligibility (id tenantID : Z) : Op Eligibility :=
  do! stmt in
  let! d := gets db in
  match eligs d !! id with
  | Some e => if e_TenantID e =? tenantID then ret e else throw ErrEligibilityNotFound
  | None => throw ErrEligibilityNotFound
  end.

(** [Order("created_at DESC")] *)
Definition elig_newer (a b : Eligibility) : Prop := e_CreatedAt b <= e_CreatedAt a.
#[local] Instance elig_newer_dec : RelDecision elig_newer.
Proof. intros a b. unfold elig_newer. apply _. Defined.

Definition repo_ListEligibility (tenantID : Z) : Op (list Eligibility) :=
  do! stmt in
  let! d := gets db in
  ret (merge_sort elig_newer
         (filter (fun e => e_TenantID e = tenantID) (map_to_list (eligs d)).*2)).

(** UPDATE of the columns named in [Select(...)], WHERE id and tenant_id. *)
Definition elig_overwrite (e old : Eligibility) (t : Z) : Eligibility :=
  mkEligibility (e_ID old) (e_TenantID old) (e_TargetKind e) (e_RoleID e) (e_ScopeType e)
    (e_ScopeID e) (e_AppID e) (e_RequesterSubjectType e) (e_RequesterSubjectID e)
    (e_AllowedDurations e) (e_MaxDurationSeconds e) (e_ApproverSubjectType e)
    (e_ApproverSubjectID e) (e_RequireJustification e) (e_RequireStepUp e)
    (e_Status old) (e_CreatedAt old) (e_CreatedBy old) t.

Definition repo_UpdateEligibility (e : Eligibility) : Op unit :=
  let! t := now in
  do! stmt in
  modify (set_db (set_eligs (alter (fun old =>
    if e_TenantID old =? e_TenantID e then elig_overwrite e old t else old) (e_ID e)))).

Definition repo_DeleteEligibility (id tenantID : Z) : Op unit :=
  do! stmt in
  modify (set_db (set_eligs (fun m =>
    match m !! id with
    | Some e => if e_TenantID e =? tenantID then delete id m else m
    | None => m
    end))).

Definition repo_CreateRequest (r : Request) : Op unit :=
  do! stmt in
  let! t := now in
  let! d := gets db in
  do! guard (bool_decide (is_Some (reqs d !! r_ID r))) ErrDB in
  modify (set_db (set_reqs (<[r_ID r :=
    mkRequest (r_ID r) (r_TenantID r) (r_RequesterID r) (r_EligibilityID r) (r_TargetKind r)
      (r_RoleID r) (r_ScopeType r) (r_ScopeID r) (r_AppID r) (r_RequestedSeconds r)
      (r_Justification r) (r_Status r) (r_ApproverID r) (r_DecidedAt r) (r_DecisionReason r)
      (r_ActivatedAt r) (r_ExpiresAt r) (r_BindingID r) t t]>))).

Definition repo_GetRequest (id tenantID : Z) : Op Request :=
  do! stmt in
  let! d := gets db in
  match reqs d !! id with
  | Some r => if r_TenantID r =? tenantID then ret r else throw ErrRequestNotFound
  | None => throw ErrRequestNotFound
  end.

(** COALESCE(x, '') and COALESCE(x, 0) *)
Definition coalesce_s (o : option string) : string := default ""%string o.
Definition coalesce_z (o : option Z) : Z := default 0 o.

(** The rows the supersede-DELETE of a console grant hits. *)
Definition role_superseded (req : Request) (b : RoleBinding) : bool :=
  (rb_role_id b =? r_RoleID req)
  && bool_decide (rb_subject_type b = "user"%string)
  && (rb_subject_id b =? r_RequesterID req)
  && bool_decide (coalesce_s (rb_scope_type b) = coalesce_s (r_ScopeType req))
  && (coalesce_z (rb_scope_id b) =? coalesce_z (r_ScopeID req)).

(** The rows the supersede-DELETE of an app grant hits. *)
Definition app_superseded (req : Request) (appID : Z) (b : AppRoleBinding) : bool :=
  bool_decide (arb_app_id b = Some appID)
  && (arb_tenant_id b =? r_TenantID req)
  && (arb_app_role_id b =? r_RoleID req)
  && bool_decide (arb_subject_type b = "user"%string)
  && (arb_subject_id b =? r_RequesterID req)
  && bool_decide (arb_app_group_id b = None).

Definition insertBindingTx (req : Request) (bindingID expiresAt : Z) : Op unit :=
  if bool_decide (r_TargetKind req = TargetConsole) then
    do! stmt in
    do! modify (set_db (set_role_bindings (filter (fun '(_, b) => role_superseded req b = false)))) in
    do! stmt in
    let! d := gets db in
    do! guard (bool_decide (is_Some (role_bindings d !! bindingID))) ErrDB in
    modify (set_db (set_role_bindings (<[bindingID :=
      mkRB (r_RoleID req) "user" (r_RequesterID req) (r_ScopeType req) (r_ScopeID req)
        (Some (r_ID req)) (Some expiresAt) BindingActive]>)))
  else if bool_decide (r_TargetKind req = TargetApp) then
    match r_AppID req with
    | None => throw ErrAppIDRequired
    | Some appID =>
        do! stmt in
        do! modify (set_db (set_app_bindings (filter (fun '(_, b) => app_superseded req appID b = false)))) in
        do! stmt in
        let! d := gets db in
        do! guard (bool_decide (is_Some (app_bindings d !! bindingID))) ErrDB in
        modify (set_db (set_app_bindings (<[bindingID :=
          mkARB (Some appID) None (r_TenantID req) (r_RoleID req) "user" (r_RequesterID req)
            (Some (r_ID req)) (Some expiresAt) BindingActive]>)))
    end
  else throw ErrUnknownTargetKind.

(** The SET clause of the approving UPDATE. *)
Definition approved_row (old : Request) (approverID t expiresAt bindingID : Z) : Request :=
  mkRequest (r_ID old) (r_TenantID old) (r_RequesterID old) (r_EligibilityID old)
    (r_TargetKind old) (r_RoleID old) (r_ScopeType old) (r_ScopeID old) (r_AppID old)
    (r_RequestedSeconds old) (r_Justification old) StatusApproved (Some approverID) (Some t)
    (r_DecisionReason old) (Some t) (Some expiresAt) (Some bindingID) (r_CreatedAt old) t.

(** [UPDATE ... WHERE id = ? AND tenant_id = ? AND status = 'pending'] followed
    by the [RowsAffected == 0] test. *)
Definition approve_update (req : Request) (approverID t expiresAt bindingID : Z) : Op unit :=
  do! stmt in
  let! d := gets db in
  match reqs d !! r_ID req with
  | Some old =>
      if (r_TenantID old =? r_TenantID req) && bool_decide (r_Status old = StatusPending)
      then modify (set_db (set_reqs (<[r_ID req := approved_row old approverID t expiresAt bindingID]>)))
      else throw ErrRequestNotPending
  | None => throw ErrRequestNotPending
  end.

Definition ApproveAndGrant (req : Request) (approverID expiresAt newBindingID : Z) : Op unit :=
  let! t := now in
  Transaction (
    do! insertBindingTx req newBindingID expiresAt in
    approve_update req approverID t expiresAt newBindingID).

(** The SET clause of the reject/cancel UPDATE. *)
Definition decided_row (old : Request) (status : Status) (reason : string)
    (approverID : option Z) (t : Z) : Request :=
  mkRequest (r_ID old) (r_TenantID old) (r_RequesterID old) (r_EligibilityID old)
    (r_TargetKind old) (r_RoleID old) (r_ScopeType old) (r_ScopeID old) (r_AppID old)
    (r_RequestedSeconds old) (r_Justification old) status
    (match approverID with Some a => Some a | None => r_ApproverID old end) (Some t)
    reason (r_ActivatedAt old) (r_ExpiresAt old) (r_BindingID old) (r_CreatedAt old) t.

Definition UpdateRequestStatus (id tenantID : Z) (status : Status) (reason : string)
    (approverID : option Z) : Op unit :=
  do! stmt in
  let! t := now in
  modify (set_db (set_reqs (alter (fun old =>
    if r_TenantID old =? tenantID then decided_row old status reason approverID t else old) id))).

(** The SET clause of the grant-ending UPDATE. *)
Definition ended_row (old : Request) (finalStatus : Status) (t : Z) : Request :=
  mkRequest (r_ID old) (r_TenantID old) (r_RequesterID old) (r_EligibilityID old)
    (r_TargetKind old) (r_RoleID old) (r_ScopeType old) (r_ScopeID old) (r_AppID old)
    (r_RequestedSeconds old) (r_Justification old) finalStatus (r_ApproverID old)
    (r_DecidedAt old) (r_DecisionReason old) (r_ActivatedAt old) (r_ExpiresAt old)
    (r_BindingID old) (r_CreatedAt old) t.

(** [DELETE FROM <bindingTable(kind)> WHERE id = ?] *)
Definition delete_binding (kind : string) (bindingID : Z) : DB -> DB :=
  if bool_decide (kind = TargetApp)
  then set_app_bindings (delete bindingID)
  else set_role_bindings (delete bindingID).

Definition EndGrant (req : Request) (finalStatus : Status) (bindingStatus : Z) : Op unit :=
  Transaction (
    do! (match r_BindingID req with
         | Some b => do! stmt in modify (set_db (delete_binding (r_TargetKind req) b))
         | None => ret tt
         end) in
    do! stmt in
    let! t := now in
    modify (set_db (set_reqs (alter (fun old =>
      if r_TenantID old =? r_TenantID req then ended_row old finalStatus t else old) (r_ID req))))).

(** WHERE status = 'approved' AND expires_at IS NOT NULL AND expires_at <= NOW() *)
Definition grant_due (t : Z) (r : Request) : bool :=
  bool_decide (r_Status r = StatusApproved)
  && match r_ExpiresAt r with Some x => x <=? t | None => false end.

Definition ListDueGrants : Op (list Request) :=
  do! stmt in
  let! t := now in
  let! d := gets db in
  ret (filter (fun r => grant_due t r = true) (map_to_list (reqs d)).*2).

(** ** service.go *)

Definition maxEligibilityTTL : Z := 604800.

Definition validateEligibilityRequest (req : CreateEligibilityRequest) : option Error :=
  if negb (bool_decide (c_TargetKind req = TargetConsole))
     && negb (bool_decide (c_TargetKind req = TargetApp)) then Some ErrInvalidEligibility
  else if bool_decide (c_TargetKind req = TargetApp)
     && bool_decide (c_AppID req = None) then Some ErrInvalidEligibility
  else if bool_decide (c_AllowedDurations req = []) then Some ErrInvalidEligibility
  else if (c_MaxDurationSeconds req <=? 0)
     || (maxEligibilityTTL <? c_MaxDurationSeconds req) then Some ErrInvalidEligibility
  else if existsb (fun d => (d <=? 0) || (c_MaxDurationSeconds req <? d))
            (c_AllowedDurations req) then Some ErrInvalidEligibility
  else None.

Definition orDefault (v d : string) : string :=
  if bool_decide (v = ""%string) then d else v.
Definition boolOrDefault (p : option bool) (d : bool) : bool := default d p.

Definition publish (ty : EventType) (req : Request) (extra : option Z) : Op unit :=
  if bus then
    emit (Published ty (RequestPayload (r_ID req) (r_TenantID req) (r_RequesterID req)
            (r_TargetKind req) (r_RoleID req) (r_AppID req) (r_ExpiresAt req) extra))
  else ret tt.

Definition publishEligibility (ty : EventType) (e : Eligibility) : Op unit :=
  if bus then
    emit (Published ty (EligibilityPayload (e_ID e) (e_TenantID e) (e_TargetKind e)
            (e_RoleID e) (e_AppID e)))
  else ret tt.

Definition terminateIfApp (req : Request) : Op unit :=
  if bool_decide (r_TargetKind req = TargetApp) then
    match r_AppID req with
    | Some a => emit (Terminated (r_TenantID req) (r_RequesterID req) a)
    | None => ret tt
    end
  else ret tt.

(** [s.cache.Invalidate]: best effort, its error is only logged. *)
Definition invalidate (tenantID userID : Z) : Op unit := emit (Invalidated tenantID userID).

Definition validated (req : CreateEligibilityRequest) : Op unit :=
  match validateEligibilityRequest req with Some e => throw e | None => ret tt end.

Definition CreateEligibility (tenantID : Z) (createdBy : option Z)
    (req : CreateEligibilityRequest) : Op Eligibility :=
  do! validated req in
  let! id := generate in
  let e := mkEligibility id tenantID (c_TargetKind req) (c_RoleID req) (c_ScopeType req)
    (c_ScopeID req) (c_AppID req) (c_RequesterSubjectType req) (c_RequesterSubjectID req)
    (c_AllowedDurations req) (c_MaxDurationSeconds req)
    (orDefault (c_ApproverSubjectType req) ApproverRole) (c_ApproverSubjectID req)
    (boolOrDefault (c_RequireJustification req) true)
    (boolOrDefault (c_RequireStepUp req) true) 1 0 createdBy 0 in
  do! repo_CreateEligibility e in
  do! publishEligibility EventEligibilityCreated e in
  ret e.

Definition UpdateEligibility (tenantID id : Z) (req : CreateEligibilityRequest) : Op Eligibility :=
  do! validated req in
  let! existing := repo_GetEligibility id tenantID in
  let e := mkEligibility (e_ID existing) (e_TenantID existing) (c_TargetKind req) (c_RoleID req)
    (c_ScopeType req) (c_ScopeID req) (c_AppID req) (c_RequesterSubjectType req)
    (c_RequesterSubjectID req) (c_AllowedDurations req) (c_MaxDurationSeconds req)
    (orDefault (c_ApproverSubjectType req) ApproverRole) (c_ApproverSubjectID req)
    (boolOrDefault (c_RequireJustification req) (e_RequireJustification existing))
    (boolOrDefault (c_RequireStepUp req) (e_RequireStepUp existing))
    (e_Status existing) (e_CreatedAt existing) (e_CreatedBy existing) (e_UpdatedAt existing) in
  do! repo_UpdateEligibility e in
  do! publishEligibility EventEligibilityUpdated e in
  ret e.

Definition DeleteEligibility (id tenantID : Z) : Op unit :=
  let! existing := repo_GetEligibility id tenantID in
  do! repo_DeleteEligibility id tenantID in
  publishEligibility EventEligibilityDeleted existing.

Definition requesterEligible (tenantID userID : Z) (e : Eligibility) : bool :=
  if bool_decide (e_RequesterSubjectType e = "any"%string) then true
  else if bool_decide (e_RequesterSubjectType e = "user"%string)
       then e_RequesterSubjectID e =? userID
  else if bool_decide (e_RequesterSubjectType e = "group"%string)
       then UserInGroup matcher tenantID userID (e_RequesterSubjectID e)
  else if bool_decide (e_RequesterSubjectType e = "org"%string)
       then UserInOrg matcher tenantID userID (e_RequesterSubjectID e)
  else false.

Definition ListEligibilityForRequester (tenantID userID : Z) : Op (list Eligibility) :=
  let! all := repo_ListEligibility tenantID in
  ret (filter (fun e => (e_Status e =? 1) && requesterEligible tenantID userID e = true) all).

Definition approverAllowed (tenantID approverID : Z) (e : Eligibility) : bool :=
  if match superAdmin with Some sa => sa approverID | None => false end then true
  else if bool_decide (e_ApproverSubjectType e = ApproverAuto) then true
  else if bool_decide (e_ApproverSubjectType e = ApproverUser)
       then e_ApproverSubjectID e =? approverID
  else if bool_decide (e_ApproverSubjectType e = ApproverRole)
       then UserHasRole matcher tenantID approverID (e_ApproverSubjectID e)
  else if bool_decide (e_ApproverSubjectType e = ApproverGroup)
       then UserInGroup matcher tenantID approverID (e_ApproverSubjectID e)
  else false.

(** [time.Now().Add(time.Duration(secs) * time.Second)] *)
Definition expiry (t secs : Z) : Z := t + wrap64 (secs * 1000000000).

(** The in-memory copy returned to the caller: only three fields change. *)
Definition granted_copy (req : Request) (expiresAt bindingID : Z) : Request :=
  mkRequest (r_ID req) (r_TenantID req) (r_RequesterID req) (r_EligibilityID req)
    (r_TargetKind req) (r_RoleID req) (r_ScopeType req) (r_ScopeID req) (r_AppID req)
    (r_RequestedSeconds req) (r_Justification req) StatusApproved (r_ApproverID req)
    (r_DecidedAt req) (r_DecisionReason req) (r_ActivatedAt req) (Some expiresAt)
    (Some bindingID) (r_CreatedAt req) (r_UpdatedAt req).

Definition Approve (tenantID requestID approverID : Z) (reason : string) : Op Request :=
  let! req := repo_GetRequest requestID tenantID in
  do! guard (negb (bool_decide (r_Status req = StatusPending))) ErrRequestNotPending in
  do! guard (approverID =? r_RequesterID req) ErrSelfApproval in
  let! elig := repo_GetEligibility (r_EligibilityID req) tenantID in
  do! guard (negb (approverAllowed tenantID approverID elig)) ErrApproverNotEligible in
  let! t := now in
  let expiresAt := expiry t (r_RequestedSeconds req) in
  let! bindingID := generate in
  do! ApproveAndGrant req approverID expiresAt bindingID in
  let req' := granted_copy req expiresAt bindingID in
  do! invalidate tenantID (r_RequesterID req') in
  do! publish EventRequestApproved req' None in
  do! publish EventGrantActivated req' (Some approverID) in
  ret req'.

Definition CreateRequest (tenantID requesterID : Z) (inp : CreateAccessRequest) : Op Request :=
  let! elig := repo_GetEligibility (a_EligibilityID inp) tenantID in
  do! guard (negb (e_Status elig =? 1)) ErrRequestNotAllowed in
  do! guard (negb (requesterEligible tenantID requesterID elig)) ErrRequestNotAllowed in
  do! guard (negb (DurationAllowed elig (a_RequestedSeconds inp))) ErrRequestNotAllowed in
  do! guard (e_RequireJustification elig
             && bool_decide (a_Justification inp = ""%string)) ErrRequestNotAllowed in
  let secs := ClampDuration elig (a_RequestedSeconds inp) in
  let! id := generate in
  let req := mkRequest id tenantID requesterID (e_ID elig) (e_TargetKind elig) (e_RoleID elig)
    (e_ScopeType elig) (e_ScopeID elig) (e_AppID elig) secs (a_Justification inp)
    StatusPending None None "" None None None 0 0 in
  do! repo_CreateRequest req in
  do! publish EventRequestCreated req None in
  if bool_decide (e_ApproverSubjectType elig = ApproverAuto)
  then Approve tenantID (r_ID req) 0 "auto-approved"
  else ret req.

Definition Reject (tenantID requestID approverID : Z) (reason : string) : Op unit :=
  let! req := repo_GetRequest requestID tenantID in
  do! guard (negb (bool_decide (r_Status req = StatusPending))) ErrRequestNotPending in
  do! UpdateRequestStatus requestID tenantID StatusRejected reason (Some approverID) in
  publish EventRequestRejected req None.

Definition Cancel (tenantID requestID requesterID : Z) : Op unit :=
  let! req := repo_GetRequest requestID tenantID in
  do! guard (negb (r_RequesterID req =? requesterID)) ErrRequestNotCancellable in
  do! guard (negb (bool_decide (r_Status req = StatusPending))) ErrRequestNotCancellable in
  do! UpdateRequestStatus requestID tenantID StatusCancelled "" None in
  publish EventRequestCancelled req None.

Definition Revoke (tenantID requestID actorID : Z) : Op unit :=
  let! req := repo_GetRequest requestID tenantID in
  do! guard (negb (bool_decide (r_Status req = StatusApproved))) ErrGrantNotRevocable in
  do! EndGrant req StatusRevoked BindingRevoked in
  do! invalidate tenantID (r_RequesterID req) in
  do! publish EventGrantRevoked req None in
  terminateIfApp req.

Definition Expire (req : Request) : Op unit :=
  do! EndGrant req StatusExpired BindingExpired in
  do! invalidate (r_TenantID req) (r_RequesterID req) in
  do! publish EventGrantExpired req None in
  terminateIfApp req.

(** ** sweeper.go *)

(** The loop over the due grants: a failed [Expire] is logged and skipped. *)
Fixpoint expire_all (due : list Request) : Op nat :=
  match due with
  | [] => ret 0%nat
  | req :: due' =>
      attempt (Expire req) (fun r =>
        let! n := expire_all due' in
        ret (match r with Ok _ => S n | Err _ => n end))
  end.

Definition sweepOnce : Op nat :=
  attempt ListDueGrants (fun r =>
    match r with
    | Err _ => ret 0%nat
    | Ok due => expire_all due
    end).

End Ops.
