(* ===== verification/AccessSpec.v ===== *)
(** * AccessSpec: what the access operations do to the store

    Inversion lemmas for the repository writes, the grant invariant
    [grants_sound], the atomic commits [db_commit] the handlers are made of and
    the proofs that every commit keeps the invariant and follows the request
    lifecycle. *)

From stdpp Require Import sorting.
From S2P Require Import Prelude Access.

(** ** What each repository write does to the store *)

Section Specs.
Context {G : Type} `{IdGen G}.
Implicit Types (w : World G) (d : DB) (req old : Request).

(** The store after the grant row is inserted (supersede, then insert). *)
Definition insert_binding (req : Request) (bindingID expiresAt : Z) (d : DB) : DB :=
  if bool_decide (r_TargetKind req = TargetConsole) then
    set_role_bindings (fun m => <[bindingID :=
      mkRB (r_RoleID req) "user" (r_RequesterID req) (r_ScopeType req) (r_ScopeID req)
        (Some (r_ID req)) (Some expiresAt) BindingActive]>
      (filter (fun '(_, b) => role_superseded req b = false) m)) d
  else match r_AppID req with
  | Some appID => set_app_bindings (fun m => <[bindingID :=
      mkARB (Some appID) None (r_TenantID req) (r_RoleID req) "user" (r_RequesterID req)
        (Some (r_ID req)) (Some expiresAt) BindingActive]>
      (filter (fun '(_, b) => app_superseded req appID b = false) m)) d
  | None => d
  end.

(** A request whose grant can be materialised. *)
Definition grantable (req : Request) : Prop :=
  r_TargetKind req = TargetConsole \/ (r_TargetKind req = TargetApp /\ is_Some (r_AppID req)).

Definition grant_db (req old : Request) (approverID t expiresAt bindingID : Z) (d : DB) : DB :=
  set_reqs (<[r_ID req := approved_row old approverID t expiresAt bindingID]>)
    (insert_binding req bindingID expiresAt d).

Definition end_db (req : Request) (st : Status) (t : Z) (d : DB) : DB :=
  set_reqs (alter (fun old =>
      if r_TenantID old =? r_TenantID req then ended_row old st t else old) (r_ID req))
    (match r_BindingID req with
     | Some b => delete_binding (r_TargetKind req) b d
     | None => d
     end).

Lemma insert_binding_reqs req b x d : reqs (insert_binding req b x d) = reqs d.
Proof. unfold insert_binding. repeat case_match; reflexivity. Qed.

Lemma stmt_ok w w' u :
  stmt w = (w', Ok u) ->
  faults w (calls w) = false /\
  w' = mkWorld (db w) (gen w) (trace w) (clock w) (reads w) (faults w) (S (calls w)).
Proof. unfold stmt. destruct (faults w (calls w)); intros; simplify_eq; auto. Qed.

Lemma stmt_err w w' e :
  stmt w = (w', Err e) ->
  faults w (calls w) = true /\ e = ErrDB /\
  w' = mkWorld (db w) (gen w) (trace w) (clock w) (reads w) (faults w) (S (calls w)).
Proof. unfold stmt. destruct (faults w (calls w)); intros; simplify_eq; auto. Qed.

End Specs.

Ltac mprim H ::=
  lazymatch type of H with
  | stmt _ = (_, Ok _) =>
      let Hf := fresh "Hf" in apply stmt_ok in H as [Hf H]; subst
  | stmt _ = (_, Err _) =>
      let Hf := fresh "Hf" in apply stmt_err in H as (Hf & ? & H); subst
  | now _ = _ => unfold now in H; inv_pair H
  | emit _ _ = _ => unfold emit, modify in H; inv_pair H
  | invalidate _ _ _ = _ => unfold invalidate, emit, modify in H; inv_pair H
  end.

Section Specs2.
Context {G : Type} `{IdGen G}.
Implicit Types (w : World G) (d : DB) (req old : Request).

(** Operations that call nothing outside the store and leave the environment
    as it is. *)
Class Silent {A} (m : M (World G) Error A) : Prop :=
  silent : forall w w' r, m w = (w', r) ->
    trace w' = trace w /\ clock w' = clock w /\ faults w' = faults w
    /\ (reads w <= reads w')%nat /\ (calls w <= calls w')%nat.

(** Operations that do not write the store. *)
Class ReadOnly {A} (m : M (World G) Error A) : Prop :=
  read_only : forall w w' r, m w = (w', r) -> db w' = db w.

#[export] Instance ret_silent {A} (a : A) : Silent (ret a).
Proof. intros w w' r Hr. unfold ret in Hr. simplify_eq. auto. Qed.
#[export] Instance throw_silent {A} e : Silent (throw (A := A) e).
Proof. intros w w' r Hr. unfold throw in Hr. simplify_eq. auto. Qed.
#[export] Instance gets_silent {A} (f : World G -> A) : Silent (gets f).
Proof. intros w w' r Hr. unfold gets in Hr. simplify_eq. auto. Qed.
#[export] Instance set_db_silent f : Silent (modify (set_db f)).
Proof. intros w w' r Hr. unfold modify in Hr. simplify_eq. simpl. auto. Qed.
#[export] Instance stmt_silent : Silent stmt.
Proof. intros w w' r Hr. unfold stmt in Hr. simplify_eq. simpl. repeat split; auto; lia. Qed.
#[export] Instance now_silent : Silent now.
Proof. intros w w' r Hr. unfold now in Hr. simplify_eq. simpl. repeat split; auto; lia. Qed.
#[export] Instance guard_silent b e : Silent (guard b e).
Proof. unfold guard. destruct b; apply _. Qed.
#[export] Instance generate_silent : Silent generate.
Proof.
  intros w w' r Hr. unfold generate in Hr. destruct (Generate (gen w)).
  simplify_eq. simpl. auto.
Qed.
#[export] Instance bind_silent {A B} (m : M (World G) Error A) (k : A -> M (World G) Error B) :
  Silent m -> (forall a, Silent (k a)) -> Silent (bind m k).
Proof.
  intros Hm Hk w w' r Hr. unfold bind in Hr.
  destruct (m w) as [w1 [a|e]] eqn:E; apply Hm in E; [apply Hk in Hr | simplify_eq]; intuition (lia || congruence).
Qed.
#[export] Instance if_silent {A} (b : bool) (m1 m2 : M (World G) Error A) :
  Silent m1 -> Silent m2 -> Silent (if b then m1 else m2).
Proof. destruct b; auto. Qed.
#[export] Instance opt_silent {A B} (o : option B) (f : B -> M (World G) Error A) (m : M (World G) Error A) :
  (forall b, Silent (f b)) -> Silent m -> Silent (match o with Some b => f b | None => m end).
Proof. destruct o; auto. Qed.
#[export] Instance Transaction_silent {A} (m : M (World G) Error A) :
  Silent m -> Silent (Transaction m).
Proof.
  intros Hm w w' r Hr. unfold Transaction in Hr.
  destruct (bind m _ w) as [w1 [a|e]] eqn:E; simplify_eq;
    apply (bind_silent m (fun a => bind stmt (fun _ => ret a)) _ _) in E; exact E.
Qed.

#[export] Instance ret_ro {A} (a : A) : ReadOnly (ret a).
Proof. intros w w' r Hr. unfold ret in Hr. by simplify_eq. Qed.
#[export] Instance throw_ro {A} e : ReadOnly (throw (A := A) e).
Proof. intros w w' r Hr. unfold throw in Hr. by simplify_eq. Qed.
#[export] Instance gets_ro {A} (f : World G -> A) : ReadOnly (gets f).
Proof. intros w w' r Hr. unfold gets in Hr. by simplify_eq. Qed.
#[export] Instance stmt_ro : ReadOnly stmt.
Proof. intros w w' r Hr. unfold stmt in Hr. by simplify_eq. Qed.
#[export] Instance now_ro : ReadOnly now.
Proof. intros w w' r Hr. unfold now in Hr. by simplify_eq. Qed.
#[export] Instance guard_ro b e : ReadOnly (guard b e).
Proof. unfold guard. destruct b; apply _. Qed.
#[export] Instance generate_ro : ReadOnly generate.
Proof. intros w w' r Hr. unfold generate in Hr. destruct (Generate (gen w)). by simplify_eq. Qed.
#[export] Instance emit_ro e : ReadOnly (emit e).
Proof. intros w w' r Hr. unfold emit, modify in Hr. by simplify_eq. Qed.
#[export] Instance invalidate_ro t u : ReadOnly (invalidate t u).
Proof. unfold invalidate. apply _. Qed.
#[export] Instance bind_ro {A B} (m : M (World G) Error A) (k : A -> M (World G) Error B) :
  ReadOnly m -> (forall a, ReadOnly (k a)) -> ReadOnly (bind m k).
Proof.
  intros Hm Hk w w' r Hr. unfold bind in Hr.
  destruct (m w) as [w1 [a|e]] eqn:E; apply Hm in E; [apply Hk in Hr | simplify_eq]; congruence.
Qed.
#[export] Instance if_ro {A} (b : bool) (m1 m2 : M (World G) Error A) :
  ReadOnly m1 -> ReadOnly m2 -> ReadOnly (if b then m1 else m2).
Proof. destruct b; auto. Qed.
#[export] Instance opt_ro {A B} (o : option B) (f : B -> M (World G) Error A) (m : M (World G) Error A) :
  (forall b, ReadOnly (f b)) -> ReadOnly m -> ReadOnly (match o with Some b => f b | None => m end).
Proof. destruct o; auto. Qed.

(** Operations that cannot fail, and operations whose failure leaves no trace:
    neither the store nor the outside saw anything. *)
Class NoFail {A} (m : M (World G) Error A) : Prop :=
  no_fail : forall w w' e, m w <> (w', Err e).
Class Atomic {A} (m : M (World G) Error A) : Prop :=
  atomic : forall w w' e, m w = (w', Err e) -> db w' = db w /\ trace w' = trace w.

#[export] Instance ret_nf {A} (a : A) : NoFail (ret a).
Proof. by intros w w' e. Qed.
#[export] Instance modify_nf f : NoFail (modify f).
Proof. by intros w w' e. Qed.
#[export] Instance emit_nf e : NoFail (emit e).
Proof. by intros w w' x. Qed.
#[export] Instance invalidate_nf t u : NoFail (invalidate t u).
Proof. by intros w w' x. Qed.
#[export] Instance bind_nf {A B} (m : M (World G) Error A) (k : A -> M (World G) Error B) :
  NoFail m -> (forall a, NoFail (k a)) -> NoFail (bind m k).
Proof.
  intros Hm Hk w w' e Hr. apply bind_err in Hr as [Hr | (? & ? & _ & Hr)];
    [by apply Hm in Hr | by apply Hk in Hr].
Qed.
#[export] Instance publish_nf bus ty req x : NoFail (publish bus ty req x).
Proof. unfold publish. destruct bus; apply _. Qed.
#[export] Instance publishEligibility_nf bus ty e : NoFail (publishEligibility bus ty e).
Proof. unfold publishEligibility. destruct bus; apply _. Qed.
#[export] Instance terminateIfApp_nf req : NoFail (terminateIfApp req).
Proof. unfold terminateIfApp. repeat case_match; apply _. Qed.

Lemma quiet_atomic {A} (m : M (World G) Error A) : Silent m -> ReadOnly m -> Atomic m.
Proof.
  intros Hs Hr w w' e Hm. split; [by eapply Hr|]. by apply Hs in Hm as [? _].
Qed.
Lemma tx_atomic {A} (m : M (World G) Error A) : Silent m -> Atomic (Transaction m).
Proof.
  intros Hs w w' e Hm. split.
  - revert Hm. unfold Transaction. destruct (bind m _ w) as [w1 [a'|e']]; intros; by simplify_eq.
  - by apply (Transaction_silent m) in Hm as [? _].
Qed.
(** reads and guards first, ... *)
Lemma bind_atomic_read {A B} (m : M (World G) Error A) (k : A -> M (World G) Error B) :
  Silent m -> ReadOnly m -> (forall a, Atomic (k a)) -> Atomic (bind m k).
Proof.
  intros Hs Hr Hk w w' e Hb. apply bind_err in Hb as [Hb | (a & w1 & Hm & Hb)].
  - by apply (quiet_atomic m) in Hb.
  - apply Hk in Hb as [-> ->]. split; [by eapply Hr | by apply Hs in Hm as [? _]].
Qed.
(** ... then the one write, then reports that cannot fail. *)
Lemma bind_atomic_tail {A B} (m : M (World G) Error A) (k : A -> M (World G) Error B) :
  Atomic m -> (forall a, NoFail (k a)) -> Atomic (bind m k).
Proof.
  intros Hm Hk w w' e Hb. apply bind_err in Hb as [Hb | (a & w1 & _ & Hb)];
    [by apply Hm in Hb | by apply Hk in Hb].
Qed.

#[export] Instance GetRequest_silent id t : Silent (repo_GetRequest id t).
Proof. unfold repo_GetRequest. apply _. Qed.
#[export] Instance GetRequest_ro id t : ReadOnly (repo_GetRequest id t).
Proof. unfold repo_GetRequest. apply _. Qed.
#[export] Instance GetEligibility_silent id t : Silent (repo_GetEligibility id t).
Proof. unfold repo_GetEligibility. apply _. Qed.
#[export] Instance GetEligibility_ro id t : ReadOnly (repo_GetEligibility id t).
Proof. unfold repo_GetEligibility. apply _. Qed.
#[export] Instance insertBindingTx_silent req b x : Silent (insertBindingTx req b x).
Proof. unfold insertBindingTx. apply _. Qed.
#[export] Instance approve_update_silent req a t x b : Silent (approve_update req a t x b).
Proof. unfold approve_update. apply _. Qed.
#[export] Instance ApproveAndGrant_silent req a x b : Silent (ApproveAndGrant req a x b).
Proof. unfold ApproveAndGrant. apply _. Qed.
#[export] Instance UpdateRequestStatus_silent id t st rs a : Silent (UpdateRequestStatus id t st rs a).
Proof. unfold UpdateRequestStatus. apply _. Qed.
#[export] Instance EndGrant_silent req st bs : Silent (EndGrant req st bs).
Proof. unfold EndGrant. apply _. Qed.
#[export] Instance publish_ro bus ty req x : ReadOnly (publish bus ty req x).
Proof. unfold publish. apply _. Qed.
#[export] Instance terminateIfApp_ro req : ReadOnly (terminateIfApp req).
Proof. unfold terminateIfApp. apply _. Qed.

Lemma Transaction_ok {A} (m : M (World G) Error A) w w' a :
  Transaction m w = (w', Ok a) -> exists w1, m w = (w1, Ok a) /\ db w' = db w1.
Proof.
  unfold Transaction. destruct (bind m _ w) as [w1 [a'|e]] eqn:E; intros Hr; simplify_eq.
  minv E. eauto.
Qed.

Lemma Transaction_err {A} (m : M (World G) Error A) w w' e :
  Transaction m w = (w', Err e) -> db w' = db w.
Proof.
  unfold Transaction. destruct (bind m _ w) as [w1 [a'|e']]; intros; by simplify_eq.
Qed.

Lemma insertBindingTx_ok req b x w w' u :
  insertBindingTx req b x w = (w', Ok u) ->
  db w' = insert_binding req b x (db w) /\ grantable req
  /\ trace w' = trace w /\ clock w' = clock w /\ reads w' = reads w.
Proof.
  unfold insertBindingTx. intros Hr. minv Hr; to_prop; simpl in *.
  all: unfold insert_binding, grantable, TargetConsole, TargetApp in *.
  all: repeat case_bool_decide; simplify_eq; simpl.
  all: try match goal with Hx : r_AppID _ = Some _ |- _ => rewrite Hx end; eauto 10.
Qed.

Lemma GetRequest_ok id t w w' req :
  repo_GetRequest id t w = (w', Ok req) ->
  reqs (db w) !! id = Some req /\ r_TenantID req = t /\ db w' = db w.
Proof.
  intros Hr. assert (db w' = db w) by exact (read_only _ _ _ Hr).
  unfold repo_GetRequest in Hr. minv Hr; simpl in *; to_prop; auto.
Qed.

Lemma GetEligibility_ok id t w w' e :
  repo_GetEligibility id t w = (w', Ok e) ->
  eligs (db w) !! id = Some e /\ e_TenantID e = t /\ db w' = db w.
Proof.
  intros Hr. assert (db w' = db w) by exact (read_only _ _ _ Hr).
  unfold repo_GetEligibility in Hr. minv Hr; simpl in *; to_prop; auto.
Qed.

(** The conditions under which the grant transaction commits. *)
Lemma ApproveAndGrant_ok req a x b w w' u :
  ApproveAndGrant req a x b w = (w', Ok u) ->
  exists old, reqs (db w) !! r_ID req = Some old /\ r_TenantID old = r_TenantID req
    /\ r_Status old = StatusPending /\ grantable req
    /\ db w' = grant_db req old a (clock w (reads w)) x b (db w).
Proof.
  unfold ApproveAndGrant. intros Hr. apply bind_ok in Hr as (t & w1 & Hn & Hr).
  minv Hn. apply Transaction_ok in Hr as (w2 & Hr & Hdb).
  apply bind_ok in Hr as (? & w3 & Hi & Hr).
  apply insertBindingTx_ok in Hi as (Hdb3 & Hg & _).
  unfold approve_update in Hr. minv Hr; simpl in *; to_prop.
  rewrite Hdb3, insert_binding_reqs in Hc. simpl in Hc.
  eexists. split_and!; eauto. rewrite Hdb. simpl. rewrite Hdb3. reflexivity.
Qed.

Lemma ApproveAndGrant_err req a x b w w' e :
  ApproveAndGrant req a x b w = (w', Err e) -> db w' = db w.
Proof.
  unfold ApproveAndGrant. intros Hr. apply bind_err in Hr as [Hr | (? & ? & Hn & Hr)].
  - minv Hr.
  - minv Hn. apply Transaction_err in Hr. exact Hr.
Qed.

Lemma UpdateRequestStatus_ok id t st rs a w w' u :
  UpdateRequestStatus id t st rs a w = (w', Ok u) ->
  db w' = set_reqs (alter (fun old => if r_TenantID old =? t
             then decided_row old st rs a (clock w (reads w)) else old) id) (db w).
Proof. unfold UpdateRequestStatus. intros Hr. minv Hr. reflexivity. Qed.

Lemma UpdateRequestStatus_err id t st rs a w w' e :
  UpdateRequestStatus id t st rs a w = (w', Err e) -> db w' = db w.
Proof. unfold UpdateRequestStatus. intros Hr. minv Hr. reflexivity. Qed.

Lemma EndGrant_ok req st bs w w' u :
  EndGrant req st bs w = (w', Ok u) ->
  db w' = end_db req st (clock w (reads w)) (db w).
Proof.
  unfold EndGrant. intros Hr. apply Transaction_ok in Hr as (w1 & Hr & Hdb).
  minv Hr; rewrite Hdb; unfold end_db; try rewrite Hc; reflexivity.
Qed.

Lemma EndGrant_err req st bs w w' e : EndGrant req st bs w = (w', Err e) -> db w' = db w.
Proof. apply Transaction_err. Qed.

(** The tail of a handler only reports: it never undoes or adds a write. *)
Lemma tail_db {A} (m : M (World G) Error A) w w' r :
  ReadOnly m -> m w = (w', r) -> db w' = db w.
Proof. intros Hm. apply Hm. Qed.

End Specs2.

(** ** The grant invariant *)

(** The columns of a request that no statement updates. *)
Definition frozen (r : Request) :=
  (r_ID r, r_TenantID r, r_RequesterID r, r_EligibilityID r, r_TargetKind r, r_RoleID r,
   (r_ScopeType r, r_ScopeID r, r_AppID r, r_RequestedSeconds r, r_Justification r)).

(** A binding row is the live grant of request [r]. *)
Definition role_grant_of (r : Request) (bid : Z) (b : RoleBinding) : Prop :=
  r_Status r = StatusApproved /\ r_BindingID r = Some bid /\ r_TargetKind r = TargetConsole
  /\ rb_role_id b = r_RoleID r /\ rb_subject_type b = "user"%string
  /\ rb_subject_id b = r_RequesterID r /\ rb_scope_type b = r_ScopeType r
  /\ rb_scope_id b = r_ScopeID r /\ rb_expires_at b = r_ExpiresAt r.

Definition app_grant_of (r : Request) (bid : Z) (b : AppRoleBinding) : Prop :=
  r_Status r = StatusApproved /\ r_BindingID r = Some bid /\ r_TargetKind r = TargetApp
  /\ arb_app_id b = r_AppID r /\ arb_app_role_id b = r_RoleID r
  /\ arb_tenant_id b = r_TenantID r /\ arb_subject_type b = "user"%string
  /\ arb_subject_id b = r_RequesterID r /\ arb_expires_at b = r_ExpiresAt r.

(** An approved request was decided by someone else and carries its window. *)
Definition approval_sound (r : Request) : Prop :=
  match r_Status r with
  | StatusPending => r_BindingID r = None /\ r_ExpiresAt r = None
  | StatusApproved =>
      (exists a, r_ApproverID r = Some a /\ a <> r_RequesterID r)
      /\ is_Some (r_ExpiresAt r) /\ is_Some (r_BindingID r)
  | _ => True
  end.

Record grants_sound (d : DB) : Prop := {
  gs_key : forall id r, reqs d !! id = Some r -> r_ID r = id;
  gs_approval : forall id r, reqs d !! id = Some r -> approval_sound r;
  gs_role : forall bid b gid, role_bindings d !! bid = Some b -> rb_grant_id b = Some gid ->
    exists r, reqs d !! gid = Some r /\ role_grant_of r bid b;
  gs_app : forall bid b gid, app_bindings d !! bid = Some b -> arb_grant_id b = Some gid ->
    exists r, reqs d !! gid = Some r /\ app_grant_of r bid b
}.

(** A snapshot read earlier agrees with the row now stored on the frozen
    columns; a snapshot of an approved grant also on the binding it names. *)
Definition snapshot_of (d : DB) (req : Request) : Prop :=
  exists cur, reqs d !! r_ID req = Some cur /\ frozen cur = frozen req
    /\ (r_Status req = StatusApproved ->
        r_BindingID cur = r_BindingID req
        /\ (r_Status cur = StatusApproved \/ r_Status cur = StatusExpired
            \/ r_Status cur = StatusRevoked)).

Lemma grants_sound_bindings d d' :
  grants_sound d -> reqs d' = reqs d ->
  role_bindings d' = role_bindings d -> app_bindings d' = app_bindings d ->
  grants_sound d'.
Proof.
  intros [K A R P] Er Erb Eab. constructor; rewrite ?Er, ?Erb, ?Eab; auto.
Qed.

(** Bindings of other requests keep their justification when the row of a
    request that is not approved is replaced. *)
Lemma role_grant_kept d id r' bid b gid :
  (forall old, reqs d !! id = Some old -> r_Status old <> StatusApproved) ->
  (exists r, reqs d !! gid = Some r /\ role_grant_of r bid b) ->
  exists r, <[id := r']> (reqs d) !! gid = Some r /\ role_grant_of r bid b.
Proof.
  intros Hold (r & Hr & Hg). exists r. rewrite lookup_insert_ne; [auto|].
  intros <-. destruct Hg as [Hst _]. exact (Hold _ Hr Hst).
Qed.

Lemma app_grant_kept d id r' bid b gid :
  (forall old, reqs d !! id = Some old -> r_Status old <> StatusApproved) ->
  (exists r, reqs d !! gid = Some r /\ app_grant_of r bid b) ->
  exists r, <[id := r']> (reqs d) !! gid = Some r /\ app_grant_of r bid b.
Proof.
  intros Hold (r & Hr & Hg). exists r. rewrite lookup_insert_ne; [auto|].
  intros <-. destruct Hg as [Hst _]. exact (Hold _ Hr Hst).
Qed.

(** Replacing the row of a request that backs no binding keeps the invariant. *)
Lemma grants_sound_replace d id r :
  grants_sound d -> r_ID r = id -> approval_sound r ->
  (forall old, reqs d !! id = Some old -> r_Status old <> StatusApproved) ->
  grants_sound (set_reqs (<[id := r]>) d).
Proof.
  intros [K A R P] Hid Ha Hold. constructor; simpl.
  - intros i x. rewrite lookup_insert. case_decide; intros; simplify_eq; eauto.
  - intros i x. rewrite lookup_insert. case_decide; intros; simplify_eq; eauto.
  - intros. eapply role_grant_kept; eauto.
  - intros. eapply app_grant_kept; eauto.
Qed.

Lemma frozen_eq r1 r2 :
  frozen r1 = frozen r2 ->
  r_ID r1 = r_ID r2 /\ r_TenantID r1 = r_TenantID r2 /\ r_RequesterID r1 = r_RequesterID r2
  /\ r_TargetKind r1 = r_TargetKind r2 /\ r_RoleID r1 = r_RoleID r2
  /\ r_ScopeType r1 = r_ScopeType r2 /\ r_ScopeID r1 = r_ScopeID r2 /\ r_AppID r1 = r_AppID r2
  /\ r_RequestedSeconds r1 = r_RequestedSeconds r2.
Proof. unfold frozen. intros E. simplify_eq. auto 10. Qed.

(** The commit of an approval keeps the invariant, whatever happened between
    the read of the snapshot and the commit. *)
Lemma grant_db_sound d req old a t x b :
  grants_sound d -> reqs d !! r_ID req = Some old -> frozen old = frozen req ->
  r_Status old = StatusPending -> grantable req -> a <> r_RequesterID req ->
  grants_sound (grant_db req old a t x b d).
Proof.
  intros Hs Hold Hf Hst Hg Ha.
  apply frozen_eq in Hf as (Eid & Et & Er & Ek & Ero & Est & Esi & Ea & _).
  destruct Hs as [K A R P].
  assert (Hne : forall o, reqs d !! r_ID req = Some o -> r_Status o <> StatusApproved)
    by congruence.
  constructor; unfold grant_db; simpl; rewrite ?insert_binding_reqs.
  - intros i r. rewrite lookup_insert. case_decide; intros; simplify_eq; simpl; eauto.
  - intros i r. rewrite lookup_insert. case_decide; intros; simplify_eq; eauto.
    unfold approval_sound. simpl. split_and!; eauto. exists a. split; congruence.
  - intros bid bb gid Hb Hgr. unfold insert_binding in Hb. case_bool_decide as Hk.
    + simpl in Hb. rewrite lookup_insert in Hb. case_decide; simplify_eq; simpl in *.
      * simplify_eq. eexists. rewrite lookup_insert_eq. split; [done|].
        unfold role_grant_of. simpl. split_and!; congruence.
      * apply map_lookup_filter_Some in Hb as [Hb _]. eapply role_grant_kept; eauto.
    + eapply role_grant_kept; eauto. eapply R; eauto. revert Hb; case_match; simpl; auto.
  - intros bid bb gid Hb Hgr. unfold insert_binding in Hb. case_bool_decide as Hk.
    + eapply app_grant_kept; eauto.
    + destruct Hg as [Hg | [Hg [ap Hap]]]; [congruence|]. rewrite Hap in Hb.
      simpl in Hb. rewrite lookup_insert in Hb. case_decide; simplify_eq; simpl in *.
      * simplify_eq. eexists. rewrite lookup_insert_eq. split; [done|].
        unfold app_grant_of. simpl. split_and!; congruence.
      * apply map_lookup_filter_Some in Hb as [Hb _]. eapply app_grant_kept; eauto.
Qed.

Lemma console_ne_app : TargetConsole <> TargetApp.
Proof. discriminate. Qed.

Lemma delete_binding_reqs k b d : reqs (delete_binding k b d) = reqs d.
Proof. unfold delete_binding. by case_bool_decide. Qed.

Lemma delete_binding_role k b d bid x :
  role_bindings (delete_binding k b d) !! bid = Some x ->
  role_bindings d !! bid = Some x /\ (k <> TargetApp -> bid <> b).
Proof.
  unfold delete_binding. case_bool_decide; simpl; [tauto|].
  rewrite lookup_delete. case_decide; [discriminate | auto].
Qed.

Lemma delete_binding_app k b d bid x :
  app_bindings (delete_binding k b d) !! bid = Some x ->
  app_bindings d !! bid = Some x /\ (k = TargetApp -> bid <> b).
Proof.
  unfold delete_binding. case_bool_decide; simpl; [|tauto].
  rewrite lookup_delete. case_decide; [discriminate | auto].
Qed.

(** The UPDATE of a row that is there and belongs to the snapshot's tenant. *)
Lemma end_db_reqs d req cur st t :
  reqs d !! r_ID req = Some cur -> r_TenantID cur = r_TenantID req ->
  reqs (end_db req st t d) = <[r_ID req := ended_row cur st t]> (reqs d).
Proof.
  intros Hcur Et. unfold end_db. simpl.
  assert (reqs (match r_BindingID req with
            | Some b => delete_binding (r_TargetKind req) b d | None => d end) = reqs d) as ->
    by (case_match; [apply delete_binding_reqs | done]).
  apply map_eq. intros i. rewrite lookup_alter, lookup_insert.
  case_decide; [subst|done]. rewrite Hcur. simpl. rewrite Et, Z.eqb_refl. done.
Qed.

(** Ending a grant keeps the invariant, even from a stale snapshot: the binding
    the snapshot names is the only one its request can justify. *)
Lemma end_db_sound d req st t :
  grants_sound d -> snapshot_of d req -> r_Status req = StatusApproved ->
  st = StatusExpired \/ st = StatusRevoked ->
  grants_sound (end_db req st t d).
Proof.
  intros [K A R P] (cur & Hcur & Hf & Hsn) Hap Hst.
  destruct (Hsn Hap) as [Hbid _]. pose proof console_ne_app.
  apply frozen_eq in Hf as (Eid & Et & _ & Ek & _).
  constructor; rewrite ?(end_db_reqs d req cur) by done.
  - intros i r. rewrite lookup_insert. case_decide; intros; simplify_eq; simpl; eauto.
  - intros i r. rewrite lookup_insert. case_decide; intros; simplify_eq; eauto.
    unfold approval_sound. simpl. destruct Hst as [-> | ->]; done.
  - intros bid b gid Hb Hg. unfold end_db in Hb. simpl in Hb.
    assert (role_bindings d !! bid = Some b /\ (gid = r_ID req -> False)) as [Hb' Hne].
    { rewrite <- Hbid in Hb. destruct (r_BindingID cur) as [bc|] eqn:Ebc.
      - apply delete_binding_role in Hb as [Hb Hd]. split; [done|]. intros ->.
        destruct (R _ _ _ Hb Hg) as (r & Hr & _ & Hbi & Hk & _). simplify_eq.
        apply Hd; congruence.
      - split; [done|]. intros ->. destruct (R _ _ _ Hb Hg) as (r & Hr & _ & Hbi & _). congruence. }
    destruct (R _ _ _ Hb' Hg) as (r & Hr & Hrg). exists r.
    rewrite lookup_insert_ne by auto. done.
  - intros bid b gid Hb Hg. unfold end_db in Hb. simpl in Hb.
    assert (app_bindings d !! bid = Some b /\ (gid = r_ID req -> False)) as [Hb' Hne].
    { rewrite <- Hbid in Hb. destruct (r_BindingID cur) as [bc|] eqn:Ebc.
      - apply delete_binding_app in Hb as [Hb Hd]. split; [done|]. intros ->.
        destruct (P _ _ _ Hb Hg) as (r & Hr & _ & Hbi & Hk & _). simplify_eq.
        apply Hd; congruence.
      - split; [done|]. intros ->. destruct (P _ _ _ Hb Hg) as (r & Hr & _ & Hbi & _). congruence. }
    destruct (P _ _ _ Hb' Hg) as (r & Hr & Hrg). exists r.
    rewrite lookup_insert_ne by auto. done.
Qed.

(** ** The commits a handler can make *)

(** What validation guarantees of a stored eligibility. *)
Definition elig_ok (e : Eligibility) : Prop :=
  0 < e_MaxDurationSeconds e <= maxEligibilityTTL
  /\ Forall (fun s => 0 < s <= e_MaxDurationSeconds e) (e_AllowedDurations e).

(** The atomic changes of the store, one per committing statement or
    transaction; [stale] allows the snapshot a grant is ended from to be older
    than the commit. *)
Inductive db_commit (stale : bool) (d : DB) : DB -> Prop :=
| dc_elig f :
    (forall id e', f (eligs d) !! id = Some e' -> elig_ok e' \/ eligs d !! id = Some e') ->
    db_commit stale d (set_eligs f d)
| dc_create r id e :
    reqs d !! r_ID r = None -> approval_sound r -> r_Status r = StatusPending ->
    eligs d !! id = Some e ->
    (elig_ok e -> 0 < r_RequestedSeconds r <= maxEligibilityTTL) ->
    db_commit stale d (set_reqs (<[r_ID r := r]>) d)
| dc_grant req old a t x b :
    reqs d !! r_ID req = Some old -> frozen old = frozen req ->
    r_Status old = StatusPending -> grantable req -> a <> r_RequesterID req ->
    db_commit stale d (grant_db req old a t x b d)
| dc_decide id old st rs a t :
    reqs d !! id = Some old -> r_Status old = StatusPending ->
    st = StatusRejected \/ st = StatusCancelled ->
    db_commit stale d (set_reqs (<[id := decided_row old st rs a t]>) d)
| dc_end req st t :
    snapshot_of d req -> r_Status req = StatusApproved ->
    st = StatusExpired \/ st = StatusRevoked ->
    (stale = false -> reqs d !! r_ID req = Some req) ->
    db_commit stale d (end_db req st t d).

Lemma db_commit_sound stale d d' :
  grants_sound d -> db_commit stale d d' -> grants_sound d'.
Proof.
  intros Hs [f _ | r ? e Hn Ha _ _ _ | req old a t x b Ho Hf Hp Hg Hne
            | id old st rs a t Ho Hp Hst | req st t Hsn Hap Hst _].
  - by eapply grants_sound_bindings.
  - apply grants_sound_replace; auto. congruence.
  - by apply grant_db_sound.
  - apply grants_sound_replace; auto; simpl.
    + by apply (gs_key _ Hs).
    + unfold approval_sound. simpl. destruct Hst as [-> | ->]; done.
    + congruence.
  - by apply end_db_sound.
Qed.

(** The request lifecycle the product documents. *)
Inductive lifecycle : Status -> Status -> Prop :=
| lc_approve : lifecycle StatusPending StatusApproved
| lc_reject : lifecycle StatusPending StatusRejected
| lc_cancel : lifecycle StatusPending StatusCancelled
| lc_expire : lifecycle StatusApproved StatusExpired
| lc_revoke : lifecycle StatusApproved StatusRevoked.

(** Row by row, a commit moves a request along the lifecycle and never touches
    its frozen columns; no request disappears. *)
Definition evolves (d d' : DB) : Prop :=
  forall id r, reqs d !! id = Some r ->
    exists r', reqs d' !! id = Some r' /\ frozen r' = frozen r
      /\ rtc lifecycle (r_Status r) (r_Status r').

Lemma evolves_refl d : evolves d d.
Proof. intros id r Hr. exists r. split_and!; auto. reflexivity. Qed.

Lemma evolves_trans d1 d2 d3 : evolves d1 d2 -> evolves d2 d3 -> evolves d1 d3.
Proof.
  intros H1 H2 id r Hr. destruct (H1 _ _ Hr) as (r2 & Hr2 & Hf2 & Hl2).
  destruct (H2 _ _ Hr2) as (r3 & Hr3 & Hf3 & Hl3).
  exists r3. split_and!; auto; [congruence | by etrans].
Qed.

Lemma evolves_insert d d' id old new :
  reqs d !! id = Some old -> reqs d' = <[id := new]> (reqs d) ->
  frozen new = frozen old -> lifecycle (r_Status old) (r_Status new) -> evolves d d'.
Proof.
  intros Ho Hd Hf Hl i r Hr. rewrite Hd, lookup_insert. case_decide.
  - subst. assert (r = old) as -> by congruence. exists new. split_and!; auto. by apply rtc_once.
  - exists r. split_and!; auto. reflexivity.
Qed.

Lemma db_commit_evolves d d' : db_commit false d d' -> evolves d d'.
Proof.
  intros [f _ | r ? e Hn Ha Hp _ _ | req old a t x b Ho Hf Hp Hg Hne
         | id old st rs a t Ho Hp Hst | req st t Hsn Hap Hst Hex].
  - exact (evolves_refl d).
  - intros i r' Hr. simpl. exists r'. rewrite lookup_insert_ne by congruence.
    split_and!; auto. reflexivity.
  - eapply evolves_insert; [exact Ho | | |]; unfold grant_db; simpl.
    + by rewrite insert_binding_reqs.
    + done.
    + rewrite Hp. constructor.
  - eapply evolves_insert; [exact Ho | done | done |]. rewrite Hp.
    destruct Hst as [-> | ->]; constructor.
  - eapply evolves_insert; [exact (Hex eq_refl) | | |].
    + by apply end_db_reqs; [apply Hex|].
    + done.
    + rewrite Hap. destruct Hst as [-> | ->]; constructor.
Qed.

(** ** Every handler run is a sequence of such commits *)

Section Handlers.
Context {G : Type} `{IdGen G}.
Context (matcher : SubjectMatcher) (superAdmin : option (Z -> bool)) (bus : bool).
Implicit Types (w : World G) (req : Request).

(** One request handled from start to finish, or one sweep. *)
Inductive handler (w w' : World G) : Prop :=
| h_create_elig t by_ c r : CreateEligibility bus t by_ c w = (w', r) -> handler w w'
| h_update_elig t id c r : UpdateEligibility bus t id c w = (w', r) -> handler w w'
| h_delete_elig id t r : DeleteEligibility bus id t w = (w', r) -> handler w w'
| h_request t u inp r : CreateRequest matcher superAdmin bus t u inp w = (w', r) -> handler w w'
| h_approve t id a rs r : Approve matcher superAdmin bus t id a rs w = (w', r) -> handler w w'
| h_reject t id a rs r : Reject bus t id a rs w = (w', r) -> handler w w'
| h_cancel t id u r : Cancel bus t id u w = (w', r) -> handler w w'
| h_revoke t id a r : Revoke bus t id a w = (w', r) -> handler w w'
| h_sweep r : sweepOnce bus w = (w', r) -> handler w w'.

Lemma validated_ok c w w' u :
  validated c w = (w', Ok u) -> validateEligibilityRequest c = None /\ w' = w.
Proof. unfold validated. intros Hr. minv Hr; auto. Qed.

Lemma validate_bounds c :
  validateEligibilityRequest c = None ->
  0 < c_MaxDurationSeconds c <= maxEligibilityTTL
  /\ Forall (fun s => 0 < s <= c_MaxDurationSeconds c) (c_AllowedDurations c).
Proof.
  unfold validateEligibilityRequest. intros Hv.
  repeat (case_match; try discriminate). to_prop. split; [lia|].
  apply Forall_forall. intros s Hin.
  destruct (existsb _ _) eqn:E; [discriminate|].
  apply not_true_iff_false in E. rewrite existsb_exists in E.
  destruct (decide (0 < s <= c_MaxDurationSeconds c)); [done|]. exfalso. apply E.
  exists s. split; [by apply list_elem_of_In|]. apply orb_true_iff.
  rewrite Z.leb_le, Z.ltb_lt. lia.
Qed.

(** Reads the shape of a handler off its run: the guards it passed and the one
    write it made. *)
Lemma Approve_ok t id a rs w w' req' :
  Approve matcher superAdmin bus t id a rs w = (w', Ok req') ->
  exists req e t0 t1 b,
    reqs (db w) !! id = Some req /\ r_TenantID req = t /\ r_Status req = StatusPending
    /\ a <> r_RequesterID req
    /\ eligs (db w) !! r_EligibilityID req = Some e /\ e_TenantID e = t
    /\ approverAllowed matcher superAdmin t a e = true
    /\ grantable req
    /\ (exists n, (reads w <= n)%nat /\ t0 = clock w n /\ t1 = clock w (S n))
    /\ req' = granted_copy req (expiry t0 (r_RequestedSeconds req)) b
    /\ (r_ID req = id ->
        db w' = grant_db req req a t1 (expiry t0 (r_RequestedSeconds req)) b (db w)).
Proof.
  unfold Approve. intros Hr.
  apply bind_ok in Hr as (req & w1 & Hreq & Hr).
  pose proof (silent _ _ _ Hreq) as (_ & Hc1 & _ & Hrd1 & _).
  apply GetRequest_ok in Hreq as (Hreq & Ht & Hdb1).
  apply bind_ok in Hr as (? & w2 & Hg1 & Hr). minv Hg1.
  apply bind_ok in Hr as (? & w3 & Hg2 & Hr). minv Hg2.
  apply bind_ok in Hr as (e & w4 & He & Hr).
  pose proof (silent _ _ _ He) as (_ & Hc4 & _ & Hrd4 & _).
  apply GetEligibility_ok in He as (He & Het & Hdb4).
  apply bind_ok in Hr as (? & w5 & Hg3 & Hr). minv Hg3. to_prop.
  apply bind_ok in Hr as (t0 & w6 & Hn & Hr). minv Hn.
  apply bind_ok in Hr as (b & w7 & Hgen & Hr).
  unfold generate in Hgen. simpl in Hgen. destruct (Generate (gen w4)) as [g' i] eqn:Eg.
  inv_pair Hgen.
  apply bind_ok in Hr as (? & w8 & Hag & Hr).
  apply ApproveAndGrant_ok in Hag as (old & Hold & Hto & Hpo & Hgr & Hdb8). simpl in *.
  assert (Htl : db w' = db w8 /\ req' = granted_copy req
            (expiry (clock w4 (reads w4)) (r_RequestedSeconds req)) b).
  { unfold publish in Hr. destruct bus; minv Hr; auto. }
  destruct Htl as [Htl ->].
  exists req, e, (clock w4 (reads w4)), (clock w4 (S (reads w4))), b.
  rewrite <- Hdb1. split_and!; auto; try congruence.
  exists (reads w4). split; [lia|]. split; congruence.
Qed.

(** Peels reads, guards, the write and the reports off a handler. *)
Ltac solve_atomic :=
  intros; first
    [ apply quiet_atomic; apply _
    | apply tx_atomic; apply _
    | apply bind_atomic_tail; [solve [solve_atomic] | intros; apply _]
    | apply bind_atomic_read; [apply _ | apply _ | solve_atomic] ].

#[export] Instance ApproveAndGrant_atomic req a x b : Atomic (ApproveAndGrant (G:=G) req a x b).
Proof. unfold ApproveAndGrant. solve_atomic. Qed.
#[export] Instance EndGrant_atomic req st bs : Atomic (EndGrant (G:=G) req st bs).
Proof. unfold EndGrant. solve_atomic. Qed.
#[export] Instance Approve_atomic t id a rs : Atomic (Approve (G:=G) matcher superAdmin bus t id a rs).
Proof. unfold Approve, ApproveAndGrant. solve_atomic. Qed.
#[export] Instance Reject_atomic t id a rs : Atomic (Reject (G:=G) bus t id a rs).
Proof. unfold Reject, UpdateRequestStatus. solve_atomic. Qed.
#[export] Instance Cancel_atomic t id u : Atomic (Cancel (G:=G) bus t id u).
Proof. unfold Cancel, UpdateRequestStatus. solve_atomic. Qed.
#[export] Instance Revoke_atomic t id a : Atomic (Revoke (G:=G) bus t id a).
Proof. unfold Revoke, EndGrant. solve_atomic. Qed.
#[export] Instance Expire_atomic req : Atomic (Expire (G:=G) bus req).
Proof. unfold Expire, EndGrant. solve_atomic. Qed.

(** A snapshot that is the stored row itself. *)
Lemma snapshot_exact d req :
  reqs d !! r_ID req = Some req -> snapshot_of d req.
Proof. intros Hr. exists req. split_and!; auto. Qed.

Lemma Approve_commits t id a rs w w' r :
  grants_sound (db w) ->
  Approve matcher superAdmin bus t id a rs w = (w', r) ->
  rtc (db_commit false) (db w) (db w').
Proof.
  intros Hs Hr. destruct r as [req'|e].
  - apply Approve_ok in Hr as (req & e & t0 & t1 & b & Hreq & _ & Hp & Hne & _ & _ & _ & Hg & _ & _ & Hdb).
    pose proof (gs_key _ Hs _ _ Hreq) as Hid. rewrite (Hdb Hid). apply rtc_once.
    apply dc_grant; auto. by rewrite Hid.
  - apply atomic in Hr as [-> _]. reflexivity.
Qed.

(** Reject and Cancel: the same read, guard, unconditional UPDATE shape. *)
Lemma decide_commits id t st rs a w w' r req :
  reqs (db w) !! id = Some req -> r_TenantID req = t -> r_Status req = StatusPending ->
  st = StatusRejected \/ st = StatusCancelled ->
  UpdateRequestStatus id t st rs a w = (w', r) ->
  rtc (db_commit false) (db w) (db w').
Proof.
  intros Hreq Ht Hp Hst Hr. destruct r as [u|e].
  - apply UpdateRequestStatus_ok in Hr. rewrite Hr. apply rtc_once.
    replace (set_reqs _ (db w)) with
      (set_reqs (<[id := decided_row req st rs a (clock w (reads w))]>) (db w)).
    + by apply dc_decide.
    + unfold set_reqs. f_equal. apply map_eq. intros i.
      rewrite lookup_insert, lookup_alter. case_decide; [subst|done].
      rewrite Hreq. simpl. by rewrite Z.eqb_refl.
  - apply UpdateRequestStatus_err in Hr. by rewrite Hr.
Qed.

(** A handler that starts with a read either stops with the store as it was or
    goes on from it; one that ends with reports has the store of its write. *)
Lemma rd_bind {A B} (m : M (World G) Error A) (k : A -> M (World G) Error B) w w' r (Q : DB -> Prop) :
  ReadOnly m -> bind m k w = (w', r) -> Q (db w) ->
  (forall a w1, m w = (w1, Ok a) -> db w1 = db w -> k a w1 = (w', r) -> Q (db w')) -> Q (db w').
Proof.
  intros Hm Hb Hq Hk. unfold bind in Hb. destruct (m w) as [w1 [a|e]] eqn:E.
  - exact (Hk _ _ eq_refl (Hm _ _ _ E) Hb).
  - inv_pair Hb. by rewrite (Hm _ _ _ E).
Qed.

Lemma tl_bind {A B} (m : M (World G) Error A) (k : A -> M (World G) Error B) w w' r :
  (forall a, ReadOnly (k a)) -> bind m k w = (w', r) ->
  exists w1 r1, m w = (w1, r1) /\ db w' = db w1.
Proof.
  intros Hk Hb. unfold bind in Hb. destruct (m w) as [w1 [a|e]] eqn:E.
  - exists w1, (Ok a). split; [done|]. by apply Hk in Hb.
  - inv_pair Hb. eauto.
Qed.

(** [read_phase Hr]: consume one leading read of the run [Hr]. *)
Ltac read_phase Hr :=
  eapply (rd_bind _ _ _ _ _ _ _ Hr); [reflexivity|];
  clear Hr; intros ? ? ?Hm ?Hdb Hr.

Lemma Reject_commits t id a rs w w' r :
  Reject bus t id a rs w = (w', r) -> rtc (db_commit false) (db w) (db w').
Proof.
  unfold Reject. intros Hr. read_phase Hr.
  apply GetRequest_ok in Hm as (Hreq & Ht & _). rewrite <- Hdb in Hreq |- *.
  read_phase Hr. minv Hm. to_prop.
  apply tl_bind in Hr as (w2 & r2 & Hu & ->); [|apply _].
  eapply decide_commits; [exact Hreq | done | done | by left | exact Hu].
Qed.

Lemma Cancel_commits t id u w w' r :
  Cancel bus t id u w = (w', r) -> rtc (db_commit false) (db w) (db w').
Proof.
  unfold Cancel. intros Hr. read_phase Hr.
  apply GetRequest_ok in Hm as (Hreq & Ht & _). rewrite <- Hdb in Hreq |- *.
  read_phase Hr. minv Hm. read_phase Hr. minv Hm. to_prop.
  apply tl_bind in Hr as (w2 & r2 & Hu & ->); [|apply _].
  eapply decide_commits; [exact Hreq | done | done | by right | exact Hu].
Qed.

Lemma EndGrant_commits req st bs w w' r :
  reqs (db w) !! r_ID req = Some req -> r_Status req = StatusApproved ->
  st = StatusExpired \/ st = StatusRevoked ->
  EndGrant req st bs w = (w', r) -> rtc (db_commit false) (db w) (db w').
Proof.
  intros Hreq Hap Hst Hr. destruct r as [u|e].
  - apply EndGrant_ok in Hr. rewrite Hr. apply rtc_once.
    apply dc_end; auto. by apply snapshot_exact.
  - apply atomic in Hr as [-> _]. reflexivity.
Qed.

Lemma Revoke_commits t id a w w' r :
  grants_sound (db w) ->
  Revoke bus t id a w = (w', r) -> rtc (db_commit false) (db w) (db w').
Proof.
  intros Hs. unfold Revoke. intros Hr. read_phase Hr.
  apply GetRequest_ok in Hm as (Hreq & Ht & _). rewrite <- Hdb in Hreq, Hs |- *.
  read_phase Hr. minv Hm. to_prop.
  apply tl_bind in Hr as (w2 & r2 & Hu & ->); [|apply _].
  eapply EndGrant_commits; [|done|by right|exact Hu].
  by rewrite (gs_key _ Hs _ _ Hreq).
Qed.

Lemma Expire_commits req w w' r :
  reqs (db w) !! r_ID req = Some req -> r_Status req = StatusApproved ->
  Expire bus req w = (w', r) -> rtc (db_commit false) (db w) (db w').
Proof.
  intros Hreq Hap. unfold Expire. intros Hr.
  apply tl_bind in Hr as (w2 & r2 & Hu & ->); [|apply _].
  eapply EndGrant_commits; [done | done | by left | exact Hu].
Qed.

(** A commit that ends one grant leaves the other rows alone. *)
Lemma Expire_other req w w' r id :
  Expire bus req w = (w', r) -> id <> r_ID req ->
  reqs (db w') !! id = reqs (db w) !! id.
Proof.
  unfold Expire. intros Hr Hne.
  apply tl_bind in Hr as (w2 & r2 & Hu & ->); [|apply _]. destruct r2 as [u|e].
  - apply EndGrant_ok in Hu. rewrite Hu. unfold end_db. simpl.
    rewrite lookup_alter_ne by done. case_match; by rewrite ?delete_binding_reqs.
  - by apply atomic in Hu as [-> _].
Qed.

Lemma expire_all_commits due w w' r :
  NoDup (r_ID <$> due) ->
  (forall req, req ∈ due -> reqs (db w) !! r_ID req = Some req /\ r_Status req = StatusApproved) ->
  expire_all bus due w = (w', r) -> rtc (db_commit false) (db w) (db w').
Proof.
  revert w w' r. induction due as [|req due IH]; intros w w' r Hnd Hdue Hr; simpl in Hr.
  { unfold ret in Hr. by inv_pair Hr. }
  unfold attempt in Hr. destruct (Expire bus req w) as [w1 r1] eqn:He.
  apply NoDup_cons in Hnd as [Hni Hnd].
  destruct (Hdue req) as [Hreq Hap]; [left|].
  etrans; [eapply Expire_commits; eauto|].
  apply tl_bind in Hr as (w2 & r2 & Hx & ->); [|apply _].
  eapply IH; eauto. intros q Hq. rewrite (Expire_other _ _ _ _ _ He).
  - apply Hdue. by right.
  - intros Heq. apply Hni. rewrite <- Heq. apply list_elem_of_fmap. eauto.
Qed.

(** The due list: distinct rows, each the stored one, each approved and past
    its expiry at the reading the query used. *)
Lemma ListDueGrants_ok w w' due :
  grants_sound (db w) -> ListDueGrants w = (w', Ok due) ->
  NoDup (r_ID <$> due) /\ db w' = db w
  /\ (forall req, req ∈ due <-> reqs (db w) !! r_ID req = Some req
                               /\ grant_due (clock w (reads w)) req = true).
Proof.
  intros Hs. unfold ListDueGrants. intros Hr. minv Hr. simpl.
  split_and!; [|done|].
  - apply NoDup_keyed, Hs.
  - intros req. rewrite list_elem_of_filter, list_elem_of_fmap. split.
    + intros [Hd ([id r] & -> & Hin)]. apply elem_of_map_to_list in Hin. simpl in *.
      rewrite (gs_key _ Hs _ _ Hin). done.
    + intros [Hin Hd]. split; [done|]. exists (r_ID req, req). split; [done|].
      by apply elem_of_map_to_list.
Qed.


#[export] Instance ListDueGrants_ro : ReadOnly (G:=G) ListDueGrants.
Proof. unfold ListDueGrants. apply _. Qed.

Lemma grant_due_approved t req : grant_due t req = true -> r_Status req = StatusApproved.
Proof. unfold grant_due. intros Hd. apply andb_true_iff in Hd as [Hd _]. by to_prop. Qed.

Lemma sweepOnce_commits w w' r :
  grants_sound (db w) -> sweepOnce bus w = (w', r) -> rtc (db_commit false) (db w) (db w').
Proof.
  intros Hs. unfold sweepOnce, attempt. intros Hr.
  destruct (ListDueGrants w) as [w1 [due|e]] eqn:Hl.
  - apply ListDueGrants_ok in Hl as (Hnd & Hdb & Hdue); [|done]. rewrite <- Hdb.
    eapply expire_all_commits; [done| |exact Hr].
    intros req Hin. apply Hdue in Hin as [Hin Hd]. rewrite Hdb.
    split; [done|]. by eapply grant_due_approved.
  - unfold ret in Hr. inv_pair Hr. by rewrite (read_only _ _ _ Hl).
Qed.

(** The insert of a fresh request and of a fresh eligibility. *)
Definition stamp_req (r : Request) (t : Z) : Request :=
  mkRequest (r_ID r) (r_TenantID r) (r_RequesterID r) (r_EligibilityID r) (r_TargetKind r)
    (r_RoleID r) (r_ScopeType r) (r_ScopeID r) (r_AppID r) (r_RequestedSeconds r)
    (r_Justification r) (r_Status r) (r_ApproverID r) (r_DecidedAt r) (r_DecisionReason r)
    (r_ActivatedAt r) (r_ExpiresAt r) (r_BindingID r) t t.

Lemma repo_CreateRequest_inv req w w' r :
  repo_CreateRequest req w = (w', r) ->
  match r with
  | Ok _ => reqs (db w) !! r_ID req = None
            /\ exists t, db w' = set_reqs (<[r_ID req := stamp_req req t]>) (db w)
  | Err _ => db w' = db w
  end.
Proof.
  unfold repo_CreateRequest. intros Hr. destruct r as [u|e]; minv Hr; simpl in *; auto.
  to_prop. split; [|by eexists]. by apply eq_None_not_Some.
Qed.

Lemma DurationAllowed_clamped e s :
  elig_ok e -> DurationAllowed e s = true ->
  0 < ClampDuration e s <= maxEligibilityTTL.
Proof.
  intros [Hm Hd] Ha. unfold DurationAllowed in Ha. to_prop.
  rewrite Forall_forall in Hd. specialize (Hd _ Ha).
  unfold ClampDuration. case_match; lia.
Qed.

Lemma CreateRequest_commits t u inp w w' r :
  grants_sound (db w) ->
  CreateRequest matcher superAdmin bus t u inp w = (w', r) ->
  rtc (db_commit false) (db w) (db w').
Proof.
  intros Hs. unfold CreateRequest. intros Hr. read_phase Hr.
  apply GetEligibility_ok in Hm as (He & Ht & _). rewrite <- Hdb in He, Hs |- *.
  do 4 (read_phase Hr; minv Hm). to_prop. clear Hdb0 Hdb1 Hdb2 Hdb3.
  read_phase Hr. rewrite <- Hdb0 in He, Hs |- *. clear Hm Hdb Hdb0.
  apply bind_cases in Hr as [(e & Hc & ->) | (v & w3 & Hc & Hr)];
    apply repo_CreateRequest_inv in Hc; [by rewrite Hc|]. destruct Hc as [Hn [ct Hdb3]].
  assert (Hcm : db_commit false (db w0) (db w3)).
  { rewrite Hdb3. match goal with |- context [stamp_req ?q ct] =>
      apply (dc_create _ _ (stamp_req q ct) (a_EligibilityID inp) a) end; try done.
    intros Hok. by apply DurationAllowed_clamped. }
  etrans; [by apply rtc_once|].
  read_phase Hr. rewrite <- Hdb. case_match.
  - eapply Approve_commits; [|exact Hr]. rewrite Hdb. by eapply db_commit_sound.
  - unfold ret in Hr. by inv_pair Hr.
Qed.

Lemma CreateEligibility_commits t by_ c w w' r :
  CreateEligibility bus t by_ c w = (w', r) -> rtc (db_commit false) (db w) (db w').
Proof.
  unfold CreateEligibility. intros Hr. read_phase Hr.
  apply validated_ok in Hm as [Hv ->]. apply validate_bounds in Hv.
  read_phase Hr. rewrite <- Hdb0. clear Hm Hdb Hdb0.
  apply tl_bind in Hr as (w2 & r2 & Hu & ->); [|unfold publishEligibility; apply _].
  unfold repo_CreateEligibility in Hu. destruct r2 as [v|e]; minv Hu; simpl in *; try reflexivity.
  apply rtc_once. apply dc_elig. intros id e'. rewrite lookup_insert.
  case_decide; [|auto]. intros Hx. simplify_eq. left. done.
Qed.

Lemma UpdateEligibility_commits t id c w w' r :
  UpdateEligibility bus t id c w = (w', r) -> rtc (db_commit false) (db w) (db w').
Proof.
  unfold UpdateEligibility. intros Hr. read_phase Hr.
  apply validated_ok in Hm as [Hv ->]. apply validate_bounds in Hv.
  read_phase Hr. rewrite <- Hdb0. clear Hm Hdb Hdb0.
  apply tl_bind in Hr as (w2 & r2 & Hu & ->); [|unfold publishEligibility; apply _].
  unfold repo_UpdateEligibility in Hu. destruct r2 as [v|e]; minv Hu; simpl in *; try reflexivity.
  apply rtc_once. apply dc_elig. intros i e'. rewrite lookup_alter.
  case_decide; [subst|auto]. intros (old & Hold & ->)%fmap_Some.
  case_match; [left; done | right; congruence].
Qed.

Lemma DeleteEligibility_commits id t w w' r :
  DeleteEligibility bus id t w = (w', r) -> rtc (db_commit false) (db w) (db w').
Proof.
  unfold DeleteEligibility. intros Hr. read_phase Hr. rewrite <- Hdb. clear Hm Hdb.
  apply tl_bind in Hr as (w2 & r2 & Hu & ->); [|unfold publishEligibility; apply _].
  unfold repo_DeleteEligibility in Hu. destruct r2 as [v|e]; minv Hu; simpl in *; try reflexivity.
  apply rtc_once. apply dc_elig. intros i e'. repeat case_match; auto.
  rewrite lookup_delete. case_decide; [discriminate | auto].
Qed.

Lemma handler_commits w w' :
  grants_sound (db w) -> handler w w' -> rtc (db_commit false) (db w) (db w').
Proof.
  intros Hs [? ? ? ? Hr | ? ? ? ? Hr | ? ? ? Hr | ? ? ? ? Hr | ? ? ? ? ? Hr | ? ? ? ? ? Hr
            | ? ? ? ? Hr | ? ? ? ? Hr | ? Hr];
    eauto using CreateEligibility_commits, UpdateEligibility_commits, DeleteEligibility_commits,
      CreateRequest_commits, Approve_commits, Reject_commits, Cancel_commits, Revoke_commits,
      sweepOnce_commits.
Qed.

Lemma commits_sound stale d d' :
  grants_sound d -> rtc (db_commit stale) d d' -> grants_sound d'.
Proof. intros Hs. induction 1; eauto using db_commit_sound. Qed.

Lemma commits_evolve d d' : rtc (db_commit false) d d' -> evolves d d'.
Proof. induction 1; eauto using evolves_refl, evolves_trans, db_commit_evolves. Qed.
End Handlers.
