(* ===== verification/AccessProps.v ===== *)
(** * AccessProps: the properties of just-in-time access *)

From stdpp Require Import sorting.
From S2P Require Import Prelude Access AccessSpec.

(** ** Interleaved handlers

    Approve, Revoke and Expire read the request in one statement and commit in
    a later transaction. [inflight] records what such a handler read; any
    number of them may be in flight, and each may commit at any later time,
    also more than once (a client retry). *)

Inductive inflight : Type :=
| IApprove (req : Request) (approverID : Z)
| IRevoke (req : Request)
| IExpire (req : Request).

Section System.
Context {G : Type} `{IdGen G}.
Context (matcher : SubjectMatcher) (superAdmin : option (Z -> bool)) (bus : bool).
Implicit Types (w : World G) (pool : list inflight).

Inductive sys_step : World G * list inflight -> World G * list inflight -> Prop :=
| ss_handler w w' pool :
    handler matcher superAdmin bus w w' -> sys_step (w, pool) (w', pool)
| ss_read_approve w pool id req a :
    reqs (db w) !! id = Some req -> r_Status req = StatusPending -> a <> r_RequesterID req ->
    sys_step (w, pool) (w, IApprove req a :: pool)
| ss_commit_approve w w' pool req a x b r :
    IApprove req a ∈ pool -> ApproveAndGrant req a x b w = (w', r) ->
    sys_step (w, pool) (w', pool)
| ss_read_revoke w pool id req :
    reqs (db w) !! id = Some req -> r_Status req = StatusApproved ->
    sys_step (w, pool) (w, IRevoke req :: pool)
| ss_commit_revoke w w' pool req r :
    IRevoke req ∈ pool -> EndGrant req StatusRevoked BindingRevoked w = (w', r) ->
    sys_step (w, pool) (w', pool)
| ss_read_expire w pool id req t :
    reqs (db w) !! id = Some req -> grant_due t req = true ->
    sys_step (w, pool) (w, IExpire req :: pool)
| ss_commit_expire w w' pool req r :
    IExpire req ∈ pool -> EndGrant req StatusExpired BindingExpired w = (w', r) ->
    sys_step (w, pool) (w', pool).

(** What a snapshot in flight still guarantees. *)
Definition inflight_ok (d : DB) (p : inflight) : Prop :=
  match p with
  | IApprove req a => snapshot_of d req /\ a <> r_RequesterID req
  | IRevoke req | IExpire req => snapshot_of d req /\ r_Status req = StatusApproved
  end.

Definition settled (s : Status) : Prop :=
  s = StatusApproved \/ s = StatusExpired \/ s = StatusRevoked.

Definition row_moves (d d' : DB) : Prop :=
  forall id r, reqs d !! id = Some r ->
    exists r', reqs d' !! id = Some r' /\ frozen r' = frozen r
      /\ (settled (r_Status r) -> r_BindingID r' = r_BindingID r /\ settled (r_Status r')).

Lemma row_moves_insert d d' id old new :
  reqs d !! id = Some old -> reqs d' = <[id := new]> (reqs d) -> frozen new = frozen old ->
  (settled (r_Status old) -> r_BindingID new = r_BindingID old /\ settled (r_Status new)) ->
  row_moves d d'.
Proof.
  intros Ho Hd Hf Hs i r Hr. rewrite Hd, lookup_insert. case_decide.
  - subst. assert (r = old) as -> by congruence. eauto.
  - eauto.
Qed.

Lemma db_commit_rows stale d d' : db_commit stale d d' -> row_moves d d'.
Proof.
  intros [f _ | r ? e Hn Ha Hp _ _ | req old a t x b Ho Hf Hp Hg Hne
         | id old st rs a t Ho Hp Hst | req st t (cur & Hc & Hf & _) Hap Hst Hex].
  - intros i r Hr. eauto.
  - intros i r' Hr. simpl. exists r'. rewrite lookup_insert_ne by congruence. eauto.
  - eapply row_moves_insert; [exact Ho | | |]; unfold grant_db; simpl.
    + by rewrite insert_binding_reqs.
    + done.
    + rewrite Hp. intros [?|[?|?]]; discriminate.
  - eapply row_moves_insert; [exact Ho | done | done |]. rewrite Hp.
    intros [?|[?|?]]; discriminate.
  - apply frozen_eq in Hf as (_ & Ht & _).
    eapply row_moves_insert; [exact Hc | by apply end_db_reqs | done |].
    intros _. split; [done|]. unfold settled. simpl. tauto.
Qed.

Lemma commits_rows stale d d' : rtc (db_commit stale) d d' -> row_moves d d'.
Proof.
  induction 1 as [d|d1 d2 d3 H1 _ IH]; [intros i r Hr; eauto|].
  apply db_commit_rows in H1. intros i r Hr.
  destruct (H1 _ _ Hr) as (r2 & Hr2 & Hf2 & Hs2). destruct (IH _ _ Hr2) as (r3 & Hr3 & Hf3 & Hs3).
  exists r3. split_and!; [done | congruence |]. intros Hs. apply Hs2 in Hs as [Hb Hs].
  apply Hs3 in Hs as [Hb' Hs]. split; [congruence | done].
Qed.

Lemma snapshot_moves d d' req : row_moves d d' -> snapshot_of d req -> snapshot_of d' req.
Proof.
  intros Hm (cur & Hc & Hf & Hs). destruct (Hm _ _ Hc) as (c' & Hc' & Hf' & Hs').
  exists c'. split_and!; [done | congruence |]. intros Hap.
  destruct (Hs Hap) as [Hb Hst]. destruct (Hs' Hst) as [Hb' Hst'].
  split; [congruence | exact Hst'].
Qed.

Lemma inflight_moves d d' p : row_moves d d' -> inflight_ok d p -> inflight_ok d' p.
Proof. intros Hm. destruct p; simpl; intros []; eauto using snapshot_moves. Qed.

Definition sys_inv (s : World G * list inflight) : Prop :=
  grants_sound (db s.1) /\ Forall (inflight_ok (db s.1)) s.2.

Lemma sys_inv_commit stale w w' pool :
  sys_inv (w, pool) -> rtc (db_commit stale) (db w) (db w') -> sys_inv (w', pool).
Proof.
  intros [Hs Hp] Hc. split; simpl in *; [by eapply commits_sound|].
  eapply Forall_impl; [exact Hp|]. intros p. apply inflight_moves. by eapply commits_rows.
Qed.

Lemma EndGrant_stale req st bs w w' r :
  snapshot_of (db w) req -> r_Status req = StatusApproved ->
  st = StatusExpired \/ st = StatusRevoked ->
  EndGrant req st bs w = (w', r) -> rtc (db_commit true) (db w) (db w').
Proof.
  intros Hsn Hap Hst Hr. destruct r as [u|e].
  - apply EndGrant_ok in Hr. rewrite Hr. apply rtc_once. by apply dc_end.
  - apply atomic in Hr as [-> _]. reflexivity.
Qed.

Lemma ApproveAndGrant_stale req a x b w w' r :
  snapshot_of (db w) req -> a <> r_RequesterID req ->
  ApproveAndGrant req a x b w = (w', r) -> rtc (db_commit true) (db w) (db w').
Proof.
  intros (cur & Hc & Hf & _) Ha Hr. destruct r as [u|e].
  - apply ApproveAndGrant_ok in Hr as (old & Ho & _ & Hp & Hg & Hdb).
    rewrite Hdb. apply rtc_once. apply dc_grant; auto. congruence.
  - apply atomic in Hr as [-> _]. reflexivity.
Qed.

Lemma snapshot_now d id req : grants_sound d -> reqs d !! id = Some req -> snapshot_of d req.
Proof. intros Hs Hr. apply snapshot_exact. by rewrite (gs_key _ Hs _ _ Hr). Qed.

Lemma sys_step_inv s s' : sys_inv s -> sys_step s s' -> sys_inv s'.
Proof.
  intros Hi Hst. destruct Hst as [w w' pool Hh | w pool id req a Hr Hp Ha
    | w w' pool req a x b r Hin Hr | w pool id req Hr Hp | w w' pool req r Hin Hr
    | w pool id req t Hr Hd | w w' pool req r Hin Hr].
  - eapply sys_inv_commit; [done|]. eapply handler_commits; [apply Hi | done].
  - destruct Hi as [Hs Hf]. split; [done|]. constructor; [|done]. split; [|done].
    by eapply snapshot_now.
  - pose proof (proj1 (Forall_forall _ _) (proj2 Hi) _ Hin) as [Hsn Ha].
    eapply sys_inv_commit; [done | by eapply ApproveAndGrant_stale].
  - destruct Hi as [Hs Hf]. split; [done|]. constructor; [|done]. split; [|done].
    by eapply snapshot_now.
  - pose proof (proj1 (Forall_forall _ _) (proj2 Hi) _ Hin) as [Hsn Ha].
    eapply sys_inv_commit; [done |]. eapply EndGrant_stale; [done|done|by right|done].
  - destruct Hi as [Hs Hf]. split; [done|]. constructor; [|done]. split.
    + by eapply snapshot_now.
    + by eapply grant_due_approved.
  - pose proof (proj1 (Forall_forall _ _) (proj2 Hi) _ Hin) as [Hsn Ha].
    eapply sys_inv_commit; [done |]. eapply EndGrant_stale; [done|done|by left|done].
Qed.

(** A store before the first elevation: no requests, only permanent bindings. *)
Definition no_grants_yet (d : DB) : Prop :=
  reqs d = ∅
  /\ (forall i b, role_bindings d !! i = Some b -> rb_grant_id b = None)
  /\ (forall i b, app_bindings d !! i = Some b -> arb_grant_id b = None).

Lemma no_grants_sound d : no_grants_yet d -> grants_sound d.
Proof.
  intros (Hr & Hb & Ha). constructor; rewrite ?Hr; try (intros *; rewrite lookup_empty; discriminate).
  - intros bid b gid Hl Hg. rewrite (Hb _ _ Hl) in Hg. discriminate.
  - intros bid b gid Hl Hg. rewrite (Ha _ _ Hl) in Hg. discriminate.
Qed.

Lemma reachable_sound w0 w pool :
  no_grants_yet (db w0) -> rtc sys_step (w0, []) (w, pool) -> grants_sound (db w).
Proof.
  intros Hn Hr.
  assert (Hi : sys_inv (w0, [])) by (split; [by apply no_grants_sound | constructor]).
  enough (sys_inv (w, pool)) as [? _] by done.
  revert Hi. remember (w0, []) as s0. remember (w, pool) as s1. clear Heqs0 Heqs1.
  induction Hr; eauto using sys_step_inv.
Qed.

(** C1: in every state reached by any interleaving of whole handlers and sweeps with
    approvals, revocations and expirations in flight, every time-bound binding
    row is the live grant of an approved request: same subject, role, scope and
    expiry, the binding the request names, decided by somebody other than the
    requester. (A rejection in flight is none of these: it can orphan a grant.) *)
Theorem no_orphan_grants w0 w pool bid b gid :
  no_grants_yet (db w0) -> rtc sys_step (w0, []) (w, pool) ->
  role_bindings (db w) !! bid = Some b -> rb_grant_id b = Some gid ->
  exists r a, reqs (db w) !! gid = Some r /\ role_grant_of r bid b
    /\ r_ApproverID r = Some a /\ a <> r_RequesterID r.
Proof.
  intros Hn Hr Hb Hg. pose proof (reachable_sound _ _ _ Hn Hr) as Hs.
  destruct (gs_role _ Hs _ _ _ Hb Hg) as (r & Hq & Hrg).
  pose proof (gs_approval _ Hs _ _ Hq) as Ha. unfold approval_sound in Ha.
  destruct Hrg as [Hst ?]. rewrite Hst in Ha. destruct Ha as [(a & Haa & Hne) _].
  exists r, a. split_and!; auto. split; done.
Qed.

(** C2: run from start to finish in any reachable state, no handler and no sweep
    ever moves a request off the documented lifecycle (pending to approved,
    rejected or cancelled; approved to expired or revoked), deletes a request
    or changes who asked for what. *)
Theorem handlers_follow_lifecycle w0 w w' pool :
  no_grants_yet (db w0) -> rtc sys_step (w0, []) (w, pool) ->
  handler matcher superAdmin bus w w' -> evolves (db w) (db w').
Proof.
  intros Hn Hr Hh. apply commits_evolve. eapply handler_commits; [|done].
  by eapply reachable_sound.
Qed.

(** ** Bounded windows *)

(** Every stored rule passed validation and every request asks for at most the
    seven-day ceiling. *)
Definition windows_bounded (d : DB) : Prop :=
  (forall id e, eligs d !! id = Some e -> elig_ok e)
  /\ (forall id r, reqs d !! id = Some r -> 0 < r_RequestedSeconds r <= maxEligibilityTTL).

Lemma db_commit_bounded stale d d' :
  windows_bounded d -> db_commit stale d d' -> windows_bounded d'.
Proof.
  intros [He Hq] Hc. pose proof (db_commit_rows _ _ _ Hc) as Hm.
  assert (Hins : forall i old new, reqs d !! i = Some old ->
            r_RequestedSeconds new = r_RequestedSeconds old ->
            forall j r, <[i := new]> (reqs d) !! j = Some r -> 0 < r_RequestedSeconds r <= maxEligibilityTTL).
  { intros i old new Ho Hs j r. rewrite lookup_insert. case_decide; [|eauto].
    intros Hx. simplify_eq. rewrite Hs. eauto. }
  destruct Hc as [f Hf | r ei e Hn Ha Hp Hei Hb | req old a t x b Ho Hf Hp Hg Hne
         | id old st rs a t Ho Hp Hst | req st t (cur & Hc & Hf & _) Hap Hst Hex]; split; simpl; auto.
  - intros id e Hx. destruct (Hf _ _ Hx); eauto.
  - intros i q. rewrite lookup_insert. case_decide; [|eauto]. intros Hx. simplify_eq. eauto.
  - unfold insert_binding. repeat case_match; auto.
  - rewrite insert_binding_reqs. by eapply Hins.
  - by eapply Hins.
  - unfold end_db, delete_binding. simpl. repeat case_match; auto.
  - apply frozen_eq in Hf as (_ & Ht & _).
    pose proof (end_db_reqs d req cur st t Hc Ht) as Hx. simpl in Hx. rewrite Hx.
    by eapply Hins.
Qed.

Lemma commits_bounded stale d d' :
  windows_bounded d -> rtc (db_commit stale) d d' -> windows_bounded d'.
Proof. intros Hb. induction 1; eauto using db_commit_bounded. Qed.

Lemma expiry_exact t secs :
  0 < secs <= maxEligibilityTTL -> expiry t secs = t + secs * 1000000000.
Proof.
  intros Hs. unfold expiry. rewrite wrap64_id; [done|].
  unfold in_int64, int64_min, int64_max, maxEligibilityTTL in *. lia.
Qed.

(** A granted elevation is live for more than zero and at most seven days
    after the clock reading the approval took, the duration arithmetic never
    overflows, and the request row and the binding row carry the same expiry. *)
Theorem granted_window_bounded w w' t id a rs req' :
  grants_sound (db w) -> windows_bounded (db w) ->
  Approve matcher superAdmin bus t id a rs w = (w', Ok req') ->
  exists t0 x bid r,
    (exists n, t0 = clock w n)
    /\ r_ExpiresAt req' = Some x /\ r_BindingID req' = Some bid
    /\ t0 < x <= t0 + maxEligibilityTTL * 1000000000
    /\ reqs (db w') !! id = Some r /\ r_Status r = StatusApproved
    /\ r_ExpiresAt r = Some x /\ r_ApproverID r = Some a /\ a <> r_RequesterID r
    /\ (r_TargetKind r = TargetConsole ->
        rb_expires_at <$> role_bindings (db w') !! bid = Some (Some x))
    /\ (r_TargetKind r = TargetApp ->
        arb_expires_at <$> app_bindings (db w') !! bid = Some (Some x)).
Proof.
  intros Hs [_ Hq] Hr.
  apply Approve_ok in Hr as (req & e & t0 & t1 & b & Hreq & Ht & Hp & Hne & He & Het & Hal & Hg
    & (n & _ & Hn & _) & -> & Hdb).
  pose proof (gs_key _ Hs _ _ Hreq) as Hid. rewrite (Hdb Hid).
  pose proof (Hq _ _ Hreq) as Hsec. rewrite expiry_exact by done.
  exists t0, (t0 + r_RequestedSeconds req * 1000000000), b,
    (approved_row req a t1 (t0 + r_RequestedSeconds req * 1000000000) b).
  unfold grant_db. simpl. rewrite <- Hid, lookup_insert_eq.
  split_and!; eauto; try lia.
  - intros Hk. unfold insert_binding. rewrite Hk. simpl. by rewrite lookup_insert_eq.
  - intros Hk. unfold insert_binding. rewrite Hk. simpl.
    destruct Hg as [Hg | [_ [ap Hap]]]; [by rewrite Hk in Hg|].
    rewrite Hap. simpl. by rewrite lookup_insert_eq.
Qed.

(** A handler that reports an error has neither written the store nor
    published, invalidated or terminated anything. *)
Theorem failed_handler_leaves_no_trace w w' e :
  (exists t id a rs, Approve matcher superAdmin bus t id a rs w = (w', Err e))
  \/ (exists t id a rs, Reject bus t id a rs w = (w', Err e))
  \/ (exists t id u, Cancel bus t id u w = (w', Err e))
  \/ (exists t id a, Revoke bus t id a w = (w', Err e))
  \/ (exists req, Expire bus req w = (w', Err e)) ->
  db w' = db w /\ trace w' = trace w.
Proof.
  intros [(? & ? & ? & ? & Hr) | [(? & ? & ? & ? & Hr) | [(? & ? & ? & Hr)
         | [(? & ? & ? & Hr) | (? & Hr)]]]]; exact (atomic _ _ _ Hr).
Qed.

(** ** Runs in which the database answers every statement *)

Definition no_faults w : Prop := forall n, faults w n = false.

Lemma EndGrant_no_err req st bs w w' e :
  no_faults w -> EndGrant req st bs w <> (w', Err e).
Proof.
  intros Hn Hr. unfold EndGrant, Transaction in Hr.
  destruct (bind _ _ w) as [w1 [a|e']] eqn:E; [discriminate|]. clear Hr.
  minv E; simpl in *; match goal with Hx : faults _ _ = true |- _ => by rewrite Hn in Hx end.
Qed.

Lemma Expire_runs req w :
  no_faults w -> exists w', Expire bus req w = (w', Ok tt)
    /\ db w' = end_db req StatusExpired (clock w (reads w)) (db w)
    /\ clock w' = clock w /\ no_faults w'.
Proof.
  intros Hn. unfold Expire, bind.
  destruct (EndGrant req StatusExpired BindingExpired w) as [w1 [[]|e]] eqn:He.
  2: by apply EndGrant_no_err in He.
  pose proof (silent _ _ _ He) as (_ & Hc & Hf & _). apply EndGrant_ok in He.
  unfold invalidate, publish, terminateIfApp, emit, modify, no_faults in *.
  repeat case_match; unfold ret in *; simplify_eq; eexists; split_and!; simpl; eauto;
    intros n; rewrite Hf; apply Hn.
Qed.

Lemma expire_all_runs due w :
  no_faults w -> NoDup (r_ID <$> due) ->
  (forall req, req ∈ due -> reqs (db w) !! r_ID req = Some req) ->
  exists w', expire_all bus due w = (w', Ok (length due))
    /\ (forall req, req ∈ due -> r_Status <$> reqs (db w') !! r_ID req = Some StatusExpired)
    /\ (forall id, id ∉ r_ID <$> due -> reqs (db w') !! id = reqs (db w) !! id).
Proof.
  revert w. induction due as [|req due IH]; intros w Hn Hnd Hdue; simpl.
  { eexists. split_and!; [done | set_solver | done]. }
  apply NoDup_cons in Hnd as [Hni Hnd].
  destruct (Expire_runs req w Hn) as (w1 & He & Hdb & _ & Hn1).
  assert (Hreq : reqs (db w) !! r_ID req = Some req) by (apply Hdue; left).
  pose proof (end_db_reqs _ req req StatusExpired (clock w (reads w)) Hreq eq_refl) as Hrq.
  rewrite <- Hdb in Hrq.
  destruct (IH w1 Hn1 Hnd) as (w2 & Hx & Hex & Hoth).
  { intros q Hq. rewrite Hrq, lookup_insert_ne; [apply Hdue; by right|].
    intros Heq. apply Hni. rewrite Heq. by apply list_elem_of_fmap_2. }
  exists w2. unfold attempt. rewrite He. unfold bind. rewrite Hx. split_and!; [done| |].
  - intros q [-> | Hq]%elem_of_cons; [|by apply Hex].
    rewrite Hoth by done. by rewrite Hrq, lookup_insert_eq.
  - intros id Hid. rewrite not_elem_of_cons in Hid. destruct Hid as [Hne Hid].
    rewrite Hoth by done. by rewrite Hrq, lookup_insert_ne.
Qed.

(** When the database answers, one sweep expires exactly the grants due at
    the moment it looked: afterwards no approved request and no time-bound
    binding row is past that moment, the returned count is the number of grants
    that were due, and every other request is untouched. *)
Theorem sweep_expires_exactly_the_due w :
  grants_sound (db w) -> no_faults w ->
  exists w' due,
    sweepOnce bus w = (w', Ok (length due))
    /\ (forall req, req ∈ due <-> reqs (db w) !! r_ID req = Some req
                               /\ grant_due (clock w (reads w)) req = true)
    /\ (forall id r, reqs (db w') !! id = Some r -> grant_due (clock w (reads w)) r = false)
    /\ (forall bid b gid x, role_bindings (db w') !! bid = Some b -> rb_grant_id b = Some gid ->
          rb_expires_at b = Some x -> clock w (reads w) < x)
    /\ (forall id, id ∉ r_ID <$> due -> reqs (db w') !! id = reqs (db w) !! id).
Proof.
  intros Hs Hn. unfold sweepOnce, attempt.
  destruct (ListDueGrants w) as [w1 [due|e]] eqn:Hl.
  2: { unfold ListDueGrants in Hl. minv Hl. by rewrite Hn in Hf. }
  pose proof Hl as Hq. apply ListDueGrants_ok in Hq as (Hnd & Hdb & Hdue); [|done].
  assert (Hn1 : no_faults w1).
  { unfold ListDueGrants in Hl. minv Hl. done. }
  destruct (expire_all_runs due w1 Hn1 Hnd) as (w2 & Hx & Hex & Hoth).
  { intros req Hin. rewrite Hdb. by apply Hdue. }
  assert (Hs2 : grants_sound (db w2)).
  { eapply commits_sound; [exact Hs|].
    eapply (sweepOnce_commits bus w w2); [done|]. unfold sweepOnce, attempt. by rewrite Hl. }
  assert (Hnone : forall id r, reqs (db w2) !! id = Some r -> grant_due (clock w (reads w)) r = false).
  { intros id r Hr. destruct (decide (id ∈ r_ID <$> due)) as [Hin|Hnin].
    - apply list_elem_of_fmap in Hin as (q & -> & Hq). specialize (Hex _ Hq).
      rewrite Hr in Hex. simpl in Hex. unfold grant_due. simplify_eq. by rewrite Hex.
    - rewrite (Hoth _ Hnin), Hdb in Hr. apply not_true_iff_false. intros Hd. apply Hnin.
      pose proof (gs_key _ Hs _ _ Hr) as Hk. rewrite <- Hk. apply list_elem_of_fmap_2.
      apply Hdue. by rewrite Hk. }
  exists w2, due. split_and!; auto.
  - intros bid b gid x Hb Hg Hxp.
    destruct (gs_role _ Hs2 _ _ _ Hb Hg) as (r & Hr & Hst & _ & _ & _ & _ & _ & _ & _ & Hxe).
    specialize (Hnone _ _ Hr). unfold grant_due in Hnone. rewrite <- Hxe, Hxp, Hst in Hnone.
    simpl in Hnone. to_prop. done.
  - intros id Hid. by rewrite Hoth, Hdb.
Qed.

Definition tick w : World G :=
  mkWorld (db w) (gen w) (trace w) (clock w) (reads w) (faults w) (S (calls w)).

Lemma GetRequest_runs id t w req :
  no_faults w -> reqs (db w) !! id = Some req -> r_TenantID req = t ->
  repo_GetRequest id t w = (tick w, Ok req).
Proof.
  intros Hn Hr Ht. unfold repo_GetRequest, stmt, bind, gets, ret. rewrite Hn. simpl.
  by rewrite Hr, Ht, Z.eqb_refl.
Qed.

Lemma GetEligibility_runs id t w e :
  no_faults w -> eligs (db w) !! id = Some e -> e_TenantID e = t ->
  repo_GetEligibility id t w = (tick w, Ok e).
Proof.
  intros Hn Hr Ht. unfold repo_GetEligibility, stmt, bind, gets, ret. rewrite Hn. simpl.
  by rewrite Hr, Ht, Z.eqb_refl.
Qed.

Lemma guard_runs b (e : Error) w : b = false -> guard b e w = (w, Ok tt).
Proof. intros ->. reflexivity. Qed.

(** Every id in the binding tables came from this generator. *)
Definition binding_ids_issued w : Prop :=
  (forall i, is_Some (role_bindings (db w) !! i) -> i <= id_bound (gen w))
  /\ (forall i, is_Some (app_bindings (db w) !! i) -> i <= id_bound (gen w)).

Lemma ApproveAndGrant_no_err req old a x b w w' e :
  no_faults w -> reqs (db w) !! r_ID req = Some old -> r_TenantID old = r_TenantID req ->
  r_Status old = StatusPending -> grantable req ->
  role_bindings (db w) !! b = None -> app_bindings (db w) !! b = None ->
  ApproveAndGrant req a x b w <> (w', Err e).
Proof.
  intros Hn Ho Ht Hp Hg Hrb Hab Hr. unfold ApproveAndGrant, Transaction in Hr.
  apply bind_err in Hr as [Hr | (t & w1 & Hm & Hr)]; [minv Hr|]. minv Hm.
  destruct (bind _ _ _) as [w1 [u|e']] eqn:E in Hr; [discriminate|]. clear Hr.
  apply bind_err in E as [E | (? & w2 & Hb & E)].
  - apply bind_err in E as [E | (? & w3 & Hi & E)].
    + unfold insertBindingTx in E.
      minv E; simpl in *; to_prop; try (match goal with Hx : faults _ _ = true |- _ => by rewrite Hn in Hx end).
      * destruct Hg0 as [? Hx]. apply map_lookup_filter_Some in Hx as [Hx _]. congruence.
      * destruct Hg0 as [? Hx]. apply map_lookup_filter_Some in Hx as [Hx _]. congruence.
      * destruct Hg as [Hg | [_ [? Hg]]]; congruence.
      * destruct Hg as [Hg | [Hg _]]; congruence.
    + pose proof (silent _ _ _ Hi) as (_ & _ & Hf3 & _). simpl in Hf3.
      apply insertBindingTx_ok in Hi as (Hdb & _). simpl in Hdb.
      unfold approve_update in E. minv E; simpl in *.
      all: try (match goal with Hx : faults _ _ = true |- _ => by rewrite Hf3, Hn in Hx end).
      all: rewrite Hdb, insert_binding_reqs, Ho in *; simplify_eq; rewrite Ht, Z.eqb_refl, Hp in *; done.
  - pose proof (silent _ _ _ Hb) as (_ & _ & Hf2 & _). simpl in Hf2.
    minv E. by rewrite Hf2, Hn in Hf.
Qed.

(** When the database answers and the ids are fresh, an approval by a
    permitted approver who is not the requester succeeds on any pending,
    grantable request, and the elevated role is live in the binding table when
    the call returns. *)
Theorem authorised_approval_grants w t id a rs req e :
  grants_sound (db w) -> no_faults w -> binding_ids_issued w ->
  reqs (db w) !! id = Some req -> r_TenantID req = t -> r_Status req = StatusPending ->
  a <> r_RequesterID req -> grantable req ->
  eligs (db w) !! r_EligibilityID req = Some e -> e_TenantID e = t ->
  approverAllowed matcher superAdmin t a e = true ->
  exists w' req' bid,
    Approve matcher superAdmin bus t id a rs w = (w', Ok req')
    /\ r_BindingID req' = Some bid
    /\ (r_TargetKind req = TargetConsole -> exists b, role_bindings (db w') !! bid = Some b
        /\ rb_role_id b = r_RoleID req /\ rb_subject_id b = r_RequesterID req /\ rb_status b = BindingActive)
    /\ (r_TargetKind req = TargetApp -> exists b, app_bindings (db w') !! bid = Some b
        /\ arb_app_role_id b = r_RoleID req /\ arb_subject_id b = r_RequesterID req /\ arb_status b = BindingActive).
Proof.
  intros Hs Hn [Hir Hia] Hreq Ht Hp Hne Hg He Het Hal.
  destruct (Approve matcher superAdmin bus t id a rs w) as [w' [req'|err]] eqn:Hr.
  - exists w', req'. pose proof Hr as Hr'.
    apply Approve_ok in Hr' as (q & e' & t0 & t1 & b & Hq & _ & _ & _ & _ & _ & _ & _ & _ & -> & Hdb).
    assert (q = req) as -> by congruence. exists b.
    rewrite (Hdb (gs_key _ Hs _ _ Hreq)). split_and!; auto.
    + intros Hk. unfold grant_db, insert_binding. rewrite Hk. simpl.
      eexists. rewrite lookup_insert_eq. eauto.
    + intros Hk. unfold grant_db, insert_binding. rewrite Hk. simpl.
      destruct Hg as [Hg | [_ [ap Hap]]]; [by rewrite Hk in Hg|]. rewrite Hap. simpl.
      eexists. rewrite lookup_insert_eq. eauto.
  - exfalso. unfold Approve in Hr.
    rewrite (bind_ok_run _ _ _ _ _ (GetRequest_runs _ _ _ _ Hn Hreq Ht)) in Hr.
    rewrite Hp, bool_decide_eq_true_2 in Hr by done.
    rewrite (bind_ok_run _ _ _ _ _ (guard_runs (negb true) _ _ eq_refl)) in Hr.
    rewrite (bind_ok_run _ _ _ _ _ (guard_runs _ _ _ (proj2 (Z.eqb_neq _ _) Hne))) in Hr.
    rewrite (bind_ok_run _ _ _ _ _ (GetEligibility_runs _ _ (tick w) _ Hn He Het)) in Hr.
    rewrite Hal in Hr.
    rewrite (bind_ok_run _ _ _ _ _ (guard_runs (negb true) _ _ eq_refl)) in Hr.
    apply bind_err in Hr as [Hr | (? & w1 & Hm & Hr)]; [minv Hr|]. minv Hm.
    apply bind_err in Hr as [Hr | (bid & w2 & Hm & Hr)];
      unfold generate in *; simpl in *; destruct (Generate (gen w)) as [g' i] eqn:Eg; [discriminate|].
    inv_pair Hm. apply Generate_fresh in Eg as [Hlt _].
    apply bind_err in Hr as [Hr | (? & w3 & Hm & Hr)].
    + revert Hr. eapply (ApproveAndGrant_no_err _ req); simpl; auto.
      * by rewrite (gs_key _ Hs _ _ Hreq).
      * apply eq_None_not_Some. intros Hx. apply Hir in Hx. lia.
      * apply eq_None_not_Some. intros Hx. apply Hia in Hx. lia.
    + unfold publish in Hr. destruct bus; minv Hr.
Qed.

(** ** Two behaviours the code does not intend *)

(** Approving a console elevation deletes a permanent binding the requester
    already holds on the same role and scope, not only an earlier time-bound
    one: once the grant ends the subject holds neither. *)
Theorem approval_deletes_permanent_binding w w' t id a rs req' req pid pb :
  grants_sound (db w) ->
  Approve matcher superAdmin bus t id a rs w = (w', Ok req') ->
  reqs (db w) !! id = Some req -> r_TargetKind req = TargetConsole ->
  role_bindings (db w) !! pid = Some pb -> rb_grant_id pb = None ->
  rb_role_id pb = r_RoleID req -> rb_subject_type pb = "user"%string ->
  rb_subject_id pb = r_RequesterID req ->
  rb_scope_type pb = r_ScopeType req -> rb_scope_id pb = r_ScopeID req ->
  forall b, role_bindings (db w') !! pid = Some b -> rb_grant_id b = Some id.
Proof.
  intros Hs Hr Hreq Hk Hpb Hperm E1 E2 E3 E4 E5 b Hb.
  apply Approve_ok in Hr as (q & e' & t0 & t1 & bid & Hq & _ & _ & _ & _ & _ & _ & _ & _ & _ & Hdb).
  assert (q = req) as -> by congruence.
  pose proof (gs_key _ Hs _ _ Hreq) as Hid. rewrite (Hdb Hid) in Hb.
  unfold grant_db, insert_binding in Hb. rewrite Hk in Hb. simpl in Hb.
  rewrite lookup_insert in Hb. case_decide.
  - simplify_eq. simpl. done.
  - apply map_lookup_filter_Some in Hb as [Hb Hsup]. simplify_eq.
    unfold role_superseded in Hsup.
    rewrite E1, E2, E3, E4, E5, !Z.eqb_refl, !bool_decide_eq_true_2 in Hsup by done. discriminate.
Qed.

(** A Reject that read the request while it was pending and writes after a
    concurrent Approve committed marks the request rejected and leaves the
    binding row in place; no sweep will ever list that grant again. *)
Theorem reject_race_orphans_grant w w1 w2 t id a rs req' req b rs' :
  grants_sound (db w) ->
  Approve matcher superAdmin bus t id a rs w = (w1, Ok req') ->
  reqs (db w) !! id = Some req -> r_TargetKind req = TargetConsole ->
  UpdateRequestStatus id t StatusRejected rs' (Some b) w1 = (w2, Ok tt) ->
  exists r bid row,
    reqs (db w2) !! id = Some r /\ r_Status r = StatusRejected
    /\ role_bindings (db w2) !! bid = Some row /\ rb_grant_id row = Some id
    /\ rb_status row = BindingActive
    /\ (forall now_, grant_due now_ r = false).
Proof.
  intros Hs Hr Hreq Hk Hu.
  apply Approve_ok in Hr as (q & e' & t0 & t1 & bid & Hq & Ht & _ & _ & _ & _ & _ & _ & _ & _ & Hdb).
  assert (q = req) as -> by congruence.
  pose proof (gs_key _ Hs _ _ Hreq) as Hid. specialize (Hdb Hid).
  apply UpdateRequestStatus_ok in Hu. rewrite Hu, Hdb. unfold grant_db. simpl.
  rewrite lookup_alter_eq, <- Hid, lookup_insert_eq. simpl. rewrite Ht, Z.eqb_refl.
  unfold insert_binding. rewrite Hk. simpl.
  eexists _, bid, _. rewrite lookup_insert_eq. split_and!; done.
Qed.

End System.

(** ** A concrete deployment

    User 7 may ask for console role 5, user 9 approves; 7 also holds role 5
    permanently (binding 30). *)
Module Demo.

Definition demo_matcher : SubjectMatcher :=
  mkMatcher (fun _ _ _ => false) (fun _ _ _ => false) (fun _ _ _ => false).

Definition demo_elig : Eligibility :=
  mkEligibility 10 1 TargetConsole 5 None None None "user" 7 [3600; 14400] 14400
    ApproverUser 9 true true 1 0 None 0.

Definition demo_db0 : DB :=
  mkDB {[ 10 := demo_elig ]} ∅ {[ 30 := mkRB 5 "user" 7 None None None None 1 ]} ∅.

Definition demo_w0 : World Z :=
  mkWorld demo_db0 100 [] (fun n => 1000000000000000000 + Z.of_nat n * 60000000000) 0
    (fun _ => false) 0.

Definition run_request := CreateRequest (G:=Z) demo_matcher None true 1 7 (mkCAR 10 3600 "on call").
Definition run_approve := Approve (G:=Z) demo_matcher None true 1 101 9 "ok".

Definition demo_w1 : World Z := (run_request demo_w0).1.
Definition demo_w2 : World Z := (run_approve demo_w1).1.

Lemma demo_start : no_grants_yet (db demo_w0).
Proof.
  split_and!; [reflexivity| |].
  - intros i b Hb. simpl in Hb. apply lookup_singleton_Some in Hb as [_ <-]. reflexivity.
  - intros i b Hb. discriminate.
Defined.

Lemma demo_path1 : rtc (sys_step demo_matcher None true) (demo_w0, []) (demo_w1, []).
Proof.
  apply rtc_once, ss_handler.
  apply (h_request _ _ _ _ _ 1 7 (mkCAR 10 3600 "on call") (run_request demo_w0).2).
  apply surjective_pairing.
Defined.

Lemma demo_path2 : rtc (sys_step demo_matcher None true) (demo_w0, []) (demo_w2, []).
Proof.
  eapply rtc_r; [apply demo_path1|]. apply ss_handler.
  apply (h_approve _ _ _ _ _ 1 101 9 "ok" (run_approve demo_w1).2). apply surjective_pairing.
Defined.

Lemma demo_sound1 : grants_sound (db demo_w1).
Proof. exact (reachable_sound _ _ _ _ _ _ demo_start demo_path1). Defined.

Lemma demo_sound2 : grants_sound (db demo_w2).
Proof. exact (reachable_sound _ _ _ _ _ _ demo_start demo_path2). Defined.

Lemma no_orphan_grants_witness :
  exists r a, reqs (db demo_w2) !! 101 = Some r
    /\ role_grant_of r 102 (mkRB 5 "user" 7 None None (Some 101) (Some 1000003660000000000) 1)
    /\ r_ApproverID r = Some a /\ a <> r_RequesterID r.
Proof.
  apply (no_orphan_grants demo_matcher None true demo_w0 demo_w2 [] 102 _ 101 demo_start demo_path2).
  - vm_compute. reflexivity.
  - reflexivity.
Defined.

Lemma handlers_follow_lifecycle_witness : evolves (db demo_w1) (db demo_w2).
Proof.
  apply (handlers_follow_lifecycle demo_matcher None true demo_w0 demo_w1 demo_w2 [] demo_start demo_path1).
  apply (h_approve _ _ _ _ _ 1 101 9 "ok" (run_approve demo_w1).2). apply surjective_pairing.
Defined.

Lemma demo_bounded1 : windows_bounded (db demo_w1).
Proof.
  eapply (commits_bounded false (db demo_w0)).
  - split; [|intros id r Hr; discriminate]. intros id e He. simpl in He.
    apply lookup_singleton_Some in He as [_ <-].
    split; [vm_compute; intuition discriminate|]. repeat constructor; vm_compute; congruence.
  - eapply (CreateRequest_commits demo_matcher None true); [by apply no_grants_sound, demo_start|].
    apply surjective_pairing.
Defined.

Definition demo_req1 : Request :=
  mkRequest 101 1 7 10 TargetConsole 5 None None None 3600 "on call" StatusPending None None ""
    None None None 1000000000000000000 1000000000000000000.

Definition demo_granted : Request := granted_copy demo_req1 1000003660000000000 102.

Lemma demo_approves : Approve demo_matcher None true 1 101 9 "ok" demo_w1 = (demo_w2, Ok demo_granted).
Proof. apply (run_result run_approve). vm_compute. reflexivity. Defined.

Lemma granted_window_bounded_witness :
  exists t0 x, t0 < x <= t0 + maxEligibilityTTL * 1000000000 /\ r_ExpiresAt demo_granted = Some x.
Proof.
  destruct (granted_window_bounded demo_matcher None true demo_w1 demo_w2 1 101 9 "ok" demo_granted
    demo_sound1 demo_bounded1 demo_approves) as (t0 & x & bid & r & _ & Hx & _ & Hb & _).
  exists t0, x. split; [exact Hb | exact Hx].
Defined.

(** The requester approves their own request. *)
Definition demo_self := Approve (G:=Z) demo_matcher None true 1 101 7 "mine" demo_w1.

Lemma failed_handler_leaves_no_trace_witness :
  demo_self.2 = Err ErrSelfApproval /\ db demo_self.1 = db demo_w1 /\ trace demo_self.1 = trace demo_w1.
Proof.
  split; [vm_compute; reflexivity|].
  apply (failed_handler_leaves_no_trace demo_matcher None true demo_w1 _ ErrSelfApproval).
  left. exists 1, 101, 7, "mine"%string. 
  apply (run_result (Approve demo_matcher None true 1 101 7 "mine")). vm_compute. reflexivity.
Defined.

(** The same store an hour later. *)
Definition demo_w3 : World Z :=
  mkWorld (db demo_w2) (gen demo_w2) (trace demo_w2) (fun n => 1000007200000000000 + Z.of_nat n) 0
    (fun _ => false) 0.

Lemma sweep_expires_exactly_the_due_witness :
  exists w' (due : list Request), sweepOnce true demo_w3 = (w', Ok (length due)) /\ demo_w3.(clock) 0%nat = 1000007200000000000
    /\ (forall id r, reqs (db w') !! id = Some r -> grant_due 1000007200000000000 r = false).
Proof.
  destruct (sweep_expires_exactly_the_due true demo_w3 demo_sound2 (fun _ => eq_refl))
    as (w' & due & Hr & _ & Hn & _).
  exists w', due. split; [exact Hr|]. split; [reflexivity | exact Hn].
Defined.

Lemma demo_issued1 : binding_ids_issued demo_w1.
Proof.
  split; intros i [b Hb].
  - destruct (decide (i = 30)) as [->|Hne]; [vm_compute; discriminate|].
    change (role_bindings (db demo_w1)) with (role_bindings demo_db0) in Hb. simpl in Hb.
    rewrite lookup_singleton_ne in Hb by done. discriminate.
  - change (app_bindings (db demo_w1)) with (app_bindings demo_db0) in Hb. discriminate.
Defined.

Lemma demo_answers1 : no_faults demo_w1.
Proof. intros n. vm_compute. reflexivity. Defined.

Lemma authorised_approval_grants_witness :
  exists w' req' bid,
    Approve demo_matcher None true 1 101 9 "ok" demo_w1 = (w', Ok req') /\ r_BindingID req' = Some bid.
Proof.
  destruct (authorised_approval_grants demo_matcher None true demo_w1 1 101 9 "ok" demo_req1 demo_elig
    demo_sound1 demo_answers1 demo_issued1) as (w' & req' & bid & Hr & Hb & _).
  - vm_compute. reflexivity.
  - reflexivity.
  - reflexivity.
  - discriminate.
  - left. reflexivity.
  - vm_compute. reflexivity.
  - reflexivity.
  - reflexivity.
  - exists w', req', bid. split; [exact Hr | exact Hb].
Defined.

(** Binding 30, the permanent one, is gone after the approval. *)
Lemma approval_deletes_permanent_binding_witness :
  role_bindings (db demo_w1) !! 30 = Some (mkRB 5 "user" 7 None None None None 1)
  /\ role_bindings (db demo_w2) !! 30 = None
  /\ (forall b, role_bindings (db demo_w2) !! 30 = Some b -> rb_grant_id b = Some 101).
Proof.
  split; [vm_compute; reflexivity|]. split; [vm_compute; reflexivity|].
  apply (approval_deletes_permanent_binding demo_matcher None true demo_w1 demo_w2 1 101 9 "ok"
      demo_granted demo_req1 30 (mkRB 5 "user" 7 None None None None 1) demo_sound1 demo_approves);
      vm_compute; reflexivity.
Defined.

Definition run_reject := UpdateRequestStatus (G:=Z) 101 1 StatusRejected "no" (Some 8).
Definition demo_w4 : World Z := (run_reject demo_w2).1.

Lemma demo_rejects : run_reject demo_w2 = (demo_w4, Ok tt).
Proof. apply (run_result run_reject). vm_compute. reflexivity. Defined.

Lemma reject_race_orphans_grant_witness :
  exists r bid row, reqs (db demo_w4) !! 101 = Some r /\ r_Status r = StatusRejected
    /\ role_bindings (db demo_w4) !! bid = Some row /\ rb_grant_id row = Some 101.
Proof.
  destruct (reject_race_orphans_grant demo_matcher None true demo_w1 demo_w2 demo_w4 1 101 9 "ok"
    demo_granted demo_req1 8 "no" demo_sound1 demo_approves) as (r & bid & row & H1 & H2 & H3 & H4 & _).
  - vm_compute. reflexivity.
  - reflexivity.
  - exact demo_rejects.
  - exists r, bid, row. auto.
Defined.

End Demo.
