(* ===== verification/AuditLedger.v ===== *)
(** * AuditLedger: the tamper-evident ledger (src/internal/domain/audit) *)

From stdpp Require Import sorting.
From S2P Require Import Prelude.

(** ** Data: chainmodel.go, anchormodel.go, checkpoint.go, verify.go *)

Record AuditPending : Type := mkPending {
  p_ID : Z; p_TenantID : Z; p_ChainClass : string; p_ActorID : Z; p_ActorType : string;
  p_EventType : string; p_ResourceType : string; p_ResourceID : Z;
  p_Before : bytes; p_After : bytes; p_IP : string; p_UserAgent : string;
  p_SessionID : string; p_Detail : bytes; p_OccurredAt : Z;
  p_ActorName : option string; p_ResourceName : option string;
  p_GeoCity : option string; p_GeoCountry : option string
}.

Record AuditEntry : Type := mkEntry {
  n_TenantID : Z; n_ChainClass : string; n_Seq : Z;
  n_PrevHash : bytes; n_EntryHash : bytes; n_KeyID : string;
  n_Payload : bytes; n_Imported : bool; n_CreatedAt : Z
}.

Record ChainHead : Type := mkHead {
  h_TenantID : Z; h_ChainClass : string; h_LastSeq : Z; h_LastEntryHash : bytes; h_UpdatedAt : Z
}.

Record AuditAnchor : Type := mkAnchor {
  an_ID : Z; an_TenantID : Z; an_ChainClass : string; an_FromSeq : Z; an_ToSeq : Z;
  an_MerkleRoot : bytes; an_Signature : bytes; an_KeyID : string; an_Version : Z;
  an_PrevAnchorHash : bytes; an_ExternalURI : string; an_CreatedAt : Z
}.

Record AuditCheckpoint : Type := mkCheckpointRow {
  ck_ID : Z; ck_TenantID : Z; ck_ChainClass : string; ck_PrunedThroughSeq : Z;
  ck_PrevHash : bytes; ck_Signature : bytes; ck_KeyID : string; ck_CreatedAt : Z
}.

Record Checkpoint : Type := mkCheckpoint { cp_Seq : Z; cp_PrevHash : bytes }.

Record VerifyResult : Type := mkVR {
  vr_OK : bool; vr_VerifiedThrough : Z; vr_FailSeq : Z; vr_Reason : string
}.

Record AnchorVerifyResult : Type := mkAVR {
  avr_OK : bool; avr_AnchoredThrough : Z; avr_FailFromSeq : Z; avr_Reason : string
}.

Record PruneResult : Type := mkPR {
  pr_TenantID : Z; pr_ChainClass : string; pr_PrunedThroughSeq : Z; pr_EntriesDeleted : Z
}.

(** anchorsink.go: one line of the external witness. *)
Record AnchorRecord : Type := mkAnchorRecord {
  ar_TenantID : Z; ar_ChainClass : string; ar_FromSeq : Z; ar_ToSeq : Z;
  ar_MerkleRoot : bytes; ar_Signature : bytes; ar_KeyID : string; ar_CreatedAt : Z
}.

(** capture.go: what a producer hands over, and the actor of the request
    (pkg/auditctx). A nil map is [None]. *)
Record Event (JMap : Type) : Type := mkEvent {
  ev_ChainClass : string; ev_EventType : string; ev_ResourceType : string; ev_ResourceID : Z;
  ev_Before : option JMap; ev_After : option JMap; ev_Detail : option JMap;
  ev_ResourceName : string; ev_GeoCity : string; ev_GeoCountry : string
}.
Arguments mkEvent {JMap}. Arguments ev_ChainClass {JMap}. Arguments ev_EventType {JMap}.
Arguments ev_ResourceType {JMap}. Arguments ev_ResourceID {JMap}. Arguments ev_Before {JMap}.
Arguments ev_After {JMap}. Arguments ev_Detail {JMap}. Arguments ev_ResourceName {JMap}.
Arguments ev_GeoCity {JMap}. Arguments ev_GeoCountry {JMap}.

Record Actor : Type := mkActor {
  ac_TenantID : Z; ac_ActorID : Z; ac_ActorType : string; ac_ActorName : string;
  ac_IP : string; ac_UserAgent : string; ac_SessionID : string
}.

(** The tables, keyed by their primary keys. *)
Record Ledger : Type := mkLedger {
  pending : gmap Z AuditPending;
  entries : gmap (Z * string * Z) AuditEntry;
  heads : gmap (Z * string) ChainHead;
  anchors : gmap Z AuditAnchor;
  checkpoints : gmap (Z * string) AuditCheckpoint
}.

Definition set_pending f (l : Ledger) : Ledger :=
  mkLedger (f (pending l)) (entries l) (heads l) (anchors l) (checkpoints l).
Definition set_entries f (l : Ledger) : Ledger :=
  mkLedger (pending l) (f (entries l)) (heads l) (anchors l) (checkpoints l).
Definition set_heads f (l : Ledger) : Ledger :=
  mkLedger (pending l) (entries l) (f (heads l)) (anchors l) (checkpoints l).
Definition set_anchors f (l : Ledger) : Ledger :=
  mkLedger (pending l) (entries l) (heads l) (f (anchors l)) (checkpoints l).
Definition set_checkpoints f (l : Ledger) : Ledger :=
  mkLedger (pending l) (entries l) (heads l) (anchors l) (f (checkpoints l)).

Definition GenesisPrevHash : bytes := replicate 32 0.
Definition PayloadV2 : Z := 2.

Inductive AuditErr : Type :=
| AErrDB
| AErrCanonicalize
| AErrUnknownKey
| AErrBadCheckpointSig
| AErrVerificationFailed
| AErrNoChainKey
| AErrMarshal.

(** ** Merkle roots: merkle.go *)

Section Merkle.
Context (sha256 : bytes -> bytes).

(** One level: the odd node out is paired with itself. *)
Fixpoint merkle_level (level : list bytes) : list bytes :=
  match level with
  | [] => []
  | [x] => [sha256 (x ++ x)]
  | x :: y :: rest => sha256 (x ++ y) :: merkle_level rest
  end.

(** [for len(level) > 1 { ... }] *)
Fixpoint merkle_loop (fuel : nat) (level : list bytes) : option bytes :=
  match fuel with
  | O => None
  | S fuel' =>
      match level with
      | [] => None
      | [x] => Some x
      | _ => merkle_loop fuel' (merkle_level level)
      end
  end.

(** nil for an empty input; each level halves the list, so its length is
    enough fuel. *)
Definition MerkleRoot (leaves : list bytes) : bytes :=
  match leaves with
  | [] => []
  | _ => default [] (merkle_loop (length leaves) leaves)
  end.
End Merkle.

(** ** Signed messages: anchor.go, checkpoint.go *)

Definition anchorSigDomain : string := "mxid-audit-anchor-v1".
Definition anchorSigDomainV2 : string := "mxid-audit-anchor-v2".
Definition checkpointSigDomain : string := "mxid-audit-checkpoint-v1".
Definition AnchorV1 : Z := 1.
Definition AnchorV2 : Z := 2.

Definition AnchorSigMessage (tenantID : Z) (class : string) (fromSeq toSeq : Z) (root : bytes) : bytes :=
  str_bytes anchorSigDomain ++ be64 tenantID ++ be16 (Z.of_nat (String.length class))
  ++ str_bytes class ++ be64 fromSeq ++ be64 toSeq ++ root.

Definition AnchorSigMessageV2 (tenantID : Z) (class : string) (fromSeq toSeq : Z)
    (prevAnchorHash root : bytes) : bytes :=
  str_bytes anchorSigDomainV2 ++ be64 tenantID ++ be16 (Z.of_nat (String.length class))
  ++ str_bytes class ++ be64 fromSeq ++ be64 toSeq
  ++ be16 (Z.of_nat (length prevAnchorHash)) ++ prevAnchorHash ++ root.

Definition CheckpointSigMessage (tenantID : Z) (class : string) (seq : Z) (prevHash : bytes) : bytes :=
  str_bytes checkpointSigDomain ++ be64 tenantID ++ be16 (Z.of_nat (String.length class))
  ++ str_bytes class ++ be64 seq ++ prevHash.

Section Ledger.
(** crypto/hmac, crypto/sha256, crypto/ed25519, encoding/json and
    time.Format, as the code calls them. *)
Context (hmac_sha256 : bytes -> bytes -> bytes) (sha256 : bytes -> bytes).
Context (priv_key pub_key : Type) (ed25519_sign : priv_key -> bytes -> bytes)
        (ed25519_verify : pub_key -> bytes -> bytes -> bool).
Context (JMap : Type) (json_empty : JMap) (json_marshal_map : JMap -> option bytes)
        (json_unmarshal_map : bytes -> option JMap)
        (format_rfc3339 : Z -> string).

Record ChainPayload : Type := mkPayload {
  y_Version : Z; y_TenantID : Z; y_ChainClass : string; y_ActorID : Z; y_ActorType : string;
  y_EventType : string; y_ResourceType : string; y_ResourceID : Z;
  y_Before : option JMap; y_After : option JMap; y_IP : string; y_UserAgent : string;
  y_SessionID : string; y_Detail : option JMap; y_OccurredAt : string;
  y_ActorName : string; y_ResourceName : string; y_GeoCity : string; y_GeoCountry : string
}.

(** [json.Marshal] on the payload struct. *)
Context (CanonicalJSON : ChainPayload -> option bytes).

Abbreviation Op := (M (Store Ledger) AuditErr).

(** ** capture.go *)

Definition toJSON (m : option JMap) : option bytes :=
  match m with None => Some [] | Some j => json_marshal_map j end.

Definition nonEmpty (s : string) : option string :=
  if bool_decide (s = "")%string then None else Some s.

(** [newID] is the generator's next id and [now] the clock. *)
Definition Capture (newID now : Z) (actor : Actor) (ev : Event JMap) : Op unit :=
  let detail := default json_empty (ev_Detail ev) in
  match toJSON (ev_Before ev), toJSON (ev_After ev), toJSON (Some detail) with
  | Some beforeJSON, Some afterJSON, Some detailJSON =>
      let row := mkPending newID (ac_TenantID actor) (ev_ChainClass ev) (ac_ActorID actor)
        (ac_ActorType actor) (ev_EventType ev) (ev_ResourceType ev) (ev_ResourceID ev)
        beforeJSON afterJSON (ac_IP actor) (ac_UserAgent actor) (ac_SessionID actor) detailJSON now
        (nonEmpty (ac_ActorName actor)) (nonEmpty (ev_ResourceName ev))
        (nonEmpty (ev_GeoCity ev)) (nonEmpty (ev_GeoCountry ev)) in
      let! l := query AErrDB in
      do! guard (bool_decide (is_Some (pending l !! newID))) AErrDB in
      write (set_pending (<[newID := row]>))
  | _, _, _ => throw AErrMarshal
  end.

(** ** chain.go *)

Definition ComputeEntryHash (key : bytes) (seq : Z) (prevHash canonical : bytes) : bytes :=
  hmac_sha256 key (be64 seq ++ prevHash ++ canonical).

(** ** chainer.go *)

Definition deref (s : option string) : string := default ""%string s.

Definition jsonToMap (raw : bytes) : option JMap :=
  match raw with [] => None | _ => json_unmarshal_map raw end.

Definition payload_of (p : AuditPending) : ChainPayload :=
  mkPayload PayloadV2 (p_TenantID p) (p_ChainClass p) (p_ActorID p) (p_ActorType p)
    (p_EventType p) (p_ResourceType p) (p_ResourceID p) (jsonToMap (p_Before p))
    (jsonToMap (p_After p)) (p_IP p) (p_UserAgent p) (p_SessionID p) (jsonToMap (p_Detail p))
    (format_rfc3339 (p_OccurredAt p)) (deref (p_ActorName p)) (deref (p_ResourceName p))
    (deref (p_GeoCity p)) (deref (p_GeoCountry p)).

(** The head the next entry links to: the stored one, or genesis. *)
Definition head_for (l : Ledger) (tenantID : Z) (class : string) : ChainHead :=
  match heads l !! (tenantID, class) with
  | Some h => if h_LastSeq h =? 0
              then mkHead tenantID class (h_LastSeq h) GenesisPrevHash (h_UpdatedAt h)
              else h
  | None => mkHead tenantID class 0 GenesisPrevHash 0
  end.

Definition chainOne (key : bytes) (keyID : string) (now : Z) (p : AuditPending) : Op unit :=
  let! l := query AErrDB in
  let head := head_for l (p_TenantID p) (p_ChainClass p) in
  let seq := h_LastSeq head + 1 in
  match CanonicalJSON (payload_of p) with
  | None => throw AErrCanonicalize
  | Some canonical =>
      let entryHash := ComputeEntryHash key seq (h_LastEntryHash head) canonical in
      let entry := mkEntry (p_TenantID p) (p_ChainClass p) seq (h_LastEntryHash head)
                     entryHash keyID canonical false now in
      let! l := query AErrDB in
      do! guard (bool_decide (is_Some (entries l !! (p_TenantID p, p_ChainClass p, seq)))) AErrDB in
      do! write (set_entries (<[(p_TenantID p, p_ChainClass p, seq) := entry]>)) in
      let! _ := query AErrDB in
      write (set_heads (<[(h_TenantID head, h_ChainClass head) :=
        mkHead (h_TenantID head) (h_ChainClass head) seq entryHash now]>))
  end.

(** [for i := range pend { chainOne; Delete; processed++ }] *)
Fixpoint chain_rows (key : bytes) (keyID : string) (now : Z) (pend : list AuditPending) : Op Z :=
  match pend with
  | [] => ret 0
  | p :: pend' =>
      do! chainOne key keyID now p in
      let! _ := query AErrDB in
      do! write (set_pending (delete (p_ID p))) in
      let! n := chain_rows key keyID now pend' in
      ret (n + 1)
  end.

Definition pending_older (a b : AuditPending) : Prop := p_ID a <= p_ID b.
#[local] Instance pending_older_dec : RelDecision pending_older.
Proof. intros a b. unfold pending_older. apply _. Defined.

Definition ProcessBatch (key : bytes) (keyID : string) (now : Z) (limit : nat) : Op Z :=
  txn AErrDB (
    let! l := query AErrDB in
    chain_rows key keyID now
      (take limit (merge_sort pending_older (map_to_list (pending l)).*2))).

(** ** verify.go: the hash chain *)

Definition seq_le (a b : AuditEntry) : Prop := n_Seq a <= n_Seq b.
#[local] Instance seq_le_dec : RelDecision seq_le.
Proof. intros a b. unfold seq_le. apply _. Defined.

(** WHERE tenant_id = ? AND chain_class = ? ORDER BY seq asc *)
Definition chain_entries (l : Ledger) (tenantID : Z) (class : string) : list AuditEntry :=
  merge_sort seq_le
    (filter (fun e => n_TenantID e = tenantID /\ n_ChainClass e = class) (map_to_list (entries l)).*2).

(** ... AND seq > ? *)
Definition entries_after (l : Ledger) (tenantID : Z) (class : string) (cursor : Z) : list AuditEntry :=
  filter (fun e => cursor < n_Seq e) (chain_entries l tenantID class).

Definition verifyBatchSize : nat := 1000.
Definition GenesisCheckpoint : Checkpoint := mkCheckpoint 1 GenesisPrevHash.

(** The inner loop over one batch: a verdict, or the state to go on from. *)
Fixpoint verify_batch (key : bytes) (batch : list AuditEntry) (prev : bytes) (expectedSeq : Z)
    : VerifyResult + (bytes * Z) :=
  match batch with
  | [] => inr (prev, expectedSeq)
  | e :: batch' =>
      if negb (n_Seq e =? expectedSeq) then
        inl (mkVR false (expectedSeq - 1) expectedSeq "seq gap")
      else if negb (bool_decide (n_PrevHash e = prev)) then
        inl (mkVR false (n_Seq e - 1) (n_Seq e) "prev_hash mismatch")
      else if negb (bool_decide (ComputeEntryHash key (n_Seq e) prev (n_Payload e) = n_EntryHash e)) then
        inl (mkVR false (n_Seq e - 1) (n_Seq e) "hash mismatch")
      else verify_batch key batch' (n_EntryHash e) (expectedSeq + 1)
  end.

Fixpoint verify_loop (fuel : nat) (key : bytes) (tenantID : Z) (class : string)
    (prev : bytes) (expectedSeq cursor : Z) : Op VerifyResult :=
  match fuel with
  | O => throw AErrDB
  | S fuel' =>
      let! l := query AErrDB in
      match take verifyBatchSize (entries_after l tenantID class cursor) with
      | [] => ret (mkVR true (expectedSeq - 1) 0 "")
      | batch =>
          match verify_batch key batch prev expectedSeq with
          | inl verdict => ret verdict
          | inr (prev', expected') =>
              verify_loop fuel' key tenantID class prev' expected'
                (match last batch with Some e => n_Seq e | None => cursor end)
          end
      end
  end.

(** Every round consumes at least one entry: one round per entry and the final
    empty read are enough. *)
Definition VerifyChainFrom (key : bytes) (tenantID : Z) (class : string) (cp : Checkpoint) : Op VerifyResult :=
  let expectedSeq := if cp_Seq cp <? 1 then 1 else cp_Seq cp in
  let! l := gets sdb in
  verify_loop (S (length (chain_entries l tenantID class))) key tenantID class
    (cp_PrevHash cp) expectedSeq (expectedSeq - 1).

Definition VerifyChain (key : bytes) (tenantID : Z) (class : string) : Op VerifyResult :=
  VerifyChainFrom key tenantID class GenesisCheckpoint.

(** ** anchor.go: hashes and signatures *)

Definition AnchorHash (a : AuditAnchor) : bytes :=
  sha256 (if AnchorV2 <=? an_Version a
          then AnchorSigMessageV2 (an_TenantID a) (an_ChainClass a) (an_FromSeq a) (an_ToSeq a)
                 (an_PrevAnchorHash a) (an_MerkleRoot a)
          else AnchorSigMessage (an_TenantID a) (an_ChainClass a) (an_FromSeq a) (an_ToSeq a)
                 (an_MerkleRoot a)).

Definition SignAnchorV2 (priv : priv_key) (tenantID : Z) (class : string) (fromSeq toSeq : Z)
    (prevAnchorHash root : bytes) : bytes :=
  ed25519_sign priv (AnchorSigMessageV2 tenantID class fromSeq toSeq prevAnchorHash root).

Definition VerifyAnchorSig (pub : pub_key) (a : AuditAnchor) : bool :=
  if an_Version a =? AnchorV2 then
    ed25519_verify pub (AnchorSigMessageV2 (an_TenantID a) (an_ChainClass a) (an_FromSeq a)
      (an_ToSeq a) (an_PrevAnchorHash a) (an_MerkleRoot a)) (an_Signature a)
  else if (an_Version a =? AnchorV1) || (an_Version a =? 0) then
    ed25519_verify pub (AnchorSigMessage (an_TenantID a) (an_ChainClass a) (an_FromSeq a)
      (an_ToSeq a) (an_MerkleRoot a)) (an_Signature a)
  else false.

Definition VerifyCheckpointSig (pub : pub_key) (cp : AuditCheckpoint) : bool :=
  ed25519_verify pub (CheckpointSigMessage (ck_TenantID cp) (ck_ChainClass cp)
    (ck_PrunedThroughSeq cp) (ck_PrevHash cp)) (ck_Signature cp).

(** ** verify.go: the anchors *)

Definition from_le (a b : AuditAnchor) : Prop := an_FromSeq a <= an_FromSeq b.
#[local] Instance from_le_dec : RelDecision from_le.
Proof. intros a b. unfold from_le. apply _. Defined.

Definition chain_anchors (l : Ledger) (tenantID : Z) (class : string) : list AuditAnchor :=
  filter (fun a => an_TenantID a = tenantID /\ an_ChainClass a = class) (map_to_list (anchors l)).*2.

(** The leaves of one range, read in batches. *)
Fixpoint leaves_loop (fuel : nat) (tenantID : Z) (class : string) (cursor toSeq : Z)
    (leaves : list bytes) : Op (list bytes) :=
  match fuel with
  | O => throw AErrDB
  | S fuel' =>
      if toSeq <=? cursor then ret leaves else
      let! l := query AErrDB in
      match take verifyBatchSize
              (filter (fun e => n_Seq e <= toSeq) (entries_after l tenantID class cursor)) with
      | [] => ret leaves
      | batch =>
          leaves_loop fuel' tenantID class
            (match last batch with Some e => n_Seq e | None => cursor end) toSeq
            (leaves ++ map n_EntryHash batch)
      end
  end.

(** One pass over the anchors in range order; [expectPrev] is the hash the next
    anchor must commit to, once a predecessor has been seen. *)
Fixpoint verify_anchors (keys : gmap string pub_key) (tenantID : Z) (class : string)
    (ans : list AuditAnchor) (through expectedFrom : Z) (expectPrev : option bytes)
    : Op AnchorVerifyResult :=
  match ans with
  | [] => ret (mkAVR true through 0 "")
  | a :: ans' =>
      if negb (an_FromSeq a =? expectedFrom) then
        ret (mkAVR false (expectedFrom - 1) (an_FromSeq a) "anchor gap")
      else match keys !! an_KeyID a with
      | None => ret (mkAVR false through (an_FromSeq a) "unknown key")
      | Some pub =>
          if negb (VerifyAnchorSig pub a) then
            ret (mkAVR false through (an_FromSeq a) "bad signature")
          else if match expectPrev with
                  | Some h => (AnchorV2 <=? an_Version a) && negb (bool_decide (an_PrevAnchorHash a = h))
                  | None => false
                  end then
            ret (mkAVR false through (an_FromSeq a) "anchor link mismatch")
          else
            let! l := gets sdb in
            let! leaves := leaves_loop (S (length (chain_entries l tenantID class))) tenantID class
                             (an_FromSeq a - 1) (an_ToSeq a) [] in
            if negb (Z.of_nat (length leaves) =? an_ToSeq a - an_FromSeq a + 1) then
              ret (mkAVR false through (an_FromSeq a) "missing entries")
            else if negb (bool_decide (MerkleRoot sha256 leaves = an_MerkleRoot a)) then
              ret (mkAVR false through (an_FromSeq a) "root mismatch")
            else verify_anchors keys tenantID class ans' (an_ToSeq a) (an_ToSeq a + 1)
                   (Some (AnchorHash a))
      end
  end.

Definition VerifyAnchorsFrom (keys : gmap string pub_key) (tenantID : Z) (class : string)
    (fromSeq : Z) : Op AnchorVerifyResult :=
  let fromSeq := if fromSeq <? 1 then 1 else fromSeq in
  let! l := query AErrDB in
  verify_anchors keys tenantID class
    (merge_sort from_le (filter (fun a => fromSeq <= an_ToSeq a) (chain_anchors l tenantID class)))
    (fromSeq - 1) fromSeq None.

Definition VerifyAnchors (keys : gmap string pub_key) (tenantID : Z) (class : string)
    : Op AnchorVerifyResult := VerifyAnchorsFrom keys tenantID class 1.

(** [sinkIdx[k]]: the last record read for the range wins. *)
Definition sink_lookup (recs : list AnchorRecord) (tenantID : Z) (class : string) (fromSeq toSeq : Z)
    : option AnchorRecord :=
  last (filter (fun r => ar_TenantID r = tenantID /\ ar_ChainClass r = class
                         /\ ar_FromSeq r = fromSeq /\ ar_ToSeq r = toSeq) recs).

(** [sr, ok := sinkIdx[k]; !ok || root or signature differ] *)
Definition sink_mismatch (recs : list AnchorRecord) (a : AuditAnchor) : bool :=
  match sink_lookup recs (an_TenantID a) (an_ChainClass a) (an_FromSeq a) (an_ToSeq a) with
  | None => true
  | Some sr => negb (bool_decide (ar_MerkleRoot sr = an_MerkleRoot a))
               || negb (bool_decide (ar_Signature sr = an_Signature a))
  end.

Definition maxDBToSeqAt (ans : list AuditAnchor) (fromSeq : Z) : option Z :=
  foldl (fun m a => if (an_FromSeq a =? fromSeq) && (default 0 m <? an_ToSeq a)
                    then Some (an_ToSeq a) else m) None ans.

(** A sink record no database anchor accounts for. *)
Definition sink_orphan (ans : list AuditAnchor) (r : AnchorRecord) : bool :=
  negb (existsb (fun a => (an_FromSeq a =? ar_FromSeq r) && (an_ToSeq a =? ar_ToSeq r)) ans)
  && match maxDBToSeqAt ans (ar_FromSeq r) with
     | None => true
     | Some maxTo => maxTo <? ar_ToSeq r
     end.

(** [sink] is the content of the external witness, [None] in checkpoint-only
    mode; reading it can fail like a statement. *)
Definition VerifyAnchorsWithSinkFrom (sink : option (list AnchorRecord)) (keys : gmap string pub_key)
    (tenantID : Z) (class : string) (fromSeq : Z) : Op AnchorVerifyResult :=
  let! res := VerifyAnchorsFrom keys tenantID class fromSeq in
  if negb (avr_OK res) then ret res else
  match sink with
  | None => ret res
  | Some sinkAll =>
      let! l := query AErrDB in
      let dbAnchors := merge_sort from_le (chain_anchors l tenantID class) in
      let! _ := query AErrDB in
      let mine := filter (fun r => ar_TenantID r = tenantID /\ ar_ChainClass r = class) sinkAll in
      match find (sink_mismatch mine) dbAnchors with
      | Some a => ret (mkAVR false (avr_AnchoredThrough res) (an_FromSeq a) "sink mismatch")
      | None =>
          match find (sink_orphan dbAnchors) mine with
          | Some r => ret (mkAVR false (avr_AnchoredThrough res) (ar_FromSeq r) "sink mismatch")
          | None => ret res
          end
      end
  end.

(** ** anchorer.go *)

(** [Order("to_seq desc").First] over a chain's anchors. *)
Definition last_anchor (ans : list AuditAnchor) : option AuditAnchor :=
  foldr (fun a acc => match acc with
                      | Some b => if an_ToSeq b <=? an_ToSeq a then Some a else Some b
                      | None => Some a
                      end) None ans.

(** [sink] is the external witness, absent in checkpoint-only mode; its [Put]
    yields a URI or fails. *)
Definition AnchorChain (priv : priv_key) (keyID : string)
    (sink : option (AnchorRecord -> option string)) (newID now : Z)
    (tenantID : Z) (class : string) : Op (option AuditAnchor) :=
  let! l := query AErrDB in
  let lastTo := match last_anchor (chain_anchors l tenantID class) with
                | Some a => an_ToSeq a | None => 0 end in
  let! l := query AErrDB in
  match entries_after l tenantID class lastTo with
  | [] => ret None
  | (first :: _) as ens =>
      let root := MerkleRoot sha256 (map n_EntryHash ens) in
      let fromSeq := n_Seq first in
      let toSeq := match last ens with Some e => n_Seq e | None => n_Seq first end in
      let! l := query AErrDB in
      let prevHash := match last_anchor (chain_anchors l tenantID class) with
                      | Some a => AnchorHash a | None => [] end in
      let sig := SignAnchorV2 priv tenantID class fromSeq toSeq prevHash root in
      let! uri := match sink with
                  | None => ret ""%string
                  | Some put =>
                      match put (mkAnchorRecord tenantID class fromSeq toSeq root sig keyID now) with
                      | Some u => ret u
                      | None => throw AErrDB
                      end
                  end in
      let anchor := mkAnchor newID tenantID class fromSeq toSeq root sig keyID AnchorV2 prevHash uri now in
      let! l := query AErrDB in
      if existsb (fun a => (an_FromSeq a =? fromSeq) && (an_ToSeq a =? toSeq))
           (chain_anchors l tenantID class) then ret None
      else
        do! guard (bool_decide (is_Some (anchors l !! newID))) AErrDB in
        do! write (set_anchors (<[newID := anchor]>)) in
        ret (Some anchor)
  end.

(** The loop of [AnchorAll]; [ids] are the ids the generator will issue. *)
Fixpoint anchor_heads (priv : priv_key) (keyID : string)
    (sink : option (AnchorRecord -> option string)) (ids : nat -> Z) (now : Z)
    (hs : list ChainHead) : Op Z :=
  match hs with
  | [] => ret 0
  | h :: hs' =>
      let! got := AnchorChain priv keyID sink (ids O) now (h_TenantID h) (h_ChainClass h) in
      let! n := anchor_heads priv keyID sink (fun i => ids (S i)) now hs' in
      ret (match got with Some _ => n + 1 | None => n end)
  end.

Definition AnchorAll (priv : priv_key) (keyID : string)
    (sink : option (AnchorRecord -> option string)) (ids : nat -> Z) (now : Z) : Op Z :=
  let! l := query AErrDB in
  anchor_heads priv keyID sink ids now (map_to_list (heads l)).*2.

(** ** checkpoint.go *)

Definition LoadCheckpoint (keys : gmap string pub_key) (tenantID : Z) (class : string) : Op Checkpoint :=
  let! l := query AErrDB in
  match checkpoints l !! (tenantID, class) with
  | None => ret GenesisCheckpoint
  | Some cp =>
      match keys !! ck_KeyID cp with
      | None => throw AErrUnknownKey
      | Some pub =>
          if VerifyCheckpointSig pub cp
          then ret (mkCheckpoint (ck_PrunedThroughSeq cp + 1) (ck_PrevHash cp))
          else throw AErrBadCheckpointSig
      end
  end.

(** ** app/audit_verify.go: the [verify-audit] subcommand *)

(** One head: the chain from its signed floor, then, with keys registered, its
    anchors; [true] when either fails. *)
Definition verify_head (key : bytes) (sink : option (list AnchorRecord)) (reg : gmap string pub_key)
    (h : ChainHead) : Op bool :=
  let! cp := LoadCheckpoint reg (h_TenantID h) (h_ChainClass h) in
  let! res := VerifyChainFrom key (h_TenantID h) (h_ChainClass h) cp in
  if bool_decide (reg = ∅) then ret (negb (vr_OK res)) else
  let! ares := VerifyAnchorsWithSinkFrom sink reg (h_TenantID h) (h_ChainClass h) (cp_Seq cp) in
  ret (negb (vr_OK res) || negb (avr_OK ares)).

Fixpoint verify_heads (key : bytes) (sink : option (list AnchorRecord)) (reg : gmap string pub_key)
    (hs : list ChainHead) : Op bool :=
  match hs with
  | [] => ret false
  | h :: hs' =>
      let! f := verify_head key sink reg h in
      let! fs := verify_heads key sink reg hs' in
      ret (f || fs)
  end.

(** The heads are visited in table order; the verdict does not depend on it. *)
Definition runVerifyAudit (key : bytes) (sink : option (list AnchorRecord)) (reg : gmap string pub_key)
    : Op unit :=
  do! guard (bool_decide (key = [])) AErrNoChainKey in
  let! l := query AErrDB in
  let! failed := verify_heads key sink reg (map_to_list (heads l)).*2 in
  guard failed AErrVerificationFailed.

(** ** checkpoint.go: pruning *)

(** DELETE FROM mxid_audit_entry WHERE tenant_id, chain_class, seq <= through *)
Definition entry_pruned (tenantID : Z) (class : string) (through : Z) (e : AuditEntry) : bool :=
  (n_TenantID e =? tenantID) && bool_decide (n_ChainClass e = class) && (n_Seq e <=? through).

Definition PruneChain (priv : priv_key) (keyID : string) (newID now : Z)
    (tenantID : Z) (class : string) (cutoffSeq : Z) : Op PruneResult :=
  let nothing := mkPR tenantID class 0 0 in
  let! l := query AErrDB in
  match last_anchor (chain_anchors l tenantID class) with
  | None => ret nothing
  | Some lastAnchor =>
      let through := if cutoffSeq <? an_ToSeq lastAnchor then cutoffSeq else an_ToSeq lastAnchor in
      if through <? 1 then ret nothing else
      let! l := query AErrDB in
      match entries l !! (tenantID, class, through) with
      | None => ret nothing
      | Some boundary =>
          let sig := ed25519_sign priv
            (CheckpointSigMessage tenantID class through (n_EntryHash boundary)) in
          txn AErrDB (
            let! l := query AErrDB in
            (* upsert: an existing floor keeps its id *)
            let id := match checkpoints l !! (tenantID, class) with
                      | Some old => ck_ID old | None => newID end in
            let cp := mkCheckpointRow id tenantID class through (n_EntryHash boundary) sig keyID now in
            do! write (set_checkpoints (<[(tenantID, class) := cp]>)) in
            let! _ := query AErrDB in
            let! l := query AErrDB in
            let doomed := filter (fun '(_, e) => entry_pruned tenantID class through e = true) (entries l) in
            do! write (set_entries (filter (fun '(_, e) => entry_pruned tenantID class through e = false))) in
            ret (mkPR tenantID class through (Z.of_nat (size doomed))))
      end
  end.

(** The newest anchor older than the cutoff bounds what is pruned. *)
Fixpoint prune_heads (priv : priv_key) (keyID : string) (newID now cutoff : Z)
    (hs : list ChainHead) : Op (list PruneResult) :=
  match hs with
  | [] => ret []
  | h :: hs' =>
      let! l := query AErrDB in
      match last_anchor (filter (fun a => an_CreatedAt a < cutoff)
              (chain_anchors l (h_TenantID h) (h_ChainClass h))) with
      | None => prune_heads priv keyID newID now cutoff hs'
      | Some anchor =>
          let! r := PruneChain priv keyID newID now (h_TenantID h) (h_ChainClass h) (an_ToSeq anchor) in
          let! rest := prune_heads priv keyID (newID + 1) now cutoff hs' in
          ret (if 0 <? pr_EntriesDeleted r then r :: rest else rest)
      end
  end.

Definition PruneChainsBefore (priv : priv_key) (keyID : string) (newID now cutoff : Z) : Op (list PruneResult) :=
  let! l := query AErrDB in
  prune_heads priv keyID newID now cutoff (map_to_list (heads l)).*2.

End Ledger.
