(* ===== verification/AuditSpec.v ===== *)
(** * AuditSpec: the chain invariant of the ledger and its lemmas

    [linked] says what a well-formed run of entries is, independently of the
    verifier; [chain_ok]/[ledger_ok] are the invariant the chainer, the pruner
    and the verifier share. *)

From stdpp Require Import sorting.
From S2P Require Import Prelude AuditLedger.

(** ** Ordered reads of one chain *)

#[export] Existing Instance pending_older_dec.
#[export] Instance seq_le_total : Total seq_le.
Proof. intros a b. unfold seq_le. lia. Qed.
#[export] Instance seq_le_trans : Transitive seq_le.
Proof. intros a b c. unfold seq_le. lia. Qed.

Definition seq_lt (a b : AuditEntry) : Prop := n_Seq a < n_Seq b.

(** Rows sit under their primary key. *)
Definition keyed (l : Ledger) : Prop :=
  forall k e, entries l !! k = Some e -> k = (n_TenantID e, n_ChainClass e, n_Seq e).

Definition in_chain (t : Z) (c : string) (e : AuditEntry) : Prop :=
  n_TenantID e = t /\ n_ChainClass e = c.

Lemma chain_entries_elem l t c e :
  keyed l -> e ∈ chain_entries l t c <-> entries l !! (t, c, n_Seq e) = Some e.
Proof.
  intros Hk. unfold chain_entries. rewrite merge_sort_Permutation, list_elem_of_filter.
  rewrite list_elem_of_fmap. split.
  - intros [[Ht Hc] ([k e'] & He & Hin)]. simpl in He. subst e'.
    apply elem_of_map_to_list in Hin. pose proof (Hk _ _ Hin) as ->. congruence.
  - intros Hin. pose proof (Hk _ _ Hin) as Hkey. simplify_eq.
    split; [done|]. eexists (_, e). split; [done|]. by apply elem_of_map_to_list.
Qed.

Lemma chain_entries_in_chain l t c : Forall (in_chain t c) (chain_entries l t c).
Proof.
  unfold chain_entries. rewrite merge_sort_Permutation. apply Forall_forall. intros e He.
  by apply list_elem_of_filter in He as [? _].
Qed.

Lemma NoDup_chain_entries l t c : NoDup (chain_entries l t c) -> keyed l -> NoDup (n_Seq <$> chain_entries l t c).
Proof.
  intros Hnd Hk. apply NoDup_fmap_2_strong; [|done]. intros a b Ha Hb Heq.
  apply chain_entries_elem in Ha, Hb; [|done..]. rewrite Heq in Ha. congruence.
Qed.

Lemma StronglySorted_strict (es : list AuditEntry) :
  StronglySorted seq_le es -> NoDup (n_Seq <$> es) -> StronglySorted seq_lt es.
Proof.
  induction 1 as [|e es Hs IH Hall]; intros Hnd; [constructor|].
  rewrite fmap_cons in Hnd. apply NoDup_cons in Hnd as [Hni Hnd].
  constructor; [by apply IH|]. apply Forall_forall. intros x Hx.
  rewrite Forall_forall in Hall. pose proof (Hall x Hx) as Hle. unfold seq_le, seq_lt in *.
  assert (n_Seq e <> n_Seq x); [|lia]. intros Heq. apply Hni. rewrite Heq.
  by apply list_elem_of_fmap_2.
Qed.

Lemma NoDup_values l : keyed l -> NoDup (map_to_list (entries l)).*2.
Proof.
  intros Hk. apply NoDup_fmap_2_strong; [|apply NoDup_map_to_list].
  intros [k e] [k' e'] H1 H2 Heq. simpl in Heq. subst e'.
  apply elem_of_map_to_list in H1, H2. apply Hk in H1, H2. congruence.
Qed.

Lemma chain_entries_sorted l t c : keyed l -> StronglySorted seq_lt (chain_entries l t c).
Proof.
  intros Hk. apply StronglySorted_strict.
  - apply StronglySorted_merge_sort; apply _.
  - apply NoDup_chain_entries; [|done]. unfold chain_entries. rewrite merge_sort_Permutation.
    by apply NoDup_filter, NoDup_values.
Qed.

Lemma seq_lt_NoDup es : StronglySorted seq_lt es -> NoDup es.
Proof.
  induction 1 as [|x xs _ IH Hx]; constructor; [|done].
  rewrite Forall_forall in Hx. intros Hc. specialize (Hx x Hc). unfold seq_lt in Hx. lia.
Qed.

(** A strictly increasing list of the chain's rows is the chain's read. *)
Lemma chain_entries_unique l t c es :
  keyed l -> StronglySorted seq_lt es ->
  (forall e, e ∈ es <-> entries l !! (t, c, n_Seq e) = Some e) ->
  chain_entries l t c = es.
Proof.
  intros Hk Hs Hin. apply (StronglySorted_unique_strong seq_lt).
  - intros a b _ _. unfold seq_lt. lia.
  - by apply chain_entries_sorted.
  - done.
  - apply NoDup_Permutation.
    + by apply seq_lt_NoDup, chain_entries_sorted.
    + by apply seq_lt_NoDup.
    + intros e. rewrite chain_entries_elem by done. symmetry. apply Hin.
Qed.

(** Runs of the store's statements. *)
Ltac mprim H ::=
  lazymatch type of H with
  | query _ _ = (_, Ok _) => apply query_ok in H as (-> & _ & ->)
  | query _ _ = (_, Err _) => apply query_err in H as (_ & -> & ->)
  | write _ _ = _ => unfold write, modify in H; inv_pair H
  end; cbn [sdb sfail scalls] in *.

(** ** Pages of a chain *)

Lemma filter_sorted (P : AuditEntry -> Prop) `{!forall x, Decision (P x)} es :
  StronglySorted seq_lt es -> StronglySorted seq_lt (filter P es).
Proof.
  induction 1 as [|e es Hs IH Hall]; rewrite ?filter_nil, ?filter_cons; [constructor|].
  case_decide; [|done]. constructor; [done|].
  apply Forall_forall. intros x [_ Hx]%list_elem_of_filter.
  rewrite Forall_forall in Hall. by apply Hall.
Qed.

Lemma entries_after_sorted l t c cur : keyed l -> StronglySorted seq_lt (entries_after l t c cur).
Proof. intros Hk. by apply filter_sorted, chain_entries_sorted. Qed.

(** In an increasing list the rows above a row are the ones after it. *)
Lemma sorted_suffix es1 e es2 :
  StronglySorted seq_lt ((es1 ++ [e]) ++ es2) ->
  filter (fun x => n_Seq e < n_Seq x) ((es1 ++ [e]) ++ es2) = es2.
Proof.
  intros Hs. rewrite filter_app, filter_none, filter_all; [done | |].
  - intros x Hx. apply (StronglySorted_app_1_elem_of seq_lt (es1 ++ [e]) es2 e x); [done|set_solver|done].
  - intros x Hx. apply StronglySorted_app_1_l in Hs.
    apply elem_of_app in Hx as [Hx|Hx%list_elem_of_singleton]; [|subst; lia].
    assert (seq_lt x e) as Hlt
      by (apply (StronglySorted_app_1_elem_of seq_lt es1 [e]); [done | done | left]).
    unfold seq_lt in Hlt. lia.
Qed.

Lemma entries_after_after l t c cur cur' :
  cur <= cur' -> entries_after l t c cur' = filter (fun x => cur' < n_Seq x) (entries_after l t c cur).
Proof.
  intros Hle. unfold entries_after. rewrite list_filter_filter. apply list_filter_iff. intros x. lia.
Qed.

Lemma entries_after_next l t c cur es1 e es2 :
  keyed l -> entries_after l t c cur = (es1 ++ [e]) ++ es2 ->
  entries_after l t c (n_Seq e) = es2.
Proof.
  intros Hk Heq. pose proof (entries_after_sorted l t c cur Hk) as Hs. rewrite Heq in Hs.
  assert (e ∈ entries_after l t c cur) as [Hcur _]%list_elem_of_filter by (rewrite Heq; set_solver).
  rewrite (entries_after_after _ _ _ cur), Heq by lia. by apply sorted_suffix.
Qed.

(** One page: what [take] cut off the rows after the cursor. *)
Lemma page_split l t c cur es n :
  keyed l -> entries_after l t c cur = es -> (0 < n)%nat -> es <> [] ->
  exists b e rest, take n es = b ++ [e] /\ es = (b ++ [e]) ++ rest
  /\ entries_after l t c (n_Seq e) = rest /\ (length rest < length es)%nat.
Proof.
  intros Hk He Hn Hne. destruct (take_nonempty n es) as (b & e & Hb); [done..|].
  exists b, e, (drop n es). pose proof (take_drop n es) as Htd. rewrite Hb in Htd.
  split_and!; [done | done | |].
  - eapply entries_after_next; [done|]. by rewrite He, Htd.
  - rewrite <- Htd at 2. rewrite !length_app. simpl. lia.
Qed.

(** ** Appending an entry *)

Lemma chain_entries_ext l l' t c : entries l = entries l' -> chain_entries l t c = chain_entries l' t c.
Proof. unfold chain_entries. by intros ->. Qed.

Lemma keyed_insert l l' e :
  keyed l -> entries l' = <[(n_TenantID e, n_ChainClass e, n_Seq e) := e]> (entries l) -> keyed l'.
Proof.
  intros Hk He k x. rewrite He. intros [[<- <-]|[_ Hx]]%lookup_insert_Some; [done | by apply Hk].
Qed.

Lemma chain_entries_append l l' e :
  keyed l -> entries l' = <[(n_TenantID e, n_ChainClass e, n_Seq e) := e]> (entries l) ->
  (forall x, x ∈ chain_entries l (n_TenantID e) (n_ChainClass e) -> n_Seq x < n_Seq e) ->
  chain_entries l' (n_TenantID e) (n_ChainClass e)
  = chain_entries l (n_TenantID e) (n_ChainClass e) ++ [e].
Proof.
  intros Hk He Hlt. apply chain_entries_unique; [by eapply keyed_insert | |].
  - apply StronglySorted_app_2; [|by apply chain_entries_sorted | repeat constructor].
    intros x y Hx ->%list_elem_of_singleton. by apply Hlt.
  - intros x. rewrite elem_of_app, list_elem_of_singleton, chain_entries_elem, He by done.
    split.
    + intros [Hx| ->]; [|by rewrite lookup_insert_eq].
      rewrite lookup_insert_ne; [done|]. intros Heq. simplify_eq.
      apply chain_entries_elem in Hx; [|done]. apply Hlt in Hx. lia.
    + intros [[_ <-]|[_ Hx]]%lookup_insert_Some; [by right | by left].
Qed.

Lemma chain_entries_other l l' e t c :
  keyed l -> entries l' = <[(n_TenantID e, n_ChainClass e, n_Seq e) := e]> (entries l) ->
  (t, c) <> (n_TenantID e, n_ChainClass e) ->
  chain_entries l' t c = chain_entries l t c.
Proof.
  intros Hk He Hne. apply chain_entries_unique; [by eapply keyed_insert | by apply chain_entries_sorted|].
  intros x. rewrite chain_entries_elem, He by done. rewrite lookup_insert_ne; [done | congruence].
Qed.

(** ** Read-only runs *)

(** Some statement sent from now on fails. *)
Definition driver_failed (s : Store Ledger) : Prop := exists n, (scalls s <= n)%nat /\ sfail s n = true.

Definition same_db (s s' : Store Ledger) : Prop :=
  sdb s' = sdb s /\ sfail s' = sfail s /\ (scalls s <= scalls s')%nat.

(** [m] leaves the ledger alone and yields [v], unless the driver fails it. *)
Definition reads {A} (m : M (Store Ledger) AuditErr A) (s : Store Ledger) (v : A) : Prop :=
  exists s' r, m s = (s', r) /\ same_db s s'
  /\ (r = Ok v \/ r = Err AErrDB /\ driver_failed s).

Lemma driver_failed_mono s s' : same_db s s' -> driver_failed s' -> driver_failed s.
Proof. intros (_ & Hf & Hc) (n & Hn & Hfn). exists n. rewrite Hf in Hfn. split; [lia | done]. Qed.

#[export] Instance same_db_preorder : PreOrder same_db.
Proof. unfold same_db. split; [intros s | intros s1 s2 s3]; intuition (congruence || lia). Qed.

Lemma reads_bind {A B} (m : M (Store Ledger) AuditErr A) (k : A -> M (Store Ledger) AuditErr B) s v w :
  reads m s v -> (forall s', same_db s s' -> reads (k v) s' w) -> reads (bind m k) s w.
Proof.
  intros (s1 & r & Hm & Hs1 & Hr) Hk. unfold reads, bind. rewrite Hm.
  destruct Hr as [->|[-> Hf]]; [|eauto 7].
  destruct (Hk s1 Hs1) as (s2 & r2 & Hk2 & Hs2 & Hr2). exists s2, r2.
  split_and!; [done | by etrans |].
  destruct Hr2 as [->|[-> Hf]]; [by left | right; split; [done|]]. by eapply driver_failed_mono.
Qed.

Lemma reads_query s : reads (query AErrDB) s (sdb s).
Proof.
  unfold reads, query. eexists _, _. split; [done|]. split; [by repeat split; simpl; lia|].
  destruct (sfail s (scalls s)) eqn:Hf; [right; split; [done|]; by exists (scalls s) | by left].
Qed.

Lemma reads_ret {A} (v : A) s : reads (ret v) s v.
Proof. eexists _, _. split_and!; [done | done | by left]. Qed.

Lemma reads_gets {A} (f : Ledger -> A) s : reads (gets (fun s => f (sdb s))) s (f (sdb s)).
Proof. eexists _, _. split_and!; [done | done | by left]. Qed.

Lemma reads_ok {A} (m : M (Store Ledger) AuditErr A) s v :
  reads m s v -> (forall n, sfail s n = false) -> exists s', m s = (s', Ok v) /\ sdb s' = sdb s.
Proof.
  intros (s' & r & Hm & (Hs & _) & Hr) Hf. exists s'. split; [|done].
  destruct Hr as [->|[_ (n & _ & Hn)]]; [done | by rewrite Hf in Hn].
Qed.

Section Chain.
Context (hmac_sha256 : bytes -> bytes -> bytes) (key : bytes).

Abbreviation entry_hash := (ComputeEntryHash hmac_sha256 key).

(** A run of entries that starts at sequence number [s] after hash [p] and ends
    at hash [q]. *)
Inductive linked : bytes -> Z -> list AuditEntry -> bytes -> Prop :=
| linked_nil p s : linked p s [] p
| linked_cons p s e es q :
    n_Seq e = s -> n_PrevHash e = p -> n_EntryHash e = entry_hash s p (n_Payload e) ->
    linked (n_EntryHash e) (s + 1) es q -> linked p s (e :: es) q.

Lemma linked_app p s es1 r es2 q :
  linked p s es1 r -> linked r (s + Z.of_nat (length es1)) es2 q -> linked p s (es1 ++ es2) q.
Proof.
  intros H1. revert es2. induction H1 as [p s|p s e es r Hs Hp Hh H1 IH]; intros es2 H2; cbn [length app] in *.
  - by rewrite Z.add_0_r in H2.
  - constructor; auto. apply IH. replace (s + 1 + Z.of_nat (length es)) with (s + Z.of_nat (S (length es))) by lia. done.
Qed.

Lemma linked_app_inv p s es1 es2 q :
  linked p s (es1 ++ es2) q ->
  exists r, linked p s es1 r /\ linked r (s + Z.of_nat (length es1)) es2 q.
Proof.
  revert p s. induction es1 as [|e es1 IH]; intros p s Hl; cbn [length app] in *.
  - exists p. split; [constructor | by rewrite Z.add_0_r].
  - inversion Hl as [|? ? ? ? ? Hs Hp Hh Hl']; subst.
    apply IH in Hl' as (r & H1 & H2). exists r. split; [by constructor|].
    by replace (n_Seq e + Z.of_nat (S (length es1))) with (n_Seq e + 1 + Z.of_nat (length es1)) by lia.
Qed.

Lemma linked_last p s es e q : linked p s (es ++ [e]) q -> q = n_EntryHash e.
Proof.
  intros Hl. apply linked_app_inv in Hl as (r & _ & Hl).
  inversion Hl as [|? ? ? ? ? _ _ _ Hl']; subst. by inversion Hl'.
Qed.

Lemma linked_seq p s es q i e :
  linked p s es q -> es !! i = Some e -> n_Seq e = s + Z.of_nat i.
Proof.
  intros Hl. revert i. induction Hl as [p s|p s e0 es q Hs Hp Hh Hl IH]; intros [|i] Hi;
    simplify_eq/=; [lia|]. rewrite (IH i) by done. lia.
Qed.

Lemma linked_seq_bounds p s es q e :
  linked p s es q -> e ∈ es -> s <= n_Seq e < s + Z.of_nat (length es).
Proof.
  intros Hl He. apply list_elem_of_lookup in He as [i Hi].
  pose proof (lookup_lt_Some _ _ _ Hi). rewrite (linked_seq _ _ _ _ _ _ Hl Hi). lia.
Qed.

Lemma linked_sorted p s es q : linked p s es q -> StronglySorted seq_lt es.
Proof.
  induction 1 as [p s|p s e es q Hs Hp Hh Hl IH]; constructor; [done|].
  apply Forall_forall. intros x Hx. unfold seq_lt.
  pose proof (linked_seq_bounds _ _ _ _ _ Hl Hx). lia.
Qed.

(** The verifier's inner loop accepts exactly the linked runs. *)
Lemma verify_batch_linked es p s q s' :
  verify_batch hmac_sha256 key es p s = inr (q, s') <->
  linked p s es q /\ s' = s + Z.of_nat (length es).
Proof.
  revert p s. induction es as [|e es IH]; intros p s; cbn [verify_batch length].
  - split; [intros; simplify_eq; split; [constructor | lia]|].
    intros [Hl ->]. inversion Hl; subst. by rewrite Z.add_0_r.
  - repeat case_match; to_prop; subst; try (split; [discriminate|]; intros [Hl _]; inversion Hl; congruence).
    rewrite IH. split.
    + intros [Hl ->]. split; [by constructor | lia].
    + intros [Hl ->]. inversion Hl; subst. split; [done | lia].
Qed.

Lemma verify_batch_app es1 es2 p s :
  verify_batch hmac_sha256 key (es1 ++ es2) p s =
  match verify_batch hmac_sha256 key es1 p s with
  | inl v => inl v
  | inr (p', s') => verify_batch hmac_sha256 key es2 p' s'
  end.
Proof.
  revert p s. induction es1 as [|e es1 IH]; intros p s; cbn [verify_batch app]; [done|].
  destruct (negb (n_Seq e =? s)); [done|]. destruct (negb (bool_decide (n_PrevHash e = p))); [done|].
  destruct (negb _); [done | apply IH].
Qed.

(** ** The invariant *)

(** The retained entries of a chain run from its floor to its head. *)
Definition chain_ok (floor : Checkpoint) (l : Ledger) (t : Z) (c : string) : Prop :=
  1 <= cp_Seq floor
  /\ linked (cp_PrevHash floor) (cp_Seq floor) (chain_entries l t c)
       (h_LastEntryHash (head_for l t c))
  /\ h_LastSeq (head_for l t c) = cp_Seq floor + Z.of_nat (length (chain_entries l t c)) - 1
  /\ h_TenantID (head_for l t c) = t /\ h_ChainClass (head_for l t c) = c.

Definition ledger_ok (floor : Z -> string -> Checkpoint) (l : Ledger) : Prop :=
  keyed l /\ forall t c, chain_ok (floor t c) l t c.

(** ** Paged verification *)

(** The same verdict in one pass over a list of entries. *)
Definition verify_once (es : list AuditEntry) (p : bytes) (s : Z) : VerifyResult :=
  match verify_batch hmac_sha256 key es p s with
  | inl v => v
  | inr (_, s') => mkVR true (s' - 1) 0 ""
  end.

Lemma verify_loop_reads fuel t c p x cur s :
  keyed (sdb s) -> (length (entries_after (sdb s) t c cur) < fuel)%nat ->
  reads (verify_loop hmac_sha256 fuel key t c p x cur) s
    (verify_once (entries_after (sdb s) t c cur) p x).
Proof.
  revert p x cur s. induction fuel as [|fuel IH]; intros p x cur s Hk Hlen; [lia|].
  cbn [verify_loop]. eapply reads_bind; [apply reads_query|]. intros s' Hs'.
  destruct (entries_after (sdb s) t c cur) as [|e0 es0] eqn:Hes.
  { rewrite take_nil. apply reads_ret. }
  destruct (page_split _ _ _ _ _ verifyBatchSize Hk Hes) as (b & e & rest & Hb & Htd & Hrest & Hlt);
    [unfold verifyBatchSize; lia | done |].
  rewrite Hb, Htd. unfold verify_once. rewrite verify_batch_app.
  destruct (b ++ [e]) as [|b0 bs] eqn:Hbe; [by destruct b|]. rewrite <- Hbe.
  destruct (verify_batch hmac_sha256 key (b ++ [e]) p x) as [v|[p' x']]; [apply reads_ret|].
  rewrite last_snoc. destruct Hs' as (Hdb & _ & _). rewrite <- Hdb in Hk, Hrest. rewrite <- Hrest in *.
  apply IH; [done | lia].
Qed.

Lemma VerifyChainFrom_reads t c cp s :
  keyed (sdb s) -> 1 <= cp_Seq cp ->
  reads (VerifyChainFrom hmac_sha256 key t c cp) s
    (verify_once (entries_after (sdb s) t c (cp_Seq cp - 1)) (cp_PrevHash cp) (cp_Seq cp)).
Proof.
  intros Hk H1. unfold VerifyChainFrom. destruct (Z.ltb_spec (cp_Seq cp) 1); [lia|].
  eapply reads_bind; [apply (reads_gets id)|]. intros s' (Hdb & _ & _). rewrite <- Hdb in *.
  apply verify_loop_reads; [done|]. pose proof (length_filter (fun e => cp_Seq cp - 1 < n_Seq e)
    (chain_entries (sdb s') t c)). unfold entries_after, id. lia.
Qed.

Lemma verify_batch_fail es p x v : verify_batch hmac_sha256 key es p x = inl v -> vr_OK v = false.
Proof.
  revert p x. induction es as [|e es IH]; intros p x; cbn [verify_batch]; [discriminate|].
  repeat case_match; intros; simplify_eq; eauto.
Qed.

Lemma verify_once_ok es p x :
  (vr_OK (verify_once es p x) = true <-> exists q, linked p x es q)
  /\ (vr_OK (verify_once es p x) = true ->
      vr_VerifiedThrough (verify_once es p x) = x - 1 + Z.of_nat (length es)).
Proof.
  unfold verify_once. destruct (verify_batch hmac_sha256 key es p x) as [v|[q x']] eqn:Hb.
  - rewrite (verify_batch_fail _ _ _ _ Hb). split; [split; [discriminate|] | discriminate].
    intros [q Hl]. pose proof (proj2 (verify_batch_linked es p x q _) (conj Hl eq_refl)). congruence.
  - apply verify_batch_linked in Hb as [Hl ->]. split; [split; eauto | simpl; lia].
Qed.

Lemma verified_linked t c cp s s' v :
  keyed (sdb s) -> 1 <= cp_Seq cp ->
  VerifyChainFrom hmac_sha256 key t c cp s = (s', Ok v) -> vr_OK v = true ->
  exists q, linked (cp_PrevHash cp) (cp_Seq cp) (entries_after (sdb s) t c (cp_Seq cp - 1)) q
  /\ vr_VerifiedThrough v
     = cp_Seq cp - 1 + Z.of_nat (length (entries_after (sdb s) t c (cp_Seq cp - 1))).
Proof.
  intros Hk H1 Hrun Hok.
  destruct (VerifyChainFrom_reads t c cp s Hk H1) as (s2 & r & Hrun2 & _ & [->|[-> _]]);
    rewrite Hrun in Hrun2; simplify_eq.
  destruct (verify_once_ok (entries_after (sdb s) t c (cp_Seq cp - 1)) (cp_PrevHash cp) (cp_Seq cp)) as [Hiff Hth].
  destruct (proj1 Hiff Hok) as [q Hq]. eauto.
Qed.

(** ** The chainer *)

Section Chainer.
Context {JMap : Type} (json_unmarshal_map : bytes -> option JMap) (format_rfc3339 : Z -> string)
        (CanonicalJSON : ChainPayload JMap -> option bytes) (keyID : string) (now : Z).

Abbreviation chain_one :=
  (chainOne hmac_sha256 JMap json_unmarshal_map format_rfc3339 CanonicalJSON key keyID now).
Abbreviation chain_batch :=
  (chain_rows hmac_sha256 JMap json_unmarshal_map format_rfc3339 CanonicalJSON key keyID now).
Abbreviation canonical p := (CanonicalJSON (payload_of JMap json_unmarshal_map format_rfc3339 p)).

(** The rows of one chain, in capture order. *)
Definition rows_of (t : Z) (c : string) (ps : list AuditPending) : list AuditPending :=
  filter (fun p => p_TenantID p = t /\ p_ChainClass p = c) ps.

(** [es] are the entries that record the rows [ps], one each, in order. *)
Definition records (ps : list AuditPending) (es : list AuditEntry) : Prop :=
  Forall2 (fun p e => canonical p = Some (n_Payload e)) ps es.

(** [l'] extends [l] with the rows [ps], each in its own chain. *)
Definition extends (ps : list AuditPending) (l l' : Ledger) : Prop :=
  forall t c, exists es, chain_entries l' t c = chain_entries l t c ++ es /\ records (rows_of t c ps) es.

Lemma extends_trans ps1 ps2 l1 l2 l3 :
  extends ps1 l1 l2 -> extends ps2 l2 l3 -> extends (ps1 ++ ps2) l1 l3.
Proof.
  intros H1 H2 t c. destruct (H1 t c) as (es1 & E1 & R1), (H2 t c) as (es2 & E2 & R2).
  exists (es1 ++ es2). split; [by rewrite E2, E1, <- app_assoc|].
  unfold rows_of. rewrite filter_app. by apply Forall2_app.
Qed.

Lemma head_for_insert l l' t c h :
  heads l' = <[(t, c) := h]> (heads l) -> h_LastSeq h <> 0 -> head_for l' t c = h.
Proof.
  intros Hh Hz. unfold head_for. rewrite Hh, lookup_insert_eq. case_match; to_prop; [done|done].
Qed.

Lemma head_for_other l l' t c t' c' h :
  heads l' = <[(t', c') := h]> (heads l) -> (t, c) <> (t', c') -> head_for l' t c = head_for l t c.
Proof. intros Hh Hne. unfold head_for. by rewrite Hh, lookup_insert_ne by congruence. Qed.

(** The entry [chainOne] writes for a row. *)
Definition next_entry (l : Ledger) (p : AuditPending) (can : bytes) : AuditEntry :=
  let head := head_for l (p_TenantID p) (p_ChainClass p) in
  mkEntry (p_TenantID p) (p_ChainClass p) (h_LastSeq head + 1) (h_LastEntryHash head)
    (entry_hash (h_LastSeq head + 1) (h_LastEntryHash head) can) keyID can false now.

Lemma chainOne_run p s s' u :
  chain_one p s = (s', Ok u) ->
  exists can, canonical p = Some can
  /\ entries (sdb s') = <[(p_TenantID p, p_ChainClass p, n_Seq (next_entry (sdb s) p can)) :=
                           next_entry (sdb s) p can]> (entries (sdb s))
  /\ heads (sdb s') =
       (let head := head_for (sdb s) (p_TenantID p) (p_ChainClass p) in
        <[(h_TenantID head, h_ChainClass head) :=
            mkHead (h_TenantID head) (h_ChainClass head) (h_LastSeq head + 1)
              (n_EntryHash (next_entry (sdb s) p can)) now]> (heads (sdb s)))
  /\ pending (sdb s') = pending (sdb s) /\ anchors (sdb s') = anchors (sdb s)
  /\ checkpoints (sdb s') = checkpoints (sdb s).
Proof.
  intros Hrun. unfold chainOne in Hrun.
  destruct (canonical p) as [can|] eqn:Hcan; minv Hrun. exists can. done.
Qed.

Lemma linked_snoc p0 s0 es q e :
  linked p0 s0 es q -> n_Seq e = s0 + Z.of_nat (length es) -> n_PrevHash e = q ->
  n_EntryHash e = entry_hash (n_Seq e) q (n_Payload e) ->
  linked p0 s0 (es ++ [e]) (n_EntryHash e).
Proof.
  intros Hl Hs Hp Hh. eapply linked_app; [exact Hl|]. rewrite <- Hs.
  constructor; auto. constructor.
Qed.

Lemma chain_ok_ext floor l l' t c :
  chain_entries l' t c = chain_entries l t c -> head_for l' t c = head_for l t c ->
  chain_ok floor l t c -> chain_ok floor l' t c.
Proof. unfold chain_ok. by intros -> ->. Qed.

Lemma chainOne_ok floor p s s' u :
  ledger_ok floor (sdb s) -> chain_one p s = (s', Ok u) ->
  ledger_ok floor (sdb s') /\ extends [p] (sdb s) (sdb s')
  /\ pending (sdb s') = pending (sdb s) /\ anchors (sdb s') = anchors (sdb s)
  /\ checkpoints (sdb s') = checkpoints (sdb s).
Proof.
  intros [Hk Hok] Hrun. apply chainOne_run in Hrun as (can & Hcan & He & Hh & Hp & Ha & Hc).
  destruct (Hok (p_TenantID p) (p_ChainClass p)) as (H1 & Hl & Hseq & Ht & Hcl).
  cbv zeta in Hh. rewrite Ht, Hcl in Hh.
  set (e := next_entry (sdb s) p can) in *.
  assert (chain_entries (sdb s') (p_TenantID p) (p_ChainClass p)
          = chain_entries (sdb s) (p_TenantID p) (p_ChainClass p) ++ [e]) as Happ.
  { apply (chain_entries_append (sdb s) (sdb s') e Hk He). intros x Hx.
    pose proof (linked_seq_bounds _ _ _ _ _ Hl Hx). simpl. lia. }
  split; [split; [by eapply (keyed_insert _ _ e)|]|split_and!; [|done..]]; intros t c.
  - destruct (decide ((t, c) = (p_TenantID p, p_ChainClass p))) as [Heq|Hne].
    + simplify_eq. pose proof (head_for_insert _ _ _ _ _ Hh) as Hhd. unfold chain_ok.
      rewrite Hhd, Happ, length_app by (simpl; lia). simpl. split_and!; [done| |lia|done|done].
      apply linked_snoc with (e := e) in Hl; [exact Hl | simpl; lia | done | done].
    + eapply chain_ok_ext; [| |apply Hok].
      * by apply (chain_entries_other _ _ e).
      * by eapply head_for_other.
  - destruct (decide ((t, c) = (p_TenantID p, p_ChainClass p))) as [Heq|Hne].
    + simplify_eq. exists [e]. split; [done|]. unfold rows_of, records.
      rewrite filter_cons_True by done. repeat constructor. done.
    + exists []. rewrite app_nil_r. split; [by apply (chain_entries_other _ _ e)|].
      unfold rows_of. rewrite filter_cons_False; [constructor | naive_solver].
Qed.

Lemma chain_rows_ok floor ps s s' n :
  ledger_ok floor (sdb s) -> chain_batch ps s = (s', Ok n) ->
  ledger_ok floor (sdb s') /\ extends ps (sdb s) (sdb s') /\ n = Z.of_nat (length ps)
  /\ pending (sdb s') = foldl (fun m p => delete (p_ID p) m) (pending (sdb s)) ps
  /\ anchors (sdb s') = anchors (sdb s) /\ checkpoints (sdb s') = checkpoints (sdb s).
Proof.
  revert s s' n. induction ps as [|p ps IH]; intros s s' n Hok Hrun; cbn [chain_rows] in Hrun.
  - minv Hrun. split_and!; auto. intros t c. exists []. rewrite app_nil_r. split; [done | constructor].
  - apply bind_ok in Hrun as (u & s1 & H1 & Hrun). minv Hrun.
    destruct (chainOne_ok _ _ _ _ _ Hok H1) as (Hok1 & Hx1 & Hp1 & Ha1 & Hc1).
    apply IH in Hm as (Hok2 & Hx2 & -> & Hp2 & Ha2 & Hc2); simpl in *; [|done].
    split_and!; [done | | lia | | congruence | congruence].
    + apply (extends_trans [p] ps _ (sdb s1)); [done|]. intros t c. apply (Hx2 t c).
    + by rewrite Hp2, Hp1.
Qed.
End Chainer.

End Chain.
