(* ===== verification/AuditAnchors.v ===== *)
(** * AuditAnchors: anchors and checkpoints on top of the chain invariant

    [anchored] says what a well-formed run of anchors over a chain is;
    [audit_inv] joins it with the chain invariant and the signed floors, and the
    anchorer, the pruner and the chainer are shown to keep it. *)

From stdpp Require Import sorting.
From S2P Require Import Prelude AuditLedger AuditSpec.

#[export] Existing Instance from_le_dec.
#[export] Instance from_le_total : Total from_le.
Proof. intros a b. unfold from_le. lia. Qed.
#[export] Instance from_le_trans : Transitive from_le.
Proof. intros a b c. unfold from_le. lia. Qed.

Definition from_lt (a b : AuditAnchor) : Prop := an_FromSeq a < an_FromSeq b.

Lemma sorted_from_unique ans rows :
  StronglySorted from_lt ans -> rows ≡ₚ ans -> merge_sort from_le rows = ans.
Proof.
  intros Hs Hp. apply (StronglySorted_unique_strong from_le).
  - intros a b Ha Hb. rewrite merge_sort_Permutation, Hp in Ha. revert Ha Hb. clear rows Hp.
    induction Hs as [|x xs Hs IH Hx]; [set_solver|]. rewrite Forall_forall in Hx.
    unfold from_le, from_lt in *. rewrite !elem_of_cons.
    intros [->|Ha] [->|Hb] H1 H2; [done | | | auto].
    + pose proof (Hx _ Hb). lia.
    + pose proof (Hx _ Ha). lia.
  - apply StronglySorted_merge_sort; apply _.
  - induction Hs as [|x xs Hs IH Hx] in rows, Hp |- *; constructor.
    + by apply (IH xs).
    + eapply Forall_impl; [exact Hx|]. unfold from_lt, from_le. lia.
  - by rewrite merge_sort_Permutation.
Qed.

(** The newest anchor is one with the largest upper bound. *)
Lemma last_anchor_max ans a :
  last_anchor ans = Some a -> a ∈ ans /\ forall b, b ∈ ans -> an_ToSeq b <= an_ToSeq a.
Proof.
  revert a. induction ans as [|x ans IH]; intros a; cbn [last_anchor foldr]; [discriminate|].
  fold (last_anchor ans). destruct (last_anchor ans) as [b|] eqn:Hl.
  - destruct (IH b eq_refl) as [Hb Hmax]. destruct (Z.leb_spec (an_ToSeq b) (an_ToSeq x)); intros; simplify_eq.
    + split; [left|]. intros y [->|Hy]%elem_of_cons; [lia|]. pose proof (Hmax y Hy). lia.
    + split; [by right|]. intros y [->|Hy]%elem_of_cons; [lia|]. by apply Hmax.
  - intros; simplify_eq. split; [left|]. destruct ans as [|y ans].
    + intros z ->%list_elem_of_singleton. lia.
    + cbn [last_anchor foldr] in Hl. repeat case_match; discriminate.
Qed.

Lemma last_anchor_None ans : last_anchor ans = None -> ans = [].
Proof. destruct ans as [|x ans]; [done|]. cbn [last_anchor foldr]. repeat case_match; discriminate. Qed.

Lemma chain_anchors_insert l l' a :
  anchors l !! an_ID a = None -> anchors l' = <[an_ID a := a]> (anchors l) ->
  chain_anchors l' (an_TenantID a) (an_ChainClass a)
    ≡ₚ a :: chain_anchors l (an_TenantID a) (an_ChainClass a)
  /\ forall t c, (t, c) <> (an_TenantID a, an_ChainClass a) -> chain_anchors l' t c ≡ₚ chain_anchors l t c.
Proof.
  intros Hn He. unfold chain_anchors. rewrite He, (map_to_list_insert _ _ _ Hn), fmap_cons. split.
  - by rewrite filter_cons_True.
  - intros t c Hne. rewrite (map_to_list_insert _ _ _ Hn), fmap_cons.
    rewrite filter_cons_False; [done | simpl; naive_solver].
Qed.

Section Anchors.
Context (hmac_sha256 : bytes -> bytes -> bytes) (key : bytes) (sha256 : bytes -> bytes).
Context {priv_key pub_key : Type} (ed25519_sign : priv_key -> bytes -> bytes)
        (ed25519_verify : pub_key -> bytes -> bytes -> bool) (keys : gmap string pub_key).

Abbreviation anchor_hash := (AnchorHash sha256).
Abbreviation sig_ok := (VerifyAnchorSig pub_key ed25519_verify).

(** The hashes the chain holds for one range. *)
Definition range_leaves (l : Ledger) (t : Z) (c : string) (lo hi : Z) : list bytes :=
  map n_EntryHash (filter (fun e => lo <= n_Seq e <= hi) (chain_entries l t c)).

(** One anchor that covers the range it says and links to [prev]. *)
Definition anchor_sound (l : Ledger) (t : Z) (c : string) (from : Z) (prev : option bytes)
    (a : AuditAnchor) : Prop :=
  an_FromSeq a = from /\ from <= an_ToSeq a
  /\ (exists pub, keys !! an_KeyID a = Some pub /\ sig_ok pub a = true)
  /\ (forall h, prev = Some h -> AnchorV2 <= an_Version a -> an_PrevAnchorHash a = h)
  /\ Z.of_nat (length (range_leaves l t c from (an_ToSeq a))) = an_ToSeq a - from + 1
  /\ MerkleRoot sha256 (range_leaves l t c from (an_ToSeq a)) = an_MerkleRoot a.

Inductive anchored (l : Ledger) (t : Z) (c : string) : Z -> option bytes -> list AuditAnchor -> Z -> Prop :=
| anchored_nil from prev : anchored l t c from prev [] (from - 1)
| anchored_cons from prev a ans th :
    anchor_sound l t c from prev a ->
    anchored l t c (an_ToSeq a + 1) (Some (anchor_hash a)) ans th ->
    anchored l t c from prev (a :: ans) th.

Lemma anchored_bounds l t c from prev ans th :
  anchored l t c from prev ans th ->
  from - 1 <= th /\ forall a, a ∈ ans -> from <= an_FromSeq a <= an_ToSeq a /\ an_ToSeq a <= th.
Proof.
  induction 1 as [|from prev a ans th (Hf & Hle & _) Ha [IH1 IH2]]; [split; [lia|set_solver]|].
  split; [lia|]. intros b [->|Hb]%elem_of_cons; [lia|]. pose proof (IH2 b Hb). lia.
Qed.

Lemma anchored_sorted l t c from prev ans th :
  anchored l t c from prev ans th -> StronglySorted from_lt ans.
Proof.
  induction 1 as [|from prev a ans th (Hf & Hle & _) Ha IH]; constructor; [done|].
  apply Forall_forall. intros b Hb. unfold from_lt.
  pose proof (proj2 (anchored_bounds _ _ _ _ _ _ _ Ha) b Hb). lia.
Qed.

Lemma anchored_last l t c from prev ans th :
  anchored l t c from prev ans th ->
  match last ans with Some a => an_ToSeq a = th | None => th = from - 1 end.
Proof.
  induction 1 as [|from prev a ans th _ _ IH]; [done|]. rewrite last_cons. destruct (last ans); lia.
Qed.

Lemma anchored_snoc l t c from prev ans th a :
  anchored l t c from prev ans th ->
  anchor_sound l t c (th + 1)
    (match last ans with Some b => Some (anchor_hash b) | None => prev end) a ->
  anchored l t c from prev (ans ++ [a]) (an_ToSeq a).
Proof.
  induction 1 as [from prev|from prev b ans th Hb Hans IH]; intros Ha; cbn [app] in *.
  - replace (from - 1 + 1) with from in Ha by lia. econstructor; [done|].
    replace (an_ToSeq a) with (an_ToSeq a + 1 - 1) at 2 by lia. constructor.
  - econstructor; [done|]. apply IH. rewrite last_cons in Ha. by destruct (last ans).
Qed.

Lemma anchor_sound_ext l l' t c from prev a :
  range_leaves l' t c from (an_ToSeq a) = range_leaves l t c from (an_ToSeq a) ->
  anchor_sound l t c from prev a -> anchor_sound l' t c from prev a.
Proof. unfold anchor_sound. by intros ->. Qed.

Lemma anchored_ext l l' t c from prev ans th :
  (forall lo hi, from <= lo -> hi <= th -> range_leaves l' t c lo hi = range_leaves l t c lo hi) ->
  anchored l t c from prev ans th -> anchored l' t c from prev ans th.
Proof.
  intros Hext Ha. induction Ha as [|from prev a ans th Hs Ha IH]; [constructor|].
  pose proof (anchored_bounds _ _ _ _ _ _ _ Ha) as [Hb _].
  destruct Hs as (Hf & Hle & Hrest).
  econstructor; [|apply IH; intros; apply Hext; lia].
  eapply anchor_sound_ext; [apply Hext; lia | done].
Qed.

Lemma anchored_weaken l t c from prev ans th :
  anchored l t c from prev ans th -> anchored l t c from None ans th.
Proof.
  destruct 1 as [|from prev a ans th (Hf & Hle & Hk & _ & Hrest) Ha]; [constructor|].
  econstructor; [|done]. split_and!; try done. apply Hrest. apply Hrest.
Qed.

(** Cutting at an anchor's upper bound keeps the anchors after it. *)
Lemma anchored_cut l t c from prev ans th cut :
  anchored l t c from prev ans th -> (exists a, a ∈ ans /\ an_ToSeq a = cut) \/ cut = from - 1 ->
  anchored l t c (cut + 1) None (filter (fun a => cut + 1 <= an_ToSeq a) ans) th.
Proof.
  induction 1 as [from prev|from prev a ans th (Hf & Hle & Hk & Hp & Hrest) Ha IH].
  - intros [(a & Ha & _)|Hcut]; [set_solver|]. subst cut. rewrite filter_nil, Z.sub_add. constructor.
  - intros [(b & Hb & Hcut)|Hcut]; [apply elem_of_cons in Hb as [->|Hb]|].
    + rewrite filter_cons_False by lia. apply IH. right. lia.
    + pose proof (proj2 (anchored_bounds _ _ _ _ _ _ _ Ha) b Hb).
      rewrite filter_cons_False by lia. apply IH. eauto.
    + subst cut. rewrite filter_cons_True by lia.
      replace (from - 1 + 1) with from by lia. apply (anchored_weaken _ _ _ _ prev).
      econstructor; [exact (conj Hf (conj Hle (conj Hk (conj Hp Hrest))))|].
      rewrite filter_all; [done|]. intros b Hb.
      pose proof (proj2 (anchored_bounds _ _ _ _ _ _ _ Ha) b Hb). lia.
Qed.

(** ** Reading the anchors back *)

(** One page of a range: what is left of it starts after the page's last row. *)
Lemma range_page l t c cur hi n :
  keyed l -> (0 < n)%nat -> filter (fun e => n_Seq e <= hi) (entries_after l t c cur) <> [] ->
  exists b e rest, take n (filter (fun e => n_Seq e <= hi) (entries_after l t c cur)) = b ++ [e]
  /\ filter (fun e => n_Seq e <= hi) (entries_after l t c cur) = (b ++ [e]) ++ rest
  /\ filter (fun e => n_Seq e <= hi) (entries_after l t c (n_Seq e)) = rest
  /\ (length (entries_after l t c (n_Seq e)) < length (entries_after l t c cur))%nat.
Proof.
  intros Hk Hn Hne. set (page := filter _ _) in *.
  destruct (take_nonempty n page) as (b & e & Hb); [done..|].
  pose proof (take_drop n page) as Htd. rewrite Hb in Htd.
  exists b, e, (drop n page).
  assert (e ∈ page) as He by (rewrite <- Htd; set_solver).
  apply list_elem_of_filter in He as [Hhi He].
  pose proof He as [Hcur _]%list_elem_of_filter.
  split_and!; [done | done | |].
  - rewrite (entries_after_after _ _ _ cur) by lia. rewrite list_filter_filter.
    rewrite <- (sorted_suffix b e (drop n page)), Htd
      by (rewrite Htd; by apply filter_sorted, entries_after_sorted).
    subst page. rewrite list_filter_filter. apply list_filter_iff. intros x. tauto.
  - rewrite (entries_after_after _ _ _ cur) by lia. eapply length_filter_lt; [done | lia].
Qed.

Lemma leaves_loop_reads fuel t c cur hi acc s :
  keyed (sdb s) -> (length (entries_after (sdb s) t c cur) < fuel)%nat ->
  reads (leaves_loop fuel t c cur hi acc) s
    (acc ++ map n_EntryHash (filter (fun e => n_Seq e <= hi) (entries_after (sdb s) t c cur))).
Proof.
  revert cur acc s. induction fuel as [|fuel IH]; intros cur acc s Hk Hlen; [lia|].
  cbn [leaves_loop]. destruct (Z.leb_spec hi cur) as [Hhi|Hhi].
  { rewrite filter_none, app_nil_r; [apply reads_ret|]. intros e He.
    apply list_elem_of_filter in He as [He _]. lia. }
  eapply reads_bind; [apply reads_query|]. intros s' (Hdb & Hrest).
  set (page := filter (fun e => n_Seq e <= hi) (entries_after (sdb s) t c cur)) in *.
  destruct (decide (page = [])) as [Hnil|Hne].
  { rewrite Hnil, take_nil, app_nil_r. apply reads_ret. }
  destruct (range_page (sdb s) t c cur hi verifyBatchSize Hk) as (b & e & rest & Hb & Hsplit & Hnext & Hlt);
    [unfold verifyBatchSize; lia | done |].
  fold page in Hb, Hsplit. rewrite Hb.
  destruct (b ++ [e]) as [|b0 bs] eqn:Hbe; [by destruct b|]. rewrite <- Hbe in *.
  rewrite last_snoc, Hsplit, (map_app _ (b ++ [e]) rest), app_assoc, <- Hnext, <- Hdb.
  apply IH; rewrite Hdb; [done | lia].
Qed.

Lemma range_leaves_after l t c from hi :
  map n_EntryHash (filter (fun e => n_Seq e <= hi) (entries_after l t c (from - 1)))
  = range_leaves l t c from hi.
Proof.
  unfold range_leaves, entries_after. f_equal. rewrite list_filter_filter.
  apply list_filter_iff. intros e. lia.
Qed.

Lemma verify_anchors_reads t c ans from prev th s :
  keyed (sdb s) -> anchored (sdb s) t c from prev ans th ->
  reads (verify_anchors sha256 pub_key ed25519_verify keys t c ans (from - 1) from prev) s
    (mkAVR true th 0 "").
Proof.
  intros Hk Ha. remember (sdb s) as l eqn:Hl. revert s Hl.
  induction Ha as [from prev|from prev a ans th (Hf & Hle & (pub & Hpub & Hsig) & Hp & Hlen & Hroot) Ha IH];
    intros s Hl; cbn [verify_anchors]; [apply reads_ret|].
  rewrite Hf, Z.eqb_refl, Hpub, Hsig. cbn [negb].
  assert ((match prev with
           | Some h => (AnchorV2 <=? an_Version a) && negb (bool_decide (an_PrevAnchorHash a = h))
           | None => false end) = false) as ->.
  { destruct prev as [h|]; [|done]. destruct (Z.leb_spec AnchorV2 (an_Version a)); [|done].
    rewrite bool_decide_eq_true_2; [done | by apply Hp]. }
  eapply reads_bind; [apply (reads_gets id)|]. intros s1 (Hdb1 & _).
  eapply reads_bind.
  { apply leaves_loop_reads; rewrite Hdb1; [by rewrite <- Hl|].
    pose proof (length_filter (fun e => from - 1 < n_Seq e) (chain_entries (sdb s) t c)).
    unfold entries_after, id. lia. }
  intros s2 (Hdb2 & _). cbn [app]. rewrite range_leaves_after, Hdb1, <- Hl, Hlen, Z.eqb_refl. cbn [negb].
  rewrite bool_decide_eq_true_2 by done. cbn [negb].
  specialize (IH s2). replace (an_ToSeq a + 1 - 1) with (an_ToSeq a) in IH by lia.
  apply IH. congruence.
Qed.

(** ** The invariant of the whole ledger *)

(** The floor the stored checkpoint declares. *)
Definition floor_of (l : Ledger) (t : Z) (c : string) : Checkpoint :=
  match checkpoints l !! (t, c) with
  | None => GenesisCheckpoint
  | Some cp => mkCheckpoint (ck_PrunedThroughSeq cp + 1) (ck_PrevHash cp)
  end.

Definition checkpoint_signed (l : Ledger) (t : Z) (c : string) : Prop :=
  forall cp, checkpoints l !! (t, c) = Some cp ->
  exists pub, keys !! ck_KeyID cp = Some pub /\ VerifyCheckpointSig pub_key ed25519_verify pub cp = true.

Definition live_anchors (l : Ledger) (t : Z) (c : string) : list AuditAnchor :=
  merge_sort from_le (filter (fun a => cp_Seq (floor_of l t c) <= an_ToSeq a) (chain_anchors l t c)).

Definition anchored_through (l : Ledger) (t : Z) (c : string) : Z :=
  match last_anchor (chain_anchors l t c) with Some a => an_ToSeq a | None => 0 end.

Definition chain_inv (l : Ledger) (t : Z) (c : string) : Prop :=
  chain_ok hmac_sha256 key (floor_of l t c) l t c
  /\ checkpoint_signed l t c
  /\ anchored l t c (cp_Seq (floor_of l t c)) None (live_anchors l t c) (anchored_through l t c)
  /\ anchored_through l t c <= h_LastSeq (head_for l t c).

Definition audit_inv (l : Ledger) : Prop := keyed l /\ forall t c, chain_inv l t c.

(** ** The verifier accepts every ledger that satisfies it *)

Lemma LoadCheckpoint_reads t c s :
  checkpoint_signed (sdb s) t c ->
  reads (LoadCheckpoint pub_key ed25519_verify keys t c) s (floor_of (sdb s) t c).
Proof.
  intros Hsig. unfold LoadCheckpoint, floor_of.
  eapply reads_bind; [apply reads_query|]. intros s1 _.
  destruct (checkpoints (sdb s) !! (t, c)) as [cp|] eqn:Hcp; [|apply reads_ret].
  destruct (Hsig cp Hcp) as (pub & -> & ->). apply reads_ret.
Qed.

Lemma chain_ok_verified floor l t c :
  keyed l -> chain_ok hmac_sha256 key floor l t c ->
  verify_once hmac_sha256 key (entries_after l t c (cp_Seq floor - 1)) (cp_PrevHash floor) (cp_Seq floor)
  = mkVR true (h_LastSeq (head_for l t c)) 0 "".
Proof.
  intros Hk (H1 & Hl & Hseq & _). unfold verify_once, entries_after. rewrite filter_all.
  - rewrite (proj2 (verify_batch_linked _ _ _ _ _ _ _) (conj Hl eq_refl)). f_equal. lia.
  - intros e He. pose proof (linked_seq_bounds _ _ _ _ _ _ _ Hl He). lia.
Qed.

Lemma VerifyAnchors_reads t c s :
  keyed (sdb s) -> chain_inv (sdb s) t c ->
  reads (VerifyAnchorsWithSinkFrom sha256 pub_key ed25519_verify None keys t c
           (cp_Seq (floor_of (sdb s) t c))) s
    (mkAVR true (anchored_through (sdb s) t c) 0 "").
Proof.
  intros Hk ([H1 _] & _ & Hanch & _). unfold VerifyAnchorsWithSinkFrom, VerifyAnchorsFrom.
  destruct (Z.ltb_spec (cp_Seq (floor_of (sdb s) t c)) 1) as [|_]; [lia|].
  apply (reads_bind _ _ _ (mkAVR true (anchored_through (sdb s) t c) 0 "")); [|intros; apply reads_ret].
  eapply reads_bind; [apply reads_query|]. intros s3 (Hdb3 & _).
  apply verify_anchors_reads; by rewrite Hdb3.
Qed.

Lemma verify_head_reads h s :
  audit_inv (sdb s) ->
  reads (verify_head hmac_sha256 sha256 pub_key ed25519_verify key None keys h) s false.
Proof.
  intros [Hk Hinv]. pose proof (Hinv (h_TenantID h) (h_ChainClass h)) as Hc.
  pose proof Hc as (Hok & Hsig & _).
  unfold verify_head. eapply reads_bind; [by apply LoadCheckpoint_reads|]. intros s1 (Hdb1 & _).
  eapply reads_bind; [apply VerifyChainFrom_reads; [by rewrite Hdb1 | apply Hok]|].
  intros s2 (Hdb2 & _). rewrite Hdb1, (chain_ok_verified _ _ _ _ Hk Hok). cbn [vr_OK negb].
  case_match; [apply reads_ret|]. rewrite <- Hdb1, <- Hdb2 in *.
  eapply reads_bind; [by apply VerifyAnchors_reads|]. intros; apply reads_ret.
Qed.

Lemma verify_heads_reads hs s :
  audit_inv (sdb s) ->
  reads (verify_heads hmac_sha256 sha256 pub_key ed25519_verify key None keys hs) s false.
Proof.
  revert s. induction hs as [|h hs IH]; intros s Hinv; cbn [verify_heads]; [apply reads_ret|].
  eapply reads_bind; [by apply verify_head_reads|]. intros s1 (Hdb1 & _).
  eapply reads_bind; [apply IH; by rewrite Hdb1|]. intros; apply reads_ret.
Qed.

Lemma runVerifyAudit_reads s :
  key <> [] -> audit_inv (sdb s) ->
  reads (runVerifyAudit hmac_sha256 sha256 pub_key ed25519_verify key None keys) s tt.
Proof.
  intros Hkey Hinv. unfold runVerifyAudit. rewrite bool_decide_eq_false_2 by done.
  eapply reads_bind; [apply reads_ret|]. intros s0 (Hdb0 & _).
  eapply reads_bind; [apply reads_query|]. intros s1 (Hdb1 & _).
  eapply reads_bind; [apply verify_heads_reads; by rewrite Hdb1, Hdb0|]. intros; apply reads_ret.
Qed.

(** ** The chainer keeps the invariant *)

Lemma anchored_through_spec l t c th :
  (forall a, a ∈ chain_anchors l t c -> an_ToSeq a <= th) ->
  (exists a, a ∈ chain_anchors l t c /\ an_ToSeq a = th) \/ (chain_anchors l t c = [] /\ th = 0) ->
  anchored_through l t c = th.
Proof.
  intros Hmax Hex. unfold anchored_through. destruct (last_anchor (chain_anchors l t c)) as [a|] eqn:Ha.
  - apply last_anchor_max in Ha as [Hin Hm].
    destruct Hex as [(b & Hb & <-)|[Hn _]]; [|rewrite Hn in Hin; set_solver].
    pose proof (Hm b Hb). pose proof (Hmax a Hin). lia.
  - apply last_anchor_None in Ha. destruct Hex as [(b & Hb & _)|[_ ->]]; [|done].
    rewrite Ha in Hb. set_solver.
Qed.

Lemma anchored_through_cases l t c :
  (forall a, a ∈ chain_anchors l t c -> an_ToSeq a <= anchored_through l t c)
  /\ ((exists a, a ∈ chain_anchors l t c /\ an_ToSeq a = anchored_through l t c)
      \/ (chain_anchors l t c = [] /\ anchored_through l t c = 0)).
Proof.
  unfold anchored_through. destruct (last_anchor (chain_anchors l t c)) as [a|] eqn:Ha.
  - apply last_anchor_max in Ha as [Hin Hm]. eauto.
  - apply last_anchor_None in Ha. rewrite Ha. split; [set_solver | by right].
Qed.

Lemma anchored_through_perm l l' t c :
  chain_anchors l' t c ≡ₚ chain_anchors l t c -> anchored_through l' t c = anchored_through l t c.
Proof.
  intros Hp. destruct (anchored_through_cases l t c) as [Hm Hc]. apply anchored_through_spec.
  - intros a. rewrite Hp. apply Hm.
  - destruct Hc as [(a & Ha & Hth)|[Hn Hth]]; [left; exists a; by rewrite Hp|].
    right. split; [|done]. apply Permutation_nil. by rewrite <- Hn, Hp.
Qed.

(** The parts of the ledger a chain's invariant reads. *)
Lemma chain_inv_ext l l' t c :
  chain_entries l' t c = chain_entries l t c -> head_for l' t c = head_for l t c ->
  checkpoints l' !! (t, c) = checkpoints l !! (t, c) ->
  chain_anchors l' t c ≡ₚ chain_anchors l t c ->
  chain_inv l t c -> chain_inv l' t c.
Proof.
  intros He Hh Hcp Hp (Hok & Hsig & Hanch & Hle).
  assert (floor_of l' t c = floor_of l t c) as Hfl by (unfold floor_of; by rewrite Hcp).
  assert (live_anchors l' t c = live_anchors l t c) as Hlive.
  { apply sorted_from_unique; [by eapply anchored_sorted|].
    unfold live_anchors. by rewrite merge_sort_Permutation, Hfl, Hp. }
  unfold chain_inv. rewrite Hfl, Hlive, (anchored_through_perm l l') by done. split_and!.
  - by eapply chain_ok_ext.
  - unfold checkpoint_signed. by rewrite Hcp.
  - eapply anchored_ext; [|done]. intros. unfold range_leaves. by rewrite He.
  - by rewrite Hh.
Qed.

(** Entries appended after the head do not touch the anchored ranges. *)
Lemma append_anchored l l' t c from prev ans th es :
  chain_entries l' t c = chain_entries l t c ++ es -> (forall e, e ∈ es -> th < n_Seq e) ->
  anchored l t c from prev ans th -> anchored l' t c from prev ans th.
Proof.
  intros He Hes. apply anchored_ext. intros lo hi _ Hhi. unfold range_leaves.
  rewrite He, filter_app, (filter_none _ es), app_nil_r; [done|].
  intros e Hin. pose proof (Hes e Hin). lia.
Qed.

Section ChainerInv.
Context {JMap : Type} (json_unmarshal_map : bytes -> option JMap) (format_rfc3339 : Z -> string)
        (CanonicalJSON : ChainPayload JMap -> option bytes) (keyID : string) (now : Z).

Lemma extends_inv ps l l' :
  audit_inv l -> ledger_ok hmac_sha256 key (floor_of l) l' ->
  extends json_unmarshal_map format_rfc3339 CanonicalJSON ps l l' ->
  anchors l' = anchors l -> checkpoints l' = checkpoints l -> audit_inv l'.
Proof.
  intros [Hk Hinv] [Hk' Hok'] Hext Ha Hc. split; [done|]. intros t c.
  destruct (Hinv t c) as (Hok & Hsig & Hanch & Hle), (Hext t c) as (es & He & _).
  assert (floor_of l' t c = floor_of l t c) as Hfl by (unfold floor_of; by rewrite Hc).
  assert (live_anchors l' t c = live_anchors l t c) as Hlive
    by (unfold live_anchors, chain_anchors; by rewrite Ha, Hfl).
  assert (anchored_through l' t c = anchored_through l t c) as Hth
    by (unfold anchored_through, chain_anchors; by rewrite Ha).
  unfold chain_inv. rewrite Hfl, Hlive, Hth. pose proof (Hok' t c) as Hokt.
  destruct Hok as (_ & Hl & Hs & _). pose proof Hokt as (_ & Hl' & Hs' & _).
  split_and!; [done | unfold checkpoint_signed; by rewrite Hc | |].
  - eapply append_anchored; [done | | done]. intros e Hin.
    rewrite He in Hl'. apply linked_app_inv in Hl' as (r & _ & Hl2).
    pose proof (linked_seq_bounds _ _ _ _ _ _ _ Hl2 Hin). lia.
  - rewrite He, length_app in Hs'. lia.
Qed.

Lemma ProcessBatch_inv limit s s' r :
  audit_inv (sdb s) ->
  ProcessBatch hmac_sha256 JMap json_unmarshal_map format_rfc3339 CanonicalJSON key keyID now limit s = (s', r) ->
  audit_inv (sdb s').
Proof.
  intros Hinv Hrun. unfold ProcessBatch in Hrun. destruct r as [n|e].
  - apply txn_ok in Hrun as (s1 & Hrun & ->). minv Hrun.
    pose proof Hrun as Hr. apply chain_rows_ok with (floor := floor_of (sdb s)) in Hr
      as (Hok & Hext & _ & _ & Ha & Hc); simpl in *.
    + by eapply extends_inv.
    + destruct Hinv as [Hk Hinv]. split; [done|]. intros t c. apply Hinv.
  - apply txn_err in Hrun. by rewrite Hrun.
Qed.
End ChainerInv.

(** ** The anchorer keeps the invariant *)

(** What is left of a linked run above a cursor inside it or at its end. *)
Lemma linked_after p s es q cur :
  linked hmac_sha256 key p s es q -> s - 1 <= cur ->
  exists r, linked hmac_sha256 key r (cur + 1) (filter (fun e => cur < n_Seq e) es) q.
Proof.
  intros Hl. revert cur. induction Hl as [p s|p s e es q Hs Hp Hh Hl IH]; intros cur Hcur.
  - exists p. constructor.
  - destruct (decide (cur < n_Seq e)).
    + exists p. replace (cur + 1) with s by lia. rewrite filter_all; [by constructor|].
      intros x [->|Hx]%elem_of_cons; [done|]. pose proof (linked_seq_bounds _ _ _ _ _ _ _ Hl Hx). lia.
    + rewrite filter_cons_False by done. apply IH. lia.
Qed.

(** A non-empty linked run is numbered from its first entry to its last. *)
Lemma linked_ends p s e es q z :
  linked hmac_sha256 key p s (e :: es) q -> last (e :: es) = Some z ->
  n_Seq e = s /\ n_Seq z = s + Z.of_nat (length es).
Proof.
  intros Hl Hz. split; [by rewrite (linked_seq _ _ _ _ _ _ 0 _ Hl eq_refl), Z.add_0_r|].
  rewrite last_lookup in Hz. rewrite (linked_seq _ _ _ _ _ _ _ _ Hl Hz). simpl. lia.
Qed.

Lemma anchored_ToSeq_inj l t c from prev ans th a b :
  anchored l t c from prev ans th -> a ∈ ans -> b ∈ ans -> an_ToSeq a = an_ToSeq b -> a = b.
Proof.
  induction 1 as [|from prev x ans th Hx Ha IH]; [set_solver|].
  pose proof (anchored_bounds _ _ _ _ _ _ _ Ha) as [_ Hb]. rewrite !elem_of_cons.
  intros [->|H1] [->|H2] Heq; [done | | | auto].
  - pose proof (Hb _ H2). lia.
  - pose proof (Hb _ H1). lia.
Qed.

Lemma live_anchors_elem l t c a :
  a ∈ live_anchors l t c <-> a ∈ chain_anchors l t c /\ cp_Seq (floor_of l t c) <= an_ToSeq a.
Proof. unfold live_anchors. rewrite merge_sort_Permutation, list_elem_of_filter. tauto. Qed.

(** The anchor the next one links to is the last live one, when there is one. *)
Lemma last_live_newest l t c from prev b :
  anchored l t c from prev (live_anchors l t c) (anchored_through l t c) ->
  last (live_anchors l t c) = Some b -> last_anchor (chain_anchors l t c) = Some b.
Proof.
  intros Ha Hb. pose proof (anchored_last _ _ _ _ _ _ _ Ha) as Hlast. rewrite Hb in Hlast.
  assert (b ∈ live_anchors l t c) as Hin by (by apply last_Some_elem_of).
  pose proof Hin as [Hch Hfl]%live_anchors_elem.
  unfold anchored_through in *. destruct (last_anchor (chain_anchors l t c)) as [z|] eqn:Hz.
  - f_equal. pose proof (last_anchor_max _ _ Hz) as [Hzin _].
    eapply anchored_ToSeq_inj; [exact Ha | apply live_anchors_elem; split; [done | lia] | done | lia].
  - apply last_anchor_None in Hz. rewrite Hz in Hch. set_solver.
Qed.

Section Signer.
Context (priv : priv_key) (pub : pub_key) (keyID : string) (now : Z).
Context (Hkey : keys !! keyID = Some pub)
        (Hsign : forall m, ed25519_verify pub m (ed25519_sign priv m) = true).

(** The anchor over everything above the last one. *)
Definition next_anchor (l : Ledger) (t : Z) (c : string) (newID : Z) (uri : string)
    (first lst : AuditEntry) : AuditAnchor :=
  let root := MerkleRoot sha256 (map n_EntryHash (entries_after l t c (anchored_through l t c))) in
  let prev := match last_anchor (chain_anchors l t c) with Some a => anchor_hash a | None => [] end in
  mkAnchor newID t c (n_Seq first) (n_Seq lst) root
    (SignAnchorV2 priv_key ed25519_sign priv t c (n_Seq first) (n_Seq lst) prev root)
    keyID AnchorV2 prev uri now.

Lemma AnchorChain_run sink newID t c s s' r :
  AnchorChain sha256 priv_key ed25519_sign priv keyID sink newID now t c s = (s', r) ->
  sdb s' = sdb s
  \/ exists first es lst uri, entries_after (sdb s) t c (anchored_through (sdb s) t c) = first :: es
     /\ last (first :: es) = Some lst /\ anchors (sdb s) !! newID = None
     /\ sdb s' = set_anchors (<[newID := next_anchor (sdb s) t c newID uri first lst]>) (sdb s).
Proof.
  intros Hrun. unfold AnchorChain in Hrun. destruct r as [oa|e]; [|minv Hrun; by left].
  minv Hrun; try (by left); fold (anchored_through (sdb s) t c) in *; right; to_prop.
  all: destruct (last (a :: l)) as [z|] eqn:Hz; [|by rewrite last_None in Hz].
  all: apply eq_None_not_Some in Hg.
  all: eexists a, l, z, _; split_and!; [done..|].
  all: unfold next_anchor; rewrite Hc; done.
Qed.

Lemma next_anchor_sound l t c newID uri first es lst :
  keyed l -> chain_inv l t c ->
  entries_after l t c (anchored_through l t c) = first :: es -> last (first :: es) = Some lst ->
  anchor_sound l t c (anchored_through l t c + 1)
    (match last (live_anchors l t c) with Some b => Some (anchor_hash b) | None => None end)
    (next_anchor l t c newID uri first lst).
Proof.
  intros Hk ((H1 & Hl & Hs & _) & _ & Hanch & Hle) Hens Hlst.
  pose proof (anchored_bounds _ _ _ _ _ _ _ Hanch) as [Hb _].
  destruct (linked_after _ _ _ _ (anchored_through l t c) Hl Hb) as (r & Hafter).
  fold (entries_after l t c (anchored_through l t c)) in Hafter. rewrite Hens in Hafter.
  destruct (linked_ends _ _ _ _ _ _ Hafter Hlst) as [Hfirst Hlast].
  assert (range_leaves l t c (anchored_through l t c + 1) (n_Seq lst) = map n_EntryHash (first :: es)) as Hrl.
  { rewrite <- range_leaves_after. rewrite Z.add_simpl_r, Hens. f_equal. apply filter_all.
    intros e He. pose proof (linked_seq_bounds _ _ _ _ _ _ _ Hafter He). cbn [length] in *. lia. }
  unfold anchor_sound. cbn [next_anchor an_FromSeq an_ToSeq an_KeyID an_PrevAnchorHash an_MerkleRoot].
  rewrite Hrl, Hens. split_and!; [lia | lia | | | rewrite length_map; cbn [length]; lia | done].
  - exists pub. split; [done|]. unfold VerifyAnchorSig. cbn. rewrite Hens. apply Hsign.
  - intros h Hh _. destruct (last (live_anchors l t c)) as [b|] eqn:Hlive; [|done].
    rewrite (last_live_newest _ _ _ _ _ _ Hanch Hlive). congruence.
Qed.

(** Adding a sound anchor on top of the newest. *)
Lemma chain_inv_anchor l l' a :
  entries l' = entries l -> heads l' = heads l -> checkpoints l' = checkpoints l ->
  chain_anchors l' (an_TenantID a) (an_ChainClass a)
    ≡ₚ a :: chain_anchors l (an_TenantID a) (an_ChainClass a) ->
  chain_inv l (an_TenantID a) (an_ChainClass a) ->
  anchor_sound l (an_TenantID a) (an_ChainClass a) (anchored_through l (an_TenantID a) (an_ChainClass a) + 1)
    (match last (live_anchors l (an_TenantID a) (an_ChainClass a)) with
     | Some b => Some (anchor_hash b) | None => None end) a ->
  an_ToSeq a <= h_LastSeq (head_for l (an_TenantID a) (an_ChainClass a)) ->
  chain_inv l' (an_TenantID a) (an_ChainClass a).
Proof.
  intros He Hh Hc. set (t := an_TenantID a). set (c := an_ChainClass a).
  intros Hp (Hok & Hsig & Hanch & Hle) Hsound Hto.
  pose proof (anchored_bounds _ _ _ _ _ _ _ Hanch) as [Hb _].
  pose proof (anchored_snoc _ _ _ _ _ _ _ _ Hanch Hsound) as Hanch'.
  destruct Hsound as (Hfrom & Hft & _).
  assert (floor_of l' t c = floor_of l t c) as Hfl by (unfold floor_of; by rewrite Hc).
  assert (anchored_through l' t c = an_ToSeq a) as Hth.
  { apply anchored_through_spec; [|left; exists a; rewrite Hp; split; [left | done]].
    intros b. rewrite Hp. intros [->|Hb']%elem_of_cons; [lia|].
    pose proof (proj1 (anchored_through_cases l t c) b Hb'). lia. }
  assert (live_anchors l' t c = live_anchors l t c ++ [a]) as Hlive.
  { apply sorted_from_unique; [by eapply anchored_sorted|].
    unfold live_anchors. rewrite Hfl, Hp, filter_cons_True by lia.
    rewrite merge_sort_Permutation. apply Permutation_cons_append. }
  unfold chain_inv. rewrite Hfl, Hth, Hlive. split_and!.
  - eapply chain_ok_ext; [by apply chain_entries_ext | unfold head_for; by rewrite Hh | done].
  - unfold checkpoint_signed. by rewrite Hc.
  - eapply anchored_ext; [|exact Hanch']. intros. unfold range_leaves.
    by rewrite (chain_entries_ext l l' t c).
  - unfold head_for in *. by rewrite Hh.
Qed.

Lemma AnchorChain_inv sink newID t c s s' r :
  audit_inv (sdb s) ->
  AnchorChain sha256 priv_key ed25519_sign priv keyID sink newID now t c s = (s', r) ->
  audit_inv (sdb s').
Proof.
  intros [Hk Hinv] Hrun.
  apply AnchorChain_run in Hrun as [->|(first & es & lst & uri & Hens & Hlst & Hfresh & ->)]; [done|].
  set (a := next_anchor (sdb s) t c newID uri first lst).
  destruct (chain_anchors_insert (sdb s) (set_anchors <[newID:=a]> (sdb s)) a Hfresh eq_refl) as [Hmine Hother].
  split; [done|]. intros t' c'. destruct (decide ((t', c') = (t, c))) as [Heq|Hne].
  - simplify_eq. pose proof (next_anchor_sound _ _ _ newID uri _ _ _ Hk (Hinv t c) Hens Hlst) as Hsound.
    fold a in Hsound. apply (chain_inv_anchor (sdb s) _ a); [done | done | done | exact Hmine | apply Hinv | exact Hsound |].
    assert (lst ∈ entries_after (sdb s) t c (anchored_through (sdb s) t c)) as [_ Hin]%list_elem_of_filter
      by (rewrite Hens; by apply last_Some_elem_of).
    destruct (Hinv t c) as ((_ & Hl & Hs & _) & _). pose proof (linked_seq_bounds _ _ _ _ _ _ _ Hl Hin).
    cbn. lia.
  - eapply (chain_inv_ext (sdb s)); [done | done | done | by apply Hother | done].
Qed.

Lemma anchor_heads_inv sink ids hs s s' r :
  audit_inv (sdb s) ->
  anchor_heads sha256 priv_key ed25519_sign priv keyID sink ids now hs s = (s', r) ->
  audit_inv (sdb s').
Proof.
  revert ids s s' r. induction hs as [|h hs IH]; intros ids s s' r Hinv Hrun; cbn [anchor_heads] in Hrun.
  - by minv Hrun.
  - apply bind_cases in Hrun as [(e & Ha & _)|(oa & s1 & Ha & Hrun)];
      apply AnchorChain_inv in Ha; try done.
    apply bind_cases in Hrun as [(e & Hb & _)|(n & s2 & Hb & Hrun)]; [by eapply IH in Hb|].
    unfold ret in Hrun. simplify_eq. by eapply IH in Hb.
Qed.

Lemma AnchorAll_inv sink ids s s' r :
  audit_inv (sdb s) ->
  AnchorAll sha256 priv_key ed25519_sign priv keyID sink ids now s = (s', r) -> audit_inv (sdb s').
Proof.
  intros Hinv Hrun. unfold AnchorAll in Hrun.
  apply bind_cases in Hrun as [(e & Hq & _)|(l & s1 & Hq & Hrun)];
    [apply query_err in Hq as (_ & _ & ->); done|].
  apply query_ok in Hq as (-> & _ & ->). by eapply anchor_heads_inv in Hrun.
Qed.

(** ** The pruner keeps the invariant *)

(** What pruning does to the tables. *)
Definition pruned (l : Ledger) (t : Z) (c : string) (through : Z) (cp : AuditCheckpoint) : Ledger :=
  set_entries (filter (fun '(_, e) => entry_pruned t c through e = false))
    (set_checkpoints (<[(t, c) := cp]>) l).

Lemma PruneChain_run newID t c cutoff s s' r :
  PruneChain priv_key ed25519_sign priv keyID newID now t c cutoff s = (s', r) ->
  sdb s' = sdb s
  \/ exists a id boundary n, last_anchor (chain_anchors (sdb s) t c) = Some a
     /\ let through := Z.min cutoff (an_ToSeq a) in
        r = Ok (mkPR t c through n) /\ 1 <= through /\ entries (sdb s) !! (t, c, through) = Some boundary
        /\ sdb s' = pruned (sdb s) t c through
             (mkCheckpointRow id t c through (n_EntryHash boundary)
               (ed25519_sign priv (CheckpointSigMessage t c through (n_EntryHash boundary))) keyID now).
Proof.
  intros Hrun. unfold PruneChain in Hrun.
  assert (forall x, (if cutoff <? x then cutoff else x) = Z.min cutoff x) as Hmin
    by (intros x; destruct (Z.ltb_spec cutoff x); lia).
  destruct r as [pr|e].
  - minv Hrun; try (by left). right. to_prop. rewrite Hmin in *.
    apply txn_ok in Hrun as (s1 & Hrun & ->). minv Hrun.
    eexists a, _, a0, _. split; [done|]. cbv zeta. split_and!; [done | done | done | reflexivity].
  - left. minv Hrun; try done. apply txn_err in Hrun. done.
Qed.

Lemma pruned_keyed l t c th cp : keyed l -> keyed (pruned l t c th cp).
Proof. intros Hk k e [He _]%map_lookup_filter_Some. by apply Hk. Qed.

Lemma pruned_entries_other l t c th cp t' c' :
  keyed l -> (t', c') <> (t, c) -> chain_entries (pruned l t c th cp) t' c' = chain_entries l t' c'.
Proof.
  intros Hk Hne. apply chain_entries_unique; [by apply pruned_keyed | by apply chain_entries_sorted|].
  intros e. rewrite chain_entries_elem by done. cbn. rewrite map_lookup_filter_Some.
  split; [|tauto]. intros He. split; [done|]. apply Hk in He. simplify_eq.
  unfold entry_pruned. destruct (Z.eqb_spec (n_TenantID e) t); [|done].
  rewrite bool_decide_eq_false_2; [done | naive_solver].
Qed.

Lemma pruned_entries l t c th cp :
  keyed l -> chain_entries (pruned l t c th cp) t c = entries_after l t c th.
Proof.
  intros Hk. apply chain_entries_unique; [by apply pruned_keyed | by apply entries_after_sorted|].
  intros e. unfold entries_after. rewrite list_elem_of_filter, chain_entries_elem by done.
  cbn. rewrite map_lookup_filter_Some. split; intros [H1 H2]; split; try done.
  - apply Hk in H2. simplify_eq. unfold entry_pruned.
    destruct (Z.leb_spec (n_Seq e) th); [lia | by rewrite !andb_false_r].
  - apply Hk in H1. simplify_eq. unfold entry_pruned in H2.
    rewrite Z.eqb_refl, bool_decide_eq_true_2 in H2 by done. simpl in H2. to_prop. lia.
Qed.

(** A linked run cut after one of its entries. *)
Lemma linked_cut l t c p s q e :
  keyed l -> linked hmac_sha256 key p s (chain_entries l t c) q ->
  entries l !! (t, c, n_Seq e) = Some e ->
  linked hmac_sha256 key (n_EntryHash e) (n_Seq e + 1) (entries_after l t c (n_Seq e)) q
  /\ n_Seq e + Z.of_nat (length (entries_after l t c (n_Seq e))) + 1
     = s + Z.of_nat (length (chain_entries l t c)).
Proof.
  intros Hk Hl He. apply chain_entries_elem, list_elem_of_split in He as (es1 & es2 & Hes); [|done].
  replace (es1 ++ e :: es2) with ((es1 ++ [e]) ++ es2) in Hes by by rewrite <- app_assoc.
  assert (entries_after l t c (n_Seq e) = es2) as Hafter.
  { unfold entries_after. rewrite Hes. apply sorted_suffix. rewrite <- Hes. by apply chain_entries_sorted. }
  rewrite Hafter. rewrite Hes in Hl |- *. apply linked_app_inv in Hl as (r & H1 & H2).
  assert (n_Seq e + 1 = s + Z.of_nat (length (es1 ++ [e]))) as Hseq.
  { rewrite (linked_seq _ _ _ _ _ _ (length es1) e H1), length_app; [simpl; lia|].
    by rewrite lookup_app_r, Nat.sub_diag by lia. }
  apply linked_last in H1 as ->. split; [by rewrite Hseq|]. rewrite length_app. lia.
Qed.

Lemma live_anchors_pruned l l' t c ans :
  anchors l' = anchors l -> cp_Seq (floor_of l t c) <= cp_Seq (floor_of l' t c) ->
  live_anchors l t c = ans -> StronglySorted from_lt (filter (fun a => cp_Seq (floor_of l' t c) <= an_ToSeq a) ans) ->
  live_anchors l' t c = filter (fun a => cp_Seq (floor_of l' t c) <= an_ToSeq a) ans.
Proof.
  intros Ha Hle <- Hs. apply sorted_from_unique; [done|].
  unfold live_anchors at 1. rewrite merge_sort_Permutation, list_filter_filter.
  unfold chain_anchors. rewrite Ha. erewrite list_filter_iff; [reflexivity|]. intros a. simpl. lia.
Qed.

(** The chain that is pruned: its floor moves up to an anchor's upper bound. *)
Lemma chain_inv_pruned l t c e cp :
  keyed l -> chain_inv l t c -> entries l !! (t, c, n_Seq e) = Some e -> 1 <= n_Seq e ->
  (exists a, a ∈ chain_anchors l t c /\ an_ToSeq a = n_Seq e) ->
  ck_PrunedThroughSeq cp = n_Seq e -> ck_PrevHash cp = n_EntryHash e ->
  keys !! ck_KeyID cp = Some pub -> VerifyCheckpointSig pub_key ed25519_verify pub cp = true ->
  chain_inv (pruned l t c (n_Seq e) cp) t c.
Proof.
  intros Hk ((H1 & Hl & Hs & Ht & Hc) & Hsig & Hanch & Hle) He Hpos (b & Hb & Hbt) Hth Hph Hkid Hcs.
  set (l' := pruned l t c (n_Seq e) cp).
  assert (floor_of l' t c = mkCheckpoint (n_Seq e + 1) (n_EntryHash e)) as Hfl.
  { unfold floor_of. cbn. by rewrite lookup_insert_eq, Hth, Hph. }
  pose proof He as Hein%chain_entries_elem; [|done].
  pose proof (linked_seq_bounds _ _ _ _ _ _ _ Hl Hein) as Hbound.
  destruct (linked_cut _ _ _ _ _ _ _ Hk Hl He) as [Hl' Hlen].
  assert (chain_entries l' t c = entries_after l t c (n_Seq e)) as Hes by by apply pruned_entries.
  assert (anchored_through l' t c = anchored_through l t c) as Hthr by done.
  assert (b ∈ live_anchors l t c) as Hblive by (apply live_anchors_elem; split; [done | lia]).
  pose proof (anchored_cut _ _ _ _ _ _ _ (n_Seq e) Hanch (or_introl (ex_intro _ b (conj Hblive Hbt)))) as Hcut.
  assert (live_anchors l' t c = filter (fun a => n_Seq e + 1 <= an_ToSeq a) (live_anchors l t c)) as Hlive.
  { pose proof (live_anchors_pruned l l' t c (live_anchors l t c)) as Hlp. rewrite Hfl in Hlp.
    apply Hlp; [done | simpl; lia | done | by eapply anchored_sorted]. }
  unfold chain_inv. rewrite Hfl, Hthr, Hlive. split_and!.
  - unfold chain_ok. rewrite Hes. cbn [cp_Seq cp_PrevHash].
    split_and!; [lia | exact Hl' | | exact Ht | exact Hc]. change (head_for l' t c) with (head_for l t c). lia.
  - intros cp' Hcp'. cbn in Hcp'. rewrite lookup_insert_eq in Hcp'. simplify_eq. eauto.
  - eapply anchored_ext; [|exact Hcut]. intros lo hi Hlo _. unfold range_leaves. rewrite Hes.
    unfold entries_after. f_equal. rewrite list_filter_filter. apply list_filter_iff. intros x. cbn [cp_Seq] in *. lia.
  - exact Hle.
Qed.

Lemma PruneChain_inv newID t c cutoff s s' r :
  audit_inv (sdb s) -> (exists a, a ∈ chain_anchors (sdb s) t c /\ an_ToSeq a = cutoff) ->
  PruneChain priv_key ed25519_sign priv keyID newID now t c cutoff s = (s', r) ->
  audit_inv (sdb s') /\ anchors (sdb s') = anchors (sdb s).
Proof.
  intros [Hk Hinv] (b & Hb & Hcut) Hrun.
  apply PruneChain_run in Hrun as [->|(a & id & e & n & Hlast & _ & H1 & He & ->)]; [done|].
  split; [|done]. split; [by apply pruned_keyed|]. intros t' c'.
  pose proof (Hk _ _ He) as Hkey'. injection Hkey' as _ _ Hth. rewrite Hth in *.
  destruct (decide ((t', c') = (t, c))) as [Heq|Hne].
  - simplify_eq. apply chain_inv_pruned; auto.
    + apply last_anchor_max in Hlast as [Hin Hmax]. pose proof (Hmax b Hb).
      exists b. split; [done | lia].
    + apply Hsign.
  - eapply (chain_inv_ext (sdb s)); [by apply pruned_entries_other | done | | done | done].
    cbn. by rewrite lookup_insert_ne by congruence.
Qed.

Lemma prune_heads_inv newID cutoff hs s s' r :
  audit_inv (sdb s) ->
  prune_heads priv_key ed25519_sign priv keyID newID now cutoff hs s = (s', r) ->
  audit_inv (sdb s').
Proof.
  revert newID s s' r. induction hs as [|h hs IH]; intros newID s s' r Hinv Hrun; cbn [prune_heads] in Hrun.
  - by minv Hrun.
  - apply bind_cases in Hrun as [(e & Hq & _)|(l & s1 & Hq & Hrun)];
      [apply query_err in Hq as (_ & _ & ->); done|].
    apply query_ok in Hq as (-> & _ & ->).
    destruct (last_anchor _) as [a|] eqn:Ha; [|by eapply IH in Hrun].
    apply last_anchor_max in Ha as [[_ Ha]%list_elem_of_filter _].
    apply bind_cases in Hrun as [(e & Hp & _)|(pr & s2 & Hp & Hrun)];
      eapply PruneChain_inv in Hp as [Hinv2 _]; eauto.
    apply bind_cases in Hrun as [(e & Hp' & _)|(rs & s3 & Hp' & Hrun)]; [by eapply IH in Hp'|].
    unfold ret in Hrun. simplify_eq. by eapply IH in Hp'.
Qed.

Lemma PruneChainsBefore_inv newID cutoff s s' r :
  audit_inv (sdb s) ->
  PruneChainsBefore priv_key ed25519_sign priv keyID newID now cutoff s = (s', r) ->
  audit_inv (sdb s').
Proof.
  intros Hinv Hrun. unfold PruneChainsBefore in Hrun.
  apply bind_cases in Hrun as [(e & Hq & _)|(l & s1 & Hq & Hrun)];
    [apply query_err in Hq as (_ & _ & ->); done|].
  apply query_ok in Hq as (-> & _ & ->). by eapply prune_heads_inv in Hrun.
Qed.

End Signer.
End Anchors.
