(* ===== verification/AuditProps.v ===== *)
(** * AuditProps: what the tamper-evident ledger guarantees *)

From stdpp Require Import sorting.
From S2P Require Import Prelude AuditLedger AuditSpec AuditAnchors.

(** ** Byte encodings *)

Definition be_decode (bs : bytes) : Z := foldl (fun acc b => acc * 256 + b) 0 bs.

Lemma be_bytes_length n z : length (be_bytes n z) = n.
Proof. induction n; simpl; auto. Qed.

Lemma foldl_shift bs acc :
  foldl (fun acc b => acc * 256 + b) acc bs = acc * 2 ^ (8 * Z.of_nat (length bs)) + be_decode bs.
Proof.
  unfold be_decode. revert acc. induction bs as [|b bs IH]; intros acc; cbn [foldl length].
  - rewrite Z.mul_0_r. lia.
  - rewrite IH, (IH (0 * 256 + b)).
    rewrite Nat2Z.inj_succ, Z.mul_succ_r, Z.pow_add_r by lia. lia.
Qed.

Lemma be_decode_bytes n z : be_decode (be_bytes n z) = z mod 2 ^ (8 * Z.of_nat n).
Proof.
  induction n as [|n IH]; [simpl; by rewrite Z.mod_1_r|].
  unfold be_decode. cbn [be_bytes foldl]. rewrite foldl_shift, be_bytes_length, IH.
  change 255 with (Z.ones 8). rewrite Z.land_ones, Z.shiftr_div_pow2 by lia.
  set (k := 8 * Z.of_nat n). replace (8 * Z.of_nat (S n)) with (k + 8) by lia.
  rewrite Z.pow_add_r, Z.rem_mul_r by lia. lia.
Qed.

Lemma be64_inj a b : in_int64 a -> in_int64 b -> be64 a = be64 b -> a = b.
Proof.
  unfold in_int64, int64_min, int64_max, be64. intros Ha Hb Heq.
  apply (f_equal be_decode) in Heq. rewrite !be_decode_bytes in Heq. simpl in Heq.
  rewrite !Z.mod_mod in Heq by lia.
  destruct (Z_lt_ge_dec a 0), (Z_lt_ge_dec b 0).
  - rewrite <- (Z.mod_add a 1), <- (Z.mod_add b 1), !Z.mod_small in Heq by lia. lia.
  - rewrite <- (Z.mod_add a 1), !Z.mod_small in Heq by lia. lia.
  - rewrite <- (Z.mod_add b 1), !Z.mod_small in Heq by lia. lia.
  - rewrite !Z.mod_small in Heq by lia. lia.
Qed.

Lemma be16_inj a b : 0 <= a < 2 ^ 16 -> 0 <= b < 2 ^ 16 -> be16 a = be16 b -> a = b.
Proof.
  unfold be16. intros Ha Hb Heq. apply (f_equal be_decode) in Heq.
  rewrite !be_decode_bytes in Heq. simpl in Heq.
  rewrite !Z.mod_mod, !Z.mod_small in Heq by lia. done.
Qed.

Lemma str_bytes_length s : length (str_bytes s) = String.length s.
Proof. induction s; simpl; auto. Qed.

Lemma str_bytes_inj s1 s2 : str_bytes s1 = str_bytes s2 -> s1 = s2.
Proof.
  revert s2. induction s1 as [|c1 s1 IH]; intros [|c2 s2]; simpl; try discriminate; [done|].
  intros Heq. injection Heq as Hc Hs. f_equal; [|by apply IH].
  apply Nat2Z.inj in Hc. apply (f_equal Ascii.ascii_of_nat) in Hc.
  by rewrite !Ascii.ascii_nat_embedding in Hc.
Qed.

Definition digest (x : bytes) : Prop := length x = 32%nat.

(** ** Signed messages are unambiguous *)

(** What the columns guarantee: 64-bit ids and lengths that fit two bytes. *)
Definition anchor_fields_ok (tenantID : Z) (class : string) (fromSeq toSeq : Z) (prev : bytes) : Prop :=
  in_int64 tenantID /\ in_int64 fromSeq /\ in_int64 toSeq
  /\ Z.of_nat (String.length class) < 2 ^ 16 /\ Z.of_nat (length prev) < 2 ^ 16.

(** The v2 anchor message determines the chain, the range, the predecessor
    hash and the Merkle root it signs: no two different anchors share a
    signature preimage. *)
Theorem anchor_message_injective t1 c1 f1 o1 p1 r1 t2 c2 f2 o2 p2 r2 :
  anchor_fields_ok t1 c1 f1 o1 p1 -> anchor_fields_ok t2 c2 f2 o2 p2 ->
  AnchorSigMessageV2 t1 c1 f1 o1 p1 r1 = AnchorSigMessageV2 t2 c2 f2 o2 p2 r2 ->
  (t1, c1, f1, o1, p1, r1) = (t2, c2, f2, o2, p2, r2).
Proof.
  intros (Ht1 & Hf1 & Ho1 & Hc1 & Hp1) (Ht2 & Hf2 & Ho2 & Hc2 & Hp2) Heq.
  unfold AnchorSigMessageV2 in Heq. apply app_inv_head in Heq.
  apply app_inj_1 in Heq as [Et Heq]; [|by unfold be64; rewrite !be_bytes_length].
  apply app_inj_1 in Heq as [Ec Heq]; [|by unfold be16; rewrite !be_bytes_length].
  apply be16_inj in Ec; [|lia|lia]. apply Nat2Z.inj in Ec.
  apply app_inj_1 in Heq as [Es Heq]; [|by rewrite !str_bytes_length].
  apply app_inj_1 in Heq as [Ef Heq]; [|by unfold be64; rewrite !be_bytes_length].
  apply app_inj_1 in Heq as [Eo Heq]; [|by unfold be64; rewrite !be_bytes_length].
  apply app_inj_1 in Heq as [El Heq]; [|by unfold be16; rewrite !be_bytes_length].
  apply be16_inj in El; [|lia|lia]. apply Nat2Z.inj in El.
  apply app_inj_1 in Heq as [-> ->]; [|done].
  apply be64_inj in Et, Ef, Eo; auto. apply str_bytes_inj in Es. congruence.
Qed.

(** A signature over one kind of message is never a signature over another:
    v1 anchors, v2 anchors and checkpoints have disjoint preimages. *)
Theorem signed_domains_disjoint t1 c1 f1 o1 p1 r1 t2 c2 f2 o2 r2 t3 c3 q3 h3 :
  AnchorSigMessageV2 t1 c1 f1 o1 p1 r1 <> AnchorSigMessage t2 c2 f2 o2 r2
  /\ AnchorSigMessageV2 t1 c1 f1 o1 p1 r1 <> CheckpointSigMessage t3 c3 q3 h3
  /\ AnchorSigMessage t2 c2 f2 o2 r2 <> CheckpointSigMessage t3 c3 q3 h3.
Proof.
  unfold AnchorSigMessageV2, AnchorSigMessage, CheckpointSigMessage.
  split_and!; simpl; intros Heq; discriminate Heq.
Qed.

(** ** Merkle roots bind their leaves *)

Section MerkleFacts.
Context (sha256 : bytes -> bytes) (Hlen : forall x, length (sha256 x) = 32%nat).

(** The preimages hashed on the way to a root, level by level. *)
Fixpoint level_inputs (level : list bytes) : list bytes :=
  match level with
  | [] => []
  | [x] => [x ++ x]
  | x :: y :: rest => (x ++ y) :: level_inputs rest
  end.

Fixpoint loop_inputs (fuel : nat) (level : list bytes) : list bytes :=
  match fuel, level with
  | S fuel', _ :: _ :: _ => level_inputs level ++ loop_inputs fuel' (merkle_level sha256 level)
  | _, _ => []
  end.

Definition MerkleInputs (leaves : list bytes) : list bytes := loop_inputs (length leaves) leaves.

(** Two different preimages, one from each list, with one digest. *)
Definition collides (xs ys : list bytes) : Prop :=
  exists x y, x ∈ xs /\ y ∈ ys /\ x <> y /\ sha256 x = sha256 y.

Lemma collides_mono xs ys xs' ys' :
  collides xs ys -> xs ⊆ xs' -> ys ⊆ ys' -> collides xs' ys'.
Proof. intros (x & y & Hx & Hy & Hne & He) Hxs Hys. exists x, y. auto. Qed.

Lemma two_step_ind {A} (P : list A -> Prop) :
  P [] -> (forall x, P [x]) -> (forall x y l, P l -> P (x :: y :: l)) -> forall l, P l.
Proof.
  intros H0 H1 H2. fix IH 1. intros [|x [|y l]]; [done | done | apply H2, IH].
Qed.

Lemma merkle_level_length l :
  (2 * length (merkle_level sha256 l) <= S (length l))%nat
  /\ (length l <= 2 * length (merkle_level sha256 l))%nat.
Proof. induction l using two_step_ind; simpl; lia. Qed.

Lemma merkle_level_digests l : Forall digest (merkle_level sha256 l).
Proof. induction l using two_step_ind; simpl; repeat constructor; auto; apply Hlen. Qed.

Lemma hash_binds x y xs ys :
  sha256 x = sha256 y -> x = y \/ collides (x :: xs) (y :: ys).
Proof.
  intros He. destruct (decide (x = y)) as [|Hne]; [by left|]. right.
  exists x, y. split_and!; [left | left | done | done].
Qed.

Lemma merkle_level_binds l1 l2 :
  length l1 = length l2 -> Forall digest l1 -> Forall digest l2 ->
  merkle_level sha256 l1 = merkle_level sha256 l2 ->
  l1 = l2 \/ collides (level_inputs l1) (level_inputs l2).
Proof.
  revert l2. induction l1 as [|x|x y l1 IH] using two_step_ind.
  - intros [|]; [by left | discriminate].
  - intros [|x2 [|]] Hl H1 H2 Heq; try discriminate. simpl in Heq. injection Heq as He.
    apply Forall_cons in H1 as [Hx _], H2 as [Hx2 _].
    apply (hash_binds _ _ [] []) in He as [He|]; [left|by right].
    apply app_inj_1 in He as [-> _]; unfold digest in *; congruence.
  - intros [|x2 [|y2 l2]] Hl H1 H2 Heq; try discriminate.
    cbn [merkle_level] in Heq. injection Heq as He Heq.
    apply Forall_cons in H1 as [Hx H1], H2 as [Hx2 H2].
    apply Forall_cons in H1 as [Hy H1], H2 as [Hy2 H2].
    destruct (IH l2) as [->|Hc]; [simpl in Hl; lia | done | done | done | |].
    + apply (hash_binds _ _ (level_inputs l2) (level_inputs l2)) in He as [He|]; [left|by right].
      apply app_inj_1 in He as [-> ->]; unfold digest in *; congruence.
    + right. eapply collides_mono; [exact Hc | |]; intros z Hz; by right.
Qed.

Lemma merkle_loop_total fuel l :
  l <> [] -> (length l <= fuel)%nat -> is_Some (merkle_loop sha256 fuel l).
Proof.
  revert l. induction fuel as [|fuel IH]; intros l Hne Hl.
  - destruct l; [done | simpl in Hl; lia].
  - destruct l as [|x [|y l]]; [done | by eexists |]. cbn [merkle_loop].
    pose proof (merkle_level_length (x :: y :: l)) as [H1 _].
    apply IH; [done|]. cbn [length] in *. lia.
Qed.

Lemma merkle_loop_binds fuel l1 l2 r :
  length l1 = length l2 -> Forall digest l1 -> Forall digest l2 ->
  merkle_loop sha256 fuel l1 = Some r -> merkle_loop sha256 fuel l2 = Some r ->
  l1 = l2 \/ collides (loop_inputs fuel l1) (loop_inputs fuel l2).
Proof.
  revert l1 l2. induction fuel as [|fuel IH]; intros l1 l2 Hl H1 H2 E1 E2; [discriminate|].
  destruct l1 as [|x1 [|y1 l1]], l2 as [|x2 [|y2 l2]]; try discriminate.
  - simpl in *. left. congruence.
  - cbn [merkle_loop] in E1, E2. cbn [loop_inputs].
    pose proof (merkle_level_length (x1 :: y1 :: l1)) as L1.
    pose proof (merkle_level_length (x2 :: y2 :: l2)) as L2.
    destruct (IH (merkle_level sha256 (x1 :: y1 :: l1)) (merkle_level sha256 (x2 :: y2 :: l2))
      ltac:(rewrite <- Hl in L2; lia) (merkle_level_digests _) (merkle_level_digests _) E1 E2) as [He|Hc].
    + apply merkle_level_binds in He as [|Hc]; [by left| |done|done|done].
      right. eapply collides_mono; [exact Hc | |]; set_solver.
    + right. eapply collides_mono; [exact Hc | |]; set_solver.
Qed.

(** C6: the Merkle root binds the leaves: two ranges of the same length with one
    root are the same range, or among the preimages the two computations hash
    there are two different ones with one SHA-256 digest. (The scheme duplicates
    the odd node, so the length is part of the claim; the verifier compares it
    before the root.) *)
Theorem merkle_root_binds_leaves l1 l2 :
  length l1 = length l2 -> Forall digest l1 -> Forall digest l2 ->
  MerkleRoot sha256 l1 = MerkleRoot sha256 l2 ->
  l1 = l2 \/ collides (MerkleInputs l1) (MerkleInputs l2).
Proof.
  intros Hl H1 H2 Heq. destruct l1 as [|x1 l1], l2 as [|x2 l2]; try discriminate; [by left|].
  unfold MerkleRoot in Heq. unfold MerkleInputs.
  destruct (merkle_loop_total (length (x1 :: l1)) (x1 :: l1)) as [r1 E1]; [done|done|].
  destruct (merkle_loop_total (length (x2 :: l2)) (x2 :: l2)) as [r2 E2]; [done|done|].
  rewrite E1, E2 in Heq. simpl in Heq. subst r2. rewrite <- Hl in E2 |- *.
  eapply merkle_loop_binds; eauto.
Qed.

End MerkleFacts.

(** ** The hash chain *)

Section ChainFacts.
Context (hmac_sha256 : bytes -> bytes -> bytes) (key : bytes).

(** C5: the verifier reads the chain in pages of [verifyBatchSize] rows, starting
    at a checkpoint, and its verdict is the right one: with a working database it
    always answers, it leaves the ledger alone, and it answers OK exactly when the
    retained entries form one unbroken, correctly hashed run from the checkpoint. *)
Theorem verifier_accepts_exactly_linked_chains t c cp s :
  keyed (sdb s) -> 1 <= cp_Seq cp -> (forall n, sfail s n = false) ->
  exists s' v, VerifyChainFrom hmac_sha256 key t c cp s = (s', Ok v) /\ sdb s' = sdb s
  /\ (vr_OK v = true <->
      exists q, linked hmac_sha256 key (cp_PrevHash cp) (cp_Seq cp)
                  (entries_after (sdb s) t c (cp_Seq cp - 1)) q)
  /\ (vr_OK v = true ->
      vr_VerifiedThrough v = cp_Seq cp - 1 + Z.of_nat (length (entries_after (sdb s) t c (cp_Seq cp - 1)))).
Proof.
  intros Hk H1 Hf. pose proof (VerifyChainFrom_reads hmac_sha256 key t c cp s Hk H1) as Hr.
  apply reads_ok in Hr as (s' & Hrun & Hdb); [|done]. eexists s', _.
  split; [exact Hrun|]. split; [done|]. apply verify_once_ok.
Qed.

(** The preimages hashed along a run. *)
Fixpoint chain_inputs (s : Z) (p : bytes) (es : list AuditEntry) : list bytes :=
  match es with
  | [] => []
  | e :: es' => (be64 s ++ p ++ n_Payload e) :: chain_inputs (s + 1) (n_EntryHash e) es'
  end.

Lemma linked_bound p1 p2 s es1 es2 q :
  (forall m, digest (hmac_sha256 key m)) -> digest p1 -> digest p2 -> length es1 = length es2 ->
  linked hmac_sha256 key p1 s es1 q -> linked hmac_sha256 key p2 s es2 q ->
  (p1 = p2 /\ map n_Payload es1 = map n_Payload es2)
  \/ collides (hmac_sha256 key) (chain_inputs s p1 es1) (chain_inputs s p2 es2).
Proof.
  intros Hlen. revert p1 p2 s es2. induction es1 as [|e1 es1 IH]; intros p1 p2 s [|e2 es2] Hp1 Hp2 Hl H1 H2;
    try discriminate.
  - left. inversion H1; inversion H2; subst. done.
  - inversion H1 as [|? ? ? ? ? Hs1 Hq1 Hh1 Ht1]; inversion H2 as [|? ? ? ? ? Hs2 Hq2 Hh2 Ht2]; subst.
    unfold ComputeEntryHash in *. cbn [chain_inputs map].
    destruct (IH (n_EntryHash e1) (n_EntryHash e2) (n_Seq e1 + 1) es2) as [[He Hes]|Hc];
      [by rewrite Hh1 | by rewrite Hh2 | by injection Hl | done | done | |].
    + rewrite Hh1, Hh2 in He.
      apply (hash_binds _ _ _ (chain_inputs (n_Seq e1 + 1) (n_EntryHash e1) es1)
               (chain_inputs (n_Seq e1 + 1) (n_EntryHash e2) es2)) in He as [He|]; [left|by right].
      apply app_inv_head in He. apply app_inj_1 in He as [Hp Hpay]; [|unfold digest in *; congruence].
      split; [done | congruence].
    + right. eapply collides_mono; [exact Hc | |]; intros z Hz; by right.
Qed.

(** C4: tamper evidence. Two ledgers whose chain both verifies from one checkpoint
    through the same sequence number, and whose last entries carry the same hash
    (the one an anchor or the head recorded), hold the same payloads in the same
    order, or the two verifications exhibit two different HMAC inputs with one
    digest. *)
Theorem verified_history_is_bound t c cp s1 s1' v1 s2 s2' v2 e1 e2 :
  (forall m, digest (hmac_sha256 key m)) -> digest (cp_PrevHash cp) ->
  keyed (sdb s1) -> keyed (sdb s2) -> 1 <= cp_Seq cp ->
  VerifyChainFrom hmac_sha256 key t c cp s1 = (s1', Ok v1) -> vr_OK v1 = true ->
  VerifyChainFrom hmac_sha256 key t c cp s2 = (s2', Ok v2) -> vr_OK v2 = true ->
  vr_VerifiedThrough v1 = vr_VerifiedThrough v2 ->
  last (entries_after (sdb s1) t c (cp_Seq cp - 1)) = Some e1 ->
  last (entries_after (sdb s2) t c (cp_Seq cp - 1)) = Some e2 ->
  n_EntryHash e1 = n_EntryHash e2 ->
  map n_Payload (entries_after (sdb s1) t c (cp_Seq cp - 1))
  = map n_Payload (entries_after (sdb s2) t c (cp_Seq cp - 1))
  \/ collides (hmac_sha256 key)
       (chain_inputs (cp_Seq cp) (cp_PrevHash cp) (entries_after (sdb s1) t c (cp_Seq cp - 1)))
       (chain_inputs (cp_Seq cp) (cp_PrevHash cp) (entries_after (sdb s2) t c (cp_Seq cp - 1))).
Proof.
  intros Hlen Hp Hk1 Hk2 H1 Hr1 Ho1 Hr2 Ho2 Hthrough He1 He2 Heq.
  destruct (verified_linked _ _ _ _ _ _ _ _ Hk1 H1 Hr1 Ho1) as (q1 & Hl1 & Hn1).
  destruct (verified_linked _ _ _ _ _ _ _ _ Hk2 H1 Hr2 Ho2) as (q2 & Hl2 & Hn2).
  assert (q1 = q2) as ->.
  { apply last_Some in He1 as (es1 & Hes1), He2 as (es2 & Hes2).
    rewrite Hes1 in Hl1. rewrite Hes2 in Hl2. apply linked_last in Hl1, Hl2. congruence. }
  assert (length (entries_after (sdb s1) t c (cp_Seq cp - 1))
          = length (entries_after (sdb s2) t c (cp_Seq cp - 1))) as Hn by lia.
  destruct (linked_bound _ _ _ _ _ _ Hlen Hp Hp Hn Hl1 Hl2) as [[_ ?]|?]; [by left | by right].
Qed.
(** Deleting the newest entry of a chain goes unnoticed by the chain
    verifier: with the row gone the chain still verifies, one number shorter,
    although the chain head still records it (the head is not compared). *)
Theorem newest_entry_deletion_undetected floor t c s es e :
  keyed (sdb s) -> (forall n, sfail s n = false) ->
  chain_ok hmac_sha256 key floor (sdb s) t c -> chain_entries (sdb s) t c = es ++ [e] ->
  let cut := mkStore (set_entries (delete (t, c, n_Seq e)) (sdb s)) (sfail s) (scalls s) in
  exists s', VerifyChainFrom hmac_sha256 key t c floor cut
             = (s', Ok (mkVR true (h_LastSeq (head_for (sdb cut) t c) - 1) 0 "")).
Proof.
  intros Hk Hf (H1 & Hl & Hs & _) Hes cut.
  assert (keyed (sdb cut)) as Hk' by (intros k x Hx; apply (lookup_delete_Some (entries (sdb s))) in Hx as [_ Hx]; by apply Hk).
  assert (StronglySorted seq_lt (es ++ [e])) as Hsort by (rewrite <- Hes; by apply chain_entries_sorted).
  assert (chain_entries (sdb cut) t c = es) as Hcut.
  { apply chain_entries_unique; [done | by apply StronglySorted_app_1_l in Hsort|]. intros x. cbn.
    rewrite lookup_delete_Some, <- chain_entries_elem, Hes, elem_of_app, list_elem_of_singleton by done.
    split; [|naive_solver]. intros Hx. split; [|by left]. intros Heq. simplify_eq.
    pose proof (StronglySorted_app_1_elem_of _ _ _ _ e Hsort Hx ltac:(by left)) as Hlt. unfold seq_lt in Hlt. lia. }
  destruct (reads_ok _ _ _ (VerifyChainFrom_reads hmac_sha256 key t c floor cut Hk' H1) Hf) as (s' & Hrun & _).
  exists s'. rewrite Hrun. do 2 f_equal. rewrite Hes in Hl, Hs. apply linked_app_inv in Hl as (r & Hl & _).
  unfold verify_once, entries_after. rewrite Hcut, filter_all
    by (intros x Hx; pose proof (linked_seq_bounds _ _ _ _ _ _ _ Hl Hx); lia).
  rewrite (proj2 (verify_batch_linked _ _ _ _ _ _ _) (conj Hl eq_refl)). f_equal.
  rewrite length_app in Hs. change (head_for (sdb cut) t c) with (head_for (sdb s) t c). simpl in Hs. lia.
Qed.
End ChainFacts.

(** ** The ledger as a system *)

Section System.
Context (hmac_sha256 : bytes -> bytes -> bytes) (sha256 : bytes -> bytes).
Context {priv_key pub_key : Type} (ed25519_sign : priv_key -> bytes -> bytes)
        (ed25519_verify : pub_key -> bytes -> bytes -> bool).
Context {JMap : Type} (json_empty : JMap) (json_marshal_map : JMap -> option bytes)
        (json_unmarshal_map : bytes -> option JMap) (format_rfc3339 : Z -> string)
        (CanonicalJSON : ChainPayload JMap -> option bytes).
Context (key : bytes) (chainKeyID : string) (priv : priv_key) (anchorKeyID : string)
        (keys : gmap string pub_key).

Definition empty_ledger : Ledger := mkLedger ∅ ∅ ∅ ∅ ∅.

(** One run of one of the ledger's workers, whatever it returned and whatever
    statements the driver failed. *)
Inductive audit_step : Ledger -> Ledger -> Prop :=
| step_capture s s' r newID now actor ev :
    Capture JMap json_empty json_marshal_map newID now actor ev s = (s', r) ->
    audit_step (sdb s) (sdb s')
| step_chain s s' r now limit :
    ProcessBatch hmac_sha256 JMap json_unmarshal_map format_rfc3339 CanonicalJSON
      key chainKeyID now limit s = (s', r) ->
    audit_step (sdb s) (sdb s')
| step_anchor s s' r sink ids now :
    AnchorAll sha256 priv_key ed25519_sign priv anchorKeyID sink ids now s = (s', r) ->
    audit_step (sdb s) (sdb s')
| step_prune s s' r newID now cutoff :
    PruneChainsBefore priv_key ed25519_sign priv anchorKeyID newID now cutoff s = (s', r) ->
    audit_step (sdb s) (sdb s').

Abbreviation inv := (audit_inv hmac_sha256 key sha256 ed25519_verify keys).

Lemma ledger_empty_inv : inv empty_ledger.
Proof.
  split; [intros k e; cbn; by rewrite lookup_empty|]. intros t c.
  assert (chain_entries empty_ledger t c = []) as He by done.
  assert (live_anchors empty_ledger t c = []) as Hl by done.
  assert (head_for empty_ledger t c = mkHead t c 0 GenesisPrevHash 0) as Hh by done.
  assert (floor_of empty_ledger t c = GenesisCheckpoint) as Hf by done.
  unfold chain_inv, chain_ok. rewrite He, Hl, Hh, Hf. split_and!; try done.
  - constructor.
  - apply (anchored_nil _ _ _ _ _ _ 1).
Qed.

Lemma capture_inv newID now actor ev s s' r :
  inv (sdb s) -> Capture JMap json_empty json_marshal_map newID now actor ev s = (s', r) -> inv (sdb s').
Proof.
  intros Hinv Hrun. unfold Capture in Hrun. destruct r; minv Hrun; try exact Hinv.
  destruct Hinv as [Hk Hinv]. split; [done|]. intros t c. by apply (chain_inv_ext _ _ _ _ _ (sdb s)).
Qed.

Lemma step_inv pub l l' :
  keys !! anchorKeyID = Some pub -> (forall m, ed25519_verify pub m (ed25519_sign priv m) = true) ->
  audit_step l l' -> inv l -> inv l'.
Proof.
  intros Hkey Hsign [s s' r newID now actor ev Hrun|s s' r now limit Hrun
    |s s' r sink ids now Hrun|s s' r newID now cutoff Hrun] Hinv.
  - by eapply capture_inv.
  - by eapply ProcessBatch_inv.
  - by eapply AnchorAll_inv.
  - by eapply PruneChainsBefore_inv.
Qed.

(** C3: the audit ledger always verifies. Start from an empty ledger and let
    capture, the chainer, the anchorer and the retention pruner run in any order,
    any number of times, with any statement of theirs failing at any point. The
    [verify-audit] command then accepts the ledger: every chain verifies from its
    signed floor and every anchor over what is retained has the right range, link,
    signature and Merkle root. (Checkpoint-only mode: no external sink; the
    signing key is the registered one and its signatures verify.) *)
Theorem audit_ledger_always_verifies pub l s :
  key <> [] -> keys !! anchorKeyID = Some pub ->
  (forall m, ed25519_verify pub m (ed25519_sign priv m) = true) ->
  rtc audit_step empty_ledger l -> sdb s = l -> (forall n, sfail s n = false) ->
  exists s', runVerifyAudit hmac_sha256 sha256 pub_key ed25519_verify key None keys s = (s', Ok tt)
             /\ sdb s' = l.
Proof.
  intros Hne Hkey Hsign Hsteps Hs Hf.
  assert (inv l) as Hinv.
  { eapply rtc_invariant; [|exact Hsteps | apply ledger_empty_inv]. intros l1 l2. by apply (step_inv pub). }
  subst l. apply reads_ok; [|done]. by apply runVerifyAudit_reads.
Qed.

(** The rows [ProcessBatch] takes: the oldest [limit], in capture order. *)
Definition batch_of (l : Ledger) (limit : nat) : list AuditPending :=
  take limit (merge_sort pending_older (map_to_list (pending l)).*2).

(** The chainer loses nothing, duplicates nothing and reorders nothing. A
    successful batch appends to each chain exactly one entry per captured row of
    that chain, in capture order and with that row's canonical payload, and
    removes exactly those rows from the pending table; a failed one changes
    nothing. *)
Theorem chainer_records_every_row_once now limit s s' r :
  inv (sdb s) ->
  ProcessBatch hmac_sha256 JMap json_unmarshal_map format_rfc3339 CanonicalJSON
    key chainKeyID now limit s = (s', r) ->
  match r with
  | Ok n =>
      n = Z.of_nat (length (batch_of (sdb s) limit))
      /\ extends json_unmarshal_map format_rfc3339 CanonicalJSON (batch_of (sdb s) limit) (sdb s) (sdb s')
      /\ pending (sdb s') = foldl (fun m p => delete (p_ID p) m) (pending (sdb s)) (batch_of (sdb s) limit)
      /\ anchors (sdb s') = anchors (sdb s) /\ checkpoints (sdb s') = checkpoints (sdb s)
  | Err _ => sdb s' = sdb s
  end.
Proof.
  intros [Hk Hinv] Hrun. unfold ProcessBatch in Hrun. destruct r as [n|e]; [|by apply txn_err in Hrun].
  apply txn_ok in Hrun as (s1 & Hrun & ->). minv Hrun.
  apply chain_rows_ok with (floor := floor_of (sdb s)) in Hrun as (_ & Hext & -> & Hp & Ha & Hc); [done|].
  split; [done|]. intros t c. apply Hinv.
Qed.

(** Retention is bounded by the anchors. A prune of one chain either changes
    nothing, or reports [through], which is at most the cutoff and at most what
    the newest anchor covers; then exactly the chain's entries up to [through] are
    gone, the stored floor is the hash of the last one removed, and no other
    chain, head or anchor has changed. A failed prune changes nothing. *)
Theorem prune_deletes_only_anchored_history newID now t c cutoff s s' r :
  keyed (sdb s) ->
  PruneChain priv_key ed25519_sign priv anchorKeyID newID now t c cutoff s = (s', r) ->
  sdb s' = sdb s
  \/ exists pr boundary, r = Ok pr
     /\ 1 <= pr_PrunedThroughSeq pr <= Z.min cutoff (anchored_through (sdb s) t c)
     /\ entries (sdb s) !! (t, c, pr_PrunedThroughSeq pr) = Some boundary
     /\ chain_entries (sdb s') t c = entries_after (sdb s) t c (pr_PrunedThroughSeq pr)
     /\ floor_of (sdb s') t c = mkCheckpoint (pr_PrunedThroughSeq pr + 1) (n_EntryHash boundary)
     /\ (forall t' c', (t', c') <> (t, c) ->
          chain_entries (sdb s') t' c' = chain_entries (sdb s) t' c'
          /\ floor_of (sdb s') t' c' = floor_of (sdb s) t' c')
     /\ heads (sdb s') = heads (sdb s) /\ anchors (sdb s') = anchors (sdb s).
Proof.
  intros Hk Hrun. apply PruneChain_run in Hrun as [->|(a & id & e & n & Ha & -> & H1 & He & ->)]; [by left|].
  right. eexists _, e. split; [done|]. unfold anchored_through. rewrite Ha. cbn [pr_PrunedThroughSeq].
  split_and!; [lia | lia | done | by apply pruned_entries | | | done | done].
  - unfold floor_of. cbn. by rewrite lookup_insert_eq.
  - intros t' c' Hne. split; [by apply pruned_entries_other|].
    unfold floor_of. cbn. by rewrite lookup_insert_ne by congruence.
Qed.
End System.

(** ** The external witness *)

Section Sink.
Context (sha256 : bytes -> bytes) {pub_key : Type} (ed25519_verify : pub_key -> bytes -> bytes -> bool)
        (keys : gmap string pub_key).

Lemma find_none_all {A} (f : A -> bool) xs : find f xs = None -> forall x, x ∈ xs -> f x = false.
Proof. intros Hf x Hx. eapply find_none; [done | by apply list_elem_of_In]. Qed.

Lemma maxDBToSeqAt_cover ans from th :
  maxDBToSeqAt ans from = Some th -> exists a, a ∈ ans /\ an_FromSeq a = from /\ an_ToSeq a = th.
Proof.
  unfold maxDBToSeqAt. induction ans as [|x ans IH] using rev_ind; [discriminate|].
  rewrite foldl_app. cbn [foldl]. destruct (_ && _) eqn:Hx; intros Hm; to_prop.
  - simplify_eq. exists x. split; [set_solver | done].
  - destruct (IH Hm) as (a & Ha & Hrest). exists a. split; [set_solver | done].
Qed.

(** The sink cross-check. When the verification against the external witness
    answers OK, every anchor row of the chain has a copy in the witness with the
    same range, root and signature, and every record of the chain in the witness
    is accounted for by an anchor row that starts where it starts and reaches at
    least as far: neither a forged nor a deleted nor a narrowed row passes. *)
Theorem sink_check_catches_rewritten_anchors sinkAll t c from s s' res :
  VerifyAnchorsWithSinkFrom sha256 pub_key ed25519_verify (Some sinkAll) keys t c from s = (s', Ok res) ->
  avr_OK res = true ->
  (forall a, a ∈ chain_anchors (sdb s') t c ->
     exists r, r ∈ sinkAll /\ ar_TenantID r = t /\ ar_ChainClass r = c
       /\ ar_FromSeq r = an_FromSeq a /\ ar_ToSeq r = an_ToSeq a
       /\ ar_MerkleRoot r = an_MerkleRoot a /\ ar_Signature r = an_Signature a)
  /\ (forall r, r ∈ sinkAll -> ar_TenantID r = t -> ar_ChainClass r = c ->
     exists a, a ∈ chain_anchors (sdb s') t c
       /\ an_FromSeq a = ar_FromSeq r /\ ar_ToSeq r <= an_ToSeq a).
Proof.
  intros Hrun Hok. unfold VerifyAnchorsWithSinkFrom in Hrun.
  apply bind_ok in Hrun as (r0 & s1 & _ & Hrun). minv Hrun; to_prop;
    try (cbn in Hok; congruence).
  split.
  - intros a Ha.
    assert (a ∈ merge_sort from_le (chain_anchors (sdb s1) t c)) as Hin by by rewrite merge_sort_Permutation.
    apply (find_none_all _ _ Hc0) in Hin. unfold sink_mismatch, sink_lookup in Hin.
    case_match eqn:Hlast; [|discriminate]. to_prop. apply last_Some_elem_of, list_elem_of_filter in Hlast as [Hkey Hr].
    apply list_elem_of_filter in Hr as [[Ht' Hc'] Hr]. naive_solver.
  - intros r Hr Ht Hcl.
    assert (r ∈ filter (fun r => ar_TenantID r = t /\ ar_ChainClass r = c) sinkAll) as Hin
      by by apply list_elem_of_filter.
    apply (find_none_all _ _ Hc1) in Hin. unfold sink_orphan in Hin. apply andb_false_iff in Hin as [Hin|Hin].
    + to_prop. apply existsb_exists in Hin as (a & Ha & Heq). to_prop. exists a.
      apply list_elem_of_In in Ha. rewrite merge_sort_Permutation in Ha. split_and!; [done | done | lia].
    + destruct (maxDBToSeqAt _ _) as [th|] eqn:Hm; [|discriminate]. to_prop.
      apply maxDBToSeqAt_cover in Hm as (a & Ha & Hf & Hto). rewrite merge_sort_Permutation in Ha.
      exists a. split_and!; [done | done | lia].
Qed.
End Sink.

(** ** A small ledger

    Toy primitives that satisfy what the theorems assume of the real ones: 32-byte
    digests, signatures that verify. *)
Module AuditDemo.

Definition hash32 (m : bytes) : bytes := take 32 (rev m ++ replicate 32 0).
Definition hmac (k m : bytes) : bytes := hash32 (m ++ k).
Definition sign (_ : unit) (m : bytes) : bytes := m.
Definition verify (_ : unit) (m sig : bytes) : bool := bool_decide (m = sig).
Definition canonical (y : ChainPayload bytes) : option bytes := Some (str_bytes (y_EventType bytes y)).
Definition fmt (_ : Z) : string := "".
Definition keys : gmap string unit := {[ "k1"%string := tt ]}.
Definition key : bytes := [7].

Lemma hash32_digest m : digest (hash32 m).
Proof. unfold digest, hash32. rewrite length_take, length_app, length_replicate. lia. Qed.

Lemma verify_sign m : verify tt m (sign tt m) = true.
Proof. unfold verify, sign. by apply bool_decide_eq_true_2. Qed.

Definition actor : Actor := mkActor 1 5 "user" "ada" "10.0.0.1" "curl" "s1".
Definition event (ty : string) : Event bytes :=
  mkEvent "data" ty "user" 9 None (Some [1; 2]) None "bob" "" "".

Definition store (l : Ledger) : Store Ledger := mkStore l (fun _ => false) 0.
Definition capture id ty s := (Capture bytes [] Some id 100 actor (event ty) s).1.
Definition chain s := (ProcessBatch hmac bytes Some fmt canonical key "c1" 200 10 s).1.
Definition anchor id s := (AnchorAll hash32 unit sign tt "k1" None (fun i => id + Z.of_nat i) 300 s).1.
Definition prune id s := (PruneChainsBefore unit sign tt "k1" id 400 350 s).1.

Definition s1 := capture 12 "login" (capture 11 "create" (store empty_ledger)).
Definition s2 := chain s1.
Definition s3 := anchor 31 s2.
Definition s4 := prune 41 s3.
Definition s5 := anchor 32 (chain (capture 13 "logout" s4)).

(** Two rows chained and anchored, both pruned, a third one chained and anchored. *)
Example demo_shape :
  map n_Seq (chain_entries (sdb s3) 1 "data") = [1; 2]
  /\ map n_Seq (chain_entries (sdb s5) 1 "data") = [3]
  /\ cp_Seq (floor_of (sdb s5) 1 "data") = 3 /\ anchored_through (sdb s5) 1 "data" = 3.
Proof. vm_compute. auto. Qed.

Abbreviation step := (audit_step hmac hash32 sign [] Some Some fmt canonical key "c1" tt "k1").

Lemma capture_step id ty s : step (sdb s) (sdb (capture id ty s)).
Proof. eapply step_capture, surjective_pairing. Qed.
Lemma chain_step s : step (sdb s) (sdb (chain s)).
Proof. eapply step_chain, surjective_pairing. Qed.
Lemma anchor_step id s : step (sdb s) (sdb (anchor id s)).
Proof. eapply step_anchor, surjective_pairing. Qed.
Lemma prune_step id s : step (sdb s) (sdb (prune id s)).
Proof. eapply step_prune, surjective_pairing. Qed.

Lemma demo_reachable : rtc step empty_ledger (sdb s5).
Proof.
  unfold s5, s4, s3, s2, s1.
  eapply rtc_l; [apply (capture_step 11 "create" (store empty_ledger))|].
  eapply rtc_l; [apply (capture_step 12 "login")|].
  eapply rtc_l; [apply chain_step|]. eapply rtc_l; [apply (anchor_step 31)|].
  eapply rtc_l; [apply (prune_step 41)|]. eapply rtc_l; [apply (capture_step 13 "logout")|].
  eapply rtc_l; [apply chain_step|]. eapply rtc_l; [apply (anchor_step 32)|]. apply rtc_refl.
Qed.

Lemma audit_ledger_always_verifies_witness :
  exists s', runVerifyAudit hmac hash32 unit verify key None keys s5 = (s', Ok tt)
             /\ sdb s' = sdb s5.
Proof.
  apply (audit_ledger_always_verifies hmac hash32 sign verify [] Some Some fmt canonical key "c1" tt "k1"
           keys tt (sdb s5) s5).
  - discriminate.
  - reflexivity.
  - exact verify_sign.
  - exact demo_reachable.
  - reflexivity.
  - intros n. vm_compute. reflexivity.
Defined.

Lemma demo_keyed : keyed (sdb s5).
Proof.
  assert (entries (sdb s5) = {[ (1, "data"%string, 3) := default (mkEntry 0 "" 0 [] [] "" [] false 0)
    (entries (sdb s5) !! (1, "data"%string, 3)) ]}) as He by (vm_compute; reflexivity).
  intros k e Hk. rewrite He in Hk. apply lookup_singleton_Some in Hk as [<- <-]. vm_compute. reflexivity.
Qed.

Lemma demo_floor : floor_of (sdb s5) 1 "data" = mkCheckpoint 3 (cp_PrevHash (floor_of (sdb s5) 1 "data")).
Proof. vm_compute. reflexivity. Qed.

Lemma verifier_witness :
  exists s' v, VerifyChainFrom hmac key 1 "data" (floor_of (sdb s5) 1 "data") s5 = (s', Ok v)
  /\ sdb s' = sdb s5.
Proof.
  destruct (verifier_accepts_exactly_linked_chains hmac key 1 "data" (floor_of (sdb s5) 1 "data")
    s5) as (s' & v & Hrun & Hdb & _).
  - exact demo_keyed.
  - rewrite demo_floor. cbn. lia.
  - intros n. vm_compute. reflexivity.
  - exists s', v. exact (conj Hrun Hdb).
Defined.

Lemma demo_keyed3 : keyed (sdb s3).
Proof.
  intros k e Hk.
  assert (forallb (fun '((t, c, n), e) => (t =? n_TenantID e) && bool_decide (c = n_ChainClass e)
            && (n =? n_Seq e)) (map_to_list (entries (sdb s3))) = true) as Hall by (vm_compute; reflexivity).
  rewrite forallb_forall in Hall. apply elem_of_map_to_list, list_elem_of_In, Hall in Hk.
  destruct k as [[t c] n]. to_prop. congruence.
Qed.

(** The two rows and their payloads are what the last hash of [s3] binds. *)
Lemma verified_history_is_bound_witness :
  map n_Payload (entries_after (sdb s3) 1 "data" 0) = map n_Payload (entries_after (sdb s3) 1 "data" 0)
  \/ collides (hmac key) (chain_inputs 1 GenesisPrevHash (entries_after (sdb s3) 1 "data" 0))
       (chain_inputs 1 GenesisPrevHash (entries_after (sdb s3) 1 "data" 0)).
Proof.
  destruct (last (entries_after (sdb s3) 1 "data" 0)) as [e|] eqn:He;
    [|exfalso; revert He; vm_compute; discriminate].
  refine (verified_history_is_bound hmac key 1 "data" GenesisCheckpoint
    s3 _ (mkVR true 2 0 "") s3 _ (mkVR true 2 0 "") e e
    _ _ demo_keyed3 demo_keyed3 _ (run_result _ _ _ _) eq_refl (run_result _ _ _ _) eq_refl eq_refl He He eq_refl).
  - intros m. apply hash32_digest.
  - reflexivity.
  - cbn. lia.
  - vm_compute. reflexivity.
  - vm_compute. reflexivity.
Defined.

Lemma ledger_demo_inv : audit_inv hmac key hash32 verify keys (sdb s1).
Proof.
  unfold s1. eapply capture_inv; [|apply surjective_pairing].
  eapply capture_inv; [|apply surjective_pairing]. apply ledger_empty_inv.
Qed.

Lemma demo_chain_ok : chain_ok hmac key GenesisCheckpoint (sdb s2) 1 "data".
Proof.
  assert (audit_inv hmac key hash32 verify keys (sdb s2)) as [_ Hinv].
  { eapply ProcessBatch_inv; [exact ledger_demo_inv | apply surjective_pairing]. }
  destruct (Hinv 1 "data"%string) as [Hok _].
  replace (floor_of (sdb s2) 1 "data") with GenesisCheckpoint in Hok by (vm_compute; reflexivity).
  exact Hok.
Qed.

Lemma chainer_records_every_row_once_witness :
  map p_ID (batch_of (sdb s1) 10) = [11; 12]
  /\ extends Some fmt canonical (batch_of (sdb s1) 10) (sdb s1) (sdb s2).
Proof.
  split; [vm_compute; reflexivity|].
  apply (chainer_records_every_row_once hmac hash32 verify Some fmt canonical key "c1" keys 200 10 s1 s2 (Ok 2)).
  - exact ledger_demo_inv.
  - apply run_result. vm_compute. reflexivity.
Defined.

Lemma prune_witness :
  keyed (sdb s3)
  /\ (sdb (PruneChain unit sign tt "k1" 41 400 1 "data" 1 s3).1 = sdb s3
      \/ exists pr boundary,
           (PruneChain unit sign tt "k1" 41 400 1 "data" 1 s3).2 = Ok pr
           /\ entries (sdb s3) !! (1, "data"%string, pr_PrunedThroughSeq pr) = Some boundary).
Proof.
  split; [exact demo_keyed3|].
  destruct (prune_deletes_only_anchored_history hmac hash32 sign key tt "k1" 41 400 1 "data" 1 s3 _ _ demo_keyed3
    (surjective_pairing _)) as [H|(pr & b & Hr & _ & Hb & _)]; [left; exact H | right; exists pr, b].
  exact (conj Hr Hb).
Defined.

Lemma merkle_witness :
  [hash32 [1]] = [hash32 [1]] \/ collides hash32 (MerkleInputs hash32 [hash32 [1]]) (MerkleInputs hash32 [hash32 [1]]).
Proof.
  apply (merkle_root_binds_leaves hash32 hash32_digest).
  - reflexivity.
  - repeat constructor. 
  - repeat constructor.
  - reflexivity.
Defined.

(** The witness of the sink check: the anchor of [s3] and its copy. *)
Definition sink_copy : AnchorRecord :=
  match last_anchor (chain_anchors (sdb s3) 1 "data") with
  | Some a => mkAnchorRecord 1 "data" 1 2 (an_MerkleRoot a) (an_Signature a) "k1" 300
  | None => mkAnchorRecord 0 "" 0 0 [] [] "" 0
  end.

Lemma sink_witness :
  exists a, a ∈ chain_anchors (sdb (VerifyAnchorsWithSinkFrom hash32 unit verify (Some [sink_copy]) keys
                                      1 "data" 1 s3).1) 1 "data"
    /\ an_FromSeq a = ar_FromSeq sink_copy /\ ar_ToSeq sink_copy <= an_ToSeq a.
Proof.
  refine (proj2 (sink_check_catches_rewritten_anchors hash32 verify keys [sink_copy] 1 "data" 1
    s3 _ (mkAVR true 2 0 "") (run_result _ _ _ _) eq_refl) sink_copy _ _ _).
  - vm_compute. reflexivity.
  - left.
  - vm_compute. reflexivity.
  - vm_compute. reflexivity.
Defined.

Lemma newest_entry_deletion_undetected_witness :
  exists s', VerifyChainFrom hmac key 1 "data" GenesisCheckpoint
    (mkStore (set_entries (delete (1, "data"%string, 2)) (sdb s2)) (sfail s2) (scalls s2))
    = (s', Ok (mkVR true 1 0 "")).
Proof.
  assert (keyed (sdb s2)) as Hk.
  { intros k e He. apply (demo_keyed3 k e). exact He. }
  assert (exists e1 e2, chain_entries (sdb s2) 1 "data" = [e1] ++ [e2] /\ n_Seq e2 = 2) as (e1 & e2 & Hes & H2).
  { vm_compute. eexists _, _. split; reflexivity. }
  pose proof (newest_entry_deletion_undetected hmac key GenesisCheckpoint 1 "data" s2 [e1] e2 Hk) as Hth.
  cbv zeta in Hth. rewrite H2 in Hth. cbn [sdb] in Hth.
  change (h_LastSeq (head_for (set_entries (delete (1, "data"%string, 2)) (sdb s2)) 1 "data") - 1) with 1 in Hth.
  apply Hth; [intros n; vm_compute; reflexivity | | exact Hes].
  apply demo_chain_ok.
Defined.

Lemma anchor_message_witness :
  (1, "data"%string, 1, 2, GenesisPrevHash, [3]) = (1, "data"%string, 1, 2, GenesisPrevHash, [3]).
Proof.
  apply anchor_message_injective.
  - unfold anchor_fields_ok, in_int64, int64_min, int64_max. cbn. lia.
  - unfold anchor_fields_ok, in_int64, int64_min, int64_max. cbn. lia.
  - reflexivity.
Defined.
End AuditDemo.
