(* ===== verification/Statements.v ===== *)
(** * Statements: SQL statements and what an operation made of them promises

    One statement reads ([select]), writes ([exec]) or writes under constraints
    ([exec_or]); the driver may fail any. [on_db P m Q]: from a database that satisfies [P], [m] ends in a database and a
    result that satisfy [Q]. The rules follow the structure of the code. *)

From S2P Require Import Prelude.
#[global] Open Scope Z_scope.

Section Ops.
Context {D E : Type} (errDB : E).

Definition select {A} (f : D -> A) : M (Store D) E A := let! d := query errDB in ret (f d).
Definition exec (f : D -> D) : M (Store D) E unit := let! _ := query errDB in write f.
(** An UPDATE, INSERT or DELETE that may violate a constraint: its error then. *)
Definition exec_or (f : D -> res E D) : M (Store D) E unit :=
  let! d := query errDB in match f d with Ok d' => write (fun _ => d') | Err e => throw e end.
End Ops.

Section Triples.
Context {D E : Type}.
Implicit Types P : D -> Prop.

Definition on_db {A} P (m : M (Store D) E A) (Q : D -> res E A -> Prop) : Prop :=
  forall s, P (sdb s) -> Q (sdb (m s).1) (m s).2.

Lemma on_db_ret {A} P (a : A) Q : (forall d, P d -> Q d (Ok a)) -> on_db P (ret a) Q.
Proof. intros H s. apply H. Qed.

Lemma on_db_throw {A} P e (Q : D -> res E A -> Prop) : (forall d, P d -> Q d (Err e)) -> on_db P (throw e) Q.
Proof. intros H s. apply H. Qed.

Lemma on_db_guard P b e Q :
  (forall d, P d -> b = true -> Q d (Err e)) -> (forall d, P d -> b = false -> Q d (Ok tt)) -> on_db P (guard b e) Q.
Proof. intros H1 H2 s Hs. unfold guard. destruct b; [by apply H1 | by apply H2]. Qed.

Lemma on_db_bind {A B} P (m : M (Store D) E A) (k : A -> M (Store D) E B) R Q :
  on_db P m R -> (forall a, on_db (fun d => R d (Ok a)) (k a) Q) -> (forall d e, R d (Err e) -> Q d (Err e)) ->
  on_db P (bind m k) Q.
Proof.
  intros Hm Hk He s Hs. specialize (Hm s Hs). unfold bind.
  destruct (m s) as [s1 [a|e]]; [exact (Hk a s1 Hm) | by apply He].
Qed.

Lemma on_db_attempt {A B} P (m : M (Store D) E A) (k : res E A -> M (Store D) E B) R Q :
  on_db P m R -> (forall x, on_db (fun d => R d x) (k x) Q) -> on_db P (attempt m k) Q.
Proof. intros Hm Hk s Hs. specialize (Hm s Hs). unfold attempt. destruct (m s) as [s1 x]. exact (Hk x s1 Hm). Qed.

Lemma on_db_query P errDB Q :
  (forall d, P d -> Q d (Ok d)) -> (forall d, P d -> Q d (Err errDB)) -> on_db P (query errDB) Q.
Proof. intros H1 H2 s Hs. unfold query. cbn. destruct (sfail s (scalls s)); auto. Qed.

Lemma on_db_write P f Q : (forall d, P d -> Q (f d) (Ok tt)) -> on_db P (write f) Q.
Proof. intros H s. apply H. Qed.

Lemma on_db_gets {A} P (f : D -> A) Q : (forall d, P d -> Q d (Ok (f d))) -> on_db P (gets (fun s => f (sdb s))) Q.
Proof. intros H s. apply H. Qed.

Lemma on_db_txn {A} P errDB (body : M (Store D) E A) Q :
  (forall d, P d -> on_db (eq d) body (fun d' r => match r with Ok a => Q d' (Ok a) | Err e => Q d (Err e) end)) ->
  (forall d, P d -> Q d (Err errDB)) -> on_db P (txn errDB body) Q.
Proof.
  intros Hb He s Hs. specialize (Hb _ Hs s eq_refl). unfold txn, bind. destruct (body s) as [s1 [a|e]]; [|exact Hb].
  cbn. destruct (sfail s1 (scalls s1)); cbn; [by apply He | exact Hb].
Qed.

Lemma select_run {A} errDB (f : D -> A) (s : Store D) :
  select (E:=E) errDB f s = (mkStore (sdb s) (sfail s) (S (scalls s)),
                     if sfail s (scalls s) then Err errDB else Ok (f (sdb s))).
Proof. unfold select, bind, query. by destruct (sfail s (scalls s)). Qed.

Lemma exec_or_run errDB (f : D -> res E D) (s : Store D) :
  exec_or errDB f s =
  if sfail s (scalls s) then (mkStore (sdb s) (sfail s) (S (scalls s)), Err errDB) else
  match f (sdb s) with
  | Ok d' => (mkStore d' (sfail s) (S (scalls s)), Ok tt)
  | Err e => (mkStore (sdb s) (sfail s) (S (scalls s)), Err e)
  end.
Proof. unfold exec_or, bind, query. destruct (sfail s (scalls s)); [done|]. by destruct (f (sdb s)). Qed.

Lemma on_db_select {A} P errDB (f : D -> A) Q :
  (forall d, P d -> Q d (Ok (f d))) -> (forall d, P d -> Q d (Err errDB)) -> on_db P (select errDB f) Q.
Proof. intros H1 H2 s Hs. unfold select, bind, query. destruct (sfail s (scalls s)); cbn; auto. Qed.

Lemma on_db_exec P errDB (f : D -> D) Q :
  (forall d, P d -> Q (f d) (Ok tt)) -> (forall d, P d -> Q d (Err errDB)) -> on_db P (exec errDB f) Q.
Proof. intros H1 H2 s Hs. unfold exec, bind, query. destruct (sfail s (scalls s)); cbn; auto. Qed.

Lemma on_db_exec_or P errDB (f : D -> res E D) Q :
  (forall d d', P d -> f d = Ok d' -> Q d' (Ok tt)) -> (forall d e, P d -> f d = Err e -> Q d (Err e)) ->
  (forall d, P d -> Q d (Err errDB)) -> on_db P (exec_or errDB f) Q.
Proof.
  intros H1 H2 H3 s Hs. unfold exec_or, bind, query. destruct (sfail s (scalls s)); cbn; [auto|].
  destruct (f (sdb s)) eqn:Hf; cbn; eauto.
Qed.

Lemma on_db_weaken {A} P P' (m : M (Store D) E A) (Q Q' : D -> res E A -> Prop) :
  on_db P' m Q' -> (forall d, P d -> P' d) -> (forall d r, Q' d r -> Q d r) -> on_db P m Q.
Proof. intros Hm HP HQ s Hs. apply HQ, Hm, HP, Hs. Qed.

(** A pure fact of the precondition. *)
Lemma on_db_pre {A} P (m : M (Store D) E A) Q (F : Prop) :
  (forall d, P d -> F) -> (F -> on_db P m Q) -> on_db P m Q.
Proof. intros HF H s Hs. apply H; [by eapply HF | done]. Qed.

Lemma on_db_eq {A} P (m : M (Store D) E A) Q : (forall d, P d -> on_db (eq d) m Q) -> on_db P m Q.
Proof. intros H s Hs. by apply (H _ Hs). Qed.

(** An operation keeps [I], whether it succeeds or not. *)
Definition keeps {A} (I : D -> Prop) (m : M (Store D) E A) : Prop := on_db I m (fun d _ => I d).

Lemma keeps_bind {A B} I (m : M (Store D) E A) (k : A -> M (Store D) E B) :
  keeps I m -> (forall a, keeps I (k a)) -> keeps I (bind m k).
Proof. intros Hm Hk. eapply on_db_bind; [exact Hm | apply Hk | done]. Qed.

Lemma keeps_attempt {A B} I (m : M (Store D) E A) (k : res E A -> M (Store D) E B) :
  keeps I m -> (forall x, keeps I (k x)) -> keeps I (attempt m k).
Proof. intros Hm Hk. eapply on_db_attempt; [exact Hm | apply Hk]. Qed.

Lemma keeps_ret {A} I (a : A) : keeps I (ret a).
Proof. by apply on_db_ret. Qed.
Lemma keeps_throw {A} I e : keeps (A:=A) I (throw e).
Proof. by apply on_db_throw. Qed.
Lemma keeps_guard I b e : keeps I (guard b e).
Proof. by apply on_db_guard. Qed.
Lemma keeps_query I errDB : keeps I (query errDB).
Proof. by apply on_db_query. Qed.
Lemma keeps_gets {A} I (f : Store D -> A) : keeps I (gets f).
Proof. by intros s Hs. Qed.
Lemma keeps_write (I : D -> Prop) f : (forall d, I d -> I (f d)) -> keeps I (write f).
Proof. intros H. by apply on_db_write. Qed.
Lemma keeps_select {A} I errDB (f : D -> A) : keeps I (select errDB f).
Proof. by apply on_db_select. Qed.
Lemma keeps_exec (I : D -> Prop) errDB (f : D -> D) : (forall d, I d -> I (f d)) -> keeps I (exec errDB f).
Proof. intros H. by apply on_db_exec. Qed.
Lemma keeps_exec_or (I : D -> Prop) errDB (f : D -> res E D) :
  (forall d d', I d -> f d = Ok d' -> I d') -> keeps I (exec_or errDB f).
Proof. intros H. by apply on_db_exec_or. Qed.
Lemma keeps_txn {A} I errDB (body : M (Store D) E A) : keeps I body -> keeps I (txn errDB body).
Proof.
  intros Hb. apply on_db_txn; [|done]. intros d Hd. eapply on_db_weaken; [exact Hb | by intros ? <- |].
  by intros d' [a|e].
Qed.

Lemma keeps_run {A} I (m : M (Store D) E A) s : keeps I m -> I (sdb s) -> I (sdb (m s).1).
Proof. intros Hm Hs. by apply Hm. Qed.
End Triples.

#[export] Hint Resolve keeps_ret keeps_throw keeps_guard keeps_query keeps_gets keeps_select keeps_bind keeps_attempt keeps_txn : mxid.

(** ** Runs in which every statement is answered *)

Section Runs.
Context {D E : Type}.

Definition healthy (s : Store D) : Prop := forall n, sfail s n = false.
(** From the next statement on. *)
Definition healthy_from (s : Store D) : Prop := forall n, (scalls s <= n)%nat -> sfail s n = false.

(** From [w], [m] ends in [w'] with the result [r]. *)
Definition runs {A} (w : D) (m : M (Store D) E A) (r : res E A) (w' : D) : Prop :=
  forall s, healthy_from s -> sdb s = w -> exists n, (scalls s <= n)%nat /\ m s = (mkStore w' (sfail s) n, r).

Lemma healthy_now (s : Store D) : healthy s -> healthy_from s.
Proof. intros H n _. apply H. Qed.

Lemma healthy_later (s : Store D) w n : healthy_from s -> (scalls s <= n)%nat -> healthy_from (mkStore w (sfail s) n).
Proof. intros H Hn k Hk. cbn in *. apply H. lia. Qed.

Lemma runs_pure {A} w (m : M (Store D) E A) r w' :
  (forall f n, m (mkStore w f n) = (mkStore w' f n, r)) -> runs w m r w'.
Proof. intros H s _ <-. exists (scalls s). split; [lia|]. destruct s. apply H. Qed.

Lemma runs_ret {A} w (a : A) : runs w (ret a) (Ok a) w.
Proof. by apply runs_pure. Qed.
Lemma runs_throw {A} w e : runs (A:=A) w (throw e) (Err e) w.
Proof. by apply runs_pure. Qed.
Lemma runs_write w f : runs w (write f) (Ok tt) (f w).
Proof. by apply runs_pure. Qed.
Lemma runs_gets {A} w (f : D -> A) : runs w (gets (fun s => f (sdb s))) (Ok (f w)) w.
Proof. by apply runs_pure. Qed.

Lemma runs_bind {A B} w (m : M (Store D) E A) (k : A -> M (Store D) E B) a w1 r w2 :
  runs w m (Ok a) w1 -> runs w1 (k a) r w2 -> runs w (bind m k) r w2.
Proof.
  intros Hm Hk s Hs Hw. destruct (Hm s Hs Hw) as (n & Hle & Hn). rewrite (bind_ok_run _ _ _ _ _ Hn).
  destruct (Hk (mkStore w1 (sfail s) n) (healthy_later _ _ _ Hs Hle) eq_refl) as (n' & Hle' & Hr).
  exists n'. split; [cbn in Hle'; lia | exact Hr].
Qed.

Lemma runs_attempt {A B} w (m : M (Store D) E A) (k : res E A -> M (Store D) E B) x w1 r w2 :
  runs w m x w1 -> runs w1 (k x) r w2 -> runs w (attempt m k) r w2.
Proof.
  intros Hm Hk s Hs Hw. destruct (Hm s Hs Hw) as (n & Hle & Hn). unfold attempt. rewrite Hn.
  destruct (Hk (mkStore w1 (sfail s) n) (healthy_later _ _ _ Hs Hle) eq_refl) as (n' & Hle' & Hr).
  exists n'. split; [cbn in Hle'; lia | exact Hr].
Qed.

Lemma runs_query w errDB : runs w (query errDB) (Ok w) w.
Proof. intros s Hs <-. unfold query. rewrite (Hs (scalls s)) by lia. exists (S (scalls s)). split; [lia | done]. Qed.

Lemma runs_select {A} w errDB (f : D -> A) : runs w (select errDB f) (Ok (f w)) w.
Proof. eapply runs_bind; [apply runs_query | apply runs_ret]. Qed.

Lemma runs_exec w errDB f : runs w (exec errDB f) (Ok tt) (f w).
Proof. eapply runs_bind; [apply runs_query | apply runs_write]. Qed.

Lemma runs_exec_or w errDB f w' : f w = Ok w' -> runs w (exec_or errDB f) (Ok tt) w'.
Proof. intros Hf. eapply runs_bind; [apply runs_query|]. rewrite Hf. by apply runs_pure. Qed.

Lemma runs_txn {A} w errDB (m : M (Store D) E A) a w' : runs w m (Ok a) w' -> runs w (txn errDB m) (Ok a) w'.
Proof.
  intros Hm s Hs Hw. assert (runs w (bind m (fun a => bind (query errDB) (fun _ => ret a))) (Ok a) w') as H.
  { eapply runs_bind; [exact Hm|]. eapply runs_bind; [apply runs_query | apply runs_ret]. }
  destruct (H s Hs Hw) as (n & Hle & Hn). unfold txn. rewrite Hn. eauto.
Qed.

(** The result and the database of a run. *)
Lemma runs_result {A} (m : M (Store D) E A) r w' s : runs (sdb s) m r w' -> healthy_from s -> (m s).2 = r /\ sdb (m s).1 = w'.
Proof. intros Hm Hs. by destruct (Hm s Hs eq_refl) as (n & _ & ->). Qed.

Lemma runs_healthy {A} (m : M (Store D) E A) r w' s : runs (sdb s) m r w' -> healthy_from s -> healthy_from (m s).1.
Proof. intros Hm Hs. destruct (Hm s Hs eq_refl) as (n & Hle & ->). cbn. by apply healthy_later. Qed.
End Runs.
