(* ===== verification/Text.v ===== *)
(** * Text: strings as the program builds and compares them

    Decimal numbers ([%d], strconv.FormatInt and ParseInt), prefixes, and the lemmas by which
    keys made of literals and numbers are told apart; then SQL patterns
    (src/pkg/dberr/like.go), and Go strings as sequences of UTF-8 characters. *)

From Stdlib Require Import Decimal DecimalString DecimalPos DecimalZ Ascii.
From S2P Require Import Prelude.
#[global] Open Scope Z_scope.

(** [%d] *)
Definition dec (n : Z) : string := NilZero.string_of_int (Z.to_int n).

(** The number a decimal string denotes. *)
Definition undec (s : string) : option Z := option_map Z.of_int (NilZero.int_of_string s).

(** [strings.HasPrefix] *)
Fixpoint HasPrefix (s prefix : string) : bool :=
  match prefix, s with
  | EmptyString, _ => true
  | String c p, String d s' => if decide (c = d) then HasPrefix s' p else false
  | String _ _, EmptyString => false
  end.

(** [strings.Contains] *)
Fixpoint Contains (s sub : string) : bool :=
  HasPrefix s sub || match s with EmptyString => false | String _ s' => Contains s' sub end.

(** [strings.HasSuffix] *)
Definition HasSuffix (s suffix : string) : bool :=
  (String.length suffix <=? String.length s)%nat
  && String.eqb (String.substring (String.length s - String.length suffix) (String.length suffix) s) suffix.

Fixpoint all_chars (P : ascii -> bool) (s : string) : bool :=
  match s with EmptyString => true | String c s' => P c && all_chars P s' end.

(** The digits of a number, most significant first. *)
Fixpoint digits (acc : Z) (s : string) : option Z :=
  match s with
  | EmptyString => Some acc
  | String c s' =>
      let d := Z.of_nat (nat_of_ascii c) - 48 in
      if (0 <=? d) && (d <=? 9) then digits (acc * 10 + d) s' else None
  end.

(** strconv.ParseInt(s, 10, 64): the value and whether there was no error. A
    number out of range is answered with the nearest int64 and an error. *)
Definition ParseInt (s : string) : Z * bool :=
  let finish sign s' :=
    match s' with
    | EmptyString => (0, false)
    | _ => match digits 0 s' with
           | None => (0, false)
           | Some n =>
               let v := sign * n in
               if v <? int64_min then (int64_min, false)
               else if int64_max <? v then (int64_max, false) else (v, true)
           end
    end in
  match s with
  | String "+" s' => finish 1 s'
  | String "-" s' => finish (-1) s'
  | _ => finish 1 s
  end.

(** Characters of a decimal number. *)
Definition dec_char (c : ascii) : bool :=
  bool_decide (c ∈ ["0";"1";"2";"3";"4";"5";"6";"7";"8";"9";"-"]%char).

(** ** Lemmas *)

Lemma undec_dec n : undec (dec n) = Some n.
Proof.
  unfold undec, dec. rewrite NilZero.isi.
  - simpl. by rewrite DecimalZ.of_to.
  - destruct n; intros [= H]; by eapply Unsigned.to_uint_nonnil.
  - destruct n; intros [= H]; by eapply Unsigned.to_uint_nonnil.
Qed.

Lemma dec_inj n m : dec n = dec m -> n = m.
Proof. intros H. pose proof (undec_dec n) as H1. rewrite H, undec_dec in H1. by simplify_eq. Qed.

Lemma uint_chars (d : uint) : all_chars dec_char (NilEmpty.string_of_uint d) = true.
Proof. induction d; cbn [NilEmpty.string_of_uint all_chars]; [done|..]; rewrite IHd; reflexivity. Qed.

Lemma dec_chars n : all_chars dec_char (dec n) = true.
Proof.
  unfold dec, NilZero.string_of_int.
  assert (forall d, all_chars dec_char (NilZero.string_of_uint d) = true) as Hu.
  { intros d. destruct d; [reflexivity|..]; apply uint_chars. }
  destruct (Z.to_int n); [apply Hu | cbn [all_chars]; rewrite Hu; reflexivity].
Qed.

Lemma all_chars_app P a b : all_chars P (a +:+ b) = all_chars P a && all_chars P b.
Proof. induction a as [|c a IH]; [done|]. simpl. by rewrite IH, andb_assoc. Qed.

Lemma app_assoc_s (a b c : string) : a +:+ (b +:+ c) = (a +:+ b) +:+ c.
Proof. induction a as [|x a IH]; [done|]. exact (f_equal (String x) IH). Qed.

Lemma app_cancel_l (p a b : string) : p +:+ a = p +:+ b -> a = b.
Proof. induction p as [|c p IH]; simpl; [done|]. intros [= H]. by apply IH. Qed.

(** Two words over [P], each followed by a character outside [P] or nothing. *)
Lemma app_split (P : ascii -> bool) a b c x y :
  all_chars P a = true -> all_chars P b = true -> P c = false ->
  a +:+ String c x = b +:+ String c y -> a = b /\ x = y.
Proof.
  intros Ha Hb Hc. revert b Hb. induction a as [|d a IH]; intros [|e b] Hb Heq; simpl in *.
  - by injection Heq.
  - injection Heq as -> _. to_prop. congruence.
  - injection Heq as -> _. to_prop. congruence.
  - injection Heq as -> Heq. to_prop. destruct (IH ltac:(done) b) as [-> ->]; done.
Qed.

Lemma HasPrefix_app p s : HasPrefix (p +:+ s) p = true.
Proof. induction p as [|c p IH]; simpl; [by destruct s|]. by rewrite decide_True. Qed.

Lemma HasPrefix_inv s p : HasPrefix s p = true -> exists t, s = p +:+ t.
Proof.
  revert s. induction p as [|c p IH]; intros s H; [by exists s|]. destruct s as [|d s]; simpl in H; [done|].
  destruct (decide (c = d)) as [->|]; [|done]. destruct (IH s H) as [t ->]. by exists t.
Qed.

(** *** ParseInt reads what [%d] writes *)

(** The value of digits, most significant first. *)
Fixpoint uval (acc : Z) (d : uint) : Z :=
  match d with
  | Decimal.Nil => acc
  | D0 d => uval (acc * 10) d | D1 d => uval (acc * 10 + 1) d | D2 d => uval (acc * 10 + 2) d | D3 d => uval (acc * 10 + 3) d
  | D4 d => uval (acc * 10 + 4) d | D5 d => uval (acc * 10 + 5) d | D6 d => uval (acc * 10 + 6) d | D7 d => uval (acc * 10 + 7) d
  | D8 d => uval (acc * 10 + 8) d | D9 d => uval (acc * 10 + 9) d
  end.

Lemma digits_uint d acc : digits acc (NilEmpty.string_of_uint d) = Some (uval acc d).
Proof.
  revert acc. induction d; intros acc; [done|..]; cbn -[Z.mul Z.add Z.sub nat_of_ascii Z.of_nat];
    match goal with |- context [Z.of_nat ?n - 48] => let v := eval vm_compute in (Z.of_nat n - 48) in change (Z.of_nat n - 48) with v end;
    cbn -[Z.mul Z.add]; rewrite IHd; do 2 f_equal; lia.
Qed.

Lemma uval_acc d p : uval (Zpos p) d = Zpos (Pos.of_uint_acc d p).
Proof.
  revert p. induction d; intros p; cbn [uval Pos.of_uint_acc]; [done|..]; rewrite <- IHd; f_equal; lia.
Qed.

Lemma uval_of_uint d : uval 0 d = Z.of_N (Pos.of_uint d).
Proof. induction d; cbn [uval Pos.of_uint Z.of_N]; try done; apply uval_acc. Qed.

Lemma dec_nonneg p : digits 0 (NilZero.string_of_uint (Pos.to_uint p)) = Some (Zpos p).
Proof.
  assert (NilZero.string_of_uint (Pos.to_uint p) = NilEmpty.string_of_uint (Pos.to_uint p)) as ->.
  { pose proof (Unsigned.to_uint_nonnil p) as H. by destruct (Pos.to_uint p). }
  rewrite digits_uint, uval_of_uint. by rewrite (Unsigned.of_to p).
Qed.

Lemma ParseInt_dec n : in_int64 n -> ParseInt (dec n) = (n, true).
Proof.
  intros [Hmin Hmax]. destruct n as [|p|p]; [done|..]; pose proof (dec_nonneg p) as Hd;
    unfold dec; cbn [Z.to_int NilZero.string_of_int].
  - pose proof (Unsigned.to_uint_nonnil p) as Hnil.
    destruct (Pos.to_uint p) eqn:Hu; [done|..]; unfold ParseInt; cbn -[digits int64_min int64_max Z.mul Z.ltb] in Hd |- *;
      rewrite Hd, Z.mul_1_l, (proj2 (Z.ltb_ge _ _) Hmin), (proj2 (Z.ltb_ge _ _) Hmax); done.
  - unfold ParseInt. cbn -[digits int64_min int64_max Z.mul Z.ltb NilZero.string_of_uint].
    destruct (NilZero.string_of_uint (Pos.to_uint p)) eqn:Hs; [done|]. rewrite Hd.
    change (-1 * Z.pos p) with (Z.neg p). by rewrite (proj2 (Z.ltb_ge _ _) Hmin), (proj2 (Z.ltb_ge _ _) Hmax).
Qed.

(** Lengths and substrings of concatenations. *)
Lemma length_app_s (a b : string) : String.length (a +:+ b) = (String.length a + String.length b)%nat.
Proof. induction a as [|c a IH]; [done|]. simpl. by f_equal. Qed.
Lemma substring_skip (a b : string) n : String.substring (String.length a) n (a +:+ b) = String.substring 0 n b.
Proof. induction a as [|c a IH]; [done|]. exact IH. Qed.
Lemma substring_take (a b : string) : String.substring 0 (String.length a) (a +:+ b) = a.
Proof. induction a as [|c a IH]; [by destruct b|]. simpl. by f_equal. Qed.
Lemma substring_all (a : string) : String.substring 0 (String.length a) a = a.
Proof. induction a as [|c a IH]; [done|]. simpl. by f_equal. Qed.

(** ** SQL patterns and the escaping of values in them

    src/pkg/dberr/like.go, and LIKE / ILIKE with a backslash as escape, which
    Postgres documents. *)

Definition LikeEscapeChar : ascii := ascii_of_nat 92.

(** The replacer scans once: each of the three characters gets the escape before it. *)
Fixpoint EscapeLike (s : string) : string :=
  match s with
  | EmptyString => EmptyString
  | String c s' =>
      if decide (c = LikeEscapeChar \/ c = "%"%char \/ c = "_"%char)
      then String LikeEscapeChar (String c (EscapeLike s'))
      else String c (EscapeLike s')
  end.

(** ** Patterns

    ILIKE with a backslash as escape, on a pattern and a text; [same] is the
    equality of characters up to case. *)

Section Like.
Context (same : ascii -> ascii -> bool).

Fixpoint ilike (p s : string) : bool :=
  match p with
  | EmptyString => bool_decide (s = EmptyString)
  | String c p' =>
      if decide (c = "%"%char) then
        (fix eat s := ilike p' s || match s with EmptyString => false | String _ s' => eat s' end) s
      else if decide (c = "_"%char) then
        match s with EmptyString => false | String _ s' => ilike p' s' end
      else if decide (c = LikeEscapeChar) then
        match p', s with String e p'', String d s' => same e d && ilike p'' s' | _, _ => false end
      else match s with EmptyString => false | String d s' => same c d && ilike p' s' end
  end.

(** The same characters, in the same places. *)
Fixpoint same_text (v t : string) : bool :=
  match v, t with
  | EmptyString, EmptyString => true
  | String c v', String d t' => same c d && same_text v' t'
  | _, _ => false
  end.

Lemma ilike_any p s : ilike (String "%" p) s = true <-> exists a c, s = a +:+ c /\ ilike p c = true.
Proof.
  cbn [ilike]. rewrite decide_True by done. split.
  - induction s as [|d s IH]; intros H; apply orb_true_iff in H as [H|H]; try done.
    + by exists EmptyString, EmptyString.
    + by exists EmptyString, (String d s).
    + destruct (IH H) as (a & c & -> & Hc). by exists (String d a), c.
  - intros (a & c & -> & Hc). induction a as [|d a IH]; [destruct c; exact (proj2 (orb_true_iff _ _) (or_introl Hc))|].
    change (String d a +:+ c) with (String d (a +:+ c)). cbn [ilike]. apply orb_true_iff. right. exact IH.
Qed.

Lemma ilike_rest s : ilike "%" s = true.
Proof. apply ilike_any. exists s, EmptyString. split; [|done]. induction s as [|d s IH]; [done|]. by rewrite IH at 1. Qed.

(** One character of an escaped value. *)
Lemma ilike_escaped_char c v p s :
  ilike (EscapeLike (String c v) +:+ p) s = true
  <-> exists d s', s = String d s' /\ same c d = true /\ ilike (EscapeLike v +:+ p) s' = true.
Proof.
  cbn [EscapeLike]. destruct (decide _) as [Hsp|Hsp].
  - change (String LikeEscapeChar (String c (EscapeLike v)) +:+ p)
      with (String LikeEscapeChar (String c (EscapeLike v +:+ p))).
    cbn [ilike]. rewrite !decide_False by done. rewrite decide_True by done.
    destruct s as [|d s]; [split; [done | by intros (? & ? & ? & _)]|]. rewrite andb_true_iff. split.
    + intros [H1 H2]. eauto.
    + by intros (d' & s' & [= <- <-] & H1 & H2).
  - change (String c (EscapeLike v) +:+ p) with (String c (EscapeLike v +:+ p)).
    cbn [ilike]. rewrite !decide_False by (intros ->; apply Hsp; auto).
    destruct s as [|d s]; [split; [done | by intros (? & ? & ? & _)]|]. rewrite andb_true_iff. split.
    + intros [H1 H2]. eauto.
    + by intros (d' & s' & [= <- <-] & H1 & H2).
Qed.

Lemma ilike_escaped v p s :
  ilike (EscapeLike v +:+ p) s = true <-> exists b c, s = b +:+ c /\ same_text v b = true /\ ilike p c = true.
Proof.
  revert s. induction v as [|x v IH]; intros s.
  - split; [intros H; by exists EmptyString, s|]. intros (b & c & -> & Hb & Hc). by destruct b.
  - rewrite ilike_escaped_char. split.
    + intros (d & s' & -> & Hd & Hs). apply IH in Hs as (b & c & -> & Hb & Hc).
      exists (String d b), c. cbn. by rewrite Hd, Hb.
    + intros (b & c & -> & Hb & Hc). destruct b as [|d b]; [done|]. cbn in Hb. apply andb_true_iff in Hb as [Hd Hb].
      exists d, (b +:+ c). split_and!; [done | done|]. apply IH. eauto.
Qed.

Lemma ilike_end s : ilike EmptyString s = true <-> s = EmptyString.
Proof. cbn. apply bool_decide_eq_true. Qed.
End Like.

(** ** Go strings as sequences of characters

    A Go string is its bytes; ranging over it decodes UTF-8, a byte that begins no
    encoding counting as the character U+FFFD. strings.Map, strings.TrimSpace and the
    searches for one character, over that. *)

Definition byte_of (c : ascii) : Z := Z.of_N (N_of_ascii c).
Definition RuneError : Z := 65533.

(** A byte that continues an encoding, and one that may come second after [b0]. *)
Definition continues (b : Z) : bool := (128 <=? b) && (b <=? 191).
Definition follows (b0 b1 : Z) : bool :=
  if b0 =? 224 then (160 <=? b1) && (b1 <=? 191)
  else if b0 =? 237 then (128 <=? b1) && (b1 <=? 159)
  else if b0 =? 240 then (144 <=? b1) && (b1 <=? 191)
  else if b0 =? 244 then (128 <=? b1) && (b1 <=? 143)
  else continues b1.
(** The length of the encodings that begin with [b0], 0 when none do. *)
Definition encoded_length (b0 : Z) : Z :=
  if b0 <? 128 then 1
  else if (194 <=? b0) && (b0 <=? 223) then 2
  else if (224 <=? b0) && (b0 <=? 239) then 3
  else if (240 <=? b0) && (b0 <=? 244) then 4
  else 0.

(** [for _, r := range s] *)
Fixpoint runes (s : string) : list Z :=
  match s with
  | EmptyString => []
  | String c0 s1 =>
      let b0 := byte_of c0 in
      if encoded_length b0 =? 1 then b0 :: runes s1 else
      match s1 with
      | EmptyString => [RuneError]
      | String c1 s2 =>
          let b1 := byte_of c1 in
          if negb (follows b0 b1) then RuneError :: runes s1 else
          if encoded_length b0 =? 2 then (Z.land b0 31 * 64 + Z.land b1 63) :: runes s2 else
          match s2 with
          | EmptyString => RuneError :: runes s1
          | String c2 s3 =>
              let b2 := byte_of c2 in
              if negb (continues b2) then RuneError :: runes s1 else
              if encoded_length b0 =? 3 then
                (Z.land b0 15 * 4096 + Z.land b1 63 * 64 + Z.land b2 63) :: runes s3 else
              match s3 with
              | EmptyString => RuneError :: runes s1
              | String c3 s4 =>
                  let b3 := byte_of c3 in
                  if (encoded_length b0 =? 4) && continues b3 then
                    (Z.land b0 7 * 262144 + Z.land b1 63 * 4096 + Z.land b2 63 * 64 + Z.land b3 63) :: runes s4
                  else RuneError :: runes s1
              end
          end
      end
  end.

(** [string(r)] *)
Definition encode_rune (r : Z) : string :=
  let b z := ascii_of_N (Z.to_N z) in
  if r <? 128 then String (b r) EmptyString
  else if r <? 2048 then String (b (192 + r / 64)) (String (b (128 + r mod 64)) EmptyString)
  else if r <? 65536 then String (b (224 + r / 4096)) (String (b (128 + r / 64 mod 64)) (String (b (128 + r mod 64)) EmptyString))
  else String (b (240 + r / 262144)) (String (b (128 + r / 4096 mod 64)) (String (b (128 + r / 64 mod 64)) (String (b (128 + r mod 64)) EmptyString))).
(** strings.Repeat *)
Fixpoint repeat_char (c : ascii) (n : nat) : string := match n with O => EmptyString | S m => String c (repeat_char c m) end.

Definition in_range (lo hi r : Z) : bool := (lo <=? r) && (r <=? hi).
Definition is_upper (r : Z) : bool := in_range 65 90 r.
Definition is_lower (r : Z) : bool := in_range 97 122 r.
Definition is_digit (r : Z) : bool := in_range 48 57 r.

(** strings.Map with a mapping whose results are ASCII characters. *)
Definition map_ascii (f : Z -> ascii) (s : string) : string := String.string_of_list_ascii (f <$> runes s).

(** The encodings of the characters unicode.IsSpace holds of. *)
Definition bytes (l : list nat) : string := String.string_of_list_ascii (ascii_of_nat <$> l).
Definition spaces : list string :=
  bytes <$> [[9]; [10]; [11]; [12]; [13]; [32]; [194; 133]; [194; 160]; [225; 154; 128];
             [226; 128; 128]; [226; 128; 129]; [226; 128; 130]; [226; 128; 131]; [226; 128; 132]; [226; 128; 133];
             [226; 128; 134]; [226; 128; 135]; [226; 128; 136]; [226; 128; 137]; [226; 128; 138];
             [226; 128; 168]; [226; 128; 169]; [226; 128; 175]; [226; 129; 159]; [227; 128; 128]]%nat.

(** What is left of [s] after the first of [ps] that [s] begins with. *)
Fixpoint strip_one (ps : list string) (s : string) : option string :=
  match ps with
  | [] => None
  | p :: ps' => if HasPrefix s p then Some (String.substring (String.length p) (String.length s - String.length p) s) else strip_one ps' s
  end.
Fixpoint strip (fuel : nat) (ps : list string) (s : string) : string :=
  match fuel with
  | O => s
  | S n => match strip_one ps s with Some s' => strip n ps s' | None => s end
  end.
Definition rev_string (s : string) : string := String.string_of_list_ascii (rev (String.list_ascii_of_string s)).

(** strings.TrimSpace. An encoding is found from either end by its bytes; each removes one. *)
Definition TrimSpace (s : string) : string :=
  let l := strip (String.length s) spaces s in
  rev_string (strip (String.length l) (rev_string <$> spaces) (rev_string l)).

(** The text before the last, and before the first, occurrence of [c], with its index. *)
Fixpoint before_last (c : ascii) (s : string) : option string :=
  match s with
  | EmptyString => None
  | String d s' => match before_last c s' with
                   | Some t => Some (String d t)
                   | None => if decide (c = d) then Some EmptyString else None
                   end
  end.
Fixpoint before_first (c : ascii) (s : string) : string :=
  match s with
  | EmptyString => EmptyString
  | String d s' => if decide (c = d) then EmptyString else String d (before_first c s')
  end.

(** ** Lemmas *)

Lemma strip_one_shorter ps s s' :
  Forall (fun p => p <> EmptyString) ps -> strip_one ps s = Some s' -> (String.length s' < String.length s)%nat.
Proof.
  induction 1 as [|p ps Hp _ IH]; simpl; [done|]. destruct (HasPrefix s p) eqn:Hpre; [|exact IH]. intros [= <-].
  apply HasPrefix_inv in Hpre as (t & ->). rewrite length_app_s, substring_skip, Nat.add_comm, Nat.add_sub.
  rewrite substring_all. destruct p; [done|]. simpl. lia.
Qed.

(** The fuel of [strip] is enough: no prefix of the set is left. *)
Lemma strip_done ps n s :
  Forall (fun p => p <> EmptyString) ps -> (String.length s <= n)%nat -> strip_one ps (strip n ps s) = None.
Proof.
  intros Hps. revert s. induction n as [|n IH]; intros s Hn; simpl.
  - destruct (strip_one ps s) eqn:Hs; [|done]. apply strip_one_shorter in Hs; [lia | done].
  - destruct (strip_one ps s) as [s'|] eqn:Hs; [|done]. apply IH. apply strip_one_shorter in Hs; [lia | done].
Qed.

Lemma map_ascii_chars (P : ascii -> bool) f s : (forall r, P (f r) = true) -> all_chars P (map_ascii f s) = true.
Proof. intros Hf. unfold map_ascii. induction (runes s) as [|r l IH]; [done|]. cbn. by rewrite Hf, IH. Qed.

Lemma length_map_ascii f s : String.length (map_ascii f s) = length (runes s).
Proof. unfold map_ascii. induction (runes s) as [|r l IH]; [done|]. cbn. by rewrite IH. Qed.

Lemma runes_nil s : runes s = [] -> s = EmptyString.
Proof.
  destruct s as [|c0 s1]; [done|]. simpl. destruct (_ =? 1); [done|]. destruct s1 as [|c1 s2]; [done|].
  destruct (negb _); [done|]. destruct (_ =? 2); [done|]. destruct s2 as [|c2 s3]; [done|].
  destruct (negb _); [done|]. destruct (_ =? 3); [done|]. destruct s3 as [|c3 s4]; [done|]. by destruct (_ && _).
Qed.

Lemma substring_chars P n m s : all_chars P s = true -> all_chars P (String.substring n m s) = true.
Proof.
  revert n m. induction s as [|c s IH]; intros [|n] [|m] H; simpl in *; try done; to_prop; try (by apply IH).
  apply andb_true_iff. split; [done | by apply IH].
Qed.
