(* ===== verification/Redis.v ===== *)
(** * Redis: the key-value store behind sessions, tickets and limiters

    The commands the program sends through go-redis, on a keyspace of typed
    values with deadlines. A value written as JSON is kept as the decoded value
    ([V]): encoding/json round-trips the structs stored here. Every command may be
    refused by the connection, or lose its reply after the server applied it. The
    clock does not move inside an operation; the environment moves it between
    operations. *)

From stdpp Require Export pretty.
From S2P Require Import Prelude.

#[global] Open Scope Z_scope.

(** Durations are time.Duration: nanoseconds. *)
Definition Millisecond : Z := 1000000.
Definition Second : Z := 1000 * Millisecond.
Definition Minute : Z := 60 * Second.
Definition Hour : Z := 60 * Minute.

Inductive RErr : Type :=
| RErrNil
| RErrWrongType
| RErrConn.

Inductive Fate : Type :=
| Fine
| Refused
| ReplyLost.

Section Redis.
Context {V : Type}.

Inductive RVal : Type :=
| RStr (v : V)
| RInt (n : Z)
| RSet (s : gset string).

Record RKey : Type := mkRKey { rval : RVal; rdead : option Z }.

Record Redis : Type := mkRedis {
  rkeys : gmap string RKey;
  rclock : Z;
  rfate : nat -> Fate;
  rcalls : nat
}.

Abbreviation Keys := (gmap string RKey).
Abbreviation RM := (M Redis RErr).

Definition alive (now : Z) (e : RKey) : bool :=
  match rdead e with Some d => now <? d | None => true end.

(** What a command sees under a key: an expired key is gone. *)
Definition peek (ks : Keys) (now : Z) (k : string) : option RKey :=
  e ← ks !! k; if alive now e then Some e else None.

(** One round trip: [f] is the command's effect and reply. *)
Definition command {A} (f : Keys -> Z -> Keys * res RErr A) : RM A := fun r =>
  let '(ks, x) := f (rkeys r) (rclock r) in
  match rfate r (rcalls r) with
  | Fine => (mkRedis ks (rclock r) (rfate r) (S (rcalls r)), x)
  | Refused => (mkRedis (rkeys r) (rclock r) (rfate r) (S (rcalls r)), Err RErrConn)
  | ReplyLost => (mkRedis ks (rclock r) (rfate r) (S (rcalls r)), Err RErrConn)
  end.

(** go-redis sends a TTL of a fraction of a millisecond as one, and truncates
    the rest to whole milliseconds (PX) or, for EXPIRE, to whole seconds. *)
Definition px (d : Z) : Z :=
  if (0 <? d) && (d <? Millisecond) then Millisecond else d / Millisecond * Millisecond.
Definition ex (d : Z) : Z :=
  if (0 <? d) && (d <? Second) then Second else d / Second * Second.

Definition get_f (k : string) (ks : Keys) (now : Z) : Keys * res RErr V :=
  (ks, match peek ks now k with
       | None => Err RErrNil
       | Some (mkRKey (RStr v) _) => Ok v
       | Some _ => Err RErrWrongType
       end).
Definition GET (k : string) : RM V := command (get_f k).

(** An expiration that is not positive is not sent: the key gets none. *)
Definition set_f (k : string) (v : V) (ttl : Z) (ks : Keys) (now : Z) : Keys * res RErr unit :=
  (<[k := mkRKey (RStr v) (if 0 <? ttl then Some (now + px ttl) else None)]> ks, Ok tt).
Definition SET (k : string) (v : V) (ttl : Z) : RM unit := command (set_f k v ttl).

Definition del_f (k : string) (ks : Keys) (now : Z) : Keys * res RErr unit := (delete k ks, Ok tt).
Definition DEL (k : string) : RM unit := command (del_f k).

(** DEL of several keys, one command. *)
Definition dels_f (l : list string) (ks : Keys) (now : Z) : Keys * res RErr unit :=
  (foldr delete ks l, Ok tt).
Definition DELS (l : list string) : RM unit := command (dels_f l).

(** GETDEL: read and remove in one command. *)
Definition getdel_f (k : string) (ks : Keys) (now : Z) : Keys * res RErr V :=
  match peek ks now k with
  | None => (ks, Err RErrNil)
  | Some (mkRKey (RStr v) _) => (delete k ks, Ok v)
  | Some _ => (ks, Err RErrWrongType)
  end.
Definition GETDEL (k : string) : RM V := command (getdel_f k).

Definition sadd_f (k m : string) (ks : Keys) (now : Z) : Keys * res RErr unit :=
  match peek ks now k with
  | None => (<[k := mkRKey (RSet {[ m ]}) None]> ks, Ok tt)
  | Some (mkRKey (RSet s) d) => (<[k := mkRKey (RSet ({[ m ]} ∪ s)) d]> ks, Ok tt)
  | Some _ => (ks, Err RErrWrongType)
  end.
Definition SADD (k m : string) : RM unit := command (sadd_f k m).

(** A set that loses its last member is removed. *)
Definition srem_f (k m : string) (ks : Keys) (now : Z) : Keys * res RErr unit :=
  match peek ks now k with
  | None => (ks, Ok tt)
  | Some (mkRKey (RSet s) d) =>
      ((if decide (s ∖ {[ m ]} = ∅) then delete k ks
        else <[k := mkRKey (RSet (s ∖ {[ m ]})) d]> ks), Ok tt)
  | Some _ => (ks, Err RErrWrongType)
  end.
Definition SREM (k m : string) : RM unit := command (srem_f k m).

Definition smembers_f (k : string) (ks : Keys) (now : Z) : Keys * res RErr (list string) :=
  (ks, match peek ks now k with
       | None => Ok []
       | Some (mkRKey (RSet s) _) => Ok (elements s)
       | Some _ => Err RErrWrongType
       end).
Definition SMEMBERS (k : string) : RM (list string) := command (smembers_f k).

Definition expire_f (k : string) (ttl : Z) (ks : Keys) (now : Z) : Keys * res RErr unit :=
  match peek ks now k with
  | None => (ks, Ok tt)
  | Some e => (<[k := mkRKey (rval e) (Some (now + ex ttl))]> ks, Ok tt)
  end.
Definition EXPIRE (k : string) (ttl : Z) : RM unit := command (expire_f k ttl).

(** MULTI ... EXEC: all commands run, the first error is reported. *)
Fixpoint multi (fs : list (Keys -> Z -> Keys * res RErr unit)) (ks : Keys) (now : Z) : Keys * res RErr unit :=
  match fs with
  | [] => (ks, Ok tt)
  | f :: fs' =>
      let '(ks1, x) := f ks now in
      let '(ks2, y) := multi fs' ks1 now in
      (ks2, match x with Ok _ => y | Err e => Err e end)
  end.
Definition EXEC (fs : list (Keys -> Z -> Keys * res RErr unit)) : RM unit := command (multi fs).

(** A call whose error the code drops: [_ = m] or a bare [m]. *)
Definition ignore {A} (m : RM A) : RM unit := attempt m (fun _ => ret tt).

(** ** Lemmas *)

Definition fine (r : Redis) : Prop := forall n, rfate r n = Fine.

Lemma peek_Some ks now k e : peek ks now k = Some e <-> ks !! k = Some e /\ alive now e = true.
Proof.
  unfold peek. destruct (ks !! k) as [e'|]; simpl; [|by split; [|intros [? _]]].
  split.
  - destruct (alive now e') eqn:Ha; intros; by simplify_eq.
  - intros [He Ha]. injection He as ->. by rewrite Ha.
Qed.

Lemma peek_insert_eq ks now k e : alive now e = true -> peek (<[k := e]> ks) now k = Some e.
Proof. intros Ha. apply peek_Some. by rewrite lookup_insert_eq. Qed.

Lemma peek_insert_ne ks now k k' e : k <> k' -> peek (<[k := e]> ks) now k' = peek ks now k'.
Proof. intros Hne. unfold peek. by rewrite lookup_insert_ne. Qed.

Lemma peek_delete_ne (ks : Keys) now k k' : k <> k' -> peek (delete k ks) now k' = peek ks now k'.
Proof. intros Hne. unfold peek. by rewrite lookup_delete_ne. Qed.

Lemma peek_delete_eq (ks : Keys) now k : peek (delete k ks) now k = None.
Proof. unfold peek. by rewrite lookup_delete_eq. Qed.

Lemma peek_later ks now now' k e : now <= now' -> peek ks now' k = Some e -> peek ks now k = Some e.
Proof.
  intros Hle. rewrite !peek_Some. intros [He Ha]. split; [done|].
  unfold alive in *. destruct (rdead e); [|done]. apply Z.ltb_lt in Ha. apply Z.ltb_lt. lia.
Qed.

(** What a command did: its effect and reply, or a connection error with the
    effect applied or not. *)
Lemma command_inv {A} (f : Keys -> Z -> Keys * res RErr A) r r' x :
  command f r = (r', x) ->
  rclock r' = rclock r /\ rfate r' = rfate r
  /\ ((rkeys r' = (f (rkeys r) (rclock r)).1 /\ x = (f (rkeys r) (rclock r)).2)
      \/ (x = Err RErrConn /\ ~ fine r
          /\ (rkeys r' = rkeys r \/ rkeys r' = (f (rkeys r) (rclock r)).1))).
Proof.
  unfold command. destruct (f (rkeys r) (rclock r)) as [ks y] eqn:Hf.
  destruct (rfate r (rcalls r)) eqn:Hfate; intros Hr; simplify_eq/=; split_and!; auto.
  - right. split_and!; auto. intros H. by rewrite H in Hfate.
  - right. split_and!; auto. intros H. by rewrite H in Hfate.
Qed.

Lemma command_fine {A} (f : Keys -> Z -> Keys * res RErr A) r :
  fine r ->
  command f r = (mkRedis (f (rkeys r) (rclock r)).1 (rclock r) (rfate r) (S (rcalls r)),
                 (f (rkeys r) (rclock r)).2).
Proof. intros Hf. unfold command. rewrite Hf. by destruct (f (rkeys r) (rclock r)). Qed.

Lemma set_f_pos k v ttl ks now :
  0 < ttl -> set_f k v ttl ks now = (<[k := mkRKey (RStr v) (Some (now + px ttl))]> ks, Ok tt).
Proof. intros H. unfold set_f. by rewrite (proj2 (Z.ltb_lt _ _) H). Qed.

Lemma px_le d : 0 < d -> 0 < px d /\ (Millisecond <= d -> px d <= d).
Proof.
  intros Hd. unfold px, Millisecond in *.
  destruct (Z.ltb_spec 0 d), (Z.ltb_spec d 1000000); simpl; try lia.
  pose proof (Z.mul_div_le d 1000000 ltac:(lia)).
  assert (1 <= d / 1000000) by (apply Z.div_le_lower_bound; lia). lia.
Qed.

Lemma ex_exact d : 0 < d -> (Second | d) -> ex d = d.
Proof.
  intros Hd [q ->]. unfold ex, Second, Millisecond in *.
  destruct (Z.ltb_spec (q * (1000 * 1000000)) (1000 * 1000000)); [nia|].
  rewrite andb_false_r, Z.div_mul by lia. lia.
Qed.

(** ** What a command leaves alone *)

(** [f] writes only keys that satisfy [P]. *)
Definition writes_only {A} (P : string -> Prop) (f : Keys -> Z -> Keys * res RErr A) : Prop :=
  forall ks now k, ~ P k -> (f ks now).1 !! k = ks !! k.

Lemma command_other {A} P (f : Keys -> Z -> Keys * res RErr A) r r' x k :
  writes_only P f -> command f r = (r', x) -> ~ P k -> rkeys r' !! k = rkeys r !! k.
Proof.
  intros Hf Hr Hk. apply command_inv in Hr as (_ & _ & [[-> _]|(_ & _ & [->| ->])]); [|done|]; by apply Hf.
Qed.

Lemma get_only P k : writes_only P (get_f k).
Proof. done. Qed.
Lemma smembers_only P k : writes_only P (smembers_f k).
Proof. done. Qed.
Lemma set_only (P : string -> Prop) k v ttl : P k -> writes_only P (set_f k v ttl).
Proof. intros HP ks now k' Hk. cbn. rewrite lookup_insert_ne; [done | by intros ->]. Qed.
Lemma del_only (P : string -> Prop) k : P k -> writes_only P (del_f k).
Proof. intros HP ks now k' Hk. cbn. rewrite lookup_delete_ne; [done | by intros ->]. Qed.
Lemma lookup_dels (l : list string) (ks : Keys) k :
  foldr delete ks l !! k = if decide (k ∈ l) then None else ks !! k.
Proof.
  induction l as [|x l IH]; cbn [foldr]; [by rewrite decide_False by apply not_elem_of_nil|].
  destruct (decide (k = x)) as [->|Hne].
  - rewrite lookup_delete_eq, decide_True; [done | left].
  - rewrite lookup_delete_ne, IH by done. apply decide_ext. rewrite elem_of_cons. naive_solver.
Qed.
Lemma dels_only (P : string -> Prop) l : Forall P l -> writes_only P (dels_f l).
Proof.
  intros HP ks now k Hk. cbn. rewrite lookup_dels, decide_False; [done|].
  intros Hin. by apply Hk, (proj1 (Forall_forall P l) HP).
Qed.
Lemma getdel_only (P : string -> Prop) k : P k -> writes_only P (getdel_f k).
Proof.
  intros HP ks now k' Hk. unfold getdel_f. repeat case_match; cbn; try done.
  rewrite lookup_delete_ne; [done | by intros ->].
Qed.
Lemma sadd_only (P : string -> Prop) k m : P k -> writes_only P (sadd_f k m).
Proof.
  intros HP ks now k' Hk. unfold sadd_f. repeat case_match; cbn; try done;
    (rewrite lookup_insert_ne; [done | by intros ->]).
Qed.
Lemma srem_only (P : string -> Prop) k m : P k -> writes_only P (srem_f k m).
Proof.
  intros HP ks now k' Hk. unfold srem_f. repeat case_match; cbn; try done;
    (rewrite lookup_insert_ne || rewrite lookup_delete_ne); (done || by intros ->).
Qed.
Lemma expire_only (P : string -> Prop) k ttl : P k -> writes_only P (expire_f k ttl).
Proof.
  intros HP ks now k' Hk. unfold expire_f. case_match; cbn; [|done].
  rewrite lookup_insert_ne; [done | by intros ->].
Qed.
Lemma multi_only (P : string -> Prop) fs : Forall (writes_only P) fs -> writes_only P (multi fs).
Proof.
  induction 1 as [|f fs Hf _ IH]; intros ks now k Hk; [done|]. cbn [multi].
  pose proof (Hf ks now k Hk) as H1. destruct (f ks now) as [ks1 x]. cbn in H1.
  pose proof (IH ks1 now k Hk) as H2. destruct (multi fs ks1 now) as [ks2 y]. cbn in *. congruence.
Qed.

End Redis.
Arguments RVal : clear implicits.
Arguments RKey : clear implicits.
Arguments Redis : clear implicits.
#[global] Arguments command {V A} f r : simpl never.

#[export] Hint Resolve get_only smembers_only set_only del_only dels_only getdel_only sadd_only srem_only expire_only
  multi_only : mxid.
