(* ===== verification/Session.v ===== *)
(** * Session: the session manager (src/pkg/session/manager.go)

    Sessions are JSON values at [namespace:id], each user's ids are a set at
    [namespace:user:uid]. [Get] and the mutators are a read followed by a write:
    two commands between which other requests may run, so each mutator is the
    bind of its read and its tail. *)

From S2P Require Import Prelude Redis.

Record Session : Type := mkSession {
  ID : string; UserID : Z; TenantID : Z; Namespace : string;
  IP : string; UserAgent : string; AuthType : string; MFAVerified : bool;
  CreatedAt : Z; ExpiresAt : Z; LastActiveAt : Z;
  MFAVerifiedAt : option Z; MFAEnrollPending : bool; PwdChangePending : bool
}.

(** Field updates of the mutators. *)
Definition set_last (t : Z) (s : Session) : Session :=
  mkSession (ID s) (UserID s) (TenantID s) (Namespace s) (IP s) (UserAgent s) (AuthType s) (MFAVerified s)
    (CreatedAt s) (ExpiresAt s) t (MFAVerifiedAt s) (MFAEnrollPending s) (PwdChangePending s).
Definition set_mfa (t : option Z) (s : Session) : Session :=
  mkSession (ID s) (UserID s) (TenantID s) (Namespace s) (IP s) (UserAgent s) (AuthType s) (MFAVerified s)
    (CreatedAt s) (ExpiresAt s) (LastActiveAt s) t (MFAEnrollPending s) (PwdChangePending s).
Definition set_enroll (b : bool) (s : Session) : Session :=
  mkSession (ID s) (UserID s) (TenantID s) (Namespace s) (IP s) (UserAgent s) (AuthType s) (MFAVerified s)
    (CreatedAt s) (ExpiresAt s) (LastActiveAt s) (MFAVerifiedAt s) b (PwdChangePending s).
Definition set_pwd (b : bool) (s : Session) : Session :=
  mkSession (ID s) (UserID s) (TenantID s) (Namespace s) (IP s) (UserAgent s) (AuthType s) (MFAVerified s)
    (CreatedAt s) (ExpiresAt s) (LastActiveAt s) (MFAVerifiedAt s) (MFAEnrollPending s) b.

(** [now.Before(MFAVerifiedAt.Add(window))] *)
Definition StepUpFresh (s : Session) (now window : Z) : bool :=
  match MFAVerifiedAt s with
  | None => false
  | Some t => if window <=? 0 then false else now <? t + window
  end.

(** The static timeouts, and the two optional deciders. What the policy provider
    answers for a request is an argument of the operations that ask it. *)
Record Manager : Type := mkManager {
  idleTimeout : Z;
  absoluteTimeout : Z;
  enrollDecider : option (Z -> Z -> bool);
  pwdDecider : option (Z -> Z -> bool)
}.

Definition Policy : Type := option (Z * Z).

Abbreviation SRedis := (Redis Session).
Abbreviation Op := (M SRedis RErr).

Definition resolveTimeouts (m : Manager) (policy : Policy) : Z * Z :=
  match policy with
  | Some (pIdle, pAbs) =>
      if (0 <? pIdle) && (0 <? pAbs) then (pIdle, pAbs) else (idleTimeout m, absoluteTimeout m)
  | None => (idleTimeout m, absoluteTimeout m)
  end.

Definition sessionKey (namespace id : string) : string := namespace +:+ ":" +:+ id.
Definition userKey (namespace : string) (userID : Z) : string :=
  namespace +:+ ":user:" +:+ pretty userID.

(** [time.Now()] *)
Definition Now : Op Z := gets rclock.

Definition save (sess : Session) : Op unit :=
  let! now := Now in
  let ttl := ExpiresAt sess - now in
  if ttl <=? 0 then ret tt else SET (sessionKey (Namespace sess) (ID sess)) sess ttl.

Definition decided (d : option (Z -> Z -> bool)) (tenantID userID : Z) : bool :=
  match d with Some f => f tenantID userID | None => false end.

(** [newID] is the fresh uuid. *)
Definition Create (m : Manager) (policy : Policy) (newID namespace : string) (userID tenantID : Z)
    (ip userAgent authType : string) : Op Session :=
  let '(_, absolute) := resolveTimeouts m policy in
  let! now := Now in
  let sess := mkSession newID userID tenantID namespace ip userAgent authType false
                now (now + absolute) now None
                (decided (enrollDecider m) tenantID userID)
                (decided (pwdDecider m) tenantID userID) in
  do! save sess in
  do! ignore (SADD (userKey namespace userID) newID) in
  do! ignore (EXPIRE (userKey namespace userID) absolute) in
  ret sess.

Definition Delete (namespace id : string) : Op unit := DEL (sessionKey namespace id).

(** [data, err := redis.Get(key); if err == redis.Nil { return ... }] *)
Definition read_or {A} (namespace id : string) (absent : Op A) (k : Session -> Op A) : Op A :=
  attempt (GET (sessionKey namespace id)) (fun r =>
    match r with
    | Ok sess => k sess
    | Err RErrNil => absent
    | Err e => throw e
    end).

Definition Get (m : Manager) (policy : Policy) (namespace id : string) : Op (option Session) :=
  read_or namespace id (ret None) (fun sess =>
    let! now := Now in
    let '(idle, _) := resolveTimeouts m policy in
    if (ExpiresAt sess <? now) || (LastActiveAt sess + idle <? now)
    then do! ignore (Delete namespace id) in ret None
    else ret (Some sess)).

(** The mutators after their read. *)
Definition touch_tail (sess : Session) : Op unit :=
  let! now := Now in save (set_last now sess).
Definition Touch (namespace id : string) : Op unit :=
  read_or namespace id (ret tt) touch_tail.

Definition MarkMFAVerified (namespace id : string) : Op unit :=
  read_or namespace id (ret tt) (fun sess => let! now := Now in save (set_mfa (Some now) sess)).

(** [at] is nil or the zero time ([None]): nothing to carry. *)
Definition CarryMFAVerifiedAt (namespace id : string) (at_ : option Z) : Op unit :=
  match at_ with
  | None => ret tt
  | Some t => read_or namespace id (ret tt) (fun sess => save (set_mfa (Some t) sess))
  end.

Definition SetEnrollPending (namespace id : string) (pending : bool) : Op unit :=
  read_or namespace id (ret tt) (fun sess => save (set_enroll pending sess)).

Definition SetPwdChangePending (namespace id : string) (pending : bool) : Op unit :=
  read_or namespace id (ret tt) (fun sess => save (set_pwd pending sess)).

(** [for _, id := range ids]: live sessions, stale references dropped. *)
Fixpoint list_sessions (m : Manager) (policy : Policy) (namespace : string) (userID : Z)
    (ids : list string) : Op (list Session) :=
  match ids with
  | [] => ret []
  | id :: ids' =>
      attempt (Get m policy namespace id) (fun r =>
        match r with
        | Err _ => list_sessions m policy namespace userID ids'
        | Ok (Some sess) =>
            let! rest := list_sessions m policy namespace userID ids' in ret (sess :: rest)
        | Ok None =>
            do! ignore (SREM (userKey namespace userID) id) in
            list_sessions m policy namespace userID ids'
        end)
  end.

Definition ListByUser (m : Manager) (policy : Policy) (namespace : string) (userID : Z) : Op (list Session) :=
  let! ids := SMEMBERS (userKey namespace userID) in
  list_sessions m policy namespace userID ids.

Fixpoint delete_sessions (namespace : string) (sessions : list Session) : Op unit :=
  match sessions with
  | [] => ret tt
  | s :: rest => do! ignore (Delete namespace (ID s)) in delete_sessions namespace rest
  end.

Definition DeleteAllByUser (m : Manager) (policy : Policy) (namespace : string) (userID : Z) : Op unit :=
  let! sessions := ListByUser m policy namespace userID in
  do! delete_sessions namespace sessions in
  DEL (userKey namespace userID).

(** ** Logout: internal/domain/authn/engine.go and handler.go

    The audit event, the cookie clearing and the fan-out to service providers are
    left out; what is left is what happens to the stores of sessions. *)

Definition Logout (namespace id : string) : Op unit := Delete namespace id.

(** The other surfaces' cookies, errors ignored. *)
Fixpoint logout_others (others : list (string * string)) : Op unit :=
  match others with
  | [] => ret tt
  | (ns, sid) :: rest =>
      do! (if bool_decide (sid = "")%string then ret tt else ignore (Logout ns sid)) in
      logout_others rest
  end.

(** [cookie] is the session id the client sent; [None] when it is missing or
    empty (the 401 answer). The session is looked up only for the audit row: the
    answer of the lookup, an error included, does not decide what is deleted. *)
Definition logoutHandler (m : Manager) (policy : Policy) (namespace : string) (cookie : option string)
    (others : list (string * string)) : Op bool :=
  match cookie with
  | None => ret false
  | Some sid =>
      attempt (Get m policy namespace sid) (fun _ =>
        do! Logout namespace sid in
        do! logout_others others in
        ret true)
  end.
