(* ===== verification/SessionProps.v ===== *)
(** * SessionProps: lifetimes, revocation and what races do to it *)

From S2P Require Import Prelude Redis Session.

(** ** Keys *)

Definition NamespaceConsole : string := "mxid:session:console".
Definition NamespacePortal : string := "mxid:session:portal".
Definition NamespaceProtocol : string := "mxid:session:protocol".

Definition known_ns (ns : string) : Prop :=
  ns = NamespaceConsole \/ ns = NamespacePortal \/ ns = NamespaceProtocol.

(** A uuid never starts like the suffix of an index key. *)
Definition uuid_like (id : string) : Prop := forall rest, id <> "user:" +:+ rest.

Lemma sessionKey_inj ns1 id1 ns2 id2 :
  known_ns ns1 -> known_ns ns2 -> sessionKey ns1 id1 = sessionKey ns2 id2 -> ns1 = ns2 /\ id1 = id2.
Proof.
  intros [->|[->| ->]] [->|[->| ->]]; unfold sessionKey; cbn; intros Heq;
    first [discriminate Heq | injection Heq as Heq; auto].
Qed.

Lemma userKey_inj ns1 u1 ns2 u2 :
  known_ns ns1 -> known_ns ns2 -> userKey ns1 u1 = userKey ns2 u2 -> ns1 = ns2 /\ u1 = u2.
Proof.
  intros [->|[->| ->]] [->|[->| ->]]; unfold userKey; cbn; intros Heq;
    first [discriminate Heq | injection Heq as Heq; split; [done|]; by apply (inj pretty)].
Qed.

Lemma session_user_ne ns1 id ns2 u :
  known_ns ns1 -> known_ns ns2 -> uuid_like id -> sessionKey ns1 id <> userKey ns2 u.
Proof.
  intros [->|[->| ->]] [->|[->| ->]] Hid; unfold sessionKey, userKey; cbn; intros Heq;
    first [discriminate Heq | injection Heq as Heq; by apply (Hid (pretty u))].
Qed.

(** ** Reads *)

Section Props.
Context (m : Manager).

(** [s] is stored under its key and has lifetime left. *)
Definition has (r : SRedis) (ns id : string) (s : Session) : Prop :=
  (exists d, peek (rkeys r) (rclock r) (sessionKey ns id) = Some (mkRKey (RStr s) d))
  /\ rclock r < ExpiresAt s.

Lemma read_or_inv {A} ns id (absent : M SRedis RErr A) k r r' x :
  read_or ns id absent k r = (r', x) ->
  exists r1, rkeys r1 = rkeys r /\ rclock r1 = rclock r /\ rfate r1 = rfate r
  /\ ((exists s d, peek (rkeys r) (rclock r) (sessionKey ns id) = Some (mkRKey (RStr s) d)
                   /\ k s r1 = (r', x))
      \/ (peek (rkeys r) (rclock r) (sessionKey ns id) = None /\ absent r1 = (r', x))
      \/ (r' = r1 /\ exists e, x = Err e)).
Proof.
  unfold read_or, attempt. destruct (GET (sessionKey ns id) r) as [r1 y] eqn:Hg. intros Hrun.
  apply command_inv in Hg as (Hc & Hf & Hcase). unfold get_f in Hcase. cbn in Hcase.
  exists r1. split_and!; [naive_solver | done | done |].
  destruct Hcase as [[_ ->]|(-> & _ & _)]; [|right; right; unfold throw in Hrun; simplify_eq; eauto].
  destruct (peek (rkeys r) (rclock r) (sessionKey ns id)) as [[[s|z|S] d]|] eqn:Hp; cbn in Hrun.
  - left. eauto.
  - right; right. unfold throw in Hrun. simplify_eq. eauto.
  - right; right. unfold throw in Hrun. simplify_eq. eauto.
  - right; left. done.
Qed.

Lemma Get_some pol ns id r r' s :
  Get m pol ns id r = (r', Ok (Some s)) ->
  (exists d, peek (rkeys r) (rclock r) (sessionKey ns id) = Some (mkRKey (RStr s) d))
  /\ rclock r <= ExpiresAt s /\ rclock r <= LastActiveAt s + (resolveTimeouts m pol).1
  /\ rkeys r' = rkeys r.
Proof.
  intros Hrun. apply read_or_inv in Hrun as (r1 & Hk & Hc & _ & [(s0 & d & Hp & Hrun)|[[_ Hrun]|[_ [e He]]]]);
    [|minv Hrun|discriminate].
  unfold Now, gets, bind in Hrun. destruct (resolveTimeouts m pol) as [idle abs]. rewrite Hc in Hrun.
  destruct ((ExpiresAt s0 <? rclock r) || (LastActiveAt s0 + idle <? rclock r)) eqn:Hx.
  - destruct (ignore (Delete ns id) r1) as [r2 [u|e]]; unfold ret in Hrun; simplify_eq.
  - unfold ret in Hrun. simplify_eq. to_prop. cbn. rewrite <- Hk. split_and!; [|lia|lia|done].
    rewrite Hk. eauto.
Qed.
(** A session the manager hands out is stored, within its absolute lifetime
    and not idle longer than the policy in force allows, and looking at it does
    not extend it: the store is as it was. *)
Theorem get_returns_only_live_sessions pol ns id r r' s :
  Get m pol ns id r = (r', Ok (Some s)) ->
  (exists d, peek (rkeys r) (rclock r) (sessionKey ns id) = Some (mkRKey (RStr s) d))
  /\ rclock r <= ExpiresAt s /\ rclock r <= LastActiveAt s + (resolveTimeouts m pol).1
  /\ rkeys r' = rkeys r.
Proof. apply Get_some. Qed.
End Props.

(** ** Lifetimes under any interleaving *)

Section Stored.
Context (P : Session -> Prop).

Definition stored_all (ks : gmap string (RKey Session)) : Prop :=
  forall k s d, ks !! k = Some (mkRKey (RStr s) d) -> P s.

(** [m] stores only sessions that satisfy [P] and does not move the clock. *)
Definition keeps {A} (op : M SRedis RErr A) : Prop :=
  forall r r' x, op r = (r', x) -> stored_all (rkeys r) ->
  stored_all (rkeys r') /\ rclock r' = rclock r.

Lemma session_keeps_ret {A} (a : A) : keeps (ret a).
Proof. intros r r' x Hr. unfold ret in Hr. by simplify_eq. Qed.

Lemma session_keeps_throw {A} e : keeps (@throw SRedis RErr A e).
Proof. intros r r' x Hr. unfold throw in Hr. by simplify_eq. Qed.

Lemma session_keeps_gets {A} (f : SRedis -> A) : keeps (gets f).
Proof. intros r r' x Hr. unfold gets in Hr. by simplify_eq. Qed.

Lemma session_keeps_bind {A B} (op : M SRedis RErr A) (k : A -> M SRedis RErr B) :
  keeps op -> (forall a, keeps (k a)) -> keeps (bind op k).
Proof.
  intros Hm Hk r r' x Hr Hs. apply bind_cases in Hr as [(e & Hr & _)|(a & r1 & Hr & Hr2)]; [eauto|].
  destruct (Hm _ _ _ Hr Hs) as [Hs1 Hc1]. destruct (Hk _ _ _ _ Hr2 Hs1) as [Hs2 Hc2]. by rewrite Hc2.
Qed.

Lemma session_keeps_attempt {A B} (op : M SRedis RErr A) (k : res RErr A -> M SRedis RErr B) :
  keeps op -> (forall a, keeps (k a)) -> keeps (attempt op k).
Proof.
  intros Hm Hk r r' x Hr Hs. unfold attempt in Hr. destruct (op r) as [r1 y] eqn:Hr1.
  destruct (Hm _ _ _ Hr1 Hs) as [Hs1 Hc1]. destruct (Hk _ _ _ _ Hr Hs1) as [Hs2 Hc2]. by rewrite Hc2.
Qed.

Lemma session_keeps_command {A} (f : gmap string (RKey Session) -> Z -> gmap string (RKey Session) * res RErr A) :
  (forall ks now, stored_all ks -> stored_all (f ks now).1) -> keeps (command f).
Proof.
  intros Hf r r' x Hr Hs. apply command_inv in Hr as (Hc & _ & Hcase). split; [|done].
  destruct Hcase as [[-> _]|(_ & _ & [->| ->])]; auto.
Qed.

Lemma stored_insert_other ks k e :
  stored_all ks -> (forall s, rval e <> RStr s) -> stored_all (<[k := e]> ks).
Proof.
  intros Hs He k' s d [[<- ->]|[_ Hk]]%lookup_insert_Some; [by destruct (He s) | eauto].
Qed.

Lemma stored_delete ks k : stored_all ks -> stored_all (delete k ks).
Proof. intros Hs k' s d [_ Hk]%lookup_delete_Some. eauto. Qed.

Lemma keeps_GET k : keeps (GET k).
Proof. by apply session_keeps_command. Qed.
Lemma keeps_DEL k : keeps (DEL k).
Proof. apply session_keeps_command. intros. by apply stored_delete. Qed.
Lemma keeps_SMEMBERS k : keeps (SMEMBERS k).
Proof. by apply session_keeps_command. Qed.

Lemma keeps_SADD k x : keeps (SADD k x).
Proof.
  apply session_keeps_command. intros ks now Hs. unfold sadd_f.
  repeat case_match; simpl; auto; apply stored_insert_other; try done; simpl; intros ?; discriminate.
Qed.

Lemma keeps_SREM k x : keeps (SREM k x).
Proof.
  apply session_keeps_command. intros ks now Hs. unfold srem_f.
  repeat case_match; simpl; auto; [by apply stored_delete|].
  apply stored_insert_other; [done|]; simpl; intros ?; discriminate.
Qed.

Lemma keeps_EXPIRE k ttl : keeps (EXPIRE k ttl).
Proof.
  apply session_keeps_command. intros ks now Hs. unfold expire_f.
  destruct (peek ks now k) as [[v d]|] eqn:Hp; simpl; [|done].
  apply peek_Some in Hp as [Hp _]. intros k' s d' [[<- ?]|[_ Hk]]%lookup_insert_Some; simplify_eq; eauto.
Qed.

Lemma keeps_save s : P s -> keeps (save s).
Proof.
  intros Hp. apply session_keeps_bind; [apply session_keeps_gets|]. intros now. cbv zeta.
  destruct (ExpiresAt s - now <=? 0); [apply session_keeps_ret|].
  apply session_keeps_command. intros ks t Hs k' s' d Hk. cbn in Hk.
  apply lookup_insert_Some in Hk as [[<- ?]|[_ Hk]]; simplify_eq; eauto.
Qed.

Lemma keeps_ignore {A} (op : M SRedis RErr A) : keeps op -> keeps (ignore op).
Proof. intros Hk. apply session_keeps_attempt; [done|]. intros. apply session_keeps_ret. Qed.
End Stored.

#[export] Hint Resolve session_keeps_ret session_keeps_throw session_keeps_gets keeps_GET keeps_DEL keeps_SMEMBERS keeps_SADD
  keeps_SREM keeps_EXPIRE keeps_ignore : mxid.

Ltac keeps_auto :=
  repeat first
    [ solve [eauto with mxid]
    | apply keeps_ignore
    | apply session_keeps_bind; [|intros ?]
    | apply session_keeps_attempt; [|intros ?]
    | case_match ].

Section Lifetime.
Context (m : Manager).

Lemma keeps_Get P pol ns id : keeps P (Get m pol ns id).
Proof. unfold Get, read_or, Delete, Now. keeps_auto. Qed.

Lemma keeps_list P pol ns u ids : keeps P (list_sessions m pol ns u ids).
Proof.
  induction ids as [|id ids IH]; cbn [list_sessions]; keeps_auto.
Qed.

Lemma keeps_ListByUser P pol ns u : keeps P (ListByUser m pol ns u).
Proof. unfold ListByUser. apply session_keeps_bind; [keeps_auto|]. intros. apply keeps_list. Qed.

Lemma keeps_DeleteAllByUser P pol ns u : keeps P (DeleteAllByUser m pol ns u).
Proof.
  unfold DeleteAllByUser. apply session_keeps_bind; [apply keeps_ListByUser|]. intros a.
  apply session_keeps_bind; [|intros; keeps_auto].
  induction a as [|s ss IH]; cbn [delete_sessions]; unfold Delete; keeps_auto.
Qed.

(** What a mutator writes back, from the session it read. *)
Inductive mutation (now : Z) : (Session -> Session) -> Prop :=
| mut_touch : mutation now (set_last now)
| mut_mfa : mutation now (set_mfa (Some now))
| mut_carry t : t <= now -> mutation now (set_mfa (Some t))
| mut_enroll b : mutation now (set_enroll b)
| mut_pwd b : mutation now (set_pwd b).

Definition at_clock (now : Z) (r : SRedis) : SRedis := mkRedis (rkeys r) now (rfate r) (rcalls r).

(** The store and the sessions in the hands of mutators that have read and not
    yet written. Policies in force never allow more than [A]; any command may
    fail; a mutator writes, if it writes at all, at any later time. *)
Inductive sess_step (A : Z) : SRedis * list Session -> SRedis * list Session -> Prop :=
| ss_clock r fl now : rclock r <= now -> sess_step A (r, fl) (at_clock now r, fl)
| ss_create r r' fl pol id ns u t ip ua ty x :
    (resolveTimeouts m pol).2 <= A -> Create m pol id ns u t ip ua ty r = (r', x) ->
    sess_step A (r, fl) (r', fl)
| ss_get r r' fl pol ns id x : Get m pol ns id r = (r', x) -> sess_step A (r, fl) (r', fl)
| ss_delete r r' fl ns id x : Delete ns id r = (r', x) -> sess_step A (r, fl) (r', fl)
| ss_list r r' fl pol ns u x : ListByUser m pol ns u r = (r', x) -> sess_step A (r, fl) (r', fl)
| ss_delete_all r r' fl pol ns u x :
    DeleteAllByUser m pol ns u r = (r', x) -> sess_step A (r, fl) (r', fl)
| ss_read r r' fl ns id s :
    GET (sessionKey ns id) r = (r', Ok s) -> sess_step A (r, fl) (r', s :: fl)
| ss_write r r' fl f s x :
    s ∈ fl -> mutation (rclock r) f -> save (f s) r = (r', x) -> sess_step A (r, fl) (r', fl).

Definition sane (A now : Z) (s : Session) : Prop :=
  CreatedAt s <= now /\ ExpiresAt s <= CreatedAt s + A
  /\ forall t, MFAVerifiedAt s = Some t -> t <= now.

Definition sess_inv (A : Z) (st : SRedis * list Session) : Prop :=
  stored_all (sane A (rclock st.1)) (rkeys st.1) /\ Forall (sane A (rclock st.1)) st.2.

Lemma sane_later A now now' s : now <= now' -> sane A now s -> sane A now' s.
Proof. intros Hle (H1 & H2 & H3). split_and!; [lia | done |]. intros t Ht. specialize (H3 t Ht). lia. Qed.

Lemma sane_mutation A now f s : mutation now f -> sane A now s -> sane A now (f s).
Proof.
  intros Hf (H1 & H2 & H3). destruct Hf; (split_and!; [exact H1 | exact H2 |]); cbn; intros; simplify_eq; auto; lia.
Qed.

Lemma session_keeps_Create A pol id ns u t ip ua ty r r' x :
  (resolveTimeouts m pol).2 <= A -> Create m pol id ns u t ip ua ty r = (r', x) ->
  stored_all (sane A (rclock r)) (rkeys r) ->
  stored_all (sane A (rclock r)) (rkeys r') /\ rclock r' = rclock r.
Proof.
  intros Hle Hrun Hs. unfold Create in Hrun. destruct (resolveTimeouts m pol) as [idle abs]. cbn in Hle.
  unfold Now in Hrun. unfold gets, bind at 1 in Hrun. revert Hrun Hs. apply session_keeps_bind.
  - apply keeps_save. split_and!; cbn; [lia | lia | discriminate].
  - intros _. keeps_auto.
Qed.

Lemma sess_step_inv A st st' : sess_step A st st' -> sess_inv A st -> sess_inv A st'.
Proof.
  intros Hstep [Hs Hfl]. unfold sess_inv in *. destruct Hstep; cbn [fst snd] in *.
  - split; [intros k s d Hk; eapply sane_later, Hs; eauto|].
    eapply Forall_impl; [exact Hfl|]. intros s. by apply sane_later.
  - eapply session_keeps_Create in H0 as [H1 ->]; eauto.
  - eapply keeps_Get in H as [H1 ->]; eauto.
  - eapply keeps_DEL in H as [H1 ->]; eauto.
  - eapply keeps_ListByUser in H as [H1 ->]; eauto.
  - eapply keeps_DeleteAllByUser in H as [H1 ->]; eauto.
  - apply command_inv in H as (Hc & _ & [[Hk Hx]|(Hx & _ & _)]); [|discriminate].
    cbn in Hk, Hx. rewrite Hc, Hk. split; [done|]. constructor; [|done].
    destruct (peek (rkeys r) (rclock r) (sessionKey ns id)) as [[[v|z|S] d]|] eqn:Hp; simplify_eq.
    apply peek_Some in Hp as [Hp _]. eauto.
  - rewrite Forall_forall in Hfl. pose proof (sane_mutation _ _ _ _ H0 (Hfl _ H)) as Hsane.
    destruct (keeps_save _ _ Hsane _ _ _ H1 Hs) as [Hs' ->].
    split; [done|]. by apply Forall_forall.
Qed.

(** No session outlives the absolute timeout. Whatever the interleaving of
    logins, reads, deletions and half-finished mutators, with commands failing
    anywhere and the clock moving in between, a session the manager hands out is
    at most [A] old ([A] bounds the absolute timeouts in force at the logins), was
    not created in the future and claims no second-factor check in the future. *)
Theorem no_session_outlives_absolute_timeout A r0 r fl pol ns id r' s :
  rkeys r0 = ∅ -> rtc (sess_step A) (r0, []) (r, fl) ->
  Get m pol ns id r = (r', Ok (Some s)) ->
  CreatedAt s <= rclock r <= CreatedAt s + A
  /\ forall t, MFAVerifiedAt s = Some t -> t <= rclock r.
Proof.
  intros H0 Hsteps Hget.
  assert (sess_inv A (r, fl)) as [Hs _].
  { eapply rtc_invariant; [apply sess_step_inv | exact Hsteps |].
    split; [|constructor]. intros k s' d. cbn. by rewrite H0, lookup_empty. }
  apply Get_some in Hget as ((d & Hp) & Hle & _).
  apply peek_Some in Hp as [Hp _]. destruct (Hs _ _ _ Hp) as (H1 & H2 & H3). cbn in *.
  split; [lia | done].
Qed.
End Lifetime.
(** ** Revocation *)

Section Revocation.
Context (m : Manager) (A : Z).

(** Every session with lifetime left is in its user's index, and the index lives
    at least as long. *)
Definition indexed (r : SRedis) : Prop :=
  (forall k s d, rkeys r !! k = Some (mkRKey (RStr s) d) ->
     known_ns (Namespace s) /\ uuid_like (ID s) /\ k = sessionKey (Namespace s) (ID s)
     /\ ExpiresAt s <= rclock r + A)
  /\ (forall ns u e, known_ns ns -> rkeys r !! userKey ns u = Some e ->
        exists S, rval e = RSet S /\ forall id, id ∈ S -> uuid_like id)
  /\ (forall ns id s, has r ns id s -> known_ns ns ->
        exists S dx, rkeys r !! userKey ns (UserID s) = Some (mkRKey (RSet S) (Some dx))
                     /\ id ∈ S /\ ExpiresAt s <= dx).

Lemma has_shape r ns id s :
  indexed r -> known_ns ns -> has r ns id s -> Namespace s = ns /\ ID s = id /\ uuid_like id.
Proof.
  intros (Hk & _) Hns ((d & Hp) & _). apply peek_Some in Hp as [Hp _].
  destruct (Hk _ _ _ Hp) as (Hn & Hu & Heq & _).
  apply sessionKey_inj in Heq as [-> ->]; auto.
Qed.

(** Keys and clock of a run without failures. *)
Definition same_env (r r' : SRedis) : Prop := rclock r' = rclock r /\ rfate r' = rfate r.

Lemma Get_fine pol ns id r r' x :
  fine r -> Get m pol ns id r = (r', x) ->
  same_env r r' /\
  match peek (rkeys r) (rclock r) (sessionKey ns id) with
  | Some (mkRKey (RStr s) _) =>
      if (ExpiresAt s <? rclock r) || (LastActiveAt s + (resolveTimeouts m pol).1 <? rclock r)
      then rkeys r' = delete (sessionKey ns id) (rkeys r) /\ x = Ok None
      else rkeys r' = rkeys r /\ x = Ok (Some s)
  | None => rkeys r' = rkeys r /\ x = Ok None
  | Some _ => rkeys r' = rkeys r /\ x = Err RErrWrongType
  end.
Proof.
  intros Hf. unfold Get, read_or, attempt, GET. rewrite (command_fine _ _ Hf). cbn [get_f fst snd].
  destruct (peek (rkeys r) (rclock r) (sessionKey ns id)) as [[[s|z|S] d]|] eqn:Hp;
    unfold Now, gets, bind, ret, throw, ignore, attempt, Delete, DEL; cbn.
  2-4: intros; simplify_eq; by repeat split.
  destruct (resolveTimeouts m pol) as [idle abs]. cbn [fst].
  case_match; [rewrite command_fine by (intros n; apply Hf); cbn|]; intros; simplify_eq; by repeat split.
Qed.

(** Deleting a session key loses that session and nothing else. *)
Lemma indexed_delete r r' ns id :
  indexed r -> known_ns ns -> uuid_like id -> same_env r r' ->
  rkeys r' = delete (sessionKey ns id) (rkeys r) ->
  indexed r' /\ forall ns' id' s, known_ns ns' -> has r' ns' id' s ->
    has r ns' id' s /\ (ns', id') <> (ns, id).
Proof.
  intros (Hk & Hu & Hi) Hns Hid [Hc _] Hkeys.
  assert (forall ns' id' s, known_ns ns' -> has r' ns' id' s -> has r ns' id' s /\ (ns', id') <> (ns, id)) as Hhas.
  { intros ns' id' s Hns' ((d & Hp) & Hlt). rewrite Hkeys, Hc in *.
    destruct (decide (sessionKey ns id = sessionKey ns' id')) as [Heq|Hne].
    - rewrite Heq, peek_delete_eq in Hp. discriminate.
    - rewrite peek_delete_ne in Hp by done. split; [by repeat split; eauto|]. congruence. }
  split; [|done]. split_and!.
  - intros k s d Hs. rewrite Hkeys in Hs. apply lookup_delete_Some in Hs as [_ Hs]. rewrite Hc. eauto.
  - intros ns' u e Hns' He. rewrite Hkeys in He. apply lookup_delete_Some in He as [_ He]. eauto.
  - intros ns' id' s Hh Hns'. destruct (Hhas _ _ _ Hns' Hh) as [Hh' _].
    destruct (Hi _ _ _ Hh' Hns') as (S & dx & HS & Hrest). exists S, dx. split; [|done].
    rewrite Hkeys, lookup_delete_ne; [done|]. by apply session_user_ne.
Qed.

(** Dropping a member whose session is gone. *)
Lemma indexed_srem r r' ns u id :
  indexed r -> known_ns ns -> (forall s, ~ has r ns id s) -> same_env r r' ->
  rkeys r' = (srem_f (userKey ns u) id (rkeys r) (rclock r)).1 ->
  indexed r' /\ forall ns' id' s, known_ns ns' -> (has r' ns' id' s <-> has r ns' id' s).
Proof.
  intros (Hk & Hu & Hi) Hns Hno [Hc _] Hkeys.
  destruct (peek (rkeys r) (rclock r) (userKey ns u)) as [[v d]|] eqn:Hp.
  2: { unfold srem_f in Hkeys. rewrite Hp in Hkeys. cbn in Hkeys.
       unfold indexed, has. rewrite Hkeys, Hc.
       split; [exact (conj Hk (conj Hu Hi)) | intros; reflexivity]. }
  pose proof Hp as [Hp0 _]%peek_Some. destruct (Hu _ _ _ Hns Hp0) as (S & Hv & HS). cbn in Hv. subst v.
  unfold srem_f in Hkeys. rewrite Hp in Hkeys. cbn in Hkeys.
  assert (forall k, k <> userKey ns u -> rkeys r' !! k = rkeys r !! k) as Hother.
  { intros k Hne. rewrite Hkeys. case_decide; [by rewrite lookup_delete_ne | by rewrite lookup_insert_ne]. }
  assert (forall e, rkeys r' !! userKey ns u = Some e -> S ∖ {[id]} <> ∅ /\ e = mkRKey (RSet (S ∖ {[id]})) d) as Hmine.
  { intros e. rewrite Hkeys. case_decide; [by rewrite lookup_delete_eq|]. rewrite lookup_insert_eq. intros; by simplify_eq. }
  assert (forall k s d', rkeys r' !! k = Some (mkRKey (RStr s) d') <-> rkeys r !! k = Some (mkRKey (RStr s) d')) as Hstr.
  { intros k s d'. destruct (decide (k = userKey ns u)) as [->|Hne]; [|by rewrite Hother].
    rewrite Hp0. split; intros He; [apply Hmine in He as [_ ?]|]; simplify_eq. }
  assert (forall ns' id' s, known_ns ns' -> (has r' ns' id' s <-> has r ns' id' s)) as Hhas.
  { intros ns' id' s _. unfold has. rewrite Hc. setoid_rewrite peek_Some. by setoid_rewrite Hstr. }
  split; [|done]. split_and!.
  - intros k s d'. rewrite Hstr, Hc. apply Hk.
  - intros ns' u' e Hns' He. destruct (decide (userKey ns' u' = userKey ns u)) as [Heq|Hne].
    + rewrite Heq in He. apply Hmine in He as [_ ->]. eexists. split; [done|]. set_solver.
    + rewrite Hother in He by done. eauto.
  - intros ns' id' s Hh Hns'. pose proof (proj1 (Hhas _ _ _ Hns') Hh) as Hh0.
    destruct (Hi _ _ _ Hh0 Hns') as (S' & dx & HS' & Hin & Hle).
    destruct (decide (userKey ns' (UserID s) = userKey ns u)) as [Heq|Hne].
    + rewrite Heq, Hp0 in HS'. simplify_eq. apply userKey_inj in Heq as [-> ->]; [|done..].
      assert (id' <> id) by (intros ->; by eapply Hno). exists (S' ∖ {[id]}), dx.
      split_and!; [|set_solver|done]. rewrite Hkeys. case_decide; [set_solver | by rewrite lookup_insert_eq].
    + exists S', dx. rewrite Hother by done. done.
Qed.

Lemma SREM_fine k x r r' y :
  fine r -> ignore (@SREM Session k x) r = (r', y) ->
  same_env r r' /\ rkeys r' = (srem_f k x (rkeys r) (rclock r)).1 /\ y = Ok tt.
Proof. intros Hf. unfold ignore, attempt, SREM. rewrite (command_fine _ _ Hf). intros Hr. unfold ret in Hr. by simplify_eq. Qed.

Lemma fine_env r r' : same_env r r' -> fine r -> fine r'.
Proof. intros [_ Hf] Hr n. by rewrite Hf. Qed.

Lemma same_has r r' ns id s : rkeys r' = rkeys r -> same_env r r' -> has r' ns id s <-> has r ns id s.
Proof. intros Hk [Hc _]. unfold has. by rewrite Hk, Hc. Qed.

Lemma same_indexed r r' : rkeys r' = rkeys r -> same_env r r' -> indexed r -> indexed r'.
Proof. intros Hk [Hc _] Hi. unfold indexed, has. rewrite Hk, Hc. exact Hi. Qed.

Lemma same_env_trans r1 r2 r3 : same_env r1 r2 -> same_env r2 r3 -> same_env r1 r3.
Proof. intros [H1 H2] [H3 H4]. split; congruence. Qed.

(** [r'] keeps the invariant and holds no session [r] does not hold. *)
Definition shrinks (r r' : SRedis) : Prop :=
  same_env r r' /\ indexed r' /\ forall ns id s, known_ns ns -> has r' ns id s -> has r ns id s.

Lemma shrinks_trans r1 r2 r3 : shrinks r1 r2 -> shrinks r2 r3 -> shrinks r1 r3.
Proof.
  intros (E1 & _ & H1) (E2 & I2 & H2). split_and!; [by eapply same_env_trans | done |]. auto.
Qed.

Lemma same_shrinks r r' : rkeys r' = rkeys r -> same_env r r' -> indexed r -> shrinks r r'.
Proof.
  intros Hk He Hi. split_and!; [done | by apply (same_indexed r) |].
  intros ns id s _. apply (same_has r r' ns id s Hk He).
Qed.

(** A stale reference is dropped: the id has no session with lifetime left. *)
Lemma drop_stale ns u id r r' y :
  fine r -> indexed r -> known_ns ns -> (forall s, ~ has r ns id s) ->
  ignore (SREM (userKey ns u) id) r = (r', y) -> shrinks r r' /\ y = Ok tt.
Proof.
  intros Hf Hi Hns Hno Hr. apply SREM_fine in Hr as (He & Hk & ->); [|done].
  destruct (indexed_srem _ _ _ _ _ Hi Hns Hno He Hk) as [Hi' Hh]. split; [|done].
  split_and!; [done | done |]. intros ns' id' s Hns'. by apply Hh.
Qed.

(** One [Get] of the listing: what it answers and what it leaves. *)
Lemma get_step pol ns id r r' x :
  fine r -> indexed r -> known_ns ns -> uuid_like id -> Get m pol ns id r = (r', x) ->
  shrinks r r' /\
  match x with
  | Ok (Some s) => uuid_like (ID s) /\ forall s', has r' ns id s' -> s' = s
  | _ => forall s', ~ has r' ns id s'
  end.
Proof.
  intros Hf Hi Hns Hid Hg. apply Get_fine in Hg as [He Hcase]; [|done].
  destruct (peek (rkeys r) (rclock r) (sessionKey ns id)) as [[[s|z|S] d]|] eqn:Hp.
  2-4: destruct Hcase as [Hk ->]; (split; [by apply same_shrinks|]);
       intros s' Hh; apply (same_has _ _ _ _ _ Hk He) in Hh as ((d' & Hh) & _); congruence.
  case_match; destruct Hcase as [Hk ->].
  - destruct (indexed_delete _ _ _ _ Hi Hns Hid He Hk) as [Hi' Hh]. split.
    + split_and!; [done | done |]. intros ns' id' s' Hns' Hh'. by apply Hh.
    + intros s' Hh'. destruct (Hh _ _ _ Hns Hh') as [_ Hne]. by apply Hne.
  - split; [by apply same_shrinks|]. split.
    { apply peek_Some in Hp as [Hp _]. by apply Hi in Hp as (_ & Hu & _). }
    intros s' Hh. apply (same_has _ _ _ _ _ Hk He) in Hh as ((d' & Hh) & _). congruence.
Qed.

(** Listing returns every session with lifetime left that it leaves behind under
    the ids it was given. *)
Lemma list_sessions_spec pol ns u ids r r' x :
  fine r -> indexed r -> known_ns ns -> (forall id, id ∈ ids -> uuid_like id) ->
  list_sessions m pol ns u ids r = (r', x) ->
  shrinks r r' /\ exists l, x = Ok l /\ (forall s, s ∈ l -> uuid_like (ID s))
  /\ forall id s, id ∈ ids -> has r' ns id s -> s ∈ l.
Proof.
  revert r r' x. induction ids as [|id ids IH]; intros r r' x Hf Hi Hns Hids Hrun; cbn [list_sessions] in Hrun.
  { unfold ret in Hrun. simplify_eq. split; [by split_and!|]. exists []. split_and!; [done | set_solver | set_solver]. }
  unfold attempt in Hrun. destruct (Get m pol ns id r) as [r1 y] eqn:Hg.
  apply get_step in Hg as [Hsh Hy]; [|done|done|done|apply Hids; left].
  pose proof Hsh as (He1 & Hi1 & _). pose proof (fine_env _ _ He1 Hf) as Hf1.
  assert (forall r2, shrinks r1 r2 -> fine r2) as Hfine2.
  { intros r2 (He & _). by eapply fine_env. }
  destruct y as [[s|]|e].
  - apply bind_cases in Hrun as [(e & Hrun & ->)|(l & r2 & Hrun & Hret)].
    + apply IH in Hrun as (_ & l & ? & _ & _); [discriminate | done | done | done | set_solver].
    + apply IH in Hrun as (Hsh2 & l' & ? & Hu & Hl); [|done | done | done | set_solver].
      unfold ret in Hret. simplify_eq. split; [by eapply shrinks_trans|].
      exists (s :: l'). destruct Hy as [Hus Hy]. split_and!; [done | intros s1 [->|Hin]%elem_of_cons; auto |].
      intros id0 s0 [->|Hin]%elem_of_cons Hh; [|right; by eapply Hl].
      rewrite (Hy s0); [left|]. by apply Hsh2.
  - apply bind_cases in Hrun as [(e & Hrun & ->)|([] & r2 & Hrun & Hrest)];
      apply drop_stale in Hrun as [Hsh2 ?]; try done.
    pose proof Hsh2 as (_ & Hi2 & Hh2).
    apply IH in Hrest as (Hsh3 & l' & -> & Hu & Hl); [|by apply Hfine2 | done | done | set_solver].
    split; [eapply shrinks_trans; [done|]; by eapply shrinks_trans|].
    exists l'. split_and!; [done | done |]. intros id0 s0 [->|Hin]%elem_of_cons Hh; [|by eapply Hl].
    destruct (Hy s0). apply Hh2; [done|]. by apply Hsh3.
  - apply IH in Hrun as (Hsh3 & l' & -> & Hu & Hl); [|done | done | done | set_solver].
    split; [by eapply shrinks_trans|]. exists l'. split_and!; [done | done |].
    intros id0 s0 [->|Hin]%elem_of_cons Hh; [|by eapply Hl]. destruct (Hy s0). by apply Hsh3.
Qed.

Lemma delete_sessions_spec ns ss r r' x :
  fine r -> indexed r -> known_ns ns -> (forall s, s ∈ ss -> uuid_like (ID s)) ->
  delete_sessions ns ss r = (r', x) ->
  shrinks r r' /\ x = Ok tt /\ forall s0 s, s0 ∈ ss -> ~ has r' ns (ID s0) s.
Proof.
  revert r r' x. induction ss as [|s1 ss IH]; intros r r' x Hf Hi Hns Hids Hrun; cbn [delete_sessions] in Hrun.
  { unfold ret in Hrun. simplify_eq. split_and!; [done..| |]; set_solver. }
  unfold bind, ignore, attempt, Delete, DEL in Hrun. rewrite (command_fine _ _ Hf) in Hrun. cbn [del_f fst snd] in Hrun.
  unfold ret in Hrun at 1.
  set (r1 := mkRedis (delete (sessionKey ns (ID s1)) (rkeys r)) (rclock r) (rfate r) (S (rcalls r))) in *.
  destruct (indexed_delete r r1 ns (ID s1)) as [Hi1 Hh1]; [done | done | apply Hids; left | done | done |].
  apply IH in Hrun as (Hsh & -> & Hgone); [|done | done | done | set_solver].
  assert (shrinks r r1) as Hsh1 by (split_and!; [done | done |]; intros; by apply Hh1).
  split_and!; [by eapply shrinks_trans | done |].
  intros s0 s [->|Hin]%elem_of_cons; [|by apply Hgone]. intros Hh.
  destruct (Hh1 ns (ID s1) s Hns) as [_ Hne]; [by apply Hsh | by apply Hne].
Qed.

Lemma index_lookup r ns u :
  indexed r -> known_ns ns ->
  match peek (rkeys r) (rclock r) (userKey ns u) with
  | None => True
  | Some e => exists S d, e = mkRKey (RSet S) d /\ forall id, id ∈ S -> uuid_like id
  end.
Proof.
  intros (_ & Hu & _) Hns. destruct (peek _ _ _) as [[v d]|] eqn:Hp; [|done].
  apply peek_Some in Hp as [Hp _]. destruct (Hu _ _ _ Hns Hp) as (S & Hv & HS). cbn in Hv. subst. eauto.
Qed.

(** Dropping the index of a user without sessions. *)
Lemma indexed_drop_index r r' ns u :
  indexed r -> known_ns ns -> same_env r r' -> rkeys r' = delete (userKey ns u) (rkeys r) ->
  (forall id s, has r ns id s -> UserID s <> u) -> shrinks r r'.
Proof.
  intros Hi0 Hns [Hc Hf] Hk Hno. pose proof Hi0 as (Hs & Hu & Hi).
  assert (forall ns' id s, has r' ns' id s -> has r ns' id s) as Hh.
  { intros ns' id s ((d & Hp) & Hlt). rewrite Hc in *. apply peek_Some in Hp as [Hp Ha].
    rewrite Hk in Hp. apply lookup_delete_Some in Hp as [_ Hp]. split; [|done]. exists d. by apply peek_Some. }
  split_and!; [done | | auto]. split_and!.
  - intros k s d Hp. rewrite Hk in Hp. apply lookup_delete_Some in Hp as [_ Hp]. rewrite Hc. eauto.
  - intros ns' u' e Hns' He. rewrite Hk in He. apply lookup_delete_Some in He as [_ He]. eauto.
  - intros ns' id s Hh' Hns'. destruct (Hi _ _ _ (Hh _ _ _ Hh') Hns') as (S & dx & HS & Hrest).
    exists S, dx. split; [|done]. rewrite Hk, lookup_delete_ne; [done|].
    intros Heq. apply userKey_inj in Heq as [-> Heq]; [|done..].
    by eapply Hno; [apply Hh, Hh'|].
Qed.

Lemma DeleteAllByUser_spec pol ns u r r' x :
  fine r -> indexed r -> known_ns ns -> DeleteAllByUser m pol ns u r = (r', x) ->
  shrinks r r' /\ x = Ok tt /\ forall id s, has r' ns id s -> UserID s <> u.
Proof.
  intros Hf Hi Hns Hrun. unfold DeleteAllByUser, ListByUser, SMEMBERS in Hrun.
  set (ids := match peek (rkeys r) (rclock r) (userKey ns u) with
              | Some (mkRKey (RSet ms) _) => elements ms | _ => [] end).
  set (r0 := mkRedis (rkeys r) (rclock r) (rfate r) (S (rcalls r))).
  assert (shrinks r r0) as Hsh0 by by apply same_shrinks.
  assert (command (smembers_f (userKey ns u)) r = (r0, Ok ids)) as Hsm.
  { rewrite (command_fine _ _ Hf). unfold smembers_f, ids. cbn [fst snd].
    pose proof (index_lookup r ns u Hi Hns) as Hix.
    destruct (peek _ _ _) as [e|]; [destruct Hix as (S & d & -> & _)|]; done. }
  unfold bind at 1 2 in Hrun. rewrite Hsm in Hrun.
  assert (forall id, id ∈ ids -> uuid_like id) as Hids.
  { unfold ids. pose proof (index_lookup r ns u Hi Hns) as Hix. intros id.
    destruct (peek _ _ _) as [e|]; [destruct Hix as (S & d & -> & HS)|]; [|set_solver].
    rewrite elem_of_elements. apply HS. }
  destruct (list_sessions m pol ns u ids r0) as [r1 y] eqn:Hl.
  apply list_sessions_spec in Hl as (Hsh1 & l & -> & Hul & Hmem); [|done | apply Hsh0 | done | done].
  assert (fine r1) as Hf1 by (eapply fine_env; [apply Hsh1 | done]).
  apply bind_cases in Hrun as [(e & Hrun & ->)|([] & r2 & Hrun & Hdel)];
    apply delete_sessions_spec in Hrun as (Hsh2 & ? & Hgone); try done; try apply Hsh1.
  pose proof (shrinks_trans _ _ _ Hsh0 (shrinks_trans _ _ _ Hsh1 Hsh2)) as Hsh.
  assert (forall id s, has r2 ns id s -> UserID s <> u) as Hnone.
  { intros id s Hh Hu. assert (has r ns id s) as Hr by by apply Hsh.
    pose proof (has_shape r ns id s Hi Hns Hr) as (_ & Hid & _).
    pose proof Hi as (_ & _ & Hix). destruct (Hix _ _ _ Hr Hns) as (S & dx & HS & Hin & Hle).
    assert (s ∈ l) as Hl.
    { apply (Hmem id); [|by apply Hsh2]. unfold ids. rewrite <- Hu.
      assert (peek (rkeys r) (rclock r) (userKey ns (UserID s)) = Some (mkRKey (RSet S) (Some dx))) as ->.
      { apply peek_Some. split; [done|]. cbn. apply Z.ltb_lt. destruct Hr as [_ Hr]. lia. }
      by apply elem_of_elements. }
    apply (Hgone s s Hl). by rewrite Hid. }
  unfold DEL in Hdel. rewrite command_fine in Hdel by (eapply fine_env; [apply Hsh2 | done]).
  cbn [del_f fst snd] in Hdel. simplify_eq.
  set (r3 := mkRedis _ _ _ _). assert (shrinks r2 r3) as Hsh3.
  { eapply indexed_drop_index; [apply Hsh2 | exact Hns | done | done | done]. }
  split_and!; [by eapply shrinks_trans | done |]. intros id s Hh. eapply Hnone. by apply Hsh3.
Qed.

(** Writing back a session that was read: same identity, same lifetime. *)
Lemma indexed_set r r' ns id s s' d :
  indexed r -> known_ns ns -> uuid_like id ->
  peek (rkeys r) (rclock r) (sessionKey ns id) = Some (mkRKey (RStr s) d) ->
  ID s' = ID s -> Namespace s' = Namespace s -> UserID s' = UserID s -> ExpiresAt s' = ExpiresAt s ->
  same_env r r' ->
  rkeys r' = <[sessionKey ns id := mkRKey (RStr s') (Some (rclock r + px (ExpiresAt s - rclock r)))]> (rkeys r) ->
  indexed r'.
Proof.
  intros (Hs & Hu & Hi) Hns Hid Hp Eid Ens Euid Eexp [Hc _] Hk.
  pose proof Hp as [Hp0 _]%peek_Some. destruct (Hs _ _ _ Hp0) as (Hn1 & Hu1 & Hkey & Hexp).
  assert (forall ns' u, known_ns ns' -> rkeys r' !! userKey ns' u = rkeys r !! userKey ns' u) as Hidx.
  { intros ns' u Hns'. rewrite Hk. apply lookup_insert_ne. by apply session_user_ne. }
  split_and!.
  - intros k s0 d0 Hk0. rewrite Hk in Hk0. apply lookup_insert_Some in Hk0 as [[<- ?]|[_ Hk0]].
    + simplify_eq. rewrite Ens, Eid, Eexp, Hc. by split_and!.
    + rewrite Hc. eauto.
  - intros ns' u e Hns' He. rewrite Hidx in He by done. eauto.
  - intros ns' id' s0 ((d0 & Hp') & Hlt) Hns'. rewrite Hidx by done. rewrite Hc in *.
    apply peek_Some in Hp' as [Hk0 Ha]. rewrite Hk in Hk0.
    apply lookup_insert_Some in Hk0 as [[Heq ?]|[_ Hk0]].
    + simplify_eq. apply sessionKey_inj in Heq as [<- <-]; [|done..].
      rewrite Euid, Eexp. apply Hi; [|done]. split; [eauto | by rewrite <- Eexp].
    + apply (Hi ns' id'); [|done]. split; [|done]. exists d0. by apply peek_Some.
Qed.

(** Every mutator keeps the identity and the lifetime. *)
Definition keeps_identity (f : Session -> Session) : Prop :=
  forall s, ID (f s) = ID s /\ Namespace (f s) = Namespace s /\ UserID (f s) = UserID s
            /\ ExpiresAt (f s) = ExpiresAt s.

Lemma indexed_mutator r r' ns id (k : Session -> M SRedis RErr unit) x :
  (forall s r1, exists f, keeps_identity f /\ k s r1 = save (f s) r1) ->
  fine r -> indexed r -> known_ns ns -> uuid_like id ->
  read_or ns id (ret tt) k r = (r', x) -> indexed r' /\ same_env r r'.
Proof.
  intros Hk Hf Hi Hns Hid Hrun.
  apply read_or_inv in Hrun as (r1 & Hk1 & Hc1 & Hf1 & Hcase).
  assert (same_env r r1) as He1 by done. pose proof (same_indexed r r1 Hk1 He1 Hi) as Hi1.
  destruct Hcase as [(s & d & Hp & Hrun)|[[_ Hrun]|[-> _]]]; [|unfold ret in Hrun; by simplify_eq|done].
  destruct (Hk s r1) as (f & Hf' & Heq). rewrite Heq in Hrun. clear Heq.
  destruct (Hf' s) as (E1 & E2 & E3 & E4).
  unfold save, Now, gets, bind in Hrun. rewrite E4, Hc1 in Hrun.
  pose proof Hp as [Hp0 _]%peek_Some. pose proof Hi as (Hs & _ & _).
  destruct (Hs _ _ _ Hp0) as (Hn1 & Hu1 & Hkey & _).
  destruct (_ <=? 0) eqn:Hle; [unfold ret in Hrun; by simplify_eq|]. apply Z.leb_gt in Hle.
  unfold SET in Hrun. rewrite command_fine in Hrun by (eapply fine_env; eauto).
  rewrite set_f_pos in Hrun by lia. cbn [fst snd] in Hrun. simplify_eq. split; [|split; done].
  rewrite E1, E2, <- Hkey, Hk1, Hc1.
  eapply (indexed_set r _ ns id s); try done.
Qed.

(** A login: the session and its entry in the refreshed index. *)
Lemma indexed_login r r' ns u id s (ids : gset string) :
  indexed r -> known_ns ns -> uuid_like id -> same_env r r' ->
  ID s = id -> Namespace s = ns -> UserID s = u -> ExpiresAt s = rclock r + A ->
  id ∈ ids -> (forall x, x ∈ ids -> uuid_like x) ->
  (forall id' s', has r ns id' s' -> UserID s' = u -> id' ∈ ids) ->
  rkeys r' = <[userKey ns u := mkRKey (RSet ids) (Some (rclock r + A))]>
               (<[sessionKey ns id := mkRKey (RStr s) (Some (rclock r + px A))]> (rkeys r)) ->
  indexed r'.
Proof.
  intros (Hs & Hu & Hi) Hns Hid [Hc _] <- Ens Euid Eexp Hin Hids Hall Hk.
  assert (forall k e, rkeys r' !! k = Some e -> (k = userKey ns u /\ e = mkRKey (RSet ids) (Some (rclock r + A)))
    \/ (k = sessionKey ns (ID s) /\ e = mkRKey (RStr s) (Some (rclock r + px A)))
    \/ (k <> userKey ns u /\ rkeys r !! k = Some e)) as Hcases.
  { intros k e He. rewrite Hk in He. apply lookup_insert_Some in He as [[<- <-]|[Hne He]]; [by left|].
    apply lookup_insert_Some in He as [[<- <-]|[_ He]]; [by right; left | right; right; done]. }
  assert (rkeys r' !! userKey ns u = Some (mkRKey (RSet ids) (Some (rclock r + A)))) as Hmine
    by (by rewrite Hk, lookup_insert_eq).
  split_and!.
  - intros k s0 d0 Hk0. rewrite Hc. apply Hcases in Hk0 as [[_ ?]|[[-> ?]|[_ Hk0]]]; simplify_eq; eauto.
    rewrite Eexp. split_and!; [done | done | done | lia].
  - intros ns' u' e Hns' He. apply Hcases in He as [[_ ->]|[[Heq _]|[_ He]]]; [by eexists | | eauto].
    by destruct (session_user_ne ns (ID s) ns' u').
  - intros ns' id' s0 ((d0 & Hp) & Hlt) Hns'. rewrite Hc in *. apply peek_Some in Hp as [Hp Ha].
    apply Hcases in Hp as [[_ ?]|[[Heq ?]|[_ Hp]]]; [simplify_eq| |].
    + simplify_eq. apply sessionKey_inj in Heq as [-> ->]; [|done..].
      rewrite Eexp. eexists _, _. split; [exact Hmine|]. split; [done | lia].
    + assert (has r ns' id' s0) as Hr by (split; [exists d0; by apply peek_Some | done]).
      destruct (Hi _ _ _ Hr Hns') as (ms & dx & Hix & Hin' & Hle).
      destruct (decide (userKey ns' (UserID s0) = userKey ns u)) as [Heq|Hne].
      * apply userKey_inj in Heq as [-> Heq]; [|done..]. subst u. rewrite Heq.
        eexists _, _. split; [exact Hmine|]. split; [by eapply Hall|].
        destruct (Hs _ _ _ Hp) as (_ & _ & _ & He). lia.
      * exists ms, dx. split; [|done]. rewrite Hk, lookup_insert_ne by done.
        rewrite lookup_insert_ne; [done|]. by apply session_user_ne.
Qed.

Lemma ignore_command {B} (f : gmap string (RKey Session) -> Z -> gmap string (RKey Session) * res RErr B) r :
  fine r ->
  ignore (command f) r
  = (mkRedis (f (rkeys r) (rclock r)).1 (rclock r) (rfate r) (S (rcalls r)), Ok tt).
Proof. intros Hf. unfold ignore, attempt. by rewrite (command_fine _ _ Hf). Qed.

Lemma Create_indexed pol id ns u t ip ua ty r r' x :
  fine r -> indexed r -> known_ns ns -> uuid_like id ->
  (resolveTimeouts m pol).2 = A -> 0 < A -> (Second | A) ->
  Create m pol id ns u t ip ua ty r = (r', x) -> indexed r' /\ same_env r r'.
Proof.
  intros Hf Hi Hns Hid Hpol HA Hdiv Hrun. unfold Create in Hrun.
  destruct (resolveTimeouts m pol) as [idle abs]. cbn in Hpol. subst abs.
  unfold Now in Hrun. unfold gets, bind at 1 in Hrun.
  set (s := mkSession _ _ _ _ _ _ _ _ _ _ _ _ _ _) in Hrun.
  assert (save s r = (mkRedis (<[sessionKey ns id := mkRKey (RStr s) (Some (rclock r + px A))]> (rkeys r))
            (rclock r) (rfate r) (S (rcalls r)), Ok tt)) as Hsave.
  { unfold save, Now, gets, bind. cbn [ExpiresAt Namespace ID s].
    replace (rclock r + A - rclock r) with A by lia. destruct (Z.leb_spec A 0); [lia|].
    unfold SET. by rewrite (command_fine _ _ Hf), set_f_pos. }
  rewrite (bind_ok_run _ _ _ _ _ Hsave) in Hrun. clear Hsave.
  pose proof (session_user_ne ns id ns u Hns Hns Hid) as Hne.
  erewrite bind_ok_run in Hrun; [|apply ignore_command; exact Hf].
  erewrite bind_ok_run in Hrun; [|apply ignore_command; exact Hf].
  unfold ret in Hrun. injection Hrun as <- _. split; [|split; done].
  pose proof (index_lookup r ns u Hi Hns) as Hix.
  set (old := match peek (rkeys r) (rclock r) (userKey ns u) with
              | Some (mkRKey (RSet ms) _) => ms | _ => ∅ end).
  eapply (indexed_login r _ ns u id s ({[ id ]} ∪ old)); try done.
  - set_solver.
  - intros x0. rewrite elem_of_union, elem_of_singleton. intros [->|Hx]; [done|]. unfold old in Hx.
    destruct (peek _ _ _); [destruct Hix as (ms & d & -> & Hms); auto | set_solver].
  - intros id' s' Hh Hu. pose proof Hi as (_ & _ & Hii). destruct (Hii _ _ _ Hh Hns) as (ms & dx & Hlk & Hin & Hle).
    assert (peek (rkeys r) (rclock r) (userKey ns u) = Some (mkRKey (RSet ms) (Some dx))) as Hp.
    { apply peek_Some. rewrite <- Hu. split; [done|]. cbn. apply Z.ltb_lt. destruct Hh as [_ Hh]. lia. }
    unfold old. rewrite Hp. set_solver.
  - cbn [rkeys rclock]. unfold sadd_f. rewrite peek_insert_ne by done. unfold old, expire_f.
    rewrite <- (ex_exact A) at 1 by done.
    destruct (peek (rkeys r) (rclock r) (userKey ns u)) as [e|] eqn:Hp.
    + destruct Hix as (ms & d & -> & _). cbn [fst].
      rewrite peek_insert_eq by (by apply peek_Some in Hp as [_ Hp]). cbn. by rewrite insert_insert_eq.
    + cbn [fst]. rewrite peek_insert_eq by done. cbn.
      by rewrite insert_insert_eq, (right_id_L ∅ (∪)).
Qed.

(** Every mutator is a read followed by a write of a mutation of what it read. *)
Lemma mutator_saves s r :
  (exists f, keeps_identity f /\ touch_tail s r = save (f s) r)
  /\ (exists f, keeps_identity f /\ (let! now := Now in save (set_mfa (Some now) s)) r = save (f s) r)
  /\ (forall t, exists f, keeps_identity f /\ save (set_mfa t s) r = save (f s) r)
  /\ (forall b, exists f, keeps_identity f /\ save (set_enroll b s) r = save (f s) r)
  /\ (forall b, exists f, keeps_identity f /\ save (set_pwd b s) r = save (f s) r).
Proof.
  split_and!.
  - by exists (set_last (rclock r)).
  - by exists (set_mfa (Some (rclock r))).
  - intros t. by exists (set_mfa t).
  - intros b. by exists (set_enroll b).
  - intros b. by exists (set_pwd b).
Qed.

(** One whole request at a time, on a working connection, under one absolute
    timeout [A]; session ids are uuids. *)
Inductive request : SRedis -> SRedis -> Prop :=
| rq_clock r now : rclock r <= now -> request r (at_clock now r)
| rq_create r r' pol id ns u t ip ua ty x :
    known_ns ns -> uuid_like id -> (resolveTimeouts m pol).2 = A ->
    Create m pol id ns u t ip ua ty r = (r', x) -> request r r'
| rq_get r r' pol ns id x :
    known_ns ns -> uuid_like id -> Get m pol ns id r = (r', x) -> request r r'
| rq_touch r r' ns id x : known_ns ns -> uuid_like id -> Touch ns id r = (r', x) -> request r r'
| rq_mark r r' ns id x : known_ns ns -> uuid_like id -> MarkMFAVerified ns id r = (r', x) -> request r r'
| rq_carry r r' ns id t x :
    known_ns ns -> uuid_like id -> CarryMFAVerifiedAt ns id t r = (r', x) -> request r r'
| rq_enroll r r' ns id b x :
    known_ns ns -> uuid_like id -> SetEnrollPending ns id b r = (r', x) -> request r r'
| rq_pwd r r' ns id b x :
    known_ns ns -> uuid_like id -> SetPwdChangePending ns id b r = (r', x) -> request r r'
| rq_delete r r' ns id x : known_ns ns -> uuid_like id -> Delete ns id r = (r', x) -> request r r'
| rq_revoke r r' pol ns u x : known_ns ns -> DeleteAllByUser m pol ns u r = (r', x) -> request r r'.

Lemma indexed_clock r now : rclock r <= now -> indexed r -> indexed (at_clock now r).
Proof.
  intros Hle (Hs & Hu & Hi). split_and!.
  - intros k s d Hk. destruct (Hs _ _ _ Hk) as (? & ? & ? & ?). cbn. split_and!; [done..|]. lia.
  - exact Hu.
  - intros ns id s ((d & Hp) & Hlt) Hns. cbn in *. apply Hi; [|done].
    split; [exists d; by eapply peek_later | lia].
Qed.

Lemma request_inv r r' :
  0 < A -> (Second | A) -> request r r' -> fine r /\ indexed r -> fine r' /\ indexed r'.
Proof.
  intros HA Hdiv Hreq [Hf Hi].
  assert (forall r'', indexed r'' /\ same_env r r'' -> fine r'' /\ indexed r'') as Hdone.
  { intros r'' [Hi' He]. split; [by eapply fine_env | done]. }
  destruct Hreq as [r now Hle|? ? ? ? ? ? ? ? ? ? ? ? ? ? Hr|? ? ? ? ? ? ? ? Hr|? ? ? ? ? ? ? Hr|? ? ? ? ? ? ? Hr
    |? ? ? ? t ? ? ? Hr|? ? ? ? ? ? ? ? Hr|? ? ? ? ? ? ? ? Hr|? ? ? ? ? ? Hid Hr|? ? ? ? ? ? ? Hr].
  - split; [exact Hf | by apply indexed_clock].
  - by apply Hdone; eapply Create_indexed.
  - apply get_step in Hr as [(He & Hi' & _) _]; auto.
  - apply Hdone. eapply indexed_mutator; [|done..|exact Hr]. intros. apply mutator_saves.
  - apply Hdone. eapply indexed_mutator; [|done..|exact Hr]. intros. apply mutator_saves.
  - destruct t as [t|]; [|unfold CarryMFAVerifiedAt, ret in Hr; by simplify_eq].
    apply Hdone. unfold CarryMFAVerifiedAt in Hr.
    eapply indexed_mutator; [|done..|exact Hr]. intros. apply mutator_saves.
  - apply Hdone. eapply indexed_mutator; [|done..|exact Hr]. intros. apply mutator_saves.
  - apply Hdone. eapply indexed_mutator; [|done..|exact Hr]. intros. apply mutator_saves.
  - apply Hdone. unfold Delete, DEL in Hr. rewrite (command_fine _ _ Hf) in Hr. cbn [del_f fst snd] in Hr.
    simplify_eq. split; [|split; done]. by eapply indexed_delete.
  - apply DeleteAllByUser_spec in Hr as ((He & Hi' & _) & _); auto.
Qed.

Lemma DeleteAllByUser_index pol ns u r r' x :
  fine r -> indexed r -> known_ns ns -> DeleteAllByUser m pol ns u r = (r', x) ->
  rkeys r' !! userKey ns u = None.
Proof.
  intros Hf Hi Hns Hrun. pose proof Hrun as Hok. apply DeleteAllByUser_spec in Hok as (_ & -> & _); [|done..].
  unfold DeleteAllByUser in Hrun. apply bind_ok in Hrun as (l & r1 & _ & Hrun).
  apply bind_ok in Hrun as ([] & r2 & _ & Hrun). unfold DEL in Hrun.
  apply command_inv in Hrun as (_ & _ & [[-> _]|(? & _ & _)]); [|discriminate]. cbn. apply lookup_delete_eq.
Qed.

Lemma empty_indexed r : rkeys r = ∅ -> indexed r.
Proof.
  intros H. split_and!; rewrite H; intros *; rewrite ?lookup_empty; try discriminate.
  intros ((d & Hp) & _). apply peek_Some in Hp as [Hp _]. by rewrite H, lookup_empty in Hp.
Qed.

End Revocation.

(** ** Histories *)

Section History.
Context (m : Manager).

(** Whole requests on a working connection, one after the other; the absolute timeout, of whole seconds, may be raised
    between them and is never lowered. *)
Inductive history_step : SRedis * Z -> SRedis * Z -> Prop :=
| under_timeout A A' r r' : A <= A' -> 0 < A' -> (Second | A') -> request m A' r r' -> history_step (r, A) (r', A').
Definition session_history (r : SRedis) : Prop :=
  exists r0 A0 A, rkeys r0 = ∅ /\ fine r0 /\ rtc history_step (r0, A0) (r, A).

Lemma indexed_raise A A' r : A <= A' -> indexed A r -> indexed A' r.
Proof.
  intros HA (Hs & Hu & Hi). split_and!; [|done..]. intros k s d Hk. destruct (Hs _ _ _ Hk) as (? & ? & ? & ?). split_and!; [done..|]. lia.
Qed.
Lemma history_indexed r : session_history r -> fine r /\ exists A, indexed A r.
Proof.
  intros (r0 & A0 & A & H0 & Hf & Hr). set (P := fun x : SRedis * Z => fine x.1 /\ indexed x.2 x.1).
  assert (P (r, A)) as [? ?]; [|by split; [|exists A]]. eapply (rtc_invariant _ P); [|exact Hr|].
  - intros x y [A1 A2 ra rb HA Hpos Hdiv Hreq] [Hfx Hix]. eapply request_inv; [exact Hpos | exact Hdiv | exact Hreq|].
    split; [exact Hfx | by eapply indexed_raise].
  - split; [exact Hf | by apply empty_indexed].
Qed.
Lemma history_start r : rkeys r = ∅ -> fine r -> session_history r.
Proof. intros H Hf. exists r, 0, 0. done. Qed.
End History.

(** ** What breaks revocation *)

Section Hazards.
Context (m : Manager).

Lemma save_Get pol s r :
  fine r -> Millisecond <= ExpiresAt s - rclock r -> 0 <= (resolveTimeouts m pol).1 -> rclock r <= LastActiveAt s ->
  exists r1 r2, save s r = (r1, Ok tt) /\ Get m pol (Namespace s) (ID s) r1 = (r2, Ok (Some s))
    /\ rkeys r1 = <[sessionKey (Namespace s) (ID s) :=
                      mkRKey (RStr s) (Some (rclock r + px (ExpiresAt s - rclock r)))]> (rkeys r)
    /\ rclock r1 = rclock r /\ rfate r1 = rfate r.
Proof.
  intros Hf Hlife Hidle Hlast. unfold save, Now, gets, bind.
  destruct (Z.leb_spec (ExpiresAt s - rclock r) 0); [unfold Millisecond in *; lia|].
  unfold SET. rewrite (command_fine _ _ Hf), set_f_pos by lia. cbn [fst snd].
  eexists _. destruct (Get _ _ _ _ _) as [r2 y] eqn:Hg. exists r2. split; [done|].
  apply Get_fine in Hg as [_ Hg]; [|exact Hf]. cbn [rkeys rclock] in Hg.
  rewrite peek_insert_eq in Hg; [|cbn; apply Z.ltb_lt; pose proof (px_le (ExpiresAt s - rclock r)); unfold Millisecond in *; lia].
  destruct (Z.ltb_spec (ExpiresAt s) (rclock r)); [unfold Millisecond in *; lia|].
  destruct (Z.ltb_spec (LastActiveAt s + (resolveTimeouts m pol).1) (rclock r)); [lia|].
  destruct Hg as [_ ->]. done.
Qed.

Lemma ListByUser_no_index pol ns u r :
  fine r -> rkeys r !! userKey ns u = None ->
  ListByUser m pol ns u r = (mkRedis (rkeys r) (rclock r) (rfate r) (S (rcalls r)), Ok []).
Proof.
  intros Hf Hidx. unfold ListByUser, SMEMBERS, bind. rewrite (command_fine _ _ Hf).
  unfold smembers_f, peek. by rewrite Hidx.
Qed.

(** A request in flight undoes a revocation. [Touch] reads the session, the
    user is revoked (the revocation succeeds), [Touch] writes: the session is
    handed out again, and being in no index it is neither listed nor reached by
    the next revocation. *)
Theorem touch_in_flight_undoes_revocation A rr pol ns r0 r1 r2 s x :
  rkeys rr = ∅ -> fine rr -> 0 < A -> (Second | A) -> rtc (request m A) rr r0 ->
  known_ns ns -> uuid_like (ID s) -> GET (sessionKey ns (ID s)) r0 = (r1, Ok s) ->
  DeleteAllByUser m pol ns (UserID s) r1 = (r2, x) ->
  Millisecond <= ExpiresAt s - rclock r1 -> 0 <= (resolveTimeouts m pol).1 ->
  exists r3 r4 r5, touch_tail s r2 = (r3, Ok tt)
    /\ Get m pol ns (ID s) r3 = (r4, Ok (Some (set_last (rclock r2) s)))
    /\ ListByUser m pol ns (UserID s) r3 = (r5, Ok []).
Proof.
  intros Hempty Hfe HA Hdiv Hsteps Hns Hid Hget Hrev Hlife Hidle.
  assert (fine r0 /\ indexed A r0) as [Hf0 Hi0].
  { apply (rtc_invariant (request m A) (fun r => fine r /\ indexed A r) rr); [|done|].
    - intros ra rb. by apply request_inv.
    - split; [done | by apply empty_indexed]. }
  unfold GET in Hget. rewrite (command_fine _ _ Hf0) in Hget. cbn [get_f fst snd] in Hget.
  destruct (peek (rkeys r0) (rclock r0) (sessionKey ns (ID s))) as [[[v|z|ms] d]|] eqn:Hp; simplify_eq.
  pose proof Hp as [Hp0 _]%peek_Some. pose proof Hi0 as (Hs & _).
  destruct (Hs _ _ _ Hp0) as (Hn & _ & Hkey & _). apply sessionKey_inj in Hkey as [-> _]; [|done..].
  set (r1 := mkRedis _ _ _ _) in *.
  assert (indexed A r1) as Hi1 by done. assert (fine r1) as Hf1 by done.
  pose proof (DeleteAllByUser_index _ _ _ _ _ _ _ _ Hf1 Hi1 Hn Hrev) as Hidx.
  apply (DeleteAllByUser_spec _ A) in Hrev as (([Hc Hfate] & _ & _) & -> & _); [|done..].
  assert (fine r2) as Hf2 by (intros n; by rewrite Hfate).
  destruct (save_Get pol (set_last (rclock r2) s) r2) as (r3 & r4 & Hsv & Hg & Hk & Hc3 & Hf3);
    [done | cbn; lia | done | cbn; lia |]. cbn [ID Namespace set_last ExpiresAt] in *.
  exists r3, r4. eexists. split_and!; [exact Hsv | exact Hg |].
  apply ListByUser_no_index; [intros n; by rewrite Hf3|].
  rewrite Hk, lookup_insert_ne; [done|]. by apply session_user_ne.
Qed.

Lemma forged_id ns u : sessionKey ns ("user:" +:+ pretty u) = userKey ns u.
Proof. done. Qed.

(** An unauthenticated logout erases another user's session index. The
    handler deletes whatever id the cookie carries, looked up successfully or not;
    the id [user:<uid>] names the index key of that user. Afterwards the
    revocation of that user succeeds and reaches nothing: every session with
    lifetime left is still there. *)
Theorem forged_logout_defeats_revocation A rr pol pol' ns u r :
  rkeys rr = ∅ -> fine rr -> 0 < A -> (Second | A) -> rtc (request m A) rr r -> known_ns ns ->
  exists r1 r2, logoutHandler m pol ns (Some ("user:" +:+ pretty u)) [] r = (r1, Ok true)
    /\ DeleteAllByUser m pol' ns u r1 = (r2, Ok tt)
    /\ forall id s, uuid_like id -> has r ns id s -> has r2 ns id s.
Proof.
  intros Hempty Hfe HA Hdiv Hsteps Hns.
  assert (fine r /\ indexed A r) as [Hf Hi].
  { apply (rtc_invariant (request m A) (fun r => fine r /\ indexed A r) rr); [|done|].
    - intros ra rb. by apply request_inv.
    - split; [done | by apply empty_indexed]. }
  unfold logoutHandler, attempt. destruct (Get _ _ _ _ r) as [r0 y] eqn:Hg.
  apply Get_fine in Hg as [[Hc Hfate] Hg]; [|done]. rewrite forged_id in Hg.
  assert (rkeys r0 = rkeys r) as Hk0.
  { pose proof (index_lookup A r ns u Hi Hns) as Hix.
    destruct (peek _ _ _); [destruct Hix as (ms & d & -> & _)|]; tauto. }
  assert (fine r0) as Hf0 by (intros n; by rewrite Hfate).
  set (r1 := mkRedis (delete (userKey ns u) (rkeys r)) (rclock r) (rfate r) (S (rcalls r0))).
  assert (Logout ns ("user:" +:+ pretty u) r0 = (r1, Ok tt)) as Hlog.
  { unfold Logout, Delete, DEL. rewrite forged_id, (command_fine _ _ Hf0). cbn. by rewrite Hk0, Hc, Hfate. }
  exists r1. eexists. rewrite (bind_ok_run _ _ _ _ _ Hlog). split; [done|].
  assert (fine r1) as Hf1 by done.
  assert (rkeys r1 !! userKey ns u = None) as Hidx by apply lookup_delete_eq.
  unfold DeleteAllByUser. erewrite bind_ok_run; [|by apply ListByUser_no_index].
  unfold delete_sessions, DEL. unfold bind, ret. rewrite command_fine by done. cbn [del_f fst snd rkeys rclock].
  split; [done|]. intros id s Hid ((d & Hp) & Hlt). split; [|done]. exists d. cbn [rkeys rclock r1].
  rewrite !peek_delete_ne; [done | |]; intros Heq; by eapply session_user_ne, eq_sym.
Qed.
End Hazards.

(** ** Concrete runs *)

Module SessionDemo.

Definition mgr : Manager := mkManager (30 * Minute) (8 * Hour) None None.
Definition pol : Policy := Some (1 * Hour, 24 * Hour).
Definition store : SRedis := mkRedis ∅ 1000 (fun _ => Fine) 0.
Definition login p id t (r : SRedis) : SRedis :=
  (Create mgr p id NamespaceConsole 7 1 "10.0.0.1" "curl" "local" (at_clock t r)).1.

(** Lowering the absolute timeout strands the sessions already issued. A
    session is created under a 24-hour policy; the policy is lowered to one hour
    and the same user logs in again, which shortens the life of the index that
    both sessions share; two hours later the older session is still handed out,
    the listing is empty, and revoking the user succeeds without ending it. *)
Theorem lowered_policy_strands_sessions :
  let r := at_clock (3 * Hour) (login (Some (1 * Hour, 1 * Hour)) "bb" (1 * Hour) (login pol "aa" 1000 store)) in
  let busy := Some (24 * Hour, 1 * Hour) in
  (exists r' s, Get mgr busy NamespaceConsole "aa" r = (r', Ok (Some s)) /\ UserID s = 7)
  /\ (ListByUser mgr busy NamespaceConsole 7 r).2 = Ok []
  /\ (DeleteAllByUser mgr busy NamespaceConsole 7 r).2 = Ok tt
  /\ (exists r' s, Get mgr busy NamespaceConsole "aa" (DeleteAllByUser mgr busy NamespaceConsole 7 r).1
                   = (r', Ok (Some s)) /\ UserID s = 7).
Proof.
  vm_compute. split_and!; [eexists _, _; split; reflexivity | reflexivity | reflexivity |].
  eexists _, _; split; reflexivity.
Qed.

Definition r1 : SRedis := login pol "aa" 1000 store.

Lemma console_known : known_ns NamespaceConsole.
Proof. by left. Qed.

Lemma aa_uuid : uuid_like "aa".
Proof. intros rest. discriminate. Qed.

Lemma r1_reachable : rtc (request mgr (24 * Hour)) store r1.
Proof.
  eapply rtc_l; [apply (rq_clock _ _ store 1000); done|]. apply rtc_once.
  eapply (rq_create _ _ _ _ pol "aa" NamespaceConsole 7 1 "10.0.0.1" "curl" "local");
    [exact console_known | exact aa_uuid | done | apply surjective_pairing].
Qed.

Definition the_session : Session :=
  mkSession "aa" 7 1 NamespaceConsole "10.0.0.1" "curl" "local" false 1000 (1000 + 24 * Hour) 1000 None false false.

Lemma get_witness :
  rclock r1 <= ExpiresAt the_session.
Proof.
  refine (proj1 (proj2 (get_returns_only_live_sessions mgr pol NamespaceConsole "aa" r1 _ the_session
    (run_result _ _ _ _)))).
  vm_compute. reflexivity.
Defined.

Lemma lifetime_witness : CreatedAt the_session <= rclock r1 <= CreatedAt the_session + 24 * Hour.
Proof.
  refine (proj1 (no_session_outlives_absolute_timeout mgr (24 * Hour) store r1 [] pol NamespaceConsole "aa" _
    the_session _ _ (run_result _ _ _ _))).
  - reflexivity.
  - eapply rtc_l; [apply (ss_clock _ _ store [] 1000); done|]. apply rtc_once.
    eapply (ss_create _ _ _ _ _ pol "aa" NamespaceConsole 7 1 "10.0.0.1" "curl" "local");
      [done | apply surjective_pairing].
  - vm_compute. reflexivity.
Defined.

Lemma r1_history : session_history mgr r1.
Proof.
  exists store, 0, (24 * Hour). split_and!; [reflexivity | by intros n |].
  apply (rtc_l _ _ (at_clock 1000 store, 24 * Hour)); [|apply rtc_once]; (apply under_timeout; [by apply Z.leb_le | reflexivity | by exists (24 * 60 * 60) |]).
  - by apply (rq_clock mgr _ store 1000).
  - eapply (rq_create _ _ _ _ pol "aa" NamespaceConsole 7 1 "10.0.0.1" "curl" "local");
      [exact console_known | exact aa_uuid | done | apply surjective_pairing].
Qed.

Lemma touch_witness :
  exists r3 r4, touch_tail the_session (DeleteAllByUser mgr pol NamespaceConsole 7 (GET (sessionKey NamespaceConsole "aa") r1).1).1
                = (r3, Ok tt)
    /\ Get mgr pol NamespaceConsole "aa" r3 = (r4, Ok (Some (set_last 1000 the_session))).
Proof.
  destruct (touch_in_flight_undoes_revocation mgr (24 * Hour) store pol NamespaceConsole r1
    (GET (sessionKey NamespaceConsole "aa") r1).1 _ the_session _
    eq_refl (fun n => eq_refl) eq_refl (ex_intro _ (24 * 60 * 60) eq_refl) r1_reachable console_known aa_uuid
    (run_result _ _ _ ltac:(vm_compute; reflexivity)) (surjective_pairing _))
    as (r3 & r4 & r5 & H1 & H2 & _).
  - vm_compute. discriminate.
  - vm_compute. discriminate.
  - exists r3, r4. split; [exact H1|]. 
    replace (set_last 1000 the_session) with
      (set_last (rclock (DeleteAllByUser mgr pol NamespaceConsole (UserID the_session)
        (GET (sessionKey NamespaceConsole "aa") r1).1).1) the_session) by (vm_compute; reflexivity).
    exact H2.
Defined.

Lemma forged_logout_witness :
  exists r2, has r2 NamespaceConsole "aa" the_session.
Proof.
  destruct (forged_logout_defeats_revocation mgr (24 * Hour) store pol pol NamespaceConsole 7 r1
    eq_refl (fun n => eq_refl) eq_refl (ex_intro _ (24 * 60 * 60) eq_refl) r1_reachable console_known)
    as (ra & rb & _ & _ & H).
  exists rb. apply (H "aa"%string the_session aa_uuid).
  split; [eexists; vm_compute; reflexivity | vm_compute; reflexivity].
Defined.
End SessionDemo.
