(* ===== verification/Snowflake.v ===== *)
(** * Snowflake: the id generator (src/pkg/snowflake/snowflake.go)

    The generator, with the readings of [time.Now()] as an explicit stream; under a
    monotone clock it keeps the promise the services rely on ([IdGen]); when the
    clock steps back it does not. *)

From stdpp Require Import sorting.
From S2P Require Import Prelude.

Definition epoch : Z := 1700000000000.
Definition nodeBits : Z := 10.
Definition sequenceBits : Z := 12.
Definition nodeMax : Z := Z.lxor (-1) (Z.shiftl (-1) nodeBits).
Definition sequenceMask : Z := Z.lxor (-1) (Z.shiftl (-1) sequenceBits).
Definition nodeShift : Z := sequenceBits.
Definition timestampShift : Z := nodeBits + sequenceBits.

Record Generator : Type := mkGenerator { nodeID : Z; timestamp : Z; sequence : Z }.

Definition New (node : Z) : option Generator :=
  if (node <? 0) || (nodeMax <? node) then None else Some (mkGenerator node 0 0).

Section Clock.
(** [clk p] is the [p]-th reading of [time.Now().UnixMilli()]. *)
Context (clk : nat -> Z).

(** [for now <= g.timestamp { now = ... }], from the next reading on. *)
Fixpoint wait_next (fuel : nat) (last now : Z) (p : nat) : option (Z * nat) :=
  if last <? now then Some (now, p) else
  match fuel with
  | O => None
  | S fuel' => wait_next fuel' last (clk p - epoch) (S p)
  end.

Definition compose_id (now node seq : Z) : Z :=
  Z.lor (Z.lor (wrap64 (Z.shiftl now timestampShift)) (wrap64 (Z.shiftl node nodeShift))) seq.

(** One call, from reading [p] on: the id, the new state and the next reading. *)
Definition Generate (fuel : nat) (g : Generator) (p : nat) : option (Z * Generator * nat) :=
  let now := clk p - epoch in
  let finish now seq p :=
    Some (compose_id now (nodeID g) seq, mkGenerator (nodeID g) now seq, p) in
  if now =? timestamp g then
    let seq := Z.land (sequence g + 1) sequenceMask in
    if seq =? 0 then
      match wait_next fuel (timestamp g) now (S p) with
      | Some (now', p') => finish now' seq p'
      | None => None
      end
    else finish now seq (S p)
  else finish now 0 (S p).
End Clock.

(** ** What an id is made of *)

Definition id_time (id : Z) : Z := Z.shiftr id timestampShift.
Definition id_node (id : Z) : Z := Z.land (Z.shiftr id nodeShift) nodeMax.
Definition id_seq (id : Z) : Z := Z.land id sequenceMask.

(** 41 bits of milliseconds: until the year 2093. *)
Definition time_ok (t : Z) : Prop := 0 <= t < 2 ^ 41.
Definition node_ok (n : Z) : Prop := 0 <= n <= nodeMax.
Definition seq_ok (q : Z) : Prop := 0 <= q <= sequenceMask.

Lemma lor_add a b k : 0 <= k -> 0 <= b < 2 ^ k -> Z.lor (Z.shiftl a k) b = a * 2 ^ k + b.
Proof.
  intros Hk Hb. rewrite <- (Z.shiftl_mul_pow2 a k Hk). symmetry. apply Z.add_nocarry_lor.
  apply Z.bits_inj'. intros n Hn. rewrite Z.land_spec, Z.bits_0.
  destruct (Z.lt_ge_cases n k).
  - by rewrite Z.shiftl_spec_low.
  - rewrite <- (Z.mod_small b (2 ^ k)), Z.mod_pow2_bits_high by lia. apply andb_false_r.
Qed.

Lemma compose_value t n q :
  time_ok t -> node_ok n -> seq_ok q -> compose_id t n q = t * 2 ^ 22 + n * 2 ^ 12 + q.
Proof.
  unfold time_ok, node_ok, seq_ok, compose_id, timestampShift, nodeShift, nodeBits, sequenceBits.
  change nodeMax with 1023. change sequenceMask with 4095. intros Ht Hn Hq.
  change (10 + 12) with 22. rewrite !wrap64_id.
  - assert (Z.lor (Z.shiftl t 22) (Z.shiftl n 12) = Z.shiftl (t * 1024 + n) 12) as ->.
    { rewrite (Z.shiftl_mul_pow2 n), (Z.shiftl_mul_pow2 _ 12) by lia. change (2 ^ 12) with 4096.
      rewrite lor_add; [|lia|]; change (2 ^ 22) with 4194304; lia. }
    rewrite lor_add; [|lia|]; change (2 ^ 12) with 4096; change (2 ^ 22) with 4194304; lia.
  - rewrite Z.shiftl_mul_pow2 by lia. unfold in_int64, int64_min, int64_max.
    change (2 ^ 12) with 4096. lia.
  - rewrite Z.shiftl_mul_pow2 by lia. unfold in_int64, int64_min, int64_max.
    change (2 ^ 22) with 4194304. change (2 ^ 41) with 2199023255552 in Ht. lia.
Qed.

Lemma shift_div a k : 0 <= k -> Z.shiftr a k = a / 2 ^ k.
Proof. apply Z.shiftr_div_pow2. Qed.

(** The three parts can be read back. *)
Lemma id_parts t n q :
  time_ok t -> node_ok n -> seq_ok q ->
  id_time (compose_id t n q) = t /\ id_node (compose_id t n q) = n /\ id_seq (compose_id t n q) = q
  /\ 0 <= compose_id t n q <= int64_max.
Proof.
  intros Ht Hn Hq. rewrite compose_value by done.
  unfold time_ok, node_ok, seq_ok, id_time, id_node, id_seq, timestampShift, nodeShift, nodeBits, sequenceBits, int64_max in *.
  change nodeMax with 1023 in *. change sequenceMask with 4095 in *.
  rewrite !shift_div by lia. change (10 + 12) with 22.
  change 1023 with (Z.ones 10). change 4095 with (Z.ones 12). rewrite !Z.land_ones by lia.
  split_and!; lia || (Z.div_mod_to_equations; lia).
Qed.

(** ** Under a monotone clock *)

Section Monotone.
Context (clk : nat -> Z) (K H : nat).
(** Readings never go back; up to reading [H] they lie in the generator's range
    and move within [K] readings. *)
Context (clk_mono : forall p, clk p <= clk (S p))
        (clk_range : forall p, (p <= H)%nat -> time_ok (clk p - epoch))
        (clk_moves : forall p, (p + K <= H)%nat -> clk p < clk (p + K)%nat).

Lemma clk_mono_le p q : (p <= q)%nat -> clk p <= clk q.
Proof. induction 1 as [|q _ IH]; [lia|]. pose proof (clk_mono q). lia. Qed.

(** [p] readings have been used. *)
Definition gen_ok (g : Generator) (p : nat) : Prop :=
  node_ok (nodeID g) /\ seq_ok (sequence g) /\ time_ok (timestamp g)
  /\ forall q, (p <= q)%nat -> timestamp g <= clk q - epoch.

(** The last id issued, or the bound below a fresh generator's first. *)
Definition last_id (g : Generator) : Z := compose_id (timestamp g) (nodeID g) (sequence g).

Lemma wait_next_spec fuel last now p :
  ~ last < now -> (exists q, (p <= q < p + fuel)%nat /\ last < clk q - epoch) ->
  exists q, (p <= q < p + fuel)%nat /\ wait_next clk fuel last now p = Some (clk q - epoch, S q) /\ last < clk q - epoch.
Proof.
  revert now p. induction fuel as [|fuel IH]; intros now p Hnow (q & Hq & Hlt); [lia|].
  cbn [wait_next]. destruct (Z.ltb_spec last now) as [|_]; [done|].
  destruct (decide (last < clk p - epoch)) as [Hp|Hp].
  - exists p. split_and!; [lia | lia | | done].
    destruct fuel; cbn [wait_next]; by rewrite (proj2 (Z.ltb_lt _ _) Hp).
  - destruct (IH (clk p - epoch) (S p) Hp) as (q' & Hq' & Hw & Hlt'); [|exists q'; split_and!; [lia | lia | done | done]].
    exists q. split; [|done]. assert (q <> p) by (intros ->; done). lia.
Qed.

(** One call on a well-formed generator: it returns, after at most [K + 1] further
    readings; the id is above the last one and below 2^63, and carries the node. *)
Lemma Generate_spec g p :
  gen_ok g p -> (p + K + 2 <= H)%nat ->
  exists id g' p', Generate clk (S K) g p = Some (id, g', p') /\ gen_ok g' p' /\ (p < p' <= p + K + 2)%nat
  /\ nodeID g' = nodeID g /\ id = last_id g' /\ last_id g < id <= int64_max /\ id_node id = nodeID g.
Proof.
  intros (Hn & Hq & Ht & Hpast) HH. unfold Generate. pose proof (Hpast p ltac:(lia)) as Hnow.
  pose proof (clk_range p ltac:(lia)) as Hr.
  assert (forall now q p', time_ok now -> seq_ok q -> (p < p' <= p + K + 2)%nat ->
    (forall r, (p' <= r)%nat -> now <= clk r - epoch) ->
    (timestamp g < now \/ timestamp g = now /\ sequence g < q) ->
    exists id g' p'', Some (compose_id now (nodeID g) q, mkGenerator (nodeID g) now q, p') = Some (id, g', p'')
    /\ gen_ok g' p'' /\ (p < p'' <= p + K + 2)%nat /\ nodeID g' = nodeID g /\ id = last_id g'
    /\ last_id g < id <= int64_max /\ id_node id = nodeID g) as Hfinish.
  { intros now q p' Htn Hqn Hp' Hfut Hlt. eexists _, _, _. split; [done|].
    destruct (id_parts now (nodeID g) q Htn Hn Hqn) as (_ & Hnode & _ & Hmax).
    split; [exact (conj Hn (conj Hqn (conj Htn Hfut)))|].
    split; [exact Hp'|]. split; [done|]. split; [done|]. split; [|exact Hnode]. split; [|lia].
    unfold last_id. rewrite !compose_value by done.
    unfold node_ok, seq_ok in *. change nodeMax with 1023 in *. change sequenceMask with 4095 in *. lia. }
  assert (forall r, (S p <= r)%nat -> clk p - epoch <= clk r - epoch) as Hmono.
  { intros r Hle. pose proof (clk_mono_le p r ltac:(lia)). lia. }
  destruct (Z.eqb_spec (clk p - epoch) (timestamp g)) as [Heq|Hne].
  - assert (Z.land (sequence g + 1) sequenceMask = (sequence g + 1) mod 2 ^ 12) as ->
      by (change sequenceMask with (Z.ones 12); by rewrite Z.land_ones by lia).
    unfold seq_ok in Hq. change sequenceMask with 4095 in Hq.
    destruct (decide (sequence g = 4095)) as [Hfull|Hroom].
    + rewrite Hfull. change ((4095 + 1) mod 2 ^ 12) with 0. cbn [Z.eqb].
      destruct (wait_next_spec (S K) (timestamp g) (clk p - epoch) (S p)) as (q & Hqp & -> & Hlt); [lia| |].
      { exists (p + K + 1)%nat. split; [lia|]. pose proof (clk_moves p ltac:(lia)).
        pose proof (clk_mono_le (p + K) (p + K + 1) ltac:(lia)). lia. }
      apply Hfinish; [apply clk_range; lia | done | lia | | by left].
      intros r Hle. pose proof (clk_mono_le q r ltac:(lia)). lia.
    + rewrite Z.mod_small by lia. destruct (Z.eqb_spec (sequence g + 1) 0); [lia|].
      apply Hfinish; [done | unfold seq_ok; change sequenceMask with 4095; lia | lia | done | right; lia].
  - apply Hfinish; [done | done | lia | done | left; lia].
Qed.

(** ** A run of calls *)

Fixpoint generate_n (n : nat) (g : Generator) (p : nat) : option (list Z) :=
  match n with
  | O => Some []
  | S n' =>
      match Generate clk (S K) g p with
      | Some (id, g', p') =>
          match generate_n n' g' p' with Some ids => Some (id :: ids) | None => None end
      | None => None
      end
  end.

Lemma generate_n_spec n g p :
  gen_ok g p -> (p + n * (K + 2) <= H)%nat ->
  exists ids, generate_n n g p = Some ids /\ length ids = n /\ StronglySorted Z.lt ids
  /\ Forall (fun id => last_id g < id <= int64_max /\ id_node id = nodeID g) ids.
Proof.
  revert g p. induction n as [|n IH]; intros g p Hok HH; cbn [generate_n].
  - exists []. split_and!; constructor.
  - destruct (Generate_spec g p Hok ltac:(lia)) as (id & g' & p' & -> & Hok' & Hp' & Hnode & Hid & Hlt & Hn).
    destruct (IH g' p' Hok' ltac:(lia)) as (ids & -> & Hlen & Hs & Hall). exists (id :: ids).
    split_and!; [done | simpl; lia | |].
    + constructor; [done|]. eapply Forall_impl; [exact Hall|]. intros x [Hx _]. cbn in Hx. lia.
    + constructor; [split; [done | done]|]. eapply Forall_impl; [exact Hall|].
      intros x [Hx Hxn]. cbn in Hx. split; [lia | congruence].
Qed.

Lemma New_ok node g : New node = Some g -> gen_ok g 0 /\ nodeID g = node.
Proof.
  unfold New. destruct (_ || _) eqn:Hb; [discriminate|]. intros [= <-]. apply orb_false_iff in Hb as [H1 H2].
  to_prop. unfold gen_ok, node_ok, seq_ok, time_ok. cbn. change nodeMax with 1023 in *.
  change sequenceMask with 4095. split_and!; try lia. intros q _.
  pose proof (clk_mono_le 0 q ltac:(lia)). pose proof (clk_range 0 ltac:(lia)) as [Hz _]. lia.
Qed.

(** C35: the generator returns unique, increasing ids. Under a clock that does not
    go back and keeps moving (within its 41 bits), [n] calls on a generator made by [New] all return;
    the ids strictly increase, fit in an int64, and carry the generator's node
    number, so generators of different nodes never issue the same id. *)
Theorem ids_strictly_increase node g n :
  New node = Some g -> (n * (K + 2) <= H)%nat ->
  exists ids, generate_n n g 0 = Some ids /\ length ids = n /\ StronglySorted Z.lt ids
  /\ Forall (fun id => 0 <= id <= int64_max /\ id_node id = node) ids.
Proof.
  intros Hg HH. destruct (New_ok _ _ Hg) as [Hok Hnode].
  destruct (generate_n_spec n g 0 Hok HH) as (ids & Hr & Hlen & Hs & Hall). exists ids.
  split_and!; [done..|]. eapply Forall_impl; [exact Hall|]. intros x [Hx Hxn].
  destruct Hok as (Hn & Hq & Ht & _).
  destruct (id_parts _ _ _ Ht Hn Hq) as (_ & _ & _ & Hpos). unfold last_id in Hx. split; [lia | congruence].
Qed.
End Monotone.

(** When the clock steps back the generator repeats itself. Three calls that
    read the milliseconds [t], [t'] and again [t] (a step back, or forward and
    back) return the same id the first and the third time: only the sequence
    number separates ids of one millisecond, and any change of the clock resets
    it. *)
Theorem clock_step_back_repeats_id fuel clk g t t' :
  clk 0%nat = t -> clk 1%nat = t' -> clk 2%nat = t -> t <> t' -> timestamp g <> t - epoch ->
  exists id g1 g2 g3 id2,
    Generate clk fuel g 0 = Some (id, g1, 1%nat) /\ Generate clk fuel g1 1 = Some (id2, g2, 2%nat)
    /\ Generate clk fuel g2 2 = Some (id, g3, 3%nat).
Proof.
  intros H0 H1 H2 Hne Hg. unfold Generate. rewrite H0, H1, H2.
  destruct (Z.eqb_spec (t - epoch) (timestamp g)); [congruence|]. eexists _, _, _, _, _. split; [done|].
  cbn [timestamp nodeID]. destruct (Z.eqb_spec (t' - epoch) (t - epoch)); [lia|]. split; [done|].
  cbn [timestamp nodeID]. destruct (Z.eqb_spec (t - epoch) (t' - epoch)); [lia|]. done.
Qed.

Module SnowflakeDemo.
(** Two readings per millisecond, up to the end of the demo's horizon. *)
Definition ticks (p : nat) : Z := epoch + 5 + Z.of_nat p / 2.
Definition g0 : Generator := mkGenerator 3 0 0.

Lemma increasing_witness :
  generate_n ticks 2 5 g0 0 = Some (map (fun x => compose_id x.1 3 x.2) [(5, 0); (5, 1); (6, 0); (6, 1); (7, 0)])
  /\ exists ids, generate_n ticks 2 5 g0 0 = Some ids /\ StronglySorted Z.lt ids.
Proof.
  split; [vm_compute; reflexivity|].
  destruct (ids_strictly_increase ticks 2 100) with (node := 3) (g := g0) (n := 5%nat) as (ids & Hr & _ & Hs & _).
  - intros p. unfold ticks. pose proof (Z.div_le_mono (Z.of_nat p) (Z.of_nat (S p)) 2). lia.
  - intros p Hp. unfold ticks, time_ok. pose proof (Z.div_pos (Z.of_nat p) 2).
    pose proof (Z.div_le_mono (Z.of_nat p) 100 2). change (100 / 2) with 50 in *. lia.
  - intros p Hp. unfold ticks. replace (Z.of_nat (p + 2)) with (Z.of_nat p + 1 * 2) by lia.
    rewrite Z.div_add by lia. lia.
  - reflexivity.
  - lia.
  - exists ids. exact (conj Hr Hs).
Defined.

Lemma clock_step_back_witness :
  exists id g1 g2 g3 id2,
    Generate (fun p => epoch + (if Nat.eqb p 1 then 4 else 5)) 10 g0 0 = Some (id, g1, 1%nat)
    /\ Generate (fun p => epoch + (if Nat.eqb p 1 then 4 else 5)) 10 g1 1 = Some (id2, g2, 2%nat)
    /\ Generate (fun p => epoch + (if Nat.eqb p 1 then 4 else 5)) 10 g2 2 = Some (id, g3, 3%nat).
Proof.
  apply (clock_step_back_repeats_id 10 (fun p => epoch + (if Nat.eqb p 1 then 4 else 5)) g0
           (epoch + 5) (epoch + 4)); try reflexivity; vm_compute; discriminate.
Defined.
End SnowflakeDemo.
