(* ===== verification/RateLimit.v ===== *)
(** * RateLimit: the brute-force limiter (src/pkg/ratelimit/ratelimit.go)

    A failure counter and an auto-expiring lock per identifier, on the Redis
    model. *)

From S2P Require Import Prelude Redis.

(** A nil limiter or client and an empty identifier mean no limit; the model is
    of a wired limiter. *)
Record Config : Type := mkConfig {
  Purpose : string; MaxAttempts : Z; Window : Z; Lockout : Z; FailOpen : bool
}.

Definition defaultMaxAttempts : Z := 5.
Definition defaultWindow : Z := 5 * Minute.
Definition defaultLockout : Z := 15 * Minute.

Definition withDefaults (c : Config) : Config :=
  mkConfig (Purpose c)
    (if MaxAttempts c <=? 0 then defaultMaxAttempts else MaxAttempts c)
    (if Window c <=? 0 then defaultWindow else Window c)
    (if Lockout c <=? 0 then defaultLockout else Lockout c)
    (FailOpen c).

Record RateLimitError : Type := mkRateLimitError {
  re_Purpose : string; re_Identifier : string; RetryAfter : Z
}.

Definition New (c : Config) : option Config :=
  if bool_decide (Purpose c = "")%string then None else Some (withDefaults c).

Definition keyPrefix : string := "mxid:rl".

Section Limiter.
(** hex(sha256(identifier)); what PTTL (milliseconds) and TTL (seconds) answer
    for the nanoseconds a key has left. *)
Context (sha256_hex : string -> string) (pttl_ms ttl_s : Z -> Z).
Context (cfg : Config).

Abbreviation LRedis := (Redis string).
Abbreviation Op := (M LRedis RErr).
Abbreviation Keys := (gmap string (RKey string)).

Definition counterKey (identifier : string) : string :=
  keyPrefix +:+ ":" +:+ Purpose cfg +:+ ":" +:+ sha256_hex identifier.
Definition lockKey (identifier : string) : string := counterKey identifier +:+ ":locked".

Definition failResult (identifier : string) : option RateLimitError :=
  if FailOpen cfg then None else Some (mkRateLimitError (Purpose cfg) identifier (Lockout cfg)).

(** [time.Duration.Milliseconds] *)
Definition milliseconds (d : Z) : Z := Z.quot d Millisecond.

(** The time a key has left; a key without expiry, or no key, has none to tell. *)
Definition remaining (ks : Keys) (now : Z) (k : string) : option Z :=
  e ← peek ks now k; d ← rdead e; Some (d - now).

(** TTL: go-redis multiplies the seconds; -1 and -2 stay negative. *)
Definition ttl_f (k : string) (ks : Keys) (now : Z) : Keys * res RErr Z :=
  (ks, Ok (match remaining ks now k with Some d => ttl_s d * Second | None => -1 end)).

(** PEXPIRE with a TTL that is not positive deletes the key. *)
Definition pexpire (k : string) (ms : Z) (ks : Keys) (now : Z) : Keys :=
  match ks !! k with
  | None => ks
  | Some e => if ms <=? 0 then delete k ks
              else <[k := mkRKey (rval e) (Some (now + ms * Millisecond))]> ks
  end.

(** SET key 1 NX PX ms; an expire time that is not positive is an error. *)
Definition set_nx (k : string) (ms : Z) (ks : Keys) (now : Z) : Keys * res RErr unit :=
  if ms <=? 0 then (ks, Err RErrWrongType)
  else match peek ks now k with
       | Some _ => (ks, Ok tt)
       | None => (<[k := mkRKey (RStr "1"%string) (Some (now + ms * Millisecond))]> ks, Ok tt)
       end.

(** INCR keeps the expiry of a live counter. *)
Definition incr (k : string) (ks : Keys) (now : Z) : Keys * res RErr Z :=
  match peek ks now k with
  | None => (<[k := mkRKey (RInt 1) None]> ks, Ok 1)
  | Some (mkRKey (RInt n) d) => (<[k := mkRKey (RInt (n + 1)) d]> ks, Ok (n + 1))
  | Some _ => (ks, Err RErrWrongType)
  end.

(** [recordScript], one atomic command: the lock's remaining milliseconds, or 0. *)
Definition recordScript (counter lock : string) (windowMs maxAttempts lockoutMs : Z)
    (ks : Keys) (now : Z) : Keys * res RErr Z :=
  match incr counter ks now with
  | (ks1, Err e) => (ks1, Err e)
  | (ks1, Ok c) =>
      let ks2 := if c =? 1 then pexpire counter windowMs ks1 now else ks1 in
      if maxAttempts <=? c then
        match set_nx lock lockoutMs ks2 now with
        | (ks3, Err e) => (ks3, Err e)
        | (ks3, Ok _) =>
            (ks3, Ok (match remaining ks3 now lock with Some d => pttl_ms d | None => -1 end))
        end
      else (ks2, Ok 0)
  end.

Definition Check (identifier : string) : Op (option RateLimitError) :=
  if bool_decide (identifier = "")%string then ret None else
  attempt (command (ttl_f (lockKey identifier))) (fun r =>
    match r with
    | Err RErrNil => ret None
    | Err _ => ret (failResult identifier)
    | Ok ttl => ret (if 0 <? ttl then Some (mkRateLimitError (Purpose cfg) identifier ttl) else None)
    end).

Definition RecordFailure (identifier : string) : Op (option RateLimitError) :=
  if bool_decide (identifier = "")%string then ret None else
  attempt (command (recordScript (counterKey identifier) (lockKey identifier)
             (milliseconds (Window cfg)) (MaxAttempts cfg) (milliseconds (Lockout cfg)))) (fun r =>
    match r with
    | Err _ => ret (failResult identifier)
    | Ok lockTTLMs =>
        ret (if 0 <? lockTTLMs
             then Some (mkRateLimitError (Purpose cfg) identifier (lockTTLMs * Millisecond)) else None)
    end).

(** DEL of both keys in one command. *)
Definition Reset (identifier : string) : Op unit :=
  if bool_decide (identifier = "")%string then ret tt else
  ignore (command (fun ks _ => (delete (lockKey identifier) (delete (counterKey identifier) ks), Ok tt))).

Definition FailureCount (identifier : string) : Op Z :=
  if bool_decide (identifier = "")%string then ret 0 else
  attempt (command (fun ks now => (ks, match peek ks now (counterKey identifier) with
                                       | Some (mkRKey (RInt n) _) => Ok n
                                       | Some _ => Err RErrWrongType
                                       | None => Err RErrNil end)))
    (fun r => match r with Ok n => ret n | Err _ => ret 0 end).

Fixpoint CheckMany (identifiers : list string) : Op (option RateLimitError) :=
  match identifiers with
  | [] => ret None
  | id :: rest =>
      let! r := Check id in
      match r with Some e => ret (Some e) | None => CheckMany rest end
  end.

(** Every identifier is charged; the first lock is reported. *)
Fixpoint RecordFailureMany (identifiers : list string) : Op (option RateLimitError) :=
  match identifiers with
  | [] => ret None
  | id :: rest =>
      let! r := RecordFailure id in
      let! blocked := RecordFailureMany rest in
      ret (match r with Some e => Some e | None => blocked end)
  end.

Fixpoint ResetMany (identifiers : list string) : Op unit :=
  match identifiers with
  | [] => ret tt
  | id :: rest => do! Reset id in ResetMany rest
  end.
End Limiter.

(** ** the limiter locks in time, fails closed and isolates *)

Abbreviation LRedis := (Redis string).

Definition at_time (now : Z) (r : LRedis) : LRedis := mkRedis (rkeys r) now (rfate r) (rcalls r).

Section Props.
Context (sha256_hex : string -> string) (pttl_ms ttl_s : Z -> Z) (cfg : Config).
Context (pttl_pos : forall d, Millisecond <= d -> 0 < pttl_ms d)
        (ttl_pos : forall d, Second <= d -> 0 < ttl_s d).

Abbreviation ctr id := (counterKey sha256_hex cfg id).
Abbreviation lck id := (lockKey sha256_hex cfg id).
Abbreviation record id := (RecordFailure sha256_hex pttl_ms cfg id).
Abbreviation check id := (Check sha256_hex ttl_s cfg id).

(** Window and lockout as Redis holds them: whole milliseconds. *)
Definition window_ns : Z := milliseconds (Window cfg) * Millisecond.
Definition lockout_ns : Z := milliseconds (Lockout cfg) * Millisecond.

(** A configuration whose durations Redis can hold. *)
Definition config_ok : Prop :=
  1 <= MaxAttempts cfg /\ Millisecond <= Window cfg /\ Millisecond <= Lockout cfg.

Lemma milliseconds_pos d : Millisecond <= d -> 1 <= milliseconds d.
Proof.
  unfold milliseconds, Millisecond. intros Hd. rewrite Z.quot_div_nonneg by lia.
  apply Z.div_le_lower_bound; lia.
Qed.

Lemma app_length_ne (s1 s2 t : string) : String.length s1 = String.length s2 -> t <> ""%string -> s1 <> s2 +:+ t.
Proof.
  intros Hl Ht Heq. apply (f_equal String.length) in Heq.
  assert (String.length (s2 +:+ t) = (String.length s2 + String.length t)%nat) as Happ.
  { clear. induction s2 as [|c s2 IH]; simpl; [done | by rewrite IH]. }
  rewrite Happ in Heq. destruct t; [done | simpl in Heq; lia].
Qed.

Lemma ctr_lck_ne id : ctr id <> lck id.
Proof. unfold lockKey. by apply app_length_ne. Qed.

(** One failure counted below the limit. *)
Lemma record_counts id r n d :
  fine r -> id <> ""%string -> n + 1 < MaxAttempts cfg -> 0 < n ->
  peek (rkeys r) (rclock r) (ctr id) = Some (mkRKey (RInt n) d) ->
  record id r = (mkRedis (<[ctr id := mkRKey (RInt (n + 1)) d]> (rkeys r)) (rclock r) (rfate r) (S (rcalls r)), Ok None).
Proof.
  intros Hf Hid Hn Hpos Hp. unfold RecordFailure. rewrite bool_decide_eq_false_2 by done.
  unfold attempt. rewrite (command_fine _ _ Hf). unfold recordScript, incr. rewrite Hp.
  destruct (Z.eqb_spec (n + 1) 1); [lia|]. destruct (Z.leb_spec (MaxAttempts cfg) (n + 1)); [lia|]. done.
Qed.

Lemma record_first id r :
  fine r -> id <> ""%string -> config_ok -> 1 < MaxAttempts cfg -> peek (rkeys r) (rclock r) (ctr id) = None ->
  record id r = (mkRedis (<[ctr id := mkRKey (RInt 1) (Some (rclock r + window_ns))]> (rkeys r))
                   (rclock r) (rfate r) (S (rcalls r)), Ok None).
Proof.
  intros Hf Hid (_ & Hw & _) Hmax Hp. unfold RecordFailure. rewrite bool_decide_eq_false_2 by done.
  unfold attempt. rewrite (command_fine _ _ Hf). unfold recordScript, incr. rewrite Hp. cbn [Z.eqb].
  unfold pexpire. rewrite lookup_insert_eq, insert_insert_eq.
  pose proof (milliseconds_pos _ Hw). destruct (Z.leb_spec (milliseconds (Window cfg)) 0); [lia|].
  destruct (Z.leb_spec (MaxAttempts cfg) 1); [lia|]. done.
Qed.

(** The failure that reaches the limit: the lock is set and reported. *)
Lemma record_trips id r ks n :
  fine r -> id <> ""%string -> config_ok -> MaxAttempts cfg <= n -> peek (rkeys r) (rclock r) (lck id) = None ->
  incr (ctr id) (rkeys r) (rclock r) = (ks, Ok n) -> (forall k, k <> ctr id -> ks !! k = rkeys r !! k) ->
  exists r', record id r = (r', Ok (Some (mkRateLimitError (Purpose cfg) id (pttl_ms lockout_ns * Millisecond))))
  /\ rkeys r' !! lck id = Some (mkRKey (RStr "1"%string) (Some (rclock r + lockout_ns)))
  /\ rclock r' = rclock r /\ rfate r' = rfate r.
Proof.
  intros Hf Hid (_ & Hw & Hlo) Hn Hlk Hinc Hother. pose proof (ctr_lck_ne id) as Hne.
  unfold RecordFailure. rewrite bool_decide_eq_false_2 by done. unfold attempt. rewrite (command_fine _ _ Hf).
  unfold recordScript. rewrite Hinc. destruct (Z.leb_spec (MaxAttempts cfg) n); [|lia].
  set (ks2 := if n =? 1 then pexpire (ctr id) (milliseconds (Window cfg)) ks (rclock r) else ks).
  assert (ks2 !! lck id = rkeys r !! lck id) as Hlk2.
  { unfold ks2, pexpire. rewrite <- Hother by done. repeat case_match; try done;
      [by rewrite lookup_delete_ne | by rewrite lookup_insert_ne]. }
  unfold set_nx. pose proof (milliseconds_pos _ Hlo). destruct (Z.leb_spec (milliseconds (Lockout cfg)) 0); [lia|].
  assert (peek ks2 (rclock r) (lck id) = None) as -> by (unfold peek in *; by rewrite Hlk2).
  cbn [fst snd]. unfold remaining. fold lockout_ns.
  assert (0 < lockout_ns) as Hpos by (unfold lockout_ns, Millisecond; lia).
  rewrite peek_insert_eq by (cbn; apply Z.ltb_lt; lia). cbn.
  replace (rclock r + lockout_ns - rclock r) with lockout_ns by lia.
  assert (0 < pttl_ms lockout_ns) as Hp.
  { apply pttl_pos. unfold lockout_ns, Millisecond. lia. }
  rewrite (proj2 (Z.ltb_lt _ _) Hp). eexists. split; [done|]. cbn. by rewrite lookup_insert_eq.
Qed.

(** The answers of failures recorded at the times [ts], and the store after. *)
Fixpoint failures (id : string) (ts : list Z) (r : LRedis) : list (res RErr (option RateLimitError)) * LRedis :=
  match ts with
  | [] => ([], r)
  | t :: ts' =>
      let '(r1, x) := record id (at_time t r) in
      let '(xs, r2) := failures id ts' r1 in (x :: xs, r2)
  end.

(** Counting on from [n] failures, all inside the window that ends at [d]. *)
Lemma failures_count id n d early t r :
  fine r -> id <> ""%string -> config_ok -> 0 < n ->
  rkeys r !! ctr id = Some (mkRKey (RInt n) (Some d)) -> rkeys r !! lck id = None ->
  n + Z.of_nat (length early) + 1 = MaxAttempts cfg -> (forall x, x ∈ early -> x < d) -> t < d ->
  exists r', failures id (early ++ [t]) r
             = (replicate (length early) (Ok None)
                ++ [Ok (Some (mkRateLimitError (Purpose cfg) id (pttl_ms lockout_ns * Millisecond)))], r')
  /\ rkeys r' !! lck id = Some (mkRKey (RStr "1"%string) (Some (t + lockout_ns))) /\ rfate r' = rfate r.
Proof.
  revert n r. induction early as [|e early IH]; intros n r Hf Hid Hcfg Hn Hc Hl Hmax Hearly Ht; cbn [failures app length].
  - assert (peek (rkeys r) t (ctr id) = Some (mkRKey (RInt n) (Some d))) as Hp
      by (apply peek_Some; split; [done | by apply Z.ltb_lt]).
    destruct (record_trips id (at_time t r) (<[ctr id := mkRKey (RInt (n + 1)) (Some d)]> (rkeys r)) (n + 1))
      as (r' & Hr & Hlk & _ & Hfate); try done.
    + cbn [length] in Hmax. lia.
    + unfold peek. cbn. by rewrite Hl.
    + unfold incr. cbn [rkeys rclock at_time]. by rewrite Hp.
    + intros k Hk. by rewrite lookup_insert_ne.
    + rewrite Hr. exists r'. done.
  - assert (peek (rkeys r) e (ctr id) = Some (mkRKey (RInt n) (Some d))) as Hp
      by (apply peek_Some; split; [done | apply Z.ltb_lt, Hearly; left]).
    cbn [length] in Hmax.
    rewrite (record_counts id (at_time e r) n (Some d)); [|done|done|lia|done|done].
    set (r1 := mkRedis _ _ _ _).
    destruct (IH (n + 1) r1) as (r' & Hr & Hlk & Hfate); try done.
    + lia.
    + unfold r1. cbn. by rewrite lookup_insert_eq.
    + unfold r1. cbn. rewrite lookup_insert_ne; [done | apply ctr_lck_ne].
    + lia.
    + intros x Hx. apply Hearly. by right.
    + cbn [failures] in Hr. rewrite Hr. exists r'. done.
Qed.

(** The lock trips on time and holds. On a working connection, for an
    identifier with no failures on record, the first [MaxAttempts - 1] failures
    inside one window are let through and the next one is answered with the lock;
    from then until the last second of the lockout every check is refused. *)
Theorem brute_force_trips_the_lock id t1 early t r :
  fine r -> id <> ""%string -> config_ok ->
  rkeys r !! ctr id = None -> rkeys r !! lck id = None ->
  Z.of_nat (length (t1 :: early)) + 1 = MaxAttempts cfg ->
  (forall x, x ∈ early -> x < t1 + window_ns) -> t < t1 + window_ns ->
  exists r', failures id ((t1 :: early) ++ [t]) r
             = (replicate (length (t1 :: early)) (Ok None)
                ++ [Ok (Some (mkRateLimitError (Purpose cfg) id (pttl_ms lockout_ns * Millisecond)))], r')
  /\ forall now, t <= now -> now + Second <= t + lockout_ns ->
     exists e, (check id (at_time now r')).2 = Ok (Some e) /\ 0 < RetryAfter e.
Proof.
  intros Hf Hid Hcfg Hc Hl Hmax Hearly Ht. cbn [length] in Hmax. cbn [failures app].
  rewrite (record_first id (at_time t1 r)); [|done|done|done|lia|unfold peek; cbn; by rewrite Hc].
  set (r1 := mkRedis _ _ _ _).
  destruct (failures_count id 1 (t1 + window_ns) early t r1) as (r' & Hr & Hlk & Hfate); try done.
  - unfold r1. cbn. by rewrite lookup_insert_eq.
  - unfold r1. cbn. rewrite lookup_insert_ne; [done | apply ctr_lck_ne].
  - lia.
  - rewrite Hr. exists r'. split; [done|]. intros now Hnow Hleft.
    unfold Check. rewrite bool_decide_eq_false_2 by done. unfold attempt.
    rewrite command_fine by (intros k; cbn; rewrite Hfate; apply Hf). unfold ttl_f, remaining. cbn [rkeys rclock at_time].
    assert (peek (rkeys r') now (lck id) = Some (mkRKey (RStr "1"%string) (Some (t + lockout_ns)))) as ->.
    { apply peek_Some. split; [done|]. cbn. apply Z.ltb_lt. unfold Second, Millisecond in *. lia. }
    cbn. pose proof (ttl_pos (t + lockout_ns - now) ltac:(lia)) as Hpos.
    assert (0 < ttl_s (t + lockout_ns - now) * Second) as Hpos2 by (unfold Second, Millisecond; lia).
    rewrite (proj2 (Z.ltb_lt _ _) Hpos2). eexists. split; [done | exact Hpos2].
Qed.

(** The limiter fails closed. When the store does not answer, an attempt is
    refused with the full lockout unless the limiter was configured to fail open;
    a check and a recorded failure alike. *)
Theorem store_outage_fails_closed id r :
  id <> ""%string -> rfate r (rcalls r) <> Fine ->
  (check id r).2 = Ok (failResult cfg id) /\ (record id r).2 = Ok (failResult cfg id)
  /\ failResult cfg id = if FailOpen cfg then None else Some (mkRateLimitError (Purpose cfg) id (Lockout cfg)).
Proof.
  intros Hid Hfate. unfold Check, RecordFailure. rewrite !bool_decide_eq_false_2 by done.
  unfold attempt, command. destruct (recordScript _ _ _ _ _ _ _ _) as [ks x].
  cbn [ttl_f]. destruct (rfate r (rcalls r)); done.
Qed.

Lemma same_prefix (p a b : string) : p +:+ a = p +:+ b -> a = b.
Proof. induction p as [|c p IH]; simpl; [done|]. intros H. injection H. apply IH. Qed.

Lemma string_length_app (s1 s2 : string) : String.length (s1 +:+ s2) = (String.length s1 + String.length s2)%nat.
Proof. induction s1 as [|c s1 IH]; simpl; [done | by rewrite IH]. Qed.

Lemma string_app_assoc (a b c : string) : a +:+ (b +:+ c) = (a +:+ b) +:+ c.
Proof. induction a as [|x a IH]; [done|]. exact (f_equal (String x) IH). Qed.

Lemma string_app_inj (a b x y : string) :
  String.length a = String.length b -> a +:+ x = b +:+ y -> a = b /\ x = y.
Proof.
  revert b. induction a as [|c a IH]; intros [|d b] Hl Heq; simpl in *; try discriminate; [done|].
  injection Heq as -> Heq. destruct (IH b) as [-> ->]; [lia | done | done].
Qed.

Lemma keys_disjoint id1 id2 :
  (forall x, String.length (sha256_hex x) = 64%nat) -> sha256_hex id1 <> sha256_hex id2 ->
  ctr id1 <> ctr id2 /\ ctr id1 <> lck id2 /\ lck id1 <> ctr id2 /\ lck id1 <> lck id2.
Proof.
  intros Hlen Hne.
  assert (forall x, ctr x = (keyPrefix +:+ ":" +:+ Purpose cfg +:+ ":") +:+ sha256_hex x) as Hctr.
  { intros x. unfold counterKey. by rewrite <- !string_app_assoc. }
  assert (forall x y, String.length (ctr x) = String.length (ctr y)) as Hl.
  { intros x y. rewrite !Hctr, !string_length_app, !Hlen. done. }
  assert (ctr id1 <> ctr id2) as Hcc.
  { rewrite !Hctr. intros Heq%same_prefix. done. }
  split_and!; [done | | |].
  - unfold lockKey. by apply app_length_ne.
  - intros Heq. symmetry in Heq. revert Heq. unfold lockKey. by apply app_length_ne.
  - unfold lockKey. intros Heq. apply string_app_inj in Heq as [Heq _]; [done | apply Hl].
Qed.

Lemma incr_other k k' (ks : gmap string (RKey string)) now : k <> k' -> (incr k ks now).1 !! k' = ks !! k'.
Proof. intros Hne. unfold incr. repeat case_match; cbn; try done; by rewrite lookup_insert_ne. Qed.

Lemma pexpire_other k k' ms (ks : gmap string (RKey string)) now : k <> k' -> pexpire k ms ks now !! k' = ks !! k'.
Proof.
  intros Hne. unfold pexpire. repeat case_match; try done; [by rewrite lookup_delete_ne | by rewrite lookup_insert_ne].
Qed.

Lemma set_nx_other k k' ms (ks : gmap string (RKey string)) now : k <> k' -> (set_nx k ms ks now).1 !! k' = ks !! k'.
Proof. intros Hne. unfold set_nx. repeat case_match; cbn; try done; by rewrite lookup_insert_ne. Qed.

Lemma script_other c l w n lo k (ks : gmap string (RKey string)) now :
  c <> k -> l <> k -> (recordScript pttl_ms c l w n lo ks now).1 !! k = ks !! k.
Proof.
  intros Hc Hl. unfold recordScript. pose proof (incr_other c k ks now Hc) as H1.
  destruct (incr c ks now) as [ks1 [n1|e]]; cbn in *; [|done].
  assert ((if n1 =? 1 then pexpire c w ks1 now else ks1) !! k = ks !! k) as H2
    by (destruct (n1 =? 1); [by rewrite (pexpire_other c k) | done]).
  destruct (n <=? n1); [|exact H2]. pose proof (set_nx_other l k lo (if n1 =? 1 then pexpire c w ks1 now else ks1) now Hl) as H3.
  destruct (set_nx _ _ _ _) as [ks3 [u|e]]; cbn in *; congruence.
Qed.

(** Identifiers do not affect each other. Recording failures against one
    identifier, or resetting it, leaves the counter and the lock of every
    identifier with another digest as they were, whatever characters the
    identifiers contain ("x:locked" cannot lock "x"). *)
Theorem identifiers_are_isolated id1 id2 r r' :
  (forall x, String.length (sha256_hex x) = 64%nat) -> sha256_hex id1 <> sha256_hex id2 ->
  (exists x, record id1 r = (r', x)) \/ (exists x, Reset sha256_hex cfg id1 r = (r', x)) ->
  rkeys r' !! ctr id2 = rkeys r !! ctr id2 /\ rkeys r' !! lck id2 = rkeys r !! lck id2.
Proof.
  intros Hlen Hne Hrun. destruct (keys_disjoint id1 id2 Hlen Hne) as (H1 & H2 & H3 & H4).
  destruct Hrun as [[x Hr]|[x Hr]].
  - unfold RecordFailure in Hr. destruct (bool_decide _); [unfold ret in Hr; by simplify_eq|].
    unfold attempt in Hr. destruct (command _ r) as [r1 y] eqn:Hc.
    assert (r' = r1) as -> by (destruct y; unfold ret in Hr; by simplify_eq).
    apply command_inv in Hc as (_ & _ & [[-> _]|(_ & _ & [->| ->])]); [|done|];
      by rewrite !script_other.
  - unfold Reset in Hr. destruct (bool_decide _); [unfold ret in Hr; by simplify_eq|].
    unfold ignore, attempt in Hr. destruct (command _ r) as [r1 y] eqn:Hc. unfold ret in Hr. simplify_eq.
    apply command_inv in Hc as (_ & _ & [[-> _]|(_ & _ & [->| ->])]); [|done|]; cbn;
      by rewrite !lookup_delete_ne.
Qed.
End Props.

(** ** Concrete runs *)

Module RateDemo.
(** A stand-in for the digest, 64 characters long and different on the two
    identifiers below; PTTL and TTL round down. *)
Definition hex (s : string) : string :=
  (if bool_decide (s = "a")%string then "0" else "1") +:+
  "123456789abcdef0123456789abcdef0123456789abcdef0123456789abcdef".
Definition pttl (d : Z) : Z := d / Millisecond.
Definition ttl (d : Z) : Z := d / Second.
Definition cfg : Config := mkConfig "login" 3 (5 * Minute) (15 * Minute) false.
Definition store : LRedis := mkRedis ∅ 0 (fun _ => Fine) 0.

Lemma pttl_pos d : Millisecond <= d -> 0 < pttl d.
Proof. unfold pttl, Millisecond. intros H. apply Z.div_str_pos. lia. Qed.
Lemma ttl_pos d : Second <= d -> 0 < ttl d.
Proof. unfold ttl, Second, Millisecond. intros H. apply Z.div_str_pos. lia. Qed.

Lemma lock_witness :
  (failures hex pttl cfg "a" [0; 1; 2] store).1
  = [Ok None; Ok None; Ok (Some (mkRateLimitError "login" "a" (15 * Minute)))].
Proof.
  destruct (brute_force_trips_the_lock hex pttl ttl cfg pttl_pos ttl_pos "a" 0 [1] 2 store) as (r' & Hr & _).
  - intros n. reflexivity.
  - discriminate.
  - vm_compute. repeat split; discriminate.
  - reflexivity.
  - reflexivity.
  - reflexivity.
  - intros x Hx. apply list_elem_of_singleton in Hx. subst x. reflexivity.
  - reflexivity.
  - exact (f_equal fst Hr).
Defined.

Definition down : LRedis := mkRedis ∅ 0 (fun _ => Refused) 0.

Lemma outage_witness :
  (Check hex ttl cfg "a" down).2 = Ok (Some (mkRateLimitError "login" "a" (15 * Minute))).
Proof.
  exact (proj1 (store_outage_fails_closed hex pttl ttl cfg "a" down ltac:(discriminate) ltac:(discriminate))).
Defined.

Lemma isolation_witness :
  rkeys (RecordFailure hex pttl cfg "a" store).1 !! lockKey hex cfg "b" = None.
Proof.
  refine (proj2 (identifiers_are_isolated hex pttl cfg "a" "b" store _ _ _ (or_introl (ex_intro _ _ (surjective_pairing _))))).
  - intros x. unfold hex. case_bool_decide; reflexivity.
  - vm_compute. discriminate.
Defined.
End RateDemo.
