(* ===== verification/CasTickets.v ===== *)
(** * CasTickets: tickets, the service registry and SSO confirmations

    src/internal/protocol/cas/ticket.go, proxy_ticket.go, ticket_registry.go and
    src/pkg/ssoflow/ssoflow.go over the Redis model. The random part of a ticket
    is an argument; [None] is a failing system generator. *)

From S2P Require Import Prelude Text Redis.

Record ServiceTicket : Type := mkServiceTicket {
  Ticket : string; UserID : Z; TenantID : Z; Service : string; Username : string;
  CreatedAt : Z; IsProxy : bool; Proxies : list string
}.

Record ProxyGrantingTicket : Type := mkProxyGrantingTicket {
  PGT : string; g_UserID : Z; g_TenantID : Z; AppID : Z; g_Username : string;
  PGTURL : string; g_Proxies : list string; g_CreatedAt : Z
}.

(** What the keys of this component hold: JSON values, and the plain text of a
    confirmation token. *)
Inductive CasVal : Type :=
| VTicket (t : ServiceTicket)
| VPGT (p : ProxyGrantingTicket)
| VText (s : string).

Inductive CasErr : Type :=
| ErrRandom
| ErrNotFound
| ErrStore (e : RErr)
| ErrUnmarshal.

Abbreviation CRedis := (Redis CasVal).
Abbreviation Op := (M CRedis CasErr).

(** A Redis call and its answer, error included. *)
Definition call {A B} (m : M CRedis RErr A) (k : res RErr A -> Op B) : Op B :=
  fun r => let '(r', x) := m r in k x r'.
(** [if err := call; err != nil { return err }] *)
Definition checked {A} (m : M CRedis RErr A) : Op A :=
  call m (fun x => match x with Ok a => ret a | Err e => throw (ErrStore e) end).
(** A call whose error is dropped. *)
Definition dropped {A} (m : Op A) : Op unit := attempt m (fun _ => ret tt).

Definition Now : Op Z := gets rclock.

(** json.Unmarshal fills the fields two documents share and ignores the rest; a
    confirmation's text is not a JSON document. *)
Definition unmarshal_ticket (v : CasVal) : option ServiceTicket :=
  match v with
  | VTicket t => Some t
  | VPGT p => Some (mkServiceTicket "" (g_UserID p) (g_TenantID p) "" (g_Username p) (g_CreatedAt p) false (g_Proxies p))
  | VText _ => None
  end.
Definition unmarshal_pgt (v : CasVal) : option ProxyGrantingTicket :=
  match v with
  | VPGT p => Some p
  | VTicket t => Some (mkProxyGrantingTicket "" (UserID t) (TenantID t) 0 (Username t) "" (Proxies t) (CreatedAt t))
  | VText _ => None
  end.

Definition randomly {A} (random : option string) (k : string -> Op A) : Op A :=
  match random with Some s => k s | None => throw ErrRandom end.

(** ** ticket.go *)

Definition ticketPrefix : string := "mxid:cas:ticket:".
Definition defaultTicketTTL : Z := 30 * Second.

(** [time.Duration(ttl) * time.Second] *)
Definition seconds_or (ttl default : Z) : Z := if 0 <? ttl then wrap64 (ttl * Second) else default.

Definition CreateTicket (random : option string) (userID tenantID : Z) (service username : string)
    (ttl : Z) : Op ServiceTicket :=
  randomly random (fun rnd =>
    let! now := Now in
    let st := mkServiceTicket ("ST-" +:+ rnd) userID tenantID service username now false [] in
    do! checked (SET (ticketPrefix +:+ Ticket st) (VTicket st) (seconds_or ttl defaultTicketTTL)) in
    ret st).

Definition ConsumeTicket (ticket : string) : Op ServiceTicket :=
  call (GETDEL (ticketPrefix +:+ ticket)) (fun x =>
    match x with
    | Err RErrNil => throw ErrNotFound
    | Err e => throw (ErrStore e)
    | Ok v => match unmarshal_ticket v with Some st => ret st | None => throw ErrUnmarshal end
    end).

(** ** proxy_ticket.go *)

Definition pgtPrefix : string := "mxid:cas:pgt:".
Definition defaultPGTicketTTL : Z := 2 * Hour.
Definition proxyTicketTTL : Z := 30 * Second.

Definition CreatePGT (random : option string) (userID tenantID appID : Z) (username pgtURL : string)
    (proxies : list string) (ttl : Z) : Op ProxyGrantingTicket :=
  randomly random (fun rnd =>
    let! now := Now in
    let pgt := mkProxyGrantingTicket ("PGT-" +:+ rnd) userID tenantID appID username pgtURL proxies now in
    do! checked (SET (pgtPrefix +:+ PGT pgt) (VPGT pgt) (seconds_or ttl defaultPGTicketTTL)) in
    ret pgt).

Definition GetPGT (pgtID : string) : Op ProxyGrantingTicket :=
  call (GET (pgtPrefix +:+ pgtID)) (fun x =>
    match x with
    | Err RErrNil => throw ErrNotFound
    | Err e => throw (ErrStore e)
    | Ok v => match unmarshal_pgt v with Some pgt => ret pgt | None => throw ErrUnmarshal end
    end).

Definition DeletePGT (pgtID : string) : Op unit := checked (DEL (pgtPrefix +:+ pgtID)).

Definition CreateProxyTicket (random : option string) (pgt : ProxyGrantingTicket) (targetService : string)
    : Op ServiceTicket :=
  randomly random (fun rnd =>
    let! now := Now in
    let pt := mkServiceTicket ("PT-" +:+ rnd) (g_UserID pgt) (g_TenantID pgt) targetService (g_Username pgt)
                now true (PGTURL pgt :: g_Proxies pgt) in
    do! checked (SET (ticketPrefix +:+ Ticket pt) (VTicket pt) proxyTicketTTL) in
    ret pt).

(** ** ticket_registry.go *)

Record CASServiceRef : Type := mkCASServiceRef { ServiceURL : string; ref_Ticket : string }.

Definition casSLORegistryTTL : Z := 8 * 24 * Hour.

Definition casServiceKey (userID appID : Z) : string := "mxid:cas:svc:" +:+ dec userID +:+ ":" +:+ dec appID.
Definition casUserKey (userID : Z) : string := "mxid:cas:svc:user:" +:+ dec userID.

Section Registry.
(** The JSON of a service reference, and its decoding. *)
Context (ref_json : CASServiceRef -> string) (ref_unjson : string -> option CASServiceRef).

Definition RecordService (userID appID : Z) (serviceURL ticket : string) (ttl : Z) : Op unit :=
  let key := casServiceKey userID appID in
  let userKey := casUserKey userID in
  checked (EXEC [ sadd_f key (ref_json (mkCASServiceRef serviceURL ticket));
                  expire_f key ttl;
                  sadd_f userKey (dec appID);
                  expire_f userKey ttl ]).

(** The members are the decimal numbers [RecordService] wrote. *)
Definition AppsForUser (userID : Z) : Op (list Z) :=
  call (SMEMBERS (casUserKey userID)) (fun x =>
    match x with
    | Err RErrNil => ret []
    | Err e => throw (ErrStore e)
    | Ok members => ret (filter (fun id => id <> 0) (omap undec members))
    end).

Definition ListServices (userID appID : Z) : Op (list CASServiceRef) :=
  call (SMEMBERS (casServiceKey userID appID)) (fun x =>
    match x with
    | Err e => throw (ErrStore e)
    | Ok members => ret (omap ref_unjson members)
    end).
End Registry.

Definition Clear (userID appID : Z) : Op unit :=
  checked (EXEC [ del_f (casServiceKey userID appID); srem_f (casUserKey userID) (dec appID) ]).

(** ** pkg/ssoflow: the one-time confirmation of a login *)

Definition confirmPrefix : string := "ssoconfirm:".
Definition confirmTTL : Z := 5 * Minute.
Definition confirmValue (userID appID : Z) : string := dec userID +:+ ":" +:+ dec appID.

Definition Issue (random : option string) (userID appID : Z) : Op string :=
  randomly random (fun token =>
    do! checked (SET (confirmPrefix +:+ token) (VText (confirmValue userID appID)) confirmTTL) in
    ret token).

(** The value is compared as text; a JSON value of another kind is not such a text. *)
Definition Consume (token : string) (userID appID : Z) : Op bool :=
  if bool_decide (token = "")%string then ret false else
  call (GETDEL (confirmPrefix +:+ token)) (fun x =>
    match x with
    | Ok (VText s) => ret (bool_decide (s = confirmValue userID appID))
    | Ok _ => ret false
    | Err _ => ret false
    end).
