(* ===== verification/CasHandler.v ===== *)
(** * CasHandler: the CAS endpoints

    src/internal/protocol/cas/handler.go, proxy.go, slo.go and the subject
    strategies of src/internal/protocol/resolver/subject.go. A request is a record
    of the parameters and cookies it carries, a response the data that is encoded
    as XML or text. The resolvers the handlers call are the fields of [Env]: what
    they answer during one request. *)

From Stdlib Require Import Ascii.
From S2P Require Import Prelude Text Redis CasTickets.

(** ** resolver/subject.go *)

Record SubjectInput : Type := mkSubjectInput {
  in_UserID : Z; in_Username : string; in_Email : string; in_TenantID : Z;
  in_TenantCode : string; in_ClientID : string
}.

Record SubjectOutput : Type := mkSubjectOutput {
  Subject : string; DisplayUsername : string; out_TenantCode : string
}.

Definition StrategyUsername : string := "username".
Definition StrategyUsernameSuffixed : string := "username_suffixed".
Definition StrategyEmail : string := "email".
Definition StrategyPersistentID : string := "persistent_id".
Definition StrategyPairwise : string := "pairwise".

Section Subject.
(** The hex of the first 16 bytes of the SHA-256. *)
Context (sha256_hex32 : string -> string).

Definition pairwiseSubject (clientID : string) (userID : Z) : string :=
  sha256_hex32 (clientID +:+ "|" +:+ dec userID).

(** [None]: the error returns. *)
Definition ResolveSubject (strategy : string) (i : SubjectInput) : option SubjectOutput :=
  let out s d := Some (mkSubjectOutput s d (in_TenantCode i)) in
  if decide (strategy = StrategyUsername \/ strategy = ""%string) then out (in_Username i) (in_Username i)
  else if decide (strategy = StrategyUsernameSuffixed) then
    if decide (in_TenantCode i <> ""%string) then
      let s := in_Username i +:+ "@" +:+ in_TenantCode i in out s s
    else out (in_Username i) (in_Username i)
  else if decide (strategy = StrategyEmail) then
    if decide (in_Email i = ""%string) then None else out (in_Email i) (in_Username i)
  else if decide (strategy = StrategyPersistentID) then out (dec (in_UserID i)) (in_Username i)
  else if decide (strategy = StrategyPairwise) then
    if decide (in_ClientID i = ""%string) then None
    else out (pairwiseSubject (in_ClientID i) (in_UserID i)) (in_Username i)
  else None.
End Subject.

(** ** config.go and the resolvers *)

Record CASConfig : Type := mkCASConfig {
  ServiceURLs : list string; AttributeMapping : gmap string string; RoleAttribute : string;
  GroupAttribute : string; TicketTTL : Z; RenewEnabled : bool; LogoutURL : string;
  ProxyEnabled : bool; PGTicketTTL : Z
}.

Definition Defaults : CASConfig :=
  mkCASConfig [] {[ "username" := "uid"; "email" := "mail"; "display_name" := "displayName";
                    "phone" := "telephoneNumber" ]} "roles" "" 30 false "" false 7200.

(** The fields an app's protocol_config sets; the others are absent from it. *)
Record ConfigFields : Type := mkConfigFields {
  f_service_urls : option (list string); f_attribute_mapping : gmap string string;
  f_role_attribute : option string; f_group_attribute : option string; f_ticket_ttl : option Z;
  f_renew_enabled : option bool; f_logout_url : option string; f_proxy_enabled : option bool;
  f_pgt_ticket_ttl : option Z
}.

(** json.Unmarshal over the defaults: set fields are replaced, but the entries of
    a map are added to those it has. *)
Definition parseCASConfig (raw : ConfigFields) : CASConfig :=
  mkCASConfig (default (ServiceURLs Defaults) (f_service_urls raw))
    (f_attribute_mapping raw ∪ AttributeMapping Defaults)
    (default (RoleAttribute Defaults) (f_role_attribute raw))
    (default (GroupAttribute Defaults) (f_group_attribute raw))
    (default (TicketTTL Defaults) (f_ticket_ttl raw))
    (default (RenewEnabled Defaults) (f_renew_enabled raw))
    (default (LogoutURL Defaults) (f_logout_url raw))
    (default (ProxyEnabled Defaults) (f_proxy_enabled raw))
    (default (PGTicketTTL Defaults) (f_pgt_ticket_ttl raw)).

(** The fields of resolver.AppConfig, SSOSession and IdentityInfo that the CAS
    handlers read. *)
Record AppConfig : Type := mkAppConfig {
  ID : Z; SubjectStrategy : string; Status : Z; ClientID : string; ProtocolConfig : ConfigFields
}.
Record SSOSession : Type := mkSSOSession { s_UserID : Z; s_TenantID : Z }.
Record IdentityInfo : Type := mkIdentityInfo {
  u_ID : Z; u_TenantID : Z; u_Username : string; Email : string; Phone : string;
  DisplayName : string; Groups : list string
}.

Record Env : Type := mkEnv {
  GetApp : string -> option AppConfig;
  GetAppByID : Z -> option AppConfig;
  GetSSOSession : string -> option SSOSession;
  (** within the tenant the context was pinned to *)
  ResolveUser : Z -> Z -> option IdentityInfo;
  (** "" on an error, too *)
  GetTenantCode : Z -> string;
  appRoles : option (Z -> Z -> Z -> option (list string));
  (** the pgtUrl's answer to the callback is a 2xx *)
  pgtCallback : string -> string -> string -> bool
}.

(** ** Service URLs *)

Record URL : Type := mkURL {
  Scheme : string; Host : string; Path : string; HasUser : bool; Fragment : string
}.

(** [strings.TrimRight(s, "/")] *)
Fixpoint TrimSlashes (s : string) : string :=
  match s with
  | EmptyString => EmptyString
  | String c s' =>
      let t := TrimSlashes s' in
      if decide (t = ""%string /\ c = "/"%char) then ""%string else String c t
  end.

Section Handler.
(** net/url's parser and strings.EqualFold; the iteration order of a map. *)
Context (url_parse : string -> option URL) (EqualFold : string -> string -> bool).
Context (map_order : gmap string string -> list (string * string)).
Context (sha256_hex32 : string -> string).
Context (ref_json : CASServiceRef -> string) (ref_unjson : string -> option CASServiceRef).

Definition parseAbsoluteHTTP (raw : string) : option URL :=
  u ← url_parse raw;
  if decide (Scheme u = ""%string) then None else
  if HasUser u then None else
  if decide (Scheme u <> "https" /\ Scheme u <> "http")%string then None else
  if decide (Fragment u <> ""%string) then None else Some u.

(** One entry of the allow-list. *)
Definition service_matches (requested : URL) (allowed : string) : bool :=
  match parseAbsoluteHTTP allowed with
  | None => false
  | Some reg =>
      if negb (EqualFold (Scheme requested) (Scheme reg)) || negb (EqualFold (Host requested) (Host reg))
      then false
      else bool_decide (Path requested = Path reg)
           || HasPrefix (Path requested) (TrimSlashes (Path reg) +:+ "/")
  end.

Definition isValidService (cfg : CASConfig) (service : string) : bool :=
  if decide (ServiceURLs cfg = []) then false else
  match parseAbsoluteHTTP service with
  | None => false
  | Some requested => existsb (service_matches requested) (ServiceURLs cfg)
  end.

(** ** /login *)

Record LoginRequest : Type := mkLoginRequest {
  l_app_code : string; l_service : string; proto_sid : string; portal_sid : string;
  sso_deny : string; idp_initiated : string; sso_confirm : string
}.

Inductive LoginResponse : Type :=
| LoginBadRequest | LoginNotFound | LoginDisabled | LoginInvalidService
| RedirectToLogin | RedirectToConsent | RedirectDenied | LoginInternalError
| RedirectWithTicket (location : string).

(** A cookie that is missing reads as empty. *)
Definition sso_session (env : Env) (req : LoginRequest) : option SSOSession :=
  let session_of sid := if decide (sid = ""%string) then None else GetSSOSession env sid in
  match session_of (proto_sid req) with Some s => Some s | None => session_of (portal_sid req) end.

(** The principal of the ticket. An error of [ResolveSubject] is dropped. *)
Definition principal (env : Env) (app : AppConfig) (user : IdentityInfo) : string :=
  let tenantCode := if 0 <? u_TenantID user then GetTenantCode env (u_TenantID user) else ""%string in
  match ResolveSubject sha256_hex32 (SubjectStrategy app)
          (mkSubjectInput (u_ID user) (u_Username user) (Email user) (u_TenantID user) tenantCode (ClientID app)) with
  | Some subj => if decide (Subject subj <> ""%string) then Subject subj else u_Username user
  | None => u_Username user
  end.

Fixpoint contains_char (c : ascii) (s : string) : bool :=
  match s with EmptyString => false | String d s' => bool_decide (c = d) || contains_char c s' end.

Definition with_ticket (service ticket : string) : string :=
  service +:+ (if contains_char "?" service then "&" else "?") +:+ "ticket=" +:+ ticket.

(** From the resolved session on. *)
Definition issue_ticket (env : Env) (random : option string) (app : AppConfig) (service : string)
    (sess : SSOSession) : Op LoginResponse :=
  match ResolveUser env (s_TenantID sess) (s_UserID sess) with
  | None => ret LoginInternalError
  | Some user =>
      attempt (CreateTicket random (s_UserID sess) (s_TenantID sess) service (principal env app user)
                 (TicketTTL (parseCASConfig (ProtocolConfig app)))) (fun x =>
        match x with
        | Err _ => ret LoginInternalError
        | Ok ticket => ret (RedirectWithTicket (with_ticket service (Ticket ticket)))
        end)
  end.

Definition login (env : Env) (random : option string) (req : LoginRequest) : Op LoginResponse :=
  let service := l_service req in
  if decide (service = ""%string) then ret LoginBadRequest else
  match GetApp env (l_app_code req) with
  | None => ret LoginNotFound
  | Some app =>
      if decide (Status app <> 1) then ret LoginDisabled else
      if negb (isValidService (parseCASConfig (ProtocolConfig app)) service) then ret LoginInvalidService else
      match sso_session env req with
      | None => ret RedirectToLogin
      | Some sess =>
          if decide (sso_deny req = "1"%string) then ret RedirectDenied else
          let! confirmed := (if decide (idp_initiated req <> "1"%string)
                             then Consume (sso_confirm req) (s_UserID sess) (ID app) else ret true) in
          if negb confirmed then ret RedirectToConsent else
          issue_ticket env random app service sess
      end
  end.

(** ** /validate (CAS 1.0) *)

Definition validate (ticket service : string) : Op (option string) :=
  if decide (ticket = "" \/ service = "")%string then ret None else
  attempt (ConsumeTicket ticket) (fun x =>
    match x with
    | Err _ => ret None
    | Ok st => ret (if decide (Service st <> service) then None else Some (Username st))
    end).

(** ** /proxy *)

Record ProxyRequest : Type := mkProxyRequest { x_app_code : string; x_pgt : string; targetService : string }.

(** The ticket, or the code of the failure. *)
Definition proxy (env : Env) (random : option string) (req : ProxyRequest) : Op (string + string) :=
  if decide (x_pgt req = "" \/ targetService req = "")%string then ret (inr "INVALID_REQUEST"%string) else
  match GetApp env (x_app_code req) with
  | None => ret (inr "INVALID_REQUEST"%string)
  | Some app =>
      if decide (Status app <> 1) then ret (inr "INVALID_REQUEST"%string) else
      let cfg := parseCASConfig (ProtocolConfig app) in
      if negb (ProxyEnabled cfg) then ret (inr "UNAUTHORIZED_SERVICE"%string) else
      if negb (isValidService cfg (targetService req)) then ret (inr "UNAUTHORIZED_SERVICE"%string) else
      attempt (GetPGT (x_pgt req)) (fun x =>
        match x with
        | Err _ => ret (inr "BAD_PGT"%string)
        | Ok pgt =>
            if decide (AppID pgt <> ID app) then ret (inr "BAD_PGT"%string) else
            attempt (CreateProxyTicket random pgt (targetService req)) (fun y =>
              match y with
              | Err _ => ret (inr "INTERNAL_ERROR"%string)
              | Ok pt => ret (inl (Ticket pt))
              end)
        end)
  end.

(** ** /serviceValidate, /proxyValidate and their /p3 variants *)

Record ValidateRequest : Type := mkValidateRequest {
  v_app_code : string; v_ticket : string; v_service : string; v_pgtUrl : string
}.

Record AuthenticationSuccess : Type := mkAuthenticationSuccess {
  User : string; Attributes : list (string * string); ProxyGrantingTicketIOU : string;
  ProxyList : list string
}.

Definition ServiceResponse : Type := AuthenticationSuccess + string.

(** The IOU, or "" when no ticket was delivered. *)
Definition maybeIssuePGT (env : Env) (randomIOU randomPGT : option string) (cfg : CASConfig)
    (app : AppConfig) (st : ServiceTicket) (pgtURL : string) : Op string :=
  if negb (ProxyEnabled cfg) then ret ""%string else
  if negb (isValidService cfg pgtURL) then ret ""%string else
  match randomIOU with
  | None => ret ""%string
  | Some rnd =>
      let pgtIOU := "PGTIOU-" +:+ rnd in
      attempt (CreatePGT randomPGT (UserID st) (TenantID st) (ID app) (Username st) pgtURL (Proxies st)
                 (PGTicketTTL cfg)) (fun x =>
        match x with
        | Err _ => ret ""%string
        | Ok pgt =>
            if negb (pgtCallback env pgtURL (PGT pgt) pgtIOU)
            then do! dropped (DeletePGT (PGT pgt)) in ret ""%string
            else ret pgtIOU
        end)
  end.

Definition user_attribute (user : IdentityInfo) (name : string) : option string :=
  if decide (name = "username")%string then Some (u_Username user) else
  if decide (name = "email")%string then Some (Email user) else
  if decide (name = "display_name")%string then Some (DisplayName user) else
  if decide (name = "phone")%string then Some (Phone user) else None.

Definition buildAttributes (cfg : CASConfig) (user : IdentityInfo) : list (string * string) :=
  omap (fun '(userAttr, casAttr) =>
          val ← user_attribute user userAttr;
          if decide (val <> ""%string) then Some (casAttr, val) else None)
       (map_order (AttributeMapping cfg)).

(** The attributes of a CAS 3.0 answer. *)
Definition attributes (env : Env) (cfg : CASConfig) (app : AppConfig) (st : ServiceTicket) : list (string * string) :=
  match ResolveUser env (TenantID st) (UserID st) with
  | None => []
  | Some user =>
      let tc := if 0 <? u_TenantID user then GetTenantCode env (u_TenantID user) else ""%string in
      buildAttributes cfg user
      ++ (if decide (tc <> ""%string) then [("tenant_code"%string, tc)] else [])
      ++ match appRoles env with
         | None => []
         | Some roles =>
             match roles (UserID st) (ID app) (TenantID st) with
             | None => []
             | Some rs =>
                 let roleAttr := if decide (RoleAttribute cfg = ""%string) then "roles"%string else RoleAttribute cfg in
                 map (fun rc => (roleAttr, rc)) rs
             end
         end
      ++ (if decide (GroupAttribute cfg <> ""%string)
          then map (fun gc => (GroupAttribute cfg, gc)) (Groups user) else [])
  end.

(** After the ticket was accepted. *)
Definition answer (env : Env) (randomIOU randomPGT : option string) (includeAttributes : bool)
    (req : ValidateRequest) (st : ServiceTicket) : Op ServiceResponse :=
  let app := GetApp env (v_app_code req) in
  do! match app with
      | None => ret tt
      | Some app => dropped (RecordService ref_json (UserID st) (ID app) (v_service req) (v_ticket req) casSLORegistryTTL)
      end in
  let attrs :=
    match app with
    | Some app => if includeAttributes then attributes env (parseCASConfig (ProtocolConfig app)) app st else []
    | None => []
    end in
  let proxies := if IsProxy st then Proxies st else [] in
  let! iou :=
    match app with
    | Some app =>
        if decide (v_pgtUrl req <> ""%string)
        then maybeIssuePGT env randomIOU randomPGT (parseCASConfig (ProtocolConfig app)) app st (v_pgtUrl req)
        else ret ""%string
    | None => ret ""%string
    end in
  ret (inl (mkAuthenticationSuccess (Username st) attrs iou proxies)).

Definition doValidate (env : Env) (randomIOU randomPGT : option string) (includeAttributes allowProxy : bool)
    (req : ValidateRequest) : Op ServiceResponse :=
  if decide (v_ticket req = "" \/ v_service req = "")%string then ret (inr "INVALID_REQUEST"%string) else
  attempt (ConsumeTicket (v_ticket req)) (fun x =>
    match x with
    | Err _ => ret (inr "INVALID_TICKET"%string)
    | Ok st =>
        if IsProxy st && negb allowProxy then ret (inr "INVALID_TICKET"%string) else
        if decide (Service st <> v_service req) then ret (inr "INVALID_SERVICE"%string) else
        answer env randomIOU randomPGT includeAttributes req st
    end).

Definition serviceValidate env r1 r2 := doValidate env r1 r2 false false.
Definition p3ServiceValidate env r1 r2 := doValidate env r1 r2 true false.
Definition proxyValidate env r1 r2 := doValidate env r1 r2 false true.
Definition p3ProxyValidate env r1 r2 := doValidate env r1 r2 true true.

(** ** slo.go: the logout requests to send, and the registry after *)

(** The recipient, the request's id and the ticket it names. *)
Definition sloTarget : Type := string * string * string.

Definition slo_targets (userID appID now : Z) (override : string) (services : list CASServiceRef) : list sloTarget :=
  imap (fun i svc =>
          (if decide (override <> ""%string) then override else ServiceURL svc,
           "LR-" +:+ dec userID +:+ "-" +:+ dec appID +:+ "-" +:+ dec now +:+ "-" +:+ dec (Z.of_nat i),
           ref_Ticket svc))
       services.

Definition SingleLogout (env : Env) (userID appID : Z) : Op (list sloTarget) :=
  attempt (ListServices ref_unjson userID appID) (fun x =>
    match x with
    | Err _ => ret []
    | Ok [] => ret []
    | Ok services =>
        let override := match GetAppByID env appID with
                        | Some app => LogoutURL (parseCASConfig (ProtocolConfig app))
                        | None => ""%string
                        end in
        let! now := Now in
        do! dropped (Clear userID appID) in
        ret (slo_targets userID appID now override services)
    end).
End Handler.
