(* ===== verification/CasProps.v ===== *)
(** * CasProps: what a validated ticket proves

    The world of the CAS endpoints as a step relation whose steps are the single
    Redis commands of the handlers, in any interleaving, with failing and
    half-failing commands; then: a ticket validates once, stands for the login it
    was issued for, and proxy chains stay inside the allow-lists. *)

From Stdlib Require Import Ascii.
From S2P Require Import Prelude Text Redis CasTickets CasHandler.

(** ** Keys *)

Definition tkey (tk : string) : string := ticketPrefix +:+ tk.
Definition pkey (id : string) : string := pgtPrefix +:+ id.

(** A key of neither tickets nor proxy-granting tickets. *)
Definition other_key (k : string) : Prop := forall x, k <> tkey x /\ k <> pkey x.

Lemma tkey_inj a b : tkey a = tkey b -> a = b.
Proof. apply app_cancel_l. Qed.
Lemma pkey_inj a b : pkey a = pkey b -> a = b.
Proof. apply app_cancel_l. Qed.
Lemma tkey_pkey a b : tkey a <> pkey b.
Proof. discriminate. Qed.
Lemma confirm_other tok : other_key (confirmPrefix +:+ tok).
Proof. intros x. split; discriminate. Qed.
Lemma service_other u a : other_key (casServiceKey u a).
Proof. intros x. split; discriminate. Qed.
Lemma user_other u : other_key (casUserKey u).
Proof. intros x. split; discriminate. Qed.
#[export] Hint Resolve confirm_other service_other user_other : mxid.

(** ** What one call did to the store *)

Lemma checked_SET r r' k v ttl x :
  checked (SET k v ttl) r = (r', x) ->
  rclock r' = rclock r /\ rfate r' = rfate r
  /\ (rkeys r' = rkeys r
      \/ rkeys r' = <[k := mkRKey (RStr v) (if 0 <? ttl then Some (rclock r + px ttl) else None)]> (rkeys r))
  /\ (fine r -> rkeys r' = <[k := mkRKey (RStr v) (if 0 <? ttl then Some (rclock r + px ttl) else None)]> (rkeys r)
      /\ x = Ok tt).
Proof.
  unfold checked, call. destruct (SET k v ttl r) as [r1 y] eqn:Hs. intros Hr.
  unfold SET in Hs. assert (r' = r1) as -> by (destruct y; unfold ret, throw in Hr; by simplify_eq).
  pose proof Hs as Hinv. apply command_inv in Hinv as (Hc & Hf & Hcase). split; [done|]. split; [done|]. split.
  - destruct Hcase as [[-> _]|(_ & _ & [->| ->])]; [right; done | by left | right; done].
  - intros Hfine. rewrite (command_fine _ _ Hfine) in Hs. injection Hs as <- <-.
    unfold ret in Hr. by simplify_eq.
Qed.

(** The ticket [CreateTicket] makes. *)
Definition new_ticket (rnd : string) (u t : Z) (svc name : string) (now : Z) : ServiceTicket :=
  mkServiceTicket ("ST-" +:+ rnd) u t svc name now false [].
Definition new_proxy_ticket (rnd : string) (pgt : ProxyGrantingTicket) (svc : string) (now : Z) : ServiceTicket :=
  mkServiceTicket ("PT-" +:+ rnd) (g_UserID pgt) (g_TenantID pgt) svc (g_Username pgt) now true
    (PGTURL pgt :: g_Proxies pgt).
Definition new_pgt (rnd : string) (u t app : Z) (name url : string) (proxies : list string) (now : Z) : ProxyGrantingTicket :=
  mkProxyGrantingTicket ("PGT-" +:+ rnd) u t app name url proxies now.

(** The deadline SET gives a key. *)
Definition deadline (now ttl : Z) : option Z := if 0 <? ttl then Some (now + px ttl) else None.

(** Nothing but [k], written with [v] until [d], or not at all. *)
Definition wrote (r r' : CRedis) (k : string) (v : CasVal) (d : option Z) : Prop :=
  rclock r' = rclock r /\ rfate r' = rfate r
  /\ (rkeys r' = rkeys r \/ rkeys r' = <[k := mkRKey (RStr v) d]> (rkeys r)).

(** A creation: the command, then its result. *)
Lemma create_inv {T} (mk : Z -> T) (key : T -> string) (val : T -> CasVal) ttl r r' (x : res CasErr T) :
  bind Now (fun now => bind (checked (SET (key (mk now)) (val (mk now)) ttl)) (fun _ => ret (mk now))) r = (r', x) ->
  wrote r r' (key (mk (rclock r))) (val (mk (rclock r))) (deadline (rclock r) ttl)
  /\ (forall t, x = Ok t -> t = mk (rclock r))
  /\ (fine r -> x = Ok (mk (rclock r))
      /\ rkeys r' = <[key (mk (rclock r)) := mkRKey (RStr (val (mk (rclock r)))) (deadline (rclock r) ttl)]> (rkeys r)).
Proof.
  unfold Now, gets. unfold bind at 1. intros Hr. unfold bind in Hr.
  destruct (checked _ r) as [r1 y] eqn:Hs. apply checked_SET in Hs as (Hc & Hf & Hk & Hfine).
  assert (r' = r1) as -> by (destruct y; unfold ret in Hr; by simplify_eq). split; [done|]. split.
  - intros t ->. destruct y; unfold ret in Hr; by simplify_eq.
  - intros H. destruct (Hfine H) as [Hkeys ->]. unfold ret in Hr. by simplify_eq.
Qed.

Lemma CreateTicket_inv rnd u t svc name ttl r r' x :
  CreateTicket (Some rnd) u t svc name ttl r = (r', x) ->
  let st := new_ticket rnd u t svc name (rclock r) in
  let d := deadline (rclock r) (seconds_or ttl defaultTicketTTL) in
  wrote r r' (tkey (Ticket st)) (VTicket st) d
  /\ (forall st', x = Ok st' -> st' = st)
  /\ (fine r -> x = Ok st /\ rkeys r' = <[tkey (Ticket st) := mkRKey (RStr (VTicket st)) d]> (rkeys r)).
Proof.
  unfold CreateTicket, randomly. intros Hr.
  exact (create_inv (new_ticket rnd u t svc name) (fun st => tkey (Ticket st)) VTicket _ _ _ _ Hr).
Qed.

Lemma CreateProxyTicket_inv rnd pgt svc r r' x :
  CreateProxyTicket (Some rnd) pgt svc r = (r', x) ->
  let st := new_proxy_ticket rnd pgt svc (rclock r) in
  wrote r r' (tkey (Ticket st)) (VTicket st) (deadline (rclock r) proxyTicketTTL)
  /\ (forall st', x = Ok st' -> st' = st).
Proof.
  unfold CreateProxyTicket, randomly. intros Hr.
  destruct (create_inv (new_proxy_ticket rnd pgt svc) (fun st => tkey (Ticket st)) VTicket _ _ _ _ Hr)
    as (Hw & Hx & _). exact (conj Hw Hx).
Qed.

Lemma CreatePGT_inv rnd u t app name url proxies ttl r r' x :
  CreatePGT (Some rnd) u t app name url proxies ttl r = (r', x) ->
  let p := new_pgt rnd u t app name url proxies (rclock r) in
  wrote r r' (pkey (PGT p)) (VPGT p) (deadline (rclock r) (seconds_or ttl defaultPGTicketTTL))
  /\ (forall p', x = Ok p' -> p' = p).
Proof.
  unfold CreatePGT, randomly. intros Hr.
  destruct (create_inv (new_pgt rnd u t app name url proxies) (fun p => pkey (PGT p)) VPGT _ _ _ _ Hr)
    as (Hw & Hx & _). exact (conj Hw Hx).
Qed.

(** A consumption removes the ticket or leaves everything; when it succeeds the
    ticket was there, alive, and is gone. *)
Lemma ConsumeTicket_inv tk r r' x :
  ConsumeTicket tk r = (r', x) ->
  rclock r' = rclock r /\ rfate r' = rfate r
  /\ (rkeys r' = rkeys r \/ rkeys r' = delete (tkey tk) (rkeys r))
  /\ forall st, x = Ok st ->
     rkeys r' = delete (tkey tk) (rkeys r)
     /\ exists v d, peek (rkeys r) (rclock r) (tkey tk) = Some (mkRKey (RStr v) d) /\ unmarshal_ticket v = Some st.
Proof.
  unfold ConsumeTicket, call. destruct (GETDEL _ r) as [r1 y] eqn:Hg. intros Hr.
  assert (r' = r1) as -> by (repeat case_match; unfold ret, throw in Hr; by simplify_eq).
  apply command_inv in Hg as (Hc & Hf & Hcase). split; [done|]. split; [done|].
  unfold getdel_f in Hcase. fold (tkey tk) in Hcase.
  destruct (peek (rkeys r) (rclock r) (tkey tk)) as [[[v|n|s] d]|] eqn:Hp; cbn [fst snd] in Hcase.
  - destruct Hcase as [[Hk ->]|(-> & _ & Hk)].
    + split; [by right|]. intros st ->. split; [done|]. exists v, d. split; [done|].
      destruct (unmarshal_ticket v); unfold ret, throw in Hr; by simplify_eq.
    + split; [destruct Hk; [by left | by right]|]. intros st ->. unfold throw in Hr. by simplify_eq.
  - destruct Hcase as [[Hk ->]|(-> & _ & [Hk|Hk])]; (split; [by left|]); intros st ->; unfold throw in Hr; by simplify_eq.
  - destruct Hcase as [[Hk ->]|(-> & _ & [Hk|Hk])]; (split; [by left|]); intros st ->; unfold throw in Hr; by simplify_eq.
  - destruct Hcase as [[Hk ->]|(-> & _ & [Hk|Hk])]; (split; [by left|]); intros st ->; unfold throw in Hr; by simplify_eq.
Qed.

(** ** The world: the store, and what happened so far *)

Record World : Type := mkWorld {
  rd : CRedis;
  (** random strings already drawn *)
  used : gset string;
  (** tickets made, with the deadline of their key *)
  issued : list (ServiceTicket * option Z);
  (** tickets handed to a validation *)
  accepted : list ServiceTicket;
  minted : list ProxyGrantingTicket
}.

Section Steps.
Context (url_parse : string -> option URL) (EqualFold : string -> string -> bool).

(** The app may proxy, and [url] is on its allow-list. *)
Definition may_proxy (app : AppConfig) (url : string) : Prop :=
  ProxyEnabled (parseCASConfig (ProtocolConfig app)) = true
  /\ isValidService url_parse EqualFold (parseCASConfig (ProtocolConfig app)) url = true.

Inductive cas_step : World -> World -> Prop :=
| step_env w now fate calls :
    rclock (rd w) <= now ->
    cas_step w (mkWorld (mkRedis (rkeys (rd w)) now fate calls) (used w) (issued w) (accepted w) (minted w))
| step_ticket w rnd u t svc name ttl r x :
    rnd ∉ used w -> CreateTicket (Some rnd) u t svc name ttl (rd w) = (r, x) ->
    cas_step w (mkWorld r ({[ rnd ]} ∪ used w)
      ((new_ticket rnd u t svc name (rclock (rd w)), deadline (rclock (rd w)) (seconds_or ttl defaultTicketTTL)) :: issued w)
      (accepted w) (minted w))
| step_consume w tk r x :
    ConsumeTicket tk (rd w) = (r, x) ->
    cas_step w (mkWorld r (used w) (issued w)
      (match x with Ok st => st :: accepted w | Err _ => accepted w end) (minted w))
| step_mint w rnd st app url ttl r x :
    rnd ∉ used w -> st ∈ accepted w -> may_proxy app url ->
    CreatePGT (Some rnd) (UserID st) (TenantID st) (ID app) (Username st) url (Proxies st) ttl (rd w) = (r, x) ->
    cas_step w (mkWorld r ({[ rnd ]} ∪ used w) (issued w) (accepted w)
      (new_pgt rnd (UserID st) (TenantID st) (ID app) (Username st) url (Proxies st) (rclock (rd w)) :: minted w))
| step_drop_pgt w id r x :
    DeletePGT id (rd w) = (r, x) -> cas_step w (mkWorld r (used w) (issued w) (accepted w) (minted w))
| step_proxy w rnd pgt app svc r x :
    rnd ∉ used w -> pgt ∈ minted w -> AppID pgt = ID app -> may_proxy app svc ->
    CreateProxyTicket (Some rnd) pgt svc (rd w) = (r, x) ->
    cas_step w (mkWorld r ({[ rnd ]} ∪ used w)
      ((new_proxy_ticket rnd pgt svc (rclock (rd w)), deadline (rclock (rd w)) proxyTicketTTL) :: issued w)
      (accepted w) (minted w))
(** any command of this or another component on other keys *)
| step_other w A (f : gmap string (RKey CasVal) -> Z -> gmap string (RKey CasVal) * res RErr A) r x :
    writes_only other_key f -> command f (rd w) = (r, x) ->
    cas_step w (mkWorld r (used w) (issued w) (accepted w) (minted w)).

(** No tickets yet. *)
Definition cas_init (w : World) : Prop :=
  used w = ∅ /\ issued w = [] /\ accepted w = [] /\ minted w = []
  /\ forall x, rkeys (rd w) !! tkey x = None /\ rkeys (rd w) !! pkey x = None.

Definition cas_reachable (w : World) : Prop := exists w0, cas_init w0 /\ rtc cas_step w0 w.

(** ** The invariant *)

(** [st0] is the login behind [st]; a proxy ticket's login was validated, and its
    chain lists allow-listed URLs of apps that may proxy. *)
Definition vouched (w : World) (st : ServiceTicket) : Prop :=
  (IsProxy st = false -> Proxies st = [])
  /\ (IsProxy st = true -> Proxies st <> [])
  /\ Forall (fun url => exists app, may_proxy app url) (Proxies st)
  /\ exists st0 d0, (st0, d0) ∈ issued w /\ IsProxy st0 = false
     /\ UserID st0 = UserID st /\ TenantID st0 = TenantID st /\ Username st0 = Username st
     /\ (IsProxy st = true -> st0 ∈ accepted w).

Definition ticket_name (st : ServiceTicket) (rnd : string) : Prop :=
  Ticket st = (if IsProxy st then "PT-" else "ST-") +:+ rnd.

Definition stored_ticket (w : World) (tk : string) (e : RKey CasVal) : Prop :=
  exists st, e = mkRKey (RStr (VTicket st)) (rdead e) /\ Ticket st = tk /\ (st, rdead e) ∈ issued w
  /\ forall a, a ∈ accepted w -> Ticket a <> tk.
Definition stored_pgt (w : World) (id : string) (e : RKey CasVal) : Prop :=
  exists p, e = mkRKey (RStr (VPGT p)) (rdead e) /\ PGT p = id /\ p ∈ minted w.

Record cas_inv (w : World) : Prop := {
  inv_tickets : forall tk e, rkeys (rd w) !! tkey tk = Some e -> stored_ticket w tk e;
  inv_pgts : forall id e, rkeys (rd w) !! pkey id = Some e -> stored_pgt w id e;
  inv_names : forall st d, (st, d) ∈ issued w -> exists rnd, rnd ∈ used w /\ ticket_name st rnd;
  inv_accepted : forall a, a ∈ accepted w -> exists d, (a, d) ∈ issued w;
  inv_vouched : forall st d, (st, d) ∈ issued w -> vouched w st;
  inv_minted : forall p, p ∈ minted w -> exists st app, st ∈ accepted w /\ may_proxy app (PGTURL p)
    /\ AppID p = ID app /\ g_UserID p = UserID st /\ g_TenantID p = TenantID st
    /\ g_Username p = Username st /\ g_Proxies p = Proxies st
}.

(** Histories grow. *)
Definition later (w w' : World) : Prop :=
  (forall p, p ∈ issued w -> p ∈ issued w') /\ (forall a, a ∈ accepted w -> a ∈ accepted w').

Lemma vouched_later w w' st : later w w' -> vouched w st -> vouched w' st.
Proof.
  intros [Hi Ha] (H1 & H2 & H3 & st0 & d0 & Hin & H4 & H5 & H6 & H7 & H8).
  split_and!; [done..|]. exists st0, d0. split_and!; eauto.
Qed.

Lemma ticket_name_inj st st' rnd rnd' :
  ticket_name st rnd -> ticket_name st' rnd' -> Ticket st = Ticket st' -> rnd = rnd'.
Proof.
  unfold ticket_name. intros -> ->. destruct (IsProxy st), (IsProxy st'); intros H; simplify_eq/=; done.
Qed.

(** A fresh name is the name of no ticket made before. *)
Lemma fresh_name w st st' d rnd :
  cas_inv w -> rnd ∉ used w -> ticket_name st rnd -> (st', d) ∈ issued w -> Ticket st' <> Ticket st.
Proof.
  intros Hinv Hfresh Hst Hin Heq. destruct (inv_names w Hinv _ _ Hin) as (rnd' & Hused & Hst').
  by rewrite (ticket_name_inj st' st rnd' rnd Hst' Hst Heq) in Hused.
Qed.

(** Writing a fresh ticket keeps the invariant. *)
Lemma inv_add_ticket w rnd st d r :
  cas_inv w -> rnd ∉ used w -> ticket_name st rnd ->
  wrote (rd w) r (tkey (Ticket st)) (VTicket st) d ->
  vouched (mkWorld r ({[ rnd ]} ∪ used w) ((st, d) :: issued w) (accepted w) (minted w)) st ->
  cas_inv (mkWorld r ({[ rnd ]} ∪ used w) ((st, d) :: issued w) (accepted w) (minted w)).
Proof.
  intros Hinv Hfresh Hname (_ & _ & Hk) Hv. set (w' := mkWorld _ _ _ _ _) in *.
  assert (later w w') as Hl by (split; [intros p Hp; by right | done]).
  split; cbn [rd used issued accepted minted w'].
  - intros tk e He. assert (forall e', rkeys (rd w) !! tkey tk = Some e' -> stored_ticket w' tk e') as Hold.
    { intros e' He'. destruct (inv_tickets w Hinv _ _ He') as (st' & H1 & H2 & H3 & H4). exists st'. split_and!; eauto. by right. }
    destruct Hk as [Hk|Hk]; rewrite Hk in He; [eauto|]. apply lookup_insert_Some in He as [[Heq <-]|[_ He]]; [|eauto].
    apply tkey_inj in Heq as <-. exists st. split_and!; [done | done | by left|].
    intros a Ha. destruct (inv_accepted w Hinv a Ha) as [da Hda]. by eapply fresh_name.
  - intros id e He. apply (inv_pgts w Hinv). destruct Hk as [Hk|Hk]; rewrite Hk in He; [done|].
    rewrite lookup_insert_ne in He; [done | apply tkey_pkey].
  - intros st' d' [[= -> ->]|Hin]%elem_of_cons; [exists rnd; split; [set_solver | done]|].
    destruct (inv_names w Hinv _ _ Hin) as (rnd' & Hu & Hn). exists rnd'. split; [set_solver | done].
  - intros a Ha. destruct (inv_accepted w Hinv a Ha) as [da Hda]. exists da. by right.
  - intros st' d' [[= -> ->]|Hin]%elem_of_cons; [done|]. eapply vouched_later; [exact Hl|]. by eapply inv_vouched.
  - exact (inv_minted w Hinv).
Qed.

(** Keys of neither kind do not matter, and keys may disappear. *)
Lemma inv_fewer_keys w r :
  (forall x e, rkeys r !! tkey x = Some e -> rkeys (rd w) !! tkey x = Some e) ->
  (forall x e, rkeys r !! pkey x = Some e -> rkeys (rd w) !! pkey x = Some e) ->
  cas_inv w -> cas_inv (mkWorld r (used w) (issued w) (accepted w) (minted w)).
Proof.
  intros Ht Hp Hinv. destruct Hinv as [H1 H2 H3 H4 H5 H6].
  split; [| | exact H3 | exact H4 | exact H5 | exact H6].
  - intros tk e He. exact (H1 _ _ (Ht _ _ He)).
  - intros id e He. exact (H2 _ _ (Hp _ _ He)).
Qed.

Lemma inv_step_mint w rnd st app url ttl r x :
  cas_inv w -> rnd ∉ used w -> st ∈ accepted w -> may_proxy app url ->
  CreatePGT (Some rnd) (UserID st) (TenantID st) (ID app) (Username st) url (Proxies st) ttl (rd w) = (r, x) ->
  cas_inv (mkWorld r ({[ rnd ]} ∪ used w) (issued w) (accepted w)
    (new_pgt rnd (UserID st) (TenantID st) (ID app) (Username st) url (Proxies st) (rclock (rd w)) :: minted w)).
Proof.
  intros [H1 H2 H3 H4 H5 H6] _ Hst Happ Hr. apply CreatePGT_inv in Hr as [(_ & _ & Hk) _].
  set (p := new_pgt _ _ _ _ _ _ _ _) in *. split; cbn [rd used issued accepted minted].
  - intros tk e He. apply H1. destruct Hk as [Hk|Hk]; rewrite Hk in He; [done|].
    rewrite lookup_insert_ne in He; [done | intros Heq; symmetry in Heq; by apply tkey_pkey in Heq].
  - intros id e He. assert (forall e', rkeys (rd w) !! pkey id = Some e' ->
      stored_pgt (mkWorld r ({[ rnd ]} ∪ used w) (issued w) (accepted w) (p :: minted w)) id e') as Hold.
    { intros e' He'. destruct (H2 _ _ He') as (p' & Hp1 & Hp2 & Hp3). exists p'. split_and!; [done | done | by right]. }
    destruct Hk as [Hk|Hk]; rewrite Hk in He; [eauto|]. apply lookup_insert_Some in He as [[Heq <-]|[_ He]]; [|eauto].
    apply pkey_inj in Heq as <-. exists p. split_and!; [done | done | by left].
  - intros st' d' Hin. destruct (H3 _ _ Hin) as (rnd' & Hu & Hn). exists rnd'. split; [set_solver | done].
  - exact H4.
  - exact H5.
  - intros p' [->|Hp']%elem_of_cons; [|eauto]. exists st, app. done.
Qed.

Lemma inv_step_consume w tk r x :
  cas_inv w -> ConsumeTicket tk (rd w) = (r, x) ->
  cas_inv (mkWorld r (used w) (issued w) (match x with Ok st => st :: accepted w | Err _ => accepted w end) (minted w)).
Proof.
  intros Hinv Hr. apply ConsumeTicket_inv in Hr as (_ & _ & Hk & Hok).
  assert (forall y e, rkeys r !! tkey y = Some e -> rkeys (rd w) !! tkey y = Some e) as Ht.
  { intros y e. destruct Hk as [->| ->]; [done|]. by intros [_ ?]%lookup_delete_Some. }
  assert (forall y e, rkeys r !! pkey y = Some e -> rkeys (rd w) !! pkey y = Some e) as Hp.
  { intros y e. destruct Hk as [->| ->]; [done|]. by intros [_ ?]%lookup_delete_Some. }
  destruct x as [st|e]; [|by apply inv_fewer_keys].
  destruct (Hok st eq_refl) as (Hgone & v & d & Hpeek & Hv). apply peek_Some in Hpeek as [Hin _].
  destruct (inv_tickets w Hinv _ _ Hin) as (st' & Hst' & Hname & Hiss & _). cbn in Hst', Hiss.
  injection Hst' as ->. cbn in Hv. injection Hv as ->.
  pose proof Hinv as [H1 H2 H3 H4 H5 H6].
  set (w' := mkWorld _ _ _ _ _). assert (later w w') as Hl by (split; [done | intros a Ha; by right]).
  split; cbn [rd used issued accepted minted w'].
  - intros y e He. destruct (H1 _ _ (Ht _ _ He)) as (st' & Hy1 & Hy2 & Hy3 & Hy4). exists st'. split_and!; [done..|].
    intros a [->|Ha]%elem_of_cons; [|by apply Hy4]. intros Heq. rewrite Heq in Hname. subst y.
    rewrite Hgone, lookup_delete_eq in He. done.
  - intros y e He. exact (H2 _ _ (Hp _ _ He)).
  - exact H3.
  - intros a [->|Ha]%elem_of_cons; [by exists d | by apply H4].
  - intros st' d' Hin'. by eapply vouched_later, H5.
  - intros p Hpm. destruct (H6 p Hpm) as (sp & app & Hsp & Hrest). exists sp, app. split; [by right | done].
Qed.

Lemma vouched_proxy w pgt svc rnd app now d :
  cas_inv w -> pgt ∈ minted w -> AppID pgt = ID app ->
  let st := new_proxy_ticket rnd pgt svc now in
  vouched (mkWorld (rd w) ({[ rnd ]} ∪ used w) ((st, d) :: issued w) (accepted w) (minted w)) st.
Proof.
  intros Hinv Hp _ st. destruct (inv_minted w Hinv _ Hp) as (st1 & app1 & Hst1 & Happ1 & _ & HU & HT & HN & HP).
  destruct (inv_accepted w Hinv _ Hst1) as [d1 Hd1].
  destruct (inv_vouched w Hinv _ _ Hd1) as (V1 & V2 & V3 & st0 & d0 & Hin0 & Hp0 & HU0 & HT0 & HN0 & Ha0).
  split_and!; cbn; [done | done | | ].
  - constructor; [by exists app1|]. by rewrite HP.
  - destruct (IsProxy st1) eqn:Hpr.
    + exists st0, d0. split_and!; [by right | done | congruence.. | auto].
    + exists st1, d1. split_and!; [by right | done | congruence.. | done].
Qed.

Lemma cas_step_inv w w' : cas_step w w' -> cas_inv w -> cas_inv w'.
Proof.
  intros Hstep Hinv. destruct Hstep as [w now fate calls _ | w rnd u t svc name ttl r x Hf Hr | w tk r x Hr
    | w rnd st app url ttl r x Hf Hst Happ Hr | w id r x Hr | w rnd pgt app svc r x Hf Hp Hid Happ Hr
    | w A f r x Hf Hr].
  - by apply inv_fewer_keys.
  - apply CreateTicket_inv in Hr as (Hw & _). apply inv_add_ticket; [done | done | done | done|].
    split_and!; cbn; [done | done | constructor | ]. eexists _, _. split; [by left|]. done.
  - by eapply inv_step_consume.
  - by eapply inv_step_mint.
  - unfold DeletePGT, checked, call, DEL in Hr. destruct (command _ _) as [r1 y] eqn:Hc.
    assert (r = r1) as -> by (destruct y; unfold ret, throw in Hr; by simplify_eq).
    apply command_inv in Hc as (_ & _ & Hcase). unfold del_f in Hcase. cbn [fst snd] in Hcase.
    assert (rkeys r1 = rkeys (rd w) \/ rkeys r1 = delete (pkey id) (rkeys (rd w))) as Hk
      by (destruct Hcase as [[Hk _]|(_ & _ & [Hk|Hk])]; auto).
    apply inv_fewer_keys; [| |done]; intros k e; destruct Hk as [->| ->]; try done; by intros [_ ?]%lookup_delete_Some.
  - apply CreateProxyTicket_inv in Hr as (Hw & _). apply inv_add_ticket; [done | done | done | done|].
    by eapply (vouched_proxy w pgt svc rnd app).
  - apply inv_fewer_keys; [| |done]; intros k e He.
    + rewrite <- (command_other other_key f _ _ _ _ Hf Hr); [done|]. intros Ho. by destruct (Ho k).
    + rewrite <- (command_other other_key f _ _ _ _ Hf Hr); [done|]. intros Ho. by destruct (Ho k).
Qed.

Lemma cas_reachable_inv w : cas_reachable w -> cas_inv w.
Proof.
  intros (w0 & (Hu & Hi & Ha & Hm & Hk) & Hrun). eapply rtc_invariant; [exact cas_step_inv | exact Hrun|].
  split; rewrite ?Hu, ?Hi, ?Ha, ?Hm; try (intros; set_solver).
  - intros tk e He. by rewrite (proj1 (Hk tk)) in He.
  - intros id e He. by rewrite (proj2 (Hk id)) in He.
Qed.
End Steps.

(** ** The validation endpoints *)

Lemma cas_step_later up ef w w' : cas_step up ef w w' -> later w w'.
Proof.
  intros Hstep. destruct Hstep; split; cbn; intros; set_solver || (case_match; set_solver).
Qed.

Lemma cas_run_later up ef w w' : rtc (cas_step up ef) w w' -> later w w'.
Proof.
  induction 1 as [|a b c Hab _ [IHi IHa]]; [done|]. apply cas_step_later in Hab as [Hi Ha]. split; auto.
Qed.

Lemma attempt_inv {A B} (m : M CRedis CasErr A) (k : res CasErr A -> M CRedis CasErr B) r r' x :
  attempt m k r = (r', x) -> exists r1 y, m r = (r1, y) /\ k y r1 = (r', x).
Proof. unfold attempt. destruct (m r) as [r1 y]. eauto. Qed.

Section Endpoints.
Context (url_parse : string -> option URL) (EqualFold : string -> string -> bool).
Context (map_order : gmap string string -> list (string * string)).
Context (sha256_hex32 : string -> string).
Context (ref_json : CASServiceRef -> string) (ref_unjson : string -> option CASServiceRef).

Abbreviation step := (cas_step url_parse EqualFold).
Abbreviation reachable := (cas_reachable url_parse EqualFold).
Abbreviation do_validate := (doValidate url_parse EqualFold map_order ref_json).

(** What an accepted ticket was, and what the answer says of it. *)
Lemma validate_ok tk svc r r' name :
  validate tk svc r = (r', Ok (Some name)) ->
  exists st, ConsumeTicket tk r = (r', Ok st) /\ Service st = svc /\ Username st = name.
Proof.
  unfold validate. destruct (decide _); [unfold ret; intros; by simplify_eq|].
  intros (r1 & y & Hc & Hk)%attempt_inv. destruct y as [st|e]; unfold ret in Hk; [|by simplify_eq].
  destruct (decide _) as [|Hs]; simplify_eq. exists st. split_and!; [done | by apply dec_stable | done].
Qed.

Lemma doValidate_ok env i j a p req r r' s :
  do_validate env i j a p req r = (r', Ok (inl s)) ->
  exists r1 st, ConsumeTicket (v_ticket req) r = (r1, Ok st) /\ Service st = v_service req
    /\ (IsProxy st = true -> p = true) /\ User s = Username st
    /\ ProxyList s = (if IsProxy st then Proxies st else [])
    /\ answer url_parse EqualFold map_order ref_json env i j a req st r1 = (r', Ok (inl s)).
Proof.
  unfold doValidate. destruct (decide _); [unfold ret; intros; by simplify_eq|].
  intros (r1 & y & Hc & Hk)%attempt_inv. destruct y as [st|e]; [|unfold ret in Hk; by simplify_eq].
  destruct (IsProxy st && negb p) eqn:Hp; [unfold ret in Hk; by simplify_eq|].
  destruct (decide _) as [|Hs]; [unfold ret in Hk; by simplify_eq|]. apply dec_stable in Hs.
  exists r1, st. split_and!; [done | done | | | | done].
  - intros Hpr. rewrite Hpr in Hp. by destruct p.
  - unfold answer in Hk. apply bind_ok in Hk as (u & r2 & _ & Hk). apply bind_ok in Hk as (iou & r3 & _ & Hk).
    unfold ret in Hk. by simplify_eq.
  - unfold answer in Hk. apply bind_ok in Hk as (u & r2 & _ & Hk). apply bind_ok in Hk as (iou & r3 & _ & Hk).
    unfold ret in Hk. by simplify_eq.
Qed.

(** Some validation endpoint, run on [r], accepts [tk] for a principal. *)
Inductive validates (r : CRedis) (tk : string) : string -> Prop :=
| validates_v1 svc r' name : validate tk svc r = (r', Ok (Some name)) -> validates r tk name
| validates_v2 env i j a p req r' s :
    v_ticket req = tk -> do_validate env i j a p req r = (r', Ok (inl s)) -> validates r tk (User s).

Lemma validates_consumes r tk n :
  validates r tk n -> exists r' st, ConsumeTicket tk r = (r', Ok st) /\ Username st = n.
Proof.
  intros [svc r' name Hv|env i j a p req r' s <- Hv].
  - apply validate_ok in Hv as (st & Hc & _ & Hn). eauto.
  - apply doValidate_ok in Hv as (r1 & st & Hc & _ & _ & Hn & _). eauto.
Qed.

(** A ticket consumed in a reachable world: a genuine one, unused and in time. *)
Lemma consumed_genuine w tk r st :
  reachable w -> ConsumeTicket tk (rd w) = (r, Ok st) ->
  exists d, (st, d) ∈ issued w /\ Ticket st = tk /\ (forall a, a ∈ accepted w -> Ticket a <> tk)
  /\ forall t, d = Some t -> rclock (rd w) < t.
Proof.
  intros Hw Hc. apply cas_reachable_inv in Hw.
  apply ConsumeTicket_inv in Hc as (_ & _ & _ & Hok). destruct (Hok st eq_refl) as (_ & v & d & Hp & Hv).
  apply peek_Some in Hp as [Hin Halive].
  destruct (inv_tickets _ _ _ Hw _ _ Hin) as (st' & Hst' & Hname & Hiss & Hacc). cbn in Hst', Hiss.
  injection Hst' as ->. cbn in Hv. injection Hv as ->. exists d. split_and!; [done | done | done|].
  intros t ->. cbn in Halive. by apply Z.ltb_lt.
Qed.

(** C36: a ticket validates at most once. In any world the endpoints can reach,
    once some validation accepted a ticket, no validation (of any endpoint, for any
    service) accepts it again, from the moment its command ran and whatever
    other requests do in between. *)
Theorem ticket_validates_once w tk n r y w2 n2 :
  reachable w -> validates (rd w) tk n -> ConsumeTicket tk (rd w) = (r, y) ->
  rtc step (mkWorld r (used w) (issued w) (match y with Ok st => st :: accepted w | Err _ => accepted w end) (minted w)) w2 ->
  ~ validates (rd w2) tk n2.
Proof.
  intros Hw Hv Hc Hrun Hv2.
  apply validates_consumes in Hv as (r' & st & Hc' & _). rewrite Hc in Hc'. injection Hc' as -> ->.
  destruct (consumed_genuine w tk r' st Hw Hc) as (d & _ & Hname & _).
  pose proof (cas_run_later _ _ _ _ Hrun) as [_ Hl].
  assert (reachable w2) as Hw2.
  { destruct Hw as (w0 & Hinit & Hrun0). exists w0. split; [done|]. etrans; [exact Hrun0|].
    eapply rtc_l; [|exact Hrun]. exact (step_consume url_parse EqualFold w tk r' (Ok st) Hc). }
  apply validates_consumes in Hv2 as (r2 & st2 & Hc2 & _).
  destruct (consumed_genuine w2 tk r2 st2 Hw2 Hc2) as (d2 & _ & _ & Hacc & _).
  eapply (Hacc st); [|done]. apply Hl. cbn. by left.
Qed.

(** A validated ticket is genuine. When an endpoint confirms a ticket for a
    service, that ticket was issued for this service, has not been validated
    before and has not expired; the answer names its principal and proxy chain,
    and only the proxy endpoints confirm proxy tickets. *)
Theorem validated_ticket_is_genuine w env i j a p req r s :
  reachable w -> do_validate env i j a p req (rd w) = (r, Ok (inl s)) ->
  exists st d, (st, d) ∈ issued w /\ Ticket st = v_ticket req /\ Service st = v_service req
  /\ (forall x, x ∈ accepted w -> Ticket x <> v_ticket req)
  /\ (forall t, d = Some t -> rclock (rd w) < t)
  /\ (IsProxy st = true -> p = true)
  /\ User s = Username st /\ ProxyList s = (if IsProxy st then Proxies st else []).
Proof.
  intros Hw Hv. apply doValidate_ok in Hv as (r1 & st & Hc & Hs & Hp & Hu & Hpl & _).
  destruct (consumed_genuine w _ r1 st Hw Hc) as (d & H1 & H2 & H3 & H4). by exists st, d.
Qed.

(** Proxying cannot change who is logged in. Behind every ticket there is a
    ticket issued by /login for the same user, tenant and principal; behind a proxy
    ticket one that was validated; and each entry of a proxy chain is an
    allow-listed URL of an app with proxying enabled. *)
Theorem proxy_chain_leads_to_a_login w st d :
  reachable w -> (st, d) ∈ issued w ->
  Forall (fun url => exists app, may_proxy url_parse EqualFold app url) (Proxies st)
  /\ (IsProxy st = true <-> Proxies st <> [])
  /\ exists st0 d0, (st0, d0) ∈ issued w /\ IsProxy st0 = false
     /\ UserID st0 = UserID st /\ TenantID st0 = TenantID st /\ Username st0 = Username st
     /\ (IsProxy st = true -> st0 ∈ accepted w).
Proof.
  intros Hw Hin. apply cas_reachable_inv in Hw. destruct (inv_vouched _ _ _ Hw _ _ Hin) as (V1 & V2 & V3 & V4).
  split; [done|]. split; [|done]. split; [done|]. intros Hp. destruct (IsProxy st); [done|]. by rewrite V1 in Hp.
Qed.

(** ** The handlers take these steps *)

(** [r] is where some run of steps from [w] leads. *)
Definition runs_to (w : World) (r : CRedis) : Prop := exists w', rtc step w w' /\ rd w' = r.

Lemma runs_refl w : runs_to w (rd w).
Proof. by exists w. Qed.

Lemma runs_trans w w' r : rtc step w w' -> runs_to w' r -> runs_to w r.
Proof. intros Hrun (w2 & Hrun2 & Hr). exists w2. split; [by etrans | done]. Qed.

Definition moved (w : World) (r : CRedis) : World := mkWorld r (used w) (issued w) (accepted w) (minted w).

(** A call whose continuation only computes an answer. *)
Lemma other_call w {A B} (f : gmap string (RKey CasVal) -> Z -> gmap string (RKey CasVal) * res RErr A)
    (k : res RErr A -> Op B) r x :
  writes_only other_key f -> (forall y r1, (k y r1).1 = r1) -> call (command f) k (rd w) = (r, x) ->
  step w (moved w r).
Proof.
  unfold call. destruct (command f (rd w)) as [r1 y] eqn:Hc. intros Hf Hk Hr.
  assert (r = r1) as ->. { rewrite <- (Hk y r1). by rewrite Hr. }
  by eapply step_other.
Qed.

Lemma Consume_step w tok u a r x : Consume tok u a (rd w) = (r, x) -> rtc step w (moved w r).
Proof.
  unfold Consume. case_bool_decide.
  - unfold ret. intros [= <- _]. by destruct w.
  - intros Hr. eapply rtc_once, other_call; [| |exact Hr].
    + apply getdel_only, confirm_other.
    + intros [[?|?|?]|?] r1; done.
Qed.

Lemma dropped_record w u a url tk ttl r x :
  dropped (RecordService ref_json u a url tk ttl) (rd w) = (r, x) -> step w (moved w r).
Proof.
  unfold dropped. intros (r1 & y & Hc & Hk)%attempt_inv. unfold ret in Hk. injection Hk as <- _.
  unfold RecordService, checked, EXEC in Hc. eapply other_call; [| |exact Hc].
  - apply multi_only. repeat constructor; auto with mxid.
  - intros [?|?] r'; done.
Qed.

Lemma login_runs w env rnd req r x :
  rnd ∉ used w -> login url_parse EqualFold sha256_hex32 env (Some rnd) req (rd w) = (r, x) -> runs_to w r.
Proof.
  intros Hrnd Hr. pose proof (runs_refl w) as Hstay.
  unfold login in Hr.
  destruct (decide _); [injection Hr as <- _; exact Hstay|].
  destruct (GetApp _ _) as [app|]; [|injection Hr as <- _; exact Hstay].
  destruct (decide _); [injection Hr as <- _; exact Hstay|].
  destruct (isValidService _ _ _ _); [|injection Hr as <- _; exact Hstay]. cbn [negb] in Hr.
  destruct (sso_session _ _) as [sess|]; [|injection Hr as <- _; exact Hstay].
  destruct (decide _); [injection Hr as <- _; exact Hstay|].
  destruct ((if decide (idp_initiated req <> "1"%string) then Consume (sso_confirm req) (s_UserID sess) (ID app)
    else ret true) (rd w)) as [r1 y] eqn:Hy.
  assert (rtc step w (moved w r1)) as Hmove.
  { destruct (decide _); [by eapply Consume_step|]. injection Hy as <- _. by destruct w. }
  eapply runs_trans; [exact Hmove|]. unfold bind in Hr. rewrite Hy in Hr. clear Hy.
  change r1 with (rd (moved w r1)) in Hr. pose proof (runs_refl (moved w r1)) as Hstay1.
  destruct y as [[]|e]; cbn [negb] in Hr; try (injection Hr as <- _; exact Hstay1).
  unfold issue_ticket in Hr. destruct (ResolveUser _ _ _); [|unfold ret in Hr; injection Hr as <- _; exact Hstay1].
  apply attempt_inv in Hr as (r2 & z & Hc & Hk). assert (r = r2) as -> by (destruct z; unfold ret in Hk; by simplify_eq).
  eexists. split; [eapply rtc_once, step_ticket; [exact Hrnd | exact Hc] | done].
Qed.

Lemma validate_runs w tk svc r x : validate tk svc (rd w) = (r, x) -> runs_to w r.
Proof.
  unfold validate. destruct (decide _); [unfold ret; intros [= <- _]; apply runs_refl|].
  intros (r1 & y & Hc & Hk)%attempt_inv.
  assert (r = r1) as -> by (destruct y; unfold ret in Hk; by simplify_eq).
  eexists. split; [eapply rtc_once, step_consume; exact Hc | done].
Qed.

Lemma proxy_runs w env rnd req r x :
  reachable w -> rnd ∉ used w -> proxy url_parse EqualFold env (Some rnd) req (rd w) = (r, x) -> runs_to w r.
Proof.
  intros Hw Hrnd Hr. pose proof (runs_refl w) as Hstay. unfold proxy in Hr.
  destruct (decide _); [injection Hr as <- _; exact Hstay|].
  destruct (GetApp _ _) as [app|]; [|injection Hr as <- _; exact Hstay].
  destruct (decide _); [injection Hr as <- _; exact Hstay|].
  destruct (ProxyEnabled _) eqn:Hpe; [|injection Hr as <- _; exact Hstay].
  destruct (isValidService _ _ _ _) eqn:Hvs; [|injection Hr as <- _; exact Hstay]. cbn [negb] in Hr.
  apply attempt_inv in Hr as (r1 & y & Hg & Hk). unfold GetPGT, call in Hg.
  destruct (GET _ (rd w)) as [r2 z] eqn:Hget. pose proof Hget as Hcmd. unfold GET in Hcmd.
  assert (r1 = r2) as -> by (repeat case_match; unfold ret, throw in Hg; by simplify_eq).
  assert (step w (moved w r2)) as Hmove by (eapply step_other; [apply get_only | exact Hcmd]).
  destruct y as [pgt|e]; [|injection Hk as <- _; exists (moved w r2); split; [by apply rtc_once | done]].
  destruct (decide _) as [|Hid]; [injection Hk as <- _; exists (moved w r2); split; [by apply rtc_once | done]|].
  apply dec_stable in Hid. apply attempt_inv in Hk as (r3 & z' & Hc & Hk).
  assert (r = r3) as -> by (destruct z'; unfold ret in Hk; by simplify_eq).
  assert (pgt ∈ minted w) as Hm.
  { apply command_inv in Hcmd as (_ & _ & [[_ Hz]|(-> & _)]); [|unfold throw in Hg; by simplify_eq].
    unfold get_f in Hz. cbn [snd] in Hz. fold (pkey (x_pgt req)) in Hz.
    destruct (peek _ _ _) as [[[v|?|?] d]|] eqn:Hp; subst z; try (unfold throw in Hg; by simplify_eq).
    apply peek_Some in Hp as [Hp _]. apply cas_reachable_inv in Hw.
    destruct (inv_pgts _ _ _ Hw _ _ Hp) as (p & Hv & _ & Hin). injection Hv as ->.
    cbn [unmarshal_pgt] in Hg. unfold ret in Hg. by simplify_eq. }
  eexists. split; [eapply rtc_l; [exact Hmove|]; eapply rtc_once, (step_proxy _ _ (moved w r2) rnd pgt app (targetService req)); eauto; by split | done].
Qed.

Lemma maybeIssuePGT_runs w env iou rnd cfg app st url r x :
  rnd ∉ used w -> st ∈ accepted w -> cfg = parseCASConfig (ProtocolConfig app) ->
  maybeIssuePGT url_parse EqualFold env iou (Some rnd) cfg app st url (rd w) = (r, x) -> runs_to w r.
Proof.
  intros Hrnd Hst -> Hr. pose proof (runs_refl w) as Hstay. unfold maybeIssuePGT in Hr.
  destruct (ProxyEnabled _) eqn:Hpe; [|injection Hr as <- _; exact Hstay].
  destruct (isValidService _ _ _ _) eqn:Hvs; [|injection Hr as <- _; exact Hstay]. cbn [negb] in Hr.
  destruct iou as [iou|]; [|injection Hr as <- _; exact Hstay].
  apply attempt_inv in Hr as (r1 & y & Hc & Hk).
  pose proof (step_mint url_parse EqualFold w rnd st app url _ r1 y Hrnd Hst (conj Hpe Hvs) Hc) as Hmint.
  set (w1 := mkWorld _ _ _ _ _) in Hmint.
  assert (runs_to w r1) as Hmid by (exists w1; split; [by apply rtc_once | done]).
  destruct y as [pgt|e]; [|injection Hk as <- _; exact Hmid].
  destruct (pgtCallback _ _ _ _); [injection Hk as <- _; exact Hmid|]. cbn [negb] in Hk.
  unfold bind at 1 in Hk. destruct (dropped _ r1) as [r2 z] eqn:Hd.
  apply attempt_inv in Hd as (r3 & z' & Hdel & Hz). injection Hz as <- <-. injection Hk as <- _.
  eapply runs_trans; [apply rtc_once, Hmint|]. exists (moved w1 r3). split; [|done].
  eapply rtc_once, (step_drop_pgt _ _ w1). exact Hdel.
Qed.

Lemma doValidate_runs w env iou rnd a p req r x :
  reachable w -> rnd ∉ used w -> do_validate env iou (Some rnd) a p req (rd w) = (r, x) -> runs_to w r.
Proof.
  intros Hw Hrnd Hr. unfold doValidate in Hr. destruct (decide _); [injection Hr as <- _; apply runs_refl|].
  apply attempt_inv in Hr as (r1 & y & Hc & Hk).
  pose proof (step_consume url_parse EqualFold w _ r1 y Hc) as Hstep. set (w1 := mkWorld _ _ _ _ _) in Hstep.
  assert (runs_to w r1) as Hmid by (exists w1; split; [by apply rtc_once | done]).
  destruct y as [st|e]; [|injection Hk as <- _; exact Hmid].
  destruct (IsProxy st && negb p); [injection Hk as <- _; exact Hmid|].
  destruct (decide _); [injection Hk as <- _; exact Hmid|].
  assert (st ∈ accepted w1) as Hst by (by left).
  unfold answer in Hk. eapply runs_trans; [apply rtc_once, Hstep|].
  unfold bind at 1 in Hk. destruct (GetApp env _) as [app|] eqn:Happ.
  - destruct (dropped _ r1) as [r2 z] eqn:Hd. pose proof (dropped_record w1 _ _ _ _ _ _ _ Hd) as Hrec.
    apply attempt_inv in Hd as (r3 & z' & _ & Hz). injection Hz as <- <-.
    eapply runs_trans; [apply rtc_once, Hrec|]. unfold bind at 1 in Hk. destruct (decide _).
    + destruct (maybeIssuePGT _ _ _ _ _ _ _ _ _ r3) as [r4 z4] eqn:Hm.
      assert (r = r4) as -> by (destruct z4; unfold ret in Hk; by simplify_eq).
      by eapply (maybeIssuePGT_runs (moved w1 r3)).
    + unfold ret in Hk. injection Hk as <- _. apply runs_refl.
  - unfold ret, bind in Hk. injection Hk as <- _. exact (runs_refl w1).
Qed.

(** The handlers are runs of the step system. In a reachable world, /login,
    /validate, /proxy and the four validation endpoints, given fresh random
    strings, take the store where a sequence of single steps takes it: what holds
    along every run of steps holds along every interleaving of requests. *)
Theorem handlers_take_steps w env rnd iou a p lreq preq vreq tk svc :
  reachable w -> rnd ∉ used w ->
  runs_to w (login url_parse EqualFold sha256_hex32 env (Some rnd) lreq (rd w)).1
  /\ runs_to w (validate tk svc (rd w)).1
  /\ runs_to w (proxy url_parse EqualFold env (Some rnd) preq (rd w)).1
  /\ runs_to w (do_validate env iou (Some rnd) a p vreq (rd w)).1.
Proof.
  intros Hw Hrnd. split_and!.
  - eapply login_runs; [exact Hrnd | apply surjective_pairing].
  - eapply validate_runs, surjective_pairing.
  - eapply proxy_runs; [exact Hw | exact Hrnd | apply surjective_pairing].
  - eapply doValidate_runs; [exact Hw | exact Hrnd | apply surjective_pairing].
Qed.
End Endpoints.

(** ** Concrete runs *)

Module CasDemo.
Definition parse (s : string) : option URL :=
  if bool_decide (s = "https://app/cas"%string) then Some (mkURL "https" "app" "/cas" false "") else
  if bool_decide (s = "https://app/cas/pgt"%string) then Some (mkURL "https" "app" "/cas/pgt" false "") else None.
Definition fold_eq (a b : string) : bool := bool_decide (a = b).
Definition order (m : gmap string string) : list (string * string) := map_to_list m.
Definition json (ref : CASServiceRef) : string := ServiceURL ref +:+ "|" +:+ ref_Ticket ref.

Definition fields : ConfigFields :=
  mkConfigFields (Some ["https://app/cas"%string]) ∅ None None None None None (Some true) None.
Definition app : AppConfig := mkAppConfig 9 "username" 1 "client" fields.
Definition ann : IdentityInfo := mkIdentityInfo 7 1 "ann" "ann@x" "" "Ann" [].
Definition env : Env :=
  mkEnv (fun c => if bool_decide (c = "demo"%string) then Some app else None)
    (fun i => if i =? 9 then Some app else None)
    (fun sid => if bool_decide (sid = "sid"%string) then Some (mkSSOSession 7 1) else None)
    (fun _ u => if u =? 7 then Some ann else None) (fun _ => "t1"%string) None (fun _ _ _ => true).

Definition w0 : World := mkWorld (mkRedis ∅ 100 (fun _ => Fine) 0) ∅ [] [] [].

(** /login issued ST-a to Ann. *)
Definition st_a : ServiceTicket := new_ticket "a" 7 1 "https://app/cas" "ann" 100.
Definition w1 : World :=
  mkWorld (CreateTicket (Some "a"%string) 7 1 "https://app/cas" "ann" 30 (rd w0)).1 ({[ "a"%string ]} ∪ ∅)
    [(st_a, deadline 100 (seconds_or 30 defaultTicketTTL))] [] [].

Lemma w1_reachable : cas_reachable parse fold_eq w1.
Proof.
  exists w0. split; [done|]. apply rtc_once.
  exact (step_ticket parse fold_eq w0 "a" 7 1 "https://app/cas" "ann" 30 _ _ (not_elem_of_empty _) (surjective_pairing _)).
Qed.

Definition req_a : ValidateRequest := mkValidateRequest "demo" "ST-a" "https://app/cas" "https://app/cas/pgt".
Definition first_answer : CRedis * res CasErr ServiceResponse :=
  doValidate parse fold_eq order json env (Some "i"%string) (Some "b"%string) false false req_a (rd w1).
Definition answer_a : AuthenticationSuccess := mkAuthenticationSuccess "ann" [] "PGTIOU-i" [].

Lemma first_answer_ok : first_answer = (first_answer.1, Ok (inl answer_a)).
Proof. apply (run_result (doValidate parse fold_eq order json env (Some "i"%string) (Some "b"%string) false false req_a)).
  vm_compute. reflexivity.
Qed.

Lemma first_validates : validates parse fold_eq order json (rd w1) "ST-a" "ann".
Proof. exact (validates_v2 _ _ _ _ _ _ env (Some "i"%string) (Some "b"%string) false false req_a _ answer_a eq_refl first_answer_ok). Qed.

Lemma consumed_a : ConsumeTicket "ST-a" (rd w1) = ((ConsumeTicket "ST-a" (rd w1)).1, Ok st_a).
Proof. apply run_result. vm_compute. reflexivity. Qed.

Lemma once_witness :
  ~ validates parse fold_eq order json (ConsumeTicket "ST-a" (rd w1)).1 "ST-a" "ann".
Proof.
  exact (ticket_validates_once parse fold_eq order json w1 "ST-a" "ann" _ _ _ "ann"
           w1_reachable first_validates consumed_a (rtc_refl _ _)).
Defined.

Lemma genuine_witness :
  exists st d, (st, d) ∈ issued w1 /\ Ticket st = "ST-a"%string /\ Username st = "ann"%string
    /\ forall t, d = Some t -> rclock (rd w1) < t.
Proof.
  destruct (validated_ticket_is_genuine parse fold_eq order json w1 env (Some "i"%string) (Some "b"%string)
              false false req_a _ answer_a w1_reachable first_answer_ok)
    as (st & d & H1 & H2 & _ & _ & H5 & _ & H7 & _).
  exists st, d. exact (conj H1 (conj H2 (conj (eq_sym H7) H5))).
Defined.

(** The validation delivered a PGT, which minted a proxy ticket. *)
Definition w2 : World :=
  mkWorld (ConsumeTicket "ST-a" (rd w1)).1 (used w1) (issued w1) [st_a] [].
Definition pgt_b : ProxyGrantingTicket := new_pgt "b" 7 1 9 "ann" "https://app/cas/pgt" [] 100.
Definition w3 : World :=
  mkWorld (CreatePGT (Some "b"%string) 7 1 9 "ann" "https://app/cas/pgt" [] 7200 (rd w2)).1
    ({[ "b"%string ]} ∪ used w2) (issued w2) (accepted w2) [pgt_b].
Definition pt_c : ServiceTicket := new_proxy_ticket "c" pgt_b "https://app/cas" 100.
Definition w4 : World :=
  mkWorld (CreateProxyTicket (Some "c"%string) pgt_b "https://app/cas" (rd w3)).1 ({[ "c"%string ]} ∪ used w3)
    ((pt_c, deadline 100 proxyTicketTTL) :: issued w3) (accepted w3) (minted w3).

Lemma w4_reachable : cas_reachable parse fold_eq w4.
Proof.
  destruct w1_reachable as (w & Hinit & Hrun). exists w. split; [done|]. etrans; [exact Hrun|].
  apply rtc_l with w2.
  { exact (step_consume parse fold_eq w1 "ST-a" _ (Ok st_a) consumed_a). }
  apply rtc_l with w3.
  { apply (step_mint parse fold_eq w2 "b" st_a app "https://app/cas/pgt" 7200 _
             (CreatePGT (Some "b"%string) 7 1 9 "ann" "https://app/cas/pgt" [] 7200 (rd w2)).2).
    - cbn. set_solver.
    - by left.
    - split; vm_compute; reflexivity.
    - apply surjective_pairing. }
  apply rtc_once. apply (step_proxy parse fold_eq w3 "c" pgt_b app "https://app/cas" _
                     (CreateProxyTicket (Some "c"%string) pgt_b "https://app/cas" (rd w3)).2).
  - cbn. set_solver.
  - by left.
  - reflexivity.
  - split; vm_compute; reflexivity.
  - apply surjective_pairing.
Qed.

Lemma chain_witness :
  exists st0 d0, (st0, d0) ∈ issued w4 /\ IsProxy st0 = false /\ Username st0 = Username pt_c /\ st0 ∈ accepted w4.
Proof.
  destruct (proxy_chain_leads_to_a_login parse fold_eq w4 pt_c _ w4_reachable (list_elem_of_here _ _))
    as (_ & _ & st0 & d0 & H1 & H2 & _ & _ & H3 & H4).
  exists st0, d0. exact (conj H1 (conj H2 (conj H3 (H4 eq_refl)))).
Defined.

Definition login_a : LoginRequest := mkLoginRequest "demo" "https://app/cas" "sid" "" "" "1" "".
Definition proxy_a : ProxyRequest := mkProxyRequest "demo" "PGT-b" "https://app/cas".

Lemma steps_witness :
  runs_to parse fold_eq w1 (doValidate parse fold_eq order json env (Some "i"%string) (Some "b"%string) false false req_a (rd w1)).1.
Proof.
  assert ("b"%string ∉ used w1) as Hb by (cbn; set_solver).
  exact (proj2 (proj2 (proj2 (handlers_take_steps parse fold_eq order (fun s => s) json w1 env "b" (Some "i"%string) false false
    login_a proxy_a req_a "ST-a" "https://app/cas" w1_reachable Hb)))).
Defined.
End CasDemo.
