(* ===== verification/CasFlows.v ===== *)
(** * CasFlows: confirmation, principals and single logout

    What a whole request of the CAS endpoints does: the one-time confirmation of a
    login, the principal a ticket carries, the endpoints that accept proxy
    tickets, and the logout that follows a validation. *)

From Stdlib Require Import Ascii.
From S2P Require Import Prelude Text Redis CasTickets CasHandler CasProps.

Lemma confirmValue_inj u a u' a' : confirmValue u a = confirmValue u' a' -> u = u' /\ a = a'.
Proof.
  intros H. apply (app_split dec_char) in H as [Hu Ha]; [|apply dec_chars..|done].
  split; by apply dec_inj.
Qed.

(** A confirmation that succeeds was stored for this pair, and is gone. *)
Lemma Consume_true tok u a r r' :
  Consume tok u a r = (r', Ok true) ->
  tok <> ""%string /\ rkeys r' = delete (confirmPrefix +:+ tok) (rkeys r)
  /\ exists d, peek (rkeys r) (rclock r) (confirmPrefix +:+ tok) = Some (mkRKey (RStr (VText (confirmValue u a))) d).
Proof.
  unfold Consume. case_bool_decide as Htok; [unfold ret; intros; by simplify_eq|].
  unfold call. destruct (GETDEL _ r) as [r1 y] eqn:Hg. intros Hr.
  destruct y as [v|e]; [|unfold ret in Hr; by simplify_eq].
  apply command_inv in Hg as (_ & _ & [[Hk Hv]|(? & _)]); [|done]. unfold getdel_f in *.
  destruct (peek _ _ _) as [[[v'|?|?] d]|] eqn:Hp; cbn [fst snd] in *; simplify_eq.
  destruct v' as [?|?|s]; unfold ret in Hr; simplify_eq. split_and!; [done | done|].
  exists d. match goal with H : bool_decide _ = true |- _ => apply bool_decide_eq_true in H as -> end. done.
Qed.

Section Flows.
Context (url_parse : string -> option URL) (EqualFold : string -> string -> bool).
Context (map_order : gmap string string -> list (string * string)).
Context (sha256_hex32 : string -> string).
Context (ref_json : CASServiceRef -> string) (ref_unjson : string -> option CASServiceRef).

Abbreviation log_in := (login url_parse EqualFold sha256_hex32).
Abbreviation do_validate := (doValidate url_parse EqualFold map_order ref_json).

(** What a login that redirects with a ticket went through. *)
Lemma login_ticket env rnd req r r' loc :
  log_in env rnd req r = (r', Ok (RedirectWithTicket loc)) ->
  exists app sess r1,
    GetApp env (l_app_code req) = Some app /\ sso_session env req = Some sess
    /\ (if decide (idp_initiated req <> "1"%string) then Consume (sso_confirm req) (s_UserID sess) (ID app) r = (r1, Ok true)
        else r1 = r)
    /\ issue_ticket sha256_hex32 env rnd app (l_service req) sess r1 = (r', Ok (RedirectWithTicket loc)).
Proof.
  unfold login. intros Hr. destruct (decide _); [unfold ret in Hr; by simplify_eq|].
  destruct (GetApp _ _) as [app|]; [|unfold ret in Hr; by simplify_eq].
  destruct (decide _); [unfold ret in Hr; by simplify_eq|].
  destruct (negb _); [unfold ret in Hr; by simplify_eq|].
  destruct (sso_session _ _) as [sess|]; [|unfold ret in Hr; by simplify_eq].
  destruct (decide _); [unfold ret in Hr; by simplify_eq|].
  apply bind_ok in Hr as (b & r1 & Hb & Hr). destruct b; [|unfold ret in Hr; by simplify_eq].
  exists app, sess, r1. split_and!; [done | done | | done].
  destruct (decide _); [done|]. unfold ret in Hb. by simplify_eq.
Qed.

Lemma issue_ticket_other env rnd app svc sess r r' x k :
  issue_ticket sha256_hex32 env rnd app svc sess r = (r', x) -> (forall t, k <> tkey t) -> rkeys r' !! k = rkeys r !! k.
Proof.
  unfold issue_ticket. intros Hr Hk. destruct (ResolveUser _ _ _); [|unfold ret in Hr; by simplify_eq].
  apply attempt_inv in Hr as (r1 & y & Hc & Hr).
  assert (r' = r1) as -> by (destruct y; unfold ret in Hr; by simplify_eq).
  destruct rnd as [rnd|]; [|unfold CreateTicket, randomly, throw in Hc; by simplify_eq].
  apply CreateTicket_inv in Hc as ((_ & _ & [->| ->]) & _); [done|]. by rewrite lookup_insert_ne by done.
Qed.

(** An SP-initiated login needs a confirmation, once. A login without
    [idp_initiated=1] that yields a ticket consumed a live confirmation token, one
    that was stored for exactly this user and app; while nobody issues the same
    token again, no such login yields a ticket with it a second time. *)
Theorem confirmation_is_bound_and_single_use env rnd req r r' loc :
  log_in env rnd req r = (r', Ok (RedirectWithTicket loc)) -> idp_initiated req <> "1"%string ->
  exists app sess d text,
    GetApp env (l_app_code req) = Some app /\ sso_session env req = Some sess
    /\ peek (rkeys r) (rclock r) (confirmPrefix +:+ sso_confirm req) = Some (mkRKey (RStr (VText text)) d)
    /\ (forall u a, text = confirmValue u a <-> u = s_UserID sess /\ a = ID app)
    /\ rkeys r' !! (confirmPrefix +:+ sso_confirm req) = None
    /\ forall env2 rnd2 req2 r2 loc2,
         sso_confirm req2 = sso_confirm req -> idp_initiated req2 <> "1"%string ->
         rkeys r2 !! (confirmPrefix +:+ sso_confirm req) = None ->
         (log_in env2 rnd2 req2 r2).2 <> Ok (RedirectWithTicket loc2).
Proof.
  intros Hr Hidp. apply login_ticket in Hr as (app & sess & r1 & Happ & Hsess & Hc & Hi).
  rewrite decide_True in Hc by done. apply Consume_true in Hc as (_ & Hk & d & Hp).
  exists app, sess, d, (confirmValue (s_UserID sess) (ID app)). split_and!; [done..| | |].
  - intros u a. split; [|by intros [-> ->]]. intros [-> ->]%confirmValue_inj. done.
  - erewrite issue_ticket_other; [|exact Hi | discriminate]. by rewrite Hk, lookup_delete_eq.
  - intros env2 rnd2 req2 r2 loc2 Htok Hidp2 Hnone Hr2%run_result.
    apply login_ticket in Hr2 as (app2 & sess2 & r3 & _ & _ & Hc2 & _). rewrite decide_True in Hc2 by done.
    apply Consume_true in Hc2 as (_ & _ & d2 & Hp2). rewrite Htok in Hp2.
    apply peek_Some in Hp2 as [Hp2 _]. congruence.
Qed.

(** [idp_initiated=1] skips the confirmation. It is a parameter of the
    request: with it a login of a signed-in user is answered with a ticket
    whatever the confirmation parameter, and no token is consumed. *)
Theorem idp_flag_skips_confirmation env rnd req r app sess user :
  fine r -> l_service req <> ""%string -> GetApp env (l_app_code req) = Some app -> Status app = 1 ->
  isValidService url_parse EqualFold (parseCASConfig (ProtocolConfig app)) (l_service req) = true ->
  sso_session env req = Some sess -> ResolveUser env (s_TenantID sess) (s_UserID sess) = Some user ->
  sso_deny req <> "1"%string -> idp_initiated req = "1"%string ->
  exists r', log_in env (Some rnd) req r
             = (r', Ok (RedirectWithTicket (with_ticket (l_service req) ("ST-" +:+ rnd))))
  /\ forall tok, rkeys r' !! (confirmPrefix +:+ tok) = rkeys r !! (confirmPrefix +:+ tok).
Proof.
  intros Hf Hsvc Happ Hst Hvalid Hsess Huser Hdeny Hidp.
  destruct (CreateTicket (Some rnd) (s_UserID sess) (s_TenantID sess) (l_service req) (principal sha256_hex32 env app user)
              (TicketTTL (parseCASConfig (ProtocolConfig app))) r) as [r' x] eqn:Hc.
  exists r'. assert (issue_ticket sha256_hex32 env (Some rnd) app (l_service req) sess r
    = (r', Ok (RedirectWithTicket (with_ticket (l_service req) ("ST-" +:+ rnd))))) as Hi.
  { unfold issue_ticket. rewrite Huser. unfold attempt. rewrite Hc.
    apply CreateTicket_inv in Hc as (_ & _ & Hfine). by destruct (Hfine Hf) as [-> _]. }
  split.
  - unfold login. rewrite decide_False by done. rewrite Happ, decide_False by (intros H; done).
    rewrite Hvalid. cbn [negb]. rewrite Hsess, decide_False by done.
    destruct (decide (idp_initiated req <> "1"%string)); [done|]. unfold bind, ret. cbn [negb]. exact Hi.
  - intros tok. eapply issue_ticket_other; [exact Hi | discriminate].
Qed.

(** The CAS 1.0 endpoint accepts proxy tickets. On a store that holds a proxy
    ticket, /serviceValidate refuses it and /validate confirms it. *)
Theorem v1_validate_accepts_proxy_tickets env i j req r st d :
  fine r -> peek (rkeys r) (rclock r) (tkey (v_ticket req)) = Some (mkRKey (RStr (VTicket st)) d) ->
  IsProxy st = true -> v_ticket req <> ""%string -> v_service req <> ""%string -> Service st = v_service req ->
  (validate (v_ticket req) (v_service req) r).2 = Ok (Some (Username st))
  /\ (do_validate env i j false false req r).2 = Ok (inr "INVALID_TICKET"%string).
Proof.
  intros Hf Hp Hpr Ht Hs Hsvc.
  assert (exists r1, ConsumeTicket (v_ticket req) r = (r1, Ok st)) as [r1 Hc].
  { unfold ConsumeTicket, call, GETDEL. rewrite (command_fine _ _ Hf). unfold getdel_f. fold (tkey (v_ticket req)).
    rewrite Hp. cbn. by eexists. }
  split.
  - unfold validate. rewrite decide_False by (intros [?|?]; done). unfold attempt. rewrite Hc.
    rewrite decide_False; [done|]. by intros H.
  - unfold doValidate. rewrite decide_False by (intros [?|?]; done). unfold attempt. rewrite Hc.
    by rewrite Hpr.
Qed.

(** A dropped error gives one user the principal of another. Under the
    "email" strategy a user without an address gets the username as principal; when
    that username is another user's address the two log in to the app as one. *)
Theorem dropped_subject_error_merges_users env app a b :
  SubjectStrategy app = StrategyEmail -> Email a = ""%string -> Email b = u_Username a -> Email b <> ""%string ->
  principal sha256_hex32 env app a = Email b /\ principal sha256_hex32 env app b = Email b.
Proof.
  intros Hs Ha Hb Hne. unfold principal, ResolveSubject. rewrite Hs. split.
  - repeat (rewrite decide_False by (by intros [?|?] || done)). cbn [in_Email]. rewrite !decide_True by done. done.
  - rewrite decide_False by (by intros [?|?]). rewrite decide_False by done. rewrite decide_True by done.
    cbn [in_Email]. rewrite decide_False by done. cbn [Subject]. by rewrite decide_True.
Qed.

(** ** Single logout *)

Lemma casServiceKey_user u a u' : casServiceKey u a <> casUserKey u'.
Proof.
  unfold casServiceKey, casUserKey. intros H. apply (app_cancel_l "mxid:cas:svc:") in H.
  pose proof (dec_chars u) as Hd. destruct (dec u) as [|c s]; simpl in *; [done|].
  injection H as -> _. done.
Qed.

(** The set under a key, if there is one, and nothing of another kind. *)
Definition set_at (r : CRedis) (k : string) : Prop :=
  forall e, rkeys r !! k = Some e -> exists s, rval e = RSet s.

Lemma sadd_expire (k m : string) ttl (ks : gmap string (RKey CasVal)) now ks1 x ks2 y :
  (forall e, ks !! k = Some e -> exists s, rval e = RSet s) ->
  sadd_f k m ks now = (ks1, x) -> expire_f k ttl ks1 now = (ks2, y) ->
  exists s, ks2 !! k = Some (mkRKey (RSet s) (Some (now + ex ttl))) /\ m ∈ s /\ x = Ok tt.
Proof.
  intros Hset Hs He. unfold sadd_f in Hs. destruct (peek ks now k) as [[v d]|] eqn:Hp.
  - apply peek_Some in Hp as [Hk Ha]. destruct (Hset _ Hk) as [s Hv]. cbn in Hv. subst v. injection Hs as <- <-.
    unfold expire_f in He. rewrite peek_insert_eq in He by done. injection He as <- <-.
    exists ({[ m ]} ∪ s). rewrite lookup_insert_eq. split_and!; [done | set_solver | done].
  - injection Hs as <- <-. unfold expire_f in He. rewrite peek_insert_eq in He by done. injection He as <- <-.
    exists {[ m ]}. rewrite lookup_insert_eq. split_and!; [done | set_solver | done].
Qed.

Lemma RecordService_fine u a url tk ttl r :
  fine r -> set_at r (casServiceKey u a) -> set_at r (casUserKey u) ->
  let r' := (dropped (RecordService ref_json u a url tk ttl) r).1 in
  rclock r' = rclock r /\ rfate r' = rfate r
  /\ exists s s',
       rkeys r' !! casServiceKey u a = Some (mkRKey (RSet s) (Some (rclock r + ex ttl)))
       /\ ref_json (mkCASServiceRef url tk) ∈ s
       /\ rkeys r' !! casUserKey u = Some (mkRKey (RSet s') (Some (rclock r + ex ttl))) /\ dec a ∈ s'.
Proof.
  intros Hf Hsvc Husr. unfold dropped, attempt, RecordService, checked, call, EXEC. rewrite (command_fine _ _ Hf).
  pose proof (casServiceKey_user u a u) as Hne.
  cbn [multi].
  destruct (sadd_f (casServiceKey u a) _ (rkeys r) (rclock r)) as [ks1 x1] eqn:H1.
  destruct (expire_f (casServiceKey u a) ttl ks1 (rclock r)) as [ks2 x2] eqn:H2.
  destruct (sadd_f (casUserKey u) (dec a) ks2 (rclock r)) as [ks3 x3] eqn:H3.
  destruct (expire_f (casUserKey u) ttl ks3 (rclock r)) as [ks4 x4] eqn:H4.
  destruct (sadd_expire _ _ _ _ _ _ _ _ _ Hsvc H1 H2) as (s & Hs & Hin & _).
  assert (forall k, k <> casServiceKey u a -> ks2 !! k = rkeys r !! k) as Hother2.
  { intros k Hk. pose proof (expire_only (fun x => x = casServiceKey u a) _ ttl eq_refl ks1 (rclock r) k Hk) as He.
    pose proof (sadd_only (fun x => x = casServiceKey u a) _ (ref_json (mkCASServiceRef url tk)) eq_refl (rkeys r) (rclock r) k Hk) as Ha.
    rewrite H2 in He. rewrite H1 in Ha. cbn in *. congruence. }
  destruct (sadd_expire (casUserKey u) (dec a) ttl ks2 (rclock r) ks3 x3 ks4 x4) as (s' & Hs' & Hin' & _); [|done..|].
  { intros e. rewrite Hother2 by done. apply Husr. }
  assert (ks4 !! casServiceKey u a = ks2 !! casServiceKey u a) as Hkeep.
  { pose proof (expire_only (fun x => x = casUserKey u) _ ttl eq_refl ks3 (rclock r) _ Hne) as He.
    pose proof (sadd_only (fun x => x = casUserKey u) _ (dec a) eq_refl ks2 (rclock r) _ Hne) as Ha.
    rewrite H4 in He. rewrite H3 in Ha. cbn in *. congruence. }
  cbn [fst snd rkeys rclock rfate]. destruct (match x1 with Ok _ => _ | Err e => _ end); cbn [fst rkeys rclock rfate ret throw];
    split_and!; try done; exists s, s'; split_and!; try done; by rewrite Hkeep.
Qed.

Lemma dropped_ok {A} (op : Op A) (r : CRedis) : dropped op r = ((dropped op r).1, Ok tt).
Proof. unfold dropped, attempt. by destruct (op r). Qed.

(** Issuing a proxy-granting ticket touches the keys of those tickets only. *)
Lemma maybeIssuePGT_other env i j cfg app st url r r' x :
  maybeIssuePGT url_parse EqualFold env i j cfg app st url r = (r', x) ->
  rclock r' = rclock r /\ rfate r' = rfate r /\ forall k, (forall id, k <> pkey id) -> rkeys r' !! k = rkeys r !! k.
Proof.
  unfold maybeIssuePGT. intros Hr. destruct (negb _); [unfold ret in Hr; by simplify_eq|].
  destruct (negb _); [unfold ret in Hr; by simplify_eq|]. destruct i as [i|]; [|unfold ret in Hr; by simplify_eq].
  apply attempt_inv in Hr as (r1 & y & Hc & Hk).
  assert (rclock r1 = rclock r /\ rfate r1 = rfate r /\ forall k, (forall id, k <> pkey id) -> rkeys r1 !! k = rkeys r !! k)
    as (Hc1 & Hf1 & Hk1).
  { destruct j as [j|]; [|unfold CreatePGT, randomly, throw in Hc; by simplify_eq].
    apply CreatePGT_inv in Hc as ((H1 & H2 & H3) & _). split_and!; [done | done|]. intros k Hne.
    destruct H3 as [->| ->]; [done|]. by rewrite lookup_insert_ne by done. }
  destruct y as [pgt|e]; [|unfold ret in Hk; by simplify_eq].
  destruct (negb _); [|unfold ret in Hk; by simplify_eq].
  unfold bind in Hk. destruct (dropped _ r1) as [r2 z] eqn:Hd. apply attempt_inv in Hd as (r3 & z' & Hdel & Hz).
  injection Hz as <- <-. injection Hk as <- _. unfold DeletePGT, checked, call, DEL in Hdel.
  destruct (command _ r1) as [r4 y4] eqn:Hcmd.
  assert (r3 = r4) as -> by (destruct y4; unfold ret, throw in Hdel; by simplify_eq).
  pose proof Hcmd as (H1 & H2 & _)%command_inv. split_and!; [congruence | congruence|]. intros k Hne.
  rewrite (command_other (fun x => x = pkey (PGT pgt)) (del_f (pkey (PGT pgt))) r1 r4 y4 k); [by apply Hk1 | | exact Hcmd |].
  - by apply del_only.
  - intros ->. by eapply Hne.
Qed.

Definition at_time (now : Z) (r : CRedis) : CRedis := mkRedis (rkeys r) now (rfate r) (rcalls r).

(** A validated service is told of the logout. On a working connection, for
    eight days after a validation that the app was found for, the user's
    registered apps include it, and a single logout of the app sends a request
    that names the validated ticket, to the app's logout URL or else to the
    service. *)
Theorem validated_service_is_logged_out env i j a p req r r' s app now env2 :
  fine r -> do_validate env i j a p req r = (r', Ok (inl s)) -> GetApp env (v_app_code req) = Some app ->
  (forall ref, ref_unjson (ref_json ref) = Some ref) -> ID app <> 0 ->
  exists st, (ConsumeTicket (v_ticket req) r).2 = Ok st /\
  (set_at r (casServiceKey (UserID st) (ID app)) -> set_at r (casUserKey (UserID st)) ->
   now < rclock r + 8 * 24 * Hour ->
   (exists apps r2, AppsForUser (UserID st) (at_time now r') = (r2, Ok apps) /\ ID app ∈ apps)
   /\ exists targets r2 url id,
        SingleLogout ref_unjson env2 (UserID st) (ID app) (at_time now r') = (r2, Ok targets)
        /\ (url, id, v_ticket req) ∈ targets
        /\ url = match GetAppByID env2 (ID app) with
                 | Some app2 => if decide (LogoutURL (parseCASConfig (ProtocolConfig app2)) <> ""%string)
                                then LogoutURL (parseCASConfig (ProtocolConfig app2)) else v_service req
                 | None => v_service req
                 end).
Proof.
  intros Hf Hv Happ Hjson Hid. apply doValidate_ok in Hv as (r1 & st & Hc & Hsvc & _ & _ & _ & Hans).
  exists st. split; [by rewrite Hc|]. intros Hset1 Hset2 Hnow.
  apply ConsumeTicket_inv in Hc as (Hc1 & Hf1 & _ & Hok). destruct (Hok st eq_refl) as [Hgone _].
  assert (fine r1) as Hfine1 by (intros n; rewrite Hf1; apply Hf).
  assert (set_at r1 (casServiceKey (UserID st) (ID app))) as Hs1.
  { intros e. rewrite Hgone, lookup_delete_ne by discriminate. apply Hset1. }
  assert (set_at r1 (casUserKey (UserID st))) as Hs2.
  { intros e. rewrite Hgone, lookup_delete_ne by discriminate. apply Hset2. }
  pose proof (RecordService_fine (UserID st) (ID app) (v_service req) (v_ticket req) casSLORegistryTTL r1 Hfine1 Hs1 Hs2)
    as (Hc2 & Hf2 & sset & uset & Hk1 & Hin1 & Hk2 & Hin2).
  unfold answer in Hans. rewrite Happ in Hans. apply bind_ok in Hans as (u & r2 & Hrec & Hans).
  rewrite Hrec in *. cbn [fst] in *. apply bind_ok in Hans as (iou & r3 & Hiou & Hans).
  assert (rclock r3 = rclock r2 /\ rfate r3 = rfate r2 /\ forall k, (forall id, k <> pkey id) -> rkeys r3 !! k = rkeys r2 !! k)
    as (Hc3 & Hf3 & Hk3).
  { destruct (decide _); [by eapply maybeIssuePGT_other|]. unfold ret in Hiou. by simplify_eq. }
  unfold ret in Hans. injection Hans as <- _.
  assert (ex casSLORegistryTTL = 8 * 24 * Hour) as Hex.
  { apply ex_exact; [reflexivity|]. by exists (8 * 24 * 3600). }
  assert (fine (at_time now r3)) as Hf4 by (intros n; cbn; rewrite Hf3, Hf2, Hf1; apply Hf).
  assert (forall k w, rkeys r2 !! k = Some (mkRKey (RSet w) (Some (rclock r1 + ex casSLORegistryTTL))) ->
    (forall id, k <> pkey id) -> peek (rkeys r3) now k = Some (mkRKey (RSet w) (Some (rclock r1 + ex casSLORegistryTTL)))) as Hpk.
  { intros k w Hk Hne. apply peek_Some. rewrite Hk3 by done. split; [done|]. cbn. apply Z.ltb_lt. lia. }
  split.
  - unfold AppsForUser, call, SMEMBERS. rewrite (command_fine _ _ Hf4). unfold smembers_f. cbn [rkeys rclock at_time].
    rewrite (Hpk _ _ Hk2) by discriminate. cbn [fst snd]. eexists _, _. split; [done|].
    apply list_elem_of_filter. split; [done|]. apply list_elem_of_omap. exists (dec (ID app)).
    split; [by apply elem_of_elements | apply undec_dec].
  - unfold SingleLogout, attempt, ListServices, call, SMEMBERS. rewrite (command_fine _ _ Hf4). unfold smembers_f.
    cbn [rkeys rclock at_time]. rewrite (Hpk _ _ Hk1) by discriminate. cbn [fst snd ret].
    assert (mkCASServiceRef (v_service req) (v_ticket req) ∈ omap ref_unjson (elements sset)) as Hin.
    { apply list_elem_of_omap. eexists. split; [apply elem_of_elements; exact Hin1 | apply Hjson]. }
    destruct (omap ref_unjson (elements sset)) as [|ref0 refs] eqn:Href; [by apply elem_of_nil in Hin|].
    unfold bind, Now, gets. rewrite (dropped_ok (Clear (UserID st) (ID app))). unfold ret.
    apply list_elem_of_lookup in Hin as [n Hn].
    eexists _, _, _, _. split; [done|]. split.
    + unfold slo_targets. apply list_elem_of_lookup. exists n. rewrite list_lookup_imap, Hn. cbn. done.
    + cbn. destruct (GetAppByID env2 (ID app)) as [app2|]; [done|]. done.
Qed.
End Flows.

(** ** Concrete runs *)

Module FlowDemo.
Import CasDemo.

Definition hex32 (s : string) : string := s.

(** Ann confirmed the login to the app: the token "tok". *)
Definition confirmed : CRedis := (Issue (Some "tok"%string) 7 9 (rd w0)).1.
Definition sp_login : LoginRequest := mkLoginRequest "demo" "https://app/cas" "sid" "" "" "" "tok".

Lemma sp_login_ok :
  login parse fold_eq hex32 env (Some "z"%string) sp_login confirmed
  = ((login parse fold_eq hex32 env (Some "z"%string) sp_login confirmed).1,
     Ok (RedirectWithTicket "https://app/cas?ticket=ST-z")).
Proof. apply run_result. vm_compute. reflexivity. Qed.

Lemma confirmation_witness :
  (login parse fold_eq hex32 env (Some "y"%string) sp_login
     (login parse fold_eq hex32 env (Some "z"%string) sp_login confirmed).1).2
  <> Ok (RedirectWithTicket "https://app/cas?ticket=ST-y").
Proof.
  destruct (confirmation_is_bound_and_single_use parse fold_eq hex32 env _ _ _ _ _ sp_login_ok ltac:(discriminate))
    as (a & sess & d & text & _ & _ & _ & _ & Hgone & Hagain).
  exact (Hagain env (Some "y"%string) sp_login _ _ eq_refl ltac:(discriminate) Hgone).
Defined.

Lemma idp_witness :
  exists r', login parse fold_eq hex32 env (Some "a"%string) login_a (rd w0)
             = (r', Ok (RedirectWithTicket (with_ticket "https://app/cas" "ST-a"))).
Proof.
  destruct (idp_flag_skips_confirmation parse fold_eq hex32 env "a" login_a (rd w0) app (mkSSOSession 7 1) ann)
    as (r' & Hr & _).
  - intros n. reflexivity.
  - discriminate.
  - reflexivity.
  - reflexivity.
  - vm_compute. reflexivity.
  - reflexivity.
  - reflexivity.
  - discriminate.
  - reflexivity.
  - exists r'. exact Hr.
Defined.

Definition req_c : ValidateRequest := mkValidateRequest "demo" "PT-c" "https://app/cas" "".

Lemma w4_peek : peek (rkeys (rd w4)) (rclock (rd w4)) (tkey (v_ticket req_c))
  = Some (mkRKey (RStr (VTicket pt_c)) (deadline 100 proxyTicketTTL)).
Proof. vm_compute. reflexivity. Qed.

Lemma v1_witness :
  (validate "PT-c" "https://app/cas" (rd w4)).2 = Ok (Some "ann"%string).
Proof.
  assert (fine (rd w4)) as Hf by (intros n; vm_compute; reflexivity).
  exact (proj1 (v1_validate_accepts_proxy_tickets parse fold_eq order json env None None req_c (rd w4) pt_c _
                  Hf w4_peek eq_refl ltac:(discriminate) ltac:(discriminate) eq_refl)).
Defined.

Definition mail_app : AppConfig := mkAppConfig 9 "email" 1 "client" fields.
Definition mallory : IdentityInfo := mkIdentityInfo 8 1 "ann@x" "" "" "Mallory" [].

Lemma merge_witness : principal hex32 env mail_app mallory = "ann@x"%string.
Proof.
  exact (proj1 (dropped_subject_error_merges_users hex32 env mail_app mallory ann eq_refl eq_refl eq_refl ltac:(discriminate))).
Defined.

(** A reference as a number, so that it can be read back. *)
Definition ref_out (ref : CASServiceRef) : string := dec (Zpos (encode (ServiceURL ref, ref_Ticket ref))).
Definition ref_in (s : string) : option CASServiceRef :=
  match undec s with
  | Some (Zpos p) => '(u, t) ← decode p; Some (mkCASServiceRef u t)
  | _ => None
  end.

Lemma ref_round ref : ref_in (ref_out ref) = Some ref.
Proof. unfold ref_in, ref_out. rewrite undec_dec, decode_encode. by destruct ref. Qed.

Definition validated : CRedis * res CasErr ServiceResponse :=
  doValidate parse fold_eq order ref_out env None None false false (mkValidateRequest "demo" "ST-a" "https://app/cas" "") (rd w1).

Lemma validated_run_ok : validated = (validated.1, Ok (inl (mkAuthenticationSuccess "ann" [] "" []))).
Proof.
  apply (run_result (doValidate parse fold_eq order ref_out env None None false false
                       (mkValidateRequest "demo" "ST-a" "https://app/cas" ""))).
  vm_compute. reflexivity.
Qed.

Lemma logout_witness :
  exists targets r2 id, SingleLogout ref_in env 7 9 (at_time (100 + Hour) validated.1) = (r2, Ok targets)
    /\ ("https://app/cas"%string, id, "ST-a"%string) ∈ targets.
Proof.
  assert (fine (rd w1)) as Hf by (intros n; vm_compute; reflexivity).
  destruct (validated_service_is_logged_out parse fold_eq order hex32 ref_out ref_in env None None false false
              (mkValidateRequest "demo" "ST-a" "https://app/cas" "") (rd w1) validated.1 _ app (100 + Hour) env
              Hf validated_run_ok eq_refl ref_round ltac:(discriminate)) as (st & Hst & Hrest).
  cbn [v_ticket] in Hst. rewrite consumed_a in Hst. injection Hst as <-.
  assert (set_at (rd w1) (casServiceKey (UserID st_a) (ID app))) as H1 by (intros e He; vm_compute in He; discriminate).
  assert (set_at (rd w1) (casUserKey (UserID st_a))) as H2 by (intros e He; vm_compute in He; discriminate).
  destruct (Hrest H1 H2 ltac:(reflexivity)) as (_ & targets & r2 & url & id & Hr & Hin & Hurl).
  exists targets, r2, id. rewrite Hurl in Hin. exact (conj Hr Hin).
Defined.
End FlowDemo.
