(* ===== verification/GroupRule.v ===== *)
(** * GroupRule: the rules of dynamic groups

    src/internal/domain/group/rule.go: validation of a
    rule against the field allow-list, and its compilation to a parameterised
    query. A decoded JSON value is an exact rational where Go holds a float64. *)

From Stdlib Require Import Ascii QArith.
From S2P Require Import Prelude Text.
#[global] Open Scope Z_scope.

(** ** Values

    [GoInt] is an int or int64 that code, not the JSON decoder, put there. *)
Inductive Value : Type :=
| JNull
| JBool (b : bool)
| JNum (q : Q)
| JStr (s : string)
| JArr (l : list Value)
| JObj
| GoInt (n : Z).

Record RuleCondition : Type := mkRuleCondition { Field : string; Cmp : string; CValue : Value }.
Record RuleExpr : Type := mkRuleExpr { Op : string; Conditions : list RuleCondition }.

Inductive RuleErr : Type :=
| ErrRuleEmpty
| ErrRuleDecode
| ErrRuleUnknownField
| ErrRuleUnknownCmp
| ErrRuleInvalidValue
| ErrRuleNestedNotSupported
| ErrUnhandledCmp
(** a type assertion that fails: the goroutine panics *)
| ErrPanic.

(** ** Numbers *)

(** float64(n): 53 significant bits, ties to even. *)
Definition float64_of_int (n : Z) : Z :=
  let a := Z.abs n in
  if a <? 2 ^ 53 then n else
  let u := 2 ^ (Z.log2 a - 52) in
  let d := a / u in
  let r := a mod u in
  let d' := if 2 * r <? u then d else if u <? 2 * r then d + 1 else if Z.even d then d else d + 1 in
  Z.sgn n * (d' * u).

(** The decoder's value of an integer literal. *)
Definition decode_int (n : Z) : Value := JNum (inject_Z (float64_of_int n)).

(** ** Fields *)

Inductive Kind : Type := KString | KInt | KId.

Record ruleField : Type := mkRuleField {
  SQL : string; AllowedCmps : list string; ValueKind : Kind; NeedsDetail : bool
}.

Definition ruleFieldsList : list (string * ruleField) :=
  [("username", mkRuleField "u.username" ["eq"; "ne"; "contains"; "startswith"; "endswith"] KString false);
   ("email", mkRuleField "u.email" ["eq"; "ne"; "contains"; "startswith"; "endswith"] KString false);
   ("display_name", mkRuleField "u.display_name" ["eq"; "contains"; "startswith"; "endswith"] KString false);
   ("status", mkRuleField "u.status" ["eq"; "ne"; "in"] KInt false);
   ("org_id", mkRuleField "uo.org_id" ["eq"; "in"; "in_subtree"] KId false);
   ("detail.department", mkRuleField "d.department" ["eq"; "ne"; "contains"] KString true);
   ("detail.job_title", mkRuleField "d.job_title" ["eq"; "ne"; "contains"] KString true);
   ("detail.employee_no", mkRuleField "d.employee_no" ["eq"; "ne"; "startswith"] KString true)]%string.

Definition ruleFields (f : string) : option ruleField :=
  snd <$> find (fun p => bool_decide (p.1 = f)) ruleFieldsList.

Definition AllowedRuleFields : list (string * list string) :=
  map (fun p => (p.1, AllowedCmps p.2)) ruleFieldsList.

Definition sliceContains (s : list string) (v : string) : bool := bool_decide (v ∈ s).

(** ** Validation *)

Section Rules.
(** strings.TrimSpace; the int64 the processor makes of a float64 out of range. *)
Context (TrimSpace : string -> string) (overflow : Q -> Z).
(** fmt.Sprint of a value that is not a string. *)
Context (Sprint : Value -> string).

(** int64(x) *)
Definition int_of_float (q : Q) : Z :=
  let t := Z.quot (Qnum q) (Zpos (Qden q)) in
  if (int64_min <=? t) && (t <=? int64_max) then t else overflow q.

(** [x == float64(int64(x))] *)
Definition integral (q : Q) : bool := Qeq_bool q (inject_Z (float64_of_int (int_of_float q))).

Definition validateScalar (def : ruleField) (v : Value) : bool :=
  match ValueKind def, v with
  | KString, JStr s => negb (bool_decide (TrimSpace s = ""%string))
  | KString, _ => false
  | KInt, JNum q => integral q
  | KInt, GoInt _ => true
  | KInt, _ => false
  | KId, JStr s => (ParseInt s).2
  | KId, JNum q => integral q
  | KId, _ => false
  end.

Definition validateValue (def : ruleField) (cmp : string) (v : Value) : bool :=
  if bool_decide (cmp = "in"%string) then
    match v with JArr l => forallb (validateScalar def) l | _ => false end
  else validateScalar def v.

Fixpoint validate_conditions (cs : list RuleCondition) : res RuleErr unit :=
  match cs with
  | [] => Ok tt
  | c :: cs' =>
      match ruleFields (Field c) with
      | None => Err ErrRuleUnknownField
      | Some def =>
          if negb (sliceContains (AllowedCmps def) (Cmp c)) then Err ErrRuleUnknownCmp
          else if negb (validateValue def (Cmp c) (CValue c)) then Err ErrRuleInvalidValue
          else validate_conditions cs'
      end
  end.

(** The bytes of a rule: none, not a rule's JSON, or the decoded document. *)
Inductive Raw : Type :=
| RawEmpty
| RawBad
| RawDoc (e : RuleExpr).

Definition ValidateRule (raw : Raw) : res RuleErr RuleExpr :=
  match raw with
  | RawEmpty => Err ErrRuleEmpty
  | RawBad => Err ErrRuleDecode
  | RawDoc e0 =>
      let e := mkRuleExpr (if bool_decide (Op e0 = "") then "and" else Op e0)%string (Conditions e0) in
      if bool_decide (Op e <> "and"%string) then Err ErrRuleNestedNotSupported
      else if bool_decide (Conditions e = []) then Err ErrRuleEmpty
      else match validate_conditions (Conditions e) with Ok _ => Ok e | Err x => Err x end
  end.

(** ** Compilation *)

Record CompiledRule : Type := mkCompiledRule {
  JoinDetail : bool; JoinOrgFor : gset string; WhereSQL : string; Args : list Value
}.

Definition toInt64 (v : Value) : Z :=
  match v with
  | JStr s => (ParseInt s).1
  | JNum q => int_of_float q
  | GoInt n => n
  | _ => 0
  end.

Definition toScalar (v : Value) (def : ruleField) : Value :=
  match ValueKind def with KId => GoInt (toInt64 v) | _ => v end.

Definition toString (v : Value) : string := match v with JStr s => s | _ => Sprint v end.

Definition ilike_sql : string := " ILIKE ? ESCAPE '" +:+ String LikeEscapeChar "'".

Definition subtree_sql : string :=
  "uo.org_id IN (SELECT child.id FROM mxid_organization child, mxid_organization root " +:+
  "WHERE root.id = ? AND child.path <@ root.path " +:+
  "AND child.deleted_at IS NULL AND root.deleted_at IS NULL " +:+
  "AND root.tenant_id = u.tenant_id AND child.tenant_id = u.tenant_id)".

Definition compileCondition (def : ruleField) (c : RuleCondition) : res RuleErr (string * list Value) :=
  let cmp_is s := bool_decide (Cmp c = s) in
  if cmp_is "eq"%string then Ok (SQL def +:+ " = ?", [toScalar (CValue c) def])
  else if cmp_is "ne"%string then Ok (SQL def +:+ " <> ?", [toScalar (CValue c) def])
  else if cmp_is "in"%string then
    match CValue c with
    | JArr arr => Ok (SQL def +:+ " IN ?", [JArr (map (fun v => toScalar v def) arr)])
    | _ => Err ErrPanic
    end
  else if cmp_is "contains"%string then
    Ok (SQL def +:+ ilike_sql, [JStr ("%" +:+ EscapeLike (toString (CValue c)) +:+ "%")])
  else if cmp_is "startswith"%string then
    Ok (SQL def +:+ ilike_sql, [JStr (EscapeLike (toString (CValue c)) +:+ "%")])
  else if cmp_is "endswith"%string then
    Ok (SQL def +:+ ilike_sql, [JStr ("%" +:+ EscapeLike (toString (CValue c)))])
  else if cmp_is "in_subtree"%string then Ok (subtree_sql, [GoInt (toInt64 (CValue c))])
  else Err ErrUnhandledCmp.

(** A field that is not in the map reads as the zero [ruleField]. *)
Definition field_or_zero (f : string) : ruleField :=
  default (mkRuleField "" [] KString false) (ruleFields f).

(** The loop: the fragments, the arguments and the joins. *)
Fixpoint compile_conditions (cs : list RuleCondition) : res RuleErr (bool * gset string * list string * list Value) :=
  match cs with
  | [] => Ok (false, ∅, [], [])
  | c :: cs' =>
      let def := field_or_zero (Field c) in
      match compileCondition def c with
      | Err e => Err e
      | Ok (frag, args) =>
          match compile_conditions cs' with
          | Err e => Err e
          | Ok (jd, jo, parts, rest) =>
              Ok (NeedsDetail def || jd,
                  (if bool_decide (Field c = "org_id"%string) then {[ Cmp c ]} else ∅) ∪ jo,
                  frag :: parts, args ++ rest)
          end
      end
  end.

(** [strings.Join] *)
Fixpoint Join (parts : list string) (sep : string) : string :=
  match parts with
  | [] => ""
  | [p] => p
  | p :: rest => p +:+ sep +:+ Join rest sep
  end.

Definition Compile (expr : RuleExpr) : res RuleErr CompiledRule :=
  match compile_conditions (Conditions expr) with
  | Err e => Err e
  | Ok (jd, jo, parts, args) => Ok (mkCompiledRule jd jo (Join parts " AND ") args)
  end.
End Rules.

(** ** rule_sync.go: the query *)

Definition buildEvaluateSQL (cr : CompiledRule) : string :=
  "SELECT DISTINCT u.id FROM mxid_user u"
  +:+ (if bool_decide (JoinOrgFor cr = ∅) then "" else " LEFT JOIN mxid_user_org uo ON uo.user_id = u.id ")
  +:+ (if JoinDetail cr then " LEFT JOIN mxid_user_detail d ON d.user_id = u.id " else "")
  +:+ " WHERE u.tenant_id = ? AND u.deleted_at IS NULL AND (" +:+ WhereSQL cr +:+ ")".

(** ** what a validated rule compiles to

    A rule that validates compiles; the text of its query depends only on the
    fields and operators it names, never on its values; text values match
    literally; and numeric ids lose precision. *)

(** ** Counting placeholders *)

Fixpoint count_char (c : ascii) (s : string) : nat :=
  match s with
  | EmptyString => 0
  | String d s' => (if decide (c = d) then 1 else 0) + count_char c s'
  end.

Lemma count_app c a b : count_char c (a +:+ b) = (count_char c a + count_char c b)%nat.
Proof. induction a as [|d a IH]; [done|]. cbn [count_char]. change (String d a +:+ b) with (String d (a +:+ b)).
  cbn [count_char]. rewrite IH. lia.
Qed.

Lemma count_Join c parts sep :
  count_char c sep = 0%nat -> count_char c (Join parts sep) = sum_list (map (count_char c) parts).
Proof.
  intros Hs. induction parts as [|p [|q rest] IH]; [done | simpl; lia|].
  change (Join (p :: q :: rest) sep) with (p +:+ sep +:+ Join (q :: rest) sep).
  rewrite !count_app, IH, Hs. simpl. lia.
Qed.

(** ** Conditions *)

(** The fragment of a condition: a function of its field and operator. *)
Definition fragment (def : ruleField) (cmp : string) : string :=
  if bool_decide (cmp = "eq"%string) then SQL def +:+ " = ?"
  else if bool_decide (cmp = "ne"%string) then SQL def +:+ " <> ?"
  else if bool_decide (cmp = "in"%string) then SQL def +:+ " IN ?"
  else if bool_decide (cmp = "in_subtree"%string) then subtree_sql
  else SQL def +:+ ilike_sql.

Definition known_cmps : list string := ["eq"; "ne"; "in"; "contains"; "startswith"; "endswith"; "in_subtree"]%string.

Lemma ruleFields_In f def : ruleFields f = Some def -> (f, def) ∈ ruleFieldsList.
Proof.
  unfold ruleFields. destruct (find _ ruleFieldsList) as [[g d]|] eqn:Hf; [|done]. cbn. intros [= ->].
  apply find_some in Hf as [Hin Heq]. apply bool_decide_eq_true in Heq. cbn in Heq. subst g. by apply list_elem_of_In.
Qed.

(** Checked by running over the eight fields. *)
Lemma allowed_known f def cmp : ruleFields f = Some def -> cmp ∈ AllowedCmps def -> cmp ∈ known_cmps.
Proof.
  intros Hin%ruleFields_In Hcmp.
  assert (Forall (fun p : string * ruleField => Forall (fun c => c ∈ known_cmps) (AllowedCmps p.2)) ruleFieldsList) as Hall
    by (apply (bool_decide_unpack _); vm_compute; reflexivity).
  rewrite Forall_forall in Hall. specialize (Hall _ Hin). cbn in Hall. rewrite Forall_forall in Hall. by apply Hall.
Qed.

Lemma one_placeholder f def cmp :
  ruleFields f = Some def -> cmp ∈ AllowedCmps def -> count_char "?" (fragment def cmp) = 1%nat.
Proof.
  intros Hin%ruleFields_In Hcmp.
  assert (Forall (fun p : string * ruleField => Forall (fun c => count_char "?" (fragment p.2 c) = 1%nat) (AllowedCmps p.2))
            ruleFieldsList) as Hall by (apply (bool_decide_unpack _); vm_compute; reflexivity).
  rewrite Forall_forall in Hall. specialize (Hall _ Hin). cbn in Hall. rewrite Forall_forall in Hall. by apply Hall.
Qed.

Section Props.
Context (TrimSpace : string -> string) (overflow : Q -> Z) (Sprint : Value -> string).

Abbreviation validate := (ValidateRule TrimSpace overflow).
Abbreviation compile := (Compile overflow Sprint).

(** What validation establishes of each condition. *)
Definition valid_condition (c : RuleCondition) : Prop :=
  exists def, ruleFields (Field c) = Some def /\ Cmp c ∈ AllowedCmps def
  /\ validateValue TrimSpace overflow def (Cmp c) (CValue c) = true.

Lemma validate_conditions_ok cs u :
  validate_conditions TrimSpace overflow cs = Ok u -> Forall valid_condition cs.
Proof.
  induction cs as [|c cs IH]; [constructor|]. cbn [validate_conditions].
  destruct (ruleFields (Field c)) as [def|] eqn:Hf; [|done].
  destruct (sliceContains _ _) eqn:Hc; [|done]. destruct (validateValue _ _ _ _ _) eqn:Hv; [|done]. cbn [negb].
  intros H. constructor; [|by apply IH]. exists def. split_and!; [done | by apply bool_decide_eq_true in Hc | done].
Qed.

Lemma ValidateRule_ok raw e :
  validate raw = Ok e ->
  Op e = "and"%string /\ Conditions e <> [] /\ Forall valid_condition (Conditions e)
  /\ exists e0, raw = RawDoc e0 /\ Conditions e0 = Conditions e.
Proof.
  unfold ValidateRule. destruct raw as [| |e0]; try done. cbn [Op Conditions].
  generalize (if bool_decide (Op e0 = EmptyString) then "and"%string else Op e0) as op. intros op.
  case_bool_decide as H1; [done|]. case_bool_decide as H2; [done|].
  destruct (validate_conditions _ _ _) as [u|x] eqn:Hv; [|done]. intros [= <-]. cbn.
  apply validate_conditions_ok in Hv. split_and!; [destruct (decide (op = "and"%string)); tauto | done | done | by exists e0].
Qed.

(** A valid condition compiles to its field's fragment and one argument. *)
Lemma condition_compiles c :
  valid_condition c ->
  exists def arg, ruleFields (Field c) = Some def /\ field_or_zero (Field c) = def
  /\ compileCondition overflow Sprint def c = Ok (fragment def (Cmp c), [arg])
  /\ count_char "?" (fragment def (Cmp c)) = 1%nat.
Proof.
  intros (def & Hf & Hc & Hv). pose proof (allowed_known _ _ _ Hf Hc) as Hk. pose proof (one_placeholder _ _ _ Hf Hc) as H1.
  assert (field_or_zero (Field c) = def) as Hz by (unfold field_or_zero; by rewrite Hf).
  assert (exists arg, compileCondition overflow Sprint def c = Ok (fragment def (Cmp c), [arg])) as [arg Ha]; [|eauto 10].
  unfold compileCondition, fragment. unfold known_cmps in Hk.
  rewrite !elem_of_cons, elem_of_nil in Hk.
  destruct_or? Hk; try done; rewrite Hk in *; cbn; try by eexists.
  unfold validateValue in Hv. cbn in Hv. destruct (CValue c); try discriminate. by eexists.
Qed.

Lemma conditions_compile cs :
  Forall valid_condition cs ->
  exists jd jo args,
    compile_conditions overflow Sprint cs
      = Ok (jd, jo, map (fun c => fragment (field_or_zero (Field c)) (Cmp c)) cs, args)
    /\ length args = length cs /\ jd = existsb (fun c => NeedsDetail (field_or_zero (Field c))) cs
    /\ jo = ⋃ map (fun c => if bool_decide (Field c = "org_id"%string) then {[ Cmp c ]} else ∅) cs
    /\ sum_list (map (count_char "?") (map (fun c => fragment (field_or_zero (Field c)) (Cmp c)) cs)) = length cs.
Proof.
  induction 1 as [|c cs Hc _ IH]; [by eexists _, _, _|].
  destruct (condition_compiles c Hc) as (def & arg & _ & Hz & Hcomp & Hq).
  destruct IH as (jd & jo & args & Hrun & Hlen & Hjd & Hjo & Hsum). cbn [compile_conditions].
  rewrite Hz, Hcomp, Hrun. eexists _, _, _. split; [cbn [map]; by rewrite Hz|].
  split_and!; [simpl; by rewrite Hlen | simpl; by rewrite Hz, Hjd | simpl; by rewrite Hjo|].
  cbn [map sum_list]. rewrite Hz, Hsum, Hq. done.
Qed.

(** The fields and operators of a rule, without its values. *)
Definition shape (e : RuleExpr) : list (string * string) := map (fun c => (Field c, Cmp c)) (Conditions e).

Lemma map_shape {B} (f : string * string -> B) e e' :
  shape e = shape e' -> map (fun c => f (Field c, Cmp c)) (Conditions e) = map (fun c => f (Field c, Cmp c)) (Conditions e').
Proof.
  intros H. pose proof (f_equal (map f) H) as Hm. unfold shape in Hm. by rewrite !map_map in Hm.
Qed.

Lemma existsb_map {A B} (f : A -> B) (p : B -> bool) l : existsb (fun x => p (f x)) l = existsb p (map f l).
Proof. induction l as [|x l IH]; [done|]. simpl. by rewrite IH. Qed.

(** A validated rule always compiles, to a query its values cannot shape. The
    compiler neither fails nor panics on it; the query has one placeholder per
    argument and one for the tenant; and any two validated rules that name the
    same fields and operators compile to the same text. *)
Theorem validated_rule_compiles raw e :
  validate raw = Ok e ->
  exists cr, compile e = Ok cr
  /\ count_char "?" (buildEvaluateSQL cr) = S (length (Args cr)) /\ length (Args cr) = length (Conditions e)
  /\ forall raw' e' cr', validate raw' = Ok e' -> shape e' = shape e -> compile e' = Ok cr' ->
     buildEvaluateSQL cr' = buildEvaluateSQL cr.
Proof.
  intros Hv. apply ValidateRule_ok in Hv as (_ & _ & Hall & _).
  destruct (conditions_compile _ Hall) as (jd & jo & args & Hrun & Hlen & Hjd & Hjo & Hsum).
  unfold Compile at 1. rewrite Hrun. eexists. split; [done|]. cbn [Args]. split_and!; [|done|].
  - rewrite Hlen, <- Hsum, <- (count_Join "?" _ " AND ") by done.
    unfold buildEvaluateSQL. cbn [JoinOrgFor JoinDetail WhereSQL]. rewrite !count_app.
    generalize (count_char "?" (Join (map (fun c => fragment (field_or_zero (Field c)) (Cmp c)) (Conditions e)) " AND ")).
    intros n. case_bool_decide; destruct jd; vm_compute; f_equal; exact (Nat.add_0_r n).
  - intros raw' e' cr' Hv' Hshape Hc'. apply ValidateRule_ok in Hv' as (_ & _ & Hall' & _).
    destruct (conditions_compile _ Hall') as (jd' & jo' & args' & Hrun' & _ & Hjd' & Hjo' & _).
    unfold Compile in Hc'. rewrite Hrun' in Hc'. injection Hc' as <-.
    pose proof (map_shape (fun p => fragment (field_or_zero p.1) p.2) e' e Hshape) as H1.
    pose proof (map_shape (fun p => if bool_decide (p.1 = "org_id"%string) then {[ p.2 ]} else (∅ : gset string)) e' e Hshape) as H2.
    pose proof (map_shape (fun p => NeedsDetail (field_or_zero p.1)) e' e Hshape) as H3.
    cbn [fst snd] in H1, H2, H3. unfold buildEvaluateSQL. cbn [JoinOrgFor JoinDetail WhereSQL].
    rewrite Hjo, Hjo', Hjd, Hjd'. rewrite (existsb_map _ (fun b => b)), (existsb_map (fun c => NeedsDetail _) (fun b => b)).
    by rewrite H1, H2, H3.
Qed.
End Props.

(** ** Text patterns *)

(** The values of text conditions match literally. Whatever characters the
    value has, wildcards and backslashes included, a "contains", "startswith" or
    "endswith" condition compiles to a pattern that matches exactly the texts that
    contain, begin or end with the value, up to case. *)
Theorem text_values_match_literally same overflow sprint def c v :
  CValue c = JStr v -> Cmp c ∈ ["contains"; "startswith"; "endswith"]%string ->
  exists pat, compileCondition overflow sprint def c = Ok (SQL def +:+ ilike_sql, [JStr pat])
  /\ forall t, ilike same pat t = true <->
     exists a b d, t = a +:+ b +:+ d /\ same_text same v b = true
     /\ (Cmp c = "startswith"%string -> a = EmptyString) /\ (Cmp c = "endswith"%string -> d = EmptyString).
Proof.
  intros Hv Hc. unfold compileCondition. rewrite Hv. cbn [toString].
  rewrite !elem_of_cons, elem_of_nil in Hc. destruct_or? Hc; try done; rewrite Hc; cbn -[ilike EscapeLike]; eexists; (split; [done|]); intros t.
  - change ("%" +:+ EscapeLike v +:+ "%") with (String "%" (EscapeLike v +:+ "%")). rewrite ilike_any. split.
    + intros (a & s & -> & Hs). apply ilike_escaped in Hs as (b & d & -> & Hb & _). exists a, b, d. done.
    + intros (a & b & d & -> & Hb & _). exists a, (b +:+ d). split; [done|]. apply ilike_escaped.
      exists b, d. split_and!; [done | done | apply ilike_rest].
  - rewrite ilike_escaped. split.
    + intros (b & d & -> & Hb & _). exists EmptyString, b, d. done.
    + intros (a & b & d & -> & Hb & Ha & _). rewrite Ha by done. exists b, d. split_and!; [done | done | apply ilike_rest].
  - change ("%" +:+ EscapeLike v) with (String "%" (EscapeLike v)). rewrite ilike_any. split.
    + intros (a & s & -> & Hs). assert (EscapeLike v = EscapeLike v +:+ EmptyString) as Hnil
        by (clear; induction (EscapeLike v) as [|x s IH]; [done | exact (f_equal (String x) IH)]).
      rewrite Hnil in Hs. apply ilike_escaped in Hs as (b & d & -> & Hb & Hd). apply ilike_end in Hd as ->.
      exists a, b, EmptyString. done.
    + intros (a & b & d & -> & Hb & _ & Hd). rewrite Hd by done.
      assert (forall s : string, s +:+ EmptyString = s) as Hnil
        by (intros s; induction s as [|x s IH]; [done | exact (f_equal (String x) IH)]).
      exists a, (b +:+ EmptyString). split; [done|]. rewrite <- (Hnil (EscapeLike v)).
      apply ilike_escaped. exists b, EmptyString. done.
Qed.

(** ** Numeric ids *)

(** A number with 53 significant bits is its own float64. *)
Lemma float64_exact d k : 2 ^ 52 <= d < 2 ^ 53 -> 1 <= k -> float64_of_int (d * 2 ^ k) = d * 2 ^ k.
Proof.
  intros Hd Hk. assert (0 < 2 ^ k) as Hu by (apply Z.pow_pos_nonneg; lia).
  assert (2 ^ 53 * 1 <= d * 2 ^ k) as Hbig.
  { replace (2 ^ 53) with (2 ^ 52 * 2 ^ 1) by reflexivity. rewrite <- Z.mul_assoc. apply Z.mul_le_mono_nonneg; [lia | lia | lia|].
    rewrite Z.mul_1_r. apply Z.pow_le_mono_r; lia. }
  unfold float64_of_int. rewrite Z.abs_eq by lia. destruct (Z.ltb_spec (d * 2 ^ k) (2 ^ 53)); [lia|].
  assert (Z.log2 (d * 2 ^ k) = 52 + k) as ->.
  { apply Z.log2_unique; [lia|]. rewrite Z.pow_add_r by lia. change (Z.succ (52 + k)) with (Z.succ (52 + k)).
    replace (Z.succ (52 + k)) with (53 + k) by lia. rewrite Z.pow_add_r by lia. nia. }
  replace (52 + k - 52) with k by lia. rewrite Z.div_mul by lia. rewrite Z.mod_mul by lia.
  destruct (Z.ltb_spec (2 * 0) (2 ^ k)); [|lia]. rewrite Z.sgn_pos by nia. lia.
Qed.

(** Rounding a larger number: a multiple of a power of two, near it. *)
Lemma float64_shape n :
  2 ^ 53 <= n < 2 ^ 62 ->
  exists d k, float64_of_int n = d * 2 ^ k /\ 2 ^ 52 <= d < 2 ^ 53 /\ 1 <= k /\ d * 2 ^ k <= 2 ^ 62.
Proof.
  intros Hn. unfold float64_of_int. rewrite Z.abs_eq by lia. destruct (Z.ltb_spec n (2 ^ 53)); [lia|].
  set (k := Z.log2 n - 52).
  assert (53 <= Z.log2 n < 62) as Hlog.
  { split; [apply Z.log2_le_pow2; lia | apply Z.log2_lt_pow2; lia]. }
  assert (1 <= k <= 9) as Hk by (unfold k; lia). assert (0 < 2 ^ k) as Hu by (apply Z.pow_pos_nonneg; lia).
  assert (2 ^ 52 * 2 ^ k <= n < 2 ^ 53 * 2 ^ k) as Hrange.
  { rewrite <- !Z.pow_add_r by lia. replace (52 + k) with (Z.log2 n) by (unfold k; lia).
    replace (53 + k) with (Z.succ (Z.log2 n)) by (unfold k; lia). apply Z.log2_spec. lia. }
  assert (2 ^ 52 <= n / 2 ^ k < 2 ^ 53) as Hd.
  { split; [apply Z.div_le_lower_bound; lia | apply Z.div_lt_upper_bound; lia]. }
  rewrite Z.sgn_pos by lia. rewrite Z.mul_1_l.
  assert (exists d', (d' = n / 2 ^ k \/ d' = n / 2 ^ k + 1)
    /\ (if 2 * (n mod 2 ^ k) <? 2 ^ k then n / 2 ^ k else if 2 ^ k <? 2 * (n mod 2 ^ k) then n / 2 ^ k + 1
        else if Z.even (n / 2 ^ k) then n / 2 ^ k else n / 2 ^ k + 1) = d') as (d' & Hd' & ->).
  { eexists. split; [|reflexivity]. repeat case_match; auto. }
  assert (2 ^ 53 * 2 ^ k <= 2 ^ 62) as Htop.
  { rewrite <- Z.pow_add_r by lia. apply Z.pow_le_mono_r; lia. }
  destruct (decide (d' = 2 ^ 53)) as [->|Hne].
  - exists (2 ^ 52), (k + 1). rewrite Z.pow_add_r by lia. change (2 ^ 1) with 2.
    change (2 ^ 53) with (2 ^ 52 * 2) in *. split_and!; lia.
  - exists d', k. split_and!; [done | lia | lia | lia|]. nia.
Qed.

Section Numeric.
Context (TrimSpace : string -> string) (overflow : Q -> Z) (Sprint : Value -> string).

Lemma int_of_inject z : in_int64 z -> int_of_float overflow (inject_Z z) = z.
Proof.
  unfold in_int64, int_of_float. intros Hz. cbn [inject_Z Qnum Qden]. rewrite Z.quot_1_r.
  rewrite (proj2 (Z.leb_le _ _) (proj1 Hz)), (proj2 (Z.leb_le _ _) (proj2 Hz)). done.
Qed.

(** An organisation id sent as a number names another organisation. The engine
    accepts numeric ids; a JSON number is a float64, so every odd id above 2^53 (all
    snowflake ids are that large) passes validation and compiles to a different
    id, without an error. *)
Theorem numeric_ids_lose_precision n :
  2 ^ 53 <= n < 2 ^ 62 -> Z.odd n = true ->
  let e := mkRuleExpr "and" [mkRuleCondition "org_id" "eq" (decode_int n)] in
  ValidateRule TrimSpace overflow (RawDoc e) = Ok e
  /\ exists cr m, Compile overflow Sprint e = Ok cr /\ Args cr = [GoInt m] /\ m <> n.
Proof.
  intros Hn Hodd e. destruct (float64_shape n Hn) as (d & k & Hf & Hd & Hk & Htop).
  assert (0 < 2 ^ k) as Hu by (apply Z.pow_pos_nonneg; lia).
  assert (in_int64 (float64_of_int n)) as Hin.
  { rewrite Hf. unfold in_int64, int64_min, int64_max. change (2 ^ 62) with 4611686018427387904 in *. nia. }
  assert (integral overflow (inject_Z (float64_of_int n)) = true) as Hint.
  { unfold integral. rewrite int_of_inject by done. rewrite Hf, float64_exact by done. apply Qeq_bool_refl. }
  split.
  - assert (validateValue TrimSpace overflow (field_or_zero "org_id") "eq" (decode_int n) = true) as Hv
      by exact Hint.
    assert (validate_conditions TrimSpace overflow (Conditions e) = Ok tt) as Hvc.
    { change (validate_conditions TrimSpace overflow (Conditions e))
        with (if negb (validateValue TrimSpace overflow (field_or_zero "org_id") "eq" (decode_int n))
              then Err ErrRuleInvalidValue else @Ok RuleErr unit tt). by rewrite Hv. }
    change (ValidateRule TrimSpace overflow (RawDoc e))
      with (match validate_conditions TrimSpace overflow (Conditions e) with Ok _ => Ok e | Err x => Err x end).
    by rewrite Hvc.
  - exists (mkCompiledRule false ({[ "eq"%string ]} ∪ ∅) "uo.org_id = ?" [GoInt (float64_of_int n)]), (float64_of_int n).
    split_and!; [| done |].
    + rewrite <- (int_of_inject (float64_of_int n)) at 1 by done. reflexivity.
    + intros Heq. rewrite <- Heq, Hf in Hodd. rewrite Z.odd_mul in Hodd. apply andb_true_iff in Hodd as [_ Hodd].
      rewrite Z.odd_pow in Hodd by lia. done.
Qed.
End Numeric.

(** ** Concrete runs *)

Module RuleDemo.
Definition trim (s : string) : string := s.
Definition over (q : Q) : Z := int64_min.
Definition sprint (v : Value) : string := "?".

Definition rule : RuleExpr :=
  mkRuleExpr "and" [mkRuleCondition "email" "endswith" (JStr "@100%_x"); mkRuleCondition "status" "in" (JArr [JNum 1; JNum 2])].

Lemma rule_valid : ValidateRule trim over (RawDoc rule) = Ok rule.
Proof. vm_compute. reflexivity. Qed.

Lemma compiles_witness :
  exists cr, Compile over sprint rule = Ok cr /\ count_char "?" (buildEvaluateSQL cr) = 3%nat.
Proof.
  destruct (validated_rule_compiles trim over sprint (RawDoc rule) rule rule_valid) as (cr & H1 & H2 & H3 & _).
  exists cr. rewrite H2, H3. exact (conj H1 eq_refl).
Defined.

Definition same (a b : ascii) : bool := bool_decide (a = b).

Lemma literal_witness :
  exists pat, compileCondition over sprint (field_or_zero "email") (mkRuleCondition "email" "endswith" (JStr "_x"))
              = Ok ("u.email" +:+ ilike_sql, [JStr pat])
  /\ (ilike same pat "ax" = true -> exists a b d, "ax"%string = a +:+ b +:+ d /\ same_text same "_x" b = true).
Proof.
  destruct (text_values_match_literally same over sprint (field_or_zero "email")
              (mkRuleCondition "email" "endswith" (JStr "_x")) "_x" eq_refl
              (list_elem_of_further _ _ _ (list_elem_of_further _ _ _ (list_elem_of_here _ _)))) as (pat & H1 & H2).
  exists pat. split; [exact H1|]. intros Hm. destruct (proj1 (H2 "ax"%string) Hm) as (a & b & d & Ht & Hb & _).
  exists a, b, d. exact (conj Ht Hb).
Defined.

Lemma numeric_witness :
  exists cr m, Compile over sprint (mkRuleExpr "and" [mkRuleCondition "org_id" "eq" (decode_int 360287970189639681)]) = Ok cr
    /\ Args cr = [GoInt m] /\ m <> 360287970189639681.
Proof.
  exact (proj2 (numeric_ids_lose_precision trim over sprint 360287970189639681 ltac:(lia) eq_refl)).
Defined.
End RuleDemo.
