(* ===== verification/GroupSync.v ===== *)
(** * GroupSync: user groups and the sync of dynamic groups

    src/internal/domain/group/service.go, rule_sync.go and the statements of
    repository_impl.go they run, over the three tables, with failing statements.
    Nothing here runs in a transaction: an operation that fails keeps what it had
    written. *)

From Stdlib Require Import QArith.
From S2P Require Import Prelude Text GroupRule.
#[global] Open Scope Z_scope.

Definition TypeStatic : Z := 1.
Definition TypeDynamic : Z := 2.
Definition RuleEnabled : Z := 1.
Definition RulePaused : Z := 2.

(** Timestamps and created_by are left out. *)
Record UserGroup : Type := mkUserGroup {
  g_ID : Z; g_TenantID : Z; g_Name : string; g_Code : string; g_Description : option string;
  g_Type : Z; g_Deleted : bool
}.

Inductive GErr : Type :=
| ErrDB
| ErrRecordNotFound
| ErrGroupNotFound
| ErrRuleNotFound
| ErrGroupIsDynamic
| ErrUserNotInTenant
| ErrGroupHasMembers
| ErrRule (e : RuleErr).

Record UserGroupRule : Type := mkUserGroupRule {
  r_ID : Z; r_GroupID : Z; Expr : Raw; r_Status : Z; LastSyncAt : option Z;
  LastSyncAdded : Z; LastSyncRemoved : Z; LastSyncError : option GErr
}.

Record UserGroupMember : Type := mkUserGroupMember { m_ID : Z; m_GroupID : Z; m_UserID : Z }.

Record SyncReport : Type := mkSyncReport { rep_GroupID : Z; Added : Z; Removed : Z }.

Inductive GEvent : Type :=
| GroupDeleted (g : UserGroup)
| GroupMemberAdded (tenantID groupID userID : Z) (name : string)
| GroupMemberRemoved (tenantID groupID userID : Z) (name : string)
| GroupRuleUpdated (tenantID groupID : Z) (name : string) (report : option SyncReport)
| GroupRuleDeleted (tenantID groupID : Z) (name : string) (report : option SyncReport)
| GroupRuleSynced (tenantID groupID : Z) (name : string) (report : option SyncReport).

Section Groups.
Context {G : Type} `{!IdGen G}.

(** mxid_user_group by id, mxid_user_group_rule by its unique group_id,
    mxid_user_group_member by its unique (group_id, user_id). *)
Record GWorld : Type := mkGWorld {
  ugroups : gmap Z UserGroup; urules : gmap Z UserGroupRule; umembers : gmap (Z * Z) UserGroupMember;
  idGen : G; bus : list GEvent; wall : Z
}.

Abbreviation GStore := (Store GWorld).
Abbreviation Op := (M GStore GErr).

Definition with_groups f (w : GWorld) := mkGWorld (f (ugroups w)) (urules w) (umembers w) (idGen w) (bus w) (wall w).
Definition with_rules f (w : GWorld) := mkGWorld (ugroups w) (f (urules w)) (umembers w) (idGen w) (bus w) (wall w).
Definition with_members f (w : GWorld) := mkGWorld (ugroups w) (urules w) (f (umembers w)) (idGen w) (bus w) (wall w).

(** One statement. *)
Definition select {A} (f : GWorld -> A) : Op A := let! w := query ErrDB in ret (f w).
Definition exec (f : GWorld -> GWorld) : Op unit := let! _ := query ErrDB in write f.
Definition dropped {A} (m : Op A) : Op unit := attempt m (fun _ => ret tt).

Definition new_id : Op Z := fun s =>
  let '(g', id) := Generate (idGen (sdb s)) in
  (mkStore (mkGWorld (ugroups (sdb s)) (urules (sdb s)) (umembers (sdb s)) g' (bus (sdb s)) (wall (sdb s)))
     (sfail s) (scalls s), Ok id).

Definition publish (e : GEvent) : Op unit :=
  write (fun w => mkGWorld (ugroups w) (urules w) (umembers w) (idGen w) (bus w ++ [e]) (wall w)).

(** ** repository_impl.go; [scope] is the tenant the context is pinned to, added to
    the query by the tenantscope plugin *)

Definition in_scope (scope : option Z) (g : UserGroup) : bool :=
  negb (g_Deleted g) && match scope with Some t => g_TenantID g =? t | None => true end.

Definition repo_GetByID (scope : option Z) (id : Z) : Op UserGroup :=
  let! w := query ErrDB in
  match ugroups w !! id with
  | Some g => if in_scope scope g then ret g else throw ErrRecordNotFound
  | None => throw ErrRecordNotFound
  end.

Definition repo_Update (g : UserGroup) : Op unit := exec (with_groups <[g_ID g := g]>).

(** Members and rule cascade. *)
Definition repo_Delete (id : Z) : Op unit :=
  exec (fun w => with_members (filter (fun p => p.1.1 <> id)) (with_rules (delete id) (with_groups (delete id) w))).

Definition repo_ListDynamicGroupIDs (tenantID : Z) : Op (list Z) :=
  select (fun w => map fst (filter (fun p : Z * UserGroup => g_TenantID p.2 = tenantID /\ g_Type p.2 = TypeDynamic
                                     /\ g_Deleted p.2 = false) (map_to_list (ugroups w)))).

(** INSERT ... ON CONFLICT (group_id, user_id) DO NOTHING *)
Definition insert_member (m : UserGroupMember) (ms : gmap (Z * Z) UserGroupMember) : gmap (Z * Z) UserGroupMember :=
  match ms !! (m_GroupID m, m_UserID m) with Some _ => ms | None => <[(m_GroupID m, m_UserID m) := m]> ms end.

Definition repo_AddMember (m : UserGroupMember) : Op unit := exec (with_members (insert_member m)).

Definition members_of (gid : Z) (w : GWorld) : list Z :=
  map (fun p : (Z * Z) * UserGroupMember => p.1.2)
      (filter (fun p : (Z * Z) * UserGroupMember => p.1.1 = gid) (map_to_list (umembers w))).

(** Pluck("user_id") of the rows among [userIDs]. *)
Definition existing_of (gid : Z) (userIDs : list Z) (w : GWorld) : list Z :=
  filter (fun u => u ∈ userIDs) (members_of gid w).

Definition repo_AddMembers (groupID : Z) (members : list UserGroupMember) : Op (list Z) :=
  if bool_decide (members = []) then ret [] else
  let! existing := select (existing_of groupID (map m_UserID members)) in
  let toInsert := filter (fun m => m_UserID m ∉ existing) members in
  let skipped := map m_UserID (filter (fun m => m_UserID m ∈ existing) members) in
  if bool_decide (toInsert = []) then ret skipped else
  do! exec (with_members (fun ms => fold_left (fun acc m => insert_member m acc) toInsert ms)) in
  ret skipped.

Definition repo_RemoveMember (groupID userID : Z) : Op unit := exec (with_members (delete (groupID, userID))).

Definition repo_RemoveMembers (groupID : Z) (userIDs : list Z) : Op (list Z) :=
  if bool_decide (userIDs = []) then ret [] else
  let! existing := select (existing_of groupID userIDs) in
  let skipped := filter (fun u => u ∉ existing) userIDs in
  let toDelete := filter (fun u => u ∈ existing) userIDs in
  if bool_decide (toDelete = []) then ret skipped else
  do! exec (with_members (filter (fun p => ~ (p.1.1 = groupID /\ p.1.2 ∈ toDelete)))) in
  ret skipped.

(** Rows whose user is soft-deleted are not counted; [live] is the user table's
    answer. *)
Definition repo_CountMembers (live : Z -> bool) (groupID : Z) : Op Z :=
  select (fun w => Z.of_nat (length (filter (fun u => live u = true) (members_of groupID w)))).

Definition repo_AllMemberIDs (groupID : Z) : Op (list Z) := select (members_of groupID).

Definition repo_GetRule (groupID : Z) : Op UserGroupRule :=
  let! w := query ErrDB in
  match urules w !! groupID with Some r => ret r | None => throw ErrRecordNotFound end.

(** ON CONFLICT (group_id) the row keeps its id and its sync columns. *)
Definition repo_UpsertRule (rule : UserGroupRule) : Op unit :=
  exec (with_rules (fun rs =>
    <[r_GroupID rule := match rs !! r_GroupID rule with
                        | Some old => mkUserGroupRule (r_ID old) (r_GroupID old) (Expr rule) (r_Status rule)
                                        (LastSyncAt old) (LastSyncAdded old) (LastSyncRemoved old) (LastSyncError old)
                        | None => rule
                        end]> rs)).

Definition repo_DeleteRule (groupID : Z) : Op unit := exec (with_rules (delete groupID)).

Definition MarkRuleSync (groupID added removed : Z) (err : option GErr) : Op unit :=
  exec (fun w => with_rules (fun rs =>
    match rs !! groupID with
    | Some r => <[groupID := mkUserGroupRule (r_ID r) (r_GroupID r) (Expr r) (r_Status r) (Some (wall w)) added removed err]> rs
    | None => rs
    end) w).

Section Service.
(** What the rule engine needs of the Go library, and the answer of the user
    tables to a query. *)
Context (TrimSpace : string -> string) (overflow : Q -> Z) (Sprint : Value -> string).
Context (run_sql : string -> list Value -> list Z).

Definition EvaluateRule (tenantID : Z) (cr : CompiledRule) : Op (list Z) :=
  select (fun _ => run_sql (buildEvaluateSQL cr) (GoInt tenantID :: Args cr)).

(** ** service.go *)

Definition requireGroup (scope : option Z) (groupID : Z) : Op UserGroup :=
  attempt (repo_GetByID scope groupID) (fun x =>
    match x with
    | Ok g => ret g
    | Err ErrRecordNotFound => throw ErrGroupNotFound
    | Err e => throw e
    end).

(** [validator]: whether the tenant-scoped user table knows the id. *)
Fixpoint requireUsersInTenant (validator : Z -> res GErr bool) (userIDs : list Z) : Op unit :=
  match userIDs with
  | [] => ret tt
  | uid :: rest =>
      match validator uid with
      | Err e => throw e
      | Ok false => throw ErrUserNotInTenant
      | Ok true => requireUsersInTenant validator rest
      end
  end.

Fixpoint new_members (groupID : Z) (uids : list Z) : Op (list UserGroupMember) :=
  match uids with
  | [] => ret []
  | uid :: rest =>
      let! id := new_id in
      let! ms := new_members groupID rest in
      ret (mkUserGroupMember id groupID uid :: ms)
  end.

Fixpoint publish_each (e : Z -> GEvent) (skipped uids : list Z) : Op unit :=
  match uids with
  | [] => ret tt
  | uid :: rest =>
      do! (if bool_decide (uid ∈ skipped) then ret tt else publish (e uid)) in publish_each e skipped rest
  end.

Definition AddMember (scope : option Z) (validator : Z -> res GErr bool) (groupID userID : Z) : Op unit :=
  let! g := requireGroup scope groupID in
  do! guard (g_Type g =? TypeDynamic) ErrGroupIsDynamic in
  do! requireUsersInTenant validator [userID] in
  let! id := new_id in
  do! repo_AddMember (mkUserGroupMember id groupID userID) in
  publish (GroupMemberAdded (g_TenantID g) groupID userID (g_Name g)).

(** The number of members affected and the ids skipped. *)
Definition AddMembers (scope : option Z) (validator : Z -> res GErr bool) (groupID : Z) (userIDs : list Z)
    : Op (Z * list Z) :=
  let! g := requireGroup scope groupID in
  do! guard (g_Type g =? TypeDynamic) ErrGroupIsDynamic in
  do! requireUsersInTenant validator userIDs in
  let! members := new_members groupID userIDs in
  let! skipped := repo_AddMembers groupID members in
  do! publish_each (fun uid => GroupMemberAdded (g_TenantID g) groupID uid (g_Name g)) skipped userIDs in
  ret (Z.of_nat (length userIDs) - Z.of_nat (length skipped), skipped).

Definition RemoveMember (scope : option Z) (groupID userID : Z) : Op unit :=
  let! g := requireGroup scope groupID in
  do! guard (g_Type g =? TypeDynamic) ErrGroupIsDynamic in
  do! repo_RemoveMember groupID userID in
  publish (GroupMemberRemoved (g_TenantID g) groupID userID (g_Name g)).

Definition RemoveMembers (scope : option Z) (groupID : Z) (userIDs : list Z) : Op (Z * list Z) :=
  let! g := requireGroup scope groupID in
  let! skipped := repo_RemoveMembers groupID userIDs in
  do! publish_each (fun uid => GroupMemberRemoved (g_TenantID g) groupID uid (g_Name g)) skipped userIDs in
  ret (Z.of_nat (length userIDs) - Z.of_nat (length skipped), skipped).

Definition DeleteGroup (scope : option Z) (live : Z -> bool) (id : Z) (force : bool) : Op unit :=
  attempt (repo_GetByID scope id) (fun x =>
    match x with
    | Err ErrRecordNotFound => ret tt
    | Err e => throw e
    | Ok g =>
        let! count := repo_CountMembers live id in
        do! guard ((0 <? count) && negb force) ErrGroupHasMembers in
        do! repo_Delete id in
        publish (GroupDeleted g)
    end).

(** ** rule_sync.go *)

Definition diffMembers (matched current : list Z) : list Z * list Z :=
  (filter (fun id => id ∉ current) matched, filter (fun id => id ∉ matched) current).

(** [_ = MarkRuleSync(...)], then the error. *)
Definition sync_failed {A} (groupID added : Z) (e : GErr) : Op A :=
  do! dropped (MarkRuleSync groupID added 0 (Some e)) in throw e.

(** [if err != nil { mark the failure; return err }] *)
Definition or_mark {A B} (groupID added : Z) (m : Op A) (k : A -> Op B) : Op B :=
  attempt m (fun x => match x with Ok a => k a | Err e => sync_failed groupID added e end).

(** After the rule row was read. *)
Definition sync_members (g : UserGroup) (groupID : Z) (compiled : CompiledRule) : Op SyncReport :=
  or_mark groupID 0 (EvaluateRule (g_TenantID g) compiled) (fun matched =>
    let! current := repo_AllMemberIDs groupID in
    let '(toAdd, toRemove) := diffMembers matched current in
    let added := Z.of_nat (length toAdd) in
    let removed := Z.of_nat (length toRemove) in
    let finish :=
      do! MarkRuleSync groupID added removed None in ret (mkSyncReport groupID added removed) in
    let remove :=
      if bool_decide (toRemove = []) then finish
      else or_mark groupID added (repo_RemoveMembers groupID toRemove) (fun _ => finish) in
    if bool_decide (toAdd = []) then remove
    else let! members := new_members groupID toAdd in
         or_mark groupID 0 (repo_AddMembers groupID members) (fun _ => remove)).

Definition syncRule (scope : option Z) (groupID : Z) : Op SyncReport :=
  let! g := requireGroup scope groupID in
  attempt (repo_GetRule groupID) (fun x =>
    match x with
    | Err ErrRecordNotFound => throw ErrRuleNotFound
    | Err e => throw e
    | Ok rule =>
        if negb (r_Status rule =? RuleEnabled) then ret (mkSyncReport groupID 0 0) else
        match ValidateRule TrimSpace overflow (Expr rule) with
        | Err e => sync_failed groupID 0 (ErrRule e)
        | Ok expr =>
            match Compile overflow Sprint expr with
            | Err e => sync_failed groupID 0 (ErrRule e)
            | Ok compiled => sync_members g groupID compiled
            end
        end
    end).

Definition SyncRule (scope : option Z) (groupID : Z) : Op SyncReport :=
  let! report := syncRule scope groupID in
  attempt (requireGroup scope groupID) (fun x =>
    do! match x with
        | Ok g => publish (GroupRuleSynced (g_TenantID g) (g_ID g) (g_Name g) (Some report))
        | Err _ => ret tt
        end in
    ret report).

Definition GetRule (scope : option Z) (groupID : Z) : Op UserGroupRule :=
  let! _ := requireGroup scope groupID in
  attempt (repo_GetRule groupID) (fun x =>
    match x with
    | Err ErrRecordNotFound => throw ErrRuleNotFound
    | Err e => throw e
    | Ok r => ret r
    end).

(** json.Marshal of a rule, as it decodes again. *)
Fixpoint marshal_value (v : Value) : Value :=
  match v with GoInt n => decode_int n | JArr l => JArr (map marshal_value l) | _ => v end.
Definition marshal (e : RuleExpr) : Raw :=
  RawDoc (mkRuleExpr (GroupRule.Op e) (map (fun c => mkRuleCondition (Field c) (Cmp c) (marshal_value (CValue c))) (Conditions e))).

Definition set_type (t : Z) (g : UserGroup) : UserGroup :=
  mkUserGroup (g_ID g) (g_TenantID g) (g_Name g) (g_Code g) (g_Description g) t (g_Deleted g).

(** A failed first sync keeps the rule and returns the error. *)
Definition UpsertRule (scope : option Z) (groupID : Z) (expr : RuleExpr) : Op UserGroupRule :=
  let! g := requireGroup scope groupID in
  let! id := new_id in
  do! repo_UpsertRule (mkUserGroupRule id groupID (marshal expr) RuleEnabled None 0 0 None) in
  let g' := set_type TypeDynamic g in
  do! (if g_Type g =? TypeDynamic then ret tt else repo_Update g') in
  let! report := syncRule scope groupID in
  do! publish (GroupRuleUpdated (g_TenantID g) (g_ID g) (g_Name g) (Some report)) in
  repo_GetRule groupID.

Definition DeleteRule (scope : option Z) (groupID : Z) : Op unit :=
  let! g := requireGroup scope groupID in
  do! repo_DeleteRule groupID in
  do! (if g_Type g =? TypeStatic then ret tt else repo_Update (set_type TypeStatic g)) in
  publish (GroupRuleDeleted (g_TenantID g) (g_ID g) (g_Name g) None).

(** org_sync.go: every dynamic group of the tenant, errors skipped. *)
Fixpoint resync_each (scope : option Z) (ids : list Z) : Op unit :=
  match ids with
  | [] => ret tt
  | gid :: rest => do! dropped (syncRule scope gid) in resync_each scope rest
  end.

Definition ResyncTenantDynamicGroups (tenantID : Z) : Op unit :=
  attempt (repo_ListDynamicGroupIDs tenantID) (fun x =>
    match x with
    | Err _ => ret tt
    | Ok ids => resync_each (Some tenantID) ids
    end).
End Service.
End Groups.
Arguments GWorld : clear implicits.
