(* ===== verification/GroupSyncProps.v ===== *)
(** * GroupSyncProps: a sync makes the membership what the rule says

    After a sync that succeeds, whatever statements failed before, the members of
    the group are exactly the users the query answered; a tenant-wide resync
    brings every dynamic group there; and what the sync does not tell others. *)

From Stdlib Require Import QArith.
From S2P Require Import Prelude Text GroupRule GroupSync.
#[global] Open Scope Z_scope.

Section Props.
Context {G : Type} `{!IdGen G}.

Abbreviation GStore := (Store (GWorld G)).
Abbreviation Op := (M GStore GErr).

(** ** Statements *)

Lemma select_ok {A} (f : GWorld G -> A) s s' a : select f s = (s', Ok a) -> a = f (sdb s) /\ sdb s' = sdb s /\ sfail s' = sfail s.
Proof.
  unfold select. intros (w & s1 & Hq & Hr)%bind_ok. apply query_ok in Hq as (-> & _ & ->).
  unfold ret in Hr. by simplify_eq.
Qed.

Lemma exec_ok (f : GWorld G -> GWorld G) s s' u : exec f s = (s', Ok u) -> sdb s' = f (sdb s) /\ sfail s' = sfail s.
Proof.
  unfold exec. intros (w & s1 & Hq & Hr)%bind_ok. apply query_ok in Hq as (_ & _ & ->).
  unfold write, modify in Hr. by simplify_eq.
Qed.

(** Everything but the members, the id generator and the sync columns of a rule. *)
Record frame (w w' : GWorld G) : Prop := {
  fr_groups : ugroups w' = ugroups w;
  fr_rules : forall gid, (fun r => (Expr r, r_Status r)) <$> urules w' !! gid = (fun r => (Expr r, r_Status r)) <$> urules w !! gid;
  fr_bus : bus w' = bus w;
  fr_wall : wall w' = wall w
}.

Lemma frame_refl w : frame w w.
Proof. done. Qed.

Lemma frame_trans w1 w2 w3 : frame w1 w2 -> frame w2 w3 -> frame w1 w3.
Proof. intros [A1 A2 A3 A4] [B1 B2 B3 B4]. split; [congruence | | congruence | congruence]. intros gid. by rewrite B2, A2. Qed.

Lemma frame_eq w w' : w' = w -> frame w w'.
Proof. by intros ->. Qed.

(** ** Members *)

Lemma members_of_spec gid u (w : GWorld G) : u ∈ members_of gid w <-> is_Some (umembers w !! (gid, u)).
Proof.
  unfold members_of. split.
  - intros Hin. apply list_elem_of_In, in_map_iff in Hin as (p & Hu & Hp%list_elem_of_In).
    apply list_elem_of_filter in Hp as [Hg Hp]. destruct p as [[g' u'] m]. cbn in *. subst.
    apply elem_of_map_to_list in Hp. by exists m.
  - intros [m Hm]. apply list_elem_of_In, in_map_iff. exists ((gid, u), m). split; [done|].
    apply list_elem_of_In, list_elem_of_filter. split; [done|]. by apply elem_of_map_to_list.
Qed.

Lemma new_members_ok gid uids (s s' : GStore) x :
  new_members gid uids s = (s', x) ->
  exists ms, x = Ok ms /\ map m_UserID ms = uids /\ (forall m, m ∈ ms -> m_GroupID m = gid)
  /\ frame (sdb s) (sdb s') /\ umembers (sdb s') = umembers (sdb s) /\ urules (sdb s') = urules (sdb s) /\ sfail s' = sfail s.
Proof.
  revert s s' x. induction uids as [|uid uids IH]; intros s s' x; cbn [new_members].
  - unfold ret. intros [= <- <-]. exists []. split_and!; [done | done | | done..]. intros m Hm. by apply elem_of_nil in Hm.
  - unfold new_id. unfold bind at 1. destruct (Generate (idGen (sdb s))) as [g' id]. unfold bind.
    destruct (new_members gid uids _) as [s2 y] eqn:Hr.
    destruct (IH _ _ _ Hr) as (ms & -> & Hu & Hg & Hf & Hm & Hru & Hfail). unfold ret. intros [= <- <-].
    eexists. split; [done|]. cbn [map m_UserID]. split_and!; [by rewrite Hu | | | done | done | done].
    + intros m [->|Hin]%elem_of_cons; [done | by apply Hg].
    + eapply frame_trans; [|exact Hf]. done.
Qed.

Lemma insert_members_lookup (ms : list UserGroupMember) (acc : gmap (Z * Z) UserGroupMember) k :
  (forall m, acc !! k = Some m -> fold_left (fun a m => insert_member m a) ms acc !! k = Some m)
  /\ (acc !! k = None -> is_Some (fold_left (fun a m => insert_member m a) ms acc !! k)
                         <-> exists m, m ∈ ms /\ (m_GroupID m, m_UserID m) = k).
Proof.
  revert acc. induction ms as [|m0 ms IH]; intros acc; cbn [fold_left].
  - split; [done|]. intros ->. split; [by intros [? ?] | intros (m & Hm & _); by apply elem_of_nil in Hm].
  - destruct (IH (insert_member m0 acc)) as [IH1 IH2].
    destruct (acc !! (m_GroupID m0, m_UserID m0)) as [old|] eqn:Hold.
    + assert (insert_member m0 acc = acc) as Heq by (unfold insert_member; by rewrite Hold). rewrite Heq in *.
      split; [exact IH1|]. intros Hnone. rewrite (IH2 Hnone). split.
      * intros (m & Hm & Hk). exists m. split; [by right | done].
      * intros (m & [->|Hm]%elem_of_cons & Hk); [congruence | by exists m].
    + assert (insert_member m0 acc = <[(m_GroupID m0, m_UserID m0) := m0]> acc) as Heq
        by (unfold insert_member; by rewrite Hold). rewrite Heq in *. split.
      * intros m Hm. apply IH1. rewrite lookup_insert_ne; [done|]. intros <-. congruence.
      * intros Hnone. destruct (decide ((m_GroupID m0, m_UserID m0) = k)) as [<-|Hne].
        -- split; [|intros _; rewrite (IH1 m0); [by eexists | by rewrite lookup_insert_eq]].
           intros _. exists m0. split; [by left | done].
        -- rewrite IH2 by (by rewrite lookup_insert_ne). split.
           ++ intros (m & Hm & Hk). exists m. split; [by right | done].
           ++ intros (m & [->|Hm]%elem_of_cons & Hk); [done | by exists m].
Qed.

(** What AddMembers did: the members asked for are there, rows that were there are
    the same rows. *)
Lemma repo_AddMembers_ok gid ms s s' sk :
  (forall m, m ∈ ms -> m_GroupID m = gid) -> repo_AddMembers gid ms s = (s', Ok sk) ->
  frame (sdb s) (sdb s') /\ urules (sdb s') = urules (sdb s) /\ sfail s' = sfail s
  /\ (forall k m, umembers (sdb s) !! k = Some m -> umembers (sdb s') !! k = Some m)
  /\ (forall k, umembers (sdb s) !! k = None -> is_Some (umembers (sdb s') !! k) <-> k.1 = gid /\ k.2 ∈ map m_UserID ms).
Proof.
  intros Hgid. unfold repo_AddMembers. case_bool_decide as Hms.
  { unfold ret. intros [= <- _]. subst ms. split_and!; [done..|]. intros k ->. cbn. split; [by intros [? ?]|].
    intros [_ H]. by apply elem_of_nil in H. }
  intros (existing & s1 & Hsel & Hr)%bind_ok. apply select_ok in Hsel as (Hex & Hd & Hf).
  set (toInsert := filter (fun m => m_UserID m ∉ existing) ms) in Hr.
  assert (forall k, (exists m, m ∈ toInsert /\ (m_GroupID m, m_UserID m) = k) -> k.1 = gid /\ k.2 ∈ map m_UserID ms) as Hto.
  { intros k (m & Hm & <-). apply list_elem_of_filter in Hm as [_ Hm]. split; [by apply Hgid|]. cbn.
    apply list_elem_of_In, in_map, list_elem_of_In, Hm. }
  assert (forall k, umembers (sdb s) !! k = None -> k.1 = gid -> k.2 ∈ map m_UserID ms ->
    exists m, m ∈ toInsert /\ (m_GroupID m, m_UserID m) = k) as Hfrom.
  { intros [g u] Hnone Hg Hu. cbn in Hg, Hu. apply list_elem_of_In, in_map_iff in Hu as (m & Hmu & Hm%list_elem_of_In).
    exists m. split; [|rewrite (Hgid m Hm); congruence]. apply list_elem_of_filter. split; [|done].
    subst existing. intros [_ Hx]%list_elem_of_filter. apply members_of_spec in Hx.
    rewrite Hmu, <- Hg in Hx. rewrite Hnone in Hx. by destruct Hx. }
  case_bool_decide as Hnil.
  - unfold ret in Hr. injection Hr as <- _. rewrite Hd. split_and!; [done | done | done | done|].
    intros k Hk. rewrite Hk. split; [by intros [? ?]|]. intros [Hg Hu].
    destruct (Hfrom k Hk Hg Hu) as (m & Hm & _). rewrite Hnil in Hm. by apply elem_of_nil in Hm.
  - apply bind_ok in Hr as (u & s2 & He & Hr). apply exec_ok in He as [He Hf2]. unfold ret in Hr. injection Hr as <- _.
    rewrite He, Hd. cbn. split_and!; [done | done | congruence | |].
    + intros k m Hm. by apply insert_members_lookup.
    + intros k Hk. rewrite (proj2 (insert_members_lookup toInsert (umembers (sdb s)) k) Hk). split; [apply Hto|].
      intros [Hg Hu]. by apply Hfrom.
Qed.

(** What RemoveMembers did: exactly the rows of these users in this group are gone. *)
Lemma repo_RemoveMembers_ok gid uids s s' sk :
  repo_RemoveMembers gid uids s = (s', Ok sk) ->
  frame (sdb s) (sdb s') /\ urules (sdb s') = urules (sdb s) /\ sfail s' = sfail s
  /\ forall k, umembers (sdb s') !! k = if decide (k.1 = gid /\ k.2 ∈ uids) then None else umembers (sdb s) !! k.
Proof.
  unfold repo_RemoveMembers. case_bool_decide as Hu.
  { unfold ret. intros [= <- _]. subst uids. split_and!; [done..|]. intros k. rewrite decide_False; [done|].
    intros [_ H]. by apply elem_of_nil in H. }
  intros (existing & s1 & Hsel & Hr)%bind_ok. apply select_ok in Hsel as (Hex & Hd & Hf).
  set (toDelete := filter (fun u => u ∈ existing) uids) in Hr.
  assert (forall k, k.1 = gid -> k.2 ∈ uids -> k.2 ∉ toDelete -> umembers (sdb s) !! k = None) as Habsent.
  { intros [g u] Hg Hin Hnot. cbn in *. destruct (umembers (sdb s) !! (g, u)) as [m|] eqn:Hm; [|done].
    destruct Hnot. apply list_elem_of_filter. split; [|done]. subst existing g. apply list_elem_of_filter. split; [done|].
    apply members_of_spec. by exists m. }
  case_bool_decide as Hnil.
  - unfold ret in Hr. injection Hr as <- _. rewrite Hd. split_and!; [done | done | done|]. intros k.
    destruct (decide _) as [[Hg Hin]|]; [|done]. apply Habsent; [done | done|]. rewrite Hnil. apply not_elem_of_nil.
  - apply bind_ok in Hr as (u & s2 & He & Hr). apply exec_ok in He as [He Hf2]. unfold ret in Hr. injection Hr as <- _.
    rewrite He, Hd. cbn. split_and!; [done | done | congruence|]. intros k. rewrite map_lookup_filter.
    destruct (umembers (sdb s) !! k) as [m|] eqn:Hm; cbn; [|by destruct (decide _)].
    destruct (decide (k.1 = gid /\ k.2 ∈ uids)) as [[Hg Hin]|Hno].
    + rewrite option_guard_False; [done|]. intros Hx. apply Hx. split; [done|].
      destruct (decide (k.2 ∈ toDelete)) as [|Hnot]; [done|]. by rewrite (Habsent k Hg Hin Hnot) in Hm.
    + rewrite option_guard_True; [done|]. intros [Hg Hin]. apply Hno. split; [done|].
      by apply list_elem_of_filter in Hin as [_ ?].
Qed.

Lemma MarkRuleSync_ok gid a r e s s' u :
  MarkRuleSync gid a r e s = (s', Ok u) ->
  frame (sdb s) (sdb s') /\ umembers (sdb s') = umembers (sdb s) /\ sfail s' = sfail s
  /\ forall rule, urules (sdb s) !! gid = Some rule ->
     urules (sdb s') !! gid = Some (mkUserGroupRule (r_ID rule) (r_GroupID rule) (Expr rule) (r_Status rule) (Some (wall (sdb s))) a r e).
Proof.
  unfold MarkRuleSync. intros [He Hf]%exec_ok. rewrite He. cbn. split_and!; [| done | done |].
  - split; [done | | done | done]. intros g. cbn. destruct (urules (sdb s) !! gid) as [rule|] eqn:Hr; [|done].
    destruct (decide (gid = g)) as [<-|Hne]; [|by rewrite lookup_insert_ne]. by rewrite lookup_insert_eq, Hr.
  - intros rule ->. by rewrite lookup_insert_eq.
Qed.

Lemma or_mark_ok {A B} gid a (m : Op A) (k : A -> Op B) s s' b :
  or_mark gid a m k s = (s', Ok b) -> exists s1 x, m s = (s1, Ok x) /\ k x s1 = (s', Ok b).
Proof.
  unfold or_mark, attempt. destruct (m s) as [s1 [x|e]]; [eauto|].
  unfold sync_failed, throw, bind. destruct (dropped _ s1) as [s2 [u|e']]; by intros ?.
Qed.

(** ** What every run of a sync leaves alone, whatever its answer *)

Definition framed (gid : Z) (w w' : GWorld G) : Prop :=
  frame w w' /\ forall k, k.1 <> gid -> umembers w' !! k = umembers w !! k.

Definition local_to {A} (gid : Z) (m : Op A) : Prop :=
  forall s s' x, m s = (s', x) -> framed gid (sdb s) (sdb s') /\ sfail s' = sfail s.

Lemma framed_refl gid w : framed gid w w.
Proof. done. Qed.

Lemma framed_trans gid w1 w2 w3 : framed gid w1 w2 -> framed gid w2 w3 -> framed gid w1 w3.
Proof.
  intros [F1 M1] [F2 M2]. split; [by eapply frame_trans|]. intros k Hk. by rewrite M2, M1.
Qed.

Lemma local_ret {A} gid (a : A) : local_to gid (ret a).
Proof. unfold ret. intros s s' x [= <- <-]. done. Qed.
Lemma local_throw {A} gid e : local_to gid (throw (A := A) e).
Proof. unfold throw. intros s s' x [= <- <-]. done. Qed.
Lemma local_query gid : local_to gid (query ErrDB).
Proof. intros s s' x [= <- <-]. done. Qed.
Lemma local_bind {A B} gid (m : Op A) (k : A -> Op B) : local_to gid m -> (forall a, local_to gid (k a)) -> local_to gid (bind m k).
Proof.
  intros Hm Hk s s' x [(e & Hr & ->)|(a & s1 & H1 & H2)]%bind_cases; [by eapply Hm|].
  apply Hm in H1 as [F1 E1]. apply Hk in H2 as [F2 E2]. split; [by eapply framed_trans | congruence].
Qed.
Lemma local_attempt {A B} gid (m : Op A) (k : res GErr A -> Op B) :
  local_to gid m -> (forall a, local_to gid (k a)) -> local_to gid (attempt m k).
Proof.
  intros Hm Hk s s' x. unfold attempt. destruct (m s) as [s1 y] eqn:H1. intros H2.
  apply Hm in H1 as [F1 E1]. apply Hk in H2 as [F2 E2]. split; [by eapply framed_trans | congruence].
Qed.
Lemma local_select {A} gid (f : GWorld G -> A) : local_to gid (select f).
Proof. apply local_bind; [apply local_query | intros w; apply local_ret]. Qed.
Lemma local_exec gid f : (forall w, framed gid w (f w)) -> local_to gid (exec f).
Proof.
  intros Hf. apply local_bind; [apply local_query|]. intros w s s' x. unfold write, modify. intros [= <- _]. split; [apply Hf | done].
Qed.
Lemma local_if {A} gid (b : bool) (m1 m2 : Op A) : local_to gid m1 -> local_to gid m2 -> local_to gid (if b then m1 else m2).
Proof. by destruct b. Qed.

Hint Resolve local_ret local_throw local_query local_select local_if : core.

Lemma local_mark gid a r e : local_to gid (MarkRuleSync gid a r e).
Proof.
  apply local_exec. intros w. split; [|done]. split; [done | | done | done]. intros g. cbn.
  destruct (urules w !! gid) as [rule|] eqn:Hr; [|done].
  destruct (decide (gid = g)) as [<-|Hne]; [by rewrite lookup_insert_eq, Hr | by rewrite lookup_insert_ne].
Qed.

Lemma local_failed {A} gid a e : local_to gid (sync_failed (A := A) gid a e).
Proof.
  apply local_bind; [|done]. apply local_attempt; [apply local_mark | done].
Qed.

Lemma local_or_mark {A B} gid a (m : Op A) (k : A -> Op B) :
  local_to gid m -> (forall x, local_to gid (k x)) -> local_to gid (or_mark gid a m k).
Proof. intros Hm Hk. apply local_attempt; [done|]. intros [x|e]; [apply Hk | apply local_failed]. Qed.

Lemma local_add gid ms : (forall m, m ∈ ms -> m_GroupID m = gid) -> local_to gid (repo_AddMembers gid ms).
Proof.
  intros Hgid. apply local_if; [done|]. apply local_bind; [done|]. intros existing. apply local_if; [done|].
  apply local_bind; [|done]. apply local_exec. intros w. split; [done|]. intros k Hk. cbn.
  set (toInsert := filter _ ms).
  destruct (insert_members_lookup toInsert (umembers w) k) as [Hsome Hnone].
  destruct (umembers w !! k) as [m|] eqn:Hm; [by apply Hsome|].
  apply eq_None_not_Some. intros Hs%Hnone; [|done]. destruct Hs as (m & Hin & <-). apply Hk. cbn. apply Hgid.
  by apply list_elem_of_filter in Hin as [_ ?].
Qed.

Lemma local_remove gid uids : local_to gid (repo_RemoveMembers gid uids).
Proof.
  apply local_if; [done|]. apply local_bind; [done|]. intros existing. apply local_if; [done|].
  apply local_bind; [|done]. apply local_exec. intros w. split; [done|]. intros k Hk. cbn. rewrite map_lookup_filter.
  destruct (umembers w !! k) as [m|]; [|done]. cbn. rewrite option_guard_True; [done|]. by intros [? _].
Qed.

Section Service.
Context (TrimSpace : string -> string) (overflow : Q -> Z) (Sprint : Value -> string).
Context (run_sql : string -> list Value -> list Z).

Abbreviation sync := (syncRule TrimSpace overflow Sprint run_sql).

Lemma local_GetByID gid scope id : local_to gid (repo_GetByID scope id).
Proof. apply local_bind; [done|]. intros w. case_match; auto. Qed.
Lemma local_require gid scope id : local_to gid (requireGroup scope id).
Proof. apply local_attempt; [apply local_GetByID|]. intros [g|[]]; auto. Qed.

Lemma local_members gid g cr : local_to gid (sync_members run_sql g gid cr).
Proof.
  unfold sync_members. apply local_or_mark; [apply local_select|]. intros matched.
  apply local_bind; [apply local_select|]. intros current. destruct (diffMembers matched current) as [toAdd toRemove].
  set (finish := bind (MarkRuleSync _ _ _ _) _).
  assert (local_to gid finish) as Hfin by (apply local_bind; [apply local_mark | done]).
  assert (local_to gid (if bool_decide (toRemove = []) then finish
    else or_mark gid (Z.of_nat (length toAdd)) (repo_RemoveMembers gid toRemove) (fun _ => finish))) as Hrem.
  { apply local_if; [done|]. apply local_or_mark; [apply local_remove | done]. }
  apply local_if; [done|]. intros s s' x [(e & Hr & ->)|(ms & s1 & H1 & H2)]%bind_cases.
  - apply new_members_ok in Hr as (ms & ? & _). done.
  - apply new_members_ok in H1 as (ms' & [= <-] & _ & Hgid & Hf & Hm & _ & Hfail).
    apply (local_or_mark gid 0 _ _ (local_add gid ms Hgid) (fun _ => Hrem)) in H2 as [F2 E2].
    split; [|congruence]. eapply framed_trans; [|exact F2]. split; [done|]. intros k _. by rewrite Hm.
Qed.

Lemma local_syncRule gid scope : local_to gid (sync scope gid).
Proof.
  unfold syncRule. apply local_bind; [apply local_require|]. intros g. apply local_attempt.
  - apply local_bind; [done|]. intros w. case_match; auto.
  - intros [rule|[]]; auto. apply local_if; [done|].
    destruct (ValidateRule _ _ _); [|apply local_failed]. destruct (Compile _ _ _); [|apply local_failed].
    apply local_members.
Qed.

(** ** What a successful sync did *)

(** The members of [gid] are [matched]; rows that stay are the same rows. *)
Definition synced (gid : Z) (matched : list Z) (w w' : GWorld G) : Prop :=
  framed gid w w'
  /\ (forall u, is_Some (umembers w' !! (gid, u)) <-> u ∈ matched)
  /\ forall u m, u ∈ matched -> umembers w !! (gid, u) = Some m -> umembers w' !! (gid, u) = Some m.

(** The two steps on the member table. *)
Lemma added_removed gid matched (w w1 w2 : GWorld G) :
  let '(toAdd, toRemove) := diffMembers matched (members_of gid w) in
  (forall k m, umembers w !! k = Some m -> umembers w1 !! k = Some m) ->
  (forall k, umembers w !! k = None -> is_Some (umembers w1 !! k) <-> k.1 = gid /\ k.2 ∈ toAdd) ->
  (forall k, umembers w2 !! k = if decide (k.1 = gid /\ k.2 ∈ toRemove) then None else umembers w1 !! k) ->
  (forall u, is_Some (umembers w2 !! (gid, u)) <-> u ∈ matched)
  /\ forall u m, u ∈ matched -> umembers w !! (gid, u) = Some m -> umembers w2 !! (gid, u) = Some m.
Proof.
  unfold diffMembers. intros Hold Hnew Hrem.
  assert (forall u, u ∈ filter (fun id => id ∉ matched) (members_of gid w) <-> u ∉ matched /\ is_Some (umembers w !! (gid, u))) as Hr.
  { intros u. rewrite list_elem_of_filter, members_of_spec. done. }
  assert (forall u m, u ∈ matched -> umembers w !! (gid, u) = Some m -> umembers w2 !! (gid, u) = Some m) as Hkeep.
  { intros u m Hu Hm. rewrite Hrem, decide_False; [by apply Hold|]. cbn. rewrite Hr. by intros (_ & H & _). }
  split; [|exact Hkeep]. intros u. destruct (umembers w !! (gid, u)) as [m|] eqn:Hm.
  - split; [|intros Hu; rewrite (Hkeep u m Hu Hm); by eexists]. intros Hs. destruct (decide (u ∈ matched)) as [|Hn]; [done|].
    rewrite Hrem, decide_True in Hs; [by destruct Hs|]. cbn. split; [done|]. apply Hr. split; [done | by exists m].
  - rewrite Hrem, decide_False by (cbn; rewrite Hr, Hm; by intros (_ & _ & [? ?])).
    rewrite (Hnew (gid, u) Hm). cbn. rewrite list_elem_of_filter, members_of_spec, Hm. split; [tauto|].
    intros Hu. split; [done|]. split; [by intros [? ?] | done].
Qed.

Lemma sync_members_ok g gid cr s s' rep :
  sync_members run_sql g gid cr s = (s', Ok rep) ->
  let matched := run_sql (buildEvaluateSQL cr) (GoInt (g_TenantID g) :: Args cr) in
  let '(toAdd, toRemove) := diffMembers matched (members_of gid (sdb s)) in
  synced gid matched (sdb s) (sdb s')
  /\ rep = mkSyncReport gid (Z.of_nat (length toAdd)) (Z.of_nat (length toRemove))
  /\ forall rule, urules (sdb s) !! gid = Some rule ->
     urules (sdb s') !! gid = Some (mkUserGroupRule (r_ID rule) (r_GroupID rule) (Expr rule) (r_Status rule)
       (Some (wall (sdb s))) (Z.of_nat (length toAdd)) (Z.of_nat (length toRemove)) None).
Proof.
  intros Hrun matched. pose proof (local_members gid g cr s s' _ Hrun) as [Hframe _].
  destruct (diffMembers matched (members_of gid (sdb s))) as [toAdd toRemove] eqn:Hdiff.
  unfold sync_members in Hrun. apply or_mark_ok in Hrun as (s1 & m0 & He & Hrun).
  apply select_ok in He as (-> & Hd1 & _). fold matched in Hrun.
  apply bind_ok in Hrun as (cur & s2 & Hc & Hrun). apply select_ok in Hc as (-> & Hd2 & _).
  rewrite Hd1, Hdiff in Hrun. rewrite Hd1 in Hd2.
  set (finish := bind (MarkRuleSync _ _ _ _) _) in Hrun.
  assert (exists s3, frame (sdb s) (sdb s3) /\ urules (sdb s3) = urules (sdb s)
    /\ (forall k m, umembers (sdb s) !! k = Some m -> umembers (sdb s3) !! k = Some m)
    /\ (forall k, umembers (sdb s) !! k = None -> is_Some (umembers (sdb s3) !! k) <-> k.1 = gid /\ k.2 ∈ toAdd)
    /\ (if bool_decide (toRemove = []) then finish
        else or_mark gid (Z.of_nat (length toAdd)) (repo_RemoveMembers gid toRemove) (fun _ => finish)) s3 = (s', Ok rep))
    as (s3 & F3 & R3 & Old3 & New3 & Hrun3).
  { case_bool_decide as Hnil.
    - exists s2. rewrite Hd2. split_and!; [done | done | done | | exact Hrun]. intros k ->. subst toAdd.
      split; [by intros [? ?]|]. intros [_ H]. by apply elem_of_nil in H.
    - apply bind_ok in Hrun as (ms & s3 & Hn & Hrun).
      apply new_members_ok in Hn as (ms' & [= <-] & Hu & Hgid & Hf & Hm & Hru & _).
      apply or_mark_ok in Hrun as (s4 & sk & Ha & Hrun).
      apply repo_AddMembers_ok in Ha as (Hf4 & Hr4 & _ & Old & New); [|exact Hgid]. exists s4.
      rewrite Hd2 in Hf, Hm, Hru. rewrite Hu in New. rewrite Hm in Old, New.
      split_and!; [by eapply frame_trans | congruence | exact Old | exact New | exact Hrun]. }
  assert (exists s4, frame (sdb s) (sdb s4) /\ urules (sdb s4) = urules (sdb s)
    /\ (forall k, umembers (sdb s4) !! k = if decide (k.1 = gid /\ k.2 ∈ toRemove) then None else umembers (sdb s3) !! k)
    /\ finish s4 = (s', Ok rep)) as (s4 & F4 & R4 & Rem4 & Hfin).
  { case_bool_decide as Hnil.
    - exists s3. split_and!; [done | done | | exact Hrun3]. intros k. rewrite decide_False; [done|]. subst toRemove.
      intros [_ H]. by apply elem_of_nil in H.
    - apply or_mark_ok in Hrun3 as (s4 & sk & Hr & Hrun4). apply repo_RemoveMembers_ok in Hr as (Hf & Hru & _ & Hl).
      exists s4. split_and!; [by eapply frame_trans | congruence | exact Hl | exact Hrun4]. }
  unfold finish in Hfin. apply bind_ok in Hfin as (u & s5 & Hmark & Hret). unfold ret in Hret. injection Hret as <- <-.
  apply MarkRuleSync_ok in Hmark as (_ & Hm5 & _ & Hrule).
  pose proof (added_removed gid matched (sdb s) (sdb s3) (sdb s4)) as Hstep. rewrite Hdiff in Hstep.
  destruct (Hstep Old3 New3 Rem4) as [Hiff Hkeep]. rewrite <- Hm5 in Hiff. split_and!.
  - split; [exact Hframe|]. split; [exact Hiff|]. intros u0 m Hu Hm. rewrite Hm5. by apply Hkeep.
  - done.
  - intros rule Hru. rewrite <- (fr_wall _ _ F4). apply Hrule. by rewrite R4.
Qed.

Lemma requireGroup_ok scope gid (s s' : GStore) g :
  requireGroup scope gid s = (s', Ok g) -> sdb s' = sdb s /\ ugroups (sdb s) !! gid = Some g /\ in_scope scope g = true.
Proof.
  unfold requireGroup, attempt. destruct (repo_GetByID scope gid s) as [s1 [g'|e]] eqn:Hg; [|destruct e; by intros ?].
  unfold ret. intros [= <- <-]. unfold repo_GetByID in Hg. apply bind_ok in Hg as (w & s2 & Hq & Hg).
  apply query_ok in Hq as (-> & _ & ->). destruct (ugroups (sdb s) !! gid) as [g0|]; [|done].
  destruct (in_scope scope g0) eqn:Hs; [|done]. unfold ret in Hg. by simplify_eq/=.
Qed.

(** A successful sync makes the membership what the rule says. Whatever
    statements fail on the way, when a sync of an enabled rule answers without an
    error the members of the group are exactly the users the compiled query
    matched; members that stay keep their rows; no other group's members, no
    group and no rule expression changed; the counts are reported and recorded;
    and no event was published, for the members removed neither. *)
Theorem sync_makes_membership_match scope gid (s s' : GStore) rep rule :
  sync scope gid s = (s', Ok rep) -> urules (sdb s) !! gid = Some rule -> r_Status rule = RuleEnabled ->
  exists g expr cr,
    ugroups (sdb s) !! gid = Some g /\ in_scope scope g = true
    /\ ValidateRule TrimSpace overflow (Expr rule) = Ok expr /\ Compile overflow Sprint expr = Ok cr
    /\ let matched := run_sql (buildEvaluateSQL cr) (GoInt (g_TenantID g) :: Args cr) in
       let '(toAdd, toRemove) := diffMembers matched (members_of gid (sdb s)) in
       synced gid matched (sdb s) (sdb s')
       /\ rep = mkSyncReport gid (Z.of_nat (length toAdd)) (Z.of_nat (length toRemove))
       /\ urules (sdb s') !! gid = Some (mkUserGroupRule (r_ID rule) (r_GroupID rule) (Expr rule) (r_Status rule)
            (Some (wall (sdb s))) (Z.of_nat (length toAdd)) (Z.of_nat (length toRemove)) None)
       /\ bus (sdb s') = bus (sdb s).
Proof.
  intros Hrun Hrule Hst. unfold syncRule in Hrun. apply bind_ok in Hrun as (g & s1 & Hg & Hrun).
  apply requireGroup_ok in Hg as (Hd & Hg & Hscope). unfold attempt in Hrun.
  destruct (repo_GetRule gid s1) as [s2 y] eqn:Hget. unfold repo_GetRule in Hget.
  destruct (bind_cases _ _ _ _ _ Hget) as [(e & Hq & ->)|(w & s3 & Hq & Hr)].
  { apply query_err in Hq as (_ & -> & _). done. }
  apply query_ok in Hq as (-> & _ & ->). rewrite Hd, Hrule in Hr. unfold ret in Hr. injection Hr as <- <-.
  rewrite Hst in Hrun. cbn [negb Z.eqb RuleEnabled] in Hrun.
  change (negb (RuleEnabled =? RuleEnabled)) with false in Hrun. cbv iota in Hrun.
  assert (forall (A : Type) a e (st st' : GStore) (b : A), sync_failed gid a e st = (st', Ok b) -> False) as Hno.
  { intros A a e st st' b. unfold sync_failed, throw, bind. by destruct (dropped _ st) as [st2 [v|e']]. }
  destruct (ValidateRule TrimSpace overflow (Expr rule)) as [expr|e] eqn:Hv; [|by apply Hno in Hrun].
  destruct (Compile overflow Sprint expr) as [cr|e] eqn:Hc; [|by apply Hno in Hrun].
  apply sync_members_ok in Hrun. cbn [sdb] in Hrun.
  exists g, expr, cr. split_and!; [done | done | done | done|]. cbn zeta.
  destruct (diffMembers _ _) as [toAdd toRemove]. destruct Hrun as (H1 & H2 & H3).
  split_and!; [done | done | by apply H3 | by apply H1].
Qed.

(** ** When the database answers *)

Definition working (s : GStore) : Prop := forall n, sfail s n = false.

Definition runs {A} (m : Op A) : Prop := forall s, working s -> exists s' a, m s = (s', Ok a) /\ working s'.

Lemma sync_runs_ret {A} (a : A) : runs (ret a).
Proof. intros s Hw. eexists _, _. split; [done | exact Hw]. Qed.
Lemma sync_runs_bind {A B} (m : Op A) (k : A -> Op B) : runs m -> (forall a, runs (k a)) -> runs (bind m k).
Proof.
  intros Hm Hk s Hw. destruct (Hm s Hw) as (s1 & a & H1 & Hw1). destruct (Hk a s1 Hw1) as (s2 & b & H2 & Hw2).
  exists s2, b. split; [|done]. by rewrite (bind_ok_run _ _ _ _ _ H1).
Qed.
Lemma sync_runs_query : runs (query ErrDB).
Proof. intros s Hw. unfold query. rewrite (Hw (scalls s)). eexists _, _. split; [done | exact Hw]. Qed.
Lemma sync_runs_select {A} (f : GWorld G -> A) : runs (select f).
Proof. apply sync_runs_bind; [apply sync_runs_query | intros w; apply sync_runs_ret]. Qed.
Lemma sync_runs_exec f : runs (exec f).
Proof. apply sync_runs_bind; [apply sync_runs_query|]. intros w s Hw. eexists _, _. split; [done | exact Hw]. Qed.
Lemma runs_if {A} (b : bool) (m1 m2 : Op A) : runs m1 -> runs m2 -> runs (if b then m1 else m2).
Proof. by destruct b. Qed.
Lemma runs_or_mark {A B} gid a (m : Op A) (k : A -> Op B) : runs m -> (forall x, runs (k x)) -> runs (or_mark gid a m k).
Proof.
  intros Hm Hk s Hw. destruct (Hm s Hw) as (s1 & x & H1 & Hw1). destruct (Hk x s1 Hw1) as (s2 & b & H2 & Hw2).
  exists s2, b. split; [|done]. unfold or_mark, attempt. by rewrite H1.
Qed.
Lemma runs_new_members gid uids : runs (new_members gid uids).
Proof.
  intros s Hw. destruct (new_members gid uids s) as [s' x] eqn:Hr.
  apply new_members_ok in Hr as (ms & -> & _ & _ & _ & _ & _ & Hf). exists s', ms. split; [done|]. intros n. by rewrite Hf.
Qed.

Lemma runs_remove gid uids : runs (repo_RemoveMembers gid uids).
Proof.
  apply runs_if; [apply sync_runs_ret|]. apply sync_runs_bind; [apply sync_runs_select|]. intros ex.
  apply runs_if; [apply sync_runs_ret|]. apply sync_runs_bind; [apply sync_runs_exec | intros; apply sync_runs_ret].
Qed.

Lemma runs_sync_members g gid cr : runs (sync_members run_sql g gid cr).
Proof.
  unfold sync_members. apply runs_or_mark; [apply sync_runs_select|]. intros matched.
  apply sync_runs_bind; [apply sync_runs_select|]. intros current. destruct (diffMembers matched current) as [toAdd toRemove].
  set (finish := bind (MarkRuleSync _ _ _ _) _).
  assert (runs finish) as Hfin by (apply sync_runs_bind; [apply sync_runs_exec | intros; apply sync_runs_ret]).
  assert (forall ms, runs (repo_AddMembers gid ms)) as Hadd.
  { intros ms. apply runs_if; [apply sync_runs_ret|]. apply sync_runs_bind; [apply sync_runs_select|]. intros ex.
    apply runs_if; [apply sync_runs_ret|]. apply sync_runs_bind; [apply sync_runs_exec | intros; apply sync_runs_ret]. }
  pose proof (runs_remove gid toRemove) as Hrem.
  assert (runs (if bool_decide (toRemove = []) then finish
    else or_mark gid (Z.of_nat (length toAdd)) (repo_RemoveMembers gid toRemove) (fun _ => finish))) as Htail
    by (apply runs_if; [done | by apply runs_or_mark]).
  apply runs_if; [done|]. apply sync_runs_bind; [apply runs_new_members|]. intros ms. by apply runs_or_mark.
Qed.

(** A dynamic group with a rule that works. *)
Definition resyncable (tenantID gid : Z) (matched : list Z) (w : GWorld G) : Prop :=
  exists g rule expr cr,
    ugroups w !! gid = Some g /\ g_TenantID g = tenantID /\ g_Type g = TypeDynamic /\ g_Deleted g = false
    /\ urules w !! gid = Some rule /\ r_Status rule = RuleEnabled
    /\ ValidateRule TrimSpace overflow (Expr rule) = Ok expr /\ Compile overflow Sprint expr = Ok cr
    /\ matched = run_sql (buildEvaluateSQL cr) (GoInt tenantID :: Args cr).

Lemma resyncable_frame tenantID gid matched w w' :
  frame w w' -> resyncable tenantID gid matched w -> resyncable tenantID gid matched w'.
Proof.
  intros Hf (g & rule & expr & cr & Hg & Ht & Hty & Hd & Hr & Hst & Hv & Hc & Hm).
  pose proof (fr_rules _ _ Hf gid) as Hru. rewrite Hr in Hru. destruct (urules w' !! gid) as [rule'|] eqn:Hr'; [|done].
  cbn in Hru. injection Hru as He Hs. exists g, rule', expr, cr. rewrite (fr_groups _ _ Hf), Hs, He. done.
Qed.

Lemma requireGroup_runs scope gid (s : GStore) g :
  working s -> ugroups (sdb s) !! gid = Some g -> in_scope scope g = true ->
  requireGroup scope gid s = (mkStore (sdb s) (sfail s) (S (scalls s)), Ok g).
Proof.
  intros Hw Hg Hs. unfold requireGroup, repo_GetByID, attempt, query, bind, ret, throw. by rewrite (Hw (scalls s)), Hg, Hs.
Qed.

Lemma GetRule_runs gid (s : GStore) rule :
  working s -> urules (sdb s) !! gid = Some rule ->
  repo_GetRule gid s = (mkStore (sdb s) (sfail s) (S (scalls s)), Ok rule).
Proof. intros Hw Hr. unfold repo_GetRule, query, bind, ret, throw. by rewrite (Hw (scalls s)), Hr. Qed.

(** Syncing such a group when the database answers. *)
Lemma sync_runs tenantID gid matched s :
  working s -> resyncable tenantID gid matched (sdb s) ->
  exists s' rep, sync (Some tenantID) gid s = (s', Ok rep) /\ synced gid matched (sdb s) (sdb s').
Proof.
  intros Hw (g & rule & expr & cr & Hg & Ht & Hty & Hd & Hr & Hst & Hv & Hc & ->).
  set (s2 := mkStore (sdb s) (sfail s) (S (S (scalls s)))).
  assert (sync (Some tenantID) gid s = sync_members run_sql g gid cr s2) as Hrun.
  { assert (in_scope (Some tenantID) g = true) as Hs by (unfold in_scope; rewrite Hd, Ht; cbn; apply Z.eqb_refl).
    unfold syncRule. rewrite (bind_ok_run _ _ _ _ _ (requireGroup_runs (Some tenantID) gid s g Hw Hg Hs)). unfold attempt.
    rewrite (GetRule_runs gid (mkStore (sdb s) (sfail s) (S (scalls s))) rule Hw Hr). cbv beta iota. rewrite Hst.
    change (RuleEnabled =? RuleEnabled) with true. cbn [negb]. by rewrite Hv, Hc. }
  destruct (runs_sync_members g gid cr s2 Hw) as (s' & rep & Hok & _). exists s', rep. rewrite Hrun. split; [done|].
  apply sync_members_ok in Hok. cbn [sdb s2] in Hok. rewrite Ht in Hok.
  destruct (diffMembers _ _) as [toAdd toRemove]. by destruct Hok as (H & _).
Qed.

Lemma resync_each_ok tenantID ids s s' x :
  working s -> resync_each TrimSpace overflow Sprint run_sql (Some tenantID) ids s = (s', x) ->
  x = Ok tt /\ frame (sdb s) (sdb s')
  /\ (forall k, k.1 ∉ ids -> umembers (sdb s') !! k = umembers (sdb s) !! k)
  /\ forall gid matched, gid ∈ ids -> resyncable tenantID gid matched (sdb s) ->
     forall u, is_Some (umembers (sdb s') !! (gid, u)) <-> u ∈ matched.
Proof.
  revert s. induction ids as [|gid ids IH]; intros s Hw; cbn [resync_each].
  { unfold ret. intros [= <- <-]. split_and!; [done..|]. intros gid m Hin. by apply elem_of_nil in Hin. }
  unfold dropped, bind, attempt. destruct (sync (Some tenantID) gid s) as [s1 y] eqn:Hs.
  pose proof (local_syncRule gid (Some tenantID) s s1 y Hs) as [[Hf1 Hm1] Hfail1]. unfold ret.
  intros Hrest. destruct (IH s1) as (-> & Hf2 & Hm2 & Hgood); [intros n; by rewrite Hfail1 | exact Hrest|].
  split_and!; [done | by eapply frame_trans | |].
  - intros k [Hne Hnin]%not_elem_of_cons. by rewrite Hm2, Hm1.
  - intros gid' matched Hin Hres u. destruct (decide (gid' ∈ ids)) as [Hin'|Hnin].
    + apply Hgood; [done|]. by eapply resyncable_frame.
    + apply elem_of_cons in Hin as [->|?]; [|done]. rewrite Hm2 by done.
      destruct (sync_runs tenantID gid matched s Hw Hres) as (s1' & rep & Hs' & _ & Hiff & _).
      rewrite Hs in Hs'. injection Hs' as <- _. apply Hiff.
Qed.

(** A resync brings every dynamic group of the tenant to its rule. When the
    database answers, the background recompute ends without an error and every
    dynamic group of the tenant with an enabled, valid rule has exactly the
    members its query matched, although other groups' rules may be broken; the
    members of static groups and of other tenants' groups are untouched. *)
Theorem resync_converges tenantID s :
  working s ->
  let '(s', x) := ResyncTenantDynamicGroups TrimSpace overflow Sprint run_sql tenantID s in
  x = Ok tt
  /\ (forall gid matched u, resyncable tenantID gid matched (sdb s) ->
        is_Some (umembers (sdb s') !! (gid, u)) <-> u ∈ matched)
  /\ (forall gid u, (forall g, ugroups (sdb s) !! gid = Some g -> g_TenantID g <> tenantID \/ g_Type g <> TypeDynamic) ->
        umembers (sdb s') !! (gid, u) = umembers (sdb s) !! (gid, u)).
Proof.
  intros Hw. destruct (ResyncTenantDynamicGroups _ _ _ _ _ s) as [s' x] eqn:Hrun.
  unfold ResyncTenantDynamicGroups, attempt in Hrun.
  destruct (sync_runs_select (fun w : GWorld G => map fst (filter (fun p : Z * UserGroup => g_TenantID p.2 = tenantID /\ g_Type p.2 = TypeDynamic
                                     /\ g_Deleted p.2 = false) (map_to_list (ugroups w)))) s Hw) as (s1 & ids & Hl & Hw1).
  unfold repo_ListDynamicGroupIDs in Hrun. rewrite Hl in Hrun. apply select_ok in Hl as (Hids & Hd & _).
  assert (forall gid, gid ∈ ids <-> exists g, ugroups (sdb s) !! gid = Some g /\ g_TenantID g = tenantID
    /\ g_Type g = TypeDynamic /\ g_Deleted g = false) as Hin.
  { intros gid. subst ids. rewrite list_elem_of_In, in_map_iff. split.
    - intros ([i g] & <- & Hp%list_elem_of_In). apply list_elem_of_filter in Hp as [Hp Hg]. apply elem_of_map_to_list in Hg. by exists g.
    - intros (g & Hg & Hp). exists (gid, g). split; [done|]. apply list_elem_of_In, list_elem_of_filter.
      split; [done | by apply elem_of_map_to_list]. }
  apply resync_each_ok in Hrun as (-> & _ & Hother & Hgood); [|done]. rewrite Hd in Hother, Hgood. split_and!; [done | |].
  - intros gid matched u Hres. apply Hgood; [|done]. apply Hin. destruct Hres as (g & _ & _ & _ & H1 & H2 & H3 & H4 & _).
    by exists g.
  - intros gid u Hno. apply Hother. cbn. rewrite Hin. intros (g & Hg & H1 & H2 & _). destruct (Hno g Hg); done.
Qed.

(** The batch endpoint removes members of a dynamic group. On a dynamic group
    AddMember, AddMembers and RemoveMember refuse and change nothing; RemoveMembers
    deletes the rows. *)
Theorem batch_removal_ignores_dynamic scope validator gid u s g m :
  working s -> ugroups (sdb s) !! gid = Some g -> in_scope scope g = true -> g_Type g = TypeDynamic ->
  umembers (sdb s) !! (gid, u) = Some m ->
  (AddMember scope validator gid u s).2 = Err ErrGroupIsDynamic
  /\ (AddMembers scope validator gid [u] s).2 = Err ErrGroupIsDynamic
  /\ (RemoveMember scope gid u s).2 = Err ErrGroupIsDynamic
  /\ exists s', RemoveMembers scope gid [u] s = (s', Ok (1, [])) /\ umembers (sdb s') !! (gid, u) = None.
Proof.
  intros Hw Hg Hs Hty Hm. set (s1 := mkStore (sdb s) (sfail s) (S (scalls s))).
  assert (requireGroup scope gid s = (s1, Ok g)) as Hreq.
  { by apply requireGroup_runs. }
  split_and!.
  - unfold AddMember. rewrite (bind_ok_run _ _ _ _ _ Hreq), Hty. done.
  - unfold AddMembers. rewrite (bind_ok_run _ _ _ _ _ Hreq), Hty. done.
  - unfold RemoveMember. rewrite (bind_ok_run _ _ _ _ _ Hreq), Hty. done.
  - assert (u ∈ existing_of gid [u] (sdb s)) as Hex.
    { apply list_elem_of_filter. split; [by left|]. apply members_of_spec. by exists m. }
    destruct (runs_remove gid [u] s1 Hw) as (s2 & sk & Hrem & _).
    assert (sk = []) as ->.
    { pose proof Hrem as Hr. unfold repo_RemoveMembers in Hr. change (bool_decide ([u] = [])) with false in Hr.
      apply bind_ok in Hr as (ex & s3 & Hsel & Hr). apply select_ok in Hsel as (-> & _).
      rewrite (filter_none (fun x => x ∉ _) [u]) in Hr by (intros x ->%list_elem_of_singleton; tauto).
      case_bool_decide; [unfold ret in Hr; by simplify_eq|].
      apply bind_ok in Hr as (v & s4 & _ & Hr). unfold ret in Hr. by simplify_eq. }
    pose proof (repo_RemoveMembers_ok gid [u] s1 _ _ Hrem) as (_ & _ & _ & Hl).
    unfold RemoveMembers. rewrite (bind_ok_run _ _ _ _ _ Hreq), (bind_ok_run _ _ _ _ _ Hrem).
    eexists. split; [reflexivity|]. cbn. rewrite Hl, decide_True; [done|]. split; [done | by left].
Qed.
End Service.
End Props.

(** ** Concrete runs *)

Module GroupDemo.
Definition trim (s : string) : string := s.
Definition over (q : Q) : Z := int64_min.
Definition sprint (v : Value) : string := "?".
(** The user tables answer 10 and 11 to every query. *)
Definition answer (sql : string) (args : list Value) : list Z := [10; 11].

Definition team : UserGroup := mkUserGroup 1 5 "team" "team" None TypeDynamic false.
Definition expr : RuleExpr := mkRuleExpr "and" [mkRuleCondition "status" "eq" (JNum 1)].
Definition rule : UserGroupRule := mkUserGroupRule 2 1 (RawDoc expr) RuleEnabled None 0 0 None.
(** Members 11 and 12 before the sync. *)
Definition world : GWorld Z :=
  mkGWorld {[ 1 := team ]} {[ 1 := rule ]}
    {[ (1, 11) := mkUserGroupMember 3 1 11; (1, 12) := mkUserGroupMember 4 1 12 ]} 100 [] 7.
Definition start : Store (GWorld Z) := mkStore world (fun _ => false) 0.

Definition synced_run := syncRule trim over sprint answer (Some 5) 1 start.

Lemma synced_run_ok : synced_run = (synced_run.1, Ok (mkSyncReport 1 1 1)).
Proof. apply (run_result (syncRule trim over sprint answer (Some 5) 1)). vm_compute. reflexivity. Qed.

Lemma sync_witness : umembers (sdb synced_run.1) !! (1, 12) = None /\ bus (sdb synced_run.1) = [].
Proof.
  destruct (sync_makes_membership_match trim over sprint answer (Some 5) 1 start synced_run.1 _ rule synced_run_ok eq_refl eq_refl)
    as (g & e & cr & _ & _ & _ & _ & H). cbn zeta in H. destruct (diffMembers _ _) as [toAdd toRemove].
  destruct H as ((_ & Hiff & _) & _ & _ & Hbus). split; [|exact Hbus].
  destruct (umembers (sdb synced_run.1) !! (1, 12)) as [m|] eqn:Hm; [|reflexivity].
  pose proof (proj1 (Hiff 12) (ex_intro _ m Hm)) as Hin. unfold answer in Hin.
  apply list_elem_of_In in Hin. exfalso. destruct Hin as [H|[H|[]]]; discriminate.
Defined.

Lemma start_working : working start.
Proof. intros n. reflexivity. Qed.

Lemma start_resyncable : resyncable trim over sprint answer 5 1 [10; 11] world.
Proof.
  exists team, rule, expr. eexists. repeat split; vm_compute; reflexivity.
Qed.

Lemma resync_witness :
  is_Some (umembers (sdb (ResyncTenantDynamicGroups trim over sprint answer 5 start).1) !! (1, 10)).
Proof.
  pose proof (resync_converges trim over sprint answer 5 start start_working) as H.
  destruct (ResyncTenantDynamicGroups _ _ _ _ _ _) as [s' x]. destruct H as (_ & H & _).
  exact (proj2 (H 1 [10; 11] 10 start_resyncable) (list_elem_of_here _ _)).
Defined.

Lemma batch_witness :
  exists s', RemoveMembers (Some 5) 1 [11] start = (s', Ok (1, [])) /\ umembers (sdb s') !! (1, 11) = None.
Proof.
  exact (proj2 (proj2 (proj2 (batch_removal_ignores_dynamic (Some 5) (fun _ => Ok true) 1 11 start team
    (mkUserGroupMember 3 1 11) start_working eq_refl eq_refl eq_refl eq_refl)))).
Defined.
End GroupDemo.
