(* ===== verification/Org.v ===== *)
(** * Org: the organization tree

    src/internal/domain/org (service.go, repository_impl.go): organizations with their
    materialised ltree paths, membership, and the tree the console shows. A
    statement can fail, and the constraints of migration 000003 are part of the
    statements that run into them. *)

From stdpp Require Import sorting.
From Stdlib Require Import Ascii.
From S2P Require Import Prelude Statements Text.
#[global] Open Scope Z_scope.

(** Extra, timestamps and the acting users are left out; no operation sets
    deleted_at since migration 000056. *)
Record Organization : Type := mkOrg {
  o_ID : Z; o_TenantID : Z; o_Name : string; o_Code : string; o_ParentID : option Z;
  o_Path : string; o_SortOrder : Z; o_Status : Z
}.

Record UserOrg : Type := mkUserOrg {
  uo_ID : Z; uo_UserID : Z; uo_OrgID : Z; uo_IsPrimary : bool; uo_CreatedAt : Z
}.

Record CreateOrgRequest : Type := mkCreateOrg {
  co_Name : string; co_Code : string; co_ParentID : option Z; co_SortOrder : Z
}.
Record UpdateOrgRequest : Type := mkUpdateOrg { up_Name : string; up_SortOrder : Z; up_Status : Z }.

(** [ErrUnique], [ErrForeignKey] and [ErrNotNull] are the constraint violations of the
    database. *)
Inductive OErr : Type :=
| ErrDB
| ErrRecordNotFound
| ErrUnique (constraint : string)
| ErrForeignKey
| ErrNotNull
| ErrRootOrgDelete
| ErrOrgHasChildren
| ErrOrgCycle
| ErrOrgNotFound
| ErrParentOrgNotFound
| ErrUserNotInTenant
| ErrInvalidOrgCode
| ErrOrgCodeExists
| ErrNotMember.

Inductive OEvent : Type :=
| OrgCreated (o : Organization)
| OrgUpdated (o : Organization)
| OrgDeleted (id : Z)
| OrgMoved (tenantID id : Z)
| OrgMemberAdded (tenantID userID orgID : Z)
| OrgMemberRemoved (tenantID userID orgID : Z).

Definition RootOrgID : Z := 1.
Definition orgCodeConstraint : string := "mxid_organization_tenant_id_code_key".
Definition orgCodeColumns : string := "mxid_organization.tenant_id, mxid_organization.code".

(** [dberr.IsUniqueViolationOn], on an error of the Postgres driver *)
Definition IsUniqueViolationOn (e : OErr) (names : list string) : bool :=
  match e with ErrUnique c => bool_decide (names = [] \/ c ∈ names) | _ => false end.

(** [^[A-Za-z0-9_]+$] *)
Definition label_char (c : ascii) : bool :=
  let n := nat_of_ascii c in
  ((48 <=? n) && (n <=? 57) || (65 <=? n) && (n <=? 90) || (97 <=? n) && (n <=? 122) || (n =? 95))%nat.
Definition orgCodeRe (s : string) : bool := negb (bool_decide (s = ""%string)) && all_chars label_char s.

(** ** Paths *)

Definition same_char (a b : ascii) : bool := bool_decide (a = b).
Definition LIKE (s pat : string) : bool := ilike same_char pat s.

(** ltree's [d <@ a] *)
Definition below (d a : string) : bool := bool_decide (d = a) || HasPrefix d (a +:+ ".").

(** The labels of a path. *)
Fixpoint labels_from (l : string) (s : string) : list string :=
  match s with
  | EmptyString => [l]
  | String c s' =>
      if decide (c = "."%char) then l :: labels_from EmptyString s' else labels_from (l +:+ String c EmptyString) s'
  end.
Definition labels : string -> list string := labels_from EmptyString.

Fixpoint labels_le (a b : list string) : bool :=
  match a, b with
  | [], _ => true
  | _ :: _, [] => false
  | x :: a', y :: b' =>
      match String.compare x y with Lt => true | Gt => false | Eq => labels_le a' b' end
  end.

(** [ORDER BY path ASC, sort_order ASC] *)
Definition tree_before (x y : Organization) : Prop :=
  labels_le (labels (o_Path x)) (labels (o_Path y)) = true
  /\ (labels_le (labels (o_Path y)) (labels (o_Path x)) = true -> o_SortOrder x <= o_SortOrder y).

#[export] Instance tree_before_dec : RelDecision tree_before.
Proof. intros x y. unfold tree_before. destruct (labels_le (labels (o_Path y)) _); solve_decision. Defined.

Section Orgs.
Context {G : Type} `{!IdGen G}.

(** mxid_organization by id, mxid_user_org by its unique (user_id, org_id). *)
Record OWorld : Type := mkOWorld {
  orgs : gmap Z Organization; user_orgs : gmap (Z * Z) UserOrg; idGen : G; bus : list OEvent; wall : Z
}.

Abbreviation OStore := (Store OWorld).
Abbreviation Op := (M OStore OErr).

Definition with_orgs f (w : OWorld) := mkOWorld (f (orgs w)) (user_orgs w) (idGen w) (bus w) (wall w).
Definition with_user_orgs f (w : OWorld) := mkOWorld (orgs w) (f (user_orgs w)) (idGen w) (bus w) (wall w).

Abbreviation select := (Statements.select ErrDB).
Abbreviation exec := (Statements.exec ErrDB).
Abbreviation exec_or := (Statements.exec_or ErrDB).

Definition new_id : Op Z := fun s =>
  let '(g', id) := Generate (idGen (sdb s)) in
  (mkStore (mkOWorld (orgs (sdb s)) (user_orgs (sdb s)) g' (bus (sdb s)) (wall (sdb s))) (sfail s) (scalls s), Ok id).

Definition publish (e : OEvent) : Op unit :=
  write (fun w => mkOWorld (orgs w) (user_orgs w) (idGen w) (bus w ++ [e]) (wall w)).

(** ** repository_impl.go; [scope] is the tenant the context is pinned to *)

Definition in_scope (scope : option Z) (o : Organization) : bool :=
  match scope with Some t => o_TenantID o =? t | None => true end.

Definition parent_exists (m : gmap Z Organization) (p : option Z) : bool :=
  match p with Some pid => bool_decide (is_Some (m !! pid)) | None => true end.

(** INSERT with its constraints: primary key, UNIQUE(tenant_id, code), the parent's
    foreign key. *)
Definition insert_org (o : Organization) (w : OWorld) : res OErr OWorld :=
  if bool_decide (is_Some (orgs w !! o_ID o)) then Err (ErrUnique "mxid_organization_pkey")
  else if bool_decide (map_Forall (fun _ o' => ~ (o_TenantID o' = o_TenantID o /\ o_Code o' = o_Code o)) (orgs w)) then
    if parent_exists (orgs w) (o_ParentID o) then Ok (with_orgs <[o_ID o := o]> w) else Err ErrForeignKey
  else Err (ErrUnique orgCodeConstraint).

(** The plugin's stamp: a zero tenant becomes the scope's. *)
Definition stamp (scope : option Z) (o : Organization) : Organization :=
  match scope with
  | Some t => if o_TenantID o =? 0
              then mkOrg (o_ID o) t (o_Name o) (o_Code o) (o_ParentID o) (o_Path o) (o_SortOrder o) (o_Status o) else o
  | None => o
  end.

Definition repo_Create (scope : option Z) (o : Organization) : Op Organization :=
  do! exec_or (insert_org (stamp scope o)) in ret (stamp scope o).

Definition repo_GetByID (scope : option Z) (id : Z) : Op Organization :=
  let! w := query ErrDB in
  match orgs w !! id with
  | Some o => if in_scope scope o then ret o else throw ErrRecordNotFound
  | None => throw ErrRecordNotFound
  end.

(** gorm's Save of a row that was read. *)
Definition repo_Update (o : Organization) : Op unit := exec (with_orgs <[o_ID o := o]>).

Definition children_of (scope : option Z) (m : gmap Z Organization) (parentID : Z) : gmap Z Organization :=
  filter (fun p : Z * Organization => o_ParentID p.2 = Some parentID /\ in_scope scope p.2 = true) m.

(** No row, of whatever tenant, may be left pointing at the deleted one;
    memberships cascade. *)
Definition delete_org (scope : option Z) (id : Z) (w : OWorld) : res OErr OWorld :=
  match orgs w !! id with
  | Some o =>
      if in_scope scope o then
        if bool_decide (children_of None (orgs w) id = ∅)
        then Ok (with_user_orgs (filter (fun p => p.1.2 <> id)) (with_orgs (delete id) w))
        else Err ErrForeignKey
      else Ok w
  | None => Ok w
  end.
Definition repo_Delete (scope : option Z) (id : Z) : Op unit := exec_or (delete_org scope id).

Definition repo_GetTree (tenantID : Z) : Op (list Organization) :=
  select (fun w => merge_sort tree_before (filter (fun o => o_TenantID o = tenantID) (map_to_list (orgs w)).*2)).

Definition repo_GetChildren (scope : option Z) (parentID : Z) : Op (gmap Z Organization) :=
  select (fun w => children_of scope (orgs w) parentID).

Definition set_place (parent : option Z) (path : string) (o : Organization) : Organization :=
  mkOrg (o_ID o) (o_TenantID o) (o_Name o) (o_Code o) parent path (o_SortOrder o) (o_Status o).

Definition place_org (scope : option Z) (id : Z) (parent : option Z) (path : string) (w : OWorld) : res OErr OWorld :=
  match orgs w !! id with
  | Some o =>
      if in_scope scope o then
        if parent_exists (orgs w) parent then Ok (with_orgs <[id := set_place parent path o]> w) else Err ErrForeignKey
      else Ok w
  | None => Ok w
  end.

(** [path::text LIKE oldPath.% AND id != id] *)
Definition moved_along (oldPath : string) (id : Z) (o : Organization) : bool :=
  LIKE (o_Path o) (oldPath +:+ ".%") && negb (o_ID o =? id).

(** [SUBSTRING(path::text FROM pattern)] with a text argument is the first match of a
    regular expression; a number matches itself, and NULL is no match. *)
Definition substring_from (s number : string) : option string := if Contains s number then Some number else None.

(** The second UPDATE: [path] is NOT NULL. *)
Definition relocate (newPath oldPath : string) (id : Z) (w : OWorld) : res OErr OWorld :=
  let number := dec (Z.of_nat (String.length oldPath) + 1) in
  if bool_decide (map_Forall (fun _ o => moved_along oldPath id o = true -> is_Some (substring_from (o_Path o) number)) (orgs w))
  then Ok (with_orgs (fmap (fun o =>
              if moved_along oldPath id o
              then set_place (o_ParentID o) (newPath +:+ default ""%string (substring_from (o_Path o) number)) o
              else o)) w)
  else Err ErrNotNull.

Definition repo_Move (scope : option Z) (id : Z) (newParentID : option Z) (newPath : string) : Op unit :=
  txn ErrDB (
    let! o := repo_GetByID scope id in
    do! exec_or (place_org scope id newParentID newPath) in
    exec_or (relocate newPath (o_Path o) id)).

Definition insert_user_org (rel : UserOrg) (w : OWorld) : res OErr OWorld :=
  match user_orgs w !! (uo_UserID rel, uo_OrgID rel), orgs w !! uo_OrgID rel with
  | None, Some _ => Ok (with_user_orgs <[(uo_UserID rel, uo_OrgID rel) := rel]> w)
  | Some _, _ => Err (ErrUnique "mxid_user_org_user_id_org_id_key")
  | None, None => Err ErrForeignKey
  end.
Definition repo_AddMember (rel : UserOrg) : Op unit := exec_or (insert_user_org rel).

Definition repo_RemoveMember (userID orgID : Z) : Op unit :=
  let! w := query ErrDB in
  if bool_decide (is_Some (user_orgs w !! (userID, orgID)))
  then write (with_user_orgs (delete (userID, orgID))) else throw ErrNotMember.

(** The rows the subtree query of GetMembers selects: no tenant in it. *)
Definition in_subtree (w : OWorld) (orgID : Z) (o : Organization) : bool :=
  match orgs w !! orgID with
  | Some r => bool_decide (o_Path o = o_Path r) || LIKE (o_Path o) (o_Path r +:+ ".%")
  | None => false
  end.

(** [org_id IN subtree] *)
Definition assigned_below (w : OWorld) (orgID : Z) (m : UserOrg) : bool :=
  match orgs w !! uo_OrgID m with Some o => in_subtree w orgID o | None => false end.

Definition subtree_members (live : Z -> bool) (w : OWorld) (orgID : Z) : list UserOrg :=
  filter (fun m => live (uo_UserID m) && assigned_below w orgID m = true) (map_to_list (user_orgs w)).*2.

(** [MIN(created_at)] of a user's rows *)
Definition first_assigned (ms : list UserOrg) (uid : Z) : Z :=
  match filter (fun m => uo_UserID m = uid) ms with
  | [] => 0
  | m :: rest => foldr Z.min (uo_CreatedAt m) (map uo_CreatedAt rest)
  end.
Definition assigned_before (ms : list UserOrg) (u v : Z) : Prop := first_assigned ms u <= first_assigned ms v.
#[export] Instance assigned_before_dec ms : RelDecision (assigned_before ms).
Proof. intros u v. unfold assigned_before. apply _. Defined.

Definition repo_GetMembers (live : Z -> bool) (orgID page pageSize : Z) : Op (list Z * Z) :=
  let! total := select (fun w => Z.of_nat (size (list_to_set (map uo_UserID (subtree_members live w orgID)) : gset Z))) in
  let! ids := select (fun w =>
    let ms := subtree_members live w orgID in
    take (Z.to_nat pageSize) (drop (Z.to_nat ((page - 1) * pageSize))
      (merge_sort (assigned_before ms) (elements (list_to_set (map uo_UserID ms) : gset Z))))) in
  ret (ids, total).

(** The membership is in an organization at or below [o2]. *)
Definition member_below (w : OWorld) (userID : Z) (o2 : Organization) (m : UserOrg) : bool :=
  (uo_UserID m =? userID)
  && match orgs w !! uo_OrgID m with Some o1 => below (o_Path o1) (o_Path o2) | None => false end.

Definition ancestor_ids (tenantID userID : Z) (w : OWorld) : gset Z :=
  dom (filter (fun p : Z * Organization =>
    (o_TenantID p.2 =? tenantID) && existsb (member_below w userID p.2) (map_to_list (user_orgs w)).*2 = true) (orgs w)).
Definition repo_AncestorIDsForUser (tenantID userID : Z) : Op (gset Z) := select (ancestor_ids tenantID userID).

Definition repo_IsAncestorOrSelf (ancestor descendant : Z) : Op bool :=
  if ancestor =? descendant then ret true else
  select (fun w => match orgs w !! descendant, orgs w !! ancestor with
                   | Some d, Some a => below (o_Path d) (o_Path a)
                   | _, _ => false
                   end).

(** ** service.go *)

Definition fetchOrg (scope : option Z) (orgID : Z) : Op Organization :=
  attempt (repo_GetByID scope orgID) (fun r =>
    match r with
    | Ok o => ret o
    | Err ErrRecordNotFound => throw ErrOrgNotFound
    | Err e => throw e
    end).

Definition fetchParentOrg (scope : option Z) (parentID : Z) : Op Organization :=
  attempt (fetchOrg scope parentID) (fun r =>
    match r with
    | Ok o => ret o
    | Err ErrOrgNotFound => throw ErrParentOrgNotFound
    | Err e => throw e
    end).

Definition requireOrg (scope : option Z) (orgID : Z) : Op unit := let! _ := fetchOrg scope orgID in ret tt.

(** The validator is the tenant-scoped lookup of the user module. *)
Definition requireUserInTenant (validator : Z -> res OErr bool) (userID : Z) : Op unit :=
  match validator userID with
  | Err e => throw e
  | Ok ok => guard (negb ok) ErrUserNotInTenant
  end.

Definition path_below (parent : option Organization) (code : string) : string :=
  match parent with Some p => o_Path p +:+ "." +:+ code | None => code end.

Definition fetch_parent (scope : option Z) (parentID : option Z) : Op (option Organization) :=
  match parentID with
  | Some p => let! parent := fetchParentOrg scope p in ret (Some parent)
  | None => ret None
  end.

Definition Create (scope : option Z) (tenantID : Z) (req : CreateOrgRequest) : Op Organization :=
  do! guard (negb (orgCodeRe (co_Code req))) ErrInvalidOrgCode in
  let! parent := fetch_parent scope (co_ParentID req) in
  let! id := new_id in
  let o := mkOrg id tenantID (co_Name req) (co_Code req) (co_ParentID req) (path_below parent (co_Code req))
             (co_SortOrder req) 1 in
  attempt (repo_Create scope o) (fun r =>
    match r with
    | Ok o => do! publish (OrgCreated o) in ret o
    | Err e => if IsUniqueViolationOn e [orgCodeConstraint; orgCodeColumns] then throw ErrOrgCodeExists else throw e
    end).

Definition GetByID (scope : option Z) (id : Z) : Op Organization := fetchOrg scope id.

Definition Update (scope : option Z) (id : Z) (req : UpdateOrgRequest) : Op Organization :=
  let! o0 := fetchOrg scope id in
  let o := mkOrg (o_ID o0) (o_TenantID o0) (up_Name req) (o_Code o0) (o_ParentID o0) (o_Path o0) (up_SortOrder req) (up_Status req) in
  do! repo_Update o in
  do! publish (OrgUpdated o) in
  ret o.

Definition Delete (scope : option Z) (id : Z) : Op unit :=
  do! guard (id =? RootOrgID) ErrRootOrgDelete in
  let! children := repo_GetChildren scope id in
  do! guard (negb (bool_decide (children = ∅))) ErrOrgHasChildren in
  do! repo_Delete scope id in
  publish (OrgDeleted id).

(** The guard against moving an organization below itself. *)
Definition would_cycle (id : Z) (o : Organization) (parentID : Z) (parent : Organization) : bool :=
  (parentID =? id) || bool_decide (o_Path parent = o_Path o) || HasPrefix (o_Path parent) (o_Path o +:+ ".").

Definition Move (scope : option Z) (id : Z) (parentID : option Z) : Op unit :=
  let! o := fetchOrg scope id in
  let! parent := fetch_parent scope parentID in
  do! guard (match parentID, parent with
             | Some pid, Some p => would_cycle id o pid p
             | _, _ => false
             end) ErrOrgCycle in
  do! repo_Move scope id parentID (path_below parent (o_Code o)) in
  publish (OrgMoved (o_TenantID o) id).

Definition AddMember (scope : option Z) (validator : Z -> res OErr bool) (orgID userID : Z) (primary : bool) : Op unit :=
  let! o := fetchOrg scope orgID in
  do! requireUserInTenant validator userID in
  let! id := new_id in
  let! t := gets (fun s => wall (sdb s)) in
  do! repo_AddMember (mkUserOrg id userID orgID primary t) in
  publish (OrgMemberAdded (o_TenantID o) userID orgID).

Definition RemoveMember (scope : option Z) (userID orgID : Z) : Op unit :=
  let! o := fetchOrg scope orgID in
  do! repo_RemoveMember userID orgID in
  publish (OrgMemberRemoved (o_TenantID o) userID orgID).

Definition IsAncestorOrSelf (ancestor descendant : Z) : Op bool := repo_IsAncestorOrSelf ancestor descendant.
Definition AncestorIDsForUser (tenantID userID : Z) : Op (gset Z) := repo_AncestorIDsForUser tenantID userID.

Definition GetMembers (scope : option Z) (live : Z -> bool) (orgID page pageSize : Z) : Op (list Z * Z) :=
  do! requireOrg scope orgID in
  repo_GetMembers live orgID page pageSize.

(** ** The tree of responses

    A response is a record behind a pointer; the second pass appends pointers to the
    children of their parent. [nodes] is the store of children, [roots] the result. *)
Record Forest : Type := mkForest { nodes : gmap Z (list Z); roots : list Z }.

Definition first_pass (os : list Organization) : gmap Z (list Z) :=
  foldl (fun m o => <[o_ID o := []]> m) ∅ os.

Definition attach (f : Forest) (o : Organization) : Forest :=
  match o_ParentID o with
  | None => mkForest (nodes f) (roots f ++ [o_ID o])
  | Some p =>
      match nodes f !! p with
      | Some ch => mkForest (<[p := ch ++ [o_ID o]]> (nodes f)) (roots f)
      | None => mkForest (nodes f) (roots f ++ [o_ID o])
      end
  end.

Definition buildTree (os : list Organization) : Forest := foldl attach (mkForest (first_pass os) []) os.

Definition GetTree (tenantID : Z) : Op Forest := let! os := repo_GetTree tenantID in ret (buildTree os).
End Orgs.

Arguments OWorld : clear implicits.

(** What the encoder writes for the response behind a pointer: the ids of the
    subtree in order; it does not return on a cycle of pointers. *)
Inductive Tree : Type := Node (id : Z) (children : list Tree).

Fixpoint encode (fuel : nat) (nodes : gmap Z (list Z)) (id : Z) : option Tree :=
  match fuel with
  | O => None
  | S n => Node id <$> mapM (encode n nodes) (default [] (nodes !! id))
  end.

Fixpoint ids (t : Tree) : list Z := match t with Node id ch => id :: concat (map ids ch) end.
