(* ===== verification/OrgProps.v ===== *)
(** * OrgProps: the organization tree stays a tree

    Paths are what the parents say, whatever statements fail; ancestry by path is
    ancestry; the tree of responses holds every organization once; and a subtree that
    is moved does not follow. *)

From stdpp Require Import sorting.
From Stdlib Require Import Ascii.
From S2P Require Import Prelude Statements Text Org.
#[global] Open Scope Z_scope.

(** ** Paths *)

Lemma string_app_length (a b : string) : String.length (a +:+ b) = (String.length a + String.length b)%nat.
Proof. exact (length_app_s a b). Qed.

Lemma dot_in_label a b : all_chars label_char (a +:+ "." +:+ b) = false.
Proof. rewrite all_chars_app. destruct (all_chars label_char a); reflexivity. Qed.

(** A last label against a path that goes on. *)
Lemma last_label x c y t :
  all_chars label_char c = true -> x +:+ "." +:+ c = y +:+ "." +:+ t ->
  (x = y /\ c = t) \/ exists t', x = y +:+ "." +:+ t'.
Proof.
  intros Hc. revert y. induction x as [|a x IH]; intros [|b y] H.
  - injection H as H. left. split; [done | exact H].
  - injection H as <- H. change (c = y +:+ "." +:+ t) in H. rewrite H in Hc. by rewrite (dot_in_label y t) in Hc.
  - injection H as -> H. right. by exists x.
  - injection H as -> H. destruct (IH y H) as [[-> ->]|[t' ->]]; [by left|]. right. by exists t'.
Qed.

Lemma below_refl p : below p p = true.
Proof. unfold below. by rewrite bool_decide_true. Qed.

Lemma below_inv d a : below d a = true -> d = a \/ exists t, d = a +:+ "." +:+ t.
Proof.
  unfold below. intros [H|H]%orb_true_iff; [left; by apply bool_decide_eq_true in H|]. right.
  apply HasPrefix_inv in H as [t ->]. exists t. by rewrite <- app_assoc_s.
Qed.

Lemma below_of d a t : d = a \/ d = a +:+ "." +:+ t -> below d a = true.
Proof.
  unfold below. intros [-> | ->]; [by rewrite bool_decide_true|].
  rewrite (app_assoc_s a "." t), HasPrefix_app. apply orb_true_r.
Qed.

Lemma below_step d a c : below d a = true -> below (d +:+ "." +:+ c) a = true.
Proof.
  intros [->|[t ->]]%below_inv; eapply below_of; right; [done|].
  by rewrite <- (app_assoc_s a), <- (app_assoc_s "." t).
Qed.

Lemma code_labels c : orgCodeRe c = true -> all_chars label_char c = true /\ c <> ""%string.
Proof. unfold orgCodeRe. intros H. to_prop. done. Qed.

(** ** Well-formed trees *)

Definition row_ok (m : gmap Z Organization) (id : Z) (o : Organization) : Prop :=
  o_ID o = id /\ orgCodeRe (o_Code o) = true /\
  match o_ParentID o with
  | None => o_Path o = o_Code o
  | Some p => exists q, m !! p = Some q /\ o_TenantID q = o_TenantID o /\ o_Path o = o_Path q +:+ "." +:+ o_Code o
  end.

Definition codes_unique (m : gmap Z Organization) : Prop :=
  forall i j a b, m !! i = Some a -> m !! j = Some b ->
  o_TenantID a = o_TenantID b -> o_Code a = o_Code b -> i = j.

Definition tree_wf (m : gmap Z Organization) : Prop := map_Forall (row_ok m) m /\ codes_unique m.

Section Tree.
Context (m : gmap Z Organization) (Hwf : tree_wf m).

(** [up c p]: [p] is the parent of [c]. *)
Definition up (c p : Z) : Prop := exists o, m !! c = Some o /\ o_ParentID o = Some p.

Lemma row_id id o : m !! id = Some o -> o_ID o = id.
Proof. intros H. by destruct (proj1 Hwf id o H). Qed.

Lemma parent_row id o p : m !! id = Some o -> o_ParentID o = Some p ->
  exists q, m !! p = Some q /\ o_TenantID q = o_TenantID o /\ o_Path o = o_Path q +:+ "." +:+ o_Code o.
Proof. intros H Hp. destruct (proj1 Hwf id o H) as (_ & _ & Hr). by rewrite Hp in Hr. Qed.

Lemma root_path id o : m !! id = Some o -> o_ParentID o = None -> o_Path o = o_Code o.
Proof. intros H Hp. destruct (proj1 Hwf id o H) as (_ & _ & Hr). by rewrite Hp in Hr. Qed.

Lemma code_ok id o : m !! id = Some o -> all_chars label_char (o_Code o) = true /\ o_Code o <> ""%string.
Proof. intros H. destruct (proj1 Hwf id o H) as (_ & Hc & _). by apply code_labels. Qed.

Definition depth (id : Z) : nat := from_option (fun o => String.length (o_Path o)) 0%nat (m !! id).

Lemma up_depth c p : up c p -> (depth p < depth c)%nat.
Proof.
  intros (o & Ho & Hp). destruct (parent_row c o p Ho Hp) as (q & Hq & _ & Hpath).
  unfold depth. rewrite Ho, Hq. cbn. rewrite Hpath, !string_app_length. cbn. lia.
Qed.

Lemma up_functional c p q : up c p -> up c q -> p = q.
Proof. intros (o & Ho & Hp) (o' & Ho' & Hq). by simplify_eq. Qed.

Lemma up_row c p : up c p -> exists o q, m !! c = Some o /\ m !! p = Some q /\ o_TenantID q = o_TenantID o.
Proof. intros (o & Ho & Hp). destruct (parent_row c o p Ho Hp) as (q & Hq & Ht & _). eauto. Qed.

(** In one tenant a path names one organization. *)
Lemma path_names_org i j a b :
  m !! i = Some a -> m !! j = Some b -> o_TenantID a = o_TenantID b -> o_Path a = o_Path b -> i = j.
Proof.
  intros Ha Hb Ht Hp. apply (proj2 Hwf i j a b Ha Hb Ht).
  destruct (code_ok i a Ha) as [Hca _], (code_ok j b Hb) as [Hcb _].
  destruct (o_ParentID a) as [p|] eqn:Hpa, (o_ParentID b) as [q|] eqn:Hpb.
  - destruct (parent_row i a p Ha Hpa) as (x & _ & _ & Hx), (parent_row j b q Hb Hpb) as (y & _ & _ & Hy).
    rewrite Hx, Hy in Hp. destruct (last_label _ _ _ _ Hca Hp) as [[_ ->]|[t Ht']]; [done|].
    rewrite Ht' in Hp. rewrite <- (app_assoc_s (o_Path y)) in Hp. apply app_cancel_l in Hp.
    injection Hp as Hp. change (t +:+ "." +:+ o_Code a = o_Code b) in Hp. rewrite <- Hp in Hcb. by rewrite (dot_in_label t) in Hcb.
  - destruct (parent_row i a p Ha Hpa) as (x & _ & _ & Hx). rewrite (root_path j b Hb Hpb), Hx in Hp.
    rewrite <- Hp in Hcb. by rewrite (dot_in_label (o_Path x)) in Hcb.
  - destruct (parent_row j b q Hb Hpb) as (y & _ & _ & Hy). rewrite (root_path i a Ha Hpa), Hy in Hp.
    rewrite Hp in Hca. by rewrite (dot_in_label (o_Path y)) in Hca.
  - by rewrite (root_path i a Ha Hpa), (root_path j b Hb Hpb) in Hp.
Qed.

Lemma chain_below d a : rtc up d a -> forall od oa, m !! d = Some od -> m !! a = Some oa ->
  o_TenantID od = o_TenantID oa /\ below (o_Path od) (o_Path oa) = true.
Proof.
  induction 1 as [x|x y z Hxy Hyz IH]; intros od oa Hd Ha.
  - simplify_eq. split; [done | apply below_refl].
  - destruct Hxy as (o & Ho & Hp). assert (o = od) as -> by congruence. destruct (parent_row x od y Ho Hp) as (q & Hq & Ht & Hpath).
    destruct (IH q oa Hq Ha) as [H1 H2]. split; [congruence|]. rewrite Hpath. by apply below_step.
Qed.

(** Below by path is below by parents. *)
Lemma below_chain d a od oa :
  m !! d = Some od -> m !! a = Some oa -> o_TenantID od = o_TenantID oa ->
  below (o_Path od) (o_Path oa) = true -> rtc up d a.
Proof.
  remember (depth d) as n eqn:Hn. revert d od Hn. induction (lt_wf n) as [n _ IH]; intros d od -> Hd Ha Ht Hb.
  apply below_inv in Hb as [Heq|[t Heq]].
  { rewrite (path_names_org d a od oa Hd Ha Ht Heq). done. }
  destruct (code_ok d od Hd) as [Hc _]. destruct (o_ParentID od) as [p|] eqn:Hp.
  - destruct (parent_row d od p Hd Hp) as (q & Hq & Htq & Hpath). rewrite Hpath in Heq.
    assert (up d p) as Hup by by exists od. eapply rtc_l; [exact Hup|].
    eapply (IH (depth p)); [by apply up_depth | done | exact Hq | done | congruence|].
    destruct (last_label _ _ _ _ Hc Heq) as [[-> _]|[t' ->]]; [apply below_refl|]. eapply below_of. by right.
  - rewrite (root_path d od Hd Hp) in Heq. rewrite Heq in Hc. by rewrite (dot_in_label (o_Path oa)) in Hc.
Qed.

(** Two organizations above a third are one above the other. *)
Lemma chain_linear x a b : rtc up x a -> rtc up x b -> rtc up a b \/ rtc up b a.
Proof.
  intros Ha. revert b. induction Ha as [x|x y a Hxy Hya IH]; intros b Hb; [by left|].
  inversion Hb as [|? y' ? Hxy' Hyb]; subst.
  - right. eapply rtc_l; eauto.
  - rewrite (up_functional _ _ _ Hxy' Hxy) in Hyb. by apply IH.
Qed.

Lemma chain_depth x a : rtc up x a -> (depth a <= depth x)%nat.
Proof. induction 1 as [|x y z Hxy _ IH]; [done|]. apply up_depth in Hxy. lia. Qed.
End Tree.

(** ** What the writes do to a well-formed tree *)

Lemma tree_wf_insert m o :
  tree_wf m -> m !! o_ID o = None -> row_ok m (o_ID o) o ->
  map_Forall (fun _ x => ~ (o_TenantID x = o_TenantID o /\ o_Code x = o_Code o)) m -> tree_wf (<[o_ID o := o]> m).
Proof.
  intros [Hrows Huniq] Hnew Hok Hfree. split.
  - intros i x Hx. assert (row_ok m i x) as (H1 & H2 & H3).
    { apply lookup_insert_Some in Hx as [[<- <-]|[_ Hx]]; [done | by apply Hrows]. }
    split_and!; [done..|]. destruct (o_ParentID x) as [p|]; [|done]. destruct H3 as (q & Hq & H3).
    exists q. split; [|done]. rewrite lookup_insert_ne; [done|]. intros <-. congruence.
  - intros i j a b [[<- <-]|[Hi Ha]]%lookup_insert_Some [[<- <-]|[Hj Hb]]%lookup_insert_Some Ht Hc; [done | | |].
    + destruct (Hfree j b Hb). split; congruence.
    + destruct (Hfree i a Ha). split; congruence.
    + eauto.
Qed.

(** Two rows that agree on what the tree is made of. *)
Definition same_place (o o' : Organization) : Prop :=
  o_ID o' = o_ID o /\ o_TenantID o' = o_TenantID o /\ o_Code o' = o_Code o /\ o_ParentID o' = o_ParentID o /\ o_Path o' = o_Path o.

Lemma tree_wf_replace m id o o' :
  tree_wf m -> m !! id = Some o -> same_place o o' -> tree_wf (<[id := o']> m).
Proof.
  intros [Hrows Huniq] Ho (S1 & S2 & S3 & S4 & S5).
  assert (forall i x, <[id := o']> m !! i = Some x -> exists y, m !! i = Some y /\ same_place y x) as Hback.
  { intros i x [[<- <-]|[_ Hx]]%lookup_insert_Some; [by exists o | by exists x]. }
  split.
  - intros i x Hx. destruct (Hback i x Hx) as (y & Hy & Y1 & Y2 & Y3 & Y4 & Y5).
    destruct (Hrows i y Hy) as (H1 & H2 & H3). unfold row_ok. rewrite Y1, Y2, Y3, Y4, Y5. split_and!; [done..|].
    destruct (o_ParentID y) as [p|]; [|done]. destruct H3 as (q & Hq & H3).
    destruct (decide (p = id)) as [->|Hne].
    + exists o'. rewrite lookup_insert_eq. simplify_eq. rewrite S2, S5. done.
    + exists q. by rewrite lookup_insert_ne.
  - intros i j a b Ha Hb Ht Hc. destruct (Hback i a Ha) as (a0 & Ha0 & _ & A2 & A3 & _), (Hback j b Hb) as (b0 & Hb0 & _ & B2 & B3 & _).
    apply (Huniq i j a0 b0); congruence.
Qed.

Lemma tree_wf_delete m id : tree_wf m -> children_of None m id = ∅ -> tree_wf (delete id m).
Proof.
  intros [Hrows Huniq] Hch. split.
  - intros i x [Hi Hx]%lookup_delete_Some. destruct (Hrows i x Hx) as (H1 & H2 & H3). split_and!; [done..|].
    destruct (o_ParentID x) as [p|] eqn:Hp; [|done]. destruct H3 as (q & Hq & H3). exists q. split; [|done].
    rewrite lookup_delete_ne; [done|]. intros ->.
    assert (children_of None m p !! i = Some x) as Hc by (apply map_lookup_filter_Some; done). rewrite Hch in Hc. done.
  - intros i j a b [_ Ha]%lookup_delete_Some [_ Hb]%lookup_delete_Some. eauto.
Qed.

(** A leaf is put below another organization of its tenant, or at the top. *)
Lemma tree_wf_place m id o parent :
  tree_wf m -> m !! id = Some o -> (forall i x, m !! i = Some x -> o_ParentID x <> Some id) ->
  (forall p, parent = Some p -> p <> id) ->
  match parent with
  | Some p => exists q, m !! p = Some q /\ o_TenantID q = o_TenantID o
  | None => True
  end ->
  tree_wf (<[id := set_place parent (path_below (parent ≫= fun p => m !! p) (o_Code o)) o]> m).
Proof.
  intros [Hrows Huniq] Ho Hleaf Hne Hpar. split.
  - intros i x [[<- <-]|[Hi Hx]]%lookup_insert_Some.
    + destruct (Hrows id o Ho) as (H1 & H2 & _). split_and!; [done..|]. cbn. destruct parent as [p|]; [|done].
      destruct Hpar as (q & Hq & Ht). exists q. rewrite lookup_insert_ne by (intros ->; exact (Hne _ eq_refl eq_refl)). cbn. by rewrite Hq.
    + destruct (Hrows i x Hx) as (H1 & H2 & H3). split_and!; [done..|].
      destruct (o_ParentID x) as [p|] eqn:Hp; [|done]. destruct H3 as (q & Hq & H3). exists q. split; [|done].
      rewrite lookup_insert_ne; [done|]. intros <-. exact (Hleaf i x Hx Hp).
  - intros i j a b [[<- <-]|[Hi Ha]]%lookup_insert_Some [[<- <-]|[Hj Hb]]%lookup_insert_Some Ht Hc; cbn in *; [done|..]; eauto.
Qed.

(** ** Patterns over paths *)

Lemma same_char_spec a b : same_char a b = true <-> a = b.
Proof. unfold same_char. apply bool_decide_eq_true. Qed.

Lemma LIKE_label c p s : c <> "%"%char -> c <> "_"%char -> c <> LikeEscapeChar ->
  LIKE (String c s) (String c p) = LIKE s p.
Proof.
  intros H1 H2 H3. unfold LIKE. cbn [ilike]. rewrite !decide_False by done.
  by rewrite (proj2 (same_char_spec c c)).
Qed.

Definition path_char (c : ascii) : bool := label_char c || bool_decide (c = "."%char).

(** A path is matched by itself, whatever underscores it has. *)
Lemma LIKE_self a p t : all_chars path_char a = true -> LIKE t p = true -> LIKE (a +:+ t) (a +:+ p) = true.
Proof.
  induction a as [|c a IH]; intros Ha Ht; [done|]. change (LIKE (String c (a +:+ t)) (String c (a +:+ p)) = true).
  cbn [all_chars] in Ha. apply andb_true_iff in Ha as [Hc Ha]. specialize (IH Ha Ht).
  destruct (decide (c = "_"%char)) as [->|Hu]; [exact IH|].
  rewrite LIKE_label; [done | | done |]; intros ->; vm_compute in Hc; done.
Qed.

Lemma LIKE_below a t : all_chars path_char a = true -> LIKE (a +:+ "." +:+ t) (a +:+ ".%") = true.
Proof. intros Ha. apply LIKE_self; [done|]. change (LIKE t "%" = true). apply ilike_rest. Qed.

Lemma all_chars_impl (P Q : ascii -> bool) s :
  (forall c, P c = true -> Q c = true) -> all_chars P s = true -> all_chars Q s = true.
Proof. intros H. induction s as [|c s IH]; [done|]. cbn. rewrite !andb_true_iff. intros [H1 H2]. auto. Qed.

Lemma label_path_char c : label_char c = true -> path_char c = true.
Proof. unfold path_char. by intros ->. Qed.

Lemma path_chars m id o : tree_wf m -> m !! id = Some o -> all_chars path_char (o_Path o) = true.
Proof.
  intros Hwf. remember (depth m id) as n eqn:Hn. revert id o Hn.
  induction (lt_wf n) as [n _ IH]; intros id o -> Ho. destruct (code_ok m Hwf id o Ho) as [Hc _].
  apply (all_chars_impl _ path_char _ label_path_char) in Hc. destruct (o_ParentID o) as [p|] eqn:Hp.
  - destruct (parent_row m Hwf id o p Ho Hp) as (q & Hq & _ & ->). rewrite all_chars_app. apply andb_true_iff. split.
    + eapply IH; [|reflexivity | exact Hq]. apply up_depth; [done|]. by exists o.
    + rewrite all_chars_app. rewrite Hc. reflexivity.
  - by rewrite (root_path m Hwf id o Ho Hp).
Qed.

(** Every child is among the rows the second UPDATE of a move selects. *)
Lemma child_moved_along m id o j x :
  tree_wf m -> m !! id = Some o -> m !! j = Some x -> o_ParentID x = Some id -> moved_along (o_Path o) id x = true.
Proof.
  intros Hwf Ho Hx Hp. destruct (parent_row m Hwf j x id Hx Hp) as (q & Hq & _ & Hpath). rewrite Ho in Hq. injection Hq as <-.
  unfold moved_along. rewrite Hpath, LIKE_below by (by eapply path_chars). cbn.
  apply negb_true_iff, Z.eqb_neq. rewrite (row_id m Hwf j x Hx). intros ->.
  assert (up m id id) as Hup by by exists x. apply up_depth in Hup; [lia | done].
Qed.

(** ** Operations *)

Section Ops.
Context {G : Type} `{!IdGen G}.

Abbreviation OWorld := (Org.OWorld G).
Abbreviation OStore := (Store OWorld).
Abbreviation Op := (M OStore OErr).

Definition members_ok (w : OWorld) : Prop :=
  forall k r, user_orgs w !! k = Some r -> k = (uo_UserID r, uo_OrgID r) /\ is_Some (orgs w !! k.2).
Definition org_inv (w : OWorld) : Prop := tree_wf (orgs w) /\ members_ok w.

(** The tables are what they were. *)
Definition same_tables (w w' : OWorld) : Prop := orgs w' = orgs w /\ user_orgs w' = user_orgs w.

Lemma org_inv_same w w' : org_inv w -> same_tables w w' -> org_inv w'.
Proof. intros [H1 H2] [E1 E2]. unfold org_inv, members_ok. rewrite E1, E2. done. Qed.

Lemma on_db_new_id (P : OWorld -> Prop) Q :
  (forall d g id, P d -> Q (mkOWorld (orgs d) (user_orgs d) g (bus d) (wall d)) (Ok id)) -> on_db P new_id Q.
Proof. intros H s Hs. unfold new_id. destruct (Generate _) as [g id]. cbn. by apply H. Qed.

Lemma on_db_publish (P : OWorld -> Prop) e Q :
  (forall d, P d -> Q (mkOWorld (orgs d) (user_orgs d) (idGen d) (bus d ++ [e]) (wall d)) (Ok tt)) -> on_db P (publish e) Q.
Proof. intros H. by apply on_db_write. Qed.

Lemma keeps_publish e : keeps org_inv (publish (G:=G) e).
Proof. apply on_db_publish. intros d Hd. by eapply org_inv_same. Qed.

Lemma keeps_new_id : keeps org_inv (new_id (G:=G)).
Proof. apply on_db_new_id. intros d g id Hd. by eapply org_inv_same. Qed.

(** A read by id answers a row of the scope, and leaves everything as it was. *)
Lemma on_db_repo_GetByID (P : OWorld -> Prop) scope id Q :
  (forall d o, P d -> orgs d !! id = Some o -> in_scope scope o = true -> Q d (Ok o)) ->
  (forall d, P d -> (forall o, orgs d !! id = Some o -> in_scope scope o = false) -> Q d (Err ErrRecordNotFound)) ->
  (forall d, P d -> Q d (Err ErrDB)) -> on_db P (repo_GetByID scope id) Q.
Proof.
  intros H1 H2 H3 s Hs. unfold repo_GetByID, bind, query. destruct (sfail s (scalls s)); cbn; [auto|].
  destruct (orgs (sdb s) !! id) as [o|] eqn:Ho; [destruct (in_scope scope o) eqn:Hsc|]; cbn.
  - by eapply H1.
  - apply H2; [done|]. congruence.
  - apply H2; [done|]. congruence.
Qed.

Lemma on_db_fetchOrg (P : OWorld -> Prop) scope id Q :
  (forall d o, P d -> orgs d !! id = Some o -> in_scope scope o = true -> Q d (Ok o)) ->
  (forall d e, P d -> Q d (Err e)) -> on_db P (fetchOrg scope id) Q.
Proof.
  intros H1 H2. unfold fetchOrg. eapply on_db_attempt with
    (R := fun d r => P d /\ match r with Ok o => orgs d !! id = Some o /\ in_scope scope o = true | Err _ => True end).
  - apply on_db_repo_GetByID; auto.
  - intros [o|e]; [apply on_db_ret; intros d (? & ? & ?); by apply H1|]. destruct e; apply on_db_throw; intros d [? _]; auto.
Qed.

Lemma on_db_fetch_parent (P : OWorld -> Prop) scope parentID Q :
  (forall d parent, P d -> match parentID, parent with
      | Some p, Some q => orgs d !! p = Some q /\ in_scope scope q = true
      | None, None => True | _, _ => False end -> Q d (Ok parent)) ->
  (forall d e, P d -> Q d (Err e)) -> on_db P (fetch_parent scope parentID) Q.
Proof.
  intros H1 H2. unfold fetch_parent. destruct parentID as [p|]; [|apply on_db_ret; intros d Hd; by apply H1].
  eapply on_db_bind with (R := fun d r => P d /\ match r with Ok q => orgs d !! p = Some q /\ in_scope scope q = true | Err _ => True end).
  - unfold fetchParentOrg. eapply on_db_attempt with
      (R := fun d r => P d /\ match r with Ok q => orgs d !! p = Some q /\ in_scope scope q = true | Err _ => True end).
    + apply on_db_fetchOrg; auto.
    + intros [o|e]; [by apply on_db_ret|]. destruct e; apply on_db_throw; naive_solver.
  - intros q. apply on_db_ret. intros d [Hd Hq]. by apply H1.
  - intros d e [Hd _]. by apply H2.
Qed.

Lemma keeps_Create tenantID req : keeps org_inv (Create (G:=G) (Some tenantID) tenantID req).
Proof.
  unfold Create. eapply on_db_bind with (R := fun d r => org_inv d /\ (r = Ok tt -> orgCodeRe (co_Code req) = true)).
  { apply on_db_guard; [done|]. intros d Hd H. split; [done|]. intros _. by apply negb_false_iff. }
  2: { intros d e [Hd _]. done. }
  intros [].
  eapply on_db_bind with (R := fun d r => org_inv d /\ orgCodeRe (co_Code req) = true /\
    forall parent, r = Ok parent -> match co_ParentID req, parent with
      | Some p, Some q => orgs d !! p = Some q /\ o_TenantID q = tenantID | None, None => True | _, _ => False end).
  { apply on_db_fetch_parent; [|naive_solver]. intros d parent [Hd Hc] Hp. split_and!; [done | by apply Hc|].
    intros parent' [= <-]. destruct (co_ParentID req), parent; try done. destruct Hp as [Hp Hs]. split; [done|].
    cbn in Hs. by apply Z.eqb_eq. }
  2: { intros d e [Hd _]. done. }
  intros parent. eapply on_db_bind with (R := fun d _ => org_inv d /\ orgCodeRe (co_Code req) = true /\
    match co_ParentID req, parent with
      | Some p, Some q => orgs d !! p = Some q /\ o_TenantID q = tenantID | None, None => True | _, _ => False end).
  { apply on_db_new_id. intros d g id (Hd & Hc & Hp). split_and!; [by eapply org_inv_same | done | by apply Hp]. }
  2: { intros d e [Hd _]. done. }
  intros id. set (o := mkOrg id tenantID _ _ _ _ _ _).
  assert (stamp (Some tenantID) o = o) as Hst.
  { unfold stamp, o. cbn. destruct (Z.eqb_spec tenantID 0); [subst; done | done]. }
  eapply on_db_attempt with (R := fun d r => org_inv d).
  - unfold repo_Create. rewrite Hst. eapply on_db_bind with (R := fun d _ => org_inv d); [| intros []; by apply on_db_ret | done].
    apply on_db_exec_or; [|naive_solver..]. intros d d' ([Ht Hm] & Hc & Hp). unfold insert_org.
    case_bool_decide as Hpk; [done|]. case_bool_decide as Hfree; [|done].
    destruct (parent_exists _ _) eqn:Hfk; [|done]. intros [= <-]. apply eq_None_not_Some in Hpk. split.
    + cbn. apply tree_wf_insert; [done | done | | exact Hfree]. split_and!; [done | done|]. cbn.
      destruct (co_ParentID req) as [p|], parent as [q|]; try done. destruct Hp as [Hp Hq]. by exists q.
    + intros k r Hk. destruct (Hm k r Hk) as [H1 H2]. split; [done|]. apply lookup_insert_is_Some'. by right.
  - intros [o'|e].
    + apply keeps_bind; [apply keeps_publish | intros; apply keeps_ret].
    + destruct (IsUniqueViolationOn _ _); by apply on_db_throw.
Qed.
Lemma keeps_Update scope id req : keeps org_inv (Update (G:=G) scope id req).
Proof.
  unfold Update. eapply on_db_bind with (R := fun d r => org_inv d /\ forall o, r = Ok o -> orgs d !! id = Some o).
  { apply on_db_fetchOrg; naive_solver. }
  2: { by intros d e [Hd _]. }
  intros o0. apply on_db_eq. intros d0 [Hd0 Ho]. specialize (Ho o0 eq_refl).
  eapply on_db_bind with (R := fun d _ => org_inv d).
  - apply on_db_exec; [|by intros ? <-]. intros d <-. destruct Hd0 as [Ht Hm]. pose proof (row_id _ Ht id o0 Ho) as Hid. split.
    + cbn. rewrite Hid. apply (tree_wf_replace _ id o0); done.
    + intros k r Hk. destruct (Hm k r Hk) as [H1 H2]. split; [done|]. apply lookup_insert_is_Some'. by right.
  - intros []. apply keeps_bind; [apply keeps_publish | intros; apply keeps_ret].
  - done.
Qed.

Lemma keeps_Delete scope id : keeps org_inv (Delete (G:=G) scope id).
Proof.
  unfold Delete. apply keeps_bind; [apply keeps_guard|]. intros []. apply keeps_bind; [apply keeps_select|]. intros ch.
  apply keeps_bind; [apply keeps_guard|]. intros []. apply keeps_bind; [|intros; apply keeps_publish].
  apply keeps_exec_or. intros d d' [Ht Hm]. unfold delete_org. destruct (orgs d !! id) as [o|] eqn:Ho; [|by intros [= <-]].
  destruct (in_scope scope o); [|by intros [= <-]]. case_bool_decide as Hch; [|done]. intros [= <-]. split.
  - cbn. by apply tree_wf_delete.
  - intros k r. cbn. intros [Hk Hne]%map_lookup_filter_Some. destruct (Hm k r Hk) as [H1 H2]. split; [done|].
    cbn in Hne. destruct k as [u oid]. cbn in *. rewrite lookup_delete_ne; [done|]. intros <-. by apply Hne.
Qed.

Lemma keeps_AddMember scope validator orgID userID primary : keeps org_inv (AddMember (G:=G) scope validator orgID userID primary).
Proof.
  unfold AddMember. apply keeps_bind; [apply on_db_fetchOrg; auto|]. intros o. apply keeps_bind.
  { unfold requireUserInTenant. destruct (validator userID); [apply keeps_guard | apply keeps_throw]. }
  intros []. apply keeps_bind; [apply keeps_new_id|]. intros id. apply keeps_bind; [apply keeps_gets|]. intros t.
  apply keeps_bind; [|intros; apply keeps_publish]. apply keeps_exec_or. intros d d' [Ht Hm]. unfold insert_user_org. cbn.
  destruct (user_orgs d !! _) eqn:Hold; [done|]. destruct (orgs d !! orgID) eqn:Ho; [|done]. intros [= <-]. split; [done|].
  intros k r Hk. cbn in Hk. apply lookup_insert_Some in Hk as [[<- <-]|[_ Hk]]; [|by apply Hm]. cbn. by rewrite Ho.
Qed.

Lemma keeps_RemoveMember scope userID orgID : keeps org_inv (RemoveMember (G:=G) scope userID orgID).
Proof.
  unfold RemoveMember. apply keeps_bind; [apply on_db_fetchOrg; auto|]. intros o.
  apply keeps_bind; [|intros; apply keeps_publish]. unfold repo_RemoveMember.
  eapply on_db_bind with (R := fun d r => org_inv d); [by apply on_db_query | | done].
  intros w. case_bool_decide; [|apply keeps_throw]. apply keeps_write. intros d [Ht Hm]. split; [done|].
  intros k r Hk. cbn in Hk. apply lookup_delete_Some in Hk as [_ Hk]. by apply Hm.
Qed.

(** ** Moving *)

(** No other row is selected by the second UPDATE of a move of [id] and has, in its
    path, the digits that UPDATE looks for. *)
Definition undisturbed (w : OWorld) (id : Z) : Prop :=
  forall o, orgs w !! id = Some o -> forall j x, orgs w !! j = Some x -> moved_along (o_Path o) id x = true ->
  Contains (o_Path x) (dec (Z.of_nat (String.length (o_Path o)) + 1)) = false.

(** The second UPDATE then changes no row, or violates NOT NULL. *)
Lemma relocate_undisturbed (w : OWorld) newPath oldPath id w' :
  (forall j x, orgs w !! j = Some x -> moved_along oldPath id x = true ->
     Contains (o_Path x) (dec (Z.of_nat (String.length oldPath) + 1)) = false) ->
  relocate newPath oldPath id w = Ok w' ->
  w' = w /\ forall j x, orgs w !! j = Some x -> moved_along oldPath id x = false.
Proof.
  intros Hu. unfold relocate. set (n := dec _) in *. case_bool_decide as Hall; [|done]. intros [= <-].
  assert (forall j x, orgs w !! j = Some x -> moved_along oldPath id x = false) as Hnone.
  { intros j x Hx. apply not_true_iff_false. intros Hm. specialize (Hu j x Hx Hm). specialize (Hall j x Hx Hm).
    unfold substring_from in Hall. rewrite Hu in Hall. by destruct Hall. }
  split; [|done]. destruct w as [m uo g b t]. unfold with_orgs. cbn in *. f_equal. apply map_eq. intros j.
  rewrite lookup_fmap. destruct (m !! j) as [x|] eqn:Hx; [|done]. cbn. by rewrite (Hnone j x Hx).
Qed.
(** What a fetch for a move knows. *)
Definition fetched (w : OWorld) (scope : option Z) (id : Z) (o : Organization) (parentID : option Z) (parent : option Organization) : Prop :=
  orgs w !! id = Some o /\ in_scope scope o = true /\
  match parentID, parent with
  | Some p, Some q => orgs w !! p = Some q /\ in_scope scope q = true /\ would_cycle id o p q = false
  | None, None => True
  | _, _ => False
  end.

Lemma on_db_Move (P : OWorld -> Prop) scope id parentID Q :
  (forall d o parent, P d -> fetched d scope id o parentID parent ->
     on_db (eq d) (repo_Move scope id parentID (path_below parent (o_Code o)))
       (fun d' r => match r with
                    | Ok _ => Q (mkOWorld (orgs d') (user_orgs d') (idGen d') (bus d' ++ [OrgMoved (o_TenantID o) id]) (wall d')) (Ok tt)
                    | Err e => Q d' (Err e) end)) ->
  (forall d e, P d -> Q d (Err e)) -> on_db P (Move scope id parentID) Q.
Proof.
  intros HM HE. unfold Move. eapply on_db_bind with (R := fun d r => P d /\ forall o, r = Ok o -> orgs d !! id = Some o /\ in_scope scope o = true).
  { apply on_db_fetchOrg; naive_solver. }
  2: { intros d e [Hd _]. by apply HE. }
  intros o. eapply on_db_bind with (R := fun d r => P d /\ (orgs d !! id = Some o /\ in_scope scope o = true) /\
    forall parent, r = Ok parent -> match parentID, parent with
      | Some p, Some q => orgs d !! p = Some q /\ in_scope scope q = true | None, None => True | _, _ => False end).
  { apply on_db_fetch_parent; naive_solver. }
  2: { intros d e [Hd _]. by apply HE. }
  intros parent. eapply on_db_bind with (R := fun d r => P d /\ (r = Ok tt -> fetched d scope id o parentID parent)).
  { apply on_db_guard; [naive_solver|]. intros d (Hd & Ho & Hp) Hg. split; [done|]. intros _. specialize (Hp parent eq_refl).
    unfold fetched. destruct parentID, parent; naive_solver. }
  2: { intros d e [Hd _]. by apply HE. }
  intros []. apply on_db_eq. intros d [Hd Hf]. specialize (Hf eq_refl).
  eapply on_db_bind; [by apply HM | | done]. intros []. apply on_db_publish. auto.
Qed.

(** The statements of a move of [id] run from [d]: rolled back with an error, or both
    UPDATEs took effect. *)
Lemma on_db_repo_Move (d : OWorld) scope id parentID newPath o :
  orgs d !! id = Some o -> in_scope scope o = true ->
  on_db (eq d) (repo_Move scope id parentID newPath) (fun d' r =>
    match r with
    | Ok _ => parent_exists (orgs d) parentID = true /\
              relocate newPath (o_Path o) id (with_orgs <[id := set_place parentID newPath o]> d) = Ok d'
    | Err _ => d' = d end).
Proof.
  intros Ho Hs. unfold repo_Move. apply on_db_txn; [|by intros ? <-]. intros ? <-.
  eapply on_db_bind with (R := fun d' r => d' = d /\ forall x, r = Ok x -> x = o).
  { apply on_db_repo_GetByID; [intros ? x <- Hx _; split; [done|]; naive_solver | by intros ? <- | by intros ? <-]. }
  2: { by intros d' e _. }
  intros x. apply on_db_pre with (F := x = o); [naive_solver|]. intros ->.
  eapply on_db_bind with (R := fun d' r => match r with
    | Ok _ => parent_exists (orgs d) parentID = true /\ d' = with_orgs <[id := set_place parentID newPath o]> d | Err _ => True end).
  - apply on_db_exec_or; [|done..]. intros d0 d1 [-> _]. unfold place_org. rewrite Ho, Hs.
    destruct (parent_exists _ _); [|done]. by intros [= <-].
  - intros []. apply on_db_exec_or; [|done..]. by intros d1 d2 [H1 ->] H2.
  - done.
Qed.

Lemma keeps_Move tenantID id parentID :
  on_db (fun d : OWorld => org_inv d /\ undisturbed d id) (Move (Some tenantID) id parentID) (fun d _ => org_inv d).
Proof.
  apply on_db_Move; [|by intros d e [Hd _]]. intros d o parent [[Ht Hm] Hu] (Ho & Hs & Hp).
  eapply on_db_weaken; [by apply on_db_repo_Move | done|]. intros d' [[]|e] H; [|by subst]. destruct H as [_ H].
  set (d1 := with_orgs _ d) in H.
  assert (forall j x, j <> id -> orgs d !! j = Some x -> orgs d1 !! j = Some x) as Hin
    by (intros j x Hj Hx; cbn; by rewrite lookup_insert_ne).
  apply relocate_undisturbed in H as [-> Hnone].
  2: { intros j x Hx Hmv. cbn in Hx. apply lookup_insert_Some in Hx as [[<- <-]|[_ Hx]]; [|by eapply Hu].
       unfold moved_along in Hmv. cbn in Hmv. rewrite (row_id _ Ht id o Ho), Z.eqb_refl, andb_false_r in Hmv. done. }
  eapply org_inv_same with (w := d1); [|done]. split.
  - assert (path_below parent (o_Code o) = path_below (parentID ≫= fun p => orgs d !! p) (o_Code o)) as Heq.
    { destruct parentID as [p|], parent as [q|]; try done. destruct Hp as (Hq & _). cbn. by rewrite Hq. }
    unfold d1. cbn. rewrite Heq. apply (tree_wf_place (orgs d) id o parentID); [done | done | | |].
    + intros i x Hx Hpx. pose proof (child_moved_along _ id o i x Ht Ho Hx Hpx) as Hmv.
      assert (i <> id) as Hne by (intros ->; unfold moved_along in Hmv; rewrite (row_id _ Ht id x Hx), Z.eqb_refl, andb_false_r in Hmv; done).
      by rewrite (Hnone i x (Hin i x Hne Hx)) in Hmv.
    + intros p ->. destruct parent as [q|]; [|done]. destruct Hp as (_ & _ & Hc). intros ->.
      unfold would_cycle in Hc. by rewrite Z.eqb_refl in Hc.
    + destruct parentID as [p|]; [|done]. destruct parent as [q|]; [|done]. destruct Hp as (Hq & Hsq & _).
      exists q. split; [done|]. cbn in Hs, Hsq. to_prop. congruence.
  - intros k r Hk. destruct (Hm k r Hk) as [H1 H2]. split; [done|]. apply lookup_insert_is_Some'. by right.
Qed.

(** ** Histories *)

(** A request to the service, in the context of a tenant. *)
Inductive oaction : Type :=
| ACreate (tenantID : Z) (req : CreateOrgRequest)
| AUpdate (tenantID id : Z) (req : UpdateOrgRequest)
| ADelete (tenantID id : Z)
| AMove (tenantID id : Z) (parentID : option Z)
| AAdd (tenantID : Z) (validator : Z -> res OErr bool) (orgID userID : Z) (primary : bool)
| ARemove (tenantID userID orgID : Z).

Definition perform (a : oaction) (s : OStore) : OStore :=
  match a with
  | ACreate t req => (Create (Some t) t req s).1
  | AUpdate t id req => (Update (Some t) id req s).1
  | ADelete t id => (Delete (Some t) id s).1
  | AMove t id p => (Move (Some t) id p s).1
  | AAdd t v o u pr => (AddMember (Some t) v o u pr s).1
  | ARemove t u o => (RemoveMember (Some t) u o s).1
  end.

Definition ostep (s s' : OStore) : Prop :=
  exists a, s' = perform a s /\ match a with AMove _ id _ => undisturbed (sdb s) id | _ => True end.

(** C38: the organization tree stays a tree. From a well-formed table, whatever
    requests arrive, in whatever tenants, and whatever statements fail, every
    organization's path stays its parent's path followed by its code, its parent
    stays an organization of its tenant, codes stay valid and unique in their
    tenant, and memberships stay between existing rows; provided no row that a
    move selects below the moved organization has in its path the decimal number
    the move searches for there. *)
Theorem tree_stays_well_formed (s s' : OStore) :
  org_inv (sdb s) -> rtc ostep s s' -> org_inv (sdb s').
Proof.
  intros Hs Hr. apply (rtc_invariant ostep (fun s => org_inv (sdb s)) s s'); [|done..]. clear.
  intros s s' (a & -> & Hside) Hs. destruct a; cbn [perform].
  - by apply keeps_run; [apply keeps_Create|].
  - by apply keeps_run; [apply keeps_Update|].
  - by apply keeps_run; [apply keeps_Delete|].
  - by apply keeps_Move.
  - by apply keeps_run; [apply keeps_AddMember|].
  - by apply keeps_run; [apply keeps_RemoveMember|].
Qed.
(** ** Moving a subtree *)

Lemma dec_no_dot n a t : dec n <> String "." a /\ dec n <> "." +:+ t.
Proof.
  pose proof (dec_chars n) as H. split; intros Heq; rewrite Heq in H; discriminate H.
Qed.

Lemma dec_nonempty n : (0 < String.length (dec n))%nat.
Proof. pose proof (undec_dec n) as H. destruct (dec n); [discriminate H | cbn; lia]. Qed.

(** A subtree does not follow its root. Take any other row, of whatever tenant,
    whose path goes through the path of the organization that is moved, such as a
    child of it. Then the move changes no organization at all, or leaves that row
    with a path that is not below the moved organization any more. *)
Theorem moved_subtree_is_lost (s : OStore) tenantID id parentID o j x rest :
  org_inv (sdb s) -> orgs (sdb s) !! id = Some o -> orgs (sdb s) !! j = Some x -> j <> id ->
  o_Path x = o_Path o +:+ "." +:+ rest ->
  let s' := (Move (Some tenantID) id parentID s).1 in
  orgs (sdb s') = orgs (sdb s)
  \/ exists o' x', orgs (sdb s') !! id = Some o' /\ orgs (sdb s') !! j = Some x'
     /\ o_Path x' = o_Path o' +:+ dec (Z.of_nat (String.length (o_Path o)) + 1) /\ below (o_Path x') (o_Path o') = false.
Proof.
  intros [Ht Hm] Ho Hx Hj Hpath s'. set (d0 := sdb s). 
  assert (on_db (eq d0) (Move (Some tenantID) id parentID) (fun d' _ => orgs d' = orgs d0
    \/ exists o' x', orgs d' !! id = Some o' /\ orgs d' !! j = Some x'
     /\ o_Path x' = o_Path o' +:+ dec (Z.of_nat (String.length (o_Path o)) + 1) /\ below (o_Path x') (o_Path o') = false)) as H.
  2: { by apply H. }
  apply on_db_Move; [|intros d e <-; by left]. intros d o1 parent <- (Ho1 & Hs & _). assert (o1 = o) as -> by (unfold d0 in Ho1; congruence).
  eapply on_db_weaken; [by apply on_db_repo_Move | done|]. intros d' [[]|e] H; [|left; by subst]. destruct H as [_ H]. right. cbn.
  set (np := path_below parent (o_Code o)) in *. unfold relocate in H. set (n := dec _) in *. case_bool_decide as Hall; [|done].
  injection H as <-. cbn.
  assert (moved_along (o_Path o) id x = true) as Hmv.
  { unfold moved_along. rewrite Hpath, LIKE_below by (by eapply path_chars). cbn.
    apply negb_true_iff, Z.eqb_neq. by rewrite (row_id _ Ht j x Hx). }
  assert (moved_along (o_Path o) id (set_place parentID np o) = false) as Hself.
  { unfold moved_along. cbn. by rewrite (row_id _ Ht id o Ho), Z.eqb_refl, andb_false_r. }
  assert (is_Some (substring_from (o_Path x) n)) as Hsub.
  { apply (Hall j x); [|done]. cbn. by rewrite lookup_insert_ne. }
  unfold substring_from in *. destruct (Contains (o_Path x) n) eqn:Hc; [|by destruct Hsub].
  eexists _, _. rewrite !lookup_fmap, lookup_insert_eq, lookup_insert_ne by done. fold d0 in Hx. rewrite Hx. cbn.
  split; [done|]. split; [done|]. rewrite Hmv, Hself, Hc. cbn. split; [done|].
  apply not_true_iff_false. intros [Hb|[t Hb]]%below_inv.
  - apply (f_equal String.length) in Hb. rewrite string_app_length in Hb. pose proof (dec_nonempty (Z.of_nat (String.length (o_Path o)) + 1)) as Hpos. fold n in Hpos. lia.
  - apply app_cancel_l in Hb. by apply dec_no_dot in Hb.
Qed.

(** ** Ancestry *)

(** Ancestry by path is ancestry. In a well-formed table and within a tenant, the
    answer of IsAncestorOrSelf is whether the parents of the one lead to the other; a
    move is refused as a cycle exactly when the parents of its target lead to the
    organization itself; and the ancestor ids of a user are the organizations that
    the parents of their own lead to. *)
Theorem ancestry_by_path_is_ancestry (s : OStore) a d oa od :
  org_inv (sdb s) -> orgs (sdb s) !! a = Some oa -> orgs (sdb s) !! d = Some od -> o_TenantID od = o_TenantID oa ->
  (forall b, (IsAncestorOrSelf a d s).2 = Ok b -> b = true <-> rtc (up (orgs (sdb s))) d a)
  /\ (would_cycle a oa d od = true <-> rtc (up (orgs (sdb s))) d a)
  /\ (forall tenantID userID, o_TenantID oa = tenantID ->
        (forall org r, user_orgs (sdb s) !! (userID, org) = Some r -> exists o, orgs (sdb s) !! org = Some o /\ o_TenantID o = tenantID) ->
        a ∈ ancestor_ids tenantID userID (sdb s) <->
        exists org, is_Some (user_orgs (sdb s) !! (userID, org)) /\ rtc (up (orgs (sdb s))) org a).
Proof.
  intros [Hwf Hm] Ha Hd Ht.
  assert (forall x ox, orgs (sdb s) !! x = Some ox -> o_TenantID ox = o_TenantID oa ->
            below (o_Path ox) (o_Path oa) = true <-> rtc (up (orgs (sdb s))) x a) as Hiff.
  { intros x ox Hx Htx. split; [by eapply below_chain|]. intros Hr. by eapply chain_below. }
  split_and!.
  - intros b. unfold IsAncestorOrSelf, repo_IsAncestorOrSelf. destruct (Z.eqb_spec a d) as [->|Hne].
    + cbn. intros [= <-]. split; [done|]. done.
    + unfold Statements.select, bind, query. destruct (sfail s (scalls s)); cbn; [done|]. rewrite Ha, Hd. intros [= <-]. by apply Hiff.
  - rewrite <- (Hiff d od Hd Ht). unfold would_cycle, below. split.
    + intros [[H|H]%orb_true_iff|H]%orb_true_iff; [|by rewrite H | rewrite H; apply orb_true_r].
      apply Z.eqb_eq in H as ->. assert (od = oa) as -> by congruence. by rewrite bool_decide_true.
    + intros [H|H]%orb_true_iff; rewrite H; [|apply orb_true_r]. by rewrite orb_true_r.
  - intros tenantID userID <- Hhome. unfold ancestor_ids. rewrite elem_of_dom. split.
    + intros [o Ho]. apply map_lookup_filter_Some in Ho as [Ho [Hto Hex]%andb_true_iff]. simpl in *.
      assert (o = oa) as -> by congruence. apply existsb_exists in Hex as (r & Hin%list_elem_of_In & Hr).
      apply list_elem_of_fmap in Hin as ([k r'] & -> & Hin%elem_of_map_to_list). unfold member_below in Hr. cbn in Hr.
      destruct (Hm k r' Hin) as [-> _]. apply andb_true_iff in Hr as [Hu Hb]. apply Z.eqb_eq in Hu.
      destruct (Hhome (uo_OrgID r') r') as (o1 & Ho1 & Ht1); [by rewrite <- Hu|]. rewrite Ho1 in Hb.
      exists (uo_OrgID r'). split; [rewrite <- Hu; by eexists|]. by apply (Hiff _ o1).
    + intros (org & [r Hr] & Hc). destruct (Hhome org r Hr) as (o1 & Ho1 & Ht1). exists oa. apply map_lookup_filter_Some.
      split; [done|]. simpl. rewrite Z.eqb_refl. cbn. apply existsb_exists. exists r. split.
      * apply list_elem_of_In, list_elem_of_fmap. exists ((userID, org), r). split; [done|]. by apply elem_of_map_to_list.
      * destruct (Hm _ _ Hr) as [[= Hu Hg] _]. unfold member_below. rewrite <- Hu, <- Hg, Ho1. rewrite (Z.eqb_refl userID). cbn. by apply (Hiff org o1 Ho1 Ht1).
Qed.
End Ops.
