(* ===== verification/OrgTree.v ===== *)
(** * OrgTree: the tree of responses

    GetTree answers every organization of the tenant exactly once, each below its
    parent, and encoding the answer returns. *)

From stdpp Require Import sorting.
From S2P Require Import Prelude Statements Text Org OrgProps.
#[global] Open Scope Z_scope.

(** ** The two passes *)

Definition child_ids (os : list Organization) (p : Z) : list Z :=
  map o_ID (filter (fun o => o_ParentID o = Some p) os).

Definition is_root (os : list Organization) (o : Organization) : bool :=
  match o_ParentID o with None => true | Some p => negb (bool_decide (p ∈ map o_ID os)) end.

Lemma first_pass_lookup os p :
  first_pass os !! p = if decide (p ∈ map o_ID os) then Some [] else None.
Proof.
  unfold first_pass. induction os as [|o os IH] using rev_ind; [by rewrite decide_False by apply not_elem_of_nil|].
  rewrite foldl_app, map_app. cbn. destruct (decide (p = o_ID o)) as [->|Hne].
  - rewrite lookup_insert_eq, decide_True; [done|]. apply elem_of_app. right. by left.
  - rewrite lookup_insert_ne, IH by done. apply decide_ext. rewrite elem_of_app, list_elem_of_singleton. naive_solver.
Qed.

(** The state of the second pass after the organizations [l]. *)
Lemma second_pass os l :
  let f := foldl attach (mkForest (first_pass os) []) l in
  (forall p, nodes f !! p = if decide (p ∈ map o_ID os) then Some (child_ids l p) else None)
  /\ roots f = map o_ID (filter (fun o => is_root os o = true) l).
Proof.
  induction l as [|o l [IHn IHr]] using rev_ind; cbn zeta in *.
  - split; [intros p; apply first_pass_lookup | done].
  - rewrite foldl_app. cbn [foldl]. set (f := foldl attach _ l) in *. unfold attach.
    assert (forall p, child_ids (l ++ [o]) p = child_ids l p ++ (if decide (o_ParentID o = Some p) then [o_ID o] else [])) as Hch.
    { intros p. unfold child_ids. rewrite filter_app, map_app, filter_cons. cbn. by case_decide. }
    assert (map o_ID (filter (fun o => is_root os o = true) (l ++ [o])) = roots f ++ (if is_root os o then [o_ID o] else [])) as Hro.
    { rewrite filter_app, map_app, <- IHr, filter_cons. f_equal. by destruct (is_root os o). }
    rewrite Hro. unfold is_root. destruct (o_ParentID o) as [p0|] eqn:Hp.
    + rewrite IHn. case_decide as Hin.
      * rewrite bool_decide_true by done. cbn. split; [|by rewrite app_nil_r]. intros p.
        rewrite Hch. destruct (decide (p0 = p)) as [<-|Hne].
        -- rewrite lookup_insert_eq, !decide_True by done. done.
        -- rewrite lookup_insert_ne, IHn by done. rewrite (decide_False (P:=Some p0 = Some p)) by congruence. by rewrite app_nil_r.
      * rewrite bool_decide_false by done. cbn. split; [|done]. intros p. rewrite IHn, Hch. case_decide; [|done].
        rewrite (decide_False (P:=Some p0 = Some p)) by congruence. by rewrite app_nil_r.
    + cbn. split; [|done]. intros p. rewrite IHn, Hch. rewrite (decide_False (P:=None = Some p)) by done. by rewrite app_nil_r.
Qed.

(** ** Trees of pointers *)

Lemma mapM_all {A B} (f : A -> option B) (P : A -> B -> Prop) (l : list A) :
  (forall x, x ∈ l -> exists y, f x = Some y /\ P x y) -> exists ys, mapM f l = Some ys /\ Forall2 P l ys.
Proof.
  induction l as [|x l IH]; intros Hall; [by exists []|].
  destruct (Hall x) as (y & Hy & Hp); [by left|]. destruct IH as (ys & Hys & H); [intros; apply Hall; by right|].
  exists (y :: ys). split; [|by constructor]. apply mapM_Some. constructor; [done|]. by apply mapM_Some.
Qed.

Section Rows.
Context (m : gmap Z Organization) (Hwf : tree_wf m).

(** [t] holds what is at or below [id], once. *)
Definition holds_subtree (id : Z) (t : Tree) : Prop :=
  (forall x, x ∈ ids t <-> rtc (up m) x id) /\ NoDup (ids t).

Definition apart (a b : Z) : Prop := ~ rtc (up m) a b /\ ~ rtc (up m) b a.

Lemma siblings_apart a b p : up m a p -> up m b p -> a <> b -> apart a b.
Proof.
  intros Ha Hb Hne.
  assert (forall x y, up m x p -> up m y p -> x <> y -> ~ rtc (up m) x y) as H; [|split; by apply H].
  clear Ha Hb Hne a b. intros x y Hx Hy Hne Hc. inversion Hc as [|? p' ? Hx' Hc']; subst; [done|].
  rewrite (up_functional m _ _ _ Hx' Hx) in Hc'. apply (chain_depth m Hwf) in Hc'. apply (up_depth m Hwf) in Hy. lia.
Qed.

Lemma roots_apart a b : (forall p, ~ up m a p) -> (forall p, ~ up m b p) -> a <> b -> apart a b.
Proof.
  intros Ha Hb Hne. split; intros Hc; inversion Hc as [|? p ? H _]; subst; try done; [by apply (Ha p) | by apply (Hb p)].
Qed.

Lemma apart_disjoint a b x : apart a b -> rtc (up m) x a -> rtc (up m) x b -> False.
Proof. intros [H1 H2] Ha Hb. destruct (chain_linear m x a b Ha Hb); auto. Qed.

(** Trees of a list of ids that are apart. *)
Lemma forest_subtrees xs ts :
  Forall2 holds_subtree xs ts -> NoDup xs -> (forall a b, a ∈ xs -> b ∈ xs -> a <> b -> apart a b) ->
  (forall y, y ∈ concat (map ids ts) <-> exists x, x ∈ xs /\ rtc (up m) y x) /\ NoDup (concat (map ids ts)).
Proof.
  induction 1 as [|x t xs ts [Hx Hnd] _ IH]; intros Hxs Hap; cbn [map concat].
  - split; [|apply NoDup_nil_2]. intros y. split; [intros H | intros (x & H & _)]; by apply not_elem_of_nil in H.
  - apply NoDup_cons in Hxs as [Hnotin Hxs]. destruct IH as [IH1 IH2]; [done | intros a b Ha Hb; apply Hap; by right|]. split.
    + intros y. rewrite elem_of_app, Hx, IH1. split.
      * intros [H|(z & Hz & H)]; [exists x; split; [by left | done] | exists z; split; [by right | done]].
      * intros (z & [->|Hz]%elem_of_cons & H); [by left | right; eauto].
    + apply NoDup_app. split_and!; [done| |done]. intros y Hy (z & Hz & Hyz)%IH1. apply Hx in Hy.
      apply (apart_disjoint x z y); [|done..]. apply Hap; [by left | by right | by intros ->].
Qed.

Context (ch : gmap Z (list Z)).
Context (Hch : forall p l, ch !! p = Some l -> NoDup l /\ forall c, c ∈ l <-> up m c p).

(** Encoding returns, and writes the subtree. *)
Lemma encode_subtree L : (forall id, (depth m id <= L)%nat) ->
  forall fuel id, (L - depth m id < fuel)%nat -> is_Some (ch !! id) -> (forall c p, up m c p -> is_Some (ch !! p) -> is_Some (ch !! c)) ->
  exists t, encode fuel ch id = Some t /\ holds_subtree id t.
Proof.
  intros HL. induction fuel as [|fuel IH]; intros id Hf [l Hl] Hclosed; [lia|]. cbn [encode]. rewrite Hl. change (default [] (Some l)) with l.
  destruct (Hch id l Hl) as [Hnd Hc].
  assert (exists ts, mapM (encode fuel ch) l = Some ts /\ Forall2 holds_subtree l ts) as (ts & -> & Hts).
  { apply mapM_all. intros c Hin%Hc. apply IH; [|by eapply Hclosed|done]. apply (up_depth m Hwf) in Hin. specialize (HL c). lia. }
  exists (Node id ts). split; [done|].
  destruct (forest_subtrees l ts Hts Hnd) as [H1 H2].
  { intros a b Ha%Hc Hb%Hc. by eapply siblings_apart. }
  split; cbn [ids].
  - intros x. rewrite elem_of_cons, H1. split.
    + intros [->|(c & Hin%Hc & H)]; [done|]. by eapply rtc_r.
    + intros Hr. apply rtc_inv_r in Hr as [->|(c & Hr & Hup)]; [by left|]. right. exists c. split; [by apply Hc | done].
  - constructor; [|done]. intros (c & Hin%Hc & H)%H1. apply (chain_depth m Hwf) in H. apply (up_depth m Hwf) in Hin. lia.
Qed.
End Rows.

(** ** GetTree *)

Section Tree.
Context {G : Type} `{!IdGen G}.

(** The organizations of a tenant, in the order of the query. *)
Definition tenant_rows (w : OWorld G) (tenantID : Z) : list Organization :=
  merge_sort tree_before (filter (fun o => o_TenantID o = tenantID) (map_to_list (orgs w)).*2).

Lemma tenant_rows_spec (w : OWorld G) tenantID o :
  tree_wf (orgs w) -> o ∈ tenant_rows w tenantID <-> o_TenantID o = tenantID /\ orgs w !! o_ID o = Some o.
Proof.
  intros Hwf. unfold tenant_rows. rewrite merge_sort_Permutation, list_elem_of_filter, list_elem_of_fmap. split.
  - intros [Ht ([i x] & -> & Hx%elem_of_map_to_list)]. split; [done|]. cbn in *. by rewrite (row_id _ Hwf i x Hx).
  - intros [Ht Ho]. split; [done|]. exists (o_ID o, o). split; [done|]. by apply elem_of_map_to_list.
Qed.

Lemma tenant_rows_NoDup (w : OWorld G) tenantID : tree_wf (orgs w) -> NoDup (map o_ID (tenant_rows w tenantID)).
Proof.
  intros Hwf. unfold tenant_rows.
  rewrite (Permutation_map o_ID (merge_sort_Permutation tree_before _)). 
  apply (NoDup_keyed (orgs w) o_ID). intros i x Hx. exact (row_id _ Hwf i x Hx).
Qed.

Lemma in_ids (w : OWorld G) tenantID p : tree_wf (orgs w) ->
  p ∈ map o_ID (tenant_rows w tenantID) <-> exists o, orgs w !! p = Some o /\ o_TenantID o = tenantID.
Proof.
  intros Hwf. rewrite list_elem_of_In, in_map_iff. split.
  - intros (o & <- & Ho%list_elem_of_In). apply tenant_rows_spec in Ho as [Ht Ho]; [eauto | done].
  - intros (o & Ho & Ht). pose proof (row_id _ Hwf p o Ho) as Hid. exists o. split; [done|].
    apply list_elem_of_In, tenant_rows_spec; [done|]. by rewrite Hid.
Qed.

Lemma child_ids_spec (w : OWorld G) tenantID p o : tree_wf (orgs w) -> orgs w !! p = Some o -> o_TenantID o = tenantID ->
  NoDup (child_ids (tenant_rows w tenantID) p) /\ forall c, c ∈ child_ids (tenant_rows w tenantID) p <-> up (orgs w) c p.
Proof.
  intros Hwf Ho Ht. split.
  - eapply sublist_NoDup; [by apply (tenant_rows_NoDup w tenantID)|]. unfold child_ids. apply (fmap_sublist o_ID), sublist_filter.
  - intros c. unfold child_ids. rewrite list_elem_of_In, in_map_iff. split.
    + intros (x & <- & Hx%list_elem_of_In). apply list_elem_of_filter in Hx as [Hp Hx].
      apply tenant_rows_spec in Hx as [_ Hx]; [|done]. by exists x.
    + intros (x & Hx & Hp). pose proof (row_id _ Hwf c x Hx) as Hid. exists x. split; [done|].
      apply list_elem_of_In, list_elem_of_filter. split; [done|]. apply tenant_rows_spec; [done|]. rewrite Hid. split; [|done].
      destruct (parent_row _ Hwf c x p Hx Hp) as (q & Hq & Htq & _). congruence.
Qed.

(** Every organization of a tenant is below one without a parent. *)
Lemma root_above (w : OWorld G) x : tree_wf (orgs w) -> forall o, orgs w !! x = Some o ->
  exists r q, rtc (up (orgs w)) x r /\ orgs w !! r = Some q /\ o_ParentID q = None /\ o_TenantID q = o_TenantID o.
Proof.
  intros Hwf. remember (depth (orgs w) x) as n eqn:Hn. revert x Hn. induction (lt_wf n) as [n _ IH]; intros x -> o Ho.
  destruct (o_ParentID o) as [p|] eqn:Hp; [|by exists x, o].
  destruct (parent_row _ Hwf x o p Ho Hp) as (q & Hq & Ht & _). assert (up (orgs w) x p) as Hup by by exists o.
  destruct (IH (depth (orgs w) p) (up_depth _ Hwf _ _ Hup) p eq_refl q Hq) as (r & q' & Hr & Hq' & Hroot & Ht').
  exists r, q'. split_and!; [by eapply rtc_l | done | done | congruence].
Qed.

(** The tree of a tenant lists every organization once. Of a well-formed table,
    GetTree answers a forest whose encoding returns, whatever the depth, once it may
    go as deep as the longest path is long; it lists every organization of the
    tenant, no other, and none twice; the top holds those without a parent, and
    below each organization are those whose parent it is. *)
Theorem tree_lists_every_org_once (s : Store (OWorld G)) tenantID f L :
  org_inv (sdb s) -> (GetTree tenantID s).2 = Ok f ->
  (forall id o, orgs (sdb s) !! id = Some o -> (String.length (o_Path o) <= L)%nat) ->
  (exists ts, mapM (encode (S L) (nodes f)) (roots f) = Some ts
     /\ concat (map ids ts) ≡ₚ map o_ID (tenant_rows (sdb s) tenantID))
  /\ (forall r, r ∈ roots f <-> exists o, orgs (sdb s) !! r = Some o /\ o_TenantID o = tenantID /\ o_ParentID o = None)
  /\ (forall p l, nodes f !! p = Some l -> forall c, c ∈ l <-> up (orgs (sdb s)) c p).
Proof.
  intros [Hwf _] Hget HL.
  assert (f = buildTree (tenant_rows (sdb s) tenantID)) as ->.
  { unfold GetTree, repo_GetTree, Statements.select, bind, query in Hget. destruct (sfail s (scalls s)); [done|]. by injection Hget as <-. }
  set (w := sdb s) in *. set (os := tenant_rows w tenantID) in *.
  destruct (second_pass os os) as [Hnodes Hroots]. fold (buildTree os) in Hnodes, Hroots.
  assert (forall o, is_root os o = true /\ o ∈ os <-> o ∈ os /\ o_ParentID o = None) as Hisroot.
  { intros o. unfold is_root. destruct (o_ParentID o) as [p|] eqn:Hp; [|naive_solver]. split; [|naive_solver].
    intros [H Ho]. exfalso. apply negb_true_iff, bool_decide_eq_false in H. apply H, in_ids; [done|].
    apply tenant_rows_spec in Ho as [Ht Ho]; [|done]. destruct (parent_row _ Hwf _ o p Ho Hp) as (q & Hq & Htq & _).
    exists q. split; [done | congruence]. }
  assert (forall r, r ∈ roots (buildTree os) <-> exists o, orgs w !! r = Some o /\ o_TenantID o = tenantID /\ o_ParentID o = None) as Hr.
  { intros r. rewrite Hroots, list_elem_of_In, in_map_iff. split.
    - intros (o & <- & Ho%list_elem_of_In). apply list_elem_of_filter, Hisroot in Ho as [Ho Hp].
      apply tenant_rows_spec in Ho as [Ht Ho]; eauto.
    - intros (o & Ho & Ht & Hp). pose proof (row_id _ Hwf r o Ho) as Hid. exists o. split; [done|].
      apply list_elem_of_In, list_elem_of_filter, Hisroot. split; [|done]. apply tenant_rows_spec; [done|]. by rewrite Hid. }
  assert (forall p l, nodes (buildTree os) !! p = Some l -> NoDup l /\ forall c, c ∈ l <-> up (orgs w) c p) as Hch.
  { intros p l Hl. rewrite Hnodes in Hl. case_decide as Hin; [|done]. injection Hl as <-.
    apply in_ids in Hin as (o & Ho & Ht); [|done]. by eapply child_ids_spec. }
  assert (forall p, is_Some (nodes (buildTree os) !! p) <-> exists o, orgs w !! p = Some o /\ o_TenantID o = tenantID) as Hdom.
  { intros p. rewrite Hnodes, <- (in_ids w tenantID p Hwf). case_decide; [naive_solver|]. split; [by intros [? ?] | done]. }
  split_and!; [|exact Hr | intros p l Hl; by apply (Hch p l Hl)].
  assert (exists ts, mapM (encode (S L) (nodes (buildTree os))) (roots (buildTree os)) = Some ts
    /\ Forall2 (holds_subtree (orgs w)) (roots (buildTree os)) ts) as (ts & Hts & Hall).
  { apply mapM_all. intros r (o & Ho & Ht & Hp)%Hr. apply (encode_subtree (orgs w) Hwf _ Hch L).
    - intros id. unfold depth. destruct (orgs w !! id) eqn:Hid; cbn; [by eapply HL | lia].
    - lia.
    - apply Hdom. eauto.
    - intros c p Hup (q & Hq & Htq)%Hdom. apply Hdom. destruct (up_row _ Hwf c p Hup) as (oc & op & Hoc & Hop & Htt).
      exists oc. split; [done | congruence]. }
  exists ts. split; [done|]. destruct (forest_subtrees (orgs w) _ ts Hall) as [H1 H2].
  { rewrite Hroots. eapply sublist_NoDup; [by apply (tenant_rows_NoDup w tenantID)|]. apply (fmap_sublist o_ID), sublist_filter. }
  { intros a b (oa & Ha & _ & Hpa)%Hr (ob & Hb & _ & Hpb)%Hr. apply roots_apart; intros p (o & Ho & Hp); congruence. }
  apply NoDup_Permutation; [done | by apply tenant_rows_NoDup|]. intros x. pose proof (in_ids w tenantID x Hwf) as Hin. fold os in Hin. rewrite H1, Hin. split.
  - intros (r & (q & Hq & Ht & _)%Hr & Hc). inversion Hc as [|? p ? Hup _]; subst; [eauto|].
    destruct Hup as (o & Ho & Hp). exists o. split; [done|]. by apply (chain_below _ Hwf x r Hc o q).
  - intros (o & Ho & Ht). destruct (root_above w x Hwf o Ho) as (r & q & Hc & Hq & Hroot & Htq).
    exists r. split; [|done]. apply Hr. exists q. split_and!; [done | congruence | done].
Qed.
End Tree.

(** ** Inputs *)

Module OrgDemo.

(** Two tenants that chose the same codes: root (1), eng (2) and backend (3) of tenant
    1, root (4), eng (5) and backend_2 (6) of tenant 2. *)
Definition empty : Store (OWorld Z) := mkStore (mkOWorld ∅ ∅ 0 [] 100) (fun _ => false) 0.
Definition create (t : Z) (code : string) (parent : option Z) : oaction := ACreate t (mkCreateOrg code code parent 0).
Definition history : list oaction :=
  [create 1 "root" None; create 1 "eng" (Some 1); create 1 "backend" (Some 2);
   create 2 "root" None; create 2 "eng" (Some 4); create 2 "backend_2" (Some 5);
   AAdd 1 (fun _ => Ok true) 3 7 true; AAdd 2 (fun _ => Ok true) 6 8 true].
Definition demo : Store (OWorld Z) := fold_left (fun s a => perform a s) history empty.

Lemma empty_inv : org_inv (sdb empty).
Proof. split; [split|]; [apply map_Forall_empty | intros i j a b H; cbn in H; by rewrite lookup_empty in H | intros k r H; cbn in H; by rewrite lookup_empty in H]. Qed.

Lemma demo_inv : org_inv (sdb demo).
Proof.
  unfold demo, history. cbn [fold_left perform create].
  do 2 (apply keeps_run; [apply keeps_AddMember|]). do 6 (apply keeps_run; [apply keeps_Create|]). apply empty_inv.
Qed.

Definition row (id : Z) : Organization := default (mkOrg 0 0 "" "" None "" 0 0) (orgs (sdb demo) !! id).

Example demo_paths :
  map (fun id => o_Path (row id)) [1; 2; 3; 4; 5; 6]
  = ["root"; "root.eng"; "root.eng.backend"; "root"; "root.eng"; "root.eng.backend_2"]%string.
Proof. vm_compute. reflexivity. Qed.

Lemma tree_stays_well_formed_witness :
  org_inv (sdb empty) /\ rtc ostep empty (perform (create 1 "eng" (Some 1)) (perform (create 1 "root" None) empty))
  /\ org_inv (sdb (perform (create 1 "eng" (Some 1)) (perform (create 1 "root" None) empty))).
Proof.
  assert (rtc ostep empty (perform (create 1 "eng" (Some 1)) (perform (create 1 "root" None) empty))) as H.
  { eapply rtc_l; [by exists (create 1 "root" None)|]. eapply rtc_l; [by exists (create 1 "eng" (Some 1))|]. constructor. }
  split_and!; [exact empty_inv | exact H | exact (tree_stays_well_formed empty _ empty_inv H)].
Defined.

(** Moving eng of tenant 1 to the top fails, on the row of its child and on a row of
    tenant 2. *)
Example moving_eng : (Move (Some 1) 2 None demo).2 = Err ErrNotNull.
Proof. vm_compute. reflexivity. Qed.

Lemma moved_subtree_is_lost_witness :
  let s' := (Move (Some 1) 2 None demo).1 in
  orgs (sdb s') = orgs (sdb demo)
  \/ exists o' x', orgs (sdb s') !! 2 = Some o' /\ orgs (sdb s') !! 6 = Some x'
     /\ o_Path x' = o_Path o' +:+ dec (Z.of_nat (String.length (o_Path (row 2))) + 1) /\ below (o_Path x') (o_Path o') = false.
Proof.
  apply (moved_subtree_is_lost demo 1 2 None (row 2) 6 (row 6) "backend_2");
    [exact demo_inv | vm_compute; reflexivity | vm_compute; reflexivity | done | vm_compute; reflexivity].
Defined.

(** With the digit in the path, the move succeeds and joins it to the new path. *)
Example a_digit_is_joined :
  let s := perform (create 1 "team9" (Some 2)) demo in
  let s := perform (ADelete 2 6) (perform (ADelete 1 3) s) in
  let r := Move (Some 1) 2 None s in
  r.2 = Ok tt /\ (fun o => o_Path o) <$> orgs (sdb r.1) !! 9 = Some "eng9"%string.
Proof. vm_compute. done. Qed.

Lemma ancestry_by_path_is_ancestry_witness :
  (IsAncestorOrSelf 1 3 demo).2 = Ok true /\ rtc (up (orgs (sdb demo))) 3 1
  /\ 1 ∈ ancestor_ids 1 7 (sdb demo).
Proof.
  destruct (ancestry_by_path_is_ancestry demo 1 3 (row 1) (row 3)) as (H1 & _ & _);
    [exact demo_inv | vm_compute; reflexivity | vm_compute; reflexivity | vm_compute; reflexivity|].
  split_and!; [vm_compute; reflexivity | apply (H1 true); vm_compute; reflexivity|].
  vm_compute. reflexivity.
Defined.

Definition tree1 : Forest := buildTree (tenant_rows (sdb demo) 1).

Lemma tree_lists_every_org_once_witness :
  (GetTree 1 demo).2 = Ok tree1
  /\ exists ts, mapM (encode 21 (nodes tree1)) (roots tree1) = Some ts
     /\ concat (map ids ts) ≡ₚ map o_ID (tenant_rows (sdb demo) 1).
Proof.
  split; [vm_compute; reflexivity|]. apply (tree_lists_every_org_once demo 1 tree1 20).
  - exact demo_inv.
  - vm_compute. reflexivity.
  - apply (map_Forall_lookup (fun _ o => (String.length (o_Path o) <= 20)%nat)). apply (bool_decide_unpack _). vm_compute. exact I.
Defined.

(** The members of eng of tenant 1 include the user of tenant 2. *)
Example members_across_tenants :
  (GetMembers (Some 1) (fun _ => true) 2 1 10 demo).2 = Ok ([8; 7], 2) \/
  (GetMembers (Some 1) (fun _ => true) 2 1 10 demo).2 = Ok ([7; 8], 2).
Proof. vm_compute. auto. Qed.
End OrgDemo.
