(* ===== verification/AppAccess.v ===== *)
(** * AppAccess: who may launch which application

    src/internal/domain/appaccess (service.go, repository.go, subject_cleanup.go), with
    the matcher and validators of src/app/adapters_oidc.go and adapters_refvalidators.go,
    over the tables of groups, organizations and role bindings the other
    components write. *)

From stdpp Require Import sorting.
From S2P Require Import Prelude Statements Text GroupRule GroupSync Access Org.
#[global] Open Scope Z_scope.

Definition SubjectPublic : string := "public".
Definition SubjectUser : string := "user".
Definition SubjectGroup : string := "group".
Definition SubjectOrg : string := "org".
Definition SubjectRole : string := "role".
Definition EffectAllow : string := "allow".
Definition EffectDeny : string := "deny".

Record Policy : Type := mkPolicy {
  p_ID : Z; p_AppID : option Z; p_AppGroupID : option Z; p_TenantID : Z; p_SubjectType : string;
  p_SubjectID : Z; p_Effect : string; p_CreatedAt : Z; p_CreatedBy : option Z
}.

Record AccessDecision : Type := mkDecision { Allowed : bool; MatchedRule : option Policy; Reason : string }.

Record AddPolicyRequest : Type := mkAddPolicy {
  ap_AppID : option Z; ap_AppGroupID : option Z; ap_TenantID : Z; ap_SubjectType : string;
  ap_SubjectID : Z; ap_Effect : string; ap_CreatedBy : option Z
}.
Record BatchAddRequest : Type := mkBatchAdd {
  ba_AppID : option Z; ba_AppGroupID : option Z; ba_TenantID : Z; ba_SubjectType : string;
  ba_SubjectIDs : list Z; ba_Effect : string; ba_CreatedBy : option Z
}.
Record BatchAddResult : Type := mkBatchResult { Created : list Policy; Skipped : Z }.

Inductive AErr : Type :=
| ErrDB
| ErrRecordNotFound
| ErrDuplicateKey
| ErrCheckViolation
| ErrParentNotInTenant
| ErrSubjectNotInTenant
| ErrInvalidPolicy
| ErrNoValidator
| ErrOrg (e : OErr).

Inductive AEvent : Type :=
| AccessPolicyChanged (tenantID : Z) (appID appGroupID : option Z)
| SubjectPoliciesRemoved (subjectType : string) (subjectID removed : Z)
| AppAccessPolicyCreated (p : Policy)
| AppAccessPolicyDeleted (p : Policy).

Definition validSubjectType (s : string) : bool :=
  bool_decide (s ∈ [SubjectPublic; SubjectUser; SubjectGroup; SubjectOrg; SubjectRole]).
Definition validEffect (e : string) : bool := bool_decide (e = EffectAllow \/ e = EffectDeny).

Section AppAccess.
Context {G : Type} `{!IdGen G}.

(** mxid_app_access_policy by id, mxid_app_group_rel as (app, group) pairs, and the
    tables that say who is a member of what. *)
Record AWorld : Type := mkAWorld {
  policies : gmap Z Policy; app_group_rel : list (Z * Z);
  groups : gmap Z UserGroup; group_members : gmap (Z * Z) UserGroupMember;
  org_part : OWorld G; bindings : gmap Z RoleBinding; events : list AEvent
}.

Abbreviation AStore := (Store AWorld).
Abbreviation Op := (M AStore AErr).
Abbreviation select := (Statements.select ErrDB).
Abbreviation exec := (Statements.exec ErrDB).
Abbreviation exec_or := (Statements.exec_or ErrDB).

Definition with_policies f (w : AWorld) :=
  mkAWorld (f (policies w)) (app_group_rel w) (groups w) (group_members w) (org_part w) (bindings w) (events w).
Definition with_org o (w : AWorld) :=
  mkAWorld (policies w) (app_group_rel w) (groups w) (group_members w) o (bindings w) (events w).
Definition clock (w : AWorld) : Z := wall (org_part w).

(** An operation of the organizations, on its part of the database. *)
Definition on_org {A} (m : M (Store (OWorld G)) OErr A) : Op A := fun s =>
  let '(s', r) := m (mkStore (org_part (sdb s)) (sfail s) (scalls s)) in
  (mkStore (with_org (sdb s') (sdb s)) (sfail s') (scalls s'),
   match r with Ok a => Ok a | Err Org.ErrRecordNotFound => Err ErrRecordNotFound | Err e => Err (ErrOrg e) end).

Definition publish (e : AEvent) : Op unit :=
  write (fun w => mkAWorld (policies w) (app_group_rel w) (groups w) (group_members w) (org_part w) (bindings w) (events w ++ [e])).

(** ** repository.go; [scope] is the tenant the context is pinned to *)

Definition pinned (scope : option Z) (p : Policy) : bool :=
  match scope with Some t => p_TenantID p =? t | None => true end.

(** [ORDER BY created_at DESC] *)
Definition policy_newer (a b : Policy) : Prop := p_CreatedAt b <= p_CreatedAt a.
#[export] Instance policy_newer_dec : RelDecision policy_newer.
Proof. intros a b. unfold policy_newer. apply _. Defined.

Definition rows_where (f : Policy -> bool) (w : AWorld) : list Policy :=
  merge_sort policy_newer (filter (fun p => f p = true) (map_to_list (policies w)).*2).

(** [app_id = a OR app_group_id IN (SELECT group_id ... WHERE app_id = a)] *)
Definition targets_app (w : AWorld) (appID : Z) (p : Policy) : bool :=
  bool_decide (p_AppID p = Some appID)
  || match p_AppGroupID p with Some g => bool_decide ((appID, g) ∈ app_group_rel w) | None => false end.

(** A raw query: no tenant but the one it names. *)
Definition ListByApp (appID tenantID : Z) : Op (list Policy) :=
  select (fun w => rows_where (fun p => (p_TenantID p =? tenantID) && targets_app w appID p) w).

Definition ListOwnByApp (scope : option Z) (appID tenantID : Z) : Op (list Policy) :=
  select (rows_where (fun p => bool_decide (p_AppID p = Some appID) && (p_TenantID p =? tenantID) && pinned scope p)).

Definition ListByAppGroup (scope : option Z) (groupID tenantID : Z) : Op (list Policy) :=
  select (rows_where (fun p => bool_decide (p_AppGroupID p = Some groupID) && (p_TenantID p =? tenantID) && pinned scope p)).

(** The unique index of migration 000024. *)
Definition same_key (p q : Policy) : bool :=
  bool_decide (default 0 (p_AppID p) = default 0 (p_AppID q) /\ default 0 (p_AppGroupID p) = default 0 (p_AppGroupID q)
    /\ p_TenantID p = p_TenantID q /\ p_SubjectType p = p_SubjectType q /\ p_SubjectID p = p_SubjectID q).

(** The CHECK of migration 000024: one target. *)
Definition one_target (p : Policy) : bool :=
  match p_AppID p, p_AppGroupID p with Some _, None | None, Some _ => true | _, _ => false end.

Definition stamp_policy (scope : option Z) (t : Z) (p : Policy) : Policy :=
  mkPolicy (p_ID p) (p_AppID p) (p_AppGroupID p)
    (match scope with Some tid => if p_TenantID p =? 0 then tid else p_TenantID p | None => p_TenantID p end)
    (p_SubjectType p) (p_SubjectID p) (p_Effect p) t (p_CreatedBy p).

Definition insert_policy (p : Policy) (w : AWorld) : res AErr AWorld :=
  if negb (one_target p) then Err ErrCheckViolation
  else if bool_decide (is_Some (policies w !! p_ID p)) then Err ErrDuplicateKey
  else if bool_decide (map_Forall (fun _ q => same_key p q = false) (policies w))
  then Ok (with_policies <[p_ID p := p]> w) else Err ErrDuplicateKey.

(** gorm stamps created_at and the tenant on the row it was given. *)
Definition repo_Create (scope : option Z) (p : Policy) : Op Policy :=
  let! t := gets (fun s => clock (sdb s)) in
  do! exec_or (insert_policy (stamp_policy scope t p)) in
  ret (stamp_policy scope t p).

Definition repo_GetByID (scope : option Z) (id tenantID : Z) : Op Policy :=
  let! w := query ErrDB in
  match policies w !! id with
  | Some p => if (p_TenantID p =? tenantID) && pinned scope p then ret p else throw ErrRecordNotFound
  | None => throw ErrRecordNotFound
  end.

Definition repo_Delete (scope : option Z) (id : Z) : Op unit :=
  exec (with_policies (filter (fun q : Z * Policy => ~ (q.1 = id /\ pinned scope q.2 = true)))).

(** Runs in a cross-tenant context; answers the number of rows. *)
Definition DeleteBySubject (subjectType : string) (subjectID : Z) : Op Z :=
  let hit := fun q : Z * Policy => p_SubjectType q.2 = subjectType /\ p_SubjectID q.2 = subjectID in
  let! w := query ErrDB in
  do! write (with_policies (filter (fun q => ~ hit q))) in
  ret (Z.of_nat (size (filter hit (policies w)))).

(** ** The matcher of adapters_oidc.go *)

Record SubjectMatcher : Type := mkMatcher {
  UserInGroup : Z -> Z -> Op bool; UserInOrg : Z -> Z -> Op bool; UserHasRole : Z -> Z -> Op bool
}.

Definition in_group (w : AWorld) (userID groupID : Z) : bool := bool_decide (is_Some (group_members w !! (groupID, userID))).

(** [o.id = ? OR o.path <@ (SELECT path ... WHERE id = ?)] for an organization of the user *)
Definition org_covers (m : gmap Z Organization) (orgID : Z) (r : UserOrg) : bool :=
  match m !! uo_OrgID r with
  | Some o => (o_ID o =? orgID) || match m !! orgID with Some a => below (o_Path o) (o_Path a) | None => false end
  | None => false
  end.
Definition in_org (w : AWorld) (userID orgID : Z) : bool :=
  existsb (fun r => (uo_UserID r =? userID) && org_covers (orgs (org_part w)) orgID r) (map_to_list (user_orgs (org_part w))).*2.

Definition bound_to (userID roleID : Z) (b : RoleBinding) : bool :=
  (rb_role_id b =? roleID) && bool_decide (rb_subject_type b = "user"%string) && (rb_subject_id b =? userID).
Definition in_force (t : Z) (b : RoleBinding) : bool :=
  (rb_status b =? 1) && match rb_expires_at b with Some x => t <? x | None => true end.

Definition accessMatcher : SubjectMatcher := {|
  UserInGroup := fun userID groupID => select (fun w => in_group w userID groupID);
  UserInOrg := fun userID orgID => select (fun w => in_org w userID orgID);
  UserHasRole := fun userID roleID =>
    select (fun w => existsb (fun b => bound_to userID roleID b && in_force (clock w) b) (map_to_list (bindings w)).*2)
|}.

(** ** CanAccess *)

Section Decisions.
(** [nil] before it is injected *)
Context (matcher : option SubjectMatcher).

Definition subjectMatches (r : Policy) (userID : Z) : Op bool :=
  let typ s := bool_decide (p_SubjectType r = s) in
  if typ SubjectPublic then ret true
  else if typ SubjectUser then ret (p_SubjectID r =? userID)
  else if typ SubjectGroup then match matcher with None => ret false | Some m => UserInGroup m userID (p_SubjectID r) end
  else if typ SubjectOrg then match matcher with None => ret false | Some m => UserInOrg m userID (p_SubjectID r) end
  else if typ SubjectRole then match matcher with None => ret false | Some m => UserHasRole m userID (p_SubjectID r) end
  else ret false.

(** One pass over the rules of an effect: the first that matches. *)
Fixpoint first_match (effect : string) (rows : list Policy) (userID : Z) : Op (option Policy) :=
  match rows with
  | [] => ret None
  | r :: rows' =>
      if bool_decide (p_Effect r = effect) then
        let! matched := subjectMatches r userID in
        if matched : bool then ret (Some r) else first_match effect rows' userID
      else first_match effect rows' userID
  end.

Definition subject_text (r : Policy) : string := p_SubjectType r +:+ ":" +:+ dec (p_SubjectID r).

(** The error of the second lookup is not looked at. *)
Definition with_global (appID tenantID : Z) (rows : list Policy) : Op (list Policy) :=
  if tenantID =? 0 then ret rows else
  attempt (ListByApp appID 0) (fun r => match r with Ok global => ret (rows ++ global) | Err _ => ret rows end).

Definition CanAccess (userID appID tenantID : Z) : Op AccessDecision :=
  let! own := ListByApp appID tenantID in
  let! rows := with_global appID tenantID own in
  if bool_decide (rows = []) then ret (mkDecision false None "no-rule-defined") else
  let! denied := first_match EffectDeny rows userID in
  match denied with
  | Some r => ret (mkDecision false (Some r) ("deny:" +:+ subject_text r))
  | None =>
      let! allowed := first_match EffectAllow rows userID in
      match allowed with
      | Some r => ret (mkDecision true (Some r) (subject_text r))
      | None => ret (mkDecision false None "no-rule-matched")
      end
  end.
End Decisions.

(** ** AppsForUser: the same in SQL *)

Definition sql_in_group (w : AWorld) (userID groupID : Z) : bool :=
  in_group w userID groupID
  && match groups w !! groupID with Some g => negb (g_Deleted g) | None => false end.

Definition sql_has_role (w : AWorld) (userID roleID : Z) : bool :=
  existsb (bound_to userID roleID) (map_to_list (bindings w)).*2.

Definition subjectMatchSQL (w : AWorld) (userID : Z) (p : Policy) : bool :=
  let typ s := bool_decide (p_SubjectType p = s) in
  typ "public"%string
  || typ "user"%string && (p_SubjectID p =? userID)
  || typ "group"%string && sql_in_group w userID (p_SubjectID p)
  || typ "org"%string && in_org w userID (p_SubjectID p)
  || typ "role"%string && sql_has_role w userID (p_SubjectID p).

(** The two halves of each UNION: the apps a row is about. *)
Definition apps_of (w : AWorld) (p : Policy) : list Z :=
  match p_AppID p with Some a => [a] | None => [] end
  ++ match p_AppGroupID p with Some g => (filter (fun q => q.2 = g) (app_group_rel w)).*1 | None => [] end.

Definition apps_with (w : AWorld) (effect : string) (userID tenantID : Z) : gset Z :=
  list_to_set (concat (map (apps_of w)
    (filter (fun p => ((p_TenantID p =? tenantID) || (p_TenantID p =? 0)) && bool_decide (p_Effect p = effect)
                      && subjectMatchSQL w userID p = true) (map_to_list (policies w)).*2))).

Definition AppsForUser (userID tenantID : Z) : Op (gset Z) :=
  let! allowed := select (fun w => apps_with w "allow" userID tenantID) in
  let! denied := select (fun w => apps_with w "deny" userID tenantID) in
  ret (allowed ∖ denied).

(** ** service.go: changing policies *)

Record RefValidators : Type := mkValidators {
  v_App : option (Z -> Op bool); v_AppGroup : option (Z -> Op bool); v_User : option (Z -> Op bool);
  v_Group : option (Z -> Op bool); v_Org : option (Z -> Op bool); v_Role : option (Z -> Op bool)
}.

(** adapters_refvalidators.go *)
Definition existsInTenant {A} (getByID : Z -> Op A) (id : Z) : Op bool :=
  attempt (getByID id) (fun r => match r with Ok _ => ret true | Err ErrRecordNotFound => ret false | Err e => throw e end).
Definition validateOrgInTenant (scope : option Z) : Z -> Op bool := existsInTenant (fun id => on_org (Org.repo_GetByID scope id)).

Section Changes.
Context (validators : RefValidators).

Definition validated (v : option (Z -> Op bool)) (id : Z) (missing : AErr) : Op unit :=
  match v with
  | None => throw ErrNoValidator
  | Some v => let! ok := v id in guard (negb ok) missing
  end.

Definition validateParent (appID groupID : option Z) : Op unit :=
  match appID, groupID with
  | Some id, _ => validated (v_App validators) id ErrParentNotInTenant
  | None, Some id => validated (v_AppGroup validators) id ErrParentNotInTenant
  | None, None => throw ErrNoValidator
  end.

Definition validateSubject (subjectType : string) (subjectID : Z) : Op unit :=
  let typ s := bool_decide (subjectType = s) in
  if typ SubjectPublic then ret tt
  else if typ SubjectUser then validated (v_User validators) subjectID ErrSubjectNotInTenant
  else if typ SubjectGroup then validated (v_Group validators) subjectID ErrSubjectNotInTenant
  else if typ SubjectOrg then validated (v_Org validators) subjectID ErrSubjectNotInTenant
  else if typ SubjectRole then validated (v_Role validators) subjectID ErrSubjectNotInTenant
  else throw ErrNoValidator.

Definition both_or_none (a b : option Z) : bool := Bool.eqb (bool_decide (a = None)) (bool_decide (b = None)).
Definition effect_or_allow (e : string) : string := if bool_decide (e = "")%string then EffectAllow else e.

Definition new_id : Op Z := on_org Org.new_id.

Definition AddPolicy (scope : option Z) (req : AddPolicyRequest) : Op Policy :=
  do! guard (both_or_none (ap_AppID req) (ap_AppGroupID req)) ErrInvalidPolicy in
  do! guard (negb (validSubjectType (ap_SubjectType req))) ErrInvalidPolicy in
  let effect := effect_or_allow (ap_Effect req) in
  do! guard (negb (validEffect effect)) ErrInvalidPolicy in
  let public := bool_decide (ap_SubjectType req = SubjectPublic) in
  do! guard (negb public && (ap_SubjectID req =? 0)) ErrInvalidPolicy in
  let subjectID := if public then 0 else ap_SubjectID req in
  do! validateParent (ap_AppID req) (ap_AppGroupID req) in
  do! validateSubject (ap_SubjectType req) subjectID in
  let! id := new_id in
  let! p := repo_Create scope (mkPolicy id (ap_AppID req) (ap_AppGroupID req) (ap_TenantID req) (ap_SubjectType req)
                                 subjectID effect 0 (ap_CreatedBy req)) in
  do! publish (AccessPolicyChanged (ap_TenantID req) (ap_AppID req) (ap_AppGroupID req)) in
  do! publish (AppAccessPolicyCreated p) in
  ret p.

Definition listOwnFor (scope : option Z) (appID groupID : option Z) (tenantID : Z) : Op (list Policy) :=
  match appID, groupID with
  | Some a, _ => ListOwnByApp scope a tenantID
  | None, Some g => ListByAppGroup scope g tenantID
  | None, None => throw ErrInvalidPolicy
  end.

(** The loop over the subjects: [seen] is what the request named so far. *)
Fixpoint add_each (scope : option Z) (req : BatchAddRequest) (effect : string) (have seen : list Z)
    (sids : list Z) (acc : BatchAddResult) : Op BatchAddResult :=
  match sids with
  | [] => ret acc
  | sid :: sids' =>
      do! guard (sid =? 0) ErrInvalidPolicy in
      if bool_decide (sid ∈ seen) then add_each scope req effect have seen sids' acc else
      if bool_decide (sid ∈ have) then
        add_each scope req effect have (sid :: seen) sids' (mkBatchResult (Created acc) (Skipped acc + 1))
      else
        do! validateSubject (ba_SubjectType req) sid in
        let! id := new_id in
        let! p := repo_Create scope (mkPolicy id (ba_AppID req) (ba_AppGroupID req) (ba_TenantID req)
                                       (ba_SubjectType req) sid effect 0 (ba_CreatedBy req)) in
        do! publish (AppAccessPolicyCreated p) in
        add_each scope req effect have (sid :: seen) sids' (mkBatchResult (Created acc ++ [p]) (Skipped acc))
  end.

Definition AddPoliciesBatch (scope : option Z) (req : BatchAddRequest) : Op BatchAddResult :=
  do! guard (both_or_none (ba_AppID req) (ba_AppGroupID req)) ErrInvalidPolicy in
  do! guard (negb (validSubjectType (ba_SubjectType req)) || bool_decide (ba_SubjectType req = SubjectPublic)) ErrInvalidPolicy in
  let effect := effect_or_allow (ba_Effect req) in
  do! guard (negb (validEffect effect)) ErrInvalidPolicy in
  do! guard (bool_decide (ba_SubjectIDs req = [])) ErrInvalidPolicy in
  do! validateParent (ba_AppID req) (ba_AppGroupID req) in
  let! existing := listOwnFor scope (ba_AppID req) (ba_AppGroupID req) (ba_TenantID req) in
  let have := map p_SubjectID (filter (fun p => p_SubjectType p = ba_SubjectType req) existing) in
  let! result := add_each scope req effect have [] (ba_SubjectIDs req) (mkBatchResult [] 0) in
  do! (if bool_decide (Created result = []) then ret tt
       else publish (AccessPolicyChanged (ba_TenantID req) (ba_AppID req) (ba_AppGroupID req))) in
  ret result.
End Changes.

(** The row is read for the audit event only: its absence does not stop the delete. *)
Definition DeletePolicy (scope : option Z) (id tenantID : Z) : Op unit :=
  attempt (repo_GetByID scope id tenantID) (fun got =>
    do! repo_Delete scope id in
    do! publish (AccessPolicyChanged tenantID None None) in
    match got with Ok p => publish (AppAccessPolicyDeleted p) | Err _ => ret tt end).

(** ** subject_cleanup.go *)

(** The handler of a subject-deleted event, with the id of its payload; errors are
    logged. *)
Definition cleanupSubject (subjectType : string) (id : Z) : Op unit :=
  if id =? 0 then ret tt else
  attempt (DeleteBySubject subjectType id) (fun r =>
    match r with
    | Ok n => if 0 <? n then publish (SubjectPoliciesRemoved subjectType id n) else ret tt
    | Err _ => ret tt
    end).

(** What the subscription makes of an event of the organizations. *)
Definition on_org_event (e : OEvent) : Op unit :=
  match e with OrgDeleted id => cleanupSubject SubjectOrg id | _ => ret tt end.

Fixpoint deliver (es : list OEvent) : Op unit :=
  match es with [] => ret tt | e :: es' => do! on_org_event e in deliver es' end.

(** A request to the organizations, and the delivery of the events it published. *)
Definition org_request (m : M (Store (OWorld G)) OErr unit) : Op unit :=
  let! before := gets (fun s => length (bus (org_part (sdb s)))) in
  attempt (on_org m) (fun r =>
    let! after := gets (fun s => bus (org_part (sdb s))) in
    do! deliver (drop before after) in
    match r with Ok _ => ret tt | Err e => throw e end).
End AppAccess.
Arguments AWorld : clear implicits.
