(* ===== verification/AppAccessProps.v ===== *)
(** * AppAccessProps: what the policies decide

    CanAccess implements the documented rule, deny before allow, whatever the order
    of the rows; the portal lists what may be launched as long as no binding ran out;
    a failing lookup loses the global denials; and deleting an organization one
    cannot see removes the policies about it. *)

From stdpp Require Import sorting.
From S2P Require Import Prelude Statements Text GroupRule GroupSync Access Org OrgProps OrgTree AppAccess.
#[global] Open Scope Z_scope.

Section Props.
Context {G : Type} `{!IdGen G}.

Abbreviation AWorld := (AppAccess.AWorld G).
Abbreviation AStore := (Store AWorld).
Abbreviation Op := (M AStore AErr).

(** ** Reading *)

(** While statements are answered [m] reads [v] from [w] and writes nothing. *)
Definition reads {A} (w : AWorld) (m : Op A) (v : A) : Prop := runs w m (Ok v) w.

Lemma access_reads_ret {A} w (a : A) : reads w (ret a) a.
Proof. apply runs_ret. Qed.
Lemma access_reads_bind {A B} w (m : Op A) (k : A -> Op B) a b : reads w m a -> reads w (k a) b -> reads w (bind m k) b.
Proof. apply runs_bind. Qed.
Lemma reads_attempt {A B} w (m : Op A) (k : res AErr A -> Op B) a b :
  reads w m a -> reads w (k (Ok a)) b -> reads w (attempt m k) b.
Proof. apply runs_attempt. Qed.
Lemma reads_select {A} w (f : AWorld -> A) : reads w (Statements.select ErrDB f) (f w).
Proof. apply runs_select. Qed.
Lemma reads_result {A} (m : Op A) v s : reads (sdb s) m v -> healthy_from s -> (m s).2 = Ok v.
Proof. intros Hm Hs. by apply runs_result with (w' := sdb s). Qed.

(** ** The rule that is documented *)

Definition has_role (w : AWorld) (userID roleID : Z) : bool :=
  existsb (fun b => bound_to userID roleID b && in_force (clock w) b) (map_to_list (bindings w)).*2.

(** The user is the subject of the rule. *)
Definition concerns (w : AWorld) (userID : Z) (p : Policy) : bool :=
  let typ s := bool_decide (p_SubjectType p = s) in
  if typ SubjectPublic then true
  else if typ SubjectUser then p_SubjectID p =? userID
  else if typ SubjectGroup then in_group w userID (p_SubjectID p)
  else if typ SubjectOrg then in_org w userID (p_SubjectID p)
  else if typ SubjectRole then has_role w userID (p_SubjectID p)
  else false.

(** A rule of the tenant, or a global one, about the application and the user. *)
Definition applies (w : AWorld) (userID appID tenantID : Z) (effect : string) (p : Policy) : Prop :=
  p ∈ (map_to_list (policies w)).*2 /\ (p_TenantID p = tenantID \/ p_TenantID p = 0)
  /\ targets_app w appID p = true /\ p_Effect p = effect /\ concerns w userID p = true.

Definition may_launch (w : AWorld) (userID appID tenantID : Z) : Prop :=
  (exists p, applies w userID appID tenantID EffectAllow p) /\ ~ exists p, applies w userID appID tenantID EffectDeny p.

(** ** CanAccess *)

Lemma reads_subjectMatches w p userID : reads w (subjectMatches (Some accessMatcher) p userID) (concerns w userID p).
Proof.
  unfold subjectMatches, concerns. repeat case_bool_decide; try apply access_reads_ret.
  - apply (reads_select w (fun w => in_group w userID (p_SubjectID p))).
  - apply (reads_select w (fun w => in_org w userID (p_SubjectID p))).
  - apply (reads_select w (fun w => has_role w userID (p_SubjectID p))).
Qed.

(** The first rule of an effect that concerns the user. *)
Definition hit (w : AWorld) (userID : Z) (effect : string) (p : Policy) : Prop :=
  p_Effect p = effect /\ concerns w userID p = true.

Lemma reads_first_match w effect rows userID :
  reads w (first_match (Some accessMatcher) effect rows userID) (snd <$> list_find (hit w userID effect) rows).
Proof.
  induction rows as [|r rows IH]; cbn [first_match list_find]; [apply access_reads_ret|].
  destruct (decide (hit w userID effect r)) as [[He Hc]|Hn].
  - rewrite bool_decide_true by done. eapply access_reads_bind; [apply reads_subjectMatches|]. rewrite Hc. apply access_reads_ret.
  - assert (forall x : option (nat * Policy), snd <$> (prod_map S id <$> x) = snd <$> x) as Heq by by intros [[? ?]|].
    rewrite Heq. case_bool_decide as He; [|exact IH]. eapply access_reads_bind; [apply reads_subjectMatches|].
    destruct (concerns w userID r) eqn:Hc; [by destruct Hn | exact IH].
Qed.

Lemma list_find_hit w userID effect rows :
  match snd <$> list_find (hit w userID effect) rows with
  | Some p => p ∈ rows /\ hit w userID effect p
  | None => forall p, p ∈ rows -> ~ hit w userID effect p
  end.
Proof.
  destruct (list_find _ rows) as [[i p]|] eqn:Hf; cbn.
  - apply list_find_Some in Hf as (Hl & Hh & _). split; [by eapply list_elem_of_lookup_2 | done].
  - intros p Hin. apply list_find_None in Hf. by eapply Forall_forall in Hf.
Qed.

Definition own_rows (w : AWorld) (appID tenantID : Z) : list Policy :=
  rows_where (fun p => (p_TenantID p =? tenantID) && targets_app w appID p) w.
Definition effective_rows (w : AWorld) (appID tenantID : Z) : list Policy :=
  own_rows w appID tenantID ++ (if tenantID =? 0 then [] else own_rows w appID 0).

Lemma own_rows_spec w appID tenantID p :
  p ∈ own_rows w appID tenantID <-> p ∈ (map_to_list (policies w)).*2 /\ p_TenantID p = tenantID /\ targets_app w appID p = true.
Proof.
  unfold own_rows, rows_where. rewrite merge_sort_Permutation, list_elem_of_filter, andb_true_iff, Z.eqb_eq. naive_solver.
Qed.

Lemma effective_rows_spec w userID appID tenantID effect p :
  p ∈ effective_rows w appID tenantID /\ hit w userID effect p <-> applies w userID appID tenantID effect p.
Proof.
  unfold effective_rows, applies, hit. rewrite elem_of_app, own_rows_spec. destruct (Z.eqb_spec tenantID 0) as [->|Hne].
  - rewrite elem_of_nil. naive_solver.
  - rewrite own_rows_spec. naive_solver.
Qed.

Lemma reads_with_global w appID tenantID own : reads w (with_global appID tenantID own)
  (own ++ (if tenantID =? 0 then [] else own_rows w appID 0)).
Proof.
  unfold with_global. destruct (tenantID =? 0); [rewrite app_nil_r; apply access_reads_ret|].
  eapply reads_attempt; [apply reads_select | apply access_reads_ret].
Qed.

(** What is decided from the rows. *)
Definition decide_on (w : AWorld) (userID : Z) (rows : list Policy) : AccessDecision :=
  if bool_decide (rows = []) then mkDecision false None "no-rule-defined" else
  match snd <$> list_find (hit w userID EffectDeny) rows with
  | Some r => mkDecision false (Some r) ("deny:" +:+ subject_text r)
  | None => match snd <$> list_find (hit w userID EffectAllow) rows with
            | Some r => mkDecision true (Some r) (subject_text r)
            | None => mkDecision false None "no-rule-matched"
            end
  end.

(** The second half of CanAccess, from the rows on. *)
Definition decide_rows (rows : list Policy) (userID : Z) : Op AccessDecision :=
  if bool_decide (rows = []) then ret (mkDecision false None "no-rule-defined") else
  let! denied := first_match (Some accessMatcher) EffectDeny rows userID in
  match denied with
  | Some r => ret (mkDecision false (Some r) ("deny:" +:+ subject_text r))
  | None =>
      let! allowed := first_match (Some accessMatcher) EffectAllow rows userID in
      match allowed with
      | Some r => ret (mkDecision true (Some r) (subject_text r))
      | None => ret (mkDecision false None "no-rule-matched")
      end
  end.

Lemma reads_decide w userID rows : reads w (decide_rows rows userID) (decide_on w userID rows).
Proof.
  unfold decide_on, decide_rows. case_bool_decide; [apply access_reads_ret|]. eapply access_reads_bind; [apply reads_first_match|].
  destruct (snd <$> list_find (hit w userID EffectDeny) rows); [apply access_reads_ret|].
  eapply access_reads_bind; [apply reads_first_match|]. destruct (snd <$> list_find (hit w userID EffectAllow) rows); apply access_reads_ret.
Qed.

Lemma reads_CanAccess w userID appID tenantID :
  reads w (CanAccess (Some accessMatcher) userID appID tenantID) (decide_on w userID (effective_rows w appID tenantID)).
Proof.
  unfold CanAccess. eapply access_reads_bind; [apply reads_select|]. eapply access_reads_bind; [apply reads_with_global|].
  apply reads_decide.
Qed.

Lemma decide_on_spec w userID rows :
  (Allowed (decide_on w userID rows) = true <-> (exists p, p ∈ rows /\ hit w userID EffectAllow p)
     /\ ~ exists p, p ∈ rows /\ hit w userID EffectDeny p)
  /\ forall p, MatchedRule (decide_on w userID rows) = Some p ->
     p ∈ rows /\ hit w userID (if Allowed (decide_on w userID rows) then EffectAllow else EffectDeny) p.
Proof.
  unfold decide_on. case_bool_decide as Hn.
  { subst. cbn. split; [|done]. split; [done|]. intros [(p & H & _) _]. by apply not_elem_of_nil in H. }
  pose proof (list_find_hit w userID EffectDeny rows) as Hd. destruct (snd <$> list_find (hit w userID EffectDeny) rows) as [p|]; cbn.
  { split; [|by intros ? [= <-]]. split; [done|]. intros [_ H]. destruct H. by exists p. }
  pose proof (list_find_hit w userID EffectAllow rows) as Ha. destruct (snd <$> list_find (hit w userID EffectAllow) rows) as [p|]; cbn.
  - split; [|by intros ? [= <-]]. split; [|done]. intros _. split; [by exists p|]. intros (q & Hq & Hh). by apply (Hd q).
  - split; [|done]. split; [done|]. intros [(q & Hq & Hh) _]. by destruct (Ha q).
Qed.

(** C37: a launch is decided by the documented rule. When the database answers,
    CanAccess allows a user to launch an application exactly when some allow rule of
    the tenant, or a global one, about the application or a group it is in concerns
    the user, and no deny rule does; in whatever order the rows come. The rule it
    answers is one that decided. *)
Theorem launch_decided_by_rules (s : AStore) userID appID tenantID :
  healthy s -> exists d, (CanAccess (Some accessMatcher) userID appID tenantID s).2 = Ok d
  /\ (Allowed d = true <-> may_launch (sdb s) userID appID tenantID)
  /\ forall p, MatchedRule d = Some p ->
       applies (sdb s) userID appID tenantID (if Allowed d then EffectAllow else EffectDeny) p.
Proof.
  intros Hs. eexists. split; [apply reads_result; [apply reads_CanAccess | by apply healthy_now]|].
  destruct (decide_on_spec (sdb s) userID (effective_rows (sdb s) appID tenantID)) as [H1 H2]. split.
  - rewrite H1. unfold may_launch. by setoid_rewrite effective_rows_spec.
  - intros p Hp. by apply effective_rows_spec, H2.
Qed.
(** ** The portal's list *)

(** No role binding has run out, and no group with members is gone. *)
Definition settled (w : AWorld) (userID : Z) : Prop :=
  (forall i b roleID, bindings w !! i = Some b -> bound_to userID roleID b = true -> in_force (clock w) b = true)
  /\ (forall gid m, group_members w !! (gid, userID) = Some m -> exists g, groups w !! gid = Some g /\ g_Deleted g = false).

Lemma settled_role (w : AWorld) userID roleID : settled w userID -> sql_has_role w userID roleID = has_role w userID roleID.
Proof.
  intros [Hb _]. unfold sql_has_role, has_role. apply eq_bool_prop_intro. rewrite !Is_true_true, !existsb_exists.
  split; intros (b & Hin & H); exists b; (split; [done|]); [|by apply andb_true_iff in H as [? _]].
  apply andb_true_iff. split; [done|]. apply list_elem_of_In, list_elem_of_fmap in Hin as ([i b'] & -> & Hin%elem_of_map_to_list).
  by eapply Hb.
Qed.

Lemma settled_group (w : AWorld) userID gid : settled w userID -> sql_in_group w userID gid = in_group w userID gid.
Proof.
  intros [_ Hg]. unfold sql_in_group, in_group. case_bool_decide as Hm; [|done].
  destruct Hm as [m Hm]. destruct (Hg gid m Hm) as (g & -> & Hd). by rewrite Hd.
Qed.

Lemma settled_concerns (w : AWorld) userID p : settled w userID -> subjectMatchSQL w userID p = concerns w userID p.
Proof.
  intros Hs. unfold subjectMatchSQL, concerns. rewrite settled_group, settled_role by done.
  unfold SubjectPublic, SubjectUser, SubjectGroup, SubjectOrg, SubjectRole.
  repeat case_bool_decide; try congruence; cbn; rewrite ?orb_false_r; done.
Qed.

Lemma apps_of_spec (w : AWorld) p a : a ∈ apps_of w p <-> targets_app w a p = true.
Proof.
  unfold apps_of, targets_app. rewrite elem_of_app, orb_true_iff, bool_decide_eq_true. f_equiv.
  - destruct (p_AppID p) as [x|]; [|rewrite elem_of_nil; naive_solver]. rewrite list_elem_of_singleton. naive_solver.
  - destruct (p_AppGroupID p) as [g|]; [|rewrite elem_of_nil; naive_solver].
    rewrite bool_decide_eq_true, list_elem_of_fmap. split.
    + intros ([x y] & -> & H). apply list_elem_of_filter in H as [Hy H]. cbn in *. by subst.
    + intros H. exists (a, g). split; [done|]. by apply list_elem_of_filter.
Qed.

Lemma apps_with_spec (w : AWorld) effect userID tenantID a : settled w userID ->
  a ∈ apps_with w effect userID tenantID <-> exists p, applies w userID a tenantID effect p.
Proof.
  intros Hs. unfold apps_with, applies. rewrite elem_of_list_to_set, list_elem_of_In, in_concat. split.
  - intros (l & Hl & Ha%list_elem_of_In). apply in_map_iff in Hl as (p & <- & Hp%list_elem_of_In).
    apply list_elem_of_filter in Hp as [Hf Hp]. rewrite !andb_true_iff, orb_true_iff, !Z.eqb_eq, bool_decide_eq_true in Hf.
    destruct Hf as [[Ht He] Hm]. exists p. rewrite settled_concerns in Hm by done. by apply apps_of_spec in Ha.
  - intros (p & Hp & Ht & Hta & He & Hc). exists (apps_of w p). split; [|by apply list_elem_of_In, apps_of_spec].
    apply in_map_iff. exists p. split; [done|]. apply list_elem_of_In, list_elem_of_filter. split; [|done].
    rewrite !andb_true_iff, orb_true_iff, !Z.eqb_eq, bool_decide_eq_true, settled_concerns; done.
Qed.

Lemma reads_AppsForUser w userID tenantID :
  reads w (AppsForUser userID tenantID) (apps_with w "allow" userID tenantID ∖ apps_with w "deny" userID tenantID).
Proof.
  unfold AppsForUser. eapply access_reads_bind; [apply reads_select|]. eapply access_reads_bind; [apply reads_select|]. apply access_reads_ret.
Qed.

(** The portal lists what may be launched. When the database answers, no role
    binding of the user has run out, and no group the user has a membership in is
    deleted, an application is in the answer of AppsForUser exactly when CanAccess
    allows it. *)
Theorem portal_lists_what_can_be_launched (s : AStore) userID tenantID appID :
  healthy s -> settled (sdb s) userID ->
  exists apps d, (AppsForUser userID tenantID s).2 = Ok apps
  /\ (CanAccess (Some accessMatcher) userID appID tenantID s).2 = Ok d
  /\ (appID ∈ apps <-> Allowed d = true).
Proof.
  intros Hs Hset. eexists _, _. split; [apply reads_result; [apply reads_AppsForUser | by apply healthy_now]|].
  split; [apply reads_result; [apply reads_CanAccess | by apply healthy_now]|].
  rewrite elem_of_difference, !apps_with_spec by done.
  destruct (decide_on_spec (sdb s) userID (effective_rows (sdb s) appID tenantID)) as [-> _].
  by setoid_rewrite effective_rows_spec.
Qed.

(** ** A lookup that fails *)

(** The statements after the first two are answered. *)
Definition second_fails {D} (s : Store D) : Prop :=
  sfail s (scalls s) = false /\ sfail s (S (scalls s)) = true /\ forall n, (S (S (scalls s)) <= n)%nat -> sfail s n = false.

(** A failing lookup loses the global denials. When the first statement of
    CanAccess is answered and the second, for the global rules, is not, the decision
    is made from the tenant's own rules: a user that an own allow rule concerns and no
    own deny rule does is let in, whatever global rules deny it. *)
Theorem failed_lookup_loses_global_denials (s : AStore) userID appID tenantID :
  second_fails s -> tenantID <> 0 ->
  (exists p, applies (sdb s) userID appID tenantID EffectAllow p /\ p_TenantID p = tenantID) ->
  (forall p, applies (sdb s) userID appID tenantID EffectDeny p -> p_TenantID p = 0) ->
  exists d, (CanAccess (Some accessMatcher) userID appID tenantID s).2 = Ok d /\ Allowed d = true.
Proof.
  intros (H0 & H1 & Hrest) Ht Hallow Hdeny. set (w := sdb s) in *. set (own := own_rows w appID tenantID).
  assert ((CanAccess (Some accessMatcher) userID appID tenantID s).2
    = (decide_rows own userID (mkStore w (sfail s) (S (S (scalls s))))).2) as Heq.
  { unfold CanAccess, ListByApp. unfold bind at 1. rewrite select_run, H0.
    unfold with_global. destruct (Z.eqb_spec tenantID 0); [done|]. unfold bind at 1, attempt, ListByApp.
    rewrite select_run. cbn [sdb sfail scalls]. rewrite H1. reflexivity. }
  exists (decide_on w userID own). split.
  { rewrite Heq. apply (reads_result _ _ (mkStore w (sfail s) (S (S (scalls s))))); [apply reads_decide|]. intros n Hn. by apply Hrest. }
  apply decide_on_spec. split.
  - destruct Hallow as (p & (Hp & _ & Hta & Hh) & Htp). exists p. split; [|done]. by apply own_rows_spec.
  - intros (p & (Hp & Htp & Hta)%own_rows_spec & Hh). apply Ht. rewrite <- Htp. apply Hdeny. split_and!; [done | by left | done | apply Hh..].
Qed.
(** ** Deleting what one cannot see *)

Lemma foreign_children m t id o : tree_wf m -> m !! id = Some o -> o_TenantID o <> t -> children_of (Some t) m id = ∅.
Proof.
  intros Hwf Ho Ht. apply map_empty. intros i. apply map_lookup_filter_None. right. intros x Hx [Hp Hs]. cbn in *.
  destruct (parent_row m Hwf i x id Hx Hp) as (q & Hq & Htq & _). apply Z.eqb_eq in Hs. congruence.
Qed.

(** Deleting an organization of another tenant: nothing happens, and it is announced. *)
Lemma foreign_delete (s : Store (OWorld G)) t id o :
  healthy_from s -> org_inv (sdb s) -> orgs (sdb s) !! id = Some o -> o_TenantID o <> t -> id <> RootOrgID ->
  exists n, (scalls s <= n)%nat /\ Org.Delete (Some t) id s
    = (mkStore (mkOWorld (orgs (sdb s)) (user_orgs (sdb s)) (idGen (sdb s)) (bus (sdb s) ++ [OrgDeleted id]) (wall (sdb s))) (sfail s) n, Ok tt).
Proof.
  intros Hs [Hwf _] Ho Ht Hroot. exists (S (S (scalls s))). split; [lia|]. unfold Org.Delete, repo_GetChildren, Org.repo_Delete.
  erewrite bind_ok_run by (unfold guard; destruct (Z.eqb_spec id RootOrgID); [done | reflexivity]).
  erewrite bind_ok_run by (rewrite select_run, (Hs (scalls s)) by lia; reflexivity).
  rewrite (foreign_children _ t id o Hwf Ho Ht). erewrite bind_ok_run by reflexivity.
  erewrite bind_ok_run.
  2: { rewrite exec_or_run. cbn [sdb sfail scalls]. rewrite (Hs (S (scalls s))) by lia.
       unfold delete_org. rewrite Ho. unfold in_scope. rewrite (proj2 (Z.eqb_neq _ _) Ht). reflexivity. }
  reflexivity.
Qed.

(** The rules about a subject. *)
Definition about (typ : string) (id : Z) (q : Z * Policy) : Prop := p_SubjectType q.2 = typ /\ p_SubjectID q.2 = id.

Lemma cleanup_run (s : AStore) typ id : healthy_from s -> id <> 0 ->
  exists s', cleanupSubject typ id s = (s', Ok tt) /\ org_part (sdb s') = org_part (sdb s)
    /\ policies (sdb s') = filter (fun q => ~ about typ id q) (policies (sdb s)).
Proof.
  intros Hs Hid. unfold cleanupSubject. destruct (Z.eqb_spec id 0); [done|]. unfold attempt, DeleteBySubject.
  unfold bind at 1, query. rewrite (Hs (scalls s)) by lia. unfold bind at 1, write, modify at 1. cbn [ret].
  destruct (_ <? _); eexists; split; [reflexivity| | reflexivity|]; done.
Qed.

(** Deleting an organization one cannot see removes the access rules about it. A
    delete request in the context of one tenant, for an organization of another,
    succeeds and leaves every organization in place, but is announced; when the
    announcement is delivered, every access rule about that organization is gone,
    of whatever tenant. *)
Theorem foreign_delete_removes_policies (s : AStore) t id o :
  healthy s -> org_inv (org_part (sdb s)) -> orgs (org_part (sdb s)) !! id = Some o -> o_TenantID o <> t ->
  id <> RootOrgID -> id <> 0 ->
  let '(s', r) := org_request (Org.Delete (Some t) id) s in
  r = Ok tt /\ orgs (org_part (sdb s')) = orgs (org_part (sdb s))
  /\ policies (sdb s') = filter (fun q => ~ about SubjectOrg id q) (policies (sdb s)).
Proof.
  intros Hs Hinv Ho Ht Hroot Hid. unfold org_request. unfold gets at 1, bind at 1. unfold attempt, on_org at 1.
  destruct (foreign_delete (mkStore (org_part (sdb s)) (sfail s) (scalls s)) t id o) as (n & Hn & ->);
    [intros k _; apply Hs | done..|]. cbn [sdb sfail scalls]. unfold bind at 1, gets. cbn [sdb with_org org_part bus].
  rewrite drop_app_length. cbn [deliver on_org_event]. unfold bind at 1 2.
  match goal with |- context [cleanupSubject SubjectOrg id ?s1] =>
    destruct (cleanup_run s1 SubjectOrg id) as (s2 & -> & Horg & Hpol); [intros k _; apply Hs | done|] end.
  cbn in Horg, Hpol |- *. rewrite Horg, Hpol. done.
Qed.
(** ** The table of policies *)

Definition policy_ok (id : Z) (p : Policy) : Prop :=
  p_ID p = id /\ one_target p = true /\ validSubjectType (p_SubjectType p) = true /\ validEffect (p_Effect p) = true
  /\ (p_SubjectID p = 0 <-> p_SubjectType p = SubjectPublic).

Definition policies_ok (m : gmap Z Policy) : Prop :=
  map_Forall policy_ok m /\ forall i j p q, m !! i = Some p -> m !! j = Some q -> same_key p q = true -> i = j.

Lemma same_key_sym p q : same_key p q = same_key q p.
Proof. unfold same_key. apply bool_decide_ext. naive_solver. Qed.

Lemma policies_ok_insert m p :
  policies_ok m -> policy_ok (p_ID p) p -> map_Forall (fun _ q => same_key p q = false) m -> policies_ok (<[p_ID p := p]> m).
Proof.
  intros [H1 H2] Hp Hfree. split; [by apply map_Forall_insert_2|].
  intros i j a b [[<- <-]|[Hi Ha]]%lookup_insert_Some [[<- <-]|[Hj Hb]]%lookup_insert_Some Hk; [done | | |].
  - by rewrite (Hfree j b Hb) in Hk.
  - rewrite same_key_sym in Hk. by rewrite (Hfree i a Ha) in Hk.
  - eauto.
Qed.

Lemma policies_ok_stamped (w : AWorld) scope p :
  policies_ok (policies w) -> validSubjectType (p_SubjectType p) = true -> validEffect (p_Effect p) = true ->
  (p_SubjectID p = 0 <-> p_SubjectType p = SubjectPublic) -> one_target (stamp_policy scope (clock w) p) = true ->
  map_Forall (fun _ q => same_key (stamp_policy scope (clock w) p) q = false) (policies w) ->
  policies_ok (policies (with_policies <[p_ID p := stamp_policy scope (clock w) p]> w)).
Proof. intros Hw Ht He Hs Ho Hk. apply (policies_ok_insert (policies w) (stamp_policy scope (clock w) p)); done. Qed.

Lemma policies_ok_filter m (P : Z * Policy -> Prop) `{!forall x, Decision (P x)} : policies_ok m -> policies_ok (filter P m).
Proof.
  intros [H1 H2]. split.
  - intros i p Hp. apply map_lookup_filter_Some in Hp as [Hp _]. by apply H1.
  - intros i j p q Hp Hq. apply map_lookup_filter_Some in Hp as [Hp _], Hq as [Hq _]. eauto.
Qed.

Lemma access_keeps_publish (I : gmap Z Policy -> Prop) e : keeps (fun w : AWorld => I (policies w)) (AppAccess.publish e).
Proof. by apply on_db_write. Qed.

Lemma keeps_on_org {A} (I : gmap Z Policy -> Prop) (m : M (Store (OWorld G)) OErr A) : keeps (fun w => I (policies w)) (on_org m).
Proof. intros s Hs. unfold on_org. by destruct (m _) as [s' r]. Qed.

(** A validator only reads. *)
Definition reads_only (v : option (Z -> Op bool)) : Prop :=
  forall f, v = Some f -> forall id (I : gmap Z Policy -> Prop), keeps (fun w => I (policies w)) (f id).
Definition validators_read (vs : RefValidators) : Prop :=
  reads_only (v_App vs) /\ reads_only (v_AppGroup vs) /\ reads_only (v_User vs)
  /\ reads_only (v_Group vs) /\ reads_only (v_Org vs) /\ reads_only (v_Role vs).

Lemma org_validator_reads scope : reads_only (Some (validateOrgInTenant scope)).
Proof.
  intros f [= <-] id I. unfold validateOrgInTenant, existsInTenant. apply keeps_attempt; [apply keeps_on_org|].
  intros [a|e]; [apply keeps_ret|]. destruct e; (apply keeps_ret || apply keeps_throw).
Qed.

Section Changes.
Context (vs : RefValidators) (Hvs : validators_read vs).

Lemma keeps_validated (I : gmap Z Policy -> Prop) v id e : reads_only v -> keeps (fun w => I (policies w)) (validated v id e).
Proof.
  intros Hv. unfold validated. destruct v as [f|]; [|apply keeps_throw].
  apply keeps_bind; [by apply Hv | intros; apply keeps_guard].
Qed.

Lemma keeps_validateParent (I : gmap Z Policy -> Prop) a g : keeps (fun w => I (policies w)) (validateParent vs a g).
Proof. destruct Hvs as (?&?&?&?&?&?). unfold validateParent. destruct a, g; (by apply keeps_validated || apply keeps_throw). Qed.

Lemma keeps_validateSubject (I : gmap Z Policy -> Prop) t id : keeps (fun w => I (policies w)) (validateSubject vs t id).
Proof.
  destruct Hvs as (?&?&?&?&?&?). unfold validateSubject.
  repeat case_bool_decide; (apply keeps_ret || (by apply keeps_validated) || apply keeps_throw).
Qed.

(** The row an insertion adds. *)
Lemma on_db_repo_Create (P : AWorld -> Prop) scope p Q :
  (forall w w' q, P w -> q = stamp_policy scope (clock w) p -> one_target q = true -> policies w !! p_ID p = None ->
     map_Forall (fun _ r => same_key q r = false) (policies w) -> w' = with_policies <[p_ID p := q]> w -> Q w' (Ok q)) ->
  (forall w e, P w -> Q w (Err e)) -> on_db P (repo_Create scope p) Q.
Proof.
  intros H1 H2. unfold repo_Create. apply on_db_eq. intros w Hw.
  eapply on_db_bind with (R := fun d r => d = w /\ r = Ok (clock w)); [|intros t|naive_solver].
  { apply (on_db_gets (eq w) clock). by intros d <-. }
  apply on_db_pre with (F := t = clock w); [naive_solver|]. intros ->. set (q := stamp_policy scope (clock w) p).
  eapply on_db_bind with (R := fun d r => match r with
    | Ok _ => one_target q = true /\ policies w !! p_ID p = None /\ map_Forall (fun _ r => same_key q r = false) (policies w)
              /\ d = with_policies <[p_ID p := q]> w
    | Err _ => d = w end).
  - apply on_db_exec_or; [|naive_solver..]. intros d d' [-> _]. unfold insert_policy.
    destruct (one_target q) eqn:Ho; [|done]. cbn [negb]. case_bool_decide as Hpk; [done|]. case_bool_decide as Hk; [|done].
    intros [= <-]. split_and!; [done | by apply eq_None_not_Some in Hpk | done | done].
  - intros []. apply on_db_ret. intros d (Ho & Hn & Hk & ->). by eapply H1.
  - intros d e ->. by apply H2.
Qed.

Lemma valid_key_public t id : validSubjectType t = true ->
  (if bool_decide (t = SubjectPublic) then 0 else id) = 0 <-> t = SubjectPublic \/ id = 0.
Proof. intros _. case_bool_decide; naive_solver. Qed.

Lemma keeps_AddPolicy scope req : keeps (fun w => policies_ok (policies w)) (AddPolicy vs scope req).
Proof.
  set (J := fun w : AWorld => policies_ok (policies w)). unfold AddPolicy.
  eapply on_db_bind with (R := fun w _ => J w); [by apply on_db_guard | intros [] | done].
  eapply on_db_bind with (R := fun w r => J w /\ (r = Ok tt -> validSubjectType (ap_SubjectType req) = true));
    [apply on_db_guard; [done | intros w Hw H; by apply negb_false_iff in H] | intros [] | by intros w e [? _]].
  apply on_db_pre with (F := validSubjectType (ap_SubjectType req) = true); [naive_solver|]. intros Htyp.
  eapply on_db_bind with (R := fun w r => J w /\ (r = Ok tt -> validEffect (effect_or_allow (ap_Effect req)) = true));
    [apply on_db_guard; [naive_solver | intros w [Hw _] H; by apply negb_false_iff in H] | intros [] | by intros w e [? _]].
  apply on_db_pre with (F := validEffect (effect_or_allow (ap_Effect req)) = true); [naive_solver|]. intros Heff.
  eapply on_db_bind with (R := fun w r => J w /\ (r = Ok tt -> negb (bool_decide (ap_SubjectType req = SubjectPublic)) && (ap_SubjectID req =? 0) = false));
    [apply on_db_guard; naive_solver | intros [] | by intros w e [? _]].
  eapply on_db_pre; [intros w [_ H]; exact (H eq_refl)|]. intros Hsid.
  eapply on_db_weaken with (P' := J) (Q' := fun w _ => J w); [|by intros w [? _] | done].
  set (sid := if bool_decide (ap_SubjectType req = SubjectPublic) then 0 else ap_SubjectID req).
  assert (sid = 0 <-> ap_SubjectType req = SubjectPublic) as Hpub.
  { unfold sid. case_bool_decide as Hp; [naive_solver|]. cbn in Hsid. apply Z.eqb_neq in Hsid. naive_solver. }
  apply keeps_bind; [apply keeps_validateParent|]. intros []. apply keeps_bind; [apply keeps_validateSubject|]. intros [].
  apply keeps_bind; [apply keeps_on_org|]. intros id. apply keeps_bind.
  - apply on_db_repo_Create; [|done]. intros w w' q Hw -> Ho Hn Hk ->. by apply policies_ok_stamped.
  - intros p. apply keeps_bind; [apply access_keeps_publish|]. intros []. apply keeps_bind; [apply access_keeps_publish | intros; apply keeps_ret].
Qed.

Lemma keeps_add_each scope req effect have seen sids acc :
  validSubjectType (ba_SubjectType req) = true -> ba_SubjectType req <> SubjectPublic -> validEffect effect = true ->
  keeps (fun w => policies_ok (policies w)) (add_each vs scope req effect have seen sids acc).
Proof.
  intros Ht Hp He. revert seen acc. induction sids as [|sid sids IH]; intros seen acc; cbn [add_each]; [apply keeps_ret|].
  eapply on_db_bind with (R := fun w r => policies_ok (policies w) /\ (r = Ok tt -> sid <> 0));
    [apply on_db_guard; [done | intros w Hw H; by apply Z.eqb_neq in H] | intros [] | by intros w e [? _]].
  eapply on_db_pre; [intros w [_ H]; exact (H eq_refl)|]. intros Hsid.
  eapply on_db_weaken with (P' := fun w => policies_ok (policies w)) (Q' := fun w _ => policies_ok (policies w)); [|by intros w [? _] | done].
  case_bool_decide; [apply IH|]. case_bool_decide; [apply IH|].
  apply keeps_bind; [apply keeps_validateSubject|]. intros []. apply keeps_bind; [apply keeps_on_org|]. intros id.
  apply keeps_bind.
  - apply on_db_repo_Create; [|done]. intros w w' q Hw -> Ho Hn Hk ->. by apply policies_ok_stamped.
  - intros p. apply keeps_bind; [apply access_keeps_publish|]. intros []. apply IH.
Qed.

Lemma keeps_AddPoliciesBatch scope req : keeps (fun w => policies_ok (policies w)) (AddPoliciesBatch vs scope req).
Proof.
  set (J := fun w : AWorld => policies_ok (policies w)). unfold AddPoliciesBatch.
  eapply on_db_bind with (R := fun w _ => J w); [by apply on_db_guard | intros [] | done].
  eapply on_db_bind with (R := fun w r => J w /\ (r = Ok tt -> negb (validSubjectType (ba_SubjectType req)) || bool_decide (ba_SubjectType req = SubjectPublic) = false));
    [by apply on_db_guard | intros [] | by intros w e [? _]].
  eapply on_db_pre; [intros w [_ H]; exact (H eq_refl)|]. intros [Htyp Hpub]%orb_false_iff.
  apply negb_false_iff in Htyp. apply bool_decide_eq_false in Hpub.
  eapply on_db_bind with (R := fun w r => J w /\ (r = Ok tt -> validEffect (effect_or_allow (ba_Effect req)) = true));
    [apply on_db_guard; [naive_solver | intros w [Hw _] H; by apply negb_false_iff in H] | intros [] | by intros w e [? _]].
  eapply on_db_pre; [intros w [_ H]; exact (H eq_refl)|]. intros Heff.
  eapply on_db_weaken with (P' := J) (Q' := fun w _ => J w); [|by intros w [? _] | done].
  apply keeps_bind; [apply keeps_guard|]. intros []. apply keeps_bind; [apply keeps_validateParent|]. intros [].
  apply keeps_bind; [destruct (ba_AppID req), (ba_AppGroupID req); (apply keeps_select || apply keeps_throw)|]. intros existing.
  apply keeps_bind; [by apply keeps_add_each|]. intros r.
  apply keeps_bind; [case_bool_decide; [apply keeps_ret | apply access_keeps_publish] | intros; apply keeps_ret].
Qed.

Lemma keeps_DeleteBySubject typ id : keeps (fun w : AWorld => policies_ok (policies w)) (DeleteBySubject typ id).
Proof.
  unfold DeleteBySubject. apply keeps_bind; [apply keeps_query|]. intros w.
  apply keeps_bind; [|intros; apply keeps_ret]. apply keeps_write. intros d Hd. by apply policies_ok_filter.
Qed.

Lemma keeps_deliver es : keeps (fun w : AWorld => policies_ok (policies w)) (deliver es).
Proof.
  induction es as [|e es IH]; cbn [deliver]; [apply keeps_ret|]. apply keeps_bind; [|by intros []].
  destruct e; try apply keeps_ret. cbn [on_org_event]. unfold cleanupSubject. destruct (_ =? _); [apply keeps_ret|].
  apply keeps_attempt; [apply keeps_DeleteBySubject|]. intros [n|e]; [|apply keeps_ret].
  destruct (_ <? _); [apply access_keeps_publish | apply keeps_ret].
Qed.

(** ** Histories *)

Inductive aaction : Type :=
| PAdd (scope : option Z) (req : AddPolicyRequest)
| PBatch (scope : option Z) (req : BatchAddRequest)
| PDelete (scope : option Z) (id tenantID : Z)
| POrg (m : M (Store (OWorld G)) OErr unit).

Definition act (a : aaction) (s : AStore) : AStore :=
  match a with
  | PAdd scope req => (AddPolicy vs scope req s).1
  | PBatch scope req => (AddPoliciesBatch vs scope req s).1
  | PDelete scope id t => (DeletePolicy scope id t s).1
  | POrg m => (org_request m s).1
  end.
Definition astep (s s' : AStore) : Prop := exists a, s' = act a s.

(** The table of policies stays well formed. Whatever requests arrive, whatever
    the organizations do and announce, and whatever statements fail, every policy
    has one target, a known subject type and effect, a subject exactly when it is
    not public, and no other policy has its target, tenant and subject. *)
Theorem policies_stay_well_formed (s s' : AStore) :
  policies_ok (policies (sdb s)) -> rtc astep s s' -> policies_ok (policies (sdb s')).
Proof.
  intros Hs Hr. apply (rtc_invariant astep (fun s => policies_ok (policies (sdb s))) s s'); [|done..].
  clear s s' Hs Hr. intros s s' (a & ->) Hs. destruct a; cbn [act].
  - by apply keeps_AddPolicy.
  - by apply keeps_AddPoliciesBatch.
  - apply (keeps_run (fun w : AWorld => policies_ok (policies w))); [|done]. unfold DeletePolicy. apply keeps_attempt.
    { unfold repo_GetByID. apply keeps_bind; [apply keeps_query|]. intros w. destruct (_ !! _); [|apply keeps_throw].
      destruct (_ && _); [apply keeps_ret | apply keeps_throw]. }
    intros got. apply keeps_bind; [apply keeps_exec; intros d Hd; by apply policies_ok_filter|]. intros [].
    apply keeps_bind; [apply access_keeps_publish|]. intros []. destruct got; [apply access_keeps_publish | apply keeps_ret].
  - apply (keeps_run (fun w : AWorld => policies_ok (policies w))); [|done]. unfold org_request.
    apply keeps_bind; [apply keeps_gets|]. intros n. apply keeps_attempt; [apply keeps_on_org|]. intros r.
    apply keeps_bind; [apply keeps_gets|]. intros b. apply keeps_bind; [apply keeps_deliver|]. intros [].
    destruct r; [apply keeps_ret | apply keeps_throw].
Qed.
(** ** Batches *)

(** A rule of the request's kind, for [sid]. *)
Definition rule_for (req : BatchAddRequest) (sid : Z) (p : Policy) : Prop :=
  p_AppID p = ba_AppID req /\ p_AppGroupID p = ba_AppGroupID req /\ p_TenantID p = ba_TenantID req
  /\ p_SubjectType p = ba_SubjectType req /\ p_SubjectID p = sid.

(** What the loop has done when it saw [seen]. *)
Record progress (w0 : AWorld) (req : BatchAddRequest) (effect : string) (have seen : list Z) (acc : BatchAddResult) (w : AWorld) : Prop := {
  pr_kept : policies w0 ⊆ policies w;
  pr_new : forall i p, policies w !! i = Some p -> policies w0 !! i = Some p \/ p ∈ Created acc;
  pr_created : forall p, p ∈ Created acc -> policies w !! p_ID p = Some p /\ p_SubjectID p ∈ seen
                 /\ p_SubjectID p ∉ have /\ rule_for req (p_SubjectID p) p /\ p_Effect p = effect;
  pr_seen : forall sid, sid ∈ seen -> sid ∈ have \/ exists p, p ∈ Created acc /\ p_SubjectID p = sid;
  pr_count : Z.of_nat (length (Created acc)) + Skipped acc = Z.of_nat (length seen);
  pr_nodup : NoDup seen
}.

Lemma progress_same w0 req effect have seen acc w w' :
  policies w' = policies w -> progress w0 req effect have seen acc w -> progress w0 req effect have seen acc w'.
Proof. intros He []. split; rewrite ?He; auto. Qed.

Lemma progress_skip w0 req effect have seen acc w sid :
  sid ∉ seen -> sid ∈ have -> progress w0 req effect have seen acc w ->
  progress w0 req effect have (sid :: seen) (mkBatchResult (Created acc) (Skipped acc + 1)) w.
Proof.
  intros Hns Hh [H1 H2 H3 H4 H5 H6]. split; [done | done | | | cbn; lia | by constructor].
  - intros p Hp. destruct (H3 p Hp) as (?&?&?&?&?). split_and!; [done | by right | done..].
  - intros x [->|Hx]%elem_of_cons; [by left | by apply H4].
Qed.

Lemma progress_add w0 req effect have seen acc w q sid :
  sid ∉ seen -> sid ∉ have -> policies w !! p_ID q = None -> rule_for req sid q -> p_Effect q = effect ->
  progress w0 req effect have seen acc w ->
  progress w0 req effect have (sid :: seen) (mkBatchResult (Created acc ++ [q]) (Skipped acc)) (with_policies <[p_ID q := q]> w).
Proof.
  intros Hns Hnh Hn Hrule He [H1 H2 H3 H4 H5 H6]. destruct Hrule as (R1 & R2 & R3 & R4 & R5). split; cbn.
  - etrans; [exact H1|]. by apply insert_subseteq.
  - intros i p [[<- <-]|[Hi Hp]]%lookup_insert_Some; [right; apply elem_of_app; right; by left|].
    destruct (H2 i p Hp); [by left|]. right. apply elem_of_app. by left.
  - intros p [Hp|Hp%list_elem_of_singleton]%elem_of_app.
    + destruct (H3 p Hp) as (Hl & Hse & ?&?&?). split_and!; [|by right | done..].
      rewrite lookup_insert_ne; [done|]. intros Heq. rewrite Heq in Hn. congruence.
    + subst p. rewrite lookup_insert_eq, R5. unfold rule_for. split_and!; [done | by left | done..].
  - intros x [->|Hx]%elem_of_cons.
    + right. exists q. split; [apply elem_of_app; right; by left | done].
    + destruct (H4 x Hx) as [?|(p & Hp & ?)]; [by left|]. right. exists p. split; [apply elem_of_app; by left | done].
  - rewrite length_app. cbn. lia.
  - by constructor.
Qed.

Lemma on_db_add_each w0 t req effect have sids : ba_TenantID req = t -> forall seen acc,
  on_db (progress w0 req effect have seen acc) (add_each vs (Some t) req effect have seen sids acc)
    (fun w r => forall res, r = Ok res -> exists seen', progress w0 req effect have seen' res w
                                          /\ forall sid, sid ∈ seen' <-> sid ∈ seen \/ sid ∈ sids).
Proof.
  intros Ht. induction sids as [|sid sids IH]; intros seen acc; cbn [add_each].
  { apply on_db_ret. intros w Hw res [= <-]. exists seen. split; [done|]. intros x. rewrite elem_of_nil. naive_solver. }
  eapply on_db_bind with (R := fun w r => progress w0 req effect have seen acc w); [by apply on_db_guard | intros [] | done].
  case_bool_decide as Hse.
  { eapply on_db_weaken; [apply IH | done|]. intros w r H res Hr. destruct (H res Hr) as (seen' & Hp & Hs). exists seen'.
    split; [done|]. intros x. rewrite Hs, elem_of_cons. clear -Hse. split; [tauto|]. by intros [?|[->|?]]; auto. }
  assert (forall w (r : res AErr BatchAddResult),
    (forall res, r = Ok res -> exists seen', progress w0 req effect have seen' res w /\ forall x, x ∈ seen' <-> x ∈ sid :: seen \/ x ∈ sids) ->
    forall res, r = Ok res -> exists seen', progress w0 req effect have seen' res w /\ forall x, x ∈ seen' <-> x ∈ seen \/ x ∈ sid :: sids) as Hshift.
  { intros w r H res Hr. destruct (H res Hr) as (seen' & Hp & Hs). exists seen'. split; [done|]. intros x. rewrite Hs, !elem_of_cons. clear. tauto. }
  case_bool_decide as Hh.
  { eapply on_db_weaken; [apply IH | | by apply Hshift]. intros w Hw. by apply progress_skip. }
  set (J := progress w0 req effect have seen acc).
  eapply on_db_bind with (R := fun w _ => J w); [| intros [] | done].
  { apply on_db_eq. intros w Hw. eapply on_db_weaken; [apply (keeps_validateSubject (eq (policies w))) | by intros ? <- |].
    cbn. intros d _ Hd. by apply (progress_same _ _ _ _ _ _ w). }
  eapply on_db_bind with (R := fun w _ => J w); [| intros id | done].
  { apply on_db_eq. intros w Hw. eapply on_db_weaken; [apply (keeps_on_org (eq (policies w))) | by intros ? <- |].
    cbn. intros d _ Hd. by apply (progress_same _ _ _ _ _ _ w). }
  eapply on_db_bind with (R := fun w r => forall q, r = Ok q -> progress w0 req effect have (sid :: seen) (mkBatchResult (Created acc ++ [q]) (Skipped acc)) w).
  - apply on_db_repo_Create; [|done]. intros w w' q Hw Hq Ho Hn Hk -> ? [= <-].
    assert (p_ID q = id) as Hid by by rewrite Hq. cbn [p_ID]. rewrite <- Hid. apply progress_add; [done | done | | | by rewrite Hq | done].
    + by rewrite Hid.
    + rewrite Hq. unfold rule_for. cbn. rewrite Ht. split_and!; try done. by case_match.
  - intros q. eapply on_db_bind with (R := fun w _ => progress w0 req effect have (sid :: seen) (mkBatchResult (Created acc ++ [q]) (Skipped acc)) w).
    + apply on_db_write. intros w Hw. apply (progress_same _ _ _ _ _ _ w); [done | by apply Hw].
    + intros []. eapply on_db_weaken; [apply IH | done | by apply Hshift].
    + done.
  - done.
Qed.

(** The rules of the target that are read first. *)
Lemma on_db_listOwnFor (w0 : AWorld) req t : both_or_none (ba_AppID req) (ba_AppGroupID req) = false -> policies_ok (policies w0) ->
  on_db (eq w0) (listOwnFor (Some t) (ba_AppID req) (ba_AppGroupID req) (ba_TenantID req)) (fun w r => w = w0 /\
    forall l, r = Ok l -> forall p, p ∈ l -> p_SubjectType p = ba_SubjectType req -> rule_for req (p_SubjectID p) p /\ exists i, policies w0 !! i = Some p).
Proof.
  intros Hone Hok.
  assert (forall f p, p ∈ rows_where f w0 -> f p = true /\ one_target p = true /\ exists i, policies w0 !! i = Some p) as H.
  { intros f p Hp. unfold rows_where in Hp. rewrite merge_sort_Permutation, list_elem_of_filter, list_elem_of_fmap in Hp.
    destruct Hp as (Hf & [i x] & -> & Hx%elem_of_map_to_list). split; [done|]. split; [|by exists i].
    by destruct (proj1 Hok i x Hx) as (_ & ? & _). }
  unfold listOwnFor, both_or_none in *. unfold rule_for.
  destruct (ba_AppID req) as [a|], (ba_AppGroupID req) as [g|]; try discriminate Hone;
    (apply on_db_select; [|by intros ? <-]; intros w <-; split; [done|]; intros l [= <-] p Hp Htyp;
     apply H in Hp as (Hf & Ho & Hi); rewrite !andb_true_iff, bool_decide_eq_true, Z.eqb_eq in Hf; destruct Hf as [[Ha Ht] _];
     unfold one_target in Ho; rewrite Ha in Ho; split; [|done]; split_and!; try done).
  - by destruct (p_AppGroupID p).
  - by destruct (p_AppID p).
Qed.

(** What a successful batch was made of. *)
Definition batch_done (w0 : AWorld) (req : BatchAddRequest) (w : AWorld) (r : res AErr BatchAddResult) : Prop :=
  forall res, r = Ok res -> exists have seen,
    progress w0 req (effect_or_allow (ba_Effect req)) have seen res w /\ (forall sid, sid ∈ seen <-> sid ∈ ba_SubjectIDs req)
    /\ (forall sid, sid ∈ have -> exists i p, policies w0 !! i = Some p /\ rule_for req sid p).

Lemma batch_done_same w0 req w w' r : policies w' = policies w -> batch_done w0 req w r -> batch_done w0 req w' r.
Proof.
  intros He H res Hr. destruct (H res Hr) as (hv & sn & Hp & Hrest). exists hv, sn. split; [|done]. by apply (progress_same _ _ _ _ _ _ w).
Qed.

Lemma on_db_batch (w0 : AWorld) req : policies_ok (policies w0) ->
  on_db (eq w0) (AddPoliciesBatch vs (Some (ba_TenantID req)) req) (batch_done w0 req).
Proof.
  intros Hok. set (eff := effect_or_allow (ba_Effect req)). set (Q := batch_done w0 req).
  unfold AddPoliciesBatch.
  eapply on_db_bind with (R := fun w r => w = w0 /\ (r = Ok tt -> both_or_none (ba_AppID req) (ba_AppGroupID req) = false)); [by apply on_db_guard | intros [] | done].
  eapply on_db_pre; [intros w [_ H]; exact (H eq_refl)|]. intros Hone.
  eapply on_db_bind with (R := fun w _ => w = w0); [apply on_db_guard; naive_solver | intros [] | done].
  eapply on_db_bind with (R := fun w _ => w = w0); [by apply on_db_guard | intros [] | done].
  eapply on_db_bind with (R := fun w _ => w = w0); [by apply on_db_guard | intros [] | done].
  set (J := fun w : AWorld => policies w = policies w0).
  eapply on_db_bind with (R := fun w _ => J w); [| intros [] | done].
  { eapply on_db_weaken; [apply (keeps_validateParent (fun m => m = policies w0)) | by intros ? -> | done]. }
  apply on_db_eq. intros w1 Hw1. unfold J in Hw1.
  eapply on_db_bind; [apply on_db_listOwnFor; [done | by rewrite Hw1] | intros existing | done].
  eapply on_db_pre; [intros w [_ H]; exact (H existing eq_refl)|]. intros Hex.
  set (have := map p_SubjectID _).
  eapply on_db_bind with (R := fun w r => forall res, r = Ok res -> exists seen', progress w0 req eff have seen' res w
    /\ forall sid, sid ∈ seen' <-> sid ∈ [] \/ sid ∈ ba_SubjectIDs req).
  - eapply on_db_weaken; [apply (on_db_add_each w0 (ba_TenantID req)); done | | done]. intros w [-> _]. split; cbn.
    + by rewrite Hw1.
    + intros i p Hp. left. by rewrite <- Hw1.
    + intros p Hp. by apply not_elem_of_nil in Hp.
    + intros sid Hp. by apply not_elem_of_nil in Hp.
    + done.
    + apply NoDup_nil_2.
  - intros res. apply on_db_pre with (F := True); [done|]. intros _.
    eapply on_db_bind with (R := fun w _ => Q w (Ok res)).
    + assert (forall w, (forall res0, Ok (E:=AErr) res = Ok res0 -> exists seen', progress w0 req eff have seen' res0 w
        /\ forall sid, sid ∈ seen' <-> sid ∈ [] \/ sid ∈ ba_SubjectIDs req) -> Q w (Ok res)) as HQ.
      { intros w H res0 [= <-]. destruct (H res eq_refl) as (seen' & Hp & Hs). exists have, seen'. split; [done|]. split.
        - intros sid. rewrite Hs, elem_of_nil. naive_solver.
        - intros sid Hin. apply list_elem_of_In, in_map_iff in Hin as (p & <- & Hp'%list_elem_of_In).
          apply list_elem_of_filter in Hp' as [Ht Hp']. destruct (Hex p Hp' Ht) as (Hr & i & Hi). exists i, p. by rewrite <- Hw1. }
      case_bool_decide; [apply on_db_ret; intros w Hw; by apply HQ|]. apply on_db_write. intros w Hw. by apply (batch_done_same _ _ w), HQ.
    + intros []. by apply on_db_ret.
    + done.
  - done.
Qed.

(** A batch gives every named subject a rule. When a batch in the context of its
    tenant succeeds, every policy that was there is still there, each new one is
    among the created ones and is of the request's kind and effect, every named
    subject has a rule on the target, and the created and the skipped together are as
    many as the distinct subjects named. *)
Theorem batch_covers_every_subject (s : AStore) req :
  policies_ok (policies (sdb s)) ->
  let '(s', r) := AddPoliciesBatch vs (Some (ba_TenantID req)) req s in
  forall res, r = Ok res ->
    policies (sdb s) ⊆ policies (sdb s')
    /\ (forall i p, policies (sdb s') !! i = Some p -> policies (sdb s) !! i = Some p \/ p ∈ Created res)
    /\ (forall p, p ∈ Created res -> rule_for req (p_SubjectID p) p /\ p_Effect p = effect_or_allow (ba_Effect req))
    /\ (forall sid, sid ∈ ba_SubjectIDs req -> exists i p, policies (sdb s') !! i = Some p /\ rule_for req sid p)
    /\ Z.of_nat (length (Created res)) + Skipped res = Z.of_nat (size (list_to_set (ba_SubjectIDs req) : gset Z)).
Proof.
  intros Hok. pose proof (on_db_batch (sdb s) req Hok s eq_refl) as H.
  destruct (AddPoliciesBatch _ _ _ s) as [s' r]. cbn in H.
  intros res Hr. destruct (H res Hr) as (have & seen & [P1 P2 P3 P4 P5 P6] & Hs & Hh). split_and!; [done | done | | |].
  - intros p Hp. by destruct (P3 p Hp) as (_ & _ & _ & ? & ?).
  - intros sid Hin%Hs. destruct (P4 sid Hin) as [Hx|(p & Hp & <-)].
    + destruct (Hh sid Hx) as (i & p & Hp & Hru). exists i, p. split; [|done]. by eapply lookup_weaken.
    + destruct (P3 p Hp) as (Hl & _ & _ & Hru & _). by exists (p_ID p), p.
  - rewrite P5. f_equal. rewrite <- (size_list_to_set (C:=gset Z) seen P6). f_equal. apply leibniz_equiv. set_unfold. intros x. by rewrite Hs.
Qed.
End Changes.
End Props.

(** ** Inputs *)

Module AccessDemo.

Definition pol (id app t : Z) (typ : string) (subj : Z) (eff : string) : Policy :=
  mkPolicy id (Some app) None t typ subj eff 1 None.

(** The organizations of [OrgDemo]; application 100 is allowed to eng of tenant 1 (2)
    and denied, by a global rule, to user 7; application 200 is allowed to role 9, which
    user 7 has; group 55 launches 300. *)
Definition table : gmap Z Policy :=
  list_to_map [(1001, pol 1001 100 1 "org" 2 "allow"); (1002, pol 1002 100 0 "user" 7 "deny");
               (1003, pol 1003 200 1 "role" 9 "allow"); (1004, pol 1004 100 2 "org" 5 "allow");
               (1005, pol 1005 300 1 "group" 55 "allow")].
Definition binding (expires : option Z) : RoleBinding := mkRB 9 "user" 7 None None None expires 1.

Definition world (expires : option Z) : AWorld Z :=
  mkAWorld table [] {[ 55 := mkUserGroup 55 1 "g" "g" None 1 false ]} {[ (55, 7) := mkUserGroupMember 1 55 7 ]}
    (sdb OrgDemo.demo) {[ 1 := binding expires ]} [].
Definition demo (fails : nat -> bool) : Store (AWorld Z) := mkStore (world (Some 500)) fails 0.
Definition never (n : nat) : bool := false.

Lemma table_rows i p : table !! i = Some p ->
  (i, p) = (1001, pol 1001 100 1 "org" 2 "allow") \/ (i, p) = (1002, pol 1002 100 0 "user" 7 "deny")
  \/ (i, p) = (1003, pol 1003 200 1 "role" 9 "allow") \/ (i, p) = (1004, pol 1004 100 2 "org" 5 "allow")
  \/ (i, p) = (1005, pol 1005 300 1 "group" 55 "allow").
Proof. intros H%elem_of_list_to_map_2. rewrite !elem_of_cons, elem_of_nil in H. naive_solver. Qed.

Lemma table_ok : policies_ok table.
Proof.
  split.
  - intros i p Hp%table_rows. destruct_or! Hp; injection Hp as -> ->; split_and!; try done; split; done.
  - intros i j p q Hp%table_rows Hq%table_rows Hk. destruct_or! Hp; injection Hp as -> ->; destruct_or! Hq; injection Hq as -> ->; try done; vm_compute in Hk; done.
Qed.

Lemma demo_healthy : healthy (demo never).
Proof. done. Qed.

Lemma launch_decided_by_rules_witness :
  healthy (demo never) /\ exists d, (CanAccess (Some accessMatcher) 7 100 1 (demo never)).2 = Ok d
  /\ (Allowed d = true <-> may_launch (sdb (demo never)) 7 100 1)
  /\ forall p, MatchedRule d = Some p -> applies (sdb (demo never)) 7 100 1 (if Allowed d then EffectAllow else EffectDeny) p.
Proof. split; [exact demo_healthy | exact (launch_decided_by_rules (demo never) 7 100 1 demo_healthy)]. Defined.

Example global_denial_holds : (CanAccess (Some accessMatcher) 7 100 1 (demo never)).2
  = Ok (mkDecision false (Some (pol 1002 100 0 "user" 7 "deny")) "deny:user:7").
Proof. vm_compute. reflexivity. Qed.

Lemma demo_settled : settled (sdb (demo never)) 7.
Proof.
  split.
  - intros i b r Hb _. cbn in Hb. apply lookup_singleton_Some in Hb as [_ <-]. reflexivity.
  - intros gid m Hm. cbn in Hm. apply lookup_singleton_Some in Hm as [[= <-] _]. eexists. split; [apply lookup_singleton_eq | done].
Qed.

Lemma portal_lists_what_can_be_launched_witness :
  settled (sdb (demo never)) 7 /\ exists apps d, (AppsForUser 7 1 (demo never)).2 = Ok apps
  /\ (CanAccess (Some accessMatcher) 7 200 1 (demo never)).2 = Ok d /\ (200 ∈ apps <-> Allowed d = true).
Proof.
  split; [exact demo_settled | exact (portal_lists_what_can_be_launched (demo never) 7 1 200 demo_healthy demo_settled)].
Defined.

(** Once the binding has run out the portal still lists the application that can no
    longer be launched. *)
Example expired_role_is_listed :
  let s := mkStore (world (Some 50)) never 0 in
  (match (AppsForUser 7 1 s).2 with Ok apps => bool_decide (200 ∈ apps) | Err _ => false end) = true
  /\ (match (CanAccess (Some accessMatcher) 7 200 1 s).2 with Ok d => Allowed d | Err _ => true end) = false.
Proof. vm_compute. done. Qed.

Lemma failed_lookup_loses_global_denials_witness :
  exists d, (CanAccess (Some accessMatcher) 7 100 1 (demo (fun n => (n =? 1)%nat))).2 = Ok d /\ Allowed d = true.
Proof.
  apply failed_lookup_loses_global_denials.
  - split_and!; [done | done|]. intros n Hn. cbn in *. apply Nat.eqb_neq. lia.
  - done.
  - exists (pol 1001 100 1 "org" 2 "allow"). split; [|done]. split_and!; [|by left | by vm_compute..].
    apply list_elem_of_fmap. exists (1001, pol 1001 100 1 "org" 2 "allow"). split; [done|]. by apply elem_of_map_to_list.
  - intros p (Hp & _ & _ & He & _). apply list_elem_of_fmap in Hp as ([i x] & -> & Hx%elem_of_map_to_list). apply table_rows in Hx.
    destruct_or! Hx; injection Hx as -> ->; done.
Defined.

(** Tenant 1 deletes organization 5 of tenant 2. *)
Lemma foreign_delete_removes_policies_witness :
  let '(s', r) := org_request (Org.Delete (Some 1) 5) (demo never) in
  r = Ok tt /\ orgs (org_part (sdb s')) = orgs (org_part (sdb (demo never)))
  /\ policies (sdb s') = filter (fun q => ~ about SubjectOrg 5 q) (policies (sdb (demo never))).
Proof.
  refine (foreign_delete_removes_policies (demo never) 1 5 (OrgDemo.row 5) demo_healthy OrgDemo.demo_inv _ _ _ _);
    vm_compute; (reflexivity || discriminate).
Defined.

Definition readers : RefValidators (G:=Z) :=
  mkValidators (Some (fun _ => ret true)) (Some (fun _ => ret true)) (Some (fun _ => ret true))
    (Some (fun _ => ret true)) (Some (validateOrgInTenant (Some 1))) (Some (fun _ => ret true)).
Lemma readers_read : validators_read readers.
Proof. split_and!; try (intros f [= <-] id I; apply keeps_ret). apply org_validator_reads. Qed.

Definition add_request : AddPolicyRequest := mkAddPolicy (Some 400) None 1 "org" 3 "" (Some 7).

Lemma policies_stay_well_formed_witness :
  let s' := act readers (PAdd (Some 1) add_request) (demo never) in
  rtc (astep readers) (demo never) s' /\ policies_ok (policies (sdb s')) /\ size (policies (sdb s')) = 6%nat.
Proof.
  assert (rtc (astep readers) (demo never) (act readers (PAdd (Some 1) add_request) (demo never))) as H
    by (apply rtc_once; by exists (PAdd (Some 1) add_request)).
  split_and!; [exact H | exact (policies_stay_well_formed readers readers_read (demo never) _ table_ok H) | vm_compute; reflexivity].
Defined.

Definition batch_request : BatchAddRequest := mkBatchAdd (Some 100) None 1 "org" [3; 2; 3; 1] "deny" None.

Lemma batch_covers_every_subject_witness :
  exists s' res, AddPoliciesBatch readers (Some 1) batch_request (demo never) = (s', Ok res)
  /\ (forall sid, sid ∈ [3; 2; 3; 1] -> exists i p, policies (sdb s') !! i = Some p /\ rule_for batch_request sid p)
  /\ Z.of_nat (length (Created res)) + Skipped res = 3.
Proof.
  pose proof (batch_covers_every_subject readers readers_read (demo never) batch_request table_ok) as H.
  change (ba_TenantID batch_request) with 1 in H.
  destruct (AddPoliciesBatch readers (Some 1) batch_request (demo never)) as [s' [res|e]] eqn:Hrun.
  - exists s', res. destruct (H res eq_refl) as (_ & _ & _ & Hall & Hcount). split_and!; [done | exact Hall|].
    rewrite Hcount. vm_compute. reflexivity.
  - exfalso. apply (f_equal (fun r => match r.2 with Ok _ => true | Err _ => false end)) in Hrun. vm_compute in Hrun. done.
Defined.
End AccessDemo.
