(* ===== verification/Outbox.v ===== *)
(** * Outbox: durable side effects

    src/internal/outbox (model.go, repository.go, worker.go): the table of messages,
    claiming under a lease, dispatch with backoff, and replicas that interleave. A
    statement can fail; what handlers do is the environment's. *)

From stdpp Require Import sorting.
From S2P Require Import Prelude Statements Text.
#[global] Open Scope Z_scope.

Definition StatusPending : Z := 0.
Definition StatusDone : Z := 1.
Definition StatusDead : Z := 2.
Definition DefaultMaxAttempts : Z := 8.

(** Times in nanoseconds; a zero time is 0. *)
Record Message : Type := mkMessage {
  m_ID : Z; m_TenantID : Z; m_Kind : string; m_Payload : string; m_Status : Z; m_Attempts : Z;
  m_MaxAttempts : Z; m_NextAttempt : Z; m_LastError : string; m_CreatedAt : Z; m_UpdatedAt : Z
}.

Inductive XErr : Type := ErrDB | ErrDuplicateKey.

Definition second : Z := 1000000000.

(** Worker *)
Definition batch : Z := 20.
Definition lease : Z := 60 * second.
Definition baseBO : Z := 10 * second.
Definition maxBO : Z := 30 * 60 * second.

(** [for i := 1; i < attempts && d < w.maxBO; i++ { d *= 2 }] *)
Fixpoint double_loop (fuel : nat) (i attempts d : Z) : option Z :=
  if (i <? attempts) && (d <? maxBO) then
    match fuel with
    | O => None
    | S n => double_loop n (i + 1) attempts (wrap64 (d * 2))
    end
  else Some d.

Definition backoff (fuel : nat) (attempts : Z) : option Z :=
  match double_loop fuel 1 attempts baseBO with
  | Some d => Some (if maxBO <? d then maxBO else d)
  | None => None
  end.

(** Eight doublings reach the cap. *)
Definition backoff_of (attempts : Z) : Z := default 0 (backoff 8 attempts).

(** A call of a handler: the message, and the error it returned. *)
Record Call : Type := mkCall { c_ID : Z; c_Attempts : Z; c_Err : option string }.

Section Outbox.
Context {G : Type} `{!IdGen G}.

Record XWorld : Type := mkXWorld { table : gmap Z Message; xgen : G; xnow : Z; calls : list Call }.

Abbreviation XStore := (Store XWorld).
Abbreviation Op := (M XStore XErr).
Abbreviation select := (Statements.select ErrDB).
Abbreviation exec := (Statements.exec ErrDB).
Abbreviation exec_or := (Statements.exec_or ErrDB).

Definition with_table f (w : XWorld) := mkXWorld (f (table w)) (xgen w) (xnow w) (calls w).

(** ** repository.go *)

Definition defaults (t id : Z) (m : Message) : Message :=
  mkMessage (if m_ID m =? 0 then id else m_ID m) (m_TenantID m) (m_Kind m)
    (if bool_decide (m_Payload m = "") then "{}" else m_Payload m)%string (m_Status m) (m_Attempts m)
    (if m_MaxAttempts m =? 0 then DefaultMaxAttempts else m_MaxAttempts m)
    (if m_NextAttempt m =? 0 then t else m_NextAttempt m) (m_LastError m)
    (if m_CreatedAt m =? 0 then t else m_CreatedAt m) t.

(** The generator is asked only for a message without an id. *)
Definition new_id (m : Message) : Op Z := fun s =>
  if m_ID m =? 0 then
    let '(g, id) := Generate (xgen (sdb s)) in
    (mkStore (mkXWorld (table (sdb s)) g (xnow (sdb s)) (calls (sdb s))) (sfail s) (scalls s), Ok id)
  else (s, Ok 0).

Definition insert_message (m : Message) (w : XWorld) : res XErr XWorld :=
  if bool_decide (is_Some (table w !! m_ID m)) then Err ErrDuplicateKey else Ok (with_table <[m_ID m := m]> w).

Definition Enqueue (msg : Message) : Op unit :=
  let! id := new_id msg in
  let! t := gets (fun s => xnow (sdb s)) in
  exec_or (insert_message (defaults t id msg)).

(** [status = pending AND next_attempt <= now] *)
Definition due (t : Z) (m : Message) : bool := (m_Status m =? StatusPending) && (m_NextAttempt m <=? t).

Definition earlier (a b : Message) : Prop := m_NextAttempt a <= m_NextAttempt b.
#[export] Instance earlier_dec : RelDecision earlier.
Proof. intros a b. unfold earlier. apply _. Defined.

(** The rows another transaction has locked are skipped. *)
Definition claimable (w : XWorld) (locked : gset Z) (limit : Z) : list Z :=
  map m_ID (take (Z.to_nat limit) (merge_sort earlier
    (filter (fun m => due (xnow w) m = true /\ m_ID m ∉ locked) (map_to_list (table w)).*2))).

Definition claimed_row (t : Z) (m : Message) : Message :=
  mkMessage (m_ID m) (m_TenantID m) (m_Kind m) (m_Payload m) (m_Status m) (m_Attempts m + 1) (m_MaxAttempts m)
    (t + lease) (m_LastError m) (m_CreatedAt m) t.

Definition update_where (P : Z -> bool) (f : Message -> Message) (w : XWorld) : XWorld :=
  with_table (map_imap (fun i m => Some (if P i then f m else m))) w.

(** After the UPDATE every claimed row has the same next_attempt, by which the rows are
    read again: [order] is the order in which the database then answers them. *)
Definition Claim (order : list Message -> list Message) (locked : gset Z) (limit : Z) : Op (list Message) :=
  txn ErrDB (
    let! ids := select (fun w => claimable w locked limit) in
    if bool_decide (ids = []) then ret [] else
    do! exec (fun w => update_where (fun i => bool_decide (i ∈ ids)) (claimed_row (xnow w)) w) in
    select (fun w => order (omap (fun i => table w !! i) ids))).

Definition done_row (t : Z) (m : Message) : Message :=
  mkMessage (m_ID m) (m_TenantID m) (m_Kind m) (m_Payload m) StatusDone (m_Attempts m) (m_MaxAttempts m)
    (m_NextAttempt m) (m_LastError m) (m_CreatedAt m) t.
Definition MarkDone (id : Z) : Op unit :=
  exec (fun w => update_where (fun i => i =? id) (done_row (xnow w)) w).

(** [msg] is the copy that was claimed. *)
Definition failed_row (msg : Message) (err : string) (backoff t : Z) (m : Message) : Message :=
  if m_MaxAttempts msg <=? m_Attempts msg
  then mkMessage (m_ID m) (m_TenantID m) (m_Kind m) (m_Payload m) StatusDead (m_Attempts m) (m_MaxAttempts m)
         (m_NextAttempt m) err (m_CreatedAt m) t
  else mkMessage (m_ID m) (m_TenantID m) (m_Kind m) (m_Payload m) (m_Status m) (m_Attempts m) (m_MaxAttempts m)
         (t + backoff) err (m_CreatedAt m) t.
Definition Fail (msg : Message) (err : string) (backoff : Z) : Op unit :=
  exec (fun w => update_where (fun i => i =? m_ID msg) (failed_row msg err backoff (xnow w)) w).

(** ** worker.go *)

(** A handler answers an error or nil; it is registered under a kind. *)
Definition Handler : Type := Message -> option string.
Definition Handlers : Type := gmap string Handler.
Definition Register (kind : string) (h : Handler) (hs : Handlers) : Handlers := <[kind := h]> hs.

Definition dropped (m : Op unit) : Op unit := attempt m (fun _ => ret tt).

(** What the outcome of a handler leads to. *)
Definition settle (m : Message) (outcome : option string) : Op unit :=
  match outcome with
  | Some err => dropped (Fail m err (backoff_of (m_Attempts m)))
  | None => dropped (MarkDone (m_ID m))
  end.

Definition run_handler (h : Handler) (m : Message) : Op (option string) :=
  do! write (fun w => mkXWorld (table w) (xgen w) (xnow w) (calls w ++ [mkCall (m_ID m) (m_Attempts m) (h m)])) in
  ret (h m).

Definition no_handler (kind : string) : string := "no handler for kind " +:+ kind.

Definition dispatch (hs : Handlers) (m : Message) : Op unit :=
  match hs !! m_Kind m with
  | None => dropped (Fail m (no_handler (m_Kind m)) (backoff_of (m_Attempts m)))
  | Some h => let! outcome := run_handler h m in settle m outcome
  end.

Fixpoint dispatch_all (hs : Handlers) (ms : list Message) : Op unit :=
  match ms with [] => ret tt | m :: ms' => do! dispatch hs m in dispatch_all hs ms' end.

Definition tick (hs : Handlers) (order : list Message -> list Message) (locked : gset Z) : Op unit :=
  attempt (Claim order locked batch) (fun r =>
    match r with Ok ms => dispatch_all hs ms | Err _ => ret tt end).

(** ** Replicas

    A replica holds the messages it claimed and not yet dispatched, and the one whose
    handler returned and whose row is not yet written. *)
Record Replica : Type := mkReplica { queue : list Message; current : option (Message * option string) }.
Definition idle : Replica := mkReplica [] None.

Record XState : Type := mkXState { xstore : XStore; replicas : gmap nat Replica }.

Definition replica (s : XState) (r : nat) : Replica := default idle (replicas s !! r).
Definition set_replica (r : nat) (x : Replica) (s : XState) : gmap nat Replica := <[r := x]> (replicas s).

(** One move of the system. A handler may answer anything; a crash forgets what a
    replica holds; time goes on. *)
Inductive xstep : XState -> XState -> Prop :=
| x_enqueue s msg : m_Status msg = StatusPending -> m_Attempts msg = 0 -> 0 <= m_MaxAttempts msg ->
    xstep s (mkXState (Enqueue msg (xstore s)).1 (replicas s))
| x_claim s r order locked st ms : replica s r = idle -> (forall l, order l ≡ₚ l) ->
    Claim order locked batch (xstore s) = (st, Ok ms) ->
    xstep s (mkXState st (set_replica r (mkReplica ms None) s))
| x_handle s r h m ms : replica s r = mkReplica (m :: ms) None ->
    xstep s (mkXState (run_handler h m (xstore s)).1 (set_replica r (mkReplica ms (Some (m, h m))) s))
| x_unhandled s r m ms : replica s r = mkReplica (m :: ms) None ->
    xstep s (mkXState (dropped (Fail m (no_handler (m_Kind m)) (backoff_of (m_Attempts m))) (xstore s)).1
               (set_replica r (mkReplica ms None) s))
| x_settle s r m o ms : replica s r = mkReplica ms (Some (m, o)) ->
    xstep s (mkXState (settle m o (xstore s)).1 (set_replica r (mkReplica ms None) s))
| x_crash s r : xstep s (mkXState (xstore s) (set_replica r idle s))
| x_time s t : xnow (sdb (xstore s)) <= t ->
    xstep s (mkXState (mkStore (mkXWorld (table (sdb (xstore s))) (xgen (sdb (xstore s))) t (calls (sdb (xstore s))))
                         (sfail (xstore s)) (scalls (xstore s))) (replicas s)).
End Outbox.
Arguments XWorld : clear implicits.
Arguments XState : clear implicits.

(** ** what happens to a message

    Backoff doubles up to its cap; no message is lost and none is marked delivered
    unheard; a message that is polled often enough is settled; a message whose
    handler brings the process down never is; and a late failure buries a message
    that was delivered. *)

(** ** Backoff *)

Lemma pow2_S n : 2 ^ Z.of_nat (S n) = 2 * 2 ^ Z.of_nat n.
Proof. rewrite Nat2Z.inj_succ, Z.pow_succ_r by lia. done. Qed.

Lemma pow2_pos n : 1 <= 2 ^ Z.of_nat n.
Proof. pose proof (Z.pow_pos_nonneg 2 (Z.of_nat n)). lia. Qed.

Lemma double_loop_spec fuel i attempts d :
  0 < d <= maxBO -> maxBO <= d * 2 ^ Z.of_nat fuel ->
  exists x, double_loop fuel i attempts d = Some x
    /\ Z.min maxBO x = Z.min maxBO (d * 2 ^ Z.of_nat (Z.to_nat (attempts - i))).
Proof.
  revert i d. induction fuel as [|fuel IH]; intros i d Hd Hreach.
  - cbn in Hreach. exists d. cbn [double_loop]. rewrite (proj2 (Z.ltb_ge d maxBO)), andb_false_r by lia.
    split; [done|]. pose proof (pow2_pos (Z.to_nat (attempts - i))). nia.
  - rewrite pow2_S in Hreach. cbn [double_loop]. destruct (Z.ltb_spec i attempts) as [Ha|Ha]; cbn [andb].
    2: { exists d. split; [done|]. replace (Z.to_nat (attempts - i)) with 0%nat by lia. cbn. f_equal. lia. }
    destruct (Z.ltb_spec d maxBO) as [Hlt|Hge].
    2: { exists d. split; [done|]. pose proof (pow2_pos (Z.to_nat (attempts - i))). nia. }
    rewrite wrap64_id by (unfold in_int64, int64_min, int64_max, maxBO, second in *; lia).
    replace (Z.to_nat (attempts - i)) with (S (Z.to_nat (attempts - (i + 1)))) by lia. rewrite pow2_S.
    destruct (Z.leb_spec (d * 2) maxBO) as [H2|H2].
    + destruct (IH (i + 1) (d * 2)) as (x & Hx & Hmin); [lia | lia|]. exists x. split; [done|].
      rewrite Hmin. f_equal. lia.
    + exists (d * 2). split.
      * destruct fuel; cbn [double_loop]; by rewrite (proj2 (Z.ltb_ge (d * 2) maxBO)), andb_false_r by lia.
      * pose proof (pow2_pos (Z.to_nat (attempts - (i + 1)))). nia.
Qed.

(** Backoff doubles up to its cap. Whatever the number of attempts, the loop of
    backoff ends within eight rounds, without overflow, and the wait is ten seconds
    doubled for every attempt after the first, and thirty minutes at most. *)
Theorem backoff_is_capped_doubling fuel attempts :
  (8 <= fuel)%nat -> backoff fuel attempts = Some (Z.min maxBO (baseBO * 2 ^ Z.max 0 (attempts - 1))).
Proof.
  intros Hf. unfold backoff. destruct (double_loop_spec fuel 1 attempts baseBO) as (x & -> & Hmin).
  - unfold baseBO, maxBO, second. lia.
  - assert (2 ^ 8 <= 2 ^ Z.of_nat fuel) by (apply Z.pow_le_mono_r; lia). unfold baseBO, maxBO, second. lia.
  - f_equal. replace (Z.max 0 (attempts - 1)) with (Z.of_nat (Z.to_nat (attempts - 1))) by lia. rewrite <- Hmin.
    destruct (Z.ltb_spec maxBO x); lia.
Qed.

Lemma backoff_of_bounds attempts : baseBO <= backoff_of attempts <= maxBO.
Proof.
  unfold backoff_of, backoff. destruct (double_loop_spec 8 1 attempts baseBO) as (x & -> & Hmin);
    [unfold baseBO, maxBO, second; lia..|].
  pose proof (pow2_pos (Z.to_nat (attempts - 1))). assert (baseBO <= maxBO) by (unfold baseBO, maxBO, second; lia).
  assert (0 < baseBO) by (unfold baseBO, second; lia). change (baseBO <= (if maxBO <? x then maxBO else x) <= maxBO).
  destruct (Z.ltb_spec maxBO x); nia.
Qed.

Section Props.
Context {G : Type} `{!IdGen G}.

Abbreviation XWorld := (Outbox.XWorld G).
Abbreviation XStore := (Store XWorld).
Abbreviation XState := (Outbox.XState G).
Abbreviation Op := (M XStore XErr).

(** ** Rows *)

Definition keyed (t : gmap Z Message) : Prop := forall i m, t !! i = Some m -> m_ID m = i.

Lemma update_where_lookup P f (w : XWorld) i :
  table (update_where P f w) !! i = (fun m => if P i then f m else m) <$> table w !! i.
Proof. cbn. rewrite map_lookup_imap. by destruct (table w !! i). Qed.

(** What an update leaves of a message. *)
Definition same_message (m m' : Message) : Prop :=
  m_ID m' = m_ID m /\ m_TenantID m' = m_TenantID m /\ m_Kind m' = m_Kind m /\ m_Payload m' = m_Payload m
  /\ m_MaxAttempts m' = m_MaxAttempts m /\ m_Attempts m <= m_Attempts m'.

#[export] Instance same_message_po : PreOrder same_message.
Proof.
  split; [intros m; unfold same_message; split_and!; done || lia|].
  intros a b c (?&?&?&?&?&?) (?&?&?&?&?&?). unfold same_message. split_and!; (congruence || lia).
Qed.

Lemma same_claimed t m : same_message m (claimed_row t m).
Proof. unfold same_message. cbn. split_and!; done || lia. Qed.
Lemma same_done t m : same_message m (done_row t m).
Proof. unfold same_message. cbn. split_and!; done || lia. Qed.
Lemma same_failed c e b t m : same_message m (failed_row c e b t m).
Proof. unfold failed_row. destruct (_ <=? _); unfold same_message; cbn; split_and!; done || lia. Qed.

(** ** One poll *)

(** The row of a message after its copy was dispatched at [t]. *)
Definition settled_row (hs : Handlers) (t : Z) (m : Message) : Message :=
  let c := claimed_row t m in
  match hs !! m_Kind m with
  | None => failed_row c (no_handler (m_Kind m)) (backoff_of (m_Attempts c)) t c
  | Some h => match h c with
              | None => done_row t c
              | Some err => failed_row c err (backoff_of (m_Attempts c)) t c
              end
  end.

(** What dispatching the copy [c] makes of the row [m]. *)
Definition dispatched_row (hs : Handlers) (t : Z) (c m : Message) : Message :=
  match hs !! m_Kind c with
  | None => failed_row c (no_handler (m_Kind c)) (backoff_of (m_Attempts c)) t m
  | Some h => match h c with
              | None => done_row t m
              | Some err => failed_row c err (backoff_of (m_Attempts c)) t m
              end
  end.

Lemma runs_dispatch hs (w : XWorld) c : exists w', runs w (dispatch hs c) (Ok tt) w' /\ xnow w' = xnow w
  /\ forall i, table w' !! i = (fun m => if i =? m_ID c then dispatched_row hs (xnow w) c m else m) <$> table w !! i.
Proof.
  unfold dispatch, dispatched_row, dropped, settle, run_handler, Fail, MarkDone.
  destruct (hs !! m_Kind c) as [h|]; [destruct (h c) as [err|] eqn:Hh|].
  - eexists. split; [eapply runs_bind; [eapply runs_bind; [apply runs_write | apply runs_ret]|];
      eapply runs_attempt; [apply runs_exec | apply runs_ret]|]. split; [done|]. intros i. etrans; [apply update_where_lookup|]. reflexivity.
  - eexists. split; [eapply runs_bind; [eapply runs_bind; [apply runs_write | apply runs_ret]|];
      eapply runs_attempt; [apply runs_exec | apply runs_ret]|]. split; [done|]. intros i. etrans; [apply update_where_lookup|]. reflexivity.
  - eexists. split; [eapply runs_attempt; [apply runs_exec | apply runs_ret]|]. split; [done|]. intros i. etrans; [apply update_where_lookup|]. reflexivity.
Qed.

Lemma runs_dispatch_all hs (cs : list Message) : NoDup (map m_ID cs) -> forall w : XWorld,
  exists w', runs w (dispatch_all hs cs) (Ok tt) w' /\ xnow w' = xnow w
  /\ forall i, (i ∉ map m_ID cs -> table w' !! i = table w !! i)
     /\ (forall c, c ∈ cs -> m_ID c = i -> table w' !! i = dispatched_row hs (xnow w) c <$> table w !! i).
Proof.
  induction cs as [|c cs IH]; intros Hnd w; cbn [dispatch_all map] in *.
  { exists w. split; [apply runs_ret|]. split; [done|]. intros i. split; [done|]. intros c Hc. by apply not_elem_of_nil in Hc. }
  apply NoDup_cons in Hnd as [Hn Hnd]. destruct (runs_dispatch hs w c) as (w1 & Hr1 & Ht1 & Hw1).
  destruct (IH Hnd w1) as (w2 & Hr2 & Ht2 & Hw2). exists w2. split; [by eapply runs_bind|]. split; [congruence|].
  intros i. destruct (Hw2 i) as [Hout Hin]. split.
  - intros [Hi Hi']%not_elem_of_cons. rewrite Hout, Hw1 by done. destruct (Z.eqb_spec i (m_ID c)); [done|]. by destruct (table w !! i).
  - intros c' [->|Hc']%elem_of_cons Hi.
    + rewrite Hout, Hw1 by (by rewrite <- Hi). rewrite <- Hi, Z.eqb_refl. done.
    + rewrite (Hin c' Hc' Hi), Hw1, Ht1. destruct (Z.eqb_spec i (m_ID c)) as [Heq|]; [|by destruct (table w !! i)].
      destruct Hn. rewrite <- Heq, <- Hi. apply list_elem_of_In, in_map, list_elem_of_In, Hc'.
Qed.

(** The ids a poll claims when the batch is large enough. *)
Lemma claimable_all (w : XWorld) i m :
  keyed (table w) -> (size (table w) <= Z.to_nat batch)%nat -> table w !! i = Some m ->
  (i ∈ claimable w ∅ batch <-> due (xnow w) m = true) /\ NoDup (claimable w ∅ batch).
Proof.
  intros Hk Hsz Hm. unfold claimable. set (rows := filter _ _).
  assert (take (Z.to_nat batch) (merge_sort earlier rows) = merge_sort earlier rows) as Htake.
  { apply take_ge. rewrite (Permutation_length (merge_sort_Permutation earlier rows)). etrans; [|exact Hsz].
    unfold rows. etrans; [apply length_filter|]. by rewrite length_fmap, length_map_to_list. }
  rewrite Htake. split.
  - rewrite list_elem_of_In, in_map_iff. split.
    + intros (x & Hx & Hin%list_elem_of_In). rewrite merge_sort_Permutation in Hin. apply list_elem_of_filter in Hin as [[Hd _] Hin].
      apply list_elem_of_fmap in Hin as ([j y] & -> & Hy%elem_of_map_to_list). cbn in *. rewrite (Hk j y Hy) in Hx. subst. by simplify_eq.
    + intros Hd. exists m. split; [by apply Hk|]. apply list_elem_of_In. rewrite merge_sort_Permutation. apply list_elem_of_filter.
      split; [split; [done | apply not_elem_of_empty]|]. apply list_elem_of_fmap. exists (i, m). split; [done|]. by apply elem_of_map_to_list.
  - rewrite (Permutation_map m_ID (merge_sort_Permutation earlier rows)). by apply (NoDup_keyed (table w) m_ID).
Qed.

Section Poll.
Context (hs : Handlers) (order : list Message -> list Message) (Horder : forall l, order l ≡ₚ l).

Lemma copies_ids (t : gmap Z Message) (ids : list Z) : keyed t -> NoDup ids -> NoDup (map m_ID (omap (fun i => t !! i) ids)).
Proof.
  intros Hk. induction 1 as [|i ids Hi Hnd IH]; [apply NoDup_nil_2|]. cbn. destruct (t !! i) as [m|] eqn:Hm; [|done].
  cbn. constructor; [|done]. rewrite (Hk i m Hm). intros Hin%list_elem_of_In. apply in_map_iff in Hin as (x & Hx & Hin%list_elem_of_In).
  apply list_elem_of_omap in Hin as (j & Hj & Hjx). rewrite (Hk j x Hjx) in Hx. by subst.
Qed.

(** A poll with room for every row: the rows that were due are claimed and settled,
    the others are what they were. *)
Lemma runs_tick (w : XWorld) : keyed (table w) -> (size (table w) <= Z.to_nat batch)%nat ->
  exists w', runs w (tick hs order ∅) (Ok tt) w' /\ xnow w' = xnow w
  /\ forall i, table w' !! i = (fun m => if due (xnow w) m then settled_row hs (xnow w) m else m) <$> table w !! i.
Proof.
  intros Hk Hsz. set (ids := claimable w ∅ batch).
  destruct (decide (ids = [])) as [Hnil|Hne].
  { exists w. split.
    - unfold tick. eapply runs_attempt; [apply runs_txn; eapply runs_bind; [apply runs_select|]|].
      + fold ids. rewrite bool_decide_true by done. apply runs_ret.
      + apply runs_ret.
    - split; [done|]. intros i. destruct (table w !! i) as [m|] eqn:Hm; [|done]. cbn.
      destruct (claimable_all w i m Hk Hsz Hm) as [Hd _]. destruct (due (xnow w) m); [|done].
      fold ids in Hd. rewrite Hnil in Hd. pose proof (proj2 Hd eq_refl) as Hx. by apply not_elem_of_nil in Hx. }
  set (w1 := update_where (fun i => bool_decide (i ∈ ids)) (claimed_row (xnow w)) w).
  set (cs := order (omap (fun i => table w1 !! i) ids)).
  assert (keyed (table w1)) as Hk1.
  { intros i m. unfold w1. rewrite update_where_lookup. destruct (table w !! i) as [m0|] eqn:Hm0; [|done]. cbn. intros [= <-].
    destruct (bool_decide _); cbn; by apply Hk. }
  assert (NoDup ids) as Hnd.
  { destruct (map_to_list (table w)) as [|[i m] l] eqn:Hl.
    - unfold ids, claimable. rewrite Hl. cbn. rewrite take_nil. apply NoDup_nil_2.
    - assert (table w !! i = Some m) as Hm by (apply elem_of_map_to_list; rewrite Hl; by left).
      by destruct (claimable_all w i m Hk Hsz Hm). }
  assert (NoDup (map m_ID cs)) as Hndc.
  { unfold cs. rewrite (Permutation_map m_ID (Horder _)). by apply copies_ids. }
  destruct (runs_dispatch_all hs cs Hndc w1) as (w2 & Hr & Ht & Hw2). exists w2. split.
  - unfold tick. eapply runs_attempt.
    + apply runs_txn. eapply runs_bind; [apply runs_select|]. fold ids. rewrite bool_decide_false by done.
      eapply runs_bind; [apply runs_exec|]. apply runs_select.
    + exact Hr.
  - split; [done|]. intros i. destruct (Hw2 i) as [Hout Hin]. destruct (table w !! i) as [m|] eqn:Hm.
    2: { assert (table w1 !! i = None) as Hn by (unfold w1; by rewrite update_where_lookup, Hm). rewrite Hout; [by rewrite Hn|].
         intros Hi%list_elem_of_In. apply in_map_iff in Hi as (c & Hc & Hin'%list_elem_of_In). unfold cs in Hin'.
         rewrite Horder in Hin'. apply list_elem_of_omap in Hin' as (j & _ & Hj). rewrite (Hk1 j c Hj) in Hc. congruence. }
    destruct (claimable_all w i m Hk Hsz Hm) as [Hd _]. fold ids in Hd. cbn [fmap option_fmap option_map].
    destruct (due (xnow w) m) eqn:Hdue.
    + assert (i ∈ ids) as Hi by by apply Hd.
      assert (table w1 !! i = Some (claimed_row (xnow w) m)) as H1
        by (unfold w1; rewrite update_where_lookup, Hm, bool_decide_true by done; done).
      rewrite (Hin (claimed_row (xnow w) m)), H1; [reflexivity | | exact (Hk i m Hm)].
      unfold cs. rewrite Horder. apply list_elem_of_omap. eauto.
    + assert (i ∉ ids) as Hi by (intros Hx; apply Hd in Hx; congruence).
      rewrite Hout.
      * unfold w1. rewrite update_where_lookup, Hm, bool_decide_false by done. done.
      * intros Hx%list_elem_of_In. apply in_map_iff in Hx as (c & Hc & Hx%list_elem_of_In). unfold cs in Hx. rewrite Horder in Hx.
        apply list_elem_of_omap in Hx as (j & Hj & Hjc). rewrite (Hk1 j c Hjc) in Hc. by subst.
Qed.

Lemma tick_table (w : XWorld) : keyed (table w) -> (size (table w) <= Z.to_nat batch)%nat ->
  exists w', runs w (tick hs order ∅) (Ok tt) w'
  /\ table w' = (fun m => if due (xnow w) m then settled_row hs (xnow w) m else m) <$> table w.
Proof.
  intros Hk Hs. destruct (runs_tick w Hk Hs) as (w' & Hr & _ & Ht). exists w'. split; [done|].
  apply map_eq. intros i. by rewrite Ht, lookup_fmap.
Qed.

(** ** Repeated polls *)

Definition at_time (t : Z) (s : XStore) : XStore :=
  mkStore (mkXWorld (table (sdb s)) (xgen (sdb s)) t (calls (sdb s))) (sfail s) (scalls s).

Fixpoint polls (ts : list Z) (s : XStore) : XStore :=
  match ts with [] => s | t :: ts' => polls ts' (tick hs order ∅ (at_time t s)).1 end.

(** Each time is at least the cap of the backoff after the one before. *)
Fixpoint spaced (from : Z) (ts : list Z) : Prop :=
  match ts with [] => True | t :: ts' => from <= t /\ spaced (t + maxBO) ts' end.

Lemma spaced_weaken a b ts : a <= b -> spaced b ts -> spaced a ts.
Proof. destruct ts; [done|]. cbn. intros ? [? ?]. split; [lia | done]. Qed.

(** A message that is not delivered or given up yet, and may be retried. *)
Definition retrying (from : Z) (m : Message) : Prop :=
  m_Status m = StatusPending /\ m_NextAttempt m <= from.
Definition at_rest (m : Message) : Prop :=
  m_Status m = StatusDone \/ m_Status m = StatusDead /\ m_MaxAttempts m <= m_Attempts m.

Lemma failed_row_cases c e b t :
  m_Status c = StatusPending -> let m' := failed_row c e b t c in
  (m_MaxAttempts c <= m_Attempts c -> at_rest m')
  /\ (m_Attempts c < m_MaxAttempts c -> m_Status m' = StatusPending /\ m_NextAttempt m' = t + b /\ m_Attempts m' = m_Attempts c).
Proof.
  intros Hp. unfold failed_row. destruct (Z.leb_spec (m_MaxAttempts c) (m_Attempts c)); cbn; (split; [intros|intros]); try lia. by right.
Qed.

Lemma settled_row_cases t m : retrying t m -> let m' := settled_row hs t m in
  at_rest m' \/ m_Attempts m + 1 < m_MaxAttempts m /\ retrying (t + maxBO) m' /\ m_Attempts m' = m_Attempts m + 1.
Proof.
  intros [Hp Hn]. unfold settled_row. set (c := claimed_row t m).
  assert (forall e, at_rest (failed_row c e (backoff_of (m_Attempts c)) t c)
    \/ m_Attempts m + 1 < m_MaxAttempts m /\ retrying (t + maxBO) (failed_row c e (backoff_of (m_Attempts c)) t c)
       /\ m_Attempts (failed_row c e (backoff_of (m_Attempts c)) t c) = m_Attempts m + 1) as Hf.
  { intros e. destruct (failed_row_cases c e (backoff_of (m_Attempts c)) t Hp) as [H1 H2].
    destruct (Z.leb_spec (m_MaxAttempts c) (m_Attempts c)) as [H|H]; [left; by apply H1|]. right.
    destruct (H2 H) as (Hs & Hna & Ha). split; [exact H|]. split; [|exact Ha]. split; [exact Hs|].
    rewrite Hna. pose proof (backoff_of_bounds (m_Attempts c)). lia. }
  destruct (hs !! m_Kind m) as [h|]; [|apply Hf]. destruct (h c); [apply Hf|]. left. by left.
Qed.

Lemma at_rest_not_due t m : at_rest m -> due t m = false.
Proof. unfold at_rest, due. intros [->|[-> _]]; reflexivity. Qed.

Lemma polls_rest ts : forall s i m, healthy_from s -> keyed (table (sdb s)) -> (size (table (sdb s)) <= Z.to_nat batch)%nat ->
  table (sdb s) !! i = Some m -> at_rest m \/ (retrying (m_NextAttempt m) m /\ spaced (m_NextAttempt m) ts
     /\ (Z.to_nat (m_MaxAttempts m - m_Attempts m) <= length ts)%nat /\ (1 <= length ts)%nat) ->
  exists m', table (sdb (polls ts s)) !! i = Some m' /\ same_message m m' /\ at_rest m'.
Proof.
  induction ts as [|t ts IH]; intros s i m Hs Hk Hsz Hm Hcase; cbn [polls].
  { exists m. destruct Hcase as [Hr|(_ & _ & _ & Hl)]; [done | cbn in Hl; lia]. }
  destruct (tick_table (sdb (at_time t s)) Hk Hsz) as (w' & Hrun & Htab).
  destruct (runs_result _ _ _ (at_time t s) Hrun) as [_ Hdb]; [exact Hs|].
  pose proof (runs_healthy _ _ _ (at_time t s) Hrun Hs) as Hs1.
  set (s1 := (tick hs order ∅ (at_time t s)).1) in *. cbn [at_time sdb table xnow] in Htab. rewrite <- Hdb in Htab.
  assert (table (sdb s1) !! i = Some (if due t m then settled_row hs t m else m)) as Hm1 by by rewrite Htab, lookup_fmap, Hm.
  assert (keyed (table (sdb s1))) as Hk1.
  { intros j x. rewrite Htab, lookup_fmap. destruct (table (sdb s) !! j) as [y|] eqn:Hy; [|done]. intros [= <-].
    destruct (due t y); [|by apply Hk]. unfold settled_row, failed_row. destruct (hs !! _) as [h|]; [destruct (h _)|]; try destruct (_ <=? _); cbn; by apply Hk. }
  assert ((size (table (sdb s1)) <= Z.to_nat batch)%nat) as Hsz1 by by rewrite Htab, map_size_fmap.
  assert (same_message m (settled_row hs t m)) as Hsame.
  { etrans; [apply same_claimed|]. unfold settled_row. destruct (hs !! _) as [h|]; [destruct (h _)|]; (apply same_failed || apply same_done). }
  destruct Hcase as [Hrest|([Hp _] & [Hle Hsp] & Hlen & _)].
  - rewrite (at_rest_not_due t m Hrest) in Hm1. destruct (IH s1 i m Hs1 Hk1 Hsz1 Hm1) as (m' & H1 & H2 & H3); [by left | eauto].
  - assert (due t m = true) as Hdue by (unfold due; rewrite Hp; cbn; by apply Z.leb_le). rewrite Hdue in Hm1.
    destruct (settled_row_cases t m) as [Hr|(Hlt & [Hp' Hn'] & Ha)]; [by split | |].
    + destruct (IH s1 i _ Hs1 Hk1 Hsz1 Hm1) as (m' & H1 & H2 & H3); [by left|]. exists m'. split_and!; [done | by etrans | done].
    + destruct Hsame as (E1 & E2 & E3 & E4 & E5 & E6).
      destruct (IH s1 i _ Hs1 Hk1 Hsz1 Hm1) as (m' & H1 & H2 & H3).
      * right. cbn [length] in Hlen. split; [done|]. split; [by eapply spaced_weaken|]. rewrite E5, Ha. split; lia.
      * exists m'. split_and!; [done | | done]. etrans; [|exact H2]. unfold same_message. split_and!; done.
Qed.

(** C39: every message is settled. When statements are answered, the table is no
    larger than a batch, and a pending message is polled as often as it has attempts
    left, and at least once, each time thirty minutes or more after the last, then
    whatever its handler answers, and whether or not its kind has one, it ends
    delivered, or given up with all its attempts made. *)
Theorem every_message_is_settled (s : XStore) ts i m :
  healthy s -> keyed (table (sdb s)) -> (size (table (sdb s)) <= Z.to_nat batch)%nat ->
  table (sdb s) !! i = Some m -> m_Status m = StatusPending -> spaced (m_NextAttempt m) ts ->
  (Z.to_nat (Z.max 1 (m_MaxAttempts m - m_Attempts m)) <= length ts)%nat ->
  exists m', table (sdb (polls ts s)) !! i = Some m' /\ same_message m m'
  /\ (m_Status m' = StatusDone \/ m_Status m' = StatusDead /\ m_MaxAttempts m' <= m_Attempts m').
Proof.
  intros Hs Hk Hsz Hm Hp Hsp Hlen. apply (polls_rest ts s i m); [by apply healthy_now | done..|].
  right. split; [done|]. split; [done|]. lia.
Qed.
End Poll.
(** ** What the table promises *)

Definition heard (w : XWorld) (i : Z) : Prop := exists c, c ∈ calls w /\ c_ID c = i /\ c_Err c = None.

Definition row_ok (w : XWorld) (i : Z) (m : Message) : Prop :=
  m_ID m = i /\ (m_Status m = StatusDone -> heard w i) /\ (m_Status m = StatusDead -> m_MaxAttempts m <= m_Attempts m).

(** The copy a replica holds is of a row that is there. *)
Definition copy_of (w : XWorld) (c : Message) : Prop := exists m, table w !! m_ID c = Some m /\ same_message c m.

Definition replica_ok (w : XWorld) (r : Replica) : Prop :=
  (forall c, c ∈ queue r -> copy_of w c)
  /\ (forall c o, current r = Some (c, o) -> copy_of w c /\ (o = None -> heard w (m_ID c))).

Definition x_inv (s : XState) : Prop :=
  map_Forall (row_ok (sdb (xstore s))) (table (sdb (xstore s)))
  /\ forall r, replica_ok (sdb (xstore s)) (replica s r).

(** From [w] to [w'] rows stay, as the same messages, and calls are added. *)
Definition grows (w w' : XWorld) : Prop :=
  (forall i m, table w !! i = Some m -> exists m', table w' !! i = Some m' /\ same_message m m')
  /\ (forall c, c ∈ calls w -> c ∈ calls w').

Lemma grows_refl w : grows w w.
Proof. split; [intros i m Hm; exists m; split; [done | reflexivity] | done]. Qed.
Lemma grows_trans w1 w2 w3 : grows w1 w2 -> grows w2 w3 -> grows w1 w3.
Proof.
  intros [A1 A2] [B1 B2]. split; [|auto]. intros i m Hm. destruct (A1 i m Hm) as (m1 & H1 & S1).
  destruct (B1 i m1 H1) as (m2 & H2 & S2). exists m2. split; [done | by etrans].
Qed.

Lemma heard_grows w w' i : grows w w' -> heard w i -> heard w' i.
Proof. intros [_ H] (c & Hc & ?). exists c. auto. Qed.
Lemma copy_grows w w' c : grows w w' -> copy_of w c -> copy_of w' c.
Proof.
  intros [H _] (m & Hm & Hs). destruct (H _ _ Hm) as (m' & Hm' & Hs'). exists m'. split; [done | by etrans].
Qed.
Lemma replica_grows w w' r : grows w w' -> replica_ok w r -> replica_ok w' r.
Proof.
  intros Hg [H1 H2]. split; [intros c Hc; eapply copy_grows; eauto|]. intros c o Hc. destruct (H2 c o Hc) as [? ?].
  split; [by eapply copy_grows|]. intros ?. eapply heard_grows; eauto.
Qed.

(** An UPDATE by id that keeps the message, and ends in a status it may. *)
Lemma update_ok (w : XWorld) P f :
  map_Forall (row_ok w) (table w) -> (forall m, same_message m (f m)) ->
  (forall i m, table w !! i = Some m -> P i = true -> row_ok w i m -> row_ok w i (f m)) ->
  map_Forall (row_ok (update_where P f w)) (table (update_where P f w)) /\ grows w (update_where P f w).
Proof.
  intros Hrows Hsame Hok. split.
  - intros i m'. rewrite update_where_lookup. destruct (table w !! i) as [m|] eqn:Hm; [|done]. cbn. intros [= <-].
    destruct (P i) eqn:HP; [|by apply Hrows]. by apply Hok; [| |apply Hrows].
  - split; [|done]. intros i m Hm. rewrite update_where_lookup, Hm. eexists. split; [done|]. destruct (P i); [apply Hsame | reflexivity].
Qed.

Definition table_ok (w : XWorld) : Prop := map_Forall (row_ok w) (table w).

Lemma on_db_Claim w order locked limit : (forall l, order l ≡ₚ l) -> table_ok w ->
  on_db (eq w) (Claim order locked limit) (fun w' r => table_ok w' /\ grows w w' /\
    match r with Ok ms => forall c, c ∈ ms -> table w' !! m_ID c = Some c | Err _ => True end).
Proof.
  intros Horder Hok. unfold Claim. apply on_db_txn; [|intros ? <-; split_and!; [done | apply grows_refl | done]]. intros ? <-.
  eapply on_db_bind with (R := fun w' _ => w' = w); [by apply on_db_select | intros ids | intros d e ->; split_and!; [done | apply grows_refl | done]].
  case_bool_decide.
  { apply on_db_ret. intros d ->. split_and!; [done | apply grows_refl|]. intros c Hc. by apply not_elem_of_nil in Hc. }
  eapply on_db_bind with (R := fun w' r => (r = Ok tt -> w' = update_where (fun i => bool_decide (i ∈ ids)) (claimed_row (xnow w)) w)).
  { apply on_db_exec; [by intros d -> | done]. }
  2: { intros d e _. split_and!; [done | apply grows_refl | done]. }
  intros []. apply on_db_select; [|intros d _; split_and!; [done | apply grows_refl | done]].
  intros d Hd. rewrite (Hd eq_refl). clear d Hd. set (w' := update_where _ _ w).
  destruct (update_ok w (fun i => bool_decide (i ∈ ids)) (claimed_row (xnow w)) Hok (same_claimed _)) as [H1 H2].
  { intros i m _ _ (R1 & R2 & R3). split_and!; [done | done |]. cbn. intros Hd. specialize (R3 Hd). lia. }
  split_and!; [exact H1 | exact H2|]. intros c. rewrite Horder. intros (i & _ & Hi)%list_elem_of_omap.
  destruct (H1 i c Hi) as [Hid _]. by rewrite Hid.
Qed.

(** A dropped UPDATE happened or did not. *)
Lemma on_db_dropped_exec (w : XWorld) f Q :
  Q w -> Q (f w) -> on_db (eq w) (dropped (Statements.exec ErrDB f)) (fun w' _ => Q w').
Proof.
  intros H1 H2. unfold dropped. eapply on_db_attempt with (R := fun w' _ => Q w'); [by apply on_db_exec; intros ? <-|].
  intros x. by apply on_db_ret.
Qed.

Lemma on_db_Fail w c err b : table_ok w -> copy_of w c ->
  on_db (eq w) (dropped (Fail c err b)) (fun w' _ => table_ok w' /\ grows w w').
Proof.
  intros Hok (m0 & Hm0 & Hs). apply (on_db_dropped_exec w _ (fun w' => table_ok w' /\ grows w w')); [split; [done | apply grows_refl]|].
  apply update_ok; [done | apply same_failed|]. intros i m Hm Hi (R1 & R2 & R3). apply Z.eqb_eq in Hi. subst i.
  assert (m = m0) as -> by congruence. destruct Hs as (_&_&_&_&E5&E6). unfold failed_row.
  destruct (Z.leb_spec (m_MaxAttempts c) (m_Attempts c)); split_and!; cbn; try done; lia.
Qed.

Lemma on_db_settle w c o : table_ok w -> copy_of w c -> (o = None -> heard w (m_ID c)) ->
  on_db (eq w) (settle c o) (fun w' _ => table_ok w' /\ grows w w').
Proof.
  intros Hok Hc Ho. destruct o as [err|]; cbn [settle]; [by apply on_db_Fail|].
  apply (on_db_dropped_exec w _ (fun w' => table_ok w' /\ grows w w')); [split; [done | apply grows_refl]|].
  apply update_ok; [done | apply same_done|]. intros i m Hm Hi (R1 & R2 & R3). apply Z.eqb_eq in Hi. subst i.
  split_and!; [done | intros _; by apply Ho | done].
Qed.

Lemma on_db_Enqueue w msg : table_ok w -> m_Status msg = StatusPending ->
  on_db (eq w) (Enqueue msg) (fun w' _ => table_ok w' /\ grows w w').
Proof.
  intros Hok Hp. unfold Enqueue.
  set (J := fun w' : XWorld => table w' = table w /\ calls w' = calls w).
  assert (forall w', J w' -> table_ok w' /\ grows w w') as HJ.
  { intros w' [Ht Hc]. unfold table_ok, grows, row_ok, heard. rewrite Ht, Hc. split; [exact Hok | apply (grows_refl w)]. }
  eapply on_db_bind with (R := fun w' _ => J w').
  { intros s Hs. subst w. unfold new_id. destruct (m_ID msg =? 0); [|done]. by destruct (Generate _). }
  2: { intros d e Hd. by apply HJ. }
  intros id. eapply on_db_bind with (R := fun w' _ => J w'); [by apply (on_db_gets J xnow) | intros t | intros d e Hd; by apply HJ].
  apply on_db_exec_or; [|intros d e Hd _; by apply HJ | intros d Hd; by apply HJ].
  intros d d' [Ht Hc]. unfold insert_message. case_bool_decide as Hn; [done|]. intros [= <-]. apply eq_None_not_Some in Hn.
  rewrite Ht in Hn. split.
  - intros i m. cbn. rewrite Ht. intros [[<- <-]|[_ Hm]]%lookup_insert_Some.
    + split_and!; [done | | ]; cbn; rewrite Hp; done.
    + destruct (Hok i m Hm) as (R1 & R2 & R3). split_and!; [done | | done]. intros Hd. destruct (R2 Hd) as (c & H). exists c. cbn. by rewrite Hc.
  - split; [|cbn; by rewrite Hc]. intros i m Hm. cbn. rewrite Ht. exists m. split; [|reflexivity].
    rewrite lookup_insert_ne; [done|]. intros <-. assert (Some m = None) by (rewrite <- Hm; exact Hn). done.
Qed.

Lemma replica_set (s : XState) r x k : replica (mkXState (xstore s) (set_replica r x s)) k = if decide (r = k) then x else replica s k.
Proof.
  unfold replica, set_replica. cbn. case_decide as H; [subst; by rewrite lookup_insert_eq | by rewrite lookup_insert_ne].
Qed.

Lemma x_inv_step (s s' : XState) : xstep s s' -> x_inv s -> x_inv s' /\ grows (sdb (xstore s)) (sdb (xstore s')).
Proof.
  intros Hstep [Hok Hrep].
  assert (forall (st : XStore) rs, table_ok (sdb st) /\ grows (sdb (xstore s)) (sdb st) ->
    (forall k, rs !! k = replicas s !! k \/ replica_ok (sdb st) (default idle (rs !! k))) ->
    x_inv (mkXState st rs) /\ grows (sdb (xstore s)) (sdb (xstore (mkXState st rs)))) as Hgo.
  { intros st rs [Ht Hg] Hrs. split; [|done]. split; [exact Ht|]. intros k. unfold replica. cbn.
    destruct (Hrs k) as [->|H]; [|exact H]. eapply replica_grows; [exact Hg | apply Hrep]. }
  assert (forall st r x, replica_ok (sdb st) x -> forall k, <[r := x]> (replicas s) !! k = replicas s !! k
    \/ replica_ok (sdb st) (default idle (<[r := x]> (replicas s) !! k))) as Hset.
  { intros st r x Hx k. destruct (decide (r = k)) as [<-|Hne]; [right; by rewrite lookup_insert_eq | left; by rewrite lookup_insert_ne]. }
  assert (forall st, replica_ok (sdb (D:=XWorld) st) idle) as Hidle by by intros st; split; [intros c Hc; by apply not_elem_of_nil in Hc|].
  destruct Hstep as [s msg Hp Ha Hmax|s r order locked st ms Hr Horder Hclaim|s r h m ms Hr|s r m ms Hr|s r m o ms Hr|s r|s t Ht].
  - apply Hgo; [by apply on_db_Enqueue | by left].
  - pose proof (on_db_Claim (sdb (xstore s)) order locked batch Horder Hok (xstore s) eq_refl) as H. rewrite Hclaim in H. cbn in H.
    destruct H as (H1 & H2 & H3). apply Hgo; [done|]. apply Hset. split; [|done]. intros c Hc. exists c. split; [by apply H3 | reflexivity].
  - pose proof (Hrep r) as [Hq _]. rewrite Hr in Hq. cbn in Hq.
    assert (grows (sdb (xstore s)) (sdb (run_handler h m (xstore s)).1)) as Hg.
    { split; [intros i x Hx; exists x; split; [done | reflexivity]|]. intros c Hc. apply elem_of_app. by left. }
    apply Hgo.
    + split; [|exact Hg]. intros i x Hx. destruct (Hok i x Hx) as (R1 & R2 & R3). split_and!; [done | | done].
      intros Hd. eapply heard_grows; [exact Hg | by apply R2].
    + apply Hset. split; [intros c Hc; eapply copy_grows; [exact Hg|]; apply Hq; by right|].
      intros c o [= <- <-]. split; [eapply copy_grows; [exact Hg|]; apply Hq; by left|]. intros Hn.
      exists (mkCall (m_ID m) (m_Attempts m) (h m)). split_and!; [apply elem_of_app; right; by left | done | done].
  - pose proof (Hrep r) as [Hq _]. rewrite Hr in Hq. cbn in Hq.
    destruct (on_db_Fail (sdb (xstore s)) m (no_handler (m_Kind m)) (backoff_of (m_Attempts m)) Hok (Hq m ltac:(by left)) (xstore s) eq_refl) as [H1 H2].
    apply Hgo; [done|]. apply Hset. eapply replica_grows; [exact H2|]. split; [|done]. intros c Hc. apply Hq. by right.
  - pose proof (Hrep r) as [Hq Hcur]. rewrite Hr in Hq, Hcur. destruct (Hcur m o eq_refl) as [Hc Ho].
    destruct (on_db_settle (sdb (xstore s)) m o Hok Hc Ho (xstore s) eq_refl) as [H1 H2].
    apply Hgo; [done|]. apply Hset. eapply replica_grows; [exact H2|]. by split.
  - apply Hgo; [split; [done | apply grows_refl]|]. apply Hset, Hidle.
  - apply Hgo; [|by left]. split; [done|]. split; [|done]. intros i m Hm. exists m. split; [done | reflexivity].
Qed.

(** C40: no message is lost and none is settled unheard. In every state the replicas
    reach, with failing statements, crashes and handlers that answer anything, a
    message marked delivered had its handler answer nil once, and one given up made
    all its attempts; and from there on every message stays, as the same message. *)
Theorem no_message_is_lost (s0 s s' : XState) :
  table (sdb (xstore s0)) = ∅ -> replicas s0 = ∅ -> rtc xstep s0 s -> rtc xstep s s' ->
  (forall i m, table (sdb (xstore s)) !! i = Some m ->
     (m_Status m = StatusDone -> heard (sdb (xstore s)) i)
     /\ (m_Status m = StatusDead -> m_MaxAttempts m <= m_Attempts m)
     /\ exists m', table (sdb (xstore s')) !! i = Some m' /\ same_message m m').
Proof.
  intros Ht Hr Hreach Hlater.
  assert (x_inv s0) as H0.
  { split; [rewrite Ht; apply map_Forall_empty|]. intros r. unfold replica. rewrite Hr, lookup_empty. cbn.
    split; [intros c Hc; by apply not_elem_of_nil in Hc | done]. }
  assert (x_inv s) as Hs by (eapply (rtc_invariant xstep x_inv); [intros a b Hab Ha; by apply (x_inv_step a b) | exact Hreach | exact H0]).
  assert (grows (sdb (xstore s)) (sdb (xstore s'))) as [Hg _].
  { clear Hreach. induction Hlater as [x|x y z Hxy Hyz IH]; [apply grows_refl|]. destruct (x_inv_step x y Hxy Hs) as [Hy Hg].
    eapply grows_trans; [exact Hg | by apply IH]. }
  intros i m Hm. destruct Hs as [Hok _]. destruct (Hok i m Hm) as (_ & R2 & R3). split_and!; [done | done | by apply Hg].
Qed.
End Props.

(** ** Inputs *)

Module OutboxDemo.

Definition never (n : nat) : bool := false.
Definition start : XState Z := mkXState (mkStore (mkXWorld ∅ 0 0 []) never 0) ∅.

Definition message (max : Z) : Message := mkMessage 1 1 "offboarding.webhook" "{}" StatusPending 0 max 0 "" 0 0.
Definition enqueued (max : Z) : XState Z := mkXState (Enqueue (message max) (xstore start)).1 ∅.

Lemma start_enqueued max : 0 <= max -> rtc xstep start (enqueued max).
Proof. intros H. apply rtc_once. by apply (x_enqueue start (message max)). Qed.

(** ** A handler that brings the process down *)

(** The only row of the table, pending. *)
Definition alone (m : Message) (s : XState Z) : Prop :=
  table (sdb (xstore s)) = {[ 1 := m ]} /\ healthy (xstore s) /\ m_ID m = 1 /\ m_Status m = StatusPending.

Lemma runs_claim_alone (w : XWorld Z) m : table w = {[ 1 := m ]} -> m_ID m = 1 -> due (xnow w) m = true ->
  runs w (Claim (fun l => l) ∅ batch) (Ok [claimed_row (xnow w) m])
    (update_where (fun i => bool_decide (i ∈ [1])) (claimed_row (xnow w)) w).
Proof.
  intros Ht Hid Hdue. assert (claimable w ∅ batch = [1]) as Hc.
  { unfold claimable. rewrite Ht, map_to_list_singleton. cbn [fmap list_fmap snd]. rewrite filter_cons_True, filter_nil by (split; [done | set_solver]).
    change ([m_ID m] = [1]). by rewrite Hid. }
  unfold Claim. apply runs_txn. eapply runs_bind; [apply runs_select|]. rewrite Hc, bool_decide_false by done.
  eapply runs_bind; [apply runs_exec|]. 
  assert (omap (fun i => table (update_where (fun i => bool_decide (i ∈ [1])) (claimed_row (xnow w)) w) !! i) [1] = [claimed_row (xnow w) m]) as <-.
  { cbn [omap list_omap]. rewrite update_where_lookup, Ht, lookup_singleton_eq. by rewrite bool_decide_true by by left. }
  apply (runs_select _ _ (fun w' => omap (fun i => table w' !! i) [1])).
Qed.

Lemma one_crash (s : XState Z) m : alone m s -> exists s' m', rtc xstep s s' /\ alone m' s'
  /\ m_Attempts m' = m_Attempts m + 1 /\ m_MaxAttempts m' = m_MaxAttempts m.
Proof.
  intros (Ht & Hs & Hid & Hp). set (t := Z.max (xnow (sdb (xstore s))) (m_NextAttempt m)).
  set (s1 := mkXState (mkStore (mkXWorld (table (sdb (xstore s))) (xgen (sdb (xstore s))) t (calls (sdb (xstore s))))
                         (sfail (xstore s)) (scalls (xstore s))) (<[0%nat := idle]> (replicas s)) : XState Z).
  assert (due t m = true) as Hdue by (unfold due; rewrite Hp; apply Z.leb_le; lia).
  destruct (runs_claim_alone (sdb (xstore s1)) m Ht Hid Hdue (xstore s1)) as (n & _ & Hrun); [intros k _; apply Hs | done|].
  eexists _, (claimed_row t m). split; [|split].
  - eapply rtc_l; [apply (x_crash s 0%nat)|].
    eapply rtc_l; [apply (x_time (mkXState (xstore s) (set_replica 0 idle s)) t); cbn; lia|].
    eapply rtc_l; [eapply (x_claim s1 0%nat (fun l => l) ∅); [| done | exact Hrun]|].
    { unfold replica, s1. cbn. by rewrite lookup_insert_eq. }
    apply rtc_once, (x_crash _ 0%nat).
  - split; [|done]. cbn [xstore sdb]. apply map_eq. intros i. rewrite update_where_lookup. cbn [table xstore sdb s1]. rewrite Ht.
    destruct (decide (i = 1)) as [->|Hne]; [|by rewrite !lookup_singleton_ne].
    rewrite !lookup_singleton_eq. cbn. by rewrite bool_decide_true by by left.
  - done.
Qed.

(** A message whose handler brings the process down is never given up. However
    large a number, there is a history in which a message that may be attempted
    eight times was claimed that often and is still pending, to be claimed again. *)
Theorem crashes_are_retried_forever (n : nat) :
  exists s m, rtc xstep start s /\ table (sdb (xstore s)) !! 1 = Some m
  /\ m_Status m = StatusPending /\ m_MaxAttempts m = DefaultMaxAttempts /\ m_Attempts m = Z.of_nat n.
Proof.
  assert (exists s m, rtc xstep start s /\ alone m s /\ m_MaxAttempts m = DefaultMaxAttempts /\ m_Attempts m = Z.of_nat n) as (s & m & Hr & (Ht & _ & _ & Hp) & Hm & Ha).
  { induction n as [|n (s & m & Hr & Hal & Hm & Ha)].
    - exists (enqueued 8), (message 8). split; [by apply start_enqueued|]. done.
    - destruct (one_crash s m Hal) as (s' & m' & Hr' & Hal' & Ha' & Hm'). exists s', m'. split; [by etrans|].
      split; [done|]. split; [congruence | lia]. }
  exists s, m. rewrite Ht, lookup_singleton_eq. done.
Qed.

(** ** A late failure *)

(** Replica [r] claims; its handler answers; the answer is written. *)
Definition claim (r : nat) (s : XState Z) : XState Z :=
  match Claim (fun l => l) ∅ batch (xstore s) with
  | (st, Ok ms) => mkXState st (set_replica r (mkReplica ms None) s)
  | (st, Err _) => s
  end.
Definition handle (r : nat) (answer : option string) (s : XState Z) : XState Z :=
  match replica s r with
  | mkReplica (m :: ms) None => mkXState (run_handler (fun _ => answer) m (xstore s)).1 (set_replica r (mkReplica ms (Some (m, answer))) s)
  | _ => s
  end.
Definition settle_now (r : nat) (s : XState Z) : XState Z :=
  match replica s r with
  | mkReplica ms (Some (m, o)) => mkXState (settle m o (xstore s)).1 (set_replica r (mkReplica ms None) s)
  | _ => s
  end.
Definition wait (t : Z) (s : XState Z) : XState Z :=
  mkXState (mkStore (mkXWorld (table (sdb (xstore s))) (xgen (sdb (xstore s))) t (calls (sdb (xstore s))))
              (sfail (xstore s)) (scalls (xstore s))) (replicas s).

Lemma step_claim r s : replica s r = idle -> (match (Claim (fun l => l) ∅ batch (xstore s)).2 with Ok _ => true | Err _ => false end) = true ->
  xstep s (claim r s).
Proof.
  intros Hr. unfold claim. destruct (Claim _ _ _ (xstore s)) as [st [ms|e]] eqn:Hc; [|done]. intros _.
  by apply (x_claim s r (fun l => l) ∅ st ms).
Qed.
Lemma step_handle r answer s : rtc xstep s (handle r answer s).
Proof.
  unfold handle. destruct (replica s r) as [[|m ms] [c|]] eqn:Hr; try done. apply rtc_once. by apply (x_handle s r (fun _ => answer) m ms).
Qed.
Lemma step_settle r s : rtc xstep s (settle_now r s).
Proof.
  unfold settle_now. destruct (replica s r) as [ms [[m o]|]] eqn:Hr; try done. apply rtc_once. by apply (x_settle s r m o ms).
Qed.

(** The first replica is slow; its lease runs out; the second delivers. *)
Definition both_claimed : XState Z := claim 1 (wait (61 * second) (claim 0 (enqueued 1))).
Definition delivered : XState Z := settle_now 1 (handle 1 None both_claimed).
Definition buried : XState Z := settle_now 0 (handle 0 (Some "timeout"%string) delivered).

Lemma delivered_reached : rtc xstep start delivered.
Proof.
  etrans; [by apply (start_enqueued 1)|]. eapply rtc_l; [apply (step_claim 0); vm_compute; reflexivity|].
  eapply rtc_l; [apply (x_time (claim 0 (enqueued 1)) (61 * second)); vm_compute; discriminate|].
  eapply rtc_l; [apply (step_claim 1); vm_compute; reflexivity|].
  etrans; [apply (step_handle 1 None) | apply step_settle].
Qed.
Lemma buried_reached : rtc xstep delivered buried.
Proof. etrans; [apply (step_handle 0 (Some "timeout"%string)) | apply step_settle]. Qed.

(** A late failure buries a delivered message. There is a history in which one
    replica delivers a message and marks it so, and another, whose lease on it had
    run out, then marks the same message as given up. *)
Theorem late_failure_buries_delivered_message :
  exists s s', rtc xstep start s /\ rtc xstep s s'
  /\ m_Status <$> table (sdb (xstore s)) !! 1 = Some StatusDone
  /\ m_Status <$> table (sdb (xstore s')) !! 1 = Some StatusDead.
Proof.
  exists delivered, buried. split_and!; [| | vm_compute; reflexivity | vm_compute; reflexivity].
  - exact delivered_reached.
  - exact buried_reached.
Qed.

(** ** Witnesses *)

Definition handlers : Handlers := Register "offboarding.webhook" (fun m => if m_Attempts m <? 3 then Some "503"%string else None) ∅.
Definition times : list Z := map (fun k => Z.of_nat k * maxBO) (seq 0 8).

Lemma backoff_is_capped_doubling_witness : (8 <= 8)%nat /\ backoff 8 5 = Some (160 * second).
Proof. split; [lia | exact (backoff_is_capped_doubling 8 5 (le_n 8))]. Defined.

Lemma every_message_is_settled_witness :
  exists m', table (sdb (polls handlers (fun l => l) times (xstore (enqueued 8)))) !! 1 = Some m' /\ same_message (message 8) m'
  /\ (m_Status m' = StatusDone \/ m_Status m' = StatusDead /\ m_MaxAttempts m' <= m_Attempts m').
Proof.
  apply (every_message_is_settled handlers (fun l => l) (fun l => reflexivity l) (xstore (enqueued 8)) times 1 (message 8)).
  - intros n. vm_compute. reflexivity.
  - intros i m Hm. vm_compute in Hm. destruct i as [|[]|]; try discriminate Hm. injection Hm as <-. reflexivity.
  - vm_compute. lia.
  - vm_compute. reflexivity.
  - reflexivity.
  - vm_compute. repeat split; discriminate.
  - vm_compute. lia.
Defined.

Example delivered_at_the_third_attempt :
  (fun m => (m_Status m, m_Attempts m)) <$> table (sdb (polls handlers (fun l => l) times (xstore (enqueued 8)))) !! 1 = Some (StatusDone, 3).
Proof. vm_compute. reflexivity. Qed.

Lemma no_message_is_lost_witness :
  rtc xstep start delivered /\ forall i m, table (sdb (xstore delivered)) !! i = Some m ->
     (m_Status m = StatusDone -> heard (sdb (xstore delivered)) i)
     /\ (m_Status m = StatusDead -> m_MaxAttempts m <= m_Attempts m)
     /\ exists m', table (sdb (xstore buried)) !! i = Some m' /\ same_message m m'.
Proof.
  split; [exact delivered_reached|].
  exact (no_message_is_lost start delivered buried eq_refl eq_refl delivered_reached buried_reached).
Defined.
End OutboxDemo.
