(* ===== verification/Mfa.v ===== *)
(** * Mfa: second factors (src/internal/domain/user: totp.go, totp_replay.go, backup_codes.go)

    Enrollment and verification of time-based codes, the single use of a code's
    time step, and recovery codes: over the tables mxid_user_mfa and
    mxid_user_mfa_backup_code and the Redis keyspace of the replay guard. The clock
    of the process ([unow]) and that of Redis are two. *)

From stdpp Require Import sorting.
From Stdlib Require Import Ascii.
From S2P Require Import Prelude Statements Text Redis.

Record UserMFA : Type := mkUserMFA {
  mf_ID : Z; mf_UserID : Z; mf_Type : string; mf_Secret : option string;
  mf_IsDefault : bool; mf_Verified : bool; mf_CreatedAt : Z; mf_UpdatedAt : Z
}.

Record MFABackupCode : Type := mkBackupCode {
  bc_ID : Z; bc_UserID : Z; bc_CodeHash : string; bc_UsedAt : option Z; bc_CreatedAt : Z
}.

Inductive UErr : Type :=
| ErrMasterKeyMissing
| ErrMFAAlreadyExists
| ErrMFANotEnrolled
| ErrMFAInvalidCode
| ErrMFACodeReused
| ErrUserNotFound
| ErrRecordNotFound
| ErrDB
| ErrForeignKey
| ErrDuplicateKey
| ErrCrypto
| ErrRand
| ErrNotWired.

Definition MFATypeTotp : string := "totp".

(** crypto.MasterKey: AES-GCM under the key, the nonce prefixed, in base64. *)
Record MasterKey : Type := mkMasterKey { Encrypt : string -> string -> option string; Decrypt : string -> option string }.

(** An otpauth URL before it is written out. *)
Record OtpURL : Type := mkOtpURL { Scheme : string; Host : string; Path : string; RawQuery : list (string * string) }.

(** What the otp library generates. *)
Record OtpKey : Type := mkOtpKey { k_Secret : string; k_URL : OtpURL }.

(** ** totp_replay.go *)

Definition totpPeriodSeconds : Z := 30.
Definition totpSkewSteps : Z := 1.
Definition totpUsedKeyPrefix : string := "mxid:totp_used:".
Definition totpUsedTTL : Z := totpPeriodSeconds * (2 * totpSkewSteps + 2) * Second.

Definition totpUsedKey (userID : Z) : string := totpUsedKeyPrefix +:+ dec userID.

(** The compare and set of the script, one command. A text that is no number makes
    the script fail. *)
Definition totpClaimScript (key : string) (step ttlMs : Z)
    (ks : gmap string (RKey string)) (now : Z) : gmap string (RKey string) * res RErr Z :=
  let claim := (<[key := mkRKey (RStr (dec step)) (Some (now + ttlMs * Millisecond))]> ks, Ok 1) in
  let against cur := if step <=? cur then (ks, Ok 0) else claim in
  match peek ks now key with
  | None => claim
  | Some (mkRKey (RStr v) _) => match undec v with Some cur => against cur | None => (ks, Err RErrWrongType) end
  | Some (mkRKey (RInt cur) _) => against cur
  | Some (mkRKey (RSet _) _) => (ks, Err RErrWrongType)
  end.

Definition stepDeltas : list Z :=
  0 :: concat (map (fun i => [i; - i]) (seqZ 1 totpSkewSteps)).

(** [int64(t.Unix()) / totpPeriodSeconds] *)
Definition step_at (t : Z) : Z := Z.quot (t / Second) totpPeriodSeconds.

(** ** backup_codes.go: the text of a code *)

Definition BackupCodeCount : nat := 10.

Definition base32 : string := "ABCDEFGHIJKLMNOPQRSTUVWXYZ234567".
Definition base32_char (v : Z) : ascii :=
  match String.get (Z.to_nat (Z.land v 31)) base32 with Some c => c | None => "="%char end.

(** The eight characters of five bytes, the 40-bit number [v]. *)
Definition EncodeToString (v : Z) : string :=
  String.string_of_list_ascii (map (fun i => base32_char (Z.shiftr v (35 - 5 * i))) (seqZ 0 8)).

(** Hyphenated after the fourth. *)
Definition newBackupCode (v : Z) : string :=
  let enc := EncodeToString v in String.substring 0 4 enc +:+ "-" +:+ String.substring 4 4 enc.

Fixpoint map_chars (f : ascii -> ascii) (s : string) : string :=
  match s with EmptyString => EmptyString | String c s' => String (f c) (map_chars f s') end.
Fixpoint filter_chars (P : ascii -> bool) (s : string) : string :=
  match s with
  | EmptyString => EmptyString
  | String c s' => if P c then String c (filter_chars P s') else filter_chars P s'
  end.
Fixpoint trim_left (P : ascii -> bool) (s : string) : string :=
  match s with EmptyString => EmptyString | String c s' => if P c then trim_left P s' else s end.
Fixpoint trim_right (P : ascii -> bool) (s : string) : string :=
  match s with
  | EmptyString => EmptyString
  | String c s' => match trim_right P s' with
                   | EmptyString => if P c then EmptyString else String c EmptyString
                   | t => String c t
                   end
  end.

Definition between (lo hi : ascii) (c : ascii) : bool :=
  (N_of_ascii lo <=? N_of_ascii c)%N && (N_of_ascii c <=? N_of_ascii hi)%N.
Definition ascii_byte (c : ascii) : bool := (N_of_ascii c <? 128)%N.
Definition ascii_space (c : ascii) : bool := between "009"%char "013"%char c || bool_decide (c = " "%char).
Definition ascii_upper (c : ascii) : ascii :=
  if between "a"%char "z"%char c then ascii_of_N (N_of_ascii c - 32) else c.

Section Text.
(** What Unicode does to a text that is not ASCII. *)
Context (unicode_trim unicode_upper : string -> string).

Definition TrimSpace (s : string) : string :=
  if all_chars ascii_byte s then trim_right ascii_space (trim_left ascii_space s) else unicode_trim s.
Definition ToUpper (s : string) : string :=
  if all_chars ascii_byte s then map_chars ascii_upper s else unicode_upper s.

Definition normalizeBackupCode (s : string) : string :=
  let s := ToUpper (TrimSpace s) in
  let s := filter_chars (fun c => negb (bool_decide (c = "-"%char))) s in
  let s := filter_chars (fun c => negb (bool_decide (c = " "%char))) s in
  if (String.length s =? 8)%nat then s else "".
End Text.

(** internal/domain/authn/mfa_challenge.go. A byte above 127 begins a rune that no
    case but the last admits. *)
Fixpoint looks_from (stripped : nat) (code : string) : bool :=
  match code with
  | EmptyString => (stripped =? 8)%nat
  | String r rest =>
      if bool_decide (r = "-"%char) || bool_decide (r = " "%char) then looks_from stripped rest
      else if between "0"%char "9"%char r then looks_from (S stripped) rest
      else if between "A"%char "Z"%char r then true
      else if between "a"%char "z"%char r then true
      else false
  end.
Definition looksLikeBackupCode (code : string) : bool := looks_from 0 code.

(** ** The state *)

Section Mfa.
Context {G : Type} `{!IdGen G}.

(** mxid_user (tenant and username by id), mxid_user_mfa by its unique (user_id,
    type), mxid_user_mfa_backup_code by id. *)
Record UWorld : Type := mkUWorld {
  users : gmap Z (Z * string);
  mfas : gmap (Z * string) UserMFA;
  codes : gmap Z MFABackupCode;
  ugen : G;
  unow : Z;
  ubus : list (Z * string)
}.

Definition with_mfas f (w : UWorld) := mkUWorld (users w) (f (mfas w)) (codes w) (ugen w) (unow w) (ubus w).
Definition with_codes f (w : UWorld) := mkUWorld (users w) (mfas w) (f (codes w)) (ugen w) (unow w) (ubus w).

Record UState : Type := mkUState { udb : Store UWorld; ukv : Redis string }.
Abbreviation Db := (M (Store UWorld) UErr).
Abbreviation Op := (M UState UErr).
Abbreviation select := (Statements.select ErrDB).
Abbreviation exec := (Statements.exec ErrDB).
Abbreviation exec_or := (Statements.exec_or ErrDB).

Definition db {A} (m : Db A) : Op A := fun s =>
  let '(d, r) := m (udb s) in (mkUState d (ukv s), r).
(** A Redis command and what is made of its answer. *)
Definition kv {A B} (m : M (Redis string) RErr A) (k : res RErr A -> Op B) : Op B := fun s =>
  let '(r, x) := m (ukv s) in k x (mkUState (udb s) r).
Definition Now : Op Z := gets (fun s => unow (sdb (udb s))).

Definition new_id : Db Z := fun s =>
  let '(g, id) := Generate (ugen (sdb s)) in
  (mkStore (mkUWorld (users (sdb s)) (mfas (sdb s)) (codes (sdb s)) g (unow (sdb s)) (ubus (sdb s))) (sfail s) (scalls s), Ok id).

(** ** repository_impl.go *)

(** The user's name, in the tenant the context is pinned to. *)
Definition repo_GetByID (scope : option Z) (id : Z) : Db string :=
  let! u := select (fun w => users w !! id) in
  match u with
  | Some (t, name) => if match scope with Some t' => t =? t' | None => true end then ret name else throw ErrRecordNotFound
  | None => throw ErrRecordNotFound
  end.

Definition GetMFA (userID : Z) (mfaType : string) : Db UserMFA :=
  let! r := select (fun w => mfas w !! (userID, mfaType)) in
  match r with Some mfa => ret mfa | None => throw ErrRecordNotFound end.

(** INSERT ... ON CONFLICT (user_id, type) DO NOTHING: whether a row was inserted *)
Definition insert_mfa (mfa : UserMFA) (w : UWorld) : res UErr (UWorld * bool) :=
  if bool_decide (is_Some (mfas w !! (mf_UserID mfa, mf_Type mfa))) then Ok (w, false)
  else if bool_decide (is_Some (users w !! mf_UserID mfa)) then
    if bool_decide (map_Forall (fun _ r => mf_ID r <> mf_ID mfa) (mfas w))
    then Ok (with_mfas <[(mf_UserID mfa, mf_Type mfa) := mfa]> w, true) else Err ErrDuplicateKey
  else Err ErrForeignKey.
Definition CreateMFA (mfa : UserMFA) : Db bool :=
  let! w := query ErrDB in
  match insert_mfa mfa w with
  | Ok (w', inserted) => do! write (fun _ => w') in ret inserted
  | Err e => throw e
  end.

(** gorm's Save: the row with this id is overwritten; without one, inserted. *)
Definition save_mfa (mfa : UserMFA) (w : UWorld) : res UErr UWorld :=
  match mfas w !! (mf_UserID mfa, mf_Type mfa) with
  | Some r => if mf_ID r =? mf_ID mfa then Ok (with_mfas <[(mf_UserID mfa, mf_Type mfa) := mfa]> w) else Err ErrDuplicateKey
  | None => if bool_decide (is_Some (users w !! mf_UserID mfa))
            then Ok (with_mfas <[(mf_UserID mfa, mf_Type mfa) := mfa]> w) else Err ErrForeignKey
  end.
Definition UpdateMFA (mfa : UserMFA) : Db unit := exec_or (save_mfa mfa).

Definition delete_mfa (userID : Z) (mfaType : string) (w : UWorld) : res UErr UWorld :=
  if bool_decide (is_Some (mfas w !! (userID, mfaType))) then Ok (with_mfas (delete (userID, mfaType)) w)
  else Err ErrRecordNotFound.
Definition repo_DeleteMFA (userID : Z) (mfaType : string) : Db unit := exec_or (delete_mfa userID mfaType).

Definition without_codes (userID : Z) (w : UWorld) : UWorld :=
  with_codes (filter (fun kr => bc_UserID kr.2 <> userID)) w.
Definition DeleteMFATx (userID : Z) (mfaType : string) : Db unit :=
  txn ErrDB (do! exec_or (delete_mfa userID mfaType) in exec (without_codes userID)).

(** ** backup_codes.go: the repository *)

(** One row for each hash, with an id of its own. *)
Fixpoint backup_rows (userID now : Z) (hashes : list string) : Db (list MFABackupCode) :=
  match hashes with
  | [] => ret []
  | h :: hashes' =>
      let! id := new_id in
      let! rows := backup_rows userID now hashes' in
      ret (mkBackupCode id userID h None now :: rows)
  end.

Definition insert_codes (userID : Z) (rows : list MFABackupCode) (w : UWorld) : res UErr UWorld :=
  if negb (bool_decide (is_Some (users w !! userID))) then Err ErrForeignKey
  else if bool_decide (Forall (fun r => codes w !! bc_ID r = None) rows /\ NoDup (map bc_ID rows))
  then Ok (with_codes (fun m => foldr (fun r => <[bc_ID r := r]>) m rows) w) else Err ErrDuplicateKey.

Definition ReplaceAll (userID : Z) (hashes : list string) : Db unit :=
  txn ErrDB (
    do! exec (without_codes userID) in
    let! now := gets (fun s => unow (sdb s)) in
    let! rows := backup_rows userID now hashes in
    if bool_decide (rows = []) then ret tt else exec_or (insert_codes userID rows)).

Definition older (a b : MFABackupCode) : Prop := bc_CreatedAt a <= bc_CreatedAt b.
#[export] Instance older_dec : RelDecision older.
Proof. intros a b. unfold older. apply _. Defined.

Definition active (userID : Z) (r : MFABackupCode) : bool := (bc_UserID r =? userID) && bool_decide (bc_UsedAt r = None).
Definition ListActive (userID : Z) : Db (list MFABackupCode) :=
  select (fun w => merge_sort older (filter (fun r => active userID r = true) (map_to_list (codes w)).*2)).
Definition CountActive (userID : Z) : Db Z :=
  select (fun w => Z.of_nat (length (filter (fun r => active userID r = true) (map_to_list (codes w)).*2))).

Definition used_row (when : Z) (r : MFABackupCode) : MFABackupCode :=
  mkBackupCode (bc_ID r) (bc_UserID r) (bc_CodeHash r) (Some when) (bc_CreatedAt r).
(** UPDATE ... WHERE id = ? AND used_at IS NULL; no row affected is an invalid code. *)
Definition mark_used (id when : Z) (w : UWorld) : res UErr UWorld :=
  match codes w !! id with
  | Some r => if bool_decide (bc_UsedAt r = None) then Ok (with_codes <[id := used_row when r]> w) else Err ErrMFAInvalidCode
  | None => Err ErrMFAInvalidCode
  end.
Definition MarkUsed (id when : Z) : Db unit := exec_or (mark_used id when).

(** ** The service *)

Section Service.
(** The key is nil in tests, as are the client of the replay guard and the
    repository of codes; [ValidateCustom] of the otp library with skew 0 answers
    whether [code] is that of [secret] at the time [t], without an error. *)
Context (masterKey : option MasterKey) (replayGuard backupRepo : bool) (issuer : string).
Context (ValidateCustom : string -> string -> Z -> bool).
Context (CompareHashAndPassword : string -> string -> bool).
Context (unicode_trim unicode_upper : string -> string).

Definition with_key {A} (k : MasterKey -> Op A) : Op A :=
  match masterKey with None => throw ErrMasterKeyMissing | Some mk => k mk end.
Definition or_throw {A} (e : UErr) (o : option A) : Op A := match o with Some a => ret a | None => throw e end.

Definition reuseTOTP (mk : MasterKey) (mfa : UserMFA) (account : string) : Op (string * OtpURL) :=
  match mf_Secret mfa with
  | None | Some EmptyString => throw ErrMFANotEnrolled
  | Some secret =>
      let! b32 := or_throw ErrCrypto (Decrypt mk secret) in
      ret (b32, mkOtpURL "otpauth" "totp" ("/" +:+ issuer +:+ ":" +:+ account)
                  [("algorithm", "SHA1"); ("digits", "6"); ("issuer", issuer); ("period", "30"); ("secret", b32)]%string)
  end.

(** [key] is what the library generated, or its error; [nonce] what was drawn for it. *)
Definition enroll (mk : MasterKey) (userID : Z) (username : string) (key : option OtpKey) (nonce : string) : Op (string * OtpURL) :=
  let! key := or_throw ErrRand key in
  let! encSecret := or_throw ErrCrypto (Encrypt mk (k_Secret key) nonce) in
  let! now := Now in
  let! id := db new_id in
  let! inserted := db (CreateMFA (mkUserMFA id userID MFATypeTotp (Some encSecret) false false now now)) in
  if inserted : bool then ret (k_Secret key, k_URL key) else
  let! winner := db (GetMFA userID MFATypeTotp) in
  if mf_Verified winner then throw ErrMFAAlreadyExists else reuseTOTP mk winner username.

Definition SetupTOTP (scope : option Z) (userID : Z) (key : option OtpKey) (nonce : string) : Op (string * OtpURL) :=
  with_key (fun mk =>
    attempt (db (repo_GetByID scope userID)) (fun u =>
      match u with
      | Err ErrRecordNotFound => throw ErrUserNotFound
      | Err e => throw e
      | Ok username =>
          attempt (db (GetMFA userID MFATypeTotp)) (fun r =>
            match r with
            | Ok existing => if mf_Verified existing then throw ErrMFAAlreadyExists else reuseTOTP mk existing username
            | Err ErrRecordNotFound => enroll mk userID username key nonce
            | Err e => throw e
            end)
      end)).

(** The steps of the window, in turn: the first at which the code is valid. *)
Fixpoint match_deltas (code secret : string) (now : Z) (deltas : list Z) : option Z :=
  match deltas with
  | [] => None
  | delta :: rest =>
      let t := now + delta * totpPeriodSeconds * Second in
      if ValidateCustom code secret t then Some (step_at t) else match_deltas code secret now rest
  end.
Definition matchTOTPStep (code secret : string) (now : Z) : option Z := match_deltas code secret now stepDeltas.

(** The error of the store, or whether the step was claimed. *)
Definition claimTOTPStep (userID matchedStep : Z) : Op (res RErr bool) :=
  if negb replayGuard then ret (Ok true) else
  kv (command (totpClaimScript (totpUsedKey userID) matchedStep (totpUsedTTL / Millisecond)))
     (fun x => ret (match x with Ok n => Ok (n =? 1) | Err e => Err e end)).

Definition verified_row (now : Z) (mfa : UserMFA) : UserMFA :=
  mkUserMFA (mf_ID mfa) (mf_UserID mfa) (mf_Type mfa) (mf_Secret mfa) true true (mf_CreatedAt mfa) now.

(** The first success promotes the row. *)
Definition promote (mfa : UserMFA) : Op unit :=
  if mf_Verified mfa then ret tt else let! now := Now in db (UpdateMFA (verified_row now mfa)).

Definition VerifyTOTP (userID : Z) (code : string) : Op unit :=
  with_key (fun mk =>
    attempt (db (GetMFA userID MFATypeTotp)) (fun r =>
      match r with
      | Err ErrRecordNotFound => throw ErrMFANotEnrolled
      | Err e => throw e
      | Ok mfa =>
          match mf_Secret mfa with
          | None | Some EmptyString => throw ErrMFANotEnrolled
          | Some secret =>
              let! plain := or_throw ErrCrypto (Decrypt mk secret) in
              let! now := Now in
              match matchTOTPStep code plain now with
              | None => throw ErrMFAInvalidCode
              | Some matchedStep =>
                  let! claimed := claimTOTPStep userID matchedStep in
                  match claimed with
                  | Err _ => throw ErrMFAInvalidCode
                  | Ok false => throw ErrMFACodeReused
                  | Ok true => promote mfa
                  end
              end
          end
      end)).

Definition HasVerifiedTOTP (userID : Z) : Op bool :=
  attempt (db (GetMFA userID MFATypeTotp)) (fun r =>
    match r with
    | Ok mfa => ret (mf_Verified mfa)
    | Err ErrRecordNotFound => ret false
    | Err e => throw e
    end).

(** ** backup_codes.go: the service *)

(** [draw] is the source of random bytes, [hash] bcrypt with the salts it draws. *)
Fixpoint mint_codes (draw : nat -> option Z) (hash : nat -> string -> option string) (n i : nat) : Op (list (string * string)) :=
  match n with
  | O => ret []
  | S n' =>
      let! v := or_throw ErrRand (draw i) in
      let code := newBackupCode v in
      let! h := or_throw ErrCrypto (hash i (normalizeBackupCode unicode_trim unicode_upper code)) in
      let! rest := mint_codes draw hash n' (S i) in
      ret ((code, h) :: rest)
  end.

Definition GenerateBackupCodes (draw : nat -> option Z) (hash : nat -> string -> option string) (userID : Z) : Op (list string) :=
  if negb backupRepo then throw ErrNotWired else
  let! minted := mint_codes draw hash BackupCodeCount 0 in
  do! db (ReplaceAll userID minted.*2) in
  ret minted.*1.

Definition CountBackupCodes (userID : Z) : Op Z := if negb backupRepo then ret 0 else db (CountActive userID).

Fixpoint consume_first (normalized : string) (rows : list MFABackupCode) : Op unit :=
  match rows with
  | [] => throw ErrMFAInvalidCode
  | r :: rows' =>
      if CompareHashAndPassword (bc_CodeHash r) normalized
      then let! now := Now in db (MarkUsed (bc_ID r) now)
      else consume_first normalized rows'
  end.

Definition ConsumeBackupCode (userID : Z) (code : string) : Op unit :=
  if negb backupRepo then throw ErrMFAInvalidCode else
  let normalized := normalizeBackupCode unicode_trim unicode_upper code in
  if bool_decide (normalized = "")%string then throw ErrMFAInvalidCode else
  let! rows := db (ListActive userID) in
  consume_first normalized rows.

(** ** service.go *)

Definition requireUser (scope : option Z) (userID : Z) : Op unit :=
  attempt (db (repo_GetByID scope userID)) (fun r =>
    match r with
    | Ok _ => ret tt
    | Err ErrRecordNotFound => throw ErrUserNotFound
    | Err e => throw e
    end).

Definition DeleteMFA (scope : option Z) (userID : Z) (mfaType : string) : Op unit :=
  do! requireUser scope userID in
  do! db (if bool_decide (mfaType = MFATypeTotp) then DeleteMFATx userID mfaType else repo_DeleteMFA userID mfaType) in
  db (write (fun w => mkUWorld (users w) (mfas w) (codes w) (ugen w) (unow w) (ubus w ++ [(userID, mfaType)]))).
End Service.
End Mfa.
Arguments UWorld : clear implicits.
Arguments UState : clear implicits.
