(* ===== verification/MfaProps.v ===== *)
(** * MfaProps: a time step is spent once, a recovery code lets in once

    Over all interleavings of the second-factor requests, of other users of the
    keyspace, and of clocks that agree up to fifteen seconds. *)

From stdpp Require Import sorting.
From Stdlib Require Import Ascii.
From S2P Require Import Prelude Statements Text Redis Mfa.

Section Props.
Context {G : Type} `{!IdGen G}.
Context (mk : MasterKey) (issuer : string).
Context (ValidateCustom : string -> string -> Z -> bool).
Context (CompareHashAndPassword : string -> string -> bool).
Context (unicode_trim unicode_upper : string -> string).

Abbreviation St := (UState G).
Abbreviation Op := (M St UErr).
Abbreviation Setup := (SetupTOTP (Some mk) issuer).
Abbreviation enroll_tail := (enroll issuer mk).
Abbreviation Verify := (VerifyTOTP (Some mk) true ValidateCustom).
Abbreviation Regenerate := (GenerateBackupCodes true unicode_trim unicode_upper).
Abbreviation Consume := (ConsumeBackupCode true CompareHashAndPassword unicode_trim unicode_upper).
Abbreviation consume_tail := (consume_first CompareHashAndPassword).

(** ** What an operation does to the state *)

(** [m] takes every state to one that is [R]-related to it. *)
Definition moves {A} (R : St -> St -> Prop) (m : Op A) : Prop := forall s, R s (m s).1.

Section Moves.
Context (R : St -> St -> Prop) `{!PreOrder R}.

Lemma moves_ret {A} (a : A) : moves R (ret a).
Proof. intros s. cbn. reflexivity. Qed.
Lemma moves_throw {A} e : moves (A:=A) R (throw e).
Proof. intros s. cbn. reflexivity. Qed.
Lemma moves_gets {A} (f : St -> A) : moves R (gets f).
Proof. intros s. cbn. reflexivity. Qed.
Lemma moves_or_throw {A} e (o : option A) : moves R (or_throw e o).
Proof. destruct o; [apply moves_ret | apply moves_throw]. Qed.
Lemma moves_bind {A B} (m : Op A) (k : A -> Op B) : moves R m -> (forall a, moves R (k a)) -> moves R (bind m k).
Proof.
  intros Hm Hk s. unfold bind. specialize (Hm s). destruct (m s) as [s1 [a|e]]; [|done]. etrans; [exact Hm | apply Hk].
Qed.
Lemma moves_attempt {A B} (m : Op A) (k : res UErr A -> Op B) : moves R m -> (forall x, moves R (k x)) -> moves R (attempt m k).
Proof. intros Hm Hk s. unfold attempt. specialize (Hm s). destruct (m s) as [s1 x]. etrans; [exact Hm | apply Hk]. Qed.
End Moves.

Hint Resolve moves_ret moves_throw moves_gets moves_or_throw moves_bind moves_attempt : core.

(** Walks the code of an operation; its statements are left. *)
Ltac walk := repeat first
  [ apply moves_bind; [apply _| |intros ?] | apply moves_attempt; [apply _| |intros ?] | apply moves_ret; apply _
  | apply moves_throw; apply _ | apply moves_gets; apply _ | apply moves_or_throw; apply _
  | match goal with |- moves _ (match ?x with _ => _ end) => destruct x end
  | match goal with |- moves _ (if ?x then _ else _) => destruct x end ].

(** ** The rows of recovery codes *)

Abbreviation W := (UWorld G).
Abbreviation Db := (M (Store W) UErr).

(** Ids were drawn from the generator, and rows lie under theirs. *)
Definition codes_known (w : W) : Prop :=
  forall id r, codes w !! id = Some r -> bc_ID r = id /\ id <= id_bound (ugen w).

(** Rows are used up, removed, or new under ids drawn since. *)
Definition codes_age (w w' : W) : Prop :=
  id_bound (ugen w) <= id_bound (ugen w')
  /\ forall id r', codes w' !! id = Some r' ->
       (exists r, codes w !! id = Some r /\ (r' = r \/ exists t, r' = used_row t r))
       \/ id_bound (ugen w) < id <= id_bound (ugen w') /\ bc_ID r' = id.

Lemma codes_age_refl w : codes_age w w.
Proof. split; [lia|]. intros id r Hr. left. exists r. by split; [|left]. Qed.

Lemma used_row_twice t t' r : used_row t' (used_row t r) = used_row t' r.
Proof. done. Qed.

Lemma codes_age_trans w1 w2 w3 : codes_age w1 w2 -> codes_age w2 w3 -> codes_age w1 w3.
Proof.
  intros [Hb1 H1] [Hb2 H2]. split; [lia|]. intros id r3 Hr3.
  destruct (H2 id r3 Hr3) as [(r2 & Hr2 & Hcase)|[? ?]]; [|right; split; [lia | done]].
  destruct (H1 id r2 Hr2) as [(r1 & Hr1 & Hcase1)|[Hnew Hid]].
  - left. exists r1. split; [done|]. destruct Hcase as [->|[t ->]]; [done|]. right. exists t.
    by destruct Hcase1 as [->|[t1 ->]].
  - right. split; [lia|]. by destruct Hcase as [->|[t ->]].
Qed.

Lemma codes_age_same (w w' : W) : codes w' = codes w -> id_bound (ugen w) <= id_bound (ugen w') -> codes_age w w'.
Proof. intros Hc Hb. split; [done|]. rewrite Hc. intros id r Hr. left. exists r. by split; [|left]. Qed.

Lemma codes_known_age w w' : codes_known w -> codes_age w w' -> codes_known w'.
Proof.
  intros Hk [Hb Ha] id r' Hr'. destruct (Ha id r' Hr') as [(r & Hr & Hcase)|[? ?]]; [|split; [done | lia]].
  destruct (Hk id r Hr). split; [|lia]. by destruct Hcase as [->|[t ->]].
Qed.

(** *** The statements *)

Definition ages {A} (m : Db A) : Prop := forall w, on_db (eq w) m (fun w' _ => codes_age w w').

Lemma ages_bind {A B} (m : Db A) (k : A -> Db B) : ages m -> (forall a, ages (k a)) -> ages (bind m k).
Proof.
  intros Hm Hk w. eapply on_db_bind; [apply Hm | | by intros].
  intros a. apply on_db_eq. intros w1 H1. eapply on_db_weaken; [apply Hk | done |]. intros w2 ? H2. by eapply codes_age_trans.
Qed.
Lemma ages_attempt {A B} (m : Db A) (k : res UErr A -> Db B) : ages m -> (forall x, ages (k x)) -> ages (attempt m k).
Proof.
  intros Hm Hk w. eapply on_db_attempt; [apply Hm|].
  intros a. apply on_db_eq. intros w1 H1. eapply on_db_weaken; [apply Hk | done |]. intros w2 ? H2. by eapply codes_age_trans.
Qed.
Lemma ages_ret {A} (a : A) : ages (ret a).
Proof. intros w. apply on_db_ret. intros ? <-. apply codes_age_refl. Qed.
Lemma ages_throw {A} e : ages (A:=A) (throw e).
Proof. intros w. apply on_db_throw. intros ? <-. apply codes_age_refl. Qed.
Lemma ages_gets {A} (f : Store W -> A) : ages (gets f).
Proof. intros w s ->. apply codes_age_refl. Qed.
Lemma ages_query : ages (query ErrDB).
Proof. intros w. apply on_db_query; intros ? <-; apply codes_age_refl. Qed.
Lemma ages_select {A} (f : W -> A) : ages (Statements.select ErrDB f).
Proof. intros w. apply on_db_select; intros ? <-; apply codes_age_refl. Qed.
Lemma ages_write f : (forall w, codes_age w (f w)) -> ages (write f).
Proof. intros H w. apply on_db_write. intros ? <-. apply H. Qed.
Lemma ages_exec f : (forall w, codes_age w (f w)) -> ages (Statements.exec ErrDB f).
Proof. intros H w. apply on_db_exec; intros ? <-; [apply H | apply codes_age_refl]. Qed.
Lemma ages_exec_or f : (forall w w', f w = Ok w' -> codes_age w w') -> ages (Statements.exec_or ErrDB f).
Proof.
  intros H w. apply on_db_exec_or; [intros d w' <-; apply H | |]; intros; subst; apply codes_age_refl.
Qed.
Lemma ages_txn {A} (body : Db A) : ages body -> ages (txn ErrDB body).
Proof.
  intros Hb w. apply on_db_txn; [|intros ? <-; apply codes_age_refl]. intros ? <-.
  eapply on_db_weaken; [apply Hb | done |]. intros w' [a|e]; [done|]. intros _. apply codes_age_refl.
Qed.

Lemma ages_new_id : ages new_id.
Proof.
  intros w s ->. unfold new_id. destruct (Generate (ugen (sdb s))) as [g id] eqn:Hg. cbn.
  apply Generate_fresh in Hg as [Hlt Hb]. apply codes_age_same; [done|]. cbn. lia.
Qed.
Lemma ages_GetByID scope id : ages (repo_GetByID scope id).
Proof.
  apply ages_bind; [apply ages_select|]. intros [[t n]|]; [|apply ages_throw]. destruct (match scope with Some _ => _ | None => _ end);
    [apply ages_ret | apply ages_throw].
Qed.
Lemma ages_GetMFA u typ : ages (GetMFA u typ).
Proof. apply ages_bind; [apply ages_select|]. intros [m|]; [apply ages_ret | apply ages_throw]. Qed.
Lemma ages_CreateMFA mfa : ages (CreateMFA mfa).
Proof.
  intros w s ->. unfold CreateMFA, bind, query. destruct (sfail s (scalls s)); cbn; [apply codes_age_refl|].
  destruct (insert_mfa mfa (sdb s)) as [[w' b]|e] eqn:Hi; cbn; [|apply codes_age_refl].
  unfold insert_mfa in Hi. repeat case_bool_decide; simplify_eq; by apply codes_age_same.
Qed.
Lemma ages_UpdateMFA mfa : ages (UpdateMFA mfa).
Proof.
  apply ages_exec_or. intros w w' Hs. unfold save_mfa in Hs.
  destruct (mfas w !! _) as [r|]; [destruct (_ =? _) | case_bool_decide]; simplify_eq; by apply codes_age_same.
Qed.

Lemma ages_delete_mfa u typ : ages (repo_DeleteMFA u typ).
Proof. apply ages_exec_or. intros w w' Hs. unfold delete_mfa in Hs. case_bool_decide; simplify_eq. by apply codes_age_same. Qed.

Lemma ages_without_codes u : ages (Statements.exec ErrDB (without_codes u)).
Proof.
  apply ages_exec. intros w. split; [cbn; lia|]. intros id r. cbn. rewrite map_lookup_filter_Some. intros [Hr _].
  left. exists r. by split; [|left].
Qed.

Lemma ages_DeleteMFATx u typ : ages (DeleteMFATx u typ).
Proof. apply ages_txn, ages_bind; [apply ages_delete_mfa|]. intros []. apply ages_without_codes. Qed.

(** The rows to insert carry new ids. *)
Definition fresh_rows (w w' : W) (rows : list MFABackupCode) : Prop :=
  Forall (fun r => id_bound (ugen w) < bc_ID r <= id_bound (ugen w')) rows.

Lemma backup_rows_fresh u now hashes w :
  on_db (eq w) (backup_rows u now hashes) (fun w' r => codes w' = codes w /\ users w' = users w
    /\ id_bound (ugen w) <= id_bound (ugen w')
    /\ exists rows, r = Ok rows /\ fresh_rows w w' rows /\ NoDup (map bc_ID rows)
       /\ map bc_CodeHash rows = hashes /\ Forall (fun x => bc_UserID x = u /\ bc_UsedAt x = None /\ bc_CreatedAt x = now) rows).
Proof.
  revert w. induction hashes as [|h hashes IH]; intros w s ->; cbn [backup_rows].
  - cbn. split_and!; [done | done | lia|]. exists []. split_and!; [done | by apply Forall_nil | by apply NoDup_nil | done | by apply Forall_nil].
  - unfold bind, new_id. destruct (Generate (ugen (sdb s))) as [g id] eqn:Hg. cbn. apply Generate_fresh in Hg as [Hlt Hb].
    match goal with |- context [backup_rows u now hashes ?s1] => specialize (IH (sdb s1) s1 eq_refl); destruct (backup_rows u now hashes s1) as [s2 r] end.
    cbn in IH. destruct IH as (Hc & Hu & Hle & rows & -> & Hf & Hnd & Hh & Hall). cbn.
    split_and!; [done | done | lia|]. eexists. split; [done|]. unfold fresh_rows in *. rewrite Forall_forall in Hf. split_and!.
    + apply Forall_cons. cbn. split; [lia|]. apply Forall_forall. intros r Hr. specialize (Hf r Hr). cbn in Hf. lia.
    + cbn. apply NoDup_cons. split; [|done]. rewrite list_elem_of_fmap. intros (r & -> & Hr). specialize (Hf r Hr). cbn in Hf. lia.
    + cbn. by rewrite Hh.
    + by apply Forall_cons.
Qed.

Lemma lookup_rows (m : gmap Z MFABackupCode) rows id r :
  foldr (fun x => <[bc_ID x := x]>) m rows !! id = Some r -> r ∈ rows /\ bc_ID r = id \/ m !! id = Some r.
Proof.
  induction rows as [|x rows IH]; cbn [foldr]; [by right|]. destruct (decide (bc_ID x = id)) as [<-|Hne].
  - rewrite lookup_insert_eq. intros [= ->]. left. split; [by left | done].
  - rewrite lookup_insert_ne by done. intros [[Hin Hid]|Hm]%IH; [left; split; [by right | done] | by right].
Qed.

Lemma ages_ReplaceAll u hashes : ages (ReplaceAll u hashes).
Proof.
  apply ages_txn, ages_bind; [apply ages_without_codes|]. intros []. apply ages_bind; [apply ages_gets|]. intros now w.
  eapply on_db_bind; [apply backup_rows_fresh | |].
  - intros rows. apply on_db_eq. intros w1 (Hc & Hu & Hb & rows' & [= <-] & Hf & _ & _ & _). case_bool_decide.
    + apply on_db_ret. intros ? <-. by apply codes_age_same.
    + apply on_db_exec_or; intros w2; [intros w3 <- Hi | intros e <- _ | intros <-]; [|by apply codes_age_same..].
      unfold insert_codes in Hi. repeat case_bool_decide; simplify_eq/=. split; [done|]. intros id r Hr.
      apply lookup_rows in Hr as [[Hin Hid]|Hr]; [|rewrite Hc in Hr; left; exists r; by split; [|left]].
      right. split; [|done]. unfold fresh_rows in Hf. rewrite Forall_forall in Hf. rewrite <- Hid. by apply Hf.
  - intros w1 e (Hc & Hu & Hb & rows' & ? & _). done.
Qed.

Lemma ages_MarkUsed id when : ages (MarkUsed id when).
Proof.
  apply ages_exec_or. intros w w' Hs. unfold mark_used in Hs. destruct (codes w !! id) as [r|] eqn:Hr; [|done].
  case_bool_decide; [|done]. injection Hs as <-. split; [cbn; lia|]. intros i r' Hi. cbn in Hi. left.
  destruct (decide (id = i)) as [<-|Hne].
  - rewrite lookup_insert_eq in Hi. injection Hi as <-. exists r. split; [done|]. right. by exists when.
  - rewrite lookup_insert_ne in Hi by done. exists r'. by split; [|left].
Qed.

Lemma ages_ListActive u : ages (ListActive u).
Proof. apply ages_select. Qed.

#[local] Hint Resolve ages_ListActive ages_GetMFA ages_GetByID ages_CreateMFA ages_UpdateMFA ages_new_id ages_ReplaceAll ages_MarkUsed
  ages_select ages_DeleteMFATx ages_delete_mfa : core.

(** ** The operations

    What holds of every statement about these tables holds of every operation; only
    a verification does more. *)

(** A request; for those that read before they write, also the rest of one whose
    reads happened at any earlier time. *)
Inductive Request : Type :=
| RSetup (scope : option Z) (u : Z) (key : option OtpKey) (nonce : string)
| REnroll (u : Z) (name : string) (key : option OtpKey) (nonce : string)
| RVerify (u : Z) (code : string)
| RRegenerate (draw : nat -> option Z) (hash : nat -> string -> option string) (u : Z)
| RConsume (u : Z) (code : string)
| RConsumeRead (normalized : string) (rows : list MFABackupCode)
| RDelete (scope : option Z) (u : Z) (typ : string).

Definition handle (a : Request) (s : St) : St :=
  match a with
  | RSetup scope u key nonce => (Setup scope u key nonce s).1
  | REnroll u name key nonce => (enroll_tail u name key nonce s).1
  | RVerify u code => (Verify u code s).1
  | RRegenerate draw hash u => (Regenerate draw hash u s).1
  | RConsume u code => (Consume u code s).1
  | RConsumeRead normalized rows => (consume_tail normalized rows s).1
  | RDelete scope u typ => (DeleteMFA scope u typ s).1
  end.

Section Operations.
Context (R : St -> St -> Prop) `{!PreOrder R} (Hdb : forall A (m : Db A), ages m -> moves R (db m)).

Lemma moves_promote mfa : moves R (promote mfa).
Proof. unfold promote. walk; auto. Qed.
Lemma moves_reuse mfa name : moves R (reuseTOTP issuer mk mfa name).
Proof. unfold reuseTOTP. walk; auto. Qed.
Hint Resolve moves_reuse : core.
Lemma moves_enroll u name key nonce : moves R (enroll_tail u name key nonce).
Proof. unfold enroll. walk; auto. Qed.
Lemma moves_setup scope u key nonce : moves R (Setup scope u key nonce).
Proof. unfold SetupTOTP, with_key. cbn match. walk; auto. Qed.
Lemma moves_mint draw hash n i : moves R (mint_codes unicode_trim unicode_upper draw hash n i).
Proof. revert i. induction n as [|n IH]; intros i; cbn [mint_codes]; walk; auto. Qed.
Lemma moves_regenerate draw hash u : moves R (Regenerate draw hash u).
Proof. unfold GenerateBackupCodes. walk; auto using moves_mint. Qed.
Lemma moves_consume_tail n rows : moves R (consume_tail n rows).
Proof. induction rows; cbn [consume_first]; walk; auto. Qed.
Lemma moves_consume u code : moves R (Consume u code).
Proof. unfold ConsumeBackupCode. walk; auto using moves_consume_tail. Qed.
Lemma moves_delete scope u typ : moves R (DeleteMFA scope u typ).
Proof. unfold DeleteMFA, requireUser. walk; auto; apply Hdb; first [case_bool_decide; by auto | apply ages_write; intros w; by apply codes_age_same]. Qed.

Lemma moves_verify u code : (forall k, moves R (claimTOTPStep true u k)) -> moves R (Verify u code).
Proof. intros Hkv. unfold VerifyTOTP, with_key. cbn match. walk; auto using moves_promote. Qed.

Lemma moves_request a s : (forall u code, a = RVerify u code -> R s (Verify u code s).1) -> R s (handle a s).
Proof.
  intros Hv. destruct a; cbn [handle]; [apply moves_setup | apply moves_enroll | by apply Hv | apply moves_regenerate
    | apply moves_consume | apply moves_consume_tail | apply moves_delete].
Qed.
End Operations.

(** Nothing but a claim touches the keyspace. *)
Definition same_kv (s s' : St) : Prop := ukv s' = ukv s.
#[local] Instance same_kv_preorder : PreOrder same_kv.
Proof. split; [done | by intros s1 s2 s3 H1 H2; unfold same_kv in *; congruence]. Qed.

Lemma same_kv_db {A} (m : Db A) : moves same_kv (db m).
Proof. intros s. unfold same_kv, db. by destruct (m (udb s)). Qed.

(** ** Claims *)

(** The code is that of the step [k], for the secret the user has stored. *)
Definition matches (s : St) (u : Z) (code : string) (k : Z) : Prop :=
  exists mfa secret plain, mfas (sdb (udb s)) !! (u, MFATypeTotp) = Some mfa /\ mf_Secret mfa = Some secret
  /\ Decrypt mk secret = Some plain /\ matchTOTPStep ValidateCustom code plain (unow (sdb (udb s))) = Some k.

Definition claim (u k : Z) : M (Redis string) RErr Z :=
  command (totpClaimScript (totpUsedKey u) k (totpUsedTTL / Millisecond)).

(** One more statement was sent. *)
Definition asked (s : St) : St :=
  mkUState (mkStore (sdb (udb s)) (sfail (udb s)) (S (scalls (udb s)))) (ukv s).

Lemma GetMFA_run u typ (s : St) :
  db (GetMFA u typ) s = (asked s, if sfail (udb s) (scalls (udb s)) then Err ErrDB
    else match mfas (sdb (udb s)) !! (u, typ) with Some mfa => Ok mfa | None => Err ErrRecordNotFound end).
Proof.
  unfold db, GetMFA, bind. rewrite select_run. destruct (sfail (udb s) (scalls (udb s))); [done|].
  by destruct (mfas (sdb (udb s)) !! (u, typ)).
Qed.

Local Ltac no_claim := unfold throw; intros; simplify_eq; left; split; [done | discriminate].

(** A verification that answers nil has claimed the step of its code; one that does
    not may have. *)
Lemma verify_claims u code s s' r :
  Verify u code s = (s', r) ->
  (ukv s' = ukv s /\ r <> Ok tt)
  \/ exists k x, matches s u code k /\ claim u k (ukv s) = (ukv s', x) /\ (r = Ok tt -> x = Ok 1).
Proof.
  unfold VerifyTOTP, with_key, attempt. rewrite GetMFA_run.
  destruct (sfail (udb s) (scalls (udb s))); cbn -[matchTOTPStep claimTOTPStep]; [no_claim|].
  destruct (mfas (sdb (udb s)) !! (u, MFATypeTotp)) as [mfa|] eqn:Hm; cbn -[matchTOTPStep claimTOTPStep]; [|no_claim].
  destruct (mf_Secret mfa) as [[|c secret]|] eqn:Hs; cbn -[matchTOTPStep claimTOTPStep]; try (no_claim).
  unfold bind at 1, or_throw. destruct (Decrypt mk (String c secret)) as [plain|] eqn:Hd; cbn -[matchTOTPStep claimTOTPStep]; [|no_claim].
  unfold bind at 1, Now, gets. cbn -[matchTOTPStep claimTOTPStep].
  destruct (matchTOTPStep ValidateCustom code plain (unow (sdb (udb s)))) as [k|] eqn:Hk; cbn -[matchTOTPStep claimTOTPStep]; [|no_claim].
  unfold claimTOTPStep, kv. cbn -[totpClaimScript totpUsedKey]. fold (claim u k). destruct (claim u k (ukv s)) as [kv' x] eqn:Hc. cbn -[promote].
  intros Hr. right. exists k, x. split; [by exists mfa, (String c secret), plain|].
  destruct x as [n|e]; cbn in Hr; [|by injection Hr as <- <-]. destruct (Z.eqb_spec n 1) as [->|Hn]; cbn in Hr.
  - pose proof (moves_promote same_kv (fun A m _ => same_kv_db m) mfa (mkUState (mkStore (sdb (udb s)) (sfail (udb s)) (S (scalls (udb s)))) kv')) as Hp.
    rewrite Hr in Hp. cbn in Hp. unfold same_kv in Hp. cbn in Hp. by rewrite Hp.
  - by injection Hr as <- <-.
Qed.

(** ** Clocks that agree *)

Definition Skew : Z := 15 * Second.

(** The process and Redis agree to fifteen seconds, after 1970. *)
Definition in_step (s : St) : Prop :=
  Minute <= unow (sdb (udb s)) /\ Z.abs (unow (sdb (udb s)) - rclock (ukv s)) <= Skew.

Lemma step_at_bounds t : 0 <= t -> step_at t * (30 * Second) <= t < (step_at t + 1) * (30 * Second).
Proof.
  intros Ht. unfold step_at, totpPeriodSeconds.
  assert (0 <= t / Second) as Hd by (apply Z.div_pos; unfold Second, Millisecond; lia).
  rewrite Z.quot_div_nonneg, Z.div_div by first [lia | unfold Second, Millisecond; lia]. rewrite (Z.mul_comm Second 30).
  pose proof (Z.mul_div_le t (30 * Second) ltac:(unfold Second, Millisecond; lia)).
  pose proof (Z.mul_succ_div_gt t (30 * Second) ltac:(unfold Second, Millisecond; lia)).
  change (30 * Second) with 30000000000 in *. lia.
Qed.

(** The matched step is the current one or a neighbour. *)
Lemma match_near code plain now k :
  Minute <= now -> matchTOTPStep ValidateCustom code plain now = Some k ->
  (k - 1) * (30 * Second) <= now < (k + 2) * (30 * Second).
Proof.
  intros Hnow. unfold matchTOTPStep, stepDeltas. change (concat _) with [1; -1]. cbn [match_deltas].
  assert (forall d, -1 <= d <= 1 -> let k := step_at (now + d * totpPeriodSeconds * Second) in
    (k - 1) * (30 * Second) <= now < (k + 2) * (30 * Second)) as Hd.
  { intros d Hd k'. unfold totpPeriodSeconds in k'. change Minute with 60000000000 in Hnow. change Second with 1000000000 in *.
    pose proof (step_at_bounds (now + d * 30 * 1000000000) ltac:(lia)) as Hk. fold k' in Hk. change Second with 1000000000 in Hk. lia. }
  repeat (destruct (ValidateCustom _ _ _); [intros [= <-]; apply Hd; lia|]). done.
Qed.

(** A step is past its window on Redis' clock, whatever process still accepts it. *)
Definition expiry (k : Z) : Z := (k + 3) * (30 * Second) - Skew.

Definition spent (u k : Z) (s : St) : Prop :=
  expiry k <= rclock (ukv s)
  \/ exists n d, rkeys (ukv s) !! totpUsedKey u = Some (mkRKey (RStr (dec n)) (Some d)) /\ k <= n /\ expiry k <= d.

Lemma expiry_mono k n : k <= n -> expiry k <= expiry n.
Proof. unfold expiry, Skew, Second, Millisecond. lia. Qed.

(** What a claim does under the key. *)
Lemma claim_key u k ks now :
  let '(ks', x) := totpClaimScript (totpUsedKey u) k (totpUsedTTL / Millisecond) ks now in
  (ks' = ks /\ x <> Ok 1
   \/ ks' = <[totpUsedKey u := mkRKey (RStr (dec k)) (Some (now + 120 * Second))]> ks /\ x = Ok 1
      /\ forall n d, ks !! totpUsedKey u = Some (mkRKey (RStr (dec n)) (Some d)) -> n < k \/ d <= now).
Proof.
  unfold totpClaimScript. change (totpUsedTTL / Millisecond * Millisecond) with (120 * Second).
  destruct (peek ks now (totpUsedKey u)) as [[v d]|] eqn:Hp.
  - apply peek_Some in Hp as [Hk Ha]. destruct v as [v|z|z]; [|destruct (Z.leb_spec k z); [by left | right]|by left].
    + destruct (undec v) as [cur|] eqn:Hv; [|by left]. destruct (Z.leb_spec k cur); [by left | right].
      split; [done|]. split; [done|]. intros n d' Hn. left. rewrite Hk in Hn. injection Hn as -> _. rewrite undec_dec in Hv. by injection Hv as <-.
    + split; [done|]. split; [done|]. intros n d' Hn. by rewrite Hk in Hn.
  - right. split; [done|]. split; [done|]. intros n d Hn. right. unfold peek in Hp. rewrite Hn in Hp. cbn in Hp.
    destruct (now <? d) eqn:Hlt; [discriminate Hp | by apply Z.ltb_ge in Hlt].
Qed.

(** ** Steps of the system *)

(** Everything else: other users of the keyspace leave the keys of the replay guard
    alone, time passes on Redis, the next process has a clock of its own, users come
    and go, ids are drawn, statements and connections fail. *)
Inductive ustep : St -> St -> Prop :=
| u_request a s : ustep s (handle a s)
| u_others s us g now events fail n kv' :
    (forall u, rkeys kv' !! totpUsedKey u = rkeys (ukv s) !! totpUsedKey u) -> rclock (ukv s) <= rclock kv' ->
    id_bound (ugen (sdb (udb s))) <= id_bound g ->
    ustep s (mkUState (mkStore (mkUWorld us (mfas (sdb (udb s))) (codes (sdb (udb s))) g now events) fail n) kv').

(** Steps between states in which the clocks agree. *)
Definition agreeing (s s' : St) : Prop := ustep s s' /\ in_step s'.

(** ** One step of a code, once *)

Lemma expiry_claim s u code k : in_step s -> matches s u code k -> expiry k <= rclock (ukv s) + 120 * Second.
Proof.
  intros [Hnow Hskew] (mfa & secret & plain & _ & _ & _ & Hk). apply match_near in Hk; [|done].
  unfold expiry, Skew in *. change Second with 1000000000 in *. lia.
Qed.

Lemma totpUsedKey_inj u u' : totpUsedKey u = totpUsedKey u' -> u = u'.
Proof. unfold totpUsedKey. intros H. by apply app_cancel_l, dec_inj in H. Qed.

(** A claim of the user leaves the step spent, and so does any other. *)
Lemma claim_spends s u code k kv' x :
  in_step s -> matches s u code k -> claim u k (ukv s) = (kv', x) ->
  (x = Ok 1 -> spent u k (mkUState (udb s) kv'))
  /\ forall u0 k0, spent u0 k0 s -> spent u0 k0 (mkUState (udb s) kv').
Proof.
  intros Hin Hm Hc. pose proof (expiry_claim s u code k Hin Hm) as Hexp. apply command_inv in Hc as (Hclock & _ & Hcase).
  pose proof (claim_key u k (rkeys (ukv s)) (rclock (ukv s))) as Hkey.
  destruct (totpClaimScript _ _ _ _ _) as [ks x0]. cbn [fst snd] in Hcase.
  assert (rkeys kv' = rkeys (ukv s) /\ x <> Ok 1 \/ rkeys kv' = ks /\ (x = Ok 1 -> x0 = Ok 1)) as Hks.
  { destruct Hcase as [[-> ->]|(-> & _ & [->| ->])]; [by right | by left | by right]. }
  clear Hcase. unfold spent. cbn [ukv]. rewrite Hclock.
  destruct Hks as [[-> Hx]|[-> Hx]]; [by split; [intros ->; destruct Hx | auto]|].
  destruct Hkey as [[-> Hno]|(-> & _ & Hold)]; [split; [intros H; by destruct Hno; apply Hx | done]|].
  split; [intros _; right; exists k, (rclock (ukv s) + 120 * Second); by rewrite lookup_insert_eq|].
  intros u0 k0 [Hd|(n & d & Hl & Hle & Hd)]; [by left|]. destruct (decide (u0 = u)) as [->|Hne].
  - destruct (Hold n d Hl) as [Hlt|Hdead]; [right | left; lia]. exists k, (rclock (ukv s) + 120 * Second).
    rewrite lookup_insert_eq. split; [done|]. split; [lia|]. etrans; [|exact Hexp]. apply expiry_mono. lia.
  - right. exists n, d. rewrite lookup_insert_ne; [done|]. intros Heq. by apply totpUsedKey_inj in Heq.
Qed.

Lemma spent_kv u k s s' : ukv s' = ukv s -> spent u k s -> spent u k s'.
Proof. unfold spent. by intros ->. Qed.

Lemma spent_verify s u code u0 k0 : in_step s -> spent u0 k0 s -> spent u0 k0 (Verify u code s).1.
Proof.
  intros Hin Hs. destruct (Verify u code s) as [s' r] eqn:Hv.
  apply verify_claims in Hv as [[Hkv _]|(k & x & Hm & Hc & _)]; [by eapply spent_kv|].
  destruct (claim_spends s u code k _ x Hin Hm Hc) as [_ H]. eapply spent_kv; [|by apply H]. done.
Qed.

Definition spent_stays u k (s s' : St) : Prop := spent u k s -> spent u k s'.
#[local] Instance spent_stays_preorder u k : PreOrder (spent_stays u k).
Proof. split; [intros s H; exact H | intros s1 s2 s3 H1 H2 H; by apply H2, H1]. Qed.

Lemma spent_step s s' u k : in_step s -> ustep s s' -> spent u k s -> spent u k s'.
Proof.
  intros Hin Hstep Hs. destruct Hstep as [a s|s us g now ev fail n kv' Hkeys Hclock _].
  - revert Hs. apply (moves_request (spent_stays u k)).
    + intros A m _ s0. unfold spent_stays. by apply spent_kv, same_kv_db.
    + intros u' code _ Hs. by apply spent_verify.
  - destruct Hs as [Hd|Hd]; [left; cbn; lia | right; cbn; by rewrite Hkeys].
Qed.

Lemma spent_later s s' u k : rtc agreeing s s' -> in_step s -> spent u k s -> spent u k s' /\ in_step s'.
Proof.
  induction 1 as [s|s s1 s' [Hstep Hin1] _ IH]; intros Hin Hs; [done|]. apply IH; [done|]. by apply (spent_step s).
Qed.

Definition same_clock (s s' : St) : Prop := unow (sdb (udb s')) = unow (sdb (udb s)) /\ rclock (ukv s') = rclock (ukv s).
#[local] Instance same_clock_preorder : PreOrder same_clock.
Proof. split; [done | by intros s1 s2 s3 [] []; split; congruence]. Qed.

Lemma promote_same_clock mfa : moves same_clock (promote mfa).
Proof.
  unfold promote. destruct (mf_Verified mfa); [by apply moves_ret; apply _|].
  apply moves_bind; [apply _ | by apply moves_gets; apply _ |]. intros t s. unfold db, UpdateMFA. rewrite exec_or_run.
  destruct (sfail _ _); [done|]. unfold save_mfa. destruct (mfas _ !! _) as [r|]; [destruct (_ =? _) | destruct (bool_decide _)]; done.
Qed.

Lemma claim_run u k (s : St) :
  claimTOTPStep true u k s
  = (mkUState (udb s) (claim u k (ukv s)).1, Ok match (claim u k (ukv s)).2 with Ok n => Ok (n =? 1) | Err e => Err e end).
Proof. unfold claimTOTPStep, kv, claim. cbn [negb]. cbv beta. by destruct (command _ _). Qed.

Lemma verify_same_clock u code : moves same_clock (Verify u code).
Proof.
  unfold VerifyTOTP, with_key. cbn match. walk; try apply promote_same_clock.
  - intros st. by rewrite GetMFA_run.
  - intros st. rewrite claim_run. split; [done|]. cbn. destruct (claim u z (ukv st)) as [kv' x] eqn:Hc. by apply command_inv in Hc as [? _].
Qed.

Lemma verify_in_step s u code : in_step s -> in_step (Verify u code s).1.
Proof. intros Hin. destruct (verify_same_clock u code s) as [H1 H2]. unfold in_step. by rewrite H1, H2. Qed.

(** C29: a time step lets a user in once. Whatever requests of whatever users run in
    between, whole or interleaved, whatever else uses the keyspace and whatever
    statements or replies fail: as long as the clocks of the processes stay within
    fifteen seconds of Redis', the code that a verification accepts belongs to a
    later step than every code accepted before, so that no code is accepted again
    for its step; also after the guard's key has expired. *)
Theorem accepted_steps_increase (s s1 s2 s3 : St) u code1 code2 :
  in_step s -> Verify u code1 s = (s1, Ok tt) -> rtc agreeing s1 s2 -> Verify u code2 s2 = (s3, Ok tt) ->
  exists k1 k2, matches s u code1 k1 /\ matches s2 u code2 k2 /\ k1 < k2.
Proof.
  intros Hin Hv1 Hr Hv2. pose proof (verify_in_step s u code1 Hin) as Hin1. rewrite Hv1 in Hin1. cbn in Hin1.
  apply verify_claims in Hv1 as [[_ []]|(k1 & x1 & Hm1 & Hc1 & Hx1)]; [done|].
  destruct (claim_spends s u code1 k1 _ x1 Hin Hm1 Hc1) as [Hsp _].
  destruct (spent_later s1 s2 u k1 Hr Hin1) as [Hs2 Hin2]; [by eapply spent_kv; [|by apply Hsp, Hx1]|].
  apply verify_claims in Hv2 as [[_ []]|(k2 & x2 & Hm2 & Hc2 & Hx2)]; [done|].
  specialize (Hx2 eq_refl) as ->. exists k1, k2. split; [done|]. split; [done|].
  apply command_inv in Hc2 as (_ & _ & [[_ Hx]|[? _]]); [|done].
  pose proof (claim_key u k2 (rkeys (ukv s2)) (rclock (ukv s2))) as Hkey.
  destruct (totpClaimScript _ _ _ _ _) as [ks x0]. cbn [fst snd] in Hx. subst x0.
  destruct Hkey as [[_ []]|(_ & _ & Hold)]; [done|].
  assert (expiry k1 <= rclock (ukv s2) -> k1 < k2) as Hlate.
  { destruct Hin2 as [Hnow Hskew]. destruct Hm2 as (mfa & secret & plain & _ & _ & _ & Hk). apply match_near in Hk; [|done].
    unfold expiry, Skew in *. change Second with 1000000000 in *. lia. }
  destruct Hs2 as [Hd|(n & d & Hl & Hle & Hd)]; [by apply Hlate|]. destruct (Hold n d Hl); [lia | apply Hlate; lia].
Qed.


(** ** A recovery code lets in once *)

Definition older_codes (s s' : St) : Prop := codes_age (sdb (udb s)) (sdb (udb s')).
#[local] Instance older_codes_preorder : PreOrder older_codes.
Proof. split; [intros s; apply codes_age_refl | intros s1 s2 s3; apply codes_age_trans]. Qed.

Lemma older_step s s' : ustep s s' -> older_codes s s'.
Proof.
  assert (forall A (m : Db A), ages m -> moves older_codes (db m)) as Hdb.
  { intros A m Hm s0. unfold older_codes, db. specialize (Hm _ (udb s0) eq_refl). by destruct (m (udb s0)). }
  intros [a s0|s0 us g now ev fail n kv' _ _ Hg]; [|by apply codes_age_same].
  apply moves_request; [apply _ | done |]. intros u code _. apply moves_verify; [apply _ | done |].
  intros k s1. rewrite claim_run. apply codes_age_refl.
Qed.

(** The row is now used, and was not. *)
Definition marks (s s' : St) (id : Z) : Prop :=
  exists r t, codes (sdb (udb s)) !! id = Some r /\ bc_UsedAt r = None
  /\ codes (sdb (udb s')) = <[id := used_row t r]> (codes (sdb (udb s))).

(** The request, whole or from its reading of the rows on, let the caller in. *)
Definition let_in (s s' : St) : Prop :=
  (exists u code, Consume u code s = (s', Ok tt)) \/ exists normalized rows, consume_tail normalized rows s = (s', Ok tt).

Lemma MarkUsed_run id t (s s' : St) :
  db (MarkUsed id t) s = (s', Ok tt) -> marks s s' id.
Proof.
  unfold db, MarkUsed. rewrite exec_or_run. destruct (sfail _ _); [discriminate|]. unfold mark_used.
  destruct (codes (sdb (udb s)) !! id) as [r|] eqn:Hr; [|discriminate]. case_bool_decide; [|discriminate].
  intros [= <-]. exists r, t. by split_and!.
Qed.

Lemma consume_tail_marks normalized rows s s' :
  consume_tail normalized rows s = (s', Ok tt) -> exists id, marks s s' id.
Proof.
  induction rows as [|r rows IH]; cbn [consume_first]; [discriminate|].
  destruct (CompareHashAndPassword _ _); [|done]. intros H. exists (bc_ID r). eapply MarkUsed_run. exact H.
Qed.

Lemma let_in_marks s s' : let_in s s' -> exists id, marks s s' id.
Proof.
  intros [(u & code & H)|(normalized & rows & H)]; [|by eapply consume_tail_marks].
  unfold ConsumeBackupCode in H. cbn [negb] in H. case_bool_decide; [discriminate H|].
  unfold bind, db, ListActive in H. rewrite select_run in H. destruct (sfail _ _); [discriminate H|].
  by apply consume_tail_marks in H.
Qed.

(** A recovery code lets in once. Of two requests that are let in by a recovery
    code, each has marked a row that was unused until then, and not the same one;
    whatever ran in between, also if both had read the rows before either wrote. *)
Theorem recovery_code_lets_in_once (s s1 s2 s3 : St) :
  codes_known (sdb (udb s)) -> let_in s s1 -> rtc ustep s1 s2 -> let_in s2 s3 ->
  exists id1 id2, marks s s1 id1 /\ marks s2 s3 id2 /\ id1 <> id2.
Proof.
  intros Hk H1 Hr H2. apply let_in_marks in H1 as Hm1. destruct Hm1 as (id1 & Hm1).
  apply let_in_marks in H2 as (id2 & Hm2). exists id1, id2. split; [done|]. split; [done|]. intros <-.
  assert (older_codes s1 s2) as [_ Hage].
  { clear -Hr IdGen0. induction Hr as [s|x y z Hxy _ IH]; [reflexivity | etrans; [by apply older_step | exact IH]]. }
  assert (ustep s s1) as Hstep.
  { destruct H1 as [(u & code & H)|(nm & rows & H)];
      [pose proof (u_request (RConsume u code) s) as Hs | pose proof (u_request (RConsumeRead nm rows) s) as Hs];
      cbn [handle] in Hs; by rewrite H in Hs. }
  apply older_step in Hstep as [Hb1 _].
  destruct Hm1 as (r & t & Hr1 & _ & Hc1), Hm2 as (r2 & t2 & Hr2 & Hun & _).
  destruct (Hk id1 r Hr1) as [_ Hle]. destruct (Hage id1 r2 Hr2) as [(r1 & Hl & Hcase)|[? _]]; [|lia].
  rewrite Hc1, lookup_insert_eq in Hl. injection Hl as <-. by destruct Hcase as [->|[t' ->]].
Qed.

(** ** Enrollment *)

Definition row (s : St) (u : Z) : option UserMFA := mfas (sdb (udb s)) !! (u, MFATypeTotp).

(** The stored secret of the user, not verified yet, is [b32]; the row was there or is
    new. *)
Definition pending (s s' : St) (u : Z) (b32 : string) : Prop :=
  exists mfa c, row s' u = Some mfa /\ mf_Verified mfa = false /\ mf_Secret mfa = Some c /\ Decrypt mk c = Some b32
  /\ (row s u = None \/ row s u = Some mfa).

Lemma reuse_ok mfa name (s s' : St) b32 url :
  reuseTOTP issuer mk mfa name s = (s', Ok (b32, url)) ->
  s' = s /\ exists c, mf_Secret mfa = Some c /\ Decrypt mk c = Some b32.
Proof.
  unfold reuseTOTP. destruct (mf_Secret mfa) as [[|a c]|]; [discriminate| |discriminate]. intros H.
  apply bind_ok in H as (b & s1 & Hb & H). unfold or_throw in Hb. destruct (Decrypt mk (String a c)) eqn:Hd; [|discriminate Hb].
  unfold ret in Hb, H. simplify_eq. by eauto.
Qed.

Lemma GetMFA_ok u typ (s s' : St) mfa :
  db (GetMFA u typ) s = (s', Ok mfa) -> mfas (sdb (udb s)) !! (u, typ) = Some mfa /\ s' = asked s.
Proof.
  rewrite GetMFA_run. destruct (sfail _ _); [discriminate|]. destruct (mfas _ !! _) as [m|]; [|discriminate]. by intros [= <- ->].
Qed.

(** The key of the library, encrypted, is read back. *)
Definition reads_back : Prop := forall p n c, Encrypt mk p n = Some c -> Decrypt mk c = Some p.

Lemma enroll_pending u name key nonce (s s' : St) b32 url :
  reads_back -> enroll_tail u name key nonce s = (s', Ok (b32, url)) -> pending s s' u b32.
Proof.
  intros Hback H. unfold enroll in H. apply bind_ok in H as (k & s1 & Hk & H). apply bind_ok in H as (c & s2 & Hc & H).
  unfold or_throw in Hk, Hc. destruct key as [k'|]; [|discriminate Hk]. injection Hk as <- ->.
  destruct (Encrypt mk (k_Secret k) nonce) as [c'|] eqn:He; [|discriminate Hc]. injection Hc as <- ->. apply Hback in He.
  apply bind_ok in H as (now & s3 & Hn & H). unfold Now, gets in Hn. injection Hn as <- <-.
  apply bind_ok in H as (id & s4 & Hid & H). unfold db, new_id in Hid. destruct (Generate _) as [g i] eqn:Hg. injection Hid as <- ->.
  apply bind_ok in H as (ins & s5 & Hins & H). unfold db, CreateMFA, bind, query in Hins. cbn [udb sdb sfail scalls] in Hins.
  destruct (sfail _ _); [discriminate Hins|].
  destruct (insert_mfa _ _) as [[w' b]|e] eqn:Hi; [|discriminate Hins]. cbn in Hins. injection Hins as <- ->.
  unfold insert_mfa in Hi. cbn in Hi. case_bool_decide as Hold.
  - injection Hi as <- <-. apply bind_ok in H as (winner & s6 & Hw & H). apply GetMFA_ok in Hw as [Hw ->]. cbn in Hw.
    destruct (mf_Verified winner) eqn:Hv; [discriminate H|]. apply reuse_ok in H as (-> & c0 & Hsec & Hdec).
    exists winner, c0. split_and!; [exact Hw | done | done | done | by right].
  - repeat case_bool_decide; try discriminate Hi. injection Hi as <- <-. unfold ret in H. injection H as <- <- _.
    eexists _, c. split_and!; [unfold row; cbn; apply lookup_insert_eq | done | done | done|]. left.
    unfold row. by apply eq_None_not_Some.
Qed.

Lemma setup_pending scope u key nonce (s s' : St) b32 url :
  reads_back -> Setup scope u key nonce s = (s', Ok (b32, url)) -> pending s s' u b32.
Proof.
  intros Hback. unfold SetupTOTP, with_key. unfold attempt at 1.
  assert (exists r, db (repo_GetByID scope u) s = (asked s, r)) as [[name|e] ->]; [| |by destruct e].
  { unfold db, repo_GetByID, bind. rewrite select_run. destruct (sfail _ _); [by eexists|]. destruct (users _ !! _) as [[t n]|]; [|by eexists].
    destruct (match scope with Some _ => _ | None => _ end); by eexists. }
  unfold attempt. rewrite GetMFA_run. destruct (sfail _ _); [discriminate|].
  change (mfas (sdb (udb (asked s))) !! (u, MFATypeTotp)) with (row s u). destruct (row s u) as [mfa|] eqn:Hrow.
  - destruct (mf_Verified mfa) eqn:Hv; [discriminate|]. intros H. apply reuse_ok in H as (-> & c & Hsec & Hdec).
    exists mfa, c. split_and!; [exact Hrow | done | done | done | by right].
  - intros H. apply enroll_pending in H; [|done]. destruct H as (m & c & H1 & H2 & H3 & H4 & H5). exists m, c. split_and!; [done..|]. left. exact Hrow.
Qed.

(** Repeated enrollments agree. When SetupTOTP answered a secret, the one stored is
    that secret, so that the codes of a user who scanned it match; and every further
    SetupTOTP that answers while the stored row is the same, and every one that
    looked before the row was there and inserts now, answers the same secret. *)
Theorem setups_agree (s s1 s2 s3 : St) scope1 u key1 nonce1 b32 url1 b32' :
  reads_back -> Setup scope1 u key1 nonce1 s = (s1, Ok (b32, url1)) -> row s2 u = row s1 u ->
  (exists scope2 key2 nonce2 url2, Setup scope2 u key2 nonce2 s2 = (s3, Ok (b32', url2)))
  \/ (exists name key2 nonce2 url2, enroll_tail u name key2 nonce2 s2 = (s3, Ok (b32', url2))) ->
  b32' = b32 /\ row s3 u = row s1 u
  /\ forall code k, matches s3 u code k <-> matchTOTPStep ValidateCustom code b32 (unow (sdb (udb s3))) = Some k.
Proof.
  intros Hback H1 Hrow H2. apply setup_pending in H1 as (mfa & c & Hr1 & Hv & Hc & Hd & _); [|done].
  assert (pending s2 s3 u b32') as (mfa' & c' & Hr3 & _ & Hc' & Hd' & Hcase).
  { destruct H2 as [(? & ? & ? & ? & H2)|(? & ? & ? & ? & H2)]; [by eapply setup_pending | by eapply enroll_pending]. }
  destruct Hcase as [?|Hcase]; [congruence|]. assert (mfa' = mfa) as -> by congruence. assert (c' = c) as -> by congruence.
  assert (b32' = b32) as -> by congruence. split; [done|]. split; [congruence|]. intros code k. unfold matches. fold (row s3 u). rewrite Hr3. split.
  - intros (m & sec & plain & [= <-] & Hs & Hp & Hk). by assert (plain = b32) as -> by congruence.
  - intros Hk. by exists mfa, c, b32.
Qed.
End Props.
