(* ===== verification/MfaCodes.v ===== *)
(** * MfaCodes: how recovery codes are written and read

    What a user types for a code, in whatever case and with hyphens and spaces
    anywhere, is what the code was hashed as; and a generated code lets in. *)

From stdpp Require Import sorting.
From Stdlib Require Import Ascii.
From S2P Require Import Prelude Statements Text Redis Mfa MfaProps.

(** ** Texts *)

Definition unspaced (s : string) : string :=
  filter_chars (fun c => negb (bool_decide (c = " "%char))) (filter_chars (fun c => negb (bool_decide (c = "-"%char))) s).

(** [typed] is the code up to case, hyphens and spaces. *)
Definition spells (typed code : string) : Prop := unspaced (map_chars ascii_upper typed) = unspaced code.

Definition base32_letter (c : ascii) : bool := between "A"%char "Z"%char c || between "2"%char "7"%char c.

Lemma base32_char_ok v : base32_letter (base32_char v) = true.
Proof.
  unfold base32_char. change 31 with (Z.ones 5). rewrite Z.land_ones by lia. pose proof (Z.mod_pos_bound v (2 ^ 5) ltac:(lia)) as Hm.
  remember (Z.to_nat (v mod 2 ^ 5)) as n eqn:Hn. assert (n < 32)%nat as Hlt by (change (2 ^ 5) with 32 in *; lia). clear Hn Hm.
  do 32 (destruct n as [|n]; [reflexivity|]). lia.
Qed.

Definition sep (c : ascii) : bool := bool_decide (c = " "%char) || bool_decide (c = "-"%char).

(** What the 256 characters do, once the upper case of one is of the alphabet. *)
Lemma upper_letter c :
  base32_letter (ascii_upper c) = true ->
  ascii_byte c = true /\ ascii_space c = false /\ sep c = false /\ sep (ascii_upper c) = false
  /\ (between "0"%char "9"%char c || between "A"%char "Z"%char c || between "a"%char "z"%char c = true).
Proof. destruct c as [[] [] [] [] [] [] [] []]; vm_compute; intros H; try discriminate H; repeat split. Qed.

Lemma upper_sep c : sep (ascii_upper c) = sep c.
Proof. by destruct c as [[] [] [] [] [] [] [] []]. Qed.

Lemma upper_base32 c : base32_letter c = true -> ascii_upper c = c /\ sep c = false.
Proof. destruct c as [[] [] [] [] [] [] [] []]; vm_compute; intros H; try discriminate H; by split. Qed.

Lemma unspaced_cons c s : unspaced (String c s) = if sep c then unspaced s else String c (unspaced s).
Proof.
  unfold unspaced, sep. cbn [filter_chars]. destruct (bool_decide (c = "-"%char)) eqn:Hh; cbn [negb].
  - by rewrite orb_true_r.
  - cbn [filter_chars]. rewrite orb_false_r. by destruct (bool_decide (c = " "%char)).
Qed.

(** Every character of a spelling is a separator or a letter of the alphabet. *)
Definition spelling_char (c : ascii) : bool := sep c || base32_letter (ascii_upper c).

Lemma spelled_chars s : all_chars base32_letter (unspaced (map_chars ascii_upper s)) = true -> all_chars spelling_char s = true.
Proof.
  induction s as [|c s IH]; [done|]. cbn [map_chars]. rewrite unspaced_cons, upper_sep. cbn [all_chars]. unfold spelling_char at 1.
  destruct (sep c); cbn; [done|]. intros [H1 H2]%andb_true_iff. rewrite H1. by apply IH.
Qed.

Lemma spelled_ascii s : all_chars spelling_char s = true -> all_chars ascii_byte s = true.
Proof.
  induction s as [|c s IH]; [done|]. cbn. intros [H1 H2]%andb_true_iff. rewrite (IH H2), andb_true_r.
  unfold spelling_char, sep in H1. apply orb_true_iff in H1 as [[H|H]%orb_true_iff|H]; [by apply bool_decide_eq_true in H as ->.. | by apply upper_letter].
Qed.

(** Trimming drops separators only. *)
Lemma unspaced_trim_left s :
  all_chars spelling_char s = true ->
  all_chars spelling_char (trim_left ascii_space s) = true
  /\ unspaced (map_chars ascii_upper (trim_left ascii_space s)) = unspaced (map_chars ascii_upper s).
Proof.
  induction s as [|c s IH]; [done|]. cbn [trim_left]. intros Hall. destruct (ascii_space c) eqn:Hsp; [|done].
  cbn [all_chars] in Hall. apply andb_true_iff in Hall as [Hc Hs]. destruct (IH Hs) as [IH1 IH2]. split; [done|].
  cbn [map_chars]. rewrite unspaced_cons, upper_sep, IH2. unfold spelling_char in Hc. destruct (sep c); [done|].
  cbn in Hc. apply upper_letter in Hc as (_ & Hc & _). congruence.
Qed.

Lemma unspaced_trim_right s :
  all_chars spelling_char s = true ->
  unspaced (map_chars ascii_upper (trim_right ascii_space s)) = unspaced (map_chars ascii_upper s).
Proof.
  induction s as [|c s IH]; [done|]. cbn [trim_right map_chars all_chars]. intros [Hc Hs]%andb_true_iff. specialize (IH Hs).
  rewrite unspaced_cons, upper_sep. rewrite <- IH. destruct (trim_right ascii_space s) as [|d t].
  - destruct (ascii_space c) eqn:Hsp; [|by cbn [map_chars]; rewrite unspaced_cons, upper_sep].
    unfold spelling_char in Hc. destruct (sep c); [done|]. cbn in Hc. apply upper_letter in Hc as (_ & Hc & _). congruence.
  - change (map_chars ascii_upper (String c (String d t))) with (String (ascii_upper c) (map_chars ascii_upper (String d t))).
    by rewrite unspaced_cons, upper_sep.
Qed.

Section Reading.
Context (unicode_trim unicode_upper : string -> string).

Lemma trim_left_chars (P Q : ascii -> bool) s : all_chars P s = true -> all_chars P (trim_left Q s) = true.
Proof. induction s as [|c s IH]; [done|]. cbn. destruct (Q c); [intros [_ H]%andb_true_iff; by apply IH | done]. Qed.
Lemma trim_right_chars (P Q : ascii -> bool) s : all_chars P s = true -> all_chars P (trim_right Q s) = true.
Proof.
  induction s as [|c s IH]; [done|]. cbn. intros [Hc Hs]%andb_true_iff. specialize (IH Hs).
  destruct (trim_right Q s); [destruct (Q c) | ]; cbn; rewrite ?Hc; try done.
Qed.

Lemma normalize_spelled s t :
  all_chars base32_letter t = true -> String.length t = 8%nat -> unspaced (map_chars ascii_upper s) = t ->
  normalizeBackupCode unicode_trim unicode_upper s = t.
Proof.
  intros Ht Hlen Hs. assert (all_chars spelling_char s = true) as Hsp by (apply spelled_chars; by rewrite Hs).
  pose proof (spelled_ascii s Hsp) as Ha. unfold normalizeBackupCode, TrimSpace. rewrite Ha.
  unfold ToUpper. rewrite trim_right_chars by by apply trim_left_chars.
  fold (unspaced (map_chars ascii_upper (trim_right ascii_space (trim_left ascii_space s)))).
  destruct (unspaced_trim_left s Hsp) as [H1 H2]. by rewrite unspaced_trim_right, H2, Hs, Hlen.
Qed.

Lemma looks_spelled s t n :
  all_chars base32_letter t = true -> unspaced (map_chars ascii_upper s) = t -> (n + String.length t)%nat = 8%nat ->
  looks_from n s = true.
Proof.
  revert t n. induction s as [|c s IH]; intros t n Ht Hs Hn.
  - subst t. cbn in Hn. cbn. apply Nat.eqb_eq. lia.
  - cbn [map_chars] in Hs. rewrite unspaced_cons, upper_sep in Hs. cbn [looks_from]. fold (sep c) in *. unfold sep in *.
    rewrite (orb_comm (bool_decide (c = "-"%char))). destruct (bool_decide (c = " "%char) || bool_decide (c = "-"%char)); [by eapply IH|].
    subst t. cbn in Ht. apply andb_true_iff in Ht as [Hc Ht]. apply upper_letter in Hc as (_ & _ & _ & _ & Hc).
    cbn in Hn. destruct (between "0"%char "9"%char c); [eapply IH; [exact Ht | done | lia]|].
    destruct (between "A"%char "Z"%char c); [done|]. by destruct (between "a"%char "z"%char c).
Qed.

(** *** Generated codes *)

Lemma EncodeToString_chars v :
  exists c0 c1 c2 c3 c4 c5 c6 c7,
    EncodeToString v = String c0 (String c1 (String c2 (String c3 (String c4 (String c5 (String c6 (String c7 EmptyString)))))))
    /\ Forall (fun c => base32_letter c = true) [c0; c1; c2; c3; c4; c5; c6; c7].
Proof.
  unfold EncodeToString. change (seqZ 0 8) with [0; 1; 2; 3; 4; 5; 6; 7]. cbn [map String.string_of_list_ascii].
  do 8 eexists. split; [reflexivity|]. repeat (apply Forall_cons; split; [apply base32_char_ok|]). by apply Forall_nil.
Qed.

Lemma encoded_text v : all_chars base32_letter (EncodeToString v) = true /\ String.length (EncodeToString v) = 8%nat
  /\ unspaced (newBackupCode v) = EncodeToString v /\ unspaced (map_chars ascii_upper (newBackupCode v)) = EncodeToString v.
Proof.
  unfold newBackupCode. destruct (EncodeToString_chars v) as (c0 & c1 & c2 & c3 & c4 & c5 & c6 & c7 & -> & Hall).
  rewrite !Forall_cons in Hall. destruct Hall as (H0 & H1 & H2 & H3 & H4 & H5 & H6 & H7 & _).
  split; [cbn [all_chars]; by rewrite H0, H1, H2, H3, H4, H5, H6, H7|]. split; [done|].
  destruct (upper_base32 _ H0) as [E0 S0], (upper_base32 _ H1) as [E1 S1], (upper_base32 _ H2) as [E2 S2], (upper_base32 _ H3) as [E3 S3],
    (upper_base32 _ H4) as [E4 S4], (upper_base32 _ H5) as [E5 S5], (upper_base32 _ H6) as [E6 S6], (upper_base32 _ H7) as [E7 S7].
  match goal with |- context [unspaced (map_chars ascii_upper ?code)] =>
    change code with (String c0 (String c1 (String c2 (String c3 (String "-" (String c4 (String c5 (String c6 (String c7 EmptyString))))))))) end.
  cbn [map_chars]. rewrite E0, E1, E2, E3, E4, E5, E6, E7. change (ascii_upper "-") with "-"%char.
  rewrite !unspaced_cons, S0, S1, S2, S3, S4, S5, S6, S7. by split.
Qed.

(** A spelling of a generated code normalizes to what the code was hashed as, and is
    not taken for a time-based code. *)
Lemma spelled_code v typed :
  spells typed (newBackupCode v) ->
  normalizeBackupCode unicode_trim unicode_upper typed = EncodeToString v /\ looksLikeBackupCode typed = true.
Proof.
  unfold spells. destruct (encoded_text v) as (H1 & H2 & -> & _). intros Hs. split; [by apply normalize_spelled|].
  eapply looks_spelled; [exact H1 | done | lia].
Qed.

Lemma hashed_code v : normalizeBackupCode unicode_trim unicode_upper (newBackupCode v) = EncodeToString v.
Proof. destruct (encoded_text v) as (H1 & H2 & _ & H4). by apply normalize_spelled. Qed.
End Reading.

(** ** Generating, and using one *)

Section Generate.
Context {G : Type} `{!IdGen G}.
Context (CompareHashAndPassword : string -> string -> bool).
Context (unicode_trim unicode_upper : string -> string).

Abbreviation St := (UState G).
Abbreviation W := (UWorld G).
Abbreviation Regenerate := (GenerateBackupCodes true unicode_trim unicode_upper).
Abbreviation Consume := (ConsumeBackupCode true CompareHashAndPassword unicode_trim unicode_upper).

(** The unused rows of a user. *)
Definition unused (u : Z) (m : gmap Z MFABackupCode) : list MFABackupCode :=
  filter (fun r => active u r = true) (map_to_list m).*2.

Lemma unused_insert u m id r : m !! id = None -> unused u (<[id := r]> m) ≡ₚ if active u r then r :: unused u m else unused u m.
Proof.
  intros Hid. unfold unused. rewrite map_to_list_insert by done. rewrite fmap_cons. destruct (active u r) eqn:Ha.
  - by rewrite filter_cons_True.
  - by rewrite filter_cons_False by (cbn; by rewrite Ha).
Qed.

Lemma unused_elem u m r : r ∈ unused u m <-> active u r = true /\ exists id, m !! id = Some r.
Proof.
  unfold unused. rewrite list_elem_of_filter. split; intros [Ha H]; (split; [done|]).
  - apply list_elem_of_fmap in H as ([id r'] & -> & Hin). exists id. by apply elem_of_map_to_list.
  - destruct H as [id Hid]. apply list_elem_of_fmap. exists (id, r). split; [done|]. by apply elem_of_map_to_list.
Qed.

Lemma unused_none u (w : W) : unused u (codes (without_codes u w)) = [].
Proof.
  destruct (unused u _) as [|r l] eqn:Hu; [done|]. exfalso. assert (r ∈ unused u (codes (without_codes u w))) as Hr by (rewrite Hu; by left).
  apply unused_elem in Hr as [Ha [id Hid]]. cbn in Hid. apply map_lookup_filter_Some in Hid as [_ Hne]. cbn in Hne.
  unfold active in Ha. apply andb_true_iff in Ha as [Ha _]. by apply Z.eqb_eq in Ha.
Qed.

Lemma unused_rows u now rows (m : gmap Z MFABackupCode) :
  NoDup (map bc_ID rows) -> Forall (fun r => m !! bc_ID r = None) rows ->
  Forall (fun x => bc_UserID x = u /\ bc_UsedAt x = None /\ bc_CreatedAt x = now) rows ->
  unused u (foldr (fun r => <[bc_ID r := r]>) m rows) ≡ₚ rows ++ unused u m.
Proof.
  induction rows as [|r rows IH]; cbn [foldr map]; [done|]. rewrite NoDup_cons, !Forall_cons.
  intros [Hnin Hnd] [Hm Hms] [(Hu & Hun & _) Hall]. rewrite unused_insert.
  - unfold active. rewrite Hu, Hun, Z.eqb_refl, bool_decide_true by done. cbn. by rewrite IH.
  - apply eq_None_not_Some. intros [r' Hr']. apply lookup_rows in Hr' as [[Hin Hid]|Hr']; [|congruence].
    apply Hnin. rewrite <- Hid. by apply list_elem_of_fmap_2.
Qed.

Lemma unused_mark u m id r t :
  m !! id = Some r -> active u r = true -> S (length (unused u (<[id := used_row t r]> m))) = length (unused u m).
Proof.
  intros Hr Ha. assert (m = <[id := r]> (delete id m)) as Hm by (by rewrite insert_delete_id).
  rewrite Hm at 2. rewrite <- (insert_delete_eq m). rewrite !unused_insert by apply lookup_delete_eq. rewrite Ha.
  assert (active u (used_row t r) = false) as ->; [|done]. unfold active. cbn. by rewrite andb_false_r.
Qed.

(** What minting answers: each code with its hash. *)
Lemma mint_pairs (draw : nat -> option Z) hash n i (s s' : St) minted :
  mint_codes unicode_trim unicode_upper draw hash n i s = (s', Ok minted) ->
  s' = s /\ length minted = n
  /\ Forall (fun p => exists v j, p.1 = newBackupCode v /\ hash j (EncodeToString v) = Some p.2) minted.
Proof.
  revert i s s' minted. induction n as [|n IH]; intros i s s' minted; cbn [mint_codes].
  - unfold ret. intros [= <- <-]. split_and!; [done | done | by apply Forall_nil].
  - intros H. apply bind_ok in H as (v & s1 & Hv & H). apply bind_ok in H as (h & s2 & Hh & H). apply bind_ok in H as (rest & s3 & Hm & H).
    unfold or_throw in Hv, Hh. destruct (draw i) as [v'|]; [|discriminate Hv]. injection Hv as <- <-.
    rewrite hashed_code in Hh. destruct (hash i (EncodeToString v')) as [h'|] eqn:Hhash; [|discriminate Hh]. injection Hh as <- <-.
    apply IH in Hm as (-> & Hl & Hall). unfold ret in H. injection H as <- <-. split_and!; [done | cbn; by rewrite Hl|].
    apply Forall_cons. split; [|done]. by exists v', i.
Qed.

Lemma ReplaceAll_post u hashes (s s' : Store W) :
  ReplaceAll u hashes s = (s', Ok tt) ->
  exists rows, map bc_CodeHash rows = hashes /\ unused u (codes (sdb s')) ≡ₚ rows.
Proof.
  unfold ReplaceAll. intros H. apply txn_ok in H as (s0 & H & ->).
  apply bind_ok in H as ([] & s1 & He & H). apply bind_ok in H as (now & s2 & Hn & H). apply bind_ok in H as (rows & s3 & Hb & H).
  unfold exec, bind, query in He. destruct (sfail s (scalls s)); [discriminate He|]. cbn in He. injection He as <-.
  unfold gets in Hn. injection Hn as <- <-. 
  pose proof (backup_rows_fresh u (unow (sdb s)) hashes (without_codes u (sdb s))
    (mkStore (without_codes u (sdb s)) (sfail s) (S (scalls s))) eq_refl) as Hf. cbn in Hf, Hb.
  rewrite Hb in Hf. cbn in Hf. destruct Hf as (Hc & _ & _ & rows' & [= <-] & _ & Hnd & Hh & Hall). exists rows. split; [done|].
  pose proof (unused_none u (sdb s)) as Hnone. cbn in Hnone. case_bool_decide as Hnil.
  - unfold ret in H. injection H as <-. subst rows. by rewrite Hc, Hnone.
  - rewrite exec_or_run in H. destruct (sfail s3 (scalls s3)); [discriminate H|]. destruct (insert_codes u rows (sdb s3)) as [w'|e] eqn:Hi; [|discriminate H].
    injection H as <-. unfold insert_codes in Hi. case_bool_decide; [|done]. cbn in Hi. case_bool_decide as Hins; [|done]. injection Hi as <-.
    destruct Hins as [Hfree _]. cbn. rewrite unused_rows by done. rewrite Hc, Hnone. by rewrite app_nil_r.
Qed.

Lemma consume_first_hit (normalized : string) (rows : list MFABackupCode) r0 :
  r0 ∈ rows -> CompareHashAndPassword (bc_CodeHash r0) normalized = true ->
  exists r, r ∈ rows /\ forall s : St, consume_first CompareHashAndPassword normalized rows s = db (MarkUsed (bc_ID r) (unow (sdb (udb s)))) s.
Proof.
  intros Hin Hc. induction rows as [|x rows IH]; [by apply not_elem_of_nil in Hin|].
  destruct (CompareHashAndPassword (bc_CodeHash x) normalized) eqn:Hx.
  - exists x. split; [by left|]. intros s. cbn [consume_first]. by rewrite Hx.
  - apply elem_of_cons in Hin as [->|Hin]; [congruence|]. destruct (IH Hin) as (r & Hr & Hrun).
    exists r. split; [by right|]. intros s. cbn [consume_first]. by rewrite Hx.
Qed.

(** Generated codes let in. When a set of recovery codes was generated for a user,
    ten are unused, whatever there was before; and each of the ten, in whatever case
    and with hyphens and spaces anywhere, is told from a time-based code and lets the
    user in, which leaves nine. *)
Theorem generated_codes_let_in (s s1 : St) u draw hash cs :
  (forall i p h, hash i p = Some h -> CompareHashAndPassword h p = true) ->
  codes_known (sdb (udb s)) -> Regenerate draw hash u s = (s1, Ok cs) -> healthy (udb s1) ->
  length cs = BackupCodeCount /\ (CountBackupCodes true u s1).2 = Ok 10
  /\ forall code typed, code ∈ cs -> spells typed code ->
       looksLikeBackupCode typed = true
       /\ exists s2, Consume u typed s1 = (s2, Ok tt) /\ (CountBackupCodes true u s2).2 = Ok 9.
Proof.
  intros Hhash Hknown Hgen Hs1.
  assert (codes_known (sdb (udb s1))) as Hk1.
  { pose proof (older_step (mkMasterKey (fun _ _ => None) (fun _ => None)) "" (fun _ _ _ => false) CompareHashAndPassword
      unicode_trim unicode_upper s _ (u_request _ _ _ _ _ _ (RRegenerate draw hash u) s)) as Hage.
    cbn [handle] in Hage. rewrite Hgen in Hage. eapply codes_known_age; [exact Hknown | exact Hage]. }
  unfold GenerateBackupCodes in Hgen. cbn [negb] in Hgen.
  apply bind_ok in Hgen as (minted & s0 & Hm & Hgen). apply mint_pairs in Hm as (-> & Hlen & Hall).
  apply bind_ok in Hgen as ([] & s2 & Hrep & Hret). unfold ret in Hret. injection Hret as -> <-.
  unfold db in Hrep. destruct (ReplaceAll u minted.*2 (udb s)) as [d r] eqn:Hr. injection Hrep as <- ->.
  apply ReplaceAll_post in Hr as (rows & Hrows & Hperm). set (s1 := mkUState d (ukv s)) in *. change d with (udb s1) in Hperm.
  assert (length (unused u (codes (sdb (udb s1)))) = 10%nat) as H10.
  { rewrite Hperm. transitivity (length (map bc_CodeHash rows)); [by rewrite length_map|]. by rewrite Hrows, length_fmap, Hlen. }
  assert (forall (st : St) n, healthy (udb st) -> length (unused u (codes (sdb (udb st)))) = n -> (CountBackupCodes true u st).2 = Ok (Z.of_nat n)) as Hcount.
  { intros st n Hh Hn. unfold CountBackupCodes, CountActive, db. cbn [negb]. rewrite select_run, Hh. cbn. unfold unused in Hn. by rewrite Hn. }
  split; [by rewrite length_fmap|]. split; [by apply (Hcount s1 10%nat)|]. intros code typed Hcode Hspell.
  apply list_elem_of_fmap in Hcode as ([code' h] & -> & Hin). rewrite Forall_forall in Hall. destruct (Hall _ Hin) as (v & j & Hc & Hh). cbn in Hspell, Hh, Hc. subst code'.
  destruct (spelled_code unicode_trim unicode_upper v typed Hspell) as [Hnorm Hlooks]. split; [done|].
  assert (exists r0, r0 ∈ unused u (codes (sdb (udb s1))) /\ bc_CodeHash r0 = h) as (r0 & Hr0 & Hh0).
  { assert (h ∈ map bc_CodeHash rows) as Hhin by (rewrite Hrows; by apply (list_elem_of_fmap_2 snd _ (newBackupCode v, h))).
    apply list_elem_of_fmap in Hhin as (r0 & -> & Hr0). exists r0. by rewrite Hperm. }
  unfold ConsumeBackupCode. cbn [negb]. rewrite Hnorm.
  rewrite bool_decide_false by (intros Heq; destruct (encoded_text v) as (_ & Hl & _); by rewrite Heq in Hl).
  unfold bind, db at 1, ListActive. rewrite select_run, Hs1. cbn [fst snd].
  fold (unused u (codes (sdb (udb s1)))).
  destruct (consume_first_hit (EncodeToString v) (merge_sort older (unused u (codes (sdb (udb s1))))) r0) as (r & Hrin & Hrun).
  { by rewrite merge_sort_Permutation. } { rewrite Hh0. by apply (Hhash j). }
  rewrite merge_sort_Permutation in Hrin. apply unused_elem in Hrin as [Hact [id Hid]]. destruct (Hk1 id r Hid) as [Hbid _].
  rewrite Hrun. unfold db, MarkUsed. rewrite exec_or_run. cbn [udb sdb sfail scalls]. rewrite Hs1. unfold mark_used. rewrite Hbid, Hid.
  assert (bc_UsedAt r = None) as Hun by (unfold active in Hact; apply andb_true_iff in Hact as [_ H]; by apply bool_decide_eq_true in H).
  rewrite bool_decide_true by done. eexists. split; [reflexivity|]. apply (Hcount _ 9%nat); [intros k; apply Hs1|]. cbn [udb sdb with_codes codes].
  pose proof (unused_mark u (codes (sdb (udb s1))) id r (unow (sdb (udb s1))) Hid Hact). lia.
Qed.
End Generate.

(** ** A run: enrollment, two codes, recovery codes *)

Module MfaDemo.
Definition key : MasterKey := mkMasterKey (fun p n => Some (String "v" p)) (fun c => match c with String _ p => Some p | EmptyString => None end).
Definition valid (code secret : string) (t : Z) : bool := bool_decide (code = secret +:+ dec (step_at t)).
Definition compare (h p : string) : bool := bool_decide (h = "h" +:+ p).
Definition hash (i : nat) (p : string) : option string := Some ("h" +:+ p).
Definition draw (i : nat) : option Z := Some (81985529216486895 + 7919 * Z.of_nat i).
Definition ident (s : string) : string := s.
Definition url : OtpURL := mkOtpURL "otpauth" "totp" "/MXID:ann" [].
Definition otp (secret : string) : option OtpKey := Some (mkOtpKey secret url).

Definition start : UState Z :=
  mkUState (mkStore (mkUWorld {[7 := (1, "ann"%string)]} ∅ ∅ 100 (1700000010 * Second) []) (fun _ => false) 0)
           (mkRedis ∅ (1700000000 * Second) (fun _ => Fine) 0).

Abbreviation setup := (SetupTOTP (Some key) "MXID" (Some 1) 7).
Abbreviation verify := (VerifyTOTP (Some key) true valid 7).
Abbreviation regenerate := (GenerateBackupCodes true ident ident draw hash 7).
Abbreviation consume := (ConsumeBackupCode true compare ident ident 7).

Definition enrolled : UState Z := (setup (otp "JBSW") "n" start).1.
Definition first_code : string := "JBSW56666667".
Definition verified : UState Z := (verify first_code enrolled).1.
(** Half a minute later. *)
Definition later : UState Z :=
  mkUState (mkStore (mkUWorld (users (sdb (udb verified))) (mfas (sdb (udb verified))) (codes (sdb (udb verified)))
                       (ugen (sdb (udb verified))) (1700000040 * Second) []) (fun _ => false) 0)
           (mkRedis (rkeys (ukv verified)) (1700000050 * Second) (fun _ => Fine) 0).

Example first_code_reused : (verify first_code later).2 = Err ErrMFACodeReused.
Proof. vm_compute. reflexivity. Qed.

Lemma start_in_step : in_step enrolled.
Proof. unfold in_step. vm_compute. split; intros H; discriminate H. Qed.
Lemma later_agreeing : agreeing key "MXID" valid compare ident ident verified later.
Proof.
  split; [|unfold in_step; vm_compute; split; intros H; discriminate H]. apply u_others; [done | vm_compute; intros H; discriminate H | apply Z.le_refl].
Qed.

Lemma accepted_steps_increase_witness :
  exists k1 k2, matches key valid enrolled 7 first_code k1 /\ matches key valid later 7 "JBSW56666668" k2 /\ k1 < k2.
Proof.
  refine (accepted_steps_increase key "MXID" valid compare ident ident enrolled verified later (verify "JBSW56666668" later).1 7
    first_code "JBSW56666668" start_in_step _ _ _).
  - vm_compute. reflexivity.
  - apply rtc_once. exact later_agreeing.
  - vm_compute. reflexivity.
Defined.

Definition supplied : UState Z := (regenerate start).1.
Definition listed : list MFABackupCode := match (db (ListActive 7) supplied).2 with Ok rows => rows | Err _ => [] end.
(** Two requests that both read the rows before either wrote. *)
Definition one_in : UState Z := (consume_first compare "M6E2XTPP" listed supplied).1.
Definition two_in : UState Z := (consume_first compare "M6E2X3G6" listed one_in).1.

Example same_code_refused : (consume_first compare "M6E2XTPP" listed one_in).2 = Err ErrMFAInvalidCode.
Proof. vm_compute. reflexivity. Qed.

Lemma supplied_known : codes_known (sdb (udb supplied)).
Proof.
  change (map_Forall (fun id r => bc_ID r = id /\ id <= id_bound (ugen (sdb (udb supplied)))) (codes (sdb (udb supplied)))).
  apply (bool_decide_unpack _). vm_compute. exact I.
Qed.

Lemma recovery_code_lets_in_once_witness :
  exists id1 id2, marks supplied one_in id1 /\ marks one_in two_in id2 /\ id1 <> id2.
Proof.
  refine (recovery_code_lets_in_once key "MXID" valid compare ident ident supplied one_in one_in two_in supplied_known _ (rtc_refl _ _) _);
    right; [exists "M6E2XTPP"%string, listed | exists "M6E2X3G6"%string, listed]; vm_compute; reflexivity.
Defined.

Lemma start_known : codes_known (sdb (udb start)).
Proof. intros id r Hr. discriminate Hr. Qed.

Definition generated : list string := match (regenerate start).2 with Ok cs => cs | Err _ => [] end.

Lemma generated_codes_let_in_witness :
  "M6E2-XTPP"%string ∈ generated /\ exists s2, consume " m6e2xtpp" supplied = (s2, Ok tt) /\ (CountBackupCodes true 7 s2).2 = Ok 9.
Proof.
  assert ("M6E2-XTPP"%string ∈ generated) as Hin by (apply (bool_decide_unpack _); vm_compute; exact I).
  destruct (generated_codes_let_in compare ident ident start supplied 7 draw hash generated) as (_ & _ & H).
  - intros i p h [= <-]. unfold compare. by apply bool_decide_eq_true.
  - exact start_known.
  - vm_compute. reflexivity.
  - intros n. vm_compute. reflexivity.
  - split; [exact Hin|]. apply (H "M6E2-XTPP"%string " m6e2xtpp"%string Hin). vm_compute. reflexivity.
Defined.

Lemma setups_agree_witness :
  exists b32', (setup (otp "OTHER") "m" enrolled).2 = Ok (b32', mkOtpURL "otpauth" "totp" "/MXID:ann"
    [("algorithm", "SHA1"); ("digits", "6"); ("issuer", "MXID"); ("period", "30"); ("secret", "JBSW")]%string) /\ b32' = "JBSW"%string.
Proof.
  exists "JBSW"%string. split; [vm_compute; reflexivity|].
  refine (proj1 (setups_agree key "MXID" valid start enrolled enrolled (setup (otp "OTHER") "m" enrolled).1 (Some 1) 7 (otp "JBSW") "n" "JBSW" url "JBSW" _ _ _ _)).
  - intros p n c [= <-]. reflexivity.
  - vm_compute. reflexivity.
  - reflexivity.
  - left. eexists (Some 1), (otp "OTHER"), "m"%string, _. vm_compute. reflexivity.
Defined.
End MfaDemo.
