(* ===== verification/MfaLimit.v ===== *)
(** * MfaLimit: the limiter of second-factor attempts (src/internal/domain/authn/mfa_ratelimit.go)

    A failure counter per user and per address, a lock that lasts longer with each
    trip, and the trips remembered for a while: first as commands on the Redis model,
    then what they amount to for one key ([Meter]). *)

From S2P Require Import Prelude Text Redis RateLimit.

Definition mfaFailWindow : Z := 5 * Minute.
Definition mfaFailThreshold : Z := 15.
Definition mfaLockDurations : list Z := [1 * Minute; 5 * Minute; 15 * Minute].
Definition mfaLockLevelTTL : Z := 1 * Hour.

Definition userKey (userID : Z) : string := if userID =? 0 then "" else "mxid:mfa_fail:user:" +:+ dec userID.
Definition ipKey (ip : string) : string := if bool_decide (ip = "")%string then "" else "mxid:mfa_fail:ip:" +:+ ip.

Definition locked_key (key : string) : string := key +:+ ":locked".
Definition level_key (key : string) : string := key +:+ ":locklevel".

(** The duration of a lock by the level reached. *)
Definition lock_duration (level : Z) : Z :=
  let idx := level - 1 in
  let idx := if (idx <? 0) || (Z.of_nat (length mfaLockDurations) <=? idx)
             then Z.of_nat (length mfaLockDurations) - 1 else idx in
  nth (Z.to_nat idx) mfaLockDurations 0.

Section Limiter.
(** What TTL answers, in seconds, for the nanoseconds a key has left. *)
Context (ttl_s : Z -> Z).

Abbreviation LRedis := (Redis string).
Abbreviation Op := (M LRedis RErr).

(** How long the first locked key stays so. An error is no lock. *)
Fixpoint check_keys (keys : list string) : Op (option Z) :=
  match keys with
  | [] => ret None
  | key :: rest =>
      if bool_decide (key = "")%string then check_keys rest else
      attempt (command (ttl_f ttl_s (locked_key key))) (fun r =>
        match r with
        | Ok ttl => if 0 <? ttl then ret (Some ttl) else check_keys rest
        | Err _ => check_keys rest
        end)
  end.
Definition Check (userID : Z) (ip : string) : Op (option Z) := check_keys [userKey userID; ipKey ip].

Definition lock (key : string) : Op unit :=
  attempt (command (incr (level_key key))) (fun r =>
    let level := match r with Ok level => level | Err _ => Z.of_nat (length mfaLockDurations) end in
    do! (if level =? 1 then ignore (EXPIRE (level_key key) mfaLockLevelTTL) else ret tt) in
    do! ignore (SET (locked_key key) "1" (lock_duration level)) in
    ignore (DEL key)).

Fixpoint record_keys (keys : list string) : Op unit :=
  match keys with
  | [] => ret tt
  | key :: rest =>
      if bool_decide (key = "")%string then record_keys rest else
      attempt (command (incr key)) (fun r =>
        match r with
        | Err _ => record_keys rest
        | Ok count =>
            do! (if count =? 1 then ignore (EXPIRE key mfaFailWindow) else ret tt) in
            do! (if mfaFailThreshold <=? count then lock key else ret tt) in
            record_keys rest
        end)
  end.
Definition RecordFailure (userID : Z) (ip : string) : Op unit := record_keys [userKey userID; ipKey ip].

Definition keys_of (key : string) : list string :=
  if bool_decide (key = "")%string then [] else [key; locked_key key; level_key key].
Definition Reset (userID : Z) (ip : string) : Op unit :=
  let keys := keys_of (userKey userID) ++ keys_of (ipKey ip) in
  if bool_decide (keys = []) then ret tt else ignore (DELS keys).
End Limiter.

(** ** One key's meter *)

Record Meter : Type := mkMeter {
  fails : option (Z * Z);  (** failures counted, and until when *)
  trips : option (Z * Z);  (** trips remembered, and until when *)
  locked_until : option Z
}.

(** What is over at [now] is forgotten. *)
Definition running (now : Z) (x : option (Z * Z)) : option (Z * Z) :=
  match x with Some (n, d) => if now <? d then Some (n, d) else None | None => None end.

(** One more; a first one starts its time. *)
Definition bump (now ttl : Z) (x : option (Z * Z)) : Z * Z :=
  match running now x with Some (n, d) => (n + 1, d) | None => (1, now + ttl) end.

Definition charge (now : Z) (m : Meter) : Meter :=
  let '(n, d) := bump now mfaFailWindow (fails m) in
  if mfaFailThreshold <=? n then
    let '(l, dl) := bump now mfaLockLevelTTL (trips m) in
    mkMeter None (Some (l, dl)) (Some (now + lock_duration l))
  else mkMeter (Some (n, d)) (trips m) (locked_until m).

Definition fresh : Meter := mkMeter None None None.

Definition is_locked (now : Z) (m : Meter) : bool := match locked_until m with Some d => now <? d | None => false end.

(** ** the limiter of second factors meters each key

    The commands amount to charging the meters of the user and of the address
    ([record_failure_charges]); what follows is about meters. *)

Abbreviation LRedis := (Redis string).

(** The store as it is read at a later time. *)
Definition at_clock (now : Z) (r : LRedis) : LRedis := mkRedis (rkeys r) now (rfate r) (rcalls r).

(** ** Keys *)

Lemma key_ne key : key <> locked_key key /\ key <> level_key key /\ locked_key key <> level_key key.
Proof.
  unfold locked_key, level_key. split_and!; intros H.
  - apply (f_equal String.length) in H. rewrite length_app_s in H. cbn in H. lia.
  - apply (f_equal String.length) in H. rewrite length_app_s in H. cbn in H. lia.
  - apply app_cancel_l in H. discriminate H.
Qed.

Lemma keys_of_cases key k : k ∈ keys_of key -> key <> ""%string /\ (k = key \/ k = locked_key key \/ k = level_key key).
Proof.
  unfold keys_of. case_bool_decide as Hk; [intros H; by apply not_elem_of_nil in H|].
  rewrite !elem_of_cons. intros [->|[->|[->|H]]]; [auto.. | by apply not_elem_of_nil in H].
Qed.

Lemma user_not_ip u ip k : k ∈ keys_of (userKey u) -> k ∈ keys_of (ipKey ip) -> False.
Proof.
  intros [Hu H1]%keys_of_cases [Hi H2]%keys_of_cases. unfold userKey, ipKey in *.
  destruct (u =? 0); [done|]. destruct (bool_decide (ip = ""%string)); [done|]. unfold locked_key, level_key in *. cbn in *.
  destruct H1 as [->|[->| ->]], H2 as [H2|[H2|H2]]; discriminate H2.
Qed.

(** ** Meters *)

Definition counter_entry (x : option (Z * Z)) : option (RKey string) :=
  match x with Some (n, d) => Some (mkRKey (RInt n) (Some d)) | None => None end.
Definition lock_entry (x : option Z) : option (RKey string) :=
  match x with Some d => Some (mkRKey (RStr "1"%string) (Some d)) | None => None end.

(** A count that is kept is positive. *)
Definition counted (x : option (Z * Z)) : Prop := match x with Some (n, _) => 1 <= n | None => True end.

(** The keyspace holds [m] for [key]. *)
Definition metered (ks : gmap string (RKey string)) (key : string) (m : Meter) : Prop :=
  counted (fails m) /\ counted (trips m)
  /\ ks !! key = counter_entry (fails m) /\ ks !! level_key key = counter_entry (trips m)
  /\ ks !! locked_key key = lock_entry (locked_until m).

Lemma metered_other ks ks' key m :
  key <> ""%string -> (forall k, k ∈ keys_of key -> ks' !! k = ks !! k) -> metered ks key m -> metered ks' key m.
Proof.
  intros Hk Hsame. unfold keys_of in Hsame. rewrite bool_decide_false in Hsame by done. unfold metered.
  by rewrite !Hsame by (rewrite !elem_of_cons; auto).
Qed.

Lemma peek_counter ks now k x : ks !! k = counter_entry x -> peek ks now k = counter_entry (running now x).
Proof. intros H. unfold peek. rewrite H. destruct x as [[n d]|]; [|done]. cbn. by destruct (now <? d). Qed.

(** The count after INCR, and the store after EXPIRE when it is one. *)
Definition incr_expire (k : string) (ttl : Z) (ks : gmap string (RKey string)) (now : Z) : gmap string (RKey string) * Z :=
  match incr k ks now with
  | (ks1, Ok n) => (if n =? 1 then (expire_f k ttl ks1 now).1 else ks1, n)
  | (ks1, Err _) => (ks1, 0)
  end.

Lemma incr_bump ks now k x ttl :
  ks !! k = counter_entry x -> counted x -> 0 < ttl -> (Second | ttl) ->
  (incr k ks now).2 = Ok (bump now ttl x).1
  /\ incr_expire k ttl ks now = (<[k := mkRKey (RInt (bump now ttl x).1) (Some (bump now ttl x).2)]> ks, (bump now ttl x).1)
  /\ counted (Some (bump now ttl x)).
Proof.
  intros Hk Hc Hpos Hdiv. unfold incr_expire, incr, bump. rewrite (peek_counter ks now k x Hk).
  destruct (running now x) as [[n d]|] eqn:Hrun; cbn.
  - assert (1 <= n) as Hn by (destruct x as [[m e]|]; [|done]; cbn in Hrun; destruct (now <? e); [by injection Hrun as <- <-|done]).
    split; [done|]. split; [|lia]. by destruct (Z.eqb_spec (n + 1) 1); [lia|].
  - split; [done|]. split; [|lia]. unfold expire_f. rewrite peek_insert_eq by done. cbn. by rewrite insert_insert_eq, ex_exact.
Qed.

Section Props.
Context (ttl_s : Z -> Z) (ttl_pos : forall d, Second <= d -> 0 < ttl_s d).

Lemma incr_expire_run {A} k ttl (r : LRedis) (cont : Z -> M LRedis RErr A) (otherwise : M LRedis RErr A) n :
  fine r -> (incr k (rkeys r) (rclock r)).2 = Ok n ->
  exists calls, attempt (command (incr k)) (fun x =>
    match x with
    | Err _ => otherwise
    | Ok count => do! (if count =? 1 then ignore (EXPIRE k ttl) else ret tt) in cont count
    end) r = cont n (mkRedis (incr_expire k ttl (rkeys r) (rclock r)).1 (rclock r) (rfate r) calls).
Proof.
  intros Hf Hn. unfold attempt, incr_expire. rewrite command_fine by done. destruct (incr k (rkeys r) (rclock r)) as [ks1 x]. cbn in Hn. subst x. cbn.
  destruct (n =? 1).
  - eexists. unfold bind, ignore, attempt, EXPIRE. rewrite command_fine by done. cbn. reflexivity.
  - eexists. unfold bind, ret. cbn. reflexivity.
Qed.

Lemma lock_duration_ms l : px (lock_duration l) = lock_duration l /\ 0 < lock_duration l.
Proof.
  unfold lock_duration. set (i := if _ || _ then _ else _).
  assert (i = 0 \/ i = 1 \/ i = 2) as [-> | [-> | ->]]; [|by split..].
  unfold i. change (Z.of_nat (length mfaLockDurations)) with 3. destruct (Z.ltb_spec (l - 1) 0), (Z.leb_spec 3 (l - 1)); cbn [orb]; lia.
Qed.

Lemma running_fine (r : LRedis) (ks : gmap string (RKey string)) now calls : fine r -> fine (mkRedis ks now (rfate r) calls).
Proof. intros Hf n. apply Hf. Qed.

(** A trip: the level is bumped, the lock set, the counter deleted. *)
Lemma lock_run key (r : LRedis) t :
  fine r -> rkeys r !! level_key key = counter_entry t -> counted t ->
  exists calls, lock key r = (mkRedis (delete key (<[locked_key key := mkRKey (RStr "1"%string)
      (Some (rclock r + lock_duration (bump (rclock r) mfaLockLevelTTL t).1))]>
      (<[level_key key := mkRKey (RInt (bump (rclock r) mfaLockLevelTTL t).1) (Some (bump (rclock r) mfaLockLevelTTL t).2)]> (rkeys r))))
    (rclock r) (rfate r) calls, Ok tt).
Proof.
  intros Hf Hl Hc. destruct (incr_bump (rkeys r) (rclock r) (level_key key) t mfaLockLevelTTL) as (Hn & He & _); [done | done | done | by exists 3600|].
  unfold lock, attempt. rewrite command_fine by done. rewrite Hn. unfold incr_expire in He.
  destruct (incr (level_key key) (rkeys r) (rclock r)) as [ks1 x]. cbn in Hn. subst x. injection He as He.
  set (l := (bump (rclock r) mfaLockLevelTTL t).1) in *. cbn [fst snd]. destruct (lock_duration_ms l) as [Hpx Hpos].
  assert (forall calls, exists calls', (do! ignore (SET (locked_key key) "1"%string (lock_duration l)) in ignore (DEL key))
     (mkRedis (if l =? 1 then (expire_f (level_key key) mfaLockLevelTTL ks1 (rclock r)).1 else ks1) (rclock r) (rfate r) calls)
     = (mkRedis (delete key (<[locked_key key := mkRKey (RStr "1"%string) (Some (rclock r + lock_duration l))]>
          (<[level_key key := mkRKey (RInt l) (Some (bump (rclock r) mfaLockLevelTTL t).2)]> (rkeys r)))) (rclock r) (rfate r) calls', Ok tt)) as Htail.
  { intros calls. rewrite He. unfold bind, ignore, attempt, SET, DEL. eexists. rewrite command_fine by by apply running_fine.
    cbn [fst snd ret rkeys rclock rfate]. unfold ret. rewrite command_fine by by apply running_fine. rewrite set_f_pos by done. rewrite Hpx. reflexivity. }
  destruct (l =? 1).
  - unfold bind at 1, ignore at 1, attempt, EXPIRE. rewrite command_fine by by apply running_fine. cbn [fst snd]. unfold ret at 1. cbn [rkeys rclock rfate]. apply Htail.
  - unfold bind at 1, ret at 1. apply Htail.
Qed.

Definition same_time (r r' : LRedis) : Prop := rclock r' = rclock r /\ rfate r' = rfate r.

(** One key's turn in the loop of RecordFailure. *)
Lemma record_step key rest (r : LRedis) m :
  key <> ""%string -> fine r -> metered (rkeys r) key m ->
  exists r', record_keys (key :: rest) r = record_keys rest r' /\ same_time r r'
  /\ metered (rkeys r') key (charge (rclock r) m) /\ forall k, k ∉ keys_of key -> rkeys r' !! k = rkeys r !! k.
Proof.
  intros Hk Hf (Hc1 & Hc2 & Hfails & Htrips & Hlock). cbn [record_keys]. rewrite bool_decide_false by done.
  destruct (incr_bump (rkeys r) (rclock r) key (fails m) mfaFailWindow) as (Hn & He & Hcn); [done | done | done | by exists 300|].
  destruct (incr_expire_run key mfaFailWindow r (fun count => do! (if mfaFailThreshold <=? count then lock key else ret tt) in record_keys rest)
    (record_keys rest) (bump (rclock r) mfaFailWindow (fails m)).1 Hf Hn) as (calls & ->). rewrite He. cbn [fst].
  unfold charge. destruct (bump (rclock r) mfaFailWindow (fails m)) as [n d]. cbn [fst snd] in *.
  destruct (key_ne key) as (N1 & N2 & N3). unfold keys_of. rewrite bool_decide_false by done.
  set (r1 := mkRedis _ _ _ _). assert (fine r1) as Hf1 by (by apply running_fine).
  destruct (mfaFailThreshold <=? n).
  - destruct (lock_run key r1 (trips m)) as (calls' & Hl); [done | | done |].
    { unfold r1. cbn. by rewrite lookup_insert_ne. }
    unfold bind. rewrite Hl. eexists. split; [reflexivity|]. split; [done|]. cbn [rkeys rclock]. change (rclock r1) with (rclock r).
    destruct (incr_bump (rkeys r) (rclock r) (level_key key) (trips m) mfaLockLevelTTL) as (_ & _ & Hcl); [done | done | done | by exists 3600|].
    destruct (bump (rclock r) mfaLockLevelTTL (trips m)) as [l dl]. cbn [fst snd] in *. split.
    + unfold metered. cbn [fails trips locked_until counter_entry lock_entry]. split_and!; [done | exact Hcl | by rewrite lookup_delete_eq | |].
      * by rewrite lookup_delete_ne, lookup_insert_ne, lookup_insert_eq by done.
      * by rewrite lookup_delete_ne, lookup_insert_eq by done.
    + intros k Hnk. rewrite !not_elem_of_cons in Hnk. destruct Hnk as (K1 & K2 & K3 & _). unfold r1. cbn [rkeys].
      by rewrite lookup_delete_ne, !lookup_insert_ne by done.
  - unfold bind, ret. eexists. split; [reflexivity|]. split; [done|]. unfold r1. cbn [rkeys]. split.
    + unfold metered. cbn [fails trips locked_until counter_entry]. split_and!; [exact Hcn | done | by rewrite lookup_insert_eq | |];
        by rewrite lookup_insert_ne by done.
    + intros k Hnk. rewrite !not_elem_of_cons in Hnk. destruct Hnk as (K1 & _). by rewrite lookup_insert_ne by done.
Qed.

Lemma same_time_fine (r r' : LRedis) : same_time r r' -> fine r -> fine r'.
Proof. intros [_ Hf] H n. rewrite Hf. apply H. Qed.

(** A recorded failure charges two meters. While the connection works, RecordFailure
    does to the keys of the user, and to those of the address, what [charge] says, each
    at the time it has on Redis; to nothing else. *)
Theorem record_failure_charges (r : LRedis) u ip mu mi :
  fine r -> u <> 0 -> ip <> ""%string -> metered (rkeys r) (userKey u) mu -> metered (rkeys r) (ipKey ip) mi ->
  exists r', RecordFailure u ip r = (r', Ok tt) /\ same_time r r'
  /\ metered (rkeys r') (userKey u) (charge (rclock r) mu) /\ metered (rkeys r') (ipKey ip) (charge (rclock r) mi)
  /\ forall k, k ∉ keys_of (userKey u) -> k ∉ keys_of (ipKey ip) -> rkeys r' !! k = rkeys r !! k.
Proof.
  intros Hf Hu Hip Hmu Hmi. unfold RecordFailure.
  assert (userKey u <> ""%string) as Hku by (unfold userKey; destruct (Z.eqb_spec u 0); [done | discriminate]).
  assert (ipKey ip <> ""%string) as Hki by (unfold ipKey; case_bool_decide; [done | discriminate]).
  destruct (record_step (userKey u) [ipKey ip] r mu Hku Hf Hmu) as (r1 & -> & Ht1 & Hm1 & Ho1).
  pose proof (same_time_fine r r1 Ht1 Hf) as Hf1.
  assert (metered (rkeys r1) (ipKey ip) mi) as Hmi1.
  { eapply metered_other; [done | | exact Hmi]. intros k Hk. apply Ho1. intros Hk'. by eapply user_not_ip. }
  destruct (record_step (ipKey ip) [] r1 mi Hki Hf1 Hmi1) as (r2 & -> & Ht2 & Hm2 & Ho2).
  destruct Ht1 as [Hc1 Hf1'], Ht2 as [Hc2 Hf2']. rewrite Hc1 in Hm2. exists r2. split; [reflexivity|]. split; [split; congruence|].
  split; [|split; [done|]].
  - eapply metered_other; [done | | exact Hm1]. intros k Hk. apply Ho2. intros Hk'. by eapply user_not_ip.
  - intros k K1 K2. by rewrite Ho2, Ho1 by done.
Qed.

(** ** What a string of failures does *)

Lemma expire_f_frame k ttl (ks : gmap string (RKey string)) now k' : k' <> k -> (expire_f k ttl ks now).1 !! k' = ks !! k'.
Proof. intros H. unfold expire_f. destruct (peek ks now k); cbn; [by rewrite lookup_insert_ne | done]. Qed.
Lemma incr_frame k (ks : gmap string (RKey string)) now k' : k' <> k -> (incr k ks now).1 !! k' = ks !! k'.
Proof. intros H. unfold incr. destruct (peek ks now k) as [[[] ?]|]; cbn; try done; by rewrite lookup_insert_ne. Qed.

(** A command that leaves the keys outside [l] alone. *)
Definition keeps {A} (l : list string) (m : M LRedis RErr A) : Prop :=
  forall r, fine r -> same_time r (m r).1 /\ forall k, k ∉ l -> rkeys (m r).1 !! k = rkeys r !! k.

Lemma limit_keeps_command {A} l (f : gmap string (RKey string) -> Z -> gmap string (RKey string) * res RErr A) :
  (forall ks now k, k ∉ l -> (f ks now).1 !! k = ks !! k) -> keeps l (command f).
Proof. intros H r Hf. rewrite command_fine by done. split; [done|]. intros k Hk. by apply H. Qed.
Lemma limit_keeps_ret {A} l (a : A) : keeps l (ret a).
Proof. by intros r Hf. Qed.
Lemma limit_keeps_attempt {A B} l (m : M LRedis RErr A) (f : res RErr A -> M LRedis RErr B) :
  keeps l m -> (forall x, keeps l (f x)) -> keeps l (attempt m f).
Proof.
  intros Hm Hk r Hf. specialize (Hm r Hf). unfold attempt. destruct (m r) as [r1 x]. cbn in Hm. destruct Hm as [Ht Ho].
  specialize (Hk x r1 (same_time_fine r r1 Ht Hf)). destruct (f x r1) as [r2 y]. cbn in *. destruct Hk as [Ht2 Ho2], Ht, Ht2.
  split; [split; congruence|]. intros k Hnk. by rewrite Ho2, Ho.
Qed.
Lemma limit_keeps_bind {A B} l (m : M LRedis RErr A) (f : A -> M LRedis RErr B) :
  keeps l m -> (forall x, keeps l (f x)) -> keeps l (bind m f).
Proof.
  intros Hm Hk r Hf. specialize (Hm r Hf). unfold bind. destruct (m r) as [r1 [x|e]]; [|exact Hm]. cbn in Hm. destruct Hm as [Ht Ho].
  specialize (Hk x r1 (same_time_fine r r1 Ht Hf)). destruct (f x r1) as [r2 y]. cbn in *. destruct Hk as [Ht2 Ho2], Ht, Ht2.
  split; [split; congruence|]. intros k Hnk. by rewrite Ho2, Ho.
Qed.

Lemma record_keys_frame key : keeps (keys_of key) (record_keys [key]).
Proof.
  cbn [record_keys]. unfold keys_of. case_bool_decide as Hk; [apply limit_keeps_ret|].
  apply limit_keeps_attempt; [apply limit_keeps_command; intros ks now k H; rewrite not_elem_of_cons in H; apply incr_frame; tauto|].
  intros [count|e]; [|apply limit_keeps_ret].
  assert (forall k ttl, k ∈ [key; locked_key key; level_key key] ->
    keeps [key; locked_key key; level_key key] (ignore (EXPIRE k ttl))) as Hexp.
  { intros k ttl Hin. apply limit_keeps_attempt; [|intros; apply limit_keeps_ret]. apply limit_keeps_command. intros ks now k' Hn. apply expire_f_frame. by intros ->. }
  apply limit_keeps_bind; [destruct (count =? 1); [apply Hexp; rewrite !elem_of_cons; auto | apply limit_keeps_ret]|]. intros _.
  apply limit_keeps_bind; [|intros; apply limit_keeps_ret]. destruct (mfaFailThreshold <=? count); [|apply limit_keeps_ret]. unfold lock.
  apply limit_keeps_attempt; [apply limit_keeps_command; intros ks now k H; rewrite !not_elem_of_cons in H; apply incr_frame; tauto|].
  intros x. apply limit_keeps_bind; [destruct (_ =? 1); [apply Hexp; rewrite !elem_of_cons; auto | apply limit_keeps_ret]|]. intros _.
  apply limit_keeps_bind; [|intros _]; (apply limit_keeps_attempt; [|intros; apply limit_keeps_ret]); apply limit_keeps_command; intros ks now k H;
    rewrite !not_elem_of_cons in H; destruct H as (H1 & H2 & H3 & _); cbn; [by apply lookup_insert_ne | by apply lookup_delete_ne].
Qed.

(** Failures of one user, each at its time and from its address. *)
Definition fail_at (u : Z) (r : LRedis) (a : Z * string) : LRedis := (RecordFailure u a.2 (at_clock a.1 r)).1.
Definition failing (u : Z) (attempts : list (Z * string)) (r : LRedis) : LRedis := fold_left (fail_at u) attempts r.
Definition charged (attempts : list (Z * string)) (m : Meter) : Meter := fold_left (fun m a => charge a.1 m) attempts m.

Lemma fail_at_user u r a m : fine r -> u <> 0 -> metered (rkeys r) (userKey u) m ->
  fine (fail_at u r a) /\ metered (rkeys (fail_at u r a)) (userKey u) (charge a.1 m).
Proof.
  intros Hf Hu Hm. assert (userKey u <> ""%string) as Hku by (unfold userKey; destruct (Z.eqb_spec u 0); [done | discriminate]).
  destruct (record_step (userKey u) [ipKey a.2] (at_clock a.1 r) m Hku Hf Hm) as (r1 & He & Ht1 & Hm1 & _).
  unfold fail_at, RecordFailure. rewrite He. pose proof (same_time_fine _ r1 Ht1 Hf) as Hf1.
  destruct (record_keys_frame (ipKey a.2) r1 Hf1) as [Ht2 Ho]. split; [by eapply same_time_fine|].
  eapply metered_other; [done | | exact Hm1]. intros k Hk. apply Ho. intros Hk'. by eapply user_not_ip.
Qed.

Lemma failing_user u attempts : forall r m, fine r -> u <> 0 -> metered (rkeys r) (userKey u) m ->
  fine (failing u attempts r) /\ metered (rkeys (failing u attempts r)) (userKey u) (charged attempts m).
Proof.
  induction attempts as [|a l IH]; intros r m Hf Hu Hm; [done|]. destruct (fail_at_user u r a m Hf Hu Hm) as [Hf1 Hm1]. cbn. by apply IH.
Qed.

(** Within the window of the first, failures only count. *)
Lemma charged_counts l : forall n d m, fails m = Some (n, d) -> Forall (fun a => a.1 < d) l -> n + Z.of_nat (length l) < mfaFailThreshold ->
  charged l m = mkMeter (Some (n + Z.of_nat (length l), d)) (trips m) (locked_until m).
Proof.
  induction l as [|a l IH]; intros n d m Hm Hl Hlen; [cbn; destruct m; cbn in *; subst; by rewrite Z.add_0_r|].
  inversion Hl as [|? ? Ha Hl']; subst. cbn [length] in *. cbn [charged fold_left].
  assert (charge a.1 m = mkMeter (Some (n + 1, d)) (trips m) (locked_until m)) as ->.
  { unfold charge, bump, running. rewrite Hm, (proj2 (Z.ltb_lt _ _) Ha). destruct (Z.leb_spec mfaFailThreshold (n + 1)); [lia | done]. }
  rewrite (IH (n + 1) d); cbn; [|done..|lia]. do 3 f_equal. lia.
Qed.

Lemma charged_window t0 ip0 l m : running t0 (fails m) = None -> length l = 13%nat -> Forall (fun a => a.1 < t0 + mfaFailWindow) l ->
  charged ((t0, ip0) :: l) m = mkMeter (Some (14, t0 + mfaFailWindow)) (trips m) (locked_until m).
Proof.
  intros Hm Hlen Hl. change (charged ((t0, ip0) :: l) m) with (charged l (charge t0 m)).
  assert (charge t0 m = mkMeter (Some (1, t0 + mfaFailWindow)) (trips m) (locked_until m)) as ->
    by (unfold charge, bump; rewrite Hm; done).
  rewrite (charged_counts l 1 (t0 + mfaFailWindow)); [by rewrite Hlen | done | done | by rewrite Hlen].
Qed.

(** A lock that has a second to go is found. *)
Lemma check_finds u ip (r : LRedis) m d : fine r -> u <> 0 -> metered (rkeys r) (userKey u) m ->
  locked_until m = Some d -> rclock r + Second <= d -> (Check ttl_s u ip r).2 = Ok (Some (ttl_s (d - rclock r) * Second)).
Proof.
  intros Hf Hu (_ & _ & _ & _ & Hl) Hd Hle. rewrite Hd in Hl. unfold Check, userKey in *. destruct (Z.eqb_spec u 0) as [|_]; [done|].
  cbn [check_keys]. rewrite bool_decide_false by done. unfold attempt. rewrite command_fine by done. cbn [fst snd ttl_f].
  assert (remaining (rkeys r) (rclock r) (locked_key ("mxid:mfa_fail:user:" +:+ dec u)) = Some (d - rclock r)) as Hrem.
  { unfold remaining, peek. rewrite Hl. cbn. change Second with 1000000000 in Hle. by rewrite (proj2 (Z.ltb_lt (rclock r) d)) by lia. }
  unfold ttl_f. rewrite Hrem. cbn [fst snd].
  pose proof (ttl_pos (d - rclock r) ltac:(lia)). destruct (Z.ltb_spec 0 (ttl_s (d - rclock r) * Second)); [done|].
  change Second with 1000000000 in *. lia.
Qed.

(** The second factor of a user takes fourteen wrong codes in five minutes and
    locks on the fifteenth. However the addresses vary and whatever their own counters hold,
    fourteen failures within the window of the first leave the lock of the user and
    the trips remembered as they were; a fifteenth in that window locks for as long as
    the trips say, and Check refuses the user from every address until the last
    second of it. *)
Theorem failures_lock (r : LRedis) u m t0 ip0 l t ip :
  fine r -> u <> 0 -> metered (rkeys r) (userKey u) m -> running t0 (fails m) = None ->
  length l = 13%nat -> Forall (fun a => a.1 < t0 + mfaFailWindow) l -> t < t0 + mfaFailWindow ->
  let level := (bump t mfaLockLevelTTL (trips m)).1 in
  let r14 := failing u ((t0, ip0) :: l) r in
  let r15 := fail_at u r14 (t, ip) in
  metered (rkeys r14) (userKey u) (mkMeter (Some (14, t0 + mfaFailWindow)) (trips m) (locked_until m))
  /\ forall t' ip', t' + Second <= t + lock_duration level ->
     (Check ttl_s u ip' (at_clock t' r15)).2 = Ok (Some (ttl_s (t + lock_duration level - t') * Second)).
Proof.
  intros Hf Hu Hm Hrun Hlen Hl Ht level r14 r15. destruct (failing_user u ((t0, ip0) :: l) r m Hf Hu Hm) as [Hf14 Hm14].
  rewrite (charged_window t0 ip0 l m Hrun Hlen Hl) in Hm14. split; [exact Hm14|]. intros t' ip' Ht'.
  destruct (fail_at_user u r14 (t, ip) _ Hf14 Hu Hm14) as [Hf15 Hm15]. cbn [fst] in Hm15.
  assert (charge t (mkMeter (Some (14, t0 + mfaFailWindow)) (trips m) (locked_until m))
          = mkMeter None (Some (bump t mfaLockLevelTTL (trips m))) (Some (t + lock_duration level))) as Hc.
  { unfold charge, bump at 1, running. cbn [fails trips]. rewrite (proj2 (Z.ltb_lt _ _) Ht). change (mfaFailThreshold <=? 14 + 1) with true. cbn match.
    unfold level. by destruct (bump t mfaLockLevelTTL (trips m)). }
  rewrite Hc in Hm15. by eapply check_finds.
Qed.
End Props.

(** ** Concrete runs *)

Module LimitDemo.

Definition secs (d : Z) : Z := d / Second.

Lemma secs_pos d : Second <= d -> 0 < secs d.
Proof. intros H. unfold secs. apply Z.div_str_pos. change Second with 1000000000 in *. lia. Qed.

Definition empty : LRedis := mkRedis ∅ 0 (fun _ => Fine) 0.
Lemma empty_metered key : metered (rkeys empty) key fresh.
Proof. by split_and!. Qed.

(** A failure each second. *)
Definition slips (n : nat) : list (Z * string) := imap (fun i _ => (Z.of_nat i * Second, "10.0.0.1"%string)) (replicate n ()).

Lemma slips_soon n : (n <= 14)%nat -> Forall (fun a => a.1 < 0 + mfaFailWindow) (slips n).
Proof.
  intros H. apply Forall_forall. intros a (i & y & -> & Hi)%elem_of_lookup_imap_1. apply lookup_replicate in Hi as [_ Hi].
  change mfaFailWindow with (300 * Second). cbn. change Second with 1000000000. lia.
Qed.

Lemma record_failure_charges_witness :
  exists r', RecordFailure 7 "10.0.0.1" empty = (r', Ok tt) /\ same_time empty r'
  /\ metered (rkeys r') (userKey 7) (charge 0 fresh) /\ metered (rkeys r') (ipKey "10.0.0.1") (charge 0 fresh)
  /\ forall k, k ∉ keys_of (userKey 7) -> k ∉ keys_of (ipKey "10.0.0.1") -> rkeys r' !! k = rkeys empty !! k.
Proof. apply (record_failure_charges empty 7 "10.0.0.1" fresh fresh); [done | done | done | apply empty_metered | apply empty_metered]. Defined.

(** After fourteen slips and one more, thirty seconds of the minute are left. *)
Lemma failures_lock_witness :
  (Check secs 7 "10.0.0.9" (at_clock (45 * Second) (fail_at 7 (failing 7 ((0, "10.0.0.1"%string) :: slips 13) empty) (15 * Second, "10.0.0.2"%string)))).2
  = Ok (Some (30 * Second)).
Proof.
  destruct (failures_lock secs secs_pos empty 7 fresh 0 "10.0.0.1" (slips 13) (15 * Second) "10.0.0.2") as [_ H];
    [done | done | apply empty_metered | done | done | apply slips_soon; lia | done |].
  rewrite H by done. reflexivity.
Defined.

(** Fifteen failures at once. *)
Definition trip (t : Z) : list (Z * string) := replicate 15 (t, "10.0.0.1"%string).
Definition locked_for (t : Z) (m : Meter) : Z := match locked_until m with Some d => (d - t) / Minute | None => 0 end.

(** Someone who grinds on, resuming as each lock ends, is locked out longer each
    time, for an hour; the trip after that counts as the first. *)
Lemma escalation_is_forgotten :
  (foldl (fun p t => let m := charged (trip (t * Minute)) p.1 in (m, p.2 ++ [locked_for (t * Minute) m]))
    (fresh, []) [0; 1; 6; 21; 36; 51; 66; 67]).2 = [1; 5; 15; 15; 15; 15; 1; 5].
Proof. vm_compute. reflexivity. Qed.
End LimitDemo.
