(* ===== verification/Authn.v ===== *)
(** * Authn: signing in (src/internal/domain/authn: provider.go, local_provider.go, mfa_challenge.go, engine.go)

    The engine over what it is built from: providers of identities, the user domain
    with the verifier of second factors, the limiters, the challenges and the
    sessions. What it asks of the user domain is a record of operations on a state of
    its own. *)

From S2P Require Import Prelude Text Redis Session RateLimit MfaLimit Mfa.

(** ** provider.go *)

Inductive AuthStatus : Type := AuthSuccess | AuthMFARequired | AuthLocked | AuthFailed | AuthDisabled.
#[export] Instance authstatus_eq : EqDecision AuthStatus. Proof. solve_decision. Defined.
(** The value of iota, as events carry it. *)
Definition status_code (s : AuthStatus) : Z :=
  match s with AuthSuccess => 0 | AuthMFARequired => 1 | AuthLocked => 2 | AuthFailed => 3 | AuthDisabled => 4 end.

Record AuthRequest : Type := mkAuthRequest {
  rq_TenantID : Z; rq_AuthType : string; Credentials : gmap string string; rq_ClientIP : string; rq_UserAgent : string
}.
Definition credential (req : AuthRequest) (k : string) : string := default ""%string (Credentials req !! k).

Record AuthResult : Type := mkAuthResult { rs_UserID : Z; rs_Username : string; rs_DisplayName : string; Status : AuthStatus }.
Record UserInfo : Type := mkUserInfo { ui_ID : Z; ui_Username : string; ui_DisplayName : string; Avatar : string; ui_Status : Z }.
Record UserAuth : Type := mkUserAuth { ua_ID : Z; ua_Username : string; ua_DisplayName : string; ua_PasswordHash : string; ua_Status : Z }.

(** The tenant a context is pinned to. *)
Definition Scope : Type := option Z.
Definition WithTenant (tenantID : Z) (ctx : Scope) : Scope := if 0 <? tenantID then Some tenantID else ctx.

(** What the engine asks of the user domain: operations on its state [W] that fail
    with its errors [E]. None of them answers nil without an error (src/app/run.go). *)
Record UserQuerier (W E : Type) : Type := mkUserQuerier {
  GetByID : Scope -> Z -> M W E UserInfo;
  UpdateLastLogin : Scope -> Z -> string -> M W E unit
}.
Record UserAuthQuerier (W E : Type) : Type := mkUserAuthQuerier {
  GetByUsername : Scope -> Z -> string -> M W E UserAuth;
  GetByEmail : Scope -> Z -> string -> M W E UserAuth
}.
(** mfa_challenge.go; [is_reused] is errors.Is(err, ErrMFACodeReused). *)
Record MFAVerifier (W E : Type) : Type := mkMFAVerifier {
  has_verified_totp : Scope -> Z -> M W E bool;
  verify_totp : Scope -> Z -> string -> M W E unit;
  consume_backup_code : Scope -> Z -> string -> M W E unit;
  is_reused : E -> bool
}.
Arguments GetByID {W E}. Arguments UpdateLastLogin {W E}. Arguments GetByUsername {W E}. Arguments GetByEmail {W E}.
Arguments has_verified_totp {W E}. Arguments verify_totp {W E}. Arguments consume_backup_code {W E}. Arguments is_reused {W E}.

Definition LocalProviderType : string := "local".
Definition statusActive : Z := 1.
Definition statusLocked : Z := 2.
Definition statusDisabled : Z := 3.

(** pkg/crypto/crypto.go *)
Definition NoLocalPasswordPrefix : string := "$2a$10$NO_LOCAL_PASSWORD_".
Definition HasUsablePassword (hash : string) : bool :=
  negb (bool_decide (hash = ""%string)) && negb (String.prefix NoLocalPasswordPrefix hash).

(** ** local_provider.go *)

Section Local.
Context {W E : Type} (q : UserAuthQuerier W E) (CheckPassword : string -> string -> bool).

Definition resolveUser (ctx : Scope) (tenantID : Z) (identifier : string) : M W E UserAuth :=
  attempt (GetByUsername q ctx tenantID identifier) (fun r =>
    match r with
    | Ok u => ret u
    | Err e =>
        if Contains identifier "@" then
          attempt (GetByEmail q ctx tenantID identifier) (fun r' =>
            match r' with Ok u => ret u | Err _ => throw e end)
        else throw e
    end).

Definition failed : AuthResult := mkAuthResult 0 "" "" AuthFailed.

(** The bcrypt compares against a fixed hash, spent on time alone, are left out. *)
Definition Authenticate (ctx : Scope) (req : AuthRequest) : M W E AuthResult :=
  let identifier := credential req "username" in
  let password := credential req "password" in
  if bool_decide (identifier = ""%string) || bool_decide (password = ""%string) then ret failed else
  attempt (resolveUser ctx (rq_TenantID req) identifier) (fun r =>
    match r with
    | Ok u =>
        if ua_Status u =? statusLocked then ret (mkAuthResult (ua_ID u) (ua_Username u) "" AuthLocked)
        else if (ua_Status u =? statusActive) || (ua_Status u =? statusDisabled) then
          if negb (CheckPassword password (ua_PasswordHash u)) then ret (mkAuthResult (ua_ID u) (ua_Username u) "" AuthFailed)
          else if ua_Status u =? statusDisabled then ret (mkAuthResult (ua_ID u) (ua_Username u) "" AuthDisabled)
          else ret (mkAuthResult (ua_ID u) (ua_Username u) (ua_DisplayName u) AuthSuccess)
        else ret (mkAuthResult (ua_ID u) (ua_Username u) "" AuthFailed)
    | Err _ => ret failed
    end).
End Local.

(** The local provider over its querier, or another (LDAP, SMS, magic link, ...). *)
Inductive Provider (W E : Type) : Type :=
| Local (q : UserAuthQuerier W E)
| External (authenticate : Scope -> AuthRequest -> M W E AuthResult).
Arguments Local {W E}. Arguments External {W E}.

(** ** Events, records and answers *)

Inductive PVal : Type := PInt (z : Z) | PStr (s : string) | PBool (b : bool).
Inductive EventType : Type := LoginSuccess | LoginFailed | UserLocked | LoggedOut.
#[export] Instance eventtype_eq : EqDecision EventType. Proof. solve_decision. Defined.
Record Event : Type := mkEvent { ev_Type : EventType; Payload : list (string * PVal) }.

Record LoginAttempt : Type := mkLoginAttempt {
  la_TenantID : Z; la_UserID : Z; la_Username : string; la_Success : bool; la_Stage : string; la_AuthType : string;
  la_Reason : string; la_IP : string; la_UserAgent : string
}.

Record LoginResponse : Type := mkLoginResponse {
  lr_UserID : Z; lr_TenantID : Z; lr_Username : string; lr_DisplayName : string; SessionID : string;
  MFARequired : bool; MFAMethods : list string; Challenge : string
}.

Record mfaChallengePayload : Type := mkPayload {
  ch_UserID : Z; ch_TenantID : Z; ch_Username : string; ch_DisplayName : string; ch_AuthType : string;
  ch_Namespace : string; ch_ClientIP : string; ch_UserAgent : string
}.

Definition mfaChallengePrefix : string := "mxid:mfa:chal:".
Definition mfaChallengeTTL : Z := 5 * Minute.

Inductive AErr (E : Type) : Type :=
| ErrUnknownProvider | ErrAuthFailed | ErrAccountLocked (cause : option RateLimitError) | ErrAccountDisabled
| ErrMFARequired | ErrSessionNotFound | ErrMFACodeReused | ErrMFAChallengeNotFound | ErrMFAVerifyFailed
| ErrMFANotConfigured | ErrMFARateLimited (retryAfter : Z) | ErrGenerate
| ErrDomain (e : E) | ErrStore (e : RErr).
Arguments ErrUnknownProvider {E}. Arguments ErrAuthFailed {E}. Arguments ErrAccountLocked {E}. Arguments ErrAccountDisabled {E}.
Arguments ErrMFARequired {E}. Arguments ErrSessionNotFound {E}. Arguments ErrMFACodeReused {E}. Arguments ErrMFAChallengeNotFound {E}.
Arguments ErrMFAVerifyFailed {E}. Arguments ErrMFANotConfigured {E}. Arguments ErrMFARateLimited {E}. Arguments ErrGenerate {E}.
Arguments ErrDomain {E}. Arguments ErrStore {E}.

(** ** engine.go *)

(** The user domain, and Redis by what its keys hold: counters and locks, challenges,
    sessions. *)
Record AState (W : Type) : Type := mkAState {
  dom : W;
  limits : Redis string;
  challenges : Redis mfaChallengePayload;
  sessions : Redis Session;
  bus : list Event;
  attempts : list LoginAttempt
}.
Arguments mkAState {W}. Arguments dom {W}. Arguments limits {W}. Arguments challenges {W}. Arguments sessions {W}.
Arguments bus {W}. Arguments attempts {W}.

Section Engine.
Context {W E : Type}.
Abbreviation St := (AState W).
Abbreviation Op := (M St (AErr E)).

Definition on_dom {A B} (m : M W E A) (k : res E A -> Op B) : Op B := fun s =>
  let '(w, r) := m (dom s) in k r (mkAState w (limits s) (challenges s) (sessions s) (bus s) (attempts s)).
Definition on_limits {A} (m : M (Redis string) RErr A) : Op A := fun s =>
  let '(r, x) := m (limits s) in
  (mkAState (dom s) r (challenges s) (sessions s) (bus s) (attempts s), match x with Ok a => Ok a | Err e => Err (ErrStore e) end).
Definition on_challenges {A B} (m : M (Redis mfaChallengePayload) RErr A) (k : res RErr A -> Op B) : Op B := fun s =>
  let '(r, x) := m (challenges s) in k x (mkAState (dom s) (limits s) r (sessions s) (bus s) (attempts s)).
Definition on_sessions {A} (m : M SRedis RErr A) : Op A := fun s =>
  let '(r, x) := m (sessions s) in
  (mkAState (dom s) (limits s) (challenges s) r (bus s) (attempts s), match x with Ok a => Ok a | Err e => Err (ErrStore e) end).
Definition ignored {A} (m : Op A) : Op unit := attempt m (fun _ => ret tt).

Definition Publish (e : Event) : Op unit :=
  modify (fun s => mkAState (dom s) (limits s) (challenges s) (sessions s) (bus s ++ [e]) (attempts s)).

(** The engine's fields. A Redis client and the limiter of second factors are always
    wired; the others are nil in tests or in deployments without them. *)
Record Engine : Type := mkEngine {
  providers : string -> option (Provider W E);
  userRepo : UserQuerier W E;
  mfaVerifier : option (MFAVerifier W E);
  loginLimiter : option Config;
  loginConfig : Z * Z;  (** MaxFailedAttempts, LockoutDuration *)
  loginPolicy : option (Z -> Z * Z);
  loginRecorder : bool;
  sessionMgr : Manager;
  sessionPolicy : Policy
}.

(** bcrypt; hex(sha256); what PTTL and TTL answer; err.Error(). *)
Context (e : Engine) (CheckPassword : string -> string -> bool) (sha256_hex : string -> string) (pttl_ms ttl_s : Z -> Z)
  (Error : E -> string).

Definition RecordAttempt (a : LoginAttempt) : Op unit :=
  if loginRecorder e
  then modify (fun s => mkAState (dom s) (limits s) (challenges s) (sessions s) (bus s) (attempts s ++ [a]))
  else ret tt.

Definition authenticate (p : Provider W E) (ctx : Scope) (req : AuthRequest) : M W E AuthResult :=
  match p with Local q => Authenticate q CheckPassword ctx req | External f => f ctx req end.

(** *** The brute-force limiter *)

Definition failCountKey (userID : Z) : string := "mxid:login_fail:" +:+ dec userID.
Definition loginIdentifiers (userID : Z) (clientIP : string) : list string :=
  (if 0 <? userID then ["u:" +:+ dec userID] else [])
  ++ (if bool_decide (clientIP = ""%string) then [] else ["ip:" +:+ clientIP])%string.

Definition checkLoginLock (userID : Z) (clientIP : string) : Op unit :=
  match loginLimiter e with
  | None => ret tt
  | Some cfg =>
      let ids := loginIdentifiers userID clientIP in
      if bool_decide (ids = []) then ret tt else
      let! r := on_limits (CheckMany sha256_hex ttl_s cfg ids) in
      match r with Some err => throw (ErrAccountLocked (Some err)) | None => ret tt end
  end.

Definition LoginFailureCount (clientIP : string) : Op Z :=
  match loginLimiter e with
  | None => ret 0
  | Some cfg => on_limits (FailureCount sha256_hex cfg ("ip:" +:+ clientIP))
  end.

Definition userLocked (userID : Z) (req : AuthRequest) : Event :=
  mkEvent UserLocked [("user_id", PInt userID); ("reason", PStr "max_failed_attempts"); ("ip", PStr (rq_ClientIP req))]%string.

Definition trackFailureLegacy (userID : Z) (req : AuthRequest) : Op unit :=
  if userID <=? 0 then ret tt else
  attempt (on_limits (command (incr (failCountKey userID)))) (fun r =>
    match r with
    | Err _ => ret tt
    | Ok count =>
        let '(maxAttempts, lockout) :=
          match loginPolicy e with
          | Some f => let '(m, d) := f (rq_TenantID req) in if 0 <? m then (m, d) else loginConfig e
          | None => loginConfig e
          end in
        do! (if count =? 1 then ignored (on_limits (EXPIRE (failCountKey userID) lockout)) else ret tt) in
        if (0 <? maxAttempts) && (count =? maxAttempts) then Publish (userLocked userID req) else ret tt
    end).

Definition trackFailure (userID : Z) (req : AuthRequest) : Op unit :=
  match loginLimiter e with
  | None => trackFailureLegacy userID req
  | Some cfg =>
      let ids := loginIdentifiers userID (rq_ClientIP req) in
      if bool_decide (ids = []) then ret tt else
      let! alreadyLocked := on_limits (CheckMany sha256_hex ttl_s cfg ids) in
      let! tripped := on_limits (RecordFailureMany sha256_hex pttl_ms cfg ids) in
      if bool_decide (is_Some tripped) && negb (bool_decide (is_Some alreadyLocked)) && (0 <? userID)
      then Publish (userLocked userID req) else ret tt
  end.

Definition clearFailureCountIP (userID : Z) (clientIP : string) : Op unit :=
  do! match loginLimiter e with
      | Some cfg => on_limits (ResetMany sha256_hex cfg (loginIdentifiers userID clientIP))
      | None => ret tt
      end in
  ignored (on_limits (DEL (failCountKey userID))).

(** *** What a sign-in leaves behind *)

Definition reason_of (s : AuthStatus) : string :=
  match s with
  | AuthFailed => "invalid credentials" | AuthLocked => "account locked"
  | AuthDisabled => "account disabled" | AuthMFARequired => "mfa required" | AuthSuccess => ""
  end.

Definition publishLoginEvent (result : AuthResult) (req : AuthRequest) (success : bool) (stage : string) : Op unit :=
  let stageStr := if bool_decide (stage = ""%string) then "password"%string else stage in
  let reason := if success then ""%string else reason_of (Status result) in
  do! Publish (mkEvent (if success then LoginSuccess else LoginFailed)
        ([("user_id", PInt (rs_UserID result)); ("username", PStr (rs_Username result)); ("auth_type", PStr (rq_AuthType req));
          ("ip", PStr (rq_ClientIP req)); ("user_agent", PStr (rq_UserAgent req)); ("tenant_id", PInt (rq_TenantID req));
          ("success", PBool success)]%string
         ++ (if success then [] else [("failure_status", PInt (status_code (Status result))); ("reason", PStr reason)]%string))) in
  RecordAttempt (mkLoginAttempt (rq_TenantID req) (rs_UserID result) (rs_Username result) success stageStr (rq_AuthType req)
                   reason (rq_ClientIP req) (rq_UserAgent req)).

(** *** Challenges *)

(** [token] is what crypto/rand answered. *)
Definition issueMFAChallenge (p : mfaChallengePayload) (token : option string) : Op string :=
  match token with
  | None => throw ErrGenerate
  | Some token =>
      on_challenges (SET (mfaChallengePrefix +:+ token) p mfaChallengeTTL) (fun r =>
        match r with Ok _ => ret token | Err e => throw (ErrStore e) end)
  end.

Definition consumeMFAChallenge (token : string) : Op mfaChallengePayload :=
  if bool_decide (token = ""%string) then throw ErrMFAChallengeNotFound else
  on_challenges (GETDEL (mfaChallengePrefix +:+ token)) (fun r =>
    match r with Ok p => ret p | Err _ => throw ErrMFAChallengeNotFound end).

(** *** Login *)

(** [newID] is the uuid drawn for a session. *)
Definition completeLogin (ctx : Scope) (namespace : string) (req : AuthRequest) (result : AuthResult) (stage newID : string) : Op LoginResponse :=
  on_dom (UpdateLastLogin (userRepo e) ctx (rs_UserID result) (rq_ClientIP req)) (fun _ =>
    let! sess := on_sessions (Create (sessionMgr e) (sessionPolicy e) newID namespace (rs_UserID result) (rq_TenantID req)
                                (rq_ClientIP req) (rq_UserAgent req) (rq_AuthType req)) in
    do! (if bool_decide (stage = "mfa"%string) then ignored (on_sessions (MarkMFAVerified namespace (ID sess))) else ret tt) in
    do! publishLoginEvent result req true stage in
    ret (mkLoginResponse (rs_UserID result) (rq_TenantID req) (rs_Username result) (rs_DisplayName result) (ID sess) false [] "")).

Definition Login (ctx : Scope) (req : AuthRequest) (namespace : string) (token : option string) (newID : string) : Op LoginResponse :=
  match providers e (rq_AuthType req) with
  | None => throw ErrUnknownProvider
  | Some provider =>
      let ctx := WithTenant (rq_TenantID req) ctx in
      do! checkLoginLock 0 (rq_ClientIP req) in
      on_dom (authenticate provider ctx req) (fun r =>
        match r with
        | Err err => throw (ErrDomain err)
        | Ok result =>
            match Status result with
            | AuthFailed =>
                do! trackFailure (rs_UserID result) req in
                do! publishLoginEvent result req false "" in
                throw ErrAuthFailed
            | AuthLocked => do! publishLoginEvent result req false "" in throw (ErrAccountLocked None)
            | AuthDisabled => do! publishLoginEvent result req false "" in throw ErrAccountDisabled
            | AuthMFARequired => throw ErrMFARequired
            | AuthSuccess =>
                do! (if 0 <? rs_UserID result then clearFailureCountIP (rs_UserID result) (rq_ClientIP req) else ret tt) in
                match mfaVerifier e with
                | None => completeLogin ctx namespace req result "password" newID
                | Some v =>
                    on_dom (has_verified_totp v ctx (rs_UserID result)) (fun h =>
                      match h with
                      | Err err => throw (ErrDomain err)
                      | Ok true =>
                          let! challenge := issueMFAChallenge
                            (mkPayload (rs_UserID result) (rq_TenantID req) (rs_Username result) (rs_DisplayName result)
                               (rq_AuthType req) namespace (rq_ClientIP req) (rq_UserAgent req)) token in
                          ret (mkLoginResponse (rs_UserID result) (rq_TenantID req) (rs_Username result) (rs_DisplayName result)
                                 "" true ["totp"%string] challenge)
                      | Ok false => completeLogin ctx namespace req result "password" newID
                      end)
                end
            end
        end)
  end.

(** *** Second factors *)

Definition HasMFA (ctx : Scope) (userID : Z) : Op bool :=
  match mfaVerifier e with
  | None => ret false
  | Some v => on_dom (has_verified_totp v ctx userID) (fun r => match r with Ok b => ret b | Err err => throw (ErrDomain err) end)
  end.

(** The code as a TOTP, then as a backup code if it looks like one. *)
Definition verify_code (v : MFAVerifier W E) (ctx : Scope) (userID : Z) (code : string) : M W E unit :=
  attempt (verify_totp v ctx userID code) (fun r =>
    match r with
    | Ok _ => ret tt
    | Err err =>
        if looksLikeBackupCode code then
          attempt (consume_backup_code v ctx userID code) (fun r' => match r' with Ok _ => ret tt | Err _ => throw err end)
        else throw err
    end).

Definition check_mfa_rate (userID : Z) (clientIP : string) : Op unit :=
  let! r := on_limits (MfaLimit.Check ttl_s userID clientIP) in
  match r with Some ttl => throw (ErrMFARateLimited ttl) | None => ret tt end.

Definition VerifyStepUp (ctx : Scope) (userID : Z) (clientIP code : string) : Op unit :=
  match mfaVerifier e with
  | None => throw ErrMFANotConfigured
  | Some v =>
      do! check_mfa_rate userID clientIP in
      on_dom (verify_code v ctx userID code) (fun r =>
        match r with
        | Err err =>
            if is_reused v err then throw ErrMFACodeReused else
            do! on_limits (MfaLimit.RecordFailure userID clientIP) in throw ErrMFAVerifyFailed
        | Ok _ => on_limits (MfaLimit.Reset userID clientIP)
        end)
  end.

Definition StepUpMethodTOTP : string := "totp".
Definition StepUpMethodPassword : string := "password".
Definition StepUpMethodNone : string := "none".

Definition local_provider : option (UserAuthQuerier W E) :=
  match providers e LocalProviderType with Some (Local q) => Some q | _ => None end.

Definition HasLocalPassword (ctx : Scope) (tenantID userID : Z) : Op bool :=
  match local_provider with
  | None => ret false
  | Some q =>
      on_dom (GetByID (userRepo e) ctx userID) (fun u =>
        match u with
        | Ok u =>
            on_dom (GetByUsername q ctx tenantID (ui_Username u)) (fun ua =>
              match ua with Ok ua => ret (HasUsablePassword (ua_PasswordHash ua)) | Err _ => ret false end)
        | Err _ => ret false
        end)
  end.

Definition StepUpMethod (ctx : Scope) (tenantID userID : Z) : Op string :=
  attempt (HasMFA ctx userID) (fun r =>
    match r with
    | Ok true => ret StepUpMethodTOTP
    | _ => let! b := HasLocalPassword ctx tenantID userID in
           ret (if b : bool then StepUpMethodPassword else StepUpMethodNone)
    end).

Definition VerifyPasswordStepUp (ctx : Scope) (tenantID userID : Z) (clientIP password : string) : Op unit :=
  match local_provider with
  | None => throw ErrUnknownProvider
  | Some q =>
      on_dom (GetByID (userRepo e) ctx userID) (fun u =>
        match u with
        | Ok u =>
            do! check_mfa_rate userID clientIP in
            on_dom (Authenticate q CheckPassword ctx
                      (mkAuthRequest tenantID LocalProviderType
                         (<["username"%string := ui_Username u]> (<["password"%string := password]> ∅)) clientIP "")) (fun r =>
              let good := match r with
                          | Ok result => bool_decide (Status result = AuthSuccess) && (rs_UserID result =? userID)
                          | Err _ => false
                          end in
              if negb good
              then do! on_limits (MfaLimit.RecordFailure userID clientIP) in throw ErrAuthFailed
              else on_limits (MfaLimit.Reset userID clientIP))
        | Err _ => throw ErrAuthFailed
        end)
  end.

Definition mfa_failed (p : mfaChallengePayload) (err : E) : Event :=
  mkEvent LoginFailed
    [("user_id", PInt (ch_UserID p)); ("username", PStr (ch_Username p)); ("auth_type", PStr (ch_AuthType p));
     ("ip", PStr (ch_ClientIP p)); ("user_agent", PStr (ch_UserAgent p)); ("tenant_id", PInt (ch_TenantID p));
     ("stage", PStr "mfa"); ("reason", PStr (Error err)); ("success", PBool false)]%string.

Definition VerifyMFAChallenge (ctx : Scope) (challenge code newID : string) : Op LoginResponse :=
  match mfaVerifier e with
  | None => throw ErrMFANotConfigured
  | Some v =>
      let! payload := consumeMFAChallenge challenge in
      let ctx := WithTenant (ch_TenantID payload) ctx in
      do! check_mfa_rate (ch_UserID payload) (ch_ClientIP payload) in
      on_dom (verify_code v ctx (ch_UserID payload) code) (fun r =>
        match r with
        | Err err =>
            do! (if is_reused v err then ret tt else on_limits (MfaLimit.RecordFailure (ch_UserID payload) (ch_ClientIP payload))) in
            do! Publish (mfa_failed payload err) in
            do! RecordAttempt (mkLoginAttempt (ch_TenantID payload) (ch_UserID payload) (ch_Username payload) false "mfa"
                                 (ch_AuthType payload) (Error err) (ch_ClientIP payload) (ch_UserAgent payload)) in
            throw ErrMFAVerifyFailed
        | Ok _ =>
            do! on_limits (MfaLimit.Reset (ch_UserID payload) (ch_ClientIP payload)) in
            completeLogin ctx (ch_Namespace payload)
              (mkAuthRequest (ch_TenantID payload) (ch_AuthType payload) ∅ (ch_ClientIP payload) (ch_UserAgent payload))
              (mkAuthResult (ch_UserID payload) (ch_Username payload) (ch_DisplayName payload) AuthSuccess) "mfa" newID
        end)
  end.

(** *** Sessions *)

Record LogoutMeta : Type := mkLogoutMeta { lm_TenantID : Z; lm_IP : string; lm_UserAgent : string }.
Definition Logout (namespace sessionID : string) (userID : Z) (meta : LogoutMeta) : Op unit :=
  do! on_sessions (Delete namespace sessionID) in
  Publish (mkEvent LoggedOut
    [("user_id", PInt userID); ("session_id", PStr sessionID); ("tenant_id", PInt (lm_TenantID meta));
     ("ip", PStr (lm_IP meta)); ("user_agent", PStr (lm_UserAgent meta))]%string).

Definition GetSession (namespace sessionID : string) : Op Session :=
  let! sess := on_sessions (Get (sessionMgr e) (sessionPolicy e) namespace sessionID) in
  match sess with Some sess => ret sess | None => throw ErrSessionNotFound end.

Definition GetCurrentUser (ctx : Scope) (userID : Z) : Op UserInfo :=
  on_dom (GetByID (userRepo e) ctx userID) (fun r => match r with Ok u => ret u | Err err => throw (ErrDomain err) end).
End Engine.
Arguments Engine : clear implicits.

(** ** src/app/adapters_user.go: the verifier the engine is wired to *)

Section Adapter.
Context {G : Type} `{!IdGen G} (masterKey : option MasterKey) (replayGuard backupRepo : bool).
Context (ValidateCustom : string -> string -> Z -> bool) (CompareHashAndPassword : string -> string -> bool).
Context (unicode_trim unicode_upper : string -> string).

#[export] Instance uerr_eq : EqDecision UErr. Proof. solve_decision. Defined.

(** The tables of factors are read by the user's id in every tenant. *)
Definition userMFAVerifierAdapter : MFAVerifier (UState G) UErr :=
  mkMFAVerifier (UState G) UErr (fun _ u => HasVerifiedTOTP u)
    (fun _ u code => VerifyTOTP masterKey replayGuard ValidateCustom u code)
    (fun _ u code => ConsumeBackupCode backupRepo CompareHashAndPassword unicode_trim unicode_upper u code)
    (fun err => bool_decide (err = Mfa.ErrMFACodeReused)).
End Adapter.
