(* ===== verification/AuthnHttp.v ===== *)
(** * AuthnHttp: the endpoints of signing in and the gates in front of the others
    (src/internal/domain/authn: captcha.go, handler.go, middleware.go, optional_session.go, obligation_gate.go, enroll_gate.go,
    password_gate.go, stepup.go, admin_session_handler.go)

    A handler is a function of the request, of what it draws at random and of the state of
    the engine; a middleware says whether the request goes on. *)

From S2P Require Import Prelude Text Redis Session RateLimit MfaLimit Mfa Authn SessionProps.

(** ** Requests and answers *)

Record Request : Type := mkRequest {
  cookies : gmap string string; Method : string; FullPath : string; ClientIP : string; UserAgent : string
}.
(** [c.Cookie(name)]: a missing cookie and an empty one are treated alike. *)
Definition Cookie (c : Request) (name : string) : option string :=
  match cookies c !! name with Some EmptyString | None => None | Some v => Some v end.

Record CurrentUserResponse : Type := mkCurrentUser {
  cu_UserID : Z; cu_Username : string; cu_DisplayName : string; cu_Avatar : string; cu_Status : Z; IsAdmin : bool
}.
Record AdminSessionResponse : Type := mkAdminSession {
  as_ID : string; as_Namespace : string; as_UserID : Z; as_IP : string; as_UserAgent : string; as_AuthType : string; as_MFAVerified : bool;
  as_CreatedAt : Z; as_ExpiresAt : Z; as_LastActiveAt : Z
}.

Inductive Body : Type :=
| BNil | BLogin (r : LoginResponse) | BMFARequired | BUser (u : CurrentUserResponse) | BMethod (method : string)
| BSessions (l : list AdminSessionResponse).
(** pkg/response: 200 with a body, or a status with a code of pkg/errcode. *)
Inductive Reply : Type := OK (b : Body) | Fail (http code : Z).

Definition BadRequest (code : Z) : Reply := Fail 400 code.
Definition Unauthorized (code : Z) : Reply := Fail 401 code.
Definition Forbidden (code : Z) : Reply := Fail 403 code.
Definition NotFound (code : Z) : Reply := Fail 404 code.
Definition InternalError : Reply := Fail 500 50001.

Definition NumBadRequest : Z := 40001.
Definition NumInvalidInput : Z := 40002.
Definition NumTOTPCodeReused : Z := 40003.
Definition NumInputRejected : Z := 40004.
Definition NumTOTPRequired : Z := 40007.
Definition NumCaptchaRequired : Z := 40016.
Definition NumUnauthenticated : Z := 40101.
Definition NumInvalidMFACode : Z := 40102.
Definition NumForbiddenScope : Z := 40301.
Definition NumAccountDisabled : Z := 40303.
Definition NumAccountLocked : Z := 40304.
Definition CodeStepUpRequired : Z := 40330.
Definition CodeMFAEnrollRequired : Z := 40331.
Definition NumPasswordChangeRequired : Z := 40333.
Definition NumStepUpVerifyFailed : Z := 40334.
Definition NumNotFound : Z := 40401.
Definition NumTooManyAttempts : Z := 42901.

(** Set-Cookie; a negative age removes. *)
Record SetCookie : Type := mkSetCookie { ck_name : string; ck_value : string; ck_maxAge : Z; ck_sameSiteNone : bool; ck_secure : bool }.

Record Answer : Type := mkAnswer { a_cookies : list SetCookie; a_RetryAfter : option Z; a_reply : Reply }.
Definition reply (r : Reply) : Answer := mkAnswer [] None r.

Definition CookieConsole : string := "mxid_console_sid".
Definition CookiePortal : string := "mxid_portal_sid".
Definition CookieProto : string := "mxid_proto_sid".
Definition CookieDevice : string := "mxid_device_id".
Definition deviceCookieMaxAge : Z := 180 * 24 * 60 * 60.
Definition rememberMeMaxAge : Z := 30 * 24 * 60 * 60.

Record LoginRequest : Type := mkLoginRequest {
  lq_Username : string; lq_Password : string; lq_AuthType : string; CaptchaID : string; CaptchaCode : string; lq_Remember : bool; lq_Tenant : string
}.
Record VerifyMFARequest : Type := mkVerifyMFARequest { vq_Challenge : string; vq_Code : string; vq_Remember : bool }.
Record StepUpRequest : Type := mkStepUpRequest { su_Code : string; su_Password : string }.

(** The handler's fields; a provider that answers for a request is its answer. *)
Record Handler : Type := mkHandler {
  h_tenantID : Z;
  tenantByCode : option (string -> Z);
  cookieSecure : bool;
  crossSite : bool;
  methodGate : option (string -> bool);  (** whether the method is refused *)
  rememberMe : option Z;
  adminCheck : option (Z -> Z -> bool);
  ca : bool;
  mfaEnrollRequired : option (Z -> Z -> bool);
  captchaThreshold : option (Z -> Z)
}.

(** What a login draws: the token of a challenge, the ids of the two sessions, the
    id of a device. *)
Record Draws : Type := mkDraws { d_token : option string; d_session : string; d_proto : string; d_device : option string }.

Section Http.
Context {W E : Type}.
Abbreviation St := (AState W).
Abbreviation Op := (M St (AErr E)).

(** The conditional-access service keeps tables of its own, and its answers are not used:
    its calls are left out, the device cookie that goes with them is not. *)
Context (e : Engine W E) (CheckPassword : string -> string -> bool) (sha256_hex : string -> string) (pttl_ms ttl_s : Z -> Z)
  (Error : E -> string) (h : Handler).
(** How the captcha library compares what was stored with what was typed. *)
Context (captcha_match : string -> string -> bool).

(** ** captcha.go *)

Definition captchaKeyPrefix : string := "mxid:captcha:".
Definition captchaTTL : Z := 5 * Minute.
Definition store_Set (id value : string) : Op unit := on_limits (SET (captchaKeyPrefix +:+ id) value captchaTTL).
Definition store_Get (id : string) (clear : bool) : Op string :=
  attempt (on_limits (GET (captchaKeyPrefix +:+ id))) (fun r =>
    match r with
    | Err _ => ret ""%string
    | Ok val => do! (if clear then ignored (on_limits (DEL (captchaKeyPrefix +:+ id))) else ret tt) in ret val
    end).
Definition store_Verify (id answer : string) (clear : bool) : Op bool :=
  let! stored := store_Get id clear in
  ret (if bool_decide (stored = ""%string) then false else bool_decide (stored = answer)).
Definition captcha_Verify (id answer : string) : Op bool :=
  let! stored := store_Get id true in ret (captcha_match stored answer).

(** ** Cookies *)

Definition rememberMaxAge : Z := match rememberMe h with Some v => if 0 <? v then v else rememberMeMaxAge | None => rememberMeMaxAge end.
Definition cross (name : string) : bool := crossSite h && bool_decide (name = CookiePortal).
Definition setSessionCookieWithRemember (name value : string) (remember : bool) : SetCookie :=
  mkSetCookie name value (if remember then rememberMaxAge else 86400) (cross name) (cross name || cookieSecure h).
Definition setProtoSessionCookieWithRemember (value : string) (remember : bool) : SetCookie :=
  mkSetCookie CookieProto value (if remember then rememberMaxAge else 24 * 60 * 60) false (cookieSecure h).
Definition clearSessionCookie (name : string) : SetCookie := mkSetCookie name "" (-1) (cross name) (cross name || cookieSecure h).

Definition ReadOrMintDeviceID (c : Request) (drawn : option string) : string :=
  match Cookie c CookieDevice with Some v => v | None => default ""%string drawn end.
Definition rememberDevice (userID : Z) (deviceID : string) : list SetCookie :=
  if negb (ca h) || bool_decide (deviceID = ""%string) || (userID =? 0) then []
  else [mkSetCookie CookieDevice deviceID deviceCookieMaxAge false (cookieSecure h)].

(** ** Errors *)

Definition handleAuthError (err : AErr E) : Answer :=
  match err with
  | ErrAuthFailed => reply (Unauthorized NumUnauthenticated)
  | ErrAccountLocked (Some rle) => mkAnswer [] (Some (Z.quot (RetryAfter rle) Second)) (Fail 429 NumTooManyAttempts)
  | ErrAccountLocked None => reply (Forbidden NumAccountLocked)
  | ErrAccountDisabled => reply (Forbidden NumAccountDisabled)
  | ErrMFARequired => reply (OK BMFARequired)
  | ErrMFAChallengeNotFound => reply (BadRequest NumInputRejected)
  | ErrMFAVerifyFailed => reply (Unauthorized NumInvalidMFACode)
  | ErrMFARateLimited ttl => mkAnswer [] (Some (Z.quot ttl Second)) (Fail 429 NumTooManyAttempts)
  | ErrUnknownProvider => reply (BadRequest NumInvalidInput)
  | _ => reply InternalError
  end.

Definition writeStepUpFailure (err : AErr E) : Answer :=
  match err with
  | ErrMFACodeReused => reply (Forbidden NumTOTPCodeReused)
  | ErrMFAVerifyFailed | ErrAuthFailed => reply (Forbidden NumStepUpVerifyFailed)
  | _ => handleAuthError err
  end.

(** ** Login *)

(** The refusal, if the captcha is owed or wrong. *)
Definition captcha_gate (c : Request) (req : LoginRequest) : Op (option Reply) :=
  let given := negb (bool_decide (CaptchaID req = ""%string)) && negb (bool_decide (CaptchaCode req = ""%string)) in
  let verify := let! good := captcha_Verify (CaptchaID req) (CaptchaCode req) in
                ret (if good : bool then None else Some (BadRequest NumInputRejected)) in
  let! requireCaptcha :=
    match captchaThreshold h with
    | None => ret true
    | Some f =>
        let threshold := f (h_tenantID h) in
        if 0 <? threshold
        then let! n := LoginFailureCount e sha256_hex (ClientIP c) in ret (threshold <=? n)
        else ret true
    end in
  if requireCaptcha : bool
  then if given then verify else ret (Some (BadRequest NumCaptchaRequired))
  else if given then verify else ret None.

Definition effectiveTenant (req : LoginRequest) : Z :=
  match tenantByCode h with
  | Some f => if bool_decide (lq_Tenant req = ""%string) then h_tenantID h
              else if 0 <? f (lq_Tenant req) then f (lq_Tenant req) else h_tenantID h
  | None => h_tenantID h
  end.

Definition finalizeLoginCookies (c : Request) (namespace cookieName : string) (resp : LoginResponse) (authType : string) (remember : bool)
    (protoID : string) : Op (list SetCookie) :=
  let spa := setSessionCookieWithRemember cookieName (SessionID resp) remember in
  attempt (GetSession e namespace (SessionID resp)) (fun r =>
    if match r with Ok sess => PwdChangePending sess | Err _ => false end then ret [spa] else
    let protoTenantID := if lr_TenantID resp <=? 0 then h_tenantID h else lr_TenantID resp in
    attempt (on_sessions (Create (sessionMgr e) (sessionPolicy e) protoID NamespaceProtocol (lr_UserID resp) protoTenantID
                            (ClientIP c) (UserAgent c) authType)) (fun r =>
      ret (match r with Ok protoSess => [spa; setProtoSessionCookieWithRemember (ID protoSess) remember] | Err _ => [spa] end))).

Definition login_request (c : Request) (req : LoginRequest) : AuthRequest :=
  mkAuthRequest (effectiveTenant req) (if bool_decide (lq_AuthType req = ""%string) then LocalProviderType else lq_AuthType req)
    (<["username"%string := lq_Username req]> (<["password"%string := lq_Password req]> ∅)) (ClientIP c) (UserAgent c).

(** [body] is what gin binds, or nothing: not JSON, or a required field empty. *)
Definition loginHandler (namespace cookieName : string) (c : Request) (body : option LoginRequest) (d : Draws) : Op Answer :=
  match body with
  | None => ret (reply (BadRequest NumBadRequest))
  | Some req =>
      let! refused := captcha_gate c req in
      match refused with
      | Some r => ret (reply r)
      | None =>
          let authReq := login_request c req in
          if match methodGate h with Some gate => gate (rq_AuthType authReq) | None => false end
          then ret (reply (BadRequest NumInvalidInput)) else
          let ctx := WithTenant (effectiveTenant req) None in
          attempt (Login e CheckPassword sha256_hex pttl_ms ttl_s ctx authReq namespace (d_token d) (d_session d)) (fun r =>
            match r with
            | Err err => ret (handleAuthError err)
            | Ok resp =>
                if MFARequired resp then ret (reply (OK (BLogin resp))) else
                let! jar := finalizeLoginCookies c namespace cookieName resp (rq_AuthType authReq) (lq_Remember req) (d_proto d) in
                do! (if match mfaEnrollRequired h with
                        | Some f => negb (lr_UserID resp =? 0) && f (effectiveTenant req) (lr_UserID resp)
                        | None => false
                        end
                     then ignored (on_sessions (SetEnrollPending namespace (SessionID resp) true)) else ret tt) in
                ret (mkAnswer (jar ++ rememberDevice (lr_UserID resp) (ReadOrMintDeviceID c (d_device d))) None (OK (BLogin resp)))
            end)
      end
  end.

Definition verifyMFAHandler (namespace cookieName : string) (c : Request) (body : option VerifyMFARequest) (d : Draws) : Op Answer :=
  match body with
  | None => ret (reply (BadRequest NumBadRequest))
  | Some req =>
      attempt (VerifyMFAChallenge e ttl_s Error None (vq_Challenge req) (vq_Code req) (d_session d)) (fun r =>
        match r with
        | Err err => ret (handleAuthError err)
        | Ok resp =>
            let! jar := finalizeLoginCookies c namespace cookieName resp "totp" (vq_Remember req) (d_proto d) in
            do! ignored (on_sessions (MarkMFAVerified namespace (SessionID resp))) in
            ret (mkAnswer (jar ++ rememberDevice (lr_UserID resp) (ReadOrMintDeviceID c (d_device d))) None (OK (BLogin resp)))
        end)
  end.

(** ** The session behind a request *)

Definition meHandler (namespace cookieName : string) (c : Request) : Op Answer :=
  match Cookie c cookieName with
  | None => ret (reply (Unauthorized NumUnauthenticated))
  | Some sid =>
      attempt (GetSession e namespace sid) (fun r =>
        match r with
        | Err _ => ret (reply (Unauthorized NumUnauthenticated))
        | Ok sess =>
            attempt (GetCurrentUser e (WithTenant (TenantID sess) None) (UserID sess)) (fun u =>
              match u with
              | Err _ => ret (reply InternalError)
              | Ok u =>
                  let isAdmin := match adminCheck h with Some f => f (TenantID sess) (UserID sess) | None => false end in
                  ret (reply (OK (BUser (mkCurrentUser (ui_ID u) (ui_Username u) (ui_DisplayName u) (Avatar u) (ui_Status u) isAdmin))))
              end)
        end)
  end.

(** The first source with a valid session. *)
Fixpoint first_session (c : Request) (sources : list (string * string)) : Op (option Session) :=
  match sources with
  | [] => ret None
  | (ns, name) :: rest =>
      match Cookie c name with
      | None => first_session c rest
      | Some id =>
          attempt (GetSession e ns id) (fun r => match r with Ok sess => ret (Some sess) | Err _ => first_session c rest end)
      end
  end.

Definition ssoHandler (targetNS targetCookie : string) (requireAdmin : bool) (sources : list (string * string)) (c : Request) (newID : string) : Op Answer :=
  let! src := first_session c sources in
  match src with
  | None => ret (reply (Unauthorized NumUnauthenticated))
  | Some src =>
      if requireAdmin && negb (match adminCheck h with Some f => f (TenantID src) (UserID src) | None => false end)
      then ret (reply (Forbidden NumForbiddenScope)) else
      attempt (on_sessions (Create (sessionMgr e) (sessionPolicy e) newID targetNS (UserID src) (TenantID src) (ClientIP c) (UserAgent c)
                              (AuthType src))) (fun r =>
        match r with
        | Err _ => ret (reply InternalError)
        | Ok spaSess =>
            do! ignored (on_sessions (CarryMFAVerifiedAt targetNS (ID spaSess) (MFAVerifiedAt src))) in
            ret (mkAnswer [setSessionCookieWithRemember targetCookie (ID spaSess) false] None (OK BNil))
        end)
  end.

(** ** Step-up *)

(** [k] on the session, or the 401 answer. *)
Definition stepUpSession (namespace cookieName : string) (c : Request) (k : Session -> Op Answer) : Op Answer :=
  match Cookie c cookieName with
  | None => ret (reply (Unauthorized NumUnauthenticated))
  | Some sid =>
      attempt (GetSession e namespace sid) (fun r =>
        match r with Err _ => ret (reply (Unauthorized NumUnauthenticated)) | Ok sess => k sess end)
  end.

Definition stepUpMethodHandler (namespace cookieName : string) (c : Request) : Op Answer :=
  stepUpSession namespace cookieName c (fun sess =>
    let! m := StepUpMethod e (WithTenant (TenantID sess) None) (TenantID sess) (UserID sess) in
    ret (reply (OK (BMethod m)))).

Definition stepUpHandler (namespace cookieName : string) (c : Request) (body : option StepUpRequest) : Op Answer :=
  stepUpSession namespace cookieName c (fun sess =>
    match body with
    | None => ret (reply (BadRequest NumBadRequest))
    | Some req =>
        let ctx := WithTenant (TenantID sess) None in
        let mark := attempt (on_sessions (MarkMFAVerified namespace (ID sess))) (fun r =>
          match r with Ok _ => ret (reply (OK BNil)) | Err _ => ret (reply InternalError) end) in
        let after (m : Op unit) := attempt m (fun r =>
          match r with Ok _ => mark | Err err => ret (writeStepUpFailure err) end) in
        let! m := StepUpMethod e ctx (TenantID sess) (UserID sess) in
        if bool_decide (m = StepUpMethodTOTP) then
          if bool_decide (su_Code req = ""%string) then ret (reply (BadRequest NumTOTPRequired))
          else after (VerifyStepUp e ttl_s ctx (UserID sess) (ClientIP c) (su_Code req))
        else if bool_decide (m = StepUpMethodPassword) then
          if bool_decide (su_Password req = ""%string) then ret (reply (BadRequest NumInvalidInput))
          else after (VerifyPasswordStepUp e CheckPassword ttl_s ctx (TenantID sess) (UserID sess) (ClientIP c) (su_Password req))
        else ret (reply (Forbidden CodeMFAEnrollRequired))
    end).

(** ** middleware.go and optional_session.go *)

Definition cookieForNamespace (namespace : string) : string :=
  if bool_decide (namespace = NamespaceConsole) then CookieConsole
  else if bool_decide (namespace = NamespacePortal) then CookiePortal else "".

(** What a middleware puts in the context of the request. *)
Record Ctx : Type := mkCtx {
  CtxUserID : Z; CtxTenantID : Z; CtxSessionID : string; CtxNamespace : string; CtxMFAEnrollPending : bool; CtxPwdChangePending : bool
}.
(** The next handler with the context, or the answer that ends the request. *)
Inductive Verdict (A : Type) : Type := Next (a : A) | Stop (r : Reply).
#[global] Arguments Next {A}. #[global] Arguments Stop {A}.

Definition AuthMiddleware (namespace : string) (c : Request) : Op (Verdict Ctx) :=
  let cookieName := cookieForNamespace namespace in
  if bool_decide (cookieName = ""%string) then ret (Stop (Unauthorized NumUnauthenticated)) else
  match Cookie c cookieName with
  | None => ret (Stop (Unauthorized NumUnauthenticated))
  | Some sessionID =>
      attempt (on_sessions (Get (sessionMgr e) (sessionPolicy e) namespace sessionID)) (fun r =>
        match r with
        | Ok (Some sess) =>
            do! ignored (on_sessions (Touch namespace sessionID)) in
            do! match Cookie c CookieProto with
                | Some pid => ignored (on_sessions (Touch NamespaceProtocol pid))
                | None => ret tt
                end in
            ret (Next (mkCtx (UserID sess) (TenantID sess) (ID sess) namespace (MFAEnrollPending sess) (PwdChangePending sess)))
        | _ => ret (Stop (Unauthorized NumUnauthenticated))
        end)
  end.

(** Never a refusal; no idle window is extended. *)
Definition OptionalAuthMiddleware (namespace : string) (c : Request) : Op (option Ctx) :=
  let cookieName := cookieForNamespace namespace in
  if bool_decide (cookieName = ""%string) then ret None else
  match Cookie c cookieName with
  | None => ret None
  | Some sessionID =>
      attempt (on_sessions (Get (sessionMgr e) (sessionPolicy e) namespace sessionID)) (fun r =>
        match r with
        | Ok (Some sess) => ret (Some (mkCtx (UserID sess) (TenantID sess) (ID sess) namespace false false))
        | _ => ret None
        end)
  end.

(** ** obligation_gate.go and its two gates *)

Definition pwdAllowedPathFragment : string := "/security/password".
Definition enrollAllowedPathFragment : string := "/security/mfa".
Definition remediationPathFragments : list string := [pwdAllowedPathFragment; enrollAllowedPathFragment].
Definition isRemediationPath (fullPath : string) : bool := existsb (Contains fullPath) remediationPathFragments.

(** The flag, how to ask whether the debt still stands, how to clear it, and the
    code of a refusal. *)
Record obligationGate : Type := mkGate {
  namespace : string; ctxFlag : Ctx -> bool; stillOwes : Z -> Op bool; clearFlag : string -> string -> bool -> M SRedis RErr unit; code : Z
}.

Definition gate_handler (g : obligationGate) (ctx : Ctx) (c : Request) : Op (Verdict Ctx) :=
  if negb (ctxFlag g ctx) then ret (Next ctx) else
  attempt (stillOwes g (CtxUserID ctx)) (fun r =>
    match r with
    | Ok false => do! ignored (on_sessions (clearFlag g (namespace g) (CtxSessionID ctx) false)) in ret (Next ctx)
    | _ => ret (if isRemediationPath (FullPath c) then Next ctx else Stop (Forbidden (code g)))
    end).

(** [HasMFA] and [MustChange] are nil in tests. *)
Definition EnrollGateMiddleware (ns : string) (HasMFA : option (Z -> Op bool)) : obligationGate :=
  mkGate ns CtxMFAEnrollPending
    (fun u => match HasMFA with None => ret true | Some f => let! has := f u in ret (negb has) end)
    SetEnrollPending CodeMFAEnrollRequired.
Definition PwdGateMiddleware (ns : string) (MustChange : option (Z -> Op bool)) : obligationGate :=
  mkGate ns CtxPwdChangePending
    (fun u => match MustChange with None => ret true | Some f => f u end)
    SetPwdChangePending NumPasswordChangeRequired.

(** The two gates as src/app/run.go mounts them behind AuthMiddleware. *)
Definition obligations (ns : string) (HasMFA MustChange : Z -> Op bool) (ctx : Ctx) (c : Request) : Op (Verdict Ctx) :=
  let! v := gate_handler (EnrollGateMiddleware ns (Some HasMFA)) ctx c in
  match v with
  | Stop r => ret (Stop r)
  | Next ctx => gate_handler (PwdGateMiddleware ns (Some MustChange)) ctx c
  end.

(** ** stepup.go *)

Definition consolePathPrefix : string := "/api/v1/console/".
Definition highRiskWriteSuffixes : list string :=
  ["/super-admin"; "/password"; "/rotate-signing-key"; "/regenerate-secret"; "/emergency-revoke"; "/mfa/lockout/clear";
   "/shared-credential"; "/access-requests/:id/approve"; "/access-requests/:id/revoke"; "/identities/:iid/restore"; "/restore"]%string.
Definition IsHighRiskConsole (method fullPath : string) : bool :=
  if negb (HasPrefix fullPath consolePathPrefix) then false
  else if bool_decide (method = "DELETE"%string) then true
  else existsb (HasSuffix fullPath) highRiskWriteSuffixes.

(** The mode and the window the tenant's policy answers; who is an administrator. *)
Record StepUpDeps : Type := mkStepUpDeps {
  su_Policy : Z -> string * Z; su_IsAdmin : option (Z -> Z -> bool); su_HasMFA : Z -> Op bool
}.
Definition modeApplies (d : StepUpDeps) (mode : string) (tenantID userID : Z) : bool :=
  if bool_decide (mode = "all"%string) then true
  else if bool_decide (mode = "admin_only"%string) then match su_IsAdmin d with Some f => f tenantID userID | None => false end
  else false.
Definition sessionNamespace (ctx : Ctx) : string :=
  if bool_decide (CtxNamespace ctx = ""%string) then NamespaceConsole else CtxNamespace ctx.

(** Whether the session behind the request holds a fresh proof; [now] is
    time.Now() of the process. An error of the lookup is no session. *)
Definition session_fresh (ctx : Ctx) (now window : Z) : Op bool :=
  attempt (on_sessions (Get (sessionMgr e) (sessionPolicy e) (sessionNamespace ctx) (CtxSessionID ctx))) (fun r =>
    ret (match r with Ok (Some sess) => StepUpFresh sess now window | _ => false end)).

(** The audit hook is not wired. *)
Definition StepUpMiddleware (d : StepUpDeps) (ctx : Ctx) (c : Request) (now : Z) : Op (Verdict Ctx) :=
  if negb (IsHighRiskConsole (Method c) (FullPath c)) then ret (Next ctx) else
  let '(mode, window) := su_Policy d (CtxTenantID ctx) in
  if negb (modeApplies d mode (CtxTenantID ctx) (CtxUserID ctx)) then ret (Next ctx) else
  attempt (su_HasMFA d (CtxUserID ctx)) (fun r =>
    match r with
    | Err _ => ret (Stop InternalError)
    | Ok false => ret (Stop (Forbidden CodeMFAEnrollRequired))
    | Ok true =>
        let! fresh := session_fresh ctx now window in
        ret (if fresh : bool then Next ctx else Stop (Forbidden CodeStepUpRequired))
    end).

Definition StepUpChecker_Fresh (d : StepUpDeps) (ctx : Ctx) (tenantID now : Z) : Op bool :=
  session_fresh ctx now (su_Policy d tenantID).2.

(** ** admin_session_handler.go *)

(** [uid] and [sid] are the parameters of the path, [ns] that of the query. *)
Definition admin_session (s : Session) : AdminSessionResponse :=
  mkAdminSession (ID s) (Namespace s) (UserID s) (IP s) (Session.UserAgent s) (AuthType s) (MFAVerified s)
    (CreatedAt s) (ExpiresAt s) (LastActiveAt s).
Fixpoint list_namespaces (uid : Z) (nss : list string) : Op (list AdminSessionResponse) :=
  match nss with
  | [] => ret []
  | ns :: rest =>
      attempt (on_sessions (ListByUser (sessionMgr e) (sessionPolicy e) ns uid)) (fun r =>
        let! out := list_namespaces uid rest in
        ret (match r with Ok items => map admin_session items ++ out | Err _ => out end))
  end.
Definition all_namespaces : list string := [NamespaceConsole; NamespacePortal; NamespaceProtocol].
Definition admin_list (uid : Z) : Op Answer :=
  let! out := list_namespaces uid all_namespaces in ret (reply (OK (BSessions out))).

Fixpoint revoke_namespaces (uid : Z) (nss : list string) : Op unit :=
  match nss with
  | [] => ret tt
  | ns :: rest =>
      do! ignored (on_sessions (DeleteAllByUser (sessionMgr e) (sessionPolicy e) ns uid)) in
      revoke_namespaces uid rest
  end.
Definition revokeAll (uid : Z) : Op Answer := do! revoke_namespaces uid all_namespaces in ret (reply (OK BNil)).

Definition revokeOne (uid : Z) (sid ns : string) : Op Answer :=
  if bool_decide (sid = ""%string) then ret (reply (BadRequest NumInvalidInput))
  else if bool_decide (ns = ""%string) then ret (reply (BadRequest NumInputRejected))
  else if negb (bool_decide (ns ∈ all_namespaces)) then ret (reply (BadRequest NumInputRejected))
  else
    attempt (on_sessions (Get (sessionMgr e) (sessionPolicy e) ns sid)) (fun r =>
      match r with
      | Ok (Some sess) =>
          if UserID sess =? uid then
            attempt (on_sessions (Delete ns sid)) (fun r =>
              match r with Ok _ => ret (reply (OK BNil)) | Err _ => ret (reply InternalError) end)
          else ret (reply (NotFound NumNotFound))
      | _ => ret (reply (NotFound NumNotFound))
      end).
End Http.
Arguments obligationGate : clear implicits.
