(* ===== verification/AuthnProps.v ===== *)
(** * AuthnProps: no session without what it takes

    Runs of sign-ins, second factors and whatever else happens in between. *)

From S2P Require Import Prelude Text Redis Session RateLimit MfaLimit Mfa Authn.

Section Frames.
Context {W E : Type}.
Abbreviation St := (AState W).
Abbreviation Op := (M St (AErr E)).

(** Operations that leave the challenges alone, and those that leave the user domain
    alone as well. *)
Definition frames {A} (m : Op A) : Prop := forall s, challenges (m s).1 = challenges s.
Definition quiet {A} (m : Op A) : Prop := forall s, challenges (m s).1 = challenges s /\ dom (m s).1 = dom s.

Lemma quiet_frames {A} (m : Op A) : quiet m -> frames m.
Proof. intros H s. apply H. Qed.
Lemma quiet_ret {A} (a : A) : quiet (ret a). Proof. by intros s. Qed.
Lemma quiet_throw {A} err : quiet (@throw St (AErr E) A err). Proof. by intros s. Qed.
Lemma quiet_bind {A B} (m : Op A) (k : A -> Op B) : quiet m -> (forall a, quiet (k a)) -> quiet (bind m k).
Proof.
  intros Hm Hk s. unfold bind. specialize (Hm s). destruct (m s) as [s1 [a|err]]; [|exact Hm].
  destruct Hm as [H1 H2], (Hk a s1) as [H3 H4]. cbn in *. split; congruence.
Qed.
Lemma quiet_attempt {A B} (m : Op A) (k : res (AErr E) A -> Op B) : quiet m -> (forall r, quiet (k r)) -> quiet (attempt m k).
Proof.
  intros Hm Hk s. unfold attempt. specialize (Hm s). destruct (m s) as [s1 r].
  destruct Hm as [H1 H2], (Hk r s1) as [H3 H4]. cbn in *. split; congruence.
Qed.
Lemma quiet_ignored {A} (m : Op A) : quiet m -> quiet (ignored m).
Proof. intros H. apply quiet_attempt; [done | intros; apply quiet_ret]. Qed.
Lemma quiet_limits {A} (m : M (Redis string) RErr A) : quiet (@on_limits W E A m).
Proof. intros s. unfold on_limits. by destruct (m (limits s)). Qed.
Lemma quiet_sessions {A} (m : M SRedis RErr A) : quiet (@on_sessions W E A m).
Proof. intros s. unfold on_sessions. by destruct (m (sessions s)). Qed.
Lemma quiet_Publish ev : quiet (@Publish W E ev). Proof. by intros s. Qed.

Lemma frames_bind {A B} (m : Op A) (k : A -> Op B) : frames m -> (forall a, frames (k a)) -> frames (bind m k).
Proof.
  intros Hm Hk s. unfold bind. specialize (Hm s). destruct (m s) as [s1 [a|err]]; [|exact Hm]. by rewrite (Hk a s1).
Qed.
Lemma frames_on_dom {A B} (m : M W E A) (k : res E A -> Op B) : (forall r, frames (k r)) -> frames (on_dom m k).
Proof. intros H s. unfold on_dom. destruct (m (dom s)) as [w r]. by rewrite H. Qed.
End Frames.

Ltac quietly := repeat first
  [ apply quiet_ret | apply quiet_throw | apply quiet_limits | apply quiet_sessions | apply quiet_Publish
  | apply quiet_ignored | apply quiet_bind; [|intros] | apply quiet_attempt; [|intros] | case_match ].

Section Props.
Context {W E : Type} (e : Engine W E) (CheckPassword : string -> string -> bool) (sha256_hex : string -> string) (pttl_ms ttl_s : Z -> Z)
  (Error : E -> string) (v : MFAVerifier W E) (wired : mfaVerifier e = Some v).
Abbreviation St := (AState W).
Abbreviation Op := (M St (AErr E)).
Abbreviation Login := (Login e CheckPassword sha256_hex pttl_ms ttl_s).
Abbreviation VerifyMFAChallenge := (VerifyMFAChallenge e ttl_s Error).

Lemma quiet_RecordAttempt a : quiet (RecordAttempt e a).
Proof. unfold RecordAttempt. by case_match; intros s. Qed.
Lemma quiet_event result req b stage : quiet (publishLoginEvent e result req b stage).
Proof. apply quiet_bind; [apply quiet_Publish | intros; apply quiet_RecordAttempt]. Qed.
Lemma quiet_lock u ip : quiet (checkLoginLock e sha256_hex ttl_s u ip).
Proof. unfold checkLoginLock. quietly. Qed.
Lemma quiet_track u req : quiet (trackFailure e sha256_hex pttl_ms ttl_s u req).
Proof. unfold trackFailure, trackFailureLegacy. quietly. Qed.
Lemma quiet_clear u ip : quiet (clearFailureCountIP e sha256_hex u ip).
Proof. unfold clearFailureCountIP. quietly. Qed.
Lemma quiet_rate u ip : quiet (@check_mfa_rate W E ttl_s u ip).
Proof. unfold check_mfa_rate. quietly. Qed.
Lemma frames_complete ctx ns req result stage id : frames (completeLogin e ctx ns req result stage id).
Proof.
  apply frames_on_dom. intros _. apply quiet_frames, quiet_bind; [apply quiet_sessions|]. intros sess.
  apply quiet_bind; [destruct (bool_decide _); [apply quiet_ignored, quiet_sessions | apply quiet_ret]|]. intros _.
  apply quiet_bind; [apply quiet_event | intros; apply quiet_ret].
Qed.

(** The answer names the user it was made for. *)
Lemma completeLogin_response ctx ns req result stage id s s' resp :
  completeLogin e ctx ns req result stage id s = (s', Ok resp) -> lr_UserID resp = rs_UserID result.
Proof.
  unfold completeLogin, on_dom. destruct (UpdateLastLogin _ _ _ _ _) as [w r]. intros Hrun.
  apply bind_ok in Hrun as (sess & s1 & _ & Hrun). apply bind_ok in Hrun as ([] & s2 & _ & Hrun).
  apply bind_ok in Hrun as ([] & s3 & _ & Hrun). by injection Hrun as _ <-.
Qed.

(** ** What a challenge vouches for *)

(** At [s] the first factor of [req] was good, and the user has a second. *)
Definition first_factor (s : St) (ctx : Scope) (req : AuthRequest) (ns : string) (p : mfaChallengePayload) : Prop :=
  exists provider result w1 w2,
    providers e (rq_AuthType req) = Some provider
    /\ authenticate CheckPassword provider (WithTenant (rq_TenantID req) ctx) req (dom s) = (w1, Ok result) /\ Status result = AuthSuccess
    /\ has_verified_totp v (WithTenant (rq_TenantID req) ctx) (rs_UserID result) w1 = (w2, Ok true)
    /\ p = mkPayload (rs_UserID result) (rq_TenantID req) (rs_Username result) (rs_DisplayName result) (rq_AuthType req) ns
             (rq_ClientIP req) (rq_UserAgent req).

Definition challenge_key (token : string) : string := mfaChallengePrefix +:+ token.

(** A challenge that may have been stored. *)
Lemma issue_challenges p token (s s' : St) x :
  @issueMFAChallenge W E p token s = (s', x) ->
  rkeys (challenges s') = rkeys (challenges s)
  \/ exists t d, token = Some t /\ rkeys (challenges s') = <[challenge_key t := mkRKey (RStr p) d]> (rkeys (challenges s)).
Proof.
  unfold issueMFAChallenge. destruct token as [t|]; [|intros [= <- <-]; by left]. unfold on_challenges.
  destruct (SET (mfaChallengePrefix +:+ t) p mfaChallengeTTL (challenges s)) as [r y] eqn:Hset. intros Hrun.
  assert (challenges s' = r) as -> by (destruct y; cbn in Hrun; injection Hrun as <- <-; done).
  apply command_inv in Hset as (_ & _ & [[Hk _]|(_ & _ & [Hk|Hk])]); [right|by left|right];
    (exists t, (Some (rclock (challenges s) + px mfaChallengeTTL)); split; [done|exact Hk]).
Qed.

Lemma Login_challenges ctx req ns token id (s s' : St) x :
  Login ctx req ns token id s = (s', x) ->
  rkeys (challenges s') = rkeys (challenges s)
  \/ exists t p d, token = Some t /\ first_factor s ctx req ns p
     /\ rkeys (challenges s') = <[challenge_key t := mkRKey (RStr p) d]> (rkeys (challenges s)).
Proof.
  unfold Authn.Login. destruct (providers e (rq_AuthType req)) as [provider|] eqn:Hprov; [|intros [= <- <-]; by left].
  pose proof (quiet_lock 0 (rq_ClientIP req) s) as [Hl Hd]. unfold bind at 1.
  destruct (checkLoginLock e sha256_hex ttl_s 0 (rq_ClientIP req) s) as [s1 [[]|err]]; cbn in Hl, Hd;
    [|intros [= <- <-]; left; by rewrite Hl].
  unfold on_dom at 1. rewrite Hd.
  destruct (authenticate CheckPassword provider (WithTenant (rq_TenantID req) ctx) req (dom s)) as [w1 [result|err]] eqn:Hauth;
    [|intros [= <- <-]; left; cbn; by rewrite Hl].
  set (s2 := mkAState w1 _ _ _ _ _). assert (challenges s2 = challenges s) as Hc2 by done.
  assert (forall A (m : Op A) k, quiet m -> (forall a, frames (k a : Op LoginResponse)) -> bind m k s2 = (s', x) ->
    rkeys (challenges s') = rkeys (challenges s)) as Hq.
  { intros A m k Hm Hk Hrun. rewrite <- Hc2. change s' with (s', x).1. rewrite <- Hrun. f_equal.
    by apply frames_bind; [apply quiet_frames|]. }
  destruct (Status result) eqn:Hst.
  2: intros [= <- <-]; left; by rewrite Hc2.
  2: intros Hrun; left; eapply Hq; [apply quiet_event | | exact Hrun]; by intros ? ?.
  2: intros Hrun; left; eapply Hq; [apply quiet_track | | exact Hrun]; intros; apply frames_bind; [apply quiet_frames, quiet_event | by intros ? ?].
  2: intros Hrun; left; eapply Hq; [apply quiet_event | | exact Hrun]; by intros ? ?.
  clear Hq. set (clear := if 0 <? rs_UserID result then clearFailureCountIP e sha256_hex (rs_UserID result) (rq_ClientIP req) else ret tt).
  assert (quiet clear) as Hclear by (unfold clear; destruct (0 <? _); [apply quiet_clear | apply quiet_ret]).
  destruct (Hclear s2) as [Hc3 Hd3]. unfold bind at 1.
  destruct (clear s2) as [s3 [[]|err]]; cbn in Hc3, Hd3; [|intros [= <- <-]; left; f_equal; congruence].
  rewrite wired. unfold on_dom at 1. rewrite Hd3.
  destruct (has_verified_totp v (WithTenant (rq_TenantID req) ctx) (rs_UserID result) w1) as [w2 [[]|err]] eqn:Hhas.
  - set (p := mkPayload _ _ _ _ _ _ _ _). intros Hrun. unfold bind at 1 in Hrun.
    destruct (issueMFAChallenge p token _) as [s4 y] eqn:Hissue. apply issue_challenges in Hissue.
    assert (s' = s4) as -> by (destruct y; injection Hrun; auto). cbn [challenges] in Hissue. assert (challenges s3 = challenges s) as E3 by congruence. rewrite E3 in Hissue.
    destruct Hissue as [Hk|(t & d & Ht & Hk)]; [by left|]. right. exists t, p, d. split; [done|]. split; [|done].
    exists provider, result, w1, w2. by rewrite Hst.
  - intros Hrun. left. change s' with (s', x).1. rewrite <- Hrun, frames_complete. cbn. congruence.
  - intros [= <- <-]. left. cbn. congruence.
Qed.

(** A challenge is gone once its answer brought a session. *)
Lemma consume_challenges token (s s' : St) x :
  @consumeMFAChallenge W E token s = (s', x) ->
  (rkeys (challenges s') = rkeys (challenges s) \/ rkeys (challenges s') = delete (challenge_key token) (rkeys (challenges s)))
  /\ dom s' = dom s
  /\ forall p, x = Ok p -> rkeys (challenges s') = delete (challenge_key token) (rkeys (challenges s))
     /\ exists d, rkeys (challenges s) !! challenge_key token = Some (mkRKey (RStr p) d).
Proof.
  unfold consumeMFAChallenge. case_bool_decide; [intros [= <- <-]; split_and!; [by left | done | done]|]. unfold on_challenges.
  destruct (GETDEL (mfaChallengePrefix +:+ token) (challenges s)) as [r y] eqn:Hget. intros Hrun.
  assert (challenges s' = r /\ dom s' = dom s) as [-> ->] by (destruct y; injection Hrun as <- <-; done).
  assert (forall p, x = Ok p -> y = Ok p) as Hx by (intros p ->; destruct y; [by injection Hrun as _ -> | done]).
  apply command_inv in Hget as (_ & _ & Hcase).
  unfold getdel_f, peek in Hcase. fold (challenge_key token) in Hcase.
  destruct (rkeys (challenges s) !! challenge_key token) as [[z d]|] eqn:Hkey; cbn in Hcase.
  - split; [|split; [done|]].
    + destruct (alive (rclock (challenges s)) (mkRKey z d)), z; cbn in Hcase; naive_solver.
    + intros p Hp. specialize (Hx p Hp). subst y.
      destruct (alive (rclock (challenges s)) (mkRKey z d)), z; cbn in Hcase; destruct Hcase as [[Hk Hy]|[Hy _]]; try discriminate Hy.
      injection Hy as <-. eauto.
  - split; [naive_solver|]. split; [done|]. intros p Hp. specialize (Hx p Hp). subst y. destruct Hcase as [[_ Hy]|[Hy _]]; discriminate Hy.
Qed.

(** The rest of the second step, after the challenge is consumed. *)
Lemma Verify_challenges ctx token code id (s s' : St) x :
  VerifyMFAChallenge ctx token code id s = (s', x) ->
  (rkeys (challenges s') = rkeys (challenges s) \/ rkeys (challenges s') = delete (challenge_key token) (rkeys (challenges s)))
  /\ forall resp, x = Ok resp ->
     rkeys (challenges s') !! challenge_key token = None
     /\ exists p d, rkeys (challenges s) !! challenge_key token = Some (mkRKey (RStr p) d) /\ lr_UserID resp = ch_UserID p
        /\ (verify_code v (WithTenant (ch_TenantID p) ctx) (ch_UserID p) code (dom s)).2 = Ok tt.
Proof.
  unfold Authn.VerifyMFAChallenge. rewrite wired. unfold bind at 1.
  destruct (consumeMFAChallenge token s) as [s1 [p|err]] eqn:Hcons; apply consume_challenges in Hcons as (Hk & Hd & Hp);
    [|intros [= <- <-]; split; [done | intros ? [=]]].
  destruct (Hp p eq_refl) as (Hdel & d & Hkey). clear Hp. pose proof (quiet_rate (ch_UserID p) (ch_ClientIP p) s1) as [Hc2 Hd2].
  unfold bind at 1. destruct (check_mfa_rate ttl_s (ch_UserID p) (ch_ClientIP p) s1) as [s2 [[]|err]]; cbn in Hc2, Hd2;
    [|intros [= <- <-]; split; [by rewrite Hc2 | intros ? [=]]].
  unfold on_dom at 1. rewrite Hd2, Hd.
  destruct (verify_code v (WithTenant (ch_TenantID p) ctx) (ch_UserID p) code (dom s)) as [w r] eqn:Hver.
  set (s3 := mkAState w _ _ _ _ _). intros Hrun.
  assert (challenges s' = challenges s1) as Hc3.
  { rewrite <- Hc2. change (challenges s2) with (challenges s3). change s' with (s', x).1. rewrite <- Hrun. destruct r as [u|err].
    - apply frames_bind; [apply quiet_frames, quiet_limits | intros; apply frames_complete].
    - apply quiet_frames. apply quiet_bind; [destruct (is_reused v err); [apply quiet_ret | apply quiet_limits]|]. intros _.
      apply quiet_bind; [apply quiet_Publish|]. intros _. apply quiet_bind; [apply quiet_RecordAttempt | intros; apply quiet_throw]. }
  rewrite Hc3. split; [done|]. intros resp ->. split; [rewrite Hdel; apply lookup_delete_eq|]. exists p, d. split; [done|].
  destruct r as [[]|err].
  - split; [|by rewrite ?Hver]. unfold bind at 1 in Hrun. destruct (on_limits _ s3) as [s4 [[]|?]]; [|done].
    by apply completeLogin_response in Hrun.
  - exfalso. unfold bind in Hrun. repeat case_match; unfold throw in *; simplify_eq.
Qed.

(** ** Runs *)

(** A sign-in, a second factor, or anything else: other requests and time may do
    what they will to the user domain, the counters and the sessions, and move the clock
    of the challenges. *)
Inductive Call : Type :=
| CLogin (ctx : Scope) (req : AuthRequest) (ns : string) (token : option string) (id : string)
| CVerify (ctx : Scope) (token code id : string)
| CElse (w : W) (l : Redis string) (ss : Redis Session) (now : Z) (fate : nat -> Fate).

Definition call (c : Call) (s : St) : St :=
  match c with
  | CLogin ctx req ns token id => (Login ctx req ns token id s).1
  | CVerify ctx token code id => (VerifyMFAChallenge ctx token code id s).1
  | CElse w l ss now fate => mkAState w l (mkRedis (rkeys (challenges s)) now fate (rcalls (challenges s))) ss (bus s) (attempts s)
  end.
Definition run (calls : list Call) (s : St) : St := fold_left (fun s c => call c s) calls s.

(** [c] is no sign-in by the challenge [token]. *)
Definition not_spent (token : string) (c : Call) (s : St) : Prop :=
  match c with
  | CVerify ctx t code id => t = token -> forall resp, (VerifyMFAChallenge ctx t code id s).2 <> Ok resp
  | _ => True
  end.
Fixpoint unspent (token : string) (calls : list Call) (s : St) : Prop :=
  match calls with [] => True | c :: rest => not_spent token c s /\ unspent token rest (call c s) end.

Lemma unspent_snoc token l c s : unspent token l s -> not_spent token c (run l s) -> unspent token (l ++ [c]) s.
Proof. revert s. induction l as [|d l IH]; intros s; cbn; [auto|]. intros [H1 H2] H3. split; [done|]. by apply IH. Qed.

(** Among [calls], a sign-in whose first factor was good was given [token], and no
    session came of it since. *)
Definition vouched (s0 : St) (calls : list Call) (token : string) (p : mfaChallengePayload) : Prop :=
  exists l1 ctx req ns id l2, calls = l1 ++ CLogin ctx req ns (Some token) id :: l2
    /\ first_factor (run l1 s0) ctx req ns p
    /\ unspent token l2 (run (l1 ++ [CLogin ctx req ns (Some token) id]) s0).

Lemma vouched_snoc s0 calls c token p : vouched s0 calls token p -> not_spent token c (run calls s0) -> vouched s0 (calls ++ [c]) token p.
Proof.
  intros (l1 & ctx & req & ns & id & l2 & -> & Hff & Hun) Hc. exists l1, ctx, req, ns, id, (l2 ++ [c]).
  rewrite <- app_assoc. split; [done|]. split; [done|]. apply unspent_snoc; [done|].
  unfold run in *. rewrite fold_left_app in Hc |- *. exact Hc.
Qed.

Lemma challenge_key_inj t t' : challenge_key t = challenge_key t' -> t = t'.
Proof. apply app_cancel_l. Qed.

(** What is stored was vouched for. *)
Lemma stored_vouched s0 : rkeys (challenges s0) = ∅ -> forall calls token p d,
  rkeys (challenges (run calls s0)) !! challenge_key token = Some (mkRKey (RStr p) d) -> vouched s0 calls token p.
Proof.
  intros H0 calls. induction calls as [|c calls IH] using rev_ind; intros token p d Hkey; [cbn in Hkey; by rewrite H0 in Hkey|].
  unfold run in Hkey. rewrite fold_left_app in Hkey. cbn in Hkey. fold (run calls s0) in Hkey.
  destruct c as [ctx req ns t id|ctx t code id|w l ss now fate].
  - cbn [call] in Hkey. destruct (Login ctx req ns t id (run calls s0)) as [s' x] eqn:Hrun. cbn in Hkey.
    apply Login_challenges in Hrun as [Hk|(t' & p' & d' & -> & Hff & Hk)]; rewrite Hk in Hkey; [by eapply vouched_snoc; [eapply IH|]|].
    destruct (decide (t' = token)) as [->|Hne].
    + rewrite lookup_insert_eq in Hkey. injection Hkey as <- <-. exists calls, ctx, req, ns, id, []. done.
    + rewrite lookup_insert_ne in Hkey by (intros ?%challenge_key_inj; done). by eapply vouched_snoc; [eapply IH|].
  - cbn [call] in Hkey. destruct (VerifyMFAChallenge ctx t code id (run calls s0)) as [s' x] eqn:Hrun. cbn in Hkey.
    apply Verify_challenges in Hrun as Hv. destruct Hv as [Hk Hok].
    assert (rkeys (challenges (run calls s0)) !! challenge_key token = Some (mkRKey (RStr p) d)) as Hbefore.
    { destruct Hk as [Hk|Hk]; rewrite Hk in Hkey; [done|]. by apply lookup_delete_Some in Hkey as [_ ?]. }
    eapply vouched_snoc; [by eapply IH|]. intros -> resp Hx. rewrite Hrun in Hx. cbn in Hx. destruct (Hok resp Hx) as [Hnone _].
    by rewrite Hnone in Hkey.
  - by eapply vouched_snoc; [eapply IH|].
Qed.

(** C7: a challenge is worth a session once, to the user it was made for. When a run
    of sign-ins and anything else, begun without challenges, comes to a
    second step that succeeds, the run has a sign-in that was given this challenge: at
    that point its provider accepted the first factor of the user the answer names, who had
    a verified second factor; no other second step has succeeded on the challenge since;
    and the code is one the verifier takes now, for that user. *)
Theorem session_needs_both_factors s0 calls ctx token code id s' resp :
  rkeys (challenges s0) = ∅ -> VerifyMFAChallenge ctx token code id (run calls s0) = (s', Ok resp) ->
  exists p, vouched s0 calls token p /\ lr_UserID resp = ch_UserID p
  /\ (verify_code v (WithTenant (ch_TenantID p) ctx) (ch_UserID p) code (dom (run calls s0))).2 = Ok tt.
Proof.
  intros H0 Hrun. apply Verify_challenges in Hrun as [_ Hok]. destruct (Hok resp eq_refl) as (_ & p & d & Hkey & Hu & Hv).
  exists p. split; [by eapply stored_vouched|]. done.
Qed.
End Props.
