(* ===== verification/AuthnLocks.v ===== *)
(** * AuthnLocks: the brute-force limiter at the door

    Failed sign-ins from one address lock it, and the provider is not asked again
    while the lock stands; the lock of a user is set but not looked at. *)

From S2P Require Import Prelude Text Redis Session RateLimit MfaLimit Mfa Authn AuthnProps.

Section Locks.
Context {W E : Type} (e : Engine W E) (CheckPassword : string -> string -> bool) (sha256_hex : string -> string) (pttl_ms ttl_s : Z -> Z).
Context (pttl_pos : forall d, Millisecond <= d -> 0 < pttl_ms d) (ttl_pos : forall d, Second <= d -> 0 < ttl_s d).
Context (cfg : Config) (limited : loginLimiter e = Some cfg) (valid : config_ok cfg).
(** SHA-256 in hexadecimal, without a collision among the identifiers of users and of [ip]. *)
Context (ip : string) (ip_known : ip <> ""%string) (hex64 : forall x, String.length (sha256_hex x) = 64%nat)
  (apart : forall u, sha256_hex ("u:" +:+ dec u) <> sha256_hex ("ip:" +:+ ip)).
Abbreviation St := (AState W).
Abbreviation Op := (M St (AErr E)).
Abbreviation Login := (Login e CheckPassword sha256_hex pttl_ms ttl_s).

Definition ip_id : string := "ip:" +:+ ip.
Abbreviation ctr := (counterKey sha256_hex cfg ip_id).
Abbreviation lck := (lockKey sha256_hex cfg ip_id).

Definition with_limits (f : Redis string -> Redis string) (s : St) : St :=
  mkAState (dom s) (f (limits s)) (challenges s) (sessions s) (bus s) (attempts s).

(** The counter and the lock of the address are as in [r], and the store works. *)
Definition like (r r' : Redis string) : Prop :=
  rclock r' = rclock r /\ rfate r' = rfate r /\ rkeys r' !! ctr = rkeys r !! ctr /\ rkeys r' !! lck = rkeys r !! lck.
Lemma like_refl r : like r r. Proof. done. Qed.
Lemma like_trans r1 r2 r3 : like r1 r2 -> like r2 r3 -> like r1 r3.
Proof. intros (? & ? & ? & ?) (? & ? & ? & ?). split_and!; congruence. Qed.
Lemma like_fine r r' : like r r' -> fine r -> fine r'.
Proof. intros (_ & Hf & _) H n. rewrite Hf. apply H. Qed.

Lemma Check_like id r : fine r -> like r (RateLimit.Check sha256_hex ttl_s cfg id r).1 /\ exists x, (RateLimit.Check sha256_hex ttl_s cfg id r).2 = Ok x.
Proof.
  intros Hf. unfold RateLimit.Check. case_bool_decide; [by split; [|eexists]|]. unfold attempt. rewrite command_fine by done.
  cbn [ttl_f fst snd]. unfold ttl_f, ret. split; [done | by eexists].
Qed.

Lemma CheckMany_like ids : forall r, fine r -> like r (CheckMany sha256_hex ttl_s cfg ids r).1 /\ exists x, (CheckMany sha256_hex ttl_s cfg ids r).2 = Ok x.
Proof.
  induction ids as [|id ids IH]; intros r Hf; cbn [CheckMany]; [by split; [|eexists]|].
  destruct (Check_like id r Hf) as [Hl [x Hx]]. unfold bind. destruct (RateLimit.Check sha256_hex ttl_s cfg id r) as [r1 y]. cbn in *. subst y.
  destruct x as [err|]; [by split; [|eexists]|]. destruct (IH r1 (like_fine _ _ Hl Hf)) as [Hl2 Hx2]. split; [by eapply like_trans | done].
Qed.

(** The failure of a user touches no key of the address. *)
Lemma record_user_like u r : fine r ->
  like r (RateLimit.RecordFailure sha256_hex pttl_ms cfg ("u:" +:+ dec u) r).1
  /\ exists x, (RateLimit.RecordFailure sha256_hex pttl_ms cfg ("u:" +:+ dec u) r).2 = Ok x.
Proof.
  intros Hf. unfold RateLimit.RecordFailure. rewrite bool_decide_eq_false_2 by done. unfold attempt. rewrite command_fine by done.
  destruct (keys_disjoint sha256_hex cfg ("u:" +:+ dec u) ip_id hex64 (apart u)) as (K1 & K2 & K3 & K4).
  cbn [fst snd]. split.
  - unfold ret. case_match; split_and!; try done; cbn; by apply script_other.
  - unfold ret. case_match; cbn; eauto.
Qed.

(** What a failed sign-in records comes down to one failure of the address. *)
Definition ip_record (r : Redis string) : Redis string := (RateLimit.RecordFailure sha256_hex pttl_ms cfg ip_id r).1.

Lemma loginIdentifiers_ip u : loginIdentifiers u ip = (if 0 <? u then ["u:" +:+ dec u] else []) ++ [ip_id].
Proof. unfold loginIdentifiers. by rewrite bool_decide_eq_false_2. Qed.

Lemma record_ip_ok r : fine r -> exists x, (RateLimit.RecordFailure sha256_hex pttl_ms cfg ip_id r).2 = Ok x.
Proof.
  intros Hf. unfold RateLimit.RecordFailure. rewrite bool_decide_eq_false_2 by done. unfold attempt. rewrite command_fine by done.
  unfold ret. case_match; cbn; eauto.
Qed.

Lemma RecordMany_ip u r : fine r -> exists r1 x, like r r1 /\ RecordFailureMany sha256_hex pttl_ms cfg (loginIdentifiers u ip) r = (ip_record r1, Ok x).
Proof.
  intros Hf. rewrite loginIdentifiers_ip.
  assert (forall r1, fine r1 -> exists x, RecordFailureMany sha256_hex pttl_ms cfg [ip_id] r1 = (ip_record r1, Ok x)) as Hip.
  { intros r1 Hf1. destruct (record_ip_ok r1 Hf1) as [x Hx]. cbn [RecordFailureMany]. unfold bind, ip_record, ret.
    destruct (RateLimit.RecordFailure sha256_hex pttl_ms cfg ip_id r1) as [r2 y]. cbn in *. subst y. eauto. }
  destruct (0 <? u); cbn [app]; [|destruct (Hip r Hf) as [x Hx]; exists r, x; by split].
  destruct (record_user_like u r Hf) as [Hl [y Hy]]. cbn [RecordFailureMany] in *. unfold bind at 1.
  destruct (RateLimit.RecordFailure sha256_hex pttl_ms cfg ("u:" +:+ dec u) r) as [r1 z]. cbn in Hl, Hy. subst z.
  destruct (Hip r1 (like_fine _ _ Hl Hf)) as [x Hx]. exists r1. cbn [RecordFailureMany] in Hx. unfold bind at 1. rewrite Hx. unfold ret.
  eexists. split; [done | reflexivity].
Qed.

Lemma on_limits_run {A} (m : M (Redis string) RErr A) (s : St) r a :
  m (limits s) = (r, Ok a) -> @on_limits W E A m s = (with_limits (fun _ => r) s, Ok a).
Proof. intros Hm. unfold on_limits. by rewrite Hm. Qed.

(** The address has no live lock at [r]. *)
Definition unlocked (r : Redis string) : Prop := peek (rkeys r) (rclock r) lck = None.

Lemma check_unlocked r : fine r -> unlocked r -> exists r1, CheckMany sha256_hex ttl_s cfg [ip_id] r = (r1, Ok None) /\ like r r1.
Proof.
  intros Hf Hu. cbn [CheckMany]. unfold bind, RateLimit.Check. rewrite bool_decide_eq_false_2 by done. unfold attempt.
  rewrite command_fine by done. unfold ttl_f, remaining. cbn [fst snd]. unfold unlocked in Hu. rewrite Hu. unfold ret. cbn. eexists. by split.
Qed.

Lemma lock_check_passes s : fine (limits s) -> unlocked (limits s) ->
  exists r1, checkLoginLock e sha256_hex ttl_s 0 ip s = (with_limits (fun _ => r1) s, Ok tt) /\ like (limits s) r1.
Proof.
  intros Hf Hu. destruct (check_unlocked (limits s) Hf Hu) as (r1 & Hc & Hl). exists r1. split; [|done].
  unfold checkLoginLock. rewrite limited, loginIdentifiers_ip. cbn [Z.ltb Z.compare app].
  rewrite bool_decide_eq_false_2 by done. by erewrite bind_ok_run by (by apply on_limits_run).
Qed.

Lemma track_records u req s : rq_ClientIP req = ip -> fine (limits s) ->
  exists r1 s', trackFailure e sha256_hex pttl_ms ttl_s u req s = (s', Ok tt) /\ like (limits s) r1 /\ limits s' = ip_record r1.
Proof.
  intros Hip Hf. unfold trackFailure. rewrite limited, Hip.
  rewrite (bool_decide_eq_false_2 (loginIdentifiers u ip = [])) by (rewrite loginIdentifiers_ip; by destruct (0 <? _)).
  destruct (CheckMany_like (loginIdentifiers u ip) (limits s) Hf) as [Hl2 [x Hx]]. apply run_result in Hx.
  destruct (RecordMany_ip u _ (like_fine _ _ Hl2 Hf)) as (r3 & z & Hl3 & Hrm).
  erewrite bind_ok_run by (by apply on_limits_run). erewrite bind_ok_run by (by apply on_limits_run).
  exists r3. destruct (_ && _ && _); (eexists; split; [reflexivity|]; split; [by eapply like_trans | reflexivity]).
Qed.

Lemma limits_event (m : Op unit) k (s : St) : (forall s, limits (m s).1 = limits s) -> (forall a s, limits (k a s : St * res (AErr E) LoginResponse).1 = limits s) ->
  limits (bind m k s).1 = limits s.
Proof. intros Hm Hk. unfold bind. specialize (Hm s). destruct (m s) as [s1 [a|err]]; [|exact Hm]. by rewrite Hk. Qed.

Lemma event_run result req b stage s : exists s', publishLoginEvent e result req b stage s = (s', Ok tt) /\ limits s' = limits s.
Proof. unfold publishLoginEvent, RecordAttempt, bind, Publish, modify. destruct (loginRecorder e); by eexists. Qed.

(** A sign-in the provider refuses: the failure of the address is recorded. *)
Lemma rejected_login ctx req ns token id s provider w result :
  rq_ClientIP req = ip -> fine (limits s) -> unlocked (limits s) ->
  providers e (rq_AuthType req) = Some provider ->
  authenticate CheckPassword provider (WithTenant (rq_TenantID req) ctx) req (dom s) = (w, Ok result) -> Status result = AuthFailed ->
  exists r1 s', Login ctx req ns token id s = (s', Err ErrAuthFailed) /\ like (limits s) r1 /\ limits s' = ip_record r1.
Proof.
  intros Hip Hf Hu Hprov Hauth Hst. destruct (lock_check_passes s Hf Hu) as (r1 & Hc & Hl1).
  unfold Authn.Login. rewrite Hprov, Hip. erewrite bind_ok_run by exact Hc. unfold on_dom at 1. cbn [dom with_limits].
  rewrite Hauth, Hst. set (s1 := mkAState _ _ _ _ _ _).
  destruct (track_records (rs_UserID result) req s1 Hip) as (r3 & s2 & Ht & Hl2 & Hr); [by eapply like_fine|].
  erewrite bind_ok_run by exact Ht. destruct (event_run result req false "" s2) as (s3 & Hev & Hl3).
  erewrite bind_ok_run by exact Hev. exists r3, s3. split; [done|]. split; [by eapply like_trans | congruence].
Qed.

(** ** A scan from one address *)

Record Try : Type := mkTry { t_now : Z; t_ctx : Scope; t_req : AuthRequest; t_ns : string; t_token : option string; t_id : string }.
Definition try_at (a : Try) (s : St) : St * res (AErr E) LoginResponse :=
  Login (t_ctx a) (t_req a) (t_ns a) (t_token a) (t_id a) (with_limits (at_time (t_now a)) s).
Definition tries (l : list Try) (s : St) : St := fold_left (fun s a => (try_at a s).1) l s.

(** From the address, and refused by its provider when it is asked in the state [s]. *)
Definition rejected (a : Try) (s : St) : Prop :=
  rq_ClientIP (t_req a) = ip /\
  exists provider w result, providers e (rq_AuthType (t_req a)) = Some provider
  /\ authenticate CheckPassword provider (WithTenant (rq_TenantID (t_req a)) (t_ctx a)) (t_req a) (dom s) = (w, Ok result)
  /\ Status result = AuthFailed.
Fixpoint all_rejected (l : list Try) (s : St) : Prop :=
  match l with [] => True | a :: rest => rejected a s /\ all_rejected rest (try_at a s).1 end.

Definition failing_count (s : St) (n d : Z) : Prop :=
  fine (limits s) /\ rkeys (limits s) !! ctr = Some (mkRKey (RInt n) (Some d)) /\ rkeys (limits s) !! lck = None.

Lemma no_lock_unlocked r : rkeys r !! lck = None -> unlocked r.
Proof. intros H. unfold unlocked, peek. by rewrite H. Qed.

Lemma try_records a s : fine (limits s) -> rkeys (limits s) !! lck = None -> rejected a s ->
  exists r1, like (at_time (t_now a) (limits s)) r1 /\ limits (try_at a s).1 = ip_record r1.
Proof.
  intros Hf Hl (Hip & provider & w & result & Hprov & Hauth & Hst).
  destruct (rejected_login (t_ctx a) (t_req a) (t_ns a) (t_token a) (t_id a) (with_limits (at_time (t_now a)) s) provider w result)
    as (r1 & s' & Hrun & Hl1 & Hr); [done | done | by apply no_lock_unlocked | done | done | done |].
  exists r1. split; [done|]. unfold try_at. by rewrite Hrun.
Qed.

Lemma try_first a s : fine (limits s) -> rkeys (limits s) !! ctr = None -> rkeys (limits s) !! lck = None -> 1 < MaxAttempts cfg ->
  rejected a s -> failing_count (try_at a s).1 1 (t_now a + window_ns cfg).
Proof.
  intros Hf Hc Hl Hmax Hrej. destruct (try_records a s Hf Hl Hrej) as (r1 & (Hck & Hfa & Hk1 & Hk2) & Hr). unfold failing_count. rewrite Hr.
  unfold ip_record. rewrite (record_first sha256_hex pttl_ms cfg ip_id r1); try done.
  - cbn in *. split_and!; [intros n; cbn; rewrite Hfa; apply Hf | rewrite lookup_insert_eq; by rewrite Hck |].
    rewrite lookup_insert_ne by (apply ctr_lck_ne). congruence.
  - intros n. rewrite Hfa. apply Hf.
  - unfold peek. cbn in *. by rewrite Hk1, Hc.
Qed.

Lemma try_counts a s n d : failing_count s n d -> 0 < n -> n + 1 < MaxAttempts cfg -> t_now a < d -> rejected a s ->
  failing_count (try_at a s).1 (n + 1) d.
Proof.
  intros (Hf & Hc & Hl) Hn Hmax Ht Hrej. destruct (try_records a s Hf Hl Hrej) as (r1 & (Hck & Hfa & Hk1 & Hk2) & Hr). unfold failing_count. rewrite Hr.
  unfold ip_record. rewrite (record_counts sha256_hex pttl_ms cfg ip_id r1 n (Some d)); try done.
  - cbn in *. split_and!; [intros k; cbn; rewrite Hfa; apply Hf | by rewrite lookup_insert_eq |].
    rewrite lookup_insert_ne by (apply ctr_lck_ne). congruence.
  - intros k. rewrite Hfa. apply Hf.
  - apply peek_Some. cbn in *. rewrite Hk1, Hck. split; [done | by apply Z.ltb_lt].
Qed.

Lemma try_trips a s n d : failing_count s n d -> 0 < n -> n + 1 = MaxAttempts cfg -> t_now a < d -> rejected a s ->
  fine (limits (try_at a s).1)
  /\ rkeys (limits (try_at a s).1) !! lck = Some (mkRKey (RStr "1"%string) (Some (t_now a + lockout_ns cfg))).
Proof.
  intros (Hf & Hc & Hl) Hn Hmax Ht Hrej. destruct (try_records a s Hf Hl Hrej) as (r1 & (Hck & Hfa & Hk1 & Hk2) & ->). cbn in Hck, Hfa, Hk1, Hk2.
  destruct (record_trips sha256_hex pttl_ms cfg pttl_pos ip_id r1 (<[ctr := mkRKey (RInt (n + 1)) (Some d)]> (rkeys r1)) (n + 1))
    as (r' & Hr & Hlk & _ & Hfate); try done.
  - intros k. rewrite Hfa. apply Hf.
  - lia.
  - unfold peek. by rewrite Hk2, Hl.
  - unfold incr. assert (peek (rkeys r1) (rclock r1) ctr = Some (mkRKey (RInt n) (Some d))) as ->; [|done].
    apply peek_Some. rewrite Hk1, Hck. split; [done | by apply Z.ltb_lt].
  - intros k Hk. by rewrite lookup_insert_ne.
  - unfold ip_record. rewrite Hr. cbn. rewrite Hlk, Hck. split; [intros k; rewrite Hfate, Hfa; apply Hf | done].
Qed.

Lemma tries_count early : forall s n d last, failing_count s n d -> 0 < n -> n + Z.of_nat (length early) + 1 = MaxAttempts cfg ->
  Forall (fun a => t_now a < d) early -> t_now last < d -> all_rejected (early ++ [last]) s ->
  fine (limits (tries (early ++ [last]) s))
  /\ rkeys (limits (tries (early ++ [last]) s)) !! lck = Some (mkRKey (RStr "1"%string) (Some (t_now last + lockout_ns cfg))).
Proof.
  induction early as [|a early IH]; intros s n d last Hcount Hn Hmax Hearly Hlast Hrej; cbn [app length tries fold_left all_rejected] in *.
  - destruct Hrej as [Hrej _]. eapply try_trips; [done | done | lia | done | done].
  - destruct Hrej as [Hr Hrej]. inversion Hearly as [|? ? Ha Hearly']; subst.
    apply (IH (try_at a s).1 (n + 1) d last); [apply try_counts; [done | done | lia | done | done] | lia | lia | done | done | done].
Qed.

(** The lock refuses before the provider is asked. *)
Lemma locked_login ctx req ns token id s d : rq_ClientIP req = ip -> fine (limits s) ->
  rkeys (limits s) !! lck = Some (mkRKey (RStr "1"%string) (Some d)) -> rclock (limits s) + Second <= d ->
  providers e (rq_AuthType req) <> None ->
  exists err s', Login ctx req ns token id s = (s', Err (ErrAccountLocked (Some err))) /\ 0 < RetryAfter err /\ dom s' = dom s.
Proof.
  intros Hip Hf Hl Hle Hprov. unfold Authn.Login. destruct (providers e (rq_AuthType req)); [|done].
  change Second with 1000000000 in Hle.
  assert (peek (rkeys (limits s)) (rclock (limits s)) lck = Some (mkRKey (RStr "1"%string) (Some d))) as Hp.
  { apply peek_Some. split; [done|]. apply Z.ltb_lt. lia. }
  pose proof (ttl_pos (d - rclock (limits s)) ltac:(change Second with 1000000000; lia)) as Hpos.
  assert (exists err r1, CheckMany sha256_hex ttl_s cfg [ip_id] (limits s) = (r1, Ok (Some err)) /\ 0 < RetryAfter err) as (err & r1 & Hc & Herr).
  { cbn [CheckMany]. unfold bind, RateLimit.Check. rewrite bool_decide_eq_false_2 by done. unfold attempt. rewrite command_fine by done.
    unfold ttl_f, remaining. cbn [fst snd]. rewrite Hp. cbn. unfold ret.
    rewrite (proj2 (Z.ltb_lt 0 (ttl_s (d - rclock (limits s)) * Second))) by (change Second with 1000000000; lia).
    eexists _, _. split; [reflexivity|]. cbn. change Second with 1000000000. lia. }
  assert (checkLoginLock e sha256_hex ttl_s 0 (rq_ClientIP req) s = (with_limits (fun _ => r1) s, Err (ErrAccountLocked (Some err)))) as Hlock.
  { unfold checkLoginLock. rewrite limited, Hip, loginIdentifiers_ip. cbn [Z.ltb Z.compare app].
    rewrite bool_decide_eq_false_2 by done. by erewrite bind_ok_run by (by apply on_limits_run). }
  exists err, (with_limits (fun _ => r1) s). unfold bind at 1. rewrite Hlock. by split_and!.
Qed.

(** A scan locks its address. Begin where the address has neither failures on
    record nor a lock, and let as many sign-ins from it as the configuration allows be refused by
    their providers within one window, whatever users they name and whether or not
    these exist. Then every sign-in from the address is answered that it is locked, with
    a time to wait, until the last second of the lockout, and its provider is not
    asked. *)
Theorem scan_locks_the_address s first early last a :
  fine (limits s) -> rkeys (limits s) !! ctr = None -> rkeys (limits s) !! lck = None ->
  Z.of_nat (length (first :: early ++ [last])) = MaxAttempts cfg ->
  Forall (fun b => t_now b < t_now first + window_ns cfg) (early ++ [last]) -> all_rejected (first :: early ++ [last]) s ->
  rq_ClientIP (t_req a) = ip -> providers e (rq_AuthType (t_req a)) <> None -> t_now a + Second <= t_now last + lockout_ns cfg ->
  exists err s', try_at a (tries (first :: early ++ [last]) s) = (s', Err (ErrAccountLocked (Some err)))
  /\ 0 < RetryAfter err /\ dom s' = dom (tries (first :: early ++ [last]) s).
Proof.
  intros Hf Hc Hl Hmax Hwin [Hr1 Hrej] Hip Hprov Hleft. rewrite Forall_app, Forall_singleton in Hwin. destruct Hwin as [Hearly Hlast].
  cbn [length] in Hmax. rewrite length_app in Hmax. cbn [length] in Hmax.
  destruct (tries_count early (try_at first s).1 1 (t_now first + window_ns cfg) last) as [Hf2 Hl2]; try done; [|lia|].
  { apply try_first; [done | done | done | lia | done]. }
  apply (locked_login _ _ _ _ _ (with_limits (at_time (t_now a)) (tries (early ++ [last]) (try_at first s).1)) (t_now last + lockout_ns cfg));
    try done.
Qed.

(** ** The user's lock *)

(** Sessions are created while the store works. *)
Lemma save_fine sess r : fine r -> exists r', save sess r = (r', Ok tt).
Proof.
  intros Hf. unfold save, bind, Session.Now, gets. destruct (ExpiresAt sess - rclock r <=? 0); [by eexists|].
  unfold SET. rewrite command_fine by done. by eexists.
Qed.
Lemma ignore_ok {V A} (m : M (Redis V) RErr A) r : exists r', ignore m r = (r', Ok tt).
Proof. unfold ignore, attempt. destruct (m r) as [r' x]. by exists r'. Qed.
Lemma create_fine m pol id ns u t i ua ty r : fine r -> exists r' sess, Create m pol id ns u t i ua ty r = (r', Ok sess) /\ ID sess = id.
Proof.
  intros Hf. unfold Create. destruct (resolveTimeouts m pol) as [idle absolute]. erewrite bind_ok_run by reflexivity.
  set (sess := mkSession _ _ _ _ _ _ _ _ _ _ _ _ _ _). destruct (save_fine sess r Hf) as [r1 H1]. erewrite bind_ok_run by exact H1.
  destruct (ignore_ok (SADD (Session.userKey ns u) id) r1) as [r2 H2]. erewrite bind_ok_run by exact H2.
  destruct (ignore_ok (EXPIRE (Session.userKey ns u) absolute) r2) as [r3 H3]. erewrite bind_ok_run by exact H3. by exists r3, sess.
Qed.

Lemma complete_fine ctx ns req result id s : fine (sessions s) ->
  exists s' resp, completeLogin e ctx ns req result "password" id s = (s', Ok resp) /\ SessionID resp = id.
Proof.
  intros Hf. unfold completeLogin, on_dom. destruct (UpdateLastLogin (userRepo e) ctx (rs_UserID result) (rq_ClientIP req) (dom s)) as [w r].
  set (s1 := mkAState w _ _ _ _ _).
  destruct (create_fine (sessionMgr e) (sessionPolicy e) id ns (rs_UserID result) (rq_TenantID req) (rq_ClientIP req) (rq_UserAgent req)
    (rq_AuthType req) (sessions s1) Hf) as (r1 & sess & Hc & Hid).
  assert (@on_sessions W E _ (Create (sessionMgr e) (sessionPolicy e) id ns (rs_UserID result) (rq_TenantID req) (rq_ClientIP req) (rq_UserAgent req)
            (rq_AuthType req)) s1 = (mkAState (dom s1) (limits s1) (challenges s1) r1 (bus s1) (attempts s1), Ok sess)) as Hon
    by (unfold on_sessions; by rewrite Hc).
  erewrite bind_ok_run by exact Hon. rewrite bool_decide_eq_false_2 by done. erewrite bind_ok_run by reflexivity.
  destruct (event_run result req true "password" (mkAState (dom s1) (limits s1) (challenges s1) r1 (bus s1) (attempts s1))) as (s2 & Hev & _).
  erewrite bind_ok_run by exact Hev. eexists s2, _. split; [reflexivity|]. exact Hid.
Qed.

(** The lock of a user does not keep anyone out. The limiter says that the user
    is locked, after failures from other addresses; a sign-in as this user with the right
    password, from an address without a lock of its own, is given a session all the
    same. *)
Theorem locked_user_signs_in ctx req ns token id s provider w w' result v err :
  rq_ClientIP req = ip -> fine (limits s) -> fine (sessions s) -> unlocked (limits s) ->
  providers e (rq_AuthType req) = Some provider ->
  authenticate CheckPassword provider (WithTenant (rq_TenantID req) ctx) req (dom s) = (w, Ok result) -> Status result = AuthSuccess ->
  mfaVerifier e = Some v -> has_verified_totp v (WithTenant (rq_TenantID req) ctx) (rs_UserID result) w = (w', Ok false) ->
  (RateLimit.Check sha256_hex ttl_s cfg ("u:" +:+ dec (rs_UserID result)) (limits s)).2 = Ok (Some err) ->
  exists s' resp, Login ctx req ns token id s = (s', Ok resp) /\ SessionID resp = id.
Proof.
  intros Hip Hf Hfs Hu Hprov Hauth Hst Hv Hhas _. destruct (lock_check_passes s Hf Hu) as (r1 & Hc & Hl1).
  unfold Authn.Login. rewrite Hprov, Hip. erewrite bind_ok_run by exact Hc. unfold on_dom at 1. cbn [dom with_limits].
  rewrite Hauth, Hst. set (s1 := mkAState _ _ _ _ _ _).
  assert (exists r2, (if 0 <? rs_UserID result then clearFailureCountIP e sha256_hex (rs_UserID result) ip else ret tt) s1 = (with_limits (fun _ => r2) s1, Ok tt))
    as [r2 Hclear].
  { destruct (0 <? rs_UserID result); [|by exists r1].
    unfold clearFailureCountIP. rewrite limited.
    assert (forall ids r, exists r', ResetMany sha256_hex cfg ids r = (r', Ok tt)) as Hreset.
    { intros ids. induction ids as [|i ids IH]; intros r; [by eexists|]. cbn [ResetMany]. unfold bind, RateLimit.Reset. case_bool_decide; [apply IH|].
      unfold ignore, attempt. destruct (command _ r) as [r' x]. cbn. apply IH. }
    destruct (Hreset (loginIdentifiers (rs_UserID result) ip) (limits s1)) as [r' Hr'].
    erewrite bind_ok_run by (by apply on_limits_run). unfold ignored, attempt, on_limits. cbn [limits with_limits].
    destruct (DEL (failCountKey (rs_UserID result)) r') as [r2 x]. by exists r2. }
  erewrite bind_ok_run by exact Hclear. rewrite Hv. unfold on_dom at 1. cbn [dom with_limits s1]. rewrite Hhas.
  by apply complete_fine.
Qed.
End Locks.
