(* ===== verification/AuthnGates.v ===== *)
(** * AuthnGates: step-up, debts and the protocol session *)

From S2P Require Import Prelude Text Redis Session RateLimit MfaLimit Mfa Authn SessionProps AuthnHttp AuthnProps AuthnLocks.

Section StepUp.
Context {W E : Type} (e : Engine W E) (CheckPassword : string -> string -> bool) (ttl_s : Z -> Z) (v : MFAVerifier W E) (wired : mfaVerifier e = Some v).
Abbreviation St := (AState W).
Abbreviation Op := (M St (AErr E)).

(** The password of the user, on the local provider as it is at [w]. *)
Definition password_good (ctx : Scope) (tenantID userID : Z) (clientIP password : string) (w : W) : Prop :=
  exists q u w1 w2 result, local_provider e = Some q /\ GetByID (userRepo e) ctx userID w = (w1, Ok u)
  /\ Authenticate q CheckPassword ctx
       (mkAuthRequest tenantID LocalProviderType
          (<["username"%string := ui_Username u]> (<["password"%string := password]> ∅)) clientIP "") w1 = (w2, Ok result)
  /\ Status result = AuthSuccess /\ rs_UserID result = userID.

Lemma rate_ok userID clientIP (s s' : St) : @check_mfa_rate W E ttl_s userID clientIP s = (s', Ok tt) -> dom s' = dom s.
Proof. intros Hrun. pose proof (quiet_rate (E := E) ttl_s userID clientIP s) as [_ H]. by rewrite Hrun in H. Qed.

Lemma VerifyStepUp_ok ctx userID clientIP code s s' :
  VerifyStepUp e ttl_s ctx userID clientIP code s = (s', Ok tt) -> (verify_code v ctx userID code (dom s)).2 = Ok tt.
Proof.
  unfold VerifyStepUp. rewrite wired. intros ([] & s1 & Hrate & Hrun)%bind_ok. apply rate_ok in Hrate. unfold on_dom in Hrun. rewrite Hrate in Hrun.
  destruct (verify_code v ctx userID code (dom s)) as [w [[]|err]]; [done|]. destruct (is_reused v err); [discriminate Hrun|].
  apply bind_ok in Hrun as (? & ? & _ & Hrun). discriminate Hrun.
Qed.

Lemma VerifyPasswordStepUp_ok ctx tenantID userID clientIP password s s' :
  VerifyPasswordStepUp e CheckPassword ttl_s ctx tenantID userID clientIP password s = (s', Ok tt) ->
  password_good ctx tenantID userID clientIP password (dom s).
Proof.
  unfold VerifyPasswordStepUp. destruct (local_provider e) as [q|] eqn:Hq; [|discriminate 1]. unfold on_dom at 1.
  destruct (GetByID (userRepo e) ctx userID (dom s)) as [w1 [u|err]] eqn:Hget; [|discriminate 1].
  intros ([] & s1 & Hrate & Hrun)%bind_ok. apply rate_ok in Hrate. unfold on_dom in Hrun. rewrite Hrate in Hrun. cbn [dom] in Hrun.
  destruct (Authenticate q CheckPassword ctx _ w1) as [w2 [result|err]] eqn:Hauth; cbn [negb] in Hrun.
  - destruct (bool_decide (Status result = AuthSuccess)) eqn:Hst; cbn [andb negb] in Hrun;
      [|apply bind_ok in Hrun as (? & ? & _ & Hrun); discriminate Hrun].
    destruct (rs_UserID result =? userID) eqn:Hid; cbn [negb] in Hrun; [|apply bind_ok in Hrun as (? & ? & _ & Hrun); discriminate Hrun].
    to_prop. exists q, u, w1, w2, result. by split_and!.
  - apply bind_ok in Hrun as (? & ? & _ & Hrun). discriminate Hrun.
Qed.

(** Which proof is asked for, and the state of the user domain in which it is checked. *)
Lemma StepUpMethod_cases ctx tenantID userID (s s' : St) m :
  StepUpMethod e ctx tenantID userID s = (s', Ok m) ->
  (m = StepUpMethodTOTP /\ has_verified_totp v ctx userID (dom s) = (dom s', Ok true))
  \/ (m <> StepUpMethodTOTP /\ (has_verified_totp v ctx userID (dom s)).2 <> Ok true).
Proof.
  unfold StepUpMethod, attempt, HasMFA. rewrite wired. unfold on_dom.
  destruct (has_verified_totp v ctx userID (dom s)) as [w [[]|err]] eqn:Hhas; cbn [ret throw]; intros Hrun.
  - left. unfold ret in Hrun. injection Hrun as <- <-. done.
  - right. split; [|done]. apply bind_ok in Hrun as (b & s1 & _ & Hrun). unfold ret in Hrun. injection Hrun as _ <-. by destruct b.
  - right. split; [|done]. apply bind_ok in Hrun as (b & s1 & _ & Hrun). unfold ret in Hrun. injection Hrun as _ <-. by destruct b.
Qed.

(** The window of a step-up opens on the proof the account owes. When the
    endpoint answers that all is well, there is a session behind the cookie, and for its user
    either a verified factor is on record and the verifier took the code, or
    the lookup did not find one (or failed) and the local provider took the
    password and answered with the same user. *)
Theorem step_up_needs_proof ns cookieName c body (s s' : St) ans :
  stepUpHandler e CheckPassword ttl_s ns cookieName c body s = (s', Ok ans) -> a_reply ans = OK BNil ->
  exists sid sess req s1, Cookie c cookieName = Some sid /\ GetSession e ns sid s = (s1, Ok sess) /\ body = Some req
  /\ let ctx := WithTenant (TenantID sess) None in
     (exists w, has_verified_totp v ctx (UserID sess) (dom s) = (w, Ok true) /\ (verify_code v ctx (UserID sess) (su_Code req) w).2 = Ok tt)
     \/ ((has_verified_totp v ctx (UserID sess) (dom s)).2 <> Ok true
         /\ password_good ctx (TenantID sess) (UserID sess) (ClientIP c) (su_Password req)
              (dom (StepUpMethod e ctx (TenantID sess) (UserID sess) s1).1)).
Proof.
  unfold stepUpHandler, stepUpSession. destruct (Cookie c cookieName) as [sid|] eqn:Hck; [|intros [= <- <-] [=]]. unfold attempt at 1.
  destruct (GetSession e ns sid s) as [s1 [sess|err]] eqn:Hget; [|intros [= <- <-] [=]].
  destruct body as [req|]; [|intros [= <- <-] [=]]. set (mark := attempt (on_sessions _) _).
  assert (dom s1 = dom s) as Hd.
  { unfold GetSession in Hget. apply bind_ok in Hget as (x & s2 & Hon & Hget). pose proof (quiet_sessions (E := E) (Get (sessionMgr e) (sessionPolicy e) ns sid) s) as [_ H].
    rewrite Hon in H. cbn in H. destruct x; unfold ret, throw in Hget; by simplify_eq. }
  intros (m & s2 & Hm & Hrun)%bind_ok Hok. exists sid, sess, req, s1. do 3 (split; [done|]).
  set (ctx := WithTenant (TenantID sess) None) in *. pose proof Hm as Hcases. apply StepUpMethod_cases in Hcases. rewrite Hd in Hcases.
  assert (forall err : AErr E, a_reply (writeStepUpFailure err) <> OK BNil) as Hfail
    by (intros err; unfold writeStepUpFailure, handleAuthError; by repeat case_match).
  destruct Hcases as [[-> Hhas]|[Hne Hhas]].
  - left. exists (dom s2). split; [done|]. rewrite bool_decide_eq_true_2 in Hrun by done. case_bool_decide; [injection Hrun as <- <-; discriminate Hok|].
    unfold attempt in Hrun. destruct (VerifyStepUp e ttl_s _ _ _ _ s2) as [s3 [[]|err]] eqn:Hver; [by eapply VerifyStepUp_ok|].
    exfalso. injection Hrun as <- <-. by apply (Hfail err).
  - right. split; [done|]. rewrite Hm. cbn [fst]. rewrite bool_decide_eq_false_2 in Hrun by done.
    case_bool_decide; [|injection Hrun as <- <-; discriminate Hok]. case_bool_decide; [injection Hrun as <- <-; discriminate Hok|].
    unfold attempt in Hrun. destruct (VerifyPasswordStepUp e CheckPassword ttl_s _ _ _ _ _ s2) as [s3 [[]|err]] eqn:Hver; [by eapply VerifyPasswordStepUp_ok|].
    exfalso. injection Hrun as <- <-. by apply (Hfail err).
Qed.
End StepUp.

(** ** The gates of debts *)

Section Gates.
Context {W E : Type}.
Abbreviation St := (AState W).
Abbreviation Op := (M St (AErr E)).
(** What the two lookups answer while the request is served. *)
Context (HasMFA MustChange : Z -> Op bool) (factor owed : Z -> res (AErr E) bool)
  (HasMFA_says : forall u s, (HasMFA u s).2 = factor u) (MustChange_says : forall u s, (MustChange u s).2 = owed u).

Lemma gate_verdict (g : obligationGate W E) ctx c (s : St) answer :
  (stillOwes g (CtxUserID ctx) s).2 = answer ->
  exists s', gate_handler g ctx c s = (s', Ok (
    if ctxFlag g ctx && negb (match answer with Ok false => true | _ => false end) && negb (isRemediationPath (FullPath c))
    then Stop (Forbidden (code g)) else Next ctx)).
Proof.
  intros Ha. unfold gate_handler. destruct (ctxFlag g ctx); cbn [negb andb]; [|by eexists]. unfold attempt.
  destruct (stillOwes g (CtxUserID ctx) s) as [s1 r]. cbn in Ha. subst answer.
  destruct r as [[]|err]; cbn [negb andb].
  - unfold ret. eexists. by destruct (isRemediationPath (FullPath c)).
  - unfold bind, ignored, attempt. destruct (on_sessions _ s1) as [s2 x]. by eexists.
  - unfold ret. eexists. by destruct (isRemediationPath (FullPath c)).
Qed.

(** A debt that is flagged on the session and not known to be settled. *)
Definition owes_factor (ctx : Ctx) : bool :=
  CtxMFAEnrollPending ctx && negb (match factor (CtxUserID ctx) with Ok true => true | _ => false end).
Definition owes_password (ctx : Ctx) : bool :=
  CtxPwdChangePending ctx && negb (match owed (CtxUserID ctx) with Ok false => true | _ => false end).

(** Debts are settled in any order and nothing else is reached before. Whatever
    the session owes, a request to a page where debts are settled goes through both gates; a
    request to any other page goes through exactly when no debt stands, and is
    else refused with the code of the first. A lookup that fails settles nothing. *)
Theorem gates_hold_until_settled ns ctx c (s : St) :
  exists s', obligations ns HasMFA MustChange ctx c s = (s', Ok (
    if isRemediationPath (FullPath c) then Next ctx
    else if owes_factor ctx then Stop (Forbidden CodeMFAEnrollRequired)
    else if owes_password ctx then Stop (Forbidden NumPasswordChangeRequired) else Next ctx)).
Proof.
  unfold obligations.
  destruct (gate_verdict (EnrollGateMiddleware ns (Some HasMFA)) ctx c s (match factor (CtxUserID ctx) with Ok b => Ok (negb b) | Err err => Err err end))
    as [s1 H1].
  { cbn. unfold bind. pose proof (HasMFA_says (CtxUserID ctx) s) as Hs. destruct (HasMFA (CtxUserID ctx) s) as [s1 r]. cbn in Hs. subst r.
    by destruct (factor (CtxUserID ctx)). }
  erewrite bind_ok_run by exact H1. cbn [ctxFlag code EnrollGateMiddleware]. unfold owes_factor, owes_password.
  destruct (gate_verdict (PwdGateMiddleware ns (Some MustChange)) ctx c s1 (owed (CtxUserID ctx))) as [s2 H2]; [apply MustChange_says|].
  cbn [ctxFlag code PwdGateMiddleware] in H2.
  destruct (CtxMFAEnrollPending ctx), (factor (CtxUserID ctx)) as [[]|], (isRemediationPath (FullPath c)); cbn [andb negb] in *;
    rewrite ?H2; try (by eexists); rewrite ?andb_false_r, ?andb_true_r; by eexists.
Qed.
End Gates.

(** ** High-risk operations *)

Section HighRisk.
Context {W E : Type} (e : Engine W E).
Abbreviation St := (AState W).

(** A high-risk operation of the console needs a fresh proof. When the policy
    requires second factors of the user, a request that destroys or is on the list of
    critical writes goes on only if a factor is enrolled and the session behind it
    is live and was stamped with a proof less than the window ago. *)
Theorem high_risk_needs_fresh_proof (d : StepUpDeps) ctx c now (s s' : St) ctx' :
  StepUpMiddleware e d ctx c now s = (s', Ok (Next ctx')) -> IsHighRiskConsole (Method c) (FullPath c) = true ->
  modeApplies d (su_Policy d (CtxTenantID ctx)).1 (CtxTenantID ctx) (CtxUserID ctx) = true ->
  exists s1 sess t, su_HasMFA d (CtxUserID ctx) s = (s1, Ok true)
  /\ (exists r, Get (sessionMgr e) (sessionPolicy e) (sessionNamespace ctx) (CtxSessionID ctx) (sessions s1) = (r, Ok (Some sess)))
  /\ MFAVerifiedAt sess = Some t /\ 0 < (su_Policy d (CtxTenantID ctx)).2 /\ now < t + (su_Policy d (CtxTenantID ctx)).2.
Proof.
  intros Hrun Hrisk Hmode. unfold StepUpMiddleware in Hrun. rewrite Hrisk in Hrun. cbn [negb] in Hrun.
  destruct (su_Policy d (CtxTenantID ctx)) as [mode window]. cbn [fst snd] in *. rewrite Hmode in Hrun. cbn [negb] in Hrun.
  unfold attempt in Hrun at 1. destruct (su_HasMFA d (CtxUserID ctx) s) as [s1 [[]|err]]; [|discriminate Hrun..].
  apply bind_ok in Hrun as (fresh & s2 & Hf & Hrun). destruct fresh; [|discriminate Hrun].
  unfold session_fresh, attempt, on_sessions in Hf.
  destruct (Get (sessionMgr e) (sessionPolicy e) (sessionNamespace ctx) (CtxSessionID ctx) (sessions s1)) as [r [[sess|]|err]] eqn:Hget;
    cbn in Hf; injection Hf as Hs2 Hfresh; [|discriminate Hfresh..].
  unfold StepUpFresh in Hfresh. destruct (MFAVerifiedAt sess) as [t|] eqn:Ht; [|discriminate Hfresh].
  destruct (window <=? 0) eqn:Hw; [discriminate Hfresh|]. to_prop. exists s1, sess, t. split_and!; eauto; lia.
Qed.
End HighRisk.

(** ** The protocol session *)

Section Bridge.
Context {W E : Type} (e : Engine W E) (CheckPassword : string -> string -> bool) (sha256_hex : string -> string) (pttl_ms ttl_s : Z -> Z)
  (h : Handler) (captcha_match : string -> string -> bool).
Abbreviation St := (AState W).
Abbreviation Op := (M St (AErr E)).

(** Operations that leave the sessions alone. *)
Definition no_session {A} (m : Op A) : Prop := forall s, sessions (m s).1 = sessions s.
Lemma no_session_ret {A} (a : A) : no_session (ret a). Proof. by intros s. Qed.
Lemma no_session_throw {A} err : no_session (@throw St (AErr E) A err). Proof. by intros s. Qed.
Lemma no_session_limits {A} (m : M (Redis string) RErr A) : no_session (@on_limits W E A m).
Proof. intros s. unfold on_limits. by destruct (m (limits s)). Qed.
Lemma no_session_Publish ev : no_session (@Publish W E ev). Proof. by intros s. Qed.
Lemma no_session_bind {A B} (m : Op A) (k : A -> Op B) : no_session m -> (forall a, no_session (k a)) -> no_session (bind m k).
Proof. intros Hm Hk s. unfold bind. specialize (Hm s). destruct (m s) as [s1 [a|err]]; [|exact Hm]. by rewrite (Hk a s1). Qed.
Lemma no_session_attempt {A B} (m : Op A) (k : res (AErr E) A -> Op B) : no_session m -> (forall r, no_session (k r)) -> no_session (attempt m k).
Proof. intros Hm Hk s. unfold attempt. specialize (Hm s). destruct (m s) as [s1 r]. by rewrite (Hk r s1). Qed.
Lemma no_session_run {A} (m : Op A) s s' x : no_session m -> m s = (s', x) -> sessions s' = sessions s.
Proof. intros Hm Hrun. specialize (Hm s). by rewrite Hrun in Hm. Qed.

Ltac sessionless := repeat first
  [ apply no_session_ret | apply no_session_throw | apply no_session_limits | apply no_session_Publish
  | apply no_session_bind; [|intros] | apply no_session_attempt; [|intros] | case_match ].

Lemma no_session_event result req b stage : no_session (publishLoginEvent e result req b stage).
Proof. apply no_session_bind; [apply no_session_Publish|]. intros _. unfold RecordAttempt. destruct (loginRecorder e); by intros s. Qed.

(** A sign-in that ends in a session has created it in the store it began with. *)
Lemma Login_creates ctx req ns token id (s s' : St) resp :
  Login e CheckPassword sha256_hex pttl_ms ttl_s ctx req ns token id s = (s', Ok resp) -> MFARequired resp = false ->
  exists r sess, Create (sessionMgr e) (sessionPolicy e) id ns (lr_UserID resp) (rq_TenantID req) (rq_ClientIP req) (rq_UserAgent req) (rq_AuthType req)
    (sessions s) = (r, Ok sess) /\ SessionID resp = ID sess /\ sessions s' = r.
Proof.
  unfold Authn.Login. destruct (providers e (rq_AuthType req)) as [provider|]; [|discriminate 1].
  intros Hrun Hno. apply bind_ok in Hrun as ([] & s1 & Hlock & Hrun).
  assert (sessions s1 = sessions s) as H1 by (eapply no_session_run; [|exact Hlock]; unfold checkLoginLock; sessionless).
  unfold on_dom at 1 in Hrun. destruct (authenticate _ _ _ _ _) as [w1 [result|err]]; [|discriminate Hrun].
  assert (forall s2, sessions s2 = sessions s -> completeLogin e (WithTenant (rq_TenantID req) ctx) ns req result "password" id s2 = (s', Ok resp) ->
    exists r sess, Create (sessionMgr e) (sessionPolicy e) id ns (lr_UserID resp) (rq_TenantID req) (rq_ClientIP req) (rq_UserAgent req) (rq_AuthType req)
      (sessions s) = (r, Ok sess) /\ SessionID resp = ID sess /\ sessions s' = r) as Hdone.
  { intros s2 Hs2 Hc. pose proof (completeLogin_response e _ _ _ _ _ _ _ _ _ Hc) as Hu. unfold completeLogin, on_dom in Hc.
    destruct (UpdateLastLogin _ _ _ _ _) as [w r]. apply bind_ok in Hc as (sess & s3 & Hon & Hc). unfold on_sessions in Hon. cbn [sessions] in Hon.
    rewrite Hs2 in Hon. destruct (Create _ _ _ _ _ _ _ _ _ _) as [r1 [sess'|err]] eqn:Hcr; [|discriminate Hon]. injection Hon as <- <-.
    rewrite bool_decide_eq_false_2 in Hc by done. apply bind_ok in Hc as ([] & s4 & [= <-] & Hc).
    apply bind_ok in Hc as ([] & s5 & Hev & Hc). unfold ret in Hc. injection Hc as <- <-. cbn in Hu. cbn. exists r1, sess'. split; [done|]. split; [done|].
    apply no_session_run in Hev; [by rewrite Hev | apply no_session_event]. }
  destruct (Status result).
  - apply bind_ok in Hrun as ([] & s2 & Hclear & Hrun).
    assert (sessions s2 = sessions s) as H2.
    { apply no_session_run in Hclear; [by rewrite Hclear|]. destruct (0 <? _); [|apply no_session_ret]. unfold clearFailureCountIP, ignored. sessionless. }
    destruct (mfaVerifier e) as [v|]; [|by apply (Hdone s2)]. unfold on_dom at 1 in Hrun.
    destruct (has_verified_totp v _ _ _) as [w2 [[]|err]]; [|by eapply Hdone; [|exact Hrun]|discriminate Hrun].
    apply bind_ok in Hrun as (ch & s3 & _ & Hrun). unfold ret in Hrun. injection Hrun as _ <-. discriminate Hno.
  - discriminate Hrun.
  - apply bind_ok in Hrun as ([] & s2 & _ & Hrun). discriminate Hrun.
  - apply bind_ok in Hrun as ([] & s2 & _ & Hrun). apply bind_ok in Hrun as ([] & s3 & _ & Hrun). discriminate Hrun.
  - apply bind_ok in Hrun as ([] & s2 & _ & Hrun). discriminate Hrun.
Qed.

Lemma ignored_command_other {A} (f : gmap string (RKey Session) -> Z -> gmap string (RKey Session) * res RErr A) r k :
  fine r -> ((f (rkeys r) (rclock r)).1 !! k = rkeys r !! k) ->
  exists r', ignore (command f) r = (r', Ok tt) /\ rkeys r' !! k = rkeys r !! k /\ rclock r' = rclock r /\ fine r'.
Proof. intros Hf Hk. unfold ignore, attempt. rewrite command_fine by done. eexists. split; [reflexivity|]. by split_and!. Qed.

(** A session that was just created is found, with the debts that were decided. *)
Lemma create_get m pol id ns u t ip ua ty r r1 sess :
  fine r -> known_ns ns -> uuid_like id -> Millisecond <= (resolveTimeouts m pol).2 -> 0 <= (resolveTimeouts m pol).1 ->
  Create m pol id ns u t ip ua ty r = (r1, Ok sess) ->
  fine r1 /\ ID sess = id /\ PwdChangePending sess = decided (pwdDecider m) t u
  /\ exists r2, Get m pol ns id r1 = (r2, Ok (Some sess)) /\ fine r2.
Proof.
  intros Hf Hns Hid Habs Hidle Hrun. unfold Create in Hrun. destruct (resolveTimeouts m pol) as [idle absolute] eqn:Hres. cbn [fst snd] in *.
  erewrite bind_ok_run in Hrun by reflexivity. set (sess0 := mkSession _ _ _ _ _ _ _ _ _ _ _ _ _ _) in Hrun.
  destruct (save_Get m pol sess0 r) as (ra & rb & Hsave & Hget & Hka & Hca & Hfa);
    [done | unfold sess0; cbn; unfold Millisecond in *; lia | by rewrite Hres | done |].
  erewrite bind_ok_run in Hrun by exact Hsave. cbn [Namespace ID sess0] in Hka.
  assert (fine ra) as Hfine by (intros n; rewrite Hfa; apply Hf).
  assert (sessionKey ns id <> Session.userKey ns u) as Hne by (by apply session_user_ne).
  destruct (ignored_command_other (sadd_f (Session.userKey ns u) id) ra (sessionKey ns id) Hfine) as (rc & Hsadd & Hkc & Hcc & Hfc).
  { unfold sadd_f. repeat case_match; cbn; try done; by rewrite lookup_insert_ne. }
  unfold SADD in Hrun. erewrite bind_ok_run in Hrun by exact Hsadd.
  destruct (ignored_command_other (expire_f (Session.userKey ns u) absolute) rc (sessionKey ns id) Hfc) as (rd & Hexp & Hkd & Hcd & Hfd).
  { unfold expire_f. repeat case_match; cbn; try done; by rewrite lookup_insert_ne. }
  unfold EXPIRE in Hrun. erewrite bind_ok_run in Hrun by exact Hexp. unfold ret in Hrun. injection Hrun as <- <-.
  split; [done|]. split; [done|]. split; [done|].
  unfold Get, read_or, attempt, GET. rewrite command_fine by done. unfold get_f.
  assert (peek (rkeys rd) (rclock rd) (sessionKey ns id) = Some (mkRKey (RStr sess0) (Some (rclock r + px (ExpiresAt sess0 - rclock r))))) as ->.
  { apply peek_Some. rewrite Hkd, Hkc, Hka. split; [apply lookup_insert_eq|]. apply Z.ltb_lt. rewrite Hcd, Hcc, Hca.
    unfold sess0. cbn [ExpiresAt]. destruct (px_le (rclock r + absolute - rclock r)) as [Hp _]; unfold Millisecond in *; lia. }
  cbn [fst snd]. unfold bind, Session.Now, gets. cbn [rclock]. rewrite Hres. unfold sess0 at 1 2. cbn [ExpiresAt LastActiveAt].
  rewrite Hcd, Hcc, Hca. destruct (Z.ltb_spec (rclock r + absolute) (rclock r)); [unfold Millisecond in *; lia|].
  destruct (Z.ltb_spec (rclock r + idle) (rclock r)); [lia|]. cbn [orb]. unfold ret. eexists. split; [reflexivity|]. done.
Qed.

Lemma captcha_sessions c req : no_session (captcha_gate e sha256_hex h captcha_match c req).
Proof.
  unfold captcha_gate. apply no_session_bind.
  - unfold LoginFailureCount. sessionless.
  - intros require. unfold captcha_Verify, store_Get, ignored. sessionless.
Qed.

Lemma captcha_refusal c req (s s1 : St) b : captcha_gate e sha256_hex h captcha_match c req s <> (s1, Ok (Some (OK b))).
Proof.
  unfold captcha_gate. intros (require & s2 & _ & Hrun)%bind_ok.
  destruct require, (negb _ && negb _); try discriminate Hrun; apply bind_ok in Hrun as (good & s3 & _ & Hrun);
    destruct good; unfold ret in Hrun; by injection Hrun.
Qed.

(** The cookies of a login whose session is in place. *)
Lemma finalize_proto c ns cookieName resp ty remember protoID s sess :
  fine (sessions s) -> cookieName <> CookieProto ->
  (exists r2, Get (sessionMgr e) (sessionPolicy e) ns (SessionID resp) (sessions s) = (r2, Ok (Some sess)) /\ fine r2) ->
  exists s' jar, finalizeLoginCookies e h c ns cookieName resp ty remember protoID s = (s', Ok jar)
  /\ ((exists ck, ck ∈ jar /\ ck_name ck = CookieProto) <-> PwdChangePending sess = false).
Proof.
  intros Hf Hname (r2 & Hget & Hf2). unfold finalizeLoginCookies, attempt, GetSession, bind, on_sessions. rewrite Hget.
  unfold ret at 1. cbn [sessions].
  assert (ck_name (setSessionCookieWithRemember h cookieName (SessionID resp) remember) = cookieName) as Hspa by done.
  set (spa := setSessionCookieWithRemember h cookieName (SessionID resp) remember) in *.
  destruct (PwdChangePending sess); cbn [ret].
  - unfold ret. eexists _, _. split; [reflexivity|]. split; [|done]. intros (ck & Hin & Hck). apply list_elem_of_singleton in Hin. congruence.
  - edestruct (create_fine (sessionMgr e) (sessionPolicy e) protoID NamespaceProtocol (lr_UserID resp)
      (if lr_TenantID resp <=? 0 then h_tenantID h else lr_TenantID resp) (ClientIP c) (UserAgent c) ty r2 Hf2) as (r3 & ps & Hc & _).
    cbn [sessions ret]. unfold ret. cbn match. cbn [sessions]. rewrite Hc. eexists _, _. split; [reflexivity|]. split; [done|]. intros _. eexists. split; [right; by left | done].
Qed.

(** Who owes a password has no session with the protocols. A sign-in without a
    second factor, while the store works, hands out the cookie of the protocol session exactly
    when no change of password is owed; whether an enrollment is owed does not
    matter. *)
Theorem protocol_cookie_iff_no_password_debt ns c req d (s s' : St) ans resp :
  fine (sessions s) -> ns = NamespaceConsole \/ ns = NamespacePortal -> uuid_like (d_session d) ->
  Millisecond <= (resolveTimeouts (sessionMgr e) (sessionPolicy e)).2 -> 0 <= (resolveTimeouts (sessionMgr e) (sessionPolicy e)).1 ->
  loginHandler e CheckPassword sha256_hex pttl_ms ttl_s h captcha_match ns (cookieForNamespace ns) c (Some req) d s = (s', Ok ans) ->
  a_reply ans = OK (BLogin resp) -> MFARequired resp = false ->
  (exists ck, ck ∈ a_cookies ans /\ ck_name ck = CookieProto)
  <-> decided (pwdDecider (sessionMgr e)) (effectiveTenant h req) (lr_UserID resp) = false.
Proof.
  intros Hf Hns Hid Habs Hidle Hrun Hok Hmfa. unfold loginHandler in Hrun. apply bind_ok in Hrun as (refused & s1 & Hcap & Hrun).
  apply no_session_run in Hcap as H1; [|apply captcha_sessions].
  destruct refused as [r|]; [injection Hrun as <- <-; cbn in Hok; subst r; by apply captcha_refusal in Hcap|].
  destruct (match methodGate h with Some gate => gate _ | None => false end); [injection Hrun as <- <-; discriminate Hok|].
  unfold attempt in Hrun. destruct (Login _ _ _ _ _ _ _ _ _ _ s1) as [s2 [resp'|err]] eqn:Hlogin.
  2: { injection Hrun as <- <-. exfalso. unfold handleAuthError in Hok. repeat case_match; cbn in Hok; discriminate Hok. }
  destruct (MFARequired resp') eqn:Hm; [injection Hrun as <- <-; cbn in Hok; congruence|].
  apply Login_creates in Hlogin as (r & sess & Hc & Hsid & Hs2); [|done]. rewrite H1 in Hc.
  assert (known_ns ns) as Hkn by (destruct Hns as [-> | ->]; unfold known_ns; auto).
  apply create_get in Hc as (Hfr & Hid' & Hpwd & r2 & Hget & Hf2); [|done..].
  destruct (finalize_proto c ns (cookieForNamespace ns) resp' (rq_AuthType (login_request h c req)) (lq_Remember req) (d_proto d) s2 sess)
    as (s3 & jar & Hfin & Hiff).
  { by rewrite Hs2. }
  { by destruct Hns as [-> | ->]. }
  { exists r2. by rewrite Hs2, Hsid, Hid'. }
  erewrite bind_ok_run in Hrun by exact Hfin. apply bind_ok in Hrun as ([] & s4 & _ & Hrun). injection Hrun as <- <-. cbn in Hok. injection Hok as <-.
  cbn [a_cookies]. rewrite Hpwd in Hiff. rewrite <- Hiff. split; intros (ck & Hin & Hck); exists ck; (split; [|done]).
  - apply elem_of_app in Hin as [Hin|Hin]; [done|]. unfold rememberDevice in Hin. case_match; [by apply not_elem_of_nil in Hin|].
    apply list_elem_of_singleton in Hin. subst ck. discriminate Hck.
  - apply elem_of_app. by left.
Qed.
End Bridge.
