(* ===== verification/AuthnRuns.v ===== *)
(** * AuthnRuns: concrete runs of signing in

    The engine wired to the second factors of Mfa.v. *)

From S2P Require Import Prelude Text Redis Session RateLimit MfaLimit Mfa MfaProps MfaCodes Authn SessionProps AuthnHttp.
From S2P Require Import AuthnProps AuthnLocks AuthnGates.

Module AuthnDemo.
Abbreviation U := (UState Z).

(** One user of tenant 1, whose password is "secret". *)
Definition ann : UserAuth := mkUserAuth 7 "ann" "Ann" "hsecret" statusActive.
Definition querier : UserAuthQuerier U UErr :=
  mkUserAuthQuerier U UErr
    (fun _ t name => if (t =? 1) && bool_decide (name = "ann"%string) then ret ann else throw ErrRecordNotFound)
    (fun _ _ _ => throw ErrRecordNotFound).
Definition repo : UserQuerier U UErr :=
  mkUserQuerier U UErr (fun _ u => if u =? 7 then ret (mkUserInfo 7 "ann" "Ann" "" 1) else throw ErrRecordNotFound) (fun _ _ _ => ret tt).
Definition check (password hash : string) : bool := bool_decide (hash = "h" +:+ password).
Definition verifier : MFAVerifier U UErr :=
  userMFAVerifierAdapter (Some MfaDemo.key) true true MfaDemo.valid MfaDemo.compare MfaDemo.ident MfaDemo.ident.
Definition limiter : Config := mkConfig "login" 3 (5 * Minute) (15 * Minute) false.
(** Every account owes a factor, none a password. *)
Definition manager : Manager := mkManager (30 * Minute) (24 * Hour) (Some (fun _ _ => true)) (Some (fun _ _ => false)).
Definition engine : Engine U UErr :=
  mkEngine (fun ty => if bool_decide (ty = LocalProviderType) then Some (Local querier) else None)
    repo (Some verifier) (Some limiter) (3, 15 * Minute) None true manager None.

(** A digest of 64 characters that tells users and the address apart. *)
Definition hex (s : string) : string :=
  (if HasPrefix s "u:" then "0" else "1") +:+ "123456789abcdef0123456789abcdef0123456789abcdef0123456789abcdef".
Lemma hex64 x : String.length (hex x) = 64%nat.
Proof. unfold hex. by destruct (HasPrefix x "u:"). Qed.
Lemma hex_apart u : hex ("u:" +:+ dec u) <> hex ("ip:" +:+ "10.0.0.1").
Proof.
  unfold hex. rewrite HasPrefix_app.
  assert (HasPrefix ("ip:" +:+ "10.0.0.1") "u:" = false) as -> by reflexivity. intros H. discriminate H.
Qed.

Definition empty {V} (t : Z) : Redis V := mkRedis ∅ t (fun _ => Fine) 0.
Definition at_start (w : U) : AState U := mkAState w (empty 0) (empty 0) (empty 0) [] [].
Definition request (ip password : string) : AuthRequest :=
  mkAuthRequest 1 LocalProviderType (<["username"%string := "ann"%string]> (<["password"%string := password]> ∅)) ip "ua".

Abbreviation login := (Login engine check hex RateDemo.pttl RateDemo.ttl).
Abbreviation challenge := (VerifyMFAChallenge engine RateDemo.ttl (fun _ => ""%string)).
Definition portal : string := NamespacePortal.

(** The password, then the code of the moment. *)
Definition first_step : list (Call) := [CLogin (W := U) None (request "10.0.0.1" "secret") portal (Some "tok"%string) "sid1"].
Definition asked : AState U := at_start MfaDemo.later.

Lemma both_factors_witness :
  exists p, vouched engine check hex RateDemo.pttl RateDemo.ttl (fun _ => ""%string) verifier asked first_step "tok" p /\ 7 = ch_UserID p
  /\ (verify_code verifier (WithTenant (ch_TenantID p) None) (ch_UserID p) "JBSW56666668"
        (dom (run engine check hex RateDemo.pttl RateDemo.ttl (fun _ => ""%string) first_step asked))).2 = Ok tt.
Proof.
  refine (session_needs_both_factors engine check hex RateDemo.pttl RateDemo.ttl (fun _ => ""%string) verifier eq_refl asked first_step None "tok"
    "JBSW56666668" "sid2" _ (mkLoginResponse 7 1 "ann" "Ann" "sid2" false [] "") eq_refl _).
  apply run_result. vm_compute. reflexivity.
Defined.

(** Wrong passwords from one address, a second apart. *)
Definition wrong (t : Z) : Try := mkTry (t * Second) None (request "10.0.0.1" "nope") portal None "sid".
Definition quiet_world : AState U := at_start MfaDemo.start.

Lemma config_valid : config_ok limiter.
Proof. unfold config_ok. vm_compute. repeat split; intros H; discriminate H. Qed.

Abbreviation trying := (try_at engine check hex RateDemo.pttl RateDemo.ttl).
Abbreviation tried := (tries engine check hex RateDemo.pttl RateDemo.ttl).
Lemma wrong_rejected t s : dom s = MfaDemo.start -> rejected engine check "10.0.0.1" (wrong t) s.
Proof.
  intros Hd. split; [done|]. rewrite Hd. exists (Local querier), MfaDemo.start, (mkAuthResult 7 "ann" "" AuthFailed). vm_compute. split_and!; reflexivity.
Qed.
Lemma wrong_all : all_rejected engine check hex RateDemo.pttl RateDemo.ttl "10.0.0.1" [wrong 0; wrong 1; wrong 2] quiet_world.
Proof. repeat split; apply wrong_rejected; vm_compute; reflexivity. Qed.

(** The right password from the locked address, ten minutes into the lock. *)
Lemma scan_locks_witness :
  exists err s', trying (mkTry (600 * Second) None (request "10.0.0.1" "secret") portal None "sid") (tried [wrong 0; wrong 1; wrong 2] quiet_world)
    = (s', Err (ErrAccountLocked (Some err)))
  /\ 0 < RetryAfter err /\ dom s' = dom (tried [wrong 0; wrong 1; wrong 2] quiet_world).
Proof.
  refine (scan_locks_the_address engine check hex RateDemo.pttl RateDemo.ttl RateDemo.pttl_pos RateDemo.ttl_pos limiter eq_refl config_valid
    "10.0.0.1" ltac:(discriminate) hex64 hex_apart quiet_world (wrong 0) [wrong 1] (wrong 2) (mkTry (600 * Second) None (request "10.0.0.1" "secret") portal None "sid")
    (fun _ => eq_refl) eq_refl eq_refl eq_refl _ wrong_all eq_refl _ _).
  - repeat constructor; reflexivity.
  - intros H. vm_compute in H. discriminate H.
  - vm_compute. intros H. discriminate H.
Defined.

(** Three failures from elsewhere have locked the user; the address is its own. *)
Definition elsewhere (t : Z) : Try := mkTry (t * Second) None (request "10.0.0.9" "nope") portal None "sid".
Definition hex' (s : string) : string :=
  (if bool_decide (s = "ip:10.0.0.1"%string) then "0" else if bool_decide (s = "ip:10.0.0.9"%string) then "2" else "1")
  +:+ "123456789abcdef0123456789abcdef0123456789abcdef0123456789abcdef".
Definition attacked : AState U := tries engine check hex' RateDemo.pttl RateDemo.ttl [elsewhere 0; elsewhere 1; elsewhere 2] quiet_world.

Lemma locked_user_witness :
  exists s' resp, Login engine check hex' RateDemo.pttl RateDemo.ttl None (request "10.0.0.1" "secret") portal None "sid9" attacked = (s', Ok resp)
  /\ SessionID resp = "sid9"%string.
Proof.
  assert ((RateLimit.Check hex' RateDemo.ttl limiter ("u:" +:+ dec 7) (limits attacked)).2
          = Ok (Some (mkRateLimitError "login" "u:7" (15 * Minute)))) as Hlocked by (vm_compute; reflexivity).
  assert (dom attacked = MfaDemo.start) as Hdom by (vm_compute; reflexivity).
  refine (locked_user_signs_in engine check hex' RateDemo.pttl RateDemo.ttl limiter eq_refl "10.0.0.1" ltac:(discriminate) None
    (request "10.0.0.1" "secret") portal None "sid9" attacked (Local querier) MfaDemo.start
    (fst (has_verified_totp verifier (Some 1) 7 MfaDemo.start)) (mkAuthResult 7 "ann" "Ann" AuthSuccess) verifier _
    eq_refl (fun _ => eq_refl) (fun _ => eq_refl) _ eq_refl _ eq_refl eq_refl _ Hlocked).
  - vm_compute. reflexivity.
  - rewrite Hdom. vm_compute. reflexivity.
  - apply run_result. vm_compute. reflexivity.
Defined.

(** ** The endpoints *)

Definition handler : Handler := mkHandler 1 None true false None None None false None (Some (fun _ => 3)).
Definition http (ck : gmap string string) (method path : string) : Request := mkRequest ck method path "10.0.0.1" "ua".
Definition draws : Draws := mkDraws (Some "tok"%string) "sid1" "sid2" None.
Definition form : LoginRequest := mkLoginRequest "ann" "secret" "" "" "" false "".
Abbreviation post_login := (loginHandler engine check hex RateDemo.pttl RateDemo.ttl handler (fun a b => bool_decide (a = b))).

Definition signed_in : AState U * res (AErr UErr) Answer := post_login NamespacePortal (cookieForNamespace NamespacePortal) (http ∅ "POST" "/login") (Some form) draws quiet_world.
Definition cookie_jar : gmap string string := <[CookiePortal := "sid1"%string]> (<[CookieProto := "sid2"%string]> ∅).
Definition response : LoginResponse := mkLoginResponse 7 1 "ann" "Ann" "sid1" false [] "".

Lemma sid1_uuid : uuid_like "sid1".
Proof. intros rest H. discriminate H. Qed.

(** Ann owes an enrollment, which the session says; the protocol cookie is set. *)
Lemma protocol_cookie_witness :
  MFAEnrollPending <$> (match (Get manager None NamespacePortal "sid1" (sessions signed_in.1)).2 with Ok o => o | Err _ => None end) = Some true
  /\ (exists ck, ck ∈ (match signed_in.2 with Ok ans => a_cookies ans | Err _ => [] end) /\ ck_name ck = CookieProto).
Proof.
  split; [vm_compute; reflexivity|].
  assert (exists s' ans, signed_in = (s', Ok ans) /\ a_reply ans = OK (BLogin response)) as (s' & ans & Hrun & Hok).
  { eexists _, _. split; [apply run_result; vm_compute; reflexivity | reflexivity]. }
  rewrite Hrun. unfold signed_in in Hrun.
  refine (proj2 (protocol_cookie_iff_no_password_debt engine check hex RateDemo.pttl RateDemo.ttl handler _ NamespacePortal _ form draws
    quiet_world s' ans response (fun _ => eq_refl) (or_intror eq_refl) sid1_uuid _ _ Hrun Hok eq_refl) eq_refl); vm_compute; intros H; discriminate H.
Defined.

(** Without a factor, the password opens the window. *)
Lemma step_up_witness :
  exists sid sess req s1, Cookie (http cookie_jar "POST" "/step-up") CookiePortal = Some sid
  /\ GetSession engine NamespacePortal sid signed_in.1 = (s1, Ok sess) /\ Some (mkStepUpRequest "" "secret") = Some req
  /\ ((exists w, has_verified_totp verifier (WithTenant (TenantID sess) None) (UserID sess) (dom signed_in.1) = (w, Ok true)
          /\ (verify_code verifier (WithTenant (TenantID sess) None) (UserID sess) (su_Code req) w).2 = Ok tt)
      \/ ((has_verified_totp verifier (WithTenant (TenantID sess) None) (UserID sess) (dom signed_in.1)).2 <> Ok true
          /\ password_good engine check (WithTenant (TenantID sess) None) (TenantID sess) (UserID sess) "10.0.0.1" (su_Password req)
               (dom (StepUpMethod engine (WithTenant (TenantID sess) None) (TenantID sess) (UserID sess) s1).1))).
Proof.
  refine (step_up_needs_proof engine check RateDemo.ttl verifier eq_refl NamespacePortal CookiePortal (http cookie_jar "POST" "/step-up")
    (Some (mkStepUpRequest "" "secret")) signed_in.1 _ (reply (OK BNil)) _ eq_refl).
  apply run_result. vm_compute. reflexivity.
Defined.

(** With a verified factor and a database that fails the lookup, the password opens it too. *)
Definition enrolled_elsewhere : AState U :=
  let s := signed_in.1 in
  mkAState (mkUState (mkStore (sdb (udb MfaDemo.later)) (fun n => (n =? 0)%nat) 0) (ukv MfaDemo.later)) (limits s) (challenges s) (sessions s) [] [].
Lemma outage_downgrades_step_up :
  mf_Verified <$> mfas (sdb (udb (dom enrolled_elsewhere))) !! (7, MFATypeTotp) = Some true
  /\ (stepUpHandler engine check RateDemo.ttl NamespacePortal CookiePortal (http cookie_jar "POST" "/step-up")
        (Some (mkStepUpRequest "" "secret")) enrolled_elsewhere).2 = Ok (reply (OK BNil)).
Proof. vm_compute. split; reflexivity. Qed.

(** Both debts, on a page that settles neither. *)
Definition debtor : Ctx := mkCtx 7 1 "sid1" NamespacePortal true true.
Lemma gates_witness :
  exists s', obligations (E := UErr) NamespacePortal (fun _ => ret true) (fun _ => ret true) debtor (http cookie_jar "GET" "/api/v1/portal/apps") signed_in.1
    = (s', Ok (Stop (Forbidden NumPasswordChangeRequired))).
Proof.
  exact (gates_hold_until_settled (W := U) (E := UErr) (fun _ => ret true) (fun _ => ret true) (fun _ => Ok true) (fun _ => Ok true)
    (fun _ _ => eq_refl) (fun _ _ => eq_refl) NamespacePortal debtor (http cookie_jar "GET" "/api/v1/portal/apps") signed_in.1).
Defined.

(** A session of an administrator, stamped at its login. *)
Definition deps : StepUpDeps (W := U) (E := UErr) := mkStepUpDeps (fun _ => ("all"%string, 5 * Minute)) None (fun _ => ret true).
Definition admin : Ctx := mkCtx 7 1 "sid1" NamespacePortal false false.
Definition stamped : AState U := (on_sessions (E := UErr) (MarkMFAVerified NamespacePortal "sid1") signed_in.1).1.
Lemma high_risk_witness :
  exists s1 sess t, su_HasMFA deps 7 stamped = (s1, Ok true)
  /\ (exists r, Get manager None NamespacePortal "sid1" (sessions s1) = (r, Ok (Some sess)))
  /\ MFAVerifiedAt sess = Some t /\ 0 < 5 * Minute /\ 60 * Second < t + 5 * Minute.
Proof.
  refine (high_risk_needs_fresh_proof engine deps admin (http cookie_jar "DELETE" "/api/v1/console/users/:id") (60 * Second) stamped _ admin _ _ eq_refl).
  - apply run_result. vm_compute. reflexivity.
  - vm_compute. reflexivity.
Defined.
End AuthnDemo.
