(* ===== verification/OidcJson.v ===== *)
(** * OidcJson: what the OpenID provider stores

    The structs of src/internal/protocol/oidcop/authrequest.go and tokens.go and
    the JSON documents they become in Redis, written and read back through their
    struct tags: decoding what was marshalled gives the struct again. *)

From S2P Require Import Prelude Text Redis.

(** ** encoding/json *)

(** The members that occur; a time is its distance to the epoch in nanoseconds. *)
Inductive Json : Type :=
| JStr (s : string)
| JStrs (l : list string)
| JBool (b : bool)
| JUint (n : Z)
| JTime (t : Z)
| JObj (fields : list (string * Json)).

Abbreviation Fields := (list (string * Json)).

(** What a key holds: an object, or text that is no JSON document. *)
Inductive Doc : Type :=
| DObj (fields : Fields)
| DText (s : string).

(** The zero [time.Time]: January 1, year 1. *)
Definition zeroTime : Z := -62135596800 * Second.

Fixpoint member (k : string) (fs : Fields) : option Json :=
  match fs with
  | [] => None
  | (k', v) :: fs' => if String.eqb k k' then Some v else member k fs'
  end.

(** Decoding into a zero struct: a member that is missing, or of another type,
    leaves its field as it was. *)
Definition fstr (k : string) (fs : Fields) : string :=
  match member k fs with Some (JStr s) => s | _ => "" end.
Definition fstrs (k : string) (fs : Fields) : list string :=
  match member k fs with Some (JStrs l) => l | _ => [] end.
Definition fbool (k : string) (fs : Fields) : bool :=
  match member k fs with Some (JBool b) => b | _ => false end.
Definition ftime (k : string) (fs : Fields) : Z :=
  match member k fs with Some (JTime t) => t | _ => zeroTime end.
Definition fuint (k : string) (fs : Fields) : option Z :=
  match member k fs with Some (JUint n) => Some n | _ => None end.

(** The types of a struct's fields, for the error json.Unmarshal reports at the end. *)
Inductive Kind : Type := KStr | KStrs | KBool | KUint | KTime | KObj.

Definition kind_of (v : Json) : Kind :=
  match v with
  | JStr _ => KStr | JStrs _ => KStrs | JBool _ => KBool
  | JUint _ => KUint | JTime _ => KTime | JObj _ => KObj
  end.
#[export] Instance Kind_eq_dec : EqDecision Kind.
Proof. solve_decision. Defined.

Definition typed_member (fs : Fields) (f : string * Kind) : bool :=
  match member f.1 fs with Some v => bool_decide (kind_of v = f.2) | None => true end.

(** [omitempty] *)
Definition omit_str (k s : string) : Fields := if decide (s = "") then [] else [(k, JStr s)].
Definition omit_strs (k : string) (l : list string) : Fields := match l with [] => [] | _ => [(k, JStrs l)] end.
Definition omit_bool (k : string) (b : bool) : Fields := if b then [(k, JBool true)] else [].

(** A struct that is stored: what json.Marshal writes, the value json.Unmarshal
    leaves in a zero struct, and whether it reports no error. *)
Class Document (A : Type) : Type := {
  marshal : A -> Doc;
  decode : Doc -> A;
  decodes : Doc -> bool;
  decode_marshal a : decode (marshal a) = a;
  decodes_marshal a : decodes (marshal a) = true
}.

Definition fields_of (d : Doc) : Fields := match d with DObj fs => fs | DText _ => [] end.
Definition decodes_as (sig : list (string * Kind)) (d : Doc) : bool :=
  match d with DObj fs => forallb (typed_member fs) sig | DText _ => false end.

(** ** The stored structs *)

Record codeChallenge : Type := mkCodeChallenge { Challenge : string; Method : string }.

Record authRequest : Type := mkAuthRequest {
  q_ID : string; q_CreationDate : Z; q_ClientID : string; CallbackURI : string; TransferState : string;
  Prompt : list string; LoginHint : string; MaxAuthAgeSec : option Z; q_UserID : string;
  q_Scopes : list string; q_Audience : list string; ResponseType : string; ResponseMode : string;
  Nonce : string; CodeChallenge : option codeChallenge; q_AMR : list string; ACR : string;
  IsDone : bool; AuthAt : Z; q_SessionID : string; IdpInitiated : bool
}.

Record accessToken : Type := mkAccessToken {
  t_ID : string; t_ClientID : string; Subject : string; RefreshTokenID : string;
  t_Audience : list string; t_Scopes : list string; t_Expiration : Z
}.

Record refreshToken : Type := mkRefreshToken {
  f_ID : string; Token : string; f_AuthTime : Z; f_AMR : list string; f_Audience : list string;
  f_UserID : string; f_ClientID : string; f_Scopes : list string; AccessTokenID : string;
  f_SessionID : string; FamilyID : string; f_Expiration : Z
}.

Record consumedMarker : Type := mkConsumedMarker {
  m_FamilyID : string; m_UserID : string; m_ClientID : string
}.

Definition authRequest_fields (a : authRequest) : Fields :=
  [("id", JStr (q_ID a)); ("creation_date", JTime (q_CreationDate a)); ("client_id", JStr (q_ClientID a));
   ("callback_uri", JStr (CallbackURI a)); ("transfer_state", JStr (TransferState a))]%string
  ++ omit_strs "prompt" (Prompt a) ++ omit_str "login_hint" (LoginHint a)
  ++ match MaxAuthAgeSec a with Some n => [("max_auth_age_sec"%string, JUint n)] | None => [] end
  ++ omit_str "user_id" (q_UserID a) ++ omit_strs "scopes" (q_Scopes a) ++ omit_strs "audience" (q_Audience a)
  ++ [("response_type", JStr (ResponseType a))]%string
  ++ omit_str "response_mode" (ResponseMode a) ++ omit_str "nonce" (Nonce a)
  ++ match CodeChallenge a with
     | Some c => [("code_challenge", JObj [("challenge", JStr (Challenge c)); ("method", JStr (Method c))])]%string
     | None => []
     end
  ++ omit_strs "amr" (q_AMR a) ++ omit_str "acr" (ACR a)
  ++ [("is_done", JBool (IsDone a)); ("auth_at", JTime (AuthAt a))]%string
  ++ omit_str "session_id" (q_SessionID a) ++ omit_bool "idp_initiated" (IdpInitiated a).

Definition accessToken_fields (a : accessToken) : Fields :=
  [("id", JStr (t_ID a)); ("client_id", JStr (t_ClientID a)); ("subject", JStr (Subject a))]%string
  ++ omit_str "refresh_token_id" (RefreshTokenID a) ++ omit_strs "audience" (t_Audience a)
  ++ omit_strs "scopes" (t_Scopes a) ++ [("expiration", JTime (t_Expiration a))]%string.

Definition refreshToken_fields (r : refreshToken) : Fields :=
  [("id", JStr (f_ID r)); ("token", JStr (Token r)); ("auth_time", JTime (f_AuthTime r))]%string
  ++ omit_strs "amr" (f_AMR r) ++ omit_strs "audience" (f_Audience r)
  ++ [("user_id", JStr (f_UserID r)); ("client_id", JStr (f_ClientID r))]%string
  ++ omit_strs "scopes" (f_Scopes r) ++ omit_str "access_token_id" (AccessTokenID r)
  ++ omit_str "session_id" (f_SessionID r) ++ omit_str "family_id" (FamilyID r)
  ++ [("expiration", JTime (f_Expiration r))]%string.

Definition consumedMarker_fields (m : consumedMarker) : Fields :=
  [("family_id", JStr (m_FamilyID m)); ("user_id", JStr (m_UserID m)); ("client_id", JStr (m_ClientID m))]%string.

Definition decode_codeChallenge (fs : Fields) : option codeChallenge :=
  match member "code_challenge" fs with
  | Some (JObj o) => Some (mkCodeChallenge (fstr "challenge" o) (fstr "method" o))
  | _ => None
  end.

Definition decode_authRequest (fs : Fields) : authRequest :=
  mkAuthRequest (fstr "id" fs) (ftime "creation_date" fs) (fstr "client_id" fs) (fstr "callback_uri" fs)
    (fstr "transfer_state" fs) (fstrs "prompt" fs) (fstr "login_hint" fs) (fuint "max_auth_age_sec" fs)
    (fstr "user_id" fs) (fstrs "scopes" fs) (fstrs "audience" fs) (fstr "response_type" fs)
    (fstr "response_mode" fs) (fstr "nonce" fs) (decode_codeChallenge fs) (fstrs "amr" fs) (fstr "acr" fs)
    (fbool "is_done" fs) (ftime "auth_at" fs) (fstr "session_id" fs) (fbool "idp_initiated" fs).

Definition decode_accessToken (fs : Fields) : accessToken :=
  mkAccessToken (fstr "id" fs) (fstr "client_id" fs) (fstr "subject" fs) (fstr "refresh_token_id" fs)
    (fstrs "audience" fs) (fstrs "scopes" fs) (ftime "expiration" fs).

Definition decode_refreshToken (fs : Fields) : refreshToken :=
  mkRefreshToken (fstr "id" fs) (fstr "token" fs) (ftime "auth_time" fs) (fstrs "amr" fs) (fstrs "audience" fs)
    (fstr "user_id" fs) (fstr "client_id" fs) (fstrs "scopes" fs) (fstr "access_token_id" fs)
    (fstr "session_id" fs) (fstr "family_id" fs) (ftime "expiration" fs).

Definition decode_consumedMarker (fs : Fields) : consumedMarker :=
  mkConsumedMarker (fstr "family_id" fs) (fstr "user_id" fs) (fstr "client_id" fs).

(** *** Members of a marshalled struct *)

Lemma member_cons_ne k k' v fs : String.eqb k k' = false -> member k ((k', v) :: fs) = member k fs.
Proof. intros H. simpl. by rewrite H. Qed.
Lemma member_str_ne k k' s fs : String.eqb k k' = false -> member k (omit_str k' s ++ fs) = member k fs.
Proof. intros H. unfold omit_str. case_decide; [done|]. by apply member_cons_ne. Qed.
Lemma member_strs_ne k k' l fs : String.eqb k k' = false -> member k (omit_strs k' l ++ fs) = member k fs.
Proof. intros H. destruct l; [done|]. by apply member_cons_ne. Qed.
Lemma member_bool_ne k k' b fs : String.eqb k k' = false -> member k (omit_bool k' b ++ fs) = member k fs.
Proof. intros H. destruct b; [|done]. by apply member_cons_ne. Qed.
Lemma member_bool_last k k' b : String.eqb k k' = false -> member k (omit_bool k' b) = None.
Proof. intros H. destruct b; [|done]. by apply member_cons_ne. Qed.
Lemma member_opt_ne {A} k k' (f : A -> Json) (o : option A) fs :
  String.eqb k k' = false ->
  member k (match o with Some x => [(k', f x)] | None => [] end ++ fs) = member k fs.
Proof. intros H. destruct o; [|done]. by apply member_cons_ne. Qed.

(** Walks to the member looked up, past the members of other names. *)
Ltac to_member :=
  repeat first
    [ rewrite member_cons_ne by reflexivity | rewrite member_str_ne by reflexivity
    | rewrite member_strs_ne by reflexivity | rewrite member_bool_ne by reflexivity
    | rewrite member_bool_last by reflexivity
    | rewrite (member_opt_ne _ "max_auth_age_sec") by reflexivity
    | rewrite (member_opt_ne _ "code_challenge") by reflexivity
    | progress cbn [app] ].
(** The member is there, or its field is zero and no later member has the name. *)
Ltac at_member :=
  to_member;
  lazymatch goal with
  | |- context [member _ (omit_str _ ?s ++ _)] => unfold omit_str at 1; destruct (decide (s = ""%string)) as [->|?]
  | |- context [member _ (omit_strs _ ?l ++ _)] => destruct l
  | |- context [member _ (omit_bool _ ?b)] => destruct b
  | |- context [member _ (match ?o with Some _ => _ | None => _ end ++ _)] => destruct o as [[]|] || destruct o as [?|]
  | _ => idtac
  end; cbn [app omit_strs omit_bool]; to_member; try reflexivity; by rewrite ?String.eqb_refl.
Ltac decoded := unfold fstr, fstrs, fbool, ftime, fuint, decode_codeChallenge; at_member.

Lemma authRequest_roundtrip a : decode_authRequest (authRequest_fields a) = a.
Proof. destruct a. unfold decode_authRequest, authRequest_fields. cbn. f_equal; decoded. Qed.

Lemma accessToken_roundtrip a : decode_accessToken (accessToken_fields a) = a.
Proof. destruct a. unfold decode_accessToken, accessToken_fields. cbn. f_equal; decoded. Qed.
Lemma refreshToken_roundtrip a : decode_refreshToken (refreshToken_fields a) = a.
Proof. destruct a. unfold decode_refreshToken, refreshToken_fields. cbn. f_equal; decoded. Qed.
Lemma consumedMarker_roundtrip a : decode_consumedMarker (consumedMarker_fields a) = a.
Proof. by destruct a. Qed.

(** *** json.Unmarshal reports no error on what json.Marshal wrote *)

Ltac well_typed_members :=
  cbn [forallb]; repeat (apply andb_true_intro; split); try reflexivity;
  unfold typed_member; cbn [fst snd]; at_member.

Definition authRequest_sig : list (string * Kind) :=
  [("id", KStr); ("creation_date", KTime); ("client_id", KStr); ("callback_uri", KStr); ("transfer_state", KStr);
   ("prompt", KStrs); ("login_hint", KStr); ("max_auth_age_sec", KUint); ("user_id", KStr); ("scopes", KStrs);
   ("audience", KStrs); ("response_type", KStr); ("response_mode", KStr); ("nonce", KStr); ("code_challenge", KObj);
   ("amr", KStrs); ("acr", KStr); ("is_done", KBool); ("auth_at", KTime); ("session_id", KStr);
   ("idp_initiated", KBool)]%string.
Definition accessToken_sig : list (string * Kind) :=
  [("id", KStr); ("client_id", KStr); ("subject", KStr); ("refresh_token_id", KStr); ("audience", KStrs);
   ("scopes", KStrs); ("expiration", KTime)]%string.
Definition refreshToken_sig : list (string * Kind) :=
  [("id", KStr); ("token", KStr); ("auth_time", KTime); ("amr", KStrs); ("audience", KStrs); ("user_id", KStr);
   ("client_id", KStr); ("scopes", KStrs); ("access_token_id", KStr); ("session_id", KStr); ("family_id", KStr);
   ("expiration", KTime)]%string.
Definition consumedMarker_sig : list (string * Kind) :=
  [("family_id", KStr); ("user_id", KStr); ("client_id", KStr)]%string.

(** The nested struct. *)
Definition codeChallenge_decodes (fs : Fields) : bool :=
  match member "code_challenge" fs with
  | Some (JObj o) => forallb (typed_member o) [("challenge", KStr); ("method", KStr)]%string
  | _ => true
  end.

Lemma authRequest_typed a : forallb (typed_member (authRequest_fields a)) authRequest_sig = true.
Proof.
  destruct a. unfold authRequest_fields, authRequest_sig.
  cbn [q_ID q_CreationDate q_ClientID CallbackURI TransferState Prompt LoginHint MaxAuthAgeSec q_UserID q_Scopes
       q_Audience ResponseType ResponseMode Nonce CodeChallenge q_AMR ACR IsDone AuthAt q_SessionID IdpInitiated].
  well_typed_members.
Qed.
Lemma codeChallenge_typed a : codeChallenge_decodes (authRequest_fields a) = true.
Proof. destruct a. unfold codeChallenge_decodes, authRequest_fields. cbn [CodeChallenge]. at_member. Qed.
Lemma accessToken_typed a : forallb (typed_member (accessToken_fields a)) accessToken_sig = true.
Proof.
  destruct a. unfold accessToken_fields, accessToken_sig.
  cbn [t_ID t_ClientID Subject RefreshTokenID t_Audience t_Scopes t_Expiration]. well_typed_members.
Qed.
Lemma refreshToken_typed a : forallb (typed_member (refreshToken_fields a)) refreshToken_sig = true.
Proof.
  destruct a. unfold refreshToken_fields, refreshToken_sig.
  cbn [f_ID Token f_AuthTime f_AMR f_Audience f_UserID f_ClientID f_Scopes AccessTokenID f_SessionID FamilyID f_Expiration].
  well_typed_members.
Qed.

#[refine, export] Instance authRequest_document : Document authRequest := {|
  marshal a := DObj (authRequest_fields a);
  decode d := decode_authRequest (fields_of d);
  decodes d := decodes_as authRequest_sig d && codeChallenge_decodes (fields_of d)
|}.
Proof.
  - intros a. apply authRequest_roundtrip.
  - intros a. cbn [decodes_as fields_of]. by rewrite authRequest_typed, codeChallenge_typed.
Defined.

#[refine, export] Instance accessToken_document : Document accessToken := {|
  marshal a := DObj (accessToken_fields a);
  decode d := decode_accessToken (fields_of d);
  decodes := decodes_as accessToken_sig
|}.
Proof. all: intros a; (apply accessToken_roundtrip || apply accessToken_typed). Defined.

#[refine, export] Instance refreshToken_document : Document refreshToken := {|
  marshal r := DObj (refreshToken_fields r);
  decode d := decode_refreshToken (fields_of d);
  decodes := decodes_as refreshToken_sig
|}.
Proof. all: intros r; (apply refreshToken_roundtrip || apply refreshToken_typed). Defined.

#[refine, export] Instance consumedMarker_document : Document consumedMarker := {|
  marshal m := DObj (consumedMarker_fields m);
  decode d := decode_consumedMarker (fields_of d);
  decodes := decodes_as consumedMarker_sig
|}.
Proof. all: intros m; destruct m; reflexivity. Defined.
