(* ===== verification/OidcTokens.v ===== *)
(** * OidcTokens: the OpenID provider's store

    src/internal/protocol/oidcop/storage.go over the Redis model: authorization
    requests and codes, access and refresh tokens, rotation with reuse detection,
    and the revocations that a logout or an operator runs. The OpenID library that
    calls these operations is not modelled. Random strings are arguments, [None]
    being a failing generator. *)

From Stdlib Require Import Ascii.
From S2P Require Import Prelude Text Redis OidcJson.

(** ** Results and effects *)

Inductive OErr : Type :=
| ErrRandom
| ErrStore (e : RErr)
| ErrUnmarshal
| ErrLoginRequired
| ErrInvalidRequest (why : string)
| ErrRequestNotFound
| ErrCodeInvalid
| ErrInvalidRefreshToken
| ErrInvalidGrant (why : string)
| ErrInvalidClient (why : string)
| ErrServerError
| ErrTokenInvalid (why : string)
| ErrClaims
| ErrScan.

(** event.OIDCTokenReuse *)
Record OEvent : Type := mkReuse { e_user_id : string; e_client_id : string }.

Record OWorld : Type := mkOWorld { rds : Redis Doc; bus : list OEvent }.

Abbreviation ORedis := (Redis Doc).
Abbreviation Op := (M OWorld OErr).
Abbreviation Keys := (gmap string (RKey Doc)).

(** A Redis call and its answer, error included. *)
Definition call {A B} (m : M ORedis RErr A) (k : res RErr A -> Op B) : Op B :=
  fun w => let '(r, x) := m (rds w) in k x (mkOWorld r (bus w)).
(** [if err := call; err != nil { return err }] *)
Definition checked {A} (m : M ORedis RErr A) : Op A :=
  call m (fun x => match x with Ok a => ret a | Err e => throw (ErrStore e) end).
(** [_ = call] *)
Definition unchecked {A} (m : M ORedis RErr A) : Op unit := call m (fun _ => ret tt).

Definition Now : Op Z := gets (fun w => rclock (rds w)).
Definition Publish (e : OEvent) : Op unit := modify (fun w => mkOWorld (rds w) (bus w ++ [e])).

Definition randomly {A} (random : option string) (k : string -> Op A) : Op A :=
  match random with Some s => k s | None => throw ErrRandom end.

Record Config : Type := mkConfig {
  AccessTokenLifetime : Z; RefreshTokenLifetime : Z; AuthRequestLifetime : Z; CodeLifetime : Z
}.

Definition DefaultConfig : Config :=
  mkConfig (10 * Minute) (30 * 24 * Hour) (15 * Minute) (5 * Minute).

(** ** Keys *)

Definition kAuthReq (id : string) : string := "oidc:authreq:" +:+ id.
Definition kCode (code : string) : string := "oidc:code:" +:+ code.
Definition kToken (id : string) : string := "oidc:token:" +:+ id.
Definition kRefresh (tok : string) : string := "oidc:refresh:" +:+ tok.
Definition kUserTok (u c : string) : string := "oidc:utk:" +:+ u +:+ ":" +:+ c.
Definition kClientUsers (c : string) : string := "oidc:clientusers:" +:+ c.
Definition kRefreshConsumed (tok : string) : string := "oidc:refreshconsumed:" +:+ tok.
Definition kRefreshFamily (familyID : string) : string := "oidc:refreshfamily:" +:+ familyID.

Section Storage.
Context (cfg : Config).

(** ** JSON values *)

Definition setJSON {A} `{Document A} (key : string) (v : A) (ttl : Z) : M ORedis RErr unit :=
  SET key (marshal v) ttl.

(** [ok, err := getJSON(key, &v)], the three of them handed on. *)
Definition getJSON {A B} `{Document A} (key : string) (k : bool -> option OErr -> A -> Op B) : Op B :=
  call (GET key) (fun x =>
    match x with
    | Err RErrNil => k false None (decode (DObj []))
    | Err e => k false (Some (ErrStore e)) (decode (DObj []))
    | Ok d => k true (if decodes (A:=A) d then None else Some ErrUnmarshal) (decode d)
    end).

(** [if err != nil { return err }; if !ok { absent }] *)
Definition loadJSON {A B} `{Document A} (key : string) (absent : Op B) (found : A -> Op B) : Op B :=
  getJSON key (fun ok err v =>
    match err with
    | Some e => throw e
    | None => if ok then found v else absent
    end).

(** ** Authorization requests and codes *)

(** The parsed request of the library. *)
Record oidcAuthRequest : Type := mkOidcAuthRequest {
  r_Prompt : list string; r_ClientID : string; r_RedirectURI : string; r_State : string; r_LoginHint : string;
  r_MaxAge : option Z; r_Scopes : list string; r_ResponseType : string; r_ResponseMode : string;
  r_Nonce : string; r_CodeChallenge : string; r_CodeChallengeMethod : string
}.

Definition known_prompt (p : string) : bool :=
  bool_decide (p ∈ ["none"; "login"; "consent"; "select_account"]%string).
Definition promptToInternal (prompts : list string) : list string := filter (fun p => known_prompt p = true) prompts.

Definition authRequestFromOIDC (req : oidcAuthRequest) (id userID : string) (now : Z) : authRequest :=
  mkAuthRequest id now (r_ClientID req) (r_RedirectURI req) (r_State req) (promptToInternal (r_Prompt req))
    (r_LoginHint req) (r_MaxAge req) userID (r_Scopes req) [r_ClientID req] (r_ResponseType req)
    (r_ResponseMode req) (r_Nonce req)
    (if decide (r_CodeChallenge req = "")%string then None
     else Some (mkCodeChallenge (r_CodeChallenge req) (r_CodeChallengeMethod req)))
    [] "" false zeroTime "" false.

(** [pkceRequired] answers for a client that resolves; [None] is an error, no
    client, or one that does not say. *)
Definition enforcePKCE (pkceRequired : string -> option bool) (req : oidcAuthRequest) : Op unit :=
  match pkceRequired (r_ClientID req) with
  | Some true =>
      if decide (r_CodeChallenge req = "")%string
      then throw (ErrInvalidRequest "code_challenge is required for this client") else
      if decide (r_CodeChallengeMethod req <> "S256")%string
      then throw (ErrInvalidRequest "code_challenge_method must be S256") else ret tt
  | _ => ret tt
  end.

Definition set_idp (b : bool) (a : authRequest) : authRequest :=
  mkAuthRequest (q_ID a) (q_CreationDate a) (q_ClientID a) (CallbackURI a) (TransferState a) (Prompt a)
    (LoginHint a) (MaxAuthAgeSec a) (q_UserID a) (q_Scopes a) (q_Audience a) (ResponseType a) (ResponseMode a)
    (Nonce a) (CodeChallenge a) (q_AMR a) (ACR a) (IsDone a) (AuthAt a) (q_SessionID a) b.

Definition CreateAuthRequest (pkceRequired : string -> option bool) (random : option string)
    (idpInitiated : bool) (req : oidcAuthRequest) (userID : string) : Op authRequest :=
  if bool_decide (r_Prompt req = ["none"]%string) then throw ErrLoginRequired else
  do! enforcePKCE pkceRequired req in
  randomly random (fun id =>
    let! now := Now in
    let ar := set_idp idpInitiated (authRequestFromOIDC req id userID now) in
    do! checked (setJSON (kAuthReq id) ar (AuthRequestLifetime cfg)) in
    ret ar).

Definition AuthRequestByID (id : string) : Op authRequest :=
  loadJSON (kAuthReq id) (throw ErrRequestNotFound) ret.

(** The text of a key. A document is returned as its text too, which names no request. *)
Definition text_of (d : Doc) : string := match d with DText s => s | DObj _ => "{" end.

Definition AuthRequestByCode (code : string) : Op authRequest :=
  call (GET (kCode code)) (fun x =>
    match x with
    | Err RErrNil => throw ErrCodeInvalid
    | Err e => throw (ErrStore e)
    | Ok d => AuthRequestByID (text_of d)
    end).

Definition SaveAuthCode (id code : string) : Op unit :=
  checked (SET (kCode code) (DText id) (CodeLifetime cfg)).

Definition DeleteAuthRequest (id : string) : Op unit := checked (DEL (kAuthReq id)).

Definition done_request (userID : string) (authTime : Z) (amr : list string) (sessionID : string)
    (a : authRequest) : authRequest :=
  mkAuthRequest (q_ID a) (q_CreationDate a) (q_ClientID a) (CallbackURI a) (TransferState a) (Prompt a)
    (LoginHint a) (MaxAuthAgeSec a) userID (q_Scopes a) (q_Audience a) (ResponseType a) (ResponseMode a)
    (Nonce a) (CodeChallenge a) (match amr with [] => q_AMR a | _ => amr end) (ACR a) true authTime
    (if decide (sessionID = "")%string then q_SessionID a else sessionID) (IdpInitiated a).

Definition AuthRequestDone (id userID : string) (authTime : Z) (amr : list string) (sessionID : string) : Op unit :=
  loadJSON (kAuthReq id) (throw ErrRequestNotFound) (fun ar =>
    checked (setJSON (kAuthReq id) (done_request userID authTime amr sessionID ar) (AuthRequestLifetime cfg))).

(** ** Indexes *)

Definition indexAdd (userID clientID tokenKey : string) : Op unit :=
  if decide (userID = "" \/ clientID = "")%string then ret tt else
  let idx := kUserTok userID clientID in
  do! unchecked (SADD idx tokenKey) in
  do! unchecked (EXPIRE idx (RefreshTokenLifetime cfg)) in
  let cidx := kClientUsers clientID in
  do! unchecked (SADD cidx userID) in
  unchecked (EXPIRE cidx (RefreshTokenLifetime cfg)).

(** The commands of a pipeline are sent together and their errors dropped; other
    clients' commands may run between them. *)
Definition familyAdd (familyID token : string) : Op unit :=
  if decide (familyID = "")%string then ret tt else
  let familyKey := kRefreshFamily familyID in
  do! unchecked (SADD familyKey token) in
  unchecked (EXPIRE familyKey (RefreshTokenLifetime cfg)).

(** ** Issuing tokens *)

Definition storeAccessToken (random : option string) (clientID refreshID subject : string)
    (audience scopes : list string) : Op accessToken :=
  randomly random (fun id =>
    let! now := Now in
    let at_ := mkAccessToken id clientID subject refreshID audience scopes (now + AccessTokenLifetime cfg) in
    do! checked (setJSON (kToken id) at_ (AccessTokenLifetime cfg)) in
    do! indexAdd subject clientID (kToken id) in
    ret at_).

Definition storeRefreshToken (random : option string) (refreshID : string) (access : accessToken)
    (amr : list string) (authTime : Z) (sessionID : string) : Op refreshToken :=
  randomly random (fun familyID =>
    let! now := Now in
    let rt := mkRefreshToken refreshID refreshID authTime amr (t_Audience access) (Subject access)
                (t_ClientID access) (t_Scopes access) (t_ID access) sessionID familyID
                (now + RefreshTokenLifetime cfg) in
    do! checked (setJSON (kRefresh (Token rt)) rt (RefreshTokenLifetime cfg)) in
    do! indexAdd (f_UserID rt) (f_ClientID rt) (kRefresh (Token rt)) in
    do! familyAdd familyID (Token rt) in
    ret rt).

(** ** Reuse detection *)

(** [for _, tok := range members { ... }] *)
Fixpoint revoke_members (members : list string) : Op unit :=
  match members with
  | [] => ret tt
  | tok :: members' =>
      do! getJSON (kRefresh tok) (fun ok _ rt =>
        if ok && bool_decide (AccessTokenID rt <> "")%string
        then unchecked (DEL (kToken (AccessTokenID rt))) else ret tt) in
      do! unchecked (DEL (kRefresh tok)) in
      revoke_members members'
  end.

Definition revokeFamily (familyID : string) : Op unit :=
  if decide (familyID = "")%string then ret tt else
  call (SMEMBERS (kRefreshFamily familyID)) (fun x =>
    match x with
    | Err _ => ret tt
    | Ok members =>
        do! revoke_members members in
        unchecked (DEL (kRefreshFamily familyID))
    end).

Definition checkReuse (token : string) : Op bool :=
  getJSON (kRefreshConsumed token) (fun ok err marker =>
    if bool_decide (err <> None) || negb ok || bool_decide (m_FamilyID marker = "")%string then ret false
    else
      do! revokeFamily (m_FamilyID marker) in
      do! Publish (mkReuse (m_UserID marker) (m_ClientID marker)) in
      ret true).

(** ** Rotation *)

(** renewRefreshToken after it read the presented token. *)
Definition renew_tail (currentToken newToken : string) (access : accessToken) (rt : refreshToken) : Op unit :=
  let! now := Now in
  if f_Expiration rt <? now then throw (ErrInvalidGrant "expired refresh token") else
  do! unchecked (DELS [kRefresh currentToken; kToken (AccessTokenID rt)]) in
  let remaining := f_Expiration rt - now in
  let remaining := if remaining <? Minute then Minute else remaining in
  let marker := mkConsumedMarker (FamilyID rt) (f_UserID rt) (f_ClientID rt) in
  do! unchecked (setJSON (kRefreshConsumed currentToken) marker remaining) in
  let rt := mkRefreshToken newToken newToken (f_AuthTime rt) (f_AMR rt) (f_Audience rt) (f_UserID rt)
              (f_ClientID rt) (f_Scopes rt) (t_ID access) (f_SessionID rt) (FamilyID rt)
              (now + RefreshTokenLifetime cfg) in
  do! checked (setJSON (kRefresh newToken) rt (RefreshTokenLifetime cfg)) in
  do! indexAdd (f_UserID rt) (f_ClientID rt) (kRefresh newToken) in
  if decide (FamilyID rt = "")%string then ret tt else
  let familyKey := kRefreshFamily (FamilyID rt) in
  do! unchecked (SREM familyKey currentToken) in
  do! unchecked (SADD familyKey newToken) in
  unchecked (EXPIRE familyKey (RefreshTokenLifetime cfg)).

Definition renewRefreshToken (currentToken newToken : string) (access : accessToken) : Op unit :=
  loadJSON (kRefresh currentToken)
    (let! _ := checkReuse currentToken in throw (ErrInvalidGrant "invalid refresh token"))
    (renew_tail currentToken newToken access).

(** ** Token requests *)

(** The requests the store hands to the library, and those of the library's own. *)
Inductive TokenRequest : Type :=
| TRAuth (a : authRequest)
| TRRefresh (r : refreshToken)
| TRClient (clientID : string) (scopes : list string)
| TROther (subject : string) (audience scopes : list string).

Definition GetSubject (q : TokenRequest) : string :=
  match q with TRAuth a => q_UserID a | TRRefresh r => f_UserID r | TRClient c _ => c | TROther s _ _ => s end.
Definition GetAudience (q : TokenRequest) : list string :=
  match q with TRAuth a => q_Audience a | TRRefresh r => f_Audience r | TRClient c _ => [c] | TROther _ a _ => a end.
Definition GetScopes (q : TokenRequest) : list string :=
  match q with TRAuth a => q_Scopes a | TRRefresh r => f_Scopes r | TRClient _ s => s | TROther _ _ s => s end.

Definition SetCurrentScopes (s : list string) (r : refreshToken) : refreshToken :=
  mkRefreshToken (f_ID r) (Token r) (f_AuthTime r) (f_AMR r) (f_Audience r) (f_UserID r) (f_ClientID r) s
    (AccessTokenID r) (f_SessionID r) (FamilyID r) (f_Expiration r).

Definition getInfoFromRequest (q : TokenRequest) : string * Z * list string * string :=
  match q with
  | TRAuth a => (q_ClientID a, AuthAt a, q_AMR a, q_SessionID a)
  | TRRefresh r => (f_ClientID r, f_AuthTime r, f_AMR r, f_SessionID r)
  | TRClient c _ => (c, zeroTime, [], ""%string)
  | TROther _ _ _ => (""%string, zeroTime, [], ""%string)
  end.

Definition CreateAccessToken (random : option string) (q : TokenRequest) : Op (string * Z) :=
  let '(clientID, _, _, _) := getInfoFromRequest q in
  let! tok := storeAccessToken random clientID "" (GetSubject q) (GetAudience q) (GetScopes q) in
  ret (t_ID tok, t_Expiration tok).

(** The random strings in the order they are drawn: the refresh token, the access
    token and, for a first issue, the family. *)
Definition CreateAccessAndRefreshTokens (rndRefresh rndAccess rndFamily : option string)
    (q : TokenRequest) (currentRefreshToken : string) : Op (string * string * Z) :=
  let '(clientID, authTime, amr, sessionID) := getInfoFromRequest q in
  if decide (currentRefreshToken = "")%string then
    randomly rndRefresh (fun refreshID =>
      let! access := storeAccessToken rndAccess clientID refreshID (GetSubject q) (GetAudience q) (GetScopes q) in
      let! refresh := storeRefreshToken rndFamily refreshID access amr authTime sessionID in
      ret (t_ID access, Token refresh, t_Expiration access))
  else
    randomly rndRefresh (fun newRefresh =>
      let! access := storeAccessToken rndAccess clientID newRefresh (GetSubject q) (GetAudience q) (GetScopes q) in
      do! renewRefreshToken currentRefreshToken newRefresh access in
      ret (t_ID access, newRefresh, t_Expiration access)).

(** [users]: no resolver is wired, or its answer for a user. *)
Definition TokenRequestByRefreshToken (users : option (string -> res unit bool)) (token : string) : Op refreshToken :=
  loadJSON (kRefresh token)
    (let! _ := checkReuse token in throw ErrInvalidRefreshToken)
    (fun rt =>
       match users with
       | None => ret rt
       | Some isActive =>
           match isActive (f_UserID rt) with
           | Ok true => ret rt
           | _ => do! revokeFamily (FamilyID rt) in throw ErrInvalidRefreshToken
           end
       end).

Definition GetRefreshTokenInfo (token : string) : Op (string * string) :=
  loadJSON (kRefresh token) (throw ErrInvalidRefreshToken) (fun rt => ret (f_UserID rt, f_ID rt)).

(** ** Revocation *)

Definition TerminateSession (userID clientID : string) : Op unit :=
  let idx := kUserTok userID clientID in
  call (SMEMBERS idx) (fun x =>
    match x with
    | Err RErrNil => checked (DEL idx)
    | Err e => throw (ErrStore e)
    | Ok members =>
        do! (match members with [] => ret tt | _ => unchecked (DELS members) end) in
        checked (DEL idx)
    end).

(** The server error of the library carries the store's message. *)
Definition RevokeToken (tokenIDOrToken clientID : string) : Op unit :=
  getJSON (kToken tokenIDOrToken) (fun ok err (at_ : accessToken) =>
    if bool_decide (err <> None) then throw ErrServerError else
    if ok then
      if decide (t_ClientID at_ <> clientID) then throw (ErrInvalidClient "token was not issued for this client")
      else unchecked (DEL (kToken (t_ID at_)))
    else
      getJSON (kRefresh tokenIDOrToken) (fun ok err rt =>
        if bool_decide (err <> None) then throw ErrServerError else
        if negb ok then ret tt else
        if decide (f_ClientID rt <> clientID) then throw (ErrInvalidClient "token was not issued for this client")
        else unchecked (DELS [kRefresh (Token rt); kToken (AccessTokenID rt)]))).

(** ** Revoking all tokens of a client *)

Definition utkPrefix : string := "oidc:utk:".

(** [k[len(keyPrefix) : len(k)-len(suffix)]], for a key long enough to hold both. *)
Definition user_half (k suffix : string) : string :=
  String.substring (String.length utkPrefix)
    (String.length k - String.length utkPrefix - String.length suffix) k.

Fixpoint contains_colon (s : string) : bool :=
  match s with EmptyString => false | String c s' => Ascii.eqb c ":"%char || contains_colon s' end.

Definition scanned_user (suffix k : string) : option string :=
  if HasPrefix k utkPrefix && HasSuffix k suffix then
    let user := user_half k suffix in
    if String.eqb user "" || contains_colon user then None else Some user
  else None.

(** SCAN: what the server answers for the keys it holds, a cursor and a pattern. *)
Context (scan : Keys -> Z -> Z -> string -> list string * Z).

Definition scan_f (cursor : Z) (pattern : string) (ks : Keys) (now : Z) : Keys * res RErr (list string * Z) :=
  (ks, Ok (scan ks now cursor pattern)).

Definition maxCursors : nat := Z.to_nat 10000.

(** The result and the error, both. *)
Fixpoint scan_loop (fuel : nat) (suffix : string) (out : list string) (cursor : Z) : Op (list string * option OErr) :=
  match fuel with
  | O => ret (out, Some ErrScan)
  | S fuel' =>
      call (command (scan_f cursor (utkPrefix +:+ "*" +:+ suffix))) (fun x =>
        match x with
        | Err e => ret (out, Some (ErrStore e))
        | Ok (keys, next) =>
            let out := out ++ omap (scanned_user suffix) keys in
            if next =? 0 then ret (out, None) else scan_loop fuel' suffix out next
        end)
  end.

Definition scanClientUsers (clientID : string) : Op (list string * option OErr) :=
  scan_loop maxCursors (":" +:+ clientID) [] 0.

(** [for u := range users { TerminateSession }]: the users revoked, the first error. *)
Fixpoint terminate_each (clientID : string) (users : list string) (revoked : Z) (firstErr : option OErr)
    : Op (Z * option OErr) :=
  match users with
  | [] => ret (revoked, firstErr)
  | u :: users' =>
      attempt (TerminateSession u clientID) (fun x =>
        match x with
        | Err e => terminate_each clientID users' revoked (match firstErr with None => Some e | _ => firstErr end)
        | Ok _ => terminate_each clientID users' (revoked + 1) firstErr
        end)
  end.

Definition RevokeAllForClient (clientID : string) : Op (Z * option OErr) :=
  if decide (clientID = "")%string then ret (0, None) else
  call (SMEMBERS (kClientUsers clientID)) (fun x =>
    match x with
    | Err RErrConn => ret (0, Some (ErrStore RErrConn))
    | Err RErrWrongType => ret (0, Some (ErrStore RErrWrongType))
    | _ =>
        let indexed := match x with Ok l => l | Err _ => [] end in
        let! found := scanClientUsers clientID in
        let '(scanned, scanErr) := found in
        let users := foldl (fun acc u => if decide (u ∈ acc) then acc else acc ++ [u]) [] (indexed ++ scanned) in
        let! done := terminate_each clientID users 0 scanErr in
        do! (match done.2 with None => unchecked (DEL (kClientUsers clientID)) | Some _ => ret tt end) in
        ret done
    end).

(** ** Userinfo and introspection: storage.go and claims.go *)

(** The claims assembled for a user, an application and scopes, once the subject
    was read as a number. *)
Context {Claims : Type} (claims_for : Z -> string -> list string -> option Claims).

Definition SetUserinfo (userID clientID : string) (scopes : list string) : Op Claims :=
  match ParseInt userID with
  | (_, false) => throw ErrClaims
  | (uid, true) => match claims_for uid clientID scopes with Some c => ret c | None => throw ErrClaims end
  end.

Definition SetUserinfoFromToken (tokenID : string) : Op Claims :=
  loadJSON (kToken tokenID) (throw (ErrTokenInvalid "token is invalid or has expired")) (fun at_ =>
    let! now := Now in
    if t_Expiration at_ <? now then throw (ErrTokenInvalid "token is expired") else
    SetUserinfo (Subject at_) (t_ClientID at_) (t_Scopes at_)).

Record Introspection (C : Type) : Type := mkIntrospection {
  i_UserInfo : C; i_Scope : list string; i_ClientID : string; i_Expiration : Z; i_Audience : list string
}.
Arguments mkIntrospection {C}.

Definition SetIntrospectionFromToken (tokenID clientID : string) : Op (Introspection Claims) :=
  getJSON (kToken tokenID) (fun ok err at_ =>
    match err with
    | Some e => throw e
    | None =>
        let! now := Now in
        if negb ok || (t_Expiration at_ <? now) then throw (ErrTokenInvalid "token is invalid or has expired") else
        if decide (clientID ∉ t_Audience at_) then throw (ErrTokenInvalid "token was not issued for this client") else
        let! userinfo := SetUserinfo (Subject at_) (t_ClientID at_) (t_Scopes at_) in
        ret (mkIntrospection userinfo (t_Scopes at_) (t_ClientID at_) (t_Expiration at_) (t_Audience at_))
    end).

(** claims.go: IsUserActive. [ResolveUser] answers the account's status. *)
Definition userStatusActive : Z := 1.
Definition IsUserActive (ResolveUser : Z -> option Z) (userID : string) : res unit bool :=
  match ParseInt userID with
  | (_, false) => Err tt
  | (uid, true) =>
      match ResolveUser uid with
      | None => Ok false
      | Some status => Ok (status =? userStatusActive)
      end
  end.

(** ** Clients: client.go *)

(** The members of an app's protocol_config this engine reads; [None] when the
    document has no such member. *)
Record RawConfig : Type := mkRawConfig {
  raw_grant_types : option (list string); raw_scopes : option (list string);
  raw_pkce_required : bool; raw_id_token_lifetime : Z; raw_id_token_ttl : Z;
  raw_auth_method : string; raw_auth_mode : string; raw_rate_limit_per_min : Z
}.

Record clientConfig : Type := mkClientConfig {
  GrantTypes : list string; Scopes : list string; PKCERequired : bool; IDTokenTTL : Z;
  TokenEndpointAuthMode : string; RateLimitPerMin : Z
}.

Definition defaultIDTokenTTLSeconds : Z := 3600.

Definition parseClientConfig (raw : RawConfig) : clientConfig :=
  let mode := if decide (raw_auth_method raw = "")%string then raw_auth_mode raw else raw_auth_method raw in
  let mode := if decide (mode = "")%string then "client_secret_post"%string else mode in
  let ttl := if raw_id_token_lifetime raw <=? 0 then raw_id_token_ttl raw else raw_id_token_lifetime raw in
  let ttl := if ttl <=? 0 then defaultIDTokenTTLSeconds else ttl in
  mkClientConfig
    (default ["authorization_code"; "refresh_token"]%string (raw_grant_types raw))
    (default ["openid"; "profile"; "email"]%string (raw_scopes raw))
    (raw_pkce_required raw) ttl mode (raw_rate_limit_per_min raw).

Record AppConfig : Type := mkAppConfig {
  a_ID : Z; a_Protocol : string; a_Status : Z; a_ClientID : string; a_ClientType : string;
  a_ClientSecret : string; a_LogoutURL : string; a_ProtocolConfig : RawConfig
}.

Record oidcClient : Type := mkOidcClient { c_app : AppConfig; c_cfg : clientConfig }.

Inductive ApplicationType : Type := AppWeb | AppUserAgent | AppNative.
Definition applicationType (c : oidcClient) : ApplicationType :=
  let t := a_ClientType (c_app c) in
  if decide (t = "spa")%string then AppUserAgent else if decide (t = "native")%string then AppNative else AppWeb.

Inductive AuthMethod : Type := AuthBasic | AuthNone | AuthPrivateKeyJWT | AuthPost.
Definition authMethod (c : oidcClient) : AuthMethod :=
  let m := TokenEndpointAuthMode (c_cfg c) in
  if decide (m = "client_secret_basic")%string then AuthBasic else
  if decide (m = "none")%string then AuthNone else
  if decide (m = "private_key_jwt")%string then AuthPrivateKeyJWT else AuthPost.

Definition IDTokenLifetime (c : oidcClient) : Z :=
  if 0 <? IDTokenTTL (c_cfg c) then wrap64 (IDTokenTTL (c_cfg c) * Second) else Hour.

Definition PostLogoutRedirectURIs (c : oidcClient) : list string :=
  if decide (a_LogoutURL (c_app c) = "")%string then [] else [a_LogoutURL (c_app c)].

Definition standardScopes : list string :=
  ["openid"; "profile"; "email"; "phone"; "address"; "offline_access"]%string.
Definition IsScopeAllowed (c : oidcClient) (scope : string) : bool :=
  bool_decide (scope ∈ standardScopes) || bool_decide (scope ∈ Scopes (c_cfg c)).

(** [GetAppByClientID], and bcrypt's comparison of a hash and a secret. *)
Context (apps : string -> res OErr (option AppConfig)) (bcrypt_ok : string -> string -> bool).

Definition ClientByID (clientID : string) : res OErr oidcClient :=
  match apps clientID with
  | Err e => Err e
  | Ok None => Err (ErrInvalidClient "client not found")
  | Ok (Some app) =>
      if decide (a_Protocol app <> "oidc")%string then Err (ErrInvalidClient "not an OIDC client") else
      if negb (a_Status app =? 1) then Err (ErrInvalidClient "client is disabled") else
      Ok (mkOidcClient app (parseClientConfig (a_ProtocolConfig app)))
  end.

Definition AuthorizeSecret (clientID clientSecret : string) : res OErr unit :=
  match apps clientID with
  | Err e => Err e
  | Ok None => Err (ErrInvalidClient "invalid client credentials")
  | Ok (Some app) =>
      if bool_decide (a_ClientSecret app = "")%string || negb (bcrypt_ok (a_ClientSecret app) clientSecret)
      then Err (ErrInvalidClient "invalid client credentials") else Ok tt
  end.

(** What enforcePKCE learns of a client. *)
Definition pkceOf (clientID : string) : option bool :=
  match ClientByID clientID with Ok c => Some (PKCERequired (c_cfg c)) | Err _ => None end.

(** ** client_credentials.go; the library's IsConfidentialType asks for a web client *)

Definition ClientCredentials (clientID clientSecret : string) : res OErr oidcClient :=
  match ClientByID clientID with
  | Err e => Err e
  | Ok client =>
      match applicationType client with
      | AppWeb => match AuthorizeSecret clientID clientSecret with Err e => Err e | Ok _ => Ok client end
      | _ => Err (ErrInvalidClient "client_credentials grant requires a confidential client")
      end
  end.

Definition ClientCredentialsTokenRequest (clientID : string) (scopes : list string) : res OErr TokenRequest :=
  match ClientByID clientID with
  | Err e => Err e
  | Ok client => Ok (TRClient clientID (filter (fun sc => IsScopeAllowed client sc = true) scopes))
  end.

End Storage.
Arguments mkIntrospection {C}.
Arguments i_UserInfo {C}. Arguments i_Scope {C}. Arguments i_ClientID {C}.
Arguments i_Expiration {C}. Arguments i_Audience {C}.
