(* ===== verification/OidcProps.v ===== *)
(** * OidcProps: what the OpenID provider's store guarantees

    For every history of its operations, connection faults included, the store
    stays well typed, so no operation meets a value of another kind. *)

From S2P Require Import Prelude Text Redis OidcJson OidcTokens.

(** ** Triples over the store

    [spec I m Q]: from a store that satisfies [I], [m] ends in one that does, with
    a result that satisfies [Q]. *)

Section Triples.
Context (I : ORedis -> Prop).

Definition spec {A} (m : Op A) (Q : res OErr A -> Prop) : Prop :=
  forall w w' x, I (rds w) -> m w = (w', x) -> I (rds w') /\ Q x.

(** The same for one Redis call. *)
Definition cspec {A} (m : M ORedis RErr A) (Q : res RErr A -> Prop) : Prop :=
  forall r r' x, I r -> m r = (r', x) -> I r' /\ Q x.

Lemma spec_ret {A} (a : A) (Q : res OErr A -> Prop) : Q (Ok a) -> spec (ret a) Q.
Proof. intros HQ w w' x HI H. unfold ret in H. by simplify_eq. Qed.
Lemma spec_throw {A} e (Q : res OErr A -> Prop) : Q (Err e) -> spec (throw e) Q.
Proof. intros HQ w w' x HI H. unfold throw in H. by simplify_eq. Qed.
Lemma spec_bind {A B} (m : Op A) (k : A -> Op B) P Q :
  spec m P -> (forall a, P (Ok a) -> spec (k a) Q) -> (forall e, P (Err e) -> Q (Err e)) -> spec (bind m k) Q.
Proof.
  intros Hm Hk He w w' x HI H. unfold bind in H. destruct (m w) as [w1 [a|e]] eqn:E.
  - destruct (Hm _ _ _ HI E) as [HI1 HP]. by eapply Hk.
  - destruct (Hm _ _ _ HI E) as [HI1 HP]. simplify_eq. auto.
Qed.
Lemma spec_attempt {A B} (m : Op A) (k : res OErr A -> Op B) P Q :
  spec m P -> (forall x, P x -> spec (k x) Q) -> spec (attempt m k) Q.
Proof.
  intros Hm Hk w w' x HI H. unfold attempt in H. destruct (m w) as [w1 y] eqn:E.
  destruct (Hm _ _ _ HI E) as [HI1 HP]. by eapply Hk.
Qed.
Lemma spec_call {A B} (m : M ORedis RErr A) (k : res RErr A -> Op B) P Q :
  cspec m P -> (forall x, P x -> spec (k x) Q) -> spec (call m k) Q.
Proof.
  intros Hm Hk w w' x HI H. unfold call in H. destruct (m (rds w)) as [r y] eqn:E.
  destruct (Hm _ _ _ HI E) as [HI1 HP]. by eapply (Hk y HP (mkOWorld r (bus w))).
Qed.
Lemma spec_now {B} (k : Z -> Op B) Q : (forall t, spec (k t) Q) -> spec (bind Now k) Q.
Proof. intros Hk w w' x HI H. exact (Hk _ w w' x HI H). Qed.
Lemma spec_publish e (Q : res OErr unit -> Prop) : Q (Ok tt) -> spec (Publish e) Q.
Proof. intros HQ w w' x HI H. unfold Publish, modify in H. by simplify_eq. Qed.
Lemma spec_randomly {A} rnd (k : string -> Op A) Q :
  Q (Err ErrRandom) -> (forall s, spec (k s) Q) -> spec (randomly rnd k) Q.
Proof. intros HQ Hk. destruct rnd; [apply Hk | by apply spec_throw]. Qed.
Lemma spec_weaken {A} (m : Op A) (P Q : res OErr A -> Prop) : spec m P -> (forall x, P x -> Q x) -> spec m Q.
Proof. intros Hm HPQ w w' x HI H. destruct (Hm _ _ _ HI H). auto. Qed.
End Triples.

(** ** A well-typed store *)

(** A key of the provider is a token or a refresh token. *)
Definition token_key (k : string) : Prop := (exists id, k = kToken id) \/ (exists t, k = kRefresh t).

(** What each kind of key holds. *)
Inductive holds : string -> RVal Doc -> Prop :=
| holds_request id (a : authRequest) : holds (kAuthReq id) (RStr (marshal a))
| holds_code code id : holds (kCode code) (RStr (DText id))
| holds_token id (a : accessToken) : t_ID a = id -> holds (kToken id) (RStr (marshal a))
| holds_refresh t (r : refreshToken) : Token r = t -> holds (kRefresh t) (RStr (marshal r))
| holds_marker t (m : consumedMarker) : holds (kRefreshConsumed t) (RStr (marshal m))
| holds_family f s : holds (kRefreshFamily f) (RSet s)
| holds_user u c s : (forall k, k ∈ s -> token_key k) -> holds (kUserTok u c) (RSet s)
| holds_client c s : holds (kClientUsers c) (RSet s).

Definition well_typed (r : ORedis) : Prop := forall k e, rkeys r !! k = Some e -> holds k (rval e).

(** Inversion at a key of a known kind. *)
Lemma holds_request_inv id v : holds (kAuthReq id) v -> exists a : authRequest, v = RStr (marshal a).
Proof. inversion 1; try discriminate; eauto. Qed.
Lemma holds_code_inv c v : holds (kCode c) v -> exists id, v = RStr (DText id).
Proof. inversion 1; try discriminate; eauto. Qed.
Lemma holds_token_inv id v : holds (kToken id) v -> exists a : accessToken, v = RStr (marshal a) /\ t_ID a = id.
Proof. inversion 1 as [| |id' a Ha Hk Hv| | | | |]; try discriminate. apply app_cancel_l in Hk. subst. eauto. Qed.
Lemma holds_refresh_inv t v : holds (kRefresh t) v -> exists r : refreshToken, v = RStr (marshal r) /\ Token r = t.
Proof. inversion 1 as [| | |t' a Ha Hk Hv| | | |]; try discriminate. apply app_cancel_l in Hk. subst. eauto. Qed.
Lemma holds_marker_inv t v : holds (kRefreshConsumed t) v -> exists m : consumedMarker, v = RStr (marshal m).
Proof. inversion 1; try discriminate; eauto. Qed.
Lemma holds_family_inv f v : holds (kRefreshFamily f) v -> exists s, v = RSet s.
Proof. inversion 1; try discriminate; eauto. Qed.
Lemma holds_user_inv u c v : holds (kUserTok u c) v -> exists s, v = RSet s /\ forall k, k ∈ s -> token_key k.
Proof. inversion 1; try discriminate; eauto. Qed.
Lemma holds_client_inv c v : holds (kClientUsers c) v -> exists s, v = RSet s.
Proof. inversion 1; try discriminate; eauto. Qed.

(** No command meets a value of another kind. *)
Definition no_clash {A} (x : res RErr A) : Prop := x <> Err RErrWrongType.

Section Typed.
Abbreviation I := well_typed.

(** A command on a well-typed store: its effect is well typed, its reply satisfies
    [Q], and so does a connection error. *)
Lemma typed_command {A} (f : Keys -> Z -> Keys * res RErr A) (Q : res RErr A -> Prop) :
  (forall ks now, (forall k e, ks !! k = Some e -> holds k (rval e)) ->
     (forall k e, (f ks now).1 !! k = Some e -> holds k (rval e)) /\ Q (f ks now).2) ->
  Q (Err RErrConn) -> cspec I (command f) Q.
Proof.
  intros Hf HQ r r' x HI H. apply command_inv in H as (_ & _ & [[Hk ->]|(-> & _ & [Hk|Hk])]);
    unfold well_typed; rewrite Hk; (destruct (Hf (rkeys r) (rclock r) HI)); auto.
Qed.

Lemma peek_holds (ks : Keys) now k e :
  (forall k e, ks !! k = Some e -> holds k (rval e)) -> peek ks now k = Some e -> holds k (rval e).
Proof. intros HI H. apply peek_Some in H as [H _]. by apply HI. Qed.

Lemma typed_insert (ks : Keys) k e :
  (forall k e, ks !! k = Some e -> holds k (rval e)) -> holds k (rval e) ->
  forall k' e', <[k := e]> ks !! k' = Some e' -> holds k' (rval e').
Proof. intros HI He k' e' H. apply lookup_insert_Some in H as [[<- <-]|[_ H]]; auto. Qed.

Lemma typed_set k v ttl : holds k (RStr v) -> cspec I (SET k v ttl) no_clash.
Proof. intros Hh. apply typed_command; [|done]. intros ks now HI. split; [|done]. by apply typed_insert. Qed.

Lemma typed_dels l : cspec I (DELS l) no_clash.
Proof.
  apply typed_command; [|done]. intros ks now HI. split; [|done]. intros k e. cbn. rewrite lookup_dels.
  case_decide; [done | auto].
Qed.

Lemma typed_del k : cspec I (DEL k) no_clash.
Proof. exact (typed_dels [k]). Qed.

Lemma typed_get k :
  (forall v, holds k v -> exists d, v = RStr d) ->
  cspec I (GET k) (fun x => no_clash x /\ forall d, x = Ok d -> holds k (RStr d)).
Proof.
  intros Hk. apply typed_command; [|done]. intros ks now HI. cbn. split; [done|]. split.
  - intros Hx. destruct (peek ks now k) as [[v dl]|] eqn:Hp; [|done].
    destruct (Hk v (peek_holds _ _ _ _ HI Hp)) as [d ->]. done.
  - intros d Hx. destruct (peek ks now k) as [[[d'| |] dl]|] eqn:Hp; simplify_eq.
    exact (peek_holds _ _ _ _ HI Hp).
Qed.

(** The sets: members may be added when the kind allows it. *)
Lemma typed_sadd k m :
  (forall v, holds k v -> exists s, v = RSet s /\ holds k (RSet ({[ m ]} ∪ s))) ->
  holds k (RSet {[ m ]}) -> cspec I (SADD k m) no_clash.
Proof.
  intros Hk H1. apply typed_command; [|done]. intros ks now HI. unfold sadd_f.
  destruct (peek ks now k) as [[v dl]|] eqn:Hp.
  - destruct (Hk v (peek_holds _ _ _ _ HI Hp)) as (s & -> & Hs). split; [|done]. by apply typed_insert.
  - split; [|done]. by apply typed_insert.
Qed.

Lemma typed_expire k ttl : cspec I (EXPIRE k ttl) no_clash.
Proof.
  apply typed_command; [|done]. intros ks now HI. unfold expire_f.
  destruct (peek ks now k) as [e|] eqn:Hp; [|done]. split; [|done].
  apply typed_insert; [done|]. exact (peek_holds _ _ _ _ HI Hp).
Qed.

Lemma typed_srem f m : cspec I (SREM (kRefreshFamily f) m) no_clash.
Proof.
  apply typed_command; [|done]. intros ks now HI. unfold srem_f.
  destruct (peek ks now (kRefreshFamily f)) as [[v dl]|] eqn:Hp; [|done].
  destruct (holds_family_inv f v (peek_holds _ _ _ _ HI Hp)) as [s ->]. split; [|done]. case_decide.
  - intros k e He. cbn in He. apply lookup_delete_Some in He as [_ He]. auto.
  - apply typed_insert; [done | constructor].
Qed.

Lemma typed_smembers k :
  (forall v, holds k v -> exists s, v = RSet s) -> cspec I (SMEMBERS k) no_clash.
Proof.
  intros Hk. apply typed_command; [|done]. intros ks now HI. cbn. split; [done|]. intros Hx.
  destruct (peek ks now k) as [[v dl]|] eqn:Hp; [|done].
  destruct (Hk v (peek_holds _ _ _ _ HI Hp)) as [s ->]. done.
Qed.
End Typed.

(** An error that a well-typed store cannot cause. *)
Definition type_error (e : OErr) : Prop :=
  match e with ErrUnmarshal => True | ErrStore RErrWrongType => True | _ => False end.
(** The outcome of an operation that met no such error. *)
Definition sound {A} (x : res OErr A) : Prop := forall e, x = Err e -> ~ type_error e.
Abbreviation typed_op m := (spec well_typed m sound).

Lemma sound_ok {A} (a : A) : sound (Ok a : res OErr A).
Proof. by intros e. Qed.
Lemma sound_err {A} e : ~ type_error e -> sound (Err e : res OErr A).
Proof. intros He e' [= <-]. done. Qed.

Lemma typed_checked (m : M ORedis RErr unit) : cspec well_typed m no_clash -> typed_op (checked m).
Proof.
  intros Hm. eapply spec_call; [exact Hm|]. intros [[]|e] Hx; [apply spec_ret, sound_ok|].
  apply spec_throw, sound_err. destruct e; simpl; congruence.
Qed.
Lemma typed_unchecked {A} (m : M ORedis RErr A) Q : cspec well_typed m Q -> typed_op (unchecked m).
Proof. intros Hm. eapply spec_call; [exact Hm|]. intros x _. apply spec_ret, sound_ok. Qed.
Lemma typed_bind {A B} (m : Op A) (k : A -> Op B) : typed_op m -> (forall a, typed_op (k a)) -> typed_op (bind m k).
Proof.
  intros Hm Hk. eapply spec_bind; [exact Hm | intros; apply Hk |]. intros e He e' [= <-]. by apply (He e).
Qed.

(** [getJSON] on a key whose values are documents of [A]. *)
Lemma typed_getJSON {A B} `{Document A} key (k : bool -> option OErr -> A -> Op B) Q :
  (forall v, holds key v -> exists a : A, v = RStr (marshal a)) ->
  (forall ok e v, (forall e', e = Some e' -> ~ type_error e') -> spec well_typed (k ok e v) Q) ->
  spec well_typed (getJSON key k) Q.
Proof.
  intros Hk HQ. eapply spec_call.
  - apply (typed_get key). intros v Hv. destruct (Hk v Hv) as [a ->]. eauto.
  - intros [d|e] [Hne Hd]; cbv beta iota.
    + destruct (Hk (RStr d) (Hd d eq_refl)) as [a [= ->]]. rewrite decodes_marshal. apply HQ. by intros e.
    + destruct e; [apply HQ; by intros e | done | apply HQ; intros e [= <-]; simpl; tauto].
Qed.

Lemma typed_loadJSON {A B} `{Document A} key (absent : Op B) (found : A -> Op B) :
  (forall v, holds key v -> exists a : A, v = RStr (marshal a)) ->
  typed_op absent -> (forall v, typed_op (found v)) -> typed_op (loadJSON key absent found).
Proof.
  intros Hk Ha Hf. apply typed_getJSON; [done|]. intros ok [e|] v He.
  - by apply spec_throw, sound_err, He.
  - destruct ok; auto.
Qed.

(** Keys by kind, for the lemmas above. *)
Lemma refresh_docs t v : holds (kRefresh t) v -> exists r : refreshToken, v = RStr (marshal r).
Proof. intros Hv. apply holds_refresh_inv in Hv as (r & -> & _). eauto. Qed.
Lemma token_docs t v : holds (kToken t) v -> exists a : accessToken, v = RStr (marshal a).
Proof. intros Hv. apply holds_token_inv in Hv as (r & -> & _). eauto. Qed.
Lemma user_sets u c v : holds (kUserTok u c) v -> exists s, v = RSet s.
Proof. intros Hv. apply holds_user_inv in Hv as (s & -> & _). eauto. Qed.

#[local] Hint Resolve refresh_docs token_docs user_sets holds_request_inv holds_marker_inv holds_family_inv
  holds_client_inv sound_ok : typed.

Ltac typed_step :=
  match goal with
  | |- spec _ (bind Now _) _ => apply spec_now; intros ?
  | |- spec _ (bind _ _) _ => apply typed_bind; [|intros ?]
  | |- spec _ (ret _) _ => apply spec_ret, sound_ok
  | |- spec _ (throw _) _ => apply spec_throw, sound_err; simpl; tauto
  | |- spec _ (Publish _) _ => apply spec_publish, sound_ok
  | |- spec _ (randomly _ _) _ => apply spec_randomly; [apply sound_err; simpl; tauto | intros ?]
  | |- spec _ (checked (DEL _)) _ => apply typed_checked, typed_del
  | |- spec _ (unchecked (DEL _)) _ => eapply typed_unchecked, typed_del
  | |- spec _ (unchecked (DELS _)) _ => eapply typed_unchecked, typed_dels
  | |- spec _ (unchecked (EXPIRE _ _)) _ => eapply typed_unchecked, typed_expire
  | |- spec _ (unchecked (SREM _ _)) _ => eapply typed_unchecked, typed_srem
  | |- spec _ (checked (setJSON _ _ _)) _ => apply typed_checked, typed_set; try (constructor; reflexivity)
  | |- spec _ (checked (SET _ _ _)) _ => apply typed_checked, typed_set; constructor
  | |- spec _ (unchecked (setJSON _ _ _)) _ => eapply typed_unchecked, typed_set; constructor
  | |- spec _ (loadJSON _ _ _) _ => apply typed_loadJSON; [eauto with typed | | intros ?]
  | |- spec _ (getJSON _ _) _ => apply typed_getJSON; [eauto with typed | intros ? ? ? ?]
  | |- spec _ (if ?b then _ else _) _ => destruct b
  | |- spec _ (match ?o with _ => _ end) _ => destruct o
  end.
Ltac typed := repeat typed_step.

Section TypedOps.
Context (cfg : Config).

Lemma indexAdd_typed u c k : token_key k -> typed_op (indexAdd cfg u c k).
Proof.
  intros Hk. unfold indexAdd. typed; eapply typed_unchecked; apply typed_sadd.
  - intros v Hv. apply holds_user_inv in Hv as (s & -> & Hs). eexists. split; [done|]. constructor.
    intros k' [->%elem_of_singleton|]%elem_of_union; auto.
  - constructor. by intros k' ->%elem_of_singleton.
  - intros v Hv. apply holds_client_inv in Hv as (s & ->). eexists. split; [done | constructor].
  - constructor.
Qed.

Lemma family_sadd_typed f t : typed_op (unchecked (SADD (kRefreshFamily f) t)).
Proof.
  eapply typed_unchecked, typed_sadd; [|constructor].
  intros v Hv. apply holds_family_inv in Hv as (s & ->). eexists. split; [done | constructor].
Qed.

Lemma familyAdd_typed f t : typed_op (familyAdd cfg f t).
Proof. unfold familyAdd. typed. apply family_sadd_typed. Qed.

Lemma storeAccessToken_typed rnd c rid sub aud scs : typed_op (storeAccessToken cfg rnd c rid sub aud scs).
Proof. unfold storeAccessToken. typed. apply indexAdd_typed. left. eauto. Qed.

Lemma storeRefreshToken_typed rnd rid a amr t sid : typed_op (storeRefreshToken cfg rnd rid a amr t sid).
Proof.
  unfold storeRefreshToken. typed; [apply indexAdd_typed; right; eauto | apply familyAdd_typed].
Qed.

Lemma revoke_members_typed l : typed_op (revoke_members l).
Proof. induction l as [|t l IH]; cbn [revoke_members]; typed; done. Qed.

Lemma revokeFamily_typed f : typed_op (revokeFamily f).
Proof.
  unfold revokeFamily. typed. eapply spec_call; [apply typed_smembers; eauto with typed|].
  intros [l|e] _; typed. apply revoke_members_typed.
Qed.

Lemma checkReuse_typed t : typed_op (checkReuse t).
Proof. unfold checkReuse. typed. apply revokeFamily_typed. Qed.

Lemma renew_tail_typed cur new a rt : typed_op (renew_tail cfg cur new a rt).
Proof.
  unfold renew_tail. cbv zeta. typed; try apply family_sadd_typed. apply indexAdd_typed. right. eauto.
Qed.

Lemma renewRefreshToken_typed cur new a : typed_op (renewRefreshToken cfg cur new a).
Proof. unfold renewRefreshToken. typed; [apply checkReuse_typed | apply renew_tail_typed]. Qed.

Lemma CreateAccessAndRefreshTokens_typed r1 r2 r3 q cur :
  typed_op (CreateAccessAndRefreshTokens cfg r1 r2 r3 q cur).
Proof.
  unfold CreateAccessAndRefreshTokens. destruct (getInfoFromRequest q) as [[[c t] amr] sid].
  typed; (apply storeAccessToken_typed || apply storeRefreshToken_typed || apply renewRefreshToken_typed).
Qed.

Lemma TokenRequestByRefreshToken_typed users t : typed_op (TokenRequestByRefreshToken users t).
Proof. unfold TokenRequestByRefreshToken. typed; (apply checkReuse_typed || apply revokeFamily_typed). Qed.

Lemma TerminateSession_typed u c : typed_op (TerminateSession u c).
Proof.
  unfold TerminateSession. eapply spec_call; [apply typed_smembers; eauto with typed|].
  intros [l|[]] Hx; typed. done.
Qed.

Lemma RevokeToken_typed t c : typed_op (RevokeToken t c).
Proof. unfold RevokeToken. typed. Qed.
End TypedOps.

(** ** Histories *)

Section Histories.
Context (cfg : Config) (scan : Keys -> Z -> Z -> string -> list string * Z).
Context {Claims : Type} (claims_for : Z -> string -> list string -> option Claims).

(** The operations the library, the login bridge and an operator may call. *)
Inductive oidc_call : forall A : Type, Op A -> Prop :=
| call_create pkce rnd idp req u : oidc_call _ (CreateAuthRequest cfg pkce rnd idp req u)
| call_by_id id : oidc_call _ (AuthRequestByID id)
| call_by_code code : oidc_call _ (AuthRequestByCode code)
| call_save_code id code : oidc_call _ (SaveAuthCode cfg id code)
| call_delete id : oidc_call _ (DeleteAuthRequest id)
| call_done id u t amr sid : oidc_call _ (AuthRequestDone cfg id u t amr sid)
| call_access rnd q : oidc_call _ (CreateAccessToken cfg rnd q)
| call_tokens r1 r2 r3 q cur : oidc_call _ (CreateAccessAndRefreshTokens cfg r1 r2 r3 q cur)
| call_refresh users t : oidc_call _ (TokenRequestByRefreshToken users t)
| call_info t : oidc_call _ (GetRefreshTokenInfo t)
| call_terminate u c : oidc_call _ (TerminateSession u c)
| call_revoke t c : oidc_call _ (RevokeToken t c)
| call_userinfo t : oidc_call _ (SetUserinfoFromToken claims_for t)
| call_introspect t c : oidc_call _ (SetIntrospectionFromToken claims_for t c)
| call_revoke_all c : oidc_call _ (RevokeAllForClient scan c).

(** One operation runs, or time passes. *)
Inductive ostep : OWorld -> OWorld -> Prop :=
| ostep_call A (m : Op A) w : oidc_call A m -> ostep w (m w).1
| ostep_wait w d :
    0 <= d ->
    ostep w (mkOWorld (mkRedis (rkeys (rds w)) (rclock (rds w) + d) (rfate (rds w)) (rcalls (rds w))) (bus w)).

Definition oreach : OWorld -> OWorld -> Prop := rtc ostep.

Lemma typed_scan (c : Z) (p : string) : cspec well_typed (command (scan_f scan c p)) no_clash.
Proof. apply typed_command; [|done]. intros ks now HI. done. Qed.

Lemma scan_loop_typed fuel suffix out c : typed_op (scan_loop scan fuel suffix out c).
Proof.
  revert out c. induction fuel as [|fuel IH]; intros out c; cbn [scan_loop]; [typed|].
  eapply spec_call; [apply typed_scan|]. intros [[l next]|e] _; typed. apply IH.
Qed.

Lemma terminate_each_typed c users n e : typed_op (terminate_each c users n e).
Proof.
  revert n e. induction users as [|u users IH]; intros n e; cbn [terminate_each]; [typed|].
  eapply spec_attempt; [apply TerminateSession_typed|]. intros [a|e'] _; apply IH.
Qed.

Lemma RevokeAllForClient_typed c : typed_op (RevokeAllForClient scan c).
Proof.
  unfold RevokeAllForClient. typed. eapply spec_call; [apply typed_smembers; eauto with typed|].
  intros [l|[]] _; cbv zeta; typed; (apply scan_loop_typed || apply terminate_each_typed).
Qed.

Lemma SetUserinfo_typed u c s : typed_op (SetUserinfo claims_for u c s).
Proof. unfold SetUserinfo. typed. Qed.

Lemma AuthRequestByID_typed id : typed_op (AuthRequestByID id).
Proof. unfold AuthRequestByID. typed. Qed.

Lemma oidc_call_typed A (m : Op A) : oidc_call A m -> typed_op m.
Proof.
  destruct 1.
  - unfold CreateAuthRequest, enforcePKCE. typed.
  - apply AuthRequestByID_typed.
  - unfold AuthRequestByCode. eapply spec_call.
    + apply typed_get. intros v Hv. apply holds_code_inv in Hv as (id & ->). eauto.
    + intros [d|[]] [Hx _]; typed; (apply AuthRequestByID_typed || done).
  - unfold SaveAuthCode. typed.
  - unfold DeleteAuthRequest. typed.
  - unfold AuthRequestDone. typed.
  - unfold CreateAccessToken. destruct (getInfoFromRequest q) as [[[c t] amr] sid]. typed. apply storeAccessToken_typed.
  - apply CreateAccessAndRefreshTokens_typed.
  - apply TokenRequestByRefreshToken_typed.
  - unfold GetRefreshTokenInfo. typed.
  - apply TerminateSession_typed.
  - apply RevokeToken_typed.
  - unfold SetUserinfoFromToken. typed. apply SetUserinfo_typed.
  - unfold SetIntrospectionFromToken. apply typed_getJSON; [eauto with typed|].
    intros ok [e|] at_ He; [by apply spec_throw, sound_err, He|]. typed. apply SetUserinfo_typed.
  - apply RevokeAllForClient_typed.
Qed.

Lemma ostep_typed w w' : ostep w w' -> well_typed (rds w) -> well_typed (rds w').
Proof.
  destruct 1 as [A m w Hm | w d Hd]; intros HI; [|exact HI].
  destruct (m w) as [w' x] eqn:E. by destruct (oidc_call_typed A m Hm w w' x HI E).
Qed.

(** C30: the keys of the provider are well typed in every state its operations
    reach, connection faults included, and so no operation ever fails because it
    read a value of another kind: what one operation stores under a key, the
    others decode. *)
Theorem store_stays_well_typed w0 w A (m : Op A) e :
  rkeys (rds w0) = ∅ -> oreach w0 w -> oidc_call A m ->
  well_typed (rds w) /\ ((m w).2 = Err e -> ~ type_error e).
Proof.
  intros H0 Hr Hm. assert (well_typed (rds w)) as HI.
  { eapply (rtc_invariant ostep (fun w => well_typed (rds w))); [apply ostep_typed | exact Hr |].
    intros k v. by rewrite H0, lookup_empty. }
  split; [done|]. intros He. destruct (m w) as [w' x] eqn:E.
  destruct (oidc_call_typed A m Hm w w' x HI E) as [_ Hs]. simpl in He. by apply Hs.
Qed.
End Histories.
