(* ===== verification/OidcRevocation.v ===== *)
(** * OidcRevocation: every live token can be found and revoked

    Without connection faults: a live token is listed in the index of its user and
    client, a live refresh token in its family, and each index outlives what it
    lists. So terminating a user's session, revoking a client and replaying a spent
    refresh token reach every token they are meant to reach. *)

From S2P Require Import Prelude Text Redis OidcJson OidcTokens OidcProps.

(** ** Runs without faults

    The clock does not move inside an operation: from the keys [ks] the operation
    ends with result [x], keys [ks'] and the events [evs] published. *)

Section Fine.
Context (now : Z).

Definition at_now (r : ORedis) : Prop := fine r /\ rclock r = now.

Definition runs {A} (m : Op A) (ks : Keys) (x : res OErr A) (ks' : Keys) (evs : list OEvent) : Prop :=
  forall w, at_now (rds w) -> rkeys (rds w) = ks ->
  exists w', m w = (w', x) /\ at_now (rds w') /\ rkeys (rds w') = ks' /\ bus w' = bus w ++ evs.

Lemma o_runs_ret {A} (a : A) ks : runs (ret a) ks (Ok a) ks [].
Proof. intros w Hn Hk. exists w. by rewrite app_nil_r. Qed.
Lemma oidc_runs_throw {A} e ks : runs (throw e : Op A) ks (Err e) ks [].
Proof. intros w Hn Hk. exists w. by rewrite app_nil_r. Qed.
Lemma o_runs_bind {A B} (m : Op A) (k : A -> Op B) ks a ks1 evs x ks2 evs' :
  runs m ks (Ok a) ks1 evs -> runs (k a) ks1 x ks2 evs' -> runs (bind m k) ks x ks2 (evs ++ evs').
Proof.
  intros Hm Hk w Hn Hks. destruct (Hm w Hn Hks) as (w1 & E & Hn1 & Hk1 & Hb1).
  destruct (Hk w1 Hn1 Hk1) as (w2 & E2 & Hn2 & Hk2 & Hb2). exists w2. unfold bind. rewrite E.
  split_and!; try done. by rewrite Hb2, Hb1, app_assoc.
Qed.
Lemma runs_bind_err {A B} (m : Op A) (k : A -> Op B) ks e ks1 evs :
  runs m ks (Err e) ks1 evs -> runs (bind m k) ks (Err e) ks1 evs.
Proof.
  intros Hm w Hn Hks. destruct (Hm w Hn Hks) as (w1 & E & Hn1 & Hk1 & Hb1). exists w1. unfold bind. by rewrite E.
Qed.
Lemma oidc_runs_attempt {A B} (m : Op A) (k : res OErr A -> Op B) ks y ks1 evs x ks2 evs' :
  runs m ks y ks1 evs -> runs (k y) ks1 x ks2 evs' -> runs (attempt m k) ks x ks2 (evs ++ evs').
Proof.
  intros Hm Hk w Hn Hks. destruct (Hm w Hn Hks) as (w1 & E & Hn1 & Hk1 & Hb1).
  destruct (Hk w1 Hn1 Hk1) as (w2 & E2 & Hn2 & Hk2 & Hb2). exists w2. unfold attempt. rewrite E.
  split_and!; try done. by rewrite Hb2, Hb1, app_assoc.
Qed.
(** The first part publishes nothing. *)
Lemma runs_then {A B} (m : Op A) (k : A -> Op B) ks a ks1 x ks2 evs :
  runs m ks (Ok a) ks1 [] -> runs (k a) ks1 x ks2 evs -> runs (bind m k) ks x ks2 evs.
Proof. apply (o_runs_bind m k ks a ks1 []). Qed.
Lemma runs_call {A B} (f : Keys -> Z -> Keys * res RErr A) (k : res RErr A -> Op B) ks ks1 y x ks2 evs :
  f ks now = (ks1, y) -> runs (k y) ks1 x ks2 evs -> runs (call (command f) k) ks x ks2 evs.
Proof.
  intros Hf Hk w [Hfine Hnow] Hks. unfold call. rewrite (command_fine f _ Hfine), Hnow, Hks, Hf.
  apply (Hk (mkOWorld (mkRedis ks1 now (rfate (rds w)) (S (rcalls (rds w)))) (bus w))); [by split | done].
Qed.
Lemma runs_now {B} (k : Z -> Op B) ks x ks' evs : runs (k now) ks x ks' evs -> runs (bind Now k) ks x ks' evs.
Proof.
  intros Hk w Hn Hks. destruct (Hk w Hn Hks) as (w' & E & H). exists w'. split; [|done].
  rewrite <- E. unfold bind, Now, gets. by rewrite (proj2 Hn).
Qed.
Lemma runs_publish e ks : runs (Publish e) ks (Ok tt) ks [e].
Proof. intros w Hn Hks. eexists. split; [reflexivity|]. done. Qed.
Lemma runs_unchecked {A} (f : Keys -> Z -> Keys * res RErr A) ks :
  runs (unchecked (command f)) ks (Ok tt) (f ks now).1 [].
Proof. eapply runs_call; [apply surjective_pairing | apply o_runs_ret]. Qed.
Lemma runs_checked {A} (f : Keys -> Z -> Keys * res RErr A) ks a :
  (f ks now).2 = Ok a -> runs (checked (command f)) ks (Ok a) (f ks now).1 [].
Proof. intros H. eapply runs_call; [apply surjective_pairing|]. rewrite H. apply o_runs_ret. Qed.

(** What a read finds. *)
Lemma runs_getJSON_none {A B} `{Document A} key (k : bool -> option OErr -> A -> Op B) ks x ks' evs :
  peek ks now key = None -> runs (k false None (decode (DObj []))) ks x ks' evs -> runs (getJSON key k) ks x ks' evs.
Proof. intros Hp Hk. eapply runs_call; [unfold get_f; by rewrite Hp | exact Hk]. Qed.
Lemma runs_getJSON_some {A B} `{Document A} key (k : bool -> option OErr -> A -> Op B) ks a dl x ks' evs :
  peek ks now key = Some (mkRKey (RStr (marshal a)) dl) -> runs (k true None a) ks x ks' evs ->
  runs (getJSON key k) ks x ks' evs.
Proof.
  intros Hp Hk. eapply runs_call; [unfold get_f; by rewrite Hp|]. cbv beta iota.
  by rewrite decodes_marshal, decode_marshal.
Qed.

Lemma runs_det {A} (m : Op A) ks x ks' evs w :
  at_now (rds w) -> rkeys (rds w) = ks -> runs m ks x ks' evs ->
  (m w).2 = x /\ at_now (rds (m w).1) /\ rkeys (rds (m w).1) = ks' /\ bus (m w).1 = bus w ++ evs.
Proof. intros Hn Hk Hr. destruct (Hr w Hn Hk) as (w' & E & H). by rewrite E. Qed.
End Fine.

(** ** The index invariant *)

Definition keys_typed (ks : Keys) : Prop := forall k e, ks !! k = Some e -> holds k (rval e).
Definition index_key (k : string) : Prop := (exists u c, k = kUserTok u c) \/ (exists f, k = kRefreshFamily f).

(** The set at [idx] lists [m] and lives at least until [e]. *)
Definition listed (ks : Keys) (idx m : string) (e : Z) : Prop :=
  exists s e', ks !! idx = Some (mkRKey (RSet s) (Some e')) /\ m ∈ s /\ e <= e'.

(** The index entries a stored token asks for. *)
Inductive owed : string -> Doc -> string -> string -> Prop :=
| owed_access id (a : accessToken) :
    Subject a <> ""%string -> t_ClientID a <> ""%string ->
    owed (kToken id) (marshal a) (kUserTok (Subject a) (t_ClientID a)) (kToken id)
| owed_refresh t (r : refreshToken) :
    f_UserID r <> ""%string -> f_ClientID r <> ""%string ->
    owed (kRefresh t) (marshal r) (kUserTok (f_UserID r) (f_ClientID r)) (kRefresh t)
| owed_family t (r : refreshToken) :
    FamilyID r <> ""%string -> owed (kRefresh t) (marshal r) (kRefreshFamily (FamilyID r)) t.

Lemma marshal_inj {A} `{Document A} (a b : A) : marshal a = marshal b -> a = b.
Proof. intros E. rewrite <- (decode_marshal a), E. apply decode_marshal. Qed.

Lemma kToken_inj a b : kToken a = kToken b -> a = b.
Proof. apply app_cancel_l. Qed.
Lemma kRefresh_inj a b : kRefresh a = kRefresh b -> a = b.
Proof. apply app_cancel_l. Qed.
Lemma kFamily_inj a b : kRefreshFamily a = kRefreshFamily b -> a = b.
Proof. apply app_cancel_l. Qed.

Lemma token_not_index k : token_key k -> index_key k -> False.
Proof. intros [[? ->]|[? ->]] [(? & ? & H)|[? H]]; discriminate. Qed.
Lemma owed_keys k d idx m : owed k d idx m -> token_key k /\ index_key idx.
Proof. unfold token_key, index_key. destruct 1; eauto 8. Qed.

Lemma owed_access_inv id (a : accessToken) idx m :
  owed (kToken id) (marshal a) idx m ->
  Subject a <> ""%string /\ t_ClientID a <> ""%string /\ idx = kUserTok (Subject a) (t_ClientID a) /\ m = kToken id.
Proof.
  intros Ho. remember (kToken id) as k eqn:Ek. remember (marshal a) as d eqn:Ed.
  destruct Ho; try discriminate. apply kToken_inj in Ek. apply marshal_inj in Ed. by subst.
Qed.
Lemma owed_refresh_inv t (r : refreshToken) idx m :
  owed (kRefresh t) (marshal r) idx m ->
  (f_UserID r <> ""%string /\ f_ClientID r <> ""%string /\ idx = kUserTok (f_UserID r) (f_ClientID r) /\ m = kRefresh t)
  \/ (FamilyID r <> ""%string /\ idx = kRefreshFamily (FamilyID r) /\ m = t).
Proof.
  intros Ho. remember (kRefresh t) as k eqn:Ek. remember (marshal r) as d eqn:Ed.
  destruct Ho; try discriminate; apply kRefresh_inj in Ek; apply marshal_inj in Ed; subst; auto.
Qed.

Section Index.
Context (now R : Z).

(** [but] is a token whose entries are still being written. *)
Record indexed (but : option string) (ks : Keys) : Prop := {
  ix_typed : keys_typed ks;
  ix_bounded : forall k v dl, token_key k -> ks !! k = Some (mkRKey v dl) -> exists e, dl = Some e /\ e <= now + R;
  ix_listed : forall k d e idx m,
    but <> Some k -> ks !! k = Some (mkRKey (RStr d) (Some e)) -> now < e -> owed k d idx m -> listed ks idx m e
}.

(** Keys that are neither tokens nor indexes do not matter. *)
Lemma indexed_other but ks ks' :
  indexed but ks -> keys_typed ks' ->
  (forall k, token_key k \/ index_key k -> ks' !! k = ks !! k) -> indexed but ks'.
Proof.
  intros [Ht Hb Hl] Ht' Hag. split; [done|..].
  - intros k v dl Hk. rewrite Hag by auto. by apply Hb.
  - intros k d e idx m Hne Hk He Ho. destruct (owed_keys _ _ _ _ Ho) as [Htk Hik].
    rewrite Hag in Hk by auto. destruct (Hl _ _ _ _ _ Hne Hk He Ho) as (s & e' & Hs & ? & ?).
    exists s, e'. by rewrite Hag by auto.
Qed.

Lemma indexed_dels but ks l :
  indexed but ks -> (forall k, k ∈ l -> token_key k) -> indexed but (foldr delete ks l).
Proof.
  intros [Ht Hb Hl] Htk. split.
  - intros k e. rewrite lookup_dels. case_decide; [done|]. apply Ht.
  - intros k v dl Hk. rewrite lookup_dels. case_decide; [done|]. by apply Hb.
  - intros k d e idx m Hne Hk He Ho. rewrite lookup_dels in Hk. case_decide; [done|].
    destruct (Hl _ _ _ _ _ Hne Hk He Ho) as (s & e' & Hs & ? & ?). exists s, e'. split_and!; [|done|done].
    rewrite lookup_dels, decide_False; [done|]. intros Hin. destruct (owed_keys _ _ _ _ Ho) as [_ Hik].
    eapply token_not_index; [by apply Htk | done].
Qed.

Lemma o_indexed_set but ks k v e :
  indexed but ks -> but = None \/ but = Some k -> token_key k -> holds k v -> e <= now + R ->
  indexed (Some k) (<[k := mkRKey v (Some e)]> ks).
Proof.
  intros [Ht Hb Hl] Hbut Hk Hv He. split.
  - intros k' e' Hk'. apply lookup_insert_Some in Hk' as [[<- <-]|[_ Hk']]; [done | by apply Ht].
  - intros k' v' dl Hk' Hl'. apply lookup_insert_Some in Hl' as [[<- ?]|[_ Hl']]; simplify_eq; eauto.
  - intros k' d e' idx m Hne Hk' He' Ho. apply lookup_insert_Some in Hk' as [[<- ?]|[Hn Hk']]; [done|].
    destruct (Hl k' d e' idx m) as (s & e1 & Hs & ? & ?); [destruct Hbut; congruence | done.. |].
    exists s, e1. split_and!; [|done|done]. rewrite lookup_insert_ne; [done|]. intros <-.
    destruct (owed_keys _ _ _ _ Ho) as [_ Hik]. by eapply token_not_index.
Qed.

Lemma indexed_done k ks :
  indexed (Some k) ks ->
  (forall d e idx m, ks !! k = Some (mkRKey (RStr d) (Some e)) -> now < e -> owed k d idx m -> listed ks idx m e) ->
  indexed None ks.
Proof.
  intros [Ht Hb Hl] Hk. split; [done | done|]. intros k' d e idx m _ Hk' He Ho.
  destruct (decide (k' = k)) as [->|Hne]; [by eapply Hk | eapply Hl; eauto; congruence].
Qed.

(** An index gains a member and its lifetime starts anew. *)
Definition refreshed (idx m : string) (ks : Keys) : Keys :=
  <[idx := mkRKey (RSet ({[ m ]} ∪ match peek ks now idx with Some (mkRKey (RSet s) _) => s | _ => ∅ end))
             (Some (now + R))]> ks.

Lemma listed_refreshed idx m ks i m' e :
  listed ks i m' e -> now < e -> e <= now + R -> listed (refreshed idx m ks) i m' e.
Proof.
  intros (s & e' & Hs & Hin & He') Hnow He. unfold listed, refreshed.
  destruct (decide (i = idx)) as [->|Hne].
  - assert (peek ks now idx = Some (mkRKey (RSet s) (Some e'))) as ->.
    { apply peek_Some. split; [done|]. simpl. apply Z.ltb_lt. lia. }
    rewrite lookup_insert_eq. eexists _, _. split_and!; [done | set_solver | done].
  - rewrite lookup_insert_ne by done. eauto.
Qed.

Lemma listed_new idx m ks : listed (refreshed idx m ks) idx m (now + R).
Proof. unfold listed, refreshed. rewrite lookup_insert_eq. eexists _, _. split_and!; [done | set_solver | lia]. Qed.

Lemma indexed_refreshed but idx m ks :
  indexed but ks -> index_key idx -> (forall v, holds idx v -> exists s, v = RSet s) ->
  (forall s, holds idx (RSet s) -> holds idx (RSet ({[ m ]} ∪ s))) -> holds idx (RSet {[ m ]}) ->
  indexed but (refreshed idx m ks).
Proof.
  intros [Ht Hb Hl] Hik Hset Hadd Hone. split.
  - intros k e Hk. unfold refreshed in Hk. apply lookup_insert_Some in Hk as [[<- <-]|[_ Hk]]; [|by apply Ht].
    simpl. destruct (peek ks now idx) as [[v dl]|] eqn:Hp; [|by rewrite union_empty_r_L].
    destruct (Hset v (peek_holds _ _ _ _ Ht Hp)) as [s ->]. apply Hadd. exact (peek_holds _ _ _ _ Ht Hp).
  - intros k v dl Hk Hl'. unfold refreshed in Hl'. apply lookup_insert_Some in Hl' as [[<- _]|[_ Hl']]; [|by eapply Hb].
    exfalso. by eapply token_not_index.
  - intros k d e i m' Hne Hk He Ho. destruct (owed_keys _ _ _ _ Ho) as [Htk _]. unfold refreshed in Hk.
    rewrite lookup_insert_ne in Hk; [|intros ->; by eapply token_not_index].
    destruct (Hb k _ _ Htk Hk) as (e1 & [= <-] & He1). apply listed_refreshed; [by eapply Hl | done | done].
Qed.

(** A family loses a token that is gone. *)
Lemma o_indexed_srem but f t ks :
  indexed but ks -> ks !! kRefresh t = None \/ but = Some (kRefresh t) ->
  indexed but (srem_f (kRefreshFamily f) t ks now).1.
Proof.
  intros [Ht Hb Hl] Hgone. unfold srem_f.
  destruct (peek ks now (kRefreshFamily f)) as [[v dl]|] eqn:Hp; [|by split].
  destruct (holds_family_inv f v (peek_holds _ _ _ _ Ht Hp)) as [s ->]. apply peek_Some in Hp as [Hf Ha].
  set (ks' := (if decide (s ∖ {[ t ]} = ∅) then _ else _)).
  assert (forall k, k <> kRefreshFamily f -> ks' !! k = ks !! k) as Hag.
  { intros k Hk. unfold ks'. case_decide; (rewrite lookup_delete_ne || rewrite lookup_insert_ne); congruence. }
  cbn [fst]. split.
  - intros k e Hk. destruct (decide (k = kRefreshFamily f)) as [->|Hne]; [|rewrite Hag in Hk by done; by apply Ht].
    unfold ks' in Hk. case_decide; [by rewrite lookup_delete_eq in Hk|]. rewrite lookup_insert_eq in Hk.
    simplify_eq. constructor.
  - intros k v dl' Hk. rewrite Hag; [by apply Hb|]. intros ->. eapply token_not_index; [done|]. right. eauto.
  - intros k d e i m Hne Hk He Ho. destruct (owed_keys _ _ _ _ Ho) as [Htk Hik].
    rewrite Hag in Hk by (intros ->; eapply token_not_index; [done | right; eauto]).
    destruct (Hl _ _ _ _ _ Hne Hk He Ho) as (s1 & e' & Hs & Hin & He'). unfold listed.
    destruct (decide (i = kRefreshFamily f)) as [->|Hi]; [|rewrite Hag by done; eauto].
    rewrite Hf in Hs. simplify_eq.
    assert (m <> t) as Hmt.
    { intros ->. inversion Ho as [| |t' r Hr Hk1 Hd Hf1 Hm]; subst.
      destruct Hgone as [Hgone|Hgone]; [by rewrite Hgone in Hk | by apply Hne]. }
    unfold ks'. case_decide as Hemp; [set_solver|]. rewrite lookup_insert_eq.
    eexists _, _. split_and!; [done | set_solver | done].
Qed.

(** An index nothing live needs may go. *)
Lemma indexed_drop but idx ks :
  indexed but ks -> index_key idx ->
  (forall k d e m, ks !! k = Some (mkRKey (RStr d) (Some e)) -> now < e -> owed k d idx m -> False) ->
  indexed but (delete idx ks).
Proof.
  intros [Ht Hb Hl] Hik Hno. split.
  - intros k e Hk. apply lookup_delete_Some in Hk as [_ Hk]. by apply Ht.
  - intros k v dl Hk Hk'. apply lookup_delete_Some in Hk' as [_ Hk']. by eapply Hb.
  - intros k d e i m Hne Hk He Ho. apply lookup_delete_Some in Hk as [_ Hk].
    destruct (Hl _ _ _ _ _ Hne Hk He Ho) as (s & e' & Hs & ? & ?). exists s, e'. split_and!; [|done|done].
    rewrite lookup_delete_ne; [done|]. intros <-. by eapply Hno.
Qed.
End Index.

(** ** The operations, as functions on the keys *)

Section Ops.
Context (cfg : Config).
Context (HA : 0 < AccessTokenLifetime cfg <= RefreshTokenLifetime cfg).
Context (HR : (Second | RefreshTokenLifetime cfg)).
Abbreviation R := (RefreshTokenLifetime cfg).

Lemma px_bound d : 0 < d <= R -> 0 < px d <= R.
Proof.
  intros Hd. assert (Millisecond <= R) as HM.
  { destruct HR as [q Hq]. unfold Second, Millisecond in *. nia. }
  destruct (px_le d) as [H1 H2]; [lia|]. split; [done|]. unfold Millisecond in *.
  destruct (Z.le_gt_cases 1000000 d); [specialize (H2 ltac:(lia)); lia|].
  unfold px, Millisecond. rewrite (proj2 (Z.ltb_lt 0 d)), (proj2 (Z.ltb_lt d 1000000)) by lia. simpl. lia.
Qed.

Section Now.
Context (now : Z).
Abbreviation runs := (runs now).
Abbreviation renewed := (refreshed now R).

(** SADD and EXPIRE on an index. *)
Lemma add_refreshed idx m ks :
  keys_typed ks -> (forall v, holds idx v -> exists s, v = RSet s) ->
  (expire_f idx R (sadd_f idx m ks now).1 now).1 = renewed idx m ks.
Proof.
  intros Ht Hset. unfold sadd_f, expire_f, refreshed.
  destruct (peek ks now idx) as [[v dl]|] eqn:Hp; cbn [fst].
  - destruct (Hset v (peek_holds _ _ _ _ Ht Hp)) as [s ->]. cbn [fst].
    apply peek_Some in Hp as [_ Ha]. rewrite peek_insert_eq by done. cbn [fst rval].
    rewrite ex_exact by (done || lia). by rewrite insert_insert_eq.
  - rewrite peek_insert_eq by done. cbn [fst rval]. rewrite ex_exact by (done || lia).
    by rewrite insert_insert_eq, union_empty_r_L.
Qed.

Lemma runs_add idx m ks {B} (k : unit -> Op B) x ks' evs :
  keys_typed ks -> (forall v, holds idx v -> exists s, v = RSet s) ->
  runs (k tt) (renewed idx m ks) x ks' evs ->
  runs (do! unchecked (SADD idx m) in let! u := unchecked (EXPIRE idx R) in k u) ks x ks' evs.
Proof.
  intros Ht Hset Hk. eapply runs_then; [apply runs_unchecked|]. eapply runs_then; [apply runs_unchecked|].
  by rewrite add_refreshed.
Qed.
Lemma runs_add_last idx m ks :
  keys_typed ks -> (forall v, holds idx v -> exists s, v = RSet s) ->
  runs (do! unchecked (SADD idx m) in unchecked (EXPIRE idx R)) ks (Ok tt) (renewed idx m ks) [].
Proof.
  intros Ht Hset. eapply runs_then; [apply runs_unchecked|]. rewrite <- add_refreshed by done. apply runs_unchecked.
Qed.

Lemma user_add_typed but u c k ks :
  indexed now R but ks -> token_key k -> indexed now R but (renewed (kUserTok u c) k ks).
Proof.
  intros HI Hk. apply indexed_refreshed; [done | left; eauto | | |].
  - intros v Hv. apply holds_user_inv in Hv as (s & -> & _). eauto.
  - intros s Hs. apply holds_user_inv in Hs as (s' & [= <-] & Hs). constructor.
    intros k' [->%elem_of_singleton|]%elem_of_union; auto.
  - constructor. by intros k' ->%elem_of_singleton.
Qed.
Lemma family_add_typed but f t ks :
  indexed now R but ks -> indexed now R but (renewed (kRefreshFamily f) t ks).
Proof.
  intros HI. apply indexed_refreshed; [done | right; eauto | | constructor | constructor].
  intros v Hv. apply holds_family_inv in Hv as (s & ->). eauto.
Qed.
Lemma client_add_other but c u ks :
  indexed now R but ks -> indexed now R but (renewed (kClientUsers c) u ks).
Proof.
  intros HI. apply (indexed_other now R but ks); [done|..].
  - intros k e Hk. unfold refreshed in Hk.
    apply lookup_insert_Some in Hk as [[<- <-]|[_ Hk]]; [constructor | by apply (ix_typed _ _ _ _ HI)].
  - intros k [[[? ->]|[? ->]]|[(? & ? & ->)|[? ->]]]; unfold refreshed; by rewrite lookup_insert_ne.
Qed.

(** indexAdd. *)
Definition index_add (u c k : string) (ks : Keys) : Keys :=
  if decide (u = "" \/ c = "")%string then ks
  else renewed (kClientUsers c) u (renewed (kUserTok u c) k ks).

Lemma indexAdd_runs but u c k ks :
  indexed now R but ks -> token_key k -> runs (indexAdd cfg u c k) ks (Ok tt) (index_add u c k ks) [].
Proof.
  intros HI Hk. unfold indexAdd, index_add. case_decide; [apply o_runs_ret|].
  apply runs_add; [apply (ix_typed _ _ _ _ HI) | |].
  - intros v Hv. apply holds_user_inv in Hv as (s & -> & _). eauto.
  - apply runs_add_last; [apply (ix_typed _ _ _ _ (user_add_typed but u c k ks HI Hk))|].
    intros v Hv. by apply holds_client_inv in Hv.
Qed.

Lemma index_add_indexed but u c k ks :
  indexed now R but ks -> token_key k -> indexed now R but (index_add u c k ks).
Proof. intros HI Hk. unfold index_add. case_decide; [done|]. by apply client_add_other, user_add_typed. Qed.

Lemma index_add_listed u c k ks :
  u <> ""%string -> c <> ""%string -> listed (index_add u c k ks) (kUserTok u c) k (now + R).
Proof.
  intros Hu Hc. unfold index_add. rewrite decide_False by tauto.
  destruct (listed_new now R (kUserTok u c) k ks) as (s & e & Hs & H). exists s, e. split; [|done].
  unfold refreshed at 1. by rewrite lookup_insert_ne.
Qed.

Lemma index_add_other u c k ks k' : token_key k' -> index_add u c k ks !! k' = ks !! k'.
Proof.
  intros Hk. unfold index_add. case_decide; [done|]. unfold refreshed.
  destruct Hk as [[? ->]|[? ->]]; by rewrite !lookup_insert_ne.
Qed.

Lemma listed_index_add u c k ks i m e :
  listed ks i m e -> now < e -> e <= now + R -> listed (index_add u c k ks) i m e.
Proof. intros. unfold index_add. case_decide; [done|]. by do 2 (apply listed_refreshed; [|done..]). Qed.

(** Storing a token and its entries. *)
Definition stored_access (a : accessToken) (ks : Keys) : Keys :=
  index_add (Subject a) (t_ClientID a) (kToken (t_ID a))
    (<[kToken (t_ID a) := mkRKey (RStr (marshal a)) (Some (now + px (AccessTokenLifetime cfg)))]> ks).

Lemma setJSON_runs {A} `{Document A} key (v : A) ttl ks :
  0 < ttl ->
  runs (checked (setJSON key v ttl)) ks (Ok tt) (<[key := mkRKey (RStr (marshal v)) (Some (now + px ttl))]> ks) [].
Proof.
  intros Httl. assert (set_f key (marshal v) ttl ks now = (_, Ok tt)) as E by by apply set_f_pos.
  unfold setJSON, SET. eapply runs_call; [exact E|]. apply o_runs_ret.
Qed.

Lemma set_indexed but k v ttl ks :
  indexed now R but ks -> but = None \/ but = Some k -> token_key k -> holds k v -> 0 < ttl <= R ->
  indexed now R (Some k) (<[k := mkRKey v (Some (now + px ttl))]> ks).
Proof. intros. eapply o_indexed_set; [done..|]. pose proof (px_bound ttl). lia. Qed.

Lemma storeAccessToken_runs id c rid sub aud scs ks :
  indexed now R None ks ->
  let a := mkAccessToken id c sub rid aud scs (now + AccessTokenLifetime cfg) in
  runs (storeAccessToken cfg (Some id) c rid sub aud scs) ks (Ok a) (stored_access a ks) [].
Proof.
  intros HI a. unfold storeAccessToken, randomly. apply runs_now.
  eapply runs_then; [apply setJSON_runs; lia|]. eapply runs_then; [|apply o_runs_ret].
  eapply (indexAdd_runs (Some (kToken id))); [|left; eauto].
  eapply set_indexed; [done | by left | left; eauto | by constructor | lia].
Qed.

Lemma stored_access_indexed a ks : indexed now R None ks -> indexed now R None (stored_access a ks).
Proof.
  intros HI. unfold stored_access. assert (token_key (kToken (t_ID a))) as Htk by (left; eauto).
  apply (indexed_done now R (kToken (t_ID a))).
  - apply index_add_indexed; [|done]. eapply set_indexed; [done | by left | done | by constructor | lia].
  - intros d e idx m Hk He Ho. rewrite index_add_other, lookup_insert_eq in Hk by done. simplify_eq.
    apply owed_access_inv in Ho as (Hs & Hc & -> & ->).
    destruct (index_add_listed (Subject a) (t_ClientID a) (kToken (t_ID a)) 
       (<[kToken (t_ID a):=mkRKey (RStr (marshal a)) (Some (now + px (AccessTokenLifetime cfg)))]> ks) Hs Hc)
      as (s & e' & ? & ? & ?).
    exists s, e'. split_and!; [done..|]. pose proof (px_bound (AccessTokenLifetime cfg)). lia.
Qed.

(** *** Refresh tokens *)

Lemma refresh_done ks (rt : refreshToken) :
  indexed now R (Some (kRefresh (Token rt))) ks ->
  ks !! kRefresh (Token rt) = Some (mkRKey (RStr (marshal rt)) (Some (now + px R))) ->
  (f_UserID rt <> ""%string -> f_ClientID rt <> ""%string ->
     listed ks (kUserTok (f_UserID rt) (f_ClientID rt)) (kRefresh (Token rt)) (now + R)) ->
  (FamilyID rt <> ""%string -> listed ks (kRefreshFamily (FamilyID rt)) (Token rt) (now + R)) ->
  indexed now R None ks.
Proof.
  intros HI Hrt Hu Hf. eapply indexed_done; [exact HI|]. intros d e idx m Hk He Ho.
  rewrite Hrt in Hk. simplify_eq. pose proof (px_bound R).
  assert (forall s e', ks !! idx = Some (mkRKey (RSet s) (Some e')) /\ m ∈ s /\ now + R <= e' ->
            listed ks idx m (now + px R)) as Hw.
  { intros s e' (? & ? & ?). exists s, e'. split_and!; [done | done | lia]. }
  apply owed_refresh_inv in Ho as [(Hu1 & Hc1 & -> & ->)|(Hf1 & -> & ->)].
  - destruct (Hu Hu1 Hc1) as (s & e' & Hl). by eapply Hw.
  - destruct (Hf Hf1) as (s & e' & Hl). by eapply Hw.
Qed.

Definition family_add (f t : string) (ks : Keys) : Keys :=
  if decide (f = "")%string then ks else renewed (kRefreshFamily f) t ks.

Lemma familyAdd_runs but f t ks :
  indexed now R but ks -> runs (familyAdd cfg f t) ks (Ok tt) (family_add f t ks) [].
Proof.
  intros HI. unfold familyAdd, family_add. case_decide; [apply o_runs_ret|].
  apply runs_add_last; [apply (ix_typed _ _ _ _ HI) | apply holds_family_inv].
Qed.

(** The record and its entry in the user's index; the family is still to come. *)
Definition placed_refresh (rt : refreshToken) (ks : Keys) : Keys :=
  index_add (f_UserID rt) (f_ClientID rt) (kRefresh (Token rt))
    (<[kRefresh (Token rt) := mkRKey (RStr (marshal rt)) (Some (now + px R))]> ks).

Lemma placed_indexed rt ks :
  indexed now R None ks -> indexed now R (Some (kRefresh (Token rt))) (placed_refresh rt ks).
Proof.
  intros HI. apply index_add_indexed; [|right; eauto].
  eapply set_indexed; [done | by left | right; eauto | by constructor | lia].
Qed.
Lemma placed_lookup rt ks :
  placed_refresh rt ks !! kRefresh (Token rt) = Some (mkRKey (RStr (marshal rt)) (Some (now + px R))).
Proof. unfold placed_refresh. by rewrite index_add_other, lookup_insert_eq by (right; eauto). Qed.
Lemma placed_runs {B} rt ks (k : unit -> Op B) x ks' evs :
  indexed now R None ks -> runs (k tt) (placed_refresh rt ks) x ks' evs ->
  runs (do! checked (setJSON (kRefresh (Token rt)) rt R) in
        let! u := indexAdd cfg (f_UserID rt) (f_ClientID rt) (kRefresh (Token rt)) in k u) ks x ks' evs.
Proof.
  intros HI Hk. eapply runs_then; [apply setJSON_runs; lia|]. eapply runs_then; [|exact Hk].
  eapply (indexAdd_runs (Some (kRefresh (Token rt)))); [|right; eauto].
  eapply set_indexed; [done | by left | right; eauto | by constructor | lia].
Qed.

(** Adding to a family: what the record owes is then in place. *)
Lemma family_add_done rt ks ks' :
  indexed now R (Some (kRefresh (Token rt))) ks' ->
  (forall i m e, listed (placed_refresh rt ks) i m e -> now < e -> i = kUserTok (f_UserID rt) (f_ClientID rt) ->
     listed ks' i m e) ->
  ks' !! kRefresh (Token rt) = placed_refresh rt ks !! kRefresh (Token rt) ->
  indexed now R None (family_add (FamilyID rt) (Token rt) ks').
Proof.
  intros HI Hl Hk. pose proof (px_bound R). apply (refresh_done _ rt).
  - unfold family_add. case_decide; [done | by apply family_add_typed].
  - unfold family_add. rewrite placed_lookup in Hk. case_decide; [done|].
    unfold refreshed. by rewrite lookup_insert_ne.
  - intros Hu Hc. pose proof (index_add_listed (f_UserID rt) (f_ClientID rt) (kRefresh (Token rt))
      (<[kRefresh (Token rt) := mkRKey (RStr (marshal rt)) (Some (now + px R))]> ks) Hu Hc) as Hlu.
    assert (listed ks' (kUserTok (f_UserID rt) (f_ClientID rt)) (kRefresh (Token rt)) (now + R)) as H1.
    { eapply Hl; [exact Hlu | lia | done]. }
    unfold family_add. case_decide; [done|]. apply listed_refreshed; [done | lia | lia].
  - intros Hf. unfold family_add. rewrite decide_False by done. apply listed_new.
Qed.

Definition stored_refresh (rt : refreshToken) (ks : Keys) : Keys :=
  family_add (FamilyID rt) (Token rt) (placed_refresh rt ks).

Lemma stored_refresh_indexed rt ks : indexed now R None ks -> indexed now R None (stored_refresh rt ks).
Proof. intros HI. apply (family_add_done rt ks); [by apply placed_indexed | done | done]. Qed.

Lemma storeRefreshToken_runs fam rid a amr t sid ks :
  indexed now R None ks ->
  let rt := mkRefreshToken rid rid t amr (t_Audience a) (Subject a) (t_ClientID a) (t_Scopes a) (t_ID a) sid fam (now + R) in
  runs (storeRefreshToken cfg (Some fam) rid a amr t sid) ks (Ok rt) (stored_refresh rt ks) [].
Proof.
  intros HI rt. unfold storeRefreshToken, randomly. apply runs_now.
  refine (placed_runs rt ks (fun _ => _) _ _ _ HI _). eapply runs_then; [|apply o_runs_ret].
  eapply (familyAdd_runs (Some (kRefresh (Token rt)))). by apply placed_indexed.
Qed.

(** *** Revoking a family *)

Lemma refresh_peek ks t :
  keys_typed ks ->
  peek ks now (kRefresh t) = None
  \/ exists (r : refreshToken) dl, Token r = t /\ peek ks now (kRefresh t) = Some (mkRKey (RStr (marshal r)) dl).
Proof.
  intros Ht. destruct (peek ks now (kRefresh t)) as [[v dl]|] eqn:Hp; [right | by left].
  destruct (holds_refresh_inv t v (peek_holds _ _ _ _ Ht Hp)) as (r & -> & Hr). eauto.
Qed.

(** What the loop deletes: each member and, when the member is live, its access token. *)
Definition condemned (ks : Keys) (l : list string) (k : string) : Prop :=
  exists t, t ∈ l /\ (k = kRefresh t
    \/ exists (r : refreshToken) dl, peek ks now (kRefresh t) = Some (mkRKey (RStr (marshal r)) dl)
         /\ AccessTokenID r <> ""%string /\ k = kToken (AccessTokenID r)).

Lemma condemned_token ks l k : condemned ks l k -> token_key k.
Proof. intros (t & _ & [->|(r & dl & _ & _ & ->)]); [right | left]; eauto. Qed.

Lemma keys_typed_dels l ks : keys_typed ks -> keys_typed (foldr delete ks l).
Proof. intros Ht k e. rewrite lookup_dels. case_decide; [done | apply Ht]. Qed.

Lemma peek_dels (l : list string) (ks : Keys) k :
  peek (foldr delete ks l) now k = if decide (k ∈ l) then None else peek ks now k.
Proof. unfold peek. rewrite lookup_dels. by case_decide. Qed.

Lemma revoke_one_runs t ks :
  keys_typed ks ->
  exists dl,
    runs (getJSON (kRefresh t) (fun ok _ (rt : refreshToken) =>
            if ok && bool_decide (AccessTokenID rt <> "")%string
            then unchecked (DEL (kToken (AccessTokenID rt))) else ret tt)) ks (Ok tt) (foldr delete ks dl) []
    /\ forall k, k ∈ kRefresh t :: dl <-> condemned ks [t] k.
Proof.
  intros Ht. destruct (refresh_peek ks t Ht) as [Hp|(r & dl & Hr & Hp)].
  - exists []. split; [eapply runs_getJSON_none; [done | apply o_runs_ret]|]. intros k.
    rewrite list_elem_of_singleton. unfold condemned. setoid_rewrite list_elem_of_singleton. split; [eauto|].
    intros (? & -> & [->|(? & ? & Hp' & _)]); congruence.
  - destruct (decide (AccessTokenID r = "")%string) as [He|Hne].
    + exists []. split.
      { eapply runs_getJSON_some; [exact Hp|]. rewrite bool_decide_false by tauto. apply o_runs_ret. }
      intros k. rewrite list_elem_of_singleton. unfold condemned. setoid_rewrite list_elem_of_singleton.
      split; [eauto|]. intros (? & -> & [->|(r' & ? & Hp' & Hne & _)]); [done|].
      rewrite Hp in Hp'. assert (marshal r = marshal r') as ->%(marshal_inj (A:=refreshToken)) by congruence. done.
    + exists [kToken (AccessTokenID r)]. split.
      { eapply runs_getJSON_some; [exact Hp|]. rewrite bool_decide_true by done. apply runs_unchecked. }
      intros k. rewrite !elem_of_cons. unfold condemned. setoid_rewrite list_elem_of_singleton. split.
      * intros [->|[->|?%not_elem_of_nil]]; [eauto| |done]. exists t. split; [done|]. right. eauto.
      * intros (? & -> & [->|(r' & ? & Hp' & _ & ->)]); [by left|]. right. left. rewrite Hp in Hp'.
        assert (marshal r = marshal r') as ->%(marshal_inj (A:=refreshToken)) by congruence. done.
Qed.

Lemma revoke_members_runs l ks :
  keys_typed ks ->
  exists dl, runs (revoke_members l) ks (Ok tt) (foldr delete ks dl) [] /\ forall k, k ∈ dl <-> condemned ks l k.
Proof.
  revert ks. induction l as [|t l IH]; intros ks Ht; cbn [revoke_members].
  { exists []. split; [apply o_runs_ret|]. intros k. split; [by intros ?%not_elem_of_nil|].
    intros (t & ?%not_elem_of_nil & _); done. }
  destruct (revoke_one_runs t ks Ht) as (d1 & Hrun & Hd1).
  destruct (IH (foldr delete ks (kRefresh t :: d1))) as (d2 & Hrun2 & Hd2); [by apply keys_typed_dels|].
  exists (d2 ++ kRefresh t :: d1). split.
  { rewrite foldr_app. eapply runs_then; [exact Hrun|]. eapply runs_then; [apply runs_unchecked|]. exact Hrun2. }
  intros k. rewrite elem_of_app, Hd1, Hd2. clear Hrun Hrun2 IH. unfold condemned.
  setoid_rewrite list_elem_of_singleton. setoid_rewrite elem_of_cons. split.
  - intros [(t' & Hin & Hk)|(t' & -> & Hk)]; [|eauto]. exists t'. split; [by right|].
    destruct Hk as [->|(r & dl & Hp & Hne & ->)]; [by left|]. right. exists r, dl. split; [|done].
    rewrite peek_dels in Hp. by case_decide.
  - intros (t' & [->|Hin] & Hk); [right; eauto|].
    destruct Hk as [->|(r & dl & Hp & Hne & ->)]; [left; eauto|].
    destruct (decide (t' = t)) as [->|Htt]; [right; eauto 10|]. left. exists t'. split; [done|]. right. exists r, dl.
    split; [|done]. rewrite peek_dels, decide_False; [done|]. intros Hin'. apply Hd1 in Hin'.
    destruct Hin' as (? & ->%list_elem_of_singleton & [?%kRefresh_inj|(? & ? & _ & _ & ?)]); done.
Qed.

Definition family_members (ks : Keys) (f : string) : list string :=
  match peek ks now (kRefreshFamily f) with Some (mkRKey (RSet s) _) => elements s | _ => [] end.

(** The keys after a family was revoked. *)
Definition family_revoked (f : string) (ks ks' : Keys) : Prop :=
  exists dl, ks' = delete (kRefreshFamily f) (foldr delete ks dl)
    /\ forall k, k ∈ dl <-> condemned ks (family_members ks f) k.

Lemma revokeFamily_runs f ks :
  keys_typed ks -> f <> ""%string ->
  exists ks', runs (revokeFamily f) ks (Ok tt) ks' [] /\ family_revoked f ks ks'.
Proof.
  intros Ht Hf. destruct (revoke_members_runs (family_members ks f) ks Ht) as (dl & Hrun & Hdl).
  eexists. split; [|exists dl; split; [done | exact Hdl]].
  unfold revokeFamily. rewrite decide_False by done.
  eapply (runs_call now (smembers_f (kRefreshFamily f)) _ ks ks (Ok (family_members ks f))).
  - unfold smembers_f, family_members. destruct (peek ks now (kRefreshFamily f)) as [[v d]|] eqn:Hp; [|done].
    destruct (holds_family_inv f v (peek_holds _ _ _ _ Ht Hp)) as [s' ->]. done.
  - eapply runs_then; [exact Hrun | apply runs_unchecked].
Qed.

(** A live member of the family is listed in it. *)
Lemma live_member ks t (r : refreshToken) e :
  indexed now R None ks -> ks !! kRefresh t = Some (mkRKey (RStr (marshal r)) (Some e)) -> now < e ->
  FamilyID r <> ""%string -> t ∈ family_members ks (FamilyID r).
Proof.
  intros HI Hk He Hf.
  destruct (ix_listed _ _ _ _ HI (kRefresh t) (marshal r) e (kRefreshFamily (FamilyID r)) t) as (s & e' & Hs & Hin & He');
    [done | exact Hk | done | by constructor |].
  unfold family_members. rewrite (proj2 (peek_Some ks now _ (mkRKey (RSet s) (Some e')))).
  - by apply elem_of_elements.
  - split; [done|]. simpl. apply Z.ltb_lt. lia.
Qed.

Lemma live_peek (ks : Keys) k v e : ks !! k = Some (mkRKey v (Some e)) -> now < e -> peek ks now k = Some (mkRKey v (Some e)).
Proof. intros Hk He. apply peek_Some. split; [done|]. simpl. by apply Z.ltb_lt. Qed.

Lemma family_revoked_lookup f ks ks' k :
  family_revoked f ks ks' -> token_key k ->
  (condemned ks (family_members ks f) k -> ks' !! k = None)
  /\ (ks' !! k = ks !! k \/ ks' !! k = None).
Proof.
  intros (dl & -> & Hdl) Hk. rewrite lookup_delete_ne, lookup_dels.
  - rewrite <- Hdl. destruct (decide (k ∈ dl)); split; auto; by intros ?.
  - intros <-. eapply token_not_index; [done|]. right. eauto.
Qed.

Lemma family_revoked_gone f ks ks' t (r : refreshToken) e :
  indexed now R None ks -> family_revoked f ks ks' -> FamilyID r = f -> f <> ""%string ->
  ks !! kRefresh t = Some (mkRKey (RStr (marshal r)) (Some e)) -> now < e ->
  ks' !! kRefresh t = None /\ (AccessTokenID r <> ""%string -> ks' !! kToken (AccessTokenID r) = None).
Proof.
  intros HI Hrev <- Hf Hk He. pose proof (live_member ks t r e HI Hk He Hf) as Hin. split.
  - apply (family_revoked_lookup _ _ _ _ Hrev); [right; eauto|]. exists t. auto.
  - intros Ha. apply (family_revoked_lookup _ _ _ _ Hrev); [left; eauto|]. exists t. split; [done|]. right.
    exists r, (Some e). split; [by apply live_peek | done].
Qed.

Lemma family_revoked_indexed f ks ks' :
  indexed now R None ks -> family_revoked f ks ks' -> f <> ""%string -> indexed now R None ks'.
Proof.
  intros HI Hrev Hf. pose proof Hrev as (dl & -> & Hdl). apply indexed_drop.
  - apply indexed_dels; [done|]. intros k Hk. apply Hdl in Hk. by eapply condemned_token.
  - right. eauto.
  - intros k d e m Hk He Ho. rewrite lookup_dels in Hk. case_decide as Hd; [done|]. apply Hd.
    remember (kRefreshFamily f) as idx eqn:Ei. destruct Ho as [| |t r Hr]; try discriminate.
    apply kFamily_inj in Ei as <-. apply Hdl. exists t. split; [|by left]. by eapply live_member.
Qed.

Lemma checkReuse_runs t ks :
  keys_typed ks ->
  (exists (mk : consumedMarker) dl ks',
     peek ks now (kRefreshConsumed t) = Some (mkRKey (RStr (marshal mk)) dl) /\ m_FamilyID mk <> ""%string
     /\ family_revoked (m_FamilyID mk) ks ks'
     /\ runs (checkReuse t) ks (Ok true) ks' [mkReuse (m_UserID mk) (m_ClientID mk)])
  \/ ((forall (mk : consumedMarker) dl, peek ks now (kRefreshConsumed t) = Some (mkRKey (RStr (marshal mk)) dl) ->
         m_FamilyID mk = ""%string)
      /\ runs (checkReuse t) ks (Ok false) ks []).
Proof.
  intros Ht. unfold checkReuse.
  destruct (peek ks now (kRefreshConsumed t)) as [[v dl]|] eqn:Hp.
  - destruct (holds_marker_inv t v (peek_holds _ _ _ _ Ht Hp)) as [mk ->].
    destruct (decide (m_FamilyID mk = "")%string) as [He|Hne].
    + right. split.
      { intros mk' dl' E. assert (marshal mk = marshal mk') as <-%(marshal_inj (A:=consumedMarker)) by congruence. done. }
      eapply runs_getJSON_some; [exact Hp|]. rewrite (bool_decide_true _ He). simpl. apply o_runs_ret.
    + left. destruct (revokeFamily_runs (m_FamilyID mk) ks Ht Hne) as (ks' & Hrun & Hrev).
      exists mk, dl, ks'. split_and!; [done | done | done |].
      eapply runs_getJSON_some; [exact Hp|]. rewrite (bool_decide_false _ Hne). simpl.
      eapply runs_then; [exact Hrun|]. apply (o_runs_bind now _ _ ks' tt ks' [mkReuse (m_UserID mk) (m_ClientID mk)] _ ks' []); [apply runs_publish | apply o_runs_ret].
  - right. split; [by intros mk dl [=]|]. eapply runs_getJSON_none; [done|]. simpl. apply o_runs_ret.
Qed.

(** *** Rotation *)

(** The record that replaces [rt]. *)
Definition rotated (rt : refreshToken) (new : string) (access : accessToken) : refreshToken :=
  mkRefreshToken new new (f_AuthTime rt) (f_AMR rt) (f_Audience rt) (f_UserID rt) (f_ClientID rt) (f_Scopes rt)
    (t_ID access) (f_SessionID rt) (FamilyID rt) (now + R).
Definition marker_of (rt : refreshToken) : consumedMarker :=
  mkConsumedMarker (FamilyID rt) (f_UserID rt) (f_ClientID rt).
Definition marker_ttl (rt : refreshToken) : Z :=
  if f_Expiration rt - now <? Minute then Minute else f_Expiration rt - now.

Definition spent (cur : string) (rt : refreshToken) (ks : Keys) : Keys :=
  <[kRefreshConsumed cur := mkRKey (RStr (marshal (marker_of rt))) (Some (now + px (marker_ttl rt)))]>
    (foldr delete ks [kRefresh cur; kToken (AccessTokenID rt)]).
Definition left_family (f cur : string) (ks : Keys) : Keys :=
  if decide (f = "")%string then ks else (srem_f (kRefreshFamily f) cur ks now).1.
Definition renewed_keys (cur new : string) (access : accessToken) (rt : refreshToken) (ks : Keys) : Keys :=
  family_add (FamilyID rt) new
    (left_family (FamilyID rt) cur (placed_refresh (rotated rt new access) (spent cur rt ks))).

Lemma marker_ttl_pos rt : 0 < marker_ttl rt.
Proof. unfold marker_ttl. destruct (Z.ltb_spec (f_Expiration rt - now) Minute); unfold Minute, Second, Millisecond in *; lia. Qed.

Lemma spent_indexed cur rt ks : indexed now R None ks -> indexed now R None (spent cur rt ks).
Proof.
  intros HI. apply (indexed_other now R None (foldr delete ks [kRefresh cur; kToken (AccessTokenID rt)])).
  - apply indexed_dels; [done|]. intros k [->|[->|?%not_elem_of_nil]%elem_of_cons]%elem_of_cons; [right | left | done]; eauto.
  - intros k e Hk. unfold spent in Hk. apply lookup_insert_Some in Hk as [[<- <-]|[_ Hk]]; [constructor|].
    rewrite lookup_dels in Hk. case_decide; [done | by apply (ix_typed _ _ _ _ HI)].
  - intros k Hk. unfold spent. apply lookup_insert_ne.
    destruct Hk as [[[? ->]|[? ->]]|[(? & ? & ->)|[? ->]]]; discriminate.
Qed.

Lemma left_family_ne f cur ks k : k <> kRefreshFamily f -> left_family f cur ks !! k = ks !! k.
Proof.
  intros Hk. unfold left_family. case_decide; [done|]. apply (srem_only (fun k => k = kRefreshFamily f)); [done | exact Hk].
Qed.

(** The family loses the spent token, whose record is gone or about to be replaced. *)
Lemma left_indexed cur new access rt ks :
  indexed now R None ks ->
  indexed now R (Some (kRefresh new))
    (left_family (FamilyID rt) cur (placed_refresh (rotated rt new access) (spent cur rt ks))).
Proof.
  intros HI. pose proof (placed_indexed (rotated rt new access) _ (spent_indexed cur rt ks HI)) as H2.
  unfold left_family. case_decide; [done|]. apply o_indexed_srem; [done|].
  destruct (decide (cur = new)) as [->|Hne]; [by right|]. left. unfold placed_refresh.
  rewrite index_add_other by (right; eauto). rewrite lookup_insert_ne by (intros ?%kRefresh_inj; by apply Hne).
  unfold spent. rewrite lookup_insert_ne by done. rewrite lookup_dels, decide_True by left. done.
Qed.

Lemma renewed_indexed cur new access rt ks :
  indexed now R None ks -> indexed now R None (renewed_keys cur new access rt ks).
Proof.
  intros HI. apply (family_add_done (rotated rt new access) (spent cur rt ks)).
  - by apply left_indexed.
  - intros i m e Hl He ->. unfold listed. by rewrite left_family_ne.
  - by rewrite left_family_ne.
Qed.

Lemma renew_tail_runs cur new access rt ks :
  indexed now R None ks -> now <= f_Expiration rt ->
  runs (renew_tail cfg cur new access rt) ks (Ok tt) (renewed_keys cur new access rt ks) [].
Proof.
  intros HI Hexp. unfold renew_tail. apply runs_now. rewrite (proj2 (Z.ltb_ge _ _) Hexp). cbv zeta.
  eapply runs_then; [apply runs_unchecked|].
  eapply (runs_then now _ _ _ tt (spent cur rt ks)).
  { pose proof (runs_unchecked now (set_f (kRefreshConsumed cur) (marshal (marker_of rt)) (marker_ttl rt))) as Hr.
    specialize (Hr (foldr delete ks [kRefresh cur; kToken (AccessTokenID rt)])).
    rewrite set_f_pos in Hr by apply marker_ttl_pos. exact Hr. }
  refine (placed_runs (rotated rt new access) (spent cur rt ks) (fun _ => _) _ _ _ _ _); [by apply spent_indexed|].
  unfold renewed_keys, family_add, left_family. cbn [FamilyID rotated]. case_decide; [apply o_runs_ret|].
  eapply runs_then; [apply runs_unchecked|]. apply runs_add_last; [|apply holds_family_inv].
  pose proof (left_indexed cur new access rt ks HI) as Hl. unfold left_family in Hl.
  rewrite decide_False in Hl by done. exact (ix_typed _ _ _ _ Hl).
Qed.

(** *** Every operation keeps the indexes *)

Abbreviation I := (indexed now R None).
Definition keeps {A} (m : Op A) : Prop := forall ks, I ks -> exists x ks' evs, runs m ks x ks' evs /\ I ks'.

Lemma o_keeps_ret {A} (a : A) : keeps (ret a).
Proof. intros ks HI. eexists _, _, _. split; [apply o_runs_ret | done]. Qed.
Lemma o_keeps_throw {A} e : keeps (throw e : Op A).
Proof. intros ks HI. eexists _, _, _. split; [apply oidc_runs_throw | done]. Qed.
Lemma o_keeps_bind {A B} (m : Op A) (k : A -> Op B) : keeps m -> (forall a, keeps (k a)) -> keeps (bind m k).
Proof.
  intros Hm Hk ks HI. destruct (Hm ks HI) as ([a|e] & ks1 & evs & Hr & HI1).
  - destruct (Hk a ks1 HI1) as (x & ks2 & evs2 & Hr2 & HI2). eexists _, _, _. split; [by eapply o_runs_bind | done].
  - eexists _, _, _. split; [by eapply runs_bind_err | done].
Qed.
Lemma o_keeps_attempt {A B} (m : Op A) (k : res OErr A -> Op B) :
  keeps m -> (forall x, keeps (k x)) -> keeps (attempt m k).
Proof.
  intros Hm Hk ks HI. destruct (Hm ks HI) as (y & ks1 & evs & Hr & HI1).
  destruct (Hk y ks1 HI1) as (x & ks2 & evs2 & Hr2 & HI2). eexists _, _, _. split; [by eapply oidc_runs_attempt | done].
Qed.
Lemma keeps_now {B} (k : Z -> Op B) : keeps (k now) -> keeps (bind Now k).
Proof. intros Hk ks HI. destruct (Hk ks HI) as (x & ks' & evs & Hr & HI'). eexists _, _, _. split; [by apply runs_now | done]. Qed.
Lemma keeps_randomly {A} rnd (k : string -> Op A) : (forall s, keeps (k s)) -> keeps (randomly rnd k).
Proof. intros Hk. destruct rnd; [apply Hk | apply o_keeps_throw]. Qed.
(** A command that keeps them, and one that only reads. *)
Lemma keeps_call {A B} (f : Keys -> Z -> Keys * res RErr A) (k : res RErr A -> Op B) :
  (forall ks, I ks -> I (f ks now).1) -> (forall x, keeps (k x)) -> keeps (call (command f) k).
Proof.
  intros Hf Hk ks HI. destruct (Hk (f ks now).2 _ (Hf ks HI)) as (x & ks' & evs & Hr & HI').
  eexists _, _, _. split; [|exact HI']. eapply runs_call; [apply surjective_pairing | exact Hr].
Qed.
Lemma keeps_getJSON {A B} `{Document A} key (k : bool -> option OErr -> A -> Op B) :
  (forall ok e v, keeps (k ok e v)) -> keeps (getJSON key k).
Proof. intros Hk. apply keeps_call; [done|]. intros [d|[]]; apply Hk. Qed.
Lemma keeps_loadJSON {A B} `{Document A} key (absent : Op B) (found : A -> Op B) :
  keeps absent -> (forall v, keeps (found v)) -> keeps (loadJSON key absent found).
Proof. intros Ha Hf. apply keeps_getJSON. intros ok [e|] v; [apply o_keeps_throw|]. by destruct ok. Qed.

(** Keys the indexes do not speak of. *)
Lemma insert_other k e ks : I ks -> holds k (rval e) -> ~ token_key k -> ~ index_key k -> I (<[k := e]> ks).
Proof.
  intros HI He Ht Hi. apply (indexed_other now R None ks); [done|..].
  - intros k' e' Hk. apply lookup_insert_Some in Hk as [[<- <-]|[_ Hk]]; [done | by apply (ix_typed _ _ _ _ HI)].
  - intros k' Hk'. rewrite lookup_insert_ne; [done|]. intros ->. tauto.
Qed.
Lemma keeps_set {B} k d ttl (c : res RErr unit -> Op B) :
  holds k (RStr d) -> ~ token_key k -> ~ index_key k -> (forall x, keeps (c x)) -> keeps (call (SET k d ttl) c).
Proof. intros Hh Ht Hi Hc. apply keeps_call; [|done]. intros ks HI. by apply insert_other. Qed.
Lemma keeps_del_other {B} k (c : res RErr unit -> Op B) :
  ~ token_key k -> ~ index_key k -> (forall x, keeps (c x)) -> keeps (call (DEL k) c).
Proof.
  intros Ht Hi Hc. apply keeps_call; [|done]. intros ks HI. cbn. apply (indexed_other now R None ks); [done|..].
  - intros k' e Hk. apply lookup_delete_Some in Hk as [_ Hk]. by apply (ix_typed _ _ _ _ HI).
  - intros k' Hk'. rewrite lookup_delete_ne; [done|]. intros ->. tauto.
Qed.
Lemma keeps_dels {B} l (c : res RErr unit -> Op B) :
  (forall k, k ∈ l -> token_key k) -> (forall x, keeps (c x)) -> keeps (call (DELS l) c).
Proof. intros Hl Hc. apply keeps_call; [|done]. intros ks HI. by apply indexed_dels. Qed.

Lemma reply_keeps (x : res RErr unit) : keeps (match x with Ok a => ret a | Err e => throw (ErrStore e) end).
Proof. destruct x; [apply o_keeps_ret | apply o_keeps_throw]. Qed.

Lemma storeAccessToken_keeps rnd c rid sub aud scs : keeps (storeAccessToken cfg rnd c rid sub aud scs).
Proof.
  destruct rnd as [id|]; [|apply o_keeps_throw]. intros ks HI. eexists _, _, _. split.
  - by apply storeAccessToken_runs.
  - by apply stored_access_indexed.
Qed.
Lemma storeRefreshToken_keeps rnd rid a amr t sid : keeps (storeRefreshToken cfg rnd rid a amr t sid).
Proof.
  destruct rnd as [id|]; [|apply o_keeps_throw]. intros ks HI. eexists _, _, _. split.
  - by apply storeRefreshToken_runs.
  - by apply stored_refresh_indexed.
Qed.
Lemma revokeFamily_keeps f : keeps (revokeFamily f).
Proof.
  intros ks HI. destruct (decide (f = "")%string) as [->|Hf].
  - eexists _, _, _. split; [apply o_runs_ret | done].
  - destruct (revokeFamily_runs f ks (ix_typed _ _ _ _ HI) Hf) as (ks' & Hr & Hrev).
    eexists _, _, _. split; [exact Hr | by eapply family_revoked_indexed].
Qed.
Lemma checkReuse_keeps t : keeps (checkReuse t).
Proof.
  intros ks HI. destruct (checkReuse_runs t ks (ix_typed _ _ _ _ HI)) as [(mk & dl & ks' & _ & Hf & Hrev & Hr)|[_ Hr]].
  - eexists _, _, _. split; [exact Hr | by eapply family_revoked_indexed].
  - eexists _, _, _. split; [exact Hr | done].
Qed.
Lemma renew_tail_keeps cur new access rt : keeps (renew_tail cfg cur new access rt).
Proof.
  intros ks HI. destruct (Z.le_gt_cases now (f_Expiration rt)) as [Hle|Hgt].
  - eexists _, _, _. split; [by apply renew_tail_runs | by apply renewed_indexed].
  - eexists _, _, _. split; [|exact HI]. unfold renew_tail. apply runs_now.
    rewrite (proj2 (Z.ltb_lt _ _)) by lia. apply oidc_runs_throw.
Qed.
Lemma renewRefreshToken_keeps cur new access : keeps (renewRefreshToken cfg cur new access).
Proof.
  apply keeps_loadJSON; [|intros rt; apply renew_tail_keeps].
  apply o_keeps_bind; [apply checkReuse_keeps | intros ?; apply o_keeps_throw].
Qed.

(** *** Terminating a session *)

Definition user_set (ks : Keys) (u c : string) : list string :=
  match peek ks now (kUserTok u c) with Some (mkRKey (RSet s) _) => elements s | _ => [] end.
Definition terminated (u c : string) (ks : Keys) : Keys :=
  delete (kUserTok u c) (foldr delete ks (user_set ks u c)).

Lemma TerminateSession_runs u c ks :
  keys_typed ks -> runs (TerminateSession u c) ks (Ok tt) (terminated u c ks) [].
Proof.
  intros Ht. unfold TerminateSession.
  eapply (runs_call now (smembers_f (kUserTok u c)) _ ks ks (Ok (user_set ks u c))).
  - unfold smembers_f, user_set. destruct (peek ks now (kUserTok u c)) as [[v d]|] eqn:Hp; [|done].
    destruct (holds_user_inv u c v (peek_holds _ _ _ _ Ht Hp)) as (s' & -> & _). done.
  - unfold terminated. destruct (user_set ks u c) as [|k l].
    + eapply runs_then; [apply o_runs_ret|]. by apply (runs_checked now (del_f (kUserTok u c))).
    + eapply runs_then; [apply runs_unchecked|]. by apply (runs_checked now (del_f (kUserTok u c))).
Qed.

Lemma user_set_tokens ks u c k : keys_typed ks -> k ∈ user_set ks u c -> token_key k.
Proof.
  intros Ht. unfold user_set. destruct (peek ks now (kUserTok u c)) as [[[| |s] d]|] eqn:Hp;
    try (intros []%not_elem_of_nil).
  destruct (holds_user_inv u c _ (peek_holds _ _ _ _ Ht Hp)) as (s' & [= <-] & Hs).
  intros Hin%elem_of_elements. by apply Hs.
Qed.

Lemma owed_in_user_set ks u c k d e m :
  I ks -> ks !! k = Some (mkRKey (RStr d) (Some e)) -> now < e -> owed k d (kUserTok u c) m -> m ∈ user_set ks u c.
Proof.
  intros HI Hk He Ho. destruct (ix_listed _ _ _ _ HI k d e (kUserTok u c) m) as (s & e' & Hs & Hin & He'); [done..|].
  unfold user_set. rewrite (live_peek _ _ _ _ Hs ltac:(lia)). by apply elem_of_elements.
Qed.

Lemma terminated_lookup u c ks k :
  token_key k -> terminated u c ks !! k = if decide (k ∈ user_set ks u c) then None else ks !! k.
Proof.
  intros Hk. unfold terminated. rewrite lookup_delete_ne, lookup_dels; [done|].
  intros <-. eapply token_not_index; [done | left; eauto].
Qed.

Lemma terminated_indexed u c ks : I ks -> I (terminated u c ks).
Proof.
  intros HI. apply indexed_drop.
  - apply indexed_dels; [done|]. intros k. apply user_set_tokens, (ix_typed _ _ _ _ HI).
  - left. eauto.
  - intros k d e m Hk He Ho. rewrite lookup_dels in Hk. case_decide as Hd; [done|]. apply Hd.
    pose proof (owed_in_user_set ks u c k d e m HI Hk He Ho) as Hin.
    remember (kUserTok u c) as idx. destruct Ho; [done | done | discriminate].
Qed.

Lemma TerminateSession_keeps u c : keeps (TerminateSession u c).
Proof.
  intros ks HI. eexists _, _, _. split; [apply TerminateSession_runs, (ix_typed _ _ _ _ HI) | by apply terminated_indexed].
Qed.

(** *** The other operations *)

Lemma RevokeToken_keeps t c : keeps (RevokeToken t c).
Proof.
  unfold RevokeToken. apply keeps_getJSON. intros ok err a. repeat case_match; try apply o_keeps_throw.
  - apply (keeps_dels [kToken (t_ID a)]); [|intros; apply o_keeps_ret].
    intros k [->|?%not_elem_of_nil]%elem_of_cons; [left; eauto | done].
  - apply keeps_getJSON. intros ok' err' r. repeat case_match; try apply o_keeps_throw; [apply o_keeps_ret|].
    apply keeps_dels; [|intros; apply o_keeps_ret].
    intros k [->|[->|?%not_elem_of_nil]%elem_of_cons]%elem_of_cons; [right | left | done]; eauto.
Qed.

Lemma request_key id : ~ token_key (kAuthReq id) /\ ~ index_key (kAuthReq id).
Proof. split; [intros [[? ?]|[? ?]] | intros [(? & ? & ?)|[? ?]]]; discriminate. Qed.
Lemma code_key id : ~ token_key (kCode id) /\ ~ index_key (kCode id).
Proof. split; [intros [[? ?]|[? ?]] | intros [(? & ? & ?)|[? ?]]]; discriminate. Qed.

Lemma terminate_each_keeps c users n e : keeps (terminate_each c users n e).
Proof.
  revert n e. induction users as [|u users IH]; intros n e; cbn [terminate_each]; [apply o_keeps_ret|].
  apply o_keeps_attempt; [apply TerminateSession_keeps|]. intros [a|e']; apply IH.
Qed.

Lemma scan_loop_keeps scan fuel suffix out c : keeps (scan_loop scan fuel suffix out c).
Proof.
  revert out c. induction fuel as [|fuel IH]; intros out c; cbn [scan_loop]; [apply o_keeps_ret|].
  apply keeps_call; [done|]. intros [[l next]|e]; [|apply o_keeps_ret]. case_match; [apply o_keeps_ret | apply IH].
Qed.

Lemma client_key c : ~ token_key (kClientUsers c) /\ ~ index_key (kClientUsers c).
Proof. split; [intros [[? ?]|[? ?]] | intros [(? & ? & ?)|[? ?]]]; discriminate. Qed.

Lemma RevokeAllForClient_keeps scan c : keeps (RevokeAllForClient scan c).
Proof.
  unfold RevokeAllForClient. case_decide; [apply o_keeps_ret|]. apply keeps_call; [done|].
  assert (forall indexed_users, keeps (let! found := scanClientUsers scan c in
            let '(scanned, scanErr) := found in
            let users := foldl (fun acc u => if decide (u ∈ acc) then acc else acc ++ [u]) []
                           (indexed_users ++ scanned) in
            let! done := terminate_each c users 0 scanErr in
            do! (match done.2 with None => unchecked (DEL (kClientUsers c)) | Some _ => ret tt end) in ret done)) as Hk.
  { intros l. apply o_keeps_bind; [apply scan_loop_keeps|]. intros [scanned err]. cbv zeta.
    apply o_keeps_bind; [apply terminate_each_keeps|]. intros d. apply o_keeps_bind; [|intros; apply o_keeps_ret].
    destruct d.2; [apply o_keeps_ret|]. destruct (client_key c). apply keeps_del_other; [done..|]. intros; apply o_keeps_ret. }
  intros [l|[]]; try apply o_keeps_ret; apply Hk.
Qed.
End Now.
End Ops.
