(* ===== verification/OidcFlows.v ===== *)
(** * OidcFlows: logout, revocation, rotation and replay over whole histories

    The invariant of OidcRevocation holds in every state a history without
    connection faults reaches; what follows of it for the operations an operator, a
    logout and a token request run. *)

From Stdlib Require Import Ascii.
From S2P Require Import Prelude Text Redis OidcJson OidcTokens OidcProps OidcRevocation.

(** A live token of user [u] at client [c]. *)
Inductive live_token (r : ORedis) (u c : string) : string -> Prop :=
| live_access id (a : accessToken) dl :
    peek (rkeys r) (rclock r) (kToken id) = Some (mkRKey (RStr (marshal a)) dl) ->
    Subject a = u -> t_ClientID a = c -> live_token r u c (kToken id)
| live_refresh t (rt : refreshToken) dl :
    peek (rkeys r) (rclock r) (kRefresh t) = Some (mkRKey (RStr (marshal rt)) dl) ->
    f_UserID rt = u -> f_ClientID rt = c -> live_token r u c (kRefresh t).

(** The lifetimes the theorems are about; the defaults are such. *)
Definition sane (cfg : Config) : Prop :=
  0 < AccessTokenLifetime cfg <= RefreshTokenLifetime cfg /\ (Second | RefreshTokenLifetime cfg).

Lemma DefaultConfig_sane : sane DefaultConfig.
Proof. split; [vm_compute; split; congruence | by exists (30 * 24 * 3600)]. Qed.

Section Flows.
Context (cfg : Config) (scan : Keys -> Z -> Z -> string -> list string * Z).
Context {Claims : Type} (claims_for : Z -> string -> list string -> option Claims).
Context (Hsane : sane cfg).
Abbreviation R := (RefreshTokenLifetime cfg).
Abbreviation oreach := (oreach cfg scan claims_for).
Abbreviation ostep := (ostep cfg scan claims_for).

(** A state without faults whose indexes are complete. *)
Definition good (w : OWorld) : Prop :=
  fine (rds w) /\ indexed (rclock (rds w)) R None (rkeys (rds w)).

Lemma good_now w : good w -> at_now (rclock (rds w)) (rds w).
Proof. by intros [Hf _]. Qed.

Lemma SetUserinfo_keeps now u c s : keeps cfg now (SetUserinfo claims_for u c s).
Proof. unfold SetUserinfo. repeat case_match; (apply o_keeps_ret || apply o_keeps_throw). Qed.

Lemma AuthRequestByID_keeps now id : keeps cfg now (AuthRequestByID id).
Proof. apply keeps_loadJSON; intros; (apply o_keeps_ret || apply o_keeps_throw). Qed.

Lemma enforcePKCE_keeps now pkce req : keeps cfg now (enforcePKCE pkce req).
Proof. unfold enforcePKCE. repeat case_match; (apply o_keeps_ret || apply o_keeps_throw). Qed.

Lemma call_keeps now A (m : Op A) : oidc_call cfg scan claims_for A m -> keeps cfg now m.
Proof.
  destruct Hsane as [HA HR]. destruct 1.
  - unfold CreateAuthRequest. case_match; [apply o_keeps_throw|].
    apply o_keeps_bind; [apply enforcePKCE_keeps|]. intros _. apply keeps_randomly. intros id. apply keeps_now.
    apply o_keeps_bind; [|intros; apply o_keeps_ret].
    destruct (request_key id). apply keeps_set; try done; [constructor | apply reply_keeps].
  - apply AuthRequestByID_keeps.
  - unfold AuthRequestByCode. apply keeps_call; [done|].
    intros [d|[]]; try apply o_keeps_throw. apply AuthRequestByID_keeps.
  - destruct (code_key code). apply keeps_set; try done; [constructor | apply reply_keeps].
  - destruct (request_key id). apply keeps_del_other; try done; apply reply_keeps.
  - apply keeps_loadJSON; [apply o_keeps_throw|]. intros a.
    destruct (request_key id). apply keeps_set; try done; [constructor | apply reply_keeps].
  - unfold CreateAccessToken. destruct (getInfoFromRequest q) as [[[c t] amr] sid].
    apply o_keeps_bind; [by apply storeAccessToken_keeps | intros; apply o_keeps_ret].
  - unfold CreateAccessAndRefreshTokens. destruct (getInfoFromRequest q) as [[[c t] amr] sid].
    case_decide; apply keeps_randomly; intros s; (apply o_keeps_bind; [by apply storeAccessToken_keeps|]); intros a;
      (apply o_keeps_bind; [by apply storeRefreshToken_keeps || by apply renewRefreshToken_keeps | intros; apply o_keeps_ret]).
  - apply keeps_loadJSON.
    + apply o_keeps_bind; [by apply checkReuse_keeps | intros; apply o_keeps_throw].
    + intros rt. repeat case_match; try apply o_keeps_ret;
        (apply o_keeps_bind; [by apply revokeFamily_keeps | intros; apply o_keeps_throw]).
  - apply keeps_loadJSON; intros; (apply o_keeps_ret || apply o_keeps_throw).
  - by apply TerminateSession_keeps.
  - by apply RevokeToken_keeps.
  - apply keeps_loadJSON; [apply o_keeps_throw|]. intros a. apply keeps_now.
    case_match; [apply o_keeps_throw | apply SetUserinfo_keeps].
  - apply keeps_getJSON. intros ok [e|] a; [apply o_keeps_throw|]. apply keeps_now.
    repeat case_match; try apply o_keeps_throw. apply o_keeps_bind; [apply SetUserinfo_keeps | intros; apply o_keeps_ret].
  - by apply RevokeAllForClient_keeps.
Qed.

Lemma ostep_good w w' : ostep w w' -> good w -> good w'.
Proof.
  destruct 1 as [A m w Hm|w d Hd]; intros HG.
  - destruct (call_keeps (rclock (rds w)) A m Hm (rkeys (rds w)) (proj2 HG)) as (x & ks' & evs & Hr & HI).
    destruct (runs_det _ m _ _ _ _ w (good_now w HG) eq_refl Hr) as (_ & [Hf Hc] & Hk & _).
    split; [exact Hf|]. by rewrite Hc, Hk.
  - destruct HG as [Hf [Ht Hb Hl]]. split; [exact Hf|]. cbn. split; [exact Ht|..].
    + intros k v dl Hk Hkv. destruct (Hb k v dl Hk Hkv) as (e & -> & He). exists e. split; [done | lia].
    + intros k dd e idx m Hne Hk He Ho. eapply Hl; eauto. lia.
Qed.

Lemma oreach_good w0 w : fine (rds w0) -> rkeys (rds w0) = ∅ -> oreach w0 w -> good w.
Proof.
  intros Hf H0 Hr. eapply (rtc_invariant ostep good); [apply ostep_good | exact Hr |].
  split; [done|]. rewrite H0. by split; intros; simplify_map_eq.
Qed.

(** What the indexes of a good state ask of a live token. *)
Lemma live_token_owed w u c k :
  good w -> live_token (rds w) u c k ->
  exists d e, rkeys (rds w) !! k = Some (mkRKey (RStr d) (Some e)) /\ rclock (rds w) < e /\ token_key k
    /\ (u <> ""%string -> c <> ""%string -> owed k d (kUserTok u c) k).
Proof.
  intros [Hf HI]. destruct 1 as [id a dl Hp <- <-|t rt dl Hp <- <-]; apply peek_Some in Hp as [Hk Ha].
  - assert (token_key (kToken id)) as Htk by (left; eauto).
    destruct (ix_bounded _ _ _ _ HI _ _ _ Htk Hk) as (e & -> & _). apply Z.ltb_lt in Ha.
    exists (marshal a), e. split_and!; [done..|]. intros. by constructor.
  - assert (token_key (kRefresh t)) as Htk by (right; eauto).
    destruct (ix_bounded _ _ _ _ HI _ _ _ Htk Hk) as (e & -> & _). apply Z.ltb_lt in Ha.
    exists (marshal rt), e. split_and!; [done..|]. intros. by constructor.
Qed.

(** A token that is live after deletions only was live before. *)
Lemma live_token_before w w' u c k :
  rclock (rds w') = rclock (rds w) ->
  (forall k, token_key k -> rkeys (rds w') !! k = rkeys (rds w) !! k \/ rkeys (rds w') !! k = None) ->
  live_token (rds w') u c k -> live_token (rds w) u c k /\ rkeys (rds w') !! k <> None.
Proof.
  intros Hc Hdel. destruct 1 as [id a dl Hp Hu Hcl|t rt dl Hp Hu Hcl]; apply peek_Some in Hp as [Hk Ha].
  - split; [|by rewrite Hk]. destruct (Hdel (kToken id)) as [He|He]; [left; eauto| |congruence].
    eapply live_access; [|done..]. apply peek_Some. rewrite <- He, <- Hc. eauto.
  - split; [|by rewrite Hk]. destruct (Hdel (kRefresh t)) as [He|He]; [right; eauto| |congruence].
    eapply live_refresh; [|done..]. apply peek_Some. rewrite <- He, <- Hc. eauto.
Qed.

Lemma TerminateSession_good w u c :
  good w ->
  let w' := (TerminateSession u c w).1 in
  (TerminateSession u c w).2 = Ok tt /\ good w' /\ rclock (rds w') = rclock (rds w)
  /\ rkeys (rds w') = terminated (rclock (rds w)) u c (rkeys (rds w)).
Proof.
  intros HG w'. pose proof (proj2 HG) as HI.
  pose proof (TerminateSession_runs (rclock (rds w)) u c (rkeys (rds w)) (ix_typed _ _ _ _ HI)) as Hr.
  destruct (runs_det _ _ _ _ _ _ w (good_now w HG) eq_refl Hr) as (Hx & [Hf Hc] & Hk & _).
  split_and!; [done | split; [done|] | done | done]. unfold w'. rewrite Hc, Hk. by apply (terminated_indexed cfg).
Qed.

Lemma terminated_deletes now u c ks k :
  token_key k -> terminated now u c ks !! k = ks !! k \/ terminated now u c ks !! k = None.
Proof. intros Hk. rewrite terminated_lookup by done. case_decide; auto. Qed.

Lemma terminated_reaches w u c k :
  good w -> u <> ""%string -> c <> ""%string -> ~ live_token (rds (TerminateSession u c w).1) u c k.
Proof.
  intros HG Hu Hc Hl. destruct (TerminateSession_good w u c HG) as (_ & _ & Hclk & Hk).
  apply (live_token_before w) in Hl as [Hl Hnone]; [|done|intros k' Hk'; rewrite Hk; by apply terminated_deletes].
  apply Hnone. rewrite Hk. destruct (live_token_owed w u c k HG Hl) as (d & e & Hkd & He & Htk & Ho).
  rewrite terminated_lookup by done. rewrite decide_True; [done|].
  eapply (owed_in_user_set cfg); [exact (proj2 HG) | exact Hkd | done | by apply Ho].
Qed.

(** C31: after any history without connection faults, terminating a user's session
    at a client succeeds and leaves no live token, access or refresh, of that user
    at that client: every token issued is listed where the termination looks for
    it, until it expires. *)
Theorem termination_reaches_every_token w0 w u c :
  fine (rds w0) -> rkeys (rds w0) = ∅ -> oreach w0 w -> u <> ""%string -> c <> ""%string ->
  (TerminateSession u c w).2 = Ok tt /\ forall k, ~ live_token (rds (TerminateSession u c w).1) u c k.
Proof.
  intros Hf H0 Hr Hu Hc. pose proof (oreach_good w0 w Hf H0 Hr) as HG.
  split; [by apply TerminateSession_good | intros k; by apply terminated_reaches].
Qed.
End Flows.

(** ** Revoking a client *)

Section Revoke.
Context (cfg : Config) (scan : Keys -> Z -> Z -> string -> list string * Z).
Context {Claims : Type} (claims_for : Z -> string -> list string -> option Claims).
Context (Hsane : sane cfg).

(** A full SCAN iteration over keys that do not change. *)
Fixpoint iterate (fuel : nat) (ks : Keys) (now : Z) (pattern : string) (cursor : Z) : option (list string) :=
  match fuel with
  | O => None
  | S fuel' =>
      let '(l, next) := scan ks now cursor pattern in
      if next =? 0 then Some l else app l <$> iterate fuel' ks now pattern next
  end.

(** No character of a glob pattern but the letters they stand for. *)
Definition glob_plain (s : string) : bool :=
  all_chars (fun c => negb (bool_decide (c ∈ ["*"; "?"; "["; "]"; "\"]%char))) s.

(** Redis: a full iteration returns every key that is there from start to end and
    matches the pattern. *)
Definition scan_complete : Prop := forall fuel ks now c u l,
  glob_plain c = true -> iterate fuel ks now (utkPrefix +:+ "*" +:+ (":" +:+ c)) 0 = Some l ->
  peek ks now (kUserTok u c) <> None -> kUserTok u c ∈ l.

Lemma scanned_user_half u c :
  u <> ""%string -> contains_colon u = false -> scanned_user (":" +:+ c) (kUserTok u c) = Some u.
Proof.
  intros Hu Hc. unfold scanned_user, kUserTok, HasSuffix, user_half. fold utkPrefix.
  rewrite HasPrefix_app. set (suffix := (":" +:+ c)%string).
  assert (utkPrefix +:+ u +:+ suffix = (utkPrefix +:+ u) +:+ suffix) as E by apply app_assoc_s.
  assert (String.length (utkPrefix +:+ u +:+ suffix)
          = (String.length utkPrefix + String.length u + String.length suffix)%nat) as El.
  { rewrite !length_app_s. lia. }
  replace (String.length (utkPrefix +:+ u +:+ suffix) - String.length suffix)%nat
    with (String.length (utkPrefix +:+ u)) by (rewrite El, length_app_s; lia).
  replace (String.length (utkPrefix +:+ u +:+ suffix) - String.length utkPrefix - String.length suffix)%nat
    with (String.length u) by (rewrite El; lia).
  rewrite (proj2 (Nat.leb_le _ _)) by (rewrite El; lia).
  rewrite substring_skip, substring_take. rewrite E, substring_skip, substring_all, String.eqb_refl. simpl.
  rewrite Hc. by rewrite (proj2 (String.eqb_neq u "")).
Qed.

Lemma scan_loop_runs now fuel suffix out c ks l :
  iterate fuel ks now (utkPrefix +:+ "*" +:+ suffix) c = Some l ->
  runs now (scan_loop scan fuel suffix out c) ks (Ok (out ++ omap (scanned_user suffix) l, None)) ks [].
Proof.
  revert out c l. induction fuel as [|fuel IH]; intros out c l; cbn [iterate scan_loop]; [done|].
  destruct (scan ks now c (utkPrefix +:+ "*" +:+ suffix)) as [l1 next] eqn:E.
  destruct (next =? 0) eqn:En; intros Hl.
  - simplify_eq. eapply runs_call; [unfold scan_f; by rewrite E|]. cbv beta iota. rewrite En. apply o_runs_ret.
  - apply fmap_Some in Hl as (l2 & Hl & ->). eapply runs_call; [unfold scan_f; by rewrite E|]. cbv beta iota zeta.
    rewrite En, omap_app, app_assoc. by apply IH.
Qed.

(** The users gathered, without repetition. *)
Lemma dedup_elem (l acc : list string) u :
  u ∈ acc \/ u ∈ l -> u ∈ foldl (fun acc u => if decide (u ∈ acc) then acc else acc ++ [u]) acc l.
Proof.
  revert acc. induction l as [|x l IH]; intros acc H; cbn [foldl].
  - destruct H as [H|[]%not_elem_of_nil]. done.
  - apply IH. destruct (decide (x ∈ acc)).
    + destruct H as [H|[->|H]%elem_of_cons]; auto.
    + rewrite elem_of_app, list_elem_of_singleton. destruct H as [H|[->|H]%elem_of_cons]; auto.
Qed.

(** Termination of each: nobody's tokens are left, and tokens only disappear. *)
Lemma terminate_each_good c users n w :
  good cfg w -> c <> ""%string ->
  let w' := (terminate_each c users n None w).1 in
  (exists m, (terminate_each c users n None w).2 = Ok (m, None)) /\ good cfg w' /\ rclock (rds w') = rclock (rds w)
  /\ (forall k, token_key k -> rkeys (rds w') !! k = rkeys (rds w) !! k \/ rkeys (rds w') !! k = None)
  /\ (forall u k, u ∈ users -> u <> ""%string -> ~ live_token (rds w') u c k).
Proof.
  intros HG Hc. revert n w HG. induction users as [|u users IH]; intros n w HG; cbn [terminate_each].
  - split_and!; eauto. by intros u k ?%not_elem_of_nil.
  - destruct (TerminateSession_good cfg w u c HG) as (Hx & HG1 & Hc1 & Hk1).
    unfold attempt. destruct (TerminateSession u c w) as [w1 x] eqn:E. simpl in *. subst x.
    destruct (IH (n + 1) w1 HG1) as (Hm & HG2 & Hc2 & Hdel & Hnone).
    split_and!; [done | done | congruence | |].
    + intros k Hk. destruct (Hdel k Hk) as [->| ->]; [|auto]. rewrite Hk1. by apply terminated_deletes.
    + intros u' k [->|Hin]%elem_of_cons Hu Hl; [|by eapply Hnone].
      apply (live_token_before w1) in Hl as [Hl _]; [|done..].
      revert Hl. pose proof (terminated_reaches cfg w u c k HG Hu Hc) as Ht. by rewrite E in Ht.
Qed.

(** The gathering of the users changes no key. *)
Lemma revoke_all_users w c l :
  good cfg w -> c <> ""%string ->
  iterate maxCursors (rkeys (rds w)) (rclock (rds w)) (utkPrefix +:+ "*" +:+ (":" +:+ c)) 0 = Some l ->
  exists users w1, good cfg w1 /\ rkeys (rds w1) = rkeys (rds w) /\ rclock (rds w1) = rclock (rds w)
    /\ (forall u, u ∈ omap (scanned_user (":" +:+ c)) l -> u ∈ users)
    /\ RevokeAllForClient scan c w
       = (let! done := terminate_each c users 0 None in
          do! (match done.2 with None => unchecked (DEL (kClientUsers c)) | Some _ => ret tt end) in ret done) w1.
Proof.
  intros HG Hc Hl. destruct HG as [Hf HI]. unfold RevokeAllForClient. rewrite decide_False by done.
  set (ks := rkeys (rds w)) in *. set (now := rclock (rds w)) in *.
  assert (exists l0, smembers_f (kClientUsers c) ks now = (ks, Ok l0)) as [l0 Hsm].
  { unfold smembers_f. destruct (peek ks now (kClientUsers c)) as [[v d]|] eqn:Hp; [|eauto].
    destruct (holds_client_inv c v (peek_holds _ _ _ _ (ix_typed _ _ _ _ HI) Hp)) as [s' ->]. eauto. }
  unfold call, SMEMBERS. rewrite (command_fine _ _ Hf). fold ks now. rewrite Hsm. cbn [fst snd].
  set (w0 := mkOWorld _ (bus w)).
  pose proof (scan_loop_runs now maxCursors (":" +:+ c) [] 0 ks l Hl) as Hrun.
  destruct (Hrun w0) as (w1 & E & [Hf1 Hc1] & Hk1 & _); [by split | done |].
  eexists _, w1. split_and!; [split; [done|] | done | done | |].
  - by rewrite Hc1, Hk1.
  - intros u Hu. apply dedup_elem. right. apply elem_of_app. by right.
  - unfold bind at 1. unfold scanClientUsers. rewrite E. reflexivity.
Qed.

(** After any history without connection faults, the operator's revocation of
    a client succeeds when its scan completes, and then no access or refresh token
    of any user at that client is live: also those whose client index was never
    written or is gone. *)
Theorem revocation_reaches_every_token w0 w c :
  fine (rds w0) -> rkeys (rds w0) = ∅ -> oreach cfg scan claims_for w0 w ->
  scan_complete -> glob_plain c = true -> c <> ""%string ->
  is_Some (iterate maxCursors (rkeys (rds w)) (rclock (rds w)) (utkPrefix +:+ "*" +:+ (":" +:+ c)) 0) ->
  exists n, (RevokeAllForClient scan c w).2 = Ok (n, None)
  /\ forall u k, u <> ""%string -> contains_colon u = false ->
     ~ live_token (rds (RevokeAllForClient scan c w).1) u c k.
Proof.
  intros Hf H0 Hr Hscan Hplain Hc [l Hl]. pose proof (oreach_good cfg scan claims_for Hsane w0 w Hf H0 Hr) as HG.
  destruct (revoke_all_users w c l HG Hc Hl) as (users & w1 & HG1 & Hk1 & Hc1 & Husers & ->).
  destruct (terminate_each_good c users 0 w1 HG1 Hc) as ([n Hn] & HG2 & Hc2 & Hdel & Hnone).
  unfold bind at 1 3. destruct (terminate_each c users 0 None w1) as [w2 x]. simpl in Hn, HG2, Hc2, Hdel, Hnone.
  subst x. cbn [snd]. pose proof (runs_unchecked (rclock (rds w2)) (del_f (kClientUsers c)) (rkeys (rds w2))) as Hr2.
  destruct (Hr2 w2) as (w3 & E & [Hf3 Hc3] & Hk3 & _); [split; [by destruct HG2 | done] | done |].
  unfold bind, DEL. rewrite E. exists n. split; [done|]. intros u k Hu Hcol Hlive. simpl in Hlive.
  assert (forall k', token_key k' -> rkeys (rds w3) !! k' = rkeys (rds w2) !! k') as Hk32.
  { intros k' Htk. rewrite Hk3. cbn. rewrite lookup_delete_ne; [done|]. intros <-. by destruct (client_key c). }
  apply (live_token_before w2) in Hlive as [Hl2 _]; [|done|intros k' Hk'; left; by apply Hk32].
  destruct (decide (u ∈ users)) as [Hin|Hnin]; [by eapply Hnone|].
  apply (live_token_before w1) in Hl2 as [Hl1 _]; [|done|done].
  destruct (live_token_owed cfg w1 u c k HG1 Hl1) as (d & e & Hkd & He & Htk & Ho).
  apply Hnin, Husers, list_elem_of_omap. exists (kUserTok u c). split; [|by apply scanned_user_half].
  apply (Hscan maxCursors (rkeys (rds w)) (rclock (rds w))); [done | done |].
  destruct (ix_listed _ _ _ _ (proj2 HG1) k d e (kUserTok u c) k) as (s & e' & Hs & _ & He'); [done | exact Hkd | done | by apply Ho |].
  rewrite Hk1 in Hs. rewrite Hc1 in He. rewrite (live_peek (rclock (rds w)) _ _ _ _ Hs ltac:(lia)). done.
Qed.
End Revoke.
