(* ===== verification/OidcRotation.v ===== *)
(** * OidcRotation: rotation, replay and the life of a code

    What a refresh exchange leaves in the store, what the replay of a spent token
    does to its family, and two behaviours of the provider an operator may not
    expect: simultaneous rotations of one token, and tokens issued to a client
    itself. *)

From S2P Require Import Prelude Text Redis OidcJson OidcTokens OidcProps OidcRevocation OidcFlows.

Section Rotation.
Context (cfg : Config) (scan : Keys -> Z -> Z -> string -> list string * Z).
Context {Claims : Type} (claims_for : Z -> string -> list string -> option Claims).
Context (Hsane : sane cfg).
Abbreviation R := (RefreshTokenLifetime cfg).
Abbreviation oreach := (oreach cfg scan claims_for).

(** What a read of a refresh token or an access token gives. *)
Definition refresh_at (w : OWorld) (t : string) (rt : refreshToken) : Prop :=
  exists dl, peek (rkeys (rds w)) (rclock (rds w)) (kRefresh t) = Some (mkRKey (RStr (marshal rt)) dl).
Definition access_at (w : OWorld) (id : string) (a : accessToken) : Prop :=
  exists dl, peek (rkeys (rds w)) (rclock (rds w)) (kToken id) = Some (mkRKey (RStr (marshal a)) dl).
Definition spent_at (w : OWorld) (t : string) (mk : consumedMarker) : Prop :=
  exists dl, peek (rkeys (rds w)) (rclock (rds w)) (kRefreshConsumed t) = Some (mkRKey (RStr (marshal mk)) dl).
Definition dead (w : OWorld) (k : string) : Prop := peek (rkeys (rds w)) (rclock (rds w)) k = None.

(** C32: whenever a refresh token that is no longer live but was spent is presented
    again, the request is refused, one reuse event for its user and client is
    published, and no refresh token of its family is live any more, nor the access
    token paired with one: the thief and the client both lose what they hold. *)
Theorem replay_revokes_the_family w0 w users t mk :
  fine (rds w0) -> rkeys (rds w0) = ∅ -> oreach w0 w ->
  dead w (kRefresh t) -> spent_at w t mk -> m_FamilyID mk <> ""%string ->
  let w' := (TokenRequestByRefreshToken users t w).1 in
  (TokenRequestByRefreshToken users t w).2 = Err ErrInvalidRefreshToken
  /\ bus w' = bus w ++ [mkReuse (m_UserID mk) (m_ClientID mk)]
  /\ forall t' rt, refresh_at w t' rt -> FamilyID rt = m_FamilyID mk ->
     dead w' (kRefresh t') /\ (AccessTokenID rt <> ""%string -> dead w' (kToken (AccessTokenID rt))).
Proof.
  intros Hf H0 Hr Hdead [dl Hmk] Hfam w'. pose proof (oreach_good cfg scan claims_for Hsane w0 w Hf H0 Hr) as HG.
  set (now := rclock (rds w)) in *. set (ks := rkeys (rds w)) in *. pose proof (proj2 HG) as HI.
  destruct (checkReuse_runs cfg (proj1 Hsane) now t ks (ix_typed _ _ _ _ HI)) as [(mk' & dl' & ks' & Hmk' & _ & Hrev & Hrun)|[Hno _]].
  2:{ exfalso. by apply Hfam, (Hno mk dl). }
  assert (mk' = mk) as ->.
  { apply (marshal_inj (A:=consumedMarker)). congruence. }
  assert (runs now (TokenRequestByRefreshToken users t) ks (Err ErrInvalidRefreshToken) ks'
            ([mkReuse (m_UserID mk) (m_ClientID mk)] ++ [])) as Hrun'.
  { eapply runs_getJSON_none; [exact Hdead|]. eapply o_runs_bind; [exact Hrun | apply oidc_runs_throw]. }
  destruct (runs_det _ _ _ _ _ _ w (good_now cfg w HG) eq_refl Hrun') as (Hx & [_ Hc] & Hk & Hb).
  split_and!; [done | exact Hb |]. intros t' rt [d Hrt] HF.
  apply peek_Some in Hrt as [Hrt Ha]. assert (token_key (kRefresh t')) as Htk by (right; eauto).
  destruct (ix_bounded _ _ _ _ HI _ _ _ Htk Hrt) as (e & -> & _). apply Z.ltb_lt in Ha.
  destruct (family_revoked_gone cfg now (m_FamilyID mk) ks ks' t' rt e HI Hrev HF Hfam Hrt Ha) as [H1 H2].
  unfold dead, w'. rewrite Hk. split; [unfold peek; by rewrite H1|]. intros Hne. unfold peek. by rewrite (H2 Hne).
Qed.

(** *** Rotation *)

Lemma family_add_ne f t ks now k : k <> kRefreshFamily f -> family_add cfg now f t ks !! k = ks !! k.
Proof. intros Hk. unfold family_add. case_decide; [done|]. unfold refreshed. by rewrite lookup_insert_ne. Qed.

Lemma index_add_plain now u c k ks k' :
  (forall u c, k' <> kUserTok u c) -> (forall c, k' <> kClientUsers c) -> index_add cfg now u c k ks !! k' = ks !! k'.
Proof. intros H1 H2. unfold index_add. case_decide; [done|]. unfold refreshed. by rewrite !lookup_insert_ne by done. Qed.

(** Of the keys of tokens and markers, a rotation writes the new record's, the
    marker's, and deletes two. *)
Lemma renewed_lookup now cur new access rt ks k :
  (forall u c, k <> kUserTok u c) -> (forall c, k <> kClientUsers c) -> (forall f, k <> kRefreshFamily f) ->
  renewed_keys cfg now cur new access rt ks !! k
  = if decide (k = kRefresh new) then Some (mkRKey (RStr (marshal (rotated cfg now rt new access))) (Some (now + px R)))
    else if decide (k = kRefreshConsumed cur)
         then Some (mkRKey (RStr (marshal (marker_of rt))) (Some (now + px (marker_ttl now rt))))
    else if decide (k = kRefresh cur \/ k = kToken (AccessTokenID rt)) then None else ks !! k.
Proof.
  intros H1 H2 H3. unfold renewed_keys. rewrite family_add_ne, left_family_ne by done.
  unfold placed_refresh. rewrite index_add_plain by done. cbn [Token rotated].
  destruct (decide (k = kRefresh new)) as [->|Hn]; [by rewrite lookup_insert_eq|].
  rewrite lookup_insert_ne by done. unfold spent.
  destruct (decide (k = kRefreshConsumed cur)) as [->|Hc]; [by rewrite lookup_insert_eq|].
  rewrite lookup_insert_ne, lookup_dels by done. apply decide_ext.
  rewrite elem_of_cons, list_elem_of_singleton. done.
Qed.

Lemma stored_access_lookup now a ks k :
  (forall u c, k <> kUserTok u c) -> (forall c, k <> kClientUsers c) ->
  stored_access cfg now a ks !! k
  = if decide (k = kToken (t_ID a)) then Some (mkRKey (RStr (marshal a)) (Some (now + px (AccessTokenLifetime cfg))))
    else ks !! k.
Proof.
  intros H1 H2. unfold stored_access. rewrite index_add_plain by done.
  case_decide; [by subst; rewrite lookup_insert_eq | by rewrite lookup_insert_ne].
Qed.

Lemma token_plain id : (forall u c, kToken id <> kUserTok u c) /\ (forall c, kToken id <> kClientUsers c)
  /\ (forall f, kToken id <> kRefreshFamily f).
Proof. by split_and!. Qed.
Lemma refresh_plain t : (forall u c, kRefresh t <> kUserTok u c) /\ (forall c, kRefresh t <> kClientUsers c)
  /\ (forall f, kRefresh t <> kRefreshFamily f).
Proof. by split_and!. Qed.
Lemma marker_plain t : (forall u c, kRefreshConsumed t <> kUserTok u c) /\ (forall c, kRefreshConsumed t <> kClientUsers c)
  /\ (forall f, kRefreshConsumed t <> kRefreshFamily f).
Proof. by split_and!. Qed.

(** The access token an exchange mints. *)
Definition minted (id c rid sub : string) (aud scs : list string) (now : Z) : accessToken :=
  mkAccessToken id c sub rid aud scs (now + AccessTokenLifetime cfg).

(** A refresh exchange on the keys. *)
Lemma exchange_runs now cur new id rt scs ks dl :
  indexed now R None ks -> cur <> ""%string ->
  peek ks now (kRefresh cur) = Some (mkRKey (RStr (marshal rt)) dl) -> now <= f_Expiration rt ->
  let a := minted id (f_ClientID rt) new (f_UserID rt) (f_Audience rt) scs now in
  runs now (CreateAccessAndRefreshTokens cfg (Some new) (Some id) None (TRRefresh (SetCurrentScopes scs rt)) cur)
    ks (Ok (id, new, t_Expiration a)) (renewed_keys cfg now cur new a rt (stored_access cfg now a ks)) [].
Proof.
  destruct Hsane as [HA HR]. intros HI Hcur Hp Hexp a. unfold CreateAccessAndRefreshTokens, getInfoFromRequest.
  rewrite decide_False by done. unfold randomly at 1.
  eapply runs_then; [by apply (storeAccessToken_runs cfg HA HR now id)|]. fold a. cbn [f_ClientID f_UserID f_Audience SetCurrentScopes GetSubject GetAudience GetScopes f_Scopes].
  eapply runs_then; [|apply o_runs_ret]. unfold renewRefreshToken, loadJSON.
  eapply runs_getJSON_some.
  - apply peek_Some in Hp as [Hp Ha]. apply peek_Some. rewrite stored_access_lookup by done. rewrite decide_False by done. eauto.
  - apply (renew_tail_runs cfg HA HR); [by apply stored_access_indexed | done].
Qed.

(** A refresh exchange of a live token answers with a new pair and leaves
    exactly one live token where there was one: the presented token and its access
    token are dead, the new refresh token carries on the user, client, session,
    authentication, family and the scopes first granted - also when the request
    narrowed them for the access token -, and the presented one is marked spent for
    its family. *)
Theorem exchange_rotates w0 w cur new id rt scs :
  fine (rds w0) -> rkeys (rds w0) = ∅ -> oreach w0 w ->
  cur <> ""%string -> refresh_at w cur rt -> rclock (rds w) <= f_Expiration rt ->
  new <> cur -> id <> AccessTokenID rt ->
  let now := rclock (rds w) in
  let a := minted id (f_ClientID rt) new (f_UserID rt) (f_Audience rt) scs now in
  let m := CreateAccessAndRefreshTokens cfg (Some new) (Some id) None (TRRefresh (SetCurrentScopes scs rt)) cur in
  let w' := (m w).1 in
  (m w).2 = Ok (id, new, t_Expiration a)
  /\ dead w' (kRefresh cur) /\ dead w' (kToken (AccessTokenID rt))
  /\ access_at w' id a /\ refresh_at w' new (rotated cfg now rt new a) /\ spent_at w' cur (marker_of rt).
Proof.
  intros Hf H0 Hr Hcur [dl Hp] Hexp Hnew Hid now a m w'.
  pose proof (oreach_good cfg scan claims_for Hsane w0 w Hf H0 Hr) as HG. destruct Hsane as [HA HR].
  pose proof (exchange_runs now cur new id rt scs (rkeys (rds w)) dl (proj2 HG) Hcur Hp Hexp) as Hrun.
  destruct (runs_det _ _ _ _ _ _ w (good_now cfg w HG) eq_refl Hrun) as (Hx & [_ Hc] & Hk & _).
  split; [exact Hx|]. unfold dead, access_at, refresh_at, spent_at. fold m w' in Hc, Hk. rewrite Hc, Hk.
  assert (forall k v ttl, 0 < ttl -> renewed_keys cfg now cur new a rt (stored_access cfg now a (rkeys (rds w))) !! k
            = Some (mkRKey v (Some (now + ttl))) ->
          exists dl, peek (renewed_keys cfg now cur new a rt (stored_access cfg now a (rkeys (rds w)))) now k = Some (mkRKey v dl)) as Hlive.
  { intros k v ttl Httl Hkv. eexists. apply peek_Some. split; [exact Hkv|]. simpl. apply Z.ltb_lt. lia. }
  destruct (px_bound cfg HR (AccessTokenLifetime cfg)) as [HpA _]; [lia|].
  destruct (px_bound cfg HR R) as [HpR _]; [lia|].
  split_and!.
  - unfold peek. rewrite renewed_lookup by done.
    rewrite decide_False by (intros ?%kRefresh_inj; congruence). rewrite decide_False, decide_True by auto. done.
  - unfold peek. rewrite renewed_lookup by done. rewrite !decide_False by done. rewrite decide_True by auto. done.
  - apply (Hlive _ _ (px (AccessTokenLifetime cfg))); [done|]. rewrite renewed_lookup by done. rewrite decide_False, decide_False by done.
    rewrite decide_False by (intros [?|?%kToken_inj]; done). rewrite stored_access_lookup by done. by rewrite decide_True.
  - apply (Hlive _ _ (px R)); [done|]. rewrite renewed_lookup by done. by rewrite decide_True.
  - apply (Hlive _ _ (px (marker_ttl now rt))); [apply px_le, marker_ttl_pos|]. rewrite renewed_lookup by done.
    rewrite decide_False, decide_True by done. done.
Qed.

(** The second half of a rotation. *)
Lemma renew_tail_good w cur new a rt :
  good cfg w -> rclock (rds w) <= f_Expiration rt ->
  let w' := (renew_tail cfg cur new a rt w).1 in
  (renew_tail cfg cur new a rt w).2 = Ok tt /\ good cfg w' /\ rclock (rds w') = rclock (rds w)
  /\ rkeys (rds w') = renewed_keys cfg (rclock (rds w)) cur new a rt (rkeys (rds w)).
Proof.
  intros HG Hexp w'. destruct Hsane as [HA HR].
  pose proof (renew_tail_runs cfg HA HR (rclock (rds w)) cur new a rt _ (proj2 HG) Hexp) as Hrun.
  destruct (runs_det _ _ _ _ _ _ w (good_now cfg w HG) eq_refl Hrun) as (Hx & [Hf Hc] & Hk & _).
  split_and!; [done | | done | done]. split; [done|]. unfold w'. rewrite Hc, Hk. apply renewed_indexed; [done..|apply HG].
Qed.

(** A rotation reads the presented token and deletes it in separate commands.
    Two requests that both read it before either deleted it both succeed, and leave
    two live refresh tokens of one family; presented one after the other, the
    second is refused. *)
Theorem simultaneous_rotations_fork w0 w cur n1 n2 a1 a2 rt :
  fine (rds w0) -> rkeys (rds w0) = ∅ -> oreach w0 w ->
  refresh_at w cur rt -> rclock (rds w) <= f_Expiration rt -> n1 <> cur -> n1 <> n2 ->
  let now := rclock (rds w) in
  let w1 := (renew_tail cfg cur n1 a1 rt w).1 in
  let w2 := (renew_tail cfg cur n2 a2 rt w1).1 in
  ((renew_tail cfg cur n1 a1 rt w).2 = Ok tt /\ (renew_tail cfg cur n2 a2 rt w1).2 = Ok tt
   /\ refresh_at w2 n1 (rotated cfg now rt n1 a1) /\ refresh_at w2 n2 (rotated cfg now rt n2 a2))
  /\ (renewRefreshToken cfg cur n2 a2 w1).2 = Err (ErrInvalidGrant "invalid refresh token").
Proof.
  intros Hf H0 Hr [dl Hp] Hexp Hn1 Hn12 now w1 w2.
  pose proof (oreach_good cfg scan claims_for Hsane w0 w Hf H0 Hr) as HG.
  destruct (renew_tail_good w cur n1 a1 rt HG Hexp) as (Hx1 & HG1 & Hc1 & Hk1). fold w1 in HG1, Hc1, Hk1.
  assert (rclock (rds w1) <= f_Expiration rt) as Hexp1 by (by rewrite Hc1).
  destruct (renew_tail_good w1 cur n2 a2 rt HG1 Hexp1) as (Hx2 & HG2 & Hc2 & Hk2). fold w2 in HG2, Hc2, Hk2.
  destruct (px_bound cfg (proj2 Hsane) R) as [HpR _]; [destruct Hsane; lia|].
  assert (forall k v, rkeys (rds w2) !! k = Some (mkRKey v (Some (now + px R))) ->
            peek (rkeys (rds w2)) (rclock (rds w2)) k = Some (mkRKey v (Some (now + px R)))) as Hlive.
  { intros k v Hkv. apply peek_Some. split; [done|]. simpl. apply Z.ltb_lt. rewrite Hc2, Hc1. fold now. lia. }
  split; [split_and!; [done | done |..]|].
  - eexists. apply Hlive. rewrite Hk2, renewed_lookup by done. rewrite decide_False by (intros ?%kRefresh_inj; done).
    rewrite decide_False by done. rewrite decide_False by (intros [?%kRefresh_inj|?]; done).
    rewrite Hk1, renewed_lookup by done. by rewrite decide_True.
  - eexists. apply Hlive. rewrite Hk2, renewed_lookup by done. rewrite decide_True by done. by rewrite Hc1.
  - assert (peek (rkeys (rds w1)) (rclock (rds w1)) (kRefresh cur) = None) as Hd.
    { unfold peek. rewrite Hk1, renewed_lookup by done. rewrite decide_False by (intros ?%kRefresh_inj; congruence).
      rewrite decide_False, decide_True by auto. done. }
    destruct (checkReuse_runs cfg (proj1 Hsane) (rclock (rds w1)) cur _ (ix_typed _ _ _ _ (proj2 HG1)))
      as [(mk & d & ks' & _ & _ & _ & Hrun)|[_ Hrun]].
    all: assert (runs (rclock (rds w1)) (renewRefreshToken cfg cur n2 a2) (rkeys (rds w1))
           (Err (ErrInvalidGrant "invalid refresh token")) _ _) as Hrun'
         by (eapply runs_getJSON_none; [exact Hd | eapply o_runs_bind; [exact Hrun | apply oidc_runs_throw]]);
      by destruct (runs_det _ _ _ _ _ _ w1 (good_now cfg w1 HG1) eq_refl Hrun') as (Hx & _).
Qed.

(** *** Tokens of a client itself *)

Lemma client_id_no_number s : ParseInt ("client_" +:+ s) = (0, false).
Proof. reflexivity. Qed.

(** A token a client obtained for itself is stored, live, and names the client
    as its subject; the userinfo and introspection endpoints read every subject as
    a number, so for the client ids this system generates both always fail, and no
    resource server can validate such a token. *)
Theorem client_token_fails_introspection w0 w s id scopes :
  fine (rds w0) -> rkeys (rds w0) = ∅ -> oreach w0 w ->
  let c := "client_" +:+ s in
  let m := CreateAccessToken cfg (Some id) (TRClient c scopes) in
  let w' := (m w).1 in
  (exists exp, (m w).2 = Ok (id, exp)) /\ (exists k, live_token (rds w') c c k)
  /\ (SetIntrospectionFromToken claims_for id c w').2 = Err ErrClaims
  /\ (SetUserinfoFromToken claims_for id w').2 = Err ErrClaims.
Proof.
  intros Hf H0 Hr c m w'. pose proof (oreach_good cfg scan claims_for Hsane w0 w Hf H0 Hr) as HG.
  destruct Hsane as [HA HR]. set (now := rclock (rds w)).
  set (a := mkAccessToken id c c "" [c] scopes (now + AccessTokenLifetime cfg)).
  assert (runs now m (rkeys (rds w)) (Ok (id, t_Expiration a)) (stored_access cfg now a (rkeys (rds w))) []) as Hrun.
  { unfold m, CreateAccessToken, getInfoFromRequest. eapply (runs_then now _ _ _ a); [|apply o_runs_ret].
    apply (storeAccessToken_runs cfg HA HR now id c "" c [c] scopes). apply HG. }
  destruct (runs_det _ _ _ _ _ _ w (good_now cfg w HG) eq_refl Hrun) as (Hx & Hn' & Hk & _). fold w' in Hn', Hk.
  destruct (px_bound cfg HR (AccessTokenLifetime cfg)) as [HpA _]; [lia|].
  assert (peek (rkeys (rds w')) now (kToken id) = Some (mkRKey (RStr (marshal a)) (Some (now + px (AccessTokenLifetime cfg))))) as Hp.
  { apply peek_Some. rewrite Hk, stored_access_lookup by done. rewrite decide_True by done. split; [done|].
    simpl. apply Z.ltb_lt. lia. }
  assert (t_Expiration a <? now = false) as Hexp by (apply Z.ltb_ge; simpl; lia).
  split_and!; [eauto | | |].
  - exists (kToken id). refine (live_access _ _ _ id a _ _ _ _); [|done..]. rewrite (proj2 Hn'). exact Hp.
  - assert (runs now (SetIntrospectionFromToken claims_for id c) (rkeys (rds w')) (Err ErrClaims) (rkeys (rds w')) []) as Hi.
    { eapply runs_getJSON_some; [exact Hp|]. apply runs_now. rewrite Hexp. cbn [negb orb].
      rewrite decide_False by (simpl; set_solver). apply runs_bind_err. apply oidc_runs_throw. }
    by destruct (runs_det _ _ _ _ _ _ w' Hn' eq_refl Hi) as (Hi2 & _).
  - assert (runs now (SetUserinfoFromToken claims_for id) (rkeys (rds w')) (Err ErrClaims) (rkeys (rds w')) []) as Hi.
    { eapply runs_getJSON_some; [exact Hp|]. apply runs_now. rewrite Hexp. apply oidc_runs_throw. }
    by destruct (runs_det _ _ _ _ _ _ w' Hn' eq_refl Hi) as (Hi2 & _).
Qed.

(** *** Codes *)

(** Redeeming a code only reads: it returns the same request as often as it is
    presented, and stops the moment the request is deleted, whichever codes name
    it; the code's own key is never removed. *)
Theorem code_dies_with_its_request w0 w code id a dl dl' :
  fine (rds w0) -> rkeys (rds w0) = ∅ -> oreach w0 w ->
  peek (rkeys (rds w)) (rclock (rds w)) (kCode code) = Some (mkRKey (RStr (DText id)) dl) ->
  peek (rkeys (rds w)) (rclock (rds w)) (kAuthReq id) = Some (mkRKey (RStr (marshal (a : authRequest))) dl') ->
  let w' := (AuthRequestByCode code w).1 in
  (AuthRequestByCode code w).2 = Ok a /\ (AuthRequestByCode code w').2 = Ok a
  /\ (AuthRequestByCode code (DeleteAuthRequest id w).1).2 = Err ErrRequestNotFound.
Proof.
  intros Hf H0 Hr Hc Ha w'. pose proof (oreach_good cfg scan claims_for Hsane w0 w Hf H0 Hr) as HG.
  set (now := rclock (rds w)) in *. set (ks := rkeys (rds w)) in *.
  assert (runs now (AuthRequestByCode code) ks (Ok a) ks []) as Hrun.
  { eapply (runs_call now (get_f (kCode code))); [unfold get_f; by rewrite Hc|]. eapply runs_getJSON_some; [exact Ha | apply o_runs_ret]. }
  destruct (runs_det _ _ _ _ _ _ w (good_now cfg w HG) eq_refl Hrun) as (Hx & Hn' & Hk & _).
  pose proof (runs_det _ _ _ _ _ _ w' Hn' Hk Hrun) as (Hx2 & _).
  pose proof (runs_checked now (del_f (kAuthReq id)) ks tt eq_refl) as Hdel.
  destruct (runs_det _ _ _ _ _ _ w (good_now cfg w HG) eq_refl Hdel) as (_ & Hn2 & Hk2 & _).
  assert (runs now (AuthRequestByCode code) (delete (kAuthReq id) ks) (Err ErrRequestNotFound) (delete (kAuthReq id) ks) []) as Hrun2.
  { eapply (runs_call now (get_f (kCode code))); [unfold get_f; by rewrite peek_delete_ne, Hc|].
    eapply runs_getJSON_none; [apply peek_delete_eq | apply oidc_runs_throw]. }
  pose proof (runs_det _ _ _ _ _ _ _ Hn2 Hk2 Hrun2) as (Hx3 & _). done.
Qed.
End Rotation.

(** Every struct the provider stores is read back as it was written, without a
    decoding error: the struct tags of the four types agree with themselves, empty
    and omitted members included. *)
Theorem stored_structs_roundtrip (q : authRequest) (a : accessToken) (r : refreshToken) (m : consumedMarker) :
  (decode (marshal q) = q /\ decodes (A:=authRequest) (marshal q) = true)
  /\ (decode (marshal a) = a /\ decodes (A:=accessToken) (marshal a) = true)
  /\ (decode (marshal r) = r /\ decodes (A:=refreshToken) (marshal r) = true)
  /\ (decode (marshal m) = m /\ decodes (A:=consumedMarker) (marshal m) = true).
Proof. split_and!; (apply decode_marshal || apply decodes_marshal). Qed.

(** ** The theorems at work *)

Module OidcDemo.

Definition claims_of (uid : Z) (client : string) (scopes : list string) : option Z := Some uid.
(** A server that answers a scan with all it holds, at once. *)
Definition scan_all (ks : Keys) (now cursor : Z) (pattern : string) : list string * Z :=
  ((map_to_list ks).*1, 0).

Definition w0 : OWorld := mkOWorld (mkRedis ∅ 1000 (fun _ => Fine) 0) [].
Definition login : authRequest :=
  mkAuthRequest "req" 900 "client_app" "https://app/cb" "st" [] "" None "42" ["openid"; "profile"]%string
    ["client_app"]%string "code" "" "n" None ["pwd"]%string "" true 950 "sid" false.
Definition issue := CreateAccessAndRefreshTokens DefaultConfig (Some "r0"%string) (Some "a0"%string) (Some "f0"%string)
  (TRAuth login) "".
Definition w1 : OWorld := (issue w0).1.
Definition rt0 : refreshToken :=
  mkRefreshToken "r0" "r0" 950 ["pwd"]%string ["client_app"]%string "42" "client_app" ["openid"; "profile"]%string
    "a0" "sid" "f0" (1000 + RefreshTokenLifetime DefaultConfig).
Definition exchange := CreateAccessAndRefreshTokens DefaultConfig (Some "r1"%string) (Some "a1"%string) None
  (TRRefresh (SetCurrentScopes ["openid"]%string rt0)) "r0".
Definition w2 : OWorld := (exchange w1).1.

Lemma w0_fine : fine (rds w0).
Proof. by intros n. Qed.
Lemma reach1 : oreach DefaultConfig scan_all claims_of w0 w1.
Proof. apply rtc_once. exact (ostep_call _ _ _ _ _ w0 (call_tokens _ _ _ _ _ _ _ _)). Qed.
Lemma reach2 : oreach DefaultConfig scan_all claims_of w0 w2.
Proof.
  eapply rtc_r; [exact reach1|]. exact (ostep_call _ _ _ _ _ w1 (call_tokens _ _ _ _ _ _ _ _)).
Qed.

Lemma scan_all_complete : scan_complete scan_all.
Proof.
  intros fuel ks now c u l _ Hl Hp. destruct fuel as [|fuel]; [done|]. cbn in Hl. simplify_eq.
  destruct (ks !! kUserTok u c) as [e|] eqn:He; [|unfold peek in Hp; by rewrite He in Hp].
  apply list_elem_of_fmap. exists (kUserTok u c, e). split; [done|]. by apply elem_of_map_to_list.
Qed.

Lemma store_stays_well_typed_witness :
  well_typed (rds w2) /\ ((GetRefreshTokenInfo "gone" w2).2 = Err ErrInvalidRefreshToken /\ ~ type_error ErrInvalidRefreshToken).
Proof.
  destruct (store_stays_well_typed DefaultConfig scan_all claims_of w0 w2 _ (GetRefreshTokenInfo "gone")
    ErrInvalidRefreshToken eq_refl reach2 (call_info _ _ _ _)) as [H1 H2].
  split; [exact H1|]. split; [vm_compute; reflexivity | apply H2; vm_compute; reflexivity].
Defined.

Lemma termination_reaches_every_token_witness :
  live_token (rds w2) "42" "client_app" (kRefresh "r1")
  /\ (TerminateSession "42" "client_app" w2).2 = Ok tt
  /\ forall k, ~ live_token (rds (TerminateSession "42" "client_app" w2).1) "42" "client_app" k.
Proof.
  split; [refine (live_refresh _ _ _ "r1" (rotated DefaultConfig 1000 rt0 "r1"
      (minted DefaultConfig "a1" "client_app" "r1" "42" ["client_app"]%string ["openid"]%string 1000)) _ _ _ _);
    [vm_compute; reflexivity | reflexivity | reflexivity] |].
  exact (termination_reaches_every_token DefaultConfig scan_all claims_of DefaultConfig_sane w0 w2 "42" "client_app"
    w0_fine eq_refl reach2 ltac:(discriminate) ltac:(discriminate)).
Defined.

Lemma revocation_reaches_every_token_witness :
  exists n, (RevokeAllForClient scan_all "client_app" w2).2 = Ok (n, None)
  /\ forall u k, u <> ""%string -> contains_colon u = false ->
     ~ live_token (rds (RevokeAllForClient scan_all "client_app" w2).1) u "client_app" k.
Proof.
  exact (revocation_reaches_every_token DefaultConfig scan_all claims_of DefaultConfig_sane w0 w2 "client_app"
    w0_fine eq_refl reach2 scan_all_complete ltac:(vm_compute; reflexivity) ltac:(discriminate)
    ltac:(eexists; unfold maxCursors; change (Z.to_nat 10000) with (S (Z.to_nat 9999)); reflexivity)).
Defined.

Lemma replay_revokes_the_family_witness :
  (TokenRequestByRefreshToken None "r0" w2).2 = Err ErrInvalidRefreshToken
  /\ bus (TokenRequestByRefreshToken None "r0" w2).1 = [mkReuse "42" "client_app"]
  /\ dead (TokenRequestByRefreshToken None "r0" w2).1 (kRefresh "r1")
  /\ dead (TokenRequestByRefreshToken None "r0" w2).1 (kToken "a1").
Proof.
  destruct (replay_revokes_the_family DefaultConfig scan_all claims_of DefaultConfig_sane w0 w2 None "r0" (marker_of rt0)
    w0_fine eq_refl reach2 ltac:(vm_compute; reflexivity) ltac:(eexists; vm_compute; reflexivity)
    ltac:(discriminate)) as (H1 & H2 & H3).
  destruct (H3 "r1"%string (rotated DefaultConfig 1000 rt0 "r1"
      (minted DefaultConfig "a1" "client_app" "r1" "42" ["client_app"]%string ["openid"]%string 1000)))
    as [H4 H5]; [eexists; vm_compute; reflexivity | reflexivity |].
  split; [exact H1|]. split; [exact H2|]. split; [exact H4 | exact (H5 ltac:(discriminate))].
Defined.

Lemma exchange_rotates_witness :
  (exchange w1).2 = Ok ("a1"%string, "r1"%string, 1000 + AccessTokenLifetime DefaultConfig)
  /\ dead w2 (kRefresh "r0") /\ dead w2 (kToken "a0") /\ spent_at w2 "r0" (marker_of rt0).
Proof.
  destruct (exchange_rotates DefaultConfig scan_all claims_of DefaultConfig_sane w0 w1 "r0" "r1" "a1" rt0 ["openid"]%string
    w0_fine eq_refl reach1 ltac:(discriminate) ltac:(eexists; vm_compute; reflexivity)
    ltac:(vm_compute; discriminate) ltac:(discriminate) ltac:(discriminate)) as (H1 & H2 & H3 & _ & _ & H6).
  split; [exact H1|]. split; [exact H2|]. split; [exact H3 | exact H6].
Defined.

Definition a1 := minted DefaultConfig "a1" "client_app" "r1" "42" ["client_app"]%string ["openid"]%string 1000.
Definition a2 := minted DefaultConfig "a2" "client_app" "r2" "42" ["client_app"]%string ["openid"]%string 1000.

Lemma simultaneous_rotations_fork_witness :
  refresh_at (renew_tail DefaultConfig "r0" "r2" a2 rt0 (renew_tail DefaultConfig "r0" "r1" a1 rt0 w1).1).1
    "r1" (rotated DefaultConfig 1000 rt0 "r1" a1).
Proof.
  destruct (simultaneous_rotations_fork DefaultConfig scan_all claims_of DefaultConfig_sane w0 w1 "r0" "r1" "r2" a1 a2 rt0
    w0_fine eq_refl reach1 ltac:(eexists; vm_compute; reflexivity) ltac:(vm_compute; discriminate)
    ltac:(discriminate) ltac:(discriminate)) as [(_ & _ & H & _) _].
  exact H.
Defined.

Lemma client_token_fails_introspection_witness :
  (SetIntrospectionFromToken claims_of "m" "client_job"
     (CreateAccessToken DefaultConfig (Some "m"%string) (TRClient "client_job" []) w2).1).2 = Err ErrClaims.
Proof.
  destruct (client_token_fails_introspection DefaultConfig scan_all claims_of DefaultConfig_sane w0 w2 "job" "m" []
    w0_fine eq_refl reach2) as (_ & _ & H & _).
  exact H.
Defined.

Definition asked : OWorld :=
  (CreateAuthRequest DefaultConfig (fun _ => None) (Some "q1"%string) false
     (mkOidcAuthRequest [] "client_app" "https://app/cb" "st" "" None ["openid"]%string "code" "" "n" "" "") "" w0).1.
Definition w3 : OWorld := (SaveAuthCode DefaultConfig "q1" "code1" asked).1.
Definition q1 : authRequest :=
  mkAuthRequest "q1" 1000 "client_app" "https://app/cb" "st" [] "" None "" ["openid"]%string
    ["client_app"]%string "code" "" "n" None [] "" false zeroTime "" false.
Lemma reach3 : oreach DefaultConfig scan_all claims_of w0 w3.
Proof.
  apply (rtc_l _ w0 asked); [|apply rtc_once].
  - exact (ostep_call _ _ _ _ _ w0 (call_create _ _ _ _ _ _ _ _)).
  - exact (ostep_call _ _ _ _ _ asked (call_save_code _ _ _ _ _)).
Qed.

Lemma code_dies_with_its_request_witness :
  (AuthRequestByCode "code1" w3).2 = Ok q1
  /\ (AuthRequestByCode "code1" (DeleteAuthRequest "q1" w3).1).2 = Err ErrRequestNotFound.
Proof.
  destruct (code_dies_with_its_request DefaultConfig scan_all claims_of DefaultConfig_sane w0 w3 "code1" "q1" q1
    (Some (1000 + 5 * Minute)) (Some (1000 + 15 * Minute)) w0_fine eq_refl reach3
    ltac:(vm_compute; reflexivity) ltac:(vm_compute; reflexivity)) as (H1 & _ & H3).
  split; [exact H1 | exact H3].
Defined.

End OidcDemo.
