(* ===== verification/Authz.v ===== *)
(** * Authz: the permission engine (src/pkg/authz)

    The decision ([Service.Check] of service.go), the role-permission catalogue held by
    Casbin (casbin.go), the two-level cache of bindings (cache.go), the registry of
    routes with its gateway (gateway.go), the middlewares (middleware.go) and the tenant
    switch (src/internal/middleware/tenant.go). Casbin is a library: its enforcer is a
    parameter, with what its documentation promises as laws. *)

From S2P Require Import Prelude Text Redis.

(** ** types.go *)

Definition ScopeGlobal : string := "".
Definition ScopeOrg : string := "org".
Definition ScopeGroup : string := "group".

Record ScopeTarget : Type := mkTarget { t_Kind : string; t_ID : Z }.
Definition TargetOrg (id : Z) : ScopeTarget := mkTarget ScopeOrg id.
Definition TargetGroup (id : Z) : ScopeTarget := mkTarget ScopeGroup id.

(** [map[string]struct{}] is a set; times are nanoseconds since 1970. *)
Record EffectiveBinding : Type := mkEB {
  eb_RoleID : Z; eb_Permissions : gset string; eb_Source : string; eb_SourceID : Z;
  eb_ScopeType : string; eb_ScopeID : Z; eb_ExpiresAt : option Z
}.

(** [ErrLookup] is the error of a collaborator, which nothing looks into. *)
Inductive AZErr : Type :=
| ErrEmptyPermission
| ErrNoBindingProvider
| ErrNoOrgAncestry
| ErrLookup
| ErrRedisDel
| ErrRedisPublish
| ErrCasbin
| ErrPersist.

(** [BindingProvider] and [OrgAncestry], over the state they read. *)
Definition BindingProvider (S : Type) : Type := Z -> Z -> M S AZErr (list EffectiveBinding).
Definition OrgAncestry (S : Type) : Type := Z -> Z -> M S AZErr bool.

(** ** casbin.go *)

(** What is called of github.com/casbin/casbin/v2, for the model of [CasbinModel]. *)
Class CasbinLib : Type := {
  Enforcer : Type;
  NewSyncedEnforcer : Enforcer;
  AddNamedGroupingPolicy : string -> string -> string -> Enforcer -> res unit Enforcer;
  AddPolicy : string -> string -> string -> Enforcer -> res unit Enforcer;
  Enforce : Enforcer -> string -> string -> string -> res unit bool
}.

Definition roleSubject (roleID : Z) : string := "role:" +:+ dec roleID.
Definition superAdminRole : string := "role:super_admin".
Definition tenantDomain (tenantID : Z) : string := "t:" +:+ dec tenantID.

Record RolePolicy : Type := mkRolePolicy { rp_TenantID : Z; rp_RoleID : Z; rp_Permission : string }.

Section Casbin.
Context `{!CasbinLib}.

(** The enforcer under construction and the (role, domain) pairs that have their self-edge. *)
Record Rebuild : Type := mkRebuild { rb_e : Enforcer; selfEdge : gset (string * string) }.

Definition addSelf (sub dom : string) (b : Rebuild) : res AZErr Rebuild :=
  if bool_decide ((sub, dom) ∈ selfEdge b) then Ok b else
  match AddNamedGroupingPolicy sub sub dom (rb_e b) with
  | Ok e => Ok (mkRebuild e ({[ (sub, dom) ]} ∪ selfEdge b))
  | Err _ => Err ErrCasbin
  end.

Definition add_rule (sub dom obj : string) (b : Rebuild) : res AZErr Rebuild :=
  match addSelf sub dom b with
  | Err e => Err e
  | Ok b' => match AddPolicy sub dom obj (rb_e b') with
             | Ok e => Ok (mkRebuild e (selfEdge b'))
             | Err _ => Err ErrCasbin
             end
  end.

Fixpoint add_policies (policies : list RolePolicy) (b : Rebuild) : res AZErr Rebuild :=
  match policies with
  | [] => Ok b
  | p :: ps =>
      if bool_decide (rp_Permission p = ""%string) then add_policies ps b else
      match add_rule (roleSubject (rp_RoleID p)) (tenantDomain (rp_TenantID p)) (rp_Permission p) b with
      | Ok b' => add_policies ps b'
      | Err e => Err e
      end
  end.

Fixpoint add_super_admins (tenants : list Z) (b : Rebuild) : res AZErr Rebuild :=
  match tenants with
  | [] => Ok b
  | t :: ts =>
      match add_rule superAdminRole (tenantDomain t) "*" b with
      | Ok b' => add_super_admins ts b'
      | Err e => Err e
      end
  end.

Definition rebuild (policies : list RolePolicy) (superAdminTenants : list Z) : res AZErr Enforcer :=
  match add_policies policies (mkRebuild NewSyncedEnforcer ∅) with
  | Err e => Err e
  | Ok b => match add_super_admins superAdminTenants b with Ok b' => Ok (rb_e b') | Err e => Err e end
  end.

(** The engine's [e], [nil] before it is built. *)
Definition RoleHasPermission (c : option Enforcer) (tenantID : Z) (roleSub perm : string) : bool :=
  match c with
  | None => false
  | Some e => match Enforce e roleSub (tenantDomain tenantID) perm with Ok ok => ok | Err _ => false end
  end.

(** The engine is a part of the state; [adapter] is nil or writes casbin_rule. *)
Section Engine.
Context {S : Type} (set_engine : Enforcer -> S -> S) (adapter : option (Enforcer -> M S AZErr unit)).

Definition ReplacePolicies (policies : list RolePolicy) (superAdminTenants : list Z) : M S AZErr unit :=
  match rebuild policies superAdminTenants with
  | Err e => throw e
  | Ok e =>
      do! match adapter with None => ret tt | Some save => save e end in
      modify (set_engine e)
  end.

Definition Sync (LoadPolicies : M S AZErr (list RolePolicy * list Z)) : M S AZErr unit :=
  let! loaded := LoadPolicies in
  ReplacePolicies loaded.1 loaded.2.
End Engine.

(** ** service.go *)

Definition hasPermission (set : gset string) (perm : string) : bool :=
  bool_decide ("*"%string ∈ set) || bool_decide (perm ∈ set).

Definition bindingRoleSubject (b : EffectiveBinding) : string :=
  if (eb_RoleID b =? 0) && bool_decide ("*"%string ∈ eb_Permissions b) then superAdminRole else roleSubject (eb_RoleID b).

(** [b.ExpiresAt != nil && b.ExpiresAt.Before(now)] *)
Definition expired (now : Z) (b : EffectiveBinding) : bool :=
  match eb_ExpiresAt b with Some x => x <? now | None => false end.

Section Service.
(** [engine] is None when no engine is attached, and then the state's enforcer; [now] is
    time.Now(). *)
Context {S : Type} (now : S -> Z).
Context (bindings : option (BindingProvider S)) (orgTree : option (OrgAncestry S)) (casbin : option (S -> option Enforcer)).
Abbreviation Op := (M S AZErr).

Definition bindingGrantsPerm (tenantID : Z) (b : EffectiveBinding) (perm : string) : Op bool :=
  match casbin with
  | None => ret (hasPermission (eb_Permissions b) perm)
  | Some engine => gets (fun s => RoleHasPermission (engine s) tenantID (bindingRoleSubject b) perm)
  end.

Definition scopeCovers (b : EffectiveBinding) (target : option ScopeTarget) : Op bool :=
  if bool_decide (eb_ScopeType b = ScopeGlobal) then ret true else
  match target with
  | None => ret true
  | Some t =>
      if bool_decide (eb_ScopeType b = ScopeOrg) then
        if negb (bool_decide (t_Kind t = ScopeOrg)) then ret false else
        match orgTree with
        | None => throw ErrNoOrgAncestry
        | Some IsAncestorOrSelf => IsAncestorOrSelf (eb_ScopeID b) (t_ID t)
        end
      else if bool_decide (eb_ScopeType b = ScopeGroup) then
        if negb (bool_decide (t_Kind t = ScopeGroup)) then ret false else ret (eb_ScopeID b =? t_ID t)
      else ret false
  end.

(** The loop of [Check]; an error of the scope is a binding that does not match. *)
Fixpoint check_bindings (tenantID : Z) (perm : string) (target : option ScopeTarget) (t : Z) (binds : list EffectiveBinding) : Op bool :=
  match binds with
  | [] => ret false
  | b :: rest =>
      if expired t b then check_bindings tenantID perm target t rest else
      let! grants := bindingGrantsPerm tenantID b perm in
      if negb grants then check_bindings tenantID perm target t rest else
      attempt (scopeCovers b target) (fun r =>
        match r with
        | Ok true => ret true
        | _ => check_bindings tenantID perm target t rest
        end)
  end.

Definition Check (tenantID userID : Z) (perm : string) (target : option ScopeTarget) : Op bool :=
  if bool_decide (perm = ""%string) then throw ErrEmptyPermission else
  match bindings with
  | None => throw ErrNoBindingProvider
  | Some EffectiveBindingsForUser =>
      let! binds := EffectiveBindingsForUser tenantID userID in
      let! t := gets now in
      check_bindings tenantID perm target t binds
  end.

Definition permission_union (binds : list EffectiveBinding) : gset string := ⋃ (eb_Permissions <$> binds).

(** With no provider the call panics. *)
Definition PermissionsForUser (tenantID userID : Z) : Op (gset string) :=
  match bindings with
  | None => throw ErrNoBindingProvider
  | Some EffectiveBindingsForUser =>
      let! binds := EffectiveBindingsForUser tenantID userID in ret (permission_union binds)
  end.
End Service.
End Casbin.

(** ** cache.go *)

Definition defaultL1TTL : Z := 60 * Second.
Definition defaultL2TTL : Z := 5 * Minute.
Definition cacheKeyPrefix : string := "authz:bindings:".
Definition invalidateAllSentinel : string := "*".

Record l1Entry : Type := mkL1 { l1_bindings : list EffectiveBinding; l1_expireAt : Z }.

(** The wire shape; [ExpiresAt] is in seconds. *)
Record serializedBinding : Type := mkSB {
  sb_RoleID : Z; sb_Permissions : list string; sb_Source : string; sb_SourceID : Z;
  sb_ScopeType : string; sb_ScopeID : Z; sb_ExpiresAt : option Z
}.

Definition serialize (b : EffectiveBinding) : serializedBinding :=
  mkSB (eb_RoleID b) (elements (eb_Permissions b)) (eb_Source b) (eb_SourceID b) (eb_ScopeType b) (eb_ScopeID b)
    ((fun t => t / Second) <$> eb_ExpiresAt b).
Definition deserialize (s : serializedBinding) : EffectiveBinding :=
  mkEB (sb_RoleID s) (list_to_set (sb_Permissions s)) (sb_Source s) (sb_SourceID s) (sb_ScopeType s) (sb_ScopeID s)
    ((fun t => t * Second) <$> sb_ExpiresAt s).

Definition cacheKey (tenantID userID : Z) : string := cacheKeyPrefix +:+ dec tenantID +:+ ":" +:+ dec userID.

Section Cache.
Context {D : Type}.
Abbreviation BRedis := (Redis (list serializedBinding)).

(** What a pod works on: the state of the provider behind the cache, the shared Redis,
    its own level 1, what it published on the invalidation channel, and the purges it
    has started. *)
Record Node : Type := mkNode {
  n_db : D; n_redis : BRedis; n_l1 : gmap string l1Entry; n_out : list string; n_purges : nat
}.
Abbreviation Op := (M Node AZErr).

Definition with_l1 f (n : Node) := mkNode (n_db n) (n_redis n) (f (n_l1 n)) (n_out n) (n_purges n).
Definition node_now (n : Node) : Z := rclock (n_redis n).

Definition on_inner {A} (m : M D AZErr A) : Op A := fun n =>
  let '(d, x) := m (n_db n) in (mkNode d (n_redis n) (n_l1 n) (n_out n) (n_purges n), x).
Definition on_redis {A} (e : AZErr) (m : M BRedis RErr A) : Op A := fun n =>
  let '(r, x) := m (n_redis n) in
  (mkNode (n_db n) r (n_l1 n) (n_out n) (n_purges n), match x with Ok a => Ok a | Err _ => Err e end).

(** PUBLISH: subscribers get it unless the command never arrived. *)
Definition PUBLISH (msg : string) : Op unit := fun n =>
  let '(r, x) := command (fun ks _ => (ks, Ok tt)) (n_redis n) in
  let sent := match rfate (n_redis n) (rcalls (n_redis n)) with Refused => [] | _ => [msg] end in
  (mkNode (n_db n) r (n_l1 n) (n_out n ++ sent) (n_purges n),
   match x with Ok a => Ok a | Err _ => Err ErrRedisPublish end).

(** [rdb] says whether Redis is configured. *)
Context (inner : BindingProvider D) (rdb : bool) (l1TTL l2TTL : Z).

Definition l1Get (key : string) : Op (option (list EffectiveBinding)) :=
  gets (fun n => match n_l1 n !! key with
                 | Some e => if l1_expireAt e <? node_now n then None else Some (l1_bindings e)
                 | None => None
                 end).
Definition l1Set (key : string) (v : list EffectiveBinding) : Op unit :=
  modify (fun n => with_l1 <[key := mkL1 v (node_now n + l1TTL)]> n).
Definition l1Delete (key : string) : Op unit := modify (with_l1 (delete key)).
Definition l1Clear : Op unit := modify (with_l1 (fun _ => ∅)).

(** Any error is a miss. *)
Definition l2Get (key : string) : Op (option (list EffectiveBinding)) :=
  attempt (on_redis ErrLookup (GET key)) (fun r =>
    match r with Ok s => ret (Some (deserialize <$> s)) | Err _ => ret None end).
Definition l2Set (key : string) (v : list EffectiveBinding) : Op unit :=
  attempt (on_redis ErrLookup (SET key (serialize <$> v) l2TTL)) (fun _ => ret tt).

(** What is done with an answer of the provider, and the answer itself. *)
Definition write_back (key : string) (v : list EffectiveBinding) : Op unit :=
  do! l1Set key v in
  if rdb then l2Set key v else ret tt.

Definition CachedBindings : BindingProvider Node := fun tenantID userID =>
  let key := cacheKey tenantID userID in
  let! hit1 := l1Get key in
  match hit1 with
  | Some v => ret v
  | None =>
      let! hit2 := (if rdb then l2Get key else ret None) in
      match hit2 with
      | Some v => do! l1Set key v in ret v
      | None =>
          let! v := on_inner (inner tenantID userID) in
          do! write_back key v in
          ret v
      end
  end.

(** [err != nil && !errors.Is(err, redis.Nil)]: DEL answers no redis.Nil. *)
Definition Invalidate (tenantID userID : Z) : Op unit :=
  let key := cacheKey tenantID userID in
  do! l1Delete key in
  if negb rdb then ret tt else
  do! on_redis ErrRedisDel (DEL key) in
  PUBLISH key.

(** [go c.purgeL2(...)] *)
Definition start_purge : Op unit :=
  modify (fun n => mkNode (n_db n) (n_redis n) (n_l1 n) (n_out n) (S (n_purges n))).

Definition InvalidateAll : Op unit :=
  do! l1Clear in
  if negb rdb then ret tt else
  do! start_purge in
  PUBLISH invalidateAllSentinel.

(** SCAN with the pattern [cacheKeyPrefix + "*"]: a batch of the keyspace and the next
    cursor, as the server chooses. *)
Context (scan : gmap string (RKey (list serializedBinding)) -> Z -> list string * Z).
Definition SCAN (cursor : Z) : M BRedis RErr (list string * Z) := command (fun ks _ => (ks, Ok (scan ks cursor))).

(** The loop of [purgeL2]; [false] when the fuel runs out before the cursor is 0 again. *)
Fixpoint purge_from (fuel : nat) (cursor : Z) : M BRedis RErr bool :=
  match fuel with
  | O => ret false
  | S fuel' =>
      attempt (SCAN cursor) (fun r =>
        match r with
        | Err _ => ret true
        | Ok (keys, next) =>
            do! (if bool_decide (keys = []) then ret tt else ignore (DELS keys)) in
            if next =? 0 then ret true else purge_from fuel' next
        end)
  end.
Definition purgeL2 (fuel : nat) : M BRedis RErr bool := purge_from fuel 0.

(** What the subscriber does with a message. *)
Definition on_message (payload : string) : Op unit :=
  if bool_decide (payload = invalidateAllSentinel) then l1Clear else l1Delete payload.
End Cache.
Arguments Node : clear implicits.

(** ** gateway.go *)

Record routeRegistry : Type := mkRegistry {
  protected : gmap string string; allow : gset string; allowPfx : list string
}.
Definition registry0 : routeRegistry := mkRegistry ∅ ∅ [].

Definition routeKey (method fullPath : string) : string := method +:+ " " +:+ fullPath.
Definition Protect (method fullPath perm : string) (r : routeRegistry) : routeRegistry :=
  mkRegistry (<[routeKey method fullPath := perm]> (protected r)) (allow r) (allowPfx r).
Definition AllowPublic (method fullPath : string) (r : routeRegistry) : routeRegistry :=
  mkRegistry (protected r) ({[ routeKey method fullPath ]} ∪ allow r) (allowPfx r).
Definition AllowPublicPrefix (prefix : string) (r : routeRegistry) : routeRegistry :=
  mkRegistry (protected r) (allow r) (allowPfx r ++ [prefix]).
Definition requestRegister (method fullPath perm : string) (r : routeRegistry) : routeRegistry :=
  if bool_decide (fullPath = ""%string) then r
  else if bool_decide (is_Some (protected r !! routeKey method fullPath)) then r
  else mkRegistry (<[routeKey method fullPath := perm]> (protected r)) (allow r) (allowPfx r).

Definition isAllowed (r : routeRegistry) (method fullPath : string) : bool :=
  bool_decide (routeKey method fullPath ∈ allow r) || existsb (HasPrefix fullPath) (allowPfx r).
Definition isProtected (r : routeRegistry) (method fullPath : string) : bool :=
  bool_decide (is_Some (protected r !! routeKey method fullPath)).
Definition IsRegistered (r : routeRegistry) (method fullPath : string) : bool :=
  isAllowed r method fullPath || isProtected r method fullPath.

(** A middleware lets the request go on or ends it with a status and a code. *)
Inductive Verdict : Type := Next | Abort (http code : Z).

Definition Gateway (auditOnly : bool) (r : routeRegistry) (method fullPath : string) : Verdict :=
  if bool_decide (fullPath = ""%string) then Next
  else if isAllowed r method fullPath then Next
  else if isProtected r method fullPath then Next
  else if auditOnly then Next
  else Abort 403 40301.

(** ** middleware.go, and TenantContext *)

(** Of the request and its context: [user_id] and [tenant_id] are 0 when they are not set. *)
Record Ctx : Type := mkCtx { c_Method : string; c_FullPath : string; c_UserID : Z; c_TenantID : Z; c_XTenantID : string }.

Section Middleware.
Context {S : Type}.
(** The service of the context, nil before it is installed, as its [Check]. *)
Context (svc : option (Z -> Z -> string -> option ScopeTarget -> M S AZErr bool)).
Abbreviation Op := (M (routeRegistry * S) AZErr).

Definition on_service {A} (m : M S AZErr A) : Op A := fun s => let '(s', x) := m s.2 in ((s.1, s'), x).
Definition registering (c : Ctx) (perm : string) : Op unit :=
  modify (fun s => (requestRegister (c_Method c) (c_FullPath c) perm s.1, s.2)).

Definition Require (perm : string) (scopeFn : option (Ctx -> option ScopeTarget)) (c : Ctx) : Op Verdict :=
  do! registering c perm in
  match svc with
  | None => ret (Abort 500 50000)
  | Some Check =>
      if c_UserID c =? 0 then ret (Abort 401 40101) else
      let target := match scopeFn with Some f => f c | None => None end in
      attempt (on_service (Check (c_TenantID c) (c_UserID c) perm target)) (fun r =>
        match r with
        | Err _ => ret (Abort 500 50001)
        | Ok ok => ret (if ok then Next else Abort 403 40300)
        end)
  end.

Fixpoint any_of (Check : string -> M S AZErr bool) (perms : list string) : Op Verdict :=
  match perms with
  | [] => ret (Abort 403 40300)
  | p :: ps =>
      attempt (on_service (Check p)) (fun r =>
        match r with
        | Err _ => ret (Abort 500 50001)
        | Ok true => ret Next
        | Ok false => any_of Check ps
        end)
  end.

Definition RequireAny (perms : list string) (scopeFn : option (Ctx -> option ScopeTarget)) (c : Ctx) : Op Verdict :=
  do! registering c "" in
  match svc with
  | None => ret (Abort 500 50000)
  | Some Check =>
      if c_UserID c =? 0 then ret (Abort 401 40101) else
      let target := match scopeFn with Some f => f c | None => None end in
      any_of (fun p => Check (c_TenantID c) (c_UserID c) p target) perms
  end.

(** The context the request goes on with, or the end of it. *)
Definition TenantContext (c : Ctx) : M S AZErr (Ctx + Verdict) :=
  if bool_decide (c_XTenantID c = ""%string) then ret (inl c) else
  let '(tid, ok) := ParseInt (c_XTenantID c) in
  if negb ok || (tid <=? 0) then ret (inr (Abort 400 40001)) else
  match svc with
  | None => ret (inr (Abort 500 50000))
  | Some Check =>
      attempt (Check (c_TenantID c) (c_UserID c) "*" None) (fun r =>
        match r with
        | Ok true => ret (inl (mkCtx (c_Method c) (c_FullPath c) (c_UserID c) tid (c_XTenantID c)))
        | _ => ret (inr (Abort 403 40300))
        end)
  end.
End Middleware.
