(* ===== verification/AuthzProps.v ===== *)
(** * AuthzProps: what the permission engine decides

    [Check] is the disjunction, over the bindings it is given, of "not expired, grants the
    permission, covers the target"; and Casbin, loaded with the catalogue, says of a role what
    its own permission set says. *)

From S2P Require Import Prelude Text Redis Authz.
#[global] Open Scope Z_scope.

Lemma existsb_eq {A} (f g : A -> bool) (l : list A) : (forall x, f x = g x) -> existsb f l = existsb g l.
Proof. intros H. induction l as [|x l IH]; [done|]. cbn. by rewrite H, IH. Qed.

(** ** The decision *)

(** The scope of a binding, given who is above whom. *)
Definition covers (anc : Z -> Z -> bool) (b : EffectiveBinding) (target : option ScopeTarget) : bool :=
  bool_decide (eb_ScopeType b = ScopeGlobal)
  || match target with
     | None => true
     | Some t => bool_decide (eb_ScopeType b = ScopeOrg /\ t_Kind t = ScopeOrg) && anc (eb_ScopeID b) (t_ID t)
                 || bool_decide (eb_ScopeType b = ScopeGroup /\ t_Kind t = ScopeGroup) && (eb_ScopeID b =? t_ID t)
     end.

Section Decision.
Context `{!CasbinLib} {S : Type}.
Context (now : S -> Z) (orgTree : OrgAncestry S) (casbin : option (S -> option Enforcer)) (anc : S -> Z -> Z -> bool)
  (good : S -> Prop).
Abbreviation engine s := (match casbin with Some f => f s | None => None end).

(** What the engine relies on of the organizations: an answer is the truth, a lookup leaves
    alone what the decision depends on, and in a good state every lookup is answered. *)
Definition same (s s' : S) : Prop := anc s' = anc s /\ engine s' = engine s /\ (good s -> good s').
Class OrgTreeLaws : Prop := {
  ancestry_frame : forall a d s, same s (orgTree a d s).1;
  ancestry_true : forall a d s b, (orgTree a d s).2 = Ok b -> b = anc s a d;
  ancestry_answered : forall a d s, good s -> exists ok, (orgTree a d s).2 = Ok ok
}.

Definition grants (s : S) (tenantID : Z) (perm : string) (b : EffectiveBinding) : bool :=
  match casbin with
  | None => hasPermission (eb_Permissions b) perm
  | Some f => RoleHasPermission (f s) tenantID (bindingRoleSubject b) perm
  end.
Definition allows (s : S) (tenantID : Z) (perm : string) (target : option ScopeTarget) (t : Z) (b : EffectiveBinding) : bool :=
  negb (expired t b) && grants s tenantID perm b && covers (anc s) b target.

Context `{!OrgTreeLaws}.

Lemma same_refl s : same s s.
Proof. done. Qed.
Lemma same_trans s1 s2 s3 : same s1 s2 -> same s2 s3 -> same s1 s3.
Proof. unfold same. intros (-> & -> & ?) (-> & -> & ?). auto. Qed.
Lemma allows_same s s' tenantID perm target t b : same s s' -> allows s' tenantID perm target t b = allows s tenantID perm target t b.
Proof. intros (Ha & He & _). unfold allows, grants. rewrite Ha. destruct casbin; [by rewrite He | done]. Qed.

Lemma grants_run s tenantID b perm : bindingGrantsPerm casbin tenantID b perm s = (s, Ok (grants s tenantID perm b)).
Proof. unfold bindingGrantsPerm, grants. by destruct casbin. Qed.

Lemma covers_run s b target s' x :
  scopeCovers (Some orgTree) b target s = (s', x) -> same s s' /\ (forall ok, x = Ok ok -> ok = covers (anc s) b target).
Proof.
  unfold scopeCovers, covers, ret. destruct (bool_decide_reflect (eb_ScopeType b = ScopeGlobal)); cbn [orb].
  { intros [= <- <-]. split; [done|]. by intros ? [= <-]. }
  destruct target as [t|]; [|intros [= <- <-]; split; [done|]; by intros ? [= <-]].
  destruct (bool_decide_reflect (eb_ScopeType b = ScopeOrg)) as [Ho|Ho].
  - destruct (bool_decide_reflect (t_Kind t = ScopeOrg)) as [Hk|Hk]; cbn [negb].
    + intros Hr. pose proof (ancestry_frame (eb_ScopeID b) (t_ID t) s) as Hf. pose proof (ancestry_true (eb_ScopeID b) (t_ID t) s) as Ht.
      rewrite Hr in Hf, Ht. cbn in Hf, Ht. split; [done|]. intros ok ->. rewrite (Ht ok eq_refl).
      rewrite bool_decide_eq_true_2 by done. rewrite bool_decide_eq_false_2 by (rewrite Ho; by intros [? _]).
      by rewrite orb_false_r.
    + intros [= <- <-]. split; [done|]. intros ? [= <-]. rewrite bool_decide_eq_false_2 by tauto.
      rewrite bool_decide_eq_false_2; [done|]. rewrite Ho. by intros [? _].
  - rewrite (bool_decide_eq_false_2 (_ /\ t_Kind t = ScopeOrg)) by tauto.
    destruct (bool_decide_reflect (eb_ScopeType b = ScopeGroup)) as [Hg|Hg].
    + destruct (bool_decide_reflect (t_Kind t = ScopeGroup)) as [Hk|Hk]; cbn [negb]; intros [= <- <-]; (split; [done|]);
        intros ? [= <-]; [by rewrite bool_decide_eq_true_2 by done | by rewrite bool_decide_eq_false_2 by tauto].
    + intros [= <- <-]. split; [done|]. intros ? [= <-]. by rewrite bool_decide_eq_false_2 by tauto.
Qed.

Lemma covers_answered s b target : good s -> exists s', scopeCovers (Some orgTree) b target s = (s', Ok (covers (anc s) b target)).
Proof.
  intros Ha. destruct (scopeCovers (Some orgTree) b target s) as [s' x] eqn:Hr. exists s'. f_equal.
  assert (exists ok, x = Ok ok) as [ok ->].
  { revert Hr. unfold scopeCovers, ret. repeat case_match; intros Hr; simplify_eq; eauto.
    destruct (ancestry_answered (eb_ScopeID b) (t_ID s0) s Ha) as [ok Hok]. rewrite Hr in Hok. eauto. }
  f_equal. by apply (covers_run _ _ _ _ _ Hr).
Qed.

Lemma check_bindings_run tenantID perm target t binds s s' x :
  check_bindings (Some orgTree) casbin tenantID perm target t binds s = (s', x) ->
  same s s' /\ (x = Ok true -> existsb (allows s tenantID perm target t) binds = true)
  /\ (x = Ok true \/ x = Ok false)
  /\ (good s -> x = Ok (existsb (allows s tenantID perm target t) binds)).
Proof.
  revert s s' x. induction binds as [|b rest IH]; intros s s' x; cbn [check_bindings existsb].
  { intros [= <- <-]. split_and!; [done | done | by right | done]. }
  unfold allows at 1 3. destruct (expired t b); cbn [negb andb orb]; [apply IH|].
  unfold bind at 1. rewrite grants_run. destruct (grants s tenantID perm b); cbn [negb andb orb]; [|apply IH].
  unfold attempt. destruct (scopeCovers (Some orgTree) b target s) as [s1 y] eqn:Hc.
  destruct (covers_run _ _ _ _ _ Hc) as [Hs1 Hy].
  assert (same s s1 -> check_bindings (Some orgTree) casbin tenantID perm target t rest s1 = (s', x) ->
          same s s' /\ (x = Ok true -> existsb (allows s tenantID perm target t) rest = true) /\ (x = Ok true \/ x = Ok false)
          /\ (good s -> x = Ok (existsb (allows s tenantID perm target t) rest))) as Hrest.
  { intros Hsame Hr. destruct (IH _ _ _ Hr) as (H1 & H2 & H3 & H4). split_and!; [by eapply same_trans| | done |].
    - intros Hx. rewrite <- (H2 Hx). apply existsb_eq. intros b'. symmetry. by apply allows_same.
    - intros Ha. rewrite H4 by (apply Hsame; done).
      f_equal. apply existsb_eq. intros b'. by apply allows_same. }
  destruct y as [[]|e].
  - rewrite <- (Hy true eq_refl). intros [= <- <-]. cbn. split_and!; auto.
  - rewrite <- (Hy false eq_refl). cbn [orb]. auto.
  - intros Hr. destruct (Hrest Hs1 Hr) as (H1 & H2 & H3 & H4). split_and!; [done| | done |].
    + intros Hx. apply orb_true_intro. auto.
    + intros Ha. destruct (covers_answered s b target Ha) as [s2 Hc2]. congruence.
Qed.

Section WithProvider.
Context (provider : BindingProvider S).
Abbreviation check := (Check now (Some provider) (Some orgTree) casbin).

(** An allowed request has an unexpired binding that grants and covers. *)
Lemma check_sound tenantID userID perm target s s' :
  check tenantID userID perm target s = (s', Ok true) ->
  exists s1 binds b, provider tenantID userID s = (s1, Ok binds) /\ b ∈ binds /\ allows s1 tenantID perm target (now s1) b = true.
Proof.
  unfold Check. case_bool_decide; [discriminate|]. intros Hr. apply bind_ok in Hr as (binds & s1 & Hp & Hr).
  apply bind_ok in Hr as (t & s2 & Ht & Hr). injection Ht as <- <-.
  apply check_bindings_run in Hr as (_ & Hx & _). specialize (Hx eq_refl). apply existsb_exists in Hx as (b & Hb & Hok).
  exists s1, binds, b. split_and!; [done | by apply list_elem_of_In | done].
Qed.

(** With the lookups answered, [Check] is that disjunction. *)
Lemma check_exact tenantID userID perm target s s1 binds :
  perm <> ""%string -> provider tenantID userID s = (s1, Ok binds) -> good s1 ->
  (check tenantID userID perm target s).2 = Ok (existsb (allows s1 tenantID perm target (now s1)) binds).
Proof.
  intros Hp Hpr Ha. unfold Check. rewrite bool_decide_eq_false_2 by done. erewrite bind_ok_run by exact Hpr.
  unfold bind at 1, gets. destruct (check_bindings _ _ _ _ _ _ _ s1) as [s' x] eqn:Hr.
  apply check_bindings_run in Hr as (_ & _ & _ & Hx). by apply Hx.
Qed.

(** It errs only for an empty permission or when the bindings cannot be loaded. *)
Lemma check_errors tenantID userID perm target s s' e :
  check tenantID userID perm target s = (s', Err e) ->
  (perm = ""%string /\ e = ErrEmptyPermission) \/ provider tenantID userID s = (s', Err e).
Proof.
  unfold Check. case_bool_decide as Hp; [intros [= <- <-]; by left|]. intros Hr.
  apply bind_err in Hr as [Hr | (binds & s1 & _ & Hr)]; [by right|].
  apply bind_err in Hr as [Hr | (t & s2 & Ht & Hr)]; [discriminate Hr|].
  apply check_bindings_run in Hr as (_ & _ & [Hx|Hx] & _); discriminate Hx.
Qed.
End WithProvider.
End Decision.
Arguments OrgTreeLaws {_ S} orgTree casbin anc good.

(** ** Casbin *)

(** What Casbin documents of an enforcer with this model: the rules and grouping edges it
    holds; a request is allowed by a rule of its domain whose subject the role reaches, and
    not refused when a single edge leads there. *)
Class CasbinLaws `{!CasbinLib} : Type := {
  policies_of : Enforcer -> gset (string * string * string);
  groupings_of : Enforcer -> gset (string * string * string);
  new_empty : policies_of NewSyncedEnforcer = ∅ /\ groupings_of NewSyncedEnforcer = ∅;
  grouping_added : forall a b d e e', AddNamedGroupingPolicy a b d e = Ok e' ->
    policies_of e' = policies_of e /\ groupings_of e' = {[ (a, b, d) ]} ∪ groupings_of e;
  policy_added : forall a d o e e', AddPolicy a d o e = Ok e' ->
    policies_of e' = {[ (a, d, o) ]} ∪ policies_of e /\ groupings_of e' = groupings_of e;
  enforce_sound : forall e s d o, Enforce e s d o = Ok true ->
    exists r o', (r, d, o') ∈ policies_of e /\ rtc (fun a b => (a, b, d) ∈ groupings_of e) s r /\ (o = o' \/ o' = "*"%string);
  enforce_complete : forall e s d o r o', Enforce e s d o = Ok false ->
    (r, d, o') ∈ policies_of e -> (s, r, d) ∈ groupings_of e -> ~ (o = o' \/ o' = "*"%string)
}.

Lemma roleSubject_inj a b : roleSubject a = roleSubject b -> a = b.
Proof. intros H. apply dec_inj. by apply (app_cancel_l "role:") in H. Qed.
Lemma tenantDomain_inj a b : tenantDomain a = tenantDomain b -> a = b.
Proof. intros H. apply dec_inj. by apply (app_cancel_l "t:") in H. Qed.
Lemma roleSubject_super id : roleSubject id <> superAdminRole.
Proof.
  intros H. change superAdminRole with ("role:" +:+ "super_admin")%string in H. apply app_cancel_l in H.
  pose proof (dec_chars id) as Hc. rewrite H in Hc. by vm_compute in Hc.
Qed.

Lemma triple_inj {A B C} (a a' : A) (b b' : B) (c c' : C) : (a, b, c) = (a', b', c') -> a = a' /\ b = b' /\ c = c'.
Proof. intros H. by simplify_eq. Qed.

Section CasbinSpec.
Context `{!CasbinLib} `{!CasbinLaws}.

Definition rule_of (p : RolePolicy) : string * string * string := (roleSubject (rp_RoleID p), tenantDomain (rp_TenantID p), rp_Permission p).
Definition super_rule (t : Z) : string * string * string := (superAdminRole, tenantDomain t, "*"%string).

(** What a rebuild has put in: the rules [R], and the self-edge of each subject of one. *)
Record built (b : Rebuild) (R : gset (string * string * string)) : Prop := {
  built_policies : policies_of (rb_e b) = R;
  built_edges : forall x y d, (x, y, d) ∈ groupings_of (rb_e b) <-> x = y /\ (x, d) ∈ selfEdge b;
  built_selves : forall s d o, (s, d, o) ∈ R -> (s, d) ∈ selfEdge b
}.

Lemma built_new : built (mkRebuild NewSyncedEnforcer ∅) ∅.
Proof. destruct new_empty as [Hp Hg]. split; cbn; [done | | set_solver]. intros x y d. rewrite Hg. set_solver. Qed.

Lemma addSelf_built b R s d b' : built b R -> addSelf s d b = Ok b' -> built b' R /\ (s, d) ∈ selfEdge b'.
Proof.
  intros [H1 H2 H3]. unfold addSelf. case_bool_decide as Hin; [by intros [= <-]|].
  destruct (AddNamedGroupingPolicy s s d (rb_e b)) as [e|] eqn:Ha; [|discriminate]. intros [= <-].
  apply grouping_added in Ha as [Hp Hg]. cbn. split; [|set_solver]. split; cbn; [congruence | | set_solver].
  intros x y d'. rewrite Hg, elem_of_union, elem_of_singleton, H2. set_solver.
Qed.

Lemma add_rule_built b R s d o b' : built b R -> add_rule s d o b = Ok b' -> built b' ({[ (s, d, o) ]} ∪ R).
Proof.
  intros Hb. unfold add_rule. destruct (addSelf s d b) as [b1|] eqn:Hs; [|discriminate].
  destruct (addSelf_built _ _ _ _ _ Hb Hs) as [[H1 H2 H3] Hin]. destruct (AddPolicy s d o (rb_e b1)) as [e|] eqn:Ha; [|discriminate].
  intros [= <-]. apply policy_added in Ha as [Hp Hg]. split; cbn; [by rewrite Hp, H1 | by rewrite Hg | set_solver].
Qed.

Lemma add_policies_built ps b R b' :
  built b R -> add_policies ps b = Ok b' -> built b' (list_to_set (rule_of <$> filter (fun p => rp_Permission p <> ""%string) ps) ∪ R).
Proof.
  revert b R. induction ps as [|p ps IH]; intros b R Hb; cbn [add_policies].
  { intros [= <-]. cbn. by rewrite union_empty_l_L. }
  case_bool_decide as Hp.
  - intros Hr. rewrite filter_cons_False by (intros Hne; by apply Hne). by eapply IH.
  - rewrite filter_cons_True by done. destruct (add_rule _ _ _ b) as [b1|] eqn:Ha; [|discriminate]. intros Hr.
    pose proof (IH _ _ (add_rule_built _ _ _ _ _ _ Hb Ha) Hr) as Hnew. cbn.
    replace ({[rule_of p]} ∪ _ ∪ R) with
      (list_to_set (rule_of <$> filter (fun p => rp_Permission p <> ""%string) ps) ∪ ({[rule_of p]} ∪ R) : gset _) by set_solver.
    exact Hnew.
Qed.

Lemma add_super_admins_built ts b R b' :
  built b R -> add_super_admins ts b = Ok b' -> built b' (list_to_set (super_rule <$> ts) ∪ R).
Proof.
  revert b R. induction ts as [|t ts IH]; intros b R Hb; cbn [add_super_admins].
  { intros [= <-]. cbn. by rewrite union_empty_l_L. }
  destruct (add_rule _ _ _ b) as [b1|] eqn:Ha; [|discriminate]. intros Hr.
  pose proof (IH _ _ (add_rule_built _ _ _ _ _ _ Hb Ha) Hr) as Hnew. cbn.
  replace ({[super_rule t]} ∪ _ ∪ R) with (list_to_set (super_rule <$> ts) ∪ ({[super_rule t]} ∪ R) : gset _) by set_solver.
  exact Hnew.
Qed.

Lemma rebuild_built ps ts e :
  rebuild ps ts = Ok e -> exists b, rb_e b = e
    /\ built b (list_to_set (super_rule <$> ts) ∪ list_to_set (rule_of <$> filter (fun p => rp_Permission p <> ""%string) ps)).
Proof.
  unfold rebuild. destruct (add_policies _ _) as [b1|] eqn:H1; [|discriminate].
  destruct (add_super_admins ts b1) as [b2|] eqn:H2; [|discriminate]. intros [= <-]. exists b2. split; [done|].
  eapply add_super_admins_built; [|exact H2]. pose proof (add_policies_built _ _ _ _ built_new H1) as Hnew.
  by rewrite union_empty_r_L in Hnew.
Qed.

(** The enforcer answers whether a rule of that very role and domain says so. *)
Lemma rebuilt_decides ps ts e s d o ok :
  rebuild ps ts = Ok e -> Enforce e s d o = Ok ok ->
  ok = true <-> exists o', (s, d, o') ∈ (list_to_set (super_rule <$> ts) ∪ list_to_set (rule_of <$> filter (fun p => rp_Permission p <> ""%string) ps) : gset _)
    /\ (o = o' \/ o' = "*"%string).
Proof.
  intros Hr He. destruct (rebuild_built _ _ _ Hr) as (b & <- & [Hp Hg Hs]). rewrite <- Hp. split.
  - intros ->. destruct (enforce_sound _ _ _ _ He) as (r & o' & Hin & Hrtc & Ho). exists o'. split; [|done].
    assert (s = r) as ->; [|done]. clear -Hrtc Hg. induction Hrtc as [|x y z Hxy _ IH]; [done|]. by apply Hg in Hxy as [-> _].
  - intros (o' & Hin & Ho). destruct ok; [done|]. exfalso. eapply enforce_complete; [exact He | exact Hin | | exact Ho].
    apply Hg. split; [done|]. rewrite Hp in Hin. by apply Hs in Hin.
Qed.

Lemma rule_of_in ps ts r t o :
  (roleSubject r, tenantDomain t, o) ∈ (list_to_set (super_rule <$> ts) ∪ list_to_set (rule_of <$> filter (fun p => rp_Permission p <> ""%string) ps) : gset _)
  <-> o <> ""%string /\ mkRolePolicy t r o ∈ ps.
Proof.
  rewrite elem_of_union, !elem_of_list_to_set, !list_elem_of_fmap. split.
  - intros [(t' & He & _)|(p & He & Hp)].
    + apply triple_inj in He as (He & _ & _). by apply roleSubject_super in He.
    + destruct p as [t' r' o']. apply list_elem_of_filter in Hp as [Hne Hp]. unfold rule_of in He. cbn in *.
      apply triple_inj in He as (Hr & Ht & ->). apply roleSubject_inj in Hr as <-. by apply tenantDomain_inj in Ht as <-.
  - intros [Hne Hin]. right. exists (mkRolePolicy t r o). split; [done|]. apply list_elem_of_filter. by split.
Qed.

Lemma super_rule_in ps ts t o :
  (superAdminRole, tenantDomain t, o) ∈ (list_to_set (super_rule <$> ts) ∪ list_to_set (rule_of <$> filter (fun p => rp_Permission p <> ""%string) ps) : gset _)
  <-> o = "*"%string /\ t ∈ ts.
Proof.
  rewrite elem_of_union, !elem_of_list_to_set, !list_elem_of_fmap. split.
  - intros [(t' & He & Ht)|(p & He & _)].
    + unfold super_rule in He. apply triple_inj in He as (_ & Hd & ->). by apply tenantDomain_inj in Hd as <-.
    + unfold rule_of in He. apply triple_inj in He as (He & _ & _). symmetry in He. by apply roleSubject_super in He.
  - intros [-> Hin]. left. exists t. by split.
Qed.

(** A role holds what the catalogue lists for it in that tenant. *)
Lemma role_permission_iff ps ts e t r perm :
  rebuild ps ts = Ok e -> perm <> ""%string -> (exists ok, Enforce e (roleSubject r) (tenantDomain t) perm = Ok ok) ->
  RoleHasPermission (Some e) t (roleSubject r) perm = true <-> mkRolePolicy t r perm ∈ ps \/ mkRolePolicy t r "*" ∈ ps.
Proof.
  intros Hr Hp [ok He]. cbn. rewrite He, (rebuilt_decides _ _ _ _ _ _ _ Hr He). split.
  - intros (o' & Hin & Ho). apply rule_of_in in Hin as [_ Hin]. destruct Ho as [<-| ->]; auto.
  - intros [Hin|Hin]; [exists perm | exists "*"%string]; (split; [apply rule_of_in; by split|]); auto.
Qed.

Lemma super_permission_iff ps ts e t perm :
  rebuild ps ts = Ok e -> (exists ok, Enforce e superAdminRole (tenantDomain t) perm = Ok ok) ->
  RoleHasPermission (Some e) t superAdminRole perm = true <-> t ∈ ts.
Proof.
  intros Hr [ok He]. cbn. rewrite He, (rebuilt_decides _ _ _ _ _ _ _ Hr He). split.
  - intros (o' & Hin & _). by apply super_rule_in in Hin as [_ ?].
  - intros Hin. exists "*"%string. split; [by apply super_rule_in | by right].
Qed.
End CasbinSpec.
