(* ===== verification/AuthzCache.v ===== *)
(** * AuthzCache: what the two-level cache of bindings promises

    Any number of pods share Redis and the database; each has a level 1 and a queue of
    invalidation messages. Whatever happens (messages lost, Redis failing, the database changing), an
    answer was the provider's at most l1TTL + l2TTL ago; once an invalidation went through and
    a pod has handled its message, that pod answers what the provider answers. *)

From S2P Require Import Prelude Text Redis Authz.
#[global] Open Scope Z_scope.

(** ** The wire format *)

Definition round (v : list EffectiveBinding) : list EffectiveBinding := deserialize <$> (serialize <$> v).

(** Redis gives back the binding, its expiry cut to the second. *)
Lemma l2_roundtrip b :
  deserialize (serialize b) =
  mkEB (eb_RoleID b) (eb_Permissions b) (eb_Source b) (eb_SourceID b) (eb_ScopeType b) (eb_ScopeID b)
    ((fun t => t / Second * Second) <$> eb_ExpiresAt b).
Proof. unfold serialize, deserialize. cbn. rewrite list_to_set_elements_L. f_equal. by destruct (eb_ExpiresAt b). Qed.

(** So a grant that went through Redis is over no later. *)
Lemma round_expires t b : expired t b = true -> expired t (deserialize (serialize b)) = true.
Proof.
  rewrite l2_roundtrip. unfold expired. cbn. destruct (eb_ExpiresAt b) as [x|]; [|done]. cbn. intros H. to_prop. apply Z.ltb_lt.
  pose proof (Z.mul_div_le x Second ltac:(vm_compute; done)). lia.
Qed.

Lemma cacheKey_inj t u t' u' : cacheKey t u = cacheKey t' u' -> t = t' /\ u = u'.
Proof.
  intros H. unfold cacheKey in H. apply app_cancel_l in H. apply (app_split dec_char) in H as [Ht Hu]; [|apply dec_chars.. | done].
  split; by apply dec_inj.
Qed.
Lemma cacheKey_not_all t u : cacheKey t u <> invalidateAllSentinel.
Proof. discriminate. Qed.

(** ** One read *)

Section Read.
Context {D : Type} (inner : BindingProvider D) (l1TTL l2TTL : Z).
Hypothesis l2TTL_pos : Millisecond <= l2TTL.
Abbreviation N := (Node D).

Inductive read_case (t u : Z) (n n' : N) : res AZErr (list EffectiveBinding) -> Prop :=
| hit_l1 e :
    n_l1 n !! cacheKey t u = Some e -> node_now n <= l1_expireAt e -> n' = n ->
    read_case t u n n' (Ok (l1_bindings e))
| hit_l2 s d :
    peek (rkeys (n_redis n)) (node_now n) (cacheKey t u) = Some (mkRKey (RStr s) d) ->
    n_db n' = n_db n -> rkeys (n_redis n') = rkeys (n_redis n) ->
    n_l1 n' = <[cacheKey t u := mkL1 (deserialize <$> s) (node_now n + l1TTL)]> (n_l1 n) ->
    read_case t u n n' (Ok (deserialize <$> s))
| miss v :
    inner t u (n_db n) = (n_db n', Ok v) ->
    n_l1 n' = <[cacheKey t u := mkL1 v (node_now n + l1TTL)]> (n_l1 n) ->
    (rkeys (n_redis n') = rkeys (n_redis n)
     \/ rkeys (n_redis n') = <[cacheKey t u := mkRKey (RStr (serialize <$> v)) (Some (node_now n + px l2TTL))]> (rkeys (n_redis n))) ->
    read_case t u n n' (Ok v)
| failed e :
    inner t u (n_db n) = (n_db n', Err e) -> n_l1 n' = n_l1 n -> rkeys (n_redis n') = rkeys (n_redis n) ->
    read_case t u n n' (Err e).

Lemma l2Get_run key (n : N) :
  exists n' o, l2Get key n = (n', Ok o) /\ n_db n' = n_db n /\ n_l1 n' = n_l1 n /\ n_out n' = n_out n /\ n_purges n' = n_purges n
    /\ rkeys (n_redis n') = rkeys (n_redis n) /\ node_now n' = node_now n
    /\ (fine (n_redis n) -> fine (n_redis n'))
    /\ forall v, o = Some v -> exists s d, peek (rkeys (n_redis n)) (node_now n) key = Some (mkRKey (RStr s) d) /\ v = deserialize <$> s.
Proof.
  unfold l2Get, attempt, on_redis. destruct (GET key (n_redis n)) as [r x] eqn:Hg. unfold GET in Hg.
  apply command_inv in Hg as (Hc & Hf & Hx). assert (rkeys r = rkeys (n_redis n)) as Hk by (destruct Hx as [[? _]|(_ & _ & [?|?])]; done).
  assert (fine (n_redis n) -> fine r) as Hfine by (unfold fine; by rewrite Hf).
  destruct x as [s|e]; eexists _, _; split_and!; try reflexivity; try done.
  intros v [= <-]. destruct Hx as [[_ Hx]|(Hx & _)]; [|done]. unfold get_f in Hx. cbn in Hx.
  destruct (peek (rkeys (n_redis n)) (rclock (n_redis n)) key) as [[[s'| |] d]|] eqn:Hp; try done. injection Hx as ->. eauto.
Qed.

Lemma l2Set_run key v (n : N) :
  exists n', l2Set l2TTL key v n = (n', Ok tt) /\ n_db n' = n_db n /\ n_l1 n' = n_l1 n /\ n_out n' = n_out n /\ n_purges n' = n_purges n
    /\ node_now n' = node_now n /\ (fine (n_redis n) -> fine (n_redis n'))
    /\ (rkeys (n_redis n') = rkeys (n_redis n)
        \/ rkeys (n_redis n') = <[key := mkRKey (RStr (serialize <$> v)) (Some (node_now n + px l2TTL))]> (rkeys (n_redis n))).
Proof.
  unfold l2Set, attempt, on_redis. destruct (SET key (serialize <$> v) l2TTL (n_redis n)) as [r x] eqn:Hs. unfold SET in Hs.
  apply command_inv in Hs as (Hc & Hf & Hx). exists (mkNode (n_db n) r (n_l1 n) (n_out n) (n_purges n)).
  split_and!; try done; [unfold fine; cbn; by rewrite Hf|]. cbn.
  rewrite set_f_pos in Hx by (unfold Millisecond in *; lia). destruct Hx as [[? _]|(_ & _ & [?|?])]; auto.
Qed.

(** After a miss of level 1: Redis, then the provider. *)
Lemma below_l1_cases t u (n n' : N) x :
  (let! hit2 := l2Get (cacheKey t u) in
   match hit2 with
   | Some v => do! l1Set l1TTL (cacheKey t u) v in ret v
   | None => let! v := on_inner (inner t u) in do! write_back true l1TTL l2TTL (cacheKey t u) v in ret v
   end) n = (n', x) ->
  node_now n' = node_now n /\ n_out n' = n_out n /\ n_purges n' = n_purges n /\ (fine (n_redis n) -> fine (n_redis n')) /\ read_case t u n n' x.
Proof.
  destruct (l2Get_run (cacheKey t u) n) as (n1 & o & Hg & Hdb & Hl1 & Hout & Hpur & Hk & Hnow & Hfine & Ho).
  erewrite bind_ok_run by exact Hg. destruct o as [v|].
  { destruct (Ho v eq_refl) as (s & d & Hp & ->). unfold bind, l1Set, modify, ret. intros [= <- <-]. cbn. split_and!; try done.
    eapply hit_l2; [exact Hp | done | done | cbn; by rewrite Hl1, Hnow]. }
  unfold bind at 1, on_inner. rewrite Hdb. destruct (inner t u (n_db n)) as [d' [v|e']] eqn:Hi.
  2: { intros [= <- <-]. cbn. split_and!; try done. by eapply failed. }
  unfold bind at 1, write_back, bind at 1, l1Set, modify.
  destruct (l2Set_run (cacheKey t u) v
    (with_l1 <[cacheKey t u := mkL1 v (node_now (mkNode d' (n_redis n1) (n_l1 n1) (n_out n1) (n_purges n1)) + l1TTL)]>
       (mkNode d' (n_redis n1) (n_l1 n1) (n_out n1) (n_purges n1)))) as (n2 & Hset & H1 & H2 & H3 & H4 & H5 & H6 & H7).
  rewrite Hset. unfold node_now in *. cbn in *. intros [= <- <-]. split_and!; [congruence.. | auto |].
  eapply miss; [by rewrite H1 | by rewrite H2, Hl1; unfold node_now; rewrite Hnow|].
  rewrite <- Hk. unfold node_now. by rewrite <- Hnow.
Qed.

Lemma CachedBindings_cases t u (n n' : N) x :
  CachedBindings inner true l1TTL l2TTL t u n = (n', x) ->
  node_now n' = node_now n /\ n_out n' = n_out n /\ n_purges n' = n_purges n /\ (fine (n_redis n) -> fine (n_redis n')) /\ read_case t u n n' x.
Proof.
  unfold CachedBindings, bind at 1, l1Get, gets.
  destruct (n_l1 n !! cacheKey t u) as [e|] eqn:Hl; [destruct (Z.ltb_spec (l1_expireAt e) (node_now n)) as [Hlt|Hge]|];
    [apply below_l1_cases | | apply below_l1_cases].
  intros [= <- <-]. split_and!; try done. by eapply hit_l1.
Qed.
End Read.

(** ** The pods together *)

Section Cluster.
Context {D : Type} (inner : BindingProvider D) (l1TTL l2TTL : Z).
Context (scan : gmap string (RKey (list serializedBinding)) -> Z -> list string * Z).
Hypothesis l2TTL_pos : Millisecond <= l2TTL.
Hypothesis l1TTL_pos : 0 <= l1TTL.

Record Cluster : Type := mkCluster {
  cl_db : D; cl_redis : Redis (list serializedBinding); cl_l1 : nat -> gmap string l1Entry; cl_mail : nat -> list string; cl_purges : nat
}.
Definition cl_now (c : Cluster) : Z := rclock (cl_redis c).
Definition upd {A} (i : nat) (x : A) (f : nat -> A) : nat -> A := fun j => if decide (j = i) then x else f j.
Lemma upd_eq {A} i (x : A) f : upd i x f i = x.
Proof. unfold upd. by rewrite decide_True. Qed.
Lemma upd_ne {A} i j (x : A) f : j <> i -> upd i x f j = f j.
Proof. intros. unfold upd. by rewrite decide_False. Qed.

(** An operation at pod [i]; what it publishes goes to every queue. *)
Definition node_at (i : nat) (c : Cluster) : Node D := mkNode (cl_db c) (cl_redis c) (cl_l1 c i) [] (cl_purges c).
Definition put_node (i : nat) (n : Node D) (c : Cluster) : Cluster :=
  mkCluster (n_db n) (n_redis n) (upd i (n_l1 n) (cl_l1 c)) (fun j => cl_mail c j ++ n_out n) (n_purges n).
Definition with_redis (r : Redis (list serializedBinding)) (c : Cluster) : Cluster := mkCluster (cl_db c) r (cl_l1 c) (cl_mail c) (cl_purges c).

(** What can happen next; [lossy] allows a message to be missed. *)
Inductive cstep (lossy : bool) (c : Cluster) : Cluster -> Prop :=
| step_read i t u n x : CachedBindings inner true l1TTL l2TTL t u (node_at i c) = (n, x) -> cstep lossy c (put_node i n c)
| step_invalidate i t u n x : Invalidate true t u (node_at i c) = (n, x) -> cstep lossy c (put_node i n c)
| step_invalidate_all i n x : InvalidateAll true (node_at i c) = (n, x) -> cstep lossy c (put_node i n c)
| step_message i msg rest n x :
    cl_mail c i = msg :: rest -> on_message msg (node_at i c) = (n, x) ->
    cstep lossy c (mkCluster (n_db n) (n_redis n) (upd i (n_l1 n) (cl_l1 c)) (upd i rest (cl_mail c)) (n_purges n))
| step_lost i l1 l2 msg : lossy = true -> cl_mail c i = l1 ++ msg :: l2 ->
    cstep lossy c (mkCluster (cl_db c) (cl_redis c) (cl_l1 c) (upd i (l1 ++ l2) (cl_mail c)) (cl_purges c))
| step_purge fuel r x : purgeL2 scan fuel (cl_redis c) = (r, x) -> cstep lossy c (with_redis r c)
| step_write d : cstep lossy c (mkCluster d (cl_redis c) (cl_l1 c) (cl_mail c) (cl_purges c))
| step_tick delta fate : 0 <= delta ->
    cstep lossy c (with_redis (mkRedis (rkeys (cl_redis c)) (cl_now c + delta) fate (rcalls (cl_redis c))) c).

(** *** Commands that only remove *)

Lemma purge_removes fuel cursor r r' x k e :
  purge_from scan fuel cursor r = (r', x) -> rclock r' = rclock r /\ (rkeys r' !! k = Some e -> rkeys r !! k = Some e).
Proof.
  revert cursor r. induction fuel as [|fuel IH]; intros cursor r; cbn [purge_from]; [by intros [= <- <-]|].
  unfold attempt. destruct (SCAN scan cursor r) as [r1 y] eqn:Hs. unfold SCAN in Hs. apply command_inv in Hs as (Hc & _ & Hy).
  assert (rkeys r1 = rkeys r) as Hk by (destruct Hy as [[? _]|(_ & _ & [?|?])]; done).
  destruct y as [[keys next]|e']; [|intros [= <- <-]; by rewrite Hk].
  assert (exists r2, (if bool_decide (keys = []) then ret tt else ignore (DELS keys)) r1 = (r2, Ok tt)
            /\ rclock r2 = rclock r1 /\ (rkeys r2 !! k = Some e -> rkeys r1 !! k = Some e)) as (r2 & Hd & Hc2 & Hk2).
  { case_bool_decide; [by exists r1|]. unfold ignore, attempt. destruct (DELS keys r1) as [r2 z] eqn:Hd. exists r2. split; [done|].
    unfold DELS in Hd. apply command_inv in Hd as (Hc2 & _ & Hz). split; [done|].
    destruct Hz as [[-> _]|(_ & _ & [->| ->])]; [|done|]; cbn; rewrite lookup_dels; by case_decide. }
  erewrite bind_ok_run by exact Hd. destruct (next =? 0).
  - intros [= <- <-]. split; [congruence|]. intros H. rewrite <- Hk. by apply Hk2.
  - intros Hr. destruct (IH _ _ Hr) as [H1 H2]. split; [congruence|]. intros H. rewrite <- Hk. by apply Hk2, H2.
Qed.

Lemma Invalidate_run t u (n n' : Node D) x :
  Invalidate true t u n = (n', x) ->
  node_now n' = node_now n /\ n_db n' = n_db n /\ n_l1 n' = delete (cacheKey t u) (n_l1 n) /\ n_purges n' = n_purges n
  /\ (rkeys (n_redis n') = rkeys (n_redis n) \/ rkeys (n_redis n') = delete (cacheKey t u) (rkeys (n_redis n)))
  /\ (n_out n' = n_out n \/ n_out n' = n_out n ++ [cacheKey t u])
  /\ (x = Ok tt -> rkeys (n_redis n') = delete (cacheKey t u) (rkeys (n_redis n)) /\ n_out n' = n_out n ++ [cacheKey t u]).
Proof.
  unfold Invalidate, bind, l1Delete, modify, on_redis, DEL. cbn [negb]. unfold with_l1. cbn [n_redis].
  destruct (command (del_f (cacheKey t u)) (n_redis n)) as [r y] eqn:Hd. pose proof Hd as Hd0.
  apply command_inv in Hd as (Hc & Hf & Hy).
  assert (rkeys r = rkeys (n_redis n) \/ rkeys r = delete (cacheKey t u) (rkeys (n_redis n))) as Hk by (destruct Hy as [[? _]|(_ & _ & [?|?])]; auto).
  destruct y as [[]|e]; [|intros [= <- <-]; cbn; split_and!; auto; done].
  assert (rkeys r = delete (cacheKey t u) (rkeys (n_redis n))) as Hk' by (destruct Hy as [[? _]|(? & _)]; done).
  unfold PUBLISH. cbn. destruct (command _ r) as [r2 z] eqn:Hp. pose proof Hp as Hp0. apply command_inv in Hp as (Hc2 & Hf2 & Hz).
  assert (rkeys r2 = rkeys r) as Hk2 by (destruct Hz as [[? _]|(_ & _ & [?|?])]; done).
  intros [= <- <-]. unfold node_now. cbn. split_and!; try done; [congruence | rewrite Hk2; auto | destruct (rfate r (rcalls r)); rewrite ?app_nil_r; auto |].
  destruct z as [[]|?]; [intros _ | done]. split; [by rewrite Hk2|]. unfold command in Hp0.
  destruct (rfate r (rcalls r)); simplify_eq; done.
Qed.

Lemma InvalidateAll_run (n n' : Node D) x :
  InvalidateAll true n = (n', x) ->
  node_now n' = node_now n /\ n_db n' = n_db n /\ n_l1 n' = ∅ /\ rkeys (n_redis n') = rkeys (n_redis n)
  /\ (n_out n' = n_out n \/ n_out n' = n_out n ++ [invalidateAllSentinel]).
Proof.
  unfold InvalidateAll, bind, l1Clear, start_purge, modify, PUBLISH, with_l1. cbn.
  destruct (command _ (n_redis n)) as [r2 z] eqn:Hp. apply command_inv in Hp as (Hc & _ & Hz).
  assert (rkeys r2 = rkeys (n_redis n)) as Hk by (destruct Hz as [[? _]|(_ & _ & [?|?])]; done).
  intros [= <- <-]. unfold node_now. cbn. split_and!; try done. destruct (rfate _ _); rewrite ?app_nil_r; auto.
Qed.

Lemma on_message_run msg (n n' : Node D) x :
  on_message msg n = (n', x) -> exists m, n' = with_l1 (fun _ => m) n
    /\ (m = ∅ \/ msg <> invalidateAllSentinel /\ m = delete msg (n_l1 n)).
Proof.
  unfold on_message, l1Clear, l1Delete, modify. case_bool_decide as Hm; intros [= <- <-]; [by exists ∅; auto|].
  exists (delete msg (n_l1 n)). split; [done | auto].
Qed.

(** *** Bounded staleness *)

(** What a provider answers, before or after the wire. *)
Definition answers (c : Cluster) (t u : Z) (v : list EffectiveBinding) : Prop :=
  exists v0, (inner t u (cl_db c)).2 = Ok v0 /\ (v = v0 \/ v = round v0).

(** The states gone through, the last one first. *)
Inductive reach (lossy : bool) : list Cluster -> Cluster -> Prop :=
| reach_start c : (forall i, cl_l1 c i = ∅) -> (forall t u, rkeys (cl_redis c) !! cacheKey t u = None) -> reach lossy [c] c
| reach_step h c c' : reach lossy h c -> cstep lossy c c' -> reach lossy (c' :: h) c'.

Definition since (h : list Cluster) (t u : Z) (v : list EffectiveBinding) (limit ttl : Z) : Prop :=
  exists c0, c0 ∈ h /\ answers c0 t u v /\ limit <= cl_now c0 + ttl.

Record coherent (h : list Cluster) (c : Cluster) : Prop := {
  now_in : c ∈ h;
  l1_since : forall i t u e, cl_l1 c i !! cacheKey t u = Some e -> since h t u (l1_bindings e) (l1_expireAt e) (l1TTL + l2TTL);
  l2_since : forall t u e, rkeys (cl_redis c) !! cacheKey t u = Some e ->
    exists s d v, e = mkRKey (RStr s) (Some d) /\ s = serialize <$> v /\ since h t u (round v) d l2TTL
}.

Lemma since_later c' h t u v limit ttl : since h t u v limit ttl -> since (c' :: h) t u v limit ttl.
Proof. intros (c0 & Hin & Ha & Hl). exists c0. split_and!; [by right | done | done]. Qed.

(** A step that only removes, ticks or changes the tables. *)
Lemma coherent_shrinks h c c' :
  coherent h c -> (forall i k e, cl_l1 c' i !! k = Some e -> cl_l1 c i !! k = Some e) ->
  (forall k e, rkeys (cl_redis c') !! k = Some e -> rkeys (cl_redis c) !! k = Some e) -> coherent (c' :: h) c'.
Proof.
  intros [Hin H1 H2] Hl1 Hl2. split; [by left | |].
  - intros i t u e He. apply since_later, (H1 i). by apply Hl1.
  - intros t u e He. destruct (H2 t u e (Hl2 _ _ He)) as (s & d & v & -> & -> & Hs). exists (serialize <$> v), d, v.
    split_and!; [done | done | by apply since_later].
Qed.

Lemma read_coherent h c i t u n x :
  coherent h c -> CachedBindings inner true l1TTL l2TTL t u (node_at i c) = (n, x) -> coherent (put_node i n c :: h) (put_node i n c).
Proof.
  intros Hc Hr. apply CachedBindings_cases in Hr as (Hnow & _ & _ & _ & Hcase); [|done]. pose proof Hc as [Hin H1 H2].
  assert (0 <= l2TTL) as Hpos by (unfold Millisecond in *; lia).
  destruct Hcase as [e Hl He ->|s d Hp Hdb Hk Hl|v Hi Hl Hk|e Hi Hl Hk].
  - apply (coherent_shrinks h c); [done| |done]. intros j k e'. cbn. unfold upd. by case_decide; [subst|].
  - apply peek_Some in Hp as [Hkey Ha]. destruct (H2 _ _ _ Hkey) as (s' & d' & v & He & -> & Hs). injection He as -> ->.
    split; [by left| |].
    + intros j t' u' e'. cbn. unfold upd. case_decide as Hj; [|intros; by apply since_later, (H1 j)]. rewrite Hl.
      destruct (decide (cacheKey t u = cacheKey t' u')) as [Heq|Hne].
      * rewrite Heq, lookup_insert_eq. intros [= <-]. apply cacheKey_inj in Heq as [<- <-]. cbn. apply since_later.
        destruct Hs as (c0 & Hin0 & Ha0 & Hl0). exists c0. split_and!; [done | done|]. unfold alive in Ha. cbn in Ha. to_prop.
        unfold node_now in *. cbn in *. lia.
      * rewrite lookup_insert_ne by done. intros He. by apply since_later, (H1 i).
    + intros t' u' e'. cbn. rewrite Hk. cbn. intros He. destruct (H2 _ _ _ He) as (s2 & d2 & v2 & -> & -> & Hs2).
      eexists _, _, v2. split_and!; [done | done | by apply since_later].
  - assert (answers c t u v) as Hans by (exists v; cbn in Hi; rewrite Hi; auto).
    assert (answers c t u (round v)) as Hans' by (exists v; cbn in Hi; rewrite Hi; auto).
    split; [by left| |].
    + intros j t' u' e'. cbn. unfold upd. case_decide as Hj; [|intros; by apply since_later, (H1 j)]. rewrite Hl.
      destruct (decide (cacheKey t u = cacheKey t' u')) as [Heq|Hne].
      * rewrite Heq, lookup_insert_eq. intros [= <-]. apply cacheKey_inj in Heq as [<- <-]. apply since_later. exists c.
        split_and!; [done | done|]. cbn. unfold cl_now, node_now. cbn. lia.
      * rewrite lookup_insert_ne by done. intros He. by apply since_later, (H1 i).
    + intros t' u' e'. cbn. intros He.
      assert (rkeys (cl_redis c) !! cacheKey t' u' = Some e'
              \/ cacheKey t u = cacheKey t' u' /\ e' = mkRKey (RStr (serialize <$> v)) (Some (cl_now c + px l2TTL))) as [He'|[Heq ->]].
      { destruct Hk as [Hk|Hk]; rewrite Hk in He; [by left|]. destruct (decide (cacheKey t u = cacheKey t' u')) as [Heq|Hne].
        - rewrite Heq, lookup_insert_eq in He. injection He as <-. by right.
        - rewrite lookup_insert_ne in He by done. by left. }
      * destruct (H2 _ _ _ He') as (s2 & d2 & v2 & -> & -> & Hs2). eexists _, _, v2. split_and!; [done | done | by apply since_later].
      * apply cacheKey_inj in Heq as [<- <-]. eexists _, _, v. split_and!; [done | done|]. apply since_later. exists c.
        split_and!; [done | done|]. destruct (px_le l2TTL) as [_ Hpx]; [unfold Millisecond in *; lia|]. specialize (Hpx l2TTL_pos). lia.
  - apply (coherent_shrinks h c); [done| |cbn; by rewrite Hk]. intros j k e'. cbn. unfold upd. rewrite Hl. by case_decide; [subst|].
Qed.

Lemma step_coherent lossy h c c' : coherent h c -> cstep lossy c c' -> coherent (c' :: h) c'.
Proof.
  intros Hc Hs. destruct Hs as [i t u n x Hr|i t u n x Hr|i n x Hr|i msg rest n x Hm Hr|i l1 l2 msg _ Hm|fuel r x Hr|d|delta fate Hd].
  - by eapply read_coherent.
  - apply Invalidate_run in Hr as (_ & _ & Hl & _ & Hk & _). apply (coherent_shrinks h c); [done| |].
    + intros j k e. cbn. unfold upd. case_decide; [subst j|done]. rewrite Hl. cbn. intros He. by apply lookup_delete_Some in He as [_ ?].
    + intros k e. cbn. destruct Hk as [->| ->]; [done|]. intros He. by apply lookup_delete_Some in He as [_ ?].
  - apply InvalidateAll_run in Hr as (_ & _ & Hl & Hk & _). apply (coherent_shrinks h c); [done| |cbn; by rewrite Hk].
    intros j k e. cbn. unfold upd. case_decide; [|done]. by rewrite Hl, lookup_empty.
  - apply on_message_run in Hr as (m & -> & Hl). apply (coherent_shrinks h c); [done| |done].
    intros j k e. cbn. unfold upd. case_decide; [subst j|done]. destruct Hl as [->|[_ ->]]; [by rewrite lookup_empty|].
    intros He. by apply lookup_delete_Some in He as [_ ?].
  - by apply (coherent_shrinks h c).
  - apply (coherent_shrinks h c); [done | done|]. intros k e. cbn. by eapply purge_removes.
  - by apply (coherent_shrinks h c).
  - by apply (coherent_shrinks h c).
Qed.

Lemma reach_coherent lossy h c : reach lossy h c -> coherent h c.
Proof.
  induction 1 as [c Hl Hk|h c c' _ IH Hs]; [|by eapply step_coherent].
  split; [by left| |]; [intros i t u e; by rewrite Hl, lookup_empty | intros t u e; by rewrite Hk].
Qed.

(** Any answer of any pod was, at most l1TTL + l2TTL before, what the provider answered. *)
Lemma answers_are_recent lossy h c i t u n v :
  reach lossy h c -> CachedBindings inner true l1TTL l2TTL t u (node_at i c) = (n, Ok v) ->
  exists c0, c0 ∈ h /\ answers c0 t u v /\ cl_now c - (l1TTL + l2TTL) <= cl_now c0.
Proof.
  intros Hreach Hr. apply reach_coherent in Hreach as [Hin H1 H2]. apply CachedBindings_cases in Hr as (_ & _ & _ & _ & Hcase); [|done].
  assert (0 <= l2TTL) as Hpos by (unfold Millisecond in *; lia).
  inversion Hcase as [e Hl He Hn Hv|s d Hp Hdb Hk Hl Hv|v' Hi Hl Hk Hv|]; subst.
  - destruct (H1 i t u e Hl) as (c0 & Hin0 & Ha & Hlim). exists c0. split_and!; [done..|]. unfold node_now in He. cbn in He. unfold cl_now in *. lia.
  - apply peek_Some in Hp as [Hkey Ha]. destruct (H2 _ _ _ Hkey) as (s' & d' & v & Heq & -> & (c0 & Hin0 & Ha0 & Hlim)). injection Heq as -> ->.
    exists c0. split_and!; [done..|]. unfold alive in Ha. cbn in Ha. to_prop. unfold node_now, cl_now in *. cbn in *. lia.
  - exists c. split_and!; [done| |lia]. exists v. cbn in Hi. rewrite Hi. auto.
Qed.

(** *** Invalidation *)

Section Final.
(** From here on the provider answers [v] for the user. *)
Context (t u : Z) (v : list EffectiveBinding) (settled : D -> Prop).
Hypothesis settled_answer : forall d, settled d -> (inner t u d).2 = Ok v.
Abbreviation key := (cacheKey t u).

Definition current (l : list EffectiveBinding) : Prop := l = v \/ l = round v.
(** A message that clears the user's entry is on its way. *)
Definition notified (l : list string) : Prop := key ∈ l \/ invalidateAllSentinel ∈ l.

Record cleared (c : Cluster) : Prop := {
  cleared_db : settled (cl_db c);
  cleared_l2 : forall e, rkeys (cl_redis c) !! key = Some e -> exists d, e = mkRKey (RStr (serialize <$> v)) d;
  cleared_l1 : forall i e, cl_l1 c i !! key = Some e -> notified (cl_mail c i) \/ current (l1_bindings e)
}.

(** A lossless step after which the tables still say [v]. *)
Definition quiet_step (c c' : Cluster) : Prop := cstep false c c' /\ settled (cl_db c').

Lemma notified_app l l' : notified l -> notified (l ++ l').
Proof. unfold notified. rewrite !elem_of_app. tauto. Qed.

Lemma read_current c i t' u' n x :
  cleared c -> CachedBindings inner true l1TTL l2TTL t' u' (node_at i c) = (n, x) ->
  (forall e, n_l1 n !! key = Some e -> cl_l1 c i !! key = Some e \/ current (l1_bindings e))
  /\ (forall e, rkeys (n_redis n) !! key = Some e -> exists d, e = mkRKey (RStr (serialize <$> v)) d).
Proof.
  intros [Hdb H2 _] Hr. apply CachedBindings_cases in Hr as (_ & _ & _ & _ & Hcase); [|done].
  destruct Hcase as [e Hl He ->|s d Hp _ Hk Hl|v' Hi Hl Hk|e Hi Hl Hk].
  - split; [by left | exact H2].
  - split; [|by rewrite Hk]. intros e. rewrite Hl. destruct (decide (cacheKey t' u' = key)) as [Heq|Hne].
    + rewrite Heq, lookup_insert_eq. intros [= <-]. right. apply peek_Some in Hp as [Hp _]. rewrite Heq in Hp.
      destruct (H2 _ Hp) as [d' [= -> _]]. by right.
    + rewrite lookup_insert_ne by done. by left.
  - assert (cacheKey t' u' = key -> v' = v) as Hv.
    { intros Heq. apply cacheKey_inj in Heq as [-> ->]. cbn in Hi. pose proof (settled_answer _ Hdb) as Ha. rewrite Hi in Ha. by injection Ha. }
    split.
    + intros e. rewrite Hl. destruct (decide (cacheKey t' u' = key)) as [Heq|Hne].
      * rewrite Heq, lookup_insert_eq. intros [= <-]. right. left. by apply Hv.
      * rewrite lookup_insert_ne by done. by left.
    + intros e He. destruct Hk as [Hk|Hk]; rewrite Hk in He; [by apply H2|].
      destruct (decide (cacheKey t' u' = key)) as [Heq|Hne].
      * rewrite Heq, lookup_insert_eq in He. injection He as <-. rewrite (Hv Heq). eauto.
      * rewrite lookup_insert_ne in He by done. by apply H2.
  - rewrite Hl, Hk. split; [by left | exact H2].
Qed.

Lemma quiet_cleared c c' : cleared c -> quiet_step c c' -> cleared c'.
Proof.
  intros Hc [Hs Hdb']. pose proof Hc as [Hdb H2 H1].
  destruct Hs as [i t' u' n x Hr|i t' u' n x Hr|i n x Hr|i msg rest n x Hm Hr|i l1 l2 msg Hf _|fuel r x Hr|d|delta fate Hd]; try done.
  - destruct (read_current _ _ _ _ _ _ Hc Hr) as [Hl1 Hl2]. split; [done | exact Hl2|].
    intros j e. cbn. unfold upd. case_decide as Hj; [subst j|].
    + intros He. destruct (Hl1 _ He) as [He'|?]; [|by right]. destruct (H1 _ _ He'); [left; by apply notified_app | by right].
    + intros He. destruct (H1 _ _ He); [left; by apply notified_app | by right].
  - apply Invalidate_run in Hr as (_ & _ & Hl & _ & Hk & Hout & _). split; [done| |].
    + intros e. cbn. destruct Hk as [->| ->]; [apply H2|]. intros He. apply lookup_delete_Some in He as [_ He]. by apply H2.
    + intros j e. cbn. unfold upd. case_decide as Hj; [subst j; rewrite Hl; intros He; apply lookup_delete_Some in He as [_ He]|intros He];
        destruct (H1 _ _ He); [left; by apply notified_app | by right | left; by apply notified_app | by right].
  - apply InvalidateAll_run in Hr as (_ & _ & Hl & Hk & _). split; [done | cbn; by rewrite Hk|].
    intros j e. cbn. unfold upd. case_decide as Hj; [by rewrite Hl, lookup_empty|]. intros He.
    destruct (H1 _ _ He); [left; by apply notified_app | by right].
  - apply on_message_run in Hr as (m & -> & Hl). split; [done | exact H2|].
    intros j e. cbn. unfold upd. case_decide as Hj; [subst j|by apply H1]. destruct Hl as [->|[Hne ->]]; [by rewrite lookup_empty|].
    intros He. apply lookup_delete_Some in He as [Hmk He]. destruct (H1 _ _ He) as [Hn|?]; [|by right]. left.
    unfold notified in *. rewrite Hm, !elem_of_cons in Hn. naive_solver.
  - split; [done| |done]. intros e. cbn. intros He. apply H2. by eapply purge_removes.
Qed.

(** An invalidation that reported success clears the user everywhere. *)
Lemma invalidate_clears c i n :
  settled (cl_db c) -> Invalidate true t u (node_at i c) = (n, Ok tt) -> cleared (put_node i n c).
Proof.
  intros Hdb Hr. apply Invalidate_run in Hr as (_ & Hd & Hl & _ & _ & _ & Hok). destruct (Hok eq_refl) as [Hk Hout].
  split; [cbn; by rewrite Hd | intros e; cbn; by rewrite Hk, lookup_delete_eq|].
  intros j e _. left. left. cbn. rewrite Hout. cbn. apply elem_of_app. right. by apply list_elem_of_singleton.
Qed.

(** A read of pod [fl_pod] between what it was answered, by the provider or else by level 2, and what it keeps of it. *)
Record Flight : Type := mkFlight { fl_pod : nat; fl_key : string; fl_value : list EffectiveBinding; fl_asked : bool }.
Definition land (f : Flight) (n : Node D) : Node D :=
  ((if fl_asked f then write_back true l1TTL l2TTL (fl_key f) (fl_value f) else l1Set l1TTL (fl_key f) (fl_value f)) n).1.
(** Steps, with reads that are under way while others happen. *)
Inductive flying_step : Cluster * list Flight -> Cluster * list Flight -> Prop :=
| fly_whole c c' fl : quiet_step c c' -> flying_step (c, fl) (c', fl)
| fly_asked c i t' u' d' v' fl :
    inner t' u' (cl_db c) = (d', Ok v') -> settled d' ->
    flying_step (c, fl) (mkCluster d' (cl_redis c) (cl_l1 c) (cl_mail c) (cl_purges c), mkFlight i (cacheKey t' u') v' true :: fl)
| fly_shared c i t' u' s d fl :
    rkeys (cl_redis c) !! cacheKey t' u' = Some (mkRKey (RStr s) d) ->
    flying_step (c, fl) (c, mkFlight i (cacheKey t' u') (deserialize <$> s) false :: fl)
| fly_land c f fl1 fl2 : flying_step (c, fl1 ++ f :: fl2) (put_node (fl_pod f) (land f (node_at (fl_pod f) c)) c, fl1 ++ fl2).

Definition carries (f : Flight) : Prop := fl_key f = key -> current (fl_value f) /\ (fl_asked f = true -> fl_value f = v).
Lemma land_run f (n : Node D) :
  n_db (land f n) = n_db n /\ n_out (land f n) = n_out n
  /\ n_l1 (land f n) = <[fl_key f := mkL1 (fl_value f) (node_now n + l1TTL)]> (n_l1 n)
  /\ (rkeys (n_redis (land f n)) = rkeys (n_redis n)
      \/ (fl_asked f = true /\ exists d, rkeys (n_redis (land f n)) = <[fl_key f := mkRKey (RStr (serialize <$> fl_value f)) d]> (rkeys (n_redis n)))).
Proof.
  unfold land. destruct (fl_asked f); [|cbn; by auto]. unfold write_back, bind, l1Set, modify.
  destruct (l2Set_run l2TTL l2TTL_pos (fl_key f) (fl_value f) (with_l1 <[fl_key f := mkL1 (fl_value f) (node_now n + l1TTL)]> n))
    as (n' & Hs & H1 & H2 & H3 & _ & _ & _ & H7).
  rewrite Hs. cbn in *. split_and!; [done.. |]. destruct H7 as [->| ->]; [by left|]. right. split; [done | by eexists].
Qed.
Lemma flying_cleared x y : flying_step x y -> cleared x.1 /\ Forall carries x.2 -> cleared y.1 /\ Forall carries y.2.
Proof.
  intros Hs [Hc Hfl]. destruct Hs as [c c' fl Hq|c i t' u' d' v' fl Hi Hd|c i t' u' s d fl Hk|c f fl1 fl2]; cbn [fst snd] in *.
  - split; [by eapply quiet_cleared | done].
  - split; [by destruct Hc|]. constructor; [|done]. intros E. cbn in E. apply cacheKey_inj in E as [-> ->].
    pose proof (settled_answer _ (cleared_db _ Hc)) as Ha. rewrite Hi in Ha. injection Ha as ->. split; [by left | done].
  - split; [done|]. constructor; [|done]. intros E. cbn in E. rewrite E in Hk. destruct (cleared_l2 _ Hc _ Hk) as [d0 [= -> _]].
    split; [by right | done].
  - apply Forall_app in Hfl as [H1 Hfl]. apply Forall_cons in Hfl as [Hf H2]. split; [|by apply Forall_app].
    destruct Hc as [Hdb Hl2 Hl1]. destruct (land_run f (node_at (fl_pod f) c)) as (E1 & E2 & E3 & E4). split.
    + cbn. by rewrite E1.
    + intros e. cbn. destruct E4 as [->|(Ha & d & ->)]; [apply Hl2|]. intros He. apply lookup_insert_Some in He as [[Ek <-]|[_ He]]; [|by apply Hl2].
      destruct (Hf Ek) as [_ Hv]. rewrite (Hv Ha). by eexists.
    + intros j e. cbn. rewrite E2. cbn. rewrite app_nil_r. unfold upd. case_decide as Hj; [subst j|apply Hl1]. rewrite E3. cbn. intros He.
      apply lookup_insert_Some in He as [[Ek <-]|[_ He]]; [right; by apply Hf | by apply Hl1].
Qed.

(** C8: once Invalidate has reported success for a user whom no read under way is about, and as long as the provider
    keeps answering the same for it and no message is missed, a pod whose queue holds no message that clears the
    user's entry answers what the provider answers (the expiry possibly cut to the second), whatever reads, overlapping
    in any way, invalidations, purges, failures of Redis and passing of time came in between. *)
Theorem invalidation_is_final c i n fl c' fl' j n' x :
  settled (cl_db c) -> Invalidate true t u (node_at i c) = (n, Ok tt) -> Forall (fun f => fl_key f <> key) fl ->
  rtc flying_step (put_node i n c, fl) (c', fl') -> ~ notified (cl_mail c' j) ->
  CachedBindings inner true l1TTL l2TTL t u (node_at j c') = (n', x) -> exists l, x = Ok l /\ current l.
Proof.
  intros Hdb Hi Hfl Hruns Hmail Hr.
  set (P := fun y : Cluster * list Flight => cleared y.1 /\ Forall carries y.2). assert (P (c', fl')) as [[Hdb' H2 H1] _].
  { eapply (rtc_invariant _ P); [|exact Hruns|].
    - intros y z Hy Hs. by eapply flying_cleared.
    - split; [by eapply invalidate_clears|]. eapply Forall_impl; [exact Hfl|]. by intros f Hf ?. }
  cbn [fst] in Hdb', H2, H1.
  apply CachedBindings_cases in Hr as (_ & _ & _ & _ & Hcase); [|done].
  destruct Hcase as [e Hl He _|s d Hp _ _ _|v' Hi' _ _|e Hi' _ _].
  - exists (l1_bindings e). split; [done|]. by destruct (H1 _ _ Hl).
  - apply peek_Some in Hp as [Hp _]. destruct (H2 _ Hp) as [d' [= -> _]]. eexists. split; [done|]. by right.
  - exists v'. split; [done|]. left. pose proof (settled_answer _ Hdb') as Ha. cbn in Hi'. rewrite Hi' in Ha. by injection Ha.
  - pose proof (settled_answer _ Hdb') as Ha. cbn in Hi'. rewrite Hi' in Ha. discriminate Ha.
Qed.
End Final.
End Cluster.

(** ** The purge of level 2 *)

Section Purge.
Abbreviation Keys := (gmap string (RKey (list serializedBinding))).
Context (scan : Keys -> Z -> list string * Z).

(** SCAN calls from a cursor until the cursor 0 comes back, with the keyspace each saw. *)
Inductive iteration : Z -> list (Z * Keys) -> Prop :=
| iteration_last c ks : (scan ks c).2 = 0 -> iteration c [(c, ks)]
| iteration_next c ks h : (scan ks c).2 <> 0 -> iteration (scan ks c).2 h -> iteration c ((c, ks) :: h).

(** What Redis guarantees of a full iteration: a key of the pattern that was there from the
    start to the end is returned. *)
Class ScanLaws : Prop := {
  scan_full : forall h k, iteration 0 h -> HasPrefix k cacheKeyPrefix = true -> (forall p, p ∈ h -> is_Some (p.2 !! k)) ->
    exists p, p ∈ h /\ k ∈ (scan p.2 p.1).1
}.

Lemma purge_iterates fuel c r r' :
  fine r -> purge_from scan fuel c r = (r', Ok true) -> exists h, iteration c h
    /\ forall k, is_Some (rkeys r' !! k) -> is_Some (rkeys r !! k) /\ forall p, p ∈ h -> is_Some (p.2 !! k) /\ k ∉ (scan p.2 p.1).1.
Proof.
  revert c r. induction fuel as [|fuel IH]; intros c r Hf; cbn [purge_from]; [discriminate|].
  unfold attempt, SCAN. rewrite command_fine by done. cbn [fst snd].
  set (r1 := mkRedis (rkeys r) (rclock r) (rfate r) (S (rcalls r))). destruct (scan (rkeys r) c) as [keys next] eqn:Hs.
  assert (fine r1) as Hf1 by exact Hf.
  assert (exists r2, (if bool_decide (keys = []) then ret tt else ignore (DELS keys)) r1 = (r2, Ok tt) /\ fine r2
            /\ rkeys r2 = foldr delete (rkeys r) keys) as (r2 & Hd & Hf2 & Hk2).
  { case_bool_decide as Hk; [rewrite Hk; by exists r1|]. unfold ignore, attempt, DELS. rewrite command_fine by done.
    eexists. split_and!; [reflexivity | exact Hf | reflexivity]. }
  assert (forall k, is_Some (rkeys r2 !! k) -> is_Some (rkeys r !! k) /\ k ∉ keys) as Hk.
  { intros k. rewrite Hk2, lookup_dels. case_decide; [by intros [? ?] | done]. }
  erewrite bind_ok_run by exact Hd. destruct (Z.eqb_spec next 0) as [Hz|Hz].
  - intros [= <-]. exists [(c, rkeys r)]. split; [constructor; by rewrite Hs|]. intros k Hin. destruct (Hk k Hin) as [H1 H2].
    split; [done|]. intros p Hp. apply list_elem_of_singleton in Hp as ->. cbn. by rewrite Hs.
  - intros Hr. destruct (IH _ _ Hf2 Hr) as (h & Hit & Hh). exists ((c, rkeys r) :: h).
    split; [constructor; rewrite Hs; cbn; done|]. intros k Hin. destruct (Hh k Hin) as [H2 Hp]. destruct (Hk k H2) as [H1 Hn].
    split; [done|]. intros p Hin'. apply elem_of_cons in Hin' as [->|?]; [cbn; by rewrite Hs | by apply Hp].
Qed.

(** A purge that runs to its end on a working Redis leaves no binding behind. *)
Lemma purge_leaves_nothing `{!ScanLaws} fuel r r' t u :
  fine r -> purgeL2 scan fuel r = (r', Ok true) -> rkeys r' !! cacheKey t u = None.
Proof.
  intros Hf Hr. destruct (purge_iterates _ _ _ _ Hf Hr) as (h & Hit & Hh). apply eq_None_not_Some. intros Hin.
  destruct (Hh _ Hin) as [_ Hp]. destruct (scan_full h (cacheKey t u) Hit) as (p & Hph & Hk); [apply HasPrefix_app | intros p Hph; by apply Hp|].
  by destruct (Hp p Hph).
Qed.
End Purge.
