(* ===== verification/Perm.v ===== *)
(** * Perm: roles, permissions and who holds them

    src/internal/domain/permission (model.go, repository_impl.go, service.go, effective.go), the
    flag of super administrators (SetSuperAdmin of src/internal/domain/user) it stands in front
    of, and the two readers of these tables in src/app/adapters_authz.go: the bindings
    in effect for a user, and the policies Casbin is loaded with. *)

From stdpp Require Import sorting.
From S2P Require Import Redis Authz Prelude Statements Text GroupRule GroupSync Access Org.
#[global] Open Scope Z_scope.

(** ** model.go *)

Definition RoleTypeSystem : Z := 1.
Definition SubjectTypeUser : string := "user".
Definition SubjectTypeGroup : string := "group".
Definition SubjectTypeOrg : string := "org".
Definition SuperAdminRoleCode : string := "super_admin".

(** Descriptions are left out. *)
Record Role : Type := mkRole {
  ro_ID : Z; ro_TenantID : Z; ro_Name : string; ro_Code : string; ro_Type : Z;
  ro_CreatedAt : Z; ro_UpdatedAt : Z; ro_Deleted : bool
}.
Record Permission : Type := mkPermission { pm_ID : Z; pm_TenantID : Z; pm_Code : string; pm_Resource : string; pm_Action : string }.
Record RolePermission : Type := mkRolePermission { rpm_ID : Z; rpm_RoleID : Z; rpm_PermissionID : Z; rpm_CreatedAt : Z }.
(** A row of mxid_role_binding, as just-in-time access writes it too, with its created_at. *)
Record Binding : Type := mkBinding { bd_row : RoleBinding; bd_CreatedAt : Z }.
(** The columns of mxid_user used here. *)
Record PUser : Type := mkPUser {
  pu_ID : Z; pu_TenantID : Z; pu_Username : string; pu_DisplayName : string; pu_Email : string;
  pu_IsSuperAdmin : bool; pu_Deleted : bool
}.

Record CreateRoleRequest : Type := mkCreateRole { cr_Name : string; cr_Code : string; cr_Type : Z }.
Record UpdateRoleRequest : Type := mkUpdateRole { ur_Name : option string }.
Record AddMemberRequest : Type := mkAddMember {
  am_SubjectType : string; am_SubjectID : Z; am_ScopeType : option string; am_ScopeID : option Z
}.
Record MemberResponse : Type := mkMemberResponse {
  mr_ID : Z; mr_RoleID : Z; mr_SubjectType : string; mr_SubjectID : Z; mr_SubjectName : string; mr_SubjectSecondary : string
}.
Record EffectiveRoleResponse : Type := mkEffectiveRole { er_Role : Role; er_Source : string; er_SourceID : Z }.

Inductive PErr : Type :=
| ErrDB
| ErrRecordNotFound
| ErrUnique (constraint : string)
| ErrForeignKey
| ErrRoleNotFound
| ErrRoleCodeExists
| ErrSystemRoleDelete
| ErrMemberNotFound
| ErrPermissionNotFound
| ErrSubjectNotInTenant
| ErrScopeNotInTenant
| ErrScopeIncomplete
| ErrSuperAdminUserOnly
| ErrSuperAdminUnavailable
| ErrUnknownRefType (t : string)
| ErrNoValidator (t : string)
| ErrUserNotFound
| ErrLastSuperAdmin
| ErrOrg (e : OErr).

(** ** Events: the type, and the payload when it is a [map[string]any] *)

Inductive PVal : Type := VInt (z : Z) | VStr (s : string) | VInts (l : list Z).
Record Event : Type := mkEv { ev_Type : string; ev_Payload : option (gmap string PVal) }.

(** [n, _ := p[key].(int64)] *)
Definition int_of (p : gmap string PVal) (key : string) : Z := match p !! key with Some (VInt z) => z | _ => 0 end.

Definition RoleCreated (r : Role) : Event :=
  mkEv "role.created" (Some (list_to_map [("role_id", VInt (ro_ID r)); ("code", VStr (ro_Code r))])).
Definition RoleUpdated (id : Z) : Event := mkEv "role.updated" (Some {[ "role_id" := VInt id ]}).
Definition RoleDeleted (id : Z) : Event := mkEv "role.deleted" (Some {[ "role_id" := VInt id ]}).
Definition RolePermissionsSet (id : Z) (pids : list Z) : Event :=
  mkEv "role.permissions_set" (Some (list_to_map [("role_id", VInt id); ("permission_ids", VInts pids)])).
Definition RoleMemberAdded (r : Role) (req : AddMemberRequest) : Event :=
  mkEv "role.member_added" (Some (list_to_map (
    [("role_id", VInt (ro_ID r)); ("subject_type", VStr (am_SubjectType req)); ("subject_id", VInt (am_SubjectID req));
     ("tenant_id", VInt (ro_TenantID r))]
    ++ (if bool_decide (am_SubjectType req = SubjectTypeUser) then [("user_id", VInt (am_SubjectID req))] else [])
    ++ match am_ScopeType req, am_ScopeID req with
       | Some ty, Some id => [("scope_type", VStr ty); ("scope_id", VInt id)]
       | _, _ => []
       end))).
Definition RoleMemberRemoved (roleID memberID : Z) : Event :=
  mkEv "role.member_removed" (Some (list_to_map [("role_id", VInt roleID); ("member_id", VInt memberID)])).
Definition UserSuperAdminChanged (grant : bool) (actorID : Z) (u : PUser) (tenantID : Z) : Event :=
  mkEv (if grant then "user.super_admin.grant" else "user.super_admin.revoke")
    (Some (list_to_map [("user_id", VInt actorID); ("target_id", VInt (pu_ID u)); ("tenant_id", VInt tenantID);
                        ("username", VStr (pu_Username u))])).
(** Published by Delete of src/internal/domain/user/service.go. *)
Definition UserDeleted (id : Z) : Event := mkEv "user.deleted" (Some {[ "user_id" := VInt id ]}).
(** Those of the organizations: a whole organization and a [map[string]int64] are not of
    the type the subscribers look into. *)
Definition org_event (e : OEvent) : Event :=
  match e with
  | OrgCreated _ => mkEv "org.created" None
  | OrgUpdated _ => mkEv "org.updated" None
  | OrgDeleted _ => mkEv "org.deleted" None
  | OrgMoved t id => mkEv "org.moved" (Some (list_to_map [("tenant_id", VInt t); ("org_id", VInt id)]))
  | OrgMemberAdded t u o => mkEv "org.member_added" (Some (list_to_map [("tenant_id", VInt t); ("user_id", VInt u); ("org_id", VInt o)]))
  | OrgMemberRemoved t u o => mkEv "org.member_removed" (Some (list_to_map [("tenant_id", VInt t); ("user_id", VInt u); ("org_id", VInt o)]))
  end.

Section Perm.
Context {G : Type} `{!IdGen G}.

(** The tables, those of groups and organizations included; ids and the clock are
    the organizations'. *)
Record PWorld : Type := mkPWorld {
  users : gmap Z PUser; roles : gmap Z Role; perms : gmap Z Permission; role_perms : gmap Z RolePermission;
  rbindings : gmap Z Binding; pgroups : gmap Z UserGroup; pmembers : gmap (Z * Z) UserGroupMember;
  porg : OWorld G; pevents : list Event
}.
Abbreviation PStore := (Store PWorld).
Abbreviation Op := (M PStore PErr).
Abbreviation select := (Statements.select ErrDB).
Abbreviation exec := (Statements.exec ErrDB).
Abbreviation exec_or := (Statements.exec_or ErrDB).

Definition with_users f (w : PWorld) :=
  mkPWorld (f (users w)) (roles w) (perms w) (role_perms w) (rbindings w) (pgroups w) (pmembers w) (porg w) (pevents w).
Definition with_roles f (w : PWorld) :=
  mkPWorld (users w) (f (roles w)) (perms w) (role_perms w) (rbindings w) (pgroups w) (pmembers w) (porg w) (pevents w).
Definition with_role_perms f (w : PWorld) :=
  mkPWorld (users w) (roles w) (perms w) (f (role_perms w)) (rbindings w) (pgroups w) (pmembers w) (porg w) (pevents w).
Definition with_rbindings f (w : PWorld) :=
  mkPWorld (users w) (roles w) (perms w) (role_perms w) (f (rbindings w)) (pgroups w) (pmembers w) (porg w) (pevents w).
Definition with_porg o (w : PWorld) :=
  mkPWorld (users w) (roles w) (perms w) (role_perms w) (rbindings w) (pgroups w) (pmembers w) o (pevents w).
Definition clock (w : PWorld) : Z := wall (porg w).

Definition on_org {A} (m : M (Store (OWorld G)) OErr A) : Op A := fun s =>
  let '(s', r) := m (mkStore (porg (sdb s)) (sfail s) (scalls s)) in
  (mkStore (with_porg (sdb s') (sdb s)) (sfail s') (scalls s'),
   match r with Ok a => Ok a | Err Org.ErrRecordNotFound => Err ErrRecordNotFound | Err e => Err (ErrOrg e) end).

Definition publish (e : Event) : Op unit :=
  write (fun w => mkPWorld (users w) (roles w) (perms w) (role_perms w) (rbindings w) (pgroups w) (pmembers w) (porg w) (pevents w ++ [e])).
Definition new_id : Op Z := on_org Org.new_id.
Definition time_now : Op Z := gets (fun s => clock (sdb s)).

(** ** repository_impl.go; [scope] is the tenant the context is pinned to. A binding has no
    tenant of its own: its statements are not narrowed. *)

Definition role_in_scope (scope : option Z) (r : Role) : bool :=
  negb (ro_Deleted r) && match scope with Some t => ro_TenantID r =? t | None => true end.
Definition perm_in_scope (scope : option Z) (p : Permission) : bool :=
  match scope with Some t => pm_TenantID p =? t | None => true end.

(** INSERT with the primary key and UNIQUE(tenant_id, code); a zero tenant is stamped. *)
Definition stamp_role (scope : option Z) (r : Role) : Role :=
  mkRole (ro_ID r) (match scope with Some t => if ro_TenantID r =? 0 then t else ro_TenantID r | None => ro_TenantID r end)
    (ro_Name r) (ro_Code r) (ro_Type r) (ro_CreatedAt r) (ro_UpdatedAt r) (ro_Deleted r).
Definition insert_role (r : Role) (w : PWorld) : res PErr PWorld :=
  if bool_decide (is_Some (roles w !! ro_ID r)) then Err (ErrUnique "mxid_role_pkey")
  else if bool_decide (map_Forall (fun _ r' => ~ (ro_TenantID r' = ro_TenantID r /\ ro_Code r' = ro_Code r)) (roles w))
  then Ok (with_roles <[ro_ID r := r]> w)
  else Err (ErrUnique "mxid_role_tenant_id_code_key").
Definition repo_CreateRole (scope : option Z) (r : Role) : Op Role :=
  do! exec_or (insert_role (stamp_role scope r)) in ret (stamp_role scope r).

Definition repo_GetRoleByID (scope : option Z) (id : Z) : Op Role :=
  let! w := query ErrDB in
  match roles w !! id with
  | Some r => if role_in_scope scope r then ret r else throw ErrRecordNotFound
  | None => throw ErrRecordNotFound
  end.

Definition repo_GetRolesByIDs (scope : option Z) (ids : list Z) : Op (gmap Z Role) :=
  if bool_decide (ids = []) then ret ∅ else
  select (fun w => filter (fun p : Z * Role => p.1 ∈ ids /\ role_in_scope scope p.2 = true) (roles w)).

Definition repo_GetRoleByCode (scope : option Z) (tenantID : Z) (code : string) : Op Role :=
  let! w := query ErrDB in
  match filter (fun r => ro_TenantID r = tenantID /\ ro_Code r = code /\ role_in_scope scope r = true) (map_to_list (roles w)).*2 with
  | r :: _ => ret r
  | [] => throw ErrRecordNotFound
  end.

(** gorm's Save of a row that was read. *)
Definition repo_UpdateRole (r : Role) : Op unit := exec (with_roles <[ro_ID r := r]>).

(** A hard DELETE; its bindings and permissions cascade. *)
Definition delete_role (scope : option Z) (id : Z) (w : PWorld) : PWorld :=
  match roles w !! id with
  | Some r =>
      if match scope with Some t => ro_TenantID r =? t | None => true end then
        with_rbindings (filter (fun p : Z * Binding => rb_role_id (bd_row p.2) <> id))
          (with_role_perms (filter (fun p : Z * RolePermission => rpm_RoleID p.2 <> id)) (with_roles (delete id) w))
      else w
  | None => w
  end.
Definition repo_DeleteRole (scope : option Z) (id : Z) : Op unit := exec (delete_role scope id).

(** [ORDER BY created_at DESC] *)
Definition role_newer (a b : Role) : Prop := ro_CreatedAt b <= ro_CreatedAt a.
#[export] Instance role_newer_dec : RelDecision role_newer.
Proof. intros a b. unfold role_newer. apply _. Defined.
Definition page {A} (pageNo pageSize : Z) (l : list A) : list A :=
  take (Z.to_nat pageSize) (drop (Z.to_nat ((pageNo - 1) * pageSize)) l).

Definition repo_ListRoles (scope : option Z) (tenantID pageNo pageSize : Z) : Op (list Role * Z) :=
  let rows w := filter (fun r => ro_TenantID r = tenantID /\ role_in_scope scope r = true) (map_to_list (roles w)).*2 in
  let! total := select (fun w => Z.of_nat (length (rows w))) in
  let! l := select (fun w => page pageNo pageSize (merge_sort role_newer (rows w))) in
  ret (l, total).

(** The unique index of migration 000016. *)
Definition binding_key (b : RoleBinding) : Z * string * Z * string * Z :=
  (rb_role_id b, rb_subject_type b, rb_subject_id b, default ""%string (rb_scope_type b), default 0 (rb_scope_id b)).
Definition insert_binding (id : Z) (b : Binding) (w : PWorld) : res PErr PWorld :=
  if bool_decide (is_Some (rbindings w !! id)) then Err (ErrUnique "mxid_role_binding_pkey")
  else if negb (bool_decide (is_Some (roles w !! rb_role_id (bd_row b)))) then Err ErrForeignKey
  else if bool_decide (map_Forall (fun _ b' => binding_key (bd_row b') <> binding_key (bd_row b)) (rbindings w))
  then Ok (with_rbindings <[id := b]> w)
  else Err (ErrUnique "idx_role_binding_uniq_scoped").
Definition repo_AddMember (id : Z) (b : Binding) : Op unit := exec_or (insert_binding id b).

(** DELETE by id, whatever role the row is of. *)
Definition repo_RemoveMember (id : Z) : Op unit :=
  let! w := query ErrDB in
  do! write (with_rbindings (delete id)) in
  guard (negb (bool_decide (is_Some (rbindings w !! id)))) ErrRecordNotFound.

(** [subject_type <> 'user' OR subject_id IN (SELECT id FROM mxid_user WHERE deleted_at IS NULL)] *)
Definition liveUserSubject (w : PWorld) (b : RoleBinding) : bool :=
  negb (bool_decide (rb_subject_type b = SubjectTypeUser))
  || match users w !! rb_subject_id b with Some u => negb (pu_Deleted u) | None => false end.
Definition binding_newer (a b : Z * Binding) : Prop := bd_CreatedAt b.2 <= bd_CreatedAt a.2.
#[export] Instance binding_newer_dec : RelDecision binding_newer.
Proof. intros a b. unfold binding_newer. apply _. Defined.
Definition member_rows (roleID : Z) (w : PWorld) : list (Z * Binding) :=
  filter (fun p => rb_role_id (bd_row p.2) = roleID /\ liveUserSubject w (bd_row p.2) = true) (map_to_list (rbindings w)).

Definition repo_ListMembers (roleID pageNo pageSize : Z) : Op (list (Z * Binding) * Z) :=
  let! total := select (fun w => Z.of_nat (length (member_rows roleID w))) in
  let! l := select (fun w => page pageNo pageSize (merge_sort binding_newer (member_rows roleID w))) in
  ret (l, total).
Definition repo_CountMembers (roleID : Z) : Op Z := select (fun w => Z.of_nat (length (member_rows roleID w))).

Definition repo_GetBySubjects (subjectType : string) (ids : list Z) : Op (list Binding) :=
  if bool_decide (ids = []) then ret [] else
  select (fun w => filter (fun b => rb_subject_type (bd_row b) = subjectType /\ rb_subject_id (bd_row b) ∈ ids) (map_to_list (rbindings w)).*2).
Definition repo_GetBySubject (subjectType : string) (id : Z) : Op (list Binding) :=
  select (fun w => filter (fun b => rb_subject_type (bd_row b) = subjectType /\ rb_subject_id (bd_row b) = id) (map_to_list (rbindings w)).*2).

Definition repo_GetPermissionsByIDs (scope : option Z) (ids : list Z) : Op (list Permission) :=
  if bool_decide (ids = []) then ret [] else
  select (fun w => filter (fun p => pm_ID p ∈ ids /\ perm_in_scope scope p = true) (map_to_list (perms w)).*2).

(** The rows of one INSERT, each under the primary key, UNIQUE(role_id, permission_id) and the
    two foreign keys. *)
Definition insert_role_perm (rp : RolePermission) (w : PWorld) : res PErr PWorld :=
  if bool_decide (is_Some (role_perms w !! rpm_ID rp)) then Err (ErrUnique "mxid_role_permission_pkey")
  else if negb (bool_decide (is_Some (roles w !! rpm_RoleID rp) /\ is_Some (perms w !! rpm_PermissionID rp))) then Err ErrForeignKey
  else if bool_decide (map_Forall (fun _ q => ~ (rpm_RoleID q = rpm_RoleID rp /\ rpm_PermissionID q = rpm_PermissionID rp)) (role_perms w))
  then Ok (with_role_perms <[rpm_ID rp := rp]> w)
  else Err (ErrUnique "mxid_role_permission_role_id_permission_id_key").
Fixpoint insert_role_perms (rps : list RolePermission) (w : PWorld) : res PErr PWorld :=
  match rps with
  | [] => Ok w
  | rp :: rest => match insert_role_perm rp w with Ok w' => insert_role_perms rest w' | Err e => Err e end
  end.
Definition repo_SetRolePermissions (roleID : Z) (rps : list RolePermission) : Op unit :=
  txn ErrDB (
    do! exec (with_role_perms (filter (fun p : Z * RolePermission => rpm_RoleID p.2 <> roleID))) in
    if bool_decide (rps = []) then ret tt else exec_or (insert_role_perms rps)).

Definition repo_GetRolePermissions (roleID : Z) : Op (list RolePermission) :=
  select (fun w => filter (fun rp => rpm_RoleID rp = roleID) (map_to_list (role_perms w)).*2).

(** [INNER JOIN mxid_permission p ON p.id = rp.permission_id] *)
Definition codes_of (w : PWorld) (roleID : Z) : gset string :=
  list_to_set (omap (fun rp => if rpm_RoleID rp =? roleID then pm_Code <$> perms w !! rpm_PermissionID rp else None)
                 (map_to_list (role_perms w)).*2).

(** ** The flag of super administrators (user domain) *)

Definition user_in_scope (scope : option Z) (u : PUser) : bool :=
  negb (pu_Deleted u) && match scope with Some t => pu_TenantID u =? t | None => true end.
Definition user_GetByID (scope : option Z) (id : Z) : Op PUser :=
  let! w := query ErrDB in
  match users w !! id with
  | Some u => if user_in_scope scope u then ret u else throw ErrRecordNotFound
  | None => throw ErrRecordNotFound
  end.
Definition super_admins (scope : option Z) (tenantID : Z) (w : PWorld) : list PUser :=
  filter (fun u => pu_TenantID u = tenantID /\ pu_IsSuperAdmin u = true /\ user_in_scope scope u = true) (map_to_list (users w)).*2.
Definition CountSuperAdmins (scope : option Z) (tenantID : Z) : Op Z :=
  select (fun w => Z.of_nat (length (super_admins scope tenantID w))).
Definition set_flag (v : bool) (u : PUser) : PUser :=
  mkPUser (pu_ID u) (pu_TenantID u) (pu_Username u) (pu_DisplayName u) (pu_Email u) v (pu_Deleted u).
Definition user_repo_SetSuperAdmin (scope : option Z) (id : Z) (v : bool) : Op unit :=
  let! w := query ErrDB in
  match users w !! id with
  | Some u => if user_in_scope scope u then write (with_users <[id := set_flag v u]>) else throw ErrUserNotFound
  | None => throw ErrUserNotFound
  end.

Definition SetSuperAdmin (scope : option Z) (actorID tenantID targetID : Z) (makeSuper : bool) : Op unit :=
  attempt (user_GetByID scope targetID) (fun r =>
    match r with
    | Err _ => throw ErrUserNotFound
    | Ok target =>
        if negb (pu_TenantID target =? tenantID) then throw ErrUserNotFound
        else if Bool.eqb (pu_IsSuperAdmin target) makeSuper then ret tt
        else
          do! (if makeSuper then ret tt else
               let! remaining := CountSuperAdmins scope tenantID in
               guard (remaining <=? 1) ErrLastSuperAdmin) in
          do! user_repo_SetSuperAdmin scope targetID makeSuper in
          publish (UserSuperAdminChanged makeSuper actorID target tenantID)
    end).

(** ** The validators of adapters_refvalidators.go *)

Definition existsInTenant {A} (getByID : Z -> Op A) (id : Z) : Op bool :=
  attempt (getByID id) (fun r => match r with Ok _ => ret true | Err ErrRecordNotFound => ret false | Err e => throw e end).
Definition group_GetByID (scope : option Z) (id : Z) : Op UserGroup :=
  let! w := query ErrDB in
  match pgroups w !! id with
  | Some g => if GroupSync.in_scope scope g then ret g else throw ErrRecordNotFound
  | None => throw ErrRecordNotFound
  end.

(** [nil] before they are injected. *)
Record RefValidators : Type := mkValidators {
  v_User : option (Z -> Op bool); v_Group : option (Z -> Op bool); v_Org : option (Z -> Op bool)
}.
Definition refValidators (scope : option Z) : RefValidators := mkValidators
  (Some (existsInTenant (user_GetByID scope)))
  (Some (existsInTenant (group_GetByID scope)))
  (Some (existsInTenant (fun id => on_org (Org.repo_GetByID scope id)))).

(** ** service.go *)

Section Service.
(** [scope] pins every statement of a request; [superAdmin] says whether the manager is
    wired. *)
Context (scope : option Z) (validators : RefValidators) (superAdmin : bool) (defaultTenant : Z).

Definition validateRef (refType : string) (id : Z) (notFoundErr : PErr) : Op unit :=
  let typ s := bool_decide (refType = s) in
  let run v := match v with
               | None => throw (ErrNoValidator refType)
               | Some v => let! ok := v id in guard (negb ok) notFoundErr
               end in
  if typ SubjectTypeUser then run (v_User validators)
  else if typ SubjectTypeGroup then run (v_Group validators)
  else if typ SubjectTypeOrg then run (v_Org validators)
  else throw (ErrUnknownRefType refType).

Definition or_default (tenantID : Z) : Z := if tenantID =? 0 then defaultTenant else tenantID.

Definition CreateRole (tenantID : Z) (req : CreateRoleRequest) : Op Role :=
  let tenantID := or_default tenantID in
  attempt (repo_GetRoleByCode scope tenantID (cr_Code req)) (fun r =>
    match r with
    | Ok _ => throw ErrRoleCodeExists
    | Err ErrRecordNotFound =>
        let! t := time_now in
        let! id := new_id in
        let! role := repo_CreateRole scope (mkRole id tenantID (cr_Name req) (cr_Code req) (cr_Type req) t t false) in
        do! publish (RoleCreated role) in
        ret role
    | Err e => throw e
    end).

Definition GetRole (id : Z) : Op Role :=
  attempt (repo_GetRoleByID scope id) (fun r =>
    match r with Ok role => ret role | Err ErrRecordNotFound => throw ErrRoleNotFound | Err e => throw e end).

Definition UpdateRole (id : Z) (req : UpdateRoleRequest) : Op Role :=
  let! role := GetRole id in
  let! t := time_now in
  let role' := mkRole (ro_ID role) (ro_TenantID role) (default (ro_Name role) (ur_Name req)) (ro_Code role) (ro_Type role)
                 (ro_CreatedAt role) t (ro_Deleted role) in
  do! repo_UpdateRole role' in
  do! publish (RoleUpdated (ro_ID role')) in
  ret role'.

Definition DeleteRole (id : Z) : Op unit :=
  let! role := GetRole id in
  do! guard (ro_Type role =? RoleTypeSystem) ErrSystemRoleDelete in
  do! repo_DeleteRole scope id in
  publish (RoleDeleted id).

Definition ListRoles (tenantID pageNo pageSize : Z) : Op (list Role * Z) := repo_ListRoles scope (or_default tenantID) pageNo pageSize.

Definition GetRolePermissions (roleID : Z) : Op (list Permission) :=
  let! _ := GetRole roleID in
  let! rps := repo_GetRolePermissions roleID in
  if bool_decide (rps = []) then ret [] else repo_GetPermissionsByIDs scope (rpm_PermissionID <$> rps).

Fixpoint new_rows (roleID t : Z) (pids : list Z) : Op (list RolePermission) :=
  match pids with
  | [] => ret []
  | pid :: rest =>
      let! id := new_id in
      let! rows := new_rows roleID t rest in
      ret (mkRolePermission id roleID pid t :: rows)
  end.

Definition SetRolePermissions (roleID : Z) (permissionIDs : list Z) : Op unit :=
  let! _ := GetRole roleID in
  do! (if bool_decide (permissionIDs = []) then ret tt else
       let! found := repo_GetPermissionsByIDs scope permissionIDs in
       guard (negb (length found =? length permissionIDs)%nat) ErrPermissionNotFound) in
  let! t := time_now in
  let! rps := new_rows roleID t permissionIDs in
  do! repo_SetRolePermissions roleID rps in
  publish (RolePermissionsSet roleID permissionIDs).

(** The binding's id and row. *)
Definition grantSuperAdmin (actorID tenantID roleID : Z) (req : AddMemberRequest) : Op (Z * Binding) :=
  do! guard (negb (bool_decide (am_SubjectType req = SubjectTypeUser))) ErrSuperAdminUserOnly in
  do! guard (negb superAdmin) ErrSuperAdminUnavailable in
  do! validateRef SubjectTypeUser (am_SubjectID req) ErrSubjectNotInTenant in
  do! SetSuperAdmin scope actorID tenantID (am_SubjectID req) true in
  let! t := time_now in
  ret (am_SubjectID req, mkBinding (mkRB roleID SubjectTypeUser (am_SubjectID req) None None None None BindingActive) t).

Definition AddMember (actorID roleID : Z) (req : AddMemberRequest) : Op (Z * Binding) :=
  let! role := GetRole roleID in
  if bool_decide (ro_Code role = SuperAdminRoleCode) then grantSuperAdmin actorID (ro_TenantID role) roleID req else
  do! guard (negb (Bool.eqb (bool_decide (am_ScopeType req = None)) (bool_decide (am_ScopeID req = None)))) ErrScopeIncomplete in
  do! validateRef (am_SubjectType req) (am_SubjectID req) ErrSubjectNotInTenant in
  do! match am_ScopeType req, am_ScopeID req with
      | Some ty, Some sid => validateRef ty sid ErrScopeNotInTenant
      | _, _ => ret tt
      end in
  let! id := new_id in
  let! t := time_now in
  (* the columns of migration 000045 take their defaults *)
  let b := mkBinding (mkRB roleID (am_SubjectType req) (am_SubjectID req) (am_ScopeType req) (am_ScopeID req) None None BindingActive) t in
  do! repo_AddMember id b in
  do! publish (RoleMemberAdded role req) in
  ret (id, b).

Definition RemoveMember (actorID roleID memberID : Z) : Op unit :=
  let! role := GetRole roleID in
  if bool_decide (ro_Code role = SuperAdminRoleCode) then
    do! guard (negb superAdmin) ErrSuperAdminUnavailable in
    SetSuperAdmin scope actorID (ro_TenantID role) memberID false
  else
  attempt (repo_RemoveMember memberID) (fun r =>
    match r with
    | Ok _ => publish (RoleMemberRemoved roleID memberID)
    | Err ErrRecordNotFound => throw ErrMemberNotFound
    | Err e => throw e
    end).

(** [ORDER BY id ASC] *)
Definition by_id (a b : PUser) : Prop := pu_ID a <= pu_ID b.
#[export] Instance by_id_dec : RelDecision by_id.
Proof. intros a b. unfold by_id. apply _. Defined.
Definition ListSuperAdmins (tenantID : Z) : Op (list PUser) := select (fun w => merge_sort by_id (super_admins scope tenantID w)).
(** superAdminManagerAdapter.ListSuperAdmins and listSuperAdminMembers *)
Definition super_admin_name (u : PUser) : string := if bool_decide (pu_DisplayName u = ""%string) then pu_Username u else pu_DisplayName u.
Definition listSuperAdminMembers (tenantID : Z) : Op (list MemberResponse * Z) :=
  do! guard (negb superAdmin) ErrSuperAdminUnavailable in
  let! infos := ListSuperAdmins tenantID in
  ret ((fun u => mkMemberResponse (pu_ID u) 0 SubjectTypeUser (pu_ID u)
                   (if bool_decide (super_admin_name u = ""%string) then dec (pu_ID u) else super_admin_name u) (pu_Email u)) <$> infos,
       Z.of_nat (length infos)).

(** [resolve kind ids]: None when there is no resolver or it failed. *)
Definition enrich (info : option (gmap Z (string * string))) (p : Z * Binding) : MemberResponse :=
  let b := bd_row p.2 in
  let id := dec (rb_subject_id b) in
  match m ← info; m !! rb_subject_id b with
  | Some (name, secondary) =>
      mkMemberResponse p.1 (rb_role_id b) (rb_subject_type b) (rb_subject_id b) (if bool_decide (name = ""%string) then id else name) secondary
  | None => mkMemberResponse p.1 (rb_role_id b) (rb_subject_type b) (rb_subject_id b) id ""
  end.
Definition ids_of_type (kind : string) (l : list (Z * Binding)) : list Z :=
  elements (list_to_set (map (fun p => rb_subject_id (bd_row p.2)) (filter (fun p => rb_subject_type (bd_row p.2) = kind) l)) : gset Z).
Definition enrichMembers (resolvers : string -> option (list Z -> Op (gmap Z (string * string)))) (l : list (Z * Binding)) : Op (list MemberResponse) :=
  let resolve kind : Op (option (gmap Z (string * string))) :=
    match resolvers kind, ids_of_type kind l with
    | None, _ | _, [] => ret None
    | Some r, ids => attempt (r ids) (fun x => ret match x with Ok info => Some info | Err _ => None end)
    end in
  let! u := resolve SubjectTypeUser in
  let! g := resolve SubjectTypeGroup in
  let! o := resolve SubjectTypeOrg in
  ret ((fun p => let ty := rb_subject_type (bd_row p.2) in
          enrich (if bool_decide (ty = SubjectTypeUser) then u else if bool_decide (ty = SubjectTypeGroup) then g
                  else if bool_decide (ty = SubjectTypeOrg) then o else None) p) <$> l).
Definition ListMembers resolvers (roleID pageNo pageSize : Z) : Op (list MemberResponse * Z) :=
  let! role := GetRole roleID in
  if bool_decide (ro_Code role = SuperAdminRoleCode) then listSuperAdminMembers (ro_TenantID role) else
  let! r := repo_ListMembers roleID pageNo pageSize in
  let! l := enrichMembers resolvers r.1 in
  ret (l, r.2).

(** ** effective.go *)

Definition EffectiveRolesForUser (userID : Z) (groups orgs : option (Op (list Z))) : Op (list EffectiveRoleResponse) :=
  let inherited (lookup : option (Op (list Z))) (kind : string) : Op (list (Z * string * Z)) :=
    match lookup with
    | None => ret []
    | Some m => attempt m (fun r =>
        match r with
        | Ok (_ :: _ as ids) =>
            let! bs := repo_GetBySubjects kind ids in
            ret ((fun b => (rb_role_id (bd_row b), kind, rb_subject_id (bd_row b))) <$> bs)
        | _ => ret []
        end)
    end in
  let! direct := repo_GetBySubject "user" userID in
  let! viaGroups := inherited groups "group"%string in
  let! viaOrgs := inherited orgs "org"%string in
  let want := ((fun b => (rb_role_id (bd_row b), "direct"%string, userID)) <$> direct) ++ viaGroups ++ viaOrgs in
  if bool_decide (want = []) then ret [] else
  let! found := repo_GetRolesByIDs scope (want.*1.*1) in
  ret (omap (fun p => (fun r => mkEffectiveRole r p.1.2 p.2) <$> found !! p.1.1) want).
End Service.

(** ** adapters_authz.go *)

(** ListByUserID of the groups, and its ids. *)
Definition group_ids (scope : option Z) (tenantID userID : Z) (w : PWorld) : list Z :=
  filter (fun g => match pgroups w !! g with
                   | Some ug => GroupSync.in_scope scope ug && (g_TenantID ug =? tenantID) && bool_decide (is_Some (pmembers w !! (g, userID)))
                   | None => false
                   end = true) (map_to_list (pgroups w)).*1.
Definition ListByUserID (scope : option Z) (tenantID userID : Z) : Op (list Z) := select (group_ids scope tenantID userID).
Definition org_ids (tenantID userID : Z) : Op (list Z) :=
  let! s := on_org (Org.repo_AncestorIDsForUser tenantID userID) in ret (elements s).

(** A call whose error is dropped: the zero value then. *)
Definition or_nil {A} (m : Op (list A)) : Op (list A) := attempt m (fun r => ret match r with Ok l => l | Err _ => [] end).

Definition of_subjects (userID : Z) (groupIDs orgIDs : list Z) (b : RoleBinding) : bool :=
  bool_decide (rb_subject_type b = SubjectTypeUser /\ rb_subject_id b = userID)
  || bool_decide (rb_subject_type b = SubjectTypeGroup /\ rb_subject_id b ∈ groupIDs)
  || bool_decide (rb_subject_type b = SubjectTypeOrg /\ rb_subject_id b ∈ orgIDs).
(** [status = 1 AND (expires_at IS NULL OR expires_at > NOW())] *)
Definition in_force (t : Z) (b : RoleBinding) : bool :=
  (rb_status b =? BindingActive) && match rb_expires_at b with Some x => t <? x | None => true end.
Definition role_of_tenant (w : PWorld) (tenantID roleID : Z) : bool :=
  match roles w !! roleID with Some r => (ro_TenantID r =? tenantID) && negb (ro_Deleted r) | None => false end.
Definition source_of (b : RoleBinding) : string :=
  if bool_decide (rb_subject_type b = SubjectTypeGroup) then "group"
  else if bool_decide (rb_subject_type b = SubjectTypeOrg) then "org" else "direct".

(** (role_id, scope_type, scope_id, source, source_id, expires_at) *)
Abbreviation Row := (Z * option string * option Z * string * Z * option Z)%type.
Definition row_of (b : RoleBinding) : Row :=
  (rb_role_id b, rb_scope_type b, rb_scope_id b, source_of b, rb_subject_id b, rb_expires_at b).
Definition binding_rows (tenantID userID : Z) (groupIDs orgIDs : list Z) (w : PWorld) : list Row :=
  elements (list_to_set (row_of <$> filter (fun b =>
    role_of_tenant w tenantID (rb_role_id b) && in_force (clock w) b && of_subjects userID groupIDs orgIDs b = true)
    (bd_row <$> (map_to_list (rbindings w)).*2)) : gset Row).
Definition effective (codes : Z -> gset string) (r : Row) : EffectiveBinding :=
  let '(roleID, scopeType, scopeID, source, sourceID, expiresAt) := r in
  mkEB roleID (codes roleID) source sourceID (default ScopeGlobal scopeType) (default 0 scopeID) expiresAt.

Definition is_super_admin (w : PWorld) (tenantID userID : Z) : bool :=
  match users w !! userID with
  | Some u => (pu_TenantID u =? tenantID) && negb (pu_Deleted u) && pu_IsSuperAdmin u
  | None => false
  end.
Definition super_binding (userID : Z) : EffectiveBinding := mkEB 0 {[ "*"%string ]} "super_admin" userID ScopeGlobal 0 None.

Definition EffectiveBindingsForUser (scope : option Z) (tenantID userID : Z) : Op (list EffectiveBinding) :=
  let! super := select (fun w => is_super_admin w tenantID userID) in
  if super : bool then ret [super_binding userID] else
  let! groupIDs := or_nil (ListByUserID scope tenantID userID) in
  let! orgIDs := or_nil (org_ids tenantID userID) in
  let! rows := select (binding_rows tenantID userID groupIDs orgIDs) in
  if bool_decide (rows = []) then ret [] else
  attempt (select codes_of) (fun r =>
    ret (effective (match r with Ok codes => codes | Err _ => fun _ => ∅ end) <$> rows)).

(** The catalogue of every tenant, and the tenants that have a super administrator. *)
Definition all_policies (w : PWorld) : list RolePolicy :=
  omap (fun rp => r ← roles w !! rpm_RoleID rp;
                  p ← perms w !! rpm_PermissionID rp;
                  if ro_Deleted r then None else Some (mkRolePolicy (ro_TenantID r) (rpm_RoleID rp) (pm_Code p)))
    (map_to_list (role_perms w)).*2.
Definition super_tenants (w : PWorld) : list Z :=
  elements (list_to_set (pu_TenantID <$> filter (fun u => pu_IsSuperAdmin u = true /\ pu_Deleted u = false) (map_to_list (users w)).*2) : gset Z).
Definition LoadPolicies : Op (list RolePolicy * list Z) :=
  let! policies := select all_policies in
  let! tenants := select super_tenants in
  ret (policies, tenants).
End Perm.
Arguments PWorld : clear implicits.
