(* ===== verification/PermEffective.v ===== *)
(** * PermEffective: the bindings in effect for a user, and the catalogue of Casbin

    What the two queries of src/app/adapters_authz.go answer of the tables; that they
    agree on the permissions of a role, so that deciding with Casbin or with the binding's own
    set is the same. *)

From stdpp Require Import sorting.
From S2P Require Import Redis Authz AuthzProps Prelude Statements Text GroupRule GroupSync Access Org Perm.
#[global] Open Scope Z_scope.

Section Effective.
Context {G : Type} `{!IdGen G}.
Abbreviation W := (PWorld G).
Implicit Types w : W.

Lemma with_porg_same w : with_porg (porg w) w = w.
Proof. by destruct w. Qed.

(** A query of the organizations, on the whole database. *)
Lemma on_org_select {A} (f : OWorld G -> A) (s : Store W) :
  on_org (Statements.select Org.ErrDB f) s
  = (mkStore (sdb s) (sfail s) (S (scalls s)), if sfail s (scalls s) then Err (ErrOrg Org.ErrDB) else Ok (f (porg (sdb s)))).
Proof. unfold on_org. rewrite select_run. cbn. rewrite with_porg_same. by destruct (sfail s (scalls s)). Qed.

(** The rows of bindings a user holds in a tenant. *)
Definition holds (scope : option Z) w (t u : Z) (b : RoleBinding) : Prop :=
  role_of_tenant w t (rb_role_id b) = true /\ in_force (clock w) b = true
  /\ of_subjects u (group_ids scope t u w) (elements (ancestor_ids t u (porg w))) b = true.

(** [b] is what the tables say of the user: the wildcard of a super administrator, or a row
    it holds, with the permissions of the row's role or none. *)
Definition warranted (scope : option Z) w (t u : Z) (b : EffectiveBinding) : Prop :=
  (is_super_admin w t u = true /\ b = super_binding u)
  \/ exists id bd codes, rbindings w !! id = Some bd /\ holds scope w t u (bd_row bd)
       /\ (codes = codes_of w \/ codes = fun _ => ∅) /\ b = effective codes (row_of (bd_row bd)).

Lemma of_subjects_mono u g1 g2 o1 o2 b :
  (forall x, x ∈ g1 -> x ∈ g2) -> (forall x, x ∈ o1 -> x ∈ o2) -> of_subjects u g1 o1 b = true -> of_subjects u g2 o2 b = true.
Proof.
  intros Hg Ho. unfold of_subjects. rewrite !orb_true_iff, !bool_decide_eq_true. naive_solver.
Qed.

Lemma elem_of_binding_rows t u g o w r :
  r ∈ binding_rows t u g o w <-> exists id bd, rbindings w !! id = Some bd /\ r = row_of (bd_row bd)
    /\ role_of_tenant w t (rb_role_id (bd_row bd)) = true /\ in_force (clock w) (bd_row bd) = true /\ of_subjects u g o (bd_row bd) = true.
Proof.
  unfold binding_rows. rewrite elem_of_elements, elem_of_list_to_set, list_elem_of_fmap. split.
  - intros (b & -> & Hb). apply list_elem_of_filter in Hb as [Hb Hin]. rewrite !andb_true_iff in Hb. destruct Hb as [[H1 H2] H3].
    apply list_elem_of_fmap in Hin as (bd & -> & Hin). apply list_elem_of_fmap in Hin as ([id bd'] & -> & Hin).
    apply elem_of_map_to_list in Hin. eauto 10.
  - intros (id & bd & Hid & -> & H1 & H2 & H3). exists (bd_row bd). split; [done|]. apply list_elem_of_filter. rewrite !andb_true_iff.
    split; [done|]. apply list_elem_of_fmap. exists bd. split; [done|]. apply list_elem_of_fmap. exists (id, bd).
    split; [done|]. by apply elem_of_map_to_list.
Qed.

Lemma or_nil_on_db {A} w (m : M (Store W) PErr (list A)) (l : list A) :
  on_db (eq w) m (fun w' r => w' = w /\ match r with Ok l' => l' = l | Err _ => True end) ->
  on_db (eq w) (or_nil m) (fun w' r => w' = w /\ match r with Ok l' => forall x, x ∈ l' -> x ∈ l | Err _ => False end).
Proof.
  intros Hm. eapply on_db_attempt; [exact Hm|]. intros x. apply on_db_ret. intros d [-> Hx]. split; [done|].
  destruct x; [by subst | by intros ? ?%elem_of_nil].
Qed.

(** Whatever fails, nothing is answered that the tables do not warrant. *)
Lemma effective_warranted scope t u w :
  on_db (eq w) (EffectiveBindingsForUser scope t u) (fun w' r =>
    w' = w /\ match r with Ok binds => Forall (warranted scope w t u) binds | Err _ => True end).
Proof.
  unfold EffectiveBindingsForUser. eapply on_db_bind.
  { eapply on_db_select with (Q := fun w' r => w' = w /\ match r with Ok b => b = is_super_admin w t u | Err _ => True end); by intros d <-. }
  2: { intros d e [-> _]. done. }
  intros super. apply (on_db_pre _ _ _ (super = is_super_admin w t u)); [by intros d [_ ?]|]. intros ->.
  eapply on_db_weaken with (P' := eq w); [|by intros d [-> _] | intros d r H; exact H]. destruct (is_super_admin w t u) eqn:Hs.
  { apply on_db_ret. intros d <-. split; [done|]. apply Forall_singleton. by left. }
  eapply on_db_bind.
  { eapply or_nil_on_db with (l := group_ids scope t u w). apply on_db_select; by intros d <-. }
  2: { intros d e [_ []]. }
  intros gids. apply (on_db_pre _ _ _ (forall x, x ∈ gids -> x ∈ group_ids scope t u w)); [by intros d [_ ?]|]. intros Hg.
  eapply on_db_weaken with (P' := eq w); [|by intros d [-> _] | intros d r H; exact H].
  eapply on_db_bind.
  { eapply or_nil_on_db with (l := elements (ancestor_ids t u (porg w))). intros s Hw. unfold org_ids.
    unfold bind, Org.repo_AncestorIDsForUser. rewrite on_org_select. destruct (sfail s (scalls s)); cbn; [done | by rewrite <- Hw]. }
  2: { intros d e [_ []]. }
  intros oids. apply (on_db_pre _ _ _ (forall x, x ∈ oids -> x ∈ elements (ancestor_ids t u (porg w)))); [by intros d [_ ?]|]. intros Ho.
  eapply on_db_weaken with (P' := eq w); [|by intros d [-> _] | intros d r H; exact H].
  eapply on_db_bind with (R := fun w' r => w' = w /\ match r with Ok rows => rows = binding_rows t u gids oids w | Err _ => True end).
  { apply on_db_select; by intros d <-. }
  2: { intros d e [-> _]. done. }
  intros rows. apply (on_db_pre _ _ _ (rows = binding_rows t u gids oids w)); [by intros d [_ ?]|]. intros Hrows.
  eapply on_db_weaken with (P' := eq w); [|by intros d [-> _] | intros d r H; exact H].
  case_bool_decide; [apply on_db_ret; intros d <-; by split|].
  eapply on_db_attempt with (R := fun w' r => w' = w /\ match r with Ok codes => codes = codes_of w | Err _ => True end).
  { apply on_db_select; by intros d <-. }
  intros x. apply on_db_ret. intros d [-> Hx]. split; [done|]. apply Forall_fmap, Forall_forall. intros r Hr.
  rewrite Hrows in Hr. apply elem_of_binding_rows in Hr as (id & bd & Hid & -> & H1 & H2 & H3). right.
  eexists id, bd, _. split_and!; [exact Hid | split_and!; [done..|] | | reflexivity].
  - by eapply of_subjects_mono.
  - destruct x; subst; auto.
Qed.

(** With every statement answered: exactly the wildcard, or the rows with their roles' codes. *)
Definition effective_bindings (scope : option Z) w (t u : Z) : list EffectiveBinding :=
  if is_super_admin w t u then [super_binding u]
  else effective (codes_of w) <$> binding_rows t u (group_ids scope t u w) (elements (ancestor_ids t u (porg w))) w.

Lemma runs_or_nil {A} w (m : M (Store W) PErr (list A)) l : runs w m (Ok l) w -> runs w (or_nil m) (Ok l) w.
Proof. intros Hm. eapply runs_attempt; [exact Hm | apply runs_ret]. Qed.

Lemma effective_runs scope t u w : runs w (EffectiveBindingsForUser scope t u) (Ok (effective_bindings scope w t u)) w.
Proof.
  unfold EffectiveBindingsForUser, effective_bindings. eapply runs_bind; [apply runs_select|].
  destruct (is_super_admin w t u); [apply runs_ret|].
  eapply runs_bind; [apply runs_or_nil, runs_select|]. eapply runs_bind.
  { apply runs_or_nil. intros s Hs Hw. exists (S (scalls s)). split; [lia|]. unfold org_ids, bind, Org.repo_AncestorIDsForUser.
    rewrite on_org_select, (Hs (scalls s)) by lia. cbn. by rewrite Hw. }
  eapply runs_bind; [apply runs_select|]. case_bool_decide as Hnil; [rewrite Hnil; apply runs_ret|].
  eapply runs_attempt; [apply runs_select | apply runs_ret].
Qed.

(** ** The catalogue *)

Lemma elem_of_codes w r c : c ∈ codes_of w r <-> exists i rp p, role_perms w !! i = Some rp /\ rpm_RoleID rp = r
  /\ perms w !! rpm_PermissionID rp = Some p /\ pm_Code p = c.
Proof.
  unfold codes_of. rewrite elem_of_list_to_set, list_elem_of_omap. split.
  - intros (rp & Hin & Hc). apply list_elem_of_fmap in Hin as ([i rp'] & -> & Hin). apply elem_of_map_to_list in Hin. cbn in *.
    destruct (Z.eqb_spec (rpm_RoleID rp') r); [|done]. apply fmap_Some in Hc as (p & Hp & ->). eauto 10.
  - intros (i & rp & p & Hi & Hr & Hp & Hc). exists rp. split.
    + apply list_elem_of_fmap. exists (i, rp). split; [done|]. by apply elem_of_map_to_list.
    + rewrite (proj2 (Z.eqb_eq _ _) Hr), Hp. cbn. by f_equal.
Qed.

Lemma elem_of_policies w t r c :
  role_of_tenant w t r = true -> mkRolePolicy t r c ∈ all_policies w <-> c ∈ codes_of w r.
Proof.
  intros Hr. unfold role_of_tenant in Hr. destruct (roles w !! r) as [ro|] eqn:Hro; [|done]. to_prop.
  unfold all_policies. rewrite list_elem_of_omap, elem_of_codes. split.
  - intros (rp & Hin & Hc). apply list_elem_of_fmap in Hin as ([i rp'] & -> & Hin). apply elem_of_map_to_list in Hin. cbn in *.
    destruct (roles w !! rpm_RoleID rp') as [ro'|] eqn:Hro'; [|done]. cbn in Hc.
    destruct (perms w !! rpm_PermissionID rp') as [p|] eqn:Hp; [|done]. cbn in Hc.
    destruct (ro_Deleted ro'); [done|]. simplify_eq. eauto 10.
  - intros (i & rp & p & Hi & <- & Hp & <-). exists rp. split.
    + apply list_elem_of_fmap. exists (i, rp). split; [done|]. by apply elem_of_map_to_list.
    + rewrite Hro. cbn. rewrite Hp. cbn. destruct (ro_Deleted ro); [done|]. by subst t.
Qed.

Lemma elem_of_super_tenants w t u : is_super_admin w t u = true -> t ∈ super_tenants w.
Proof.
  unfold is_super_admin, super_tenants. destruct (users w !! u) as [x|] eqn:Hu; [|done]. intros H. to_prop.
  apply elem_of_elements, elem_of_list_to_set, list_elem_of_fmap. exists x. split; [done|]. apply list_elem_of_filter. split; [done|].
  apply list_elem_of_fmap. exists (u, x). split; [done|]. by apply elem_of_map_to_list.
Qed.

(** Casbin, loaded from the same tables, decides each binding as its own set does. *)
Lemma casbin_agrees `{!CasbinLib} `{!CasbinLaws} scope w t u e b perm :
  rebuild (all_policies w) (super_tenants w) = Ok e -> roles w !! 0 = None -> perm <> ""%string ->
  (forall s d o, exists ok, Enforce e s d o = Ok ok) -> b ∈ effective_bindings scope w t u ->
  RoleHasPermission (Some e) t (bindingRoleSubject b) perm = hasPermission (eb_Permissions b) perm.
Proof.
  intros He Hzero Hp Hans Hb. unfold effective_bindings in Hb. destruct (is_super_admin w t u) eqn:Hs.
  - apply list_elem_of_singleton in Hb as ->.
    rewrite (proj2 (super_permission_iff _ _ _ _ _ He (Hans _ _ _)) (elem_of_super_tenants _ _ _ Hs)). done.
  - apply list_elem_of_fmap in Hb as (row & -> & Hrow). apply elem_of_binding_rows in Hrow as (id & bd & _ & -> & Hrole & _ & _).
    set (r := rb_role_id (bd_row bd)) in *. assert (bindingRoleSubject (effective (codes_of w) (row_of (bd_row bd))) = roleSubject r) as ->.
    { unfold bindingRoleSubject. cbn. fold r. destruct (Z.eqb_spec r 0) as [Hz|]; [|done]. cbn.
      unfold role_of_tenant in Hrole. rewrite Hz, Hzero in Hrole. done. }
    apply eq_bool_prop_intro. split; intros Hx; apply Is_true_true; apply Is_true_true in Hx.
    + apply (role_permission_iff _ _ _ _ _ _ He Hp (Hans _ _ _)) in Hx. rewrite !elem_of_policies in Hx by done.
      unfold hasPermission. apply orb_true_iff. rewrite !bool_decide_eq_true. cbn. fold r. tauto.
    + apply (role_permission_iff _ _ _ _ _ _ He Hp (Hans _ _ _)). rewrite !elem_of_policies by done.
      unfold hasPermission in Hx. apply orb_true_iff in Hx. rewrite !bool_decide_eq_true in Hx. cbn in Hx. fold r in Hx. tauto.
Qed.
End Effective.
