(* ===== verification/PermHttp.v ===== *)
(** * PermHttp: the permission engine wired into the console

    src/app/adapters_authz.go and run.go (the engine over the tables and the cache, the
    subscriptions that keep cache and Casbin current), src/app/authz_console.go (the registry of
    console routes) and src/internal/domain/permission/handler.go (the endpoints that change
    roles, with their guard against escalation). *)

From S2P Require Import Redis Authz Prelude Statements Text Org Access Perm.
#[global] Open Scope Z_scope.

Section Wiring.
Context {G : Type} `{!IdGen G} `{!CasbinLib}.

(** What a pod sees behind its cache: the shared database, and its own enforcer. *)
Record PodDB : Type := mkPodDB { d_store : Store (PWorld G); d_engine : option Enforcer }.
Abbreviation Pod := (Authz.Node PodDB).

Definition on_store {A} (m : M (Store (PWorld G)) PErr A) : M PodDB AZErr A := fun d =>
  let '(s, x) := m (d_store d) in (mkPodDB s (d_engine d), match x with Ok a => Ok a | Err _ => Err ErrLookup end).
(** The same from the whole pod, the error kept. *)
Definition on_tables {A} (m : M (Store (PWorld G)) PErr A) : M Pod AZErr (res PErr A) := fun n =>
  let '(s, x) := m (d_store (n_db n)) in
  (mkNode (mkPodDB s (d_engine (n_db n))) (n_redis n) (n_l1 n) (n_out n) (n_purges n), Ok x).

(** ** The engine of run.go *)

Section Engine.
Context (rdb : bool) (useCasbin : bool) (scope : option Z).

Definition authzBindingProvider : BindingProvider PodDB := fun t u => on_store (EffectiveBindingsForUser scope t u).
Definition authzBindings : BindingProvider Pod := CachedBindings authzBindingProvider rdb defaultL1TTL defaultL2TTL.
Definition authzOrgAncestry : OrgAncestry Pod := fun a d => on_inner (on_store (on_org (IsAncestorOrSelf a d))).
Definition engine_of : option (Pod -> option Enforcer) := if useCasbin then Some (fun n => d_engine (n_db n)) else None.

Definition svc_Check : Z -> Z -> string -> option ScopeTarget -> M Pod AZErr bool :=
  Check node_now (Some authzBindings) (Some authzOrgAncestry) engine_of.
Definition svc_PermissionsForUser : Z -> Z -> M Pod AZErr (gset string) := PermissionsForUser (Some authzBindings).
(** The [IsAdmin] of run.go *)
Definition IsAdmin (tenantID userID : Z) : M Pod AZErr bool :=
  attempt (svc_PermissionsForUser tenantID userID) (fun r =>
    ret match r with Ok ps => negb (bool_decide (ps = ∅)) | Err _ => false end).
End Engine.

(** ** Subscriptions *)

Section Subscriptions.
Context (rdb : bool).
(** [_ = op]: a handler drops the error. *)
Definition dropped {A} (m : M Pod AZErr A) : M Pod AZErr unit := attempt m (fun _ => ret tt).

Definition invalidate_from (key : string) (e : Event) : M Pod AZErr unit :=
  match ev_Payload e with
  | None => dropped (InvalidateAll rdb)
  | Some p =>
      if int_of p key =? 0 then dropped (InvalidateAll rdb)
      else dropped (Invalidate rdb (int_of p "tenant_id") (int_of p key))
  end.
Definition invalidateUserFromPayload : Event -> M Pod AZErr unit := invalidate_from "user_id".
Definition invalidateTargetFromPayload : Event -> M Pod AZErr unit := invalidate_from "target_id".

Definition all_types : list string :=
  ["role.created"; "role.updated"; "role.deleted"; "role.permissions_set"; "org.updated"; "org.deleted"]%string.
Definition user_types : list string :=
  ["role.member_added"; "role.member_removed"; "group.member_added"; "group.member_removed"; "org.member_added"; "org.member_removed";
   "user.updated"; "user.locked"; "user.unlocked"; "user.deleted"]%string.
Definition target_types : list string := ["user.super_admin.grant"; "user.super_admin.revoke"]%string.

Definition wireAuthzCacheInvalidation (e : Event) : M Pod AZErr unit :=
  if bool_decide (ev_Type e ∈ all_types) then dropped (InvalidateAll rdb)
  else if bool_decide (ev_Type e ∈ user_types) then invalidateUserFromPayload e
  else if bool_decide (ev_Type e ∈ target_types) then invalidateTargetFromPayload e
  else ret tt.

Definition set_engine (e : Enforcer) (d : PodDB) : PodDB := mkPodDB (d_store d) (Some e).
Context (adapter : option (Enforcer -> M PodDB AZErr unit)).
Definition sync : M PodDB AZErr unit := Sync set_engine adapter (on_store LoadPolicies).

Definition casbin_types : list string :=
  ["role.created"; "role.updated"; "role.deleted"; "role.permissions_set"; "user.super_admin.grant"; "user.super_admin.revoke"; "user.deleted"]%string.
Definition casbinResyncChannel : string := "authz:casbin:resync".
(** The broadcast goes out whether the local reload succeeded or not. *)
Definition wireCasbinSync (e : Event) : M Pod AZErr unit :=
  if bool_decide (ev_Type e ∈ casbin_types) then
    do! dropped (on_inner sync) in
    if rdb then dropped (PUBLISH casbinResyncChannel) else ret tt
  else ret tt.
End Subscriptions.

(** ** handler.go *)

Inductive HReply : Type := HOK | HCreated | HFail (http code : Z).

Definition codeOf (e : PErr) : HReply :=
  match e with
  | ErrRoleNotFound => HFail 404 40401
  | ErrMemberNotFound => HFail 404 40402
  | ErrSubjectNotInTenant => HFail 404 40403
  | ErrScopeNotInTenant => HFail 404 40404
  | ErrPermissionNotFound => HFail 400 40002
  | ErrScopeIncomplete => HFail 400 40006
  | ErrSystemRoleDelete => HFail 403 40301
  | ErrSuperAdminUserOnly => HFail 400 40005
  | ErrRoleCodeExists => HFail 409 40901
  | ErrUserNotFound => HFail 404 40401
  | ErrLastSuperAdmin => HFail 409 40904
  | _ => HFail 500 50001
  end.

(** errAssignBlocked *)
Inductive Blocked : Type :=
| EngineUnavailable
| CallerNotAuthenticated
| CallerLookupFailed
| OnlySuperAdmin
| RoleLookupFailed
| NotHeld (code : string)
| ScopeExceedsYours (code : string).

Definition scopeToTarget (scopeType : string) (scopeID : Z) : option ScopeTarget :=
  if bool_decide (scopeType = "org"%string) then Some (TargetOrg scopeID)
  else if bool_decide (scopeType = "group"%string) then Some (TargetGroup scopeID) else None.

(** The engine found in the request's context. *)
Record AuthzSvc : Type := mkAuthzSvc {
  s_Check : Z -> Z -> string -> option ScopeTarget -> M Pod AZErr bool;
  s_PermissionsForUser : Z -> Z -> M Pod AZErr (gset string)
}.

Section Handlers.
Context (svc : option AuthzSvc) (scope : option Z) (validators : @RefValidators G) (superAdmin : bool) (defaultTenant : Z).
Abbreviation HOp := (M Pod AZErr).

Fixpoint check_all (Check : string -> HOp bool) (codes : list string) : HOp (option Blocked) :=
  match codes with
  | [] => ret None
  | p :: ps =>
      attempt (Check p) (fun r =>
        match r with
        | Ok true => check_all Check ps
        | _ => ret (Some (ScopeExceedsYours p))
        end)
  end.

Definition first_missing (held : gset string) (codes : list string) : option string :=
  head (filter (fun p => p ∉ held) codes).

(** Both guards begin alike: [k] runs for a caller without the wildcard, on a role that
    could not be seen to be the built-in one. *)
Definition guarded (tenantID callerID roleID : Z) (k : AuthzSvc -> gset string -> HOp (option Blocked)) : HOp (option Blocked) :=
  match svc with
  | None => ret (Some EngineUnavailable)
  | Some svc =>
      if callerID =? 0 then ret (Some CallerNotAuthenticated) else
      attempt (s_PermissionsForUser svc tenantID callerID) (fun r =>
        match r with
        | Err _ => ret (Some CallerLookupFailed)
        | Ok callerPerms =>
            if bool_decide ("*"%string ∈ callerPerms) then ret None else
            let! role := on_tables (GetRole scope roleID) in
            if match role with Ok role => bool_decide (ro_Code role = SuperAdminRoleCode) | Err _ => false end
            then ret (Some OnlySuperAdmin) else k svc callerPerms
        end)
  end.

Definition checkAssignAllowed (tenantID callerID roleID : Z) (req : AddMemberRequest) : HOp (option Blocked) :=
  guarded tenantID callerID roleID (fun svc callerPerms =>
    let! rolePerms := on_tables (GetRolePermissions scope roleID) in
    match rolePerms with
    | Err _ => ret (Some RoleLookupFailed)
    | Ok rolePerms =>
        match first_missing callerPerms (pm_Code <$> rolePerms) with
        | Some p => ret (Some (NotHeld p))
        | None =>
            let target := match am_ScopeType req, am_ScopeID req with
                          | Some ty, Some id => scopeToTarget ty id
                          | _, _ => None
                          end in
            check_all (fun p => s_Check svc tenantID callerID p target) (pm_Code <$> rolePerms)
        end
    end).

Definition checkSetPermissionsAllowed (tenantID callerID roleID : Z) (permIDs : list Z) : HOp (option Blocked) :=
  guarded tenantID callerID roleID (fun _ callerPerms =>
    let! found := on_tables (repo_GetPermissionsByIDs scope permIDs) in
    match found with
    | Err _ => ret (Some RoleLookupFailed)
    | Ok found => ret (NotHeld <$> first_missing callerPerms (pm_Code <$> found))
    end).

(** ShouldBindJSON with the tags of AddMemberRequest. *)
Definition binds (req : AddMemberRequest) : bool :=
  bool_decide (am_SubjectType req ∈ ["user"; "group"; "org"]%string) && negb (am_SubjectID req =? 0)
  && match am_ScopeType req with Some ty => bool_decide (ty ∈ ["org"; "group"]%string) | None => true end.

Definition answer {A} (ok : HReply) (m : M (Store (PWorld G)) PErr A) : HOp HReply :=
  let! r := on_tables m in ret match r with Ok _ => ok | Err e => codeOf e end.

Definition AddMember_handler (tenantID callerID roleID : Z) (req : AddMemberRequest) : HOp HReply :=
  if negb (binds req) then ret (HFail 400 40001) else
  let! blocked := checkAssignAllowed tenantID callerID roleID req in
  match blocked with
  | Some _ => ret (HFail 403 40300)
  | None => answer HCreated (AddMember scope validators superAdmin callerID roleID req)
  end.

(** The ids of the body, already parsed. *)
Definition SetPermissions_handler (tenantID callerID roleID : Z) (permIDs : list Z) : HOp HReply :=
  let! blocked := checkSetPermissionsAllowed tenantID callerID roleID permIDs in
  match blocked with
  | Some _ => ret (HFail 403 40300)
  | None => answer HOK (SetRolePermissions scope roleID permIDs)
  end.

Definition RemoveMember_handler (callerID roleID mid : Z) : HOp HReply := answer HOK (RemoveMember scope superAdmin callerID roleID mid).
Definition CreateRole_handler (tenantID : Z) (req : CreateRoleRequest) : HOp HReply := answer HCreated (CreateRole scope defaultTenant tenantID req).
Definition UpdateRole_handler (id : Z) (req : UpdateRoleRequest) : HOp HReply := answer HOK (UpdateRole scope id req).
Definition DeleteRole_handler (id : Z) : HOp HReply := answer HOK (DeleteRole scope id).
End Handlers.
End Wiring.
Arguments PodDB G {_}.
Arguments AuthzSvc G {_}.

(** ** authz_console.go *)

Definition consoleProtectedRoutes : list (string * string) := [
  ("DELETE", "/api/v1/console/access-eligibilities/:id");
  ("DELETE", "/api/v1/console/app-groups/:id");
  ("DELETE", "/api/v1/console/app-groups/:id/access-policies/:policy_id");
  ("DELETE", "/api/v1/console/app-groups/:id/apps/:aid");
  ("DELETE", "/api/v1/console/app-groups/:id/role-bindings/:binding_id");
  ("DELETE", "/api/v1/console/app-groups/:id/roles/:role_id");
  ("DELETE", "/api/v1/console/apps/:id");
  ("DELETE", "/api/v1/console/apps/:id/access-policies/:policy_id");
  ("DELETE", "/api/v1/console/apps/:id/certs/:cid");
  ("DELETE", "/api/v1/console/apps/:id/role-bindings/:binding_id");
  ("DELETE", "/api/v1/console/apps/:id/roles/:role_id");
  ("DELETE", "/api/v1/console/groups/:id");
  ("DELETE", "/api/v1/console/groups/:id/members/:uid");
  ("DELETE", "/api/v1/console/groups/:id/members/batch");
  ("DELETE", "/api/v1/console/groups/:id/rule");
  ("DELETE", "/api/v1/console/orgs/:id");
  ("DELETE", "/api/v1/console/orgs/:id/members/:uid");
  ("DELETE", "/api/v1/console/roles/:id");
  ("DELETE", "/api/v1/console/roles/:id/members/:mid");
  ("DELETE", "/api/v1/console/tenants/:id");
  ("DELETE", "/api/v1/console/users/:id");
  ("DELETE", "/api/v1/console/users/:id/identities/:iid");
  ("DELETE", "/api/v1/console/users/:id/mfa/:type");
  ("DELETE", "/api/v1/console/users/:id/sessions");
  ("DELETE", "/api/v1/console/users/:id/sessions/:sid");
  ("GET", "/api/v1/console/access-eligibilities");
  ("GET", "/api/v1/console/access-requests");
  ("GET", "/api/v1/console/app-groups");
  ("GET", "/api/v1/console/app-groups/:id/access-policies");
  ("GET", "/api/v1/console/app-groups/:id/apps");
  ("GET", "/api/v1/console/app-groups/:id/member-apps-roles");
  ("GET", "/api/v1/console/app-groups/:id/role-bindings");
  ("GET", "/api/v1/console/app-groups/:id/roles");
  ("GET", "/api/v1/console/app-templates");
  ("GET", "/api/v1/console/app-templates/:key");
  ("GET", "/api/v1/console/apps");
  ("GET", "/api/v1/console/apps/env-options");
  ("GET", "/api/v1/console/apps/:id");
  ("GET", "/api/v1/console/apps/:id/access-policies");
  ("GET", "/api/v1/console/apps/:id/certs");
  ("GET", "/api/v1/console/apps/:id/config");
  ("GET", "/api/v1/console/apps/:id/provisioning");
  ("GET", "/api/v1/console/apps/:id/quickstart/:lang");
  ("GET", "/api/v1/console/apps/:id/role-bindings");
  ("GET", "/api/v1/console/apps/:id/roles");
  ("GET", "/api/v1/console/audit/logs");
  ("GET", "/api/v1/console/audit/stats");
  ("GET", "/api/v1/console/dashboard/export");
  ("GET", "/api/v1/console/dashboard/overview");
  ("GET", "/api/v1/console/groups");
  ("GET", "/api/v1/console/groups/:id");
  ("GET", "/api/v1/console/groups/:id/app-role-bindings");
  ("GET", "/api/v1/console/groups/:id/members");
  ("GET", "/api/v1/console/groups/:id/rule");
  ("GET", "/api/v1/console/groups/rule-fields");
  ("GET", "/api/v1/console/offboarding/tasks");
  ("GET", "/api/v1/console/offboarding/tasks/:id/items");
  ("GET", "/api/v1/console/orgs");
  ("GET", "/api/v1/console/orgs/:id");
  ("GET", "/api/v1/console/orgs/:id/members");
  ("GET", "/api/v1/console/permissions");
  ("GET", "/api/v1/console/roles");
  ("GET", "/api/v1/console/roles/:id");
  ("GET", "/api/v1/console/roles/:id/members");
  ("GET", "/api/v1/console/roles/:id/permissions");
  ("GET", "/api/v1/console/settings/audit-policy");
  ("GET", "/api/v1/console/settings/branding");
  ("GET", "/api/v1/console/settings/conditional-access");
  ("GET", "/api/v1/console/settings/external-urls");
  ("GET", "/api/v1/console/settings/license");
  ("GET", "/api/v1/console/settings/localization");
  ("GET", "/api/v1/console/settings/login-methods");
  ("GET", "/api/v1/console/settings/mail/smtp");
  ("GET", "/api/v1/console/settings/mail/templates");
  ("GET", "/api/v1/console/settings/mfa");
  ("GET", "/api/v1/console/settings/offboarding-webhook");
  ("GET", "/api/v1/console/settings/protocol-defaults");
  ("GET", "/api/v1/console/settings/security");
  ("GET", "/api/v1/console/settings/sms");
  ("GET", "/api/v1/console/system/version");
  ("GET", "/api/v1/console/users");
  ("GET", "/api/v1/console/users/:id");
  ("GET", "/api/v1/console/users/:id/app-role-bindings");
  ("GET", "/api/v1/console/users/:id/detail");
  ("GET", "/api/v1/console/users/:id/groups");
  ("GET", "/api/v1/console/users/:id/identities");
  ("GET", "/api/v1/console/users/:id/identities/deleted");
  ("GET", "/api/v1/console/users/:id/login-history");
  ("GET", "/api/v1/console/users/:id/mfa");
  ("GET", "/api/v1/console/users/:id/orgs");
  ("GET", "/api/v1/console/users/:id/roles");
  ("GET", "/api/v1/console/users/:id/sessions");
  ("POST", "/api/v1/console/access-eligibilities");
  ("POST", "/api/v1/console/access-requests/:id/approve");
  ("POST", "/api/v1/console/access-requests/:id/reject");
  ("POST", "/api/v1/console/access-requests/:id/revoke");
  ("POST", "/api/v1/console/app-groups");
  ("POST", "/api/v1/console/app-groups/:id/access-policies");
  ("POST", "/api/v1/console/app-groups/:id/access-policies/batch");
  ("POST", "/api/v1/console/app-groups/:id/apps");
  ("POST", "/api/v1/console/app-groups/:id/role-bindings");
  ("POST", "/api/v1/console/app-groups/:id/roles");
  ("POST", "/api/v1/console/apps");
  ("POST", "/api/v1/console/apps/:id/access-policies");
  ("POST", "/api/v1/console/apps/:id/access-policies/batch");
  ("POST", "/api/v1/console/apps/:id/certs");
  ("POST", "/api/v1/console/apps/:id/regenerate-secret");
  ("POST", "/api/v1/console/apps/:id/emergency-revoke");
  ("POST", "/api/v1/console/apps/:id/role-bindings");
  ("POST", "/api/v1/console/apps/:id/roles");
  ("POST", "/api/v1/console/apps/:id/rotate-signing-key");
  ("POST", "/api/v1/console/apps/:id/saml/import-metadata");
  ("POST", "/api/v1/console/groups");
  ("POST", "/api/v1/console/groups/:id/members");
  ("POST", "/api/v1/console/groups/:id/members/batch");
  ("POST", "/api/v1/console/groups/:id/sync");
  ("POST", "/api/v1/console/offboarding/items/:id/done");
  ("POST", "/api/v1/console/orgs");
  ("POST", "/api/v1/console/orgs/:id/members");
  ("POST", "/api/v1/console/roles");
  ("POST", "/api/v1/console/roles/:id/members");
  ("POST", "/api/v1/console/settings/mail/smtp/test");
  ("POST", "/api/v1/console/system/version/check");
  ("POST", "/api/v1/console/upload/app-icon");
  ("POST", "/api/v1/console/upload/brand-logo");
  ("POST", "/api/v1/console/users");
  ("POST", "/api/v1/console/users/:id/identities/:iid/restore");
  ("POST", "/api/v1/console/users/:id/lock");
  ("POST", "/api/v1/console/users/:id/mfa/lockout/clear");
  ("POST", "/api/v1/console/users/:id/offboard");
  ("POST", "/api/v1/console/users/:id/restore");
  ("POST", "/api/v1/console/users/:id/unlock");
  ("POST", "/api/v1/console/users/batch");
  ("PUT", "/api/v1/console/access-eligibilities/:id");
  ("PUT", "/api/v1/console/app-groups/:id");
  ("PUT", "/api/v1/console/app-groups/:id/roles/:role_id");
  ("PUT", "/api/v1/console/apps/:id");
  ("PUT", "/api/v1/console/apps/:id/config");
  ("PATCH", "/api/v1/console/apps/:id/config");
  ("PUT", "/api/v1/console/apps/:id/provisioning");
  ("PUT", "/api/v1/console/apps/:id/roles/:role_id");
  ("PUT", "/api/v1/console/apps/:id/status");
  ("PUT", "/api/v1/console/groups/:id");
  ("PUT", "/api/v1/console/groups/:id/rule");
  ("PUT", "/api/v1/console/orgs/:id");
  ("PUT", "/api/v1/console/orgs/:id/move");
  ("PUT", "/api/v1/console/roles/:id");
  ("PUT", "/api/v1/console/roles/:id/permissions");
  ("PUT", "/api/v1/console/settings/audit-policy");
  ("PUT", "/api/v1/console/settings/branding");
  ("PUT", "/api/v1/console/settings/conditional-access");
  ("PUT", "/api/v1/console/settings/external-urls");
  ("PUT", "/api/v1/console/settings/license");
  ("PUT", "/api/v1/console/settings/localization");
  ("PUT", "/api/v1/console/settings/login-methods");
  ("PUT", "/api/v1/console/settings/mail/smtp");
  ("PUT", "/api/v1/console/settings/mail/templates");
  ("PUT", "/api/v1/console/settings/mfa");
  ("PUT", "/api/v1/console/settings/offboarding-webhook");
  ("PUT", "/api/v1/console/settings/protocol-defaults");
  ("PUT", "/api/v1/console/settings/security");
  ("PUT", "/api/v1/console/settings/sms");
  ("PUT", "/api/v1/console/tenants/:id");
  ("PUT", "/api/v1/console/users/:id");
  ("PUT", "/api/v1/console/users/:id/detail");
  ("PUT", "/api/v1/console/users/:id/password");
  ("PUT", "/api/v1/console/users/:id/status");
  ("PUT", "/api/v1/console/users/:id/super-admin")
]%string.

Definition registerConsoleAuthz (r : routeRegistry) : routeRegistry :=
  let r := AllowPublicPrefix "/api/v1/console/profile" r in
  let r := AllowPublicPrefix "/api/v1/console/security/" r in
  let r := AllowPublic "GET" "/api/v1/console/tenants" r in
  let r := AllowPublic "GET" "/api/v1/console/tenants/:id" r in
  foldl (fun r p => Protect p.1 p.2 "" r) r consoleProtectedRoutes.
