(* ===== verification/PermProps.v ===== *)
(** * PermProps: what the operations on roles keep and do

    The constraints of the tables (which are the database's own) hold after every operation, whatever fails; the permissions of a
    role are replaced as a whole or not at all; a deleted role is gone from every user; a tenant
    keeps a super administrator. *)

From stdpp Require Import sorting.
From S2P Require Import Redis Authz Prelude Statements Text GroupRule GroupSync Access Org OrgProps Perm PermEffective.
#[global] Open Scope Z_scope.

Section Props.
Context {G : Type} `{!IdGen G}.
Abbreviation W := (PWorld G).
Implicit Types w : W.

(** Primary keys, unique constraints and foreign keys of migrations 000006 and 000016. *)
Record perm_inv w : Prop := {
  role_key : forall i r, roles w !! i = Some r -> ro_ID r = i;
  role_code : forall i j r r', roles w !! i = Some r -> roles w !! j = Some r' -> ro_TenantID r = ro_TenantID r' -> ro_Code r = ro_Code r' -> i = j;
  pm_key : forall i p, perms w !! i = Some p -> pm_ID p = i;
  rp_key : forall i rp, role_perms w !! i = Some rp -> rpm_ID rp = i;
  rp_refs : forall i rp, role_perms w !! i = Some rp -> is_Some (roles w !! rpm_RoleID rp) /\ is_Some (perms w !! rpm_PermissionID rp);
  rp_unique : forall i j p q, role_perms w !! i = Some p -> role_perms w !! j = Some q ->
    rpm_RoleID p = rpm_RoleID q -> rpm_PermissionID p = rpm_PermissionID q -> i = j;
  bd_refs : forall i b, rbindings w !! i = Some b -> is_Some (roles w !! rb_role_id (bd_row b));
  bd_unique : forall i j b c, rbindings w !! i = Some b -> rbindings w !! j = Some c -> binding_key (bd_row b) = binding_key (bd_row c) -> i = j
}.

(** The tables the invariant is about. *)
Definition same_tables w w' : Prop :=
  roles w' = roles w /\ perms w' = perms w /\ role_perms w' = role_perms w /\ rbindings w' = rbindings w.
Lemma perm_inv_same w w' : same_tables w w' -> perm_inv w -> perm_inv w'.
Proof. intros (H1 & H2 & H3 & H4) []. split; rewrite ?H1, ?H2, ?H3, ?H4; auto. Qed.

Lemma keeps_same {A} (m : M (Store W) PErr A) :
  (forall w, on_db (eq w) m (fun w' _ => same_tables w w')) -> keeps perm_inv m.
Proof. intros H s Hs. eapply perm_inv_same; [|exact Hs]. by apply (H (sdb s) s). Qed.

Lemma perm_keeps_on_org {A} (m : M (Store (OWorld G)) OErr A) : keeps perm_inv (on_org m).
Proof.
  apply keeps_same. intros w s ->. unfold on_org. destruct (m _) as [s' x]. by split_and!.
Qed.
Lemma keeps_perm_publish e : keeps perm_inv (publish (G:=G) e).
Proof. apply keeps_same. intros w. apply on_db_write. by intros d <-. Qed.
Lemma keeps_or_nil {A} I (m : M (Store W) PErr (list A)) : keeps I m -> keeps I (or_nil m).
Proof. intros Hm. apply keeps_attempt; [done|]. intros x. apply keeps_ret. Qed.
#[local] Hint Resolve perm_keeps_on_org keeps_perm_publish : mxid.

Lemma keeps_match_res {A B} I (k1 : A -> M (Store W) PErr B) (k2 : PErr -> M (Store W) PErr B) (x : res PErr A) :
  (forall a, keeps I (k1 a)) -> (forall e, keeps I (k2 e)) -> keeps I (match x with Ok a => k1 a | Err e => k2 e end).
Proof. destruct x; auto. Qed.

(** Structure of the operations: binds, attempts, cases. *)
Ltac keeps_perm :=
  repeat (lazymatch goal with |- keeps _ (Statements.exec_or _ _) => fail | |- _ => idtac end; first
    [ apply keeps_bind; [|intros ?] | apply keeps_attempt; [|intros ?] | apply keeps_ret | apply keeps_throw | apply keeps_guard | apply keeps_query
    | apply keeps_gets | apply keeps_select | apply perm_keeps_on_org | apply keeps_perm_publish
    | match goal with |- keeps _ (match ?x with _ => _ end) => destruct x end ]).

(** *** Writes *)

Lemma insert_role_inv r w w' : insert_role r w = Ok w' -> perm_inv w -> perm_inv w'.
Proof.
  unfold insert_role. case_bool_decide as Hid; [done|]. case_bool_decide as Hall; [|done]. intros [= <-] [].
  apply eq_None_not_Some in Hid. split; cbn; try done.
  - intros i r'. rewrite lookup_insert_Some. intros [[<- <-]|[_ H]]; eauto.
  - intros i j r1 r2. rewrite !lookup_insert_Some. intros [[<- <-]|[Hi H1]] [[<- <-]|[Hj H2]] Ht Hc; try done.
    + exfalso. by apply (Hall j r2 H2).
    + exfalso. by apply (Hall i r1 H1).
    + eauto.
  - intros i rp H. destruct (rp_refs0 i rp H) as [H1 H2]. split; [|done]. by apply lookup_insert_is_Some'; right.
  - intros i b H. apply lookup_insert_is_Some'. right. eauto.
Qed.

Lemma update_role_inv r r0 w :
  roles w !! ro_ID r = Some r0 -> ro_TenantID r = ro_TenantID r0 -> ro_Code r = ro_Code r0 -> perm_inv w -> perm_inv (with_roles <[ro_ID r := r]> w).
Proof.
  intros Hr Ht Hc []. split; cbn; try done.
  - intros i r'. rewrite lookup_insert_Some. intros [[<- <-]|[_ H]]; eauto.
  - intros i j r1 r2. rewrite !lookup_insert_Some. intros [[<- <-]|[Hi H1]] [[<- <-]|[Hj H2]] Ht' Hc'; [done | | | by eapply role_code0].
    + eapply role_code0; [exact Hr | exact H2 | congruence | congruence].
    + eapply role_code0; [exact H1 | exact Hr | congruence | congruence].
  - intros i rp H. destruct (rp_refs0 i rp H) as [H1 H2]. split; [|done]. by apply lookup_insert_is_Some'; right.
  - intros i b H. apply lookup_insert_is_Some'. right. eauto.
Qed.

Lemma delete_role_inv scope id w : perm_inv w -> perm_inv (delete_role scope id w).
Proof.
  unfold delete_role. destruct (roles w !! id) as [r|]; [|done]. destruct (match scope with Some t => _ | None => true end); [|done].
  intros []. split; cbn.
  - intros i r' H. apply lookup_delete_Some in H as [_ H]. eauto.
  - intros i j r1 r2 H1 H2. apply lookup_delete_Some in H1 as [_ H1], H2 as [_ H2]. eauto.
  - eauto.
  - intros i rp H. apply map_lookup_filter_Some in H as [H _]. eauto.
  - intros i rp H. apply map_lookup_filter_Some in H as [H Hne]. cbn in Hne. rewrite lookup_delete_ne by done. eauto.
  - intros i j p q H1 H2. apply map_lookup_filter_Some in H1 as [H1 _], H2 as [H2 _]. eauto.
  - intros i b H. apply map_lookup_filter_Some in H as [H Hne]. cbn in Hne. rewrite lookup_delete_ne by done. eauto.
  - intros i j b c H1 H2. apply map_lookup_filter_Some in H1 as [H1 _], H2 as [H2 _]. eauto.
Qed.

Lemma insert_binding_inv id b w w' : insert_binding id b w = Ok w' -> perm_inv w -> perm_inv w'.
Proof.
  unfold insert_binding. case_bool_decide as Hid; [done|]. case_bool_decide as Hr; [|done]. cbn [negb]. case_bool_decide as Hall; [|done].
  intros [= <-] []. split; cbn; try done.
  - intros i b'. rewrite lookup_insert_Some. intros [[<- <-]|[_ H]]; eauto.
  - intros i j b1 b2. rewrite !lookup_insert_Some. intros [[<- <-]|[Hi H1]] [[<- <-]|[Hj H2]] Hk; try done.
    + exfalso. by apply (Hall j b2 H2).
    + exfalso. by apply (Hall i b1 H1).
    + eauto.
Qed.

Lemma remove_binding_inv id w : perm_inv w -> perm_inv (with_rbindings (delete id) w).
Proof.
  intros []. split; cbn; try done.
  - intros i b H. apply lookup_delete_Some in H as [_ H]. eauto.
  - intros i j b c H1 H2. apply lookup_delete_Some in H1 as [_ H1], H2 as [_ H2]. eauto.
Qed.

Lemma clear_perms_inv roleID w : perm_inv w -> perm_inv (with_role_perms (filter (fun p : Z * RolePermission => rpm_RoleID p.2 <> roleID)) w).
Proof.
  intros []. split; cbn; try done.
  - intros i rp H. apply map_lookup_filter_Some in H as [H _]. eauto.
  - intros i rp H. apply map_lookup_filter_Some in H as [H _]. eauto.
  - intros i j p q H1 H2. apply map_lookup_filter_Some in H1 as [H1 _], H2 as [H2 _]. eauto.
Qed.

Lemma insert_role_perm_inv rp w w' : insert_role_perm rp w = Ok w' -> perm_inv w -> perm_inv w'.
Proof.
  unfold insert_role_perm. case_bool_decide as Hid; [done|]. case_bool_decide as Hrefs; [|done]. cbn [negb]. case_bool_decide as Hall; [|done].
  intros [= <-] []. split; cbn; try done.
  - intros i rp'. rewrite lookup_insert_Some. intros [[<- <-]|[_ H]]; eauto.
  - intros i rp'. rewrite lookup_insert_Some. intros [[<- <-]|[_ H]]; [done | eauto].
  - intros i j p q. rewrite !lookup_insert_Some. intros [[<- <-]|[Hi H1]] [[<- <-]|[Hj H2]] Ha Hb; try done.
    + exfalso. by apply (Hall j q H2).
    + exfalso. by apply (Hall i p H1).
    + eauto.
Qed.
Lemma insert_role_perms_inv rps w w' : insert_role_perms rps w = Ok w' -> perm_inv w -> perm_inv w'.
Proof.
  revert w. induction rps as [|rp rps IH]; intros w; cbn; [by intros [= <-]|].
  destruct (insert_role_perm rp w) as [w1|] eqn:H1; [|done]. intros H2 Hw. eapply IH; [exact H2|]. by eapply insert_role_perm_inv.
Qed.

Lemma keeps_SetSuperAdmin scope actor t target v : keeps perm_inv (SetSuperAdmin (G:=G) scope actor t target v).
Proof.
  unfold SetSuperAdmin, user_GetByID, CountSuperAdmins, user_repo_SetSuperAdmin. keeps_perm; try done.
  all: apply keeps_write; intros d; by apply perm_inv_same.
Qed.

Lemma keeps_GetRole scope id : keeps perm_inv (GetRole (G:=G) scope id).
Proof. unfold GetRole, repo_GetRoleByID. keeps_perm. Qed.

(** What a role that was read is. *)
Lemma GetRole_found scope id w :
  on_db (eq w) (GetRole scope id) (fun w' r => w' = w /\ match r with Ok ro => roles w !! id = Some ro /\ role_in_scope scope ro = true | Err _ => True end).
Proof.
  unfold GetRole. eapply on_db_attempt with (R := fun w' r => w' = w /\ match r with Ok ro => roles w !! id = Some ro /\ role_in_scope scope ro = true | Err _ => True end).
  - unfold repo_GetRoleByID. eapply on_db_bind with (R := fun w' r => w' = w /\ match r with Ok w1 => w1 = w | Err _ => True end).
    + apply on_db_query; by intros d <-.
    + intros w1. apply (on_db_pre _ _ _ (w1 = w)); [by intros d [_ ?]|]. intros ->.
      destruct (roles w !! id) as [r|] eqn:Hr; [destruct (role_in_scope scope r) eqn:Hs|]; [apply on_db_ret | apply on_db_throw..]; by intros d [-> _].
    + by intros d e [-> _].
  - intros x. destruct x as [r|e]; [apply on_db_ret; by intros d|]. destruct e; apply on_db_throw; by intros d [-> _].
Qed.

Lemma keeps_UpdateRole scope id req : keeps perm_inv (UpdateRole (G:=G) scope id req).
Proof.
  unfold UpdateRole. apply on_db_eq. intros w Hw. eapply on_db_bind; [apply GetRole_found| |by intros d e [-> _]].
  intros r. apply (on_db_pre _ _ _ (roles w !! id = Some r)); [by intros d [_ [? _]]|]. intros Hr.
  eapply on_db_weaken with (P' := eq w) (Q' := fun d _ => perm_inv d); [|by intros d [-> _] | done].
  eapply on_db_bind with (R := fun d _ => d = w); [by intros s -> | |by intros d e ->].
  intros t. eapply on_db_bind with (R := fun d _ => perm_inv d).
  - unfold repo_UpdateRole. apply on_db_exec; intros d ->; [|done]. pose proof (role_key _ Hw _ _ Hr) as Hk.
    by eapply (update_role_inv _ r); [cbn; rewrite Hk | | |].
  - intros ?. change (keeps perm_inv (let! _ := publish (RoleUpdated (ro_ID r)) in ret (mkRole (ro_ID r) (ro_TenantID r)
      (default (ro_Name r) (ur_Name req)) (ro_Code r) (ro_Type r) (ro_CreatedAt r) t (ro_Deleted r)) : M (Store W) PErr Role)). keeps_perm.
  - done.
Qed.

Lemma keeps_validateRef scope ty id e : keeps perm_inv (validateRef (G:=G) (refValidators scope) ty id e).
Proof.
  unfold validateRef, refValidators, existsInTenant, user_GetByID, group_GetByID. cbn [v_User v_Group v_Org]. keeps_perm.
Qed.

Lemma keeps_new_rows roleID t pids : keeps perm_inv (new_rows (G:=G) roleID t pids).
Proof. induction pids as [|p ps IH]; cbn; unfold new_id; keeps_perm. exact IH. Qed.

Lemma keeps_SetRolePermissions scope roleID pids : keeps perm_inv (SetRolePermissions (G:=G) scope roleID pids).
Proof.
  unfold SetRolePermissions, repo_GetPermissionsByIDs. apply keeps_bind; [apply keeps_GetRole|]. intros _.
  apply keeps_bind; [keeps_perm|]. intros _. apply keeps_bind; [apply keeps_gets|]. intros t.
  apply keeps_bind; [apply keeps_new_rows|]. intros rps. apply keeps_bind; [|intros ?; keeps_perm].
  unfold repo_SetRolePermissions. apply keeps_txn. apply keeps_bind; [apply keeps_exec, clear_perms_inv|]. intros _.
  case_bool_decide; [apply keeps_ret|]. apply keeps_exec_or. intros d d' Hd Hi. by eapply insert_role_perms_inv.
Qed.

Lemma keeps_CreateRole scope dt t req : keeps perm_inv (CreateRole (G:=G) scope dt t req).
Proof.
  unfold CreateRole, repo_GetRoleByCode, repo_CreateRole, new_id, time_now. keeps_perm.
  all: apply keeps_exec_or; intros d d' Hd Hi; by eapply insert_role_inv.
Qed.

Lemma keeps_DeleteRole scope id : keeps perm_inv (DeleteRole (G:=G) scope id).
Proof.
  unfold DeleteRole. apply keeps_bind; [apply keeps_GetRole|]. intros r. apply keeps_bind; [apply keeps_guard|]. intros _.
  apply keeps_bind; [apply keeps_exec; intros d; apply delete_role_inv|]. intros _. keeps_perm.
Qed.

Lemma perm_keeps_AddMember scope sa actor roleID req : keeps perm_inv (AddMember (G:=G) scope (refValidators scope) sa actor roleID req).
Proof.
  unfold AddMember. apply keeps_bind; [apply keeps_GetRole|]. intros r. case_bool_decide.
  - unfold grantSuperAdmin. repeat (apply keeps_bind; [first [apply keeps_guard | apply keeps_validateRef | apply keeps_SetSuperAdmin | apply keeps_gets]|intros ?]).
    apply keeps_ret.
  - apply keeps_bind; [apply keeps_guard|]. intros _. apply keeps_bind; [apply keeps_validateRef|]. intros _. apply keeps_bind.
    { destruct (am_ScopeType req), (am_ScopeID req); first [apply keeps_validateRef | apply keeps_ret]. }
    intros _. apply keeps_bind; [apply perm_keeps_on_org|]. intros id. apply keeps_bind; [apply keeps_gets|]. intros t.
    apply keeps_bind; [apply keeps_exec_or; intros d d' Hd Hi; by eapply insert_binding_inv|]. intros _. keeps_perm.
Qed.

Lemma perm_keeps_RemoveMember scope sa actor roleID mid : keeps perm_inv (RemoveMember (G:=G) scope sa actor roleID mid).
Proof.
  unfold RemoveMember. apply keeps_bind; [apply keeps_GetRole|]. intros r. case_bool_decide.
  - apply keeps_bind; [apply keeps_guard | intros _; apply keeps_SetSuperAdmin].
  - apply keeps_attempt; [|intros x; keeps_perm]. unfold repo_RemoveMember. apply keeps_bind; [apply keeps_query|]. intros w.
    apply keeps_bind; [apply keeps_write, remove_binding_inv | intros ?; apply keeps_guard].
Qed.

(** ** Permissions of a role are replaced as a whole *)

Lemma insert_role_perms_rows rps w w' :
  insert_role_perms rps w = Ok w' -> roles w' = roles w /\ perms w' = perms w /\
  forall i rp, role_perms w' !! i = Some rp <-> role_perms w !! i = Some rp \/ rp ∈ rps /\ rpm_ID rp = i.
Proof.
  revert w. induction rps as [|rp0 rps IH]; intros w; cbn.
  { intros [= <-]. split_and!; [done..|]. intros i rp. split; [by left|]. by intros [?|[?%elem_of_nil _]]. }
  unfold insert_role_perm. case_bool_decide as Hid; [done|]. case_bool_decide; [|done]. cbn [negb]. case_bool_decide; [|done]. intros Hr.
  destruct (IH _ Hr) as (H1 & H2 & H3). split_and!; [done..|]. intros i rp. rewrite H3. cbn. rewrite lookup_insert_Some, elem_of_cons.
  apply eq_None_not_Some in Hid. split; [naive_solver|]. intros [Hrp|[[->|Hin] <-]]; [left | left; by left | by right].
  right. split; [|done]. intros <-. congruence.
Qed.

Lemma new_rows_spec roleID t pids w :
  on_db (same_tables w) (new_rows roleID t pids) (fun w' r =>
    same_tables w w' /\ match r with Ok rows => rpm_PermissionID <$> rows = pids /\ Forall (fun rp => rpm_RoleID rp = roleID) rows | Err _ => True end).
Proof.
  induction pids as [|p ps IH]; cbn [new_rows]; [by apply on_db_ret|].
  eapply on_db_bind with (R := fun w' _ => same_tables w w').
  { intros s Hs. unfold new_id, on_org. destruct (Org.new_id _) as [s' x]. exact Hs. }
  2: { by intros d e Hd. }
  intros id. eapply on_db_bind; [exact IH| |by intros d e [? _]].
  intros rows. apply on_db_ret. intros d (Hd & <- & Hall). split; [done|]. split; [done|]. by constructor.
Qed.

(** As many rows as ids were found, so the ids are distinct and all there. *)
Lemma found_all scope pids w :
  perm_inv w ->
  length (filter (fun p => pm_ID p ∈ pids /\ perm_in_scope scope p = true) (map_to_list (perms w)).*2) = length pids ->
  NoDup pids /\ forall pid, pid ∈ pids -> exists p, perms w !! pid = Some p /\ perm_in_scope scope p = true.
Proof.
  intros Hw Hlen. set (found := filter _ _) in Hlen.
  assert (NoDup (pm_ID <$> found)) as Hnd by (apply NoDup_keyed; by intros i x; apply pm_key).
  assert (pm_ID <$> found ≡ₚ pids) as Hp.
  { apply submseteq_length_Permutation; [|by rewrite length_fmap, Hlen]. apply NoDup_submseteq; [done|]. intros x Hx.
    apply list_elem_of_fmap in Hx as (p & -> & Hp). unfold found in Hp. by apply list_elem_of_filter in Hp as [[? _] _]. }
  split; [by rewrite <- Hp|]. intros pid Hpid. rewrite <- Hp in Hpid. apply list_elem_of_fmap in Hpid as (p & -> & Hin).
  unfold found in Hin. apply list_elem_of_filter in Hin as [[_ Hs] Hin]. apply list_elem_of_fmap in Hin as ([i p'] & -> & Hin).
  apply elem_of_map_to_list in Hin. exists p'. cbn. by rewrite (pm_key _ Hw _ _ Hin).
Qed.

Definition holds_perm w (roleID pid : Z) : Prop :=
  exists i rp, role_perms w !! i = Some rp /\ rpm_RoleID rp = roleID /\ rpm_PermissionID rp = pid.

(** What replacing the rows leaves, when it goes through; when it does not, nothing changed. *)
Lemma replace_rows roleID pids rps w :
  rpm_PermissionID <$> rps = pids -> Forall (fun rp => rpm_RoleID rp = roleID) rps ->
  on_db (same_tables w) (repo_SetRolePermissions roleID rps) (fun w' r =>
    match r with
    | Ok _ => (forall pid, holds_perm w' roleID pid <-> pid ∈ pids)
              /\ (forall i rp, rpm_RoleID rp <> roleID -> role_perms w' !! i = Some rp <-> role_perms w !! i = Some rp)
    | Err _ => role_perms w' = role_perms w
    end).
Proof.
  intros Hids Hroles. unfold repo_SetRolePermissions. apply on_db_txn; [|by intros d (_ & _ & ? & _)].
  intros d (_ & _ & Hd & _).
  eapply on_db_bind with (R := fun d' r => match r with Ok _ => d' = with_role_perms (filter (fun p : Z * RolePermission => rpm_RoleID p.2 <> roleID)) d | Err _ => True end).
  { apply on_db_exec; by intros ? <-. }
  2: done.
  intros _. case_bool_decide as Hnil.
  - apply on_db_ret. intros d' ->. rewrite <- Hids, Hnil. cbn. split.
    + intros pid. split; [|by intros ?%elem_of_nil]. intros (i & rp & Hi & Hr & _). apply map_lookup_filter_Some in Hi as [_ Hne]. done.
    + intros i rp Hr. rewrite <- Hd, map_lookup_filter_Some. cbn. naive_solver.
  - apply on_db_exec_or; [|by intros ? ? ? ? | done]. intros d' d2 -> Hi. apply insert_role_perms_rows in Hi as (_ & _ & Hrows). split.
    + intros pid. split.
      * intros (i & rp & Hi & Hr & Hp). apply Hrows in Hi as [Hi|[Hin _]].
        { apply map_lookup_filter_Some in Hi as [_ Hne]. done. }
        rewrite <- Hids. apply list_elem_of_fmap. by exists rp.
      * rewrite <- Hids. intros Hin. apply list_elem_of_fmap in Hin as (rp & -> & Hin). exists (rpm_ID rp), rp. split_and!; [|by eapply Forall_forall in Hroles|done].
        apply Hrows. by right.
    + intros i rp Hr. rewrite Hrows. cbn. rewrite map_lookup_filter_Some, <- Hd. cbn. split; [|naive_solver].
      intros [[? _]|[Hin _]]; [done|]. by eapply Forall_forall in Hroles.
Qed.

(** SetRolePermissions replaces the permissions of a role by exactly the ids it was given,
    all distinct and all of permissions in the caller's tenant, and touches no other role; or it
    fails, whichever statement failed, and no row has changed. *)
Theorem set_permissions_exact scope roleID pids w :
  perm_inv w -> on_db (eq w) (SetRolePermissions scope roleID pids) (fun w' r =>
    match r with
    | Ok _ => (forall pid, holds_perm w' roleID pid <-> pid ∈ pids)
              /\ (forall i rp, rpm_RoleID rp <> roleID -> role_perms w' !! i = Some rp <-> role_perms w !! i = Some rp)
              /\ NoDup pids /\ (forall pid, pid ∈ pids -> exists p, perms w !! pid = Some p /\ perm_in_scope scope p = true)
    | Err _ => role_perms w' = role_perms w
    end).
Proof.
  intros Hw. unfold SetRolePermissions. eapply on_db_bind; [apply GetRole_found| |by intros d e [-> _]].
  intros ro. eapply on_db_weaken with (P' := eq w); [|by intros d [-> _] | intros d r Hr; exact Hr].
  set (distinct := NoDup pids /\ forall pid, pid ∈ pids -> exists p, perms w !! pid = Some p /\ perm_in_scope scope p = true).
  eapply on_db_bind with (R := fun d r => d = w /\ match r with Ok _ => distinct | Err _ => True end).
  { case_bool_decide as Hnil; [apply on_db_ret; intros d <-; split; [done|]; subst pids; split; [constructor | by intros ? ?%elem_of_nil]|].
    unfold repo_GetPermissionsByIDs. rewrite bool_decide_eq_false_2 by done.
    eapply on_db_bind with (R := fun d r => d = w /\ match r with Ok l => l = filter (fun p => pm_ID p ∈ pids /\ perm_in_scope scope p = true) (map_to_list (perms w)).*2 | Err _ => True end).
    - apply on_db_select; by intros d <-.
    - intros l. apply on_db_guard; intros d [-> ->] Hg; (split; [done|]); [done|]. to_prop. apply Nat.eqb_eq in Hg. by apply found_all.
    - by intros d e [-> _]. }
  2: { by intros d e [-> _]. }
  intros _. apply (on_db_pre _ _ _ distinct); [by intros d [_ ?]|]. intros Hdis.
  eapply on_db_weaken with (P' := eq w); [|by intros d [-> _] | intros d r Hr; exact Hr].
  eapply on_db_bind with (R := fun d _ => same_tables w d); [by intros s -> | |by intros d e (_ & _ & ? & _)].
  intros t. eapply on_db_bind; [apply new_rows_spec| |by intros d e [(_ & _ & ? & _) _]].
  intros rps. apply (on_db_pre _ _ _ (rpm_PermissionID <$> rps = pids /\ Forall (fun rp => rpm_RoleID rp = roleID) rps)); [by intros d [_ ?]|].
  intros [Hids Hroles]. eapply on_db_weaken with (P' := same_tables w); [|by intros d [? _] | intros d r Hr; exact Hr].
  eapply on_db_bind; [by apply replace_rows| |by intros d e Hd].
  intros []. apply on_db_write. intros d [H1 H2]. split_and!; [exact H1 | exact H2 | apply Hdis..].
Qed.

(** ** A deleted role is gone *)

Lemma delete_role_gone scope id w :
  on_db (eq w) (DeleteRole scope id) (fun w' r =>
    match r with
    | Ok _ => roles w' !! id = None /\ (forall j, j <> id -> roles w' !! j = roles w !! j)
              /\ forall scope' t u b, b ∈ effective_bindings scope' w' t u -> eb_RoleID b = id -> id = 0
    | Err _ => roles w' = roles w /\ rbindings w' = rbindings w
    end).
Proof.
  unfold DeleteRole. eapply on_db_bind; [apply GetRole_found| |by intros d e [-> _]].
  intros ro. apply (on_db_pre _ _ _ (roles w !! id = Some ro /\ role_in_scope scope ro = true)); [by intros d [_ ?]|]. intros [Hro Hsc].
  eapply on_db_weaken with (P' := eq w); [|by intros d [-> _] | intros d r Hr; exact Hr].
  eapply on_db_bind with (R := fun d _ => d = w); [apply on_db_guard; by intros d -> | |by intros d e ->].
  intros _. unfold repo_DeleteRole.
  eapply on_db_bind with (R := fun d r => match r with Ok _ => d = delete_role scope id w | Err _ => d = w end);
    [apply on_db_exec; by intros d -> | |by intros d e ->].
  intros _. apply on_db_write. intros d ->.
  assert (delete_role scope id w = with_rbindings (filter (fun p : Z * Binding => rb_role_id (bd_row p.2) <> id))
          (with_role_perms (filter (fun p : Z * RolePermission => rpm_RoleID p.2 <> id)) (with_roles (delete id) w))) as ->.
  { unfold delete_role. rewrite Hro. unfold role_in_scope in Hsc. by apply andb_true_iff in Hsc as [_ ->]. }
  cbn. split_and!; [apply lookup_delete_eq | intros j Hj; by rewrite lookup_delete_ne|].
  intros scope' t u b Hb Hid. unfold effective_bindings in Hb. destruct (is_super_admin _ t u).
  - apply list_elem_of_singleton in Hb as ->. by cbn in Hid.
  - apply list_elem_of_fmap in Hb as (row & -> & Hrow). apply elem_of_binding_rows in Hrow as (i & bd & Hi & -> & _). cbn in Hi, Hid.
    apply map_lookup_filter_Some in Hi as [_ Hne]. done.
Qed.

(** ** A tenant keeps a super administrator *)

Definition users_keyed w : Prop := forall i x, users w !! i = Some x -> pu_ID x = i.
Definition administered (tt : Z) w : Prop := users_keyed w /\ exists i x, users w !! i = Some x /\ pu_TenantID x = tt /\ pu_IsSuperAdmin x = true /\ pu_Deleted x = false.

(** Of two super administrators one is not [target]. *)
Lemma another_super scope t target w :
  users_keyed w -> 1 < Z.of_nat (length (super_admins scope t w)) ->
  exists i x, i <> target /\ users w !! i = Some x /\ pu_TenantID x = t /\ pu_IsSuperAdmin x = true /\ pu_Deleted x = false.
Proof.
  intros Hk Hlen. assert (NoDup (pu_ID <$> super_admins scope t w)) as Hnd by (by apply NoDup_keyed).
  assert (exists x, x ∈ super_admins scope t w /\ pu_ID x <> target) as (x & Hx & Hne).
  { destruct (super_admins scope t w) as [|a [|b l]]; cbn in Hlen; [lia | lia|]. cbn in Hnd. apply NoDup_cons in Hnd as [Hnin _].
    destruct (decide (pu_ID a = target)) as [Ha|Ha]; [|exists a; split; [by left | done]].
    exists b. split; [by right; left|]. intros Hb. apply Hnin. rewrite Ha, <- Hb. left. }
  unfold super_admins in Hx. apply list_elem_of_filter in Hx as [(Ht & Hs & Hsc) Hx]. apply list_elem_of_fmap in Hx as ([i x'] & -> & Hx).
  apply elem_of_map_to_list in Hx. exists i, x'. cbn in *. rewrite (Hk _ _ Hx) in Hne. unfold user_in_scope in Hsc. to_prop. done.
Qed.

(** A tenant that has an active super administrator still has one after SetSuperAdmin, for
    whatever user, flag and tenant it is called and whether it succeeds or not. *)
Theorem tenant_keeps_super_admin tt scope actor t target v : keeps (administered tt) (SetSuperAdmin (G:=G) scope actor t target v).
Proof.
  apply on_db_eq. intros w [Hk Hex]. unfold SetSuperAdmin.
  eapply on_db_attempt with (R := fun d r => d = w /\ match r with Ok x => users w !! target = Some x | Err _ => True end).
  { unfold user_GetByID. eapply on_db_bind with (R := fun d r => d = w /\ match r with Ok w1 => w1 = w | Err _ => True end); [apply on_db_query; by intros d <-| |by intros d e [-> _]].
    intros w1. apply (on_db_pre _ _ _ (w1 = w)); [by intros d [_ ?]|]. intros ->. destruct (users w !! target) as [x|]; [destruct (user_in_scope scope x)|];
      [apply on_db_ret | apply on_db_throw..]; by intros d [-> _]. }
  intros [x|e]; [|apply on_db_throw; by intros d [-> _]].
  apply (on_db_pre _ _ _ (users w !! target = Some x)); [by intros d [_ ?]|]. intros Hx.
  eapply on_db_weaken with (P' := eq w); [|by intros d [-> _] | intros d r Hr; exact Hr].
  destruct (Z.eqb_spec (pu_TenantID x) t) as [Ht|]; cbn [negb]; [|apply on_db_throw; by intros d <-].
  destruct (Bool.eqb (pu_IsSuperAdmin x) v); [apply on_db_ret; by intros d <-|].
  eapply on_db_bind with (R := fun d r => d = w /\ match r with Ok _ => v = false -> 1 < Z.of_nat (length (super_admins scope t w)) | Err _ => True end).
  { destruct v; [apply on_db_ret; by intros d <-|].
    eapply on_db_bind with (R := fun d r => d = w /\ match r with Ok n => n = Z.of_nat (length (super_admins scope t w)) | Err _ => True end);
      [apply on_db_select; by intros d <-| |by intros d e [-> _]].
    intros n. apply on_db_guard; intros d [-> ->] Hg; (split; [done|]); [done|]. to_prop. done. }
  2: { by intros d e [-> _]. }
  intros _. apply (on_db_pre _ _ _ (v = false -> 1 < Z.of_nat (length (super_admins scope t w)))); [by intros d [_ ?]|]. intros Hmore.
  eapply on_db_weaken with (P' := eq w); [|by intros d [-> _] | intros d r Hr; exact Hr].
  eapply on_db_bind with (R := fun d _ => administered tt d); [| |done].
  - unfold user_repo_SetSuperAdmin. eapply on_db_bind with (R := fun d r => d = w /\ match r with Ok w1 => w1 = w | Err _ => True end);
      [apply on_db_query; by intros d <-| |by intros d e [-> _]].
    intros w1. apply (on_db_pre _ _ _ (w1 = w)); [by intros d [_ ?]|]. intros ->. rewrite Hx.
    destruct (user_in_scope scope x) eqn:Hsc; [|apply on_db_throw; by intros d [-> _]].
    apply on_db_write. intros d [-> _]. split.
    + intros i y. cbn. rewrite lookup_insert_Some. intros [[<- <-]|[_ Hy]]; [cbn; by apply Hk | by apply Hk].
    + destruct v.
      * destruct Hex as (i & y & Hy & H1 & H2 & H3). destruct (decide (i = target)) as [->|Hne].
        { exists target, (set_flag true x). cbn. rewrite lookup_insert_eq. rewrite Hx in Hy. injection Hy as ->. done. }
        exists i, y. cbn. by rewrite lookup_insert_ne.
      * destruct (decide (tt = t)) as [->|Htt].
        { destruct (another_super scope t target w Hk (Hmore eq_refl)) as (i & y & Hne & Hy & H1). exists i, y. cbn. by rewrite lookup_insert_ne. }
        destruct Hex as (i & y & Hy & H1 & H2). exists i, y. cbn. rewrite lookup_insert_ne; [done|]. intros <-. congruence.
  - intros _. apply on_db_write. intros d [Hk' Hex']. done.
Qed.
End Props.
