(* ===== verification/PermPod.v ===== *)
(** * PermPod: the engine a console request meets, and which requests reach a handler

    The whole path of a decision (a pod's cache, the tables behind it, the organizations, the
    enforcer): what an allowed request means, and that Casbin changes nothing. *)

From Stdlib Require Import Ascii.
From S2P Require Import Redis Authz AuthzProps AuthzCache Prelude Statements Text Access Org Perm PermEffective PermHttp.
#[global] Open Scope Z_scope.

Section Pod.
Context {G : Type} `{!IdGen G} `{!CasbinLib}.
Abbreviation Pod := (Authz.Node (PodDB G)).

Definition tables (d : PodDB G) : PWorld G := sdb (d_store d).

(** Who is above whom, by the paths of the tree. *)
Definition org_above (o : OWorld G) (a d : Z) : bool :=
  (a =? d) || match orgs o !! d, orgs o !! a with Some x, Some y => below (o_Path x) (o_Path y) | _, _ => false end.
Definition pod_above (n : Pod) : Z -> Z -> bool := org_above (porg (tables (n_db n))).
(** The database answers. *)
Definition pod_good (n : Pod) : Prop := healthy_from (d_store (n_db n)).

Lemma ancestry_run a d (n : Pod) :
  exists k, authzOrgAncestry a d n
  = (mkNode (mkPodDB (mkStore (tables (n_db n)) (sfail (d_store (n_db n))) (k + scalls (d_store (n_db n)))) (d_engine (n_db n)))
       (n_redis n) (n_l1 n) (n_out n) (n_purges n),
     if (a =? d) then Ok true else if sfail (d_store (n_db n)) (scalls (d_store (n_db n))) then Err ErrLookup else Ok (pod_above n a d)).
Proof.
  destruct n as [[s e] r l o p]. unfold authzOrgAncestry, on_inner, on_store, IsAncestorOrSelf, repo_IsAncestorOrSelf, tables, pod_above, org_above.
  cbn. destruct (a =? d) eqn:Had.
  - exists 0%nat. cbn. unfold on_org, ret. cbn. rewrite with_porg_same. by destruct s.
  - exists 1%nat. rewrite on_org_select. cbn. by destruct (sfail s (scalls s)).
Qed.

#[export] Instance pod_ancestry useCasbin : OrgTreeLaws authzOrgAncestry (engine_of useCasbin) pod_above pod_good.
Proof.
  split.
  - intros a d n. destruct (ancestry_run a d n) as [k ->]. cbn. split_and!; [done | by destruct useCasbin|].
    unfold pod_good. cbn. intros Hh. apply (healthy_later _ _ _ Hh). lia.
  - intros a d n b. destruct (ancestry_run a d n) as [k ->]. cbn. unfold pod_above, org_above. destruct (a =? d); [by intros [= <-]|].
    destruct (sfail _ _); [done|]. by intros [= <-].
  - intros a d n Hg. destruct (ancestry_run a d n) as [k ->]. cbn. destruct (a =? d); [eauto|]. rewrite (Hg (scalls (d_store (n_db n)))) by lia. eauto.
Qed.

(** ** What an allowed request means *)

Lemma provider_answers scope t u (d : PodDB G) v :
  (authzBindingProvider scope t u d).2 = Ok v -> Forall (warranted scope (tables d) t u) v.
Proof.
  unfold authzBindingProvider, on_store. pose proof (effective_warranted scope t u (tables d) (d_store d) eq_refl) as Hw.
  destruct (EffectiveBindingsForUser scope t u (d_store d)) as [s x]. cbn in *. destruct x; [|done]. intros [= <-]. apply Hw.
Qed.

Lemma grants_round useCasbin (n : Pod) t perm b :
  grants (engine_of useCasbin) n t perm (deserialize (serialize b)) = grants (engine_of useCasbin) n t perm b.
Proof. rewrite l2_roundtrip. unfold grants. by destruct (engine_of useCasbin). Qed.
Lemma covers_round anc target b : covers anc (deserialize (serialize b)) target = covers anc b target.
Proof. by rewrite l2_roundtrip. Qed.

Section Requests.
Context (scope : option Z) (useCasbin : bool).
Context (scan : gmap string (RKey (list serializedBinding)) -> Z -> list string * Z).
Abbreviation Cl := (@Cluster (PodDB G)).
Abbreviation reaches := (reach (authzBindingProvider scope) defaultL1TTL defaultL2TTL scan).
Abbreviation check := (svc_Check true useCasbin scope).

(** C9: whatever messages were lost, statements failed or tables changed, a request that any pod
    allows rests on a binding the tables warranted at most six minutes before (a row in force of the
    user, its groups or its organizations, for a role of the tenant, or the super administrator's
    flag), that is not over at the moment of the request, whose role grants the permission (by
    Casbin or by its own set), and whose scope covers the target in the organizations as they are. *)
Theorem allowed_by_tables lossy h (c : Cl) i t u perm target n :
  reaches lossy h c -> check t u perm target (node_at i c) = (n, Ok true) ->
  exists c0 b n1, c0 ∈ h /\ cl_now c - (defaultL1TTL + defaultL2TTL) <= cl_now c0
    /\ warranted scope (tables (cl_db c0)) t u b /\ expired (cl_now c) b = false
    /\ d_engine (n_db n1) = d_engine (cl_db c) /\ tables (n_db n1) = tables (cl_db c)
    /\ grants (engine_of useCasbin) n1 t perm b = true /\ covers (pod_above n1) b target = true.
Proof.
  intros Hreach Hc. apply (check_sound _ _ _ pod_above pod_good) in Hc as (n1 & binds & b & Hp & Hb & Hok).
  unfold authzBindings in Hp. pose proof Hp as Hp0.
  apply CachedBindings_cases in Hp0 as (Hnow & _ & _ & _ & Hcase); [|vm_compute; done].
  eapply answers_are_recent in Hp as (c0 & Hin & (v0 & Ha & Hv) & Hlim); [|vm_compute; done | vm_compute; done | exact Hreach].
  apply provider_answers in Ha. unfold allows in Hok. to_prop.
  assert (exists b0, b0 ∈ v0 /\ (b = b0 \/ b = deserialize (serialize b0))) as (b0 & Hb0 & Hbb).
  { destruct Hv as [<-|Hv]; [eauto|]. rewrite Hv in Hb. unfold round in Hb. rewrite <- list_fmap_compose in Hb.
    apply list_elem_of_fmap in Hb as (b0 & -> & Hb0). eauto. }
  exists c0, b0, n1. split_and!; [done | done | by eapply Forall_forall | | | | |].
  - assert (node_now n1 = cl_now c) as <- by (unfold cl_now; unfold node_now in *; cbn in Hnow; done).
    destruct Hbb as [->|Hbb]; [done|]. destruct (expired (node_now n1) b0) eqn:He; [|done]. apply round_expires in He. congruence.
  - inversion Hcase as [? ? ? -> | ? ? ? Hdb | ? Hi | ]; subst; [done | by rewrite Hdb |].
    unfold authzBindingProvider, on_store in Hi. cbn in Hi. destruct (EffectiveBindingsForUser _ _ _ _). by injection Hi as <- _.
  - inversion Hcase as [? ? ? -> | ? ? ? Hdb | ? Hi | ]; subst; [done | by rewrite Hdb |].
    unfold authzBindingProvider, on_store in Hi. cbn in Hi.
    pose proof (effective_warranted scope t u (tables (cl_db c)) (d_store (cl_db c)) eq_refl) as [Hw _].
    destruct (EffectiveBindingsForUser _ _ _ _). injection Hi as <- _. exact Hw.
  - destruct Hbb as [<-| ->]; [done|]. by rewrite <- grants_round.
  - destruct Hbb as [<-| ->]; [done|]. by rewrite <- covers_round.
Qed.
End Requests.

(** ** Casbin and the binding's own set *)

(** Nothing cached for the user: the answer is the tables'. *)
Lemma uncached_runs scope t u (n : Pod) :
  pod_good n -> n_l1 n !! cacheKey t u = None -> rkeys (n_redis n) !! cacheKey t u = None ->
  exists n1, authzBindings true scope t u n = (n1, Ok (effective_bindings scope (tables (n_db n)) t u))
    /\ pod_good n1 /\ d_engine (n_db n1) = d_engine (n_db n) /\ tables (n_db n1) = tables (n_db n) /\ node_now n1 = node_now n.
Proof.
  intros Hg Hl Hk. destruct (authzBindings true scope t u n) as [n1 x] eqn:Hr. pose proof Hr as Hr0. unfold authzBindings in Hr0.
  apply CachedBindings_cases in Hr0 as (Hnow & _ & _ & _ & Hcase); [|vm_compute; done]. exists n1.
  destruct (effective_runs scope t u (tables (n_db n)) (d_store (n_db n)) Hg eq_refl) as (k & Hle & Hrun).
  assert (authzBindingProvider scope t u (n_db n)
    = (mkPodDB (mkStore (tables (n_db n)) (sfail (d_store (n_db n))) k) (d_engine (n_db n)), Ok (effective_bindings scope (tables (n_db n)) t u))) as Hp.
  { unfold authzBindingProvider, on_store. by rewrite Hrun. }
  destruct Hcase as [e He _ _|s d Hpk _ _ _|v Hi _ _|e Hi _ _].
  - congruence.
  - apply peek_Some in Hpk as [Hpk _]. congruence.
  - rewrite Hp in Hi. injection Hi as Hdb <-. split_and!; [done | | by rewrite <- Hdb | by rewrite <- Hdb | done].
    unfold pod_good. rewrite <- Hdb. cbn. by apply healthy_later.
  - rewrite Hp in Hi. discriminate Hi.
Qed.

(** C10: with every statement answered and nothing cached for the user, the decision taken
    with Casbin, loaded from the same tables, is the decision taken with the permission set of
    each binding. *)
Theorem casbin_changes_nothing `{!CasbinLaws} scope t u perm target (n : Pod) e :
  pod_good n -> n_l1 n !! cacheKey t u = None -> rkeys (n_redis n) !! cacheKey t u = None ->
  d_engine (n_db n) = Some e -> rebuild (all_policies (tables (n_db n))) (super_tenants (tables (n_db n))) = Ok e ->
  (forall s d o, exists ok, Enforce e s d o = Ok ok) -> roles (tables (n_db n)) !! 0 = None -> perm <> ""%string ->
  (svc_Check true true scope t u perm target n).2 = (svc_Check true false scope t u perm target n).2.
Proof.
  intros Hg Hl Hk He Hreb Hans Hzero Hp. destruct (uncached_runs scope t u n Hg Hl Hk) as (n1 & Hr & Hg1 & He1 & Ht1 & Hn1).
  unfold svc_Check. rewrite !(check_exact _ _ _ pod_above pod_good _ _ _ _ _ _ _ _ Hp Hr Hg1). f_equal.
  assert (Forall (fun b => b ∈ effective_bindings scope (tables (n_db n)) t u) (effective_bindings scope (tables (n_db n)) t u)) as Hall
    by (by apply Forall_forall).
  induction Hall as [|b l Hb _ IH]; [done|]. cbn [existsb]. f_equal; [|exact IH]. unfold allows. f_equal. f_equal.
  unfold grants, engine_of. rewrite He1, He. by eapply casbin_agrees.
Qed.
End Pod.

(** ** which requests reach a handler of the console

    The gateway denies what nobody declared; a handler behind Require runs only for a caller the
    engine allowed, in its own tenant or in one a super administrator switched to. *)

(** ** The registry *)

Definition spaceless (s : string) : bool := all_chars (fun c => negb (bool_decide (c = " "%char))) s.

Lemma routeKey_inj m p m' p' : spaceless m = true -> spaceless m' = true -> routeKey m p = routeKey m' p' -> m = m' /\ p = p'.
Proof. intros H1 H2 H. unfold routeKey in H. by eapply (app_split (fun c => negb (bool_decide (c = " "%char)))) in H. Qed.

Lemma protect_all l r k :
  protected (foldl (fun r p => Protect p.1 p.2 "" r) r l) !! k
  = if bool_decide (k ∈ (fun p => routeKey p.1 p.2) <$> l) then Some ""%string else protected r !! k.
Proof.
  revert r. induction l as [|[m p] l IH]; intros r; cbn [foldl fmap list_fmap]; [done|]. rewrite IH. cbn [protected Protect fst snd].
  destruct (decide (k ∈ (fun p => routeKey p.1 p.2) <$> l)) as [Hin|Hn].
  - rewrite !bool_decide_eq_true_2; [done | by right | done].
  - rewrite bool_decide_eq_false_2 by done. destruct (decide (k = routeKey m p)) as [->|Hne].
    + rewrite lookup_insert_eq, bool_decide_eq_true_2; [done | by left].
    + rewrite lookup_insert_ne by done. rewrite bool_decide_eq_false_2; [done|]. by intros [?|?]%elem_of_cons.
Qed.
Lemma protect_all_rest l r : allow (foldl (fun r p => Protect p.1 p.2 "" r) r l) = allow r /\ allowPfx (foldl (fun r p => Protect p.1 p.2 "" r) r l) = allowPfx r.
Proof. revert r. induction l as [|p l IH]; intros r; cbn [foldl]; [done|]. by destruct (IH (Protect p.1 p.2 "" r)) as [-> ->]. Qed.

Definition console_registry : routeRegistry := registerConsoleAuthz registry0.

Lemma methods_spaceless : forallb (fun p => spaceless p.1) consoleProtectedRoutes = true.
Proof. vm_compute. reflexivity. Qed.

Definition tenant_reads : list (string * string) := [("GET", "/api/v1/console/tenants"); ("GET", "/api/v1/console/tenants/:id")]%string.
Definition self_service (p : string) : bool := HasPrefix p "/api/v1/console/profile" || HasPrefix p "/api/v1/console/security/".

(** With the registry the console is started with, the gateway lets a matched route through
    if and only if it is one of the routes listed as protected, a read of the tenants, or under one
    of the two self-service prefixes; anything else is refused. *)
Theorem console_denies_undeclared m p :
  spaceless m = true -> p <> ""%string ->
  Gateway false console_registry m p
  = if bool_decide ((m, p) ∈ consoleProtectedRoutes ++ tenant_reads) || self_service p then Next else Abort 403 40301.
Proof.
  intros Hm Hp. unfold Gateway. rewrite bool_decide_eq_false_2 by done.
  assert (isAllowed console_registry m p = bool_decide ((m, p) ∈ tenant_reads) || self_service p) as ->.
  { unfold isAllowed, console_registry, registerConsoleAuthz. rewrite !(proj1 (protect_all_rest _ _)), !(proj2 (protect_all_rest _ _)).
    cbn [allow allowPfx AllowPublic AllowPublicPrefix registry0 app existsb]. rewrite orb_false_r. unfold self_service. f_equal.
    apply bool_decide_ext. unfold tenant_reads. rewrite !elem_of_cons, !elem_of_union, !elem_of_singleton. split.
    - intros [H|[H|H]]; [| |set_solver]; apply routeKey_inj in H as [-> ->]; try done; auto.
    - intros [[= -> ->]|[[= -> ->]|H]]; [by right; left | by left | by apply elem_of_nil in H]. }
  assert (isProtected console_registry m p = bool_decide ((m, p) ∈ consoleProtectedRoutes)) as ->.
  { unfold isProtected, console_registry, registerConsoleAuthz. apply bool_decide_ext. rewrite protect_all. split.
    - case_bool_decide as Hin; [intros _ | cbn; rewrite lookup_empty; by intros [? ?]].
      apply list_elem_of_fmap in Hin as ([m' p'] & Hk & Hin). pose proof methods_spaceless as Hall. rewrite forallb_forall in Hall.
      pose proof (Hall _ (proj1 (list_elem_of_In _ _) Hin)) as Hm'. cbn in Hk, Hm'. apply routeKey_inj in Hk as [-> ->]; done.
    - intros Hin. rewrite bool_decide_eq_true_2; [by eexists|]. apply list_elem_of_fmap. by exists (m, p). }
  rewrite (bool_decide_ext ((m, p) ∈ consoleProtectedRoutes ++ tenant_reads) ((m, p) ∈ consoleProtectedRoutes \/ (m, p) ∈ tenant_reads)) by apply elem_of_app.
  rewrite bool_decide_or. destruct (bool_decide (_ ∈ consoleProtectedRoutes)), (bool_decide (_ ∈ tenant_reads)), (self_service p); reflexivity.
Qed.

(** ** The chain in front of a handler *)

Section Chain.
Context {S : Type} (svc : option (Z -> Z -> string -> option ScopeTarget -> M S AZErr bool)).
Abbreviation Op := (M (routeRegistry * S) AZErr).

(** TenantContext, the gateway in hard mode and the route's own Require, as run.go mounts
    them; what the handler then runs in, if it runs. *)
Definition console_chain (perm : string) (scopeFn : option (Ctx -> option ScopeTarget)) (c : Ctx) : Op (Ctx + Verdict) :=
  let! r := on_service (TenantContext svc c) in
  match r with
  | inr v => ret (inr v)
  | inl c' =>
      let! reg := gets fst in
      match Gateway false reg (c_Method c') (c_FullPath c') with
      | Abort h k => ret (inr (Abort h k))
      | Next => let! v := Require svc perm scopeFn c' in
                ret match v with Next => inl c' | _ => inr v end
      end
  end.

Lemma on_service_ok {A} (m : M S AZErr A) s s' a : on_service m s = (s', Ok a) -> m s.2 = (s'.2, Ok a) /\ s'.1 = s.1.
Proof. unfold on_service. destruct (m s.2) as [s1 x]. by intros [= <- ->]. Qed.

Lemma TenantContext_ok c s s' c' :
  TenantContext svc c s = (s', Ok (inl c')) ->
  c' = c \/ exists Check s1, svc = Some Check /\ 0 < c_TenantID c' /\ c_UserID c' = c_UserID c
              /\ Check (c_TenantID c) (c_UserID c) "*"%string None s = (s1, Ok true).
Proof.
  unfold TenantContext, ret. case_bool_decide; [by intros [= <- <-]; left|].
  destruct (ParseInt (c_XTenantID c)) as [tid ok] eqn:Hp. destruct (negb ok || (tid <=? 0)) eqn:Hg; [done|].
  destruct svc as [Check|]; [|done]. unfold attempt. destruct (Check (c_TenantID c) (c_UserID c) "*"%string None s) as [s1 [[]|]] eqn:Hc; try done.
  intros [= <- <-]. right. to_prop. eexists _, _. split_and!; [done | cbn; lia | done | exact Hc].
Qed.

Lemma Require_next perm scopeFn c s s' :
  Require svc perm scopeFn c s = (s', Ok Next) ->
  exists Check s1, svc = Some Check /\ c_UserID c <> 0
    /\ Check (c_TenantID c) (c_UserID c) perm (match scopeFn with Some f => f c | None => None end) s.2 = (s1, Ok true).
Proof.
  unfold Require, bind, registering, modify. destruct svc as [Check|]; [|done]. destruct (Z.eqb_spec (c_UserID c) 0); [done|].
  unfold attempt, on_service. cbn [snd fst].
  destruct (Check _ _ _ _ s.2) as [s1 [[]|]] eqn:Hc; try done. intros _. eexists _, _. split_and!; [done | done | exact Hc].
Qed.

(** C11: a handler of the console behind Require runs only for an authenticated caller to whom
    the engine grants the route's permission on the route's target, in the tenant the handler runs
    in; and that is the tenant of the session unless the engine found the caller to hold the
    wildcard there. *)
Theorem handler_needs_permission perm scopeFn c s s' c' :
  console_chain perm scopeFn c s = (s', Ok (inl c')) ->
  exists Check s1 s2, svc = Some Check /\ c_UserID c' = c_UserID c /\ c_UserID c <> 0
    /\ Check (c_TenantID c') (c_UserID c) perm (match scopeFn with Some f => f c' | None => None end) s1 = (s2, Ok true)
    /\ (c_TenantID c' = c_TenantID c \/ exists s3, Check (c_TenantID c) (c_UserID c) "*"%string None s.2 = (s3, Ok true))
    /\ (c_FullPath c' = ""%string \/ IsRegistered s.1 (c_Method c') (c_FullPath c') = true).
Proof.
  unfold console_chain. intros Hr. apply bind_ok in Hr as (r & w1 & Ht & Hr). apply on_service_ok in Ht as [Ht Hreg].
  destruct r as [c1|v]; [|discriminate Hr]. apply bind_ok in Hr as (reg & w2 & Hg & Hr). injection Hg as <- <-.
  destruct (Gateway false w1.1 (c_Method c1) (c_FullPath c1)) eqn:Hgw; [|discriminate Hr].
  apply bind_ok in Hr as (v & w3 & Hq & Hr). destruct v; [|discriminate Hr]. injection Hr as <- <-.
  apply Require_next in Hq as (Check & s1 & Hsvc & Hu & Hc).
  assert (c_UserID c1 = c_UserID c) as Huid by (apply TenantContext_ok in Ht as [->|(? & ? & _ & _ & ? & _)]; done).
  exists Check, w1.2, s1. rewrite <- Huid. split_and!; [done..| |].
  - apply TenantContext_ok in Ht as [->|(Check' & s3 & Hsvc' & _ & _ & Hw)]; [by left|]. right. exists s3. rewrite Huid. congruence.
  - revert Hgw. rewrite Hreg. unfold Gateway, IsRegistered. case_bool_decide; [by left|]. right.
    destruct (isAllowed s.1 _ _), (isProtected s.1 _ _); done.
Qed.
End Chain.
