(* ===== verification/PermRuns.v ===== *)
(** * PermRuns: concrete runs of the permission engine

    An enforcer that keeps Casbin's promises, a small tenant, and what happens in it. *)

From S2P Require Import AuthnHttp.
From S2P Require Import Redis Authz AuthzProps AuthzCache Prelude Statements Text GroupRule GroupSync Access Org Perm PermEffective PermHttp PermPod PermProps.
#[global] Open Scope Z_scope.

Module PermDemo.

(** ** An enforcer *)

Abbreviation Rule := (string * string * string)%type.
Record Model : Type := mkModel { m_p : gset Rule; m_g : gset Rule }.
Definition rule_matches (m : Model) (s d o : string) (p : Rule) : bool :=
  bool_decide (p.1.2 = d) && (bool_decide (p.1.1 = s) || bool_decide ((s, p.1.1, d) ∈ m_g m)) && (bool_decide (o = p.2) || bool_decide (p.2 = "*"%string)).
#[export] Instance model_casbin : CasbinLib := {|
  Enforcer := Model;
  NewSyncedEnforcer := mkModel ∅ ∅;
  AddNamedGroupingPolicy := fun a b d e => Ok (mkModel (m_p e) ({[ (a, b, d) ]} ∪ m_g e));
  AddPolicy := fun a d o e => Ok (mkModel ({[ (a, d, o) ]} ∪ m_p e) (m_g e));
  Enforce := fun e s d o => Ok (existsb (rule_matches e s d o) (elements (m_p e)))
|}.
#[refine, export] Instance model_laws : CasbinLaws := {| policies_of := m_p; groupings_of := m_g |}.
Proof.
  - done.
  - by intros a b d e e' [= <-].
  - by intros a d o e e' [= <-].
  - cbn. intros e s d o [= H]. apply existsb_exists in H as ([[r d'] o'] & Hin & Hm). apply list_elem_of_In, elem_of_elements in Hin.
    unfold rule_matches in Hm. cbn in Hm. apply andb_true_iff in Hm as [Hm Ho]. apply andb_true_iff in Hm as [Hd Hs].
    apply bool_decide_eq_true in Hd as ->. apply orb_true_iff in Ho. rewrite !bool_decide_eq_true in Ho.
    exists r, o'. split_and!; [done| |done]. apply orb_true_iff in Hs. rewrite !bool_decide_eq_true in Hs.
    destruct Hs as [<-|Hs]; [apply rtc_refl | by apply rtc_once].
  - cbn. intros e s d o r o' [= H] Hp Hg Ho. rewrite <- not_true_iff_false in H. apply H. apply existsb_exists. exists (r, d, o').
    split; [by apply list_elem_of_In, elem_of_elements|]. unfold rule_matches. cbn. apply andb_true_iff. split; [apply andb_true_iff; split|].
    + by apply bool_decide_eq_true.
    + apply orb_true_iff. right. by apply bool_decide_eq_true.
    + apply orb_true_iff. rewrite !bool_decide_eq_true. done.
Defined.

(** ** A tenant *)

Definition usr (id t : Z) (name : string) (super : bool) : PUser := mkPUser id t name "" "" super false.
Definition role (id t : Z) (code : string) (ty : Z) : Role := mkRole id t code code ty 0 0 false.
Definition perm (id : Z) (code : string) : Permission := mkPermission id 1 code "r" "a".
Definition org (id : Z) (path : string) : Organization := mkOrg id 1 path path None path 0 1.
Definition binding (roleID u : Z) (sc : option Z) : Binding :=
  mkBinding (mkRB roleID "user" u (if sc then Some "org"%string else None) sc None None 1) 0.

(** In tenant 1, user 7 holds the role 20 on the organization 5 and no further, user 8
    nothing, user 9 is a super administrator, user 10 has role 20 through the group 40. Role 30 is tenant 2's. *)
Definition world : PWorld Z := mkPWorld
  (list_to_map [(7, usr 7 1 "dee" false); (8, usr 8 1 "eve" false); (9, usr 9 1 "root" true); (10, usr 10 1 "gil" false)])
  (list_to_map [(1, role 1 1 "super_admin" 1); (20, role 20 1 "dept_admin" 2); (30, role 30 2 "auditor" 2)])
  (list_to_map [(100, perm 100 "role.assign"); (101, perm 101 "user.read")])
  (list_to_map [(200, mkRolePermission 200 20 100 0); (201, mkRolePermission 201 20 101 0); (202, mkRolePermission 202 1 101 0)])
  (list_to_map [(50, binding 20 7 (Some 5)); (60, binding 30 99 None);
                (70, mkBinding (mkRB 20 "group" 40 None None None None 1) 0)])
  {[ 40 := mkUserGroup 40 1 "staff" "staff" None 1 false ]} {[ (40, 10) := mkUserGroupMember 80 40 10 ]}
  (mkOWorld (list_to_map [(1, org 1 "r"); (5, org 5 "r.a"); (6, org 6 "r.b")]) ∅ 1000 [] 0) [].

Definition redis0 : Redis (list serializedBinding) := mkRedis ∅ 0 (fun _ => Fine) 0.
Definition pod_with (fails : nat -> bool) : Authz.Node (PodDB Z) := mkNode (mkPodDB (mkStore world fails 0) None) redis0 ∅ [] 0.
Definition pod : Authz.Node (PodDB Z) := pod_with (fun _ => false).

Definition check (t u : Z) (p : string) (target : option ScopeTarget) := svc_Check (G := Z) true false (Some t) t u p target.
Definition svc : AuthzSvc Z := mkAuthzSvc (svc_Check true false (Some 1)) (svc_PermissionsForUser true (Some 1)).
Definition add_member (caller roleID : Z) (req : AddMemberRequest) :=
  AddMember_handler (Some svc) (Some 1) (refValidators (Some 1)) true 1 caller roleID req.
Definition unscoped (u : Z) : AddMemberRequest := mkAddMember "user" u None None.

(** The guard of AddMember does not confine an administrator to its own scope: user 7, whose
    only binding is limited to organization 5 and who may not read the users of organization 6,
    gives user 8 the same role without a limit, and user 8 then may. *)
Theorem scoped_admin_grants_globally :
  let r := add_member 7 20 (unscoped 8) pod in
  (check 1 7 "user.read" (Some (TargetOrg 6)) pod).2 = Ok false
  /\ r.2 = Ok HCreated
  /\ (check 1 8 "user.read" (Some (TargetOrg 6)) r.1).2 = Ok true.
Proof. split_and!; vm_compute; reflexivity. Qed.

(** A caller that may assign roles but is no super administrator. When the one statement by which
    the guard reads the role fails, the guard goes on as if the role were an ordinary one. *)
Definition at_stmt (k : nat) : nat -> bool := fun n => bool_decide (n = k).

(** The guard that only a super administrator may hand out super_admin fails open: user 7, who
    is none, asks for the role for itself and is refused; when one statement of that very request
    fails, it is granted, and the flag is set. *)
Theorem failed_lookup_makes_super_admin :
  (add_member 7 1 (unscoped 7) pod).2 = Ok (HFail 403 40300)
  /\ let r := add_member 7 1 (unscoped 7) (pod_with (at_stmt 5)) in
     r.2 = Ok HCreated /\ is_super_admin (tables (n_db r.1)) 1 7 = true.
Proof. split; [|cbv zeta; split]; vm_compute; reflexivity. Qed.

(** Granting super administration through the members of its role is not a high-risk request,
    though granting it through the user is: no fresh second factor is asked for. *)
Theorem super_admin_without_step_up :
  IsHighRiskConsole "PUT" "/api/v1/console/users/:id/super-admin" = true
  /\ IsHighRiskConsole "POST" "/api/v1/console/roles/:id/members" = false
  /\ is_super_admin (tables (n_db (add_member 9 1 (unscoped 8) pod).1)) 1 8 = true.
Proof. split_and!; vm_compute; reflexivity. Qed.

(** An administrator of tenant 1 removes, as a member of its own role 20, the binding 60, which is
    of role 30 of tenant 2. *)
Theorem removes_foreign_binding :
  let s := mkStore world (fun _ => false) 0 in
  let r := RemoveMember (Some 1) true 7 20 60 s in
  (rb_role_id ∘ bd_row <$> rbindings (sdb s) !! 60) = Some 30 /\ (ro_TenantID <$> roles (sdb s) !! 30) = Some 2
  /\ r.2 = Ok tt /\ rbindings (sdb r.1) !! 60 = None.
Proof. split_and!; vm_compute; reflexivity. Qed.

(** A super administrator asks for tenant 2 with X-Tenant-ID; the service checks in the tenant it is
    asked for. *)
Definition switching : Authz.Ctx := mkCtx "GET" "/api/v1/console/users" 9 1 "2".
Definition service (scope : Z) := Some (svc_Check (G := Z) true false (Some scope)).

(** The switch to another tenant that TenantContext allows a super administrator leaves it
    without any permission there: the very next check, of any permission, denies. *)
Theorem switched_tenant_denies :
  let r := TenantContext (service 1) switching pod in
  let c' := mkCtx "GET" "/api/v1/console/users" 9 2 "2" in
  (Require (service 1) "user.read" None switching (console_registry, pod)).2 = Ok Next
  /\ r.2 = Ok (inl c')
  /\ (Require (service 2) "user.read" None c' (console_registry, r.1)).2 = Ok (Authz.Abort 403 40300).
Proof. split_and!; vm_compute; reflexivity. Qed.

(** ** Invalidation *)

Lemma Invalidate_other t u t' u' (n n' : Authz.Node (PodDB Z)) x :
  (t, u) <> (t', u') -> Invalidate true t' u' n = (n', x) ->
  n_l1 n' !! cacheKey t u = n_l1 n !! cacheKey t u /\ rkeys (n_redis n') !! cacheKey t u = rkeys (n_redis n) !! cacheKey t u.
Proof.
  intros Hne Hr. assert (cacheKey t' u' <> cacheKey t u) as Hk by (intros H; apply cacheKey_inj in H as [-> ->]; done).
  apply Invalidate_run in Hr as (_ & _ & Hl & _ & Hr & _). rewrite Hl, lookup_delete_ne by done. split; [done|].
  destruct Hr as [->| ->]; [done|]. by rewrite lookup_delete_ne.
Qed.

(** The event that announces a deleted user carries no tenant, so the subscriber clears the
    entry of tenant 0; the entry the user's requests are decided with stays, in the pod and in
    Redis, until it runs out. *)
Theorem deleted_user_stays_cached t u (n : Authz.Node (PodDB Z)) :
  t <> 0 -> u <> 0 ->
  let n' := (wireAuthzCacheInvalidation true (UserDeleted u) n).1 in
  n_l1 n' !! cacheKey t u = n_l1 n !! cacheKey t u /\ rkeys (n_redis n') !! cacheKey t u = rkeys (n_redis n) !! cacheKey t u.
Proof.
  intros Ht Hu. unfold wireAuthzCacheInvalidation. cbn [ev_Type UserDeleted].
  change (bool_decide ("user.deleted"%string ∈ all_types)) with false. change (bool_decide ("user.deleted"%string ∈ user_types)) with true. cbv iota.
  unfold invalidateUserFromPayload, invalidate_from. cbn [ev_Payload UserDeleted].
  change (int_of {["user_id" := VInt u]} "user_id") with u. change (int_of {["user_id" := VInt u]} "tenant_id") with 0.
  destruct (Z.eqb_spec u 0); [done|]. unfold dropped, attempt. destruct (Invalidate true 0 u n) as [n1 x] eqn:Hr. cbn.
  eapply Invalidate_other; [|exact Hr]. congruence.
Qed.

(** The super administrator, read once, deleted, announced, and asking again. *)
Definition delete_user (id : Z) (n : Authz.Node (PodDB Z)) : Authz.Node (PodDB Z) :=
  let d := n_db n in
  let gone x := mkPUser (pu_ID x) (pu_TenantID x) (pu_Username x) (pu_DisplayName x) (pu_Email x) (pu_IsSuperAdmin x) true in
  mkNode (mkPodDB (mkStore (with_users (alter gone id) (sdb (d_store d))) (sfail (d_store d)) (scalls (d_store d))) (d_engine d))
    (n_redis n) (n_l1 n) (n_out n) (n_purges n).

Lemma deleted_user_witness :
  let n := delete_user 9 (check 1 9 "app.delete" None pod).1 in
  let n' := (wireAuthzCacheInvalidation true (UserDeleted 9) n).1 in
  n_l1 n' !! cacheKey 1 9 = n_l1 n !! cacheKey 1 9 /\ rkeys (n_redis n') !! cacheKey 1 9 = rkeys (n_redis n) !! cacheKey 1 9.
Proof. exact (deleted_user_stays_cached 1 9 (delete_user 9 (check 1 9 "app.delete" None pod).1) ltac:(discriminate) ltac:(discriminate)). Defined.

(** So the deleted super administrator is still allowed everything. *)
Example deleted_user_still_allowed :
  let n := delete_user 9 (check 1 9 "app.delete" None pod).1 in
  let n' := (wireAuthzCacheInvalidation true (UserDeleted 9) n).1 in
  is_super_admin (tables (n_db n')) 1 9 = false /\ (check 1 9 "app.delete" None n').2 = Ok true.
Proof. split; vm_compute; reflexivity. Qed.

(** *** Pods and their shared Redis *)

Definition cluster (fails : nat -> bool) : Cluster := mkCluster (mkPodDB (mkStore world fails 0) None) redis0 (fun _ => ∅) (fun _ => []) 0.
Abbreviation Cl := (@Cluster (PodDB Z)).
Definition provider := authzBindingProvider (G := Z) (Some 1).
Definition scan_all (ks : gmap string (RKey (list serializedBinding))) (_ : Z) : list string * Z := (filter (fun k => HasPrefix k cacheKeyPrefix = true) (map_to_list ks).*1, 0).

Definition read (i : nat) (u : Z) (c : Cl) := CachedBindings provider true defaultL1TTL defaultL2TTL 1 u (node_at i c).
Definition reading (i : nat) (u : Z) (c : Cl) : Cl := put_node i (read i u c).1 c.
Definition change (f : PWorld Z -> PWorld Z) (c : Cl) : Cl :=
  let d := cl_db c in
  mkCluster (mkPodDB (mkStore (f (sdb (d_store d))) (fun _ => false) (scalls (d_store d))) (d_engine d)) (cl_redis c) (cl_l1 c) (cl_mail c) (cl_purges c).
Definition handle (i : nat) (c : Cl) : Cl :=
  match cl_mail c i with
  | [] => c
  | msg :: rest => let n := (on_message msg (node_at i c)).1 in mkCluster (n_db n) (n_redis n) (upd i (n_l1 n) (cl_l1 c)) (upd i rest (cl_mail c)) (n_purges n)
  end.
Definition purge (c : Cl) : Cl := with_redis (purgeL2 scan_all 2 (cl_redis c)).1 c.
Definition wait (delta : Z) (c : Cl) : Cl := with_redis (mkRedis (rkeys (cl_redis c)) (cl_now c + delta) (rfate (cl_redis c)) (rcalls (cl_redis c))) c.
Definition unbind (id : Z) : PWorld Z -> PWorld Z := with_rbindings (delete id).

#[export] Instance scan_all_laws : ScanLaws scan_all.
Proof.
  split. intros h k Hit Hk Hall. inversion Hit as [c ks _|c ks h' Hne]; subst; [|done]. exists (0, ks). split; [by left|]. cbn.
  apply list_elem_of_filter. split; [done|]. destruct (Hall (0, ks)) as [x Hx]; [by left|].
  apply list_elem_of_fmap. exists (k, x). split; [done|]. by apply elem_of_map_to_list.
Qed.

(** InvalidateAll does not make every pod's level 1 right at once: its message is handled by pod 1
    before the shared level has been purged, pod 1 fills its level 1 from there again, and after the
    purge it still answers the binding that is gone, with no message left to come. *)
Theorem stale_after_invalidate_all :
  let c1 := change (unbind 50) (reading 0 7 (cluster (fun _ => false))) in
  let c2 := put_node 0 (InvalidateAll true (node_at 0 c1)).1 c1 in
  let c3 := purge (reading 1 7 (handle 1 (handle 0 c2))) in
  (read 0 7 c3).2 = Ok [] /\ cl_mail c3 1%nat = [] /\ rkeys (cl_redis c3) = ∅
  /\ (length <$> match (read 1 7 c3).2 with Ok l => Some l | Err _ => None end) = Some 1%nat.
Proof. split_and!; vm_compute; reflexivity. Qed.

(** A read that asked the tables before a change and writes back after the invalidation of that
    change undoes it: pod 1, that never saw the old binding, answers it four minutes later. *)
Theorem late_write_back_undoes_invalidation :
  let c0 := cluster (fun _ => false) in
  let v := match (provider 1 7 (cl_db c0)).2 with Ok v => v | Err _ => [] end in
  let c1 := change (unbind 50) c0 in
  let inv := Invalidate true 1 7 (node_at 1 c1) in
  let c2 := handle 0 (handle 1 (put_node 1 inv.1 c1)) in
  let c3 := wait (4 * Minute) (put_node 0 (write_back true defaultL1TTL defaultL2TTL (cacheKey 1 7) v (node_at 0 c2)).1 c2) in
  inv.2 = Ok tt /\ (provider 1 7 (cl_db c3)).2 = Ok []
  /\ (length <$> match (read 1 7 c3).2 with Ok l => Some l | Err _ => None end) = Some 1%nat.
Proof. split_and!; vm_compute; reflexivity. Qed.

(** An answer made while the groups could not be read lacks what they give, and is kept like
    any other: when the database is well again, a pod that never failed answers nothing for five
    minutes. *)
Theorem failed_lookup_is_cached :
  let c1 := wait (4 * Minute) (change id (reading 0 10 (cluster (at_stmt 1)))) in
  (length <$> match (provider 1 10 (cl_db c1)).2 with Ok l => Some l | Err _ => None end) = Some 1%nat
  /\ (read 1 10 c1).2 = Ok [].
Proof. split_and!; vm_compute; reflexivity. Qed.

(** ** Witnesses *)

Lemma start_reached : reach provider defaultL1TTL defaultL2TTL scan_all true [cluster (fun _ => false)] (cluster (fun _ => false)).
Proof. by constructor. Qed.
(** Pod 0 has read the bindings of user 7; pod 1 finds them in Redis. *)
Lemma read_reached : reach provider defaultL1TTL defaultL2TTL scan_all true [reading 0 7 (cluster (fun _ => false)); cluster (fun _ => false)] (reading 0 7 (cluster (fun _ => false))).
Proof. eapply reach_step; [exact start_reached|]. unfold reading. eapply step_read, surjective_pairing. Qed.

Lemma allowed_by_tables_witness :
  let c := reading 0 7 (cluster (fun _ => false)) in
  exists c0 b n1, c0 ∈ [c; cluster (fun _ => false)] /\ cl_now c - (defaultL1TTL + defaultL2TTL) <= cl_now c0
    /\ warranted (Some 1) (tables (cl_db c0)) 1 7 b /\ expired (cl_now c) b = false
    /\ d_engine (n_db n1) = d_engine (cl_db c) /\ tables (n_db n1) = tables (cl_db c)
    /\ grants (engine_of false) n1 1 "user.read" b = true /\ covers (pod_above n1) b (Some (TargetOrg 5)) = true.
Proof.
  refine (allowed_by_tables (Some 1) false scan_all true _ (reading 0 7 (cluster (fun _ => false))) 1%nat 1 7 "user.read" (Some (TargetOrg 5)) _ read_reached _).
  apply run_result. vm_compute. reflexivity.
Defined.

(** The tables as an enforcer sees them. *)
Definition enforcer : Model := match rebuild (all_policies world) (super_tenants world) with Ok e => e | Err _ => NewSyncedEnforcer end.
Definition casbin_pod : Authz.Node (PodDB Z) := mkNode (mkPodDB (mkStore world (fun _ => false) 0) (Some enforcer)) redis0 ∅ [] 0.
Lemma casbin_changes_nothing_witness :
  (svc_Check true true (Some 1) 1 7 "user.read" (Some (TargetOrg 5)) casbin_pod).2 = (svc_Check true false (Some 1) 1 7 "user.read" (Some (TargetOrg 5)) casbin_pod).2.
Proof.
  refine (casbin_changes_nothing (Some 1) 1 7 "user.read" (Some (TargetOrg 5)) casbin_pod enforcer _ _ _ _ _ _ _ _).
  - by intros n _.
  - reflexivity.
  - reflexivity.
  - reflexivity.
  - vm_compute. reflexivity.
  - intros s d o. eexists. reflexivity.
  - reflexivity.
  - discriminate.
Defined.

(** User 7's binding is gone, and pod 0 has said so. *)
Definition announced : Cl := put_node 0 (Invalidate true 1 7 (node_at 0 (change (unbind 50) (reading 1 7 (cluster (fun _ => false)))))).1
  (change (unbind 50) (reading 1 7 (cluster (fun _ => false)))).
Lemma settled_answer_demo d : healthy (d_store d) /\ tables d = unbind 50 world -> (provider 1 7 d).2 = Ok [].
Proof.
  intros [Hh Ht]. unfold provider, authzBindingProvider, on_store.
  destruct (effective_runs (Some 1) 1 7 (tables d) (d_store d) (healthy_now _ Hh) eq_refl) as (n & _ & ->). cbn.
  rewrite Ht. vm_compute. reflexivity.
Qed.
Lemma handled_quietly :
  rtc (flying_step provider defaultL1TTL defaultL2TTL scan_all (fun d => healthy (d_store d) /\ tables d = unbind 50 world)) (announced, []) (handle 1 announced, []).
Proof.
  apply rtc_once. apply fly_whole. split; [|split; [by intros n | vm_compute; reflexivity]].
  assert (cl_mail announced 1%nat = [cacheKey 1 7]) as Hm by (vm_compute; reflexivity).
  unfold handle. rewrite Hm. eapply step_message; [exact Hm | apply surjective_pairing].
Qed.

Lemma invalidation_is_final_witness : exists l, (read 1 7 (handle 1 announced)).2 = Ok l /\ current [] l.
Proof.
  refine (invalidation_is_final provider defaultL1TTL defaultL2TTL scan_all _ 1 7 [] (fun d => healthy (d_store d) /\ tables d = unbind 50 world)
    settled_answer_demo (change (unbind 50) (reading 1 7 (cluster (fun _ => false)))) 0%nat _ [] (handle 1 announced) [] 1%nat
    (read 1 7 (handle 1 announced)).1 _ _ _ (Forall_nil_2 _) handled_quietly _ _).
  - vm_compute. discriminate.
  - split; [by intros n | vm_compute; reflexivity].
  - apply run_result. vm_compute. reflexivity.
  - replace (cl_mail (handle 1 announced) 1%nat) with (@nil string) by (vm_compute; reflexivity). by intros [?%elem_of_nil|?%elem_of_nil].
  - apply surjective_pairing.
Defined.

(** One role without permissions. *)
Definition small : PWorld Z := mkPWorld ∅ {[ 20 := role 20 1 "dept_admin" 2 ]} {[ 100 := perm 100 "role.assign" ]} ∅ ∅ ∅ ∅ (mkOWorld ∅ ∅ 1000 [] 0) [].
Lemma small_inv : perm_inv small.
Proof.
  split; cbn; try (intros *; rewrite lookup_empty; discriminate).
  - intros i r H. by apply lookup_singleton_Some in H as [<- <-].
  - intros i j r r' H H'. by apply lookup_singleton_Some in H as [<- _], H' as [<- _].
  - intros i p H. by apply lookup_singleton_Some in H as [<- <-].
Qed.
Lemma set_permissions_witness :
  (SetRolePermissions (Some 1) 20 [100] (mkStore small (fun _ => false) 0)).2 = Ok tt
  /\ forall pid, holds_perm (sdb (SetRolePermissions (Some 1) 20 [100] (mkStore small (fun _ => false) 0)).1) 20 pid <-> pid ∈ [100].
Proof.
  assert ((SetRolePermissions (Some 1) 20 [100] (mkStore small (fun _ => false) 0)).2 = Ok tt) as Hok by (vm_compute; reflexivity).
  split; [exact Hok|]. pose proof (set_permissions_exact (Some 1) 20 [100] small small_inv (mkStore small (fun _ => false) 0) eq_refl) as H.
  cbv beta in H. rewrite Hok in H. exact (proj1 H).
Defined.

Lemma console_denies_witness : Gateway false console_registry "POST" "/api/v1/console/backdoor" = Authz.Abort 403 40301.
Proof.
  rewrite (console_denies_undeclared "POST" "/api/v1/console/backdoor"); [vm_compute; reflexivity | reflexivity | discriminate].
Defined.

(** User 7 lists the users. *)
Definition listing : Authz.Ctx := mkCtx "GET" "/api/v1/console/users" 7 1 "".
Lemma handler_needs_permission_witness :
  exists Check s1 s2, service 1 = Some Check /\ c_UserID listing = c_UserID listing /\ c_UserID listing <> 0
    /\ Check (c_TenantID listing) (c_UserID listing) "user.read"%string None s1 = (s2, Ok true)
    /\ (c_TenantID listing = c_TenantID listing \/ exists s3, Check (c_TenantID listing) (c_UserID listing) "*"%string None pod = (s3, Ok true))
    /\ (c_FullPath listing = ""%string \/ IsRegistered console_registry (c_Method listing) (c_FullPath listing) = true).
Proof.
  refine (handler_needs_permission (service 1) "user.read" None listing (console_registry, pod) _ listing _).
  apply run_result. vm_compute. reflexivity.
Defined.
End PermDemo.
