(* ===== verification/User.v ===== *)
(** * User: accounts, their profiles, passwords and states

    src/internal/domain/user: model.go, repository_impl.go, service.go, login_record.go, the
    requests of dto.go. The tables are those of the migrations with their partial unique
    indexes; an operation reads and writes them statement by statement. The factors of a user are in Mfa.v,
    the external identities in UserExternal.v. *)

From stdpp Require Import sorting.
From Stdlib Require Import Ascii.
From S2P Require Import Prelude Statements Text.
#[global] Open Scope Z_scope.

(** ** model.go *)

Definition StatusActive : Z := 1.
Definition StatusLocked : Z := 2.
Definition StatusDisabled : Z := 3.

Record User : Type := mkUser {
  u_ID : Z; u_TenantID : Z; u_Username : string; u_Email : option string; u_EmailVerified : bool;
  u_EmailVerifiedAt : option Z; u_Phone : option string; u_DisplayName : option string; u_Avatar : option string;
  u_PasswordHash : string; u_Status : Z; u_LastLoginAt : option Z; u_LastLoginIP : option string;
  u_PasswordChangedAt : option Z; u_MustChangePwd : bool; u_IsSuperAdmin : bool; u_IsBuiltin : bool;
  u_CreatedAt : Z; u_UpdatedAt : Z; u_CreatedBy : option Z; u_UpdatedBy : option Z; u_DeletedAt : option Z
}.
Record UserDetail : Type := mkUserDetail {
  d_ID : Z; d_UserID : Z; d_Gender : option Z; d_Birthday : option string; d_Address : option string;
  d_EmployeeNo : option string; d_JobTitle : option string; d_Department : option string; d_Extra : option string;
  d_CreatedAt : Z; d_UpdatedAt : Z
}.
Record UserPasswordHistory : Type := mkPasswordHistory {
  ph_ID : Z; ph_UserID : Z; ph_PasswordHash : string; ph_CreatedAt : Z
}.
Record UserIdentity : Type := mkUserIdentity {
  ui_ID : Z; ui_UserID : Z; ui_TenantID : Z; ui_ProviderType : string; ui_ProviderID : string; ui_ExternalID : string;
  ui_ExternalName : option string; ui_Extra : option string; ui_CreatedAt : Z; ui_UpdatedAt : Z; ui_DeletedAt : option Z
}.
Record LoginRecord : Type := mkLoginRecord {
  lr_ID : Z; lr_TenantID : Z; lr_UserID : option Z; lr_Username : option string; lr_Success : bool; lr_Stage : string;
  lr_AuthType : string; lr_Reason : option string; lr_IP : option string; lr_UserAgent : option string; lr_CreatedAt : Z
}.
#[export] Instance User_eq_dec : EqDecision User.
Proof. solve_decision. Defined.
#[export] Instance UserIdentity_eq_dec : EqDecision UserIdentity.
Proof. solve_decision. Defined.

(** ** Requests of dto.go, and the policy *)

Record CreateUserRequest : Type := mkCreateUser {
  cu_Username : string; cu_Email : option string; cu_Phone : option string; cu_DisplayName : option string;
  cu_Password : string; cu_Status : option Z
}.
Record UpdateUserRequest : Type := mkUpdateUser {
  uu_Email : option string; uu_Phone : option string; uu_DisplayName : option string; uu_Avatar : option string; uu_Status : option Z
}.
Record UpdateDetailRequest : Type := mkUpdateDetail {
  ud_Gender : option Z; ud_Birthday : option string; ud_Address : option string; ud_EmployeeNo : option string;
  ud_JobTitle : option string; ud_Department : option string
}.
Record ListParams : Type := mkListParams {
  lp_Page : Z; lp_PageSize : Z; lp_Search : string; lp_Status : option Z; lp_OrgID : option Z; lp_IncludeDeleted : bool
}.
Inductive BatchActionKind : Type := BatchActionEnable | BatchActionDisable | BatchActionDelete.
Record PasswordPolicy : Type := mkPasswordPolicy {
  MinLength : Z; RequireUppercase : bool; RequireLowercase : bool; RequireNumber : bool; RequireSpecial : bool; HistoryCount : Z
}.

Inductive UErr : Type :=
| ErrDB
| ErrRecordNotFound
| ErrUnique (constraint : string)
| ErrForeignKey
| ErrUserNotFound
| ErrUsernameExists
| ErrEmailExists
| ErrPhoneExists
| ErrInvalidPassword
| ErrPasswordReused
| ErrPasswordAlreadySet
| ErrLicenseQuotaExceeded
| ErrPasswordTooShort (min : Z)
| ErrPasswordNeedUpper
| ErrPasswordNeedLower
| ErrPasswordNeedDigit
| ErrPasswordNeedSpecial
| ErrDetailNotFound
| ErrIdentityNotFound
| ErrLastSuperAdmin
| ErrExternalIDTaken
| ErrIdentityAlreadyBound
| ErrIdentityOwnerDeleted
| ErrExternalIDRequired
| ErrExternalUserDeleted
| ErrExternalUserNotLinked
| ErrExternalLinkAmbiguous
| ErrExternalLinkRequired (userID : Z) (username email : string)
| ErrNoUsername
| ErrHash
| ErrRand.
#[export] Instance UErr_eq_dec : EqDecision UErr.
Proof. solve_decision. Defined.

(** [dberr.IsUniqueViolationOn] *)
Definition unique_violation_on (e : UErr) (names : list string) : bool :=
  match e with ErrUnique c => bool_decide (c ∈ names) | _ => false end.
Definition uniqueExternalIDConstraint : string := "uk_user_identity_external".
Definition uniqueExternalIDColumns : string :=
  "mxid_user_identity.tenant_id, mxid_user_identity.provider_type, mxid_user_identity.external_id".

(** ** Events: ids are int64, a status an int *)

Inductive UVal : Type := I64 (z : Z) | Int (z : Z) | Str (s : string) | Bln (b : bool) | Strs (l : list string).
Record UEvent : Type := mkUEvent { ue_Type : string; ue_Payload : gmap string UVal }.
Definition UserCreated : string := "user.created".
Definition UserUpdated : string := "user.updated".
Definition UserDeleted : string := "user.deleted".
Definition UserLocked : string := "user.locked".
Definition UserUnlocked : string := "user.unlocked".
Definition UserPasswordChanged : string := "user.password_changed".
Definition UserSuperAdminGrant : string := "user.super_admin.grant".
Definition UserSuperAdminRevoke : string := "user.super_admin.revoke".
Definition UserPIIView : string := "user.pii_view".
Definition event (type : string) (payload : list (string * UVal)) : UEvent := mkUEvent type (list_to_map payload).

(** ** Rows as the statements change them; gorm moves updated_at with every update of a user *)

Definition set_status (st t : Z) (u : User) : User :=
  mkUser (u_ID u) (u_TenantID u) (u_Username u) (u_Email u) (u_EmailVerified u) (u_EmailVerifiedAt u) (u_Phone u)
    (u_DisplayName u) (u_Avatar u) (u_PasswordHash u) st (u_LastLoginAt u) (u_LastLoginIP u) (u_PasswordChangedAt u)
    (u_MustChangePwd u) (u_IsSuperAdmin u) (u_IsBuiltin u) (u_CreatedAt u) t (u_CreatedBy u) (u_UpdatedBy u) (u_DeletedAt u).
Definition set_password (hash : string) (mustChange : bool) (t : Z) (u : User) : User :=
  mkUser (u_ID u) (u_TenantID u) (u_Username u) (u_Email u) (u_EmailVerified u) (u_EmailVerifiedAt u) (u_Phone u)
    (u_DisplayName u) (u_Avatar u) hash (u_Status u) (u_LastLoginAt u) (u_LastLoginIP u) (Some t)
    mustChange (u_IsSuperAdmin u) (u_IsBuiltin u) (u_CreatedAt u) t (u_CreatedBy u) (u_UpdatedBy u) (u_DeletedAt u).
Definition set_super (v : bool) (t : Z) (u : User) : User :=
  mkUser (u_ID u) (u_TenantID u) (u_Username u) (u_Email u) (u_EmailVerified u) (u_EmailVerifiedAt u) (u_Phone u)
    (u_DisplayName u) (u_Avatar u) (u_PasswordHash u) (u_Status u) (u_LastLoginAt u) (u_LastLoginIP u) (u_PasswordChangedAt u)
    (u_MustChangePwd u) v (u_IsBuiltin u) (u_CreatedAt u) t (u_CreatedBy u) (u_UpdatedBy u) (u_DeletedAt u).
Definition set_login (ip : string) (t : Z) (u : User) : User :=
  mkUser (u_ID u) (u_TenantID u) (u_Username u) (u_Email u) (u_EmailVerified u) (u_EmailVerifiedAt u) (u_Phone u)
    (u_DisplayName u) (u_Avatar u) (u_PasswordHash u) (u_Status u) (Some t) (Some ip) (u_PasswordChangedAt u)
    (u_MustChangePwd u) (u_IsSuperAdmin u) (u_IsBuiltin u) (u_CreatedAt u) t (u_CreatedBy u) (u_UpdatedBy u) (u_DeletedAt u).
Definition set_deleted (d : option Z) (t : Z) (u : User) : User :=
  mkUser (u_ID u) (u_TenantID u) (u_Username u) (u_Email u) (u_EmailVerified u) (u_EmailVerifiedAt u) (u_Phone u)
    (u_DisplayName u) (u_Avatar u) (u_PasswordHash u) (u_Status u) (u_LastLoginAt u) (u_LastLoginIP u) (u_PasswordChangedAt u)
    (u_MustChangePwd u) (u_IsSuperAdmin u) (u_IsBuiltin u) (u_CreatedAt u) t (u_CreatedBy u) (u_UpdatedBy u) d.
Definition set_profile (email phone name avatar : option string) (st t : Z) (u : User) : User :=
  mkUser (u_ID u) (u_TenantID u) (u_Username u) email (u_EmailVerified u) (u_EmailVerifiedAt u) phone
    name avatar (u_PasswordHash u) st (u_LastLoginAt u) (u_LastLoginIP u) (u_PasswordChangedAt u)
    (u_MustChangePwd u) (u_IsSuperAdmin u) (u_IsBuiltin u) (u_CreatedAt u) t (u_CreatedBy u) (u_UpdatedBy u) (u_DeletedAt u).

(** A nil pointer to a column with a default is left out of the INSERT. *)
Definition json_default (x : option string) : option string := Some (default "{}"%string x).

Section User.
Context {G : Type} `{!IdGen G}.
(** Postgres' lower(), and its equality of characters up to case. *)
Context (lower : string -> string) (same_char : ascii -> ascii -> bool).

Record UserWorld : Type := mkUserWorld {
  users : gmap Z User; details : gmap Z UserDetail; histories : gmap Z UserPasswordHistory;
  identities : gmap Z UserIdentity; records : gmap Z LoginRecord; user_orgs : gset (Z * Z);
  ugen : G; unow : Z; ubus : list UEvent
}.
Abbreviation Op := (M (Store UserWorld) UErr).
Abbreviation select := (Statements.select ErrDB).
Abbreviation exec := (Statements.exec ErrDB).
Abbreviation exec_or := (Statements.exec_or ErrDB).

Definition with_users f (w : UserWorld) :=
  mkUserWorld (f (users w)) (details w) (histories w) (identities w) (records w) (user_orgs w) (ugen w) (unow w) (ubus w).
Definition with_details f (w : UserWorld) :=
  mkUserWorld (users w) (f (details w)) (histories w) (identities w) (records w) (user_orgs w) (ugen w) (unow w) (ubus w).
Definition with_histories f (w : UserWorld) :=
  mkUserWorld (users w) (details w) (f (histories w)) (identities w) (records w) (user_orgs w) (ugen w) (unow w) (ubus w).
Definition with_identities f (w : UserWorld) :=
  mkUserWorld (users w) (details w) (histories w) (f (identities w)) (records w) (user_orgs w) (ugen w) (unow w) (ubus w).
Definition with_records f (w : UserWorld) :=
  mkUserWorld (users w) (details w) (histories w) (identities w) (f (records w)) (user_orgs w) (ugen w) (unow w) (ubus w).
Definition publish (e : UEvent) : Op unit :=
  write (fun w => mkUserWorld (users w) (details w) (histories w) (identities w) (records w) (user_orgs w) (ugen w) (unow w) (ubus w ++ [e])).
Definition new_id : Op Z := fun s =>
  let '(g, id) := Generate (ugen (sdb s)) in
  (mkStore (mkUserWorld (users (sdb s)) (details (sdb s)) (histories (sdb s)) (identities (sdb s)) (records (sdb s))
     (user_orgs (sdb s)) g (unow (sdb s)) (ubus (sdb s))) (sfail s) (scalls s), Ok id).
Definition time_now : Op Z := gets (fun s => unow (sdb s)).

(** ** repository_impl.go; [scope] is the tenant the context is pinned to, None for a system
    context. A soft-deleted row is seen by unscoped statements only. *)

Context (scope : option Z).
Definition in_tenant (t : Z) : bool := match scope with Some t' => t =? t' | None => true end.
Definition user_live (u : User) : bool := bool_decide (u_DeletedAt u = None) && in_tenant (u_TenantID u).
Definition identity_live (i : UserIdentity) : bool := bool_decide (ui_DeletedAt i = None) && in_tenant (ui_TenantID i).

Definition by_id (a b : User) : Prop := u_ID a <= u_ID b.
#[export] Instance by_id_dec : RelDecision by_id.
Proof. intros a b. unfold by_id. apply _. Defined.
Definition users_where (P : User -> bool) (w : UserWorld) : list User :=
  merge_sort by_id (filter (fun u => P u = true) (map_to_list (users w)).*2).
(** First: the row with the lowest id. *)
Definition first_user (P : User -> bool) : Op User :=
  let! l := select (users_where P) in
  match l with u :: _ => ret u | [] => throw ErrRecordNotFound end.

(** The partial unique indexes of the live rows: on (tenant_id, email), (tenant_id, phone) and
    (tenant_id, lower(username)). *)
Definition other_live (u u' : User) : Prop :=
  u_ID u' <> u_ID u /\ u_TenantID u' = u_TenantID u /\ u_DeletedAt u' = None.
Definition user_conflict (us : gmap Z User) (u : User) : option string :=
  if negb (bool_decide (u_DeletedAt u = None)) then None
  else if bool_decide (map_Exists (fun _ u' => other_live u u' /\ u_Email u <> None /\ u_Email u' = u_Email u) us)
  then Some "idx_user_tenant_email"%string
  else if bool_decide (map_Exists (fun _ u' => other_live u u' /\ u_Phone u <> None /\ u_Phone u' = u_Phone u) us)
  then Some "idx_user_tenant_phone"%string
  else if bool_decide (map_Exists (fun _ u' => other_live u u' /\ lower (u_Username u') = lower (u_Username u)) us)
  then Some "uq_mxid_user_tenant_username_lower"%string
  else None.
(** The row is written if no index forbids it. *)
Definition put_user (u : User) (w : UserWorld) : res UErr UserWorld :=
  match user_conflict (users w) u with
  | Some c => Err (ErrUnique c)
  | None => Ok (with_users <[u_ID u := u]> w)
  end.
Definition insert_user (u : User) (w : UserWorld) : res UErr UserWorld :=
  if bool_decide (is_Some (users w !! u_ID u)) then Err (ErrUnique "mxid_user_pkey") else put_user u w.
(** A zero tenant is stamped with that of the context; a zero status is the column's default. *)
Definition stamp (t : Z) : Z := match scope with Some t' => if t =? 0 then t' else t | None => t end.
Definition stamp_user (u : User) : User :=
  mkUser (u_ID u) (stamp (u_TenantID u)) (u_Username u) (u_Email u) (u_EmailVerified u) (u_EmailVerifiedAt u) (u_Phone u)
    (u_DisplayName u) (u_Avatar u) (u_PasswordHash u) (if u_Status u =? 0 then StatusActive else u_Status u) (u_LastLoginAt u) (u_LastLoginIP u) (u_PasswordChangedAt u)
    (u_MustChangePwd u) (u_IsSuperAdmin u) (u_IsBuiltin u) (u_CreatedAt u) (u_UpdatedAt u) (u_CreatedBy u) (u_UpdatedBy u) (u_DeletedAt u).

Definition insert_detail (d : UserDetail) (w : UserWorld) : res UErr UserWorld :=
  if negb (bool_decide (is_Some (users w !! d_UserID d))) then Err ErrForeignKey
  else if bool_decide (is_Some (details w !! d_UserID d)) then Err (ErrUnique "idx_user_detail_user")
  else if bool_decide (map_Exists (fun _ d' => d_ID d' = d_ID d) (details w)) then Err (ErrUnique "mxid_user_detail_pkey")
  else Ok (with_details <[d_UserID d := mkUserDetail (d_ID d) (d_UserID d) (d_Gender d) (d_Birthday d) (d_Address d)
             (d_EmployeeNo d) (d_JobTitle d) (d_Department d) (json_default (d_Extra d)) (d_CreatedAt d) (d_UpdatedAt d)]> w).
Definition insert_history (h : UserPasswordHistory) (w : UserWorld) : res UErr UserWorld :=
  if negb (bool_decide (is_Some (users w !! ph_UserID h))) then Err ErrForeignKey
  else if bool_decide (is_Some (histories w !! ph_ID h)) then Err (ErrUnique "mxid_user_password_history_pkey")
  else Ok (with_histories <[ph_ID h := h]> w).

(** The partial unique index of the bindings, on (tenant_id, provider_type, external_id). *)
Definition identity_conflict (bs : gmap Z UserIdentity) (i : UserIdentity) : Prop :=
  ui_DeletedAt i = None /\
  map_Exists (fun _ i' => ui_ID i' <> ui_ID i /\ ui_DeletedAt i' = None /\ ui_TenantID i' = ui_TenantID i
                          /\ ui_ProviderType i' = ui_ProviderType i /\ ui_ExternalID i' = ui_ExternalID i) bs.
#[export] Instance identity_conflict_dec bs i : Decision (identity_conflict bs i).
Proof. unfold identity_conflict. apply _. Defined.
Definition put_identity (i : UserIdentity) (w : UserWorld) : res UErr UserWorld :=
  if negb (bool_decide (is_Some (users w !! ui_UserID i))) then Err ErrForeignKey
  else if bool_decide (identity_conflict (identities w) i) then Err (ErrUnique uniqueExternalIDConstraint)
  else Ok (with_identities <[ui_ID i := i]> w).
Definition insert_identity (i : UserIdentity) (w : UserWorld) : res UErr UserWorld :=
  if bool_decide (is_Some (identities w !! ui_ID i)) then Err (ErrUnique "mxid_user_identity_pkey") else
  put_identity (mkUserIdentity (ui_ID i) (ui_UserID i) (stamp (ui_TenantID i)) (ui_ProviderType i) (ui_ProviderID i) (ui_ExternalID i)
    (ui_ExternalName i) (json_default (ui_Extra i)) (ui_CreatedAt i) (ui_UpdatedAt i) (ui_DeletedAt i)) w.

Definition repo_Create (u : User) : Op unit := exec_or (insert_user (stamp_user u)).
Definition CreateWithProfile (u : User) (d : UserDetail) (h : UserPasswordHistory) : Op unit :=
  txn ErrDB (
    do! exec_or (insert_user (stamp_user u)) in
    do! exec_or (insert_detail d) in
    exec_or (insert_history h)).
Definition CreateWithIdentity (u : User) (d : UserDetail) (i : UserIdentity) : Op unit :=
  txn ErrDB (
    do! exec_or (insert_user (stamp_user u)) in
    do! exec_or (insert_detail d) in
    exec_or (insert_identity i)).

(** UPDATE of the live row [id]; no row affected is [missing]. *)
Definition update_user (id : Z) (missing : UErr) (f : User -> User) (w : UserWorld) : res UErr UserWorld :=
  match users w !! id with
  | Some u => if user_live u then Ok (with_users <[id := f u]> w) else Err missing
  | None => Err missing
  end.
Definition ResetPasswordTx (id : Z) (hash : string) (mustChange : bool) (h : UserPasswordHistory) : Op unit :=
  txn ErrDB (
    let! now := time_now in
    do! exec_or (update_user id ErrUserNotFound (set_password hash mustChange now)) in
    exec_or (insert_history h)).
Definition repo_SetSuperAdmin (id : Z) (makeSuper : bool) : Op unit :=
  let! now := time_now in exec_or (update_user id ErrUserNotFound (set_super makeSuper now)).
Definition CountSuperAdmins (tenantID : Z) : Op Z :=
  select (fun w => Z.of_nat (length (users_where (fun u => user_live u && (u_TenantID u =? tenantID) && u_IsSuperAdmin u) w))).
Definition repo_ListSuperAdmins (tenantID : Z) : Op (list User) :=
  select (users_where (fun u => user_live u && (u_TenantID u =? tenantID) && u_IsSuperAdmin u)).

Definition repo_GetByID (id : Z) : Op User :=
  let! u := select (fun w => users w !! id) in
  match u with Some u => if user_live u then ret u else throw ErrRecordNotFound | None => throw ErrRecordNotFound end.
Definition GetAnyByID (id : Z) : Op User :=
  let! u := select (fun w => users w !! id) in
  match u with Some u => if in_tenant (u_TenantID u) then ret u else throw ErrRecordNotFound | None => throw ErrRecordNotFound end.
Definition named (tenantID : Z) (username : string) (u : User) : bool :=
  user_live u && (u_TenantID u =? tenantID) && bool_decide (lower (u_Username u) = lower username).
Definition GetByUsername (tenantID : Z) (username : string) : Op User := first_user (named tenantID username).
Definition GetByEmail (tenantID : Z) (email : string) : Op User :=
  first_user (fun u => user_live u && (u_TenantID u =? tenantID) && bool_decide (u_Email u = Some email)).
Definition GetByPhone (tenantID : Z) (phone : string) : Op User :=
  first_user (fun u => user_live u && (u_TenantID u =? tenantID) && bool_decide (u_Phone u = Some phone)).
Definition FindByUsernameFold (tenantID : Z) (username : string) (limit : nat) : Op (list User) :=
  select (fun w => take limit (users_where (named tenantID username) w)).

(** gorm's Save of a row that was read: every column of the row with this id is overwritten. When
    no live row has it, the row is inserted, and a row that is there but deleted is overwritten
    just the same. *)
Definition repo_Update (u : User) : Op unit := exec_or (put_user u).
Definition delete_user (id t : Z) (w : UserWorld) : UserWorld :=
  match users w !! id with
  | Some u => if user_live u then with_users <[id := set_deleted (Some t) (u_UpdatedAt u) u]> w else w
  | None => w
  end.
Definition repo_Delete (id : Z) : Op unit := let! now := time_now in exec (delete_user id now).
Definition restore_user (id t : Z) (w : UserWorld) : res UErr UserWorld :=
  match users w !! id with
  | Some u => if negb (bool_decide (u_DeletedAt u = None)) && in_tenant (u_TenantID u)
              then put_user (set_deleted None t u) w else Err ErrRecordNotFound
  | None => Err ErrRecordNotFound
  end.
Definition repo_RestoreUser (id : Z) : Op unit := let! now := time_now in exec_or (restore_user id now).
Definition CountByTenant (tenantID : Z) : Op Z :=
  select (fun w => Z.of_nat (length (users_where (fun u => user_live u && (u_TenantID u =? tenantID)) w))).
Definition CountAll : Op Z := select (fun w => Z.of_nat (length (users_where user_live w))).

Definition searchScope (search : string) (u : User) : bool :=
  bool_decide (search = ""%string) ||
  (let kw := "%" +:+ EscapeLike search +:+ "%" in
   let ilike_opt x := match x with Some s => ilike same_char kw s | None => false end in
   ilike same_char kw (u_Username u) || ilike_opt (u_Email u) || ilike_opt (u_Phone u) || ilike_opt (u_DisplayName u)).
Definition statusScope (status : option Z) (u : User) : bool := match status with Some st => u_Status u =? st | None => true end.
Definition orgScope (orgID : option Z) (w : UserWorld) (u : User) : bool :=
  match orgID with Some o => bool_decide ((u_ID u, o) ∈ user_orgs w) | None => true end.
Definition listed (tenantID : Z) (p : ListParams) (w : UserWorld) (u : User) : bool :=
  (if lp_IncludeDeleted p then in_tenant (u_TenantID u) else user_live u) && (u_TenantID u =? tenantID)
  && searchScope (lp_Search p) u && statusScope (lp_Status p) u && orgScope (lp_OrgID p) w u.
Definition newer (a b : User) : Prop := u_CreatedAt b <= u_CreatedAt a.
#[export] Instance newer_dec : RelDecision newer.
Proof. intros a b. unfold newer. apply _. Defined.
Definition repo_List (tenantID : Z) (p : ListParams) : Op (list User * Z) :=
  let! total := select (fun w => Z.of_nat (length (filter (fun u => listed tenantID p w u = true) (map_to_list (users w)).*2))) in
  let! rows := select (fun w => take (Z.to_nat (lp_PageSize p)) (drop (Z.to_nat ((lp_Page p - 1) * lp_PageSize p))
    (merge_sort newer (filter (fun u => listed tenantID p w u = true) (map_to_list (users w)).*2)))) in
  ret (rows, total).

Definition repo_UpdateStatus (id status : Z) : Op unit :=
  let! now := time_now in exec_or (update_user id ErrRecordNotFound (set_status status now)).
Definition UpdatePassword (id : Z) (hash : string) : Op unit :=
  let! now := time_now in exec_or (update_user id ErrRecordNotFound (set_password hash false now)).
Definition UpdateLastLogin (id : Z) (ip : string) : Op unit :=
  let! now := time_now in
  exec (fun w => match users w !! id with
                 | Some u => if user_live u then with_users <[id := set_login ip now u]> w else w
                 | None => w
                 end).

Definition CreateDetail (d : UserDetail) : Op unit := exec_or (insert_detail d).
Definition GetDetailByUserID (userID : Z) : Op UserDetail :=
  let! d := select (fun w => details w !! userID) in
  match d with Some d => ret d | None => throw ErrRecordNotFound end.
(** Save of a row that was read. *)
Definition save_detail (d : UserDetail) (w : UserWorld) : res UErr UserWorld :=
  match details w !! d_UserID d with
  | Some d' => if d_ID d' =? d_ID d then Ok (with_details <[d_UserID d := d]> w) else Err (ErrUnique "idx_user_detail_user")
  | None => insert_detail d w
  end.
Definition repo_UpdateDetail (d : UserDetail) : Op unit := exec_or (save_detail d).

Definition CreatePasswordHistory (h : UserPasswordHistory) : Op unit := exec_or (insert_history h).
Definition later (a b : UserPasswordHistory) : Prop := ph_CreatedAt b <= ph_CreatedAt a.
#[export] Instance later_dec : RelDecision later.
Proof. intros a b. unfold later. apply _. Defined.
Definition recent_history (userID limit : Z) (w : UserWorld) : list UserPasswordHistory :=
  take (Z.to_nat limit) (merge_sort later (filter (fun h => ph_UserID h = userID) (map_to_list (histories w)).*2)).
Definition GetPasswordHistory (userID limit : Z) : Op (list UserPasswordHistory) := select (recent_history userID limit).

Definition repo_CreateLoginRecord (r : LoginRecord) : Op unit :=
  exec_or (fun w => if bool_decide (is_Some (records w !! lr_ID r)) then Err (ErrUnique "mxid_login_record_pkey") else
    Ok (with_records <[lr_ID r := mkLoginRecord (lr_ID r) (stamp (lr_TenantID r)) (lr_UserID r) (lr_Username r) (lr_Success r)
          (lr_Stage r) (lr_AuthType r) (lr_Reason r) (lr_IP r) (lr_UserAgent r) (lr_CreatedAt r)]> w)).
Definition old_record (cutoff : Z) (r : LoginRecord) : bool := (lr_CreatedAt r <? cutoff) && in_tenant (lr_TenantID r).
Definition PurgeLoginRecordsOlderThan (cutoff : Z) : Op Z :=
  let! w := query ErrDB in
  do! write (with_records (filter (fun p : Z * LoginRecord => old_record cutoff p.2 = false))) in
  ret (Z.of_nat (length (filter (fun p : Z * LoginRecord => old_record cutoff p.2 = true) (map_to_list (records w))))).
Definition of_user (userID : Z) (r : LoginRecord) : bool := bool_decide (lr_UserID r = Some userID) && in_tenant (lr_TenantID r).
Definition record_newer (a b : LoginRecord) : Prop := lr_CreatedAt b <= lr_CreatedAt a.
#[export] Instance record_newer_dec : RelDecision record_newer.
Proof. intros a b. unfold record_newer. apply _. Defined.
Definition repo_ListLoginRecords (userID page pageSize : Z) : Op (list LoginRecord * Z) :=
  let! total := select (fun w => Z.of_nat (length (filter (fun r => of_user userID r = true) (map_to_list (records w)).*2))) in
  let! rows := select (fun w => take (Z.to_nat pageSize) (drop (Z.to_nat ((page - 1) * pageSize))
    (merge_sort record_newer (filter (fun r => of_user userID r = true) (map_to_list (records w)).*2)))) in
  ret (rows, total).

(** ** The bindings of external identities *)

Definition identity_newer (a b : UserIdentity) : Prop := ui_CreatedAt b <= ui_CreatedAt a.
#[export] Instance identity_newer_dec : RelDecision identity_newer.
Proof. intros a b. unfold identity_newer. apply _. Defined.
Definition repo_ListIdentities (userID : Z) : Op (list UserIdentity) :=
  select (fun w => merge_sort identity_newer (filter (fun i => identity_live i = true /\ ui_UserID i = userID) (map_to_list (identities w)).*2)).
Definition mark_unbound (t : Z) (i : UserIdentity) : UserIdentity :=
  mkUserIdentity (ui_ID i) (ui_UserID i) (ui_TenantID i) (ui_ProviderType i) (ui_ProviderID i) (ui_ExternalID i)
    (ui_ExternalName i) (ui_Extra i) (ui_CreatedAt i) (ui_UpdatedAt i) (Some t).
(** A soft delete: UPDATE ... SET deleted_at of the live rows. *)
Definition delete_identity (userID identityID t : Z) (w : UserWorld) : res UErr UserWorld :=
  match identities w !! identityID with
  | Some i => if identity_live i && (ui_UserID i =? userID)
              then Ok (with_identities <[identityID := mark_unbound t i]> w) else Err ErrRecordNotFound
  | None => Err ErrRecordNotFound
  end.
Definition repo_DeleteIdentity (userID identityID : Z) : Op unit :=
  let! now := time_now in exec_or (delete_identity userID identityID now).
Definition unbound_later (a b : UserIdentity) : Prop := default 0 (ui_DeletedAt b) <= default 0 (ui_DeletedAt a).
#[export] Instance unbound_later_dec : RelDecision unbound_later.
Proof. intros a b. unfold unbound_later. apply _. Defined.
Definition repo_ListDeletedIdentities (userID : Z) : Op (list UserIdentity) :=
  select (fun w => merge_sort unbound_later (filter (fun i => ui_UserID i = userID /\ ui_DeletedAt i <> None /\ in_tenant (ui_TenantID i) = true)
    (map_to_list (identities w)).*2)).
Definition mark_bound (t : Z) (i : UserIdentity) : UserIdentity :=
  mkUserIdentity (ui_ID i) (ui_UserID i) (ui_TenantID i) (ui_ProviderType i) (ui_ProviderID i) (ui_ExternalID i)
    (ui_ExternalName i) (ui_Extra i) (ui_CreatedAt i) t None.
(** Live bindings of the external account of [i] other than [i]. *)
Definition clashes (i : UserIdentity) (w : UserWorld) : list UserIdentity :=
  filter (fun i' => identity_live i' = true /\ ui_TenantID i' = ui_TenantID i /\ ui_ProviderType i' = ui_ProviderType i
                    /\ ui_ExternalID i' = ui_ExternalID i /\ ui_ID i' <> ui_ID i) (map_to_list (identities w)).*2.
Definition restore_identity (userID identityID t : Z) (w : UserWorld) : res UErr UserWorld :=
  match identities w !! identityID with
  | Some i => if in_tenant (ui_TenantID i) && (ui_UserID i =? userID) then put_identity (mark_bound t i) w else Ok w
  | None => Ok w
  end.
Definition taken {A} (m : Op A) : Op A :=
  attempt m (fun r => match r with
    | Ok a => ret a
    | Err e => if unique_violation_on e [uniqueExternalIDConstraint; uniqueExternalIDColumns] then throw ErrExternalIDTaken else throw e
    end).
Definition repo_RestoreIdentity (userID identityID : Z) : Op unit :=
  let! target := select (fun w => identities w !! identityID) in
  match target with
  | Some i =>
      if negb (in_tenant (ui_TenantID i) && (ui_UserID i =? userID)) then throw ErrRecordNotFound else
      if bool_decide (ui_DeletedAt i = None) then throw ErrIdentityAlreadyBound else
      let! clash := select (fun w => length (clashes i w)) in
      if (0 <? clash)%nat then throw ErrExternalIDTaken else
      let! now := time_now in
      taken (exec_or (restore_identity userID identityID now))
  | None => throw ErrRecordNotFound
  end.
(** UPDATE ... SET user_id, external_name, extra, deleted_at = NULL, updated_at WHERE id *)
Definition restore_to (i : UserIdentity) (w : UserWorld) : res UErr UserWorld :=
  match identities w !! ui_ID i with
  | Some r => if in_tenant (ui_TenantID r) then
      put_identity (mkUserIdentity (ui_ID r) (ui_UserID i) (ui_TenantID r) (ui_ProviderType r) (ui_ProviderID r) (ui_ExternalID r)
        (ui_ExternalName i) (ui_Extra i) (ui_CreatedAt r) (ui_UpdatedAt i) None) w
      else Ok w
  | None => Ok w
  end.
Definition RestoreIdentityTo (i : UserIdentity) : Op unit := taken (exec_or (restore_to i)).
Definition sweep (userID t : Z) (i : UserIdentity) : UserIdentity :=
  if identity_live i && (ui_UserID i =? userID) then mark_unbound t i else i.
Definition SoftDeleteIdentitiesByUser (userID : Z) : Op unit :=
  let! now := time_now in exec (with_identities (fmap (sweep userID now))).

Definition external_key (tenantID : Z) (providerType providerID externalID : string) (i : UserIdentity) : bool :=
  (ui_TenantID i =? tenantID) && bool_decide (ui_ProviderType i = providerType) && bool_decide (ui_ProviderID i = providerID)
  && bool_decide (ui_ExternalID i = externalID).
(** ORDER BY deleted_at IS NULL DESC, deleted_at DESC, id: those of the live rows come first. *)
Definition any_before (a b : UserIdentity) : Prop :=
  match ui_DeletedAt a, ui_DeletedAt b with
  | None, Some _ => True
  | Some _, None => False
  | None, None => ui_ID a <= ui_ID b
  | Some x, Some y => y < x \/ (x = y /\ ui_ID a <= ui_ID b)
  end.
#[export] Instance any_before_dec : RelDecision any_before.
Proof. intros a b. unfold any_before. destruct (ui_DeletedAt a), (ui_DeletedAt b); apply _. Defined.
Definition matching (P : UserIdentity -> bool) (w : UserWorld) : list UserIdentity :=
  merge_sort any_before (filter (fun i => P i = true) (map_to_list (identities w)).*2).
Definition first_identity (P : UserIdentity -> bool) : Op UserIdentity :=
  let! l := select (matching P) in
  match l with i :: _ => ret i | [] => throw ErrRecordNotFound end.
Definition GetIdentityByExternal (tenantID : Z) (providerType providerID externalID : string) : Op UserIdentity :=
  first_identity (fun i => identity_live i && external_key tenantID providerType providerID externalID i).
Definition GetAnyIdentityByExternal (tenantID : Z) (providerType providerID externalID : string) : Op UserIdentity :=
  first_identity (fun i => in_tenant (ui_TenantID i) && external_key tenantID providerType providerID externalID i).
Definition CreateIdentity (i : UserIdentity) : Op unit := taken (exec_or (insert_identity i)).
(** Save of a row that was read. *)
Definition UpdateIdentity (i : UserIdentity) : Op unit := exec_or (put_identity i).

(** ** service.go *)

(** [pwdPolicy] is the provider of the settings, None when it is not wired, and then [config]
    holds; [HashPassword p salt] is bcrypt's hash, None for its error; [userCap] is
    the cap of the license, None when no check is wired. *)
Context (pwdPolicy : option (Z -> PasswordPolicy)) (config : PasswordPolicy) (userCap : option Z).
Context (HashPassword : string -> string -> option string) (CheckPassword : string -> string -> bool).
(** crypto.HasUsablePassword *)
Definition NoLocalPasswordPrefix : string := "$2a$10$NO_LOCAL_PASSWORD_".
Definition HasUsablePassword (hash : string) : bool :=
  negb (bool_decide (hash = ""%string)) && negb (HasPrefix hash NoLocalPasswordPrefix).

Definition activePasswordPolicy (tenantID : Z) : PasswordPolicy :=
  match pwdPolicy with Some f => f tenantID | None => config end.
Definition special (r : Z) : bool := negb (is_upper r) && negb (is_lower r) && negb (is_digit r).
(** The rule that is broken first. *)
Definition broken_rule (p : PasswordPolicy) (pwd : string) : option UErr :=
  if (0 <? MinLength p) && (Z.of_nat (String.length pwd) <? MinLength p) then Some (ErrPasswordTooShort (MinLength p))
  else if RequireUppercase p && negb (existsb is_upper (runes pwd)) then Some ErrPasswordNeedUpper
  else if RequireLowercase p && negb (existsb is_lower (runes pwd)) then Some ErrPasswordNeedLower
  else if RequireNumber p && negb (existsb is_digit (runes pwd)) then Some ErrPasswordNeedDigit
  else if RequireSpecial p && negb (existsb special (runes pwd)) then Some ErrPasswordNeedSpecial
  else None.
Definition validatePassword (tenantID : Z) (pwd : string) : Op unit :=
  match broken_rule (activePasswordPolicy tenantID) pwd with Some e => throw e | None => ret tt end.
Definition PasswordMinLength (tenantID : Z) : Z := MinLength (activePasswordPolicy tenantID).

Definition or_user_not_found {A} (m : Op A) : Op A :=
  attempt m (fun r => match r with
    | Ok a => ret a
    | Err ErrRecordNotFound => throw ErrUserNotFound
    | Err e => throw e
    end).
(** [if _, err := get(); err == nil { return exists } else if !IsNotFound(err) { return err }] *)
Definition unless_found {A} (get : Op A) (exists_err : UErr) : Op unit :=
  attempt get (fun r => match r with
    | Ok _ => throw exists_err
    | Err ErrRecordNotFound => ret tt
    | Err e => throw e
    end).
Definition nonempty (x : option string) : option string := match x with Some EmptyString => None | _ => x end.

Definition RecordPIIView (actorID tenantID targetID : Z) (fields : list string) : Op unit :=
  publish (event UserPIIView [("user_id", I64 actorID); ("target_id", I64 targetID); ("tenant_id", I64 tenantID); ("fields", Strs fields)]).

Definition SetSuperAdmin (actorID tenantID targetID : Z) (makeSuper : bool) : Op unit :=
  attempt (repo_GetByID targetID) (fun r =>
    match r with
    | Err _ => throw ErrUserNotFound
    | Ok target =>
        if negb (u_TenantID target =? tenantID) then throw ErrUserNotFound else
        if Bool.eqb (u_IsSuperAdmin target) makeSuper then ret tt else
        do! (if makeSuper then ret tt else
             let! remaining := CountSuperAdmins tenantID in
             if remaining <=? 1 then throw ErrLastSuperAdmin else ret tt) in
        do! repo_SetSuperAdmin targetID makeSuper in
        publish (event (if makeSuper then UserSuperAdminGrant else UserSuperAdminRevoke)
          [("user_id", I64 actorID); ("target_id", I64 targetID); ("tenant_id", I64 tenantID); ("username", Str (u_Username target))])
    end).

(** The check of src/app/run.go: the count is over all tenants, and one that fails lets the user in. *)
Definition licenseQuota : Op unit :=
  match userCap with
  | None => ret tt
  | Some cap =>
      if cap <=? 0 then ret tt else
      attempt (select (fun w => Z.of_nat (length (users_where (fun u => bool_decide (u_DeletedAt u = None)) w)))) (fun r =>
        match r with
        | Err _ => ret tt
        | Ok n => if cap <=? n then throw ErrLicenseQuotaExceeded else ret tt
        end)
  end.

(** [salt] is what bcrypt draws. *)
Definition hash_password (pwd salt : string) : Op string :=
  match HashPassword pwd salt with Some h => ret h | None => throw ErrHash end.

Definition Create (tenantID : Z) (salt : string) (req : CreateUserRequest) : Op User :=
  do! licenseQuota in
  do! unless_found (GetByUsername tenantID (cu_Username req)) ErrUsernameExists in
  do! match nonempty (cu_Email req) with Some e => unless_found (GetByEmail tenantID e) ErrEmailExists | None => ret tt end in
  do! match nonempty (cu_Phone req) with Some p => unless_found (GetByPhone tenantID p) ErrPhoneExists | None => ret tt end in
  do! validatePassword tenantID (cu_Password req) in
  let! hash := hash_password (cu_Password req) salt in
  let! now := time_now in
  let status := default StatusActive (cu_Status req) in
  let! id := new_id in
  let user := mkUser id tenantID (cu_Username req) (cu_Email req) false None (cu_Phone req) (cu_DisplayName req) None hash
                status None None (Some now) false false false now now None None None in
  let! did := new_id in
  let detail := mkUserDetail did id None None None None None None None now now in
  let! hid := new_id in
  let history := mkPasswordHistory hid id hash now in
  do! CreateWithProfile user detail history in
  do! publish (event UserCreated [("user_id", I64 id); ("tenant_id", I64 tenantID); ("username", Str (cu_Username req));
                                  ("email", Str (default ""%string (cu_Email req)));
                                  ("display_name", Str (default ""%string (cu_DisplayName req)))]) in
  ret (stamp_user user).

Definition GetByID (id : Z) : Op User := or_user_not_found (repo_GetByID id).

(** A nonempty value that differs from the column's is looked up before it replaces it. *)
Definition change_to (cur req : option string) (find : string -> Op User) (exists_err : UErr) : Op (option string) :=
  match nonempty req with
  | Some v => do! (if bool_decide (cur = Some v) then ret tt else unless_found (find v) exists_err) in ret (Some v)
  | None => ret cur
  end.
Definition or_keep {A} (req cur : option A) : option A := match req with Some _ => req | None => cur end.
(** What Update does with the row it has read. *)
Definition Update_with (user : User) (tenantID : Z) (req : UpdateUserRequest) : Op User :=
  let! email := change_to (u_Email user) (uu_Email req) (GetByEmail tenantID) ErrEmailExists in
  let! phone := change_to (u_Phone user) (uu_Phone req) (GetByPhone tenantID) ErrPhoneExists in
  let! now := time_now in
  let user' := set_profile email phone (or_keep (uu_DisplayName req) (u_DisplayName user)) (or_keep (uu_Avatar req) (u_Avatar user))
                 (default (u_Status user) (uu_Status req)) now user in
  do! repo_Update user' in
  do! publish (event UserUpdated [("user_id", I64 (u_ID user')); ("tenant_id", I64 (u_TenantID user'))]) in
  ret user'.
Definition Update (id tenantID : Z) (req : UpdateUserRequest) : Op User :=
  let! user := or_user_not_found (repo_GetByID id) in
  Update_with user tenantID req.

Definition Delete (id : Z) : Op unit :=
  let! _ := or_user_not_found (repo_GetByID id) in
  do! SoftDeleteIdentitiesByUser id in
  do! repo_Delete id in
  publish (event UserDeleted [("user_id", I64 id)]).

Definition RestoreUser (id : Z) : Op unit :=
  do! or_user_not_found (repo_RestoreUser id) in
  publish (event UserUpdated [("user_id", I64 id); ("action", Str "user_restored")]).

Definition UpdateStatus (id status : Z) : Op unit :=
  do! or_user_not_found (repo_UpdateStatus id status) in
  let eventType := if status =? StatusLocked then UserLocked else if status =? StatusActive then UserUnlocked else UserUpdated in
  attempt (repo_GetByID id) (fun r =>
    let tenantID := match r with Ok u => u_TenantID u | Err _ => 0 end in
    publish (event eventType [("user_id", I64 id); ("status", Int status); ("tenant_id", I64 tenantID)])).

Definition checkPasswordHistory (userID : Z) (newPassword : string) : Op unit :=
  attempt (repo_GetByID userID) (fun r =>
    let tid := match r with Ok u => u_TenantID u | Err _ => 0 end in
    let historyCount := HistoryCount (activePasswordPolicy tid) in
    if historyCount <=? 0 then ret tt else
    let! history := GetPasswordHistory userID historyCount in
    if existsb (fun h => CheckPassword newPassword (ph_PasswordHash h)) history then throw ErrPasswordReused else ret tt).

(** What ChangePassword and SetInitialPassword do after their guards. *)
Definition new_password (id tenantID : Z) (newPassword salt : string) : Op unit :=
  do! validatePassword tenantID newPassword in
  do! checkPasswordHistory id newPassword in
  let! hash := hash_password newPassword salt in
  do! UpdatePassword id hash in
  let! hid := new_id in
  let! now := time_now in
  do! CreatePasswordHistory (mkPasswordHistory hid id hash now) in
  publish (event UserPasswordChanged [("user_id", I64 id)]).
Definition ChangePassword (id : Z) (oldPassword newPassword salt : string) : Op unit :=
  let! user := or_user_not_found (repo_GetByID id) in
  if negb (CheckPassword oldPassword (u_PasswordHash user)) then throw ErrInvalidPassword else
  new_password id (u_TenantID user) newPassword salt.
Definition SetInitialPassword (id : Z) (newPassword salt : string) : Op unit :=
  let! user := or_user_not_found (repo_GetByID id) in
  if HasUsablePassword (u_PasswordHash user) then throw ErrPasswordAlreadySet else
  new_password id (u_TenantID user) newPassword salt.
Definition ResetPassword (id : Z) (newPassword : string) (must : option bool) (salt : string) : Op unit :=
  let! user := or_user_not_found (repo_GetByID id) in
  do! validatePassword (u_TenantID user) newPassword in
  do! checkPasswordHistory id newPassword in
  let! hash := hash_password newPassword salt in
  let mustChange := default true must in
  let! hid := new_id in
  let! now := time_now in
  do! ResetPasswordTx id hash mustChange (mkPasswordHistory hid id hash now) in
  publish (event UserPasswordChanged [("user_id", I64 id); ("admin_reset", Bln true)]).

Definition requireUser (userID : Z) : Op unit :=
  let! _ := or_user_not_found (repo_GetByID userID) in ret tt.
Definition GetDetail (userID : Z) : Op UserDetail :=
  do! requireUser userID in
  attempt (GetDetailByUserID userID) (fun r => match r with
    | Ok d => ret d
    | Err ErrRecordNotFound => throw ErrDetailNotFound
    | Err e => throw e
    end).

(** nil leaves the value, "" clears it. *)
Definition patch (req cur : option string) : option string :=
  match req with None => cur | Some EmptyString => None | Some v => Some v end.
Definition patch_detail (req : UpdateDetailRequest) (t : Z) (d : UserDetail) : UserDetail :=
  mkUserDetail (d_ID d) (d_UserID d) (or_keep (ud_Gender req) (d_Gender d)) (patch (ud_Birthday req) (d_Birthday d))
    (patch (ud_Address req) (d_Address d)) (patch (ud_EmployeeNo req) (d_EmployeeNo d)) (patch (ud_JobTitle req) (d_JobTitle d))
    (patch (ud_Department req) (d_Department d)) (d_Extra d) (d_CreatedAt d) t.
Definition UpsertDetail (userID : Z) (req : UpdateDetailRequest) : Op UserDetail :=
  let! usr := or_user_not_found (repo_GetByID userID) in
  attempt (GetDetailByUserID userID) (fun r =>
    let! dc := match r with
      | Ok d => ret (d, false)
      | Err ErrRecordNotFound =>
          let! now := time_now in
          let! did := new_id in
          ret (mkUserDetail did userID None None None None None None None now now, true)
      | Err e => throw e
      end in
    let! now := time_now in
    let detail := patch_detail req now dc.1 in
    do! (if dc.2 : bool then CreateDetail detail else repo_UpdateDetail detail) in
    do! publish (event UserUpdated [("user_id", I64 userID); ("tenant_id", I64 (u_TenantID usr))]) in
    ret detail).

Definition or_identity_not_found {A} (m : Op A) : Op A :=
  attempt m (fun r => match r with
    | Ok a => ret a
    | Err ErrRecordNotFound => throw ErrIdentityNotFound
    | Err e => throw e
    end).
Definition UnbindIdentity (userID identityID : Z) : Op unit :=
  do! or_identity_not_found (repo_DeleteIdentity userID identityID) in
  publish (event UserUpdated [("user_id", I64 userID); ("action", Str "identity_unbound"); ("identity_id", I64 identityID)]).
Definition RestoreIdentity (userID identityID : Z) : Op unit :=
  let! _ := attempt (repo_GetByID userID) (fun r => match r with
    | Ok u => ret u
    | Err ErrRecordNotFound => throw ErrIdentityOwnerDeleted
    | Err e => throw e
    end) in
  do! or_identity_not_found (repo_RestoreIdentity userID identityID) in
  publish (event UserUpdated [("user_id", I64 userID); ("action", Str "identity_restored"); ("identity_id", I64 identityID)]).

Definition LockUser (id : Z) (reason : string) (actorID : Z) : Op unit :=
  do! or_user_not_found (repo_UpdateStatus id StatusLocked) in
  publish (event UserLocked [("user_id", I64 id); ("status", Int StatusLocked); ("reason", Str reason); ("source", Str "admin"); ("actor_id", I64 actorID)]).
Definition UnlockUser (id actorID : Z) : Op unit :=
  do! or_user_not_found (repo_UpdateStatus id StatusActive) in
  publish (event UserUnlocked [("user_id", I64 id); ("source", Str "admin"); ("actor_id", I64 actorID)]).

Definition action_name (a : BatchActionKind) : string :=
  match a with BatchActionEnable => "enable" | BatchActionDisable => "disable" | BatchActionDelete => "delete" end.
Definition batch_one (action : BatchActionKind) (id : Z) : Op unit :=
  match action with
  | BatchActionEnable => UpdateStatus id StatusActive
  | BatchActionDisable => UpdateStatus id StatusDisabled
  | BatchActionDelete => Delete id
  end.
Fixpoint batch_loop (action : BatchActionKind) (ids : list Z) (affected : Z) (errors : list (Z * UErr)) : Op (Z * list (Z * UErr)) :=
  match ids with
  | [] => ret (affected, errors)
  | id :: rest =>
      attempt (batch_one action id) (fun r => match r with
        | Ok _ => batch_loop action rest (affected + 1) errors
        | Err e => batch_loop action rest affected (errors ++ [(id, e)])
        end)
  end.
Definition BatchAction (ids : list Z) (action : BatchActionKind) (actorID : Z) : Op (Z * list (Z * UErr)) :=
  let! resp := batch_loop action ids 0 [] in
  do! (if actorID =? 0 then ret tt else
       publish (event UserUpdated [("action", Str ("batch_" +:+ action_name action)); ("actor_id", I64 actorID);
                                   ("affected", Int resp.1); ("failed", Int (Z.of_nat (length resp.2)))])) in
  ret resp.

(** login_record.go *)
Definition RecordLogin (r : LoginRecord) : Op unit :=
  let! id := (if lr_ID r =? 0 then new_id else ret (lr_ID r)) in
  let! now := time_now in
  let created := if lr_CreatedAt r =? 0 then now else lr_CreatedAt r in
  let stage := if bool_decide (lr_Stage r = ""%string) then "password"%string else lr_Stage r in
  repo_CreateLoginRecord (mkLoginRecord id (lr_TenantID r) (lr_UserID r) (lr_Username r) (lr_Success r) stage (lr_AuthType r)
    (lr_Reason r) (lr_IP r) (lr_UserAgent r) created).
Definition ListLoginRecords (userID page pageSize : Z) : Op (list LoginRecord * Z) :=
  repo_ListLoginRecords userID (if page <=? 0 then 1 else page) (if pageSize <=? 0 then 20 else pageSize).
End User.
Arguments UserWorld : clear implicits.
