(* ===== verification/UserExternal.v ===== *)
(** * UserExternal: signing in with, and binding, an external identity

    src/internal/domain/user/external_login.go: which account an identity of an external
    provider belongs to, when one is made for it, and who may bind it. *)

From Stdlib Require Import Ascii.
From S2P Require Import Prelude Statements Text User.
#[global] Open Scope Z_scope.

(** [in_Raw] is the JSON of the profile, None when it is empty or cannot be encoded. *)
Record ExternalLoginInput : Type := mkExternalLogin {
  in_TenantID : Z; in_ProviderType : string; in_ProviderID : string; in_ExternalID : string; in_Username : string;
  in_DisplayName : string; in_Email : string; in_Phone : string; in_Avatar : string; in_Raw : option string; in_AutoCreate : bool
}.
Record BindIdentityInput : Type := mkBindIdentity {
  bi_TenantID : Z; bi_UserID : Z; bi_ProviderType : string; bi_ProviderID : string; bi_ExternalID : string;
  bi_DisplayName : string; bi_Raw : option string; bi_LinkedAtLogin : bool
}.

Definition linkMatchName (raw : string) : string :=
  let name := TrimSpace raw in
  let name := match before_last "@" name with Some (String _ _ as n) => n | _ => name end in
  TrimSpace name.

(** alphanumerics, dot, dash and underscore stay *)
Definition sanitise (r : Z) : ascii :=
  if is_lower r || is_upper r || is_digit r || (r =? 46) || (r =? 45) || (r =? 95) then ascii_of_N (Z.to_N r) else "_"%char.
Definition pickUsername (i : ExternalLoginInput) : string :=
  let u := linkMatchName (in_Username i) in
  let u := if bool_decide (u = ""%string) && negb (bool_decide (in_Email i = ""%string)) then before_first "@" (in_Email i) else u in
  let u := if bool_decide (u = ""%string) then in_ProviderType i +:+ "_" +:+ in_ExternalID i else u in
  let out := map_ascii sanitise u in
  let out := if (64 <? String.length out)%nat then String.substring 0 64 out else out in
  if bool_decide (out = ""%string) then "user" else out.

Definition bindAuditAction (i : BindIdentityInput) : string :=
  if bi_LinkedAtLogin i then "identity_linked_at_login" else "identity_bound".
Definition str_opt (s : string) : option string := if bool_decide (s = ""%string) then None else Some s.

Section External.
Context {G : Type} `{!IdGen G} (lower : string -> string) (scope : option Z).
Abbreviation Op := (M (Store (UserWorld G)) UErr).
Abbreviation GetByID' := (repo_GetByID scope).

Definition findLinkCandidate (i : ExternalLoginInput) : Op (option (Z * string * string)) :=
  let name := linkMatchName (in_Username i) in
  if bool_decide (name = ""%string) then ret None else
  let! matches := FindByUsernameFold lower scope (in_TenantID i) name 2 in
  match matches with
  | [] => ret None
  | [candidate] =>
      let! existing := repo_ListIdentities scope (u_ID candidate) in
      if existsb (fun b => bool_decide (ui_ProviderType b = in_ProviderType i)) existing then throw ErrExternalLinkAmbiguous else
      ret (Some (u_ID candidate, u_Username candidate, default ""%string (u_Email candidate)))
  | _ => throw ErrExternalLinkAmbiguous
  end.

(** The first variant of [base] no live account has, in at most [n] tries. *)
Fixpoint alloc_from (n : nat) (k : Z) (tenantID : Z) (base candidate : string) : Op string :=
  match n with
  | O => throw ErrNoUsername
  | S n' =>
      attempt (GetByUsername lower scope tenantID candidate) (fun r => match r with
        | Err ErrRecordNotFound => ret candidate
        | Err e => throw e
        | Ok _ => alloc_from n' (k + 1) tenantID base (base +:+ "-" +:+ dec (k + 1))
        end)
  end.
Definition allocUsername (tenantID : Z) (base : string) : Op string := alloc_from 1000 0 tenantID base base.

(** A live binding with what the provider says now, and whether anything changed. *)
Definition refreshed (i : ExternalLoginInput) (b : UserIdentity) : UserIdentity * bool :=
  let named := negb (bool_decide (in_DisplayName i = ""%string)) && negb (bool_decide (ui_ExternalName b = Some (in_DisplayName i))) in
  (mkUserIdentity (ui_ID b) (ui_UserID b) (ui_TenantID b) (ui_ProviderType b) (ui_ProviderID b) (ui_ExternalID b)
     (if named then Some (in_DisplayName i) else ui_ExternalName b) (or_keep (in_Raw i) (ui_Extra b)) (ui_CreatedAt b) (ui_UpdatedAt b) (ui_DeletedAt b),
   named || bool_decide (is_Some (in_Raw i))).
Definition touch (t : Z) (b : UserIdentity) : UserIdentity :=
  mkUserIdentity (ui_ID b) (ui_UserID b) (ui_TenantID b) (ui_ProviderType b) (ui_ProviderID b) (ui_ExternalID b)
    (ui_ExternalName b) (ui_Extra b) (ui_CreatedAt b) t (ui_DeletedAt b).

Definition login_bound (i : ExternalLoginInput) (binding : UserIdentity) : Op User :=
  let '(b, updated) := refreshed i binding in
  let! _ := (if updated : bool then
               let! now := time_now in attempt (UpdateIdentity (touch now b)) (fun _ => ret tt)
             else ret tt) in
  attempt (GetByID' (ui_UserID b)) (fun r => match r with
    | Ok u => ret u
    | Err ErrRecordNotFound => throw ErrExternalUserDeleted
    | Err e => throw e
    end).

(** Why an identity that was bound once is refused. *)
Definition login_unbound (prior : UserIdentity) : Op User :=
  attempt (GetAnyByID scope (ui_UserID prior)) (fun r => match r with
    | Err ErrRecordNotFound => throw ErrExternalUserDeleted
    | Err e => throw e
    | Ok u => if bool_decide (u_DeletedAt u = None) then throw ErrExternalUserNotLinked else throw ErrExternalUserDeleted
    end).

(** The value, when no account has it yet; a lookup that fails leaves it out. *)
Definition if_free (v : string) (find : string -> Op User) : Op (option string) :=
  if bool_decide (v = ""%string) then ret None else
  attempt (find v) (fun r => ret match r with Err ErrRecordNotFound => Some v | _ => None end).

(** [dummy] is the hex of the 32 bytes drawn for the placeholder, None when drawing fails. *)
Definition provision (i : ExternalLoginInput) (dummy : option string) : Op User :=
  let! finalUsername := allocUsername (in_TenantID i) (pickUsername i) in
  let! now := time_now in
  let! id := new_id in
  let! email := if_free (in_Email i) (GetByEmail scope (in_TenantID i)) in
  let! phone := if_free (in_Phone i) (GetByPhone scope (in_TenantID i)) in
  match dummy with
  | None => throw ErrRand
  | Some hex =>
      let user := mkUser id (in_TenantID i) finalUsername email false None phone (str_opt (in_DisplayName i)) (str_opt (in_Avatar i))
                    (NoLocalPasswordPrefix +:+ hex) StatusActive None None None false false false now now None None None in
      let! did := new_id in
      let detail := mkUserDetail did id None None None None None None None now now in
      let! iid := new_id in
      let identity := mkUserIdentity iid id (in_TenantID i) (in_ProviderType i) (in_ProviderID i) (in_ExternalID i)
                        (str_opt (in_DisplayName i)) (in_Raw i) now now None in
      do! CreateWithIdentity lower scope user detail identity in
      ret (stamp_user scope user)
  end.

Definition ResolveExternalLogin (i : ExternalLoginInput) (dummy : option string) : Op User :=
  if bool_decide (in_ExternalID i = ""%string) then throw ErrExternalIDRequired else
  attempt (GetIdentityByExternal scope (in_TenantID i) (in_ProviderType i) (in_ProviderID i) (in_ExternalID i)) (fun r =>
  match r with
  | Ok binding => login_bound i binding
  | Err ErrRecordNotFound =>
      attempt (GetAnyIdentityByExternal scope (in_TenantID i) (in_ProviderType i) (in_ProviderID i) (in_ExternalID i)) (fun r' =>
      match r' with
      | Ok prior => login_unbound prior
      | Err ErrRecordNotFound =>
          let! link := findLinkCandidate i in
          match link with
          | Some (id, username, email) => throw (ErrExternalLinkRequired id username email)
          | None => if negb (in_AutoCreate i) then throw ErrExternalUserNotLinked else provision i dummy
          end
      | Err e => throw e
      end)
  | Err e => throw e
  end).

(** ** Binding an identity to an account *)

(** The row the caller is given, with what the provider says of it. *)
Definition reassigned (i : BindIdentityInput) (userID t : Z) (b : UserIdentity) : UserIdentity :=
  mkUserIdentity (ui_ID b) userID (ui_TenantID b) (ui_ProviderType b) (ui_ProviderID b) (ui_ExternalID b)
    (or_keep (str_opt (bi_DisplayName i)) (ui_ExternalName b)) (or_keep (bi_Raw i) (ui_Extra b)) (ui_CreatedAt b) t (ui_DeletedAt b).
Definition bound_event (i : BindIdentityInput) : UEvent :=
  event UserUpdated [("user_id", I64 (bi_UserID i)); ("action", Str (bindAuditAction i)); ("provider", Str (bi_ProviderType i))].
Definition reclaimIdentity (existing : UserIdentity) (i : BindIdentityInput) : Op unit :=
  let! now := time_now in
  do! RestoreIdentityTo scope (reassigned i (ui_UserID existing) now existing) in
  publish (bound_event i).
Definition takeOverIdentity (existing : UserIdentity) (i : BindIdentityInput) : Op unit :=
  let! now := time_now in
  do! RestoreIdentityTo scope (reassigned i (bi_UserID i) now existing) in
  publish (event UserUpdated [("user_id", I64 (bi_UserID i)); ("action", Str "identity_taken_over");
                              ("provider", Str (bi_ProviderType i)); ("previous_user_id", I64 (ui_UserID existing))]).
Definition bind_existing (existing : UserIdentity) (i : BindIdentityInput) : Op unit :=
  if ui_UserID existing =? bi_UserID i then
    if bool_decide (ui_DeletedAt existing = None) then ret tt else reclaimIdentity existing i
  else if bool_decide (ui_DeletedAt existing = None) then
    attempt (GetByID' (ui_UserID existing)) (fun r => match r with
      | Ok _ => throw ErrExternalIDTaken
      | Err ErrRecordNotFound => takeOverIdentity existing i
      | Err e => throw e
      end)
  else takeOverIdentity existing i.
Definition bind_new (i : BindIdentityInput) : Op unit :=
  let! now := time_now in
  let! id := new_id in
  do! CreateIdentity scope (mkUserIdentity id (bi_UserID i) (bi_TenantID i) (bi_ProviderType i) (bi_ProviderID i) (bi_ExternalID i)
        (str_opt (bi_DisplayName i)) (bi_Raw i) now now None) in
  publish (bound_event i).
Definition BindExternalIdentity (i : BindIdentityInput) : Op unit :=
  if bool_decide (bi_ExternalID i = ""%string) || (bi_UserID i =? 0) then throw ErrExternalIDRequired else
  let! caller := or_user_not_found (GetByID' (bi_UserID i)) in
  if negb (u_TenantID caller =? bi_TenantID i) then throw ErrUserNotFound else
  attempt (GetAnyIdentityByExternal scope (bi_TenantID i) (bi_ProviderType i) (bi_ProviderID i) (bi_ExternalID i)) (fun r =>
  match r with
  | Ok existing => bind_existing existing i
  | Err ErrRecordNotFound => bind_new i
  | Err e => throw e
  end).
End External.
