(* ===== verification/UserProps.v ===== *)
(** * UserProps: what the tables of the accounts keep

    [user_inv]: the rows are stored under their ids, the partial unique indexes hold, and every live
    binding of an external identity belongs to a live account of its tenant. *)

From stdpp Require Import sorting.
From Stdlib Require Import Ascii.
From S2P Require Import Prelude Statements Text User UserExternal.
#[global] Open Scope Z_scope.

Section Inv.
Context {G : Type} `{!IdGen G} (lower : string -> string).
Abbreviation W := (UserWorld G).
Implicit Types w : W.

(** Two rows that may not both be live. *)
Definition same_account (u u' : User) : Prop :=
  u_TenantID u' = u_TenantID u /\
  (lower (u_Username u') = lower (u_Username u) \/ u_Email u <> None /\ u_Email u' = u_Email u \/ u_Phone u <> None /\ u_Phone u' = u_Phone u).
Definition same_external (i i' : UserIdentity) : Prop :=
  ui_TenantID i' = ui_TenantID i /\ ui_ProviderType i' = ui_ProviderType i /\ ui_ExternalID i' = ui_ExternalID i.

Record user_inv w : Prop := {
  users_keyed : forall id u, users w !! id = Some u -> u_ID u = id;
  identities_keyed : forall id i, identities w !! id = Some i -> ui_ID i = id;
  accounts_distinct : forall id u id' u', users w !! id = Some u -> users w !! id' = Some u' ->
    u_DeletedAt u = None -> u_DeletedAt u' = None -> same_account u u' -> id' = id;
  externals_distinct : forall id i id' i', identities w !! id = Some i -> identities w !! id' = Some i' ->
    ui_DeletedAt i = None -> ui_DeletedAt i' = None -> same_external i i' -> id' = id;
  owners : forall id i, identities w !! id = Some i ->
    exists u, users w !! ui_UserID i = Some u /\ u_TenantID u = ui_TenantID i /\ (ui_DeletedAt i = None -> u_DeletedAt u = None)
}.

Lemma user_inv_same w w' : users w' = users w -> identities w' = identities w -> user_inv w -> user_inv w'.
Proof. intros Hu Hi []. split; rewrite ?Hu, ?Hi; done. Qed.

Lemma user_conflict_none us u u' :
  user_conflict lower us u = None -> u_DeletedAt u = None -> us !! u_ID u' = Some u' -> u_ID u' <> u_ID u ->
  u_DeletedAt u' = None -> ~ same_account u u'.
Proof.
  unfold user_conflict. intros Hc Hd Hl Hne Hd' [Ht Hsame]. rewrite bool_decide_eq_true_2 in Hc by done.
  assert (other_live u u') as Ho by done. cbn [negb] in Hc.
  case_bool_decide as Hx; [done|]. case_bool_decide as Hx0; [done|]. case_bool_decide as Hx1; [done|].
  destruct Hsame as [Hn|[[He1 He2]|[Hp1 Hp2]]]; [apply Hx1 | apply Hx | apply Hx0]; exists (u_ID u'), u'; done.
Qed.

(** A live row is put: over a row of the same tenant, or where there was none. *)
Lemma put_user_inv u w w' :
  user_inv w -> u_DeletedAt u = None -> (forall u0, users w !! u_ID u = Some u0 -> u_TenantID u0 = u_TenantID u) ->
  put_user lower u w = Ok w' -> user_inv w'.
Proof.
  intros [Huk Hik Hac Hex How] Hd Hold. unfold put_user. destruct (user_conflict _ _ _) eqn:Hc; [done|]. intros [= <-].
  assert (forall id' u', users w !! id' = Some u' -> id' <> u_ID u -> u_DeletedAt u' = None -> ~ same_account u u') as Hnew.
  { intros id' u' Hl Hne Hd'. pose proof (Huk _ _ Hl) as <-. eapply user_conflict_none; done. }
  split; cbn [users identities with_users].
  - intros id u1. rewrite lookup_insert_Some. intros [[<- <-]|[_ H]]; [done | by apply Huk].
  - exact Hik.
  - intros id u1 id' u2. rewrite !lookup_insert_Some. intros [[<- <-]|[Hne H1]] [[<- <-]|[Hne' H2]] Hd1 Hd2 Hs; [done| | |by eapply Hac].
    + exfalso. eapply Hnew; [exact H2 | congruence | done | done].
    + exfalso. eapply Hnew; [exact H1 | congruence | done |]. destruct Hs as [Ht Hs]. split; [done|].
      destruct Hs as [?|[[? ?]|[? ?]]]; [by left | right; left; split; congruence | right; right; split; congruence].
  - exact Hex.
  - intros id i Hi. destruct (How _ _ Hi) as (u1 & H1 & Ht & Hl). destruct (decide (ui_UserID i = u_ID u)) as [He|Hne].
    + exists u. rewrite He, lookup_insert_eq. rewrite He in H1. apply Hold in H1. split_and!; [done | congruence | done].
    + exists u1. rewrite lookup_insert_ne by congruence. done.
Qed.

(** What an index looks at, and the owner of a binding. *)
Definition keeps_key (f : User -> User) : Prop := forall u,
  u_ID (f u) = u_ID u /\ u_TenantID (f u) = u_TenantID u /\ u_DeletedAt (f u) = u_DeletedAt u /\
  u_Username (f u) = u_Username u /\ u_Email (f u) = u_Email u /\ u_Phone (f u) = u_Phone u.

Lemma update_user_inv scope id e f w w' :
  user_inv w -> keeps_key f -> update_user scope id e f w = Ok w' -> user_inv w'.
Proof.
  intros [Huk Hik Hac Hex How] Hf. unfold update_user. destruct (users w !! id) as [u|] eqn:Hu; [|done].
  destruct (user_live _ _); [|done]. intros [= <-]. destruct (Hf u) as (F1 & F2 & F3 & F4 & F5 & F6).
  assert (forall id1 u1, <[id := f u]> (users w) !! id1 = Some u1 -> exists u0, users w !! id1 = Some u0 /\ u_ID u1 = u_ID u0
    /\ u_TenantID u1 = u_TenantID u0 /\ u_DeletedAt u1 = u_DeletedAt u0 /\ u_Username u1 = u_Username u0 /\ u_Email u1 = u_Email u0
    /\ u_Phone u1 = u_Phone u0) as Hold.
  { intros id1 u1. rewrite lookup_insert_Some. intros [[<- <-]|[_ H]]; eauto 10. }
  split; cbn [users identities with_users].
  - intros id1 u1 H1. destruct (Hold _ _ H1) as (u0 & H0 & -> & _). by apply Huk.
  - exact Hik.
  - intros id1 u1 id2 u2 H1 H2 Hd1 Hd2. destruct (Hold _ _ H1) as (v1 & L1 & _ & E1 & D1 & N1 & M1 & P1), (Hold _ _ H2) as (v2 & L2 & _ & E2 & D2 & N2 & M2 & P2).
    unfold same_account. rewrite E1, E2, N1, N2, M1, M2, P1, P2. intros Hs. eapply Hac; [exact L1 | exact L2 | congruence.. | exact Hs].
  - exact Hex.
  - intros i1 i Hi. destruct (How _ _ Hi) as (u1 & H1 & Ht & Hl). destruct (decide (ui_UserID i = id)) as [He|Hne].
    + exists (f u). rewrite He, lookup_insert_eq. rewrite He, Hu in H1. injection H1 as <-. split_and!; [done | congruence |].
      intros Hx. rewrite F3. by apply Hl.
    + exists u1. rewrite lookup_insert_ne by done. done.
Qed.

(** The account goes once none of its bindings is live. *)
Definition swept (id : Z) w : Prop := forall iid i, identities w !! iid = Some i -> ui_UserID i = id -> ui_DeletedAt i <> None.

Lemma delete_user_inv scope id t w :
  user_inv w -> (forall u, users w !! id = Some u -> user_live scope u = true -> swept id w) -> user_inv (delete_user scope id t w).
Proof.
  intros Hinv Hsw. unfold delete_user. destruct (users w !! id) as [u|] eqn:Hu; [|done].
  destruct (user_live scope u) eqn:Hl; [|done]. specialize (Hsw u eq_refl Hl). destruct Hinv as [Huk Hik Hac Hex How].
  split; cbn [users identities with_users].
  - intros id1 u1. rewrite lookup_insert_Some. intros [[<- <-]|[_ H]]; [by apply (Huk _ u) | by apply Huk].
  - exact Hik.
  - intros id1 u1 id2 u2. rewrite !lookup_insert_Some. intros [[<- <-]|[_ H1]] [[<- <-]|[_ H2]] D1 D2; try done. by eapply Hac.
  - exact Hex.
  - intros i1 i Hi. destruct (How _ _ Hi) as (u1 & H1 & Ht & Hx). destruct (decide (ui_UserID i = id)) as [He|Hne].
    + exists (set_deleted (Some t) (u_UpdatedAt u) u). rewrite He, lookup_insert_eq. rewrite He, Hu in H1. injection H1 as <-.
      split_and!; [done | done |]. intros Hd. by destruct (Hsw _ _ Hi He).
    + exists u1. rewrite lookup_insert_ne by done. done.
Qed.

(** A binding is put whose owner is there, and live if it is. *)
Lemma put_identity_inv i w w' u :
  user_inv w -> users w !! ui_UserID i = Some u -> u_TenantID u = ui_TenantID i -> (ui_DeletedAt i = None -> u_DeletedAt u = None) ->
  put_identity i w = Ok w' -> user_inv w'.
Proof.
  intros [Huk Hik Hac Hex How] Hu Ht Hl. unfold put_identity. case_bool_decide; [|done]. cbn [negb].
  case_bool_decide as Hc; [done|]. intros [= <-].
  assert (forall id' i', identities w !! id' = Some i' -> id' <> ui_ID i -> ui_DeletedAt i = None -> ui_DeletedAt i' = None -> ~ same_external i i') as Hnew.
  { intros id' i' Hi' Hne Hd Hd' (E1 & E2 & E3). apply Hc. split; [done|]. exists id', i'. split_and!; try done. by rewrite (Hik _ _ Hi'). }
  split; cbn [users identities with_identities].
  - exact Huk.
  - intros id1 i1. rewrite lookup_insert_Some. intros [[<- <-]|[_ H1]]; [done | by apply Hik].
  - exact Hac.
  - intros id1 i1 id2 i2. rewrite !lookup_insert_Some. intros [[<- <-]|[N1 H1]] [[<- <-]|[N2 H2]] D1 D2 Hs; [done| | |by eapply Hex].
    + exfalso. eapply Hnew; [exact H2 | congruence | done..].
    + exfalso. eapply Hnew; [exact H1 | congruence | done | done |]. destruct Hs as (? & ? & ?). done.
  - intros id1 i1. rewrite lookup_insert_Some. intros [[<- <-]|[_ H1]]; [by exists u | by apply How in H1].
Qed.

(** Bindings that only lose their being live. *)
Lemma unbind_inv (f : UserIdentity -> UserIdentity) w w' :
  users w' = users w -> identities w' = f <$> identities w ->
  (forall i, f i = i \/ exists t, f i = mark_unbound t i) -> user_inv w -> user_inv w'.
Proof.
  intros Hu Hi Hf [Huk Hik Hac Hex How].
  assert (forall id i', identities w' !! id = Some i' -> exists i, identities w !! id = Some i /\ ui_ID i' = ui_ID i /\ ui_UserID i' = ui_UserID i
    /\ ui_TenantID i' = ui_TenantID i /\ ui_ProviderType i' = ui_ProviderType i /\ ui_ExternalID i' = ui_ExternalID i
    /\ (ui_DeletedAt i' = None -> ui_DeletedAt i = None)) as Hold.
  { intros id i'. rewrite Hi, lookup_fmap_Some. intros (i & <- & Hl). exists i. destruct (Hf i) as [->|[t ->]]; done. }
  split; rewrite ?Hu.
  - exact Huk.
  - intros id i' Hl. destruct (Hold _ _ Hl) as (i & H0 & -> & _). by apply Hik.
  - exact Hac.
  - intros id1 i1 id2 i2 H1 H2 D1 D2. destruct (Hold _ _ H1) as (j1 & L1 & _ & _ & T1 & P1 & E1 & X1), (Hold _ _ H2) as (j2 & L2 & _ & _ & T2 & P2 & E2 & X2).
    unfold same_external. rewrite T1, T2, P1, P2, E1, E2. intros Hs. eapply Hex; eauto.
  - intros id i' Hl. destruct (Hold _ _ Hl) as (i & H0 & _ & E1 & E2 & _ & _ & X). destruct (How _ _ H0) as (u & L & T & D).
    exists u. rewrite E1, E2. auto.
Qed.

Lemma sweep_swept scope id t w w' :
  user_inv w -> users w' = users w -> identities w' = sweep scope id t <$> identities w ->
  forall u, users w' !! id = Some u -> in_tenant scope (u_TenantID u) = true -> swept id w'.
Proof.
  intros Hinv Hus His u Hu Ht iid i. rewrite His, lookup_fmap_Some. intros (j & <- & Hj). rewrite Hus in Hu.
  destruct (owners _ Hinv _ _ Hj) as (v & Hv & Hvt & _). unfold sweep, identity_live.
  destruct (bool_decide (ui_DeletedAt j = None)) eqn:Hd; cbn [andb]; to_prop; [|done].
  destruct (in_tenant scope (ui_TenantID j)) eqn:Hit; cbn [andb].
  - destruct (Z.eqb_spec (ui_UserID j) id); [done | congruence].
  - intros He. rewrite He, Hu in Hv. injection Hv as <-. congruence.
Qed.
End Inv.

(** ** The operations keep it *)

(** Follows the code: statements that only read keep anything. *)
Ltac follow :=
  repeat match goal with
    | |- keeps _ (bind _ _) => apply keeps_bind; [|intros ?]
    | |- keeps _ (attempt _ _) => apply keeps_attempt; [|intros ?]
    | |- keeps _ (match ?x with _ => _ end) => destruct x
    | |- keeps _ _ => solve [eauto 3 with mxid]
    end.

(** Once the invariant is back, the rest has to keep it. *)
Lemma keeps_after {D E A B} (P I : D -> Prop) (m : M (Store D) E A) (k : A -> M (Store D) E B) :
  on_db P m (fun w _ => I w) -> (forall a, keeps I (k a)) -> on_db P (bind m k) (fun w _ => I w).
Proof. intros Hm Hk. eapply on_db_bind; [exact Hm | exact Hk | done]. Qed.

Section Ops.
Context {G : Type} `{!IdGen G} (lower : string -> string) (scope : option Z).
Abbreviation W := (UserWorld G).
Implicit Types I : W -> Prop.

Definition about_rows I : Prop := forall w w' : W, users w' = users w -> identities w' = identities w -> I w -> I w'.

Lemma about_inv : about_rows (user_inv lower).
Proof. intros w w' Hu Hi. by apply user_inv_same. Qed.

Lemma keeps_user_publish I e : about_rows I -> keeps I (publish e).
Proof. intros HI. apply keeps_write. intros w. by apply HI. Qed.
Lemma keeps_user_new_id I : about_rows I -> keeps I new_id.
Proof. intros HI s Hs. unfold new_id. destruct (Generate _). by apply (HI (sdb s)). Qed.
Lemma keeps_time_now I : keeps I time_now.
Proof. apply keeps_gets. Qed.
Lemma keeps_exec_or_rows I (f : W -> res UErr W) :
  about_rows I -> (forall w w', f w = Ok w' -> users w' = users w /\ identities w' = identities w) -> keeps I (Statements.exec_or ErrDB f).
Proof. intros HI Hf. apply keeps_exec_or. intros w w' Hw Ho. destruct (Hf _ _ Ho). by apply (HI w). Qed.

Lemma insert_detail_rows d (w w' : W) : insert_detail d w = Ok w' -> users w' = users w /\ identities w' = identities w.
Proof. unfold insert_detail. repeat (case_bool_decide; try done). by intros [= <-]. Qed.
Lemma insert_history_rows h (w w' : W) : insert_history h w = Ok w' -> users w' = users w /\ identities w' = identities w.
Proof. unfold insert_history. repeat (case_bool_decide; try done). by intros [= <-]. Qed.
Lemma save_detail_rows d (w w' : W) : save_detail d w = Ok w' -> users w' = users w /\ identities w' = identities w.
Proof.
  unfold save_detail. destruct (_ !! _) as [d'|]; [|apply insert_detail_rows]. destruct (_ =? _); [|done]. by intros [= <-].
Qed.

Lemma keeps_first_user I P : keeps I (first_user (G:=G) P).
Proof. unfold first_user. follow. Qed.
Lemma keeps_repo_GetByID I id : keeps I (repo_GetByID (G:=G) scope id).
Proof. unfold repo_GetByID. follow. Qed.
Lemma keeps_found {A} I (m : M (Store W) UErr A) : keeps I m -> keeps I (or_user_not_found m).
Proof. intros Hm. apply keeps_attempt; [done|]. intros x. follow. Qed.
Lemma keeps_unless_found {A} I (m : M (Store W) UErr A) e : keeps I m -> keeps I (unless_found m e).
Proof. intros Hm. apply keeps_attempt; [done|]. intros x. follow. Qed.
Lemma keeps_first_identity I P : keeps I (first_identity (G:=G) P).
Proof. unfold first_identity. follow. Qed.

(** A user that was found is the row, live and in the tenant. *)
Lemma repo_GetByID_spec I id :
  on_db I (repo_GetByID (G:=G) scope id) (fun w r => I w /\ match r with Ok u => users w !! id = Some u /\ user_live scope u = true | Err _ => True end).
Proof.
  unfold repo_GetByID. eapply on_db_bind; [apply (on_db_select _ _ _ (fun w r => I w /\ match r with Ok x => users w !! id = x | Err _ => True end)); done| |].
  - intros [u|]; [destruct (user_live scope u) eqn:Hl|]; [apply on_db_ret | apply on_db_throw | apply on_db_throw]; intros w [Hi Hu]; done.
  - done.
Qed.
Lemma found_spec I id :
  on_db I (or_user_not_found (repo_GetByID (G:=G) scope id)) (fun w r => I w /\ match r with Ok u => users w !! id = Some u /\ user_live scope u = true | Err _ => True end).
Proof.
  eapply on_db_attempt; [apply repo_GetByID_spec|]. intros [u|[]]; first [apply on_db_ret | apply on_db_throw]; naive_solver.
Qed.

(** What the lookup answers, unless its statement fails. *)
Definition user_found (w : W) (id : Z) : res UErr User :=
  match users w !! id with Some u => if user_live scope u then Ok u else Err ErrRecordNotFound | None => Err ErrRecordNotFound end.
Lemma repo_GetByID_here w id :
  on_db (eq w) (repo_GetByID (G:=G) scope id) (fun w' r => w' = w /\ (r = Err ErrDB \/ r = user_found w id)).
Proof.
  unfold repo_GetByID. eapply on_db_bind; [apply (on_db_select _ _ _ (fun w' r => w' = w /\ (r = Err ErrDB \/ r = Ok (users w !! id)))); intros d <-; auto| |].
  - intros x. unfold user_found. destruct x as [u|]; [destruct (user_live scope u) eqn:Hl|]; first [apply on_db_ret | apply on_db_throw];
      intros d (-> & [Hx|Hx]); try done; injection Hx as <-; by rewrite ?Hl; auto.
  - intros d e (-> & [[= ->]|Hx]); [auto | done].
Qed.

(** After the lookup the rest runs with the row at hand. *)
Lemma keeps_with_user {B} I id (k : User -> M (Store W) UErr B) :
  (forall u, on_db (fun w => I w /\ users w !! id = Some u /\ user_live scope u = true) (k u) (fun w _ => I w)) ->
  keeps I (let! u := or_user_not_found (repo_GetByID scope id) in k u).
Proof.
  intros Hk. eapply on_db_bind; [apply found_spec| |]; [|by intros d e [H _]]. intros u. eapply on_db_weaken; [apply (Hk u) | |done].
  intros d [H1 H2]. done.
Qed.
End Ops.

#[export] Hint Resolve keeps_user_publish keeps_user_new_id keeps_time_now about_inv keeps_first_user keeps_repo_GetByID keeps_found
  keeps_unless_found keeps_first_identity : mxid.

Section Keeps.
Context {G : Type} `{!IdGen G} (lower : string -> string) (same_char : ascii -> ascii -> bool) (scope : option Z).
Context (pwdPolicy : option (Z -> PasswordPolicy)) (config : PasswordPolicy) (userCap : option Z).
Context (HashPassword : string -> string -> option string) (CheckPassword : string -> string -> bool).
Abbreviation W := (UserWorld G).
Abbreviation inv := (user_inv (G:=G) lower).

Lemma keeps_update_user id e f : keeps_key f -> keeps inv (Statements.exec_or ErrDB (update_user scope id e f)).
Proof. intros Hf. apply keeps_exec_or. intros w w' Hw. by apply update_user_inv. Qed.
Lemma keeps_repo_UpdateStatus id st : keeps inv (repo_UpdateStatus scope id st).
Proof. apply keeps_bind; [apply keeps_time_now|]. intros t. by apply keeps_update_user. Qed.
Lemma keeps_UpdatePassword id h : keeps inv (UpdatePassword scope id h).
Proof. apply keeps_bind; [apply keeps_time_now|]. intros t. by apply keeps_update_user. Qed.
Lemma keeps_repo_SetSuperAdmin id v : keeps inv (repo_SetSuperAdmin scope id v).
Proof. apply keeps_bind; [apply keeps_time_now|]. intros t. by apply keeps_update_user. Qed.
Lemma keeps_UpdateLastLogin id ip : keeps inv (UpdateLastLogin scope id ip).
Proof.
  apply keeps_bind; [apply keeps_time_now|]. intros t. apply keeps_exec. intros w Hw.
  pose proof (update_user_inv lower scope id ErrUserNotFound (set_login ip t) w) as Hup. unfold update_user in Hup.
  destruct (users w !! id) as [u|]; [|done]. destruct (user_live scope u); [|done]. by apply Hup.
Qed.
Lemma keeps_CreatePasswordHistory h : keeps inv (CreatePasswordHistory h).
Proof. apply keeps_exec_or_rows; [apply about_inv | apply insert_history_rows]. Qed.
Lemma keeps_CreateDetail d : keeps inv (CreateDetail d).
Proof. apply keeps_exec_or_rows; [apply about_inv | apply insert_detail_rows]. Qed.
Lemma keeps_repo_UpdateDetail d : keeps inv (repo_UpdateDetail d).
Proof. apply keeps_exec_or_rows; [apply about_inv | apply save_detail_rows]. Qed.
Lemma keeps_ResetPasswordTx id h b ph : keeps inv (ResetPasswordTx scope id h b ph).
Proof.
  apply keeps_txn. apply keeps_bind; [apply keeps_time_now|]. intros t. apply keeps_bind; [by apply keeps_update_user|]. intros _.
  apply keeps_CreatePasswordHistory.
Qed.
Lemma keeps_validatePassword (I : W -> Prop) t p : keeps I (validatePassword pwdPolicy config t p).
Proof. unfold validatePassword. follow. Qed.
Lemma keeps_checkPasswordHistory (I : W -> Prop) id p : keeps I (checkPasswordHistory scope pwdPolicy config CheckPassword id p).
Proof. unfold checkPasswordHistory, GetPasswordHistory. follow. Qed.
Lemma keeps_hash_password (I : W -> Prop) p s : keeps I (hash_password HashPassword p s).
Proof. unfold hash_password. follow. Qed.
Lemma keeps_licenseQuota (I : W -> Prop) : keeps I (licenseQuota userCap).
Proof. unfold licenseQuota. follow. Qed.
Local Hint Resolve keeps_repo_UpdateStatus keeps_UpdatePassword keeps_repo_SetSuperAdmin keeps_CreatePasswordHistory keeps_CreateDetail
  keeps_repo_UpdateDetail keeps_ResetPasswordTx keeps_validatePassword keeps_checkPasswordHistory keeps_hash_password keeps_licenseQuota : mxid.

Lemma keeps_user_SetSuperAdmin a t u v : keeps inv (SetSuperAdmin scope a t u v).
Proof. unfold SetSuperAdmin, CountSuperAdmins. follow. Qed.
Lemma keeps_UpdateStatus id st : keeps inv (UpdateStatus scope id st).
Proof. unfold UpdateStatus. follow. Qed.
Lemma keeps_LockUser id reason a : keeps inv (LockUser scope id reason a).
Proof. unfold LockUser. follow. Qed.
Lemma keeps_UnlockUser id a : keeps inv (UnlockUser scope id a).
Proof. unfold UnlockUser. follow. Qed.
Lemma keeps_new_password id t p s : keeps inv (new_password scope pwdPolicy config HashPassword CheckPassword id t p s).
Proof. unfold new_password. follow. Qed.
Local Hint Resolve keeps_new_password : mxid.
Lemma keeps_ChangePassword id o p s : keeps inv (ChangePassword scope pwdPolicy config HashPassword CheckPassword id o p s).
Proof. unfold ChangePassword. follow. Qed.
Lemma keeps_SetInitialPassword id p s : keeps inv (SetInitialPassword scope pwdPolicy config HashPassword CheckPassword id p s).
Proof. unfold SetInitialPassword. follow. Qed.
Lemma keeps_ResetPassword id p m s : keeps inv (ResetPassword scope pwdPolicy config HashPassword CheckPassword id p m s).
Proof. unfold ResetPassword. follow. Qed.
Lemma keeps_UpsertDetail id req : keeps inv (UpsertDetail scope id req).
Proof. unfold UpsertDetail, GetDetailByUserID. follow. Qed.
Lemma keeps_RecordLogin r : keeps inv (RecordLogin scope r).
Proof.
  unfold RecordLogin, repo_CreateLoginRecord. follow; apply keeps_exec_or_rows; try apply about_inv;
    intros w w'; case_bool_decide; try done; by intros [= <-].
Qed.

Lemma insert_user_inv u (w w' : W) : inv w -> u_DeletedAt u = None -> insert_user lower u w = Ok w' -> inv w' /\ users w' !! u_ID u = Some u.
Proof.
  intros Hw Hd. unfold insert_user. case_bool_decide as Hn; [done|]. intros Hp. split.
  - eapply put_user_inv; [exact Hw | exact Hd | | exact Hp]. intros u0 Hu. destruct Hn. by rewrite Hu.
  - revert Hp. unfold put_user. destruct (user_conflict _ _ _); [done|]. intros [= <-]. cbn. by rewrite lookup_insert_eq.
Qed.
Lemma keeps_CreateWithProfile u d h : u_DeletedAt u = None -> keeps inv (CreateWithProfile lower scope u d h).
Proof.
  intros Hd. apply keeps_txn. apply keeps_bind; [|intros _; apply keeps_bind; [apply keeps_CreateDetail | intros _; apply keeps_CreatePasswordHistory]].
  apply keeps_exec_or. intros w w' Hw Hi. exact (proj1 (insert_user_inv (stamp_user scope u) _ _ Hw Hd Hi)).
Qed.
Lemma user_keeps_Create t salt req : keeps inv (Create lower scope pwdPolicy config userCap HashPassword t salt req).
Proof. unfold Create, GetByUsername, GetByEmail, GetByPhone. follow; by apply keeps_CreateWithProfile. Qed.

Lemma keeps_change_to (I : W -> Prop) cur req find e : (forall v, keeps I (find v)) -> keeps I (change_to cur req find e).
Proof. intros Hf. unfold change_to. follow; by apply keeps_unless_found. Qed.
Lemma user_keeps_Update id t req : keeps inv (Update lower scope id t req).
Proof.
  apply keeps_with_user. intros u. set (P := fun w : W => inv w /\ users w !! id = Some u /\ user_live scope u = true).
  assert (forall cur req find e, (forall v, keeps P (find v)) -> keeps P (change_to cur req find e)) as Hc by apply keeps_change_to.
  eapply on_db_bind; [apply Hc; intros v; apply keeps_first_user | | by intros d e []]. intros email.
  eapply on_db_bind; [apply Hc; intros v; apply keeps_first_user | | by intros d e []]. intros phone.
  eapply on_db_bind; [apply keeps_time_now | | by intros d e []]. intros now.
  apply keeps_after; [|intros _; by follow].
  apply on_db_exec_or; [|by intros w e (H & _) _ | by intros w (H & _)].
  intros w w' (Hw & Hu & Hl). apply put_user_inv; [done | |].
  - unfold user_live in Hl. to_prop. done.
  - intros u0. cbn. rewrite (users_keyed _ _ Hw _ _ Hu), Hu. by intros [= <-].
Qed.

Lemma keeps_RestoreUser id : keeps inv (RestoreUser lower scope id).
Proof.
  unfold RestoreUser. apply keeps_bind; [|intros _; by follow]. apply keeps_found. apply keeps_bind; [apply keeps_time_now|]. intros t.
  apply keeps_exec_or. intros w w' Hw. unfold restore_user. destruct (users w !! id) as [u|] eqn:Hu; [|done].
  destruct (negb _ && _); [|done]. apply put_user_inv; [done | done |]. intros u0. cbn.
  rewrite (users_keyed _ _ Hw _ _ Hu), Hu. by intros [= <-].
Qed.

Lemma keeps_user_Delete id : keeps inv (Delete scope id).
Proof.
  apply keeps_with_user. intros u. unfold SoftDeleteIdentitiesByUser, repo_Delete.
  eapply (on_db_bind _ _ _ (fun w r => inv w /\ match r with Ok _ => users w !! id = Some u /\ swept id w | Err _ => True end));
    [| |by intros w e []].
  - eapply on_db_bind; [apply keeps_time_now | intros t; cbn beta | by intros w e []].
    apply on_db_exec; [|by intros w []]. intros w (Hw & Hu & Hl). split_and!; [|done|].
    + apply (unbind_inv lower (sweep scope id t) w); [reflexivity | reflexivity | | exact Hw]. intros i. unfold sweep. case_match; eauto.
    + eapply (sweep_swept lower scope id t w); [done | reflexivity | reflexivity | exact Hu |]. unfold user_live in Hl. by to_prop.
  - intros _. apply keeps_after; [|intros _; by follow].
    eapply on_db_bind; [apply keeps_time_now | intros t; cbn beta | by intros w e []].
    apply on_db_exec; [|by intros w []]. intros w (Hw & Hu & Hs). apply delete_user_inv; [done|]. intros; exact Hs.
Qed.
End Keeps.
