(* ===== verification/UserLinks.v ===== *)
(** * UserLinks: who an external identity lets in

    The operations on bindings keep the invariant of UserProps; a login by an external identity
    and the binding of one, as decisions about the tables. *)

From stdpp Require Import sorting.
From Stdlib Require Import Ascii.
From S2P Require Import Prelude Statements Text User UserExternal UserProps.
#[global] Open Scope Z_scope.

#[export] Instance any_before_total : Total any_before.
Proof. intros a b. unfold any_before. destruct (ui_DeletedAt a), (ui_DeletedAt b); lia || auto. Qed.
#[export] Instance any_before_trans : Transitive any_before.
Proof. intros a b c. unfold any_before. destruct (ui_DeletedAt a), (ui_DeletedAt b), (ui_DeletedAt c); try done; lia. Qed.
#[export] Instance by_id_total : Total by_id.
Proof. intros a b. unfold by_id. lia. Qed.
#[export] Instance by_id_trans : Transitive by_id.
Proof. intros a b c. unfold by_id. lia. Qed.

(** The head of a sorted list comes before all of it. *)
Lemma merge_sort_head {A} (R : relation A) `{!RelDecision R, !Total R, !Transitive R} l x rest :
  merge_sort R l = x :: rest -> x ∈ l /\ forall y, y ∈ l -> y = x \/ R x y.
Proof.
  intros Hm. assert (merge_sort R l ≡ₚ l) as Hp by apply merge_sort_Permutation.
  pose proof (StronglySorted_merge_sort R l) as Hs. rewrite Hm in Hp, Hs. inversion Hs as [|? ? _ Hall]; subst.
  split; [rewrite <- Hp; left|]. intros y. rewrite <- Hp. rewrite elem_of_cons. intros [->|Hy]; [by left|]. right.
  by eapply Forall_forall in Hall.
Qed.

Section Links.
Context {G : Type} `{!IdGen G} (lower : string -> string) (scope : option Z).
Abbreviation W := (UserWorld G).
Abbreviation inv := (user_inv (G:=G) lower).

Definition row_where (P : UserIdentity -> bool) (i : UserIdentity) (w : W) : Prop :=
  (exists id, identities w !! id = Some i) /\ P i = true /\
  forall id' i', identities w !! id' = Some i' -> P i' = true -> i' = i \/ any_before i i'.

Lemma elem_of_rows P (w : W) i :
  i ∈ filter (fun i => P i = true) (map_to_list (identities w)).*2 <-> (exists id, identities w !! id = Some i) /\ P i = true.
Proof.
  rewrite list_elem_of_filter, list_elem_of_fmap. split.
  - intros (HP & [id j] & -> & Hl). apply elem_of_map_to_list in Hl. eauto.
  - intros ((id & Hl) & HP). split; [done|]. exists (id, i). split; [done|]. by apply elem_of_map_to_list.
Qed.

Lemma first_identity_spec I P :
  on_db I (first_identity P) (fun w r => I w /\ match r with
    | Ok i => row_where P i w
    | Err ErrRecordNotFound => forall id i, identities w !! id = Some i -> P i = false
    | Err _ => True end).
Proof.
  unfold first_identity. eapply on_db_bind; [apply (on_db_select _ _ _ (fun w r => I w /\ match r with Ok l => matching P w = l | Err _ => r = Err ErrDB end)); done| |].
  - intros [|i rest]; [apply on_db_throw | apply on_db_ret]; intros w [Hi Hl]; split; try done; unfold matching in Hl.
    + intros id i Hlook. destruct (P i) eqn:HP; [|done]. pose proof (merge_sort_Permutation any_before (filter (fun i => P i = true) (map_to_list (identities w)).*2)) as Hp.
      rewrite Hl in Hp. apply Permutation_nil in Hp. exfalso. apply (not_elem_of_nil i). rewrite <- Hp. apply elem_of_rows. eauto.
    + apply merge_sort_head in Hl as [Hin Hall]; [|apply _..]. apply elem_of_rows in Hin as [Hex HP]. split_and!; [done | done |].
      intros id' i' Hl' HP'. apply Hall, elem_of_rows. eauto.
  - intros w e [Hi He]. injection He as ->. done.
Qed.

Lemma keeps_taken {A} I (m : M (Store W) UErr A) : keeps I m -> keeps I (taken m).
Proof. intros Hm. apply keeps_attempt; [done|]. intros [a|e]; [by follow|]. by destruct (unique_violation_on _ _); follow. Qed.
Lemma keeps_or_identity {A} I (m : M (Store W) UErr A) : keeps I m -> keeps I (or_identity_not_found m).
Proof. intros Hm. apply keeps_attempt; [done|]. intros x. follow. Qed.

Lemma keeps_UnbindIdentity u i : keeps inv (UnbindIdentity scope u i).
Proof.
  apply keeps_bind; [|intros _; by follow]. apply keeps_or_identity. apply keeps_bind; [apply keeps_time_now|]. intros t.
  apply keeps_exec_or. intros w w' Hw. unfold delete_identity. destruct (identities w !! i) as [b|] eqn:Hb; [|done].
  destruct (_ && _); [|done]. intros [= <-].
  apply (unbind_inv lower (fun x => if decide (x = b) then mark_unbound t b else x) w); [reflexivity | | | done].
  - cbn. apply map_eq. intros j. rewrite lookup_fmap. destruct (decide (i = j)) as [<-|Hne].
    + rewrite lookup_insert_eq, Hb. cbn. by rewrite decide_True.
    + rewrite lookup_insert_ne by done. destruct (identities w !! j) as [x|] eqn:Hx; [|done]. cbn. rewrite decide_False; [done|].
      intros ->. apply Hne. by rewrite <- (identities_keyed _ _ Hw _ _ Hb), <- (identities_keyed _ _ Hw _ _ Hx).
  - intros x. destruct (decide (x = b)) as [->|]; eauto.
Qed.

(** Writing a binding of a live account of its tenant. *)
Lemma bound_to_live (i : UserIdentity) u (w w' : W) :
  inv w -> users w !! ui_UserID i = Some u -> u_TenantID u = ui_TenantID i -> u_DeletedAt u = None -> put_identity i w = Ok w' -> inv w'.
Proof. intros. by eapply put_identity_inv. Qed.

Lemma user_live_parts u : user_live scope u = true -> u_DeletedAt u = None /\ in_tenant scope (u_TenantID u) = true.
Proof. unfold user_live. intros H. by to_prop. Qed.

Lemma keeps_RestoreIdentity u i : keeps inv (RestoreIdentity scope u i).
Proof.
  unfold RestoreIdentity. eapply (on_db_bind _ _ _ (fun w r => inv w /\ match r with Ok v => users w !! u = Some v /\ user_live scope v = true | Err _ => True end)); [| |by intros w e []].
  { eapply on_db_attempt; [apply repo_GetByID_spec|]. intros [v|[]]; first [apply on_db_ret | apply on_db_throw]; naive_solver. }
  intros v. apply keeps_after; [|intros _; by follow].
  set (P := fun w : W => inv w /\ users w !! u = Some v /\ user_live scope v = true).
  assert (on_db P (repo_RestoreIdentity scope u i) (fun w _ => inv w)) as Hr.
  { unfold repo_RestoreIdentity. eapply on_db_bind; [apply (keeps_select P)| |by intros w e []]. intros [b|]; [|by apply on_db_throw; intros w []].
    destruct (negb _); [by apply on_db_throw; intros w []|]. case_bool_decide; [by apply on_db_throw; intros w []|].
    eapply on_db_bind; [apply (keeps_select P)| |by intros w e []]. intros n. destruct (0 <? n)%nat; [by apply on_db_throw; intros w []|].
    eapply on_db_bind; [apply (keeps_time_now P)| |by intros w e []]. intros t.
    eapply (on_db_attempt _ _ _ (fun w _ => inv w)); [|intros [?|e]; [by apply on_db_ret|]; destruct (unique_violation_on _ _); by apply on_db_throw].
    apply on_db_exec_or; [|by intros w e [] ?|by intros w []]. intros w w' (Hw & Hu & Hl). unfold restore_identity.
    destruct (identities w !! i) as [j|] eqn:Hj; [|by intros [= <-]]. destruct (_ && _) eqn:Hc; [|by intros [= <-]]. to_prop. subst.
    destruct (owners _ _ Hw _ _ Hj) as (x & Hx & Ht & _). apply user_live_parts in Hl as [Hl _].
    assert (x = v) as -> by congruence. by eapply (bound_to_live (mark_bound t j)). }
  eapply (on_db_attempt _ _ _ (fun w _ => inv w)); [exact Hr|]. intros [x|[]]; first [by apply on_db_ret | by apply on_db_throw].
Qed.

(** ** Binding *)

Lemma external_key_parts t pt pid x i : external_key t pt pid x i = true ->
  ui_TenantID i = t /\ ui_ProviderType i = pt /\ ui_ProviderID i = pid /\ ui_ExternalID i = x.
Proof. unfold external_key. intros H. by to_prop. Qed.

Section Bind.
Context (i : BindIdentityInput).

(** The caller is a live account of the tenant. *)
Definition caller_ok (c : User) (w : W) : Prop :=
  inv w /\ users w !! bi_UserID i = Some c /\ u_DeletedAt c = None /\ u_TenantID c = bi_TenantID i.

Lemma restore_to_inv c (b : UserIdentity) (w w' : W) r :
  caller_ok c w -> identities w !! ui_ID b = Some r -> ui_TenantID r = bi_TenantID i -> ui_UserID b = bi_UserID i ->
  restore_to scope b w = Ok w' -> inv w'.
Proof.
  intros (Hw & Hc & Hd & Ht) Hr Hrt Hu. unfold restore_to. rewrite Hr. destruct (in_tenant _ _); [|by intros [= <-]].
  apply (bound_to_live _ c); [done | by cbn; rewrite Hu | by cbn; rewrite Hrt | done].
Qed.

Lemma keeps_give c (existing b : UserIdentity) e :
  ui_ID b = ui_ID existing -> ui_TenantID existing = bi_TenantID i -> ui_UserID b = bi_UserID i ->
  on_db (fun w => caller_ok c w /\ identities w !! ui_ID existing = Some existing)
    (do! RestoreIdentityTo scope b in publish e) (fun w _ => inv w).
Proof.
  intros Hid Ht Hu. apply keeps_after; [|intros _; by follow]. unfold RestoreIdentityTo.
  eapply (on_db_attempt _ _ _ (fun w _ => inv w)); [|intros [?|x]; [by apply on_db_ret|]; destruct (unique_violation_on _ _); by apply on_db_throw].
  apply on_db_exec_or; [|by intros w x [[] _] ?|by intros w [[] _]]. intros w w' [Hc Hl] Hres. rewrite <- Hid in Hl. by eapply restore_to_inv.
Qed.

Lemma keeps_bind_existing c existing :
  ui_TenantID existing = bi_TenantID i ->
  on_db (fun w => caller_ok c w /\ identities w !! ui_ID existing = Some existing) (bind_existing scope existing i) (fun w _ => inv w).
Proof.
  intros Ht. set (P := fun w : W => caller_ok c w /\ identities w !! ui_ID existing = Some existing).
  assert (forall d, P d -> inv d) as HP by (intros d [[] _]; done). unfold bind_existing, reclaimIdentity, takeOverIdentity.
  assert (forall u e f, ui_UserID (f u existing) = bi_UserID i -> ui_ID (f u existing) = ui_ID existing ->
    on_db P (do! RestoreIdentityTo scope (f u existing) in publish e) (fun w _ => inv w)) as Hgive by (intros; by apply (keeps_give c existing)).
  destruct (Z.eqb_spec (ui_UserID existing) (bi_UserID i)) as [He|Hne]; case_bool_decide; [by apply on_db_ret| | |].
  - eapply on_db_bind; [apply (keeps_time_now P)| |by intros w e Hx; apply HP]. intros t. by apply (keeps_give c existing).
  - eapply on_db_attempt; [apply (keeps_repo_GetByID scope P)|]. intros [x|[]]; try (by apply on_db_throw; intros w Hx; apply HP).
    eapply on_db_bind; [apply (keeps_time_now P)| |by intros w e Hx; apply HP]. intros t. by apply (keeps_give c existing).
  - eapply on_db_bind; [apply (keeps_time_now P)| |by intros w e Hx; apply HP]. intros t. by apply (keeps_give c existing).
Qed.

Lemma insert_identity_inv (b : UserIdentity) u (w w' : W) :
  inv w -> users w !! ui_UserID b = Some u -> u_TenantID u = stamp scope (ui_TenantID b) -> u_DeletedAt u = None ->
  insert_identity scope b w = Ok w' -> inv w'.
Proof. intros Hw Hu Ht Hd. unfold insert_identity. case_bool_decide; [done|]. by eapply bound_to_live. Qed.

Lemma stamp_in_tenant t : in_tenant scope t = true -> stamp scope t = t.
Proof. unfold in_tenant, stamp. destruct scope as [t'|]; [|done]. intros H. to_prop. subst. by destruct (_ =? _). Qed.

Lemma keeps_BindExternalIdentity : keeps inv (BindExternalIdentity scope i).
Proof.
  unfold BindExternalIdentity. destruct (_ || _); [by follow|]. apply keeps_with_user. intros c.
  set (P := fun w : W => inv w /\ users w !! bi_UserID i = Some c /\ user_live scope c = true).
  destruct (Z.eqb_spec (u_TenantID c) (bi_TenantID i)) as [Ht|]; cbn [negb]; [|by apply on_db_throw; intros w []].
  assert (forall w, P w -> caller_ok c w /\ in_tenant scope (bi_TenantID i) = true) as HP.
  { intros w (Hw & Hc & Hl). apply user_live_parts in Hl as [Hl1 Hl2]. unfold caller_ok. rewrite <- Ht. done. }
  eapply on_db_attempt; [apply (first_identity_spec P)|]. intros [existing|[]]; try (by apply on_db_throw; intros w [[] _]).
  - apply (on_db_pre _ _ _ (ui_TenantID existing = bi_TenantID i)).
    { intros w (_ & _ & Hk & _). to_prop. by apply external_key_parts in H0 as (? & _). }
    intros Het. eapply on_db_weaken; [by apply (keeps_bind_existing c existing)| |done]. intros w (Hp & (id & Hl) & _).
    destruct (HP _ Hp) as [Hc _]. split; [done|]. destruct Hc as (Hw & _). by rewrite (identities_keyed _ _ Hw _ _ Hl).
  - unfold bind_new. eapply (on_db_weaken _ P _ (fun w _ => inv w) (fun w _ => inv w)); [|by intros w [Hp _] | done].
    eapply on_db_bind; [apply (keeps_time_now P)| |by intros w e []]. intros t.
    eapply on_db_bind; [apply (keeps_user_new_id P); intros w w' E1 E2 (? & ? & ?); unfold P; rewrite E1; split_and!; [by eapply user_inv_same | done..]| |by intros w e []].
    intros id. apply keeps_after; [|intros _; by follow]. unfold CreateIdentity.
    eapply (on_db_attempt _ _ _ (fun w _ => inv w)); [|intros [?|x]; [by apply on_db_ret|]; destruct (unique_violation_on _ _); by apply on_db_throw].
    apply on_db_exec_or; [|by intros w x [] ?|by intros w []]. intros w w' Hp. destruct (HP _ Hp) as [(Hw & Hc & Hd & _) Hin].
    eapply (insert_identity_inv _ c); [done | done | | done]. cbn. by rewrite stamp_in_tenant.
Qed.

(** ** What a binding does to the tables *)

Definition takeover_event (prev : Z) : UEvent :=
  event UserUpdated [("user_id", I64 (bi_UserID i)); ("action", Str "identity_taken_over");
                     ("provider", Str (bi_ProviderType i)); ("previous_user_id", I64 prev)].
(** What is announced, by the row that was there. *)
Definition announced (old : option UserIdentity) : list UEvent :=
  match old with
  | None => [bound_event i]
  | Some b => if bool_decide (ui_DeletedAt b = None) then [] else
              if ui_UserID b =? bi_UserID i then [bound_event i] else [takeover_event (ui_UserID b)]
  end.
Definition bi_key : UserIdentity -> bool := external_key (bi_TenantID i) (bi_ProviderType i) (bi_ProviderID i) (bi_ExternalID i).
Definition bind_outcome (w0 w : W) (r : res UErr unit) : Prop :=
  users w = users w0 /\
  match r with
  | Err _ => identities w = identities w0 /\ ubus w = ubus w0
  | Ok _ => exists id b, identities w !! id = Some b /\ ui_DeletedAt b = None /\ bi_key b = true /\ ui_UserID b = bi_UserID i
      /\ (forall id', id' <> id -> identities w !! id' = identities w0 !! id')
      /\ (forall b0, identities w0 !! id = Some b0 -> ui_DeletedAt b0 = None -> b0 = b)
      /\ ubus w = ubus w0 ++ announced (identities w0 !! id)
  end.

Lemma outcome_err w e : bind_outcome w w (Err e).
Proof. done. Qed.

Lemma put_identity_shape (b : UserIdentity) (w w' : W) :
  put_identity b w = Ok w' -> users w' = users w /\ identities w' = <[ui_ID b := b]> (identities w) /\ ubus w' = ubus w.
Proof. unfold put_identity. repeat (case_bool_decide; try done). by intros [= <-]. Qed.

Lemma taken_spec (P : W -> Prop) (f : W -> res UErr W) (Q : W -> res UErr unit -> Prop) :
  (forall w w', P w -> f w = Ok w' -> Q w' (Ok tt)) -> (forall w e, P w -> Q w (Err e)) -> on_db P (taken (Statements.exec_or ErrDB f)) Q.
Proof.
  intros H1 H2. eapply (on_db_attempt _ _ _ (fun w r => match r with Ok _ => Q w (Ok tt) | Err _ => P w end)).
  - by apply on_db_exec_or.
  - intros [[]|e]; [by apply on_db_ret|]. destruct (unique_violation_on _ _); apply on_db_throw; intros w Hw; by apply H2.
Qed.

(** A row that was unbound is given to the caller. *)
Lemma give_outcome w0 (existing b : UserIdentity) e :
  identities w0 !! ui_ID existing = Some existing -> ui_DeletedAt existing <> None -> in_tenant scope (ui_TenantID existing) = true ->
  bi_key existing = true -> ui_ID b = ui_ID existing -> ui_UserID b = bi_UserID i -> [e] = announced (Some existing) ->
  on_db (eq w0) (do! RestoreIdentityTo scope b in publish e) (bind_outcome w0).
Proof.
  intros Hl Hd Ht Hk Hid Hu He.
  eapply (on_db_bind _ _ _ (fun w r => match r with
    | Ok _ => users w = users w0 /\ ubus w = ubus w0 /\ exists b', ui_UserID b' = bi_UserID i /\ ui_DeletedAt b' = None /\ bi_key b' = true
              /\ identities w = <[ui_ID existing := b']> (identities w0)
    | Err _ => w = w0 end)).
  - apply taken_spec; [|by intros w x <-]. intros w w' <-. unfold restore_to. rewrite Hid, Hl, Ht. intros Hp.
    apply put_identity_shape in Hp as (E1 & E2 & E3). split_and!; [done | done |].
    eexists. split_and!; [| | |exact E2]; [exact Hu | done | exact Hk].
  - intros []. apply on_db_write. intros w (E1 & E2 & b' & Hu' & Hd' & Hk' & Hids). split; [done|]. exists (ui_ID existing), b'. cbn.
    rewrite Hids, lookup_insert_eq, E2, Hl, He. split_and!; [done..| | |done].
    + intros id' Hne. by rewrite lookup_insert_ne.
    + intros b0 [= <-] Hx. done.
  - by intros w x ->.
Qed.

Lemma bind_existing_outcome w0 existing :
  inv w0 -> in_tenant scope (bi_TenantID i) = true -> identities w0 !! ui_ID existing = Some existing -> bi_key existing = true ->
  on_db (eq w0) (bind_existing scope existing i) (bind_outcome w0).
Proof.
  intros Hw Hin Hl Hk. pose proof Hk as Hkp. apply external_key_parts in Hkp as (Ht & _). rewrite <- Ht in Hin.
  unfold bind_existing, reclaimIdentity, takeOverIdentity.
  destruct (Z.eqb_spec (ui_UserID existing) (bi_UserID i)) as [He|Hne]; case_bool_decide as Hd.
  - apply on_db_ret. intros w <-. split; [done|]. exists (ui_ID existing), existing. split_and!; try done; [|unfold announced].
    + intros b0 Hb0 _. congruence.
    + rewrite Hl, bool_decide_eq_true_2 by done. by rewrite app_nil_r.
  - eapply on_db_bind; [apply (keeps_time_now (eq w0))| |by intros w x <-]. intros t. apply (give_outcome w0 existing); try done.
    unfold announced. rewrite bool_decide_eq_false_2 by done. by rewrite (proj2 (Z.eqb_eq _ _) He).
  - eapply on_db_attempt; [apply repo_GetByID_here|]. intros x. apply (on_db_pre _ _ _ (x = Err ErrDB \/ exists u, x = Ok u)).
    { intros w (_ & [-> | ->]); [by left|]. right. destruct (owners _ _ Hw _ _ Hl) as (u & Hu & Hut & Hlive). exists u.
      unfold user_found, user_live. rewrite Hu, Hut, Hin, (Hlive Hd). done. }
    intros [-> | [u ->]]; apply on_db_throw; by intros w [-> _].
  - eapply on_db_bind; [apply (keeps_time_now (eq w0))| |by intros w x <-]. intros t. apply (give_outcome w0 existing); try done.
    unfold announced. rewrite bool_decide_eq_false_2 by done. by rewrite (proj2 (Z.eqb_neq _ _) Hne).
Qed.

Lemma bind_new_outcome w0 c :
  caller_ok c w0 -> in_tenant scope (bi_TenantID i) = true ->
  (forall id b, identities w0 !! id = Some b -> bi_key b = false) ->
  on_db (eq w0) (bind_new scope i) (bind_outcome w0).
Proof.
  intros Hc Hin Hnone. set (P := fun w : W => users w = users w0 /\ identities w = identities w0 /\ ubus w = ubus w0).
  unfold bind_new. eapply (on_db_weaken _ P _ (bind_outcome w0)); [|by intros w <- | done].
  eapply on_db_bind; [apply (keeps_time_now P)| |by intros w e (? & ? & ?)]. intros t.
  eapply (on_db_bind _ _ _ (fun w _ => P w)); [by intros s0 Hs0; unfold new_id; destruct (Generate _)| |by intros w e (? & ? & ?)]. intros id.
  eapply (on_db_bind _ _ _ (fun w r => match r with
    | Ok _ => users w = users w0 /\ ubus w = ubus w0 /\ identities w0 !! id = None /\ exists b', ui_UserID b' = bi_UserID i /\ ui_DeletedAt b' = None /\ bi_key b' = true
              /\ identities w = <[id := b']> (identities w0)
    | Err _ => P w end)).
  - apply taken_spec; [|done]. intros w w' (E1 & E2 & E3). unfold insert_identity. cbn [ui_ID]. case_bool_decide as Hn; [done|]. intros Hp.
    apply put_identity_shape in Hp as (F1 & F2 & F3). rewrite E2 in F2, Hn. split_and!; [congruence | congruence | by apply eq_None_not_Some |].
    eexists. split_and!; [| | |exact F2]; [done | done |]. unfold bi_key, external_key. cbn.
    rewrite stamp_in_tenant by done. rewrite Z.eqb_refl. by repeat rewrite bool_decide_eq_true_2 by done.
  - intros []. apply on_db_write. intros w (E1 & E2 & Hnil & b' & Hu' & Hd' & Hk' & Hids). split; [done|]. exists id, b'. cbn.
    rewrite Hids, lookup_insert_eq, E2, Hnil. split_and!; [done..| | |done].
    + intros id' Hne. by rewrite lookup_insert_ne.
    + intros b0 Hb0. congruence.
  - intros w e (E1 & E2 & E3). done.
Qed.

Lemma bind_outcome_all w0 : inv w0 -> on_db (eq w0) (BindExternalIdentity scope i) (bind_outcome w0).
Proof.
  intros Hw. unfold BindExternalIdentity. destruct (_ || _); [by apply on_db_throw; intros w <-|].
  eapply on_db_bind; [apply (found_spec scope (eq w0))| |by intros w e [<- _]]. intros c.
  destruct (Z.eqb_spec (u_TenantID c) (bi_TenantID i)) as [Ht|]; cbn [negb]; [|by apply on_db_throw; intros w [<- _]].
  apply (on_db_pre _ _ _ (caller_ok c w0 /\ in_tenant scope (bi_TenantID i) = true)).
  { intros w (<- & Hc & Hl). apply user_live_parts in Hl as [Hl1 Hl2]. unfold caller_ok. rewrite <- Ht. done. }
  intros [Hc Hin]. eapply (on_db_weaken _ (eq w0)); [|by intros w [<- _] | done].
  eapply on_db_attempt; [apply (first_identity_spec (eq w0))|]. intros [existing|[]]; try (by apply on_db_throw; intros w [<- _]).
  - apply (on_db_pre _ _ _ (identities w0 !! ui_ID existing = Some existing /\ bi_key existing = true)).
    { intros w (<- & (id & Hl) & Hk & _). to_prop. split; [|done]. by rewrite (identities_keyed _ _ Hw _ _ Hl). }
    intros [Hl Hk]. eapply on_db_weaken; [by apply bind_existing_outcome | by intros w [<- _] | done].
  - apply (on_db_pre _ _ _ (forall id b, identities w0 !! id = Some b -> bi_key b = false)).
    { intros w (<- & Hnone) id b Hb. apply Hnone in Hb as Hk. destruct (bi_key b) eqn:Hkb; [|done]. unfold bi_key in Hkb.
      rewrite Hkb, andb_true_r in Hk. apply external_key_parts in Hkb as (Hbt & _). congruence. }
    intros Hnone. eapply on_db_weaken; [by eapply bind_new_outcome | by intros w [<- _] | done].
Qed.
End Bind.
End Links.
