(* ===== verification/UserLogin.v ===== *)
(** * UserLogin: signing in with an external identity

    The name a new account is given, and the account a login ends in. *)

From stdpp Require Import sorting.
From Stdlib Require Import Ascii.
From S2P Require Import Prelude Statements Text User UserExternal UserProps UserLinks.
#[global] Open Scope Z_scope.

Section Login.
Context {G : Type} `{!IdGen G} (lower : string -> string) (scope : option Z).
Abbreviation W := (UserWorld G).
Abbreviation inv := (user_inv (G:=G) lower).

Lemma elem_of_users_where P (w : W) u : u ∈ users_where P w <-> (exists id, users w !! id = Some u) /\ P u = true.
Proof.
  unfold users_where. rewrite merge_sort_Permutation, list_elem_of_filter, list_elem_of_fmap. split.
  - intros (HP & [id j] & -> & Hl). apply elem_of_map_to_list in Hl. eauto.
  - intros ((id & Hl) & HP). split; [done|]. exists (id, u). split; [done|]. by apply elem_of_map_to_list.
Qed.

(** Some row satisfies [P]. *)
Definition some_user (P : User -> bool) (w : W) : Prop := exists id u, users w !! id = Some u /\ P u = true.

Lemma first_user_here P (w : W) :
  on_db (eq w) (first_user P) (fun w' r => w' = w /\ match r with
    | Ok u => (exists id, users w !! id = Some u) /\ P u = true
    | Err ErrRecordNotFound => ~ some_user P w
    | Err e => e = ErrDB end).
Proof.
  unfold first_user. eapply on_db_bind; [apply (on_db_select _ _ _ (fun w' r => w' = w /\ match r with Ok l => l = users_where P w | Err e => e = ErrDB end)); by intros d <-| |].
  - intros [|u l]; [apply on_db_throw | apply on_db_ret]; intros d [-> Hl]; split; try done.
    + intros (id & u & Hu & HP). apply (not_elem_of_nil u). rewrite Hl. apply elem_of_users_where. eauto.
    + apply elem_of_users_where. rewrite <- Hl. left.
  - intros d e [-> ->]. done.
Qed.

(** ** The name of a new account *)

(** The names that are tried: [base], [base-1], [base-2], ... *)
Definition variant (base : string) (k : nat) : string := match k with O => base | S _ => base +:+ "-" +:+ dec (Z.of_nat k) end.
Definition name_taken (t : Z) (name : string) (w : W) : Prop := some_user (named lower scope t name) w.

Lemma alloc_from_spec t base n k (w0 : W) :
  on_db (eq w0) (alloc_from lower scope n (Z.of_nat k) t base (variant base k)) (fun w r => w = w0 /\ match r with
    | Ok c => exists j, (k <= j < k + n)%nat /\ c = variant base j /\ ~ name_taken t c w0 /\ forall m, (k <= m < j)%nat -> name_taken t (variant base m) w0
    | Err ErrNoUsername => forall m, (k <= m < k + n)%nat -> name_taken t (variant base m) w0
    | Err e => e = ErrDB end).
Proof.
  revert k. induction n as [|n IH]; intros k; cbn [alloc_from].
  - apply on_db_throw. intros w <-. split; [done|]. intros m Hm. lia.
  - eapply on_db_attempt; [apply first_user_here|]. intros [u|e].
    + apply (on_db_pre _ _ _ (name_taken t (variant base k) w0)).
      { intros w [-> [[id Hu] HP]]. by exists id, u. }
      intros Htk. replace (Z.of_nat k + 1) with (Z.of_nat (S k)) by lia.
      eapply on_db_weaken; [apply (IH (S k)) | by intros w [-> _] |]. intros w r [-> Hr]. split; [done|].
      assert (forall m, (k <= m < S k)%nat -> name_taken t (variant base m) w0) as H0 by (intros m Hm; by replace m with k by lia).
      destruct r as [c|[]]; try done.
      * destruct Hr as (j & Hj & -> & Hfree & Hall). exists j. split_and!; [lia | lia | done | done |]. intros m Hm.
        destruct (decide (m = k)) as [->|]; [done|]. apply Hall. lia.
      * intros m Hm. destruct (decide (m = k)) as [->|]; [done|]. apply Hr. lia.
    + destruct e; try (by apply on_db_throw; intros w [-> Hx]). apply on_db_ret. intros w [-> Hfree]. split; [done|].
      exists k. split_and!; [lia | lia | done | done |]. intros m Hm. lia.
Qed.

Lemma alloc_spec t base (w0 : W) :
  on_db (eq w0) (allocUsername lower scope t base) (fun w r => w = w0 /\ match r with
    | Ok c => exists j, (j < 1000)%nat /\ c = variant base j /\ ~ name_taken t c w0 /\ forall m, (m < j)%nat -> name_taken t (variant base m) w0
    | Err ErrNoUsername => forall m, (m < 1000)%nat -> name_taken t (variant base m) w0
    | Err e => e = ErrDB end).
Proof.
  unfold allocUsername. eapply on_db_weaken; [apply (alloc_from_spec t base 1000 0) | done |]. intros w r [-> Hr]. split; [done|].
  destruct r as [c|[]]; try done.
  - destruct Hr as (j & Hj & Hc & Hf & Hall). exists j. split_and!; [lia | done | done |]. intros m Hm. apply Hall. lia.
  - intros m Hm. apply Hr. lia.
Qed.

Definition name_char (c : ascii) : bool :=
  let r := byte_of c in is_lower r || is_upper r || is_digit r || (r =? 46) || (r =? 45) || (r =? 95).
Lemma sanitise_char r : name_char (sanitise r) = true.
Proof.
  unfold sanitise. destruct (_ || _) eqn:Hc; [|done]. unfold name_char, byte_of.
  assert (0 <= r < 256) as Hr.
  { unfold is_lower, is_upper, is_digit, in_range in Hc. repeat (apply orb_true_iff in Hc as [Hc|Hc]); to_prop; lia. }
  rewrite N_ascii_embedding by lia. rewrite Z2N.id by lia. exact Hc.
Qed.

Lemma length_substring n m s : (String.length (String.substring n m s) <= m)%nat.
Proof.
  revert n m. induction s as [|c s IH]; intros [|n] [|m]; simpl; try lia; [|apply IH..]. specialize (IH 0%nat m). lia.
Qed.

(** The name an account is given: at least one character and at most 64, and only letters, digits, dots, dashes and underscores. *)
Lemma picked_name_well_formed i :
  pickUsername i <> ""%string /\ (String.length (pickUsername i) <= 64)%nat /\ all_chars name_char (pickUsername i) = true.
Proof.
  unfold pickUsername. cbv zeta. set (u := if bool_decide _ then in_ProviderType i +:+ "_" +:+ in_ExternalID i else _). pose proof (map_ascii_chars name_char sanitise u sanitise_char) as Hc.
  set (out := map_ascii sanitise u) in *.
  set (o := if (64 <? String.length out)%nat then String.substring 0 64 out else out).
  assert ((String.length o <= 64)%nat /\ all_chars name_char o = true) as [Hl Ho].
  { unfold o. destruct (Nat.ltb_spec 64 (String.length out)); [split; [apply length_substring | by apply substring_chars] | split; [lia | done]]. }
  case_bool_decide; [split_and!; [done | cbn; lia | done] | done].
Qed.

(** ** The login *)

Section Resolve.
Context (i : ExternalLoginInput).
Definition in_key : UserIdentity -> bool := external_key (in_TenantID i) (in_ProviderType i) (in_ProviderID i) (in_ExternalID i).

(** An account that is made for the identity. *)
Definition provisioned (w0 w : W) (u : User) : Prop :=
  in_AutoCreate i = true /\ users w0 !! u_ID u = None /\ users w = <[u_ID u := u]> (users w0)
  /\ u_TenantID u = stamp scope (in_TenantID i) /\ u_Status u = StatusActive /\ u_IsSuperAdmin u = false /\ u_DeletedAt u = None
  /\ HasUsablePassword (u_PasswordHash u) = false
  /\ (exists k, (k < 1000)%nat /\ u_Username u = variant (pickUsername i) k)
  /\ exists iid b, identities w0 !! iid = None /\ identities w = <[iid := b]> (identities w0) /\ ui_UserID b = u_ID u /\ ui_DeletedAt b = None
       /\ ui_TenantID b = stamp scope (in_TenantID i) /\ ui_ProviderType b = in_ProviderType i /\ ui_ProviderID b = in_ProviderID i /\ ui_ExternalID b = in_ExternalID i.

(** Nothing stands in the way of a new account: no binding, live or not, and no account of that name. *)
Definition never_seen (w0 : W) : Prop :=
  (forall id b, identities w0 !! id = Some b -> in_tenant scope (ui_TenantID b) = true -> in_key b = false)
  /\ (linkMatchName (in_Username i) = ""%string \/ ~ name_taken (in_TenantID i) (linkMatchName (in_Username i)) w0).

(** The identity is bound to [u]. *)
Definition bound_to (u : User) (w : W) : Prop :=
  exists id b, identities w !! id = Some b /\ ui_DeletedAt b = None /\ in_key b = true /\ ui_UserID b = u_ID u /\ users w !! u_ID u = Some u.
Definition login_outcome (w0 w : W) (r : res UErr User) : Prop :=
  match r with
  | Ok u => (stamp scope (in_TenantID i) = in_TenantID i -> bound_to u w) /\
           ((exists id b, identities w0 !! id = Some b /\ ui_DeletedAt b = None /\ in_key b = true
               /\ users w0 !! ui_UserID b = Some u /\ user_live scope u = true /\ users w = users w0)
            \/ never_seen w0 /\ provisioned w0 w u)
  | Err _ => users w = users w0
  end.

Lemma login_bound_outcome w0 id b :
  inv w0 -> identities w0 !! id = Some b -> ui_DeletedAt b = None -> in_key b = true ->
  on_db (eq w0) (login_bound scope i b) (login_outcome w0).
Proof.
  intros Hinv Hl Hd Hk. unfold login_bound, refreshed. pose proof (identities_keyed _ _ Hinv _ _ Hl) as Hid.
  set (R := fun w : W => users w = users w0 /\ exists b', identities w !! id = Some b' /\ ui_DeletedAt b' = None /\ in_key b' = true /\ ui_UserID b' = ui_UserID b).
  assert (R w0) as HR0 by (split; eauto 10).
  eapply (on_db_bind _ _ _ (fun w _ => R w)); [| |by intros w e [Hw _]].
  - destruct (_ || _); [|apply on_db_ret; by intros w <-].
    eapply on_db_bind; [apply (keeps_time_now (eq w0)) | | by intros w e <-]. intros t.
    eapply (on_db_attempt _ _ _ (fun w _ => R w)); [|intros ?; by apply on_db_ret].
    apply on_db_exec_or; [|by intros w e <- |by intros w <-]. intros w w' <- Hp. apply put_identity_shape in Hp as (E1 & E2 & _).
    cbn [ui_ID touch] in E2. rewrite Hid in E2. split; [done|]. eexists. rewrite E2, lookup_insert_eq. split; [done|]. done.
  - intros []. cbn [ui_UserID]. eapply on_db_attempt; [apply (repo_GetByID_spec scope R)|].
    intros [u|[]]; first [apply on_db_ret | apply on_db_throw]; intros w [[Hw Hb] Hr]; try done. destruct Hr as [Hu Hlive].
    assert (u_ID u = ui_UserID b) as Hkey by (apply (users_keyed _ _ Hinv); congruence). split.
    + intros _. destruct Hb as (b' & Hb1 & Hb2 & Hb3 & Hb4). exists id, b'. rewrite Hkey. done.
    + left. exists id, b. rewrite <- Hw. done.
Qed.

Lemma if_free_here w0 v find : (forall x, on_db (eq w0) (find x) (fun w _ => w = w0)) -> on_db (eq w0) (if_free (G:=G) v find) (fun w _ => w = w0).
Proof.
  intros Hf. unfold if_free. case_bool_decide; [by apply on_db_ret|]. eapply on_db_attempt; [apply Hf|]. intros x. by apply on_db_ret.
Qed.
Lemma first_user_stays P w0 : on_db (eq w0) (first_user (G:=G) P) (fun w _ => w = w0).
Proof. eapply on_db_weaken; [apply first_user_here | done | by intros w r [-> _]]. Qed.

Lemma insert_identity_shape (b : UserIdentity) (w w' : W) :
  insert_identity scope b w = Ok w' -> users w' = users w /\ identities w !! ui_ID b = None /\
  exists b', identities w' = <[ui_ID b := b']> (identities w) /\ ui_UserID b' = ui_UserID b /\ ui_DeletedAt b' = ui_DeletedAt b
    /\ ui_TenantID b' = stamp scope (ui_TenantID b) /\ ui_ProviderType b' = ui_ProviderType b /\ ui_ProviderID b' = ui_ProviderID b
    /\ ui_ExternalID b' = ui_ExternalID b.
Proof.
  unfold insert_identity. case_bool_decide as Hn; [done|]. intros Hp. apply put_identity_shape in Hp as (E1 & E2 & _).
  split_and!; [done | by apply eq_None_not_Some |]. eexists. split; [exact E2|]. done.
Qed.
Lemma insert_user_shape u (w w' : W) :
  insert_user lower u w = Ok w' -> users w !! u_ID u = None /\ users w' = <[u_ID u := u]> (users w) /\ identities w' = identities w.
Proof.
  unfold insert_user, put_user. case_bool_decide as Hn; [done|]. destruct (user_conflict _ _ _); [done|]. intros [= <-].
  split; [by apply eq_None_not_Some | done].
Qed.

(** The three rows, or none of them. *)
Lemma create_outcome (w0 : W) u d b :
  on_db (fun w : W => users w = users w0 /\ identities w = identities w0) (CreateWithIdentity lower scope u d b) (fun w r => match r with
    | Ok _ => let u' := stamp_user scope u in
        users w0 !! u_ID u = None /\ users w = <[u_ID u := u']> (users w0) /\ identities w0 !! ui_ID b = None /\
        exists b', identities w = <[ui_ID b := b']> (identities w0) /\ ui_UserID b' = ui_UserID b /\ ui_DeletedAt b' = ui_DeletedAt b
          /\ ui_TenantID b' = stamp scope (ui_TenantID b) /\ ui_ProviderType b' = ui_ProviderType b /\ ui_ProviderID b' = ui_ProviderID b
          /\ ui_ExternalID b' = ui_ExternalID b
    | Err _ => users w = users w0 end).
Proof.
  unfold CreateWithIdentity. apply on_db_txn; [|by intros w []]. intros w1 [Hu1 Hi1].
  eapply (on_db_bind _ _ _ (fun (w : W) r => match r with Ok _ => users w0 !! u_ID u = None /\ users w = <[u_ID u := stamp_user scope u]> (users w0) /\ identities w = identities w0 | Err _ => True end)).
  { apply on_db_exec_or; [|done..]. intros w w' <- Hp. apply insert_user_shape in Hp as (F1 & F2 & F3). cbn in F1, F2. by rewrite <- Hu1, <- Hi1. }
  2: by intros w e _.
  intros []. eapply (on_db_bind _ _ _ (fun (w : W) r => match r with Ok _ => users w0 !! u_ID u = None /\ users w = <[u_ID u := stamp_user scope u]> (users w0) /\ identities w = identities w0 | Err _ => True end)).
  { apply on_db_exec_or; [|done..]. intros w w' (F1 & F2 & F3) Hp. apply insert_detail_rows in Hp as [E1 E2]. by rewrite E1, E2. }
  2: by intros w e _.
  intros []. apply on_db_exec_or; [|by intros w e _ _ |by intros w _]. intros w w' (F1 & F2 & F3) Hp.
  apply insert_identity_shape in Hp as (E1 & E2 & b' & E3 & E4). rewrite E1. rewrite F3 in E2, E3. split_and!; [done..|]. by exists b'.
Qed.

Lemma provision_outcome w0 dummy :
  never_seen w0 -> in_AutoCreate i = true -> on_db (eq w0) (provision lower scope i dummy) (login_outcome w0).
Proof.
  intros Hns Hauto. unfold provision. set (P := fun w : W => users w = users w0 /\ identities w = identities w0).
  assert (forall (w : W) e, P w -> login_outcome w0 w (Err e)) as HPerr by (by intros w e []).
  assert (keeps P new_id) as Hnew by (apply keeps_user_new_id; intros w w' E1 E2 []; split; congruence).
  assert (forall v find, (forall x, keeps P (find x)) -> keeps P (if_free v find)) as Hfree.
  { intros v find Hf. unfold if_free. follow; apply Hf. }
  eapply on_db_bind; [apply alloc_spec| |by intros w e [-> _]; apply HPerr]. intros name.
  apply (on_db_pre _ _ _ (exists k, (k < 1000)%nat /\ name = variant (pickUsername i) k)).
  { intros w (-> & j & Hj & -> & _). by exists j. }
  intros Hname. eapply (on_db_weaken _ P _ (login_outcome w0)); [|by intros w [-> _] | done].
  eapply on_db_bind; [apply (keeps_time_now P)| |intros w e; apply HPerr]. intros t.
  eapply on_db_bind; [apply Hnew| |intros w e; apply HPerr]. intros id.
  eapply on_db_bind; [apply (Hfree _ _ (fun x => keeps_first_user P _))| |intros w e; apply HPerr]. intros email.
  eapply on_db_bind; [apply (Hfree _ _ (fun x => keeps_first_user P _))| |intros w e; apply HPerr]. intros phone.
  destruct dummy as [hex|]; [|by apply on_db_throw; intros w; apply HPerr].
  eapply on_db_bind; [apply Hnew| |intros w e; apply HPerr]. intros did.
  eapply on_db_bind; [apply Hnew| |intros w e; apply HPerr]. intros iid.
  eapply on_db_bind; [apply (create_outcome w0)| |by intros w e Hw].
  intros []. apply on_db_ret. intros w (E1 & E2 & E3 & b' & E4 & E5 & E6 & E7 & E8 & E9 & E10).
  cbn [u_ID ui_ID ui_UserID ui_DeletedAt ui_TenantID ui_ProviderType ui_ProviderID ui_ExternalID] in *.
  split.
  { intros Hst. exists iid, b'. rewrite E2, E4, !lookup_insert_eq. split_and!; try done. unfold in_key, external_key.
    rewrite E7, E8, E9, E10, Hst, Z.eqb_refl. by repeat rewrite bool_decide_eq_true_2 by done. }
  right. split; [done|]. split_and!; try done.
  - change (HasUsablePassword (NoLocalPasswordPrefix +:+ hex) = false). unfold HasUsablePassword. by rewrite HasPrefix_app, andb_false_r.
  - exists iid, b'. done.
Qed.

Lemma find_link_here w0 :
  on_db (eq w0) (findLinkCandidate lower scope i) (fun w r => w = w0 /\ match r with
    | Ok None => linkMatchName (in_Username i) = ""%string \/ ~ name_taken (in_TenantID i) (linkMatchName (in_Username i)) w0
    | _ => True end).
Proof.
  unfold findLinkCandidate, FindByUsernameFold, repo_ListIdentities. case_bool_decide as Hn; [apply on_db_ret; intros w <-; auto|].
  eapply on_db_bind; [apply (on_db_select _ _ _ (fun w r => w = w0 /\ match r with Ok l => l = take 2 (users_where (named lower scope (in_TenantID i) (linkMatchName (in_Username i))) w0) | Err _ => True end)); by intros d <-| |by intros w e [-> _]].
  intros [|c [|]]; [|clear |by apply on_db_throw; intros w [-> _]].
  - apply on_db_ret. intros w [-> Hl]. split; [done|]. right. intros (id & u & Hu & HP).
    assert (u ∈ users_where (named lower scope (in_TenantID i) (linkMatchName (in_Username i))) w0) as Hin by (apply elem_of_users_where; eauto).
    destruct (users_where _ w0) as [|x l]; [by apply not_elem_of_nil in Hin | discriminate Hl].
  - eapply (on_db_bind _ _ _ (fun w _ => w = w0)); [apply on_db_select; by intros d [-> _]| |by intros w e ->].
    intros ex. destruct (existsb _ _); [by apply on_db_throw; intros w -> | by apply on_db_ret; intros w ->].
Qed.

Lemma login_outcome_all w0 dummy :
  inv w0 -> on_db (eq w0) (ResolveExternalLogin lower scope i dummy) (login_outcome w0).
Proof.
  intros Hinv. unfold ResolveExternalLogin. case_bool_decide; [by apply on_db_throw; intros w <-|].
  eapply on_db_attempt; [apply (first_identity_spec (eq w0))|]. intros [b|[]]; try (by apply on_db_throw; intros w [<- _]).
  - apply (on_db_pre _ _ _ ((exists id, identities w0 !! id = Some b) /\ ui_DeletedAt b = None /\ in_key b = true)).
    { intros w (<- & Hex & Hk & _). unfold identity_live in Hk. to_prop. done. }
    intros ([id Hl] & Hd & Hk). eapply on_db_weaken; [by eapply login_bound_outcome | by intros w [<- _] | done].
  - eapply (on_db_weaken _ (eq w0)); [|by intros w [<- _] | done].
    eapply on_db_attempt; [apply (first_identity_spec (eq w0))|]. intros [b|[]]; try (by apply on_db_throw; intros w [<- _]).
    + eapply (on_db_weaken _ (eq w0) _ _ (fun w r => w = w0 /\ exists e, r = Err e)); [|by intros w [<- _] | by intros w r [-> [e ->]]].
      unfold login_unbound, GetAnyByID. eapply (on_db_attempt _ _ _ (fun w _ => w = w0)).
      * eapply on_db_bind; [apply (on_db_select _ _ _ (fun w _ => w = w0)); by intros d <-| |done].
        intros [u|]; [destruct (in_tenant scope (u_TenantID u))|]; first [by apply on_db_ret | by apply on_db_throw].
      * intros [u|[]]; try (by apply on_db_throw; intros w ->; eauto). case_bool_decide; apply on_db_throw; intros w ->; eauto.
    + apply (on_db_pre _ _ _ (forall id b, identities w0 !! id = Some b -> in_tenant scope (ui_TenantID b) = true -> in_key b = false)).
      { intros w (<- & Hnone) id b Hb Ht. apply Hnone in Hb. rewrite Ht in Hb. exact Hb. }
      intros Hnone. eapply (on_db_weaken _ (eq w0)); [|by intros w [<- _] | done].
      eapply on_db_bind; [apply find_link_here| |by intros w e [-> _]].
      intros [[[id n] em]|]; [by apply on_db_throw; intros w [-> _]|].
      destruct (in_AutoCreate i) eqn:Hauto; cbn [negb]; [|by apply on_db_throw; intros w [-> _]].
      apply (on_db_pre _ _ _ (never_seen w0)); [by intros w [-> Hn]|]. intros Hns.
      eapply on_db_weaken; [by apply provision_outcome | by intros w [-> _] | done].
Qed.

(** ** The login keeps the tables sound *)

Lemma refresh_puts (w : W) id b b' :
  inv w -> identities w !! id = Some b -> ui_ID b' = ui_ID b -> ui_UserID b' = ui_UserID b -> ui_TenantID b' = ui_TenantID b ->
  ui_ProviderType b' = ui_ProviderType b -> ui_ExternalID b' = ui_ExternalID b -> ui_DeletedAt b' = ui_DeletedAt b ->
  put_identity b' w = Ok (with_identities <[id := b']> w) /\ inv (with_identities <[id := b']> w).
Proof.
  intros Hw Hl E1 E2 E3 E4 E5 E6. destruct (owners _ _ Hw _ _ Hl) as (u & Hu & Ht & Hlive). pose proof (identities_keyed _ _ Hw _ _ Hl) as Hid.
  assert (put_identity b' w = Ok (with_identities <[id := b']> w)) as Hp.
  { unfold put_identity. rewrite bool_decide_eq_true_2 by (rewrite E2, Hu; done). cbn [negb]. rewrite bool_decide_eq_false_2; [by rewrite E1, Hid|].
    intros [Hd (id' & b0 & Hb0 & Hne & Hd0 & S1 & S2 & S3)]. apply Hne. rewrite (identities_keyed _ _ Hw _ _ Hb0), E1, Hid.
    eapply (externals_distinct _ _ Hw id b id' b0); [done | done | congruence | done |]. split_and!; congruence. }
  split; [done|]. eapply put_identity_inv; [exact Hw | | | | exact Hp]; rewrite ?E2, ?E3, ?E6; done.
Qed.

Lemma keeps_login_bound (b : UserIdentity) :
  on_db (fun w => inv w /\ exists id, identities w !! id = Some b) (login_bound scope i b) (fun w _ => inv w).
Proof.
  unfold login_bound, refreshed. apply keeps_after; [|intros []; eapply keeps_attempt; [apply keeps_repo_GetByID | intros [?|[]]; by follow]].
  destruct (_ || _); [|by apply on_db_ret; intros w []].
  eapply (on_db_bind _ _ _ (fun w _ => inv w /\ exists id, identities w !! id = Some b)); [apply keeps_time_now| |by intros w e []]. intros t.
  eapply (on_db_attempt _ _ _ (fun w _ => inv w)); [|intros ?; by apply on_db_ret].
  apply on_db_exec_or; [|by intros w e []|by intros w []]. intros w w' (Hw & id & Hl) Hp.
  match type of Hp with put_identity ?x _ = _ => edestruct (refresh_puts w id b x) as [Hq Hi]; [done..|] end. rewrite Hp in Hq. by injection Hq as ->.
Qed.

Lemma keeps_CreateWithIdentity u d (b : UserIdentity) :
  u_DeletedAt u = None -> ui_UserID b = u_ID u -> ui_TenantID b = u_TenantID u -> keeps inv (CreateWithIdentity lower scope u d b).
Proof.
  intros Hd Ho Ht. apply keeps_txn. set (P := fun w : W => inv w /\ users w !! u_ID u = Some (stamp_user scope u)).
  eapply (on_db_bind _ _ _ (fun w r => match r with Ok _ => P w | Err _ => inv w end)); [| |by intros w e].
  { apply on_db_exec_or; [|done..]. intros w w' Hw Hp. exact (insert_user_inv lower (stamp_user scope u) _ _ Hw Hd Hp). }
  intros []. eapply (on_db_bind _ _ _ (fun w _ => P w)); [| |by intros w e []].
  { apply keeps_exec_or_rows; [|apply insert_detail_rows]. intros w w' E1 E2 [H1 H2]. split; [by eapply user_inv_same | by rewrite E1]. }
  intros []. apply on_db_exec_or; [|by intros w e []|by intros w []]. intros w w' [Hw Hu] Hp.
  eapply (insert_identity_inv lower scope b (stamp_user scope u)); [done | by rewrite Ho | by cbn; rewrite Ht | done | done].
Qed.

Lemma keeps_ResolveExternalLogin dummy : keeps inv (ResolveExternalLogin lower scope i dummy).
Proof.
  unfold ResolveExternalLogin. case_bool_decide; [by follow|].
  eapply on_db_attempt; [apply (first_identity_spec inv)|]. intros [b|[]]; try (by apply on_db_throw; intros w []).
  { eapply on_db_weaken; [apply keeps_login_bound | by intros w (Hw & Hr & _) | done]. }
  eapply (on_db_weaken _ inv _ (fun w _ => inv w) (fun w _ => inv w)); [|by intros w [] | done].
  apply keeps_attempt; [apply keeps_first_identity|]. intros [b|[]]; try (by follow).
  - unfold login_unbound, GetAnyByID. follow.
  - unfold findLinkCandidate, FindByUsernameFold, repo_ListIdentities, provision, if_free, GetByEmail, GetByPhone.
    apply keeps_bind; [by follow|]. intros [[[? ?] ?]|]; [by follow|]. destruct (negb _); [by follow|].
    apply keeps_bind; [|intros name; follow; by apply keeps_CreateWithIdentity].
    intros s Hs. by destruct (alloc_spec (in_TenantID i) (pickUsername i) (sdb s) s eq_refl) as [-> _].
Qed.
End Resolve.
End Login.
