(* ===== verification/UserAccounts.v ===== *)
(** * UserAccounts: what any sequence of requests leaves of the accounts, and the ways to a new password

    The requests of the console, the portal and the external login as one type of command; the
    invariant of UserProps over their sequences; the ways to a new password; the login
    that is repeated. *)

From stdpp Require Import sorting.
From Stdlib Require Import Ascii.
From S2P Require Import Prelude Statements Text User UserExternal UserProps UserLinks UserLogin.
#[global] Open Scope Z_scope.

Inductive UserCmd : Type :=
| CCreate (tenantID : Z) (salt : string) (req : CreateUserRequest)
| CUpdate (id tenantID : Z) (req : UpdateUserRequest)
| CDelete (id : Z)
| CRestoreUser (id : Z)
| CStatus (id status : Z)
| CLock (id : Z) (reason : string) (actorID : Z)
| CUnlock (id actorID : Z)
| CSuper (actorID tenantID targetID : Z) (makeSuper : bool)
| CChange (id : Z) (old new salt : string)
| CInitial (id : Z) (new salt : string)
| CReset (id : Z) (new : string) (must : option bool) (salt : string)
| CDetail (id : Z) (req : UpdateDetailRequest)
| CUnbind (id iid : Z)
| CRestoreBinding (id iid : Z)
| CBatch (ids : list Z) (action : BatchActionKind) (actorID : Z)
| CRecord (r : LoginRecord)
| CLastLogin (id : Z) (ip : string)
| CBind (i : BindIdentityInput)
| CLogin (i : ExternalLoginInput) (dummy : option string).

Section Accounts.
Context {G : Type} `{!IdGen G} (lower : string -> string).
Context (pwdPolicy : option (Z -> PasswordPolicy)) (config : PasswordPolicy) (userCap : option Z).
Context (HashPassword : string -> string -> option string) (CheckPassword : string -> string -> bool).
Abbreviation W := (UserWorld G).
Abbreviation Op := (M (Store W) UErr).
Abbreviation inv := (user_inv (G:=G) lower).

Definition void {A} (m : Op A) : Op unit := attempt m (fun _ => ret tt).
Definition run_cmd (scope : option Z) (c : UserCmd) : Op unit :=
  match c with
  | CCreate t salt req => void (Create lower scope pwdPolicy config userCap HashPassword t salt req)
  | CUpdate id t req => void (Update lower scope id t req)
  | CDelete id => void (Delete scope id)
  | CRestoreUser id => void (RestoreUser lower scope id)
  | CStatus id st => void (UpdateStatus scope id st)
  | CLock id reason a => void (LockUser scope id reason a)
  | CUnlock id a => void (UnlockUser scope id a)
  | CSuper a t id v => void (SetSuperAdmin scope a t id v)
  | CChange id old new salt => void (ChangePassword scope pwdPolicy config HashPassword CheckPassword id old new salt)
  | CInitial id new salt => void (SetInitialPassword scope pwdPolicy config HashPassword CheckPassword id new salt)
  | CReset id new must salt => void (ResetPassword scope pwdPolicy config HashPassword CheckPassword id new must salt)
  | CDetail id req => void (UpsertDetail scope id req)
  | CUnbind id iid => void (UnbindIdentity scope id iid)
  | CRestoreBinding id iid => void (RestoreIdentity scope id iid)
  | CBatch ids a actor => void (BatchAction scope ids a actor)
  | CRecord r => void (RecordLogin scope r)
  | CLastLogin id ip => void (UpdateLastLogin scope id ip)
  | CBind i => void (BindExternalIdentity scope i)
  | CLogin i dummy => void (ResolveExternalLogin lower scope i dummy)
  end.
(** Each in the tenant its context is pinned to, the clock moving between them. *)
Definition tick (dt : Z) (w : W) : W :=
  mkUserWorld (users w) (details w) (histories w) (identities w) (records w) (user_orgs w) (ugen w) (unow w + dt) (ubus w).
Fixpoint run_cmds (cs : list (option Z * Z * UserCmd)) : Op unit :=
  match cs with
  | [] => ret tt
  | (scope, dt, c) :: rest => do! write (tick dt) in do! run_cmd scope c in run_cmds rest
  end.

Lemma keeps_BatchAction scope ids a actor : keeps inv (BatchAction scope ids a actor).
Proof.
  unfold BatchAction. apply keeps_bind; [|intros ?; by follow]. generalize 0 at 1. generalize (@nil (Z * UErr)) at 1.
  induction ids as [|id ids IH]; intros errs n; cbn [batch_loop]; [by follow|].
  apply keeps_attempt; [|by intros [?|?]; apply IH].
  destruct a; [apply keeps_UpdateStatus | apply keeps_UpdateStatus | apply keeps_user_Delete].
Qed.

(** C24: whatever sequence of requests the accounts go through, in whatever tenants and whichever of
    their statements fail, the names, addresses and numbers of the live accounts of a tenant stay
    distinct, an external account has at most one live binding, and every live binding belongs
    to a live account of its tenant. *)
Theorem bindings_have_live_owners cs : keeps inv (run_cmds cs).
Proof.
  induction cs as [|[[scope dt] c] cs IH]; [apply keeps_ret|]. cbn [run_cmds].
  apply keeps_bind; [apply keeps_write; intros w; by apply user_inv_same | intros _].
  apply keeps_bind; [|intros ?; exact IH]. destruct c; (apply keeps_attempt; [|intros ?; apply keeps_ret]);
    [apply user_keeps_Create | apply user_keeps_Update | apply keeps_user_Delete | apply keeps_RestoreUser | apply keeps_UpdateStatus | apply keeps_LockUser
    | apply keeps_UnlockUser | apply keeps_user_SetSuperAdmin | apply keeps_ChangePassword | apply keeps_SetInitialPassword | apply keeps_ResetPassword
    | apply keeps_UpsertDetail | apply keeps_UnbindIdentity | apply keeps_RestoreIdentity | apply keeps_BatchAction | apply keeps_RecordLogin
    | apply keeps_UpdateLastLogin | apply keeps_BindExternalIdentity | apply keeps_ResolveExternalLogin].
Qed.

Lemma empty_world_inv (w : W) : users w = ∅ -> identities w = ∅ -> user_inv lower w.
Proof. intros Hu Hi. split; rewrite ?Hu, ?Hi; intros *; rewrite ?lookup_empty; done. Qed.

(** ** External identities *)

Section Tenant.
Context (scope : option Z).

(** A login by an external identity ends in the account a live binding of that identity
    belongs to, or, when no binding of it was ever made, no account has its name and the provider
    may create accounts, in a new account without a usable password that the identity is bound to; a login
    that is refused leaves the accounts as they were. *)
Theorem external_login_decides i dummy s s' r :
  inv (sdb s) -> ResolveExternalLogin lower scope i dummy s = (s', r) -> login_outcome lower scope i (sdb s) (sdb s') r.
Proof. intros Hinv Hrun. pose proof (login_outcome_all lower scope i (sdb s) dummy Hinv s eq_refl) as H. by rewrite Hrun in H. Qed.

(** In a healthy store a live binding decides the login. *)
Lemma bound_login_runs i dummy (w : W) u :
  inv w -> in_tenant scope (in_TenantID i) = true -> in_ExternalID i <> ""%string -> bound_to i u w ->
  exists w', runs w (ResolveExternalLogin lower scope i dummy) (Ok u) w' /\ users w' = users w.
Proof.
  intros Hw Hin Hne (id & b & Hl & Hd & Hk & Ho & Hu).
  pose proof (external_key_parts _ _ _ _ _ Hk) as (K1 & K2 & K3 & K4).
  destruct (owners _ _ Hw _ _ Hl) as (u0 & Hu0 & Ht & Hlive). rewrite Ho, Hu in Hu0. injection Hu0 as <-.
  assert (user_live scope u = true) as Hul by (unfold user_live; rewrite (Hlive Hd), Ht, K1, Hin; done).
  set (P := fun x => identity_live scope x && external_key (in_TenantID i) (in_ProviderType i) (in_ProviderID i) (in_ExternalID i) x).
  assert (P b = true) as HPb by (unfold P, identity_live; rewrite Hd, K1, Hin; exact Hk).
  assert (runs w (first_identity P) (Ok b) w) as Hfirst.
  { unfold first_identity. eapply runs_bind; [apply runs_select|]. destruct (matching P w) as [|x rest] eqn:Hm.
    - exfalso. apply (not_elem_of_nil b). rewrite <- Hm. unfold matching. rewrite merge_sort_Permutation. apply elem_of_rows. eauto.
    - unfold matching in Hm. apply merge_sort_head in Hm as [Hx _]; [|apply _..]. apply elem_of_rows in Hx as [[id' Hx] HPx].
      unfold P, identity_live in HPx. to_prop. apply external_key_parts in H0 as (X1 & X2 & X3 & X4).
      assert (id' = id) as -> by (eapply (externals_distinct _ _ Hw); [exact Hl | exact Hx | done | done | split_and!; congruence]).
      assert (x = b) as -> by congruence. apply runs_ret. }
  assert (forall w1 : W, users w1 = users w -> runs w1 (attempt (repo_GetByID scope (ui_UserID b)) (fun r => match r with
    | Ok u => ret u | Err ErrRecordNotFound => throw ErrExternalUserDeleted | Err e => throw e end)) (Ok u) w1) as Hget.
  { intros w1 E. eapply runs_attempt; [eapply runs_bind; [apply runs_select|]; rewrite E, Ho, Hu, Hul; apply runs_ret | apply runs_ret]. }
  unfold ResolveExternalLogin. rewrite bool_decide_eq_false_2 by done.
  set (b' := (refreshed i b).1). destruct (refreshed i b).2 eqn:Hup.
  - set (b'' := touch (unow w) b'). destruct (refresh_puts lower w id b b'') as [Hp _]; [done..|].
    exists (with_identities <[id := b'']> w). split; [|done]. eapply runs_attempt; [exact Hfirst|]. unfold login_bound.
    replace (refreshed i b) with (b', true) by (unfold b'; rewrite <- Hup; by rewrite <- surjective_pairing). cbn iota beta.
    eapply runs_bind; [|by apply Hget]. eapply runs_bind; [apply runs_gets|].
    eapply runs_attempt; [apply runs_exec_or; exact Hp | apply runs_ret].
  - exists w. split; [|done]. eapply runs_attempt; [exact Hfirst|]. unfold login_bound.
    replace (refreshed i b) with (b', false) by (unfold b'; rewrite <- Hup; by rewrite <- surjective_pairing). cbn iota beta.
    eapply runs_bind; [apply runs_ret|]. by apply Hget.
Qed.

(** The same identity ends in the same account: after a login, one by the same external
    account, whatever else the provider now says of it, succeeds with that account when every statement is
    answered, and changes no account. *)
Theorem external_login_repeats i j dummy dummy' s s' u :
  inv (sdb s) -> in_tenant scope (in_TenantID i) = true ->
  ResolveExternalLogin lower scope i dummy s = (s', Ok u) -> healthy_from s' ->
  in_TenantID j = in_TenantID i -> in_ProviderType j = in_ProviderType i -> in_ProviderID j = in_ProviderID i -> in_ExternalID j = in_ExternalID i ->
  exists s'', ResolveExternalLogin lower scope j dummy' s' = (s'', Ok u) /\ users (sdb s'') = users (sdb s').
Proof.
  intros Hinv Hin Hrun Hh E1 E2 E3 E4.
  assert (in_ExternalID i <> ""%string) as Hne.
  { intros He. unfold ResolveExternalLogin in Hrun. by rewrite bool_decide_eq_true_2 in Hrun. }
  pose proof (login_outcome_all lower scope i (sdb s) dummy Hinv s eq_refl) as Hout.
  pose proof (keeps_ResolveExternalLogin lower scope i dummy s Hinv) as Hinv'. rewrite Hrun in Hout, Hinv'. cbn [fst snd] in *.
  destruct Hout as [Hb _]. specialize (Hb (stamp_in_tenant scope _ Hin)).
  assert (bound_to j u (sdb s')) as Hbj. { unfold bound_to, in_key in *. by rewrite E1, E2, E3, E4. }
  destruct (bound_login_runs j dummy' (sdb s') u) as (w' & Hr & Hu); [done | by rewrite E1 | by rewrite E4 | done |].
  destruct (Hr s' Hh eq_refl) as (n & _ & Hn). rewrite Hn. eexists. split; [done | exact Hu].
Qed.

(** Binding an external identity changes no account and moves nobody's login: every binding that was
    live is as it was; a bind that succeeds leaves the one live binding of the identity with the
    caller, a new row, the caller's own, or one that had been unbound, and announces a takeover, naming the
    previous owner, exactly when the row was another's; a bind that fails changes nothing. *)
Theorem bind_takes_no_live_login i s s' r :
  inv (sdb s) -> BindExternalIdentity scope i s = (s', r) ->
  bind_outcome i (sdb s) (sdb s') r /\
  forall id b, identities (sdb s) !! id = Some b -> ui_DeletedAt b = None -> identities (sdb s') !! id = Some b.
Proof.
  intros Hinv Hrun. pose proof (bind_outcome_all lower scope i (sdb s) Hinv s eq_refl) as H. rewrite Hrun in H. cbn [fst snd] in H.
  split; [done|]. intros id b Hb Hd. destruct H as [_ H]. destruct r as [[]|e]; [|by destruct H as [-> _]].
  destruct H as (id' & b' & Hb' & _ & _ & _ & Hrest & Hsame & _). destruct (decide (id = id')) as [->|Hne].
  - by rewrite (Hsame _ Hb Hd).
  - by rewrite Hrest.
Qed.
End Tenant.
End Accounts.

(** ** the ways to a new password

    ChangePassword, SetInitialPassword and ResetPassword as one operation with three kinds of
    leave, and what each leaves behind when it succeeds and when a statement fails. *)

Inductive Leave : Type := OldPassword (old : string) | NoPassword | ByAdmin (must : option bool).

Section Passwords.
Context {G : Type} `{!IdGen G} (scope : option Z).
Context (pwdPolicy : option (Z -> PasswordPolicy)) (config : PasswordPolicy).
Context (HashPassword : string -> string -> option string) (CheckPassword : string -> string -> bool).
Abbreviation W := (UserWorld G).
Abbreviation policy := (activePasswordPolicy pwdPolicy config).

Section One.
Context (k : Leave) (id : Z) (new salt : string).

Definition change : M (Store W) UErr unit :=
  match k with
  | OldPassword old => ChangePassword scope pwdPolicy config HashPassword CheckPassword id old new salt
  | NoPassword => SetInitialPassword scope pwdPolicy config HashPassword CheckPassword id new salt
  | ByAdmin must => ResetPassword scope pwdPolicy config HashPassword CheckPassword id new must salt
  end.
Definition may_change (u : User) : Prop :=
  match k with
  | OldPassword old => CheckPassword old (u_PasswordHash u) = true
  | NoPassword => HasUsablePassword (u_PasswordHash u) = false
  | ByAdmin _ => True
  end.
Definition forced : bool := match k with ByAdmin must => default true must | _ => false end.

(** Not among the last passwords, as many as the policy of [tid] says. *)
Definition not_recent (tid : Z) (w : W) : Prop :=
  forall h, h ∈ recent_history id (HistoryCount (policy tid)) w -> CheckPassword new (ph_PasswordHash h) = false.
Definition acceptable (u : User) (w0 : W) : Prop :=
  users w0 !! id = Some u /\ user_live scope u = true /\ may_change u /\ broken_rule (policy (u_TenantID u)) new = None
  /\ exists tid, (tid = u_TenantID u \/ tid = 0) /\ not_recent tid w0.

Definition written (w0 w : W) : Prop := exists u hash, acceptable u w0 /\ HashPassword new salt = Some hash
  /\ users w = <[id := set_password hash forced (unow w0) u]> (users w0)
  /\ exists hid, histories w0 !! hid = None /\ histories w = <[hid := mkPasswordHistory hid id hash (unow w0)]> (histories w0).
Definition half_written (w0 w : W) : Prop := exists u hash, acceptable u w0 /\ HashPassword new salt = Some hash
  /\ users w = <[id := set_password hash forced (unow w0) u]> (users w0) /\ histories w = histories w0.

Definition change_outcome (w0 w : W) (r : res UErr unit) : Prop :=
  match r with
  | Ok _ => written w0 w
  | Err _ => users w = users w0 /\ histories w = histories w0 \/ (forall must, k <> ByAdmin must) /\ half_written w0 w
  end.

Lemma untouched w e : change_outcome w w (Err e).
Proof. by left. Qed.
Local Hint Resolve untouched : core.

Lemma validate_here (w0 : W) t :
  on_db (eq w0) (validatePassword pwdPolicy config t new) (fun w r => w = w0 /\ (r = Ok tt -> broken_rule (policy t) new = None)).
Proof. unfold validatePassword. destruct (broken_rule _ _) eqn:Hb; [apply on_db_throw | apply on_db_ret]; by intros w <-. Qed.

Lemma history_here (w0 : W) :
  on_db (eq w0) (checkPasswordHistory scope pwdPolicy config CheckPassword id new) (fun w r => w = w0 /\ (r = Ok tt ->
    forall u, users w0 !! id = Some u -> exists tid, (tid = u_TenantID u \/ tid = 0) /\ not_recent tid w0)).
Proof.
  unfold checkPasswordHistory. eapply on_db_attempt; [apply repo_GetByID_here|]. intros x. cbn beta zeta.
  set (tid := match x with Ok u => u_TenantID u | Err _ => 0 end).
  apply (on_db_pre _ _ _ (forall u, users w0 !! id = Some u -> tid = u_TenantID u \/ tid = 0)).
  { intros w [_ Hx] u Hu. unfold tid, user_found in *. rewrite Hu in Hx. destruct (user_live scope u); destruct Hx as [-> | ->]; auto. }
  intros Htid. assert (not_recent tid w0 -> forall u, users w0 !! id = Some u -> exists tid, (tid = u_TenantID u \/ tid = 0) /\ not_recent tid w0) as Hgo by eauto.
  destruct (Z.leb_spec (HistoryCount (policy tid)) 0) as [Hz|Hz].
  - apply on_db_ret. intros w [-> _]. split; [done|]. intros _. apply Hgo. intros h. unfold recent_history.
    replace (Z.to_nat _) with O by lia. by intros Hh%not_elem_of_nil.
  - eapply on_db_bind; [apply (on_db_select _ _ _ (fun w r => w = w0 /\ match r with Ok l => l = recent_history id (HistoryCount (policy tid)) w0 | Err _ => True end)); by intros d [-> _]| |by intros w e [-> _]].
    intros l. destruct (existsb _ l) eqn:Hex; [by apply on_db_throw; intros w [-> _]|]. apply on_db_ret. intros w [-> ->]. split; [done|].
    intros _. apply Hgo. intros h Hh. apply not_true_iff_false. intros Hc. apply not_true_iff_false in Hex. apply Hex, existsb_exists. exists h.
    split; [by apply list_elem_of_In | done].
Qed.

Lemma insert_history_shape h (w w' : W) :
  insert_history h w = Ok w' -> users w' = users w /\ histories w !! ph_ID h = None /\ histories w' = <[ph_ID h := h]> (histories w).
Proof.
  unfold insert_history. case_bool_decide; [|done]. cbn [negb]. case_bool_decide as Hx; [done|]. intros [= <-].
  split_and!; [done | by apply eq_None_not_Some | done].
Qed.

(** The account is read, the policy and the history are asked; then [k'] runs. *)
Lemma after_guards (w0 : W) u t k' :
  u_TenantID u = t -> users w0 !! id = Some u -> user_live scope u = true -> may_change u ->
  (forall hash, HashPassword new salt = Some hash -> acceptable u w0 -> on_db (eq w0) (k' hash) (change_outcome w0)) ->
  on_db (eq w0) (do! validatePassword pwdPolicy config t new in
                 do! checkPasswordHistory scope pwdPolicy config CheckPassword id new in
                 let! hash := hash_password HashPassword new salt in k' hash) (change_outcome w0).
Proof.
  intros <- Hu Hl Hm Hk. eapply on_db_bind; [apply validate_here| |by intros w e [-> _]]. intros [].
  apply (on_db_pre _ _ _ (broken_rule (policy (u_TenantID u)) new = None)); [by intros w [_ H]; apply H|]. intros Hbr.
  eapply (on_db_weaken _ (eq w0) _ (change_outcome w0)); [|by intros w [-> _] | done].
  eapply on_db_bind; [apply history_here| |by intros w e [-> _]]. intros [].
  apply (on_db_pre _ _ _ (exists tid, (tid = u_TenantID u \/ tid = 0) /\ not_recent tid w0)); [by intros w [_ H]; apply H|]. intros Hrec.
  eapply (on_db_weaken _ (eq w0) _ (change_outcome w0)); [|by intros w [-> _] | done].
  unfold hash_password. destruct (HashPassword new salt) as [hash|] eqn:Hh; [|].
  2: { eapply on_db_bind; [apply (on_db_throw _ _ (fun w r => w = w0 /\ exists e, r = Err e)); intros w <-; eauto| |by intros w e [-> _]].
       intros h s [_ [e [=]]]. }
  eapply on_db_bind; [apply (on_db_ret _ _ (fun w r => w = w0 /\ r = Ok hash)); by intros w <-| |by intros w e []].
  intros h. apply (on_db_pre _ _ _ (h = hash)); [by intros w [_ [= ->]]|]. intros ->.
  eapply on_db_weaken; [by apply Hk | by intros w [-> _] | done].
Qed.

Lemma store_password w0 u hash (k1 : forall b, k <> ByAdmin b) :
  acceptable u w0 -> HashPassword new salt = Some hash ->
  on_db (eq w0) (do! UpdatePassword scope id hash in
                 let! hid := new_id in
                 let! now := time_now in
                 do! CreatePasswordHistory (mkPasswordHistory hid id hash now) in
                 publish (event UserPasswordChanged [("user_id", I64 id)])) (change_outcome w0).
Proof.
  intros Hacc Hh. pose proof Hacc as (Hu & Hl & _). assert (forced = false) as Hf by (unfold forced; destruct k; [done | done | by destruct (k1 must)]).
  set (P := fun w : W => users w = <[id := set_password hash forced (unow w0) u]> (users w0) /\ histories w = histories w0 /\ unow w = unow w0).
  assert (forall w e, P w -> change_outcome w0 w (Err e)) as HP.
  { intros w e (E1 & E2 & _). right. split; [done|]. exists u, hash. done. }
  eapply (on_db_bind _ _ _ (fun w r => match r with Ok _ => P w | Err _ => w = w0 end)); [| |by intros w e ->].
  { unfold UpdatePassword. eapply on_db_bind; [apply (on_db_gets _ unow (fun w r => w = w0 /\ r = Ok (unow w0))); by intros w <-| |by intros w e []].
    intros t. apply (on_db_pre _ _ _ (t = unow w0)); [by intros w [_ [= ->]]|]. intros ->.
    apply on_db_exec_or; [|by intros w e [-> _]|by intros w [-> _]]. intros w w' [-> _]. unfold update_user. rewrite Hu, Hl. intros [= <-].
    unfold P. by rewrite Hf. }
  intros []. eapply (on_db_bind _ _ _ (fun w _ => P w)); [by intros s Hs; unfold new_id; destruct (Generate _)| |by intros w e; apply HP]. intros hid.
  eapply on_db_bind; [apply (on_db_gets _ unow (fun w r => P w /\ r = Ok (unow w0))); intros w Hw; split; [done|]; by destruct Hw as (_ & _ & ->)| |by intros w e []; apply HP].
  intros t. apply (on_db_pre _ _ _ (t = unow w0)); [by intros w [_ [= ->]]|]. intros ->.
  eapply (on_db_bind _ _ _ (fun w r => match r with Ok _ => written w0 w | Err _ => P w end)); [| |by intros w e; apply HP].
  { apply on_db_exec_or; [|by intros w e []|by intros w []]. intros w w' [(E1 & E2 & _) _] Hi.
    apply insert_history_shape in Hi as (F1 & F2 & F3). cbn in F2, F3. exists u, hash. rewrite F1, F3, E1, E2. rewrite E2 in F2.
    split_and!; try done. by exists hid. }
  intros []. apply on_db_write. intros w Hw. exact Hw.
Qed.

Lemma reset_password w0 u hash must :
  k = ByAdmin must -> acceptable u w0 -> HashPassword new salt = Some hash ->
  on_db (eq w0) (let! hid := new_id in
                 let! now := time_now in
                 do! ResetPasswordTx scope id hash (default true must) (mkPasswordHistory hid id hash now) in
                 publish (event UserPasswordChanged [("user_id", I64 id); ("admin_reset", Bln true)])) (change_outcome w0).
Proof.
  intros Hk Hacc Hh. pose proof Hacc as (Hu & Hl & _). assert (forced = default true must) as Hf by (unfold forced; by rewrite Hk).
  set (P := fun w : W => users w = users w0 /\ histories w = histories w0 /\ unow w = unow w0).
  assert (forall w e, P w -> change_outcome w0 w (Err e)) as HP by (intros w e (E1 & E2 & _); by left).
  eapply (on_db_bind _ _ _ (fun w _ => P w)); [by intros s Hs; unfold new_id, P; rewrite Hs; destruct (Generate _)| |by intros w e; apply HP]. intros hid.
  eapply on_db_bind; [apply (on_db_gets _ unow (fun w r => P w /\ r = Ok (unow w0))); intros w Hw; split; [done|]; by destruct Hw as (_ & _ & ->)| |by intros w e []; apply HP].
  intros t. apply (on_db_pre _ _ _ (t = unow w0)); [by intros w [_ [= ->]]|]. intros ->.
  eapply (on_db_bind _ _ _ (fun w r => match r with Ok _ => written w0 w | Err _ => P w end)); [| |by intros w e; apply HP].
  - unfold ResetPasswordTx. apply on_db_txn; [|by intros w []]. intros w1 [(E1 & E2 & E3) _].
    eapply on_db_bind; [apply (on_db_gets _ unow (fun w r => w = w1 /\ r = Ok (unow w0))); intros w <-; by rewrite E3| |by intros w e []].
    intros t. apply (on_db_pre _ _ _ (t = unow w0)); [by intros w [_ [= ->]]|]. intros ->.
    eapply (on_db_bind _ _ _ (fun w r => match r with Ok _ => users w = <[id := set_password hash forced (unow w0) u]> (users w0) /\ histories w = histories w0 | Err _ => True end));
      [| |by intros w e _].
    + apply on_db_exec_or; [|done..]. intros w w' [-> _]. unfold update_user. rewrite E1, Hu, Hl. intros [= <-]. cbn. by rewrite Hf, E1.
    + intros []. apply on_db_exec_or; [|done..]. intros w w' (F1 & F2) Hi. apply insert_history_shape in Hi as (F3 & F4 & F5). cbn in F4, F5.
      exists u, hash. rewrite F3, F5, F1, F2. rewrite F2 in F4. split_and!; try done. by exists hid.
  - intros []. apply on_db_write. intros w Hw. exact Hw.
Qed.

Lemma change_outcome_all w0 : on_db (eq w0) change (change_outcome w0).
Proof.
  unfold change. destruct k as [old| |must] eqn:Hk;
    (eapply on_db_bind; [apply (found_spec scope (eq w0))| |by intros w e [<- _]]); intros u;
    apply (on_db_pre _ _ _ (users w0 !! id = Some u /\ user_live scope u = true)); (try by intros w (<- & H1 & H2)); intros [Hu Hl];
    eapply (on_db_weaken _ (eq w0) _ (change_outcome w0)); (try by intros w [<- _]); (try done).
  - destruct (CheckPassword old (u_PasswordHash u)) eqn:Hc; cbn [negb]; [|by apply on_db_throw; intros w <-].
    apply (after_guards w0 u); [done | done | done | unfold may_change; by rewrite Hk |]. intros hash Hh Hacc.
    apply (store_password w0 u); [by intros b; rewrite Hk | done..].
  - destruct (HasUsablePassword (u_PasswordHash u)) eqn:Hc; [by apply on_db_throw; intros w <-|].
    apply (after_guards w0 u); [done | done | done | unfold may_change; by rewrite Hk |]. intros hash Hh Hacc.
    apply (store_password w0 u); [by intros b; rewrite Hk | done..].
  - apply (after_guards w0 u); [done | done | done | unfold may_change; by rewrite Hk |]. intros hash Hh Hacc. by apply (reset_password w0 u).
Qed.
End One.

(** Each of the three password operations sets a password only for a live account, with the leave its way takes (the old
    password, no password to protect, or an administrator or the reset link of the portal), if the policy of its tenant
    accepts it and it is none of the last ones (as many as that policy says, or the default policy
    when the account cannot be read again); it is hashed, recorded, and the account marked as the way demands. A
    request that fails leaves account and history as they were, except that the two self-service ways may
    leave the new password without its record. *)
Theorem passwords_are_set_with_leave k id new salt s s' r :
  change k id new salt s = (s', r) -> change_outcome k id new salt (sdb s) (sdb s') r.
Proof. intros Hrun. pose proof (change_outcome_all k id new salt (sdb s) s eq_refl) as H. by rewrite Hrun in H. Qed.
End Passwords.
