(* ===== verification/UserRevocation.v ===== *)
(** * UserRevocation: accounts that must stop working now

    The subscribers of src/app/run.go that cut the sessions of an account when an
    administrator locks, disables, deletes it or resets its password, over the events User.v
    publishes and the sessions of Session.v. *)

From stdpp Require Import sorting.
From Stdlib Require Import Ascii.
From S2P Require Import Redis Session SessionProps Prelude Statements Text User UserProps.
#[global] Open Scope Z_scope.

(** [payload["k"].(T)] for int, int64 and bool *)
Definition get_int (p : gmap string UVal) (k : string) : option Z := match p !! k with Some (Int z) => Some z | _ => None end.
Definition get_int64 (p : gmap string UVal) (k : string) : Z := match p !! k with Some (I64 z) => z | _ => 0 end.
Definition get_bool (p : gmap string UVal) (k : string) : bool := match p !! k with Some (Bln b) => b | _ => false end.

Definition adminStatusRevocation (p : gmap string UVal) : option (Z * Z) :=
  match get_int p "status" with
  | None => None
  | Some status =>
      if negb (status =? StatusLocked) && negb (status =? StatusDisabled) then None else
      let userID := get_int64 p "user_id" in
      if userID =? 0 then None else Some (userID, status)
  end.

(** The account whose sessions the subscribers of an event cut. *)
Definition on_password_changed (p : gmap string UVal) : option Z :=
  if negb (get_bool p "admin_reset") then None else
  let uid := get_int64 p "user_id" in if uid =? 0 then None else Some uid.
Definition on_user_deleted (p : gmap string UVal) : option Z :=
  let uid := get_int64 p "user_id" in if uid =? 0 then None else Some uid.
Definition cut_by (e : UEvent) : option Z :=
  if bool_decide (ue_Type e = UserPasswordChanged) then on_password_changed (ue_Payload e)
  else if bool_decide (ue_Type e = UserLocked \/ ue_Type e = UserUpdated) then fst <$> adminStatusRevocation (ue_Payload e)
  else if bool_decide (ue_Type e = UserDeleted) then on_user_deleted (ue_Payload e)
  else None.

Section Sessions.
Context (m : Manager) (pol : Policy).
Fixpoint revoke_in (namespaces : list string) (userID : Z) : M SRedis RErr unit :=
  match namespaces with
  | [] => ret tt
  | ns :: rest => attempt (DeleteAllByUser m pol ns userID) (fun _ => revoke_in rest userID)
  end.
Definition revokeUserSessions (userID : Z) : M SRedis RErr unit :=
  revoke_in [NamespacePortal; NamespaceConsole; NamespaceProtocol] userID.
(** A published event as its subscribers handle it. *)
Definition handle_event (e : UEvent) : M SRedis RErr unit :=
  match cut_by e with Some uid => revokeUserSessions uid | None => ret tt end.

Lemma revoke_in_spec A namespaces u r r' x :
  fine r -> indexed A r -> (forall ns, ns ∈ namespaces -> known_ns ns) -> revoke_in namespaces u r = (r', x) ->
  shrinks A r r' /\ forall ns id s, ns ∈ namespaces -> has r' ns id s -> UserID s <> u.
Proof.
  revert r. induction namespaces as [|ns rest IH]; intros r Hf Hi Hns; cbn [revoke_in].
  - unfold ret. intros [= <- _]. split; [split_and!; [done | done | done]|]. set_solver.
  - unfold attempt. destruct (DeleteAllByUser m pol ns u r) as [r1 y] eqn:Hd. intros Hr.
    apply (DeleteAllByUser_spec m A) in Hd as (Hsh & _ & Hgone); [|done|done|apply Hns; left].
    destruct (IH r1) as [Hsh2 Hrest]; [by eapply fine_env; [apply Hsh|] | apply Hsh | intros; apply Hns; by right | done|].
    split; [by eapply shrinks_trans|]. intros ns' id s Hin Hhas. apply elem_of_cons in Hin as [->|Hin]; [|by eapply Hrest].
    apply (Hgone id). eapply Hsh2; [apply Hns; left | done].
Qed.

Lemma handled A e u r r' x :
  cut_by e = Some u -> fine r -> indexed A r -> handle_event e r = (r', x) ->
  forall ns id s, known_ns ns -> has r' ns id s -> UserID s <> u.
Proof.
  intros Hc Hf Hi. unfold handle_event. rewrite Hc. intros Hr ns id s Hns.
  eapply (revoke_in_spec A) in Hr as [_ Hgone]; [|done|done|].
  - apply Hgone. unfold known_ns in Hns. destruct Hns as [->|[->| ->]]; set_solver.
  - intros ns' Hin. unfold known_ns. set_solver.
Qed.
End Sessions.

(** ** The events of the operations *)

Fixpoint assoc (l : list (string * UVal)) (k : string) : option UVal :=
  match l with [] => None | (k', v) :: rest => if String.eqb k' k then Some v else assoc rest k end.
Lemma payload_lookup type l k : ue_Payload (event type l) !! k = assoc l k.
Proof.
  cbn. induction l as [|[k' v] l IH]; [apply lookup_empty|]. cbn. destruct (String.eqb_spec k' k) as [->|Hne].
  - apply lookup_insert_eq.
  - by rewrite lookup_insert_ne.
Qed.
(** Who is cut by an event that is written out. *)
Ltac cut_event := unfold cut_by, adminStatusRevocation, on_user_deleted, on_password_changed, get_int, get_int64, get_bool;
  rewrite ?payload_lookup; cbn [ue_Type event assoc String.eqb Ascii.eqb Bool.eqb].

Section Events.
Context {G : Type} `{!IdGen G} (lower : string -> string) (scope : option Z).
Context (pwdPolicy : option (Z -> PasswordPolicy)) (config : PasswordPolicy).
Context (HashPassword : string -> string -> option string) (CheckPassword : string -> string -> bool).
Abbreviation W := (UserWorld G).

(** Nothing is announced. *)
Definition silent {A} (op : M (Store W) UErr A) : Prop := forall b, keeps (fun w => ubus w = b) op.

Lemma silent_exec_or f : (forall w w' : W, f w = Ok w' -> ubus w' = ubus w) -> silent (Statements.exec_or ErrDB f).
Proof. intros Hf b. apply keeps_exec_or. intros w w' <-. apply Hf. Qed.
Lemma silent_update id e f : silent (Statements.exec_or ErrDB (update_user scope id e f)).
Proof.
  apply silent_exec_or. intros w w'. unfold update_user. destruct (users w !! id) as [u|]; [|done]. destruct (user_live _ _); [|done]. by intros [= <-].
Qed.
Lemma silent_new_id : silent new_id.
Proof. intros b s Hs. unfold new_id. destruct (Generate _). exact Hs. Qed.

(** An operation that is silent and then announces [e] when it succeeds. *)
Lemma announces {A} (op : M (Store W) UErr A) (k : A -> M (Store W) UErr unit) (P : UEvent -> Prop) (w0 : W) :
  silent op -> (forall a, on_db (fun w => ubus w = ubus w0) (k a) (fun w r => r = Ok tt -> exists e, ubus w = ubus w0 ++ [e] /\ P e)) ->
  on_db (fun w => ubus w = ubus w0) (bind op k) (fun w r => r = Ok tt -> exists e, ubus w = ubus w0 ++ [e] /\ P e).
Proof. intros Hs Hk. eapply on_db_bind; [apply (Hs (ubus w0)) | exact Hk | done]. Qed.
Lemma announces_publish (P : UEvent -> Prop) (w0 : W) e :
  P e -> on_db (fun w : W => ubus w = ubus w0) (publish e) (fun w r => r = Ok tt -> exists e, ubus w = ubus w0 ++ [e] /\ P e).
Proof. intros HP. apply on_db_write. intros w Hw _. exists e. cbn. by rewrite Hw. Qed.

(** What an administrator does to an account that must stop working. *)
Inductive Cut : Type := CutStatus (status : Z) | CutLock (reason : string) (actorID : Z) | CutDelete | CutReset (new : string) (must : option bool) (salt : string).
Definition cut (c : Cut) (id : Z) : M (Store W) UErr unit :=
  match c with
  | CutStatus st => UpdateStatus scope id st
  | CutLock reason actor => LockUser scope id reason actor
  | CutDelete => Delete scope id
  | CutReset new must salt => ResetPassword scope pwdPolicy config HashPassword CheckPassword id new must salt
  end.
Definition cutting (c : Cut) : Prop := match c with CutStatus st => st = StatusLocked \/ st = StatusDisabled | _ => True end.

Lemma silent_status id st : silent (or_user_not_found (repo_UpdateStatus scope id st)).
Proof. intros b. apply keeps_found. apply keeps_bind; [apply keeps_time_now | intros t; apply silent_update]. Qed.
Lemma silent_read {A} (op : M (Store W) UErr A) : (forall I, keeps I op) -> silent op.
Proof. intros H b. apply H. Qed.

Lemma cut_announces c id (w0 : W) :
  cutting c -> id <> 0 ->
  on_db (fun w => ubus w = ubus w0) (cut c id) (fun w r => r = Ok tt -> exists e, ubus w = ubus w0 ++ [e] /\ cut_by e = Some id).
Proof.
  intros Hc Hid. apply Z.eqb_neq in Hid as Hz. destruct c as [st|reason actor| |new must salt]; cbn [cut].
  - apply announces; [apply silent_status|]. intros []. eapply on_db_attempt; [apply keeps_repo_GetByID|]. intros x. apply announces_publish.
    cut_event. destruct Hc as [-> | ->]; cbn; by rewrite Hz.
  - apply announces; [apply silent_status|]. intros []. apply announces_publish.
    cut_event. cbn. by rewrite Hz.
  - apply announces; [apply silent_read; intros I; apply keeps_found, keeps_repo_GetByID|]. intros u.
    apply announces; [intros b; apply keeps_bind; [apply keeps_time_now | intros t; by apply keeps_exec]|]. intros [].
    apply announces; [intros b; apply keeps_bind; [apply keeps_time_now | intros t; apply keeps_exec]|].
    { intros w <-. unfold delete_user. destruct (users w !! id) as [v|]; [|done]. by destruct (user_live _ _). }
    intros []. apply announces_publish. cut_event. cbn. by rewrite Hz.
  - apply announces; [apply silent_read; intros I; apply keeps_found, keeps_repo_GetByID|]. intros u.
    apply announces; [apply silent_read; intros I; apply keeps_validatePassword|]. intros [].
    apply announces; [apply silent_read; intros I; apply keeps_checkPasswordHistory|]. intros [].
    apply announces; [apply silent_read; intros I; apply keeps_hash_password|]. intros hash.
    apply announces; [apply silent_new_id|]. intros hid. apply announces; [intros b; apply keeps_time_now|]. intros t.
    apply announces; [|intros []; apply announces_publish; cut_event; cbn; by rewrite Hz].
    intros b. apply keeps_txn. apply keeps_bind; [apply keeps_time_now|]. intros t'. apply keeps_bind; [apply silent_update|]. intros _.
    apply silent_exec_or. intros w w'. unfold insert_history. repeat (case_bool_decide; try done). by intros [= <-].
Qed.

(** C25: when an administrator locks an account, disables it by its status, deletes it or resets its password, the
    request that succeeds announces one event; once its subscribers have handled it, on sessions written by whole, answered
    requests under an absolute timeout that was not lowered, no session of the account is left, of the
    console, the portal or the protocols. (The form that edits an account is none of them: below.) *)
Theorem account_is_cut_off c id (s s' : Store W) :
  cutting c -> id <> 0 -> cut c id s = (s', Ok tt) ->
  exists e, ubus (sdb s') = ubus (sdb s) ++ [e] /\
    forall m pol r r' x, session_history m r -> handle_event m pol e r = (r', x) ->
    forall ns sid sess, known_ns ns -> has r' ns sid sess -> UserID sess <> id.
Proof.
  intros Hc Hid Hrun. pose proof (cut_announces c id (sdb s) Hc Hid s eq_refl) as H. rewrite Hrun in H.
  destruct (H eq_refl) as (e & He & Hcut). exists e. split; [done|]. intros m pol r r' x Hr Hh.
  apply history_indexed in Hr as [Hf [A Hi]]. by eapply handled.
Qed.

(** The form that edits an account can lock or disable it too, but its event carries no status: no
    subscriber cuts the sessions of the account, and they go on. *)
Theorem disabling_by_edit_cuts_nothing id t req (s s' : Store W) u :
  uu_Status req = Some StatusDisabled -> Update lower scope id t req s = (s', Ok u) ->
  u_Status u = StatusDisabled /\ users (sdb s') !! u_ID u = Some u /\
  exists e, ubus (sdb s') = ubus (sdb s) ++ [e] /\ forall m pol r, handle_event m pol e r = (r, Ok tt).
Proof.
  intros Hst Hrun.
  assert (on_db (fun w : W => ubus w = ubus (sdb s)) (Update lower scope id t req) (fun w r => forall u, r = Ok u -> u_Status u = StatusDisabled
    /\ users w !! u_ID u = Some u /\ exists e, ubus w = ubus (sdb s) ++ [e] /\ cut_by e = None)) as H.
  { unfold Update, Update_with. set (P := fun w : W => ubus w = ubus (sdb s)).
    eapply (on_db_bind _ _ _ (fun w _ => P w)); [apply (keeps_found P), keeps_repo_GetByID| |done]. intros u0.
    eapply (on_db_bind _ _ _ (fun w _ => P w)); [apply (keeps_change_to P); intros v; apply keeps_first_user| |done]. intros email.
    eapply (on_db_bind _ _ _ (fun w _ => P w)); [apply (keeps_change_to P); intros v; apply keeps_first_user| |done]. intros phone.
    eapply (on_db_bind _ _ _ (fun w _ => P w)); [apply (keeps_time_now P)| |done]. intros now.
    set (u1 := set_profile _ _ _ _ _ _ _).
    eapply (on_db_bind _ _ _ (fun w r => match r with Ok _ => P w /\ users w !! u_ID u1 = Some u1 | Err _ => True end)); [| |done].
    { apply on_db_exec_or; [|done..]. intros w w' Hw. unfold put_user. destruct (user_conflict _ _ _); [done|]. intros [= <-].
      split; [done|]. cbn. by rewrite lookup_insert_eq. }
    intros []. eapply (on_db_bind _ _ _ (fun w r => users w !! u_ID u1 = Some u1 /\ exists e, ubus w = ubus (sdb s) ++ [e] /\ cut_by e = None)); [| |done].
    { apply on_db_write. intros w [Hw Hu]. split; [done|]. eexists. split; [cbn; by rewrite Hw | done]. }
    intros []. apply on_db_ret. intros w (Hu & He) u' [= <-]. split_and!; [|done|done]. unfold u1. cbn. by rewrite Hst. }
  specialize (H s eq_refl). rewrite Hrun in H. destruct (H u eq_refl) as (H1 & H2 & e & H3 & H4). split_and!; [done | done |].
  exists e. split; [done|]. intros m pol r. unfold handle_event. by rewrite H4.
Qed.
End Events.
