(* ===== verification/UserHttp.v ===== *)
(** * UserHttp: the console's endpoints for accounts

    src/internal/domain/user/handler.go, the responses of dto.go with the masking of
    src/pkg/mask/mask.go, and the codes of errcodes.go. A request body is None when it does not bind. *)

From stdpp Require Import sorting.
From Stdlib Require Import Ascii.
From S2P Require Import Prelude Statements Text User.
#[global] Open Scope Z_scope.

(** ** src/pkg/mask/mask.go *)

Fixpoint drop_chars (c : ascii) (s : string) : string :=
  match s with EmptyString => EmptyString | String d s' => if decide (c = d) then drop_chars c s' else String d (drop_chars c s') end.
Definition last_chars (n : nat) (s : string) : string := String.substring (String.length s - n) n s.
Definition mask_Phone (s : string) : string :=
  if bool_decide (s = ""%string) then ""%string else
  let '(plus, rest) := match s with String "+" rest => ("+"%string, rest) | _ => (""%string, s) end in
  let rest := drop_chars "-" (drop_chars " " rest) in
  if (String.length rest <? 7)%nat then plus +:+ "***"
  else plus +:+ String.substring 0 3 rest +:+ "****" +:+ last_chars 4 rest.

(** [s[at:]] of the last "@" *)
Definition from_last (c : ascii) (s : string) : string :=
  match before_last c s with Some t => last_chars (String.length s - String.length t) s | None => EmptyString end.
Definition mask_Email (s : string) : string :=
  if bool_decide (s = ""%string) then ""%string else
  match before_last "@" s with
  | None | Some EmptyString => "***"%string
  | Some localpart =>
      let domain := from_last "@" s in
      let rs := runes localpart in
      let first := encode_rune (default 0 (head rs)) in
      if (length rs <=? 2)%nat then first +:+ "*" +:+ domain
      else first +:+ repeat_char "*" (length rs - 2) +:+ encode_rune (default 0 (last rs)) +:+ domain
  end.
Definition maskIP (s : string) : string :=
  match before_last ":" s with
  | Some t => t +:+ ":*"
  | None => match before_last "." s with Some t => t +:+ ".*" | None => s end
  end.

(** ** Responses of dto.go; avatars and times of creation are left out *)

Record UserResponse : Type := mkUserResponse {
  ur_ID : Z; ur_TenantID : Z; ur_Username : string; ur_Email : option string; ur_Phone : option string; ur_DisplayName : option string;
  ur_Status : Z; ur_MFAEnabled : bool; ur_LastLoginAt : option Z; ur_LastLoginIP : option string; ur_MustChangePwd : bool;
  ur_HasPassword : bool; ur_Detail : option UserDetail; ur_DeletedAt : option Z
}.
Definition ToResponse (u : User) (detail : option UserDetail) : UserResponse :=
  mkUserResponse (u_ID u) (u_TenantID u) (u_Username u) (u_Email u) (u_Phone u) (u_DisplayName u) (u_Status u) false (u_LastLoginAt u)
    (u_LastLoginIP u) (u_MustChangePwd u) (HasUsablePassword (u_PasswordHash u)) detail (u_DeletedAt u).
Definition ToResponseMasked (u : User) : UserResponse :=
  let r := ToResponse u None in
  mkUserResponse (ur_ID r) (ur_TenantID r) (ur_Username r) (mask_Email <$> ur_Email r) (mask_Phone <$> ur_Phone r) (ur_DisplayName r) (ur_Status r)
    (ur_MFAEnabled r) (ur_LastLoginAt r) (maskIP <$> ur_LastLoginIP r) (ur_MustChangePwd r) (ur_HasPassword r) (ur_Detail r) (ur_DeletedAt r).
Definition with_mfa (b : bool) (r : UserResponse) : UserResponse :=
  mkUserResponse (ur_ID r) (ur_TenantID r) (ur_Username r) (ur_Email r) (ur_Phone r) (ur_DisplayName r) (ur_Status r) b (ur_LastLoginAt r)
    (ur_LastLoginIP r) (ur_MustChangePwd r) (ur_HasPassword r) (ur_Detail r) (ur_DeletedAt r).

(** ** errcodes.go *)

Definition code_of (e : UErr) : Z * Z :=
  match e with
  | ErrUserNotFound | ErrDetailNotFound | ErrIdentityNotFound => (404, 40401)
  | ErrInvalidPassword => (400, 40002)
  | ErrPasswordReused => (400, 40005)
  | ErrPasswordTooShort _ => (400, 40025)
  | ErrPasswordNeedUpper => (400, 40026)
  | ErrPasswordNeedLower => (400, 40027)
  | ErrPasswordNeedDigit => (400, 40028)
  | ErrPasswordNeedSpecial => (400, 40029)
  | ErrLicenseQuotaExceeded => (402, 40201)
  | ErrUsernameExists => (409, 40901)
  | ErrEmailExists => (409, 40902)
  | ErrPhoneExists => (409, 40903)
  | ErrLastSuperAdmin => (409, 40904)
  | ErrPasswordAlreadySet => (409, 40905)
  | ErrExternalIDTaken => (409, 40907)
  | ErrIdentityAlreadyBound => (409, 40908)
  | ErrExternalUserDeleted => (403, 40909)
  | ErrIdentityOwnerDeleted => (409, 40910)
  | _ => (500, 50001)
  end.
Definition NumBadRequest : Z := 40001.
Definition NumInvalidInput : Z := 40002.
Definition NumForbidden : Z := 40300.
Definition CodeStepUpRequired : Z := 40330.

Inductive Resp (A : Type) : Type := Reply (http : Z) (body : A) | Fail (http num : Z).
Arguments Reply {A}. Arguments Fail {A}.

Section Handlers.
Context {G : Type} `{!IdGen G} (lower : string -> string) (same_char : ascii -> ascii -> bool) (scope : option Z).
Context (pwdPolicy : option (Z -> PasswordPolicy)) (config : PasswordPolicy) (userCap : option Z).
Context (HashPassword : string -> string -> option string) (CheckPassword : string -> string -> bool).
Abbreviation Op := (M (Store (UserWorld G)) UErr).

(** Of the request's context: [user_id] and [tenant_id], None when not set; the authorization service, nil before it is
    installed; the check for a recent step-up, nil before it is wired; who of a page has a verified factor, unless that fails. *)
Context (user_id tenant_id : option Z).
Context (svc : option (Z -> Z -> string -> Op bool)) (stepUpFresh : option (Z -> bool)).
Context (MFAEnabledByUserIDs : list Z -> Op (gset Z)).

Definition FromContext (fallback : Z) : Z := match tenant_id with Some t => if 0 <? t then t else fallback | None => fallback end.
Definition getTenantID : Z := FromContext 1.
Definition actorIDFromCtx : Z := default 0 user_id.

Definition MapError {A} (e : UErr) : Resp A := Fail (code_of e).1 (code_of e).2.
Definition respond {A B} (http : Z) (m : Op A) (f : A -> B) : Op (Resp B) :=
  attempt m (fun r => ret match r with Ok a => Reply http (f a) | Err e => MapError e end).
(** ginutil.ParseInt64Param, and the same with the code of an invalid value *)
Definition with_id {A} (num : Z) (param : string) (k : Z -> Op (Resp A)) : Op (Resp A) :=
  let '(id, ok) := ParseInt param in if ok then k id else ret (Fail 400 num).
Definition with_body {A B} (body : option B) (k : B -> Op (Resp A)) : Op (Resp A) :=
  match body with Some req => k req | None => ret (Fail 400 NumBadRequest) end.
Definition detail_of (id : Z) (k : option UserDetail -> Op (Resp UserResponse)) : Op (Resp UserResponse) :=
  attempt (GetDetail scope id) (fun r => k match r with Ok d => Some d | Err _ => None end).

Definition ListLoginHistory_handler (id : string) (page pageSize : Z) : Op (Resp (list LoginRecord * Z)) :=
  with_id NumBadRequest id (fun id => respond 200 (ListLoginRecords scope id page pageSize) (fun x => x)).
Definition Create_handler (salt : string) (body : option CreateUserRequest) : Op (Resp UserResponse) :=
  with_body body (fun req =>
    attempt (Create lower scope pwdPolicy config userCap HashPassword getTenantID salt req) (fun r => match r with
      | Err e => ret (MapError e)
      | Ok user => detail_of (u_ID user) (fun d => ret (Reply 201 (ToResponse user d)))
      end)).
Definition Get_handler (id : string) : Op (Resp UserResponse) :=
  with_id NumBadRequest id (fun id =>
    attempt (GetByID scope id) (fun r => match r with
      | Err e => ret (MapError e)
      | Ok user => detail_of (u_ID user) (fun d =>
          do! match user_id with
              | Some actorID => if actorID =? id then ret tt else RecordPIIView actorID getTenantID id ["phone"; "email"; "detail"]%string
              | None => ret tt
              end in
          ret (Reply 200 (ToResponse user d)))
      end)).
Definition Update_handler (id : string) (body : option UpdateUserRequest) : Op (Resp UserResponse) :=
  with_id NumBadRequest id (fun id => with_body body (fun req =>
    attempt (Update lower scope id getTenantID req) (fun r => match r with
      | Err e => ret (MapError e)
      | Ok user => detail_of (u_ID user) (fun d => ret (Reply 200 (ToResponse user d)))
      end))).
Definition Delete_handler (id : string) : Op (Resp unit) := with_id NumBadRequest id (fun id => respond 200 (Delete scope id) (fun x => x)).
Definition RestoreUser_handler (id : string) : Op (Resp unit) :=
  with_id NumBadRequest id (fun id => respond 200 (RestoreUser lower scope id) (fun x => x)).
Definition List_handler (p : option ListParams) : Op (Resp (list UserResponse * Z)) :=
  with_body p (fun p =>
    attempt (repo_List same_char scope getTenantID p) (fun r => match r with
      | Err e => ret (MapError e)
      | Ok (us, total) =>
          let items := ToResponseMasked <$> us in
          attempt (MFAEnabledByUserIDs (u_ID <$> us)) (fun mfa => ret (Reply 200 (match mfa with
            | Ok on => (fun it => with_mfa (bool_decide (ur_ID it ∈ on)) it) <$> items
            | Err _ => items
            end, total)))
      end)).
Definition UpdateStatus_handler (id : string) (body : option Z) : Op (Resp unit) :=
  with_id NumBadRequest id (fun id => with_body body (fun st => respond 200 (UpdateStatus scope id st) (fun x => x))).
Definition ResetPassword_handler (id : string) (salt : string) (body : option (string * option bool)) : Op (Resp unit) :=
  with_id NumBadRequest id (fun id => with_body body (fun req =>
    respond 200 (ResetPassword scope pwdPolicy config HashPassword CheckPassword id req.1 req.2 salt) (fun x => x))).

Definition callerMay (perm : string) : Op bool :=
  match svc with
  | None => ret false
  | Some Check =>
      let uid := actorIDFromCtx in
      if uid =? 0 then ret false else
      attempt (Check (FromContext 0) uid perm) (fun r => ret match r with Ok ok => ok | Err _ => false end)
  end.
(** idstr.ParseList *)
Fixpoint ParseList (l : list string) : option (list Z) :=
  match l with
  | [] => Some []
  | s :: rest => let '(v, ok) := ParseInt s in if ok then v' ← ParseList rest; Some (v :: v') else None
  end.
Definition is_delete (a : BatchActionKind) : bool := match a with BatchActionDelete => true | _ => false end.
Definition BatchAction_handler (body : option (list string * BatchActionKind)) : Op (Resp (Z * list (Z * UErr))) :=
  with_body body (fun '(ids, action) =>
    match ParseList ids with
    | None => ret (Fail 400 NumBadRequest)
    | Some ids =>
        let run := attempt (BatchAction scope ids action actorIDFromCtx) (fun r => ret match r with Ok res => Reply 200 res | Err _ => Fail 400 NumInvalidInput end) in
        if negb (is_delete action) then run else
        let! may := callerMay "user.delete" in
        if negb may then ret (Fail 403 NumForbidden) else
        if match stepUpFresh with Some fresh => fresh (FromContext 0) | None => false end then run else ret (Fail 403 CodeStepUpRequired)
    end).
Definition LockUser_handler (id : string) (body : option string) : Op (Resp unit) :=
  with_id NumBadRequest id (fun id => with_body body (fun reason => respond 200 (LockUser scope id reason actorIDFromCtx) (fun x => x))).
Definition UnlockUser_handler (id : string) : Op (Resp unit) :=
  with_id NumBadRequest id (fun id => respond 200 (UnlockUser scope id actorIDFromCtx) (fun x => x)).
Definition ListIdentities_handler (id : string) : Op (Resp (list UserIdentity)) :=
  with_id NumBadRequest id (fun id => respond 200 (repo_ListIdentities scope id) (fun x => x)).
Definition UnbindIdentity_handler (id iid : string) : Op (Resp unit) :=
  with_id NumBadRequest id (fun id => with_id NumInvalidInput iid (fun iid => respond 200 (UnbindIdentity scope id iid) (fun x => x))).
Definition ListDeletedIdentities_handler (id : string) : Op (Resp (list UserIdentity)) :=
  with_id NumBadRequest id (fun id => respond 200 (repo_ListDeletedIdentities scope id) (fun x => x)).
Definition RestoreIdentity_handler (id iid : string) : Op (Resp unit) :=
  with_id NumBadRequest id (fun id => with_id NumInvalidInput iid (fun iid => respond 200 (RestoreIdentity scope id iid) (fun x => x))).
Definition GetDetail_handler (id : string) : Op (Resp (option UserDetail)) :=
  with_id NumBadRequest id (fun id => attempt (GetDetail scope id) (fun r => ret match r with
    | Ok d => Reply 200 (Some d)
    | Err ErrDetailNotFound => Reply 200 None
    | Err e => MapError e
    end)).
Definition UpdateDetail_handler (id : string) (body : option UpdateDetailRequest) : Op (Resp UserDetail) :=
  with_id NumBadRequest id (fun id => with_body body (fun req => respond 200 (UpsertDetail scope id req) (fun x => x))).

(** ** What the batch needs *)

(** The two checks of DELETE /users/:id. *)
Definition delete_allowed (s s' : Store (UserWorld G)) : Prop :=
  (exists Check uid, svc = Some Check /\ user_id = Some uid /\ uid <> 0 /\ Check (FromContext 0) uid "user.delete"%string s = (s', Ok true))
  /\ exists fresh, stepUpFresh = Some fresh /\ fresh (FromContext 0) = true.

Lemma callerMay_true perm s s' :
  callerMay perm s = (s', Ok true) -> exists Check uid, svc = Some Check /\ user_id = Some uid /\ uid <> 0 /\ Check (FromContext 0) uid perm s = (s', Ok true).
Proof.
  unfold callerMay, actorIDFromCtx. destruct svc as [Check|]; [|done]. destruct user_id as [uid|]; cbn [default from_option id]; [|by intros [=]].
  destruct (Z.eqb_spec uid 0); [by intros [=]|]. unfold attempt. destruct (Check _ _ _ s) as [s1 [b|e]] eqn:Hc; unfold ret; intros [=]; subst. eauto 10.
Qed.

(** A bulk delete went through both checks of the single delete, the engine granting
    user.delete to the caller and the step-up being fresh, or it is refused and nothing was run but the
    engine's check. *)
Theorem bulk_delete_needs_both_checks ids s s' r :
  BatchAction_handler (Some (ids, BatchActionDelete)) s = (s', Ok r) ->
  (exists s1, delete_allowed s s1)
  \/ (s' = s \/ exists x, callerMay "user.delete" s = (s', x)) /\ exists http num, r = Fail http num.
Proof.
  unfold BatchAction_handler. cbn [with_body is_delete negb]. destruct (ParseList ids) as [l|]; [|unfold ret; intros [= <- <-]; right; eauto].
  intros Hrun. apply bind_ok in Hrun as (may & s1 & Hmay & Hrun). destruct may; cbn [negb] in Hrun.
  - destruct stepUpFresh as [fresh|] eqn:Hs; [destruct (fresh (FromContext 0)) eqn:Hf|].
    + left. exists s1. split; [by apply callerMay_true|]. rewrite Hs. eauto.
    + unfold ret in Hrun. injection Hrun as <- <-. right. split; eauto.
    + unfold ret in Hrun. injection Hrun as <- <-. right. split; eauto.
  - unfold ret in Hrun. injection Hrun as <- <-. right. split; eauto.
Qed.
End Handlers.

(** ** Masks *)

(** An address of one letter keeps it, and a number of seven digits keeps them all. *)
Theorem short_values_are_not_masked :
  mask_Email "k@gmail.com" = "k*@gmail.com"%string /\ mask_Phone "5551234" = "555****1234"%string.
Proof. vm_compute. done. Qed.
