(* ===== verification/UserRuns.v ===== *)
(** * UserRuns: accounts in use

    A small directory: runs of the operations on it, the interleavings the code leaves open, and the
    instances of the theorems about accounts. *)

From stdpp Require Import sorting.
From Stdlib Require Import Ascii.
From S2P Require Import Redis Session SessionProps Prelude Statements Text User UserExternal UserProps UserLinks UserLogin UserAccounts UserRevocation UserHttp.
#[global] Open Scope Z_scope.

Module UserDemo.
(** Lower case of the ASCII letters; a hash that shows the password. *)
Definition lower_char (c : ascii) : ascii := if is_upper (byte_of c) then ascii_of_N (N_of_ascii c + 32) else c.
Definition lower (s : string) : string := String.string_of_list_ascii (lower_char <$> String.list_ascii_of_string s).
Definition hash (p salt : string) : option string := Some ("h:" +:+ p).
Definition check (p h : string) : bool := bool_decide (h = "h:" +:+ p).
Definition policy : PasswordPolicy := mkPasswordPolicy 6 true true true false 3.

Definition account (id : Z) (name : string) (super : bool) (phone : option string) (deleted : option Z) : User :=
  mkUser id 1 name None false None phone None None "h:old" StatusActive None None None false super false 0 0 None None deleted.
Definition binding (id owner : Z) (provider ext : string) (deleted : option Z) : UserIdentity :=
  mkUserIdentity id owner 1 "lark" provider ext None None 0 0 deleted.
(** Alice and Bob administer the tenant; Bob signs in with Lark, and was unbound from a second account there. *)
Definition directory : UserWorld Z :=
  mkUserWorld {[ 1 := account 1 "alice" true None None; 2 := account 2 "bob" true (Some ""%string) None; 3 := account 3 "carol" false None (Some 5) ]}
    ∅ ∅ {[ 10 := binding 10 2 "p1" "x1" None; 11 := binding 11 2 "p1" "x2" (Some 7) ]} ∅ ∅ 100 50 [].
Definition up (w : UserWorld Z) : Store (UserWorld Z) := mkStore w (fun _ => false) 0.
Definition rename : UpdateUserRequest := mkUpdateUser None None (Some "Alice"%string) None None.

Abbreviation SetSuperAdmin' := (SetSuperAdmin (G:=Z) (Some 1)).
Abbreviation Change := (ChangePassword (G:=Z) (Some 1) None policy hash check).
Abbreviation Login := (ResolveExternalLogin (G:=Z) lower (Some 1)).
Abbreviation Bind := (BindExternalIdentity (G:=Z) (Some 1)).

(** The state an edit of Alice's name leaves when [op] runs between its read and its write. *)
Definition edit_across {A} (op : M (Store (UserWorld Z)) UErr A) : option User :=
  match repo_GetByID (Some 1) 1 (up directory) with
  | (s1, Ok alice) => users (sdb (Update_with lower (Some 1) alice 1 rename (op s1).1).1) !! 1
  | _ => None
  end.
Definition shown (o : option User) : option (string * bool * option Z) :=
  u ← o; Some (u_PasswordHash u, u_IsSuperAdmin u, u_DeletedAt u).

(** An edit of a profile writes back every column it read. When Bob takes the administrator's flag from Alice,
    when she changes her password, or when her account is deleted, each of which succeeds, and an edit of her name that
    began before is written after it, she has the flag, the old password, the account again. *)
Theorem late_edit_undoes :
  (SetSuperAdmin' 2 1 1 false (up directory)).2 = Ok tt /\ shown (edit_across (SetSuperAdmin' 2 1 1 false)) = Some ("h:old"%string, true, None)
  /\ (Change 1 "old" "Secret1" "salt" (up directory)).2 = Ok tt /\ shown (edit_across (Change 1 "old" "Secret1" "salt")) = Some ("h:old"%string, true, None)
  /\ (Delete (G:=Z) (Some 1) 1 (up directory)).2 = Ok tt /\ shown (edit_across (Delete (Some 1) 1)) = Some ("h:old"%string, true, None).
Proof. vm_compute. done. Qed.

(** A bind that has found its caller alive, and then writes the binding of an account deleted meanwhile. *)
Theorem bind_races_delete :
  let i := mkBindIdentity 1 1 "lark" "p1" "x9" "" None false in
  let s := (Delete (G:=Z) (Some 1) 1 (up directory)).1 in
  (bind_new (Some 1) i s).2 = Ok tt /\ ~ user_inv lower (sdb (bind_new (Some 1) i s).1).
Proof.
  split; [by vm_compute|]. intros Hinv.
  pose proof (owners _ _ Hinv 101 (mkUserIdentity 101 1 1 "lark" "p1" "x9" None (Some "{}"%string) 50 50 None)) as (u & Hu & _ & Hd); [by vm_compute|].
  vm_compute in Hu. injection Hu as <-. by specialize (Hd eq_refl).
Qed.

(** The last administrator of a tenant cannot lose the flag, but the account can be deleted. *)
Theorem last_super_admin_can_be_deleted :
  let s := (SetSuperAdmin' 2 1 1 false (up directory)).1 in
  (SetSuperAdmin' 1 1 2 false s).2 = Err ErrLastSuperAdmin
  /\ (Delete (G:=Z) (Some 1) 2 s).2 = Ok tt
  /\ (CountSuperAdmins (Some 1) 1 (Delete (G:=Z) (Some 1) 2 s).1).2 = Ok 0.
Proof. vm_compute. done. Qed.

(** An empty phone number is not looked up but is stored: the second account with one is refused by the index. *)
Theorem empty_phone_collides :
  (Create (G:=Z) lower (Some 1) None policy None hash 1 "salt" (mkCreateUser "dave" None (Some ""%string) None "Secret1" None) (up directory)).2
  = Err (ErrUnique "idx_user_tenant_phone").
Proof. vm_compute. done. Qed.

(** The lookup of a binding takes the provider into account, the index does not: the account x1 of a second
    provider of the same kind is another person, who can never be let in. *)
Theorem second_provider_is_shut_out :
  (Login (mkExternalLogin 1 "lark" "p2" "x1" "dave" "" "" "" "" None true) (Some "00"%string) (up directory)).2
  = Err (ErrUnique uniqueExternalIDConstraint).
Proof. vm_compute. done. Qed.

(** The password is changed and the request fails: its record is not written. *)
Theorem unrecorded_password :
  let r := Change 1 "old" "Secret1" "salt" (mkStore directory (fun n => bool_decide (n = 4%nat)) 0) in
  r.2 = Err ErrDB /\ shown (users (sdb r.1) !! 1) = Some ("h:Secret1"%string, true, None) /\ histories (sdb r.1) = ∅
  /\ (Change 1 "Secret1" "Secret1" "salt" (up (sdb r.1))).2 = Ok tt.
Proof. vm_compute. done. Qed.

(** ** Instances *)

Lemma directory_inv : user_inv lower directory.
Proof.
  split.
  - intros id u Hu. unfold directory in Hu. cbn [users] in Hu. repeat (apply lookup_insert_Some in Hu as [[<- <-]|[_ Hu]]; [done|]). by apply lookup_singleton_Some in Hu as [<- <-].
  - intros id i Hi. unfold directory in Hi. cbn [identities] in Hi. apply lookup_insert_Some in Hi as [[<- <-]|[_ Hi]]; [done|]. by apply lookup_singleton_Some in Hi as [<- <-].
  - assert (map_Forall (fun id u => u_DeletedAt u = None -> map_Forall (fun id' u' => u_DeletedAt u' = None -> same_account lower u u' -> id' = id) (users directory)) (users directory)) as H.
    { apply (bool_decide_eq_true_1 _). vm_compute. reflexivity. }
    intros id u id' u' Hu Hu' Hd Hd'. exact (H id u Hu Hd id' u' Hu' Hd').
  - assert (map_Forall (fun id i => ui_DeletedAt i = None -> map_Forall (fun id' i' => ui_DeletedAt i' = None -> same_external i i' -> id' = id) (identities directory)) (identities directory)) as H.
    { apply (bool_decide_eq_true_1 _). vm_compute. reflexivity. }
    intros id u id' u' Hu Hu' Hd Hd'. exact (H id u Hu Hd id' u' Hu' Hd').
  - intros id i Hi. unfold directory in Hi. cbn [identities] in Hi.
    apply lookup_insert_Some in Hi as [[<- <-]|[_ Hi]]; [|apply lookup_singleton_Some in Hi as [<- <-]]; exists (account 2 "bob" true (Some ""%string) None); done.
Qed.

Definition bob_logs_in : ExternalLoginInput := mkExternalLogin 1 "lark" "p1" "x1" "bob" "Bob" "" "" "" None false.
Definition dave_logs_in : ExternalLoginInput := mkExternalLogin 1 "lark" "p1" "x7" "dave@corp.example" "Dave" "d@corp.example" "" "" None true.
Definition alice_binds : BindIdentityInput := mkBindIdentity 1 1 "lark" "p1" "x2" "Alice" None false.
Definition disable : UpdateUserRequest := mkUpdateUser None None None None (Some StatusDisabled).

Lemma external_login_decides_witness :
  login_outcome lower (Some 1) dave_logs_in directory (sdb (Login dave_logs_in (Some "00"%string) (up directory)).1)
    (Login dave_logs_in (Some "00"%string) (up directory)).2.
Proof.
  apply (external_login_decides lower (Some 1) dave_logs_in (Some "00"%string) (up directory)); [exact directory_inv | apply surjective_pairing].
Defined.

Lemma external_login_repeats_witness :
  exists s'' u, Login bob_logs_in None (Login dave_logs_in (Some "00"%string) (up directory)).1 = (s'', Ok u) /\ u_ID u = 2
    /\ exists s3 v, Login dave_logs_in None (Login dave_logs_in (Some "00"%string) (up directory)).1 = (s3, Ok v) /\ u_Username v = "dave"%string.
Proof.
  eexists _, _. split; [vm_compute; reflexivity|]. split; [reflexivity|].
  destruct (external_login_repeats lower (Some 1) dave_logs_in dave_logs_in (Some "00"%string) None (up directory)
              (Login dave_logs_in (Some "00"%string) (up directory)).1
              (mkUser 101 1 "dave" (Some "d@corp.example"%string) false None None (Some "Dave"%string) None
                 (NoLocalPasswordPrefix +:+ "00") StatusActive None None None false false false 50 50 None None None)) as (s3 & H3 & _);
    [exact directory_inv | reflexivity | vm_compute; reflexivity | intros n _; reflexivity | reflexivity..|].
  eexists _, _. split; [exact H3 | reflexivity].
Defined.

Lemma bind_takes_no_live_login_witness :
  bind_outcome alice_binds directory (sdb (Bind alice_binds (up directory)).1) (Bind alice_binds (up directory)).2
  /\ (Bind alice_binds (up directory)).2 = Ok tt
  /\ identities (sdb (Bind alice_binds (up directory)).1) !! 10 = Some (binding 10 2 "p1" "x1" None).
Proof.
  destruct (bind_takes_no_live_login lower (Some 1) alice_binds (up directory) (Bind alice_binds (up directory)).1 (Bind alice_binds (up directory)).2)
    as [H1 H2]; [exact directory_inv | apply surjective_pairing |].
  split; [exact H1|]. split; [vm_compute; reflexivity|]. apply (H2 10); reflexivity.
Defined.

Lemma passwords_are_set_with_leave_witness :
  written (Some 1) None policy hash check (OldPassword "old") 1 "Secret1" "salt" directory
    (sdb (change (G:=Z) (Some 1) None policy hash check (OldPassword "old") 1 "Secret1" "salt" (up directory)).1).
Proof.
  apply (passwords_are_set_with_leave (G:=Z) (Some 1) None policy hash check (OldPassword "old") 1 "Secret1" "salt" (up directory)
    (change (G:=Z) (Some 1) None policy hash check (OldPassword "old") 1 "Secret1" "salt" (up directory)).1 (Ok tt)).
  vm_compute. reflexivity.
Defined.

(** Bob is deleted, and somebody else signs in with his Lark account. *)
Lemma bindings_have_live_owners_witness :
  user_inv lower (sdb (run_cmds (G:=Z) lower None policy None hash check [(Some 1, 5, CDelete 2); (Some 1, 5, CLogin dave_logs_in (Some "00"%string))] (up directory)).1).
Proof. exact (bindings_have_live_owners (G:=Z) lower None policy None hash check _ (up directory) directory_inv). Defined.

Lemma account_is_cut_off_witness :
  exists e, ubus (sdb (LockUser (G:=Z) (Some 1) 2 "left" 1 (up directory)).1) = [e] /\ cut_by e = Some 2.
Proof.
  destruct (account_is_cut_off (G:=Z) (Some 1) None policy hash check (CutLock "left" 1) 2 (up directory)
    (LockUser (G:=Z) (Some 1) 2 "left" 1 (up directory)).1) as (e & He & _); [exact I | discriminate | vm_compute; reflexivity |].
  exists e. split; [exact He|]. vm_compute in He. injection He as <-. vm_compute. reflexivity.
Defined.

Lemma disabling_by_edit_witness :
  exists e, ubus (sdb (Update (G:=Z) lower (Some 1) 2 1 disable (up directory)).1) = [e] /\ forall m pol r, handle_event m pol e r = (r, Ok tt).
Proof.
  destruct (disabling_by_edit_cuts_nothing (G:=Z) lower (Some 1) 2 1 disable (up directory) (Update (G:=Z) lower (Some 1) 2 1 disable (up directory)).1
    (set_status StatusDisabled 50 (account 2 "bob" true (Some ""%string) None))) as (_ & _ & e & He & Hh); [reflexivity | vm_compute; reflexivity |].
  exists e. split; [exact He | exact Hh].
Defined.

(** Alice, with a fresh step-up and the permission, deletes Bob in bulk. *)
Definition bulk (s : Store (UserWorld Z)) : Store (UserWorld Z) * res UErr (Resp (Z * list (Z * UErr))) :=
  BatchAction_handler (Some 1) (Some 1) (Some 1) (Some (fun _ _ perm => ret (bool_decide (perm = "user.delete"%string)))) (Some (fun _ => true))
    (Some (["2"%string], BatchActionDelete)) s.
Lemma bulk_delete_witness : (bulk (up directory)).2 = Ok (Reply 200 (1, [])) /\
  ((exists s1, delete_allowed (Some 1) (Some 1) (Some (fun _ _ perm => ret (bool_decide (perm = "user.delete"%string)))) (Some (fun _ => true)) (up directory) s1)
   \/ ((bulk (up directory)).1 = up directory
       \/ exists x, callerMay (Some 1) (Some 1) (Some (fun _ _ perm => ret (bool_decide (perm = "user.delete"%string)))) "user.delete" (up directory) = ((bulk (up directory)).1, x))
      /\ exists http num, Reply 200 (1, @nil (Z * UErr)) = Fail http num).
Proof.
  split; [vm_compute; reflexivity|].
  apply (bulk_delete_needs_both_checks (G:=Z) (Some 1) (Some 1) (Some 1) (Some (fun _ _ perm => ret (bool_decide (perm = "user.delete"%string)))) (Some (fun _ => true))
    ["2"%string] (up directory) (bulk (up directory)).1 (Reply 200 (1, []))).
  vm_compute. reflexivity.
Defined.
End UserDemo.
