(* ===== verification/Portal.v ===== *)
(** * Portal: links and codes sent out of band (src/internal/gateway/portal: password_reset.go, magic_link.go, sms_otp.go, email_verify.go, profile_handler.go)

    Resetting a forgotten password, signing in by a mailed link or a texted code, verifying
    an address, and the profile these depend on, over the accounts of User.v (through the
    adapter of src/app/adapters_portal.go), the limiter of RateLimit.v and the sessions of
    Session.v. *)

From Stdlib Require Import Ascii.
From S2P Require Import Redis Session SessionProps RateLimit.
From S2P Require Import Prelude Statements Text User.

#[global] Open Scope Z_scope.

(** ** Texts *)

(** [strings.Cut(s, c)]: what is before the first [c] and what is after it. *)
Fixpoint Cut (c : ascii) (s : string) : option (string * string) :=
  match s with
  | EmptyString => None
  | String d s' =>
      if Ascii.eqb d c then Some (EmptyString, s')
      else match Cut c s' with Some (a, b) => Some (String d a, b) | None => None end
  end.

Definition is_digit_char (c : ascii) : bool := is_digit (byte_of c).
(** The digits a string starts with, and the rest. *)
Fixpoint span_digits (s : string) : string * string :=
  match s with
  | String c s' => if is_digit_char c then let '(a, b) := span_digits s' in (String c a, b) else (EmptyString, s)
  | EmptyString => (EmptyString, EmptyString)
  end.
(** [%d] of fmt.Sscanf at the start of a string that has no blanks: a sign, digits, and the
    input that is left. *)
Definition scan_d (s : string) : option (Z * string) :=
  let '(sign, s') := match s with
                     | String "-" t => ("-"%string, t)
                     | String "+" t => ("+"%string, t)
                     | _ => (""%string, s)
                     end in
  let '(ds, rest) := span_digits s' in
  let '(n, ok) := ParseInt (sign +:+ ds) in
  if ok then Some (n, rest) else None.
(** fmt.Sscanf(s, "%d:%d") *)
Definition scan_pair (s : string) : option (Z * Z) :=
  match scan_d s with
  | Some (a, String ":" s') => match scan_d s' with Some (b, _) => Some (a, b) | None => None end
  | _ => None
  end.

(** ** Data *)

Definition pwdResetTTL : Z := 1800.
Definition pwdResetKeyPrefix : string := "pwd_reset:".
Definition magicLinkTTL : Z := 300.
Definition magicLinkKeyPrefix : string := "magic_link:".
Definition smsOTPTTL : Z := 300.
Definition smsOTPKeyPrefix : string := "sms_otp:".
Definition smsOTPCooldown : Z := 60.
Definition smsOTPCooldownPrefix : string := "sms_otp_cooldown:".
Definition emailVerifyTTL : Z := 1800.
Definition verifyKeyPrefix : string := "email_verify:".

(** pkg/errcode/catalog.go *)
Definition NumBadRequest : Z := 40001.
Definition NumInvalidInput : Z := 40002.
Definition NumInputRejected : Z := 40004.
Definition NumPasswordReused : Z := 40005.
Definition NumUnauthenticated : Z := 40101.
Definition NumForbiddenScope : Z := 40301.
Definition NumTooManyAttempts : Z := 42901.
Definition NumInternalError : Z := 50001.

(** What is handed to the mail and SMS services. *)
Inductive Message : Type :=
| ResetMail (tenantID : Z) (to displayName username link code : string)
| MagicMail (tenantID : Z) (to displayName username link : string)
| VerifyMail (tenantID : Z) (to displayName username link : string)
| OTP (tenantID : Z) (phone code : string).

(** What the endpoints answer. [retry] is the Retry-After header in seconds;
    [cookie] the id of the portal session a cookie is set for. *)
Inductive Answer : Type :=
| Error (http num : Z) (retry : option Z)
| Sent (ttl : Z) (dev : string)
| SentVerification (smtp : bool) (email : string) (ttl : Z) (dev : string)
| Done
| Redirect (location : string) (cookie : option string)
| SignedIn (userID : Z) (username displayName cookie : string)
| Profile (user : User) (detail : option UserDetail).

Definition InternalError : Answer := Error 500 NumInternalError None.
Definition BadRequest (num : Z) : Answer := Error 400 num None.

(** One request's share of what the model does not decide: random draws (None when the
    source fails), the answers of the settings and of the mail or SMS service, the new
    session's id, the client, and bcrypt's salt. *)
Record ReqEnv : Type := mkReqEnv {
  drawn : option string;
  enabled : bool;
  delivered : bool;
  newID : string;
  clientIP : string;
  userAgent : string;
  salt : string
}.

Record Handlers : Type := mkHandlers {
  publicURL : string;
  has_mailer : bool;
  has_sms : bool;
  defaultTID : Z;
  tenantByCd : option (string -> Z);
  devFallback : bool;
  resetLimiter : option Config;
  magicLimiter : option Config;
  smsLimiter : option Config;
  pSessionMgr : Manager;
  pSessionPolicy : Policy
}.

(** The tenant of a request's context: none was stamped, or [t]. *)
Definition Ctx : Type := option Z.

Section Portal.
Context {G : Type} `{!IdGen G}.
Context (lower : string -> string) (same_char : ascii -> ascii -> bool).
Context (pwdPolicy : option (Z -> PasswordPolicy)) (config : PasswordPolicy).
(** bcrypt; strings.ToLower and EqualFold; hex(sha256); what PTTL and TTL answer. *)
Context (HashPassword : string -> string -> option string) (CheckPassword : string -> string -> bool).
Context (ToLower : string -> string) (EqualFold : string -> string -> bool).
Context (sha256_hex : string -> string) (pttl_ms ttl_s : Z -> Z).
Context (h : Handlers).

Abbreviation Dom := (Store (@UserWorld G)).

(** The accounts, Redis by what its keys hold (counters and locks, links and codes,
    sessions), what was handed to the mail and SMS services, and the profile events. *)
Record PState : Type := mkPState {
  pdom : Dom;
  plimits : Redis string;
  ptokens : Redis string;
  psessions : SRedis;
  outbox : list Message;
  profile_events : list (Z * list string)
}.

(** A handler always answers. *)
Inductive NoError : Type := .
Abbreviation Op := (M PState NoError).

Definition on_dom {A B} (m : M Dom UErr A) (k : res UErr A -> Op B) : Op B := fun s =>
  let '(w, r) := m (pdom s) in k r (mkPState w (plimits s) (ptokens s) (psessions s) (outbox s) (profile_events s)).
Definition on_limits {A B} (m : M (Redis string) RErr A) (k : res RErr A -> Op B) : Op B := fun s =>
  let '(r, x) := m (plimits s) in k x (mkPState (pdom s) r (ptokens s) (psessions s) (outbox s) (profile_events s)).
Definition on_tokens {A B} (m : M (Redis string) RErr A) (k : res RErr A -> Op B) : Op B := fun s =>
  let '(r, x) := m (ptokens s) in k x (mkPState (pdom s) (plimits s) r (psessions s) (outbox s) (profile_events s)).
Definition on_sessions {A B} (m : M SRedis RErr A) (k : res RErr A -> Op B) : Op B := fun s =>
  let '(r, x) := m (psessions s) in k x (mkPState (pdom s) (plimits s) (ptokens s) r (outbox s) (profile_events s)).
(** The message is handed over; [delivered] says whether the service took it. *)
Definition deliver (e : ReqEnv) (msg : Message) : Op bool := fun s =>
  (mkPState (pdom s) (plimits s) (ptokens s) (psessions s) (outbox s ++ [msg]) (profile_events s), Ok (delivered e)).
Definition publish_profile (userID : Z) (fields : list string) : Op unit :=
  modify (fun s => mkPState (pdom s) (plimits s) (ptokens s) (psessions s) (outbox s) (profile_events s ++ [(userID, fields)])).

(** ** pkg/tenantscope: a statement on a tenant's table without a tenant in its context is
    an error, here [ErrDB] as any statement that fails. *)
Definition scoped {A} (ctx : Ctx) (m : option Z -> M Dom UErr A) : M Dom UErr A :=
  match ctx with
  | Some t => if 0 <? t then m (Some t) else throw ErrDB
  | None => throw ErrDB
  end.

(** ** The adapter of src/app/adapters_portal.go *)

Definition found_or_zero (m : M Dom UErr User) : M Dom UErr Z :=
  attempt m (fun r => match r with
    | Ok u => ret (u_ID u)
    | Err ErrRecordNotFound => ret 0
    | Err e => throw e
    end).
Definition LookupByEmail (ctx : Ctx) (tenantID : Z) (email : string) : M Dom UErr Z :=
  found_or_zero (scoped ctx (fun scope => GetByEmail scope tenantID email)).
Definition LookupByPhone (ctx : Ctx) (tenantID : Z) (phone : string) : M Dom UErr Z :=
  found_or_zero (scoped ctx (fun scope => GetByPhone scope tenantID phone)).
(** The names of an account: display name, username. *)
Definition user_by_id (ctx : Ctx) (userID : Z) : M Dom UErr User := scoped ctx (fun scope => repo_GetByID scope userID).
Definition name_of (u : User) : string := default ""%string (u_DisplayName u).
Definition GetEmail (ctx : Ctx) (userID : Z) : M Dom UErr string :=
  let! u := user_by_id ctx userID in ret (default ""%string (u_Email u)).

Definition set_contact (displayName email phone : option string) (emailChanged : bool) (u : User) : User :=
  mkUser (u_ID u) (u_TenantID u) (u_Username u) email (if emailChanged then false else u_EmailVerified u)
    (if emailChanged then None else u_EmailVerifiedAt u) phone displayName (u_Avatar u) (u_PasswordHash u) (u_Status u)
    (u_LastLoginAt u) (u_LastLoginIP u) (u_PasswordChangedAt u) (u_MustChangePwd u) (u_IsSuperAdmin u) (u_IsBuiltin u)
    (u_CreatedAt u) (u_UpdatedAt u) (u_CreatedBy u) (u_UpdatedBy u) (u_DeletedAt u).
Definition set_verified (t : Z) (u : User) : User :=
  mkUser (u_ID u) (u_TenantID u) (u_Username u) (u_Email u) true (Some t) (u_Phone u) (u_DisplayName u) (u_Avatar u) (u_PasswordHash u)
    (u_Status u) (u_LastLoginAt u) (u_LastLoginIP u) (u_PasswordChangedAt u) (u_MustChangePwd u) (u_IsSuperAdmin u) (u_IsBuiltin u)
    (u_CreatedAt u) (u_UpdatedAt u) (u_CreatedBy u) (u_UpdatedBy u) (u_DeletedAt u).
Definition set_avatar (avatar : string) (u : User) : User :=
  mkUser (u_ID u) (u_TenantID u) (u_Username u) (u_Email u) (u_EmailVerified u) (u_EmailVerifiedAt u) (u_Phone u) (u_DisplayName u)
    (Some avatar) (u_PasswordHash u) (u_Status u) (u_LastLoginAt u) (u_LastLoginIP u) (u_PasswordChangedAt u) (u_MustChangePwd u)
    (u_IsSuperAdmin u) (u_IsBuiltin u) (u_CreatedAt u) (u_UpdatedAt u) (u_CreatedBy u) (u_UpdatedBy u) (u_DeletedAt u).

(** An empty text clears the column. *)
Definition str_ptr (v : string) : option string := if bool_decide (v = ""%string) then None else Some v.
Definition free_or (cur new : option string) (find : string -> M Dom UErr User) (exists_err : UErr) : M Dom UErr unit :=
  match new with
  | Some v => if bool_decide (cur = new) then ret tt else unless_found (find v) exists_err
  | None => ret tt
  end.
Definition UpdateProfile (ctx : Ctx) (userID : Z) (displayName phone email : string) : M Dom UErr unit :=
  scoped ctx (fun scope =>
    let! u := repo_GetByID scope userID in
    let newPhone := str_ptr phone in
    do! free_or (u_Phone u) newPhone (GetByPhone scope (u_TenantID u)) ErrPhoneExists in
    let newEmail := str_ptr email in
    do! free_or (u_Email u) newEmail (GetByEmail scope (u_TenantID u)) ErrEmailExists in
    repo_Update lower (set_contact (or_keep (str_ptr displayName) (u_DisplayName u)) newEmail newPhone
                               (negb (bool_decide (u_Email u = newEmail))) u)).
Definition MarkEmailVerified (ctx : Ctx) (userID : Z) : M Dom UErr unit :=
  scoped ctx (fun scope =>
    let! u := repo_GetByID scope userID in
    if u_EmailVerified u then ret tt else
    let! now := time_now in
    repo_Update lower (set_verified now u)).
Definition UpdateAvatar (ctx : Ctx) (userID : Z) (avatar : string) : M Dom UErr unit :=
  scoped ctx (fun scope =>
    let! u := repo_GetByID scope userID in
    repo_Update lower (set_avatar avatar u)).
(** The portal does not ask for another change. *)
Definition portal_ResetPassword (ctx : Ctx) (userID : Z) (newPassword salt : string) : M Dom UErr unit :=
  scoped ctx (fun scope => ResetPassword scope pwdPolicy config HashPassword CheckPassword userID newPassword (Some false) salt).
Definition portal_UpdateLastLogin (ctx : Ctx) (userID : Z) (ip : string) : M Dom UErr unit :=
  scoped ctx (fun scope => UpdateLastLogin scope userID ip).

(** ** ratelimit_helpers.go *)

Definition rateLimited (l : option Config) (identifier : string) : Op (option RateLimitError) :=
  match l with
  | None => ret None
  | Some cfg => on_limits (Check sha256_hex ttl_s cfg identifier) (fun r =>
      ret match r with Ok x => x | Err _ => Some (mkRateLimitError "" "" 0) end)
  end.
(** RecordFailure and Reset of a limiter that may be nil. *)
Definition recordFailure (l : option Config) (identifier : string) : Op (option RateLimitError) :=
  match l with
  | None => ret None
  | Some cfg => on_limits (RecordFailure sha256_hex pttl_ms cfg identifier) (fun r => ret match r with Ok x => x | Err _ => None end)
  end.
Definition resetLimit (l : option Config) (identifier : string) : Op unit :=
  match l with None => ret tt | Some cfg => on_limits (Reset sha256_hex cfg identifier) (fun _ => ret tt) end.
Definition respondRateLimited (rle : RateLimitError) : Answer :=
  Error 429 NumTooManyAttempts (if 0 <? RetryAfter rle then Some (Z.quot (RetryAfter rle) Second) else None).

(** Checked, then counted, before anything is looked up. *)
Definition throttled (l : option Config) (identifier : string) (k : Op Answer) : Op Answer :=
  let! locked := rateLimited l identifier in
  match locked with
  | Some rle => ret (respondRateLimited rle)
  | None =>
      let! tripped := recordFailure l identifier in
      match tripped with Some rle => ret (respondRateLimited rle) | None => k end
  end.

Definition resolveTenant (code : string) : Z :=
  if bool_decide (code = ""%string) then defaultTID h else
  match tenantByCd h with
  | None => defaultTID h
  | Some f => if 0 <? f code then f code else defaultTID h
  end.

(** The names a mail is addressed with; [fall_back] to the username where there is no
    display name. *)
Definition names_of (ctx : Ctx) (userID : Z) (fall_back : bool) (k : string * string -> Op bool) : Op bool :=
  on_dom (user_by_id ctx userID) (fun r => match r with
    | Err _ => k (""%string, ""%string)
    | Ok u => k (if fall_back && bool_decide (name_of u = ""%string) then u_Username u else name_of u, u_Username u)
    end).
(** Handed to the mailer, if there is one. *)
Definition mail (e : ReqEnv) (ctx : Ctx) (userID : Z) (fall_back : bool) (msg : string -> string -> Message) : Op bool :=
  if has_mailer h then names_of ctx userID fall_back (fun '(displayName, username) => deliver e (msg displayName username))
  else ret false.
(** What the answer shows of a secret that could not be delivered. *)
Definition shown (sent : bool) (secret : string) : string := if negb sent && devFallback h then secret else ""%string.

(** ** password_reset.go *)

Definition reset_link (token : string) : string := publicURL h +:+ "/password/reset?token=" +:+ token.
Definition forgot_for (e : ReqEnv) (tenantID userID : Z) (email : string) : Op Answer :=
  match drawn e with
  | None => ret InternalError
  | Some token =>
      on_tokens (SET (pwdResetKeyPrefix +:+ token) (dec tenantID +:+ ":" +:+ dec userID) (pwdResetTTL * Second)) (fun r => match r with
        | Err _ => ret InternalError
        | Ok _ =>
            let link := reset_link token in
            let! smtpOK := mail e (Some tenantID) userID true (fun displayName username =>
                             ResetMail tenantID email displayName username link (String.substring 0 8 token)) in
            ret (Sent pwdResetTTL (shown smtpOK link))
        end)
  end.
Definition forgot (e : ReqEnv) (body : option (string * string)) : Op Answer :=
  match body with
  | None => ret (BadRequest NumBadRequest)
  | Some (raw, tenant) =>
      let email := TrimSpace (ToLower raw) in
      throttled (resetLimiter h) ("pwreset:" +:+ email) (
        let tenantID := resolveTenant tenant in
        on_dom (LookupByEmail (Some tenantID) tenantID email) (fun r => match r with
          | Err _ => ret (Sent pwdResetTTL "")
          | Ok userID => if userID =? 0 then ret (Sent pwdResetTTL "") else forgot_for e tenantID userID email
          end))
  end.

Inductive TokenErr : Type := TokenInvalid | TokenUnread.
(** A value without a colon has no tenant. *)
Definition reset_payload (val : string) : Z * Z :=
  match Cut ":" val with
  | Some (a, b) => ((ParseInt a).1, (ParseInt b).1)
  | None => (0, (ParseInt val).1)
  end.
Definition consumeReset (token : string) : Op (res TokenErr (Z * Z)) :=
  on_tokens (GETDEL (pwdResetKeyPrefix +:+ token)) (fun r => ret match r with
    | Err RErrNil => Err TokenInvalid
    | Err _ => Err TokenUnread
    | Ok val => let '(tenantID, userID) := reset_payload val in
                if userID =? 0 then Err TokenUnread else Ok (tenantID, userID)
    end).
Definition weak (e : UErr) : bool :=
  match e with
  | ErrPasswordTooShort _ | ErrPasswordNeedUpper | ErrPasswordNeedLower | ErrPasswordNeedDigit | ErrPasswordNeedSpecial => true
  | _ => false
  end.
Definition reset (e : ReqEnv) (body : option (string * string)) : Op Answer :=
  match body with
  | None => ret (BadRequest NumBadRequest)
  | Some (token, newPassword) =>
      let! c := consumeReset token in
      match c with
      | Err TokenInvalid => ret (BadRequest NumInvalidInput)
      | Err TokenUnread => ret InternalError
      | Ok (tenantID, userID) =>
          let ctx := if 0 <? tenantID then Some tenantID else None in
          on_dom (portal_ResetPassword ctx userID newPassword (salt e)) (fun r => ret match r with
            | Ok _ => Done
            | Err ErrUserNotFound => BadRequest NumInvalidInput
            | Err ErrPasswordReused => BadRequest NumPasswordReused
            | Err err => if weak err then BadRequest NumInputRejected else InternalError
            end)
      end
  end.

(** ** magic_link.go *)

Definition magic_link (token tenant : string) : string :=
  rev_string (strip (String.length (publicURL h)) ["/"%string] (rev_string (publicURL h)))
  +:+ "/api/v1/portal-public/auth/magic-link/callback?token=" +:+ token
  +:+ (if bool_decide (tenant = ""%string) then "" else "&tenant=" +:+ tenant).
Definition magic_for (e : ReqEnv) (tenantID userID : Z) (email tenant : string) : Op Answer :=
  match drawn e with
  | None => ret InternalError
  | Some token =>
      on_tokens (SET (magicLinkKeyPrefix +:+ token) (dec userID +:+ ":" +:+ dec tenantID) (magicLinkTTL * Second)) (fun r => match r with
        | Err _ => ret InternalError
        | Ok _ =>
            let link := magic_link token tenant in
            let! smtpOK := mail e (Some tenantID) userID true (fun displayName username => MagicMail tenantID email displayName username link) in
            ret (Sent magicLinkTTL (shown smtpOK link))
        end)
  end.
Definition magic_send (e : ReqEnv) (body : option (string * string)) : Op Answer :=
  if negb (enabled e) then ret (Error 403 NumForbiddenScope None) else
  match body with
  | None => ret (BadRequest NumBadRequest)
  | Some (raw, tenant) =>
      let email := TrimSpace (ToLower raw) in
      throttled (magicLimiter h) ("mlink:" +:+ email) (
        let tenantID := resolveTenant tenant in
        on_dom (LookupByEmail (Some tenantID) tenantID email) (fun r => match r with
          | Err _ => ret (Sent magicLinkTTL "")
          | Ok userID => if userID =? 0 then ret (Sent magicLinkTTL "") else magic_for e tenantID userID email tenant
          end))
  end.
Definition consumeMagic (token : string) : Op (option (Z * Z)) :=
  on_tokens (GETDEL (magicLinkKeyPrefix +:+ token)) (fun r => ret match r with Ok val => scan_pair val | Err _ => None end).

(** A portal session, and the stamp of the last login, whose failure is only logged. *)
Definition sign_in (e : ReqEnv) (ctx : Ctx) (userID tenantID : Z) (authType : string) (k : string -> Op Answer) : Op Answer :=
  on_sessions (Session.Create (pSessionMgr h) (pSessionPolicy h) (newID e) NamespacePortal userID tenantID (clientIP e) (userAgent e) authType)
    (fun r => match r with
      | Err _ => ret InternalError
      | Ok sess => on_dom (portal_UpdateLastLogin ctx userID (clientIP e)) (fun _ => k (ID sess))
      end).
(** The route is public: its context has no tenant. *)
Definition callback (e : ReqEnv) (token : string) : Op Answer :=
  if bool_decide (token = ""%string) then ret (BadRequest NumBadRequest) else
  let! c := consumeMagic token in
  match c with
  | None => ret (Redirect (publicURL h +:+ "/login?err=magic_expired") None)
  | Some (userID, tenantID) =>
      sign_in e None userID tenantID "magic_link" (fun sid => ret (Redirect (publicURL h +:+ "/apps") (Some sid)))
  end.

(** ** sms_otp.go *)

Definition exists_f (k : string) (ks : gmap string (RKey string)) (now : Z) : gmap string (RKey string) * res RErr Z :=
  (ks, Ok (if peek ks now k then 1 else 0)).
Definition sms_for (e : ReqEnv) (tenantID userID : Z) (phone : string) : Op Answer :=
  match drawn e with
  | None => ret InternalError
  | Some code =>
      on_tokens (SET (smsOTPKeyPrefix +:+ phone) (dec userID +:+ ":" +:+ code) (smsOTPTTL * Second)) (fun r => match r with
        | Err _ => ret InternalError
        | Ok _ =>
            on_tokens (SET (smsOTPCooldownPrefix +:+ phone) "1" (smsOTPCooldown * Second)) (fun r' => match r' with
              | Err _ => ret InternalError
              | Ok _ =>
                  let! providerOK := if has_sms h then deliver e (OTP tenantID phone code) else ret false in
                  ret (Sent smsOTPTTL (shown providerOK code))
              end)
        end)
  end.
Definition sms_send (e : ReqEnv) (body : option (string * string)) : Op Answer :=
  if negb (enabled e) then ret (Error 403 NumForbiddenScope None) else
  match body with
  | None => ret (BadRequest NumBadRequest)
  | Some (raw, tenant) =>
      let phone := TrimSpace raw in
      on_tokens (command (exists_f (smsOTPCooldownPrefix +:+ phone))) (fun r =>
        if 0 <? match r with Ok n => n | Err _ => 0 end then ret (Error 429 NumTooManyAttempts None) else
        let tenantID := resolveTenant tenant in
        on_dom (LookupByPhone (Some tenantID) tenantID phone) (fun r => match r with
          | Err _ => ret (Sent smsOTPTTL "")
          | Ok userID => if userID =? 0 then ret (Sent smsOTPTTL "") else sms_for e tenantID userID phone
          end))
  end.

(** The account a code is for, if it is the one sent to the phone. *)
Definition code_matches (code val : string) : option Z :=
  match Cut ":" val with
  | None => None
  | Some (u, c) =>
      match scan_d u with
      | None => None
      | Some (userID, _) => if bool_decide (c = code) then Some userID else None
      end
  end.
(** consumeCode reads the code, and clears it with a second command once it matched. *)
Definition read_code (phone code : string) : Op (res TokenErr Z) :=
  on_tokens (GET (smsOTPKeyPrefix +:+ phone)) (fun r => ret match r with
    | Err RErrNil => Err TokenInvalid
    | Err _ => Err TokenUnread
    | Ok val => match code_matches code val with Some userID => Ok userID | None => Err TokenInvalid end
    end).
Definition clear_code (phone : string) : Op unit := on_tokens (DEL (smsOTPKeyPrefix +:+ phone)) (fun _ => ret tt).
Definition login_as (e : ReqEnv) (tenantID userID : Z) (phone : string) : Op Answer :=
  do! clear_code phone in
  do! resetLimit (smsLimiter h) ("phone:" +:+ phone) in
  on_dom (user_by_id (Some tenantID) userID) (fun r => match r with
    | Err _ => ret InternalError
    | Ok user => sign_in e (Some tenantID) userID tenantID "sms_otp" (fun sid => ret (SignedIn (u_ID user) (u_Username user) (name_of user) sid))
    end).
(** The part of login before the code is cleared: an answer, or the account to sign in. *)
Definition login_check (phone code : string) : Op (Answer + Z) :=
  let! locked := rateLimited (smsLimiter h) ("phone:" +:+ phone) in
  match locked with
  | Some rle => ret (inl (respondRateLimited rle))
  | None =>
      let! c := read_code phone code in
      match c with
      | Err TokenUnread => ret (inl InternalError)
      | Err TokenInvalid =>
          let! tripped := recordFailure (smsLimiter h) ("phone:" +:+ phone) in
          ret (inl match tripped with Some rle => respondRateLimited rle | None => BadRequest NumInvalidInput end)
      | Ok userID => ret (inr userID)
      end
  end.
Definition login (e : ReqEnv) (body : option (string * string * string)) : Op Answer :=
  if negb (enabled e) then ret (Error 403 NumForbiddenScope None) else
  match body with
  | None => ret (BadRequest NumBadRequest)
  | Some (raw, code, tenant) =>
      let phone := TrimSpace raw in
      let! c := login_check phone code in
      match c with inl a => ret a | inr userID => login_as e (resolveTenant tenant) userID phone end
  end.

(** ** email_verify.go; [ctx] is the tenant of the caller's session *)

Definition verify_link (token : string) : string := publicURL h +:+ "/profile/email/verify?token=" +:+ token.
Definition sendVerification (e : ReqEnv) (ctx : Ctx) (caller : option Z) : Op Answer :=
  match caller with
  | None => ret (Error 401 NumUnauthenticated None)
  | Some userID =>
      on_dom (GetEmail ctx userID) (fun r => match r with
        | Err _ => ret InternalError
        | Ok email =>
            if bool_decide (email = ""%string) then ret (BadRequest NumBadRequest) else
            match drawn e with
            | None => ret InternalError
            | Some token =>
                on_tokens (SET (verifyKeyPrefix +:+ token) (dec userID +:+ ":" +:+ email) (emailVerifyTTL * Second)) (fun r' => match r' with
                  | Err _ => ret InternalError
                  | Ok _ =>
                      let link := verify_link token in
                      let tenantID := match ctx with Some t => if 0 <? t then t else defaultTID h | None => defaultTID h end in
                      let! smtpOK := mail e ctx userID false (fun displayName username => VerifyMail tenantID email displayName username link) in
                      ret (SentVerification smtpOK email emailVerifyTTL (shown smtpOK link))
                  end)
            end
        end)
  end.
Definition verify_payload (val : string) : option (Z * string) :=
  match Cut ":" val with
  | None => None
  | Some (uidStr, email) => let '(uid, ok) := ParseInt uidStr in if ok then Some (uid, email) else None
  end.
Definition consumeVerify (token : string) : Op (res TokenErr (Z * string)) :=
  on_tokens (GETDEL (verifyKeyPrefix +:+ token)) (fun r => ret match r with
    | Err RErrNil => Err TokenInvalid
    | Err _ => Err TokenUnread
    | Ok val => match verify_payload val with Some p => Ok p | None => Err TokenInvalid end
    end).
(** The second read of the account and the write. *)
Definition mark_verified (ctx : Ctx) (userID : Z) : Op Answer :=
  on_dom (MarkEmailVerified ctx userID) (fun r => ret match r with
    | Err _ => InternalError
    | Ok _ => if bool_decide (publicURL h = ""%string) then Done else Redirect (publicURL h +:+ "/profile?email_verified=1") None
    end).
Definition verify (ctx : Ctx) (token : string) : Op Answer :=
  if bool_decide (token = ""%string) then ret (BadRequest NumBadRequest) else
  let! c := consumeVerify token in
  match c with
  | Err TokenInvalid => ret (BadRequest NumInvalidInput)
  | Err TokenUnread => ret InternalError
  | Ok (userID, tokenEmail) =>
      on_dom (GetEmail ctx userID) (fun r => match r with
        | Err _ => ret InternalError
        | Ok curEmail =>
            if bool_decide (curEmail = ""%string) || negb (EqualFold curEmail tokenEmail) then ret (BadRequest NumInvalidInput)
            else mark_verified ctx userID
        end)
  end.

(** ** profile_handler.go *)

Definition getProfile (ctx : Ctx) (caller : option Z) : Op Answer :=
  match caller with
  | None => ret (Error 401 NumUnauthenticated None)
  | Some userID =>
      on_dom (user_by_id ctx userID) (fun r => match r with
        | Err _ => ret InternalError
        | Ok user => on_dom (scoped ctx (fun scope => GetDetail scope userID)) (fun r' =>
            ret (Profile user match r' with Ok d => Some d | Err _ => None end))
        end)
  end.
Definition updateProfile (ctx : Ctx) (caller : option Z) (body : option (string * string * string)) : Op Answer :=
  match caller, body with
  | None, _ => ret (Error 401 NumUnauthenticated None)
  | _, None => ret (BadRequest NumBadRequest)
  | Some userID, Some (displayName, phone, email) =>
      on_dom (UpdateProfile ctx userID displayName phone email) (fun r => match r with
        | Err e => ret match e with
                       | ErrEmailExists => Error 409 40902 None
                       | ErrPhoneExists => Error 409 40903 None
                       | _ => InternalError
                       end
        | Ok _ => do! publish_profile userID ["display_name"; "phone"; "email"]%string in ret Done
        end)
  end.
Definition updateAvatar (ctx : Ctx) (caller : option Z) (body : option string) : Op Answer :=
  match caller, body with
  | None, _ => ret (Error 401 NumUnauthenticated None)
  | _, None => ret (BadRequest NumBadRequest)
  | Some userID, Some avatar =>
      on_dom (UpdateAvatar ctx userID avatar) (fun r => match r with
        | Err _ => ret InternalError
        | Ok _ => do! publish_profile userID ["avatar"]%string in ret Done
        end)
  end.

(** ** Requests *)

Inductive Req : Type :=
| Forgot (body : option (string * string))
| Reset' (body : option (string * string))
| MagicSend (body : option (string * string))
| Callback (token : string)
| SmsSend (body : option (string * string))
| SmsLogin (body : option (string * string * string))
| SendVerification (ctx : Ctx) (caller : option Z)
| Verify (ctx : Ctx) (token : string)
| GetProfile (ctx : Ctx) (caller : option Z)
| PutProfile (ctx : Ctx) (caller : option Z) (body : option (string * string * string))
| PutAvatar (ctx : Ctx) (caller : option Z) (body : option string).

Definition serve (q : Req) (e : ReqEnv) : Op Answer :=
  match q with
  | Forgot body => forgot e body
  | Reset' body => reset e body
  | MagicSend body => magic_send e body
  | Callback token => callback e token
  | SmsSend body => sms_send e body
  | SmsLogin body => login e body
  | SendVerification ctx caller => sendVerification e ctx caller
  | Verify ctx token => verify ctx token
  | GetProfile ctx caller => getProfile ctx caller
  | PutProfile ctx caller body => updateProfile ctx caller body
  | PutAvatar ctx caller body => updateAvatar ctx caller body
  end.
End Portal.
