(* ===== verification/PortalProps.v ===== *)
(** * PortalProps: a link or code works for the account it was drawn for, once and in time

    Histories of requests with their answers, from a store without links; the environment
    may change everything but the stored links between requests. *)

From Stdlib Require Import Ascii.
From S2P Require Import Redis Session SessionProps RateLimit.
From S2P Require Import Prelude Statements Text User UserExternal UserProps UserLinks UserLogin Portal.

#[global] Open Scope Z_scope.

(** ** What was written is what is read *)

Lemma app_cons c s t : String c s +:+ t = String c (s +:+ t).
Proof. done. Qed.

Lemma Cut_app P c a b : all_chars P a = true -> P c = false -> Cut c (a +:+ String c b) = Some (a, b).
Proof.
  intros Ha Hc. induction a as [|d a IH]; simpl in *; [by rewrite Ascii.eqb_refl|].
  to_prop. destruct (Ascii.eqb_spec d c) as [->|]; [congruence|]. by rewrite IH.
Qed.

Lemma Cut_dec n b : Cut ":" (dec n +:+ ":" +:+ b) = Some (dec n, b).
Proof. apply (Cut_app dec_char); [apply dec_chars | done]. Qed.

Definition stops (rest : string) : Prop := match rest with String c _ => is_digit_char c = false | EmptyString => True end.

Lemma span_uint d rest :
  stops rest -> span_digits (DecimalString.NilEmpty.string_of_uint d +:+ rest) = (DecimalString.NilEmpty.string_of_uint d, rest).
Proof.
  intros Hr. induction d; [destruct rest; simpl in *; by rewrite ?Hr|..]; cbn [DecimalString.NilEmpty.string_of_uint];
    (etransitivity; [|by rewrite <- (f_equal (fun p => (String _ p.1, p.2)) IHd)]);
    change (String ?c ?s +:+ rest) with (String c (s +:+ rest)); cbn [span_digits];
    (change (is_digit_char _) with true || idtac); cbn; by rewrite IHd.
Qed.

Lemma span_zero d rest :
  stops rest -> span_digits (DecimalString.NilZero.string_of_uint d +:+ rest) = (DecimalString.NilZero.string_of_uint d, rest).
Proof.
  intros Hr. destruct d eqn:Hd; [|rewrite <- Hd; replace (DecimalString.NilZero.string_of_uint d) with (DecimalString.NilEmpty.string_of_uint d) by (by rewrite Hd); by apply span_uint..].
  apply (span_uint (Decimal.D0 Decimal.Nil)). done.
Qed.

Lemma scan_dec n rest : in_int64 n -> stops rest -> scan_d (dec n +:+ rest) = Some (n, rest).
Proof.
  intros Hn Hr. pose proof (ParseInt_dec n Hn) as Hp. unfold dec, DecimalString.NilZero.string_of_int in *.
  destruct (Z.to_int n) as [d|d] eqn:Hd.
  - pose proof (span_zero d rest Hr) as Hs. unfold scan_d.
    destruct d; cbn -[span_digits ParseInt] in Hs, Hp |- *; rewrite app_cons in Hs |- *; cbn -[span_digits ParseInt];
      rewrite Hs; change (""%string +:+ ?s) with s; by rewrite Hp.
  - pose proof (span_zero d rest Hr) as Hs. unfold scan_d. rewrite app_cons.
    cbn -[span_digits ParseInt DecimalString.NilZero.string_of_uint].
    change (""%string +:+ ?s) with s. rewrite Hs, app_cons. change (""%string +:+ ?s) with s. by rewrite Hp.
Qed.

Lemma scan_pair_dec a b : in_int64 a -> in_int64 b -> scan_pair (dec a +:+ ":" +:+ dec b) = Some (a, b).
Proof.
  intros Ha Hb. unfold scan_pair. rewrite scan_dec by done. change (":" +:+ dec b) with (String ":" (dec b)).
  cbn -[scan_d]. assert (scan_d (dec b) = Some (b, ""%string)) as ->; [|done].
  rewrite <- (scan_dec b "" Hb I). f_equal. clear. induction (dec b) as [|c s IH]; [done|]. exact (f_equal (String c) IH).
Qed.

Lemma reset_payload_dec t u : in_int64 t -> in_int64 u -> reset_payload (dec t +:+ ":" +:+ dec u) = (t, u).
Proof. intros Ht Hu. unfold reset_payload. by rewrite Cut_dec, !ParseInt_dec. Qed.

Lemma verify_payload_dec u email : in_int64 u -> verify_payload (dec u +:+ ":" +:+ email) = Some (u, email).
Proof. intros Hu. unfold verify_payload. by rewrite Cut_dec, ParseInt_dec. Qed.

(** ** Links and codes by who asked for them *)

(** A key written for a request: what is stored, for which account, and the address or
    phone the secret is sent to. *)
Record Secret : Type := mkSecret { i_key : string; i_val : string; i_ttl : Z; i_tenant : Z; i_user : Z; i_to : string }.

Section History.
Context {G : Type} `{!IdGen G}.
Context (lower : string -> string) (pwdPolicy : option (Z -> PasswordPolicy)) (config : PasswordPolicy).
Context (HashPassword : string -> string -> option string) (CheckPassword : string -> string -> bool).
Context (ToLower : string -> string) (EqualFold : string -> string -> bool).
Context (sha256_hex : string -> string) (pttl_ms ttl_s : Z -> Z) (h : Handlers).

Abbreviation St := (@PState G).
Abbreviation serve := (Portal.serve lower pwdPolicy config HashPassword CheckPassword ToLower EqualFold sha256_hex pttl_ms ttl_s h).
Abbreviation store s := (rkeys (ptokens s)).
Abbreviation clock s := (rclock (ptokens s)).

Definition address (raw : string) : string := TrimSpace (ToLower raw).

(** What a request may store. *)
Definition issues (q : Req) (e : ReqEnv) (s : St) : list Secret :=
  match drawn e with
  | None => []
  | Some x =>
      match q with
      | Forgot (Some (raw, tenant)) =>
          let t := resolveTenant h tenant in
          match (LookupByEmail (Some t) t (address raw) (pdom s)).2 with
          | Ok u => if u =? 0 then []
                    else [mkSecret (pwdResetKeyPrefix +:+ x) (dec t +:+ ":" +:+ dec u) (pwdResetTTL * Second) t u (address raw)]
          | Err _ => []
          end
      | MagicSend (Some (raw, tenant)) =>
          let t := resolveTenant h tenant in
          match (LookupByEmail (Some t) t (address raw) (pdom s)).2 with
          | Ok u => if u =? 0 then []
                    else [mkSecret (magicLinkKeyPrefix +:+ x) (dec u +:+ ":" +:+ dec t) (magicLinkTTL * Second) t u (address raw)]
          | Err _ => []
          end
      | SmsSend (Some (raw, tenant)) =>
          let t := resolveTenant h tenant in
          let phone := TrimSpace raw in
          match (LookupByPhone (Some t) t phone (pdom s)).2 with
          | Ok u => if u =? 0 then []
                    else [mkSecret (smsOTPKeyPrefix +:+ phone) (dec u +:+ ":" +:+ x) (smsOTPTTL * Second) t u phone;
                          mkSecret (smsOTPCooldownPrefix +:+ phone) "1" (smsOTPCooldown * Second) t u phone]
          | Err _ => []
          end
      | SendVerification ctx (Some u) =>
          match (GetEmail ctx u (pdom s)).2 with
          | Ok email => if bool_decide (email = ""%string) then []
                        else [mkSecret (verifyKeyPrefix +:+ x) (dec u +:+ ":" +:+ email) (emailVerifyTTL * Second) (default 0 ctx) u email]
          | Err _ => []
          end
      | _ => []
      end
  end.

(** A stored value is the old one or one just issued. *)
Definition stored_from (iss : list Secret) (s s' : St) : Prop :=
  clock s' = clock s
  /\ forall k x, store s' !! k = Some x ->
       store s !! k = Some x
       \/ exists i, i ∈ iss /\ k = i_key i /\ x = mkRKey (RStr (i_val i)) (Some (clock s + px (i_ttl i))).

Lemma stored_refl iss s s' : ptokens s' = ptokens s -> stored_from iss s s'.
Proof. intros Ht. unfold stored_from. rewrite Ht. auto. Qed.

(** A command on the links that only removes or reads. *)
Definition shrinks {A} (f : gmap string (RKey string) -> Z -> gmap string (RKey string) * res RErr A) : Prop :=
  forall ks now k x, (f ks now).1 !! k = Some x -> ks !! k = Some x.

Lemma shrinks_getdel k : shrinks (getdel_f k).
Proof.
  intros ks now k' x. unfold getdel_f. repeat case_match; cbn; try done. rewrite lookup_delete_Some. by intros [_ ?].
Qed.
Lemma shrinks_exists k : shrinks (exists_f k).
Proof. by intros ks now k' x. Qed.
Lemma shrinks_get k : shrinks (get_f k).
Proof. by intros ks now k' x. Qed.
Lemma shrinks_del k : shrinks (del_f k).
Proof. intros ks now k' x. cbn. rewrite lookup_delete_Some. by intros [_ ?]. Qed.

Lemma command_shrinks {A} (f : gmap string (RKey string) -> Z -> gmap string (RKey string) * res RErr A) r r' x :
  shrinks f -> command f r = (r', x) -> rclock r' = rclock r /\ forall k v, rkeys r' !! k = Some v -> rkeys r !! k = Some v.
Proof.
  intros Hf Hc. apply command_inv in Hc as (Hclk & _ & Hk). split; [done|]. intros k v.
  destruct Hk as [[-> _]|(_ & _ & [->| ->])]; eauto.
Qed.

Lemma command_set k (v : string) ttl (r : Redis string) r' x :
  0 < ttl -> command (set_f k v ttl) r = (r', x) ->
  rclock r' = rclock r
  /\ forall k' y, rkeys r' !! k' = Some y -> rkeys r !! k' = Some y \/ (k' = k /\ y = mkRKey (RStr v) (Some (rclock r + px ttl))).
Proof.
  intros Ht Hc. apply command_inv in Hc as (Hclk & _ & Hk). split; [done|]. intros k' y. rewrite (set_f_pos _ _ _ _ _ Ht) in Hk.
  destruct Hk as [[-> _]|(_ & _ & [->| ->])]; cbn; auto;
    rewrite lookup_insert_Some; intros [[<- <-]|[_ Hy]]; auto.
Qed.

(** A combinator whose continuation leaves the links alone. *)
Definition silent {A} (m : M St NoError A) : Prop := forall s s' r, m s = (s', r) -> ptokens s' = ptokens s.
Lemma silent_ret {A} (a : A) : silent (ret a).
Proof. intros s s' r [= <- _]. done. Qed.
Lemma silent_bind {A B} (m : M St NoError A) (k : A -> M St NoError B) : silent m -> (forall a, silent (k a)) -> silent (bind m k).
Proof.
  intros Hm Hk s s' r. unfold bind. destruct (m s) as [s1 [a|e]] eqn:Hs; [|by destruct e].
  intros Hr. apply Hk in Hr. by rewrite Hr, (Hm _ _ _ Hs).
Qed.
Lemma silent_dom {A B} (m : M _ UErr A) (k : res UErr A -> M St NoError B) : (forall r, silent (k r)) -> silent (on_dom m k).
Proof. intros Hk s s' r. unfold on_dom. destruct (m (pdom s)) as [w x]. intros Hr. by apply Hk in Hr. Qed.
Lemma silent_limits {A B} (m : M _ RErr A) (k : res RErr A -> M St NoError B) : (forall r, silent (k r)) -> silent (on_limits m k).
Proof. intros Hk s s' r. unfold on_limits. destruct (m (plimits s)) as [w x]. intros Hr. by apply Hk in Hr. Qed.
Lemma silent_sessions {A B} (m : M _ RErr A) (k : res RErr A -> M St NoError B) : (forall r, silent (k r)) -> silent (on_sessions m k).
Proof. intros Hk s s' r. unfold on_sessions. destruct (m (psessions s)) as [w x]. intros Hr. by apply Hk in Hr. Qed.
Lemma silent_deliver e msg : silent (deliver (G:=G) e msg).
Proof. intros s s' r [= <- _]. done. Qed.
Lemma silent_publish u fs : silent (publish_profile (G:=G) u fs).
Proof. intros s s' r [= <- _]. done. Qed.

Ltac silent_step :=
  repeat match goal with
  | |- silent (bind _ _) => apply silent_bind; [|intros ?]
  | |- silent (on_dom _ _) => apply silent_dom; intros ?
  | |- silent (on_limits _ _) => apply silent_limits; intros ?
  | |- silent (on_sessions _ _) => apply silent_sessions; intros ?
  | |- silent (ret _) => apply silent_ret
  | |- silent (deliver _ _) => apply silent_deliver
  | |- silent (publish_profile _ _) => apply silent_publish
  | |- silent (match ?x with _ => _ end) => destruct x
  end.

Lemma silent_mail e ctx u fb msg : silent (mail (G:=G) h e ctx u fb msg).
Proof. unfold mail, names_of. silent_step. Qed.
Lemma silent_limited l id : silent (rateLimited (G:=G) sha256_hex ttl_s l id).
Proof. unfold rateLimited. silent_step. Qed.
Lemma silent_record l id : silent (recordFailure (G:=G) sha256_hex pttl_ms l id).
Proof. unfold recordFailure. silent_step. Qed.
Lemma silent_reset l id : silent (resetLimit (G:=G) sha256_hex l id).
Proof. unfold resetLimit. silent_step. Qed.
Lemma silent_sign_in e ctx u t ty k : (forall sid, silent (k sid)) -> silent (sign_in (G:=G) h e ctx u t ty k).
Proof. intros Hk. unfold sign_in. silent_step. apply Hk. Qed.

(** The part behind the limiter runs on the same accounts and links. *)
Lemma throttled_inv l id (k : M St NoError Answer) s s' r :
  throttled sha256_hex pttl_ms ttl_s l id k s = (s', r) ->
  ptokens s' = ptokens s \/ exists s1, pdom s1 = pdom s /\ ptokens s1 = ptokens s /\ k s1 = (s', r).
Proof.
  unfold throttled, rateLimited, recordFailure, on_limits, bind, ret.
  destruct l as [cfg|]; [|intros Hk; right; by exists s].
  destruct (Check _ _ _ _ _) as [r1 x1]. destruct (match x1 with Ok x => x | Err _ => _ end); [intros [= <- _]; by left|].
  destruct (RecordFailure _ _ _ _ _) as [r2 x2]. destruct (match x2 with Ok x => x | Err _ => _ end); [intros [= <- _]; by left|].
  intros Hk. right. eexists. split_and!; [..|exact Hk]; done.
Qed.


Lemma on_tokens_inv {A B} (m : M _ RErr A) (k : res RErr A -> M St NoError B) s s' r :
  on_tokens m k s = (s', r) -> exists s1 x, m (ptokens s) = (ptokens s1, x) /\ pdom s1 = pdom s /\ psessions s1 = psessions s /\ k x s1 = (s', r).
Proof.
  unfold on_tokens. destruct (m (ptokens s)) as [r1 x] eqn:Hm. intros Hk. by exists (mkPState (pdom s) (plimits s) r1 (psessions s) (outbox s) (profile_events s)), x.
Qed.

Lemma stored_set iss i (k : res RErr unit -> M St NoError Answer) s0 s s' r :
  stored_from iss s0 s -> i ∈ iss -> 0 < i_ttl i -> on_tokens (SET (i_key i) (i_val i) (i_ttl i)) k s = (s', r) ->
  exists s1 x, stored_from iss s0 s1 /\ pdom s1 = pdom s /\ k x s1 = (s', r).
Proof.
  intros [Hc Hs] Hi Ht Hr. apply on_tokens_inv in Hr as (s1 & x & Hm & Hd & _ & Hr). exists s1, x. split_and!; [|done|done].
  apply (command_set _ _ _ _ _ _ Ht) in Hm as [Hc1 Hm]. split; [congruence|]. intros k' y Hy.
  destruct (Hm _ _ Hy) as [Hy'|[-> ->]]; [by apply Hs|]. right. exists i. by rewrite Hc.
Qed.

Lemma stored_shrink {A B} iss (f : gmap string (RKey string) -> Z -> gmap string (RKey string) * res RErr A)
    (k : res RErr A -> M St NoError B) s0 s s' r :
  shrinks f -> stored_from iss s0 s -> on_tokens (command f) k s = (s', r) ->
  exists s1 x, stored_from iss s0 s1 /\ pdom s1 = pdom s /\ k x s1 = (s', r).
Proof.
  intros Hf [Hc Hs] Hr. apply on_tokens_inv in Hr as (s1 & x & Hm & Hd & _ & Hr). exists s1, x. split_and!; [|done|done].
  apply (command_shrinks _ _ _ _ Hf) in Hm as [Hc1 Hm]. split; [congruence|]. intros k' y Hy. eauto.
Qed.

Lemma stored_silent {A} iss (m : M St NoError A) s0 s s' r : silent m -> stored_from iss s0 s -> m s = (s', r) -> stored_from iss s0 s'.
Proof. intros Hm Hs Hr. apply Hm in Hr. unfold stored_from in *. by rewrite Hr. Qed.

Ltac silent_tail :=
  eapply stored_silent; [|eassumption|eassumption];
  silent_step; auto using silent_mail, silent_limited, silent_record, silent_reset, silent_sign_in, silent_ret.

Lemma stored_forgot_for e t u email s0 s s' r :
  u <> 0 -> (LookupByEmail (Some t) t email (pdom s0)).2 = Ok u -> ptokens s = ptokens s0 ->
  forgot_for h e t u email s = (s', r) ->
  stored_from (match drawn e with Some x => [mkSecret (pwdResetKeyPrefix +:+ x) (dec t +:+ ":" +:+ dec u) (pwdResetTTL * Second) t u email] | None => [] end) s0 s'.
Proof.
  intros Hu Hl Ht. unfold forgot_for. destruct (drawn e) as [x|]; [|intros [= <- _]; by apply stored_refl].
  intros Hr. eapply (stored_set _ (mkSecret (pwdResetKeyPrefix +:+ x) (dec t +:+ ":" +:+ dec u) (pwdResetTTL * Second) t u email) _ s0) in Hr as (s1 & y & Hs1 & _ & Hr);
    [|by apply stored_refl|left|done].
  destruct y; silent_tail.
Qed.

Lemma stored_magic_for e t u email tenant s0 s s' r :
  u <> 0 -> (LookupByEmail (Some t) t email (pdom s0)).2 = Ok u -> ptokens s = ptokens s0 ->
  magic_for h e t u email tenant s = (s', r) ->
  stored_from (match drawn e with Some x => [mkSecret (magicLinkKeyPrefix +:+ x) (dec u +:+ ":" +:+ dec t) (magicLinkTTL * Second) t u email] | None => [] end) s0 s'.
Proof.
  intros Hu Hl Ht. unfold magic_for. destruct (drawn e) as [x|]; [|intros [= <- _]; by apply stored_refl].
  intros Hr. eapply (stored_set _ (mkSecret (magicLinkKeyPrefix +:+ x) (dec u +:+ ":" +:+ dec t) (magicLinkTTL * Second) t u email) _ s0) in Hr as (s1 & y & Hs1 & _ & Hr);
    [|by apply stored_refl|left|done].
  destruct y; silent_tail.
Qed.

Lemma stored_sms_for e t u phone s0 s s' r :
  u <> 0 -> ptokens s = ptokens s0 -> sms_for h e t u phone s = (s', r) ->
  stored_from (match drawn e with
               | Some x => [mkSecret (smsOTPKeyPrefix +:+ phone) (dec u +:+ ":" +:+ x) (smsOTPTTL * Second) t u phone;
                            mkSecret (smsOTPCooldownPrefix +:+ phone) "1" (smsOTPCooldown * Second) t u phone]
               | None => [] end) s0 s'.
Proof.
  intros Hu Ht. unfold sms_for. destruct (drawn e) as [x|]; [|intros [= <- _]; by apply stored_refl].
  intros Hr. eapply (stored_set _ (mkSecret (smsOTPKeyPrefix +:+ phone) (dec u +:+ ":" +:+ x) (smsOTPTTL * Second) t u phone) _ s0) in Hr as (s1 & y & Hs1 & _ & Hr);
    [|by apply stored_refl|left|done].
  destruct y; [|silent_tail].
  eapply (stored_set _ (mkSecret (smsOTPCooldownPrefix +:+ phone) "1" (smsOTPCooldown * Second) t u phone) _ s0) in Hr as (s2 & z & Hs2 & _ & Hr);
    [|exact Hs1|right; left|done].
  destruct z; silent_tail.
Qed.

(** A lookup by the handler is the lookup of [issues]. *)
Lemma stored_lookup {A} (m : M _ UErr A) (k : res UErr A -> M St NoError Answer) iss s0 s s' r :
  pdom s = pdom s0 -> ptokens s = ptokens s0 ->
  (forall s1, ptokens s1 = ptokens s0 -> k (m (pdom s0)).2 s1 = (s', r) -> stored_from iss s0 s') ->
  on_dom m k s = (s', r) -> stored_from iss s0 s'.
Proof.
  intros Hd Ht Hk. unfold on_dom. rewrite Hd. destruct (m (pdom s0)) as [w x]. intros Hr. eapply Hk; [|exact Hr]. exact Ht.
Qed.

Lemma stored_forgot e body s s' r :
  forgot ToLower sha256_hex pttl_ms ttl_s h e body s = (s', r) -> stored_from (issues (Forgot body) e s) s s'.
Proof.
  unfold forgot, issues. destruct body as [[raw tenant]|]; [|intros [= <- _]; by apply stored_refl].
  intros Hr. apply throttled_inv in Hr as [Ht|(s1 & Hd & Ht & Hr)]; [by apply stored_refl|]. fold (address raw) in Hr.
  eapply stored_lookup; [exact Hd | exact Ht | | exact Hr]. intros s2 Ht2.
  destruct (LookupByEmail _ _ _ _).2 as [u|] eqn:Hl; [|intros [= <- _]; by apply stored_refl].
  destruct (Z.eqb_spec u 0) as [->|Hu]; [intros [= <- _]; by apply stored_refl|].
  intros Hf. by eapply stored_forgot_for in Hf.
Qed.

Lemma stored_magic e body s s' r :
  magic_send ToLower sha256_hex pttl_ms ttl_s h e body s = (s', r) -> stored_from (issues (MagicSend body) e s) s s'.
Proof.
  unfold magic_send, issues. destruct (negb (enabled e)); [intros [= <- _]; by apply stored_refl|].
  destruct body as [[raw tenant]|]; [|intros [= <- _]; by apply stored_refl].
  intros Hr. apply throttled_inv in Hr as [Ht|(s1 & Hd & Ht & Hr)]; [by apply stored_refl|]. fold (address raw) in Hr.
  eapply stored_lookup; [exact Hd | exact Ht | | exact Hr]. intros s2 Ht2.
  destruct (LookupByEmail _ _ _ _).2 as [u|] eqn:Hl; [|intros [= <- _]; by apply stored_refl].
  destruct (Z.eqb_spec u 0) as [->|Hu]; [intros [= <- _]; by apply stored_refl|].
  intros Hf. by eapply stored_magic_for in Hf.
Qed.

Lemma stored_trans iss s0 s1 s2 : stored_from [] s0 s1 -> stored_from iss s1 s2 -> stored_from iss s0 s2.
Proof.
  intros [Hc1 H1] [Hc2 H2]. split; [congruence|]. intros k x Hx.
  destruct (H2 _ _ Hx) as [Hx1|(i & Hi & -> & ->)]; [|right; exists i; by rewrite Hc1].
  destruct (H1 _ _ Hx1) as [?|(i & Hi & _)]; [by left|]. by apply not_elem_of_nil in Hi.
Qed.

Lemma stored_sms e body s s' r : sms_send h e body s = (s', r) -> stored_from (issues (SmsSend body) e s) s s'.
Proof.
  unfold sms_send, issues. destruct (negb (enabled e)); [intros [= <- _]; by apply stored_refl|].
  destruct body as [[raw tenant]|]; [|intros [= <- _]; by apply stored_refl].
  intros Hr. eapply (stored_shrink []) in Hr as (s1 & x & Hs1 & Hd & Hr); [|apply shrinks_exists|by apply stored_refl].
  eapply stored_trans; [exact Hs1|]. destruct (0 <? _); [injection Hr as <- _; by apply stored_refl|].
  eapply (stored_lookup _ _ _ s1 s1); [done | done | | exact Hr]. intros s2 Ht2. rewrite Hd.
  destruct (LookupByPhone _ _ _ _).2 as [u|] eqn:Hl; [|intros [= <- _]; by apply stored_refl].
  destruct (Z.eqb_spec u 0) as [->|Hu]; [intros [= <- _]; by apply stored_refl|].
  intros Hf. by eapply stored_sms_for in Hf.
Qed.

Lemma stored_sendVerification e ctx caller s s' r :
  sendVerification h e ctx caller s = (s', r) -> stored_from (issues (SendVerification ctx caller) e s) s s'.
Proof.
  unfold sendVerification, issues. destruct caller as [u|]; [|intros [= <- _]; by apply stored_refl].
  intros Hr. eapply (stored_lookup _ _ _ s s); [done | done | | exact Hr]. intros s2 Ht2.
  destruct (GetEmail ctx u (pdom s)).2 as [email|]; [|intros [= <- _]; by apply stored_refl].
  case_bool_decide; [intros [= <- _]; by apply stored_refl|].
  destruct (drawn e) as [x|]; [|intros [= <- _]; by apply stored_refl].
  intros Hf. eapply (stored_set _ (mkSecret (verifyKeyPrefix +:+ x) (dec u +:+ ":" +:+ email) (emailVerifyTTL * Second) (default 0 ctx) u email) _ s) in Hf as (s3 & y & Hs3 & _ & Hf);
    [|by apply stored_refl|left|done].
  destruct y; silent_tail.
Qed.

(** ** The requests that store nothing *)

Definition shrinking {A} (m : M St NoError A) : Prop := forall s s' r, m s = (s', r) -> stored_from [] s s'.

Lemma shrinking_silent {A} (m : M St NoError A) : silent m -> shrinking m.
Proof. intros Hm s s' r Hr. apply stored_refl. by apply Hm in Hr. Qed.
Lemma shrinking_bind {A B} (m : M St NoError A) (k : A -> M St NoError B) : shrinking m -> (forall a, shrinking (k a)) -> shrinking (bind m k).
Proof.
  intros Hm Hk s s' r. unfold bind. destruct (m s) as [s1 [a|[]]] eqn:Hs. intros Hr.
  eapply stored_trans; [by eapply Hm | by eapply Hk].
Qed.
Lemma shrinking_tokens {A B} (f : gmap string (RKey string) -> Z -> gmap string (RKey string) * res RErr A)
    (k : res RErr A -> M St NoError B) : shrinks f -> (forall x, shrinking (k x)) -> shrinking (on_tokens (command f) k).
Proof.
  intros Hf Hk s s' r Hr. eapply (stored_shrink []) in Hr as (s1 & x & Hs1 & _ & Hr); [|exact Hf|by apply stored_refl].
  eapply stored_trans; [exact Hs1 | by eapply Hk].
Qed.

Ltac shrinking_step :=
  repeat match goal with
  | |- shrinking (bind _ _) => apply shrinking_bind; [|intros ?]
  | |- shrinking (on_tokens (command _) _) => apply shrinking_tokens; [|intros ?]
  | |- shrinking (on_tokens (GETDEL _) _) => apply shrinking_tokens; [|intros ?]
  | |- shrinking (on_tokens (GET _) _) => apply shrinking_tokens; [|intros ?]
  | |- shrinking (on_tokens (DEL _) _) => apply shrinking_tokens; [|intros ?]
  | |- shrinking (match ?x with _ => _ end) => destruct x
  | |- shrinking _ => apply shrinking_silent; solve [silent_step; auto using silent_limited, silent_record, silent_reset, silent_sign_in, silent_ret]
  | |- shrinks _ => auto using shrinks_getdel, shrinks_get, shrinks_del
  end.

Lemma shrinking_login e body : shrinking (login (G:=G) sha256_hex pttl_ms ttl_s h e body).
Proof. unfold login, login_check, read_code, login_as, clear_code. shrinking_step. Qed.
Lemma shrinking_reset e body : shrinking (reset (G:=G) pwdPolicy config HashPassword CheckPassword e body).
Proof. unfold reset, consumeReset. shrinking_step. Qed.
Lemma shrinking_callback e token : shrinking (callback (G:=G) h e token).
Proof. unfold callback, consumeMagic. shrinking_step. Qed.
Lemma shrinking_verify ctx token : shrinking (verify (G:=G) lower EqualFold h ctx token).
Proof. unfold verify, consumeVerify, mark_verified. shrinking_step. Qed.
Lemma shrinking_profile ctx caller : shrinking (getProfile (G:=G) ctx caller).
Proof. unfold getProfile. shrinking_step. Qed.
Lemma shrinking_put ctx caller body : shrinking (updateProfile (G:=G) lower ctx caller body).
Proof. unfold updateProfile. shrinking_step. Qed.
Lemma shrinking_avatar ctx caller body : shrinking (updateAvatar (G:=G) lower ctx caller body).
Proof. unfold updateAvatar. shrinking_step. Qed.

Lemma stored_nil iss s s' : stored_from [] s s' -> stored_from iss s s'.
Proof. intros [Hc H]. split; [done|]. intros k x Hx. destruct (H k x Hx) as [?|(i & Hi & _)]; [by left | by apply not_elem_of_nil in Hi]. Qed.

Lemma serve_stored q e s s' r : serve q e s = (s', r) -> stored_from (issues q e s) s s'.
Proof.
  destruct q; cbn [Portal.serve]; intros Hr;
    first [ by eapply stored_forgot in Hr | by eapply stored_magic in Hr | by eapply stored_sms in Hr
          | by eapply stored_sendVerification in Hr | apply stored_nil ].
  - by eapply shrinking_reset.
  - by eapply shrinking_callback.
  - by eapply shrinking_login.
  - by eapply shrinking_verify.
  - by eapply shrinking_profile.
  - by eapply shrinking_put.
  - by eapply shrinking_avatar.
Qed.

(** ** A link that was read is gone *)

(** The key of the link a request presents. *)
Definition presents (q : Req) : option string :=
  match q with
  | Reset' (Some (tok, _)) => Some (pwdResetKeyPrefix +:+ tok)
  | Callback tok => if bool_decide (tok = ""%string) then None else Some (magicLinkKeyPrefix +:+ tok)
  | Verify _ tok => if bool_decide (tok = ""%string) then None else Some (verifyKeyPrefix +:+ tok)
  | _ => None
  end.

Lemma getdel_ok k (r r' : Redis string) v :
  GETDEL k r = (r', Ok v) ->
  rclock r' = rclock r /\ rkeys r' = delete k (rkeys r) /\ exists d, peek (rkeys r) (rclock r) k = Some (mkRKey (RStr v) d).
Proof.
  intros Hg. apply command_inv in Hg as (Hc & _ & [[Hk Hv]|(Hv & _)]); [|done]. split; [done|]. unfold getdel_f in *.
  destruct (peek (rkeys r) (rclock r) k) as [[[v'| |] d]|]; simplify_eq/=; eauto.
Qed.

(** A request that consumes [k] and goes on with something shrinking. *)
Lemma consumed k (m : res RErr string -> M St NoError Answer) s s' r v :
  (forall x, shrinking (m x)) -> on_tokens (GETDEL k) m s = (s', r) -> (GETDEL k (ptokens s)).2 = Ok v -> store s' !! k = None.
Proof.
  intros Hm Hr Hv. apply on_tokens_inv in Hr as (s1 & x & Hg & _ & _ & Hr). rewrite Hg in Hv. cbn in Hv. subst x.
  apply getdel_ok in Hg as (_ & Hk & _). apply Hm in Hr as [_ Hr]. destruct (store s' !! k) as [y|] eqn:Hy; [|done].
  destruct (Hr _ _ Hy) as [H1|(i & Hi & _)]; [rewrite Hk, lookup_delete_eq in H1; done | by apply not_elem_of_nil in Hi].
Qed.

Lemma bind_tokens {A B C} (m : M _ RErr A) (k : res RErr A -> B) (f : B -> M St NoError C) s :
  bind (on_tokens m (fun r => ret (k r))) f s = on_tokens m (fun r => f (k r)) s.
Proof. unfold bind, on_tokens, ret. by destruct (m (ptokens s)). Qed.

Lemma serve_consumes q e s s' r k v :
  presents q = Some k -> serve q e s = (s', r) -> (GETDEL k (ptokens s)).2 = Ok v -> store s' !! k = None.
Proof.
  destruct q as [| [[tok pw]|] | |tok| | | |ctx tok| | |]; cbn [presents Portal.serve]; try done;
    try case_bool_decide; intros; simplify_eq.
  - unfold reset, consumeReset in *. rewrite bind_tokens in *. eapply consumed; [|done..]. intros x. shrinking_step.
  - unfold callback, consumeMagic in *. rewrite bool_decide_eq_false_2 in * by done. rewrite bind_tokens in *.
    eapply consumed; [|done..]. intros x. shrinking_step.
  - unfold verify, consumeVerify, mark_verified in *. rewrite bool_decide_eq_false_2 in * by done. rewrite bind_tokens in *.
    eapply consumed; [|done..]. intros x. shrinking_step.
Qed.

(** ** Histories *)

Record Entry : Type := mkEntry { at_state : St; req : Req; env : ReqEnv; answer : Answer }.

(** Rows are stored by their id; ids are BIGINT columns, and int64 in the session. *)
Definition typed (q : Req) (s : St) : Prop :=
  (forall id u, users (sdb (pdom s)) !! id = Some u -> u_ID u = id /\ in_int64 id)
  /\ match q with SendVerification _ (Some u) => in_int64 u | _ => True end.

Inductive reach : list Entry -> St -> Prop :=
| reach_start s : store s = ∅ -> reach [] s
| reach_serve hist s q e s' a : reach hist s -> typed q s -> serve q e s = (s', Ok a) -> reach (mkEntry s q e a :: hist) s'
| reach_meanwhile hist s s' : reach hist s -> store s' = store s -> clock s <= clock s' -> reach hist s'.

(** The link that an answer honours. *)
Definition honoured (q : Req) (a : Answer) : option string :=
  match q, a with
  | Reset' (Some (tok, _)), Done => Some (pwdResetKeyPrefix +:+ tok)
  | Callback tok, Redirect _ (Some _) => Some (magicLinkKeyPrefix +:+ tok)
  | Verify _ tok, (Done | Redirect _ _) => Some (verifyKeyPrefix +:+ tok)
  | _, _ => None
  end.

(** What honouring a link issued as [i] does: to the account it was issued for. *)
Definition effect (q : Req) (e : ReqEnv) (i : Secret) (s s' : St) : Prop :=
  match q with
  | Reset' (Some (_, newPassword)) =>
      portal_ResetPassword pwdPolicy config HashPassword CheckPassword (Some (i_tenant i)) (i_user i) newPassword (salt e) (pdom s) = (pdom s', Ok tt)
  | Callback _ =>
      exists sess, Session.Create (pSessionMgr h) (pSessionPolicy h) (newID e) NamespacePortal (i_user i) (i_tenant i) (clientIP e) (userAgent e)
                     "magic_link" (psessions s) = (psessions s', Ok sess)
  | Verify ctx _ =>
      exists w email, GetEmail ctx (i_user i) (pdom s) = (w, Ok email) /\ email <> ""%string /\ EqualFold email (i_to i) = true
        /\ MarkEmailVerified lower ctx (i_user i) w = (pdom s', Ok tt)
  | _ => False
  end.

(** What the code does with the value it read. *)
Definition acts (q : Req) (e : ReqEnv) (v : string) (s s' : St) : Prop :=
  match q with
  | Reset' (Some (_, newPassword)) =>
      let '(t, u) := reset_payload v in
      portal_ResetPassword pwdPolicy config HashPassword CheckPassword (if 0 <? t then Some t else None) u newPassword (salt e) (pdom s) = (pdom s', Ok tt)
  | Callback _ =>
      exists u t sess, scan_pair v = Some (u, t)
        /\ Session.Create (pSessionMgr h) (pSessionPolicy h) (newID e) NamespacePortal u t (clientIP e) (userAgent e) "magic_link" (psessions s) = (psessions s', Ok sess)
  | Verify ctx _ =>
      exists u to w email, verify_payload v = Some (u, to) /\ GetEmail ctx u (pdom s) = (w, Ok email) /\ email <> ""%string
        /\ EqualFold email to = true /\ MarkEmailVerified lower ctx u w = (pdom s', Ok tt)
  | _ => False
  end.

Lemma honoured_acts q e s s' a k :
  serve q e s = (s', Ok a) -> honoured q a = Some k ->
  presents q = Some k /\ exists v, (GETDEL k (ptokens s)).2 = Ok v /\ acts q e v s s'.
Proof.
  destruct q as [| [[tok pw]|] | |tok| | | |ctx tok| | |]; cbn [honoured Portal.serve acts presents]; try done; intros Hq Hh.
  - destruct a; try done. injection Hh as <-. split; [done|]. unfold reset, consumeReset in Hq. rewrite bind_tokens in Hq.
    apply on_tokens_inv in Hq as (s1 & x & Hg & Hd & _ & Hq). rewrite Hg. destruct x as [v|[]]; try done. exists v. split; [done|].
    destruct (reset_payload v) as [t u]. destruct (u =? 0); [done|].
    unfold on_dom in Hq. rewrite Hd in Hq. destruct (portal_ResetPassword _ _ _ _ _ _ _ _ _) as [w [[]|err]] eqn:Hp; [|destruct err; done].
    injection Hq as <-. done.
  - unfold callback in Hq. case_bool_decide as Htok; [by injection Hq as <- <-|]. destruct a as [| | | |loc [sid|]| |]; try done. injection Hh as <-.
    split; [done|]. unfold consumeMagic in Hq. rewrite bind_tokens in Hq.
    apply on_tokens_inv in Hq as (s1 & x & Hg & _ & Hss & Hq). rewrite Hg. destruct x as [v|]; [|done]. exists v. split; [done|].
    destruct (scan_pair v) as [[u t]|]; [|done]. unfold sign_in, on_sessions in Hq. rewrite Hss in Hq.
    destruct (Session.Create _ _ _ _ _ _ _ _ _ _) as [r [sess|]] eqn:Hcr; [|done]. unfold on_dom in Hq.
    destruct (portal_UpdateLastLogin _ _ _ _) as [w y]. injection Hq as <- _ _. by exists u, t, sess.
  - unfold verify in Hq. case_bool_decide as Htok; [by injection Hq as <- <-|].
    unfold consumeVerify in Hq. rewrite bind_tokens in Hq.
    apply on_tokens_inv in Hq as (s1 & x & Hg & Hd & _ & Hq).
    destruct x as [v|[]]; [|by injection Hq as <- <-..]. destruct (verify_payload v) as [[u to]|] eqn:Hv; [|by injection Hq as <- <-].
    unfold on_dom, mark_verified, on_dom in Hq. rewrite Hd in Hq. destruct (GetEmail ctx u (pdom s)) as [w [email|]] eqn:He; [|by injection Hq as <- <-].
    destruct (bool_decide _ || _) eqn:Hb; [by injection Hq as <- <-|]. cbn in Hq. apply orb_false_iff in Hb as [Hb1 Hb2].
    apply bool_decide_eq_false in Hb1. apply negb_false_iff in Hb2.
    destruct (MarkEmailVerified _ _ _ _) as [w' [[]|]] eqn:Hm; [|by injection Hq as <- <-].
    assert (k = verifyKeyPrefix +:+ tok) as -> by (destruct a; congruence). split; [done|]. exists v. split; [by rewrite Hg|].
    injection Hq as <- _. by exists u, to, w, email.
Qed.

Lemma honoured_gone q e s s' a k : serve q e s = (s', Ok a) -> honoured q a = Some k -> store s' !! k = None.
Proof.
  intros Hq Hh. destruct (honoured_acts _ _ _ _ _ _ Hq Hh) as (Hp & v & Hv & _). by eapply serve_consumes.
Qed.

(** What is stored was issued, and not presented since. *)
Lemma stored_was_issued hist s k x :
  reach hist s -> store s !! k = Some x ->
  exists after en before i, hist = after ++ en :: before /\ typed (req en) (at_state en)
    /\ i ∈ issues (req en) (env en) (at_state en) /\ k = i_key i
    /\ x = mkRKey (RStr (i_val i)) (Some (clock (at_state en) + px (i_ttl i))) /\ clock (at_state en) <= clock s
    /\ Forall (fun en' => honoured (req en') (answer en') <> Some k) after.
Proof.
  induction 1 as [s Hs|hist s q e s' a Hr IH Ht Hq|hist s s' Hr IH Hst Hc]; intros Hx.
  - by rewrite Hs, lookup_empty in Hx.
  - pose proof (serve_stored _ _ _ _ _ Hq) as [Hc Hsto]. destruct (Hsto _ _ Hx) as [Hold|(i & Hi & -> & ->)].
    + destruct (IH Hold) as (after & en & before & i & -> & Hty & Hi & -> & -> & Hle & Hno).
      exists (mkEntry s q e a :: after), en, before, i. split_and!; try done; [lia|].
      constructor; [|done]. cbn. intros Hh. eapply honoured_gone in Hh; [|exact Hq]. congruence.
    + exists [], (mkEntry s q e a), hist, i. split_and!; try done; cbn; lia.
  - rewrite Hst in Hx. destruct (IH Hx) as (after & en & before & i & -> & Hty & Hi & -> & -> & Hle & Hno).
    exists after, en, before, i. split_and!; try done. lia.
Qed.

(** ** Lookups *)

(** The row of the live account [u] of tenant [t]. *)
Definition account (s : St) (t u : Z) (row : User) : Prop :=
  (exists id, users (sdb (pdom s)) !! id = Some row) /\ u_ID row = u /\ u_TenantID row = t /\ u_DeletedAt row = None.

Lemma found_row (P : option Z -> User -> bool) t (s : St) (u : Z) :
  (found_or_zero (scoped (Some t) (fun scope => first_user (P scope))) (pdom s)).2 = Ok u -> u <> 0 ->
  0 < t /\ exists row, (exists id, users (sdb (pdom s)) !! id = Some row) /\ u_ID row = u /\ P (Some t) row = true.
Proof.
  intros Hf Hu. unfold found_or_zero, scoped, attempt in Hf. destruct (Z.ltb_spec 0 t) as [Ht|]; [|done]. split; [done|].
  destruct (first_user_here (P (Some t)) (sdb (pdom s)) (pdom s) eq_refl) as [_ Hh].
  destruct (first_user (P (Some t)) (pdom s)) as [w [row|err]]; cbn in Hf, Hh; [|destruct err; cbn in Hf; simplify_eq].
  injection Hf as <-. destruct Hh as [Hin HP]. by exists row.
Qed.

Lemma lookup_email_row t email (s : St) u :
  (LookupByEmail (Some t) t email (pdom s)).2 = Ok u -> u <> 0 ->
  0 < t /\ exists row, account s t u row /\ u_Email row = Some email.
Proof.
  intros Hf Hu. unfold LookupByEmail, GetByEmail in Hf.
  apply (found_row (fun scope row => user_live scope row && (u_TenantID row =? t) && bool_decide (u_Email row = Some email))) in Hf
    as (Ht & row & Hin & Hid & HP); [|done].
  split; [done|]. exists row. unfold user_live in HP. to_prop. unfold account. naive_solver lia.
Qed.

Lemma get_email_row ctx u (s : St) email :
  (GetEmail ctx u (pdom s)).2 = Ok email -> email <> ""%string ->
  exists row, users (sdb (pdom s)) !! u = Some row /\ u_DeletedAt row = None /\ u_Email row = Some email.
Proof.
  unfold GetEmail, user_by_id, scoped, bind. intros Hf He.
  destruct ctx as [t|]; [|done]. destruct (0 <? t); [|done].
  unfold repo_GetByID, bind in Hf. rewrite select_run in Hf. destruct (sfail (pdom s) (scalls (pdom s))); [done|].
  destruct (users (sdb (pdom s)) !! u) as [row|]; [|done]. destruct (user_live (Some t) row) eqn:Hl; [|done].
  cbn in Hf. injection Hf as <-. exists row. unfold user_live in Hl. to_prop. split_and!; [done..|].
  by destruct (u_Email row).
Qed.

(** Who a link was issued for: the account with the address it is sent to. *)
Definition owner (i : Secret) (s : St) : Prop :=
  exists row, users (sdb (pdom s)) !! i_user i = Some row /\ u_DeletedAt row = None /\ u_Email row = Some (i_to i).

Context (tenants_fit : forall code, in_int64 (resolveTenant h code)).

Lemma prefix_ne (p q a b : string) : HasPrefix (p +:+ a) q = false -> p +:+ a <> q +:+ b.
Proof. intros Hp Heq. by rewrite Heq, HasPrefix_app in Hp. Qed.

(** The value stored for a link leads back to the account. *)
Lemma issue_effect q q0 e e0 i s0 s s' :
  i ∈ issues q0 e0 s0 -> typed q0 s0 -> presents q = Some (i_key i) -> acts q e (i_val i) s s' ->
  effect q e i s s' /\ owner i s0.
Proof.
  intros Hi [Hfit Hcaller] Hp Ha. unfold issues in Hi.
  destruct (drawn e0) as [x|]; [|by apply not_elem_of_nil in Hi].
  destruct q0 as [[[raw tenant]|]| |[[raw tenant]|]| |[[raw tenant]|]| |ctx0 [u0|]| | | |]; try (by apply not_elem_of_nil in Hi).
  - destruct (LookupByEmail _ _ _ _).2 as [u|] eqn:Hl; [|by apply not_elem_of_nil in Hi].
    destruct (Z.eqb_spec u 0) as [|Hu]; [by apply not_elem_of_nil in Hi|]. apply list_elem_of_singleton in Hi as ->. cbn [i_key i_val i_tenant i_user i_to] in *.
    destruct (lookup_email_row _ _ _ _ Hl Hu) as (Ht & row & ((id & Hin) & Hid & _ & Hdel) & Hem).
    destruct (Hfit _ _ Hin) as [Hkey Hint]. rewrite Hkey in Hid. subst id. split; [|exists row; eauto].
    destruct q as [| [[tok pw]|] | |tok| | | |ctx tok| | |]; cbn [presents] in Hp; try done; try case_bool_decide; simplify_eq.
    cbn [acts effect i_tenant i_user] in *. rewrite reset_payload_dec in Ha by eauto.
    by rewrite (proj2 (Z.ltb_lt _ _) Ht) in Ha.
  - destruct (LookupByEmail _ _ _ _).2 as [u|] eqn:Hl; [|by apply not_elem_of_nil in Hi].
    destruct (Z.eqb_spec u 0) as [|Hu]; [by apply not_elem_of_nil in Hi|]. apply list_elem_of_singleton in Hi as ->. cbn [i_key i_val i_tenant i_user i_to] in *.
    destruct (lookup_email_row _ _ _ _ Hl Hu) as (Ht & row & ((id & Hin) & Hid & _ & Hdel) & Hem).
    destruct (Hfit _ _ Hin) as [Hkey Hint]. rewrite Hkey in Hid. subst id. split; [|exists row; eauto].
    destruct q as [| [[tok pw]|] | |tok| | | |ctx tok| | |]; cbn [presents] in Hp; try done; try case_bool_decide; simplify_eq.
    cbn [acts effect i_tenant i_user] in *. destruct Ha as (u' & t' & sess & Hsc & Hcr).
    rewrite scan_pair_dec in Hsc by eauto. injection Hsc as <- <-. eauto.
  - exfalso. destruct (LookupByPhone _ _ _ _).2 as [u|]; [|by apply not_elem_of_nil in Hi].
    destruct (Z.eqb_spec u 0) as [|Hu]; [by apply not_elem_of_nil in Hi|].
    destruct q as [| [[tok pw]|] | |tok| | | |ctx tok| | |]; cbn [presents] in Hp; try done; try case_bool_decide; try done;
      apply elem_of_cons in Hi as [->|Hi]; cbn in Hp; try done; apply list_elem_of_singleton in Hi as ->; done.
  - destruct (GetEmail _ _ _).2 as [email|] eqn:Hl; [|by apply not_elem_of_nil in Hi].
    case_bool_decide as He; [by apply not_elem_of_nil in Hi|]. apply list_elem_of_singleton in Hi as ->. cbn [i_key i_val i_tenant i_user i_to] in *.
    destruct (get_email_row _ _ _ _ Hl He) as (row & Hin & Hdel & Hem). split; [|exists row; eauto].
    destruct q as [| [[tok pw]|] | |tok| | | |ctx tok| | |]; cbn [presents] in Hp; try done; try case_bool_decide; simplify_eq.
    cbn [acts effect i_tenant i_user i_to] in *. destruct Ha as (u' & to & w & em & Hpay & Hge & Hne & Hfold & Hm).
    rewrite verify_payload_dec in Hpay by done. injection Hpay as <- <-. eauto 8.
Qed.

(** C26: whatever requests were served before, whichever commands and statements failed and
    whatever else changed, a link that is honoured (a password reset, a session opened, an
    address marked as verified) was drawn for an earlier request less than its lifetime ago,
    when the account had the address the link was sent to; it acts on that account, and was
    not honoured since it was drawn. *)
Theorem honoured_link_is_genuine hist s q e s' a k :
  reach hist s -> serve q e s = (s', Ok a) -> honoured q a = Some k ->
  exists after en before i, hist = after ++ en :: before /\ i ∈ issues (req en) (env en) (at_state en) /\ k = i_key i
    /\ owner i (at_state en) /\ clock (at_state en) <= clock s < clock (at_state en) + i_ttl i
    /\ Forall (fun en' => honoured (req en') (answer en') <> Some k) after /\ effect q e i s s'.
Proof.
  intros Hr Hq Hh. destruct (honoured_acts _ _ _ _ _ _ Hq Hh) as (Hp & v & Hv & Ha).
  destruct (GETDEL k (ptokens s)) as [r' x] eqn:Hg. cbn in Hv. subst x.
  apply getdel_ok in Hg as (_ & _ & d & Hpk). apply peek_Some in Hpk as [Hst Hal].
  destruct (stored_was_issued _ _ _ _ Hr Hst) as (after & en & before & i & Hhist & Hty & Hi & -> & Hx & Hle & Hno).
  injection Hx as Hval Hd. destruct (issue_effect q (req en) e (env en) i (at_state en) s s') as [Heff Hown]; [done..|by rewrite <- Hval|].
  exists after, en, before, i. split_and!; try done.
  rewrite Hd in Hal. cbn in Hal. apply Z.ltb_lt in Hal.
  assert (0 < i_ttl i /\ px (i_ttl i) <= i_ttl i) as [_ Hpx]; [|lia].
  assert (Millisecond <= i_ttl i); [|split; [|apply px_le]; unfold Millisecond in *; lia].
  clear -Hi. unfold issues in Hi. repeat case_match; try (by apply not_elem_of_nil in Hi);
    repeat (apply elem_of_cons in Hi as [->|Hi]; [done|]); by apply not_elem_of_nil in Hi.
Qed.
End History.

#[export] Hint Resolve silent_ret silent_bind silent_dom silent_limits silent_sessions silent_deliver silent_publish : mxid.
Ltac silent_step :=
  repeat match goal with
  | |- silent (bind _ _) => apply silent_bind; [|intros ?]
  | |- silent (on_dom _ _) => apply silent_dom; intros ?
  | |- silent (on_limits _ _) => apply silent_limits; intros ?
  | |- silent (on_sessions _ _) => apply silent_sessions; intros ?
  | |- silent (match ?x with _ => _ end) => destruct x
  | |- silent _ => solve [auto with mxid]
  end.
