(* ===== verification/PortalPrivacy.v ===== *)
(** * PortalPrivacy: what the answers of the portal tell

    Outside of development the secret that was drawn is in no answer; asking for a link says
    nothing about the accounts there are; and a secret is only handed over for the address
    it was asked for. *)

From Stdlib Require Import Ascii.
From S2P Require Import Redis Session SessionProps RateLimit.
From S2P Require Import Prelude Statements Text User Portal PortalProps.

#[global] Open Scope Z_scope.

Section Privacy.
Context {G : Type} `{!IdGen G}.
Context (lower : string -> string) (pwdPolicy : option (Z -> PasswordPolicy)) (config : PasswordPolicy).
Context (HashPassword : string -> string -> option string) (CheckPassword : string -> string -> bool).
Context (ToLower : string -> string) (EqualFold : string -> string -> bool).
Context (sha256_hex : string -> string) (pttl_ms ttl_s : Z -> Z) (h : Handlers).

Abbreviation St := (@PState G).
Abbreviation Op := (M St NoError).
Abbreviation serve := (Portal.serve lower pwdPolicy config HashPassword CheckPassword ToLower EqualFold sha256_hex pttl_ms ttl_s h).
Context (release : devFallback h = false).

Lemma shown_nothing sent secret : shown h sent secret = ""%string.
Proof. unfold shown. by rewrite release, andb_false_r. Qed.

(** ** Two states that differ in links, messages and accounts *)

(** Two programs whose answers agree, run from states of which [R] holds, and after which
    [R] holds again. *)
Definition agree {A} (R : St -> St -> Prop) (m1 m2 : Op A) : Prop :=
  forall s1 s2, R s1 s2 -> (m1 s1).2 = (m2 s2).2 /\ R (m1 s1).1 (m2 s2).1.

Lemma agree_ret {A} R (a : A) : agree R (ret a) (ret a).
Proof. by intros s1 s2 HR. Qed.
Lemma agree_bind {A B} R (m1 m2 : Op A) (k1 k2 : A -> Op B) :
  agree R m1 m2 -> (forall a, agree R (k1 a) (k2 a)) -> agree R (bind m1 k1) (bind m2 k2).
Proof.
  intros Hm Hk s1 s2 HR. unfold bind. destruct (Hm s1 s2 HR) as [Heq HR'].
  destruct (m1 s1) as [t1 [a|[]]], (m2 s2) as [t2 x]. cbn in Heq, HR'. subst x. by apply Hk.
Qed.

(** *** The secret: states with the same accounts and limits, and the same commands to come *)

Definition but_links (s1 s2 : St) : Prop :=
  pdom s1 = pdom s2 /\ plimits s1 = plimits s2 /\ rfate (ptokens s1) = rfate (ptokens s2) /\ rcalls (ptokens s1) = rcalls (ptokens s2).

Lemma but_links_dom {A B} (m : M _ UErr A) (k1 k2 : res UErr A -> Op B) :
  (forall r, agree but_links (k1 r) (k2 r)) -> agree but_links (on_dom m k1) (on_dom m k2).
Proof.
  intros Hk s1 s2 (Hd & Hl & Hf & Hc). unfold on_dom. rewrite Hd. destruct (m (pdom s2)) as [w r]. by apply Hk.
Qed.
Lemma but_links_limits {A B} (m : M _ RErr A) (k1 k2 : res RErr A -> Op B) :
  (forall r, agree but_links (k1 r) (k2 r)) -> agree but_links (on_limits m k1) (on_limits m k2).
Proof.
  intros Hk s1 s2 (Hd & Hl & Hf & Hc). unfold on_limits. rewrite Hl. destruct (m (plimits s2)) as [w r]. by apply Hk.
Qed.
Lemma but_links_set {B} k v k' v' ttl (k1 k2 : res RErr unit -> Op B) :
  (forall r, agree but_links (k1 r) (k2 r)) -> agree but_links (on_tokens (SET k v ttl) k1) (on_tokens (SET k' v' ttl) k2).
Proof.
  intros Hk s1 s2 (Hd & Hl & Hf & Hc). unfold on_tokens, SET, command. cbn. rewrite Hf, Hc.
  destruct (rfate (ptokens s2) (rcalls (ptokens s2))); apply Hk; split_and!; cbn; congruence.
Qed.
Lemma but_links_deliver e1 e2 msg1 msg2 : delivered e1 = delivered e2 -> agree but_links (deliver e1 msg1) (deliver e2 msg2).
Proof. intros He s1 s2 HR. cbn. by rewrite He. Qed.
End Privacy.

Ltac agree_step :=
  repeat match goal with
  | |- agree _ (ret _) (ret _) => apply agree_ret
  | |- agree _ (bind _ _) (bind _ _) => apply agree_bind; [|intros ?]
  | |- agree _ (on_dom _ _) (on_dom _ _) => apply but_links_dom; intros ?
  | |- agree _ (on_limits _ _) (on_limits _ _) => apply but_links_limits; intros ?
  | |- agree _ (on_tokens (SET _ _ _) _) (on_tokens (SET _ _ _) _) => apply but_links_set; intros ?
  | |- agree _ (deliver _ _) (deliver _ _) => apply but_links_deliver
  | |- agree _ (match ?x with _ => _ end) (match ?x with _ => _ end) => destruct x
  | |- agree _ (match ?x with _ => _ end _) (match ?x with _ => _ end _) => destruct x
  end.

(** The same request with another draw. *)
Definition with_drawn (x : string) (e : ReqEnv) : ReqEnv :=
  mkReqEnv (Some x) (enabled e) (delivered e) (newID e) (clientIP e) (userAgent e) (salt e).

Section Answers.
Context {G : Type} `{!IdGen G}.
Context (lower : string -> string) (pwdPolicy : option (Z -> PasswordPolicy)) (config : PasswordPolicy).
Context (HashPassword : string -> string -> option string) (CheckPassword : string -> string -> bool).
Context (ToLower : string -> string) (EqualFold : string -> string -> bool).
Context (sha256_hex : string -> string) (pttl_ms ttl_s : Z -> Z) (h : Handlers).

Abbreviation St := (@PState G).
Abbreviation serve := (Portal.serve lower pwdPolicy config HashPassword CheckPassword ToLower EqualFold sha256_hex pttl_ms ttl_s h).
Context (release : devFallback h = false).

Lemma but_links_refl (s : St) : but_links s s.
Proof. done. Qed.

Ltac hide := unfold throttled, rateLimited, recordFailure, mail, names_of, with_drawn; cbn [drawn enabled]; agree_step;
             try done; rewrite ?(shown_nothing h release); apply agree_ret.

Lemma hide_forgot e x y body :
  agree but_links (forgot (G:=G) ToLower sha256_hex pttl_ms ttl_s h (with_drawn x e) body)
                  (forgot ToLower sha256_hex pttl_ms ttl_s h (with_drawn y e) body).
Proof. unfold forgot, forgot_for. hide. Qed.
Lemma hide_magic e x y body :
  agree but_links (magic_send (G:=G) ToLower sha256_hex pttl_ms ttl_s h (with_drawn x e) body)
                  (magic_send ToLower sha256_hex pttl_ms ttl_s h (with_drawn y e) body).
Proof. unfold magic_send, magic_for. hide. Qed.
Lemma hide_verification e x y ctx caller :
  agree but_links (sendVerification (G:=G) h (with_drawn x e) ctx caller) (sendVerification h (with_drawn y e) ctx caller).
Proof. unfold sendVerification. hide. Qed.
Lemma hide_sms_for e x y t u phone :
  agree but_links (sms_for (G:=G) h (with_drawn x e) t u phone) (sms_for h (with_drawn y e) t u phone).
Proof. unfold sms_for. hide. Qed.
Lemma hide_sms e x y body (s : St) : (sms_send h (with_drawn x e) body s).2 = (sms_send h (with_drawn y e) body s).2.
Proof.
  unfold sms_send, on_tokens. cbn [with_drawn enabled]. destruct (negb (enabled e)); [done|]. destruct body as [[raw tenant]|]; [|done].
  destruct (command _ _) as [r z]. set (s1 := mkPState _ _ _ _ _ _).
  refine (proj1 ((_ : agree but_links _ _) s1 s1 (but_links_refl s1))). agree_step. apply hide_sms_for.
Qed.

(** In a release build no answer depends on the secret that was drawn for a request: a
    link or a code reaches the client only through the mail or SMS service, whether that
    works or not. *)
Theorem answers_hide_secrets q e x y (s : St) : (serve q (with_drawn x e) s).2 = (serve q (with_drawn y e) s).2.
Proof.
  destruct q; cbn [Portal.serve]; try done.
  - exact (proj1 (hide_forgot _ _ _ _ s s (but_links_refl s))).
  - exact (proj1 (hide_magic _ _ _ _ s s (but_links_refl s))).
  - apply hide_sms.
  - exact (proj1 (hide_verification _ _ _ _ _ s s (but_links_refl s))).
Qed.

(** ** Accounts *)

(** States the outside cannot tell apart by asking for links: the same limits, and a store
    that answers. *)
Definition blind (s1 s2 : St) : Prop := plimits s1 = plimits s2 /\ fine (ptokens s1) /\ fine (ptokens s2).

(** A program that keeps the limits and a store that answers, and says [a]. *)
Definition says (a : Answer) (m : M St NoError Answer) : Prop :=
  forall s, fine (ptokens s) -> (m s).2 = Ok a /\ plimits (m s).1 = plimits s /\ fine (ptokens (m s).1).

Lemma says_ret a : says a (ret a).
Proof. by intros s Hs. Qed.
Lemma says_dom {A} a (m : M _ UErr A) (k : res UErr A -> M St NoError Answer) : (forall r, says a (k r)) -> says a (on_dom m k).
Proof.
  intros Hk s Hs. unfold on_dom. destruct (m (pdom s)) as [w r].
  exact (Hk r (mkPState w (plimits s) (ptokens s) (psessions s) (outbox s) (profile_events s)) Hs).
Qed.
Lemma says_set a k v ttl (f : res RErr unit -> M St NoError Answer) : says a (f (Ok tt)) -> says a (on_tokens (SET k v ttl) f).
Proof.
  intros Hf s Hs. unfold on_tokens, SET. rewrite (command_fine _ _ Hs). cbn [set_f snd fst].
  refine (Hf (mkPState _ _ (mkRedis _ _ _ _) _ _ _) _). exact Hs.
Qed.
Lemma says_mail a e ctx u fb msg (f : bool -> M St NoError Answer) : (forall b, says a (f b)) -> says a (bind (mail h e ctx u fb msg) f).
Proof.
  intros Hf s Hs. unfold mail, names_of, bind. destruct (has_mailer h); [|by apply Hf].
  unfold on_dom. destruct (user_by_id ctx u (pdom s)) as [w [row|err]]; cbn;
    refine (Hf _ (mkPState _ _ _ _ _ _) _); exact Hs.
Qed.

Lemma says_forgot_for e x t u email : drawn e = Some x -> says (Sent pwdResetTTL "") (forgot_for h e t u email).
Proof.
  intros He. unfold forgot_for. rewrite He. apply says_set, says_mail. intros b. rewrite (shown_nothing h release). apply says_ret.
Qed.
Lemma says_magic_for e x t u email tenant : drawn e = Some x -> says (Sent magicLinkTTL "") (magic_for h e t u email tenant).
Proof.
  intros He. unfold magic_for. rewrite He. apply says_set, says_mail. intros b. rewrite (shown_nothing h release). apply says_ret.
Qed.

Lemma blind_throttled l id a (k1 k2 : M St NoError Answer) :
  says a k1 -> says a k2 -> agree blind (throttled sha256_hex pttl_ms ttl_s l id k1) (throttled sha256_hex pttl_ms ttl_s l id k2).
Proof.
  intros H1 H2 s1 s2 (Hl & Hf1 & Hf2).
  assert (forall s1 s2 : St, plimits s1 = plimits s2 -> fine (ptokens s1) -> fine (ptokens s2) ->
    (k1 s1).2 = (k2 s2).2 /\ blind (k1 s1).1 (k2 s2).1) as Hk.
  { clear -H1 H2. intros s1 s2 Hl Hf1 Hf2. destruct (H1 s1 Hf1) as (-> & Hp1 & Hg1), (H2 s2 Hf2) as (-> & Hp2 & Hg2).
    split; [done|]. unfold blind. by rewrite Hp1, Hp2. }
  unfold throttled, rateLimited, recordFailure, on_limits, bind, ret. destruct l as [cfg|]; [|by apply Hk].
  rewrite Hl. destruct (Check _ _ _ _ _) as [r1 x1]. destruct (match x1 with Ok x => x | Err _ => _ end); [done|]. cbn [plimits].
  destruct (RecordFailure _ _ _ _ _) as [r2 x2]. destruct (match x2 with Ok x => x | Err _ => _ end); [done|]. by apply Hk.
Qed.

(** C27: in a release build, and as long as the store answers, asking for a reset link or a
    sign-in link is answered the same whatever accounts there are, whether the address is
    known, the lookup fails or the mail cannot be sent; and it leaves limits by which later
    answers cannot differ either. *)
Theorem answers_hide_accounts q e1 e2 (s1 s2 : St) :
  (exists body, q = Forgot body \/ q = MagicSend body) ->
  drawn e1 <> None -> drawn e2 <> None -> enabled e1 = enabled e2 -> blind s1 s2 ->
  (serve q e1 s1).2 = (serve q e2 s2).2 /\ blind (serve q e1 s1).1 (serve q e2 s2).1.
Proof.
  intros (body & Hq) H1 H2 He HR. destruct (drawn e1) as [x|] eqn:D1; [|done]. destruct (drawn e2) as [y|] eqn:D2; [|done].
  revert s1 s2 HR. destruct Hq as [-> | ->]; cbn [Portal.serve].
  - unfold forgot. destruct body as [[raw tenant]|]; [|by intros s1 s2 HR].
    apply (blind_throttled _ _ (Sent pwdResetTTL "")); apply says_dom; intros [u|]; try apply says_ret;
      (destruct (u =? 0); [apply says_ret | by eapply says_forgot_for]).
  - unfold magic_send. rewrite He. destruct (negb (enabled e2)); [by intros s1 s2 HR|]. destruct body as [[raw tenant]|]; [|by intros s1 s2 HR].
    apply (blind_throttled _ _ (Sent magicLinkTTL "")); apply says_dom; intros [u|]; try apply says_ret;
      (destruct (u =? 0); [apply says_ret | by eapply says_magic_for]).
Qed.
End Answers.
