(* ===== verification/PortalCodes.v ===== *)
(** * PortalCodes: guessing a texted code

    A wrong code stays counted against the phone; the guess that reaches the limit locks it,
    and a locked phone is refused with the right code too. *)

From Stdlib Require Import Ascii.
From S2P Require Import Redis Session SessionProps RateLimit.
From S2P Require Import Prelude Statements Text User Portal PortalProps.

#[global] Open Scope Z_scope.

Section Codes.
Context {G : Type} `{!IdGen G}.
Context (sha256_hex : string -> string) (pttl_ms ttl_s : Z -> Z) (h : Handlers) (cfg : Config).
Context (pttl_pos : forall d, Millisecond <= d -> 0 < pttl_ms d) (ttl_pos : forall d, Second <= d -> 0 < ttl_s d).
Context (limiter : smsLimiter h = Some cfg) (cfg_ok : config_ok cfg).

Abbreviation St := (@PState G).
Abbreviation sms_login := (login (G:=G) sha256_hex pttl_ms ttl_s h).
Abbreviation id_of phone := ("phone:" +:+ phone)%string.
Abbreviation ctr phone := (counterKey sha256_hex cfg (id_of phone)).
Abbreviation lck phone := (lockKey sha256_hex cfg (id_of phone)).

(** The clocks of the stores at time [t]. *)
Definition when (t : Z) (s : St) : St :=
  mkPState (pdom s) (at_time t (plimits s)) (at_time t (ptokens s)) (psessions s) (outbox s) (profile_events s).

(** [n] guesses were counted, in a window that ends at [d]. *)
Definition counted (phone : string) (n d : Z) (s : St) : Prop :=
  rkeys (plimits s) !! ctr phone = Some (mkRKey (RInt n) (Some d)) /\ rkeys (plimits s) !! lck phone = None.
Definition unlimited (phone : string) (s : St) : Prop :=
  rkeys (plimits s) !! ctr phone = None /\ rkeys (plimits s) !! lck phone = None.
Definition locked_until (phone : string) (d : Z) (s : St) : Prop :=
  rkeys (plimits s) !! lck phone = Some (mkRKey (RStr "1"%string) (Some d)).

Definition steady (s : St) : Prop := fine (plimits s) /\ fine (ptokens s).
(** The code is not the one that was sent to the phone, if there is one. *)
Definition wrong (phone code : string) (s : St) : Prop :=
  forall e, rkeys (ptokens s) !! (smsOTPKeyPrefix +:+ phone) = Some e -> exists v, rval e = RStr v /\ code_matches code v = None.

(** What a guess leaves alone. *)
Definition same_rest (s s' : St) : Prop :=
  pdom s' = pdom s /\ psessions s' = psessions s /\ rkeys (ptokens s') = rkeys (ptokens s) /\ outbox s' = outbox s /\ (steady s -> steady s').

Definition ticked (r : Redis string) : Redis string := mkRedis (rkeys r) (rclock r) (rfate r) (S (rcalls r)).

Lemma check_free phone r :
  fine r -> peek (rkeys r) (rclock r) (lck phone) = None -> Check sha256_hex ttl_s cfg (id_of phone) r = (ticked r, Ok None).
Proof.
  intros Hf Hp. unfold Check. rewrite bool_decide_eq_false_2 by done. unfold attempt. rewrite (command_fine _ _ Hf).
  unfold ttl_f, remaining. cbn [fst snd]. by rewrite Hp.
Qed.

Lemma check_locked phone d r :
  fine r -> rkeys r !! lck phone = Some (mkRKey (RStr "1"%string) (Some d)) -> rclock r + Second <= d ->
  exists rle, Check sha256_hex ttl_s cfg (id_of phone) r = (ticked r, Ok (Some rle)) /\ 0 < RetryAfter rle.
Proof.
  intros Hf Hk Hd. unfold Check. rewrite bool_decide_eq_false_2 by done. unfold attempt. rewrite (command_fine _ _ Hf).
  unfold ttl_f, remaining. cbn [fst snd].
  assert (peek (rkeys r) (rclock r) (lck phone) = Some (mkRKey (RStr "1"%string) (Some d))) as ->.
  { apply peek_Some. split; [done|]. cbn. apply Z.ltb_lt. unfold Second, Millisecond in *. lia. }
  cbn.
  pose proof (ttl_pos (d - rclock r) ltac:(lia)). assert (0 < ttl_s (d - rclock r) * Second) as Hpos by (unfold Second, Millisecond; lia).
  rewrite (proj2 (Z.ltb_lt _ _) Hpos). eexists. split; [done | exact Hpos].
Qed.

Lemma read_wrong phone code t s l :
  fine (ptokens s) -> wrong phone code s ->
  read_code phone code (mkPState (pdom s) l (at_time t (ptokens s)) (psessions s) (outbox s) (profile_events s))
  = (mkPState (pdom s) l (ticked (at_time t (ptokens s))) (psessions s) (outbox s) (profile_events s), Ok (Err TokenInvalid)).
Proof.
  intros Hft Hw. unfold read_code, on_tokens. cbn [ptokens]. unfold GET. rewrite (command_fine _ (at_time t (ptokens s)) Hft).
  unfold get_f. cbn [fst snd rkeys rclock at_time].
  destruct (peek (rkeys (ptokens s)) t (smsOTPKeyPrefix +:+ phone)) as [k|] eqn:Hp; [|done]. apply peek_Some in Hp as [Hk _].
  destruct (Hw _ Hk) as (v & Hv & Hm). destruct k as [kv kd]. cbn in Hv. subst kv. by rewrite Hm.
Qed.

(** A wrong guess reads, compares and records. *)
Lemma wrong_guess e phone code tenant t s r' x :
  enabled e = true -> steady s -> TrimSpace phone = phone -> wrong phone code s ->
  peek (rkeys (plimits s)) t (lck phone) = None ->
  RecordFailure sha256_hex pttl_ms cfg (id_of phone) (ticked (at_time t (plimits s))) = (r', Ok x) -> rfate r' = rfate (plimits s) ->
  exists s', sms_login e (Some (phone, code, tenant)) (when t s)
             = (s', Ok match x with Some rle => respondRateLimited rle | None => BadRequest NumInvalidInput end)
    /\ plimits s' = r' /\ same_rest s s'.
Proof.
  intros He [Hfl Hft] Htrim Hw Hlk Hrec Hfate. unfold login. rewrite He, Htrim. cbn [negb].
  set (s1 := mkPState (pdom s) (ticked (at_time t (plimits s))) (at_time t (ptokens s)) (psessions s) (outbox s) (profile_events s)).
  set (s2 := mkPState (pdom s) (ticked (at_time t (plimits s))) (ticked (at_time t (ptokens s))) (psessions s) (outbox s) (profile_events s)).
  set (s3 := mkPState (pdom s) r' (ticked (at_time t (ptokens s))) (psessions s) (outbox s) (profile_events s)).
  assert (rateLimited sha256_hex ttl_s (smsLimiter h) (id_of phone) (when t s) = (s1, Ok None)) as H1.
  { unfold rateLimited, on_limits. rewrite limiter, (check_free phone (plimits (when t s)) Hfl Hlk). done. }
  assert (read_code phone code s1 = (s2, Ok (Err TokenInvalid))) as H2 by (by apply read_wrong).
  assert (recordFailure sha256_hex pttl_ms (smsLimiter h) (id_of phone) s2 = (s3, Ok x)) as H3.
  { unfold recordFailure, on_limits. rewrite limiter. cbn [plimits s2]. by rewrite Hrec. }
  unfold login_check. erewrite bind_ok_run; [|erewrite bind_ok_run by exact H1; cbn beta iota; erewrite bind_ok_run by exact H2;
    cbn beta iota; erewrite bind_ok_run by exact H3; reflexivity].
  exists s3. split; [done|]. split; [done|].
  unfold same_rest, steady. cbn. split_and!; try done. intros _. split; [|done]. intros n. rewrite Hfate. apply Hfl.
Qed.

(** A locked phone is refused, whatever the code. *)
Lemma locked_guess e phone code tenant d t s :
  enabled e = true -> steady s -> TrimSpace phone = phone -> locked_until phone d s -> t + Second <= d ->
  exists s' retry, sms_login e (Some (phone, code, tenant)) (when t s) = (s', Ok (Error 429 NumTooManyAttempts (Some retry)))
    /\ same_rest s s' /\ locked_until phone d s'.
Proof.
  intros He [Hfl Hft] Htrim Hl Ht. unfold login. rewrite He, Htrim. cbn [negb].
  unfold login_check, rateLimited, on_limits, bind. rewrite limiter.
  destruct (check_locked phone d (plimits (when t s)) Hfl Hl Ht) as (rle & -> & Hpos). cbn.
  unfold respondRateLimited. rewrite (proj2 (Z.ltb_lt _ _) Hpos). eexists _, _. split; [done|]. done.
Qed.

(** The answers to guesses at their times, and the state after. *)
Fixpoint guesses (phone : string) (gs : list (Z * ReqEnv * string * string)) (s : St) : list (res NoError Answer) * St :=
  match gs with
  | [] => ([], s)
  | (t, e, code, tenant) :: gs' =>
      let '(s1, a) := sms_login e (Some (phone, code, tenant)) (when t s) in
      let '(l, s2) := guesses phone gs' s1 in (a :: l, s2)
  end.
Definition g_time (g : Z * ReqEnv * string * string) : Z := g.1.1.1.
Definition wrong_one (phone : string) (s : St) (g : Z * ReqEnv * string * string) : Prop :=
  enabled g.1.1.2 = true /\ wrong phone g.1.2 s.

Lemma wrong_later phone code s s' : same_rest s s' -> wrong phone code s -> wrong phone code s'.
Proof. intros (_ & _ & Hk & _) Hw. unfold wrong. by rewrite Hk. Qed.
Lemma wrong_all_later phone s s' gs : same_rest s s' -> Forall (wrong_one phone s) gs -> Forall (wrong_one phone s') gs.
Proof. intros Hs Hg. apply (Forall_impl _ _ _ Hg). intros g [He Hw]. split; [done | by eapply wrong_later]. Qed.
Lemma same_rest_trans s1 s2 s3 : same_rest s1 s2 -> same_rest s2 s3 -> same_rest s1 s3.
Proof. intros (?&?&?&?&?) (?&?&?&?&?). unfold same_rest. split_and!; try congruence. auto. Qed.

Definition refusal : res NoError Answer := Ok (BadRequest NumInvalidInput).

Lemma guesses_count phone early last n d s :
  steady s -> TrimSpace phone = phone -> counted phone n d s -> 0 < n ->
  n + Z.of_nat (length early) + 1 = MaxAttempts cfg -> Forall (wrong_one phone s) (early ++ [last]) ->
  Forall (fun g => g_time g < d) (early ++ [last]) ->
  exists s' retry, guesses phone (early ++ [last]) s = (replicate (length early) refusal ++ [Ok (Error 429 NumTooManyAttempts retry)], s')
    /\ locked_until phone (g_time last + lockout_ns cfg) s' /\ same_rest s s'.
Proof.
  intros Hs Htrim. revert n s Hs. induction early as [|[[[t e] code] tenant] early IH]; intros n s Hs [Hc Hl] Hn Hmax Hw Ht;
    cbn [app guesses length replicate].
  - destruct last as [[[t e] code] tenant]. apply Forall_inv in Hw as [He Hw]. apply Forall_inv in Ht. cbn in He, Hw, Ht |- *.
    assert (peek (rkeys (plimits s)) t (ctr phone) = Some (mkRKey (RInt n) (Some d))) as Hp by (apply peek_Some; split; [done | by apply Z.ltb_lt]).
    assert (peek (rkeys (plimits s)) t (lck phone) = None) as Hpl by (unfold peek; by rewrite Hl).
    destruct (record_trips sha256_hex pttl_ms cfg pttl_pos (id_of phone) (ticked (at_time t (plimits s)))
                (<[ctr phone := mkRKey (RInt (n + 1)) (Some d)]> (rkeys (plimits s))) (n + 1)) as (r' & Hr & Hlk & _ & Hfate); try done.
    + apply Hs.
    + cbn [length] in Hmax. lia.
    + unfold incr. cbn [rkeys rclock at_time ticked]. by rewrite Hp.
    + intros k Hk. by rewrite lookup_insert_ne.
    + edestruct wrong_guess as (s' & -> & Hpl' & Hrest); [done..|exact Hr|exact Hfate|].
      exists s'. eexists. split; [reflexivity|]. split; [|done]. unfold locked_until. by rewrite Hpl'.
  - apply Forall_cons in Hw as [[He Hw] Hws], Ht as [Ht Hts]. cbn in He, Hw, Ht.
    assert (peek (rkeys (plimits s)) t (ctr phone) = Some (mkRKey (RInt n) (Some d))) as Hp by (apply peek_Some; split; [done | by apply Z.ltb_lt]).
    assert (peek (rkeys (plimits s)) t (lck phone) = None) as Hpl by (unfold peek; by rewrite Hl).
    cbn [length] in Hmax.
    pose proof (record_counts sha256_hex pttl_ms cfg (id_of phone) (ticked (at_time t (plimits s))) n (Some d)
                  (proj1 Hs) ltac:(done) ltac:(lia) Hn Hp) as Hr.
    edestruct wrong_guess as (s1 & -> & Hpl1 & Hrest); [done..|exact Hr|done|].
    destruct (IH (n + 1) s1) as (s' & retry & -> & Hlk & Hrest'); [by apply Hrest| |lia|lia|by eapply wrong_all_later|done|].
    { split; rewrite Hpl1; cbn; [by rewrite lookup_insert_eq | rewrite lookup_insert_ne; [done | apply ctr_lck_ne]]. }
    exists s', retry. split_and!; [done|done|by eapply same_rest_trans].
Qed.

(** C28: as long as the stores answer, a phone with no guesses on record takes one wrong code
    less than the limit in a window; the next wrong one is answered with the lock, and until
    the last second of the lockout every attempt is refused, with the right code too,
    without a session and without using up the code. *)
Theorem code_guessing_is_bounded phone first early last s :
  steady s -> TrimSpace phone = phone -> unlimited phone s ->
  Z.of_nat (length early) + 2 = MaxAttempts cfg -> Forall (wrong_one phone s) (first :: early ++ [last]) ->
  Forall (fun g => g_time g < g_time first + window_ns cfg) (early ++ [last]) ->
  exists s' retry, guesses phone (first :: early ++ [last]) s
      = (replicate (S (length early)) refusal ++ [Ok (Error 429 NumTooManyAttempts retry)], s') /\ same_rest s s'
    /\ forall t e code tenant, enabled e = true -> t + Second <= g_time last + lockout_ns cfg ->
         exists s'' retry', sms_login e (Some (phone, code, tenant)) (when t s') = (s'', Ok (Error 429 NumTooManyAttempts (Some retry')))
           /\ same_rest s' s''.
Proof.
  intros Hs Htrim [Hc Hl] Hmax Hw Ht. destruct first as [[[t1 e1] code1] tenant1]. apply Forall_cons in Hw as [[He Hw] Hws]. cbn in He, Hw, Ht.
  cbn [guesses length replicate app].
  assert (peek (rkeys (plimits s)) t1 (lck phone) = None) as Hpl by (unfold peek; by rewrite Hl).
  pose proof (record_first sha256_hex pttl_ms cfg (id_of phone) (ticked (at_time t1 (plimits s)))
                (proj1 Hs) ltac:(done) cfg_ok ltac:(lia) ltac:(unfold peek; cbn; by rewrite Hc)) as Hr.
  edestruct wrong_guess as (s1 & -> & Hpl1 & Hrest); [done..|exact Hr|done|].
  destruct (guesses_count phone early last 1 (t1 + window_ns cfg) s1) as (s' & retry & -> & Hlk & Hrest');
    [by apply Hrest|done| |lia|lia|by eapply wrong_all_later|done|].
  { split; rewrite Hpl1; cbn; [by rewrite lookup_insert_eq | rewrite lookup_insert_ne; [done | apply ctr_lck_ne]]. }
  exists s', retry. split_and!; [done|by eapply same_rest_trans|]. intros t e code tenant He' Ht'.
  destruct (locked_guess e phone code tenant (g_time last + lockout_ns cfg) t s' He') as (s'' & retry' & -> & Hr'' & _);
    [by apply Hrest', Hrest|done|exact Hlk|done|]. eauto.
Qed.
End Codes.
