(* ===== verification/PortalRuns.v ===== *)
(** * PortalRuns: links and codes in use

    A small directory with its portal: runs of the flows, what they leave open, and the
    instances of the theorems about them. *)

From Stdlib Require Import Ascii.
From S2P Require Import Redis Session SessionProps RateLimit.
From S2P Require Import Prelude Statements Text User UserRevocation UserHttp UserRuns Portal PortalProps PortalPrivacy PortalCodes.

#[global] Open Scope Z_scope.

Module PortalDemo.
Definition lower : string -> string := UserDemo.lower.
Definition fold_eq (a b : string) : bool := bool_decide (lower a = lower b).
Definition sha_hex (s : string) : string := s.
Definition pttl (d : Z) : Z := d / Millisecond.
Definition ttl (d : Z) : Z := d / Second.
Definition limit : Config := mkConfig "sms_login" 3 (5 * Minute) (15 * Minute) false.
Definition handlers : Handlers :=
  mkHandlers "https://p" true true 1 None false (Some (mkConfig "pwd_reset_send" 5 (15 * Minute) (15 * Minute) false))
    (Some (mkConfig "magic_link_send" 5 (15 * Minute) (15 * Minute) false)) (Some limit) (mkManager Hour (24 * Hour) None None) None.

Definition account (id : Z) (name email phone : string) (status : Z) : User :=
  mkUser id 1 name (Some email) true None (Some phone) None None "h:old" status None None None false false false 0 0 None None None.
(** Alice, Dan who is disabled, and Eve whose address has a capital. *)
Definition tables : UserWorld Z :=
  mkUserWorld {[ 1 := account 1 "alice" "alice@x" "111111" StatusActive; 2 := account 2 "dan" "dan@x" "222222" StatusDisabled;
                 3 := account 3 "eve" "Eve@x" "333333" StatusActive ]} ∅ ∅ ∅ ∅ ∅ 100 50 [].
Definition up {V} (t : Z) : Redis V := mkRedis ∅ t (fun _ => Fine) 0.
Definition start : PState (G:=Z) := mkPState (mkStore tables (fun _ => false) 0) (up 0) (up 0) (up 0) [] [].
Definition env_of (x : string) : ReqEnv := mkReqEnv (Some x) true true "sid" "10.0.0.1" "ua" "salt".

Abbreviation run := (serve (G:=Z) lower None UserDemo.policy UserDemo.hash UserDemo.check lower fold_eq sha_hex pttl ttl handlers).
Definition after (q : Req) (e : ReqEnv) (s : PState) : PState := (run q e s).1.
Definition says (q : Req) (e : ReqEnv) (s : PState) : res NoError Answer := (run q e s).2.
Definition row (id : Z) (s : PState (G:=Z)) : option User := users (sdb (pdom s)) !! id.

Definition asked : PState := after (Forgot (Some ("alice@x", "")%string)) (env_of "tok") start.
Definition linked : PState := after (MagicSend (Some ("dan@x", "")%string)) (env_of "tok") start.
Definition texted : PState := after (SmsSend (Some ("222222", "")%string)) (env_of "123456") start.

(** A link and a code open a session for an account that is disabled: neither flow looks at
    the status of the account it signs in. *)
Theorem disabled_account_signs_in :
  says (Callback "tok") (env_of "") linked = Ok (Redirect "https://p/apps" (Some "sid"%string))
  /\ says (SmsLogin (Some ("222222", "123456", "")%string)) (env_of "") texted = Ok (SignedIn 2 "dan" "" "sid").
Proof. by vm_compute. Qed.

(** Two requests that both read the code before either clears it are both signed in. *)
Theorem code_signs_in_twice :
  let '(s1, c1) := login_check (G:=Z) sha_hex pttl ttl handlers "222222" "123456" texted in
  let '(s2, c2) := login_check sha_hex pttl ttl handlers "222222" "123456" s1 in
  c1 = Ok (inr 2) /\ c2 = Ok (inr 2)
  /\ let '(s3, a1) := login_as sha_hex handlers (env_of "") 1 2 "222222" s2 in
     a1 = Ok (SignedIn 2 "dan" "" "sid") /\ (login_as sha_hex handlers (env_of "") 1 2 "222222" s3).2 = Ok (SignedIn 2 "dan" "" "sid").
Proof. by vm_compute. Qed.

(** The cooldown is kept for known phones only: asking twice tells whether a phone has an
    account. *)
Theorem cooldown_tells_accounts :
  says (SmsSend (Some ("222222", "")%string)) (env_of "654321") texted = Ok (Error 429 NumTooManyAttempts None)
  /\ let q := SmsSend (Some ("999999", "")%string) in says q (env_of "1") start = Ok (Sent 300 "") /\ says q (env_of "2") (after q (env_of "1") start) = Ok (Sent 300 "").
Proof. by vm_compute. Qed.

(** The address of a request is put in lower case, the stored one is compared as it is: Eve
    is never sent a link. *)
Theorem capital_address_gets_no_link :
  outbox (after (Forgot (Some ("Eve@x", "")%string)) (env_of "tok") start) = [].
Proof. by vm_compute. Qed.

(** The account is read a second time when it is marked: a change of the address in between
    leaves the new address verified. *)
Definition verifying : PState := after (SendVerification (Some 1) (Some 1)) (env_of "tok") start.
Theorem new_address_is_verified :
  let '(s1, c) := consumeVerify (G:=Z) "tok" verifying in
  let s2 := after (PutProfile (Some 1) (Some 1) (Some ("", "111111", "mallory@x")%string)) (env_of "") s1 in
  c = Ok (Ok (1, "alice@x"%string)) /\ (GetEmail (Some 1) 1 (pdom s1)).2 = Ok "alice@x"%string
  /\ (u_EmailVerified <$> row 1 s2) = Some false
  /\ (mark_verified (G:=Z) lower handlers (Some 1) 1 s2).2 = Ok (Redirect "https://p/profile?email_verified=1" None)
  /\ (fun u => (u_Email u, u_EmailVerified u)) <$> row 1 (mark_verified lower handlers (Some 1) 1 s2).1 = Some (Some "mallory@x"%string, true).
Proof. by vm_compute. Qed.

(** A reset link still works after the address it was sent to was given up. *)
Theorem link_outlives_address :
  let s := after (PutProfile (Some 1) (Some 1) (Some ("", "111111", "new@x")%string)) (env_of "") asked in
  (u_Email <$> row 1 s) = Some (Some "new@x"%string) /\ says (Reset' (Some ("tok", "Secret1")%string)) (env_of "") s = Ok Done.
Proof. by vm_compute. Qed.

(** The callback has no tenant in its context, so the stamp of the last login fails; a code
    leaves one. *)
Theorem link_login_leaves_no_stamp :
  (u_LastLoginAt <$> row 2 (after (Callback "tok") (env_of "") linked)) = Some None
  /\ (u_LastLoginAt <$> row 2 (after (SmsLogin (Some ("222222", "123456", "")%string)) (env_of "") texted)) = Some (Some 50).
Proof. by vm_compute. Qed.

(** A code that was not cleared stays good: the error of DEL is dropped. *)
Definition stuck : PState (G:=Z) :=
  mkPState (pdom texted) (plimits texted) (mkRedis (rkeys (ptokens texted)) 0 (fun n => if (n =? S (rcalls (ptokens texted)))%nat then Refused else Fine) (rcalls (ptokens texted)))
    (psessions texted) (outbox texted) [].
Theorem failed_clear_keeps_code :
  let q := SmsLogin (Some ("222222", "123456", "")%string) in
  says q (env_of "") stuck = Ok (SignedIn 2 "dan" "" "sid") /\ says q (env_of "") (after q (env_of "") stuck) = Ok (SignedIn 2 "dan" "" "sid").
Proof. by vm_compute. Qed.

(** ** Instances of the theorems *)

Lemma tenants_fit code : in_int64 (resolveTenant handlers code).
Proof. unfold resolveTenant. case_bool_decide; done. Qed.

Lemma start_typed q : (forall ctx u, q <> SendVerification ctx (Some u)) -> typed q start.
Proof.
  intros Hq. split; [|destruct q as [| | | | | |ctx [u|]| | | |]; try done; by destruct (Hq ctx u)].
  assert (map_Forall (fun id u => u_ID u = id /\ in_int64 id) (users tables)) as H.
  { unfold tables, users. rewrite <- insert_empty. repeat apply map_Forall_insert_2; try done; apply map_Forall_empty. }
  exact H.
Qed.

Lemma link_genuine_witness :
  exists i, i_user i = 1 /\ i_to i = "alice@x"%string
    /\ effect lower None UserDemo.policy UserDemo.hash UserDemo.check fold_eq handlers (Reset' (Some ("tok", "Secret1")%string)) (env_of "") i asked
         (after (Reset' (Some ("tok", "Secret1")%string)) (env_of "") asked).
Proof.
  destruct (honoured_link_is_genuine (G:=Z) lower None UserDemo.policy UserDemo.hash UserDemo.check lower fold_eq sha_hex pttl ttl handlers tenants_fit
              [mkEntry start (Forgot (Some ("alice@x", "")%string)) (env_of "tok") (Sent 1800 "")] asked
              (Reset' (Some ("tok", "Secret1")%string)) (env_of "") (after (Reset' (Some ("tok", "Secret1")%string)) (env_of "") asked) Done "pwd_reset:tok")
    as (after0 & en & before & i & Hh & Hi & _ & _ & _ & _ & Heff).
  - apply reach_serve; [by apply reach_start | by apply start_typed | by vm_compute].
  - by vm_compute.
  - by vm_compute.
  - destruct after0 as [|? [|? ?]]; [|done|done]. injection Hh as <- <-. cbn [req env at_state] in Hi.
    assert (issues lower handlers (Forgot (Some ("alice@x", "")%string)) (env_of "tok") start
            = [mkSecret "pwd_reset:tok" "1:1" (1800 * Second) 1 1 "alice@x"]) as Hiss by (by vm_compute).
    rewrite Hiss in Hi. apply list_elem_of_singleton in Hi as ->. eexists. split; [|split; [|exact Heff]]; reflexivity.
Defined.

Lemma secrets_witness :
  says (Forgot (Some ("alice@x", "")%string)) (with_drawn "a" (env_of "")) start = says (Forgot (Some ("alice@x", "")%string)) (with_drawn "b" (env_of "")) start.
Proof. apply answers_hide_secrets. reflexivity. Defined.

Definition empty_tables : PState (G:=Z) :=
  mkPState (mkStore (mkUserWorld ∅ ∅ ∅ ∅ ∅ ∅ 100 50 []) (fun _ => false) 0) (up 0) (up 0) (up 0) [] [].
Lemma accounts_witness :
  says (Forgot (Some ("alice@x", "")%string)) (env_of "tok") start = says (Forgot (Some ("alice@x", "")%string)) (env_of "tok") empty_tables.
Proof.
  apply (answers_hide_accounts (G:=Z) lower None UserDemo.policy UserDemo.hash UserDemo.check lower fold_eq sha_hex pttl ttl handlers eq_refl
           (Forgot (Some ("alice@x", "")%string)) (env_of "tok") (env_of "tok") start empty_tables); [by eexists; left|done|done|done|done].
Defined.

Lemma pttl_positive d : Millisecond <= d -> 0 < pttl d.
Proof. unfold pttl, Millisecond. intros H. apply Z.div_str_pos. lia. Qed.
Lemma ttl_positive d : Second <= d -> 0 < ttl d.
Proof. unfold ttl, Second, Millisecond. intros H. apply Z.div_str_pos. lia. Qed.

Definition guess_of (t : Z) (code : string) : Z * ReqEnv * string * string := (t, env_of "", code, ""%string).
Lemma bounded_witness :
  exists s' retry, guesses sha_hex pttl ttl handlers "222222" [guess_of 0 "000000"; guess_of 1 "000001"; guess_of 2 "000002"] texted
                   = ([refusal; refusal; Ok (Error 429 NumTooManyAttempts retry)], s').
Proof.
  destruct (code_guessing_is_bounded (G:=Z) sha_hex pttl ttl handlers limit pttl_positive ttl_positive eq_refl ltac:(repeat split; discriminate)
              "222222" (guess_of 0 "000000") [guess_of 1 "000001"] (guess_of 2 "000002") texted) as (s' & retry & Hg & _).
  - split; intros n; reflexivity.
  - reflexivity.
  - split; reflexivity.
  - reflexivity.
  - assert (rkeys (ptokens texted) !! (smsOTPKeyPrefix +:+ "222222")%string = Some (mkRKey (RStr "2:123456"%string) (Some (300 * Second)))) as Hk by (by vm_compute).
    repeat constructor; try done; intros e; rewrite Hk; intros [= <-]; by eexists.
  - repeat constructor.
  - exists s', retry. exact Hg.
Defined.
End PortalDemo.
