(* ===== verification/Apps.v ===== *)
(** * Apps: applications, their secrets and signing keys, and the groups of them

    src/internal/domain/app: model.go, repository_impl.go, key_service.go, service.go and the
    requests of dto.go. The tables are those of the migrations 000004, 000010, 000018 and 000056
    with their constraints; an operation reads and writes them statement by statement. *)

From stdpp Require Import sorting.
From Stdlib Require Import Ascii.
From S2P Require Import Mfa.
From S2P Require Import Prelude Statements Text.
#[global] Open Scope Z_scope.

(** ** model.go *)

Definition ProtocolOIDC : string := "oidc".
Definition ProtocolSAML : string := "saml".
Definition ProtocolCAS : string := "cas".
Definition ProtocolForm : string := "form".
Definition AccessPolicyAll : Z := 1.
Definition ScopeTenant : Z := 1.
Definition ScopeShared : Z := 2.
Definition SubjectStrategyUsername : string := "username".
Definition SubjectStrategyUsernameSuffixed : string := "username_suffixed".
Definition SubjectStrategyPairwise : string := "pairwise".
Definition StatusEnabled : Z := 1.
Definition ClientTypeWebApp : string := "web_app".
Definition ClientTypeSPA : string := "spa".
Definition ClientTypeNative : string := "native".
Definition ClientTypeM2M : string := "m2m".
Definition CertTypeSigning : string := "signing".
Definition CertStatusActive : Z := 1.
Definition CertStatusRotating : Z := 2.

(** A value of a JSON document; an array, an object or a fraction by its text. *)
Inductive J : Type := JNull | JTrue | JFalse | JInt (n : Z) | JText (s : string) | JRaw (text : string).
#[export] Instance J_eq_dec : EqDecision J.
Proof. solve_decision. Defined.
(** The configuration columns hold an object. *)
Abbreviation Doc := (gmap string J).

Record App : Type := mkApp {
  ap_ID : Z; ap_TenantID : option Z; ap_Scope : Z; ap_SubjectStrategy : string; ap_Name : string; ap_Code : string;
  ap_Protocol : string; ap_Status : Z; ap_Icon : option string; ap_Env : option string; ap_Description : option string;
  ap_ClientID : option string; ap_ClientSecret : option string; ap_ClientType : string; ap_HomeURL : option string;
  ap_IsFirstParty : bool; ap_RequireConsent : bool; ap_ProtocolConfig : Doc; ap_LoginURL : option string;
  ap_RedirectURIs : list string; ap_LogoutURL : option string; ap_AccessPolicy : Z; ap_CreatedAt : Z; ap_UpdatedAt : Z;
  ap_CreatedBy : option Z; ap_UpdatedBy : option Z; ap_DeletedAt : option Z
}.
Record AppGroup : Type := mkAppGroup {
  ag_ID : Z; ag_TenantID : Z; ag_Name : string; ag_Code : string; ag_ParentID : option Z; ag_SortOrder : Z;
  ag_CreatedAt : Z; ag_UpdatedAt : Z; ag_DeletedAt : option Z
}.
Record AppGroupRel : Type := mkAppGroupRel { rl_ID : Z; rl_AppID : Z; rl_GroupID : Z; rl_CreatedAt : Z }.
Record AppCert : Type := mkAppCert {
  ct_ID : Z; ct_AppID : Z; ct_CertType : string; ct_Algorithm : string; ct_PublicKey : string; ct_PrivateKey : string;
  ct_KID : option string; ct_NotBefore : Z; ct_ExpiresAt : option Z; ct_Encrypted : bool; ct_Status : Z; ct_CreatedAt : Z
}.
#[export] Instance AppCert_eq_dec : EqDecision AppCert.
Proof. solve_decision. Defined.

(** ** Requests and results of dto.go *)

Record CreateAppRequest : Type := mkCreateApp {
  ca_Name : string; ca_Code : string; ca_Protocol : string; ca_ClientType : string; ca_Scope : option Z;
  ca_SubjectStrategy : option string; ca_Icon : option string; ca_Env : option string; ca_Description : option string;
  ca_HomeURL : option string; ca_LoginURL : option string; ca_RedirectURIs : option (list string); ca_LogoutURL : option string;
  ca_AccessPolicy : option Z; ca_IsFirstParty : option bool; ca_RequireConsent : option bool; ca_ProtocolConfig : option Doc
}.
Record UpdateAppRequest : Type := mkUpdateApp {
  ua_Name : option string; ua_SubjectStrategy : option string; ua_Icon : option string; ua_Env : option string;
  ua_Description : option string; ua_HomeURL : option string; ua_LoginURL : option string; ua_RedirectURIs : option (list string);
  ua_LogoutURL : option string; ua_AccessPolicy : option Z; ua_IsFirstParty : option bool; ua_RequireConsent : option bool;
  ua_ProtocolConfig : option Doc
}.
Record CreateAppResult : Type := mkCreateAppResult { cr_App : App; cr_ClientSecretPlain : string; cr_SigningKID : string }.
Record EmergencyRevokeResult : Type := mkEmergencyRevokeResult {
  er_ClientSecretPlain : string; er_TokensRevoked : Z; er_SecretRotated : bool; er_RevokeSupported : bool
}.
Record AppGroupRequest : Type := mkAppGroupRequest { gr_Name : string; gr_Code : string; gr_ParentID : option Z; gr_SortOrder : option Z }.
Record UpdateAppGroupRequest : Type := mkUpdateAppGroup { ug_Name : option string; ug_ParentID : option Z; ug_SortOrder : option Z }.
(** repository.go *)
Record ListAppParams : Type := mkListAppParams {
  pa_Page : Z; pa_PageSize : Z; pa_Search : string; pa_Protocol : option string; pa_Status : option Z; pa_Env : option string;
  pa_AccessPolicy : option Z; pa_GroupID : option Z
}.
Record ProtocolDefaults : Type := mkProtocolDefaults {
  OIDCAccessTokenTTL : Z; OIDCRefreshTokenTTL : Z; OIDCIDTokenTTL : Z; SAMLAssertionTTL : Z; CASTicketTTL : Z;
  OIDCSubject : string; SAMLSubject : string; CASSubject : string
}.
(** saml.ParseSPMetadata's result. *)
Record SPMetadata : Type := mkSPMetadata {
  sp_EntityID : string; sp_ACSURL : string; sp_SLOURL : string; sp_NameIDFormat : string; sp_X509CertPEM : string
}.

Inductive AErr : Type :=
| ErrDB
| ErrRecordNotFound
| ErrUnique (constraint : string)
| ErrCheck (constraint : string)
| ErrForeignKey
| ErrAppNotFound
| ErrAppCodeExists
| ErrAppGroupNotFound
| ErrGroupCodeExists
| ErrCertNotFound
| ErrInvalidClientType
| ErrFormFillNotLicensed
| ErrRand
| ErrHash
| ErrPairwiseOIDCOnly
| ErrSharedUsername
| ErrKeyServiceUnavailable
| ErrMasterKeyMissing
| ErrKeyNotFound
| ErrCrypto
| ErrNotSAML
| ErrInvalidSPMetadata
| ErrRevokeTokens
| ErrNoActiveCert.
#[export] Instance AErr_eq_dec : EqDecision AErr.
Proof. solve_decision. Defined.

(** ** Events *)

Inductive AVal : Type := I64 (z : Z) | Int (z : Z) | Str (s : string) | Bln (b : bool) | Ptr (p : option Z) | Strs (l : list string) | Cfg (d : Doc).
Record AEvent : Type := mkAEvent { ae_Type : string; ae_Payload : gmap string AVal }.
Definition app_event (type : string) (payload : list (string * AVal)) : AEvent := mkAEvent type (list_to_map payload).
Definition AppCreated : string := "app.created".
Definition AppUpdated : string := "app.updated".
Definition AppDeleted : string := "app.deleted".
Definition AppEmergencyRevoked : string := "app.emergency_revoked".
Definition AppCertCreated : string := "app.cert_created".
Definition AppCertDeleted : string := "app.cert_deleted".
Definition AppGroupCreated : string := "app_group.created".
Definition AppGroupUpdated : string := "app_group.updated".
Definition AppGroupDeleted : string := "app_group.deleted".
Definition AppGroupMemberAdded : string := "app_group.member_added".
Definition AppGroupMemberRemoved : string := "app_group.member_removed".

(** ** Rows as the statements change them *)

Definition set_secret (hash : string) (t : Z) (a : App) : App :=
  mkApp (ap_ID a) (ap_TenantID a) (ap_Scope a) (ap_SubjectStrategy a) (ap_Name a) (ap_Code a) (ap_Protocol a) (ap_Status a) (ap_Icon a)
    (ap_Env a) (ap_Description a) (ap_ClientID a) (Some hash) (ap_ClientType a) (ap_HomeURL a) (ap_IsFirstParty a) (ap_RequireConsent a)
    (ap_ProtocolConfig a) (ap_LoginURL a) (ap_RedirectURIs a) (ap_LogoutURL a) (ap_AccessPolicy a) (ap_CreatedAt a) t (ap_CreatedBy a)
    (ap_UpdatedBy a) (ap_DeletedAt a).
Definition set_app_status (st t : Z) (a : App) : App :=
  mkApp (ap_ID a) (ap_TenantID a) (ap_Scope a) (ap_SubjectStrategy a) (ap_Name a) (ap_Code a) (ap_Protocol a) st (ap_Icon a)
    (ap_Env a) (ap_Description a) (ap_ClientID a) (ap_ClientSecret a) (ap_ClientType a) (ap_HomeURL a) (ap_IsFirstParty a) (ap_RequireConsent a)
    (ap_ProtocolConfig a) (ap_LoginURL a) (ap_RedirectURIs a) (ap_LogoutURL a) (ap_AccessPolicy a) (ap_CreatedAt a) t (ap_CreatedBy a)
    (ap_UpdatedBy a) (ap_DeletedAt a).
Definition set_config (d : Doc) (t : Z) (a : App) : App :=
  mkApp (ap_ID a) (ap_TenantID a) (ap_Scope a) (ap_SubjectStrategy a) (ap_Name a) (ap_Code a) (ap_Protocol a) (ap_Status a) (ap_Icon a)
    (ap_Env a) (ap_Description a) (ap_ClientID a) (ap_ClientSecret a) (ap_ClientType a) (ap_HomeURL a) (ap_IsFirstParty a) (ap_RequireConsent a)
    d (ap_LoginURL a) (ap_RedirectURIs a) (ap_LogoutURL a) (ap_AccessPolicy a) (ap_CreatedAt a) t (ap_CreatedBy a)
    (ap_UpdatedBy a) (ap_DeletedAt a).
Definition set_cert_status (st : Z) (c : AppCert) : AppCert :=
  mkAppCert (ct_ID c) (ct_AppID c) (ct_CertType c) (ct_Algorithm c) (ct_PublicKey c) (ct_PrivateKey c) (ct_KID c) (ct_NotBefore c)
    (ct_ExpiresAt c) (ct_Encrypted c) st (ct_CreatedAt c).
Definition set_parent (p : option Z) (g : AppGroup) : AppGroup :=
  mkAppGroup (ag_ID g) (ag_TenantID g) (ag_Name g) (ag_Code g) p (ag_SortOrder g) (ag_CreatedAt g) (ag_UpdatedAt g) (ag_DeletedAt g).

(** [if v != nil] *)
Definition or_keep {A} (x : option A) (old : A) : A := default old x.
Definition or_keep_ptr {A} (x old : option A) : option A := match x with Some v => Some v | None => old end.

(** ** Key material: crypto/rsa, crypto/x509 and encoding/pem *)

Record CertTemplate : Type := mkCertTemplate { tp_Serial : Z; tp_CommonName : string; tp_NotBefore : Z; tp_NotAfter : Z }.
Record KeyLib (Key : Type) : Type := mkKeyLib {
  pem_encode : string -> string -> string;
  pem_decode : string -> option string;
  MarshalPKCS1 : Key -> string;
  ParsePKCS1 : string -> option Key;
  (** Some None: a key, not of RSA *)
  ParsePKCS8 : string -> option (option Key);
  CreateCertificate : CertTemplate -> Key -> option string
}.
Arguments pem_encode {Key}. Arguments pem_decode {Key}. Arguments MarshalPKCS1 {Key}. Arguments ParsePKCS1 {Key}.
Arguments ParsePKCS8 {Key}. Arguments CreateCertificate {Key}.

(** What one request draws at random; None when the source fails. *)
Record Draws (Key : Type) : Type := mkDraws {
  dr_clientID : option string; dr_secret : option string; dr_salt : string; dr_key : option Key; dr_serial : option Z;
  dr_nonce : string; dr_kid : option string
}.
Arguments mkDraws {Key}. Arguments dr_clientID {Key}. Arguments dr_secret {Key}. Arguments dr_salt {Key}. Arguments dr_key {Key}.
Arguments dr_serial {Key}. Arguments dr_nonce {Key}. Arguments dr_kid {Key}.

(** SigningKeyTTL in nanoseconds *)
Definition SigningKeyTTL : Z := 365 * 24 * 3600 * 1000000000.
(** crypto.GenerateClientID *)
Definition GenerateClientID (suffix : option string) : option string := (fun s => "client_" +:+ s) <$> suffix.
Definition newKID (now : Z) (kid : option string) : string :=
  match kid with Some k => k | None => "k" +:+ dec now end.

Section Apps.
Context {G : Type} `{!IdGen G} {T Key : Type}.
(** strings.ToLower, and Postgres' lower() *)
Context (ToLower lower : string -> string).

Record AppWorld : Type := mkAppWorld {
  apps : gmap Z App; groups : gmap Z AppGroup; rels : gmap (Z * Z) AppGroupRel; certs : gmap Z AppCert;
  agen : G; anow : Z; abus : list AEvent; atokens : T
}.
Abbreviation Op := (M (Store AppWorld) AErr).
Abbreviation select := (Statements.select ErrDB).
Abbreviation exec := (Statements.exec ErrDB).
Abbreviation exec_or := (Statements.exec_or ErrDB).

Definition with_apps f (w : AppWorld) :=
  mkAppWorld (f (apps w)) (groups w) (rels w) (certs w) (agen w) (anow w) (abus w) (atokens w).
Definition with_groups f (w : AppWorld) :=
  mkAppWorld (apps w) (f (groups w)) (rels w) (certs w) (agen w) (anow w) (abus w) (atokens w).
Definition with_rels f (w : AppWorld) :=
  mkAppWorld (apps w) (groups w) (f (rels w)) (certs w) (agen w) (anow w) (abus w) (atokens w).
Definition with_certs f (w : AppWorld) :=
  mkAppWorld (apps w) (groups w) (rels w) (f (certs w)) (agen w) (anow w) (abus w) (atokens w).
Definition with_tokens t (w : AppWorld) :=
  mkAppWorld (apps w) (groups w) (rels w) (certs w) (agen w) (anow w) (abus w) t.
Definition publish (e : AEvent) : Op unit :=
  write (fun w => mkAppWorld (apps w) (groups w) (rels w) (certs w) (agen w) (anow w) (abus w ++ [e]) (atokens w)).
Definition new_id : Op Z := fun s =>
  let w := sdb s in
  let '(g, id) := Generate (agen w) in
  (mkStore (mkAppWorld (apps w) (groups w) (rels w) (certs w) g (anow w) (abus w) (atokens w)) (sfail s) (scalls s), Ok id).
Definition time_now : Op Z := gets (fun s => anow (sdb s)).
Definition or_throw {A} (e : AErr) (o : option A) : Op A := match o with Some a => ret a | None => throw e end.
(** [if dberr.IsNotFound(err) { return e }] *)
Definition not_found_as {A} (e : AErr) (m : Op A) : Op A :=
  attempt m (fun r => match r with
                      | Ok a => ret a
                      | Err ErrRecordNotFound => throw e
                      | Err e' => throw e'
                      end).

(** ** repository_impl.go; [scope] is the tenant the context is pinned to, None for a system or
    cross-tenant context. The plugin adds "tenant_id = ? OR tenant_id IS NULL" for applications,
    "tenant_id = ?" for groups, and nothing for certificates and memberships. *)

Context (scope : option Z).
Definition app_in_scope (a : App) : bool :=
  match scope, ap_TenantID a with Some t, Some t' => t' =? t | _, _ => true end.
Definition app_live (a : App) : bool := bool_decide (ap_DeletedAt a = None) && app_in_scope a.
Definition group_in_scope (g : AppGroup) : bool := match scope with Some t => ag_TenantID g =? t | None => true end.
Definition group_live (g : AppGroup) : bool := bool_decide (ag_DeletedAt g = None) && group_in_scope g.

Definition by_id (a b : App) : Prop := ap_ID a <= ap_ID b.
#[export] Instance by_id_dec : RelDecision by_id.
Proof. intros a b. unfold by_id. apply _. Defined.
Definition apps_where (P : App -> bool) (w : AppWorld) : list App :=
  merge_sort by_id (filter (fun a => P a = true) (map_to_list (apps w)).*2).
(** First: the row with the lowest id. *)
Definition first_app (P : App -> bool) : Op App :=
  let! l := select (apps_where P) in
  match l with a :: _ => ret a | [] => throw ErrRecordNotFound end.

(** The CHECK constraints of 000010. *)
Definition check_app (a : App) : option string :=
  let typ t := bool_decide (ap_ClientType a = t) in
  if negb (typ ClientTypeWebApp || typ ClientTypeSPA || typ ClientTypeNative || typ ClientTypeM2M) then Some "chk_app_client_type"%string
  else if negb (negb (bool_decide (ap_Protocol a = ProtocolOIDC))
                || ((typ ClientTypeSPA || typ ClientTypeNative) && bool_decide (ap_ClientSecret a = None))
                || ((typ ClientTypeWebApp || typ ClientTypeM2M) && negb (bool_decide (ap_ClientSecret a = None))))
  then Some "chk_app_secret_presence"%string
  else None.
(** The partial unique indexes, on client_id and on (COALESCE(tenant_id, 0), code). *)
Definition other_app (a a' : App) : Prop := ap_ID a' <> ap_ID a /\ ap_DeletedAt a' = None.
Definition app_conflict (m : gmap Z App) (a : App) : option string :=
  if negb (bool_decide (ap_DeletedAt a = None)) then None
  else if bool_decide (map_Exists (fun _ a' => other_app a a' /\ ap_ClientID a <> None /\ ap_ClientID a' = ap_ClientID a) m)
  then Some "idx_app_client_id"%string
  else if bool_decide (map_Exists (fun _ a' => other_app a a' /\ default 0 (ap_TenantID a') = default 0 (ap_TenantID a)
                                               /\ ap_Code a' = ap_Code a) m)
  then Some "idx_app_tenant_code"%string
  else None.
Definition put_app (a : App) (w : AppWorld) : res AErr AppWorld :=
  match check_app a with
  | Some c => Err (ErrCheck c)
  | None => match app_conflict (apps w) a with
            | Some c => Err (ErrUnique c)
            | None => Ok (with_apps <[ap_ID a := a]> w)
            end
  end.
Definition insert_app (a : App) (w : AppWorld) : res AErr AppWorld :=
  if bool_decide (is_Some (apps w !! ap_ID a)) then Err (ErrUnique "mxid_app_pkey") else put_app a w.
(** UPDATE of the live row [id]; no row affected is "record not found". *)
Definition update_app (id : Z) (f : App -> App) (w : AppWorld) : res AErr AppWorld :=
  match apps w !! id with
  | Some a => if app_live a then Ok (with_apps <[id := f a]> w) else Err ErrRecordNotFound
  | None => Err ErrRecordNotFound
  end.
(** A physical DELETE, with the cascades of the children's foreign keys. *)
Definition delete_app (id : Z) (w : AppWorld) : AppWorld :=
  match apps w !! id with
  | Some a => if app_in_scope a
              then with_certs (filter (fun p : Z * AppCert => ct_AppID p.2 <> id))
                     (with_rels (filter (fun p : (Z * Z) * AppGroupRel => p.1.1 <> id)) (with_apps (delete id) w))
              else w
  | None => w
  end.

Definition repo_Create (a : App) : Op unit := exec_or (insert_app a).
Definition repo_GetByIDs (ids : list Z) : Op (list App) :=
  match ids with [] => ret [] | _ => select (apps_where (fun a => app_live a && bool_decide (ap_ID a ∈ ids))) end.
Definition repo_GetByID (id : Z) : Op App :=
  let! a := select (fun w => apps w !! id) in
  match a with Some a => if app_live a then ret a else throw ErrRecordNotFound | None => throw ErrRecordNotFound end.
Definition has_code (tenantID : Z) (code : string) (a : App) : bool :=
  app_live a && bool_decide (ap_TenantID a = Some tenantID) && bool_decide (ap_Code a = code).
Definition repo_GetByCode (tenantID : Z) (code : string) : Op App := first_app (has_code tenantID code).
Definition has_client_id (clientID : string) (a : App) : bool := app_live a && bool_decide (ap_ClientID a = Some clientID).
Definition repo_GetByClientID (clientID : string) : Op App := first_app (has_client_id clientID).
(** gorm's Save: every column of the live row with this id, or an insert that overwrites. *)
Definition repo_Update (a : App) : Op unit := exec_or (put_app a).
Definition repo_Delete (id : Z) : Op unit := exec (delete_app id).
Definition repo_UpdateStatus (id status : Z) : Op unit :=
  let! now := time_now in exec_or (update_app id (set_app_status status now)).
Definition repo_UpdateProtocolConfig (id : Z) (d : Doc) : Op unit :=
  let! now := time_now in exec_or (update_app id (set_config d now)).

(** LIKE compares characters as they are; the search text is not escaped. *)
Definition same_ascii (c d : ascii) : bool := bool_decide (c = d).
Definition appSearchScope (search : string) (a : App) : bool :=
  bool_decide (search = ""%string)
  || ilike same_ascii ("%" +:+ ToLower search +:+ "%")
       (lower (ap_Name a) +:+ " " +:+ lower (ap_Code a) +:+ " " +:+ lower (default ""%string (ap_Description a))).
Definition appProtocolScope (protocol : option string) (a : App) : bool :=
  match protocol with Some p => bool_decide (ap_Protocol a = p) | None => true end.
Definition appStatusScope (status : option Z) (a : App) : bool := match status with Some s => ap_Status a =? s | None => true end.
Definition appEnvScope (env : option string) (a : App) : bool :=
  match env with Some e => bool_decide (ap_Env a = Some e) | None => true end.
Definition appAccessPolicyScope (policy : option Z) (a : App) : bool :=
  match policy with Some p => ap_AccessPolicy a =? p | None => true end.
Definition r_appIDsInGroup (groupID : Z) (w : AppWorld) : gset Z :=
  list_to_set (fst <$> filter (fun k : Z * Z => k.2 = groupID) (map_to_list (rels w)).*1).
Definition appGroupScope (groupID : option Z) (w : AppWorld) (a : App) : bool :=
  match groupID with Some g => bool_decide (ap_ID a ∈ r_appIDsInGroup g w) | None => true end.
(** "tenant_id = ? OR scope = ?" beside the plugin's predicate *)
Definition in_catalogue (tenantID : Z) (a : App) : bool :=
  app_live a && (bool_decide (ap_TenantID a = Some tenantID) || (ap_Scope a =? ScopeShared)).
Definition listed (tenantID : Z) (p : ListAppParams) (w : AppWorld) (a : App) : bool :=
  in_catalogue tenantID a && appSearchScope (pa_Search p) a && appProtocolScope (pa_Protocol p) a && appStatusScope (pa_Status p) a
  && appEnvScope (pa_Env p) a && appAccessPolicyScope (pa_AccessPolicy p) a && appGroupScope (pa_GroupID p) w a.
Definition newer (a b : App) : Prop := ap_CreatedAt b <= ap_CreatedAt a.
#[export] Instance newer_dec : RelDecision newer.
Proof. intros a b. unfold newer. apply _. Defined.
Definition all_listed (tenantID : Z) (p : ListAppParams) (w : AppWorld) : list App :=
  merge_sort newer (filter (fun a => listed tenantID p w a = true) (map_to_list (apps w)).*2).
Definition repo_List (tenantID : Z) (p : ListAppParams) : Op (list App * Z) :=
  let! total := select (fun w => Z.of_nat (length (all_listed tenantID p w))) in
  let! rows := select (fun w => take (Z.to_nat (pa_PageSize p)) (drop (Z.to_nat ((pa_Page p - 1) * pa_PageSize p)) (all_listed tenantID p w))) in
  ret (rows, total).

(** Byte by byte, as sort.Strings and a C collation order. *)
Definition str_le (a b : string) : Prop := String.leb a b = true.
#[export] Instance str_le_dec : RelDecision str_le.
Proof. intros a b. unfold str_le. apply _. Defined.
Definition distinct_envs (tenantID : Z) (w : AppWorld) : list string :=
  merge_sort str_le (remove_dups (omap (fun a => match ap_Env a with
                                                 | Some e => if in_catalogue tenantID a && negb (bool_decide (e = ""%string)) then Some e else None
                                                 | None => None
                                                 end) (map_to_list (apps w)).*2)).
Definition repo_ListDistinctEnvs (tenantID : Z) : Op (list string) := select (distinct_envs tenantID).
Definition cors_app (tenantID : Z) (a : App) : bool :=
  in_catalogue tenantID a && bool_decide (ap_Protocol a = ProtocolOIDC) && (ap_Status a =? StatusEnabled).
Definition repo_ListRedirectURIs (tenantID : Z) : Op (list string) :=
  select (fun w => mjoin (ap_RedirectURIs <$> apps_where (cors_app tenantID) w)).

(** Groups: UNIQUE(tenant_id, code), whether deleted or not. *)
Definition group_conflict (m : gmap Z AppGroup) (g : AppGroup) : bool :=
  bool_decide (map_Exists (fun _ g' => ag_ID g' <> ag_ID g /\ ag_TenantID g' = ag_TenantID g /\ ag_Code g' = ag_Code g) m).
Definition put_group (g : AppGroup) (w : AppWorld) : res AErr AppWorld :=
  if group_conflict (groups w) g then Err (ErrUnique "mxid_app_group_tenant_id_code_key") else Ok (with_groups <[ag_ID g := g]> w).
(** A zero tenant is stamped with that of the context. *)
Definition stamp_group (g : AppGroup) : AppGroup :=
  mkAppGroup (ag_ID g) (match scope with Some t => if ag_TenantID g =? 0 then t else ag_TenantID g | None => ag_TenantID g end)
    (ag_Name g) (ag_Code g) (ag_ParentID g) (ag_SortOrder g) (ag_CreatedAt g) (ag_UpdatedAt g) (ag_DeletedAt g).
Definition insert_group (g : AppGroup) (w : AppWorld) : res AErr AppWorld :=
  if bool_decide (is_Some (groups w !! ag_ID g)) then Err (ErrUnique "mxid_app_group_pkey") else put_group g w.
(** A physical DELETE: memberships cascade, the parent of a nested group is set to NULL. *)
Definition delete_group (id : Z) (w : AppWorld) : AppWorld :=
  match groups w !! id with
  | Some g => if group_in_scope g
              then with_rels (filter (fun p : (Z * Z) * AppGroupRel => p.1.2 <> id))
                     (with_groups (fun m => (fun g => if bool_decide (ag_ParentID g = Some id) then set_parent None g else g) <$> delete id m) w)
              else w
  | None => w
  end.
Definition repo_CreateGroup (g : AppGroup) : Op unit := exec_or (insert_group (stamp_group g)).
Definition repo_GetGroupByID (id : Z) : Op AppGroup :=
  let! g := select (fun w => groups w !! id) in
  match g with Some g => if group_live g then ret g else throw ErrRecordNotFound | None => throw ErrRecordNotFound end.
Definition repo_UpdateGroup (g : AppGroup) : Op unit := exec_or (put_group g).
Definition repo_DeleteGroup (id : Z) : Op unit := exec (delete_group id).
Definition group_le (a b : AppGroup) : Prop :=
  ag_SortOrder a < ag_SortOrder b \/ (ag_SortOrder a = ag_SortOrder b /\ ag_CreatedAt a <= ag_CreatedAt b).
#[export] Instance group_le_dec : RelDecision group_le.
Proof. intros a b. unfold group_le. apply _. Defined.
Definition groups_of (tenantID : Z) (w : AppWorld) : list AppGroup :=
  merge_sort group_le (filter (fun g => group_live g = true /\ ag_TenantID g = tenantID) (map_to_list (groups w)).*2).
Definition repo_ListGroups (tenantID : Z) : Op (list AppGroup) := select (groups_of tenantID).

(** Memberships: UNIQUE(app_id, group_id), and foreign keys to both sides. ON CONFLICT (app_id, group_id) DO NOTHING. *)
Definition insert_rel (r : AppGroupRel) (w : AppWorld) : res AErr AppWorld :=
  if bool_decide (is_Some (rels w !! (rl_AppID r, rl_GroupID r))) then Ok w
  else if bool_decide (map_Exists (fun _ r' => rl_ID r' = rl_ID r) (rels w)) then Err (ErrUnique "mxid_app_group_rel_pkey")
  else if negb (bool_decide (is_Some (apps w !! rl_AppID r)) && bool_decide (is_Some (groups w !! rl_GroupID r))) then Err ErrForeignKey
  else Ok (with_rels <[(rl_AppID r, rl_GroupID r) := r]> w).
Definition repo_AddAppToGroup (r : AppGroupRel) : Op unit := exec_or (insert_rel r).
Definition repo_RemoveAppFromGroup (appID groupID : Z) : Op unit :=
  exec_or (fun w => match rels w !! (appID, groupID) with
                    | Some _ => Ok (with_rels (delete (appID, groupID)) w)
                    | None => Err ErrRecordNotFound
                    end).
Definition rel_newer (a b : AppGroupRel) : Prop := rl_CreatedAt b <= rl_CreatedAt a.
#[export] Instance rel_newer_dec : RelDecision rel_newer.
Proof. intros a b. unfold rel_newer. apply _. Defined.
Definition repo_ListAppsByGroup (groupID : Z) : Op (list AppGroupRel) :=
  select (fun w => merge_sort rel_newer (filter (fun r => rl_GroupID r = groupID) (map_to_list (rels w)).*2)).

(** Certificates: a foreign key to the application, and a unique index on kid. *)
Definition insert_cert (c : AppCert) (w : AppWorld) : res AErr AppWorld :=
  if bool_decide (is_Some (certs w !! ct_ID c)) then Err (ErrUnique "mxid_app_cert_pkey")
  else if bool_decide (map_Exists (fun _ c' => ct_KID c <> None /\ ct_KID c' = ct_KID c) (certs w)) then Err (ErrUnique "idx_app_cert_kid")
  else if negb (bool_decide (is_Some (apps w !! ct_AppID c))) then Err ErrForeignKey
  else Ok (with_certs <[ct_ID c := c]> w).
Definition repo_CreateCert (c : AppCert) : Op unit := exec_or (insert_cert c).
Definition cert_newer (a b : AppCert) : Prop := ct_CreatedAt b <= ct_CreatedAt a.
#[export] Instance cert_newer_dec : RelDecision cert_newer.
Proof. intros a b. unfold cert_newer. apply _. Defined.
Definition certs_of (appID : Z) (w : AppWorld) : list AppCert :=
  merge_sort cert_newer (filter (fun c => ct_AppID c = appID) (map_to_list (certs w)).*2).
Definition repo_ListCertsByApp (appID : Z) : Op (list AppCert) := select (certs_of appID).
Definition repo_GetCertByID (id : Z) : Op AppCert :=
  let! c := select (fun w => certs w !! id) in
  match c with Some c => ret c | None => throw ErrRecordNotFound end.
Definition repo_DeleteCert (id : Z) : Op unit :=
  exec_or (fun w => match certs w !! id with
                    | Some _ => Ok (with_certs (delete id) w)
                    | None => Err ErrRecordNotFound
                    end).

(** ** key_service.go *)

Context (lib : KeyLib Key) (masterKey : option MasterKey).

Definition GenerateForApp (d : Draws Key) (appID : Z) : Op AppCert :=
  match masterKey with
  | None => throw ErrMasterKeyMissing
  | Some mk =>
      let! priv := or_throw ErrRand (dr_key d) in
      let privPEM := pem_encode lib "RSA PRIVATE KEY" (MarshalPKCS1 lib priv) in
      let! now := time_now in
      let expiresAt := now + SigningKeyTTL in
      let! serial := or_throw ErrRand (dr_serial d) in
      let! certDER := or_throw ErrCrypto (CreateCertificate lib (mkCertTemplate serial ("mxid-app-" +:+ dec appID) now expiresAt) priv) in
      let pubPEM := pem_encode lib "CERTIFICATE" certDER in
      let! encryptedPriv := or_throw ErrCrypto (Encrypt mk privPEM (dr_nonce d)) in
      let! id := new_id in
      let cert := mkAppCert id appID CertTypeSigning "RS256" pubPEM encryptedPriv (Some (newKID now (dr_kid d))) now (Some expiresAt)
                    true CertStatusActive now in
      do! repo_CreateCert cert in
      ret cert
  end.

Definition active_signing (c : AppCert) : bool := bool_decide (ct_CertType c = CertTypeSigning) && (ct_Status c =? CertStatusActive).
(** UPDATE mxid_app_cert SET status = 2 WHERE app_id = ? AND cert_type = ? AND status = ? AND id <> ? *)
Definition demoted (appID newID : Z) (c : AppCert) : AppCert :=
  if bool_decide (ct_AppID c = appID) && active_signing c && negb (ct_ID c =? newID) then set_cert_status CertStatusRotating c else c.
Definition demote_others (appID newID : Z) (w : AppWorld) : AppWorld := with_certs (fmap (demoted appID newID)) w.
(** The new key is taken back when the demotion fails; whether that works is not looked at. *)
Definition RotateForApp (d : Draws Key) (appID : Z) : Op AppCert :=
  match masterKey with
  | None => throw ErrMasterKeyMissing
  | Some _ =>
      let! newCert := GenerateForApp d appID in
      attempt (exec (demote_others appID (ct_ID newCert))) (fun r =>
        match r with
        | Ok _ => ret newCert
        | Err e => attempt (exec (with_certs (delete (ct_ID newCert)))) (fun _ => throw e)
        end)
  end.

Definition decryptPrivate (mk : MasterKey) (c : AppCert) : Op string :=
  if ct_Encrypted c then or_throw ErrCrypto (Decrypt mk (ct_PrivateKey c)) else ret (ct_PrivateKey c).
Definition parseRSAPrivateKeyPEM (data : string) : option Key :=
  match pem_decode lib data with
  | None => None
  | Some block =>
      match ParsePKCS1 lib block with
      | Some priv => Some priv
      | None => match ParsePKCS8 lib block with Some (Some priv) => Some priv | _ => None end
      end
  end.
Definition LoadSigningKey (appID : Z) : Op (Key * string) :=
  match masterKey with
  | None => throw ErrMasterKeyMissing
  | Some mk =>
      let! l := repo_ListCertsByApp appID in
      match filter (fun c => active_signing c = true) l with
      | [] => throw ErrKeyNotFound
      | active :: _ =>
          let! privPEM := decryptPrivate mk active in
          let! priv := or_throw ErrCrypto (parseRSAPrivateKeyPEM privPEM) in
          ret (priv, default ""%string (ct_KID active))
      end
  end.
(** The join is on live, enabled applications, of whichever tenant. *)
Definition published (w : AppWorld) (c : AppCert) : bool :=
  match apps w !! ct_AppID c with
  | Some a => bool_decide (ap_DeletedAt a = None) && (ap_Status a =? StatusEnabled)
  | None => false
  end && bool_decide (ct_CertType c = CertTypeSigning) && ((ct_Status c =? CertStatusActive) || (ct_Status c =? CertStatusRotating)).
Definition ListActiveSigningCerts : Op (list AppCert) :=
  select (fun w => filter (fun c => published w c = true) (map_to_list (certs w)).*2).

(** ** service.go *)

Context (keyService licensed : bool) (protoDefaultsP : option (Z -> ProtocolDefaults)).
(** The revoker of a client's tokens: the users affected, and whether it failed. *)
Context (tokenRevoker : option (string -> T -> T * (Z * bool))).
(** [HashPassword salt plain], [CheckPassword plain hash] of pkg/crypto: bcrypt *)
Context (HashPassword : string -> string -> option string) (CheckPassword : string -> string -> bool).

Definition subjectFor (d : ProtocolDefaults) (protocol : string) : string :=
  if bool_decide (protocol = ProtocolSAML) then SAMLSubject d
  else if bool_decide (protocol = ProtocolCAS) then CASSubject d else OIDCSubject d.
Definition protoDefaults (tenantID : Z) : ProtocolDefaults :=
  match protoDefaultsP with
  | None => mkProtocolDefaults 0 0 0 0 0 "" "" ""
  | Some p => p tenantID
  end.
Definition needsClientSecret (protocol clientType : string) : bool :=
  bool_decide (protocol = ProtocolOIDC) && (bool_decide (clientType = ClientTypeWebApp) || bool_decide (clientType = ClientTypeM2M)).
Definition normalizeEnv (env : option string) : option string :=
  match env with
  | None => None
  | Some e => let v := ToLower (TrimSpace e) in if bool_decide (v = ""%string) then None else Some v
  end.
Definition put_ttl (k : string) (ttl : Z) (d : Doc) : Doc := if 0 <? ttl then <[k := JInt ttl]> d else d.
Definition defaultProtocolConfig (protocol : string) (d : ProtocolDefaults) : option Doc :=
  if bool_decide (protocol = ProtocolOIDC) then
    let cfg := put_ttl "id_token_ttl" (OIDCIDTokenTTL d) (put_ttl "refresh_token_ttl" (OIDCRefreshTokenTTL d)
                 (put_ttl "access_token_ttl" (OIDCAccessTokenTTL d) ∅)) in
    if bool_decide (cfg = ∅) then None else Some cfg
  else if bool_decide (protocol = ProtocolSAML) then
    if SAMLAssertionTTL d <=? 0 then None else Some {["assertion_ttl"%string := JInt (SAMLAssertionTTL d)]}
  else if bool_decide (protocol = ProtocolCAS) then
    if CASTicketTTL d <=? 0 then None else Some {["ticket_ttl"%string := JInt (CASTicketTTL d)]}
  else None.
Definition needs_key (protocol : string) : bool :=
  bool_decide (protocol = ProtocolOIDC) || bool_decide (protocol = ProtocolSAML) || bool_decide (protocol = ProtocolCAS).

(** The secret of a confidential client, and its hash. *)
Definition mint_secret (d : Draws Key) : Op (string * string) :=
  let! plain := or_throw ErrRand (dr_secret d) in
  let! hashed := or_throw ErrHash (HashPassword (dr_salt d) plain) in
  ret (plain, hashed).
(** The configuration of a new application: that of the request, or the defaults when it is empty. *)
Definition initial_config (defaults : ProtocolDefaults) (req : CreateAppRequest) : Doc :=
  let cfg := default ∅ (ca_ProtocolConfig req) in
  if bool_decide (cfg = ∅) then default cfg (defaultProtocolConfig (ca_Protocol req) defaults) else cfg.
(** The subject strategy: a shared application is moved off the bare username. *)
Definition initial_strategy (defaults : ProtocolDefaults) (req : CreateAppRequest) (sc : Z) : string :=
  let st := let d := subjectFor defaults (ca_Protocol req) in if bool_decide (d = ""%string) then SubjectStrategyUsername else d in
  let st := match ca_SubjectStrategy req with Some s => if bool_decide (s = ""%string) then st else s | None => st end in
  if (sc =? ScopeShared) && bool_decide (st = SubjectStrategyUsername) then SubjectStrategyUsernameSuffixed else st.
(** What is left of Create once the row is in: the signing key, or the row is taken back. *)
Definition key_or_rollback (d : Draws Key) (a : App) : Op string :=
  if needs_key (ap_Protocol a) then
    if negb keyService then attempt (repo_Delete (ap_ID a)) (fun _ => throw ErrKeyServiceUnavailable) else
    attempt (GenerateForApp d (ap_ID a)) (fun r =>
      match r with
      | Ok cert => ret (default ""%string (ct_KID cert))
      | Err e => attempt (repo_Delete (ap_ID a)) (fun _ => throw e)
      end)
  else ret ""%string.

Definition Create (d : Draws Key) (tenantID : Z) (req : CreateAppRequest) : Op CreateAppResult :=
  attempt (repo_GetByCode tenantID (ca_Code req)) (fun r =>
    match r with
    | Ok _ => throw ErrAppCodeExists
    | Err ErrRecordNotFound =>
        let clientType := if bool_decide (ca_ClientType req = ""%string) then ClientTypeWebApp else ca_ClientType req in
        do! guard (bool_decide (ca_Protocol req = ProtocolOIDC)
                   && negb (bool_decide (clientType ∈ [ClientTypeWebApp; ClientTypeSPA; ClientTypeNative; ClientTypeM2M]))) ErrInvalidClientType in
        do! guard (bool_decide (ca_Protocol req = ProtocolForm) && negb licensed) ErrFormFillNotLicensed in
        let! clientID := or_throw ErrRand (GenerateClientID (dr_clientID d)) in
        let! secret := (if needsClientSecret (ca_Protocol req) clientType
                        then let! s := mint_secret d in ret (s.1, Some s.2) else ret (""%string, None)) in
        let defaults := protoDefaults tenantID in
        let! now := time_now in
        let sc := default ScopeTenant (ca_Scope req) in
        let strategy := initial_strategy defaults req sc in
        do! guard (bool_decide (strategy = SubjectStrategyPairwise) && negb (bool_decide (ca_Protocol req = ProtocolOIDC))) ErrPairwiseOIDCOnly in
        let! id := new_id in
        let a := mkApp id (if sc =? ScopeTenant then Some tenantID else None) sc strategy (ca_Name req) (ca_Code req) (ca_Protocol req)
                   StatusEnabled (ca_Icon req) (normalizeEnv (ca_Env req)) (ca_Description req) (Some clientID) secret.2 clientType
                   (ca_HomeURL req) (default true (ca_IsFirstParty req)) (default false (ca_RequireConsent req)) (initial_config defaults req)
                   (ca_LoginURL req) (default [] (ca_RedirectURIs req)) (ca_LogoutURL req) (default AccessPolicyAll (ca_AccessPolicy req))
                   now now None None None in
        do! repo_Create a in
        let! signingKID := key_or_rollback d a in
        do! publish (app_event AppCreated [("app_id", I64 id); ("tenant_id", I64 tenantID); ("name", Str (ap_Name a)); ("code", Str (ap_Code a));
                                           ("protocol", Str (ap_Protocol a))]%string) in
        ret (mkCreateAppResult a secret.1 signingKID)
    | Err e => throw e
    end).

Definition GetByID (id : Z) : Op App := not_found_as ErrAppNotFound (repo_GetByID id).
Definition requireApp (id : Z) : Op unit := let! _ := not_found_as ErrAppNotFound (repo_GetByID id) in ret tt.
Definition requireAppGroup (id : Z) : Op unit := let! _ := not_found_as ErrAppGroupNotFound (repo_GetGroupByID id) in ret tt.

Definition RotateClientSecret (d : Draws Key) (id : Z) : Op string :=
  let! a := not_found_as ErrAppNotFound (repo_GetByID id) in
  do! guard (negb (needsClientSecret (ap_Protocol a) (ap_ClientType a))) ErrInvalidClientType in
  let! s := mint_secret d in
  let! now := time_now in
  do! repo_Update (set_secret s.2 now a) in
  do! publish (app_event AppUpdated [("app_id", I64 (ap_ID a)); ("action", Str "rotate_client_secret")]%string) in
  ret s.1.

Definition publishEmergencyRevoke (appID : Z) (clientID : string) (revoked : Z) (complete : bool) : Op unit :=
  publish (app_event AppEmergencyRevoked [("app_id", I64 appID); ("client_id", Str clientID); ("tokens_revoked", Int revoked); ("complete", Bln complete)]%string).
Definition run_revoker (rv : string -> T -> T * (Z * bool)) (clientID : string) : Op (Z * bool) := fun s =>
  let '(t, r) := rv clientID (atokens (sdb s)) in (mkStore (with_tokens t (sdb s)) (sfail s) (scalls s), Ok r).
(** The result, and the error that may come with it. *)
Definition EmergencyRevoke (d : Draws Key) (id : Z) : Op (EmergencyRevokeResult * option AErr) :=
  let! a := not_found_as ErrAppNotFound (repo_GetByID id) in
  let clientID := default ""%string (ap_ClientID a) in
  let supported := match tokenRevoker with Some _ => true | None => false end in
  let! rotated := (if needsClientSecret (ap_Protocol a) (ap_ClientType a)
                   then let! plain := RotateClientSecret d id in ret (plain, true) else ret (""%string, false)) in
  match tokenRevoker with
  | Some rv =>
      if bool_decide (clientID = ""%string) then
        do! publishEmergencyRevoke (ap_ID a) clientID 0 supported in
        ret (mkEmergencyRevokeResult rotated.1 0 rotated.2 supported, None)
      else
        let! n := run_revoker rv clientID in
        let result := mkEmergencyRevokeResult rotated.1 n.1 rotated.2 supported in
        if n.2 then
          do! publishEmergencyRevoke (ap_ID a) clientID n.1 false in
          ret (result, Some ErrRevokeTokens)
        else
          do! publishEmergencyRevoke (ap_ID a) clientID n.1 supported in
          ret (result, None)
  | None =>
      do! publishEmergencyRevoke (ap_ID a) clientID 0 supported in
      ret (mkEmergencyRevokeResult rotated.1 0 rotated.2 supported, None)
  end.

Definition RotateSigningKey (d : Draws Key) (id : Z) : Op AppCert :=
  let! _ := not_found_as ErrAppNotFound (repo_GetByID id) in
  do! guard (negb keyService) ErrKeyServiceUnavailable in
  let! cert := RotateForApp d id in
  do! publish (app_event AppUpdated [("app_id", I64 id); ("action", Str "rotate_signing_key")]%string) in
  ret cert.

Definition VerifyClientSecret (clientID plaintext : string) : Op (option App * bool) :=
  attempt (repo_GetByClientID clientID) (fun r =>
    match r with
    | Err ErrRecordNotFound => ret (None, false)
    | Err e => throw e
    | Ok a => match ap_ClientSecret a with
              | None => ret (Some a, false)
              | Some hash => ret (Some a, CheckPassword plaintext hash)
              end
    end).

(** The columns a request names, in the order the code looks at them, and the row it makes. *)
Definition updated_fields (req : UpdateAppRequest) : list string :=
  let f {A} (name : string) (x : option A) := match x with Some _ => [name] | None => [] end in
  f "name"%string (ua_Name req)
  ++ match ua_SubjectStrategy req with Some s => if bool_decide (s = ""%string) then [] else ["subject_strategy"%string] | None => [] end
  ++ f "icon"%string (ua_Icon req) ++ f "description"%string (ua_Description req) ++ f "home_url"%string (ua_HomeURL req)
  ++ f "login_url"%string (ua_LoginURL req) ++ f "logout_url"%string (ua_LogoutURL req) ++ f "access_policy"%string (ua_AccessPolicy req)
  ++ f "is_first_party"%string (ua_IsFirstParty req) ++ f "require_consent"%string (ua_RequireConsent req) ++ f "env"%string (ua_Env req)
  ++ f "redirect_uris"%string (ua_RedirectURIs req) ++ f "protocol_config"%string (ua_ProtocolConfig req).
Definition new_strategy (req : UpdateAppRequest) (a : App) : string :=
  match ua_SubjectStrategy req with Some s => if bool_decide (s = ""%string) then ap_SubjectStrategy a else s | None => ap_SubjectStrategy a end.
Definition apply_update (req : UpdateAppRequest) (now : Z) (a : App) : App :=
  mkApp (ap_ID a) (ap_TenantID a) (ap_Scope a) (new_strategy req a) (or_keep (ua_Name req) (ap_Name a)) (ap_Code a) (ap_Protocol a)
    (ap_Status a) (or_keep_ptr (ua_Icon req) (ap_Icon a)) (match ua_Env req with Some _ => normalizeEnv (ua_Env req) | None => ap_Env a end)
    (or_keep_ptr (ua_Description req) (ap_Description a)) (ap_ClientID a) (ap_ClientSecret a) (ap_ClientType a)
    (or_keep_ptr (ua_HomeURL req) (ap_HomeURL a)) (or_keep (ua_IsFirstParty req) (ap_IsFirstParty a))
    (or_keep (ua_RequireConsent req) (ap_RequireConsent a)) (or_keep (ua_ProtocolConfig req) (ap_ProtocolConfig a))
    (or_keep_ptr (ua_LoginURL req) (ap_LoginURL a)) (or_keep (ua_RedirectURIs req) (ap_RedirectURIs a))
    (or_keep_ptr (ua_LogoutURL req) (ap_LogoutURL a)) (or_keep (ua_AccessPolicy req) (ap_AccessPolicy a)) (ap_CreatedAt a) now
    (ap_CreatedBy a) (ap_UpdatedBy a) (ap_DeletedAt a).
Definition Update (id : Z) (req : UpdateAppRequest) : Op App :=
  let! a := not_found_as ErrAppNotFound (repo_GetByID id) in
  do! guard ((ap_Scope a =? ScopeShared) && bool_decide (ua_SubjectStrategy req = Some SubjectStrategyUsername)) ErrSharedUsername in
  let! now := time_now in
  let a' := apply_update req now a in
  do! repo_Update a' in
  do! publish (app_event AppUpdated [("app_id", I64 (ap_ID a)); ("tenant_id", Ptr (ap_TenantID a)); ("name", Str (ap_Name a'));
                                     ("fields", Strs (updated_fields req))]%string) in
  ret a'.
Definition Delete (id : Z) : Op unit :=
  let! a := not_found_as ErrAppNotFound (repo_GetByID id) in
  do! repo_Delete id in
  publish (app_event AppDeleted [("app_id", I64 id); ("tenant_id", Ptr (ap_TenantID a)); ("name", Str (ap_Name a)); ("code", Str (ap_Code a))]%string).
Definition List_apps (tenantID : Z) (p : ListAppParams) : Op (list App * Z) := repo_List tenantID p.
Definition ListEnvOptions (tenantID : Z) : Op (list string) := repo_ListDistinctEnvs tenantID.
Definition UpdateStatus (id status : Z) : Op unit :=
  do! not_found_as ErrAppNotFound (repo_UpdateStatus id status) in
  publish (app_event AppUpdated [("app_id", I64 id); ("status", Int status)]%string).

(** ** The protocol configuration *)

Definition GetProtocolConfig (id : Z) : Op Doc :=
  let! a := not_found_as ErrAppNotFound (repo_GetByID id) in ret (ap_ProtocolConfig a).
(** A copy of [before], then key by key of the patch: null deletes. *)
Definition merge_config (before patch : Doc) : Doc :=
  map_fold (fun k v after => if decide (v = JNull) then delete k after else <[k := v]> after) before patch.
(** A nil interface is marshalled as null, whether the key is there or not. *)
Definition value_at (d : Doc) (k : string) : J := default JNull (d !! k).
Definition changedKeys (before after : Doc) : list string :=
  merge_sort str_le (filter (fun k => value_at before k <> value_at after k) (elements (dom before ∪ dom after))).
Definition writeProtocolConfig (id : Z) (config : Doc) (merge : bool) : Op unit :=
  let! before := GetProtocolConfig id in
  let after := if merge then merge_config before config else config in
  do! not_found_as ErrAppNotFound (repo_UpdateProtocolConfig id after) in
  publish (app_event AppUpdated [("app_id", I64 id); ("action", Str "update_protocol_config"); ("changed_keys", Strs (changedKeys before after));
                                 ("config_before", Cfg before); ("config_after", Cfg after)]%string).
Definition UpdateProtocolConfig (id : Z) (config : Doc) : Op unit := writeProtocolConfig id config false.
Definition PatchProtocolConfig (id : Z) (patch : Doc) : Op unit := writeProtocolConfig id patch true.

(** [ParseSPMetadata] of the SAML package reads the document. *)
Definition put_text (k v : string) (d : Doc) : Doc := if bool_decide (v = ""%string) then d else <[k := JText v]> d.
Definition import_config (m : SPMetadata) (current : Doc) : Doc :=
  put_text "sp_cert" (sp_X509CertPEM m) (put_text "name_id_format" (sp_NameIDFormat m) (put_text "slo_url" (sp_SLOURL m)
    (put_text "acs_url" (sp_ACSURL m) (put_text "sp_entity_id" (sp_EntityID m) current)))).
Definition ImportSAMLSPMetadata (ParseSPMetadata : string -> option SPMetadata) (id : Z) (xml : string) : Op Doc :=
  let! a := not_found_as ErrAppNotFound (repo_GetByID id) in
  do! guard (negb (bool_decide (ap_Protocol a = ProtocolSAML))) ErrNotSAML in
  let! parsed := or_throw ErrInvalidSPMetadata (ParseSPMetadata xml) in
  let current := import_config parsed (ap_ProtocolConfig a) in
  do! UpdateProtocolConfig id current in
  ret current.

(** ** Groups: one level; a parent in the request is ignored *)

Definition CreateGroup (tenantID : Z) (req : AppGroupRequest) : Op AppGroup :=
  let! existing := repo_ListGroups tenantID in
  do! guard (existsb (fun g => bool_decide (ag_Code g = gr_Code req)) existing) ErrGroupCodeExists in
  let! now := time_now in
  let! id := new_id in
  let g := mkAppGroup id tenantID (gr_Name req) (gr_Code req) None (default 0 (gr_SortOrder req)) now now None in
  do! repo_CreateGroup g in
  do! publish (app_event AppGroupCreated [("id", I64 id); ("tenant_id", I64 (ag_TenantID (stamp_group g))); ("name", Str (ag_Name g)); ("code", Str (ag_Code g))]%string) in
  ret (stamp_group g).
Definition GetGroupByID (id : Z) : Op AppGroup := not_found_as ErrAppGroupNotFound (repo_GetGroupByID id).
Definition UpdateGroup (id : Z) (req : UpdateAppGroupRequest) : Op AppGroup :=
  let! g := not_found_as ErrAppGroupNotFound (repo_GetGroupByID id) in
  let! now := time_now in
  let g' := mkAppGroup (ag_ID g) (ag_TenantID g) (or_keep (ug_Name req) (ag_Name g)) (ag_Code g) None (or_keep (ug_SortOrder req) (ag_SortOrder g))
              (ag_CreatedAt g) now (ag_DeletedAt g) in
  do! repo_UpdateGroup g' in
  do! publish (app_event AppGroupUpdated [("id", I64 (ag_ID g)); ("tenant_id", I64 (ag_TenantID g)); ("name", Str (ag_Name g'))]%string) in
  ret g'.
Definition DeleteGroup (id : Z) : Op unit :=
  let! g := not_found_as ErrAppGroupNotFound (repo_GetGroupByID id) in
  do! repo_DeleteGroup id in
  publish (app_event AppGroupDeleted [("id", I64 (ag_ID g)); ("tenant_id", I64 (ag_TenantID g)); ("name", Str (ag_Name g))]%string).
Definition ListGroups (tenantID : Z) : Op (list AppGroup) := repo_ListGroups tenantID.
Definition ListAppsByGroup (groupID : Z) : Op (list AppGroupRel) :=
  do! requireAppGroup groupID in repo_ListAppsByGroup groupID.
Definition GetByIDs (ids : list Z) : Op (list App) := repo_GetByIDs ids.
Definition AddAppToGroup (groupID appID : Z) : Op unit :=
  let! _ := not_found_as ErrAppGroupNotFound (repo_GetGroupByID groupID) in
  let! _ := not_found_as ErrAppNotFound (repo_GetByID appID) in
  let! id := new_id in
  let! now := time_now in
  do! repo_AddAppToGroup (mkAppGroupRel id appID groupID now) in
  publish (app_event AppGroupMemberAdded [("id", I64 groupID); ("app_id", I64 appID)]%string).
Definition RemoveAppFromGroup (groupID appID : Z) : Op unit :=
  do! requireAppGroup groupID in
  do! requireApp appID in
  do! not_found_as ErrAppNotFound (repo_RemoveAppFromGroup appID groupID) in
  publish (app_event AppGroupMemberRemoved [("id", I64 groupID); ("app_id", I64 appID)]%string).

(** ** Certificates *)

Definition kid_payload (kid : option string) : list (string * AVal) := match kid with Some k => [("kid"%string, Str k)] | None => [] end.
Definition CreateCert (d : Draws Key) (appID : Z) : Op AppCert :=
  do! guard (negb keyService) ErrKeyServiceUnavailable in
  let! _ := not_found_as ErrAppNotFound (repo_GetByID appID) in
  let! cert := RotateForApp d appID in
  do! publish (app_event AppCertCreated (("app_id"%string, I64 appID) :: kid_payload (ct_KID cert))) in
  ret cert.
Definition ListCerts (appID : Z) : Op (list AppCert) :=
  do! requireApp appID in repo_ListCertsByApp appID.
Definition DeleteCert (id : Z) : Op unit :=
  let! cert := not_found_as ErrCertNotFound (repo_GetCertByID id) in
  do! attempt (requireApp (ct_AppID cert)) (fun r =>
        match r with Err ErrAppNotFound => throw ErrCertNotFound | Err e => throw e | Ok _ => ret tt end) in
  do! not_found_as ErrCertNotFound (repo_DeleteCert id) in
  publish (app_event AppCertDeleted ([("app_id", I64 (ct_AppID cert)); ("cert_id", I64 id)]%string ++ kid_payload (ct_KID cert))).
End Apps.
Arguments AppWorld : clear implicits.
