(* ===== verification/AppsProps.v ===== *)
(** * AppsProps: what the tables of the applications keep, and whose rows a request may change

    [app_inv]: rows are stored under their keys, the indexes and checks hold, children have
    parents, a shared application is one without a tenant and never names users by the bare
    username, and no membership crosses tenants. [untouched]: the rows of the other tenants. *)

From stdpp Require Import sorting.
From Stdlib Require Import Ascii.
From S2P Require Import Mfa.
From S2P Require Import Prelude Statements Text Apps.
#[global] Open Scope Z_scope.

(** Two live rows that an index does not let stand together. *)
Definition same_app (a a' : App) : Prop :=
  ap_ClientID a <> None /\ ap_ClientID a' = ap_ClientID a
  \/ default 0 (ap_TenantID a') = default 0 (ap_TenantID a) /\ ap_Code a' = ap_Code a.
Definition shared_rule (a : App) : Prop :=
  (ap_Scope a = ScopeShared <-> ap_TenantID a = None) /\ (ap_TenantID a = None -> ap_SubjectStrategy a <> SubjectStrategyUsername).

Record apps_ok (m : gmap Z App) : Prop := {
  apps_keyed : forall id a, m !! id = Some a -> ap_ID a = id;
  apps_checked : forall id a, m !! id = Some a -> check_app a = None;
  apps_shared : forall id a, m !! id = Some a -> shared_rule a;
  apps_distinct : forall id a id' a', m !! id = Some a -> m !! id' = Some a' -> ap_DeletedAt a = None -> ap_DeletedAt a' = None ->
    same_app a a' -> id' = id
}.
Record groups_ok (m : gmap Z AppGroup) : Prop := {
  groups_keyed : forall id g, m !! id = Some g -> ag_ID g = id;
  groups_flat : forall id g, m !! id = Some g -> ag_ParentID g = None;
  groups_distinct : forall id g id' g', m !! id = Some g -> m !! id' = Some g' -> ag_TenantID g' = ag_TenantID g -> ag_Code g' = ag_Code g -> id' = id
}.
Record certs_ok (m : gmap Z AppCert) : Prop := {
  certs_keyed : forall id c, m !! id = Some c -> ct_ID c = id;
  kids_distinct : forall id c id' c', m !! id = Some c -> m !! id' = Some c' -> ct_KID c <> None -> ct_KID c' = ct_KID c -> id' = id
}.
Definition same_tenant (a : App) (g : AppGroup) : Prop := ap_TenantID a = None \/ ap_TenantID a = Some (ag_TenantID g).

Section Inv.
Context {G : Type} `{!IdGen G} {T Key : Type}.
Abbreviation W := (AppWorld G T).
Abbreviation Op := (M (Store W) AErr).
Implicit Types w : W.

Record app_inv w : Prop := {
  inv_apps : apps_ok (apps w);
  inv_groups : groups_ok (groups w);
  inv_certs : certs_ok (certs w);
  certs_owned : forall id c, certs w !! id = Some c -> is_Some (apps w !! ct_AppID c);
  rels_keyed : forall k r, rels w !! k = Some r -> k = (rl_AppID r, rl_GroupID r);
  rels_within : forall k r, rels w !! k = Some r -> exists a g, apps w !! k.1 = Some a /\ groups w !! k.2 = Some g /\ same_tenant a g
}.

(** The tenant of the context, the applications its request takes away, and the world it began in. *)
Context (t : Z) (gone : Z -> Prop) (w0 : W).
Abbreviation scope := (Some t).
Definition foreign (a : App) : Prop := app_in_scope scope a = false.
Definition foreign_group (g : AppGroup) : Prop := group_in_scope scope g = false.

Record untouched w : Prop := {
  un_apps : forall id a, foreign a -> apps w0 !! id = Some a <-> apps w !! id = Some a;
  un_groups : forall id g, foreign_group g -> groups w0 !! id = Some g <-> groups w !! id = Some g;
  un_certs : forall id c a, apps w0 !! ct_AppID c = Some a -> foreign a -> certs w0 !! id = Some c <-> certs w !! id = Some c;
  un_gone : forall id a, apps w0 !! id = Some a -> is_Some (apps w !! id) \/ (gone id /\ ~ foreign a);
  (** A membership in a group of another tenant goes with its application only. *)
  un_rels : forall k r g, groups w0 !! k.2 = Some g -> foreign_group g ->
    (rels w !! k = Some r -> rels w0 !! k = Some r) /\
    (rels w0 !! k = Some r -> rels w !! k = Some r \/ (gone k.1 /\ forall a, apps w0 !! k.1 = Some a -> ~ foreign a))
}.
Definition kept w : Prop := app_inv w /\ untouched w.

Lemma foreign_iff a : foreign a <-> exists t', ap_TenantID a = Some t' /\ t' <> t.
Proof.
  unfold foreign, app_in_scope. destruct (ap_TenantID a) as [t'|]; [|naive_solver].
  rewrite Z.eqb_neq. naive_solver.
Qed.
Lemma foreign_tenant a a' : ap_TenantID a' = ap_TenantID a -> foreign a' <-> foreign a.
Proof. intros E. rewrite !foreign_iff, E. done. Qed.
Lemma visible_not_foreign a : app_live scope a = true -> ~ foreign a.
Proof. unfold app_live, foreign. intros [_ ->]%andb_true_iff. done. Qed.
Lemma visible_group_not_foreign g : group_live scope g = true -> ~ foreign_group g.
Proof. unfold group_live, foreign_group. intros [_ ->]%andb_true_iff. done. Qed.
(** A visible row of now is no row of another tenant at the start. *)
Lemma visible_start w id a : untouched w -> apps w !! id = Some a -> app_live scope a = true -> forall a0, apps w0 !! id = Some a0 -> ~ foreign a0.
Proof.
  intros Hu Ha Hl a0 H0 Hf. apply (un_apps _ Hu) in H0; [|done]. rewrite Ha in H0. injection H0 as <-. by apply (visible_not_foreign a).
Qed.
Lemma visible_group_start w id g : untouched w -> groups w !! id = Some g -> group_live scope g = true -> forall g0, groups w0 !! id = Some g0 -> ~ foreign_group g0.
Proof.
  intros Hu Ha Hl g0 H0 Hf. apply (un_groups _ Hu) in H0; [|done]. rewrite Ha in H0. injection H0 as <-. by apply (visible_group_not_foreign g).
Qed.

(** ** One lemma per table *)

(** The applications may change, each keeping its tenant, none of another tenant. *)
Lemma apps_J f w :
  kept w -> apps_ok (f (apps w)) ->
  (forall id a, apps w !! id = Some a -> exists a', f (apps w) !! id = Some a' /\ ap_TenantID a' = ap_TenantID a) ->
  (forall id a, foreign a -> apps w !! id = Some a <-> f (apps w) !! id = Some a) ->
  kept (with_apps f w).
Proof.
  intros [[Ha Hg Hc Hco Hrk Hrw] [Ua Ug Uc Ud Ur]] Hok Hext Hfor. split.
  - split; cbn; [done..| | done |].
    + intros id c [a Hx]%Hco. destruct (Hext _ _ Hx) as (a' & -> & _). eauto.
    + intros k r (a & g & H1 & H2 & H3)%Hrw. destruct (Hext _ _ H1) as (a' & -> & E). exists a', g. split_and!; [done..|].
      unfold same_tenant. by rewrite E.
  - split; cbn; [|done|done| |done].
    + intros id a Hf. rewrite (Ua id a Hf). by apply Hfor.
    + intros id a [[b Hb]|?]%Ud; [|by right]. destruct (Hext _ _ Hb) as (b' & -> & _). left. by eexists.
Qed.

(** A new row, or a row over one the tenant sees. *)
Lemma put_apps_ok m a :
  apps_ok m -> check_app a = None -> app_conflict m a = None -> shared_rule a -> apps_ok (<[ap_ID a := a]> m).
Proof.
  intros [Hk Hc Hs Hd] Hchk Hcon Hsh.
  assert (forall id b, m !! id = Some b -> id <> ap_ID a -> ap_DeletedAt a = None -> ap_DeletedAt b = None -> ~ same_app a b) as Hnew.
  { intros id b Hb Hne Da Db Hsame. unfold app_conflict in Hcon. rewrite bool_decide_eq_true_2 in Hcon by done. cbn [negb] in Hcon.
    assert (other_app a b) as Ho by (split; [by rewrite (Hk _ _ Hb) | done]).
    case_bool_decide as H1; [done|]. case_bool_decide as H2; [done|].
    destruct Hsame as [[? ?]|[? ?]]; [apply H1 | apply H2]; exists id, b; done. }
  split.
  - intros id b. rewrite lookup_insert_Some. intros [[<- <-]|[_ H]]; [done | by apply Hk].
  - intros id b. rewrite lookup_insert_Some. intros [[<- <-]|[_ H]]; [done | by eapply Hc].
  - intros id b. rewrite lookup_insert_Some. intros [[<- <-]|[_ H]]; [done | by eapply Hs].
  - intros id b id' b'. rewrite !lookup_insert_Some. intros [[<- <-]|[N1 H1]] [[<- <-]|[N2 H2]] D1 D2 Hx; [done| | |by eapply Hd].
    + exfalso. by eapply (Hnew id').
    + exfalso. eapply (Hnew id); [done..|]. unfold same_app in *. destruct Hx as [[? E]|[? ?]]; [left | by right]. rewrite <- E. split; congruence.
Qed.

Lemma put_app_J a a0 w w' :
  kept w -> apps w !! ap_ID a = Some a0 -> app_live scope a0 = true -> ap_TenantID a = ap_TenantID a0 -> shared_rule a ->
  put_app a w = Ok w' -> kept w'.
Proof.
  intros HJ H0 Hl Ht Hsh. unfold put_app. destruct (check_app a) eqn:Hchk; [done|]. destruct (app_conflict _ _) eqn:Hcon; [done|].
  intros [= <-]. apply apps_J; [done | apply put_apps_ok; [apply HJ | done..] | |].
  - intros id b Hb. destruct (decide (id = ap_ID a)) as [->|Hne]; [|rewrite lookup_insert_ne by done; eauto].
    rewrite lookup_insert_eq. rewrite H0 in Hb. injection Hb as <-. eauto.
  - intros id b Hf. destruct (decide (id = ap_ID a)) as [->|Hne]; [|by rewrite lookup_insert_ne].
    rewrite lookup_insert_eq, H0. apply visible_not_foreign in Hl. split; intros [= <-]; exfalso; apply Hl; [done|].
    by apply (foreign_tenant a0 a).
Qed.

Lemma insert_app_J a w w' : kept w -> ~ foreign a -> shared_rule a -> insert_app a w = Ok w' -> kept w' /\ apps w' !! ap_ID a = Some a /\ apps w !! ap_ID a = None /\ (gone (ap_ID a) \/ apps w0 !! ap_ID a = None).
Proof.
  intros HJ Hnf Hsh. unfold insert_app. case_bool_decide as Hno; [done|]. apply eq_None_not_Some in Hno.
  unfold put_app. destruct (check_app a) eqn:Hchk; [done|]. destruct (app_conflict _ _) eqn:Hcon; [done|].
  intros [= <-]. split; [|cbn; rewrite lookup_insert_eq; split_and!; [done..|]; destruct (apps w0 !! ap_ID a) as [b|] eqn:Hb; [left | by right];
    destruct (un_gone _ (proj2 HJ) _ _ Hb) as [[x Hx]|[? _]]; [congruence | done]].
  apply apps_J; [done | apply put_apps_ok; [apply HJ | done..] | |].
  - intros id b Hb. rewrite lookup_insert_ne by congruence. eauto.
  - intros id b Hf. destruct (decide (id = ap_ID a)) as [->|Hne]; [|by rewrite lookup_insert_ne].
    rewrite lookup_insert_eq, Hno. split; [done|]. intros [= <-]. done.
Qed.

(** An update of columns that no index, check or rule looks at. *)
Definition plain_update (f : App -> App) : Prop := forall a,
  ap_ID (f a) = ap_ID a /\ ap_TenantID (f a) = ap_TenantID a /\ ap_Scope (f a) = ap_Scope a /\ ap_Code (f a) = ap_Code a /\
  ap_ClientID (f a) = ap_ClientID a /\ ap_DeletedAt (f a) = ap_DeletedAt a /\ ap_SubjectStrategy (f a) = ap_SubjectStrategy a /\
  ap_Protocol (f a) = ap_Protocol a /\ ap_ClientType (f a) = ap_ClientType a /\ ap_ClientSecret (f a) = ap_ClientSecret a.

Lemma plain_apps_ok m f id a : plain_update f -> m !! id = Some a -> apps_ok m -> apps_ok (<[id := f a]> m).
Proof.
  intros Hf Ha [Hk Hc Hs Hd].
  assert (forall i b, <[id := f a]> m !! i = Some b -> exists b0, m !! i = Some b0 /\ (b = f b0 \/ b = b0)) as Hold.
  { intros i b. rewrite lookup_insert_Some. intros [[<- <-]|[_ H]]; eauto. }
  assert (forall b, check_app (f b) = check_app b /\ (shared_rule b -> shared_rule (f b))) as Hsame.
  { intros b. destruct (Hf b) as (E1 & E2 & E3 & E4 & E5 & E6 & E7 & E8 & E9 & E10). unfold check_app, shared_rule. by rewrite E2, E3, E7, E8, E9, E10. }
  split.
  - intros i b (b0 & H0 & [->| ->])%Hold; [|by apply Hk]. destruct (Hf b0) as (-> & _). by apply Hk.
  - intros i b (b0 & H0 & [->| ->])%Hold; [|by eapply Hc]. destruct (Hsame b0) as [-> _]. by eapply Hc.
  - intros i b (b0 & H0 & [->| ->])%Hold; [|by eapply Hs]. destruct (Hsame b0) as [_ H]. by eapply H, Hs.
  - intros i b i' b' (b0 & H0 & E0)%Hold (b1 & H1 & E1)%Hold. destruct (Hf b0) as (_ & T0 & _ & C0 & I0 & D0 & _), (Hf b1) as (_ & T1 & _ & C1 & I1 & D1 & _).
    unfold same_app. intros X0 X1 Hx. eapply Hd; [exact H0 | exact H1 | destruct E0; congruence | destruct E1; congruence|].
    unfold same_app. destruct E0 as [->| ->], E1 as [->| ->]; rewrite ?T0, ?T1, ?C0, ?C1, ?I0, ?I1 in Hx; done.
Qed.

Lemma update_app_J id f w w' : kept w -> plain_update f -> update_app scope id f w = Ok w' -> kept w'.
Proof.
  intros HJ Hf. unfold update_app. destruct (apps w !! id) as [a|] eqn:Ha; [|done]. destruct (app_live scope a) eqn:Hl; [|done].
  intros [= <-]. destruct (Hf a) as (_ & Ht & _). apply apps_J; [done | by apply plain_apps_ok; [| |apply HJ] | |].
  - intros i b Hb. destruct (decide (i = id)) as [->|Hne]; [|rewrite lookup_insert_ne by done; eauto].
    rewrite lookup_insert_eq. rewrite Ha in Hb. injection Hb as <-. eauto.
  - intros i b Hfor. destruct (decide (i = id)) as [->|Hne]; [|by rewrite lookup_insert_ne].
    rewrite lookup_insert_eq, Ha. apply visible_not_foreign in Hl. split; intros [= <-]; exfalso; apply Hl; [done|].
    by apply (foreign_tenant a (f a)).
Qed.

Lemma apps_ok_sub m m' : (forall id a, m' !! id = Some a -> m !! id = Some a) -> apps_ok m -> apps_ok m'.
Proof. intros Hs [Hk Hc Hsh Hd]. split; eauto. Qed.
Lemma certs_ok_sub m m' : (forall id c, m' !! id = Some c -> m !! id = Some c) -> certs_ok m -> certs_ok m'.
Proof. intros Hs [Hk Hd]. split; eauto. Qed.

Lemma delete_app_J id w : gone id \/ apps w0 !! id = None -> app_inv w0 -> kept w -> kept (delete_app scope id w).
Proof.
  intros Hgone HI0 HJ. unfold delete_app. destruct (apps w !! id) as [a|] eqn:Ha; [|done]. destruct (app_in_scope scope a) eqn:Hl; [|done].
  destruct HJ as [[Hap Hg Hc Hco Hrk Hrw] [Ua Ug Uc Ud Ur]].
  assert (forall a0, apps w0 !! id = Some a0 -> ~ foreign a0) as Hstart.
  { intros a0 H0 Hf. apply Ua in H0; [|done]. rewrite Ha in H0. injection H0 as <-. unfold foreign in Hf. congruence. }
  split; split; cbn.
  - eapply apps_ok_sub; [|exact Hap]. intros i b [_ H]%lookup_delete_Some. done.
  - done.
  - eapply certs_ok_sub; [|exact Hc]. intros i c [H _]%map_lookup_filter_Some. done.
  - intros i c [H Hne]%map_lookup_filter_Some. cbn in Hne. rewrite lookup_delete_ne by done. by eapply Hco.
  - intros k r [H _]%map_lookup_filter_Some. by apply Hrk.
  - intros k r [H Hne]%map_lookup_filter_Some. cbn in Hne. destruct (Hrw _ _ H) as (b & g & H1 & H2 & H3). exists b, g.
    rewrite lookup_delete_ne by done. done.
  - intros i b Hf. rewrite (Ua i b Hf), lookup_delete_Some. split; [|by intros [_ ?]]. intros Hb. split; [|done]. intros <-. unfold foreign in Hf. congruence.
  - done.
  - intros i c b H0 Hf. rewrite (Uc i c b H0 Hf), map_lookup_filter_Some. split; [|by intros [? _]]. intros Hci. split; [done|]. cbn.
    intros E. rewrite E in H0. by eapply Hstart.
  - intros i b H0. destruct (decide (i = id)) as [->|Hne]; [|rewrite lookup_delete_ne by done; by apply Ud].
    destruct Hgone as [Hgo|Hno]; [|congruence]. right. split; [done | by apply Hstart].
  - intros k r g H1 Hfg. destruct (Ur k r g H1 Hfg) as [Hback Hforth]. split; [by intros [? _]%map_lookup_filter_Some; auto|].
    intros Hk. destruct (Hforth Hk) as [Hk'|?]; [|by right]. destruct (decide (k.1 = id)) as [E|Hne]; [right | left; by apply map_lookup_filter_Some].
    rewrite E. destruct Hgone as [Hgo|Hno]; [split; [done | by apply Hstart]|]. destruct (rels_within _ HI0 _ _ Hk) as (b & _ & Hb & _). congruence.
Qed.

(** Certificates of an application the tenant sees. *)
Lemma certs_J f w :
  kept w -> certs_ok (f (certs w)) -> (forall id c, f (certs w) !! id = Some c -> is_Some (apps w !! ct_AppID c)) ->
  (forall id c a, apps w0 !! ct_AppID c = Some a -> foreign a -> certs w !! id = Some c <-> f (certs w) !! id = Some c) ->
  kept (with_certs f w).
Proof.
  intros [[Hap Hg Hc Hco Hrk Hrw] [Ua Ug Uc Ud Ur]] Hok Hown Hfor. split; split; cbn; try done.
  intros id c a H0 Hf. rewrite (Uc id c a H0 Hf). by eapply Hfor.
Qed.

Lemma insert_cert_J c a w w' :
  kept w -> apps w !! ct_AppID c = Some a -> app_live scope a = true -> insert_cert c w = Ok w' ->
  kept w' /\ w' = with_certs <[ct_ID c := c]> w /\ certs w !! ct_ID c = None.
Proof.
  intros HJ Ha Hl. unfold insert_cert. case_bool_decide as Hno; [done|]. apply eq_None_not_Some in Hno. case_bool_decide as Hkid; [done|].
  destruct (negb _); [done|]. intros [= <-]. split; [|done]. destruct (inv_certs _ (proj1 HJ)) as [Hk Hd]. apply certs_J; [done | | |].
  - split.
    + intros i b. rewrite lookup_insert_Some. intros [[<- <-]|[_ H]]; [done | by apply Hk].
    + intros i b i' b'. rewrite !lookup_insert_Some. intros [[<- <-]|[N1 H1]] [[<- <-]|[N2 H2]] X1 X2; [done| | |by eapply Hd].
      * exfalso. apply Hkid. exists i', b'. done.
      * exfalso. apply Hkid. exists i, b. split_and!; [done | congruence | done].
  - intros i b. rewrite lookup_insert_Some. intros [[<- <-]|[_ H]]; [eauto | by eapply (certs_owned _ (proj1 HJ))].
  - intros i b a0 H0 Hf. destruct (decide (i = ct_ID c)) as [->|Hne]; [|by rewrite lookup_insert_ne].
    rewrite lookup_insert_eq, Hno. split; [done|]. intros [= <-]. exfalso. by eapply (visible_start w); [apply HJ | exact Ha | done | exact H0 |].
Qed.

(** A change of the certificates of one application, none of which comes new. *)
Lemma narrow_certs_J appID a f w :
  kept w -> apps w !! appID = Some a -> app_live scope a = true -> certs_ok (f (certs w)) ->
  (forall id c, f (certs w) !! id = Some c -> exists c0, certs w !! id = Some c0 /\ ct_AppID c0 = ct_AppID c) ->
  (forall id c, ct_AppID c <> appID -> certs w !! id = Some c <-> f (certs w) !! id = Some c) ->
  kept (with_certs f w).
Proof.
  intros HJ Ha Hl Hok Hold Hother. apply certs_J; [done | done | |].
  - intros id c (c0 & H0 & <-)%Hold. by eapply (certs_owned _ (proj1 HJ)).
  - intros id c a0 H0 Hf. apply Hother. intros E. rewrite E in H0. by eapply (visible_start w); [apply HJ | exact Ha | done | exact H0 |].
Qed.

Lemma demoted_same appID newID c :
  ct_ID (demoted appID newID c) = ct_ID c /\ ct_KID (demoted appID newID c) = ct_KID c /\ ct_AppID (demoted appID newID c) = ct_AppID c
  /\ (ct_AppID c <> appID -> demoted appID newID c = c).
Proof. unfold demoted. split_and!; [by destruct (_ && _ && _)..|]. intros Hne. by rewrite bool_decide_eq_false_2. Qed.

Lemma demote_J appID newID a w : kept w -> apps w !! appID = Some a -> app_live scope a = true -> kept (demote_others appID newID w).
Proof.
  intros HJ Ha Hl. destruct (inv_certs _ (proj1 HJ)) as [Hk Hd]. pose proof (demoted_same appID newID) as Hs.
  eapply narrow_certs_J; [done | exact Ha | done | split | |].
  - intros id c (c0 & <- & H0)%lookup_fmap_Some. rewrite (proj1 (Hs c0)). by apply Hk.
  - intros i c i' c' (c0 & <- & H0)%lookup_fmap_Some (c1 & <- & H1)%lookup_fmap_Some.
    rewrite !(proj1 (proj2 (Hs _))). by eapply Hd.
  - intros id c (c0 & <- & H0)%lookup_fmap_Some. exists c0. split; [done|]. by destruct (Hs c0) as (_ & _ & -> & _).
  - intros id c Hne. rewrite lookup_fmap_Some. split.
    + intros Hc. exists c. split; [|done]. by apply Hs.
    + intros (c0 & E & H0). destruct (Hs c0) as (_ & _ & E2 & E3). rewrite E in E2. rewrite <- E, E3 by congruence. done.
Qed.

Lemma delete_cert_J id c a w : kept w -> certs w !! id = Some c -> apps w !! ct_AppID c = Some a -> app_live scope a = true -> kept (with_certs (delete id) w).
Proof.
  intros HJ Hc Ha Hl. eapply narrow_certs_J; [done | exact Ha | done | | |].
  - eapply certs_ok_sub; [|apply HJ]. by intros i b [_ ?]%lookup_delete_Some.
  - intros i b [_ H]%lookup_delete_Some. eauto.
  - intros i b Hne. rewrite lookup_delete_Some. split; [|by intros [_ ?]]. intros Hb. split; [|done]. intros <-. congruence.
Qed.

(** Groups *)
Lemma insert_group_J g w w' : kept w -> ~ foreign_group g -> ag_ParentID g = None -> insert_group g w = Ok w' -> kept w'.
Proof.
  intros [[Hap [Hgk Hgf Hgd] Hc Hco Hrk Hrw] [Ua Ug Uc Ud Ur]] Hnf Hpar. unfold insert_group, put_group. case_bool_decide as Hno; [done|]. apply eq_None_not_Some in Hno.
  unfold group_conflict. case_bool_decide as Hcon; [done|]. intros [= <-].
  assert (forall i b, groups w !! i = Some b -> ag_TenantID b = ag_TenantID g -> ag_Code b = ag_Code g -> False) as Hnew.
  { intros i b Hb E1 E2. apply Hcon. exists i, b. split_and!; [done | rewrite (Hgk _ _ Hb); congruence | done..]. }
  split; split; cbn; try done.
  - split.
    + intros i b. rewrite lookup_insert_Some. intros [[<- <-]|[_ H]]; [done | by apply Hgk].
    + intros i b. rewrite lookup_insert_Some. intros [[<- <-]|[_ H]]; [done | by eapply Hgf].
    + intros i b i' b'. rewrite !lookup_insert_Some. intros [[<- <-]|[N1 H1]] [[<- <-]|[N2 H2]] X1 X2; [done | by destruct (Hnew _ _ H2) | by destruct (Hnew _ _ H1) | by eapply Hgd].
  - intros k r (a & b & H1 & H2 & H3)%Hrw. exists a, b. rewrite lookup_insert_ne by congruence. done.
  - intros i b Hf. destruct (decide (i = ag_ID g)) as [->|Hne]; [|rewrite lookup_insert_ne by done; by apply Ug].
    rewrite lookup_insert_eq, (Ug (ag_ID g) b Hf), Hno. split; [done|]. intros [= <-]. done.
Qed.

(** A group over one the tenant sees, with its tenant and code. *)
Lemma put_group_J g g0 w w' :
  kept w -> groups w !! ag_ID g = Some g0 -> group_live scope g0 = true -> ag_TenantID g = ag_TenantID g0 -> ag_ParentID g = None ->
  put_group g w = Ok w' -> kept w'.
Proof.
  intros [[Hap [Hgk Hgf Hgd] Hc Hco Hrk Hrw] [Ua Ug Uc Ud Ur]] H0 Hl Ht Hpar. unfold put_group, group_conflict. case_bool_decide as Hcon; [done|]. intros [= <-].
  assert (forall i b, i <> ag_ID g -> groups w !! i = Some b -> ag_TenantID b = ag_TenantID g -> ag_Code b = ag_Code g -> False) as Hnew.
  { intros i b Hne Hb E1 E2. apply Hcon. exists i, b. split_and!; [done | rewrite (Hgk _ _ Hb); congruence | done..]. }
  apply visible_group_not_foreign in Hl.
  split; split; cbn; try done.
  - split.
    + intros i b. rewrite lookup_insert_Some. intros [[<- <-]|[_ H]]; [done | by apply Hgk].
    + intros i b. rewrite lookup_insert_Some. intros [[<- <-]|[_ H]]; [done | by eapply Hgf].
    + intros i b i' b'. rewrite !lookup_insert_Some.
      intros [[<- <-]|[N1 H1]] [[<- <-]|[N2 H2]] X1 X2; [done | by destruct (Hnew _ _ (not_eq_sym N2) H2) | by destruct (Hnew _ _ (not_eq_sym N1) H1) | by eapply Hgd].
  - intros k r (a & b & H1 & H2 & H3)%Hrw. destruct (decide (k.2 = ag_ID g)) as [E|Hne].
    + exists a, g. rewrite E, lookup_insert_eq. rewrite E, H0 in H2. injection H2 as <-. split_and!; [done..|]. unfold same_tenant. by rewrite Ht.
    + exists a, b. rewrite lookup_insert_ne by done. done.
  - intros i b Hf. destruct (decide (i = ag_ID g)) as [->|Hne]; [|rewrite lookup_insert_ne by done; by apply Ug].
    rewrite lookup_insert_eq, (Ug (ag_ID g) b Hf), H0. split; intros [= <-]; exfalso; apply Hl; [done|].
    unfold foreign_group, group_in_scope in *. by rewrite <- Ht.
Qed.

Lemma delete_group_J id w : kept w -> kept (delete_group scope id w).
Proof.
  intros HJ. unfold delete_group. destruct (groups w !! id) as [g|] eqn:Hg; [|done]. destruct (group_in_scope scope g) eqn:Hl; [|done].
  destruct HJ as [[Hap [Hgk Hgf Hgd] Hc Hco Hrk Hrw] [Ua Ug Uc Ud Ur]].
  assert (((fun g => if bool_decide (ag_ParentID g = Some id) then set_parent None g else g) <$> delete id (groups w)) = delete id (groups w)) as Hflat.
  { rewrite <- (map_fmap_id (delete id (groups w))) at 2. apply map_fmap_ext. intros i b [_ Hb]%lookup_delete_Some.
    rewrite bool_decide_eq_false_2; [done|]. by rewrite (Hgf _ _ Hb). }
  assert (forall g0, groups w0 !! id = Some g0 -> ~ foreign_group g0) as Hstart.
  { intros g0 H0 Hf. apply Ug in H0; [|done]. rewrite Hg in H0. injection H0 as <-. unfold foreign_group in Hf. congruence. }
  split; split; cbn; try done; try rewrite Hflat.
  - split; intros i b; [intros [_ H]%lookup_delete_Some; eauto..|]. intros i' b' [_ H]%lookup_delete_Some [_ H']%lookup_delete_Some. by eapply Hgd.
  - intros k r [H _]%map_lookup_filter_Some. by apply Hrk.
  - intros k r [H Hne]%map_lookup_filter_Some. cbn in Hne. destruct (Hrw _ _ H) as (b & b' & H1 & H2 & H3). exists b, b'.
    rewrite lookup_delete_ne by done. done.
  - intros i b Hf. rewrite (Ug i b Hf), lookup_delete_Some. split; [|by intros [_ ?]]. intros Hb. split; [|done]. intros <-. unfold foreign_group in Hf. congruence.
  - intros k r g0 H1 Hfg. destruct (Ur k r g0 H1 Hfg) as [Hb Hf]. split; [by intros [? _]%map_lookup_filter_Some; auto|].
    intros [Hk|?]%Hf; [left | by right]. apply map_lookup_filter_Some. split; [done|]. cbn. intros E. rewrite E in H1. by eapply Hstart.
Qed.

(** Memberships, of a group the tenant sees. *)
Lemma rels_J f w :
  kept w -> (forall k r, f (rels w) !! k = Some r -> k = (rl_AppID r, rl_GroupID r)) ->
  (forall k r, f (rels w) !! k = Some r -> exists a g, apps w !! k.1 = Some a /\ groups w !! k.2 = Some g /\ same_tenant a g) ->
  (forall k r g, groups w0 !! k.2 = Some g -> foreign_group g -> rels w !! k = Some r <-> f (rels w) !! k = Some r) -> kept (with_rels f w).
Proof.
  intros [[Hap Hg Hc Hco Hrk Hrw] [Ua Ug Uc Ud Ur]] H1 H2 H3. split; split; cbn; try done.
  intros k r g X1 X2. destruct (Ur k r g X1 X2) as [Hb Hf]. pose proof (H3 k r g X1 X2) as H. split; [by intros ?%H; auto|].
  intros [?|?]%Hf; [left; by apply H | by right].
Qed.

Lemma insert_rel_J r a g w w' :
  kept w -> apps w !! rl_AppID r = Some a -> app_live scope a = true -> groups w !! rl_GroupID r = Some g -> group_live scope g = true ->
  insert_rel r w = Ok w' -> kept w'.
Proof.
  intros HJ Ha Hla Hg Hlg. unfold insert_rel. case_bool_decide as Hno; [by intros [= <-]|]. case_bool_decide; [done|]. destruct (negb _); [done|].
  intros [= <-]. destruct HJ as [HI HU]. apply rels_J; [done | | |].
  - intros k b. rewrite lookup_insert_Some. intros [[<- <-]|[_ H1]]; [done | by apply HI].
  - intros k b. rewrite lookup_insert_Some. intros [[<- <-]|[_ H1]]; [|by eapply (rels_within _ HI)]. exists a, g. split_and!; [done..|].
    unfold app_live, group_live in *. to_prop. unfold app_in_scope, group_in_scope, same_tenant in *. destruct (ap_TenantID a) as [t'|]; [|by left].
    to_prop. right. congruence.
  - intros k b g0 H0 Hf. destruct (decide (k = (rl_AppID r, rl_GroupID r))) as [->|Hne]; [|by rewrite lookup_insert_ne].
    exfalso. by eapply (visible_group_start w); [exact HU | exact Hg | done | exact H0 |].
Qed.

Lemma delete_rel_J k g w : kept w -> groups w !! k.2 = Some g -> group_live scope g = true -> kept (with_rels (delete k) w).
Proof.
  intros [HI HU] Hg Hl. apply rels_J; [done | | |].
  - intros k' r [_ H]%lookup_delete_Some. by apply HI.
  - intros k' r [_ H]%lookup_delete_Some. by eapply (rels_within _ HI).
  - intros k' r g0 H0 Hf. rewrite lookup_delete_Some. split; [|by intros [_ ?]]. intros H. split; [|done]. intros ->. by eapply (visible_group_start w); [exact HU | exact Hg | done | exact H0 |].
Qed.
End Inv.
