(* ===== verification/AppsTenants.v ===== *)
(** * AppsTenants: every request keeps the tables sound and the other tenants' rows as they were

    The requests of the console as one type of command, run in the context of one tenant; each
    keeps [kept] of AppsProps whichever statements fail. *)

From stdpp Require Import sorting.
From Stdlib Require Import Ascii.
From S2P Require Import Mfa.
From S2P Require Import Prelude Statements Text Apps AppsProps.
#[global] Open Scope Z_scope.

(** What the binding of a body lets through: scope is 1 or 2 when it is given. *)
Definition bound_create (req : CreateAppRequest) : Prop := ca_Scope req = None \/ ca_Scope req = Some ScopeTenant \/ ca_Scope req = Some ScopeShared.

Inductive AppCmd (Key : Type) : Type :=
| ACreate (d : Draws Key) (req : CreateAppRequest)
| AUpdate (id : Z) (req : UpdateAppRequest)
| ADelete (id : Z)
| AStatus (id status : Z)
| AConfig (id : Z) (config : Doc)
| APatch (id : Z) (patch : Doc)
| AImport (parse : string -> option SPMetadata) (id : Z) (xml : string)
| ASecret (d : Draws Key) (id : Z)
| AEmergency (d : Draws Key) (id : Z)
| ASigningKey (d : Draws Key) (id : Z)
| ACert (d : Draws Key) (id : Z)
| ADeleteCert (id : Z)
| ACreateGroup (req : AppGroupRequest)
| AUpdateGroup (id : Z) (req : UpdateAppGroupRequest)
| ADeleteGroup (id : Z)
| AAddMember (groupID appID : Z)
| ARemoveMember (groupID appID : Z).
Arguments ACreate {Key}. Arguments AUpdate {Key}. Arguments ADelete {Key}. Arguments AStatus {Key}. Arguments AConfig {Key}. Arguments APatch {Key}.
Arguments AImport {Key}. Arguments ASecret {Key}. Arguments AEmergency {Key}. Arguments ASigningKey {Key}. Arguments ACert {Key}. Arguments ADeleteCert {Key}.
Arguments ACreateGroup {Key}. Arguments AUpdateGroup {Key}. Arguments ADeleteGroup {Key}. Arguments AAddMember {Key}. Arguments ARemoveMember {Key}.

Section Commands.
Context {G : Type} `{!IdGen G} {T Key : Type} (ToLower : string -> string).
Context (lib : KeyLib Key) (masterKey : option MasterKey) (keyService licensed : bool) (protoDefaultsP : option (Z -> ProtocolDefaults)).
Context (tokenRevoker : option (string -> T -> T * (Z * bool))).
Context (HashPassword : string -> string -> option string).
Abbreviation W := (AppWorld G T).
Abbreviation Op := (M (Store W) AErr).

Definition void_app {A} (m : Op A) : Op unit := attempt m (fun _ => ret tt).
(** A request in the context of the tenant [t]. *)
Definition run_app (t : Z) (c : AppCmd Key) : Op unit :=
  match c with
  | ACreate d req => void_app (Create ToLower (Some t) lib masterKey keyService licensed protoDefaultsP HashPassword d t req)
  | AUpdate id req => void_app (Update ToLower (Some t) id req)
  | ADelete id => void_app (Delete (Some t) id)
  | AStatus id st => void_app (UpdateStatus (Some t) id st)
  | AConfig id c => void_app (UpdateProtocolConfig (Some t) id c)
  | APatch id p => void_app (PatchProtocolConfig (Some t) id p)
  | AImport parse id xml => void_app (ImportSAMLSPMetadata (Some t) parse id xml)
  | ASecret d id => void_app (RotateClientSecret (Some t) HashPassword d id)
  | AEmergency d id => void_app (EmergencyRevoke (Some t) tokenRevoker HashPassword d id)
  | ASigningKey d id => void_app (RotateSigningKey (Some t) lib masterKey keyService d id)
  | ACert d id => void_app (CreateCert (Some t) lib masterKey keyService d id)
  | ADeleteCert id => void_app (DeleteCert (Some t) id)
  | ACreateGroup req => void_app (CreateGroup (Some t) t req)
  | AUpdateGroup id req => void_app (UpdateGroup (Some t) id req)
  | ADeleteGroup id => void_app (DeleteGroup (Some t) id)
  | AAddMember g a => void_app (AddAppToGroup (Some t) g a)
  | ARemoveMember g a => void_app (RemoveAppFromGroup (Some t) g a)
  end.

(** The application a request names, if its context sees it. *)
Lemma got_app_in sc (P : W -> Prop) e id :
  on_db P (not_found_as e (repo_GetByID sc id))
    (fun w r => P w /\ match r with Ok a => apps w !! id = Some a /\ app_live sc a = true | Err _ => True end).
Proof.
  eapply (on_db_attempt _ _ _ (fun w r => P w /\ match r with Ok a => apps w !! id = Some a /\ app_live sc a = true | Err _ => True end)).
  - eapply (on_db_bind _ _ _ (fun w r => P w /\ match r with Ok a => a = apps w !! id | Err _ => True end));
      [by apply on_db_select | | by intros w x [H _]].
    intros [a|]; cbn; [|by apply on_db_throw; intros w []].
    destruct (app_live sc a) eqn:Hl; [apply on_db_ret | apply on_db_throw]; intros w [? ?]; split; done.
  - intros [a|x]; [by apply on_db_ret|]. destruct x; apply on_db_throw; intros w [? _]; done.
Qed.
Section Tenant.
Context (t : Z) (gone : Z -> Prop) (w0 : W).
Hypothesis start_inv : app_inv w0.
Abbreviation scope := (Some t).
Abbreviation JJ := (kept (G:=G) (T:=T) t gone w0).

(** [kept] looks at the tables only. *)
Definition same_tables (w w' : W) : Prop := apps w' = apps w /\ groups w' = groups w /\ rels w' = rels w /\ certs w' = certs w.
Lemma J_tables w w' : same_tables w w' -> JJ w -> JJ w'.
Proof.
  destruct w, w'. intros (E1 & E2 & E3 & E4). cbn in *. subst.
  intros [[] []]. by split; split.
Qed.

(** What leaves the tables alone keeps any fact about them. *)
Definition tables_only (P : W -> Prop) : Prop := forall w w', same_tables w w' -> P w -> P w'.
Lemma app_keeps_publish P e : tables_only P -> keeps P (publish (G:=G) (T:=T) e).
Proof. intros HP. apply keeps_write. intros w. by apply HP. Qed.
Lemma app_keeps_new_id P : tables_only P -> keeps P (new_id (G:=G) (T:=T)).
Proof. intros HP s Hs. unfold new_id. destruct (Generate _) as [g id]. cbn. revert Hs. by apply HP. Qed.
Lemma keeps_revoker P rv c : tables_only P -> keeps P (run_revoker (G:=G) (T:=T) rv c).
Proof. intros HP s Hs. unfold run_revoker. destruct (rv _ _) as [x r]. cbn. revert Hs. by apply HP. Qed.
Lemma app_keeps_now (P : W -> Prop) : keeps P (time_now (G:=G) (T:=T)).
Proof. apply keeps_gets. Qed.
Lemma keeps_or_throw {A} (P : W -> Prop) e (o : option A) : keeps P (or_throw (G:=G) (T:=T) e o).
Proof. destruct o; [apply keeps_ret | apply keeps_throw]. Qed.
Lemma keeps_mint (P : W -> Prop) (d : Draws Key) : keeps P (mint_secret (G:=G) (T:=T) HashPassword d).
Proof. apply keeps_bind; [apply keeps_or_throw|]. intros p. apply keeps_bind; [apply keeps_or_throw|]. intros h. apply keeps_ret. Qed.
Lemma keeps_not_found {A} (P : W -> Prop) e (m : Op A) : keeps P m -> keeps P (not_found_as e m).
Proof. intros Hm. apply keeps_attempt; [done|]. intros [a|[]]; (apply keeps_ret || apply keeps_throw). Qed.
Lemma tables_J : tables_only JJ.
Proof. intros w w'. apply J_tables. Qed.
Lemma tables_and P Q : tables_only P -> tables_only Q -> tables_only (fun w => P w /\ Q w).
Proof. intros HP HQ w w' Hs [H1 H2]. split; [by eapply HP | by eapply HQ]. Qed.
Lemma tables_app id a : tables_only (fun w : W => apps w !! id = Some a /\ app_live scope a = true).
Proof. intros w w' (-> & _). done. Qed.
Lemma tables_group id g : tables_only (fun w : W => groups w !! id = Some g /\ group_live scope g = true).
Proof. intros w w' (_ & -> & _). done. Qed.

(** A step that keeps the precondition. *)
Lemma on_db_then {A B} (P : W -> Prop) (m : Op A) (k : A -> Op B) :
  (forall w, P w -> JJ w) -> keeps P m -> (forall a, on_db P (k a) (fun w _ => JJ w)) -> on_db P (bind m k) (fun w _ => JJ w).
Proof. intros HP Hm Hk. eapply on_db_bind; [exact Hm | exact Hk | intros w e H; by apply HP]. Qed.
Lemma on_db_last {A} (P : W -> Prop) (m : Op A) : (forall w, P w -> JJ w) -> keeps P m -> on_db P m (fun w _ => JJ w).
Proof. intros HP Hm. eapply on_db_weaken; [exact Hm | done | intros w r H; by apply HP]. Qed.
Lemma on_db_guarded {B} (P : W -> Prop) b e (k : unit -> Op B) :
  (forall w, P w -> JJ w) -> (b = false -> on_db P (k tt) (fun w _ => JJ w)) -> on_db P (bind (guard b e) k) (fun w _ => JJ w).
Proof. intros HP Hk. destruct b; [intros s Hs; by apply HP | exact (Hk eq_refl)]. Qed.
Lemma on_db_seq {A B} (P : W -> Prop) (m : Op A) (k : A -> Op B) :
  on_db P m (fun w _ => JJ w) -> (forall a, keeps JJ (k a)) -> on_db P (bind m k) (fun w _ => JJ w).
Proof. intros Hm Hk. eapply on_db_bind; [exact Hm | exact Hk | done]. Qed.
(** A write under constraints, after which nothing else is written. *)
Lemma on_db_write_then {A} (P : W -> Prop) f (k : unit -> Op A) :
  (forall w, P w -> JJ w) -> (forall w w', P w -> f w = Ok w' -> JJ w') -> (forall u, keeps JJ (k u)) ->
  on_db P (bind (Statements.exec_or ErrDB f) k) (fun w _ => JJ w).
Proof.
  intros HP Hf Hk. eapply (on_db_bind _ _ _ (fun w _ => JJ w)); [apply on_db_exec_or; eauto | apply Hk | done].
Qed.

(** The application, or the group, a request names. *)
Definition sees id a (w : W) : Prop := JJ w /\ (apps w !! id = Some a /\ app_live scope a = true).
Definition sees_group id g (w : W) : Prop := JJ w /\ (groups w !! id = Some g /\ group_live scope g = true).
Lemma tables_sees id a : tables_only (sees id a).
Proof. apply tables_and; [apply tables_J | apply tables_app]. Qed.
Lemma tables_sees_group id g : tables_only (sees_group id g).
Proof. apply tables_and; [apply tables_J | apply tables_group]. Qed.
Lemma sees_J id a w : sees id a w -> JJ w.
Proof. by intros []. Qed.
Lemma sees_group_J id g w : sees_group id g w -> JJ w.
Proof. by intros []. Qed.

Lemma got_app (P : W -> Prop) e id :
  on_db P (not_found_as e (repo_GetByID scope id))
    (fun w r => P w /\ match r with Ok a => apps w !! id = Some a /\ app_live scope a = true | Err _ => True end).
Proof. apply got_app_in. Qed.
Lemma got_group (P : W -> Prop) e id :
  on_db P (not_found_as e (repo_GetGroupByID scope id))
    (fun w r => P w /\ match r with Ok g => groups w !! id = Some g /\ group_live scope g = true | Err _ => True end).
Proof.
  eapply (on_db_attempt _ _ _ (fun w r => P w /\ match r with Ok g => groups w !! id = Some g /\ group_live scope g = true | Err _ => True end)).
  - eapply (on_db_bind _ _ _ (fun w r => P w /\ match r with Ok g => g = groups w !! id | Err _ => True end));
      [by apply on_db_select | | by intros w x [H _]].
    intros [a|]; cbn; [|by apply on_db_throw; intros w []].
    destruct (group_live scope a) eqn:Hl; [apply on_db_ret | apply on_db_throw]; intros w [? ?]; split; done.
  - intros [a|x]; [by apply on_db_ret|]. destruct x; apply on_db_throw; intros w [? _]; done.
Qed.
Lemma keeps_with_app {A} e id (k : App -> Op A) :
  (forall a, on_db (sees id a) (k a) (fun w _ => JJ w)) -> keeps JJ (bind (not_found_as e (repo_GetByID scope id)) k).
Proof. intros Hk. eapply on_db_bind; [apply (got_app JJ) | exact Hk | by intros w x [H _]]. Qed.
Lemma keeps_with_group {A} e id (k : AppGroup -> Op A) :
  (forall g, on_db (sees_group id g) (k g) (fun w _ => JJ w)) -> keeps JJ (bind (not_found_as e (repo_GetGroupByID scope id)) k).
Proof. intros Hk. eapply on_db_bind; [apply (got_group JJ) | exact Hk | by intros w x [H _]]. Qed.
Hint Resolve tables_J tables_sees tables_sees_group app_keeps_publish app_keeps_new_id keeps_revoker app_keeps_now keeps_or_throw keeps_mint keeps_not_found : mxid.
Hint Resolve sees_J sees_group_J : mxid.

(** ** The operations on one application *)

Lemma shared_kept a a' : shared_rule a -> ap_Scope a' = ap_Scope a -> ap_TenantID a' = ap_TenantID a ->
  (ap_SubjectStrategy a' = ap_SubjectStrategy a \/ (ap_Scope a <> ScopeShared \/ ap_SubjectStrategy a' <> SubjectStrategyUsername)) -> shared_rule a'.
Proof.
  intros [H1 H2] E1 E2 E3. split; rewrite ?E1, E2; [done|]. intros Hn. destruct E3 as [->|[Hs|Hs]]; [by apply H2 | by apply H1 in Hn | done].
Qed.

Lemma sees_row id a w : sees id a w -> ap_ID a = id /\ shared_rule a /\ apps w !! ap_ID a = Some a.
Proof. intros [[HI _] [Ha Hl]]. pose proof (apps_keyed _ (inv_apps _ HI) _ _ Ha) as E. rewrite E. split_and!; [done | by eapply (apps_shared _ (inv_apps _ HI)) | done]. Qed.

(** A Save of the row that was read, with its tenant and within the rule for shared ones. *)
Lemma save_J {A} id a a' (k : unit -> Op A) :
  ap_ID a' = ap_ID a -> ap_TenantID a' = ap_TenantID a -> (shared_rule a -> shared_rule a') -> (forall u, keeps JJ (k u)) ->
  on_db (sees id a) (bind (repo_Update a') k) (fun w _ => JJ w).
Proof.
  intros E1 E2 E3 Hk. apply on_db_write_then; [by intros w [] | | done]. intros w w' Hs. destruct (sees_row _ _ _ Hs) as (_ & Hr & Hrow).
  destruct Hs as [HJ [_ Hl]]. eapply put_app_J; [exact HJ | by rewrite E1 | done | done | by apply E3].
Qed.

Lemma RotateClientSecret_J (d : Draws Key) id : keeps JJ (RotateClientSecret scope HashPassword d id).
Proof.
  apply keeps_with_app. intros a. apply on_db_then; [eauto with mxid..|]. intros _. apply on_db_then; [eauto with mxid..|]. intros s.
  apply on_db_then; [eauto with mxid..|]. intros now. apply save_J; [done | done | by intros Hr; eapply shared_kept; eauto | eauto with mxid].
Qed.

Lemma EmergencyRevoke_J (d : Draws Key) id : keeps JJ (EmergencyRevoke scope tokenRevoker HashPassword d id).
Proof.
  apply keeps_with_app. intros a. apply (on_db_weaken _ JJ _ _ (fun w _ => JJ w)); [|by intros w []|done]. apply keeps_bind.
  - destruct (needsClientSecret _ _); [|eauto with mxid]. apply keeps_bind; [apply RotateClientSecret_J | eauto with mxid].
  - intros p. unfold publishEmergencyRevoke. destruct tokenRevoker as [rv|]; [|eauto 10 with mxid].
    case_bool_decide; [eauto 10 with mxid|]. apply keeps_bind; [eauto with mxid|]. intros n. destruct n.2; eauto 10 with mxid.
Qed.

Lemma Update_J id req : keeps JJ (Update ToLower scope id req).
Proof.
  apply keeps_with_app. intros a. apply on_db_guarded; [eauto with mxid|]. intros Hg. apply on_db_then; [eauto with mxid..|]. intros now. apply save_J; [done | done | | eauto with mxid].
  intros Hr. eapply shared_kept; [exact Hr | done | done |]. cbn. unfold new_strategy.
  destruct (ua_SubjectStrategy req) as [st|] eqn:Hst; [|by left]. destruct (bool_decide (st = _)); [by left|]. right.
  apply andb_false_iff in Hg as [Hg|Hg]; to_prop; [by left | right; congruence].
Qed.

Lemma Delete_J id : gone id -> keeps JJ (Delete scope id).
Proof.
  intros Hgone. apply keeps_with_app. intros a. eapply (on_db_bind _ _ _ (fun w _ => JJ w)); [|intros u; apply app_keeps_publish; eauto with mxid | done].
  apply on_db_exec; intros w [HJ _]; [by apply delete_app_J; [left|..] | done].
Qed.

Lemma update_row_J id f : plain_update f -> keeps JJ (Statements.exec_or ErrDB (update_app scope id f)).
Proof. intros Hf. apply keeps_exec_or. intros w w' HJ. by apply update_app_J. Qed.
Lemma status_plain st now : plain_update (set_app_status st now).
Proof. by intros a. Qed.
Lemma config_plain d now : plain_update (set_config d now).
Proof. by intros a. Qed.
Hint Resolve update_row_J status_plain config_plain : mxid.

Lemma UpdateStatus_J id st : keeps JJ (UpdateStatus scope id st).
Proof. unfold UpdateStatus, repo_UpdateStatus. eauto 10 with mxid. Qed.

Lemma writeProtocolConfig_J id c m : keeps JJ (writeProtocolConfig scope id c m).
Proof.
  apply keeps_bind; [|intros b; unfold repo_UpdateProtocolConfig; eauto 10 with mxid].
  apply keeps_with_app. intros a. apply on_db_last; eauto with mxid.
Qed.

Lemma Import_J parse id xml : keeps JJ (ImportSAMLSPMetadata scope parse id xml).
Proof.
  apply keeps_with_app. intros a. apply (on_db_weaken _ JJ _ _ (fun w _ => JJ w)); [|by intros w []|done].
  apply keeps_bind; [eauto with mxid|]. intros _. apply keeps_bind; [eauto with mxid|]. intros p.
  apply keeps_bind; [apply writeProtocolConfig_J | eauto with mxid].
Qed.

(** ** Keys *)

(** The key is made for an application the tenant sees; what else is known of it stays. *)
Lemma Generate_J (d : Draws Key) id a :
  on_db (sees id a) (GenerateForApp lib masterKey d id)
    (fun w r => sees id a w /\ match r with Ok c => certs w !! ct_ID c = Some c /\ ct_AppID c = id | Err _ => True end).
Proof.
  unfold GenerateForApp. destruct masterKey as [mk|]; [|by apply on_db_throw].
  assert (forall {A B} (m : Op A) (k : A -> Op B) (Q : W -> res AErr B -> Prop), keeps (sees id a) m ->
    (forall x, on_db (sees id a) (k x) (fun w r => sees id a w /\ Q w r)) -> (forall w e, Q w (Err e)) ->
    on_db (sees id a) (bind m k) (fun w r => sees id a w /\ Q w r)) as Hthen.
  { intros A B m k Q Hm Hk He. eapply on_db_bind; [exact Hm | exact Hk | by split]. }
  do 5 (apply Hthen; [eauto with mxid | intros ? | done]). apply Hthen; [eauto with mxid | intros cid | done].
  set (c := mkAppCert _ _ _ _ _ _ _ _ _ _ _ _).
  eapply (on_db_bind _ _ _ (fun w r => sees id a w /\ match r with Ok _ => certs w !! ct_ID c = Some c | Err _ => True end));
    [|intros u; apply on_db_ret; intros w [? ?]; done | by intros w e [? _]].
  apply on_db_exec_or; [|by intros w e Hs _..|by intros w Hs]. intros w w' [HJ [Ha Hl]] Hi.
  destruct (insert_cert_J t gone w0 c a w w' HJ Ha Hl Hi) as (HJ' & -> & _). split; [split; [done | done]|]. cbn. by rewrite lookup_insert_eq.
Qed.

Lemma RotateForApp_J (d : Draws Key) id a : on_db (sees id a) (RotateForApp lib masterKey d id) (fun w _ => JJ w).
Proof.
  unfold RotateForApp. destruct masterKey as [mk|] eqn:Hmk; [|apply on_db_last; eauto with mxid]. rewrite <- Hmk.
  eapply on_db_bind; [apply Generate_J | | by intros w e [[HJ _] _]]. intros c. cbn.
  eapply (on_db_attempt _ _ _ (fun w r => match r with Ok _ => JJ w | Err _ => sees id a w /\ certs w !! ct_ID c = Some c /\ ct_AppID c = id end)).
  - apply on_db_exec; [|done]. intros w [[HJ [Ha Hl]] _]. by eapply demote_J.
  - intros [u|e]; [by apply on_db_ret|]. eapply (on_db_attempt _ _ _ (fun w _ => JJ w)); [|intros r; by apply on_db_throw].
    apply on_db_exec; [|by intros w [[HJ _] _]]. intros w [[HJ [Ha Hl]] [Hc E]]. eapply delete_cert_J; [done | exact Hc | by rewrite E | done].
Qed.

Lemma RotateSigningKey_J (d : Draws Key) id : keeps JJ (RotateSigningKey scope lib masterKey keyService d id).
Proof.
  apply keeps_with_app. intros a. apply on_db_then; [eauto with mxid..|]. intros _.
  apply on_db_seq; [apply RotateForApp_J | eauto with mxid].
Qed.

Lemma CreateCert_J (d : Draws Key) id : keeps JJ (CreateCert scope lib masterKey keyService d id).
Proof.
  apply keeps_bind; [eauto with mxid|]. intros _. apply keeps_with_app. intros a.
  apply on_db_seq; [apply RotateForApp_J | eauto with mxid].
Qed.

Lemma DeleteCert_J id : keeps JJ (DeleteCert scope id).
Proof.
  eapply (on_db_bind _ _ _ (fun w r => JJ w /\ match r with Ok c => certs w !! id = Some c | Err _ => True end)).
  { eapply (on_db_attempt _ _ _ (fun w r => JJ w /\ match r with Ok c => certs w !! id = Some c | Err _ => True end)).
    - eapply (on_db_bind _ _ _ (fun w r => JJ w /\ match r with Ok c => c = certs w !! id | Err _ => True end));
        [by apply on_db_select | | by intros w x [H _]].
      intros [c|]; [apply on_db_ret | apply on_db_throw]; intros w [? ?]; done.
    - intros [c|x]; [by apply on_db_ret|]. destruct x; apply on_db_throw; intros w [? _]; done. }
  2: by intros w e [H _].
  intros c. cbn.
  eapply (on_db_bind _ _ _ (fun w r => JJ w /\ match r with Ok _ => certs w !! id = Some c /\ exists a, apps w !! ct_AppID c = Some a /\ app_live scope a = true
                                                        | Err _ => True end)).
  { eapply (on_db_attempt _ _ _ (fun w r => (JJ w /\ certs w !! id = Some c) /\ match r with Ok _ => exists a, apps w !! ct_AppID c = Some a /\ app_live scope a = true
                                                        | Err _ => True end)).
    - eapply on_db_bind; [apply (got_app (fun w => JJ w /\ certs w !! id = Some c)) | | done].
      intros a. apply on_db_ret. intros w [H1 H2]. split; [done | by exists a].
    - intros [u|x]; [apply on_db_ret; intros w [[? ?] ?]; done|]. destruct x; apply on_db_throw; intros w [[? _] _]; done. }
  2: by intros w e [H _].
  intros u. cbn. apply on_db_seq; [|intros u'; apply app_keeps_publish; eauto with mxid].
  eapply (on_db_attempt _ _ _ (fun w _ => JJ w)); [|intros [v|x]; [by apply on_db_ret | by destruct x; apply on_db_throw]].
  apply on_db_exec_or; [|by intros w e [H _] _ | by intros w [H _]].
  intros w w' (HJ & Hc & a & Ha & Hl). rewrite Hc. intros [= <-]. by eapply delete_cert_J.
Qed.

(** ** Groups *)

Lemma CreateGroup_J req : keeps JJ (CreateGroup scope t req).
Proof.
  do 4 (apply keeps_bind; [eauto with mxid | intros ?]). apply on_db_write_then; [done | | eauto with mxid].
  intros w w' HJ. apply insert_group_J; [done | | done]. unfold foreign_group, group_in_scope. cbn.
  destruct (t =? 0); by rewrite Z.eqb_refl.
Qed.
Lemma UpdateGroup_J id req : keeps JJ (UpdateGroup scope id req).
Proof.
  apply keeps_with_group. intros g. apply on_db_then; [eauto with mxid..|]. intros now.
  apply on_db_write_then; [eauto with mxid | | eauto with mxid]. intros w w' [HJ [Hg Hl]].
  pose proof (groups_keyed _ (inv_groups _ (proj1 HJ)) _ _ Hg) as <-. by eapply put_group_J.
Qed.
Lemma DeleteGroup_J id : keeps JJ (DeleteGroup scope id).
Proof.
  apply keeps_with_group. intros g. apply on_db_seq; [|intros u; apply app_keeps_publish; eauto with mxid].
  apply on_db_exec; intros w [HJ _]; [by apply delete_group_J | done].
Qed.

(** A group, then an application the tenant sees. *)
Lemma sees_both {A} e gid id g (k : App -> Op A) :
  (forall a, on_db (fun w => sees_group gid g w /\ (apps w !! id = Some a /\ app_live scope a = true)) (k a) (fun w _ => JJ w)) ->
  on_db (sees_group gid g) (bind (not_found_as e (repo_GetByID scope id)) k) (fun w _ => JJ w).
Proof. intros Hk. eapply on_db_bind; [apply (got_app (sees_group gid g)) | exact Hk | by intros w x [[H _] _]]. Qed.

Lemma AddAppToGroup_J gid id : keeps JJ (AddAppToGroup scope gid id).
Proof.
  apply keeps_with_group. intros g. apply sees_both. intros a.
  assert (tables_only (fun w => sees_group gid g w /\ (apps w !! id = Some a /\ app_live scope a = true))) as Ht by (apply tables_and; [eauto with mxid | apply tables_app]).
  do 2 (apply on_db_then; [by intros w [[H _] _] | eauto with mxid | intros ?]).
  apply on_db_write_then; [by intros w [[H _] _] | | intros u; apply app_keeps_publish; eauto with mxid].
  intros w w' [[HJ [Hg Hlg]] [Ha Hla]]. by eapply insert_rel_J.
Qed.
Lemma RemoveAppFromGroup_J gid id : keeps JJ (RemoveAppFromGroup scope gid id).
Proof.
  eapply (on_db_bind _ _ _ (fun w r => JJ w /\ match r with Ok _ => exists g, groups w !! gid = Some g /\ group_live scope g = true | Err _ => True end));
    [|intros u | by intros w e [H _]].
  { eapply on_db_bind; [apply (got_group JJ) | intros g; apply on_db_ret; intros w [H1 H2]; split; [done | by exists g] | done]. }
  eapply (on_db_bind _ _ _ (fun w r => JJ w /\ exists g, groups w !! gid = Some g /\ group_live scope g = true)); [|intros u' | by intros w e [H _]].
  { eapply on_db_bind; [apply (got_app (fun w => JJ w /\ exists g, groups w !! gid = Some g /\ group_live scope g = true)) | intros a; by apply on_db_ret; intros w [H _] | by intros w e [H _]]. }
  apply on_db_seq; [|intros u2; apply app_keeps_publish; eauto with mxid].
  eapply (on_db_attempt _ _ _ (fun w _ => JJ w)); [|intros [v|x]; [by apply on_db_ret | by destruct x; apply on_db_throw]].
  apply on_db_exec_or; [|by intros w e [H _] _ | by intros w [H _]].
  intros w w' (HJ & g & Hg & Hl). destruct (rels w !! _); [|done]. intros [= <-]. by eapply (delete_rel_J _ _ _ (id, gid)).
Qed.

(** ** Create *)

Lemma initial_shared defaults req : bound_create req ->
  let sc := default ScopeTenant (ca_Scope req) in
  (sc = ScopeShared <-> (if sc =? ScopeTenant then Some t else None) = None)
  /\ ((if sc =? ScopeTenant then Some t else None) = None -> initial_strategy defaults req sc <> SubjectStrategyUsername).
Proof.
  intros Hb sc. assert (sc = ScopeTenant \/ sc = ScopeShared) as [E|E] by (subst sc; destruct Hb as [->|[->| ->]]; cbn; auto); rewrite E; [done|].
  split; [done|]. intros _. unfold initial_strategy. cbn -[SubjectStrategyUsername SubjectStrategyUsernameSuffixed].
  case_bool_decide as Hs; [done | exact Hs].
Qed.

Lemma key_or_rollback_J (d : Draws Key) a : gone (ap_ID a) \/ apps w0 !! ap_ID a = None ->
  on_db (sees (ap_ID a) a) (key_or_rollback scope lib masterKey keyService d a) (fun w _ => JJ w).
Proof.
  intros Hfresh. unfold key_or_rollback. destruct (needs_key _); [|apply on_db_last; eauto with mxid].
  assert (forall e, on_db JJ (attempt (repo_Delete scope (ap_ID a)) (fun _ => throw (A:=string) e)) (fun w _ => JJ w)) as Hback.
  { intros e. eapply (on_db_attempt _ _ _ (fun w _ => JJ w)); [|by intros r; apply on_db_throw]. apply on_db_exec; [intros w HJ; by apply delete_app_J | done]. }
  destruct keyService; cbn [negb]; [|eapply on_db_weaken; [apply Hback | by intros w [] | done]].
  eapply on_db_attempt; [apply Generate_J|]. intros [c|e]; [by apply on_db_ret; intros w [[H _] _]|].
  eapply on_db_weaken; [apply Hback | by intros w [[H _] _] | done].
Qed.

Lemma Create_J (d : Draws Key) req : bound_create req ->
  keeps JJ (Create ToLower scope lib masterKey keyService licensed protoDefaultsP HashPassword d t req).
Proof.
  intros Hb. apply keeps_attempt.
  { apply keeps_bind; [eauto with mxid|]. intros [|a l]; eauto with mxid. }
  intros [a|[]]; try apply keeps_throw. do 3 (apply keeps_bind; [eauto with mxid | intros ?]).
  apply keeps_bind; [destruct (needsClientSecret _ _); [apply keeps_bind; eauto with mxid | eauto with mxid] | intros secret].
  do 3 (apply keeps_bind; [eauto with mxid | intros ?]). set (row := mkApp _ _ _ _ _ _ _ _ _ _ _ _ _ _ _ _ _ _ _ _ _ _ _ _ _ _ _).
  eapply (on_db_bind _ _ _ (fun w r => match r with Ok _ => sees (ap_ID row) row w /\ (gone (ap_ID row) \/ apps w0 !! ap_ID row = None) | Err _ => JJ w end));
    [| |done].
  - apply on_db_exec_or; [|done..]. intros w w' HJ Hi. destruct (insert_app_J t gone w0 row w w') as (HJ' & Ha & _ & Hfresh); [done | | |done |].
    + unfold foreign, app_in_scope, row. cbn. destruct (_ =? ScopeTenant); [|done]. by rewrite Z.eqb_refl.
    + exact (initial_shared _ _ Hb).
    + split; [|exact Hfresh]. split; [done|]. split; [done|]. unfold app_live, app_in_scope, row. cbn. destruct (_ =? ScopeTenant); [|done]. by rewrite Z.eqb_refl.
  - intros u. apply on_db_seq; [|eauto with mxid]. apply (on_db_pre _ _ _ (gone (ap_ID row) \/ apps w0 !! ap_ID row = None)); [by intros w []|].
    intros Hfresh. eapply on_db_weaken; [by apply key_or_rollback_J | by intros w [] | done].
Qed.

Definition bound_cmd (c : AppCmd Key) : Prop := match c with ACreate _ req => bound_create req | _ => True end.
Lemma run_app_J c : bound_cmd c -> (forall id, c = ADelete id -> gone id) -> keeps JJ (run_app t c).
Proof.
  intros Hb Hgone. destruct c; cbn in Hb |- *; (apply keeps_attempt; [|by intros r; apply keeps_ret]).
  - by apply Create_J.
  - apply Update_J.
  - by apply Delete_J, Hgone.
  - apply UpdateStatus_J.
  - apply writeProtocolConfig_J.
  - apply writeProtocolConfig_J.
  - apply Import_J.
  - apply RotateClientSecret_J.
  - apply EmergencyRevoke_J.
  - apply RotateSigningKey_J.
  - apply CreateCert_J.
  - apply DeleteCert_J.
  - apply CreateGroup_J.
  - apply UpdateGroup_J.
  - apply DeleteGroup_J.
  - apply AddAppToGroup_J.
  - apply RemoveAppFromGroup_J.
Qed.
End Tenant.

Lemma untouched_start t gone (w : W) : untouched t gone w w.
Proof. split; try done; [|by auto]. intros id a ->. left. by eexists. Qed.
Definition deletes (c : AppCmd Key) (id : Z) : Prop := c = ADelete id.
Lemma run_app_kept t c (s : Store W) : app_inv (sdb s) -> bound_cmd c -> kept t (deletes c) (sdb s) (sdb (run_app t c s).1).
Proof.
  intros HI Hc. apply (run_app_J t (deletes c) (sdb s) HI c Hc (fun id E => E) s). split; [done | apply untouched_start].
Qed.

(** One request after the other, each of some tenant; the driver fails what statements it fails,
    time passes, the bus is drained. *)
Inductive app_step : relation W :=
| step_request s t c : bound_cmd c -> app_step (sdb s) (sdb (run_app t c s).1)
| step_outside w w' : same_tables w w' -> app_step w w'.

(** C13: Whatever requests of whatever tenants run one after the other, and whichever of their
    statements fail, the tables stay sound: rows under their keys; client ids, codes, key ids and
    group codes unique; an OIDC client has a secret exactly when its kind needs one; certificates and
    memberships have their applications and groups, of one tenant; a shared application is one
    without a tenant and never names users by the bare username. *)
Theorem app_tables_stay_sound w w' : app_inv w -> rtc app_step w w' -> app_inv w'.
Proof.
  intros HI Hr. revert Hr HI. apply rtc_invariant. intros a b [s t c Hc|a' b' Hs] Ha.
  - by apply run_app_kept.
  - eapply (J_tables 0 (fun _ => False) a' a' b' Hs). split; [done | apply untouched_start].
Qed.

(** C12: A request in the context of one tenant, whichever of its statements fail, neither changes nor removes nor adds an
    application of another tenant, a group of another tenant or a certificate of another tenant's application; it adds and changes no
    membership in a group of another tenant, and removes one only with its application, when the request deletes that
    application and no other tenant owns it. *)
Theorem request_stays_in_its_tenant t c (s : Store W) :
  app_inv (sdb s) -> bound_cmd c -> untouched t (deletes c) (sdb s) (sdb (run_app t c s).1).
Proof. intros HI Hc. by apply run_app_kept. Qed.
End Commands.
