(* ===== verification/AppsConfig.v ===== *)
(** * AppsConfig: keys, configurations and the making of an application

    A patch changes the keys it names and no other, and its event says which; a creation that
    answers leaves an application with its secret and its signing key, one that does not leaves
    nothing, unless the statement that takes the row back fails too. *)

From stdpp Require Import sorting.
From Stdlib Require Import Ascii.
From S2P Require Import Mfa.
From S2P Require Import Prelude Statements Text Apps AppsProps AppsTenants.
#[global] Open Scope Z_scope.

(** ** the signing keys of an application through a rotation

    Whatever fails, no key that verifiers may still need leaves the published set; a rotation that
    answers leaves the new key as the one that signs. *)

(** What the libraries promise: a PEM block, a key and a ciphertext are read back. *)
Record key_laws {Key} (lib : KeyLib Key) (mk : MasterKey) : Prop := {
  pem_back : forall ty b, pem_decode lib (pem_encode lib ty b) = Some b;
  pkcs1_back : forall k, ParsePKCS1 lib (MarshalPKCS1 lib k) = Some k;
  decrypt_back : forall p n x, Encrypt mk p n = Some x -> Decrypt mk x = Some p
}.
(** The same key under the same name. *)
Definition same_key (c c' : AppCert) : Prop :=
  ct_PublicKey c' = ct_PublicKey c /\ ct_PrivateKey c' = ct_PrivateKey c /\ ct_KID c' = ct_KID c /\ ct_AppID c' = ct_AppID c.

Section Keys.
Context {G : Type} `{!IdGen G} {T Key : Type} (scope : option Z).
Context (lib : KeyLib Key) (masterKey : option MasterKey) (keyService : bool).
Abbreviation W := (AppWorld G T).
Abbreviation Op := (M (Store W) AErr).
Implicit Types w : W.

(** The signing certificate of the application [id] made of the key [k]. *)
Definition minted (id : Z) (d : Draws Key) (c : AppCert) : Prop :=
  ct_AppID c = id /\ active_signing c = true /\ ct_Encrypted c = true /\
  exists mk k, masterKey = Some mk /\ dr_key d = Some k
    /\ Encrypt mk (pem_encode lib "RSA PRIVATE KEY" (MarshalPKCS1 lib k)) (dr_nonce d) = Some (ct_PrivateKey c).
(** Only the certificates may differ, and how. *)
Definition only_certs w w' (m : gmap Z AppCert) : Prop := apps w' = apps w /\ certs w' = m.

Lemma on_db_draw {A B} (P : W -> Prop) e (o : option A) (k : A -> Op B) Q :
  (forall a, o = Some a -> on_db P (k a) Q) -> (forall w, P w -> Q w (Err e)) -> on_db P (bind (or_throw e o) k) Q.
Proof. intros Hk He. destruct o as [a|]; [exact (Hk a eq_refl) | intros s Hs; by apply He]. Qed.

Lemma GenerateForApp_adds (d : Draws Key) id w :
  on_db (fun x => only_certs w x (certs w)) (GenerateForApp lib masterKey d id)
    (fun w' r => match r with
                 | Ok c => minted id d c /\ certs w !! ct_ID c = None /\ only_certs w w' (<[ct_ID c := c]> (certs w))
                 | Err _ => only_certs w w' (certs w)
                 end).
Proof.
  unfold GenerateForApp, minted. destruct masterKey as [mk|]; [|by apply on_db_throw].
  apply on_db_draw; [intros k Hk | done]. eapply on_db_bind; [apply (app_keeps_now (fun x => only_certs w x (certs w))) | intros now; cbn | done].
  apply on_db_draw; [intros n _ | done]. apply on_db_draw; [intros der _ | done]. apply on_db_draw; [intros enc Henc | done].
  eapply on_db_bind; [apply (app_keeps_new_id (fun x => only_certs w x (certs w))); by intros x x' (E1 & _ & _ & E2); unfold only_certs; rewrite E1, E2 | intros cid; cbn | done].
  set (c := mkAppCert _ _ _ _ _ _ _ _ _ _ _ _).
  eapply (on_db_bind _ _ _ (fun w' r => match r with Ok _ => certs w !! ct_ID c = None /\ only_certs w w' (<[ct_ID c := c]> (certs w)) | Err _ => only_certs w w' (certs w) end));
    [|intros u; apply on_db_ret; intros x [? ?]; split; [split_and!; [done..|by exists mk, k] | done] | done].
  apply on_db_exec_or; [|by intros x e H _ | done]. intros x x' [Ea Ec]. unfold insert_cert. case_bool_decide as Hno; [done|]. apply eq_None_not_Some in Hno.
  case_bool_decide; [done|]. destruct (negb _); [done|]. intros [= <-]. unfold only_certs. cbn. rewrite Ec in *. done.
Qed.

Lemma demoted_published w id n c : published (demote_others id n w) (demoted id n c) = published w c /\ same_key c (demoted id n c).
Proof.
  unfold published, demoted, same_key. destruct (bool_decide (ct_AppID c = id) && active_signing c && negb (ct_ID c =? n)) eqn:Hd; [|done]. cbn. split; [|done].
  apply andb_true_iff in Hd as [Hd _]. apply andb_true_iff in Hd as [_ Hd]. unfold active_signing in Hd. to_prop. rewrite H0.
  by destruct (apps w !! ct_AppID c).
Qed.
Lemma published_apps w w' c : apps w' = apps w -> published w' c = published w c.
Proof. unfold published. by intros ->. Qed.

(** What a rotation leaves of the keys. *)
Definition rotated (d : Draws Key) (id : Z) w w' (r : res AErr AppCert) : Prop :=
  apps w' = apps w /\
  match r with
  | Ok c => minted id d c /\ certs w !! ct_ID c = None /\ certs w' = demoted id (ct_ID c) <$> <[ct_ID c := c]> (certs w)
  | Err _ => certs w' = certs w \/ exists c, minted id d c /\ certs w !! ct_ID c = None /\ certs w' = <[ct_ID c := c]> (certs w)
  end.

Lemma RotateForApp_rotates (d : Draws Key) id w : on_db (fun x => only_certs w x (certs w)) (RotateForApp lib masterKey d id) (rotated d id w).
Proof.
  unfold RotateForApp. destruct masterKey eqn:Hmk; [|apply on_db_throw; intros x [? ?]; split; [done | by left]]. rewrite <- Hmk.
  eapply on_db_bind; [apply GenerateForApp_adds | | intros x e [? ?]; split; [done | by left]]. intros c. cbn.
  eapply (on_db_attempt _ _ _ (fun x r => match r with
     | Ok _ => rotated d id w x (Ok c)
     | Err e => minted id d c /\ certs w !! ct_ID c = None /\ only_certs w x (<[ct_ID c := c]> (certs w)) end)).
  - apply on_db_exec; [|by intros x H]. intros x (Hm & Hn & Ha & Hc). split; [done|]. split_and!; [done..|]. cbn. by rewrite Hc.
  - intros [u|e]; [by apply on_db_ret|].
    eapply (on_db_attempt _ _ _ (fun x _ => rotated d id w x (Err e))); [|by intros r; apply on_db_throw].
    apply on_db_exec; intros x (Hm & Hn & Ha & Hc); split; cbn; try done; [left | right; by exists c].
    rewrite Hc. by apply delete_insert_id.
Qed.

(** Keys that were published still are. *)
Lemma rotated_published (d : Draws Key) id w w' r : rotated d id w w' r ->
  forall cid c, certs w !! cid = Some c -> published w c = true ->
  exists c', certs w' !! cid = Some c' /\ published w' c' = true /\ same_key c c'.
Proof.
  intros [Ha Hr] cid c Hc Hp.
  assert (forall n, certs w !! ct_ID n = None -> <[ct_ID n := n]> (certs w) !! cid = Some c) as Hnew.
  { intros n Hn. rewrite lookup_insert_ne; [done|]. congruence. }
  destruct r as [n|e].
  - destruct Hr as (_ & Hn & E). exists (demoted id (ct_ID n) c). rewrite E, lookup_fmap, (Hnew n Hn). split; [done|].
    destruct (demoted_published w id (ct_ID n) c) as [E1 E2]. split; [|done]. rewrite <- Hp, <- E1. by apply published_apps.
  - exists c. split; [|by rewrite (published_apps w)]. destruct Hr as [->|(n & _ & Hn & ->)]; [done | by apply Hnew].
Qed.

(** After a rotation that answers, the new certificate is the only active one. *)
Lemma rotated_active (d : Draws Key) id w w' c : certs_ok (certs w) -> rotated d id w w' (Ok c) ->
  certs w' !! ct_ID c = Some c /\ forall cid c', certs w' !! cid = Some c' -> ct_AppID c' = id -> active_signing c' = true -> c' = c.
Proof.
  intros [Hk _] (_ & (_ & _ & _) & Hn & ->). split.
  - rewrite lookup_fmap, lookup_insert_eq. cbn. unfold demoted. by rewrite Z.eqb_refl, andb_false_r.
  - intros cid c' (c0 & <- & H0)%lookup_fmap_Some. rewrite lookup_insert_Some in H0. destruct H0 as [[<- <-]|[Hne H0]].
    + unfold demoted. by rewrite Z.eqb_refl, andb_false_r.
    + pose proof (Hk _ _ H0) as E. unfold demoted. destruct (bool_decide _ && active_signing c0 && _) eqn:Hd.
      { intros _ Hs. unfold active_signing in Hs. cbn in Hs. by rewrite andb_false_r in Hs. }
      intros Ea Hs. rewrite bool_decide_eq_true_2, Hs in Hd by done. cbn in Hd. to_prop. congruence.
Qed.

(** The one active certificate is the one that signs. *)
Lemma loads (d : Draws Key) mk k id c (s : Store W) :
  masterKey = Some mk -> key_laws lib mk -> minted id d c -> dr_key d = Some k -> certs (sdb s) !! ct_ID c = Some c ->
  (forall cid c', certs (sdb s) !! cid = Some c' -> ct_AppID c' = id -> active_signing c' = true -> c' = c) ->
  (LoadSigningKey lib masterKey id s).2 = (if sfail s (scalls s) then Err ErrDB else Ok (k, default ""%string (ct_KID c))).
Proof.
  intros Hmk [L1 L2 L3] (Ha & Hact & He & mk' & k' & Hmk' & Hk' & Henc) Hk Hc Huniq. rewrite Hmk in *. injection Hmk' as <-. rewrite Hk in Hk'. injection Hk' as <-.
  unfold LoadSigningKey, repo_ListCertsByApp, bind at 1. rewrite select_run. destruct (sfail s (scalls s)); [done|].
  assert (forall x, x ∈ filter (fun c => active_signing c = true) (certs_of id (sdb s)) <-> x = c) as Hin.
  { intros x. unfold certs_of. rewrite list_elem_of_filter, (merge_sort_Permutation cert_newer), list_elem_of_filter, list_elem_of_fmap. split.
    - intros (H1 & H2 & [i y] & -> & Hy%elem_of_map_to_list). by eapply Huniq.
    - intros ->. split_and!; [done..|]. exists (ct_ID c, c). split; [done|]. by apply elem_of_map_to_list. }
  destruct (filter _ _) as [|x l] eqn:El; [exfalso; by apply (not_elem_of_nil c), Hin|].
  assert (x = c) as -> by (apply Hin; left). unfold decryptPrivate. rewrite He.
  rewrite (L3 _ _ _ Henc). cbn. unfold parseRSAPrivateKeyPEM. by rewrite L1, L2.
Qed.

Lemma RotateSigningKey_rotates (d : Draws Key) id w :
  on_db (eq w) (RotateSigningKey scope lib masterKey keyService d id) (rotated d id w).
Proof.
  unfold RotateSigningKey. assert (forall w' (e : AErr), w = w' -> rotated d id w w' (Err e)) as Hsame by (intros w' e <-; split; [done | by left]).
  eapply (on_db_bind _ _ _ (fun x _ => w = x)); [|intros a | intros x e H; by apply Hsame].
  { eapply (on_db_attempt _ _ _ (fun x _ => w = x)).
    - eapply (on_db_bind _ _ _ (fun x _ => w = x)); [by apply on_db_select | | done]. intros [a|]; [destruct (app_live _ _)|]; by (apply on_db_ret || apply on_db_throw).
    - intros [a|[]]; by (apply on_db_ret || apply on_db_throw). }
  eapply (on_db_bind _ _ _ (fun x _ => w = x)); [by apply on_db_guard | intros u | intros x e H; by apply Hsame].
  eapply (on_db_bind _ _ _ (rotated d id w)); [eapply on_db_weaken; [apply RotateForApp_rotates | by intros x <- | done] | intros c | done].
  eapply (on_db_bind _ _ _ (fun x r => match r with Ok _ => rotated d id w x (Ok c) | Err _ => False end)); [by apply on_db_write | intros v; by apply on_db_ret | done].
Qed.

(** A rotation of the signing key, whichever of its statements fail: every certificate that ListActiveSigningCerts
    lists stays listed, as the same key under the same name. If it answers, the new key is
    made of what was drawn, and is the one LoadSigningKey answers for as long as the
    certificates stay. (Nothing calls either of the two; SAML takes the first certificate there is.) If it does not, the certificates are as before, or have one active key more. *)
Theorem rotation_is_seamless mk (d : Draws Key) id (s s' : Store W) r :
  app_inv (sdb s) -> masterKey = Some mk -> key_laws lib mk ->
  RotateSigningKey scope lib masterKey keyService d id s = (s', r) ->
  (forall cid c, certs (sdb s) !! cid = Some c -> published (sdb s) c = true ->
     exists c', certs (sdb s') !! cid = Some c' /\ published (sdb s') c' = true /\ same_key c c') /\
  match r with
  | Ok c => ct_AppID c = id /\ exists k, dr_key d = Some k /\ forall s2 : Store W, certs (sdb s2) = certs (sdb s') ->
      (LoadSigningKey lib masterKey id s2).2 = (if sfail s2 (scalls s2) then Err ErrDB else Ok (k, default ""%string (ct_KID c)))
  | Err _ => certs (sdb s') = certs (sdb s)
      \/ exists c, ct_AppID c = id /\ active_signing c = true /\ certs (sdb s) !! ct_ID c = None /\ certs (sdb s') = <[ct_ID c := c]> (certs (sdb s))
  end.
Proof.
  intros HI Hmk Hlaws Hrun. pose proof (RotateSigningKey_rotates d id (sdb s) s eq_refl) as Hrot. rewrite Hrun in Hrot. cbn in Hrot.
  split; [by eapply rotated_published|]. destruct r as [c|e].
  - destruct (rotated_active _ _ _ _ _ (inv_certs _ HI) Hrot) as [Hc Hu]. destruct Hrot as (_ & Hm & _). pose proof Hm as (Hid & _ & _ & mk' & k & _ & Hk & _).
    split; [done|]. exists k. split; [done|]. intros s2 E. eapply loads; [exact Hmk | done | exact Hm | done | by rewrite E | by rewrite E].
  - destruct Hrot as (_ & [H|(c & (H1 & H2 & _) & H3 & H4)]); [by left | right; by exists c].
Qed.
End Keys.

(** ** Patches *)

(** What a patch makes of a key. *)
Definition patched (before patch : Doc) (k : string) : option J :=
  match patch !! k with None => before !! k | Some JNull => None | Some v => Some v end.

Lemma merge_config_lookup before patch k : merge_config before patch !! k = patched before patch k.
Proof.
  unfold merge_config, patched. revert k. apply (map_fold_weak_ind (fun r p => forall k, r !! k = match p !! k with None => before !! k | Some JNull => None | Some v => Some v end)).
  - intros k. by rewrite lookup_empty.
  - intros i x m r Hi IH k. cbn beta. destruct (decide (i = k)) as [->|Hne].
    + rewrite lookup_insert_eq. destruct (decide (x = JNull)) as [->|Hx]; [apply lookup_delete_eq|]. etransitivity; [apply lookup_insert_eq|]. by destruct x.
    + rewrite lookup_insert_ne by done. rewrite <- IH. destruct (decide (x = JNull)); [by apply lookup_delete_ne | by apply lookup_insert_ne].
Qed.

#[export] Instance str_le_total : Total str_le.
Proof. intros a b. apply String.leb_total. Qed.

(** The keys of an event: each key whose value differs, once, in order. *)
Definition names_changes (before after : Doc) (l : list string) : Prop :=
  (forall k, k ∈ l <-> value_at before k <> value_at after k) /\ NoDup l /\ Sorted str_le l.
Lemma changedKeys_exact before after : names_changes before after (changedKeys before after).
Proof.
  unfold changedKeys. split_and!.
  - intros k. rewrite (merge_sort_Permutation str_le), list_elem_of_filter, elem_of_elements, elem_of_union, !elem_of_dom. split; [by intros [? _]|].
    intros Hne. split; [done|]. unfold value_at in Hne. destruct (before !! k), (after !! k); cbn in Hne; [by left; eexists | by left; eexists | by right; eexists | done].
  - rewrite (merge_sort_Permutation str_le). apply NoDup_filter, NoDup_elements.
  - apply Sorted_merge_sort, _.
Qed.

Section Patch.
Context {G : Type} `{!IdGen G} {T : Type} (scope : option Z).
Abbreviation W := (AppWorld G T).

Lemma writeProtocolConfig_writes id config merge (w : W) :
  on_db (eq w) (writeProtocolConfig scope id config merge)
    (fun x r => match r with
       | Ok _ => exists a now e, apps w !! id = Some a /\ app_live scope a = true
           /\ (let after := if merge then merge_config (ap_ProtocolConfig a) config else config in
              apps x = <[id := set_config after now a]> (apps w) /\ abus x = abus w ++ [e]
              /\ ae_Payload e !! "changed_keys"%string = Some (Strs (changedKeys (ap_ProtocolConfig a) after))
              /\ ae_Payload e !! "config_before"%string = Some (Cfg (ap_ProtocolConfig a)))
       | Err _ => x = w
       end).
Proof.
  unfold writeProtocolConfig.
  eapply (on_db_bind _ _ _ (fun x r => x = w /\ match r with Ok b => exists a, apps w !! id = Some a /\ app_live scope a = true /\ b = ap_ProtocolConfig a | Err _ => True end)).
  { unfold GetProtocolConfig. eapply on_db_bind; [eapply on_db_weaken; [apply (got_app_in scope (fun x => x = w)) | by intros x <- | intros x r H; exact H] | |].
    - intros a. apply on_db_ret. intros x (-> & Ha & Hl). split; [done | by exists a].
    - by intros x e [-> _]. }
  2: by intros x e [-> _].
  intros before. eapply on_db_pre; [intros x [_ H]; exact H|]. cbn. intros (a & Ha & Hl & ->).
  set (after := if merge then _ else _).
  eapply (on_db_bind _ _ _ (fun x r => match r with Ok _ => exists now, x = with_apps (fun _ => <[id := set_config after now a]> (apps w)) w | Err _ => x = w end)); [| |done].
  - eapply (on_db_attempt _ _ _ (fun x r => match r with Ok _ => exists now, x = with_apps (fun _ => <[id := set_config after now a]> (apps w)) w | Err _ => x = w end)).
    + unfold repo_UpdateProtocolConfig. eapply (on_db_bind _ _ _ (fun x _ => x = w)); [by apply on_db_gets; intros x [-> _] | intros now | done].
      apply on_db_exec_or; [intros x x' -> | by intros x e -> | by intros x ->]. unfold update_app. rewrite Ha, Hl. intros [= <-]. by exists now.
    + intros [u|[]]; by (apply on_db_ret || apply on_db_throw).
  - intros u. apply on_db_write. intros x (now & ->). exists a, now. eexists. split_and!; [done | done | done | done | | ]; unfold app_event, ae_Payload; cbn [list_to_map foldr]; repeat (rewrite lookup_insert_ne by done); apply lookup_insert_eq.
Qed.

(** C15: A patch of the configuration that answers: the row keeps all its columns but the
    configuration and the time; every key the patch names has the value it gives, null taking the
    key away; every other key has the value it had. One event is published, with the configuration
    as it was and exactly the keys whose value differs, each once and in order. *)
Theorem patch_changes_what_it_names id patch (s s' : Store W) :
  PatchProtocolConfig scope id patch s = (s', Ok tt) ->
  exists a config now e keys,
    apps (sdb s) !! id = Some a /\ apps (sdb s') = <[id := set_config config now a]> (apps (sdb s))
    /\ (forall k, config !! k = patched (ap_ProtocolConfig a) patch k)
    /\ abus (sdb s') = abus (sdb s) ++ [e] /\ ae_Payload e !! "config_before"%string = Some (Cfg (ap_ProtocolConfig a))
    /\ ae_Payload e !! "changed_keys"%string = Some (Strs keys) /\ names_changes (ap_ProtocolConfig a) config keys.
Proof.
  intros Hrun. pose proof (writeProtocolConfig_writes id patch true (sdb s) s eq_refl) as H. fold (PatchProtocolConfig (G:=G) (T:=T) scope id patch) in H.
  rewrite Hrun in H. destruct H as (a & now & e & Ha & _ & Happs & Hbus & Hkeys & Hbefore).
  exists a, (merge_config (ap_ProtocolConfig a) patch), now, e, (changedKeys (ap_ProtocolConfig a) (merge_config (ap_ProtocolConfig a) patch)).
  split_and!; [done | done | intros k; apply merge_config_lookup | done | done | done | apply changedKeys_exact..].
Qed.
End Patch.

(** ** Create *)

Section Create.
Context {G : Type} `{!IdGen G} {T Key : Type} (ToLower : string -> string) (t : Z).
Context (lib : KeyLib Key) (masterKey : option MasterKey) (keyService licensed : bool) (protoDefaultsP : option (Z -> ProtocolDefaults)).
Context (HashPassword : string -> string -> option string).
Abbreviation W := (AppWorld G T).
Abbreviation Op := (M (Store W) AErr).
Abbreviation scope := (Some t).
Implicit Types w : W.

Definition tables w := (apps w, groups w, rels w, certs w).
(** The row [a] is new in [w'], and nothing else is. *)
Definition row_added w w' (a : App) : Prop := apps w !! ap_ID a = None /\ tables w' = (<[ap_ID a := a]> (apps w), groups w, rels w, certs w).

(** Taking a new row back leaves the tables as they were. *)
Lemma delete_undoes w w' a : app_inv w -> row_added w w' a -> app_in_scope scope a = true -> tables (delete_app scope (ap_ID a) w') = tables w.
Proof.
  intros HI [Hn E] Hs. destruct w' as [ap gr rl ct gen now bus tok]. unfold tables in *. cbn in E. injection E as -> -> -> ->.
  unfold delete_app. cbn [apps]. rewrite lookup_insert_eq, Hs. cbn.
  assert (filter (fun p : (Z * Z) * AppGroupRel => p.1.1 <> ap_ID a) (rels w) = rels w) as ->.
  { apply map_filter_id. intros k r Hk. destruct (rels_within _ HI _ _ Hk) as (b & g & Hb & _). cbn. congruence. }
  assert (filter (fun p : Z * AppCert => ct_AppID p.2 <> ap_ID a) (certs w) = certs w) as ->.
  { apply map_filter_id. intros k c Hk. destruct (certs_owned _ HI _ _ Hk) as [b Hb]. cbn. congruence. }
  by rewrite delete_insert_id.
Qed.

(** The outcome of a creation. *)
Definition created (d : Draws Key) w w' (a : App) (kid : string) : Prop :=
  apps w !! ap_ID a = None /\
  if needs_key (ap_Protocol a)
  then exists c, minted lib masterKey (ap_ID a) d c /\ certs w !! ct_ID c = None /\ kid = default ""%string (ct_KID c)
       /\ tables w' = (<[ap_ID a := a]> (apps w), groups w, rels w, <[ct_ID c := c]> (certs w))
  else tables w' = (<[ap_ID a := a]> (apps w), groups w, rels w, certs w).

Lemma on_db_guard_then {B} (P : W -> Prop) b e (k : unit -> Op B) Q :
  (forall w, P w -> Q w (Err e)) -> (b = false -> on_db P (k tt) Q) -> on_db P (bind (guard b e) k) Q.
Proof. intros He Hk. destruct b; [intros s Hs; by apply He | exact (Hk eq_refl)]. Qed.
Lemma GenerateForApp_tables (d : Draws Key) id w m g r :
  on_db (fun x => tables x = (m, g, r, certs w)) (GenerateForApp lib masterKey d id)
    (fun x res => match res with
       | Ok c => minted lib masterKey id d c /\ certs w !! ct_ID c = None /\ tables x = (m, g, r, <[ct_ID c := c]> (certs w))
       | Err _ => tables x = (m, g, r, certs w)
       end).
Proof.
  unfold GenerateForApp, minted. destruct masterKey as [mk|]; [|by apply on_db_throw].
  apply on_db_draw; [intros k Hk | done]. eapply on_db_bind; [apply (app_keeps_now (fun x => tables x = (m, g, r, certs w))) | intros now; cbn | done].
  apply on_db_draw; [intros n _ | done]. apply on_db_draw; [intros der _ | done]. apply on_db_draw; [intros enc Henc | done].
  eapply on_db_bind; [apply (app_keeps_new_id (fun x => tables x = (m, g, r, certs w))); by intros x x' (E1 & E2 & E3 & E4); unfold tables; rewrite E1, E2, E3, E4 | intros cid; cbn | done].
  set (c := mkAppCert _ _ _ _ _ _ _ _ _ _ _ _).
  eapply (on_db_bind _ _ _ (fun x res => match res with Ok _ => certs w !! ct_ID c = None /\ tables x = (m, g, r, <[ct_ID c := c]> (certs w))
    | Err _ => tables x = (m, g, r, certs w) end));
    [|intros u; apply on_db_ret; intros x [? ?]; split; [split_and!; [done..|by exists mk, k] | done] | done].
  apply on_db_exec_or; [|by intros x e H _ | done]. intros x x' E. unfold insert_cert. case_bool_decide as Hno; [done|]. apply eq_None_not_Some in Hno.
  case_bool_decide; [done|]. destruct (negb _); [done|]. intros [= <-]. unfold tables in *. cbn. injection E as E1 E2 E3 E4. rewrite E1, E2, E3, E4 in *. done.
Qed.

Lemma key_or_rollback_outcome (d : Draws Key) w a : app_inv w -> app_in_scope scope a = true ->
  on_db (fun x => row_added w x a) (key_or_rollback scope lib masterKey keyService d a)
    (fun x r => match r with Ok kid => created d w x a kid | Err _ => tables x = tables w \/ row_added w x a end).
Proof.
  intros HI Hs. unfold key_or_rollback, created. destruct (needs_key _); [|by apply on_db_ret; intros x [? ?]].
  assert (forall e, on_db (fun x => row_added w x a) (attempt (repo_Delete scope (ap_ID a)) (fun _ => throw (A:=string) e))
    (fun x r => match r with Ok kid => False | Err _ => tables x = tables w \/ row_added w x a end)) as Hback.
  { intros e. eapply (on_db_attempt _ _ _ (fun x _ => tables x = tables w \/ row_added w x a)); [|by intros r; apply on_db_throw].
    apply on_db_exec; [|by right]. intros x Hx. left. by apply delete_undoes. }
  destruct keyService; cbn [negb]; [|eapply on_db_weaken; [apply Hback | done | by intros x [k|e]]].
  eapply (on_db_attempt _ _ _ (fun x r => apps w !! ap_ID a = None /\ match r with
     | Ok c => minted lib masterKey (ap_ID a) d c /\ certs w !! ct_ID c = None /\ tables x = (<[ap_ID a := a]> (apps w), groups w, rels w, <[ct_ID c := c]> (certs w))
     | Err _ => tables x = (<[ap_ID a := a]> (apps w), groups w, rels w, certs w) end)).
  - intros s [H1 H2]. split; [done|]. by apply GenerateForApp_tables.
  - intros [c|e]; [apply on_db_ret; intros x (H1 & H2 & H3 & H4); split; [done | by exists c]|].
    eapply on_db_weaken; [apply Hback | by intros x | by intros x [k|e']].
Qed.

(** The secret of a new client: the hash of what was drawn, for the kinds that have one. *)
Definition secret_of (d : Draws Key) (a : App) (plain : string) : Prop :=
  if needsClientSecret (ap_Protocol a) (ap_ClientType a)
  then exists hash, ap_ClientSecret a = Some hash /\ dr_secret d = Some plain /\ HashPassword (dr_salt d) plain = Some hash
  else ap_ClientSecret a = None /\ plain = ""%string.
(** The strategy of the tokens' subject: the one asked for, else the tenant's for the protocol, else the username; a
    shared application gets the suffixed username in its place. *)
Definition strategy_asked (req : CreateAppRequest) (a : App) : Prop :=
  forall st, st = (match ca_SubjectStrategy req with
                   | None | Some ""%string =>
                       match subjectFor (protoDefaults protoDefaultsP t) (ca_Protocol req) with ""%string => SubjectStrategyUsername | st => st end
                   | Some st => st end) ->
  (ap_Scope a <> ScopeShared \/ st <> SubjectStrategyUsername -> ap_SubjectStrategy a = st)
  /\ (ap_Scope a = ScopeShared -> st = SubjectStrategyUsername -> ap_SubjectStrategy a = SubjectStrategyUsernameSuffixed)
  /\ (ap_SubjectStrategy a = SubjectStrategyPairwise -> ca_Protocol req = ProtocolOIDC).
(** The columns the request decides, and the rest. *)
Definition as_asked (req : CreateAppRequest) (a : App) : Prop :=
  (ap_Name a = ca_Name req /\ ap_Code a = ca_Code req /\ ap_Protocol a = ca_Protocol req /\ ap_Icon a = ca_Icon req
   /\ ap_Env a = normalizeEnv ToLower (ca_Env req) /\ ap_Description a = ca_Description req /\ ap_HomeURL a = ca_HomeURL req
   /\ ap_LoginURL a = ca_LoginURL req /\ ap_LogoutURL a = ca_LogoutURL req /\ ap_RedirectURIs a = default [] (ca_RedirectURIs req))
  /\ (ap_AccessPolicy a = default AccessPolicyAll (ca_AccessPolicy req) /\ ap_IsFirstParty a = default true (ca_IsFirstParty req)
      /\ ap_RequireConsent a = default false (ca_RequireConsent req)
      /\ ap_ClientType a = (if bool_decide (ca_ClientType req = ""%string) then ClientTypeWebApp else ca_ClientType req)
      /\ (ca_Protocol req = ProtocolOIDC -> ap_ClientType a ∈ [ClientTypeWebApp; ClientTypeSPA; ClientTypeNative; ClientTypeM2M])
      /\ (ca_Protocol req = ProtocolForm -> licensed = true))
  /\ (ap_Scope a = default ScopeTenant (ca_Scope req) /\ ap_TenantID a = (if ap_Scope a =? ScopeTenant then Some t else None) /\ strategy_asked req a)
  /\ (forall c, ca_ProtocolConfig req = Some c -> c <> ∅ -> ap_ProtocolConfig a = c)
  /\ (default ∅ (ca_ProtocolConfig req) = ∅ ->
       ap_ProtocolConfig a = default ∅ (defaultProtocolConfig (ca_Protocol req) (protoDefaults protoDefaultsP t)))
  /\ (exists c, ap_ClientID a = Some ("client_" +:+ c))
  /\ (ap_Status a = StatusEnabled /\ ap_UpdatedAt a = ap_CreatedAt a /\ ap_CreatedBy a = None /\ ap_UpdatedBy a = None /\ ap_DeletedAt a = None).

(** The driver failed the last statement, and the one before it if the error is the driver's. *)
Definition take_back_failed (s' : Store W) (e : AErr) : Prop :=
  exists n, scalls s' = S n /\ sfail s' n = true /\ (e = ErrDB -> exists m, n = S m /\ sfail s' m = true).
Lemma draw_inv {A B} e (o : option A) (k : A -> Op B) (s s' : Store W) r : bind (or_throw e o) k s = (s', r) ->
  (r = Err e /\ s' = s) \/ exists a, o = Some a /\ k a s = (s', r).
Proof. destruct o as [a|]; [intros H; right; by exists a | intros [= <- <-]; by left]. Qed.
Lemma GenerateForApp_calls (d : Draws Key) id (s s' : Store W) e :
  GenerateForApp lib masterKey d id s = (s', Err e) -> e = ErrDB -> exists m, scalls s' = S m /\ sfail s' m = true.
Proof.
  unfold GenerateForApp. destruct masterKey as [mk|]; [|by intros [= _ <-]]. intros H He.
  apply draw_inv in H as [[[= ->] _]|(k & _ & H)]; [done|]. apply bind_err in H as [?|(now & s0 & H0 & H)]; [done|]. injection H0 as _ <-.
  apply draw_inv in H as [[[= ->] _]|(n & _ & H)]; [done|]. apply draw_inv in H as [[[= ->] _]|(der & _ & H)]; [done|].
  apply draw_inv in H as [[[= ->] _]|(enc & _ & H)]; [done|]. apply bind_err in H as [H|(cid & s1 & _ & H)]; [unfold new_id in H; by destruct (Generate _)|].
  apply bind_err in H as [H|(u & s2 & _ & H)]; [|done]. unfold repo_CreateCert in H. rewrite exec_or_run in H.
  destruct (sfail s1 (scalls s1)) eqn:Hf; [injection H as <- _; by exists (scalls s1)|]. exfalso. revert H. unfold insert_cert.
  repeat case_match; intros; simplify_eq; done.
Qed.
(** Once the row is in, an error leaves it only when it could not be taken back. *)
Lemma key_or_rollback_left (d : Draws Key) a (s s' : Store W) e :
  key_or_rollback scope lib masterKey keyService d a s = (s', Err e) -> app_in_scope scope a = true -> apps (sdb s') !! ap_ID a = Some a ->
  take_back_failed s' e.
Proof.
  intros H Hsc Ha. unfold key_or_rollback in H. destruct (needs_key _); [|done].
  assert (forall (s1 : Store W) e1, (attempt (repo_Delete scope (ap_ID a)) (fun _ => throw (A:=string) e1)) s1 = (s', Err e) ->
    (e1 = ErrDB -> exists m, scalls s1 = S m /\ sfail s1 m = true) -> take_back_failed s' e) as Hback.
  { intros s1 e1 H1 Hprev. unfold attempt, repo_Delete, exec, bind, query in H1. destruct (sfail s1 (scalls s1)) eqn:Hf; cbn in H1.
    - injection H1 as <- <-. exists (scalls s1). cbn. split_and!; [done..|]. intros E. destruct (Hprev E) as (m & Hm & Hx). by exists m.
    - injection H1 as <- <-. exfalso. cbn in Ha. revert Ha. unfold delete_app. destruct (apps (sdb s1) !! ap_ID a) as [b|] eqn:Hb; [|by rewrite Hb].
      destruct (app_in_scope scope b) eqn:Hbs; [cbn; by rewrite lookup_delete_eq|]. rewrite Hb. intros [= ->]. congruence. }
  destruct keyService; cbn [negb] in H; [|by eapply Hback]. unfold attempt at 1 in H.
  destruct (GenerateForApp lib masterKey d (ap_ID a) s) as [s1 [c|e1]] eqn:Hg; [done|]. eapply Hback; [exact H|].
  intros E. by eapply GenerateForApp_calls.
Qed.

Lemma secret_drawn (P : W -> Prop) (d : Draws Key) b :
  on_db P (if b : bool then let! s := mint_secret HashPassword d in ret (s.1, Some s.2) else ret (""%string, None))
    (fun x r => P x /\ match r with
       | Ok s => if b then exists hash, s.2 = Some hash /\ dr_secret d = Some s.1 /\ HashPassword (dr_salt d) s.1 = Some hash else s = (""%string, None)
       | Err _ => True end).
Proof.
  destruct b; [|by apply on_db_ret].
  eapply (on_db_bind _ _ _ (fun x r => P x /\ match r with Ok s => dr_secret d = Some s.1 /\ HashPassword (dr_salt d) s.1 = Some s.2 | Err _ => True end)).
  - unfold mint_secret. apply on_db_draw; [intros p Hp | done]. apply on_db_draw; [intros h Hh | done]. by apply on_db_ret.
  - intros s. apply on_db_ret. intros x (? & ? & ?). split; [done|]. by exists s.2.
  - by intros x e [? _].
Qed.

(** The row that Create makes. *)
Definition new_row (req : CreateAppRequest) (id : Z) (cid : string) (secret : option string) (now : Z) : App :=
  mkApp id (if default ScopeTenant (ca_Scope req) =? ScopeTenant then Some t else None) (default ScopeTenant (ca_Scope req))
    (initial_strategy (protoDefaults protoDefaultsP t) req (default ScopeTenant (ca_Scope req))) (ca_Name req) (ca_Code req) (ca_Protocol req)
    StatusEnabled (ca_Icon req) (normalizeEnv ToLower (ca_Env req)) (ca_Description req) (Some cid) secret
    (if bool_decide (ca_ClientType req = ""%string) then ClientTypeWebApp else ca_ClientType req)
    (ca_HomeURL req) (default true (ca_IsFirstParty req)) (default false (ca_RequireConsent req)) (initial_config (protoDefaults protoDefaultsP t) req)
    (ca_LoginURL req) (default [] (ca_RedirectURIs req)) (ca_LogoutURL req) (default AccessPolicyAll (ca_AccessPolicy req)) now now None None None.
Lemma row_as_asked req id cid secret now (d : Draws Key) :
  let a := new_row req id cid secret now in
  (ca_Protocol req = ProtocolOIDC -> ap_ClientType a ∈ [ClientTypeWebApp; ClientTypeSPA; ClientTypeNative; ClientTypeM2M]) ->
  (ca_Protocol req = ProtocolForm -> licensed = true) ->
  (ap_SubjectStrategy a = SubjectStrategyPairwise -> ca_Protocol req = ProtocolOIDC) ->
  GenerateClientID (dr_clientID d) = Some cid -> as_asked req a.
Proof.
  intros a H1 H2 H3 Hcid. unfold as_asked. split_and!; try done.
  - intros st Hst. split_and!; [| |exact H3]; unfold a, new_row, initial_strategy; cbn [ap_Scope ap_SubjectStrategy];
      [intros Hor | intros Hsh Hus]; (assert (st = (let d := subjectFor (protoDefaults protoDefaultsP t) (ca_Protocol req) in
        match ca_SubjectStrategy req with
        | Some s => if bool_decide (s = ""%string) then if bool_decide (d = ""%string) then SubjectStrategyUsername else d else s
        | None => if bool_decide (d = ""%string) then SubjectStrategyUsername else d end)) as E;
      [rewrite Hst; cbn zeta; destruct (ca_SubjectStrategy req) as [[|c x]|], (subjectFor _ _) as [|c' x']; reflexivity|]); cbn zeta in E; rewrite <- E.
    + destruct (Z.eqb_spec (default ScopeTenant (ca_Scope req)) ScopeShared); [|done]. cbn [andb]. destruct Hor as [[]|]; [done|]. by rewrite bool_decide_eq_false_2.
    + rewrite Hsh, Z.eqb_refl, Hus. done.
  - intros c Hc Hne. unfold a, new_row, initial_config. cbn. rewrite Hc. cbn. by rewrite bool_decide_eq_false_2.
  - intros He. unfold a, new_row, initial_config. cbn. rewrite He. by rewrite bool_decide_eq_true_2.
  - unfold GenerateClientID in Hcid. destruct (dr_clientID d) as [c|]; [|done]. exists c. by injection Hcid as <-.
Qed.
(** The row goes in beside the others. *)
Lemma insert_row_added w (x x' : W) a : tables x = tables w -> insert_app a x = Ok x' -> row_added w x' a.
Proof.
  intros Hx. unfold insert_app, put_app. case_bool_decide as Hno; [done|]. apply eq_None_not_Some in Hno.
  destruct (check_app a); [done|]. destruct (app_conflict _ _); [done|]. intros [= <-]. unfold tables in Hx. injection Hx as E1 E2 E3 E4.
  rewrite E1 in Hno. split; [done|]. unfold tables. cbn. by rewrite E1, E2, E3, E4.
Qed.

Lemma Create_outcome (d : Draws Key) req w : app_inv w ->
  on_db (fun x => tables x = tables w) (Create ToLower scope lib masterKey keyService licensed protoDefaultsP HashPassword d t req)
    (fun x r => match r with
       | Ok res => as_asked req (cr_App res) /\ secret_of d (cr_App res) (cr_ClientSecretPlain res) /\ created d w x (cr_App res) (cr_SigningKID res)
       | Err _ => tables x = tables w \/ exists a, row_added w x a /\ needs_key (ap_Protocol a) = true
       end).
Proof.
  intros HI. set (P := fun x : W => tables x = tables w).
  assert (tables_only P) as HP by (intros x x' (E1 & E2 & E3 & E4); unfold P, tables; by rewrite E1, E2, E3, E4).
  eapply (on_db_attempt _ _ _ (fun x _ => P x)).
  { eapply (on_db_bind _ _ _ (fun x _ => P x)); [by apply on_db_select | | done]. intros [|b l]; by (apply on_db_ret || apply on_db_throw). }
  intros [b|[]]; try (apply on_db_throw; by left).
  set (ct := if bool_decide (ca_ClientType req = _) then _ else _).
  apply on_db_guard_then; [by left | intros Hct].
  apply on_db_guard_then; [by left | intros Hlic].
  apply on_db_draw; [intros cid Hcid | by left].
  eapply on_db_bind; [apply (secret_drawn P) | intros secret; cbn beta iota | by intros x e [H _]; left].
  eapply on_db_pre; [intros x [_ H]; exact H|]. intros Hsec. eapply (on_db_weaken _ P _ _ _); [|by intros x [H _] | intros x r H; exact H].
  eapply (on_db_bind _ _ _ (fun x _ => P x)); [by apply on_db_gets | intros now | by left].
  apply on_db_guard_then; [by left | intros Hpair].
  eapply (on_db_bind _ _ _ (fun x _ => P x)); [by apply (app_keeps_new_id P) | intros id | by left].
  set (a := mkApp _ _ _ _ _ _ _ _ _ _ _ _ _ _ _ _ _ _ _ _ _ _ _ _ _ _ _).
  assert (as_asked req a) as Hasked.
  { apply (row_as_asked req id cid secret.2 now d); [| | |exact Hcid].
    - intros E. apply andb_false_iff in Hct as [Hct|Hct]; to_prop; done.
    - intros E. apply andb_false_iff in Hlic as [Hlic|Hlic]; to_prop; [done | by destruct licensed].
    - intros E. apply andb_false_iff in Hpair as [Hpair|Hpair]; to_prop; done. }
  assert (secret_of d a secret.1) as Hsecret.
  { unfold secret_of, a. cbn. destruct (needsClientSecret _ _); [done | by subst secret]. }
  assert (app_in_scope scope a = true) as Hsc.
  { unfold app_in_scope, a. cbn. destruct (_ =? ScopeTenant); [|done]. by rewrite Z.eqb_refl. }
  eapply (on_db_bind _ _ _ (fun x r => match r with Ok _ => row_added w x a | Err _ => P x end)); [| |by left].
  { apply on_db_exec_or; [|done..]. intros x x' Hx. by apply insert_row_added. }
  intros _. eapply (on_db_bind _ _ _ (fun x r => match r with Ok kid => created d w x a kid | Err _ => tables x = tables w \/ exists a, row_added w x a /\ needs_key (ap_Protocol a) = true end)).
  { unfold key_or_rollback. destruct (needs_key (ap_Protocol a)) eqn:Hk.
    - pose proof (key_or_rollback_outcome d w a HI Hsc) as Hout. unfold key_or_rollback in Hout. rewrite Hk in Hout.
      eapply on_db_weaken; [apply Hout | done | intros x [kid|e]; [done|]]. intros [?|?]; [by left | right; by exists a].
    - apply on_db_ret. intros x [H1 H2]. unfold created. by rewrite Hk. }
  2: done.
  intros kid. eapply (on_db_bind _ _ _ (fun x r => match r with Ok _ => created d w x a kid | Err _ => False end)); [by apply on_db_write | intros _ | done].
  by apply on_db_ret.
Qed.

(** The key of a new application is the only one it has. *)
Lemma created_loads (d : Draws Key) w w' a kid : app_inv w -> created d w w' a kid -> needs_key (ap_Protocol a) = true ->
  exists k, dr_key d = Some k /\ forall mk (s2 : Store W), masterKey = Some mk -> key_laws lib mk -> certs (sdb s2) = certs w' ->
    (LoadSigningKey lib masterKey (ap_ID a) s2).2 = (if sfail s2 (scalls s2) then Err ErrDB else Ok (k, kid)).
Proof.
  intros HI [Hn Hc] Hk. rewrite Hk in Hc. destruct Hc as (c & Hm & Hno & -> & Ht). injection Ht as _ _ _ Ec.
  pose proof Hm as (Ha & _ & _ & mk' & k & _ & Hdk & _). exists k. split; [done|]. intros mk s2 Hmk Hlaws E.
  eapply loads; [exact Hmk | done | exact Hm | done | by rewrite E, Ec, lookup_insert_eq |]. rewrite E, Ec.
  intros cid c'. rewrite lookup_insert_Some. intros [[_ ?]|[_ Hc']]; [done|]. intros Happ _. exfalso.
  destruct (certs_owned _ HI _ _ Hc') as [b Hb]. congruence.
Qed.

(** A creation that fails after its row went in leaves it only when taking it back failed. *)
Lemma Create_left (d : Draws Key) req (s s' : Store W) e a' :
  app_inv (sdb s) -> Create ToLower scope lib masterKey keyService licensed protoDefaultsP HashPassword d t req s = (s', Err e) ->
  row_added (sdb s) (sdb s') a' -> take_back_failed s' e.
Proof.
  intros HI H [Hnew Hadd]. assert (tables (sdb s') <> tables (sdb s)) as Hdiff.
  { rewrite Hadd. intros E. injection E as E. assert (<[ap_ID a' := a']> (apps (sdb s)) !! ap_ID a' = Some a') as X by apply lookup_insert_eq. by rewrite E, Hnew in X. }
  unfold Create, attempt at 1 in H. destruct (repo_GetByCode scope t (ca_Code req) s) as [s1 x] eqn:Hg.
  assert (tables (sdb s1) = tables (sdb s)) as E1.
  { assert (on_db (fun y => tables y = tables (sdb s)) (repo_GetByCode scope t (ca_Code req)) (fun y _ => tables y = tables (sdb s))) as Hk.
    { eapply on_db_bind; [by apply (keeps_select (fun y : W => tables y = tables (sdb s))) | | done]. intros [|b l]; by (apply on_db_ret || apply on_db_throw). }
    specialize (Hk s eq_refl). by rewrite Hg in Hk. }
  destruct x as [b|er]; [injection H as <- _; done|]. destruct er; try (injection H as <- _; done).
  apply bind_err in H as [H|([] & s2 & H2 & H)]; [apply guard_err in H as (_ & -> & _); done|]. apply guard_ok in H2 as [_ ->].
  apply bind_err in H as [H|([] & s2 & H2 & H)]; [apply guard_err in H as (_ & -> & _); done|]. apply guard_ok in H2 as [_ ->].
  apply draw_inv in H as [[_ ->]|(cid & _ & H)]; [done|].
  pose proof (secret_drawn (fun y => tables y = tables (sdb s)) d (needsClientSecret (ca_Protocol req) (if bool_decide (ca_ClientType req = ""%string) then ClientTypeWebApp else ca_ClientType req)) s1 E1) as [E2 _].
  apply bind_err in H as [H|(secret & s2 & H2 & H)]; [rewrite H in E2; done|]. rewrite H2 in E2. cbn [fst] in E2.
  apply bind_err in H as [H|(now & s3 & H3 & H)]; [done|]. injection H3 as <- <-.
  apply bind_err in H as [H|([] & s4 & H4 & H)]; [apply guard_err in H as (_ & -> & _); done|]. apply guard_ok in H4 as [_ ->].
  apply bind_err in H as [H|(id & s4 & H4 & H)]; [unfold new_id in H; by destruct (Generate _)|].
  assert (tables (sdb s4) = tables (sdb s)) as E4 by (unfold new_id in H4; destruct (Generate _); by injection H4 as <- _).
  set (a := mkApp _ _ _ _ _ _ _ _ _ _ _ _ _ _ _ _ _ _ _ _ _ _ _ _ _ _ _) in H.
  assert (app_in_scope scope a = true) as Hsc.
  { unfold app_in_scope, a. cbn. destruct (_ =? ScopeTenant); [|done]. by rewrite Z.eqb_refl. }
  unfold repo_Create in H. apply bind_err in H as [H|([] & s5 & H5 & H)]; rewrite exec_or_run in *.
  { destruct (sfail s4 (scalls s4)); [injection H as <- _; done|]. destruct (insert_app a (sdb s4)); [done|]. by injection H as <- _. }
  destruct (sfail s4 (scalls s4)); [done|]. destruct (insert_app a (sdb s4)) as [w5|] eqn:Hi; [|done]. injection H5 as <-.
  apply (insert_row_added (sdb s)) in Hi; [|done].
  apply bind_err in H as [H|(kid & s6 & _ & H)]; [|by apply bind_err in H as [H|(? & ? & _ & H)]].
  eapply key_or_rollback_left; [exact H | done|].
  pose proof (key_or_rollback_outcome d (sdb s) a HI Hsc (mkStore w5 (sfail s4) (S (scalls s4))) Hi) as Hout. rewrite H in Hout. cbn in Hout. destruct Hout as [?|[_ Hout]]; [done|].
  injection Hout as -> _ _ _. apply lookup_insert_eq.
Qed.
(** The key of a new application is its one certificate. *)
Lemma created_cert (d : Draws Key) w w' a kid : app_inv w -> created d w w' a kid -> needs_key (ap_Protocol a) = true ->
  exists c, certs_of (ap_ID a) w' = [c] /\ minted lib masterKey (ap_ID a) d c /\ kid = default ""%string (ct_KID c).
Proof.
  intros HI [Hn Hc] Hk. rewrite Hk in Hc. destruct Hc as (c & Hm & Hno & -> & Ht). injection Ht as _ _ _ Ec. exists c. split_and!; [|done..].
  assert (Permutation (certs_of (ap_ID a) w') [c]) as Hp; [|by apply Permutation_singleton_r in Hp].
  unfold certs_of. rewrite merge_sort_Permutation, Ec, map_to_list_insert by done. rewrite fmap_cons, filter_cons_True by apply Hm.
  destruct (filter _ _) as [|c' l] eqn:Hl; [done|]. exfalso. assert (c' ∈ c' :: l) as Hin by left. rewrite <- Hl in Hin.
  apply list_elem_of_filter in Hin as [E Hin]. apply list_elem_of_fmap in Hin as [[i y] [-> Hy%elem_of_map_to_list]]. cbn in E.
  destruct (certs_owned _ HI _ _ Hy) as [b Hb]. congruence.
Qed.

(** C16: A creation that answers, whatever was there: one row more, with every column as asked for or its default, a fresh
    client id, and a secret whose hash it stores exactly if its kind has one; for the protocols that sign, the key that was
    drawn, encrypted, as its one certificate, under the name answered. One that does not answer leaves the tables as
    they were, or, for these protocols, the bare row, and that only when the driver failed the statement that takes it back,
    after the key could not be made, or not be stored. *)
Theorem creation_is_whole (d : Draws Key) req (s s' : Store W) r :
  app_inv (sdb s) -> Create ToLower scope lib masterKey keyService licensed protoDefaultsP HashPassword d t req s = (s', r) ->
  match r with
  | Ok res => let a := cr_App res in
      apps (sdb s) !! ap_ID a = None /\ apps (sdb s') = <[ap_ID a := a]> (apps (sdb s)) /\ as_asked req a /\ secret_of d a (cr_ClientSecretPlain res)
      /\ (needs_key (ap_Protocol a) = true ->
            (exists c, certs_of (ap_ID a) (sdb s') = [c] /\ minted lib masterKey (ap_ID a) d c /\ cr_SigningKID res = default ""%string (ct_KID c))
            /\ exists k, dr_key d = Some k /\ forall mk (s2 : Store W),
                masterKey = Some mk -> key_laws lib mk -> certs (sdb s2) = certs (sdb s') ->
                (LoadSigningKey lib masterKey (ap_ID a) s2).2 = (if sfail s2 (scalls s2) then Err ErrDB else Ok (k, cr_SigningKID res)))
  | Err e => tables (sdb s') = tables (sdb s)
      \/ exists a, row_added (sdb s) (sdb s') a /\ needs_key (ap_Protocol a) = true /\ take_back_failed s' e
  end.
Proof.
  intros HI Hrun. pose proof (Create_outcome d req (sdb s) HI s eq_refl) as H. rewrite Hrun in H. destruct r as [res|e].
  - destruct H as (Has & Hsec & Hcr). assert (apps (sdb s') = <[ap_ID (cr_App res) := cr_App res]> (apps (sdb s))) as Happs.
    { destruct Hcr as [_ Hc]. destruct (needs_key _); [destruct Hc as (? & _ & _ & _ & Ht) | rename Hc into Ht]; by injection Ht. }
    split; [apply Hcr|]. split; [done|]. split; [exact Has|]. split; [done|]. intros Hk. split; [by eapply created_cert | by eapply created_loads].
  - destruct H as [H|(a & Ha & Hk)]; [by left|]. right. exists a. split_and!; [done..|]. by eapply Create_left.
Qed.
End Create.
