(* ===== verification/AppsSecrets.v ===== *)
(** * AppsSecrets: what the protocols see of the applications, and the containment of a leaked secret

    What RotateClientSecret and EmergencyRevoke leave of the application and of the tokens of its
    client, seen through the resolver and the OpenID provider's own check of a secret
    (OidcTokens.v), with RevokeAllForClient as the revoker that run.go installs. *)

From stdpp Require Import sorting.
From Stdlib Require Import Ascii.
From S2P Require Import Redis.
From S2P Require Import OidcJson.
From S2P Require Import OidcTokens OidcProps OidcRevocation OidcFlows.
From S2P Require Import Mfa.
From S2P Require Import Prelude Statements Text Apps AppsProps AppsTenants AppsConfig.
#[global] Open Scope Z_scope.

(** ** what the protocols see of the applications

    src/internal/protocol/resolver/app_resolver.go over the functions of buildAppResolver and
    appToConfig in src/app/run.go. The protocols come before a tenant is known: the lookups run in
    a cross-tenant context. *)

Record ResolvedApp : Type := mkResolvedApp {
  ra_ID : Z; ra_TenantID : Z; ra_Scope : Z; ra_SubjectStrategy : string; ra_Name : string; ra_Code : string; ra_Protocol : string;
  ra_ClientType : string; ra_Status : Z; ra_ClientID : string; ra_ClientSecret : string; ra_HomeURL : string; ra_FirstParty : bool;
  ra_RequireConsent : bool; ra_ProtocolConfig : Apps.Doc; ra_RedirectURIs : list string; ra_LoginURL : string; ra_LogoutURL : string; ra_AccessPolicy : Z
}.
Definition appToConfig (a : App) : ResolvedApp :=
  let str := default ""%string in
  mkResolvedApp (ap_ID a) (default 0 (ap_TenantID a)) (ap_Scope a) (ap_SubjectStrategy a) (ap_Name a) (ap_Code a) (ap_Protocol a)
    (ap_ClientType a) (ap_Status a) (str (ap_ClientID a)) (str (ap_ClientSecret a)) (str (ap_HomeURL a)) (ap_IsFirstParty a)
    (ap_RequireConsent a) (ap_ProtocolConfig a) (ap_RedirectURIs a) (str (ap_LoginURL a)) (str (ap_LogoutURL a)) (ap_AccessPolicy a).

Record CertConfig : Type := mkCertConfig {
  cc_ID : Z; cc_AppID : Z; cc_CertType : string; cc_Algorithm : string; cc_PublicKey : string; cc_PrivateKey : string; cc_KID : string;
  cc_NotBefore : Z; cc_ExpiresAt : option Z; cc_Status : Z
}.

Section Resolver.
Context {G : Type} `{!IdGen G} {T Key : Type} (lib : KeyLib Key) (mk : MasterKey).
Abbreviation W := (AppWorld G T).
Abbreviation Op := (M (Store W) AErr).

Definition convertCert (c : AppCert) : option CertConfig :=
  let cfg priv := mkCertConfig (ct_ID c) (ct_AppID c) (ct_CertType c) (ct_Algorithm c) (ct_PublicKey c) priv (default ""%string (ct_KID c))
                    (ct_NotBefore c) (ct_ExpiresAt c) (ct_Status c) in
  if ct_Encrypted c then cfg <$> Decrypt mk (ct_PrivateKey c) else Some (cfg (ct_PrivateKey c)).

(** [identifier] is a code of the tenant 1. *)
Definition GetApp (identifier : string) : Op ResolvedApp := let! a := repo_GetByCode None 1 identifier in ret (appToConfig a).
Definition GetAppByID (appID : Z) : Op ResolvedApp := let! a := repo_GetByID None appID in ret (appToConfig a).
Definition GetAppByClientID (clientID : string) : Op ResolvedApp := let! a := repo_GetByClientID None clientID in ret (appToConfig a).
Definition GetCert (appID : Z) (certType : string) : Op CertConfig :=
  let! l := repo_ListCertsByApp appID in
  match filter (fun c => ct_CertType c = certType /\ ct_Status c = CertStatusActive) l with
  | c :: _ => or_throw ErrCrypto (convertCert c)
  | [] => throw ErrNoActiveCert
  end.
Fixpoint convert_all (l : list AppCert) : option (list CertConfig) :=
  match l with
  | [] => Some []
  | c :: l' => match convertCert c with Some x => cons x <$> convert_all l' | None => None end
  end.
Definition resolver_ListCerts (appID : Z) : Op (list CertConfig) :=
  let! l := repo_ListCertsByApp appID in
  or_throw ErrCrypto (convert_all (filter (fun c => ct_Status c = CertStatusActive \/ ct_Status c = CertStatusRotating) l)).
(** A certificate that cannot be read is left out, not an error. *)
Definition ListAllActiveSigningCerts : Op (list CertConfig) :=
  let! l := ListActiveSigningCerts in ret (omap convertCert l).
Definition MintSigningCert (d : Draws Key) (appID : Z) : Op CertConfig :=
  let! c := RotateForApp lib (Some mk) d appID in or_throw ErrCrypto (convertCert c).
Definition ListBrowserOrigins (tenantID : Z) : Op (list string) := repo_ListRedirectURIs None tenantID.

(** ** Lookups *)

Implicit Types w : W.

Lemma apps_where_elem P w a : app_inv w -> a ∈ apps_where P w <-> apps w !! ap_ID a = Some a /\ P a = true.
Proof.
  intros HI. unfold apps_where. rewrite (merge_sort_Permutation by_id), list_elem_of_filter, list_elem_of_fmap. split.
  - intros (HP & [i x] & -> & Hx%elem_of_map_to_list). cbn. by rewrite (apps_keyed _ (inv_apps _ HI) _ _ Hx).
  - intros (Hx & HP). split; [done|]. exists (ap_ID a, a). split; [done|]. by apply elem_of_map_to_list.
Qed.

(** The application of a client id: there is one at most. *)
Lemma client_lookup w id a cid : app_inv w -> apps w !! id = Some a -> ap_ClientID a = Some cid -> ap_DeletedAt a = None ->
  exists l, apps_where (has_client_id None cid) w = a :: l.
Proof.
  intros HI Ha Hc Hd. pose proof (apps_keyed _ (inv_apps _ HI) _ _ Ha) as E.
  assert (app_live None a = true) as Hl. { unfold app_live, app_in_scope. by rewrite bool_decide_eq_true_2. }
  assert (a ∈ apps_where (has_client_id None cid) w) as Hin.
  { apply apps_where_elem; [done|]. rewrite E. split; [done|]. unfold has_client_id. by rewrite Hl, bool_decide_eq_true_2. }
  destruct (apps_where _ w) as [|x l] eqn:El; [by apply elem_of_nil in Hin|]. exists l. f_equal.
  assert (x ∈ apps_where (has_client_id None cid) w) as Hx by (rewrite El; left).
  apply apps_where_elem in Hx as [Hx Hp]; [|done]. unfold has_client_id, app_live in Hp. to_prop.
  assert (ap_ID x = id) as Hid. { eapply (apps_distinct _ (inv_apps _ HI)); [exact Ha | exact Hx | done | done |]. left. split; congruence. }
  congruence.
Qed.
Lemma GetAppByClientID_finds (s : Store W) id a cid :
  app_inv (sdb s) -> apps (sdb s) !! id = Some a -> ap_ClientID a = Some cid -> ap_DeletedAt a = None -> sfail s (scalls s) = false ->
  (GetAppByClientID cid s).2 = Ok (appToConfig a).
Proof.
  intros HI Ha Hc Hd Hs. destruct (client_lookup _ _ _ _ HI Ha Hc Hd) as [l Hl].
  unfold GetAppByClientID, repo_GetByClientID, first_app, bind at 1 2. rewrite select_run, Hs, Hl. done.
Qed.
End Resolver.

(** bcrypt, idealised: a hash that was made is not empty, and matches its secret only. *)
Record bcrypt_laws (HashPassword : string -> string -> option string) (CheckPassword : string -> string -> bool) : Prop := {
  hash_nonempty : forall salt p h, HashPassword salt p = Some h -> h <> ""%string;
  hash_matches : forall salt p h x, HashPassword salt p = Some h -> CheckPassword x h = true <-> x = p
}.

Section Secrets.
Context {G : Type} `{!IdGen G} {T Key : Type} (scope : option Z).
Context (tokenRevoker : option (string -> T -> T * (Z * bool))).
Context (HashPassword : string -> string -> option string).
Abbreviation W := (AppWorld G T).
Abbreviation Op := (M (Store W) AErr).
Implicit Types w : W.

(** The row [id] with the hash of a secret that was drawn, and nothing else. *)
Definition secret_set (d : Draws Key) (id : Z) (plain : string) w w' : Prop :=
  exists a hash now, apps w !! id = Some a /\ needsClientSecret (ap_Protocol a) (ap_ClientType a) = true
    /\ dr_secret d = Some plain /\ HashPassword (dr_salt d) plain = Some hash
    /\ apps w' = <[ap_ID a := set_secret hash now a]> (apps w).

Lemma found_app (P : W -> Prop) e id :
  on_db P (not_found_as e (repo_GetByID scope id)) (fun w r => P w /\ match r with Ok a => apps w !! id = Some a | Err _ => True end).
Proof. eapply on_db_weaken; [apply got_app_in | done | intros w [a|x]; naive_solver]. Qed.
Lemma mint_draws (P : W -> Prop) (d : Draws Key) :
  on_db P (mint_secret HashPassword d)
    (fun w r => P w /\ match r with Ok s => dr_secret d = Some s.1 /\ HashPassword (dr_salt d) s.1 = Some s.2 | Err _ => True end).
Proof.
  unfold mint_secret. apply on_db_draw; [intros p Hp | done]. apply on_db_draw; [intros h Hh | done]. by apply on_db_ret.
Qed.

(** What is known of the tokens and of the bus is kept; the rest is the row. *)
Lemma RotateClientSecret_sets (d : Draws Key) id w :
  on_db (fun x => x = w) (RotateClientSecret scope HashPassword d id)
    (fun x r => atokens x = atokens w /\ match r with Ok plain => secret_set d id plain w x | Err _ => apps x = apps w end).
Proof.
  eapply on_db_bind; [apply (found_app (fun x => x = w)) | intros a; cbn | by intros x e [-> _]].
  eapply (on_db_bind _ _ _ (fun x r => (x = w /\ apps w !! id = Some a) /\ (r = Ok tt -> needsClientSecret (ap_Protocol a) (ap_ClientType a) = true)));
    [|intros []; cbn | by intros x e [[-> _] _]].
  { apply on_db_guard; [by intros x [-> ?] | intros x [-> ?] Hn; to_prop; done]. }
  eapply on_db_pre; [intros x [H H']; exact H'|]. intros Hn. specialize (Hn eq_refl).
  eapply on_db_bind; [eapply on_db_weaken; [apply (mint_draws (fun x => x = w /\ apps w !! id = Some a)) | by intros x [H _] | intros x r H; exact H] | intros [plain hash]; cbn | by intros x e [[-> _] _]].
  eapply on_db_pre; [intros x [_ H]; exact H|]. intros [Hp Hh].
  eapply (on_db_bind _ _ _ (fun x _ => x = w /\ apps w !! id = Some a)); [by apply on_db_gets; intros x [H _] | intros now; cbn | by intros x e [-> _]].
  eapply (on_db_bind _ _ _ (fun x r => atokens x = atokens w /\ match r with Ok _ => secret_set d id plain w x | Err _ => apps x = apps w end)); [| |done].
  - apply on_db_exec_or; [intros x x' [-> Ha] Hput | by intros x e [-> _] _ | by intros x [-> _]].
    unfold put_app in Hput. destruct (check_app _); [done|]. destruct (app_conflict _ _); [done|]. injection Hput as <-. split; [done|].
    exists a, hash, now. done.
  - intros u. cbn. eapply (on_db_bind _ _ _ (fun x r => atokens x = atokens w /\ match r with Ok _ => secret_set d id plain w x | Err _ => False end));
      [by apply on_db_write | intros v; by apply on_db_ret | by intros x e [_ []]].
Qed.

(** The revocation of the client of an application. *)
Definition tokens_after (a : App) (tk : T) : T :=
  match tokenRevoker, ap_ClientID a with
  | Some rv, Some c => if bool_decide (c = ""%string) then tk else (rv c tk).1
  | _, _ => tk
  end.
Definition revoke_failed (a : App) (tk : T) : bool :=
  match tokenRevoker, ap_ClientID a with
  | Some rv, Some c => if bool_decide (c = ""%string) then false else (rv c tk).2.2
  | _, _ => false
  end.

(** An emergency that answers set a new secret if the client has one, ran the revoker, and reports its failure. *)
Lemma EmergencyRevoke_does (d : Draws Key) id w :
  on_db (fun x => x = w) (EmergencyRevoke scope tokenRevoker HashPassword d id)
    (fun x r => match r with
       | Ok (res, err) => exists a, apps w !! id = Some a
           /\ (if needsClientSecret (ap_Protocol a) (ap_ClientType a) then er_SecretRotated res = true /\ secret_set d id (er_ClientSecretPlain res) w x
               else er_SecretRotated res = false /\ apps x = apps w)
           /\ atokens x = tokens_after a (atokens w) /\ (err = None <-> revoke_failed a (atokens w) = false)
       | Err _ => atokens x = atokens w /\ apps x = apps w
       end).
Proof.
  eapply on_db_bind; [apply (found_app (fun x => x = w)) | intros a; cbn | by intros x e [-> _]].
  set (R := fun x (p : string * bool) => apps w !! id = Some a /\ atokens x = atokens w /\
      (if needsClientSecret (ap_Protocol a) (ap_ClientType a) then p.2 = true /\ secret_set d id p.1 w x else p.2 = false /\ apps x = apps w)).
  eapply (on_db_bind _ _ _ (fun x r => match r with Ok p => R x p | Err _ => atokens x = atokens w /\ apps x = apps w end)); [| |done].
  { eapply on_db_eq. intros x [-> Ha]. unfold R. destruct (needsClientSecret _ _); [|apply on_db_ret; by intros x <-].
    eapply on_db_bind; [eapply on_db_weaken; [apply RotateClientSecret_sets | by intros x <- | intros x r H; exact H] | intros p; apply on_db_ret; by intros x [? ?] | by intros x e [? ?]]. }
  intros p. cbn. unfold publishEmergencyRevoke, publish, run_revoker, tokens_after, revoke_failed.
  destruct tokenRevoker as [rv|]; [|intros s (Ha & Ht & Hs); cbn; exists a; split_and!; try done; by destruct (needsClientSecret _ _)].
  assert (forall s : Store W, R (sdb s) p -> if needsClientSecret (ap_Protocol a) (ap_ClientType a)
    then p.2 = true /\ secret_set d id p.1 w (sdb s) else p.2 = false /\ apps (sdb s) = apps w) as Hrow by (by intros s (_ & _ & ?)).
  destruct (ap_ClientID a) as [c|] eqn:Hc; cbn.
  - case_bool_decide as Hb; intros s Hs; pose proof (Hrow s Hs) as Hr; destruct Hs as (Ha & Ht & _).
    + exists a. rewrite Hc, bool_decide_eq_true_2 by done. (split; [done|split]; [cbn; revert Hr; by destruct (needsClientSecret _ _) | done]).
    + unfold bind. rewrite Ht. destruct (rv c (atokens w)) as [tk [n b]] eqn:Erv.
      destruct b; exists a; rewrite Hc, bool_decide_eq_false_2, Erv by done; (split; [done|split]; [cbn; revert Hr; by destruct (needsClientSecret _ _) | done]).
  - rewrite bool_decide_eq_true_2 by done. intros s Hs. pose proof (Hrow s Hs) as Hr. destruct Hs as (Ha & Ht & _).
    exists a. rewrite Hc. (split; [done|split]; [cbn; revert Hr; by destruct (needsClientSecret _ _) | done]).
Qed.
End Secrets.

(** ** The containment, as the OpenID provider sees it *)

Section Containment.
Context {G : Type} `{!IdGen G} {Key : Type} (t : Z).
Context (HashPassword : string -> string -> option string) (CheckPassword : string -> string -> bool).
Context (cfg : Config) (scan : Keys -> Z -> Z -> string -> list string * Z).
Context {Claims : Type} (claims_for : Z -> string -> list string -> option Claims).
(** How the provider reads a configuration column. *)
Context (decode : Apps.Doc -> RawConfig).
Abbreviation W := (AppWorld G OWorld).

(** run.go: SetTokenRevoker(storage.RevokeAllForClient) *)
Definition oidc_revoker (c : string) (o : OWorld) : OWorld * (Z * bool) :=
  let '(o', r) := RevokeAllForClient scan c o in
  (o', match r with Ok (n, None) => (n, false) | Ok (n, Some _) => (n, true) | Err _ => (0, true) end).
Abbreviation Emergency := (EmergencyRevoke (G:=G) (Some t) (Some oidc_revoker) HashPassword).

(** The resolver's answer to the provider, when the statement is answered. *)
Definition oidc_app (r : ResolvedApp) : AppConfig :=
  mkAppConfig (ra_ID r) (ra_Protocol r) (ra_Status r) (ra_ClientID r) (ra_ClientType r) (ra_ClientSecret r) (ra_LogoutURL r) (decode (ra_ProtocolConfig r)).
Definition resolve_client (w : W) (clientID : string) : res OErr (option AppConfig) :=
  match (GetAppByClientID clientID (mkStore w (fun _ => false) 0)).2 with Ok r => Ok (Some (oidc_app r)) | Err _ => Err ErrServerError end.
Definition accepts_secret (w : W) (clientID secret : string) : Prop :=
  AuthorizeSecret (resolve_client w) (fun hash x => CheckPassword x hash) clientID secret = Ok tt.

Lemma accepts_new_secret (w : W) id a cid hash salt plain x :
  bcrypt_laws HashPassword CheckPassword -> app_inv w -> apps w !! id = Some a -> ap_ClientID a = Some cid -> ap_DeletedAt a = None ->
  ap_ClientSecret a = Some hash -> HashPassword salt plain = Some hash -> accepts_secret w cid x <-> x = plain.
Proof.
  intros [B1 B2] HI Ha Hc Hd Hs Hh. unfold accepts_secret, AuthorizeSecret, resolve_client.
  rewrite (GetAppByClientID_finds (mkStore w (fun _ => false) 0) id a cid HI Ha Hc Hd eq_refl). cbn. rewrite Hs. cbn.
  rewrite bool_decide_eq_false_2 by (by eapply B1). cbn. rewrite <- (B2 _ _ _ x Hh).
  destruct (CheckPassword x hash); cbn; [done|]. by split.
Qed.

(** C14: An emergency revocation of a confidential client that answers, even with the error of a
    revocation that failed: from then on the provider accepts the new secret for the client and no
    other. If the OpenID store was reached from an empty one without connection faults, and is scanned
    completely and within the limit of cursors, the revocation succeeds and no access or refresh token of any user at the client is left. *)
Theorem emergency_contains (d : Draws Key) id (s s' : Store W) a cid result err :
  app_inv (sdb s) -> bcrypt_laws HashPassword CheckPassword ->
  apps (sdb s) !! id = Some a -> ap_DeletedAt a = None -> ap_ClientID a = Some cid -> needsClientSecret (ap_Protocol a) (ap_ClientType a) = true ->
  Emergency d id s = (s', Ok (result, err)) ->
  (forall x, accepts_secret (sdb s') cid x <-> x = er_ClientSecretPlain result) /\
  (forall o0, sane cfg -> fine (rds o0) -> rkeys (rds o0) = ∅ -> oreach cfg scan claims_for o0 (atokens (sdb s)) ->
     scan_complete scan -> glob_plain cid = true -> cid <> ""%string ->
     is_Some (iterate scan maxCursors (rkeys (rds (atokens (sdb s)))) (rclock (rds (atokens (sdb s)))) (utkPrefix +:+ "*" +:+ (":" +:+ cid)) 0) ->
     err = None /\ forall u k, u <> ""%string -> contains_colon u = false -> ~ live_token (rds (atokens (sdb s'))) u cid k).
Proof.
  intros HI Hb Ha Hd Hc Hn Hrun.
  pose proof (EmergencyRevoke_does (Some t) (Some oidc_revoker) HashPassword d id (sdb s) s eq_refl) as Hdo. rewrite Hrun in Hdo. cbn [fst snd] in Hdo.
  assert (app_inv (sdb s')) as HI'.
  { destruct (EmergencyRevoke_J (Some oidc_revoker) HashPassword t (fun _ => False) (sdb s) d id s) as [H _]; [split; [done | apply untouched_start] | by rewrite Hrun in H]. }
  destruct Hdo as (a' & Ha' & Hrow & Htok & Herr). rewrite Ha in Ha'. injection Ha' as <-. rewrite Hn in Hrow.
  destruct Hrow as (_ & a' & hash & now & Ha' & _ & _ & Hh & Happs). rewrite Ha in Ha'. injection Ha' as <-. split.
  - intros x. eapply (accepts_new_secret _ (ap_ID a) (set_secret hash now a)); [done | done | by rewrite Happs, lookup_insert_eq | done | done | done | done].
  - intros o0 Hsane Hf H0 Hr Hscan Hplain Hne Hit.
    destruct (revocation_reaches_every_token cfg scan claims_for Hsane o0 (atokens (sdb s)) cid Hf H0 Hr Hscan Hplain Hne Hit) as (n & Hok & Hlive).
    unfold tokens_after, revoke_failed, oidc_revoker in Htok, Herr. rewrite Hc, bool_decide_eq_false_2 in Htok, Herr by done.
    destruct (RevokeAllForClient scan cid (atokens (sdb s))) as [o' r]. cbn in Hok, Hlive, Htok, Herr. subst r. cbn in Herr.
    split; [by apply Herr|]. rewrite Htok. exact Hlive.
Qed.
End Containment.
