(* ===== verification/AppsHttp.v ===== *)
(** * AppsHttp: the console's endpoints for applications, and the catalogue of templates

    src/internal/domain/app/handler.go with the responses of dto.go, the codes of errcodes.go,
    template.go, template_response.go and the choices of quickstart.go, whose texts are a parameter.
    A body or a query is None when it does not bind. *)

From stdpp Require Import sorting.
From Stdlib Require Import Ascii.
From S2P Require Import Mfa.
From S2P Require Import Prelude Statements Text Apps AppsConfig.
#[global] Open Scope Z_scope.

(** ** Responses of dto.go *)

Record AppResponse : Type := mkAppResponse {
  rp_ID : Z; rp_TenantID : option Z; rp_Scope : Z; rp_SubjectStrategy : string; rp_Name : string; rp_Code : string; rp_Protocol : string;
  rp_ClientType : string; rp_Status : Z; rp_Icon : option string; rp_Env : option string; rp_Description : option string;
  rp_ClientID : option string; rp_ClientSecret : string; rp_HomeURL : option string; rp_IsFirstParty : bool; rp_RequireConsent : bool;
  rp_ProtocolConfig : Doc; rp_LoginURL : option string; rp_RedirectURIs : list string; rp_LogoutURL : option string; rp_AccessPolicy : Z;
  rp_CreatedAt : Z; rp_UpdatedAt : Z; rp_CreatedBy : option Z; rp_UpdatedBy : option Z
}.
(** [secret]: the plaintext of a creation, else empty. *)
Definition app_response (secret : string) (a : App) : AppResponse :=
  mkAppResponse (ap_ID a) (ap_TenantID a) (ap_Scope a) (ap_SubjectStrategy a) (ap_Name a) (ap_Code a) (ap_Protocol a) (ap_ClientType a)
    (ap_Status a) (ap_Icon a) (ap_Env a) (ap_Description a) (ap_ClientID a) secret (ap_HomeURL a) (ap_IsFirstParty a) (ap_RequireConsent a)
    (ap_ProtocolConfig a) (ap_LoginURL a) (ap_RedirectURIs a) (ap_LogoutURL a) (ap_AccessPolicy a) (ap_CreatedAt a) (ap_UpdatedAt a)
    (ap_CreatedBy a) (ap_UpdatedBy a).
Definition ToAppResponse : App -> AppResponse := app_response ""%string.
Record AppGroupResponse : Type := mkAppGroupResponse {
  gp_ID : Z; gp_TenantID : Z; gp_Name : string; gp_Code : string; gp_ParentID : option Z; gp_SortOrder : Z; gp_CreatedAt : Z; gp_UpdatedAt : Z
}.
Definition ToAppGroupResponse (g : AppGroup) : AppGroupResponse :=
  mkAppGroupResponse (ag_ID g) (ag_TenantID g) (ag_Name g) (ag_Code g) (ag_ParentID g) (ag_SortOrder g) (ag_CreatedAt g) (ag_UpdatedAt g).
Record AppCertResponse : Type := mkAppCertResponse {
  cp_ID : Z; cp_AppID : Z; cp_CertType : string; cp_Algorithm : string; cp_PublicKey : string; cp_ExpiresAt : option Z; cp_Status : Z; cp_CreatedAt : Z
}.
Definition ToAppCertResponse (c : AppCert) : AppCertResponse :=
  mkAppCertResponse (ct_ID c) (ct_AppID c) (ct_CertType c) (ct_Algorithm c) (ct_PublicKey c) (ct_ExpiresAt c) (ct_Status c) (ct_CreatedAt c).

(** ** errcodes.go: an error that is not bound is an internal one *)

Definition app_code (e : AErr) : Z * Z :=
  match e with
  | ErrAppNotFound => (404, 40401)
  | ErrAppGroupNotFound => (404, 40402)
  | ErrCertNotFound => (404, 40404)
  | ErrAppCodeExists => (409, 40901)
  | ErrGroupCodeExists => (409, 40902)
  | ErrInvalidClientType => (400, 40015)
  | ErrFormFillNotLicensed => (403, 40301)
  | _ => (500, 50001)
  end.
Definition NumAppValidation : Z := 40011.
Definition NumSelfApproval : Z := 40012.
Definition NumTemplateNotFound : Z := 40407.

Inductive Answer (A : Type) : Type := Answered (http : Z) (body : A) | Failed (http num : Z).
Arguments Answered {A}. Arguments Failed {A}.

(** ** template.go *)

Record TemplateField : Type := mkTemplateField { tf_Key : string; tf_Label : string; tf_Type : string; tf_Placeholder : string; tf_Target : string }.
Record Template : Type := mkTemplate {
  tm_Key : string; tm_Name : string; tm_Icon : string; tm_Category : string; tm_Protocol : string; tm_ClientType : string;
  tm_SubjectStrategy : string; tm_Description : string; tm_DocMD : string; tm_Defaults : Doc; tm_Fields : list TemplateField
}.
(** A file of the directory: unreadable, not JSON, or a template. *)
Inductive Entry : Type := Dir | Unreadable | NotJSON | File (tpl : Template).
Inductive TErr : Type := ErrTemplateNotFound | ErrTemplates.
Definition secretLikeKeys : list string := ["client_secret"; "secret"; "password"]%string.
Definition validProtocol (p : string) : bool := bool_decide (p ∈ [ProtocolOIDC; ProtocolSAML; ProtocolCAS; ProtocolForm]).
Definition template_ok (idx : gmap string Template) (tpl : Template) : bool :=
  negb (bool_decide (tm_Key tpl = ""%string)) && negb (bool_decide (tm_Name tpl = ""%string)) && validProtocol (tm_Protocol tpl)
  && forallb (fun k => bool_decide (tm_Defaults tpl !! k = None)) secretLikeKeys && bool_decide (idx !! tm_Key tpl = None).
Fixpoint load_entries (entries : list Entry) (idx : gmap string Template) (out : list Template) : option (gmap string Template * list Template) :=
  match entries with
  | [] => Some (idx, out)
  | Dir :: es => load_entries es idx out
  | Unreadable :: _ | NotJSON :: _ => None
  | File tpl :: es => if template_ok idx tpl then load_entries es (<[tm_Key tpl := tpl]> idx) (out ++ [tpl]) else None
  end.
Definition template_le (a b : Template) : Prop :=
  if bool_decide (tm_Category a = tm_Category b) then str_le (tm_Name a) (tm_Name b) else str_le (tm_Category a) (tm_Category b).
#[export] Instance template_le_dec : RelDecision template_le.
Proof. intros a b. unfold template_le. destruct (bool_decide _); apply _. Defined.
(** [entries] is None when the directory cannot be read. *)
Definition loadTemplates (entries : option (list Entry)) : option (gmap string Template * list Template) :=
  match entries with
  | None => None
  | Some es => match load_entries es ∅ [] with Some (idx, out) => Some (idx, merge_sort template_le out) | None => None end
  end.
Definition GetTemplate (entries : option (list Entry)) (key : string) : res TErr Template :=
  match loadTemplates entries with
  | None => Err ErrTemplates
  | Some (idx, _) => match idx !! key with Some tpl => Ok tpl | None => Err ErrTemplateNotFound end
  end.
Record TemplateListItem : Type := mkTemplateListItem {
  ti_Key : string; ti_Name : string; ti_Icon : string; ti_Category : string; ti_Protocol : string; ti_Description : string
}.
Definition ToTemplateListItems (ts : list Template) : list TemplateListItem :=
  (fun tpl => mkTemplateListItem (tm_Key tpl) (tm_Name tpl) (tm_Icon tpl) (tm_Category tpl) (tm_Protocol tpl) (tm_Description tpl)) <$> ts.

(** ** quickstart.go; [sample] is the text for a language *)

Inductive Lang : Type := Curl | GoLang | Node | Python.
Definition lang_of (lang : string) : option Lang :=
  if bool_decide (lang = "curl"%string) then Some Curl else if bool_decide (lang = "go"%string) then Some GoLang
  else if bool_decide (lang ∈ ["node"; "nodejs"; "js"]%string) then Some Node
  else if bool_decide (lang ∈ ["python"; "py"]%string) then Some Python else None.
Definition renderQuickstart (ToLower : string -> string) (sample : Lang -> string -> string -> string -> string) (lang : string) (a : App)
    (host : string) (https : bool) : option string :=
  let issuer := (if https then "https"%string else "http"%string) +:+ "://" +:+ host in
  let redirectURI := match ap_RedirectURIs a with u :: _ => if bool_decide (u = ""%string) then "http://localhost:8090/callback"%string else u
                                                | [] => "http://localhost:8090/callback"%string end in
  (fun l => sample l issuer (default ""%string (ap_ClientID a)) redirectURI) <$> lang_of (ToLower lang).

(** ** handler.go *)

Section Handlers.
Context {G : Type} `{!IdGen G} {T Key : Type} (ToLower lower : string -> string) (scope : option Z).
Context (lib : KeyLib Key) (masterKey : option MasterKey) (keyService licensed : bool) (protoDefaultsP : option (Z -> ProtocolDefaults)).
Context (tokenRevoker : option (string -> T -> T * (Z * bool))).
Context (HashPassword : string -> string -> option string).
(** tenantctx.FromContext of the request *)
Context (tenantID : Z).
Abbreviation Op := (M (Store (AppWorld G T)) AErr).

Definition app_error {A} (e : AErr) : Answer A := Failed (app_code e).1 (app_code e).2.
Definition answer {A B} (http : Z) (m : Op A) (f : A -> B) : Op (Answer B) :=
  attempt m (fun r => ret match r with Ok a => Answered http (f a) | Err e => app_error e end).
Definition path_id {A} (param : string) (k : Z -> Op (Answer A)) : Op (Answer A) :=
  let '(id, ok) := ParseInt param in if ok then k id else ret (Failed 400 40001).
Definition bound {A B} (body : option B) (k : B -> Op (Answer A)) : Op (Answer A) :=
  match body with Some req => k req | None => ret (Failed 400 40001) end.

Definition ListAppsInGroup_handler (id : string) : Op (Answer (list AppResponse)) :=
  path_id id (fun groupID =>
    attempt (ListAppsByGroup scope groupID) (fun r => match r with
      | Err e => ret (app_error e)
      | Ok [] => ret (Answered 200 [])
      | Ok rs => answer 200 (GetByIDs scope (rl_AppID <$> rs)) (fmap ToAppResponse)
      end)).
Definition ListApps_handler (p : option ListAppParams) : Op (Answer (list AppResponse * Z)) :=
  bound p (fun p => answer 200 (List_apps ToLower lower scope tenantID p) (fun '(l, total) => (ToAppResponse <$> l, total))).
Definition ListEnvOptions_handler : Op (Answer (list string)) := answer 200 (ListEnvOptions scope tenantID) (fun x => x).
Definition CreateApp_handler (d : Draws Key) (body : option CreateAppRequest) : Op (Answer AppResponse) :=
  bound body (fun req =>
    answer 201 (Create ToLower scope lib masterKey keyService licensed protoDefaultsP HashPassword d tenantID req)
      (fun r => app_response (cr_ClientSecretPlain r) (cr_App r))).
Definition GetApp_handler (id : string) : Op (Answer AppResponse) := path_id id (fun id => answer 200 (GetByID scope id) ToAppResponse).
Definition UpdateApp_handler (id : string) (body : option UpdateAppRequest) : Op (Answer AppResponse) :=
  path_id id (fun id => bound body (fun req => answer 200 (Update ToLower scope id req) ToAppResponse)).
Definition DeleteApp_handler (id : string) : Op (Answer unit) := path_id id (fun id => answer 200 (Delete scope id) (fun x => x)).
Definition UpdateAppStatus_handler (id : string) (body : option Z) : Op (Answer unit) :=
  path_id id (fun id => bound body (fun st => answer 200 (UpdateStatus scope id st) (fun x => x))).
Definition GetProtocolConfig_handler (id : string) : Op (Answer Doc) := path_id id (fun id => answer 200 (GetProtocolConfig scope id) (fun x => x)).
Definition UpdateProtocolConfig_handler (id : string) (body : option Doc) : Op (Answer unit) :=
  path_id id (fun id => bound body (fun c => answer 200 (UpdateProtocolConfig scope id c) (fun x => x))).
Definition PatchProtocolConfig_handler (id : string) (body : option Doc) : Op (Answer unit) :=
  path_id id (fun id => bound body (fun c => answer 200 (PatchProtocolConfig scope id c) (fun x => x))).
Definition ListCerts_handler (id : string) : Op (Answer (list AppCertResponse)) :=
  path_id id (fun id => answer 200 (ListCerts scope id) (fmap ToAppCertResponse)).
Definition CreateCert_handler (d : Draws Key) (id : string) : Op (Answer AppCertResponse) :=
  path_id id (fun id => answer 201 (CreateCert scope lib masterKey keyService d id) ToAppCertResponse).
(** The application of the path is not read. *)
Definition DeleteCert_handler (cid : string) : Op (Answer unit) := path_id cid (fun cid => answer 200 (DeleteCert scope cid) (fun x => x)).
Definition ListAppGroups_handler : Op (Answer (list AppGroupResponse)) := answer 200 (ListGroups scope tenantID) (fmap ToAppGroupResponse).
Definition CreateAppGroup_handler (body : option AppGroupRequest) : Op (Answer AppGroupResponse) :=
  bound body (fun req => answer 201 (CreateGroup scope tenantID req) ToAppGroupResponse).
Definition UpdateAppGroup_handler (id : string) (body : option UpdateAppGroupRequest) : Op (Answer AppGroupResponse) :=
  path_id id (fun id => bound body (fun req => answer 200 (UpdateGroup scope id req) ToAppGroupResponse)).
Definition DeleteAppGroup_handler (id : string) : Op (Answer unit) := path_id id (fun id => answer 200 (DeleteGroup scope id) (fun x => x)).
Definition AddAppToGroup_handler (id : string) (body : option Z) : Op (Answer unit) :=
  path_id id (fun groupID => bound body (fun appID => answer 201 (AddAppToGroup scope groupID appID) (fun x => x))).
Definition RemoveAppFromGroup_handler (id aid : string) : Op (Answer unit) :=
  path_id id (fun groupID => path_id aid (fun appID => answer 200 (RemoveAppFromGroup scope groupID appID) (fun x => x))).
(** None is the panic of Templates() on a malformed template. *)
Definition ListTemplates_handler (entries : option (list Entry)) : option (Answer (list TemplateListItem)) :=
  match loadTemplates entries with Some (_, l) => Some (Answered 200 (ToTemplateListItems l)) | None => None end.
Definition GetTemplate_handler (entries : option (list Entry)) (key : string) : Answer Template :=
  match GetTemplate entries key with
  | Ok tpl => Answered 200 tpl
  | Err ErrTemplateNotFound => Failed 404 NumTemplateNotFound
  | Err ErrTemplates => Failed 500 50001
  end.
Definition RotateSigningKey_handler (d : Draws Key) (id : string) : Op (Answer AppCertResponse) :=
  path_id id (fun id => answer 200 (RotateSigningKey scope lib masterKey keyService d id) ToAppCertResponse).
(** [raw] is None when the body exceeds 256 KB or cannot be read. *)
Definition ImportSAMLMetadata_handler (parse : string -> option SPMetadata) (id : string) (raw : option string) : Op (Answer Doc) :=
  path_id id (fun id =>
    match raw with
    | None => ret (Failed 400 40001)
    | Some EmptyString => ret (Failed 400 40002)
    | Some xml => attempt (ImportSAMLSPMetadata scope parse id xml) (fun r => ret match r with
        | Ok cfg => Answered 200 cfg
        | Err ErrInvalidSPMetadata => Failed 400 NumAppValidation
        | Err e => app_error e
        end)
    end).
Definition RegenerateClientSecret_handler (d : Draws Key) (id : string) : Op (Answer string) :=
  path_id id (fun id => answer 200 (RotateClientSecret scope HashPassword d id) (fun x => x)).
(** With an error the result is not looked at. *)
Definition EmergencyRevoke_handler (d : Draws Key) (id : string) : Op (Answer EmergencyRevokeResult) :=
  path_id id (fun id =>
    attempt (EmergencyRevoke scope tokenRevoker HashPassword d id) (fun r => ret match r with
      | Ok (result, None) => Answered 200 result
      | Ok (_, Some e) => app_error e
      | Err e => app_error e
      end)).
Definition Quickstart_handler (sample : Lang -> string -> string -> string -> string) (host : string) (https : bool) (id lang : string) : Op (Answer (string * string)) :=
  path_id id (fun id =>
    attempt (GetByID scope id) (fun r => ret match r with
      | Err e => app_error e
      | Ok a => if negb (bool_decide (ap_Protocol a = ProtocolOIDC)) then Failed 400 NumAppValidation else
                match renderQuickstart ToLower sample lang a host https with
                | Some text => Answered 200 (lang, text)
                | None => Failed 400 NumSelfApproval
                end
      end)).
End Handlers.

(** ** Templates: what was loaded is whole, and clean *)

Lemma load_entries_ok es idx out idx' out' :
  load_entries es idx out = Some (idx', out') ->
  (forall k tpl, idx !! k = Some tpl -> tm_Key tpl = k /\ tpl ∈ out) -> (forall tpl, tpl ∈ out -> idx !! tm_Key tpl = Some tpl) ->
  (forall tpl, tpl ∈ out -> forall k, k ∈ secretLikeKeys -> tm_Defaults tpl !! k = None) ->
  (forall k tpl, idx' !! k = Some tpl -> tm_Key tpl = k /\ tpl ∈ out') /\ (forall tpl, tpl ∈ out' -> idx' !! tm_Key tpl = Some tpl)
  /\ (forall tpl, tpl ∈ out' -> forall k, k ∈ secretLikeKeys -> tm_Defaults tpl !! k = None).
Proof.
  revert idx out. induction es as [|[| | |tpl] es IH]; cbn; intros idx out Hl H1 H2 H3; [by simplify_eq | by eapply IH | done | done |].
  destruct (template_ok idx tpl) eqn:Hok; [|done]. unfold template_ok in Hok. to_prop. rename H0 into Hnew, H4 into Hsec. eapply IH; [exact Hl | | |].
  - intros k x. rewrite lookup_insert_Some. intros [[<- <-]|[_ Hx]]; [split; [done|]; apply elem_of_app; right; by left|].
    destruct (H1 _ _ Hx). split; [done|]. apply elem_of_app. by left.
  - intros x [Hx| ->%list_elem_of_singleton]%elem_of_app; [|by rewrite lookup_insert_eq]. apply H2 in Hx. rewrite lookup_insert_ne; congruence.
  - intros x [Hx| ->%list_elem_of_singleton]%elem_of_app k Hk; [by apply (H3 x Hx k)|].
    rewrite forallb_forall in Hsec. apply (bool_decide_eq_true_1 _), Hsec. by apply list_elem_of_In.
Qed.

(** The catalogue lists exactly the templates that can be fetched, and none holds a secret. *)
Lemma catalogue_is_complete entries idx l :
  loadTemplates entries = Some (idx, l) ->
  (forall tpl, tpl ∈ l <-> GetTemplate entries (tm_Key tpl) = Ok tpl) /\ (forall tpl k, tpl ∈ l -> k ∈ secretLikeKeys -> tm_Defaults tpl !! k = None).
Proof.
  intros Hl. unfold GetTemplate. rewrite Hl. unfold loadTemplates in Hl. destruct entries as [es|]; [|done].
  destruct (load_entries es ∅ []) as [[idx' out]|] eqn:El; [|done]. injection Hl as <- <-.
  destruct (load_entries_ok _ _ _ _ _ El) as (H1 & H2 & H3); [by intros k tpl; rewrite lookup_empty | by intros tpl ?%elem_of_nil | by intros tpl ?%elem_of_nil|].
  split; [|intros tpl k; rewrite (merge_sort_Permutation template_le); intros Hin; by apply (H3 tpl Hin)].
  intros tpl. rewrite (merge_sort_Permutation template_le). split; [by intros ->%H2|]. destruct (idx' !! tm_Key tpl) as [x|] eqn:Hx; [|done]. intros [= <-]. by apply (H1 _ _ Hx).
Qed.
