(* ===== verification/AppsRuns.v ===== *)
(** * AppsRuns: the theorems of the applications at work, and what the code does beside them

    One deployment: keys are strings that libraries read back, a hash is its secret with a prefix,
    ids are counted, the tokens are those of the OpenID store of OidcRotation. *)

From stdpp Require Import sorting.
From Stdlib Require Import Ascii.
From S2P Require Import Redis.
From S2P Require Import OidcJson.
From S2P Require Import OidcTokens OidcProps OidcRevocation OidcFlows OidcRotation.
From S2P Require Import Mfa.
From S2P Require Import Prelude Statements Text Apps AppsProps AppsTenants AppsConfig AppsSecrets AppsHttp.
#[global] Open Scope Z_scope.

Module AppDemo.

Definition same (s : string) : string := s.
Definition key_lib : KeyLib string := mkKeyLib string (fun _ b => b) (fun s => Some s) (fun k => k) (fun b => Some b) (fun _ => None) (fun _ k => Some ("pub:" +:+ k)).
Definition master : MasterKey := mkMasterKey (fun p _ => Some p) (fun c => Some c).
Definition hash (salt p : string) : option string := Some ("h:" +:+ p).
Definition check (x h : string) : bool := bool_decide (h = "h:" +:+ x).
Definition draws (n : string) : Draws string := mkDraws (Some n) (Some ("secret-" +:+ n)) "salt" (Some ("key-" +:+ n)) (Some 1) "nonce" (Some ("kid-" +:+ n)).

Abbreviation W := (AppWorld Z OWorld).
Definition nothing : W := mkAppWorld ∅ ∅ ∅ ∅ 0 100 [] OidcDemo.w2.
Definition store (w : W) : Store W := mkStore w (fun _ => false) 0.
(** The statements numbered in [l] fail. *)
Definition failing (l : list nat) (w : W) : Store W := mkStore w (fun n => bool_decide (n ∈ l)) 0.

Definition web (code : string) (sc : option Z) : CreateAppRequest :=
  mkCreateApp "App" code ProtocolOIDC "" sc None None None None None None (Some ["https://app/cb"%string]) None None None None None.
Definition saml_app (code : string) (sc : option Z) : CreateAppRequest :=
  mkCreateApp "App" code ProtocolSAML "" sc None None None None None None None None None None None None.

Definition revoker := oidc_revoker OidcDemo.scan_all.
Abbreviation create t := (Create (G:=Z) (T:=OWorld) same (Some t) key_lib (Some master) true false None hash).
Abbreviation run := (run_app (G:=Z) (T:=OWorld) same key_lib (Some master) true false None (Some revoker) hash).

(** The web client "client_app" of tenant 7, with the id 1 and the certificate 2. *)
Definition w1 : W := sdb (run 7 (ACreate (draws "app") (web "crm" None)) (store nothing)).1.

Lemma nothing_inv : app_inv nothing.
Proof. split; cbn; [split | split | split | | |]; intros *; by rewrite lookup_empty. Qed.
Lemma after_inv t c w : app_inv w -> bound_cmd c -> app_inv (sdb (run t c (store w)).1).
Proof. intros HI Hc. by apply (run_app_kept same key_lib (Some master) true false None (Some revoker) hash t c (store w)). Qed.
Lemma w1_inv : app_inv w1.
Proof. apply (after_inv 7 (ACreate (draws "app") (web "crm" None)) nothing nothing_inv). by left. Qed.

Lemma key_lib_laws : key_laws key_lib master.
Proof. split; [done | done | by intros p n x [= ->]]. Qed.
Lemma hash_laws : bcrypt_laws hash check.
Proof.
  split; [by intros salt p h [= <-]|]. intros salt p h x [= <-]. unfold check. rewrite bool_decide_eq_true. split; [intros H; cbn in H; by injection H | by intros ->].
Qed.

(** ** Witnesses *)

Lemma app_tables_stay_sound_witness : app_inv nothing /\ app_inv w1.
Proof.
  split; [exact nothing_inv|]. apply (app_tables_stay_sound same key_lib (Some master) true false None (Some revoker) hash nothing w1 nothing_inv).
  apply rtc_once. apply (step_request same key_lib (Some master) true false None (Some revoker) hash (store nothing) 7 (ACreate (draws "app") (web "crm" None))).
  by left.
Defined.

Lemma request_stays_in_its_tenant_witness : is_Some (apps w1 !! 1) /\ untouched 9 (deletes (Key:=string) (ADelete 1)) w1 (sdb (run 9 (ADelete 1) (store w1)).1).
Proof.
  split; [eexists; vm_compute; reflexivity|].
  exact (request_stays_in_its_tenant same key_lib (Some master) true false None (Some revoker) hash 9 (ADelete 1) (store w1) w1_inv I).
Defined.

Definition rotate := RotateSigningKey (G:=Z) (T:=OWorld) (Some 7) key_lib (Some master) true (draws "next") 1 (store w1).
Lemma rotation_is_seamless_witness :
  (exists c, rotate.2 = Ok c) /\
  (forall cid c, certs w1 !! cid = Some c -> published w1 c = true ->
     exists c', certs (sdb rotate.1) !! cid = Some c' /\ published (sdb rotate.1) c' = true /\ same_key c c').
Proof.
  split; [eexists; vm_compute; reflexivity|].
  exact (proj1 (rotation_is_seamless (Some 7) key_lib (Some master) true master (draws "next") 1 (store w1) rotate.1 rotate.2
    w1_inv eq_refl key_lib_laws (surjective_pairing _))).
Defined.

Definition emergency := EmergencyRevoke (G:=Z) (T:=OWorld) (Some 7) (Some revoker) hash (draws "new") 1 (store w1).
Definition emergency_result := match emergency.2 with Ok (r, _) => r | Err _ => mkEmergencyRevokeResult "" 0 false false end.
Definition plain_config (d : Apps.Doc) : RawConfig := mkRawConfig None None false 0 0 "" "" 0.
Lemma emergency_contains_witness :
  live_token (rds (atokens w1)) "42" "client_app" (kRefresh "r1")
  /\ (forall x, accepts_secret check plain_config (sdb emergency.1) "client_app" x <-> x = "secret-new"%string)
  /\ forall u k, u <> ""%string -> contains_colon u = false -> ~ live_token (rds (atokens (sdb emergency.1))) u "client_app" k.
Proof.
  split; [refine (live_refresh _ _ _ "r1" (OidcRevocation.rotated DefaultConfig 1000 OidcDemo.rt0 "r1"
      (OidcRotation.minted DefaultConfig "a1" "client_app" "r1" "42" ["client_app"]%string ["openid"]%string 1000)) _ _ _ _);
    [vm_compute; reflexivity | reflexivity | reflexivity] |].
  destruct (emergency_contains 7 hash check DefaultConfig OidcDemo.scan_all OidcDemo.claims_of plain_config (draws "new") 1 (store w1) emergency.1
    (default (mkApp 0 None 0 "" "" "" "" 0 None None None None None "" None false false ∅ None [] None 0 0 0 None None None) (apps w1 !! 1))
    "client_app" emergency_result None w1_inv hash_laws) as [H1 H2]; [vm_compute; reflexivity..|].
  split; [exact H1|]. apply (H2 OidcDemo.w0).
  - exact DefaultConfig_sane.
  - exact OidcDemo.w0_fine.
  - reflexivity.
  - exact OidcDemo.reach2.
  - exact OidcDemo.scan_all_complete.
  - vm_compute; reflexivity.
  - discriminate.
  - eexists. unfold maxCursors. change (Z.to_nat 10000) with (S (Z.to_nat 9999)). reflexivity.
Defined.

Definition patch : Apps.Doc := <["rate_limit_per_min"%string := JInt 5]> {["jwks"%string := JNull]}.
Definition patched_run := PatchProtocolConfig (G:=Z) (T:=OWorld) (Some 7) 1 patch (store w1).
Lemma patch_witness : exists a config now e keys,
    apps w1 !! 1 = Some a /\ apps (sdb patched_run.1) = <[1 := set_config config now a]> (apps w1)
    /\ (forall k, config !! k = patched (ap_ProtocolConfig a) patch k)
    /\ abus (sdb patched_run.1) = abus w1 ++ [e] /\ ae_Payload e !! "config_before"%string = Some (Cfg (ap_ProtocolConfig a))
    /\ ae_Payload e !! "changed_keys"%string = Some (Strs keys) /\ names_changes (ap_ProtocolConfig a) config keys.
Proof.
  assert (patched_run.2 = Ok tt) as E by (vm_compute; reflexivity).
  exact (patch_changes_what_it_names (Some 7) 1 patch (store w1) patched_run.1 (eq_trans (surjective_pairing _) (f_equal (pair _) E))).
Defined.

Definition creation := create 7 (draws "app") 7 (web "crm" None) (store nothing).
Lemma creation_is_whole_witness :
  match creation.2 with
  | Ok res => apps nothing !! ap_ID (cr_App res) = None /\ apps (sdb creation.1) = <[ap_ID (cr_App res) := cr_App res]> (apps nothing)
  | Err _ => False
  end.
Proof.
  pose proof (creation_is_whole same 7 key_lib (Some master) true false None hash (draws "app") (web "crm" None) (store nothing) creation.1 creation.2
    nothing_inv (surjective_pairing _)) as H.
  assert (match creation.2 with Ok _ => True | Err _ => False end) as Hok by (vm_compute; exact I).
  destruct creation.2 as [res|e]; [|exact Hok]. destruct H as (H1 & H2 & _). exact (conj H1 H2).
Defined.

(** ** What the code does beside them *)

Abbreviation create_at t := (CreateApp_handler (G:=Z) (T:=OWorld) same (Some t) key_lib (Some master) true false None hash t).
Abbreviation list_at t := (ListApps_handler (G:=Z) (T:=OWorld) same same (Some t) t).
Definition page (search : string) : ListAppParams := mkListAppParams 1 20 search None None None None None.
Definition names_of {A} (r : res AErr (Answer (list AppResponse * A))) : list string :=
  match r with Ok (Answered _ (l, _)) => rp_Code <$> l | _ => [] end.
Definition ok_of {A} (r : res AErr (Answer A)) : Z := match r with Ok (Answered n _) | Ok (Failed n _) => n | Err _ => 0 end.
Definition num_of {A} (r : res AErr (Answer A)) : Z := match r with Ok (Failed _ n) => n | _ => 0 end.

(** A shared application: asked for by tenant 7 as by any other, seen by tenant 9, deleted by it. *)
Definition shared_made := create_at 7 (draws "app") (Some (web "crm" (Some ScopeShared))) (store nothing).
Definition shared_gone := DeleteApp_handler (Some 9) "1" (store (sdb shared_made.1)).
Lemma any_tenant_owns_shared_apps :
  ok_of shared_made.2 = 201 /\ names_of (list_at 9 (Some (page "")) (store (sdb shared_made.1))).2 = ["crm"%string]
  /\ ok_of shared_gone.2 = 200 /\ names_of (list_at 7 (Some (page "")) (store (sdb shared_gone.1))).2 = [].
Proof. vm_compute. done. Qed.

(** Tenant 7 puts a shared application into its group; tenant 9 deletes it, and the membership is gone. *)
Definition shared_in_group : W :=
  sdb (run 7 (AAddMember 3 1) (store (sdb (run 7 (ACreateGroup (mkAppGroupRequest "Office" "office" None None)) (store (sdb shared_made.1))).1))).1.
Lemma shared_deletion_empties_groups :
  group_in_scope (Some 9) <$> groups shared_in_group !! 3 = Some false /\ is_Some (rels shared_in_group !! (1, 3))
  /\ rels (sdb (run 9 (ADelete 1) (store shared_in_group)).1) !! (1, 3) = None.
Proof. split_and!; [vm_compute; reflexivity | eexists; vm_compute; reflexivity | vm_compute; reflexivity]. Qed.

(** A revocation that fails after the rotation: the old secret is dead, and the new one is in no answer. *)
Definition failing_revoker (c : string) (o : OWorld) : OWorld * (Z * bool) := (o, (0, true)).
Definition half_done := EmergencyRevoke_handler (G:=Z) (Some 7) (Some failing_revoker) hash (draws "new") "1" (store w1).
Lemma failed_revocation_loses_the_secret :
  half_done.2 = Ok (Failed 500 50001) /\ accepts_secret check plain_config (sdb half_done.1) "client_app" "secret-new"
  /\ ~ accepts_secret check plain_config (sdb half_done.1) "client_app" "secret-app".
Proof. split; [vm_compute; reflexivity|]. split; [vm_compute; reflexivity|]. unfold accepts_secret. vm_compute. discriminate. Qed.

(** The certificate (statement 2) and the compensation (3) fail: an application without a key holds the code. *)
Definition orphaned := create 7 (draws "app") 7 (web "crm" None) (failing [2; 3]%nat nothing).
Lemma failed_rollback_leaves_keyless_app :
  orphaned.2 = Err ErrDB /\ is_Some (apps (sdb orphaned.1) !! 1)
  /\ (LoadSigningKey key_lib (Some master) 1 (store (sdb orphaned.1))).2 = Err ErrKeyNotFound
  /\ (create 7 (draws "two") 7 (web "crm" None) (store (sdb orphaned.1))).2 = Err ErrAppCodeExists.
Proof. split; [vm_compute; reflexivity|]. split; [eexists; vm_compute; reflexivity|]. split; vm_compute; reflexivity. Qed.

(** The demotion (statement 2) and the removal of the new key (3) fail: two keys are active. *)
Definition half_rotated := RotateSigningKey (G:=Z) (T:=OWorld) (Some 7) key_lib (Some master) true (draws "next") 1 (failing [2; 3]%nat w1).
Lemma failed_rotation_leaves_two_active :
  half_rotated.2 = Err ErrDB /\ length (filter (fun c => active_signing c = true) (certs_of 1 (sdb half_rotated.1))) = 2%nat.
Proof. split; vm_compute; reflexivity. Qed.

(** A strategy that a creation refuses is taken by an edit; what a creation refuses is an internal error. *)
Definition set_pairwise : UpdateAppRequest :=
  mkUpdateApp None (Some SubjectStrategyPairwise) None None None None None None None None None None None.
Definition saml_world : W := sdb (create 7 (draws "app") 7 (saml_app "hr" None) (store nothing)).1.
Definition pairwise_asked : CreateAppRequest :=
  mkCreateApp "App" "hr" ProtocolSAML "" None (Some SubjectStrategyPairwise) None None None None None None None None None None None.
Lemma edit_skips_the_pairwise_check :
  (create_at 7 (draws "app") (Some pairwise_asked) (store nothing)).2 = Ok (Failed 500 50001)
  /\ ok_of (UpdateApp_handler same (Some 7) "1" (Some set_pairwise) (store saml_world)).2 = 200
  /\ ap_SubjectStrategy <$> apps (sdb (UpdateApp_handler same (Some 7) "1" (Some set_pairwise) (store saml_world)).1) !! 1 = Some SubjectStrategyPairwise.
Proof. split_and!; vm_compute; reflexivity. Qed.

(** The code of a shared application is not looked for: its second use is an internal error, no conflict. *)
Lemma shared_code_taken_is_internal :
  ok_of (create_at 9 (draws "two") (Some (web "crm" (Some ScopeShared))) (store (sdb shared_made.1))).2 = 500.
Proof. vm_compute. reflexivity. Qed.

(** A shared application cannot be found by its code, which is how SAML and CAS requests name it. *)
Lemma shared_app_has_no_address :
  let w := sdb (create_at 1 (draws "app") (Some (saml_app "hr" (Some ScopeShared))) (store nothing)).1 in
  (GetAppByID 1 (store w)).2 <> Err ErrRecordNotFound /\ (GetApp "hr" (store w)).2 = Err ErrRecordNotFound.
Proof. vm_compute. split; [discriminate | reflexivity]. Qed.

(** The search text is a pattern: an underscore finds what it does not contain. *)
Lemma search_text_is_a_pattern : names_of (list_at 7 (Some (page "c_m")) (store w1)).2 = ["crm"%string].
Proof. vm_compute. reflexivity. Qed.

(** Two patches, the second of which starts before the first has written: the key of the first is gone. *)
Definition limit : Apps.Doc := {["rate_limit_per_min"%string := JInt 5]}.
Definition logout : Apps.Doc := {["backchannel_logout_uri"%string := JText "https://app/logout"]}.
Definition read_early : Apps.Doc := match (GetProtocolConfig (Some 7) 1 (store w1)).2 with Ok d => d | Err _ => ∅ end.
Definition first_patch : W := sdb (PatchProtocolConfig (Some 7) 1 logout (store w1)).1.
Definition second_patch : W := sdb (repo_UpdateProtocolConfig (Some 7) 1 (merge_config read_early limit) (store first_patch)).1.
Lemma overlapping_patches_lose_keys :
  is_Some ((ap_ProtocolConfig <$> apps first_patch !! 1) ≫= fun d => d !! "backchannel_logout_uri"%string)
  /\ ap_ProtocolConfig <$> apps second_patch !! 1 = Some limit.
Proof. split; [eexists; vm_compute; reflexivity | vm_compute; reflexivity]. Qed.

(** An exchange that was authenticated before the emergency and stores its tokens after it. *)
Definition late : OWorld := (CreateAccessAndRefreshTokens DefaultConfig (Some "r9"%string) (Some "a9"%string) (Some "f9"%string)
  (TRAuth OidcDemo.login) "" (atokens (sdb emergency.1))).1.
Lemma exchange_in_flight_outlives_the_emergency :
  accepts_secret check plain_config w1 "client_app" "secret-app" /\ (exists k, live_token (rds late) "42" "client_app" k).
Proof.
  split; [vm_compute; reflexivity|]. exists (kRefresh "r9").
  refine (live_refresh _ _ _ "r9" (mkRefreshToken "r9" "r9" 950 ["pwd"]%string ["client_app"]%string "42" "client_app" ["openid"; "profile"]%string
    "a9" "sid" "f9" (1000 + RefreshTokenLifetime DefaultConfig)) _ _ _ _); [vm_compute; reflexivity | reflexivity | reflexivity].
Qed.
End AppDemo.
