(* ===== verification/SamlRedirect.v ===== *)
(** * SamlRedirect: SAML messages in query strings

    src/internal/protocol/saml: slo.go (the HTTP-Redirect binding and its signatures), xml_decode.go,
    pemCertBytes of assertion.go, and extractRequestID and extractRequestIssuer of handler.go.
    What they use of net/url and gin's [c.Query] comes first; RSA, X.509, PEM, base64, DEFLATE and
    the XML of a message are the fields of [SamlLib]. *)

From Stdlib Require Import Ascii.
From S2P Require Import Prelude Text.

#[global] Open Scope Z_scope.

(** ** Query strings: Go's net/url and strings, at one byte *)

Fixpoint SplitByte (sep : ascii) (s : string) : list string :=
  match s with
  | EmptyString => [""%string]
  | String c s' =>
      if decide (c = sep) then ""%string :: SplitByte sep s'
      else match SplitByte sep s' with
           | p :: rest => String c p :: rest
           | [] => [String c ""]
           end
  end.

(** What stands before and after the first [sep]; [None]: there is none. *)
Fixpoint CutByte (sep : ascii) (s : string) : option (string * string) :=
  match s with
  | EmptyString => None
  | String c s' =>
      if decide (c = sep) then Some (""%string, s')
      else match CutByte sep s' with Some (a, b) => Some (String c a, b) | None => None end
  end.

Definition no_byte (c : ascii) (s : string) : bool := all_chars (fun d => negb (bool_decide (d = c))) s.

(** ** Escaping of a query component *)

Definition hexdigit (n : N) : ascii := ascii_of_N (if (n <? 10)%N then n + 48 else n + 55).
Definition unhex (c : ascii) : option N :=
  let n := N_of_ascii c in
  if ((48 <=? n) && (n <=? 57))%N then Some (n - 48)%N
  else if ((97 <=? n) && (n <=? 102))%N then Some (n - 87)%N
  else if ((65 <=? n) && (n <=? 70))%N then Some (n - 55)%N
  else None.

(** [shouldEscape] is false. *)
Definition unreserved (c : ascii) : bool :=
  let n := N_of_ascii c in
  ((97 <=? n) && (n <=? 122))%N || ((65 <=? n) && (n <=? 90))%N || ((48 <=? n) && (n <=? 57))%N
  || bool_decide (c ∈ ["-"; "_"; "."; "~"]%char).

Definition escape_byte (c : ascii) (rest : string) : string :=
  if decide (c = " "%char) then String "+" rest
  else if unreserved c then String c rest
  else String "%" (String (hexdigit (N_of_ascii c / 16)) (String (hexdigit (N_of_ascii c mod 16)) rest)).
Fixpoint QueryEscape (s : string) : string :=
  match s with EmptyString => EmptyString | String c s' => escape_byte c (QueryEscape s') end.

Fixpoint QueryUnescape (s : string) : option string :=
  match s with
  | EmptyString => Some EmptyString
  | String "%" (String a (String b s')) =>
      match unhex a, unhex b with
      | Some x, Some y => String (ascii_of_N (x * 16 + y)) <$> QueryUnescape s'
      | _, _ => None
      end
  | String "%" _ => None
  | String "+" s' => String " " <$> QueryUnescape s'
  | String c s' => String c <$> QueryUnescape s'
  end.

(** ** url.ParseQuery, errors dropped: a pair that does not read is left out *)

Definition query_pair (piece : string) : option (string * string) :=
  if negb (no_byte ";" piece) then None
  else if bool_decide (piece = ""%string) then None
  else
    let '(k, v) := default (piece, ""%string) (CutByte "=" piece) in
    match QueryUnescape k, QueryUnescape v with Some k', Some v' => Some (k', v') | _, _ => None end.
Definition ParseQuery (raw : string) : list (string * string) := omap query_pair (SplitByte "&" raw).

(** [c.Query(key)]: the first value, or empty. *)
Fixpoint first_value (key : string) (l : list (string * string)) : string :=
  match l with
  | [] => ""%string
  | (k, v) :: l' => if decide (k = key) then v else first_value key l'
  end.
Definition Query (raw key : string) : string := first_value key (ParseQuery raw).

(** ** Lemmas *)

Lemma split_no_byte sep s : no_byte sep s = true -> SplitByte sep s = [s].
Proof.
  induction s as [|c s IH]; [done|]. unfold no_byte. simpl. intros [Hc Hs]%andb_true_iff. to_prop.
  rewrite decide_False by done. by rewrite IH.
Qed.

Lemma split_app sep a b : no_byte sep a = true -> SplitByte sep (a +:+ String sep b) = a :: SplitByte sep b.
Proof.
  induction a as [|c a IH]; simpl.
  - by rewrite decide_True.
  - unfold no_byte. simpl. intros [Hc Ha]%andb_true_iff. to_prop. rewrite decide_False by done.
    change (a +:+ String sep b)%string with (a +:+ String sep b). by rewrite IH.
Qed.

Lemma cut_app sep a b : no_byte sep a = true -> CutByte sep (a +:+ String sep b) = Some (a, b).
Proof.
  induction a as [|c a IH]; simpl; [by rewrite decide_True|].
  unfold no_byte. simpl. intros [Hc Ha]%andb_true_iff. to_prop. rewrite decide_False by done. by rewrite IH.
Qed.

Lemma nibble (P : N -> Prop) : Forall P [0;1;2;3;4;5;6;7;8;9;10;11;12;13;14;15]%N -> forall n, (n < 16)%N -> P n.
Proof. intros H n Hn. rewrite Forall_forall in H. apply H. rewrite !elem_of_cons. lia. Qed.
Lemma unhex_hexdigit n : (n < 16)%N -> unhex (hexdigit n) = Some n.
Proof. revert n. apply nibble. repeat constructor. Qed.

Lemma unescape_plain c s : c <> "%"%char -> c <> "+"%char -> QueryUnescape (String c s) = String c <$> QueryUnescape s.
Proof. intros H1 H2. destruct c as [[][][][][][][][]]; (reflexivity || by exfalso; (apply H1 || apply H2)). Qed.

Lemma nibbles c : (N_of_ascii c / 16 < 16)%N /\ (N_of_ascii c mod 16 < 16)%N.
Proof.
  pose proof (N_ascii_bounded c). split; [|by apply N.mod_lt].
  apply N.Div0.div_lt_upper_bound. lia.
Qed.

Lemma unescape_escape s : QueryUnescape (QueryEscape s) = Some s.
Proof.
  induction s as [|c s IH]; [done|]. cbn [QueryEscape]. unfold escape_byte.
  destruct (decide (c = " "%char)) as [->|]; [cbn; by rewrite IH|].
  destruct (unreserved c) eqn:Hu.
  - rewrite unescape_plain, IH; [done| |]; intros ->; discriminate Hu.
  - cbn [QueryUnescape]. destruct (nibbles c). rewrite !unhex_hexdigit, IH by done. cbn.
    by rewrite (N.mul_comm _ 16), <- N.div_mod, ascii_N_embedding.
Qed.

(** The bytes of an escaped component, none of which has a meaning in a query. *)
Definition component_byte (c : ascii) : bool := unreserved c || bool_decide (c ∈ ["+"; "%"]%char).
Lemma hexdigit_byte n : (n < 16)%N -> component_byte (hexdigit n) = true.
Proof. revert n. apply nibble. repeat constructor. Qed.
Lemma escape_bytes s : all_chars component_byte (QueryEscape s) = true.
Proof.
  induction s as [|c s IH]; [done|]. cbn [QueryEscape]. unfold escape_byte.
  destruct (decide (c = " "%char)); [done|]. destruct (unreserved c) eqn:Hu; cbn [all_chars].
  - unfold component_byte at 1. by rewrite Hu, IH.
  - destruct (nibbles c). by rewrite !hexdigit_byte, IH.
Qed.

Lemma all_chars_weaken (P Q : ascii -> bool) s : (forall c, P c = true -> Q c = true) -> all_chars P s = true -> all_chars Q s = true.
Proof.
  intros H. induction s as [|c s IH]; [done|]. cbn. intros [Hc Hs]%andb_true_iff. by rewrite (H _ Hc), IH.
Qed.
Lemma component_no_byte sep s : component_byte sep = false -> all_chars component_byte s = true -> no_byte sep s = true.
Proof.
  intros Hs. apply all_chars_weaken. intros c Hc. apply negb_true_iff, bool_decide_eq_false. intros ->. congruence.
Qed.
Lemma escape_no_byte sep s : component_byte sep = false -> no_byte sep (QueryEscape s) = true.
Proof. intros H. apply component_no_byte; [done | apply escape_bytes]. Qed.

(** A pair of two components that read. *)
Lemma query_pair_pair k v k' v' :
  all_chars component_byte k = true -> all_chars component_byte v = true -> QueryUnescape k = Some k' -> QueryUnescape v = Some v' ->
  query_pair (k +:+ String "=" v) = Some (k', v').
Proof.
  intros Hk Hv Ek Ev. unfold query_pair.
  assert (no_byte ";" (k +:+ String "=" v) = true) as ->.
  { unfold no_byte. rewrite all_chars_app. cbn. apply andb_true_iff. split; apply component_no_byte; done. }
  rewrite bool_decide_eq_false_2 by (by destruct k). cbn [negb].
  rewrite cut_app by (by apply component_no_byte). cbn. by rewrite Ek, Ev.
Qed.

(** ** Messages *)

(** Base64 with its two alphabets, padded or not. *)
Inductive Base64 : Type := StdEncoding | RawStdEncoding | URLEncoding | RawURLEncoding.

(** crewjam's messages, the fields that are set. *)
Record LogoutResponse : Type := mkLogoutResponse {
  lr_ID : string; lr_InResponseTo : string; lr_IssueInstant : Z; lr_Destination : string; lr_Issuer : string; lr_StatusCode : string
}.
Record LogoutRequest : Type := mkLogoutRequest {
  lq_ID : string; lq_IssueInstant : Z; lq_Destination : string; lq_Issuer : string; lq_NameIDFormat : string; lq_NameID : string;
  lq_SessionIndex : string
}.

(** Errors are left out where the code looks only at whether there is one. *)
Record SamlLib (Pub Priv : Type) : Type := mkSamlLib {
  b64decode : Base64 -> string -> option string;
  b64encode : string -> string;
  (** all that a flate reader gives, unless it fails *)
  inflate : string -> option string;
  deflate : string -> string;
  pem_block : string -> option string;
  (** the certificate's key, if it is an RSA key *)
  x509_key : string -> option (option Pub);
  rsa_verify : Pub -> string -> string -> bool;
  rsa_sign : Priv -> string -> option string;
  (** the ID attribute and the Issuer element of a document, empty when it has none *)
  xml_ID : string -> option string;
  xml_Issuer : string -> option string;
  xml_response : LogoutResponse -> option string;
  xml_request : LogoutRequest -> option string
}.
Arguments b64decode {Pub Priv}. Arguments b64encode {Pub Priv}. Arguments inflate {Pub Priv}. Arguments deflate {Pub Priv}.
Arguments pem_block {Pub Priv}. Arguments x509_key {Pub Priv}. Arguments rsa_verify {Pub Priv}. Arguments rsa_sign {Pub Priv}.
Arguments xml_ID {Pub Priv}. Arguments xml_Issuer {Pub Priv}. Arguments xml_response {Pub Priv}. Arguments xml_request {Pub Priv}.

Definition rsaSHA256SigAlg : string := "http://www.w3.org/2001/04/xmldsig-more#rsa-sha256".
Definition NameIDEmail : string := "urn:oasis:names:tc:SAML:1.1:nameid-format:emailAddress".
Definition StatusSuccess : string := "urn:oasis:names:tc:SAML:2.0:status:Success".

(** ** xml_decode.go *)

(** Of the letters of the word only the ASCII ones have it as their lower case. *)
Definition lower_byte (c : ascii) : ascii :=
  let n := N_of_ascii c in if ((65 <=? n) && (n <=? 90))%N then ascii_of_N (n + 32) else c.
Fixpoint lower_bytes (s : string) : string :=
  match s with EmptyString => EmptyString | String c s' => String (lower_byte c) (lower_bytes s') end.
Definition containsDoctype (payload : string) : bool :=
  Contains (lower_bytes (String.substring 0 (Z.to_nat (64 * 1024)) payload)) "<!doctype".
Definition safeXMLDecode {A} (decode : string -> option A) (payload : string) : option A :=
  if containsDoctype payload then None else decode payload.

(** ** The redirect binding *)

(** The loop over the pairs: [value] is set once [found]. *)
Fixpoint scan_raw (key : string) (pairs : list string) (value : option string) : option string :=
  match pairs with
  | [] => value
  | piece :: rest =>
      match CutByte "=" piece with
      | None => scan_raw key rest value
      | Some (rawName, after) =>
          match QueryUnescape rawName with
          | Some name =>
              if decide (name = key)
              then match value with Some _ => None | None => scan_raw key rest (Some after) end
              else scan_raw key rest value
          | None => scan_raw key rest value
          end
      end
  end.
Definition parseRawRedirectParam (rawQuery key : string) : option string := scan_raw key (SplitByte "&" rawQuery) None.

Inductive SigErr : Type :=
| MissingSignature | BadSignatureEscape | BadSignatureBase64 | MissingSigAlg | BadSigAlgEscape | UnsupportedSigAlg
| MissingSAMLRequest | BadCertificate | BadSignature.

Section Redirect.
Context {Pub Priv : Type} (lib : SamlLib Pub Priv).

Definition pem_space (c : ascii) : bool := bool_decide (c ∈ ["010"; "013"; "009"; " "]%char).
Fixpoint strip_bytes (P : ascii -> bool) (s : string) : string :=
  match s with EmptyString => EmptyString | String c s' => if P c then strip_bytes P s' else String c (strip_bytes P s') end.
Definition pemCertBytes (certPEM : string) : option string :=
  match pem_block lib certPEM with
  | Some der => Some der
  | None => b64decode lib StdEncoding (strip_bytes pem_space certPEM)
  end.
Definition rsaPublicKeyFromCertPEM (certPEM : string) : option Pub :=
  der ← pemCertBytes certPEM; key ← x509_key lib der; key.

(** [SAMLRequest, RelayState (if sent), SigAlg], as they were sent. *)
Definition signed_octets (reqRaw : string) (rsRaw : option string) (sigAlgRaw : string) : string :=
  ("SAMLRequest=" +:+ reqRaw) +:+ (match rsRaw with Some rs => "&RelayState=" +:+ rs | None => "" end) +:+ "&SigAlg=" +:+ sigAlgRaw.
Definition verifyRedirectSignature (rawQuery certPEM : string) : option SigErr :=
  match parseRawRedirectParam rawQuery "Signature" with None => Some MissingSignature | Some sigRaw =>
  match QueryUnescape sigRaw with None => Some BadSignatureEscape | Some sigB64 =>
  match b64decode lib StdEncoding sigB64 with None => Some BadSignatureBase64 | Some sig =>
  match parseRawRedirectParam rawQuery "SigAlg" with None => Some MissingSigAlg | Some sigAlgRaw =>
  match QueryUnescape sigAlgRaw with None => Some BadSigAlgEscape | Some sigAlg =>
  if bool_decide (sigAlg <> rsaSHA256SigAlg) then Some UnsupportedSigAlg else
  match parseRawRedirectParam rawQuery "SAMLRequest" with None => Some MissingSAMLRequest | Some reqRaw =>
  let signed := signed_octets reqRaw (parseRawRedirectParam rawQuery "RelayState") sigAlgRaw in
  match rsaPublicKeyFromCertPEM certPEM with None => Some BadCertificate | Some pub =>
  if rsa_verify lib pub signed sig then None else Some BadSignature
  end end end end end end end.

Definition deflateBase64 (xmlBytes : string) : string := b64encode lib (deflate lib xmlBytes).
Definition signRedirectQuery (paramName xmlBytes relayState : string) (key : Priv) : option string :=
  let q := paramName +:+ "=" +:+ QueryEscape (deflateBase64 xmlBytes) in
  let q := if bool_decide (relayState = ""%string) then q else q +:+ "&RelayState=" +:+ QueryEscape relayState in
  let q := q +:+ "&SigAlg=" +:+ QueryEscape rsaSHA256SigAlg in
  sig ← rsa_sign lib key q;
  Some (q +:+ "&Signature=" +:+ QueryEscape (b64encode lib sig)).

Definition with_query (destination q : string) : string :=
  destination +:+ (if Contains destination "?" then "&" else "?") +:+ q.
(** [rnd]: the random part of the id. *)
Definition buildLogoutResponseRedirect (rnd : string) (now : Z) (destination issuer inResponseTo relayState : string) (key : Priv) : option string :=
  xml ← xml_response lib (mkLogoutResponse ("id-" +:+ rnd) inResponseTo now destination issuer StatusSuccess);
  q ← signRedirectQuery "SAMLResponse" xml relayState key;
  Some (with_query destination q).
Definition buildLogoutRequestRedirect (rnd : string) (now : Z) (destination issuer nameID nameIDFormat sessionIndex : string) (key : Priv)
    : option string :=
  let nameIDFormat := if bool_decide (nameIDFormat = ""%string) then NameIDEmail else nameIDFormat in
  xml ← xml_request lib (mkLogoutRequest ("id-" +:+ rnd) now destination issuer nameIDFormat nameID sessionIndex);
  q ← signRedirectQuery "SAMLRequest" xml "" key;
  Some (with_query destination q).

(** ** Reading a request *)

Definition decode_base64 (encoded : string) : option string :=
  match b64decode lib StdEncoding encoded with Some d => Some d | None =>
  match b64decode lib RawStdEncoding encoded with Some d => Some d | None =>
  match b64decode lib URLEncoding encoded with Some d => Some d | None => b64decode lib RawURLEncoding encoded
  end end end.
Definition inflated (decoded : string) : string :=
  match inflate lib decoded with Some x => if bool_decide (x = ""%string) then decoded else x | None => decoded end.
Definition request_document (encoded : string) : option string := inflated <$> decode_base64 encoded.
Definition extractRequestID (encoded : string) : option string :=
  xml ← request_document encoded; id ← safeXMLDecode (xml_ID lib) xml;
  if bool_decide (id = ""%string) then None else Some id.
Definition extractRequestIssuer (encoded : string) : option string :=
  xml ← request_document encoded; TrimSpace <$> safeXMLDecode (xml_Issuer lib) xml.
End Redirect.

(** ** What is read, and what is signed *)

(** The raw values a query gives a parameter, with a [=]. *)
Definition raw_values (key : string) (pieces : list string) : list string :=
  omap (fun piece => '(k, after) ← CutByte "=" piece; name ← QueryUnescape k; if decide (name = key) then Some after else None) pieces.

Lemma scan_raw_spec key pieces value :
  scan_raw key pieces value =
  match value, raw_values key pieces with
  | None, [v] => Some v
  | Some v, [] => Some v
  | _, _ => None
  end.
Proof.
  revert value. induction pieces as [|p pieces IH]; intros value; [by destruct value|]. unfold raw_values. cbn.
  destruct (CutByte "=" p) as [[k after]|]; cbn; [|apply IH]. destruct (QueryUnescape k) as [name|]; cbn; [|apply IH].
  destruct (decide (name = key)); cbn; [|apply IH]. destruct value; [done|]. rewrite IH. fold (raw_values key pieces).
  by destruct (raw_values key pieces).
Qed.
Lemma parseRaw_Some q key v : parseRawRedirectParam q key = Some v <-> raw_values key (SplitByte "&" q) = [v].
Proof.
  unfold parseRawRedirectParam. rewrite scan_raw_spec. destruct (raw_values _ _) as [|x [|]]; naive_solver.
Qed.
Lemma parseRaw_None q key :
  parseRawRedirectParam q key = None <-> raw_values key (SplitByte "&" q) = [] \/ (2 <= length (raw_values key (SplitByte "&" q)))%nat.
Proof.
  unfold parseRawRedirectParam. rewrite scan_raw_spec. destruct (raw_values _ _) as [|x [|]]; cbn; split; intros H; naive_solver lia.
Qed.

(** What [c.Query] reads, when it reads something, is one of the raw values. *)
Lemma first_value_raw key pieces :
  first_value key (omap query_pair pieces) <> ""%string ->
  exists raw, raw ∈ raw_values key pieces /\ QueryUnescape raw = Some (first_value key (omap query_pair pieces)).
Proof.
  induction pieces as [|p pieces IH]; [done|]. unfold raw_values. cbn -[query_pair].
  destruct (query_pair p) as [[k v]|] eqn:Hp; cbn -[query_pair].
  - destruct (decide (k = key)) as [->|Hne]; cbn -[query_pair].
    + intros Hv. unfold query_pair in Hp. destruct (no_byte ";" p); [|done]. cbn [negb] in Hp.
      destruct (bool_decide _); [done|]. destruct (CutByte "=" p) as [[k' after]|]; cbn in Hp.
      * destruct (QueryUnescape k') as [n|] eqn:Hk; [|done]. destruct (QueryUnescape after) as [w|] eqn:Ha; [|done].
        injection Hp as -> ->. exists after. split; [|done]. cbn. rewrite Hk. cbn. rewrite decide_True by done. by left.
      * destruct (QueryUnescape p); [|done]. by injection Hp as _ <-.
    + intros Hv. destruct (IH Hv) as (raw & Hin & Hr). exists raw. split; [|done].
      destruct (_ ≫= _); [by right | done].
  - intros Hv. destruct (IH Hv) as (raw & Hin & Hr). exists raw. split; [|done].
    destruct (_ ≫= _); [by right | done].
Qed.
Lemma Query_raw q key : Query q key <> ""%string ->
  exists raw, raw ∈ raw_values key (SplitByte "&" q) /\ QueryUnescape raw = Some (Query q key).
Proof. apply first_value_raw. Qed.
Lemma Query_one q key raw : raw_values key (SplitByte "&" q) = [raw] -> Query q key = ""%string \/ QueryUnescape raw = Some (Query q key).
Proof.
  intros Hr. destruct (decide (Query q key = ""%string)) as [|Hq]; [by left|]. right.
  destruct (Query_raw _ _ Hq) as (raw' & Hin & Hu). rewrite Hr in Hin. by apply list_elem_of_singleton in Hin as ->.
Qed.
Lemma Query_none q key : raw_values key (SplitByte "&" q) = [] -> Query q key = ""%string.
Proof.
  intros Hr. destruct (decide (Query q key = ""%string)) as [|Hq]; [done|].
  destruct (Query_raw _ _ Hq) as (raw & Hin & _). rewrite Hr in Hin. by apply elem_of_nil in Hin.
Qed.

Section Signatures.
Context {Pub Priv : Type} (lib : SamlLib Pub Priv).

(** What a verified signature covers. *)
Lemma verified_inv q cert : verifyRedirectSignature lib q cert = None ->
  exists pub sigRaw sig reqRaw algRaw,
    rsaPublicKeyFromCertPEM lib cert = Some pub
    /\ parseRawRedirectParam q "Signature" = Some sigRaw
    /\ (QueryUnescape sigRaw ≫= b64decode lib StdEncoding) = Some sig
    /\ parseRawRedirectParam q "SAMLRequest" = Some reqRaw
    /\ parseRawRedirectParam q "SigAlg" = Some algRaw /\ QueryUnescape algRaw = Some rsaSHA256SigAlg
    /\ rsa_verify lib pub (signed_octets reqRaw (parseRawRedirectParam q "RelayState") algRaw) sig = true.
Proof.
  unfold verifyRedirectSignature.
  destruct (parseRawRedirectParam q "Signature") as [sigRaw|] eqn:E1; [|done].
  destruct (QueryUnescape sigRaw) as [sigB64|] eqn:E2; [|done].
  destruct (b64decode lib StdEncoding sigB64) as [sig|] eqn:E3; [|done].
  destruct (parseRawRedirectParam q "SigAlg") as [algRaw|] eqn:E4; [|done].
  destruct (QueryUnescape algRaw) as [alg|] eqn:E5; [|done].
  case_bool_decide as E6; [done|]. subst alg.
  destruct (parseRawRedirectParam q "SAMLRequest") as [reqRaw|] eqn:E7; [|done].
  destruct (rsaPublicKeyFromCertPEM lib cert) as [pub|] eqn:E8; [|done].
  destruct (rsa_verify _ _ _ _) eqn:E9; [|done]. intros _.
  exists pub, sigRaw, sig, reqRaw, algRaw. rewrite E2. split_and!; try done.
Qed.

(** C17: a signature that verifies covers the request the handlers read: the parameter they decode
    is the one parameter of its name, whose bytes were signed; and it covers the RelayState they
    read, except when there are several of them, when none is covered. *)
Theorem signed_message_is_the_one_read q cert :
  verifyRedirectSignature lib q cert = None -> Query q "SAMLRequest" <> ""%string ->
  exists pub sig reqRaw rsRaw algRaw,
    rsaPublicKeyFromCertPEM lib cert = Some pub
    /\ rsa_verify lib pub (signed_octets reqRaw rsRaw algRaw) sig = true
    /\ QueryUnescape reqRaw = Some (Query q "SAMLRequest") /\ QueryUnescape algRaw = Some rsaSHA256SigAlg
    /\ match rsRaw with
       | Some rs => Query q "RelayState" = ""%string \/ QueryUnescape rs = Some (Query q "RelayState")
       | None => Query q "RelayState" = ""%string \/ (2 <= length (raw_values "RelayState" (SplitByte "&" q)))%nat
       end.
Proof.
  intros Hv Hq. destruct (verified_inv _ _ Hv) as (pub & sigRaw & sig & reqRaw & algRaw & Hpub & _ & _ & Hreq & Halg & Hu & Hrsa).
  exists pub, sig, reqRaw, (parseRawRedirectParam q "RelayState"), algRaw. split_and!; try done.
  - apply parseRaw_Some in Hreq. by destruct (Query_one _ _ _ Hreq).
  - destruct (parseRawRedirectParam q "RelayState") as [rs|] eqn:Hrs.
    + apply Query_one. by apply parseRaw_Some.
    + apply parseRaw_None in Hrs as [Hrs|Hrs]; [left; by apply Query_none | by right].
Qed.

(** *** The queries the program writes itself *)

(** A key pair, and what base64 and DEFLATE promise. *)
Record SamlLaws (pub : Pub) (key : Priv) : Prop := mkSamlLaws {
  law_rsa : forall m sig, rsa_sign lib key m = Some sig -> rsa_verify lib pub m sig = true;
  law_base64 : forall s, b64decode lib StdEncoding (b64encode lib s) = Some s;
  law_flate : forall s, inflate lib (deflate lib s) = Some s
}.

(** A query of pairs whose halves are escaped. *)
Definition render (l : list (string * string)) : string :=
  String.concat "&" ((fun '(k, v) => k +:+ String "=" v) <$> l).
Definition component (kv : string * string) : Prop := all_chars component_byte kv.1 = true /\ all_chars component_byte kv.2 = true.

Lemma split_render l : l <> [] -> Forall component l -> SplitByte "&" (render l) = (fun '(k, v) => k +:+ String "=" v) <$> l.
Proof.
  intros Hl H. induction H as [|[k v] l [Hk Hv] Hf IH]; [done|].
  assert (no_byte "&" (k +:+ String "=" v) = true) as Hno.
  { unfold no_byte. rewrite all_chars_app. cbn. apply andb_true_iff. split; by apply component_no_byte. }
  destruct l as [|kv l]; [by apply split_no_byte|].
  change (render ((k, v) :: kv :: l)) with ((k +:+ String "=" v) +:+ String "&" (render (kv :: l))).
  rewrite split_app by done. by rewrite IH.
Qed.
Lemma raw_values_render key l : Forall component l ->
  raw_values key ((fun '(k, v) => k +:+ String "=" v) <$> l)
  = omap (fun '(k, v) => name ← QueryUnescape k; if decide (name = key) then Some v else None) l.
Proof.
  intros H. induction H as [|[k v] l [Hk Hv] Hf IH]; [done|]. unfold raw_values. cbn.
  rewrite cut_app by (by apply component_no_byte). cbn. fold (raw_values key ((fun '(k, v) => k +:+ String "=" v) <$> l)). by rewrite IH.
Qed.
Lemma parse_render l : l <> [] -> Forall component l ->
  ParseQuery (render l) = omap (fun '(k, v) => k' ← QueryUnescape k; v' ← QueryUnescape v; Some (k', v')) l.
Proof.
  intros Hl H. unfold ParseQuery. rewrite split_render by done. clear Hl. induction H as [|[k v] l [Hk Hv] Hf IH]; [done|]. cbn -[query_pair].
  cbn in Hk, Hv. rewrite IH. destruct (QueryUnescape k) as [k'|] eqn:Ek; [destruct (QueryUnescape v) as [v'|] eqn:Ev|]; cbn -[query_pair].
  - by rewrite (query_pair_pair _ _ _ _ Hk Hv Ek Ev).
  - unfold query_pair. destruct (negb _); [done|]. destruct (bool_decide _); [done|]. rewrite cut_app by (by apply component_no_byte). cbn.
    by rewrite Ek, Ev.
  - unfold query_pair. destruct (negb _); [done|]. destruct (bool_decide _); [done|]. rewrite cut_app by (by apply component_no_byte). cbn.
    by rewrite Ek.
Qed.

(** The pairs of a signed query. *)
Definition signed_pairs (paramName xml relayState sig : string) : list (string * string) :=
  (paramName, QueryEscape (deflateBase64 lib xml))
  :: (if bool_decide (relayState = ""%string) then [] else [("RelayState"%string, QueryEscape relayState)])
  ++ [("SigAlg"%string, QueryEscape rsaSHA256SigAlg); ("Signature"%string, QueryEscape (b64encode lib sig))].

Lemma signed_pairs_component name xml rs sig : all_chars component_byte name = true -> Forall component (signed_pairs name xml rs sig).
Proof.
  intros Hn. unfold signed_pairs. case_bool_decide; repeat constructor; try done; apply escape_bytes.
Qed.
Lemma sign_inv name xml rs key q : signRedirectQuery lib name xml rs key = Some q ->
  exists sig, rsa_sign lib key (name +:+ "=" +:+ QueryEscape (deflateBase64 lib xml)
                +:+ (if bool_decide (rs = ""%string) then "" else "&RelayState=" +:+ QueryEscape rs)
                +:+ "&SigAlg=" +:+ QueryEscape rsaSHA256SigAlg) = Some sig
    /\ q = render (signed_pairs name xml rs sig).
Proof.
  unfold signRedirectQuery, signed_pairs. generalize (QueryEscape (deflateBase64 lib xml)) (QueryEscape rsaSHA256SigAlg) (QueryEscape rs).
  intros m a r. destruct (rsa_sign lib key _) as [sig|] eqn:Hs; [|done]. cbn [mbind option_bind].
  intros [= <-]. exists sig. revert Hs. generalize (QueryEscape (b64encode lib sig)). intros e <-. unfold render.
  case_bool_decide; cbn [fmap list_fmap app String.concat]; rewrite <- !app_assoc_s; cbn [String.append]; by rewrite <- ?app_assoc_s.
Qed.

Lemma split_signed name xml rs sig : all_chars component_byte name = true ->
  SplitByte "&" (render (signed_pairs name xml rs sig)) = (fun '(k, v) => k +:+ String "=" v) <$> signed_pairs name xml rs sig.
Proof. intros Hn. apply split_render; [done | by apply signed_pairs_component]. Qed.

(** The two names a message goes by. *)
Definition message_name (n : string) : Prop := n = "SAMLRequest"%string \/ n = "SAMLResponse"%string.
Lemma message_component n : message_name n -> all_chars component_byte n = true /\ QueryUnescape n = Some n.
Proof. by intros [->| ->]. Qed.

(** The raw value of each parameter of a signed query. *)
Lemma signed_raw name xml rs sig : message_name name ->
  let q := render (signed_pairs name xml rs sig) in
  parseRawRedirectParam q name = Some (QueryEscape (deflateBase64 lib xml))
  /\ parseRawRedirectParam q "RelayState" = (if bool_decide (rs = ""%string) then None else Some (QueryEscape rs))
  /\ parseRawRedirectParam q "SigAlg" = Some (QueryEscape rsaSHA256SigAlg)
  /\ parseRawRedirectParam q "Signature" = Some (QueryEscape (b64encode lib sig)).
Proof.
  intros Hn q. destruct (message_component _ Hn) as [Hc _]. unfold q, parseRawRedirectParam.
  rewrite !scan_raw_spec, split_signed, !raw_values_render by (done || by apply signed_pairs_component).
  unfold signed_pairs. generalize (QueryEscape (deflateBase64 lib xml)) (QueryEscape rsaSHA256SigAlg) (QueryEscape rs) (QueryEscape (b64encode lib sig)).
  intros. by destruct Hn as [->| ->]; case_bool_decide; split_and!.
Qed.
Lemma signed_query name xml rs sig : message_name name ->
  let q := render (signed_pairs name xml rs sig) in Query q name = deflateBase64 lib xml /\ Query q "RelayState" = rs.
Proof.
  intros Hn q. destruct (message_component _ Hn) as [Hc _]. unfold q, Query.
  rewrite parse_render by (done || by apply signed_pairs_component). unfold signed_pairs. cbn [omap list_omap].
  rewrite unescape_escape. case_bool_decide as Hr; cbn [app omap list_omap]; rewrite ?unescape_escape, ?Hr;
    by destruct Hn as [->| ->].
Qed.

(** C20: what the program signs for the redirect binding reads back: the message it was given and the
    RelayState, and its own check of a signature accepts the query. *)
Theorem signed_query_roundtrips pub key cert name xml rs q :
  SamlLaws pub key -> rsaPublicKeyFromCertPEM lib cert = Some pub -> message_name name -> xml <> ""%string ->
  signRedirectQuery lib name xml rs key = Some q ->
  request_document lib (Query q name) = Some xml /\ Query q "RelayState" = rs
  /\ (name = "SAMLRequest"%string -> verifyRedirectSignature lib q cert = None).
Proof.
  intros [Hrsa Hb64 Hflate] Hpub Hn Hx Hq. apply sign_inv in Hq as (sig & Hs & ->).
  destruct (signed_query name xml rs sig Hn) as [Hm Hr]. split_and!; [|done|].
  - rewrite Hm. unfold request_document, decode_base64, deflateBase64. rewrite Hb64. cbn. unfold inflated. rewrite Hflate.
    by rewrite bool_decide_eq_false_2.
  - intros ->. destruct (signed_raw "SAMLRequest" xml rs sig Hn) as (Hreq & Hrs & Halg & Hsig).
    unfold verifyRedirectSignature. rewrite Hsig, unescape_escape, Hb64, Halg, unescape_escape, bool_decide_eq_false_2 by (intros Hne; by apply Hne).
    rewrite Hreq, Hpub, Hrs. unfold signed_octets.
    rewrite (Hrsa _ sig); [done|]. rewrite <- Hs. f_equal. by case_bool_decide; rewrite <- ?app_assoc_s.
Qed.

(** *** Several RelayStates *)

Lemma split_append a b : SplitByte "&" (a +:+ String "&" b) = SplitByte "&" a ++ SplitByte "&" b.
Proof.
  induction a as [|c a IH]; simpl; [done|]. rewrite IH. destruct (decide (c = "&"%char)); [done|].
  assert (SplitByte "&" a <> []) as Hne. { destruct a as [|d a]; simpl; [done|]. destruct (decide _); [done|]. by destruct (SplitByte "&" a). }
  by destruct (SplitByte "&" a).
Qed.
Lemma first_value_app key l l' : (forall v, (key, v) ∉ l) -> first_value key (l ++ l') = first_value key l'.
Proof.
  induction l as [|[k v] l IH]; intros H; [done|]. cbn. destruct (decide (k = key)) as [->|].
  - exfalso. apply (H v). by left.
  - apply IH. intros w Hw. apply (H w). by right.
Qed.

Definition two_relay_states (q a b : string) : string :=
  q +:+ "&" +:+ render [("RelayState", QueryEscape a); ("RelayState", QueryEscape b)]%string.
(** A signed query that has none stays verified when two are added, and the first is what is read. *)
Lemma duplicate_relay_state_escapes q cert a b :
  verifyRedirectSignature lib q cert = None -> raw_values "RelayState" (SplitByte "&" q) = [] ->
  (forall v, ("RelayState"%string, v) ∉ ParseQuery q) ->
  verifyRedirectSignature lib (two_relay_states q a b) cert = None /\ Query (two_relay_states q a b) "RelayState" = a.
Proof.
  intros Hv Hraw Hno. set (l := [("RelayState", QueryEscape a); ("RelayState", QueryEscape b)]%string).
  assert (Forall component l) as Hl by (repeat constructor; try done; apply escape_bytes).
  assert (SplitByte "&" (two_relay_states q a b) = SplitByte "&" q ++ ((fun '(k, v) => k +:+ String "=" v) <$> l)) as Hs.
  { change (SplitByte "&" (q +:+ String "&" (render l)) = SplitByte "&" q ++ ((fun '(k, v) => k +:+ String "=" v) <$> l)).
    by rewrite split_append, split_render by done. }
  assert (forall key, raw_values key (SplitByte "&" (two_relay_states q a b)) = raw_values key (SplitByte "&" q)
            ++ (if decide ("RelayState"%string = key) then [QueryEscape a; QueryEscape b] else [])) as Hr.
  { intros key. rewrite Hs. unfold raw_values. rewrite omap_app. f_equal.
    change (raw_values key ((fun '(k, v) => k +:+ String "=" v) <$> l) = if decide ("RelayState"%string = key) then [QueryEscape a; QueryEscape b] else []).
    rewrite raw_values_render by done. unfold l. cbn. by destruct (decide _). }
  split.
  - unfold verifyRedirectSignature, parseRawRedirectParam in Hv |- *. rewrite !scan_raw_spec, !Hr. rewrite !scan_raw_spec in Hv. rewrite Hraw in *. cbn. rewrite !app_nil_r. exact Hv.
  - unfold Query, ParseQuery. rewrite Hs, omap_app, first_value_app by exact Hno.
    change (first_value "RelayState" (omap query_pair ((fun '(k, v) => k +:+ String "=" v) <$> l)) = a).
    rewrite <- (split_render l) by done. fold (ParseQuery (render l)). rewrite parse_render by done. unfold l. cbn. by rewrite unescape_escape.
Qed.
End Signatures.
