(* ===== verification/Saml.v ===== *)
(** * Saml: the SAML identity provider

    src/internal/protocol/saml: handler.go, confirm.go, crewjam_adapter.go, config.go and
    session_index.go; the sessions it reads are those of
    src/internal/protocol/resolver/session_resolver.go over Session.v. The crewjam library, which
    reads AuthnRequests and writes assertions, and the parsing of keys are the fields of
    [IdpLib]; the resolvers' answers during one request are those of [SamlEnv]. *)

From stdpp Require Import sorting.
From Stdlib Require Import Ascii.
From S2P Require Import SessionProps CasTickets Session.
From S2P Require CasHandler.
From S2P Require Import Redis Prelude Text SamlRedirect.
#[global] Open Scope Z_scope.

(** The tickets, confirmations and indexes, and the sessions: one Redis, whose keys have different
    prefixes. *)
Record SamlWorld : Type := mkSamlWorld { w_store : CRedis; w_sessions : SRedis }.
Abbreviation Op := (M SamlWorld RErr).

Definition in_store {A B} (m : CasTickets.Op A) (k : res CasErr A -> Op B) : Op B := fun w =>
  let '(r, x) := m (w_store w) in k x (mkSamlWorld r (w_sessions w)).
Definition in_sessions {A} (m : Session.Op A) : Op A := fun w =>
  let '(r, x) := m (w_sessions w) in (mkSamlWorld (w_store w) r, x).
Definition best_effort {A} (m : Op A) : Op unit := attempt m (fun _ => ret tt).
Definition clock : Op Z := gets (fun w => rclock (w_sessions w)).

(** ** session_index.go *)

Record SAMLSessionRef : Type := mkSAMLSessionRef {
  sf_SessionIndex : string; sf_NameID : string; sf_SPEntityID : string; sf_NameIDFormat : string
}.
Definition sloKey (userID appID : Z) : string := "mxid:saml:slo:" +:+ dec userID +:+ ":" +:+ dec appID.
Definition sloUserKey (userID : Z) : string := "mxid:saml:slo:user:" +:+ dec userID.

Section Index.
(** The JSON of a reference, and its decoding. *)
Context (ref_json : SAMLSessionRef -> string) (ref_unjson : string -> option SAMLSessionRef).
Definition index_Record (userID appID : Z) (ref : SAMLSessionRef) (ttl : Z) : CasTickets.Op unit :=
  let key := sloKey userID appID in
  let userKey := sloUserKey userID in
  checked (EXEC [ sadd_f key (ref_json ref); expire_f key ttl; sadd_f userKey (dec appID); expire_f userKey ttl ]).
(** The members are the decimal numbers that [index_Record] wrote. *)
Definition index_AppsForUser (userID : Z) : CasTickets.Op (list Z) :=
  call (SMEMBERS (sloUserKey userID)) (fun x =>
    match x with
    | Err RErrNil => ret []
    | Err e => throw (ErrStore e)
    | Ok members => ret (filter (fun id => id <> 0) (omap undec members))
    end).
Definition index_Get (userID appID : Z) : CasTickets.Op (list SAMLSessionRef) :=
  call (SMEMBERS (sloKey userID appID)) (fun x =>
    match x with Err e => throw (ErrStore e) | Ok members => ret (omap ref_unjson members) end).
Definition index_Delete (userID appID : Z) : CasTickets.Op unit :=
  checked (EXEC [ del_f (sloKey userID appID); srem_f (sloUserKey userID) (dec appID) ]).
End Index.

(** ** session_resolver.go *)

Definition DeleteSSOSession (sessionID : string) : Op unit := in_sessions (DEL (sessionKey NamespaceProtocol sessionID)).
(** An expired session of the portal is left where it is. *)
Fixpoint look_up (namespaces : list string) (sessionID : string) : Op (option Session) :=
  match namespaces with
  | [] => ret None
  | ns :: rest =>
      attempt (in_sessions (GET (sessionKey ns sessionID))) (fun x =>
        match x with
        | Err RErrNil => look_up rest sessionID
        | Err e => throw e
        | Ok sess =>
            let! now := clock in
            if ExpiresAt sess <? now then
              do! (if bool_decide (ns = NamespaceProtocol) then best_effort (DeleteSSOSession sessionID) else ret tt) in
              ret None
            else ret (Some sess)
        end)
  end.
(** time.Time{}, which the fields that an SSOSession lacks read as. *)
Definition zeroTime : Z := -62135596800 * Second.
Definition ssoSessionTTL : Z := 12 * Hour.
(** Nothing calls it: the protocols' sessions are those of the login. *)
Definition CreateSSOSession (newID : string) (userID tenantID : Z) (authType ip userAgent : string) : Op Session :=
  let! now := clock in
  let sess := mkSession newID userID tenantID "" ip userAgent authType false now (now + ssoSessionTTL) zeroTime None false false in
  do! in_sessions (SET (sessionKey NamespaceProtocol newID) sess ssoSessionTTL) in
  ret sess.
Definition GetSSOSession : string -> Op (option Session) := look_up [NamespaceProtocol; NamespacePortal].
Definition GetProtocolSSOSession : string -> Op (option Session) := look_up [NamespaceProtocol].

(** ** config.go *)

Record SAMLConfig : Type := mkSAMLConfig {
  SPEntityID : string; ACSURL : string; SLOURL : string; SPCert : string; NameIDFormat : string; SignAssertions : bool;
  SignResponse : bool; EncryptAssertion : bool; SamlAttributeMapping : gmap string string; SamlRoleAttribute : string;
  SamlGroupAttribute : string; SessionTTL : Z; DigestAlgorithm : string; SignatureAlgorithm : string
}.
Definition SAMLDefaults : SAMLConfig :=
  mkSAMLConfig "" "" "" "" NameIDEmail true true false
    {[ "username" := "uid"; "email" := "mail"; "display_name" := "displayName"; "phone" := "telephoneNumber" ]}
    "roles" "" 28800 "sha256" "RSA-SHA256".
(** The fields a protocol_config sets. *)
Record SAMLFields : Type := mkSAMLFields {
  o_sp_entity_id : option string; o_acs_url : option string; o_slo_url : option string; o_sp_cert : option string;
  o_name_id_format : option string; o_sign_assertions : option bool; o_sign_response : option bool; o_encrypt_assertion : option bool;
  o_attribute_mapping : gmap string string; o_role_attribute : option string; o_group_attribute : option string;
  o_session_ttl : option Z; o_digest_algorithm : option string; o_signature_algorithm : option string
}.
(** json.Unmarshal over the defaults: the entries of a map are added to those it has. *)
Definition parseSAMLConfig (raw : SAMLFields) : SAMLConfig :=
  let d := SAMLDefaults in
  mkSAMLConfig (default (SPEntityID d) (o_sp_entity_id raw)) (default (ACSURL d) (o_acs_url raw)) (default (SLOURL d) (o_slo_url raw))
    (default (SPCert d) (o_sp_cert raw)) (default (NameIDFormat d) (o_name_id_format raw))
    (default (SignAssertions d) (o_sign_assertions raw)) (default (SignResponse d) (o_sign_response raw))
    (default (EncryptAssertion d) (o_encrypt_assertion raw)) (o_attribute_mapping raw ∪ SamlAttributeMapping d)
    (default (SamlRoleAttribute d) (o_role_attribute raw)) (default (SamlGroupAttribute d) (o_group_attribute raw))
    (default (SessionTTL d) (o_session_ttl raw)) (default (DigestAlgorithm d) (o_digest_algorithm raw))
    (default (SignatureAlgorithm d) (o_signature_algorithm raw)).

Definition NameIDPersistent : string := "urn:oasis:names:tc:SAML:2.0:nameid-format:persistent".

(** ** What the handlers ask of others *)

Record SamlApp : Type := mkSamlApp {
  sa_ID : Z; sa_SubjectStrategy : string; sa_Status : Z; sa_ClientID : string; sa_ProtocolConfig : SAMLFields
}.
Record SamlIdentity : Type := mkSamlIdentity {
  si_ID : Z; si_TenantID : Z; si_Username : string; si_Email : string; si_Phone : string; si_DisplayName : string; si_Avatar : string;
  si_Groups : list string
}.
(** The PEM texts of a certificate and its decrypted key. *)
Record SamlCert : Type := mkSamlCert { sc_PrivateKey : string; sc_PublicKey : string }.
Record URLs : Type := mkURLs { Issuer : string; Portal : string }.

Record SamlEnv : Type := mkSamlEnv {
  env_GetApp : string -> option SamlApp;
  env_GetAppByID : Z -> option SamlApp;
  (** a user within the tenant of the context *)
  env_ResolveUser : Z -> Z -> option SamlIdentity;
  (** empty on an error, too *)
  env_GetTenantCode : Z -> string;
  env_CheckAppAccess : option (Z -> Z -> Z -> option (bool * string));
  env_ResolveAppRoles : option (Z -> Z -> Z -> option (list string));
  env_ListCerts : Z -> option (list SamlCert);
  env_MintSigningCert : Z -> option SamlCert;
  (** urlswap.Resolve at a request host *)
  env_URLs : string -> URLs
}.

(** crewjam's types, the fields that are set or read. *)
Definition HTTPPostBinding : string := "urn:oasis:names:tc:SAML:2.0:bindings:HTTP-POST".
Definition HTTPRedirectBinding : string := "urn:oasis:names:tc:SAML:2.0:bindings:HTTP-Redirect".
Record EntityDescriptor : Type := mkEntityDescriptor {
  EntityID : string; WantAssertionsSigned : bool;
  (** binding and location *)
  AssertionConsumerServices : list (string * string); SingleLogoutServices : list (string * string);
  (** use and certificate in base64 *)
  KeyDescriptors : list (string * string)
}.
Record IdentityProvider (Priv : Type) : Type := mkIdentityProvider {
  idp_Key : option Priv; idp_Certificate : string; MetadataURL : string; SSOURL : string; LogoutURL : option string; idp_SP : EntityDescriptor
}.
Record IdpAuthnRequest : Type := mkIdpAuthnRequest {
  ar_RelayState : string; ar_ACS : string; ar_ID : string; ar_IssueInstant : option Z
}.
Record CrewjamSession : Type := mkCrewjamSession {
  cs_ID : string; cs_CreateTime : Z; cs_ExpireTime : Z; cs_Index : string; cs_NameID : string; cs_NameIDFormat : string;
  cs_CustomAttributes : list (string * list string)
}.
Arguments mkIdentityProvider {Priv}. Arguments idp_Key {Priv}. Arguments idp_Certificate {Priv}. Arguments MetadataURL {Priv}.
Arguments SSOURL {Priv}. Arguments LogoutURL {Priv}. Arguments idp_SP {Priv}.

Record IdpLib (Priv : Type) : Type := mkIdpLib {
  parse_pkcs1 : string -> option Priv;
  (** the key, if it is an RSA key *)
  parse_pkcs8 : string -> option (option Priv);
  (** NewIdpAuthnRequest and Validate on the query and the form; [None]: either failed *)
  authn_request : IdentityProvider Priv -> string -> string -> option IdpAuthnRequest;
  (** MakeAssertion and WriteResponse succeed *)
  make_assertion : IdentityProvider Priv -> IdpAuthnRequest -> CrewjamSession -> bool;
  write_response : IdentityProvider Priv -> IdpAuthnRequest -> CrewjamSession -> bool;
  (** signSAMLElement and the rendering of an error response succeed *)
  sign_element : Priv -> string -> string -> bool
}.
Arguments parse_pkcs1 {Priv}. Arguments parse_pkcs8 {Priv}. Arguments authn_request {Priv}. Arguments make_assertion {Priv}.
Arguments write_response {Priv}. Arguments sign_element {Priv}.

(** ** Requests and answers *)

(** A cookie or a form value that is missing reads as empty. *)
Record SamlHttp : Type := mkSamlHttp {
  h_app_code : string; h_query : string; h_form_SAMLRequest : string; h_form_RelayState : string;
  h_proto_sid : string; h_portal_sid : string; h_Host : string
}.
(** The random values a request draws. *)
Record SamlDraws : Type := mkSamlDraws { d_session_id : string; d_index : string; d_hex : string }.

Inductive SamlReply (Priv : Type) : Type :=
| Refused (http num : Z) (detail : string)
| ToLogin (location : string)
| ToConsent (location : string)
| PostError (key : Priv) (acs inResponseTo relayState : string)
| PostAssertion (idp : IdentityProvider Priv) (req : IdpAuthnRequest) (session : CrewjamSession)
| RedirectTo (location : string)
| LoggedOut.
Arguments Refused {Priv}. Arguments ToLogin {Priv}. Arguments ToConsent {Priv}. Arguments PostError {Priv}.
Arguments PostAssertion {Priv}. Arguments RedirectTo {Priv}. Arguments LoggedOut {Priv}.

Definition NotFound {Priv} : SamlReply Priv := Refused 404 40401 "".
Definition InternalError {Priv} : SamlReply Priv := Refused 500 50001 "".

(** ** URLs *)

(** [url.PathEscape]: a few more bytes than in a query stand for themselves, and a space does not
    become a plus. *)
Definition path_byte (c : ascii) : bool := unreserved c || bool_decide (c ∈ ["$"; "&"; "+"; ":"; "="; "@"]%char).
Fixpoint PathEscape (s : string) : string :=
  match s with
  | EmptyString => EmptyString
  | String c s' =>
      if path_byte c then String c (PathEscape s')
      else String "%" (String (hexdigit (N_of_ascii c / 16)) (String (hexdigit (N_of_ascii c mod 16)) (PathEscape s')))
  end.

Section Handler.
Context {Pub Priv : Type} (lib : SamlLib Pub Priv) (idplib : IdpLib Priv).
(** net/url's parser with the host's name, and strings.EqualFold. *)
Context (url_parse : string -> option CasHandler.URL) (Hostname : CasHandler.URL -> string) (EqualFold : string -> string -> bool).
(** The iteration order of a map. *)
Context (map_order : gmap string string -> list (string * string)).
Context (sha256_hex32 : string -> string).
Context (ref_json : SAMLSessionRef -> string) (ref_unjson : string -> option SAMLSessionRef).
Abbreviation Reply := (SamlReply Priv).

(** ** Keys *)

Definition private_key (pem : string) : option Priv :=
  block ← pem_block lib pem;
  match parse_pkcs1 idplib block with Some k => Some k | None => k ← parse_pkcs8 idplib block; k end.
(** The key and the PEM of its certificate; a certificate is minted when there is none. *)
Definition loadSignOptions (env : SamlEnv) (appID : Z) : option (Priv * string) :=
  certs ← env_ListCerts env appID;
  c ← match certs with c :: _ => Some c | [] => env_MintSigningCert env appID end;
  key ← private_key (sc_PrivateKey c);
  Some (key, sc_PublicKey c).
(** The certificate, as its bytes, is one that parses. *)
Definition loadKeyAndCert (env : SamlEnv) (appID : Z) : option (Priv * string) :=
  opts ← loadSignOptions env appID;
  der ← pemCertBytes lib opts.2;
  _ ← x509_key lib der;
  Some (opts.1, der).

(** ** crewjam_adapter.go *)

Definition spEntityDescriptor (cfg : SAMLConfig) : option EntityDescriptor :=
  let slo := if bool_decide (SLOURL cfg <> ""%string) then [(HTTPRedirectBinding, SLOURL cfg)] else [] in
  let sp := mkEntityDescriptor (SPEntityID cfg) (SignAssertions cfg) [(HTTPPostBinding, ACSURL cfg)] slo in
  if bool_decide (SPCert cfg = ""%string) then Some (sp []) else
  der ← pemCertBytes lib (SPCert cfg);
  _ ← x509_key lib der;
  let b64 := b64encode lib der in Some (sp [("signing"%string, b64); ("encryption"%string, b64)]).
Definition requireAbsoluteURL (raw : string) : bool :=
  match url_parse raw with
  | None => false
  | Some u => bool_decide (CasHandler.Scheme u = "http"%string \/ CasHandler.Scheme u = "https"%string)
              && bool_decide (CasHandler.Host u <> ""%string)
  end.
Definition buildIdentityProvider (cfg : SAMLConfig) (key : option Priv) (cert issuer ssoURL sloURL : string) : option (IdentityProvider Priv) :=
  sp ← spEntityDescriptor cfg;
  if negb (requireAbsoluteURL issuer) then None else
  if negb (requireAbsoluteURL ssoURL) then None else
  let logout := if bool_decide (sloURL <> ""%string) then (fun _ => sloURL) <$> url_parse sloURL else None in
  Some (mkIdentityProvider key cert issuer ssoURL logout sp).
Definition newIDP (env : SamlEnv) (host appCode : string) (cfg : SAMLConfig) (key : option Priv) (cert : string) : option (IdentityProvider Priv) :=
  let entityID := Issuer (env_URLs env host) in
  buildIdentityProvider cfg key cert entityID (entityID +:+ "/protocol/saml/" +:+ appCode +:+ "/sso")
    (entityID +:+ "/protocol/saml/" +:+ appCode +:+ "/slo").

(** The metadata of the identity provider, as crewjam renders it: an error of that is an internal one. *)
Definition metadata (env : SamlEnv) (host appCode : string) : IdentityProvider Priv + Reply :=
  match env_GetApp env appCode with
  | None => inr NotFound
  | Some app =>
      match loadKeyAndCert env (sa_ID app) with
      | None => inr InternalError
      | Some (_, cert) =>
          match newIDP env host appCode (parseSAMLConfig (sa_ProtocolConfig app)) None cert with
          | None => inr InternalError
          | Some idp => inl idp
          end
      end
  end.

(** ** Attributes *)

Definition resolveNameID (format : string) (user : SamlIdentity) : string :=
  if bool_decide (format = NameIDEmail) then si_Email user
  else if bool_decide (format = NameIDPersistent) then dec (si_ID user)
  else si_Username user.
Definition saml_attribute (user : SamlIdentity) (name : string) : option string :=
  if bool_decide (name = "username"%string) then Some (si_Username user) else
  if bool_decide (name = "email"%string) then Some (si_Email user) else
  if bool_decide (name = "display_name"%string) then Some (si_DisplayName user) else
  if bool_decide (name = "phone"%string) then Some (si_Phone user) else
  if bool_decide (name = "avatar"%string) then Some (si_Avatar user) else None.
Definition saml_buildAttributes (cfg : SAMLConfig) (user : SamlIdentity) : gmap string string :=
  foldl (fun attrs '(userAttr, samlAttr) =>
           match saml_attribute user userAttr with
           | Some val => if bool_decide (val <> ""%string) then <[samlAttr := val]> attrs else attrs
           | None => attrs
           end) ∅ (map_order (SamlAttributeMapping cfg)).
Definition attrsToCrewjam (attrs : gmap string string) : list (string * list string) :=
  omap (fun '(name, val) => if bool_decide (val = ""%string) then None else Some (name, [val])) (map_order attrs).
Definition buildResponseAttributes (cfg : SAMLConfig) (attrs : gmap string string) (roleCodes groupCodes : list string)
    : list (string * list string) :=
  attrsToCrewjam attrs
  ++ (if bool_decide (roleCodes = []) then []
      else [(if bool_decide (SamlRoleAttribute cfg = ""%string) then "roles"%string else SamlRoleAttribute cfg, roleCodes)])
  ++ (if bool_decide (groupCodes <> []) && bool_decide (SamlGroupAttribute cfg <> ""%string)
      then [(SamlGroupAttribute cfg, groupCodes)] else []).

(** What the subject strategy of the application gives; its errors are dropped. *)
Definition saml_subject (env : SamlEnv) (app : SamlApp) (user : SamlIdentity) : option CasHandler.SubjectOutput :=
  let tenantCode := if 0 <? si_TenantID user then env_GetTenantCode env (si_TenantID user) else ""%string in
  CasHandler.ResolveSubject sha256_hex32 (sa_SubjectStrategy app)
    (CasHandler.mkSubjectInput (si_ID user) (si_Username user) (si_Email user) (si_TenantID user) tenantCode (sa_ClientID app)).
Definition name_id (env : SamlEnv) (cfg : SAMLConfig) (app : SamlApp) (user : SamlIdentity) : string :=
  match saml_subject env app user with
  | Some subj => if bool_decide (CasHandler.Subject subj <> ""%string) then CasHandler.Subject subj else resolveNameID (NameIDFormat cfg) user
  | None => resolveNameID (NameIDFormat cfg) user
  end.
Definition saml_attributes (env : SamlEnv) (cfg : SAMLConfig) (app : SamlApp) (user : SamlIdentity) : gmap string string :=
  let tenantCode := if 0 <? si_TenantID user then env_GetTenantCode env (si_TenantID user) else ""%string in
  let attrs := saml_buildAttributes cfg user in
  let attrs := if bool_decide (tenantCode <> ""%string) then <["tenant_code"%string := tenantCode]> attrs else attrs in
  match saml_subject env app user with
  | Some subj => if bool_decide (CasHandler.DisplayUsername subj <> ""%string)
                 then <["username"%string := CasHandler.DisplayUsername subj]> attrs else attrs
  | None => attrs
  end.

(** ** Redirects to the portal, confirm.go *)

Definition portal_base (u : URLs) : string := if bool_decide (Portal u = ""%string) then Issuer u else Portal u.
(** Nothing is escaped. *)
Definition redirectToLogin (env : SamlEnv) (host appCode requestID relayState : string) : string :=
  portal_base (env_URLs env host) +:+ "/login?protocol=saml&app_code=" +:+ appCode +:+ "&request_id=" +:+ requestID
  +:+ "&relay_state=" +:+ relayState.
Definition resume_url (env : SamlEnv) (host appCode requestID relayState : string) : string :=
  Issuer (env_URLs env host) +:+ "/protocol/saml/" +:+ PathEscape appCode +:+ "/resume?request_id=" +:+ QueryEscape requestID
  +:+ "&relay_state=" +:+ QueryEscape relayState.
Definition redirectToConsent (env : SamlEnv) (host : string) (appID : Z) (appCode requestID relayState : string) : string :=
  portal_base (env_URLs env host) +:+ "/consent?app_id=" +:+ dec appID +:+ "&return_to="
  +:+ QueryEscape (resume_url env host appCode requestID relayState).
Definition writeSAMLError (env : SamlEnv) (host : string) (appID : Z) (cfg : SAMLConfig) (requestID relayState : string) : Reply :=
  match loadKeyAndCert env appID with
  | None => InternalError
  | Some (key, _) =>
      if bool_decide (ACSURL cfg = ""%string) then InternalError else
      if negb (sign_element idplib key (ACSURL cfg) requestID) then InternalError else PostError key (ACSURL cfg) requestID relayState
  end.

(** ** Signing in to an application *)

(** The first assertion consumer of the metadata that is reached by POST. *)
Definition post_acs (sp : EntityDescriptor) : option string :=
  snd <$> head (filter (fun acs => acs.1 = HTTPPostBinding) (AssertionConsumerServices sp)).
(** The request to answer: the one that was sent, or one put together from the metadata. *)
Definition authn_request_of (idp : IdentityProvider Priv) (req : SamlHttp) (now : Z) (requestID relayState : string) : IdpAuthnRequest + Reply :=
  let hasRawRequest := bool_decide (Query (h_query req) "SAMLRequest" <> ""%string \/ h_form_SAMLRequest req <> ""%string) in
  if bool_decide (requestID <> ""%string) && hasRawRequest then
    match authn_request idplib idp (h_query req) (h_form_SAMLRequest req) with Some r => inl r | None => inr (Refused 400 40001 "") end
  else
    match post_acs (idp_SP idp) with
    | None => inr InternalError
    | Some acs =>
        inl (mkIdpAuthnRequest relayState acs requestID (if bool_decide (requestID <> ""%string) then Some now else None))
    end.
Definition index_ttl (cfg : SAMLConfig) : Z :=
  let ttl := wrap64 (SessionTTL cfg * Second) in if ttl <=? 0 then 8 * Hour else ttl.
(** A reference that could not be recorded does not stop the answer. *)
Definition emitCrewjamResponse (env : SamlEnv) (req : SamlHttp) (d : SamlDraws) (app : SamlApp) (userID : Z) (cfg : SAMLConfig)
    (requestID relayState nameIDValue : string) (attrs : gmap string string) (roleCodes groupCodes : list string) : Op Reply :=
  match loadKeyAndCert env (sa_ID app) with
  | None => ret InternalError
  | Some (key, cert) =>
      match newIDP env (h_Host req) (h_app_code req) cfg (Some key) cert with
      | None => ret InternalError
      | Some idp =>
          let! now := clock in
          let session := mkCrewjamSession (d_session_id d) now (now + wrap64 (SessionTTL cfg * Second)) (d_index d) nameIDValue (NameIDFormat cfg)
                           (buildResponseAttributes cfg attrs roleCodes groupCodes) in
          match authn_request_of idp req now requestID relayState with
          | inr reply => ret reply
          | inl areq =>
              if negb (make_assertion idplib idp areq session) then ret InternalError else
              let ref := mkSAMLSessionRef (cs_Index session) (cs_NameID session) (SPEntityID cfg) (cs_NameIDFormat session) in
              in_store (index_Record ref_json userID (sa_ID app) ref (index_ttl cfg)) (fun _ =>
                if negb (write_response idplib idp areq session) then ret InternalError else ret (PostAssertion idp areq session))
          end
      end
  end.

(** The session behind either cookie; an error reads as none. *)
Definition session_of (sid : string) : Op (option Session) :=
  if bool_decide (sid = ""%string) then ret None
  else attempt (GetSSOSession sid) (fun x => ret (match x with Ok s => s | Err _ => None end)).
Definition resolve_session (req : SamlHttp) : Op (option Session) :=
  let! s := session_of (h_proto_sid req) in
  match s with Some s => ret (Some s) | None => session_of (h_portal_sid req) end.

(** From the session on: the policy, the user, the answer. *)
Definition assert_user (env : SamlEnv) (req : SamlHttp) (d : SamlDraws) (app : SamlApp) (sess : Session) (requestID relayState : string) : Op Reply :=
  let cfg := parseSAMLConfig (sa_ProtocolConfig app) in
  let verdict := match env_CheckAppAccess env with
                 | None => Some (true, ""%string)
                 | Some check => check (UserID sess) (sa_ID app) (TenantID sess)
                 end in
  match verdict with
  | None => ret (Refused 403 40302 "")
  | Some (false, reason) => ret (Refused 403 40302 reason)
  | Some (true, _) =>
      match env_ResolveUser env (TenantID sess) (UserID sess) with
      | None => ret InternalError
      | Some user =>
          let roleCodes := match env_ResolveAppRoles env with
                           | None => []
                           | Some roles => default [] (roles (UserID sess) (sa_ID app) (TenantID sess))
                           end in
          let groupCodes := if bool_decide (SamlGroupAttribute cfg <> ""%string) then si_Groups user else [] in
          emitCrewjamResponse env req d app (UserID sess) cfg requestID relayState (name_id env cfg app user)
            (saml_attributes env cfg app user) roleCodes groupCodes
      end
  end.
Definition processSSO (env : SamlEnv) (req : SamlHttp) (d : SamlDraws) (requestID relayState : string) : Op Reply :=
  match env_GetApp env (h_app_code req) with
  | None => ret NotFound
  | Some app =>
      if negb (sa_Status app =? 1) then ret (Refused 403 40301 "") else
      let! ssoSess := resolve_session req in
      match ssoSess with
      | None => ret (ToLogin (redirectToLogin env (h_Host req) (h_app_code req) requestID relayState))
      | Some sess =>
          if bool_decide (requestID = ""%string) then assert_user env req d app sess requestID relayState
          else if bool_decide (Query (h_query req) "sso_deny" = "1"%string)
          then ret (writeSAMLError env (h_Host req) (sa_ID app) (parseSAMLConfig (sa_ProtocolConfig app)) requestID relayState)
          else
            in_store (Consume (Query (h_query req) "sso_confirm") (UserID sess) (sa_ID app)) (fun x =>
              if match x with Ok confirmed => confirmed | Err _ => false end
              then assert_user env req d app sess requestID relayState
              else ret (ToConsent (redirectToConsent env (h_Host req) (sa_ID app) (h_app_code req) requestID relayState)))
      end
  end.
Definition idpInitiatedSSO (env : SamlEnv) (req : SamlHttp) (d : SamlDraws) (relayState : string) : Op Reply :=
  processSSO env req d "" relayState.
Definition sso (env : SamlEnv) (req : SamlHttp) (d : SamlDraws) (samlRequest relayState : string) : Op Reply :=
  if bool_decide (samlRequest = ""%string) then idpInitiatedSSO env req d relayState else
  match extractRequestID lib samlRequest with
  | None => ret (Refused 400 40001 "")
  | Some requestID => processSSO env req d requestID relayState
  end.
Definition ssoRedirect (env : SamlEnv) (req : SamlHttp) (d : SamlDraws) : Op Reply :=
  sso env req d (Query (h_query req) "SAMLRequest") (Query (h_query req) "RelayState").
Definition ssoPost (env : SamlEnv) (req : SamlHttp) (d : SamlDraws) : Op Reply := sso env req d (h_form_SAMLRequest req) (h_form_RelayState req).
Definition ssoResume (env : SamlEnv) (req : SamlHttp) (d : SamlDraws) : Op Reply :=
  let requestID := Query (h_query req) "request_id" in
  let relayState := Query (h_query req) "relay_state" in
  if bool_decide (requestID = ""%string) then idpInitiatedSSO env req d relayState else processSSO env req d requestID relayState.

(** ** Single logout, started by the service provider *)

Definition form_or_query (req : SamlHttp) : string :=
  let encoded := Query (h_query req) "SAMLRequest" in if bool_decide (encoded = ""%string) then h_form_SAMLRequest req else encoded.
(** [true]: go on. *)
Definition verifySPLogoutRequestSig (env : SamlEnv) (req : SamlHttp) : bool :=
  if bool_decide (Query (h_query req) "SAMLRequest" = ""%string) then true else
  match env_GetApp env (h_app_code req) with
  | None => true
  | Some app =>
      let cfg := parseSAMLConfig (sa_ProtocolConfig app) in
      if bool_decide (SPCert cfg = ""%string) then true
      else match verifyRedirectSignature lib (h_query req) (SPCert cfg) with None => true | Some _ => false end
  end.
Definition sloResponseRedirect (env : SamlEnv) (req : SamlHttp) (d : SamlDraws) (now : Z) (relayState : string) : option string :=
  let encoded := form_or_query req in
  if bool_decide (encoded = ""%string) then None else
  requestID ← extractRequestID lib encoded;
  app ← env_GetApp env (h_app_code req);
  let cfg := parseSAMLConfig (sa_ProtocolConfig app) in
  if bool_decide (SLOURL cfg = ""%string) then None else
  kc ← loadKeyAndCert env (sa_ID app);
  buildLogoutResponseRedirect lib (d_hex d) now (SLOURL cfg) (Issuer (env_URLs env (h_Host req))) requestID relayState kc.1.
Definition isSafeSLORedirect (raw : string) : bool :=
  match url_parse raw with
  | None => false
  | Some u =>
      if bool_decide (CasHandler.Scheme u = ""%string) then false else
      if bool_decide (CasHandler.Fragment u <> ""%string) || Contains raw "#" then false else
      if bool_decide (CasHandler.Scheme u = "https"%string) then true else
      if bool_decide (CasHandler.Scheme u = "http"%string)
      then bool_decide (Hostname u ∈ ["localhost"; "127.0.0.1"; "::1"]%string) else false
  end.
(** The application whose code is the issuer of the request. *)
Definition lookupSLOIssuer (env : SamlEnv) (req : SamlHttp) : option SamlApp :=
  let encoded := form_or_query req in
  if bool_decide (encoded = ""%string) then None else
  issuer ← extractRequestIssuer lib encoded;
  if bool_decide (issuer = ""%string) then None else env_GetApp env issuer.
Definition registered_host (target : CasHandler.URL) (candidate : string) : bool :=
  match url_parse candidate with
  | None => false
  | Some u => bool_decide (CasHandler.Host u <> ""%string) && EqualFold (CasHandler.Host u) (CasHandler.Host target)
              && EqualFold (CasHandler.Scheme u) (CasHandler.Scheme target)
  end.
Definition isAllowedSLORedirect (env : SamlEnv) (req : SamlHttp) (relayState : string) : bool :=
  match url_parse relayState with
  | None => false
  | Some target =>
      if negb (isSafeSLORedirect relayState) then false else
      match lookupSLOIssuer env req with
      | None => false
      | Some app => let cfg := parseSAMLConfig (sa_ProtocolConfig app) in existsb (registered_host target) [SLOURL cfg; ACSURL cfg]
      end
  end.
Definition slo (env : SamlEnv) (req : SamlHttp) (d : SamlDraws) : Op Reply :=
  if negb (verifySPLogoutRequestSig env req) then ret (Refused 400 40008 "") else
  do! (if bool_decide (h_proto_sid req <> ""%string) then best_effort (DeleteSSOSession (h_proto_sid req)) else ret tt) in
  let relayState := let q := Query (h_query req) "RelayState" in if bool_decide (q = ""%string) then h_form_RelayState req else q in
  let! now := clock in
  match sloResponseRedirect env req d now relayState with
  | Some location => ret (RedirectTo location)
  | None =>
      if bool_decide (relayState <> ""%string) && isAllowedSLORedirect env req relayState then ret (RedirectTo relayState) else ret LoggedOut
  end.

(** ** Single logout, started here: idp_logout.go *)

(** The addresses to call; [hex]: the random part of the id of each request. *)
Fixpoint logout_targets (issuer : string) (cfg : SAMLConfig) (key : Priv) (now : Z) (hex : nat -> string) (i : nat) (refs : list SAMLSessionRef)
    : list string :=
  match refs with
  | [] => []
  | ref :: rest =>
      let nameIDFormat := if bool_decide (sf_NameIDFormat ref = ""%string) then NameIDFormat cfg else sf_NameIDFormat ref in
      let targets := logout_targets issuer cfg key now hex (S i) rest in
      match buildLogoutRequestRedirect lib (hex i) now (SLOURL cfg) issuer (sf_NameID ref) nameIDFormat (sf_SessionIndex ref) key with
      | Some target => target :: targets
      | None => targets
      end
  end.
Definition IdPInitiatedLogout (env : SamlEnv) (hex : nat -> string) (userID appID : Z) : Op (list string) :=
  in_store (index_Get ref_unjson userID appID) (fun x =>
    match x with
    | Err _ | Ok [] => ret []
    | Ok refs =>
        match env_GetAppByID env appID with
        | None => ret []
        | Some app =>
            let cfg := parseSAMLConfig (sa_ProtocolConfig app) in
            if bool_decide (SLOURL cfg = ""%string) then in_store (index_Delete userID appID) (fun _ => ret []) else
            match loadKeyAndCert env appID with
            | None => ret []
            | Some (key, _) =>
                let! now := clock in
                in_store (index_Delete userID appID) (fun _ =>
                  ret (logout_targets (Issuer (env_URLs env "")) cfg key now hex 0 refs))
            end
        end
    end).
End Handler.
