(* ===== verification/SamlProps.v ===== *)
(** * SamlProps: what a signed assertion rests on, and where a logout lands

    An assertion goes to the registered endpoint, for the user of a live session whom the policy
    admits, after a confirmation when the provider asked for the login; a logout redirects to the
    provider that asked for it or nowhere. *)

From stdpp Require Import sorting.
From Stdlib Require Import Ascii.
From S2P Require CasHandler CasFlows.
From S2P Require Import SessionProps CasTickets Session.
From S2P Require Import Redis Prelude Text SamlRedirect Saml.
#[global] Open Scope Z_scope.

Implicit Types w : SamlWorld.

(** ** The sessions that are found *)

(** A session that has not ended, under its key. *)
Definition holds_session w (ns sid : string) (sess : Session) : Prop :=
  exists d, peek (rkeys (w_sessions w)) (rclock (w_sessions w)) (sessionKey ns sid) = Some (mkRKey (RStr sess) d)
            /\ rclock (w_sessions w) <= ExpiresAt sess.
(** [w'] has no more sessions than [w], and the rest of it. *)
Definition fewer w w' : Prop :=
  w_store w' = w_store w /\ rclock (w_sessions w') = rclock (w_sessions w)
  /\ forall k e, rkeys (w_sessions w') !! k = Some e -> rkeys (w_sessions w) !! k = Some e.
Lemma fewer_refl w : fewer w w.
Proof. by split_and!. Qed.
Lemma fewer_trans w1 w2 w3 : fewer w1 w2 -> fewer w2 w3 -> fewer w1 w3.
Proof. intros (E1 & C1 & H1) (E2 & C2 & H2). split_and!; [congruence.. | auto]. Qed.
Lemma fewer_holds w w' ns sid sess : fewer w w' -> holds_session w' ns sid sess -> holds_session w ns sid sess.
Proof.
  intros (_ & Hc & H) (d & Hp & He). exists d. rewrite <- Hc. split; [|done]. apply peek_Some in Hp as [Hk Ha]. apply peek_Some. auto.
Qed.

(** A command that reads, or deletes. *)
Lemma command_fewer {A} (f : gmap string (RKey Session) -> Z -> gmap string (RKey Session) * res RErr A) w w' x :
  (forall ks now k e, (f ks now).1 !! k = Some e -> ks !! k = Some e) -> in_sessions (command f) w = (w', x) -> fewer w w'.
Proof.
  intros Hf. unfold in_sessions. destruct (command f (w_sessions w)) as [r y] eqn:Hr. intros [= <- <-].
  apply command_inv in Hr as (Hc & _ & Hk). split_and!; [done | exact Hc|]. intros k e Hin. cbn in Hin.
  destruct Hk as [[E _]|(_ & _ & [E|E])]; rewrite E in Hin; [by eapply Hf | done | by eapply Hf].
Qed.
Lemma delete_fewer sid w w' x : DeleteSSOSession sid w = (w', x) -> fewer w w'.
Proof. apply command_fewer. intros ks now k e H. cbn in H. by apply lookup_delete_Some in H as [_ H]. Qed.

Lemma look_up_inv nss sid w w' x : look_up nss sid w = (w', x) ->
  fewer w w' /\ forall sess, x = Ok (Some sess) -> exists ns, ns ∈ nss /\ holds_session w ns sid sess.
Proof.
  revert w. induction nss as [|ns nss IH]; intros w Hr; cbn [look_up] in Hr.
  { unfold ret in Hr. simplify_eq. split; [apply fewer_refl | done]. }
  unfold attempt in Hr. destruct (in_sessions (GET _) w) as [w1 y] eqn:Hg.
  assert (fewer w w1) as Hw1 by (by eapply command_fewer; [|exact Hg]).
  assert (forall s, y = Ok s -> exists d, peek (rkeys (w_sessions w)) (rclock (w_sessions w)) (sessionKey ns sid) = Some (mkRKey (RStr s) d)) as Hpk.
  { intros s ->. unfold in_sessions in Hg. destruct (GET _ (w_sessions w)) as [r z] eqn:Hz. injection Hg as _ ->.
    apply command_inv in Hz as (_ & _ & [[_ Hz]|[Hz _]]); [|done]. unfold get_f in Hz. cbn in Hz.
    destruct (peek _ _ _) as [[[v|?|?] d]|]; simplify_eq. by exists d. }
  destruct y as [s|[]]; [|destruct (IH _ Hr) as [Hf Hs] |unfold throw in Hr; simplify_eq; by split..].
  - unfold bind, clock, gets in Hr. cbn in Hr. destruct (Z.ltb_spec (ExpiresAt s) (rclock (w_sessions w1))) as [Hlt|Hge].
    + split.
      * destruct (bool_decide _); unfold ret in Hr; cbn in Hr; [|by simplify_eq]. unfold best_effort, attempt, bind in Hr.
        destruct (DeleteSSOSession sid w1) as [w2 z] eqn:Hd. cbn in Hr. simplify_eq.
        eapply fewer_trans; [done | by eapply delete_fewer].
      * intros sess ->. destruct (bool_decide _); unfold ret in Hr; cbn in Hr; [|done]. unfold best_effort, attempt, bind in Hr.
        destruct (DeleteSSOSession sid w1) as [w2 z]. cbn in Hr. simplify_eq.
    + unfold ret in Hr. simplify_eq. split; [done|]. intros sess [= ->]. exists ns. split; [by left|].
      destruct (Hpk _ eq_refl) as [d Hd]. exists d. split; [done|]. destruct Hw1 as (_ & <- & _). done.
  - split; [by eapply fewer_trans|]. intros sess ->. destruct (Hs _ eq_refl) as (ns' & Hin & Hh). exists ns'.
    split; [by right | by eapply fewer_holds].
Qed.

Lemma session_of_inv sid w w' x : session_of sid w = (w', x) ->
  fewer w w' /\ (exists s, x = Ok s) /\ forall sess, x = Ok (Some sess) ->
    sid <> ""%string /\ exists ns, ns ∈ [NamespaceProtocol; NamespacePortal] /\ holds_session w ns sid sess.
Proof.
  unfold session_of. case_bool_decide as Hs.
  { unfold ret. intros [= <- <-]. split_and!; [apply fewer_refl | by eexists | done]. }
  unfold attempt. destruct (GetSSOSession sid w) as [w1 y] eqn:Hg. unfold ret. intros [= <- <-].
  apply look_up_inv in Hg as [Hf Hh]. split_and!; [done | by eexists|]. intros sess Hx. split; [done|].
  destruct y as [o|]; [|done]. injection Hx as ->. by apply Hh.
Qed.

(** The session a request is answered for: live, and of one of its two cookies. *)
Definition signed_in w (req : SamlHttp) (sess : Session) : Prop :=
  exists ns sid, ns ∈ [NamespaceProtocol; NamespacePortal] /\ sid ∈ [h_proto_sid req; h_portal_sid req] /\ sid <> ""%string
                 /\ holds_session w ns sid sess.
Lemma resolve_session_inv req w w' x : resolve_session req w = (w', x) ->
  fewer w w' /\ (exists s, x = Ok s) /\ forall sess, x = Ok (Some sess) -> signed_in w req sess.
Proof.
  unfold resolve_session, bind. destruct (session_of (h_proto_sid req) w) as [w1 y] eqn:H1.
  apply session_of_inv in H1 as (Hf1 & [s ->] & Hs1). destruct s as [s|].
  - unfold ret. intros [= <- <-]. split_and!; [done | by eexists|]. intros sess [= ->].
    destruct (Hs1 _ eq_refl) as (Hne & ns & Hin & Hh). exists ns, (h_proto_sid req). split_and!; [done | left | done | done].
  - intros H2. apply session_of_inv in H2 as (Hf2 & Hs & Hs2). split_and!; [by eapply fewer_trans | done|].
    intros sess ->. destruct (Hs2 _ eq_refl) as (Hne & ns & Hin & Hh). exists ns, (h_portal_sid req).
    split_and!; [done | right; left | done | by eapply fewer_holds].
Qed.

Section Sso.
Context {Pub Priv : Type} (lib : SamlLib Pub Priv) (idplib : IdpLib Priv) (url_parse : string -> option CasHandler.URL).
Context (map_order : gmap string string -> list (string * string)) (sha256_hex32 : string -> string) (ref_json : SAMLSessionRef -> string).

Abbreviation emit := (emitCrewjamResponse lib idplib url_parse map_order ref_json).
Abbreviation assert_as := (assert_user lib idplib url_parse map_order sha256_hex32 ref_json).
Abbreviation process := (processSSO lib idplib url_parse map_order sha256_hex32 ref_json).

(** The three endpoints, and the id of the request each answers: none when the flow starts here. *)
Inductive Endpoint : Type := RedirectBinding | PostBinding | Resume.
Definition serve (ep : Endpoint) : SamlEnv -> SamlHttp -> SamlDraws -> Op (SamlReply Priv) :=
  match ep with
  | RedirectBinding => ssoRedirect lib idplib url_parse map_order sha256_hex32 ref_json
  | PostBinding => ssoPost lib idplib url_parse map_order sha256_hex32 ref_json
  | Resume => ssoResume lib idplib url_parse map_order sha256_hex32 ref_json
  end.
Definition request_id (ep : Endpoint) (req : SamlHttp) : option string :=
  let decoded s := if bool_decide (s = ""%string) then Some ""%string else extractRequestID lib s in
  match ep with
  | RedirectBinding => decoded (Query (h_query req) "SAMLRequest")
  | PostBinding => decoded (h_form_SAMLRequest req)
  | Resume => Some (Query (h_query req) "request_id")
  end.
Lemma serve_process ep env req d w w' x : serve ep env req d w = (w', x) ->
  (exists id relay, request_id ep req = Some id /\ process env req d id relay w = (w', x)) \/ (request_id ep req = None /\ x = Ok (Refused 400 40001 "")).
Proof.
  destruct ep; cbn; unfold ssoRedirect, ssoPost, ssoResume, sso, idpInitiatedSSO.
  - case_bool_decide; [eauto|]. destruct (extractRequestID _ _); [eauto|]. unfold ret. intros. simplify_eq. by right.
  - case_bool_decide; [eauto|]. destruct (extractRequestID _ _); [eauto|]. unfold ret. intros. simplify_eq. by right.
  - case_bool_decide as Hid; [rewrite Hid; eauto | eauto].
Qed.

(** The answer that carries an assertion, and what was put together for it. *)
Lemma emit_inv env req d app uid cfg id relay nid attrs rs gs w w' idp areq cs :
  emit env req d app uid cfg id relay nid attrs rs gs w = (w', Ok (PostAssertion idp areq cs)) ->
  exists key cert now,
    loadKeyAndCert lib idplib env (sa_ID app) = Some (key, cert)
    /\ newIDP lib url_parse env (h_Host req) (h_app_code req) cfg (Some key) cert = Some idp
    /\ authn_request_of idplib idp req now id relay = inl areq
    /\ cs_NameID cs = nid /\ cs_CustomAttributes cs = buildResponseAttributes map_order cfg attrs rs gs
    /\ w' = mkSamlWorld (index_Record ref_json uid (sa_ID app) (mkSAMLSessionRef (cs_Index cs) nid (SPEntityID cfg) (NameIDFormat cfg))
                           (index_ttl cfg) (w_store w)).1 (w_sessions w).
Proof.
  unfold emitCrewjamResponse. destruct (loadKeyAndCert _ _ _ _) as [[key cert]|]; [|unfold ret; intros; simplify_eq].
  destruct (newIDP _ _ _ _ _ _ _ _) as [idp'|] eqn:Hidp; [|unfold ret; intros; simplify_eq].
  unfold bind, clock, gets. cbn. destruct (authn_request_of _ _ _ _ _ _) as [areq'|reply] eqn:Hreq; [|unfold ret; intros; simplify_eq].
  - destruct (negb _); [unfold ret; intros; simplify_eq|]. unfold in_store.
    destruct (index_Record _ _ _ _ _ _) as [r y] eqn:Hr. destruct (negb _); [unfold ret; intros; simplify_eq|].
    unfold ret. intros [= <- <- <- <-]. exists key, cert, (rclock (w_sessions w)). split_and!; try done. cbn. by rewrite Hr.
  - exfalso. unfold authn_request_of in Hreq. repeat case_match; simplify_eq.
Qed.

(** What crewjam's Validate promises: the endpoint is one of the provider's metadata. *)
Definition AcsLaw : Prop := forall idp q f r, authn_request idplib idp q f = Some r ->
  exists b, (b, ar_ACS r) ∈ AssertionConsumerServices (idp_SP idp).
Lemma idp_endpoints env host code cfg key cert idp : newIDP lib url_parse env host code cfg key cert = Some idp ->
  AssertionConsumerServices (idp_SP idp) = [(HTTPPostBinding, ACSURL cfg)] /\ idp_Key idp = key /\ idp_Certificate idp = cert
  /\ EntityID (idp_SP idp) = SPEntityID cfg.
Proof.
  unfold newIDP, buildIdentityProvider, spEntityDescriptor. intros H.
  destruct (bool_decide (SPCert cfg = ""%string)); [|destruct (pemCertBytes lib _) as [der|]; [cbn in H; destruct (x509_key lib der); [|done] | done]];
    cbn in H; (destruct (negb _); [done|]); (destruct (negb _); [done|]); by simplify_eq.
Qed.
Lemma request_endpoint env host code cfg key cert idp req now id relay areq : AcsLaw ->
  newIDP lib url_parse env host code cfg key cert = Some idp -> authn_request_of idplib idp req now id relay = inl areq ->
  ar_ACS areq = ACSURL cfg.
Proof.
  intros Hlaw Hidp. apply idp_endpoints in Hidp as (Hacs & _). unfold authn_request_of, post_acs. rewrite Hacs.
  destruct (_ && _).
  - destruct (authn_request _ _ _ _) as [r|] eqn:Hr; [|done]. intros [= <-]. destruct (Hlaw _ _ _ _ Hr) as [b Hb].
    rewrite Hacs in Hb. by apply list_elem_of_singleton in Hb as [= _ ->].
  - cbn. by intros [= <-].
Qed.

(** The confirmation of a login of this user to this application. *)
Definition confirmation (r : CRedis) (token : string) (uid aid : Z) : Prop :=
  exists e, peek (rkeys r) (rclock r) (confirmPrefix +:+ token) = Some e /\ rval e = RStr (VText (confirmValue uid aid)).
Lemma index_Record_other u a ref ttl (r : CRedis) k : k <> sloKey u a -> k <> sloUserKey u ->
  rkeys (index_Record ref_json u a ref ttl r).1 !! k = rkeys r !! k.
Proof.
  intros H1 H2. unfold index_Record, checked, call, EXEC. destruct (command _ r) as [r' x] eqn:Hr.
  transitivity (rkeys r' !! k); [by destruct x|]. eapply (command_other (fun k => k = sloKey u a \/ k = sloUserKey u)); [|exact Hr | naive_solver].
  apply multi_only. repeat constructor; eauto with mxid.
Qed.
Lemma index_Record_clock u a ref ttl (r : CRedis) : rclock (index_Record ref_json u a ref ttl r).1 = rclock r.
Proof.
  unfold index_Record, checked, call, EXEC. destruct (command _ r) as [r' x] eqn:Hr. apply command_inv in Hr as (Hc & _).
  rewrite <- Hc. by destruct x.
Qed.
Lemma confirm_not_index tok u a : confirmPrefix +:+ tok <> sloKey u a /\ confirmPrefix +:+ tok <> sloUserKey u.
Proof. by split. Qed.

(** What an answer with an assertion passed, from the session on. *)
Lemma assert_user_inv env req d app sess id relay w w' idp areq cs :
  assert_as env req d app sess id relay w = (w', Ok (PostAssertion idp areq cs)) ->
  exists user rs gs,
    (forall check, env_CheckAppAccess env = Some check -> exists reason, check (UserID sess) (sa_ID app) (TenantID sess) = Some (true, reason))
    /\ env_ResolveUser env (TenantID sess) (UserID sess) = Some user
    /\ let cfg := parseSAMLConfig (sa_ProtocolConfig app) in
       emit env req d app (UserID sess) cfg id relay (name_id sha256_hex32 env cfg app user)
         (saml_attributes map_order sha256_hex32 env cfg app user) rs gs w = (w', Ok (PostAssertion idp areq cs)).
Proof.
  unfold assert_user. intros H.
  destruct (match env_CheckAppAccess env with Some _ => _ | None => _ end) as [[[] reason]|] eqn:Hv; [|unfold ret in H; simplify_eq..].
  destruct (env_ResolveUser _ _ _) as [user|]; [|unfold ret in H; simplify_eq].
  eexists user, _, _. split_and!; [|done | exact H]. intros check Hc. rewrite Hc in Hv. by exists reason.
Qed.

(** The same up to the session, where the confirmation has been looked at. *)
Lemma process_inv env req d id relay w w' idp areq cs : process env req d id relay w = (w', Ok (PostAssertion idp areq cs)) ->
  exists app sess w2,
    env_GetApp env (h_app_code req) = Some app /\ sa_Status app = 1 /\ signed_in w req sess
    /\ assert_as env req d app sess id relay w2 = (w', Ok (PostAssertion idp areq cs))
    /\ (id <> ""%string -> confirmation (w_store w) (Query (h_query req) "sso_confirm") (UserID sess) (sa_ID app)
          /\ rkeys (w_store w2) !! (confirmPrefix +:+ Query (h_query req) "sso_confirm") = None).
Proof.
  unfold processSSO. intros Hp. destruct (env_GetApp _ _) as [app|]; [|unfold ret in Hp; simplify_eq].
  destruct (Z.eqb_spec (sa_Status app) 1) as [Hst|]; cbn [negb] in Hp; [|unfold ret in Hp; simplify_eq].
  unfold bind in Hp. destruct (resolve_session req w) as [w1 y] eqn:Hsess. apply resolve_session_inv in Hsess as (Hf & [s ->] & Hh).
  destruct s as [sess|]; [|unfold ret in Hp; simplify_eq]. specialize (Hh _ eq_refl). destruct Hf as (Hst1 & _ & _).
  exists app, sess. revert Hp. case_bool_decide as He; [intros Hp; exists w1; by split_and!|].
  case_bool_decide; [unfold ret, writeSAMLError; intros Hp; repeat case_match; simplify_eq|].
  unfold in_store. destruct (Consume _ _ _ _) as [r y] eqn:Hc. destruct y as [[]|]; [|unfold ret; intros; simplify_eq..].
  intros Hp. eexists. split_and!; [done.. | exact Hp|]. intros _. apply CasFlows.Consume_true in Hc as (_ & Hk & e & He').
  rewrite Hst1 in *. split; [by eexists; split; [exact He'|]|]. cbn. by rewrite Hk, lookup_delete_eq.
Qed.

(** C18: an assertion is posted only for an enabled application, to its registered endpoint and under its
    own key, with the subject of a user whose session one of the two cookies names and the access
    policy admits; when the provider asked for the login, a confirmation of it by that user for
    that application was there, and is used up. *)
Theorem assertion_is_warranted ep env req d w w' idp areq cs :
  AcsLaw -> serve ep env req d w = (w', Ok (PostAssertion idp areq cs)) ->
  exists app sess user key cert id,
    let cfg := parseSAMLConfig (sa_ProtocolConfig app) in
    env_GetApp env (h_app_code req) = Some app /\ sa_Status app = 1
    /\ signed_in w req sess
    /\ request_id ep req = Some id
    /\ (id <> ""%string -> confirmation (w_store w) (Query (h_query req) "sso_confirm") (UserID sess) (sa_ID app)
          /\ ~ confirmation (w_store w') (Query (h_query req) "sso_confirm") (UserID sess) (sa_ID app))
    /\ (forall check, env_CheckAppAccess env = Some check -> exists reason, check (UserID sess) (sa_ID app) (TenantID sess) = Some (true, reason))
    /\ env_ResolveUser env (TenantID sess) (UserID sess) = Some user
    /\ loadKeyAndCert lib idplib env (sa_ID app) = Some (key, cert) /\ idp_Key idp = Some key
    /\ ar_ACS areq = ACSURL cfg
    /\ cs_NameID cs = name_id sha256_hex32 env cfg app user.
Proof.
  intros Hlaw Hs. apply serve_process in Hs as [(id & relay & Hid & Hp)|[_ ?]]; [|done].
  apply process_inv in Hp as (app & sess & w2 & Happ & Hst & Hh & Ha & Hconf).
  apply assert_user_inv in Ha as (user & rs & gs & Hacc & Hu & Hem). cbn zeta in Hem.
  apply emit_inv in Hem as (key & cert & now & Hk & Hidp & Hreq & Hn & _ & ->).
  exists app, sess, user, key, cert, id. cbn zeta. split_and!; try done.
  - intros Hne. destruct (Hconf Hne) as [H1 H2]. split; [done|]. intros (e & Hp' & _). apply peek_Some in Hp' as [Hp' _]. cbn in Hp'.
    destruct (confirm_not_index (Query (h_query req) "sso_confirm") (UserID sess) (sa_ID app)). rewrite index_Record_other in Hp' by done. congruence.
  - by apply idp_endpoints in Hidp as (_ & -> & _).
  - by eapply request_endpoint.
Qed.
End Sso.

(** ** Where a logout lands *)

Section Slo.
Context {Pub Priv : Type} (lib : SamlLib Pub Priv) (idplib : IdpLib Priv).
Context (url_parse : string -> option CasHandler.URL) (Hostname : CasHandler.URL -> string) (EqualFold : string -> string -> bool).

Abbreviation log_out := (slo lib idplib url_parse Hostname EqualFold).

(** The application the request is addressed to, and its answer: a signed response at its logout address. *)
Definition answered_at (env : SamlEnv) (req : SamlHttp) (loc : string) : Prop :=
  exists app key cert xml rs q,
    let cfg := parseSAMLConfig (sa_ProtocolConfig app) in
    env_GetApp env (h_app_code req) = Some app /\ SLOURL cfg <> ""%string /\ loadKeyAndCert lib idplib env (sa_ID app) = Some (key, cert)
    /\ signRedirectQuery lib "SAMLResponse" xml rs key = Some q /\ loc = with_query (SLOURL cfg) q.
(** The address is at the host of one the provider named in the request has registered, over TLS unless it is this machine. *)
Definition bound_to_provider (env : SamlEnv) (req : SamlHttp) (loc : string) : Prop :=
  exists app target registered u,
    let cfg := parseSAMLConfig (sa_ProtocolConfig app) in
    lookupSLOIssuer lib env req = Some app /\ url_parse loc = Some target
    /\ registered ∈ [SLOURL cfg; ACSURL cfg] /\ url_parse registered = Some u /\ CasHandler.Host u <> ""%string
    /\ EqualFold (CasHandler.Host u) (CasHandler.Host target) = true /\ EqualFold (CasHandler.Scheme u) (CasHandler.Scheme target) = true
    /\ (CasHandler.Scheme target = "https"%string
        \/ (CasHandler.Scheme target = "http"%string /\ Hostname target ∈ ["localhost"; "127.0.0.1"; "::1"]%string)).

Lemma response_redirect_inv env req d now rs loc : sloResponseRedirect lib idplib env req d now rs = Some loc -> answered_at env req loc.
Proof.
  unfold sloResponseRedirect. case_bool_decide; [done|]. destruct (extractRequestID _ _) as [id|]; [|done]. cbn [mbind option_bind].
  destruct (env_GetApp _ _) as [app|] eqn:Happ; [|done]. cbn [mbind option_bind]. case_bool_decide as Hslo; [done|].
  destruct (loadKeyAndCert _ _ _ _) as [[key cert]|] eqn:Hk; [|done]. cbn [mbind option_bind]. unfold buildLogoutResponseRedirect.
  destruct (xml_response _ _) as [xml|]; [|done]. cbn [mbind option_bind]. destruct (signRedirectQuery _ _ _ _ _) as [q|] eqn:Hq; [|done].
  intros [= <-]. by exists app, key, cert, xml, rs, q.
Qed.
Lemma safe_redirect_inv raw target : isSafeSLORedirect url_parse Hostname raw = true -> url_parse raw = Some target ->
  CasHandler.Scheme target = "https"%string
  \/ (CasHandler.Scheme target = "http"%string /\ Hostname target ∈ ["localhost"; "127.0.0.1"; "::1"]%string).
Proof.
  unfold isSafeSLORedirect. intros H Hu. rewrite Hu in H. case_bool_decide; [done|]. destruct (_ || _); [done|].
  case_bool_decide; [by left|]. case_bool_decide; [|done]. apply bool_decide_eq_true in H. by right.
Qed.
Lemma allowed_redirect_inv env req rs : isAllowedSLORedirect lib url_parse Hostname EqualFold env req rs = true -> bound_to_provider env req rs.
Proof.
  unfold isAllowedSLORedirect. destruct (url_parse rs) as [target|] eqn:Hu; [|done].
  destruct (isSafeSLORedirect _ _ _) eqn:Hs; [|done]. destruct (lookupSLOIssuer _ _ _) as [app|] eqn:Happ; [|done]. cbn [negb].
  rewrite existsb_exists. intros (registered & Hin & Hr). apply list_elem_of_In in Hin. unfold registered_host in Hr.
  destruct (url_parse registered) as [u|] eqn:Hru; [|done]. to_prop. exists app, target, registered, u. split_and!; try done.
  by eapply safe_redirect_inv.
Qed.

(** The signature of the provider covers the request that was read. *)
Definition signed_by_provider (req : SamlHttp) (cfg : SAMLConfig) : Prop :=
  exists pub sig reqRaw rsRaw algRaw,
    rsaPublicKeyFromCertPEM lib (SPCert cfg) = Some pub /\ rsa_verify lib pub (signed_octets reqRaw rsRaw algRaw) sig = true
    /\ QueryUnescape reqRaw = Some (Query (h_query req) "SAMLRequest").

(** C19: a logout over the redirect binding redirects only to the logout address of the application it
    is addressed to, with a response under its key, or to an address at a host the provider named in
    the request has registered; and when the application has a certificate on file, the request was
    signed by its key, or nothing has happened. *)
Theorem logout_lands_at_the_provider env req d w w' reply :
  log_out env req d w = (w', Ok reply) ->
  match reply with
  | RedirectTo loc => answered_at env req loc \/ bound_to_provider env req loc
  | Refused http num _ => w' = w /\ http = 400 /\ num = 40008
  | LoggedOut => True
  | _ => False
  end
  /\ (forall app, env_GetApp env (h_app_code req) = Some app -> Query (h_query req) "SAMLRequest" <> ""%string ->
       let cfg := parseSAMLConfig (sa_ProtocolConfig app) in SPCert cfg <> ""%string -> signed_by_provider req cfg \/ w' = w).
Proof.
  unfold slo. destruct (verifySPLogoutRequestSig _ _ _) eqn:Hv; cbn [negb].
  2:{ unfold ret. intros [= <- <-]. split; [done|]. intros. by right. }
  intros Hr. split.
  - apply bind_ok in Hr as (u & w1 & _ & Hr). unfold bind, clock, gets in Hr. cbn in Hr.
    destruct (sloResponseRedirect _ _ _ _ _ _ _) as [loc|] eqn:Hl.
    + unfold ret in Hr. simplify_eq. left. by eapply response_redirect_inv.
    + destruct (_ && _) eqn:Ha; unfold ret in Hr; simplify_eq; [|done]. apply andb_true_iff in Ha as [_ Ha]. right. by apply allowed_redirect_inv.
  - intros app Happ Hq Hc. left. unfold verifySPLogoutRequestSig in Hv. rewrite bool_decide_eq_false_2, Happ, bool_decide_eq_false_2 in Hv by done.
    destruct (verifyRedirectSignature _ _ _) eqn:Hs; [done|].
    destruct (verified_inv _ _ _ Hs) as (pub & sigRaw & sig & reqRaw & algRaw & Hpub & _ & _ & Hreq & _ & _ & Hrsa).
    exists pub, sig, reqRaw, (parseRawRedirectParam (h_query req) "RelayState"), algRaw. split_and!; [done..|].
    apply parseRaw_Some in Hreq. by destruct (Query_one _ _ _ Hreq).
Qed.

(** Without a request in the query nothing is checked, and the session of the cookie is gone. *)
Lemma logout_without_request env req d w :
  fine (w_sessions w) -> Query (h_query req) "SAMLRequest" = ""%string -> h_proto_sid req <> ""%string ->
  rkeys (w_sessions (log_out env req d w).1) !! sessionKey NamespaceProtocol (h_proto_sid req) = None.
Proof.
  intros Hf Hq Hs. unfold slo, verifySPLogoutRequestSig. rewrite bool_decide_eq_true_2 by done. cbn [negb].
  rewrite (bool_decide_eq_true_2 (h_proto_sid req <> _)) by done. unfold bind, best_effort, attempt, DeleteSSOSession, in_sessions, DEL.
  rewrite (command_fine _ _ Hf). cbn. repeat case_match; cbn; apply lookup_delete_eq.
Qed.
End Slo.
