(* ===== verification/GlobalLogout.v ===== *)
(** * GlobalLogout: telling every application that a user has left

    src/internal/protocol/oidclogout (participation.go, service.go) and the fan-out that
    src/app/run.go installs with SetGlobalLogout, over the indexes of Saml.v and CasTickets.v and
    the sessions of Session.v. Sending is left out: what is told to whom is the result. *)

From stdpp Require Import sorting.
From Stdlib Require Import Ascii.
From S2P Require CasHandler CasFlows.
From S2P Require Import SessionProps CasTickets Session.
From S2P Require Import Redis Prelude Text SamlRedirect Saml SamlProps.
#[global] Open Scope Z_scope.

(** ** participation.go *)

Definition ssoAppsPrefix : string := "mxid:sso:apps:".
(** A pipeline without a transaction: both commands are sent; the first error is reported. *)
Definition Track (sid : string) (appID ttl : Z) : CasTickets.Op unit :=
  if bool_decide (sid = ""%string) then ret tt else
  let key := ssoAppsPrefix +:+ sid in
  call (SADD key (dec appID)) (fun x =>
    let answer := match x with Ok _ => ret tt | Err e => throw (ErrStore e) end in
    if 0 <? ttl then call (EXPIRE key ttl) (fun y => match x, y with Ok _, Err e => throw (ErrStore e) | _, _ => answer end) else answer).
Definition readMembers (key : string) : CasTickets.Op (list Z) :=
  call (SMEMBERS key) (fun x =>
    match x with
    | Err RErrNil => ret []
    | Err e => throw (ErrStore e)
    | Ok members => ret (filter (fun id => id <> 0) (omap undec members))
    end).
Definition Peek (sid : string) : CasTickets.Op (list Z) :=
  if bool_decide (sid = ""%string) then ret [] else readMembers (ssoAppsPrefix +:+ sid).
(** Reads and removes: whether the removal worked is not looked at. *)
Definition List_apps (sid : string) : CasTickets.Op (list Z) :=
  if bool_decide (sid = ""%string) then ret [] else
  let! ids := readMembers (ssoAppsPrefix +:+ sid) in
  call (DEL (ssoAppsPrefix +:+ sid)) (fun _ => ret ids).

(** ** service.go *)

Section Oidc.
Context (m : Manager) (policy : Policy).

(** What is to be sent: the application and the session it is told of. *)
Fixpoint collect (sessions : list Session) : Saml.Op (list (Z * string)) :=
  match sessions with
  | [] => ret []
  | sess :: rest =>
      in_store (List_apps (ID sess)) (fun x =>
        let appIDs := match x with Ok ids => ids | Err _ => [] end in
        let! others := collect rest in ret (((fun appID => (appID, ID sess)) <$> appIDs) ++ others))
  end.
Definition LogoutUser (userID : Z) : Saml.Op (list (Z * string)) :=
  attempt (in_sessions (ListByUser m policy NamespaceProtocol userID)) (fun x =>
    match x with Ok sessions => collect sessions | Err _ => ret [] end).
Fixpoint collect_app (appID : Z) (sessions : list Session) : Saml.Op (list (Z * string)) :=
  match sessions with
  | [] => ret []
  | sess :: rest =>
      in_store (Peek (ID sess)) (fun x =>
        let appIDs := match x with Ok ids => ids | Err _ => [] end in
        let! others := collect_app appID rest in ret (if bool_decide (appID ∈ appIDs) then (appID, ID sess) :: others else others))
  end.
Definition LogoutUserApp (userID appID : Z) : Saml.Op (list (Z * string)) :=
  attempt (in_sessions (ListByUser m policy NamespaceProtocol userID)) (fun x =>
    match x with Ok sessions => collect_app appID sessions | Err _ => ret [] end).
End Oidc.

(** The logout token of one application. The sender runs on a background context: no tenant is pinned. *)
Record OidcApp : Type := mkOidcApp {
  oa_ClientID : string; oa_SubjectStrategy : string; BackchannelLogoutURI : string; BackchannelLogoutSessionRequired : bool
}.
Record LogoutTokenClaims : Type := mkLogoutTokenClaims { lc_Issuer : string; Audience : string; lc_Subject : string; SID : string }.
Record OidcEnv : Type := mkOidcEnv {
  oe_GetAppByID : Z -> option OidcApp; oe_ResolveUser : Z -> Z -> option SamlIdentity; oe_GetTenantCode : Z -> string; oe_issuer : string
}.
(** tenantscope refuses to read a user when no tenant is pinned. *)
Definition resolve_scoped (env : OidcEnv) (scope : option Z) (userID : Z) : option SamlIdentity :=
  match scope with Some t => oe_ResolveUser env t userID | None => None end.
Definition resolveSubject (sha256_hex32 : string -> string) (env : OidcEnv) (scope : option Z) (app : OidcApp) (userID : Z) : string :=
  let fallback := dec userID in
  match resolve_scoped env scope userID with
  | None => fallback
  | Some idn =>
      let tenantCode := if 0 <? si_TenantID idn then oe_GetTenantCode env (si_TenantID idn) else ""%string in
      match CasHandler.ResolveSubject sha256_hex32 (oa_SubjectStrategy app)
              (CasHandler.mkSubjectInput (si_ID idn) (si_Username idn) (si_Email idn) (si_TenantID idn) tenantCode (oa_ClientID app)) with
      | Some out => if bool_decide (CasHandler.Subject out = ""%string) then fallback else CasHandler.Subject out
      | None => fallback
      end
  end.
Definition sendLogout (sha256_hex32 : string -> string) (env : OidcEnv) (appID userID : Z) (sid : string) : option (string * LogoutTokenClaims) :=
  match oe_GetAppByID env appID with
  | None => None
  | Some app =>
      if bool_decide (oa_ClientID app = ""%string) then None else
      if bool_decide (BackchannelLogoutURI app = ""%string) then None else
      Some (BackchannelLogoutURI app,
            mkLogoutTokenClaims (oe_issuer env) (oa_ClientID app) (resolveSubject sha256_hex32 env None app userID)
              (if BackchannelLogoutSessionRequired app then sid else ""%string))
  end.

(** ** The fan-out of run.go *)

Inductive Notice : Type :=
| ToClient (appID : Z) (sid : string)
| ToProvider (target : string)
| ToService (target : CasHandler.sloTarget).

Section FanOut.
Context {Pub Priv : Type} (lib : SamlLib Pub Priv) (idplib : IdpLib Priv).
Context (ref_unjson : string -> option SAMLSessionRef) (cas_unjson : string -> option CASServiceRef).
Context (m : Manager) (policy : Policy).

(** [for _, appID := range apps] *)
Fixpoint each {A} (f : Z -> Saml.Op (list A)) (apps : list Z) : Saml.Op (list A) :=
  match apps with
  | [] => ret []
  | appID :: rest => let! l := f appID in let! l' := each f rest in ret (l ++ l')
  end.
(** A failing enumeration means nobody of that protocol is told. *)
Definition fan_out {A} (apps : CasTickets.Op (list Z)) (f : Z -> Saml.Op (list A)) : Saml.Op (list A) :=
  in_store apps (fun x => match x with Ok l => each f l | Err _ => ret [] end).
Definition GlobalLogout (env : SamlEnv) (cas_env : CasHandler.Env) (hex : Z -> nat -> string) (userID : Z) : Saml.Op (list Notice) :=
  let! clients := LogoutUser m policy userID in
  let! providers := fan_out (index_AppsForUser userID) (fun appID => IdPInitiatedLogout lib idplib ref_unjson env (hex appID) userID appID) in
  let! services := fan_out (CasTickets.AppsForUser userID)
    (fun appID => in_store (CasHandler.SingleLogout cas_unjson cas_env userID appID) (fun x => ret (match x with Ok l => l | Err _ => [] end))) in
  ret (((fun '(a, sid) => ToClient a sid) <$> clients) ++ (ToProvider <$> providers) ++ (ToService <$> services)).
End FanOut.

(** ** An index per user over sets per user and application

    [key u a] holds what was handed to application [a] for user [u], [ukey u] the applications of
    [u]. SAML and CAS keep one each. *)

Section Participation.
Context (key : Z -> Z -> string) (ukey : Z -> string).
Class IndexKeys : Prop := {
  key_inj : forall u a u' a', key u a = key u' a' -> u = u' /\ a = a';
  ukey_inj : forall u u', ukey u = ukey u' -> u = u';
  key_ukey : forall u a u', key u a <> ukey u'
}.
Context `{!IndexKeys}.
Abbreviation Keys := (gmap string (RKey CasVal)).
Implicit Types ks : Keys.

Definition record_commands (u a : Z) (member : string) (ttl : Z) : list (Keys -> Z -> Keys * res RErr unit) :=
  [ sadd_f (key u a) member; expire_f (key u a) ttl; sadd_f (ukey u) (dec a); expire_f (ukey u) ttl ].
Definition delete_commands (u a : Z) : list (Keys -> Z -> Keys * res RErr unit) := [ del_f (key u a); srem_f (ukey u) (dec a) ].
Definition index_key (k : string) : Prop := exists u a, k = key u a \/ k = ukey u.

Definition set_of (e : RKey CasVal) : gset string := match rval e with RSet s => s | _ => ∅ end.
Definition live_set ks now k : gset string := match peek ks now k with Some e => set_of e | None => ∅ end.
Definition all_sets ks : Prop := forall k e, index_key k -> ks !! k = Some e -> exists s d, e = mkRKey (RSet s) (Some d).

Lemma sadd_expire_run ks now k member ttl : index_key k -> all_sets ks ->
  (expire_f k ttl (sadd_f k member ks now).1 now).1 = <[k := mkRKey (RSet ({[ member ]} ∪ live_set ks now k)) (Some (now + ex ttl))]> ks.
Proof.
  intros Hk Hs. unfold sadd_f, live_set. destruct (peek ks now k) as [e|] eqn:Hp.
  - apply peek_Some in Hp as [He Ha]. destruct (Hs _ _ Hk He) as (s & d & ->). cbn. unfold expire_f.
    rewrite peek_insert_eq by done. cbn. by rewrite insert_insert_eq.
  - cbn. unfold expire_f. rewrite peek_insert_eq by done. cbn. rewrite insert_insert_eq. do 3 f_equal. set_solver.
Qed.
Lemma insert_all_sets ks k s d : all_sets ks -> all_sets (<[k := mkRKey (RSet s) (Some d)]> ks).
Proof.
  intros Hs k' e Hk' He. destruct (decide (k = k')) as [->|Hne].
  - rewrite lookup_insert_eq in He. simplify_eq. by eexists _, _.
  - rewrite lookup_insert_ne in He by done. by eapply Hs.
Qed.
Lemma peek_insert_other ks now k k' e : k <> k' -> live_set (<[k := e]> ks) now k' = live_set ks now k'.
Proof. intros Hne. unfold live_set. by rewrite peek_insert_ne. Qed.
Lemma record_run ks now u a member ttl : all_sets ks ->
  (multi (record_commands u a member ttl) ks now).1
  = <[ukey u := mkRKey (RSet ({[ dec a ]} ∪ live_set ks now (ukey u))) (Some (now + ex ttl))]>
      (<[key u a := mkRKey (RSet ({[ member ]} ∪ live_set ks now (key u a))) (Some (now + ex ttl))]> ks).
Proof.
  intros Hs. assert (index_key (key u a)) as Hk by (exists u, a; by left). assert (index_key (ukey u)) as Hu by (exists u, a; by right).
  pose proof (sadd_expire_run ks now (key u a) member ttl Hk Hs) as E1.
  unfold record_commands. cbn [multi].
  destruct (sadd_f (key u a) member ks now) as [ks1 x1]. cbn [fst] in E1. destruct (expire_f (key u a) ttl ks1 now) as [ks2 x2]. cbn [fst] in E1. subst ks2.
  set (ks2 := <[key u a := _]> ks).
  pose proof (sadd_expire_run ks2 now (ukey u) (dec a) ttl Hu ltac:(by apply insert_all_sets)) as E2.
  destruct (sadd_f (ukey u) (dec a) ks2 now) as [ks3 x3]. cbn [fst] in E2. destruct (expire_f (ukey u) ttl ks3 now) as [ks4 x4]. cbn [fst] in *. subst ks4.
  unfold ks2. by rewrite peek_insert_other by (apply key_ukey).
Qed.

(** Every live set is named in a live index of its user. [T]: the life of an entry. *)
Record covered (T : Z) ks (now : Z) : Prop := mkCovered {
  cov_sets : all_sets ks;
  cov_life : forall u a s d, ks !! key u a = Some (mkRKey (RSet s) (Some d)) -> d <= now + T;
  cov_named : forall u a s d, ks !! key u a = Some (mkRKey (RSet s) (Some d)) -> now < d ->
    exists su du, ks !! ukey u = Some (mkRKey (RSet su) (Some du)) /\ dec a ∈ su /\ d <= du
}.

Lemma covered_later T ks now now' : now <= now' -> covered T ks now -> covered T ks now'.
Proof.
  intros Hle [H1 H2 H3]. split; [done | |].
  - intros u a s d Hk. apply H2 in Hk. lia.
  - intros u a s d Hk Hd. apply (H3 u a s d Hk). lia.
Qed.
Lemma covered_same T ks ks' now : (forall k, index_key k -> ks' !! k = ks !! k) -> covered T ks now -> covered T ks' now.
Proof.
  intros Hsame [H1 H2 H3].
  assert (forall u a, ks' !! key u a = ks !! key u a) as Ek by (intros u a; apply Hsame; exists u, a; by left).
  assert (forall u, ks' !! ukey u = ks !! ukey u) as Eu by (intros u; apply Hsame; exists u, 0; by right).
  split.
  - intros k e Hk He. rewrite Hsame in He by done. by eapply H1.
  - intros u a s d. rewrite Ek. apply H2.
  - intros u a s d. rewrite Ek, Eu. apply H3.
Qed.
Lemma covered_record ks now u a member ttl : 0 < ex ttl -> covered (ex ttl) ks now ->
  covered (ex ttl) (multi (record_commands u a member ttl) ks now).1 now.
Proof.
  intros Hpos [H1 H2 H3]. rewrite record_run by done. split.
  - by do 2 apply insert_all_sets.
  - intros u' a' s d. rewrite lookup_insert_ne by (intros E; by apply (key_ukey u' a' u)).
    destruct (decide (key u a = key u' a')) as [->|Hne]; [rewrite lookup_insert_eq; intros; simplify_eq; lia|].
    rewrite lookup_insert_ne by done. apply H2.
  - intros u' a' s d. rewrite lookup_insert_ne by (intros E; by apply (key_ukey u' a' u)).
    destruct (decide (key u a = key u' a')) as [E|Hne].
    + apply key_inj in E as [<- <-]. rewrite !lookup_insert_eq. intros Hk _. simplify_eq.
      eexists _, _. split_and!; [done | set_solver | done].
    + rewrite lookup_insert_ne by done. intros Hk Hd. destruct (H3 _ _ _ _ Hk Hd) as (su & du & Hu & Hin & Hle).
      destruct (decide (u = u')) as [<-|Hu'].
      * rewrite lookup_insert_eq. eexists _, _. split_and!; [done | | by eapply H2].
        apply elem_of_union_r. unfold live_set. assert (peek ks now (ukey u) = Some (mkRKey (RSet su) (Some du))) as ->; [|done].
        apply peek_Some. split; [done|]. cbn. apply Z.ltb_lt. lia.
      * rewrite !lookup_insert_ne by (first [by intros E; apply ukey_inj in E | apply key_ukey]). by exists su, du.
Qed.
Lemma covered_delete T ks now u a : covered T ks now -> covered T (multi (delete_commands u a) ks now).1 now.
Proof.
  intros [H1 H2 H3]. unfold delete_commands. cbn [multi del_f]. set (ks1 := delete (key u a) ks).
  assert (forall ks', (srem_f (ukey u) (dec a) ks1 now).1 = ks' -> covered T ks' now) as Hsrem; [|destruct (srem_f _ _ _ _) as [ks2 y] eqn:E; cbn; by apply Hsrem].
  assert (all_sets ks1) as Hs1. { intros k e Hk He. apply lookup_delete_Some in He as [_ He]. by eapply H1. }
  assert (ks1 !! ukey u = ks !! ukey u) as Eu by (apply lookup_delete_ne, key_ukey).
  intros ks' <-. unfold srem_f. destruct (peek ks1 now (ukey u)) as [e|] eqn:Hp; cbn.
  2:{ split; [done | |].
      - intros u' a' s d Hk. apply lookup_delete_Some in Hk as [_ Hk]. by eapply H2.
      - intros u' a' s d Hk Hd. apply lookup_delete_Some in Hk as [_ Hk]. destruct (H3 _ _ _ _ Hk Hd) as (su & du & Hu & Hin & Hle).
        exists su, du. split_and!; try done. unfold ks1. by rewrite lookup_delete_ne by apply key_ukey. }
  apply peek_Some in Hp as [He Ha]. assert (index_key (ukey u)) as Hix by (exists u, a; by right).
  destruct (Hs1 _ _ Hix He) as (s0 & d0 & ->). cbn.
  set (f := fun x : Keys => if decide (s0 ∖ {[dec a]} = ∅) then delete (ukey u) x else <[ukey u := mkRKey (RSet (s0 ∖ {[dec a]})) (Some d0)]> x).
  change (covered T (f ks1) now).
  assert (forall k, k <> ukey u -> f ks1 !! k = ks1 !! k) as Hf.
  { intros k Hne. unfold f. destruct (decide _); [by rewrite lookup_delete_ne | by rewrite lookup_insert_ne]. }
  split.
  - unfold f. destruct (decide _); [intros k e1 Hk1 Hl; apply lookup_delete_Some in Hl as [_ Hl]; by eapply Hs1 | by apply insert_all_sets].
  - intros u' a' s d Hk. rewrite Hf in Hk by apply key_ukey. apply lookup_delete_Some in Hk as [_ Hk]. by eapply H2.
  - intros u' a' s d Hk Hd. rewrite Hf in Hk by apply key_ukey. apply lookup_delete_Some in Hk as [Hne Hk].
    destruct (H3 _ _ _ _ Hk Hd) as (su & du & Hu & Hin & Hle). destruct (decide (u = u')) as [<-|Hu'].
    + rewrite Eu in He. rewrite He in Hu. simplify_eq. assert (dec a' <> dec a) as Hda. { intros E. apply dec_inj in E as ->. done. }
      exists (su ∖ {[dec a]}), du. unfold f. rewrite decide_False by set_solver. rewrite lookup_insert_eq. split_and!; [done | set_solver | done].
    + exists su, du. rewrite Hf by (intros E; by apply ukey_inj in E). unfold ks1. rewrite lookup_delete_ne by apply key_ukey. by split_and!.
Qed.

(** *** Histories: any entries of the one life, removals, other keys, failures and time *)

Inductive index_step (ttl : Z) : CRedis -> CRedis -> Prop :=
| step_record r u a member : index_step ttl r (EXEC (record_commands u a member ttl) r).1
| step_delete r u a : index_step ttl r (EXEC (delete_commands u a) r).1
| step_other r r' : rclock r <= rclock r' -> (forall k, index_key k -> rkeys r' !! k = rkeys r !! k) -> index_step ttl r r'.
Definition index_inv (T : Z) (r : CRedis) : Prop := covered T (rkeys r) (rclock r).

Lemma index_inv_exec T (f : Keys -> Z -> Keys * res RErr unit) (r : CRedis) :
  (forall ks now, covered T ks now -> covered T (f ks now).1 now) -> index_inv T r -> index_inv T (command f r).1.
Proof.
  intros Hf Hi. destruct (command f r) as [r' x] eqn:Hr. apply command_inv in Hr as (Hc & _ & Hk). unfold index_inv in *. cbn. rewrite Hc.
  destruct Hk as [[-> _]|(_ & _ & [->| ->])]; auto.
Qed.
Lemma index_step_inv ttl r r' : 0 < ex ttl -> index_step ttl r r' -> index_inv (ex ttl) r -> index_inv (ex ttl) r'.
Proof.
  intros Hpos [r0 u a member|r0 u a|r0 r1 Hc Hk] Hi.
  - apply index_inv_exec; [|done]. intros ks now. by apply covered_record.
  - apply index_inv_exec; [|done]. intros ks now. apply covered_delete.
  - eapply covered_same; [exact Hk | by eapply covered_later].
Qed.
Lemma index_reach_inv ttl r r' : 0 < ex ttl -> rtc (index_step ttl) r r' -> index_inv (ex ttl) r -> index_inv (ex ttl) r'.
Proof. intros Hpos Hr. induction Hr as [|x y z Hs _ IH]; [done|]. intros Hi. by eapply IH, index_step_inv. Qed.
Lemma empty_index_inv T r : rkeys r = ∅ -> index_inv T r.
Proof. intros He. unfold index_inv. rewrite He. split; [intros k e _ Hl; by rewrite lookup_empty in Hl | intros; by rewrite lookup_empty in * ..]. Qed.
End Participation.

(** ** The two indexes *)

Lemma key_split (p : string) u a u' a' : p +:+ dec u +:+ ":" +:+ dec a = p +:+ dec u' +:+ ":" +:+ dec a' -> u = u' /\ a = a'.
Proof.
  intros H. apply app_cancel_l in H. apply (app_split dec_char) in H as [Hu Ha]; [|apply dec_chars..|done]. split; by apply dec_inj.
Qed.
Lemma key_user_ne (p : string) u a u' : p +:+ dec u +:+ ":" +:+ dec a <> p +:+ "user:" +:+ dec u'.
Proof.
  intros H. apply app_cancel_l in H. pose proof (dec_chars u) as Hd. destruct (dec u) as [|c s]; simpl in *; [done|]. injection H as -> _. done.
Qed.
#[export] Instance saml_keys : IndexKeys sloKey sloUserKey.
Proof.
  split.
  - intros u a u' a'. apply (key_split "mxid:saml:slo:").
  - intros u u' H. apply (app_cancel_l "mxid:saml:slo:user:") in H. by apply dec_inj.
  - intros u a u'. apply (key_user_ne "mxid:saml:slo:").
Qed.
#[export] Instance cas_keys : IndexKeys casServiceKey casUserKey.
Proof.
  split.
  - intros u a u' a'. apply (key_split "mxid:cas:svc:").
  - intros u u' H. apply (app_cancel_l "mxid:cas:svc:user:") in H. by apply dec_inj.
  - intros u a u'. apply (key_user_ne "mxid:cas:svc:").
Qed.
Abbreviation saml_step := (index_step sloKey sloUserKey).
Abbreviation cas_step := (index_step casServiceKey casUserKey).

(** What the code runs is such a step. *)
Lemma checked_state {B} (c : M CRedis RErr B) r : (checked c r).1 = (c r).1.
Proof. unfold checked, call. destruct (c r) as [r' [a|e]]; done. Qed.
Lemma index_Record_step ref_json u a ref ttl r : saml_step ttl r (index_Record ref_json u a ref ttl r).1.
Proof. unfold index_Record. rewrite checked_state. apply step_record. Qed.
Lemma index_Delete_step u a ttl r : saml_step ttl r (index_Delete u a r).1.
Proof. unfold index_Delete. rewrite checked_state. apply step_delete. Qed.
Lemma RecordService_step ref_json u a url tk r : cas_step casSLORegistryTTL r (RecordService ref_json u a url tk casSLORegistryTTL r).1.
Proof. unfold RecordService. rewrite checked_state. apply step_record. Qed.
Lemma Clear_step u a ttl r : cas_step ttl r (Clear u a r).1.
Proof. unfold Clear. rewrite checked_state. apply step_delete. Qed.

(** ** One operation on a store that answers *)

Definition same_but (P : string -> Prop) (r r' : CRedis) : Prop :=
  rclock r' = rclock r /\ rfate r' = rfate r /\ forall k, ~ P k -> rkeys r' !! k = rkeys r !! k.
Lemma same_but_refl P r : same_but P r r.
Proof. done. Qed.
Lemma same_but_trans P r1 r2 r3 : same_but P r1 r2 -> same_but P r2 r3 -> same_but P r1 r3.
Proof. intros (C1 & F1 & K1) (C2 & F2 & K2). split_and!; [congruence.. |]. intros k Hk. by rewrite K2, K1. Qed.
Lemma same_but_weaken (P Q : string -> Prop) r r' : (forall k, P k -> Q k) -> same_but P r r' -> same_but Q r r'.
Proof. intros H (C & F & K). split_and!; try done. intros k Hk. apply K. auto. Qed.
Lemma same_but_fine P r r' : same_but P r r' -> fine r -> fine r'.
Proof. intros (_ & F & _) H n. rewrite F. apply H. Qed.
Lemma same_but_live P r r' k : same_but P r r' -> ~ P k ->
  live_set (rkeys r') (rclock r') k = live_set (rkeys r) (rclock r) k.
Proof. intros (C & _ & K) Hk. unfold live_set, peek. by rewrite C, K. Qed.
Lemma command_same {A} P (f : gmap string (RKey CasVal) -> Z -> gmap string (RKey CasVal) * res RErr A) r :
  writes_only P f -> same_but P r (command f r).1.
Proof.
  intros Hf. destruct (command f r) as [r' x] eqn:Hr. pose proof Hr as Hr'. apply command_inv in Hr' as (Hc & Hfa & _).
  split_and!; [done | done|]. intros k Hk. by eapply command_other.
Qed.

Lemma other_step key ukey ttl P r r' : same_but P r r' -> (forall k, P k -> ~ index_key key ukey k) -> index_step key ukey ttl r r'.
Proof. intros (Hc & _ & Hk) H. apply step_other; [lia|]. intros k Hi. apply Hk. intros Hp. by eapply H. Qed.
Lemma index_Record_same ref_json u a ref ttl r : same_but (fun k => k = sloKey u a \/ k = sloUserKey u) r (index_Record ref_json u a ref ttl r).1.
Proof. unfold index_Record. rewrite checked_state. apply command_same, multi_only. repeat constructor; eauto with mxid. Qed.
Lemma RecordService_same ref_json u a url tk ttl r : same_but (fun k => k = casServiceKey u a \/ k = casUserKey u) r (RecordService ref_json u a url tk ttl r).1.
Proof. unfold RecordService. rewrite checked_state. apply command_same, multi_only. repeat constructor; eauto with mxid. Qed.
Lemma Track_same sid a ttl r : same_but (fun k => k = ssoAppsPrefix +:+ sid) r (Track sid a ttl r).1.
Proof.
  unfold Track. case_bool_decide; [apply same_but_refl|]. unfold call.
  pose proof (command_same (fun k => k = ssoAppsPrefix +:+ sid) (sadd_f (ssoAppsPrefix +:+ sid) (dec a)) r ltac:(eauto with mxid)) as H1.
  unfold SADD. destruct (command _ r) as [r1 x]. cbn [fst] in H1. destruct (0 <? ttl); [|by destruct x].
  pose proof (command_same (fun k => k = ssoAppsPrefix +:+ sid) (expire_f (ssoAppsPrefix +:+ sid) ttl) r1 ltac:(eauto with mxid)) as H2.
  unfold EXPIRE. destruct (command _ r1) as [r2 y]. cbn [fst] in H2.
  replace (fst _) with r2 by (by destruct x, y). by eapply same_but_trans.
Qed.

(** The members of a set that is there. *)
Lemma smembers_live r k mem : fine r -> mem ∈ live_set (rkeys r) (rclock r) k ->
  exists r' (s : gset string), SMEMBERS k r = (r', Ok (elements s)) /\ mem ∈ s /\ same_but (fun _ => False) r r'.
Proof.
  intros Hf Hin. unfold SMEMBERS. pose proof (command_same (fun _ => False) (smembers_f k) r ltac:(eauto with mxid)) as Hs.
  rewrite (command_fine _ _ Hf) in Hs |- *. unfold smembers_f in *. unfold live_set in Hin.
  destruct (peek _ _ _) as [[v d]|]; [|set_solver]. unfold set_of in Hin. cbn in Hin. destruct v as [| |s]; [set_solver..|].
  eexists _, s. split_and!; [done | done | exact Hs].
Qed.
Lemma numbers_of (mems : gset string) a : a <> 0 -> dec a ∈ mems -> a ∈ filter (fun id => id <> 0) (omap undec (elements mems)).
Proof.
  intros Ha Hin. apply list_elem_of_filter. split; [done|]. apply list_elem_of_omap. exists (dec a).
  split; [by apply elem_of_elements | apply undec_dec].
Qed.
Lemma smembers_same k r r' x : SMEMBERS k r = (r', x) -> same_but (fun _ => False) r r'.
Proof. intros Hr. replace r' with (SMEMBERS k r).1 by (by rewrite Hr). apply command_same. eauto with mxid. Qed.
Lemma call_state {A B} (c : M CRedis RErr A) (k : res RErr A -> CasTickets.Op B) r r' x y : c r = (r', x) -> k x r' = (r', y) -> call c k r = (r', y).
Proof. intros Hc Hk. unfold call. by rewrite Hc. Qed.
Lemma apps_for_user_live u a r : fine r -> a <> 0 -> dec a ∈ live_set (rkeys r) (rclock r) (sloUserKey u) ->
  exists r' l, index_AppsForUser u r = (r', Ok l) /\ a ∈ l /\ same_but (fun _ => False) r r'.
Proof.
  intros Hf Ha Hin. destruct (smembers_live _ _ _ Hf Hin) as (r' & s & Hr & Hm & Hs). exists r'. eexists.
  unfold index_AppsForUser. split_and!; [by eapply call_state | by apply numbers_of | done].
Qed.
Lemma cas_apps_for_user_live u a r : fine r -> a <> 0 -> dec a ∈ live_set (rkeys r) (rclock r) (casUserKey u) ->
  exists r' l, CasTickets.AppsForUser u r = (r', Ok l) /\ a ∈ l /\ same_but (fun _ => False) r r'.
Proof.
  intros Hf Ha Hin. destruct (smembers_live _ _ _ Hf Hin) as (r' & s & Hr & Hm & Hs). exists r'. eexists.
  unfold CasTickets.AppsForUser. split_and!; [by eapply call_state | by apply numbers_of | done].
Qed.

(** ** The three parts of the fan-out *)

Definition world_same (P : string -> Prop) (w w' : SamlWorld) : Prop := w_sessions w' = w_sessions w /\ same_but P (w_store w) (w_store w').
Lemma world_same_trans P w1 w2 w3 : world_same P w1 w2 -> world_same P w2 w3 -> world_same P w1 w3.
Proof. intros [E1 S1] [E2 S2]. split; [congruence | by eapply same_but_trans]. Qed.

(** *** Clients *)

Definition sso_key (k : string) : Prop := exists sid, k = ssoAppsPrefix +:+ sid.
Lemma readMembers_spec k r r' x : fine r -> readMembers k r = (r', x) ->
  same_but (fun _ => False) r r' /\ forall a, a <> 0 -> dec a ∈ live_set (rkeys r) (rclock r) k -> exists l, x = Ok l /\ a ∈ l.
Proof.
  intros Hf Hr. split.
  - unfold readMembers, call in Hr. destruct (SMEMBERS k r) as [r1 y] eqn:Hs. apply smembers_same in Hs.
    destruct y as [|[]]; unfold ret, throw in Hr; simplify_eq; done.
  - intros a Ha Hin. destruct (smembers_live _ _ _ Hf Hin) as (r1 & s & Hs & Hm & _). unfold readMembers, call in Hr. rewrite Hs in Hr.
    unfold ret in Hr. simplify_eq. eexists. split; [done | by apply numbers_of].
Qed.
Lemma List_apps_spec sid r r' x : fine r -> List_apps sid r = (r', x) ->
  same_but (fun k => k = ssoAppsPrefix +:+ sid) r r'
  /\ forall a, sid <> ""%string -> a <> 0 -> dec a ∈ live_set (rkeys r) (rclock r) (ssoAppsPrefix +:+ sid) -> exists l, x = Ok l /\ a ∈ l.
Proof.
  intros Hf Hr. unfold List_apps in Hr. case_bool_decide as Hs; [unfold ret in Hr; simplify_eq; by split; [apply same_but_refl|]|].
  unfold bind in Hr. destruct (readMembers _ r) as [r1 y] eqn:H1. apply readMembers_spec in H1 as [Hs1 H1]; [|done].
  destruct y as [ids|e].
  - unfold call in Hr. destruct (DEL _ r1) as [r2 z] eqn:Hd. unfold ret in Hr. simplify_eq. split.
    + eapply same_but_trans; [by eapply same_but_weaken; [|exact Hs1]|]. replace r' with (DEL (ssoAppsPrefix +:+ sid) r1).1 by (by rewrite Hd).
      apply command_same. eauto with mxid.
    + intros a _ Ha Hin. by apply H1.
  - simplify_eq. split; [by eapply same_but_weaken; [|exact Hs1]|]. intros a _ Ha Hin. by destruct (H1 a Ha Hin) as (l & ? & _).
Qed.
Lemma collect_spec l w w' x : fine (w_store w) -> collect l w = (w', x) ->
  world_same sso_key w w' /\ exists out, x = Ok out /\
    forall sess a, sess ∈ l -> ID sess <> ""%string -> a <> 0 ->
      dec a ∈ live_set (rkeys (w_store w)) (rclock (w_store w)) (ssoAppsPrefix +:+ ID sess) -> (a, ID sess) ∈ out.
Proof.
  revert w w' x. induction l as [|s l IH]; intros w w' x Hf Hr; cbn [collect] in Hr.
  { unfold ret in Hr. simplify_eq. split; [by split|]. exists []. split; [done|]. intros sess a Hin. by apply elem_of_nil in Hin. }
  unfold in_store in Hr. destruct (List_apps (ID s) (w_store w)) as [r1 y] eqn:H1. apply List_apps_spec in H1 as [Hs1 H1]; [|done].
  unfold bind in Hr. destruct (collect l (mkSamlWorld r1 (w_sessions w))) as [w2 z] eqn:H2.
  apply IH in H2 as ([E2 Hs2] & out & -> & H2); [|by eapply same_but_fine]. cbn in E2, Hs2, H2. unfold ret in Hr. simplify_eq. split.
  - split; [done|]. eapply same_but_trans; [|exact Hs2]. eapply same_but_weaken; [|exact Hs1]. intros k ->. by eexists.
  - eexists. split; [done|]. intros sess a Hin Hne Ha Hlive. apply elem_of_app.
    destruct (decide (ID sess = ID s)) as [E|Hd].
    + left. rewrite E in *. destruct (H1 a Hne Ha Hlive) as (ids & -> & Hids). apply list_elem_of_fmap. by exists a.
    + right. apply elem_of_cons in Hin as [->|Hin]; [done|]. apply H2; try done.
      rewrite (same_but_live _ _ _ _ Hs1); [done|]. intros E. apply Hd. by apply app_cancel_l in E.
Qed.

(** A listing has every session of the user that it leaves. *)
Lemma ListByUser_spec m policy A ns u r r' x : fine r -> indexed A r -> known_ns ns -> ListByUser m policy ns u r = (r', x) ->
  shrinks A r r' /\ exists l, x = Ok l /\ forall sid sess, has r' ns sid sess -> UserID sess = u -> sess ∈ l /\ ID sess = sid.
Proof.
  intros Hf Hi Hns Hr. unfold ListByUser, bind, SMEMBERS in Hr. rewrite (command_fine _ _ Hf) in Hr. unfold smembers_f in Hr. cbn [fst snd] in Hr.
  pose proof (index_lookup A r ns u Hi Hns) as Hix.
  set (r0 := mkRedis (rkeys r) (rclock r) (rfate r) (S (rcalls r))) in *.
  assert (shrinks A r r0) as Hsh0 by by apply same_shrinks.
  assert (exists ids, list_sessions m policy ns u ids r0 = (r', x) /\ (forall id, id ∈ ids -> uuid_like id)
    /\ forall (S : gset string) d, peek (rkeys r) (rclock r) (userKey ns u) = Some (mkRKey (RSet S) d) -> forall id, id ∈ S -> id ∈ ids) as (ids & Hl & Hu & Hin).
  { destruct (peek _ _ _) as [e|]; [destruct Hix as (S & d & -> & HS)|].
    - exists (elements S). split_and!; [done | intros id; rewrite elem_of_elements; apply HS |].
      intros S' d' Heq id. simplify_eq. by rewrite elem_of_elements.
    - exists []. split_and!; [done | intros id Hn; by apply elem_of_nil in Hn | done]. }
  apply (list_sessions_spec m A) in Hl as (Hsh1 & l & -> & _ & Hmem); [|done | apply Hsh0 | done | done].
  split; [exact (shrinks_trans A _ _ _ Hsh0 Hsh1)|]. exists l. split; [done|]. intros sid sess Hh Hus.
  assert (has r ns sid sess) as Hhr by (apply Hsh0; [done|]; by apply Hsh1).
  pose proof (has_shape A r ns sid sess Hi Hns Hhr) as (_ & Hid & _). split; [|done].
  pose proof Hi as (_ & _ & Hidx). destruct (Hidx _ _ _ Hhr Hns) as (S & dx & HS & Hs & Hle). apply (Hmem sid); [|done].
  apply (Hin S (Some dx)); [|done]. rewrite Hus in HS. apply peek_Some. split; [done|]. cbn. apply Z.ltb_lt. destruct Hhr as [_ Hhr]. lia.
Qed.

(** The clients a live session of the user took part in. *)
Lemma LogoutUser_spec m policy A userID w w' x :
  fine (w_store w) -> fine (w_sessions w) -> indexed A (w_sessions w) -> LogoutUser m policy userID w = (w', x) ->
  same_but sso_key (w_store w) (w_store w') /\ exists out, x = Ok out /\
    forall sid sess a, has (w_sessions w') NamespaceProtocol sid sess -> UserID sess = userID -> sid <> ""%string -> a <> 0 ->
      dec a ∈ live_set (rkeys (w_store w)) (rclock (w_store w)) (ssoAppsPrefix +:+ sid) -> (a, sid) ∈ out.
Proof.
  intros Hfs Hf Hi Hr. unfold LogoutUser, attempt, in_sessions in Hr. destruct (ListByUser _ _ _ _ _) as [r1 y] eqn:Hl.
  apply (ListByUser_spec m policy A) in Hl as (_ & l & -> & Hl); [|done | done | by right; right].
  apply collect_spec in Hr as ([Hws Hs] & out & -> & Hout); [|done]. cbn in Hs, Hout, Hws. split; [done|].
  exists out. split; [done|]. intros sid sess a Hh Hu Hne Ha Hlive. rewrite Hws in Hh. destruct (Hl _ _ Hh Hu) as [Hin <-]. by apply Hout.
Qed.

(** *** Providers *)

Section Providers.
Context {Pub Priv : Type} (lib : SamlLib Pub Priv) (idplib : IdpLib Priv) (ref_unjson : string -> option SAMLSessionRef).
Abbreviation Logout_at := (IdPInitiatedLogout lib idplib ref_unjson).

Lemma targets_reach issuer cfg key now hex i refs ref : ref ∈ refs -> exists j format, forall target,
  buildLogoutRequestRedirect lib (hex j) now (SLOURL cfg) issuer (sf_NameID ref) format (sf_SessionIndex ref) key = Some target ->
  target ∈ logout_targets lib issuer cfg key now hex i refs.
Proof.
  revert i. induction refs as [|r refs IH]; intros i Hin; [by apply elem_of_nil in Hin|]. cbn [logout_targets].
  apply elem_of_cons in Hin as [->|Hin].
  - exists i. eexists. intros target Ht. rewrite Ht. by left.
  - destruct (IH (S i) Hin) as (j & format & H). exists j, format. intros target Ht. case_match; [right|]; by apply H.
Qed.

(** A session of the user at an application with a logout address is told, whatever its request is built of. *)
Definition told (env : SamlEnv) (hex : nat -> string) (userID appID : Z) (ref : SAMLSessionRef) (now : Z) (targets : list string) : Prop :=
  forall app key cert, env_GetAppByID env appID = Some app -> SLOURL (parseSAMLConfig (sa_ProtocolConfig app)) <> ""%string ->
    loadKeyAndCert lib idplib env appID = Some (key, cert) ->
    exists i format, forall target,
      buildLogoutRequestRedirect lib (hex i) now (SLOURL (parseSAMLConfig (sa_ProtocolConfig app))) (Issuer (env_URLs env "")) (sf_NameID ref)
        format (sf_SessionIndex ref) key = Some target -> target ∈ targets.
Lemma told_mono env hex u a ref now l1 l l2 : told env hex u a ref now l -> told env hex u a ref now (l1 ++ l ++ l2).
Proof.
  intros H app key cert Ha Hs Hk. destruct (H app key cert Ha Hs Hk) as (i & f & Ht). exists i, f. intros target Hb.
  apply elem_of_app. right. apply elem_of_app. left. auto.
Qed.

Definition app_keys (userID appID : Z) (k : string) : Prop := k = sloKey userID appID \/ k = sloUserKey userID.
Lemma index_Get_same u a r r' x : index_Get ref_unjson u a r = (r', x) -> same_but (fun _ => False) r r'.
Proof.
  unfold index_Get, call. destruct (SMEMBERS _ r) as [r1 y] eqn:Hs. apply smembers_same in Hs. destruct y; unfold ret, throw; intros; by simplify_eq.
Qed.
Lemma index_Delete_same u a r : same_but (app_keys u a) r (index_Delete u a r).1.
Proof.
  unfold index_Delete. rewrite checked_state. apply command_same, multi_only. repeat constructor; [apply del_only | apply srem_only]; [by left | by right].
Qed.
Lemma IdPInitiatedLogout_spec env hex u a w w' x : fine (w_store w) -> Logout_at env hex u a w = (w', x) ->
  world_same (app_keys u a) w w' /\ exists l, x = Ok l /\
    forall mem ref, mem ∈ live_set (rkeys (w_store w)) (rclock (w_store w)) (sloKey u a) -> ref_unjson mem = Some ref ->
      told env hex u a ref (rclock (w_sessions w)) l.
Proof.
  intros Hf Hr. unfold IdPInitiatedLogout, in_store in Hr. destruct (index_Get ref_unjson u a (w_store w)) as [r1 y] eqn:Hg.
  pose proof (index_Get_same _ _ _ _ _ Hg) as Hs1.
  assert (forall mem ref, mem ∈ live_set (rkeys (w_store w)) (rclock (w_store w)) (sloKey u a) -> ref_unjson mem = Some ref ->
    exists refs, y = Ok refs /\ ref ∈ refs) as Hy.
  { intros mem ref Hin Hj. destruct (smembers_live _ _ _ Hf Hin) as (r' & s & Hs & Hm & _). unfold index_Get, call in Hg. rewrite Hs in Hg.
    unfold ret in Hg. simplify_eq. eexists. split; [done|]. apply list_elem_of_omap. exists mem. by rewrite elem_of_elements. }
  assert (world_same (app_keys u a) w (mkSamlWorld r1 (w_sessions w))) as Hw1.
  { split; [done|]. eapply same_but_weaken; [|exact Hs1]. done. }
  destruct y as [[|ref0 refs]|e]; [| |unfold ret in Hr; simplify_eq; split; [done|]; eexists; split; [done|]; intros mem ref Hin Hj;
    by destruct (Hy _ _ Hin Hj) as (? & ? & _)].
  { unfold ret in Hr. simplify_eq. split; [done|]. eexists. split; [done|]. intros mem ref Hin Hj.
    destruct (Hy _ _ Hin Hj) as (refs & [= <-] & Hn). by apply elem_of_nil in Hn. }
  destruct (env_GetAppByID env a) as [app|] eqn:Happ.
  2:{ unfold ret in Hr. simplify_eq. split; [done|]. eexists. split; [done|]. intros mem ref _ _ app key cert Ha. congruence. }
  pose proof (index_Delete_same u a r1) as Hd.
  assert (world_same (app_keys u a) w (mkSamlWorld (index_Delete u a r1).1 (w_sessions w))) as Hw2.
  { split; [done|]. eapply same_but_trans; [apply Hw1 | exact Hd]. }
  case_bool_decide as Hslo.
  { cbn in Hr. destruct (index_Delete u a r1) as [r2 z]. unfold ret in Hr. simplify_eq. split; [exact Hw2|]. eexists. split; [done|].
    intros mem ref _ _ app' key cert Ha Hs. congruence. }
  destruct (loadKeyAndCert lib idplib env a) as [[key cert]|] eqn:Hk.
  2:{ unfold ret in Hr. simplify_eq. split; [done|]. eexists. split; [done|]. intros mem ref _ _ app' key cert Ha Hs. congruence. }
  unfold bind, clock, gets in Hr. cbn in Hr. destruct (index_Delete u a r1) as [r2 z]. unfold ret in Hr. simplify_eq. split; [exact Hw2|].
  eexists. split; [done|]. intros mem ref Hin Hj app' key' cert' Ha Hs Hk'. rewrite Happ in Ha. rewrite Hk in Hk'. simplify_eq.
  destruct (Hy _ _ Hin Hj) as (refs' & [= <-] & Href). exact (targets_reach _ _ _ _ _ 0 _ _ Href).
Qed.
End Providers.

(** *** Services *)

Section Services.
Context (cas_unjson : string -> option CASServiceRef).
Definition service_keys (userID appID : Z) (k : string) : Prop := k = casServiceKey userID appID \/ k = casUserKey userID.
Lemma Clear_same u a r : same_but (service_keys u a) r (Clear u a r).1.
Proof.
  unfold Clear. rewrite checked_state. apply command_same, multi_only. repeat constructor; [apply del_only | apply srem_only]; [by left | by right].
Qed.
Lemma targets_name u a now override services ref :
  ref ∈ services -> exists url id, (url, id, ref_Ticket ref) ∈ CasHandler.slo_targets u a now override services.
Proof.
  unfold CasHandler.slo_targets. intros [i Hi]%list_elem_of_lookup_1. eexists _, _. apply list_elem_of_lookup_2 with i. by rewrite list_lookup_imap, Hi.
Qed.
Lemma SingleLogout_spec cas_env u a r r' x : fine r -> CasHandler.SingleLogout cas_unjson cas_env u a r = (r', x) ->
  same_but (service_keys u a) r r' /\ exists l, x = Ok l /\
    forall mem ref, mem ∈ live_set (rkeys r) (rclock r) (casServiceKey u a) -> cas_unjson mem = Some ref ->
      exists url id, (url, id, ref_Ticket ref) ∈ l.
Proof.
  intros Hf Hr. unfold CasHandler.SingleLogout, attempt in Hr. destruct (ListServices cas_unjson u a r) as [r1 y] eqn:Hl.
  unfold ListServices, call in Hl. destruct (SMEMBERS (casServiceKey u a) r) as [r2 z] eqn:Hs. pose proof (smembers_same _ _ _ _ Hs) as Hsame.
  assert (same_but (service_keys u a) r r2) as Hs2 by (by eapply same_but_weaken; [|exact Hsame]).
  assert (forall mem, mem ∈ live_set (rkeys r) (rclock r) (casServiceKey u a) -> exists s : gset string, z = Ok (elements s) /\ mem ∈ s) as Hz.
  { intros mem Hin. destruct (smembers_live _ _ _ Hf Hin) as (r3 & s & Hs' & Hm & _). rewrite Hs' in Hs. simplify_eq. by exists s. }
  destruct z as [mems|e]; unfold ret, throw in Hl; simplify_eq.
  2:{ unfold ret in Hr. simplify_eq. split; [done|]. eexists. split; [done|]. intros mem ref Hin. by destruct (Hz _ Hin) as (? & ? & _). }
  assert (forall mem ref, mem ∈ live_set (rkeys r) (rclock r) (casServiceKey u a) -> cas_unjson mem = Some ref -> ref ∈ omap cas_unjson mems) as Hin.
  { intros mem ref Hin Hj. destruct (Hz _ Hin) as (s & [= ->] & Hm). apply list_elem_of_omap. exists mem. by rewrite elem_of_elements. }
  destruct (omap cas_unjson mems) as [|ref0 refs].
  { unfold ret in Hr. simplify_eq. split; [done|]. eexists. split; [done|]. intros mem ref H1 H2. by apply (Hin _ _ H1), elem_of_nil in H2. }
  unfold bind, CasTickets.Now, gets, dropped, attempt in Hr. pose proof (Clear_same u a r1) as Hc. destruct (Clear u a r1) as [r3 z].
  unfold ret in Hr. simplify_eq. split; [by eapply same_but_trans|]. eexists. split; [done|]. intros mem ref H1 H2.
  by eapply targets_name, Hin.
Qed.
End Services.

(** *** One after the other *)

Section Each.
Context {A : Type} (f : Z -> Saml.Op (list A)) (keys : Z -> string -> Prop).
(** Each call answers, on a store that does, and writes the keys of its application. *)
Context (f_ok : forall b w w' x, fine (w_store w) -> f b w = (w', x) -> world_same (keys b) w w' /\ exists l, x = Ok l).
Lemma each_total apps w w' x : fine (w_store w) -> each f apps w = (w', x) ->
  world_same (fun k => exists b, keys b k) w w' /\ exists l, x = Ok l.
Proof.
  revert w w' x. induction apps as [|b apps IH]; intros w w' x Hf Hr; cbn [each] in Hr.
  { unfold ret in Hr. simplify_eq. split; [by split | by eexists]. }
  unfold bind in Hr. destruct (f b w) as [w1 y] eqn:Hb. apply f_ok in Hb as ([E1 S1] & l & ->); [|done].
  destruct (each f apps w1) as [w2 z] eqn:H2. apply IH in H2 as [[E2 S2] [l' ->]]; [|by eapply same_but_fine].
  unfold ret in Hr. simplify_eq. split; [|by eexists]. split; [congruence|]. eapply same_but_trans; [|exact S2].
  eapply same_but_weaken; [|exact S1]. by exists b.
Qed.
(** One that the list has is reached, whatever the others did before it. *)
Lemma each_reaches (good : list A -> Prop) a w0 : (forall l1 l l2, good l -> good (l1 ++ l ++ l2)) ->
  (forall w w' l, world_same (fun k => exists b, b <> a /\ keys b k) w0 w -> f a w = (w', Ok l) -> good l) ->
  forall apps w w' x, fine (w_store w0) -> world_same (fun k => exists b, b <> a /\ keys b k) w0 w -> each f apps w = (w', x) -> a ∈ apps ->
    exists l, x = Ok l /\ good l.
Proof.
  intros Hmono Hgood. induction apps as [|b apps IH]; intros w w' x Hf Hw Hr Hin; [by apply elem_of_nil in Hin|]. cbn [each] in Hr.
  assert (fine (w_store w)) as Hfw by (destruct Hw; by eapply same_but_fine).
  unfold bind in Hr. destruct (f b w) as [w1 y] eqn:Hb. pose proof Hb as Hb'. apply f_ok in Hb as (Hw1 & l & ->); [|done].
  destruct (each f apps w1) as [w2 z] eqn:H2. destruct (decide (b = a)) as [->|Hne].
  - pose proof (each_total apps w1 w2 z ltac:(destruct Hw1; by eapply same_but_fine) H2) as [_ [l' ->]].
    unfold ret in Hr. simplify_eq. eexists. split; [done|]. apply (Hmono [] l l'). by eapply Hgood.
  - apply IH in H2 as (l' & -> & Hl'); [| done | | apply elem_of_cons in Hin as [->|]; done].
    + unfold ret in Hr. simplify_eq. eexists. split; [done|]. specialize (Hmono l l' [] Hl'). by rewrite app_nil_r in Hmono.
    + eapply world_same_trans; [exact Hw|]. destruct Hw1 as [E1 S1]. split; [done|]. eapply same_but_weaken; [|exact S1]. intros k Hk. by exists b.
Qed.
Lemma fan_out_total apps w w' x : fine (w_store w) -> (forall r r' y, apps r = (r', y) -> same_but (fun _ => False) r r') ->
  fan_out apps f w = (w', x) -> world_same (fun k => exists b, keys b k) w w' /\ exists l, x = Ok l.
Proof.
  intros Hf Ha Hr. unfold fan_out, in_store in Hr. destruct (apps (w_store w)) as [r y] eqn:E. apply Ha in E.
  assert (world_same (fun k => exists b, keys b k) w (mkSamlWorld r (w_sessions w))) as Hw by (split; [done|]; by eapply same_but_weaken; [|exact E]).
  destruct y as [l|e]; [|unfold ret in Hr; simplify_eq; split; [done | by eexists]].
  apply each_total in Hr as [Hw' Hl]; [split; [by eapply world_same_trans | done]|]. cbn. by eapply same_but_fine.
Qed.
Lemma fan_out_reaches (good : list A -> Prop) a apps w w' x : fine (w_store w) -> (forall l1 l l2, good l -> good (l1 ++ l ++ l2)) ->
  (forall w1 w' l, world_same (fun k => exists b, b <> a /\ keys b k) w w1 -> f a w1 = (w', Ok l) -> good l) ->
  (exists r l, apps (w_store w) = (r, Ok l) /\ a ∈ l /\ same_but (fun _ => False) (w_store w) r) ->
  fan_out apps f w = (w', x) -> exists l, x = Ok l /\ good l.
Proof.
  intros Hf Hmono Hgood (r & l & E & Hin & Hs) Hr. unfold fan_out, in_store in Hr. rewrite E in Hr.
  eapply (each_reaches good a w Hmono Hgood); [done | | exact Hr | done]. split; [done|]. by eapply same_but_weaken; [|exact Hs].
Qed.
End Each.

(** ** Everyone is told *)

(** What any requests leave of an empty store, when every application keeps its sessions as long. *)
Definition index_history (ttl : Z) (r : CRedis) : Prop :=
  exists r0, rkeys r0 = ∅ /\ rtc (saml_step ttl) r0 r /\ rtc (cas_step casSLORegistryTTL) r0 r.
Lemma named_live key ukey `{!IndexKeys key ukey} T r u a mem : index_inv key ukey T r -> mem ∈ live_set (rkeys r) (rclock r) (key u a) ->
  dec a ∈ live_set (rkeys r) (rclock r) (ukey u).
Proof.
  intros [H1 _ H3] Hin. unfold live_set in Hin. destruct (peek (rkeys r) (rclock r) (key u a)) as [e|] eqn:Hp; [|set_solver].
  apply peek_Some in Hp as [He Ha]. destruct (H1 (key u a) e ltac:(exists u, a; by left) He) as (s & d & ->). cbn in Ha. apply Z.ltb_lt in Ha.
  destruct (H3 _ _ _ _ He Ha) as (su & du & Hu & Hd & Hle). unfold live_set.
  assert (peek (rkeys r) (rclock r) (ukey u) = Some (mkRKey (RSet su) (Some du))) as ->; [|done].
  apply peek_Some. split; [done|]. cbn. apply Z.ltb_lt. lia.
Qed.

Section Told.
Context {Pub Priv : Type} (lib : SamlLib Pub Priv) (idplib : IdpLib Priv).
Context (ref_unjson : string -> option SAMLSessionRef) (cas_unjson : string -> option CASServiceRef).

Lemma provider_ok env (hex : Z -> nat -> string) u : forall b w w' x, fine (w_store w) ->
  IdPInitiatedLogout lib idplib ref_unjson env (hex b) u b w = (w', x) -> world_same (app_keys u b) w w' /\ exists l, x = Ok l.
Proof. intros b w w' x Hf Hr. apply IdPInitiatedLogout_spec in Hr as [Hw (l & Hl & _)]; [split; [done | by exists l] | done]. Qed.
Definition tell_service (cas_env : CasHandler.Env) (u appID : Z) : Saml.Op (list CasHandler.sloTarget) :=
  in_store (CasHandler.SingleLogout cas_unjson cas_env u appID) (fun x => ret (match x with Ok l => l | Err _ => [] end)).
Lemma service_ok cas_env u : forall b w w' x, fine (w_store w) ->
  tell_service cas_env u b w = (w', x) -> world_same (service_keys u b) w w' /\ exists l, x = Ok l.
Proof.
  intros b w w' x Hf Hr. unfold tell_service, in_store in Hr. destruct (CasHandler.SingleLogout _ _ _ _ _) as [r y] eqn:E.
  apply SingleLogout_spec in E as [Hs _]; [|done]. unfold ret in Hr. simplify_eq. split; [by split | by eexists].
Qed.
Lemma index_apps_same u r r' y : index_AppsForUser u r = (r', y) -> same_but (fun _ => False) r r'.
Proof.
  unfold index_AppsForUser, call. destruct (SMEMBERS _ r) as [r1 z] eqn:Hs. apply smembers_same in Hs. destruct z as [|[]]; unfold ret, throw; intros; by simplify_eq.
Qed.
Lemma cas_apps_same u r r' y : CasTickets.AppsForUser u r = (r', y) -> same_but (fun _ => False) r r'.
Proof.
  unfold CasTickets.AppsForUser, call. destruct (SMEMBERS _ r) as [r1 z] eqn:Hs. apply smembers_same in Hs.
  destruct z as [|[]]; unfold ret, throw; intros; by simplify_eq.
Qed.
Lemma other_apps_key u a : ~ (exists b, b <> a /\ app_keys u b (sloKey u a)).
Proof. pose proof saml_keys as [Hi _ Hk]. intros (b & Hne & [E|E]); [by apply Hi in E as [_ ->] | by apply Hk in E]. Qed.
Lemma other_services_key u a : ~ (exists b, b <> a /\ service_keys u b (casServiceKey u a)).
Proof. pose proof cas_keys as [Hi _ Hk]. intros (b & Hne & [E|E]); [by apply Hi in E as [_ ->] | by apply Hk in E]. Qed.

End Told.

(** The token names the user by number, whatever subject the application was given at the login. *)
Lemma logout_token_names_the_number sha256_hex32 env appID userID sid uri claims :
  sendLogout sha256_hex32 env appID userID sid = Some (uri, claims) -> lc_Subject claims = dec userID.
Proof. unfold sendLogout. repeat case_match; intros; by simplify_eq. Qed.

(** ** Runs *)

Module SamlDemo.
Definition lib : SamlLib string string :=
  mkSamlLib string string (fun _ s => Some s) (fun s => s) Some (fun s => s) Some (fun der => Some (Some der))
    (fun pub m sig => bool_decide (sig = pub +:+ "|" +:+ m)) (fun key m => Some (key +:+ "|" +:+ m)) Some Some
    (fun r => Some ("response to " +:+ lr_InResponseTo r)) (fun q => Some ("logout " +:+ lq_NameID q +:+ " " +:+ lq_SessionIndex q)).
Definition idplib : IdpLib string :=
  mkIdpLib string Some (fun _ => None)
    (fun idp _ _ => match AssertionConsumerServices (idp_SP idp) with (_, acs) :: _ => Some (mkIdpAuthnRequest "" acs "r1" None) | [] => None end)
    (fun _ _ _ => true) (fun _ _ _ => true) (fun _ _ _ => true).
Definition parse (s : string) : option CasHandler.URL :=
  if HasPrefix s "https://" then
    let rest := String.substring 8 (String.length s) s in
    Some (CasHandler.mkURL "https" (default rest (fst <$> CutByte "/" rest)) "" false "")
  else None.
Definition order (m : gmap string string) : list (string * string) := map_to_list m.
Definition hex32 (s : string) : string := s.
Definition json (r : SAMLSessionRef) : string := sf_SessionIndex r.
Definition unjson (s : string) : option SAMLSessionRef := Some (mkSAMLSessionRef s "ann" "sp" "").

Definition fields : SAMLFields :=
  mkSAMLFields (Some "sp") (Some "https://sp/acs") (Some "https://sp/slo") (Some "spkey") None None None None ∅ None None None None None.
Definition app : SamlApp := mkSamlApp 9 "username" 1 "client" fields.
Definition ann : SamlIdentity := mkSamlIdentity 7 1 "ann" "ann@x" "" "Ann" "" [].
Definition env : SamlEnv :=
  mkSamlEnv (fun code => if decide (code = "demo"%string) then Some app else None) (fun a => if a =? 9 then Some app else None)
    (fun t u => if (t =? 1) && (u =? 7) then Some ann else None) (fun _ => ""%string)
    (Some (fun u a t => Some (u =? 7, ""%string))) None (fun _ => Some [mkSamlCert "idpkey" "idpcert"]) (fun _ => None)
    (fun _ => mkURLs "https://id" "https://portal").
Definition draws : SamlDraws := mkSamlDraws "s" "ix" "00".

(** A session of the protocols, or of the portal; a confirmation that was issued. *)
Definition session_in (ns id : string) (owes : bool) : Session :=
  mkSession id 7 1 ns "" "" "local" false 100 (100 + Hour) 100 None false owes.
Definition sessions_with (ns id : string) (owes : bool) : SRedis :=
  mkRedis {[ sessionKey ns id := mkRKey (RStr (session_in ns id owes)) (Some (100 + Hour)) ]} 100 (fun _ => Fine) 0.
Definition empty_store : CRedis := mkRedis ∅ 100 (fun _ => Fine) 0.
Definition confirmed : CRedis := (Issue (Some "tok"%string) 7 9 empty_store).1.
Definition world : SamlWorld := mkSamlWorld confirmed (sessions_with NamespaceProtocol "sid" false).
Definition resumed : SamlHttp := mkSamlHttp "demo" "request_id=r1&relay_state=back&sso_confirm=tok" "" "" "sid" "" "id".

Lemma acs_law : AcsLaw idplib.
Proof.
  intros idp q f r H. cbn in H. destruct (AssertionConsumerServices (idp_SP idp)) as [|[b acs] l]; [done|].
  injection H as <-. exists b. by left.
Qed.
Definition answer : SamlWorld * res RErr (SamlReply string) := serve lib idplib parse order hex32 json Resume env resumed draws world.
Definition posted : option (IdentityProvider string * IdpAuthnRequest * CrewjamSession) :=
  match answer.2 with Ok (PostAssertion idp areq cs) => Some (idp, areq, cs) | _ => None end.
Lemma assertion_witness : exists idp areq cs, posted = Some (idp, areq, cs) /\ ar_ACS areq = "https://sp/acs"%string /\ cs_NameID cs = "ann"%string.
Proof.
  destruct posted as [[[idp areq] cs]|] eqn:Hp; [|exfalso; revert Hp; vm_compute; discriminate].
  exists idp, areq, cs. split; [done|].
  assert (answer = (answer.1, Ok (PostAssertion idp areq cs))) as Ha.
  { revert Hp. unfold posted. destruct answer as [w' [[]|]]; cbn; intros; simplify_eq; done. }
  destruct (assertion_is_warranted lib idplib parse order hex32 json Resume env resumed draws world _ idp areq cs acs_law Ha)
    as (a & sess & user & key & cert & id & Happ & _ & Hin & _ & _ & _ & Hu & _ & _ & Hacs & Hn).
  cbn in Happ. injection Happ as <-. split; [exact Hacs|]. rewrite Hn. unfold name_id, saml_subject. cbn.
  assert (user = ann) as ->; [|vm_compute; reflexivity]. revert Hu. cbn. destruct (_ && _); [by intros [= <-] | done].
Defined.

(** A redirect-binding logout the provider signed. *)
Definition signed_logout : string := default ""%string (signRedirectQuery lib "SAMLRequest" "demo" "https://sp/bye" "spkey").
Lemma laws : SamlLaws lib "spkey" "spkey".
Proof. split; [|done..]. intros m sig [= <-]. cbn. by apply bool_decide_eq_true_2. Qed.
Lemma roundtrip_witness : request_document lib (Query signed_logout "SAMLRequest") = Some "demo"%string
  /\ Query signed_logout "RelayState" = "https://sp/bye"%string /\ verifyRedirectSignature lib signed_logout "spkey" = None.
Proof.
  destruct (signed_query_roundtrips lib "spkey" "spkey" "spkey" "SAMLRequest" "demo" "https://sp/bye" signed_logout laws) as (H1 & H2 & H3);
    [reflexivity | by left | discriminate | vm_compute; reflexivity|]. split_and!; [exact H1 | exact H2 | by apply H3].
Defined.
Lemma signature_witness : exists pub, rsaPublicKeyFromCertPEM lib "spkey" = Some pub.
Proof.
  destruct (signed_message_is_the_one_read lib signed_logout "spkey") as (pub & _ & _ & _ & _ & Hpub & _);
    [vm_compute; reflexivity | vm_compute; discriminate | by exists pub].
Defined.
Definition logout_request (q form : string) : SamlHttp := mkSamlHttp "demo" q form "" "sid" "" "id".
Definition logged_out (q form : string) : SamlWorld * res RErr (SamlReply string) :=
  slo lib idplib parse CasHandler.Host String.eqb env (logout_request q form) draws world.
Lemma slo_witness : exists loc, (logged_out signed_logout "").2 = Ok (RedirectTo loc)
  /\ (answered_at lib idplib env (logout_request signed_logout "") loc
      \/ bound_to_provider lib parse CasHandler.Host String.eqb env (logout_request signed_logout "") loc).
Proof.
  destruct (logged_out signed_logout "").2 as [[]|] eqn:Hr; try (exfalso; revert Hr; vm_compute; discriminate).
  exists location. split; [done|].
  exact (proj1 (logout_lands_at_the_provider lib idplib parse CasHandler.Host String.eqb env (logout_request signed_logout "") draws world _
    (RedirectTo location) (run_result _ _ _ Hr))).
Defined.

(** *** What is left open *)

(** A session of the portal that owes a password change is refused by the gates of the portal; at the
    applications it signs its user in. *)
Example owing_session_signs_in :
  let w := mkSamlWorld empty_store (sessions_with NamespacePortal "psid" true) in
  exists w' idp areq cs,
    ssoRedirect lib idplib parse order hex32 json env (mkSamlHttp "demo" "" "" "" "" "psid" "id") draws w = (w', Ok (PostAssertion idp areq cs))
    /\ cs_NameID cs = "ann"%string.
Proof. vm_compute. eexists _, _, _, _. split; reflexivity. Qed.
(** The request of a body is answered, with a signed response, and ends the session, although the
    application has a certificate and nothing was signed. *)
Example posted_logout_is_not_checked :
  exists w' loc, logged_out "" "demo" = (w', Ok (RedirectTo loc)) /\ HasPrefix loc "https://sp/slo?SAMLResponse=" = true
    /\ rkeys (w_sessions w') = ∅.
Proof. vm_compute. eexists _, _. split_and!; reflexivity. Qed.
(** Two RelayStates added to a signed query are not covered by its signature, and the first is answered with. *)
Definition bare_logout : string := default ""%string (signRedirectQuery lib "SAMLRequest" "demo" "" "spkey").
Example added_relay_state_is_returned :
  let q := two_relay_states bare_logout "https://evil" "x" in
  exists w' loc, logged_out q "" = (w', Ok (RedirectTo loc)) /\ Query (default ""%string (snd <$> CutByte "?" loc)) "RelayState" = "https://evil"%string.
Proof. vm_compute. eexists _, _. split; reflexivity. Qed.
(** The way to the login page breaks a RelayState with an ampersand; the way to the confirmation does not. *)
Example login_loses_relay_state :
  let query s := default ""%string (snd <$> CutByte "?" s) in
  Query (query (redirectToLogin env "id" "demo" "r1" "https://sp/?a=1&b=2")) "relay_state" = "https://sp/?a=1"%string
  /\ Query (query (Query (query (redirectToConsent env "id" 9 "demo" "r1" "https://sp/?a=1&b=2")) "return_to")) "relay_state" = "https://sp/?a=1&b=2"%string.
Proof. vm_compute. split; reflexivity. Qed.

(** *** Everyone is told *)

Definition mgr : Manager := mkManager (30 * Minute) (8 * Hour) None None.
Definition timeouts : Policy := Some (Hour, 24 * Hour).
Definition s0 : SRedis := mkRedis ∅ 100 (fun _ => Fine) 0.
Definition s1 : SRedis := (Create mgr timeouts "sid" NamespaceProtocol 7 1 "" "" "local" s0).1.
Definition saml_ref : SAMLSessionRef := mkSAMLSessionRef "ix" "ann" "sp" "".
Definition t1 : CRedis := (index_Record json 7 9 saml_ref (8 * Hour) empty_store).1.
Definition cas_json (r : CASServiceRef) : string := ref_Ticket r.
Definition cas_unjson (s : string) : option CASServiceRef := Some (mkCASServiceRef "https://cas" s).
Definition t2 : CRedis := (RecordService cas_json 7 5 "https://cas" "ST-1" casSLORegistryTTL t1).1.
Definition t3 : CRedis := (Track "sid" 3 Hour t2).1.
Definition busy : SamlWorld := mkSamlWorld t3 s1.
Definition cas_env : CasHandler.Env :=
  CasHandler.mkEnv (fun _ => None) (fun _ => None) (fun _ => None) (fun _ _ => None) (fun _ => ""%string) None (fun _ _ _ => false).

Lemma busy_history : index_history (8 * Hour) t3.
Proof.
  exists empty_store. split; [done|]. split.
  - eapply rtc_l; [apply (index_Record_step json 7 9 saml_ref)|]. eapply rtc_l; [|apply rtc_once].
    + eapply other_step; [apply (RecordService_same cas_json 7 5 "https://cas" "ST-1" casSLORegistryTTL)|].
      intros k [->| ->] (u & a & [E|E]); discriminate E.
    + eapply other_step; [apply (Track_same "sid" 3 Hour)|]. intros k -> (u & a & [E|E]); discriminate E.
  - eapply rtc_l; [eapply other_step; [apply (index_Record_same json 7 9 saml_ref (8 * Hour))|]|].
    { intros k [->| ->] (u & a & [E|E]); discriminate E. }
    eapply rtc_l; [apply (RecordService_step cas_json 7 5 "https://cas" "ST-1")|]. apply rtc_once.
    eapply other_step; [apply (Track_same "sid" 3 Hour)|]. intros k -> (u & a & [E|E]); discriminate E.
Qed.
Lemma busy_sessions : session_history mgr (w_sessions busy).
Proof.
  exists s0, 0, (24 * Hour). split_and!; [reflexivity | by intros n |]. apply rtc_once.
  apply under_timeout; [by apply Z.leb_le | reflexivity | by exists (24 * 3600) |].
  eapply (rq_create _ _ _ _ timeouts "sid" NamespaceProtocol 7 1 "" "" "local"); [by right; right | | done | apply surjective_pairing].
  intros rest. discriminate.
Qed.
Definition left_ : SamlWorld * res RErr (list Notice) :=
  GlobalLogout lib idplib unjson cas_unjson mgr timeouts env cas_env (fun _ _ => "00"%string) 7 busy.

(** An application that keeps its sessions for five minutes takes the index of the user down with its
    own entry: six minutes later the session of the other one is alive, and nobody finds it. *)
Definition later (now : Z) (r : CRedis) : CRedis := mkRedis (rkeys r) now (rfate r) (rcalls r).
Example shorter_life_hides_sessions :
  let r := later (100 + 6 * Minute) (index_Record json 7 8 (mkSAMLSessionRef "iy" "ann" "sp2" "") (5 * Minute) t1).1 in
  (index_AppsForUser 7 r).2 = Ok [] /\ (index_Get unjson 7 9 r).2 = Ok [mkSAMLSessionRef "ix" "ann" "sp" ""].
Proof. vm_compute. split; reflexivity. Qed.
End SamlDemo.
