(* ===== verification/OidcKeys.v ===== *)
(** * OidcKeys: the signing keys of the OpenID provider

    src/internal/domain/oidckey: model.go, service.go and rotation.go, over the table of the
    migrations 000036 and 000053; and what src/internal/protocol/oidcop/storage.go signs with and
    publishes. Replicas share the table: an operation takes what the others commit at the points
    where it can be overtaken. RSA, X.509, PEM and AES-GCM are the fields of [KeyLib] and of
    [MasterKey]. *)

From stdpp Require Import sorting.
From Stdlib Require Import Ascii.
From S2P Require Import Redis Statements Prelude.
#[global] Open Scope Z_scope.

(** ** model.go *)

Definition KeyActive : Z := 1.
Definition KeyRotating : Z := 2.
Definition KeyRetired : Z := 3.

Record ProviderKey : Type := mkProviderKey {
  pk_ID : Z; pk_KID : string; pk_Algorithm : string; pk_PublicKey : string; pk_PrivateKey : string; pk_Status : Z;
  pk_NotBefore : Z; pk_ExpiresAt : option Z; pk_CreatedAt : Z
}.
Abbreviation Keyset := (list ProviderKey).

Definition set_key_status (st : Z) (k : ProviderKey) : ProviderKey :=
  mkProviderKey (pk_ID k) (pk_KID k) (pk_Algorithm k) (pk_PublicKey k) (pk_PrivateKey k) st (pk_NotBefore k) (pk_ExpiresAt k) (pk_CreatedAt k).

(** ** service.go *)

Definition SigningTTL : Z := 365 * 24 * Hour.
Definition DefaultRotationEvery : Z := 90 * 24 * Hour.
Definition uniqueActiveKeyConstraint : string := "uq_oidc_keyset_one_active".

Inductive KeyErr : Type :=
| ErrKeyDB
| ErrKeyUnique (constraint : string)
| ErrNoMasterKey
| ErrNoActiveKey
| ErrKeyCrypto.

Record VerificationKey (Pub : Type) : Type := mkVerificationKey { vk_KID : string; vk_Algorithm : string; vk_Public : Pub }.
Arguments mkVerificationKey {Pub}. Arguments vk_KID {Pub}. Arguments vk_Algorithm {Pub}. Arguments vk_Public {Pub}.

(** Errors are left out where the code looks only at whether there is one. *)
Record KeyLib (Priv Pub : Type) : Type := mkKeyLib {
  (** from what the random source gives *)
  GenerateKey : string -> option Priv;
  public_key : Priv -> Pub;
  MarshalPKCS1 : Priv -> string;
  MarshalPKIX : Pub -> option string;
  (** the block of a type, and the bytes of the first block *)
  pem_encode : string -> string -> string;
  pem_decode : string -> option string;
  ParsePKCS1 : string -> option Priv;
  (** the key, if it is an RSA key *)
  ParsePKCS8 : string -> option (option Priv);
  ParsePKIX : string -> option (option Pub)
}.
Arguments GenerateKey {Priv Pub}. Arguments public_key {Priv Pub}. Arguments MarshalPKCS1 {Priv Pub}. Arguments MarshalPKIX {Priv Pub}.
Arguments pem_encode {Priv Pub}. Arguments pem_decode {Priv Pub}. Arguments ParsePKCS1 {Priv Pub}. Arguments ParsePKCS8 {Priv Pub}.
Arguments ParsePKIX {Priv Pub}.
Record MasterKey : Type := mkMasterKey { Encrypt : string -> string -> option string; Decrypt : string -> option string }.

(** What the making of a key draws: the id, randomness for the key and its encryption, and the kid
    unless the random source fails. *)
Record KeyDraw : Type := mkKeyDraw { kd_ID : Z; kd_seed : string; kd_nonce : string; kd_KID : option string }.

(** *** The table *)

Definition key_active (k : ProviderKey) : bool := pk_Status k =? KeyActive.
(** INSERT; the constraints in the order they are checked. *)
Definition insert_key (k : ProviderKey) (ks : Keyset) : res KeyErr Keyset :=
  if bool_decide (pk_ID k ∈ pk_ID <$> ks) then Err (ErrKeyUnique "mxid_oidc_keyset_pkey") else
  if bool_decide (pk_KID k ∈ pk_KID <$> ks) then Err (ErrKeyUnique "mxid_oidc_keyset_kid_key") else
  if key_active k && existsb key_active ks then Err (ErrKeyUnique uniqueActiveKeyConstraint) else Ok (ks ++ [k]).
(** The UPDATE of a rotation: it waits for the rows that were active when it began, and changes those
    that still are. *)
Definition active_ids (ks : Keyset) : list Z := pk_ID <$> filter key_active ks.
Definition demote (seen : list Z) (k : ProviderKey) : ProviderKey :=
  if key_active k && bool_decide (pk_ID k ∈ seen) then set_key_status KeyRotating k else k.
Definition expired_at (now : Z) (k : ProviderKey) : bool :=
  (pk_Status k =? KeyRotating) && (match pk_ExpiresAt k with Some e => e <? now | None => false end).
Definition retire (now : Z) (k : ProviderKey) : ProviderKey := if expired_at now k then set_key_status KeyRetired k else k.

(** ORDER BY created_at DESC, and by the primary key. *)
Definition newer (a b : ProviderKey) : Prop := pk_CreatedAt b < pk_CreatedAt a \/ (pk_CreatedAt a = pk_CreatedAt b /\ pk_ID a <= pk_ID b).
#[export] Instance newer_dec a b : Decision (newer a b).
Proof. unfold newer. apply _. Defined.
Definition newest_active (ks : Keyset) : option ProviderKey := head (merge_sort newer (filter key_active ks)).

Section Service.
Context {Priv Pub : Type} (lib : KeyLib Priv Pub) (masterKey : option MasterKey).
Abbreviation Op := (M (Store Keyset) KeyErr).

Definition parseRSAPrivateKeyPEM (data : string) : option Priv :=
  block ← pem_decode lib data;
  match ParsePKCS1 lib block with Some k => Some k | None => k ← ParsePKCS8 lib block; k end.
Definition parseRSAPublicKeyPEM (data : string) : option Pub := block ← pem_decode lib data; k ← ParsePKIX lib block; k.

Definition buildKey (mk : MasterKey) (d : KeyDraw) (now : Z) : option ProviderKey :=
  priv ← GenerateKey lib (kd_seed d);
  pubDER ← MarshalPKIX lib (public_key lib priv);
  encryptedPriv ← Encrypt mk (kd_nonce d) (pem_encode lib "RSA PRIVATE KEY" (MarshalPKCS1 lib priv));
  kid ← kd_KID d;
  Some (mkProviderKey (kd_ID d) kid "RS256" (pem_encode lib "PUBLIC KEY" pubDER) encryptedPriv KeyActive now (Some (now + SigningTTL)) now).

Definition activeKey : Op ProviderKey :=
  let! o := select ErrKeyDB newest_active in match o with Some k => ret k | None => throw ErrNoActiveKey end.
(** A violation of the one index means that another replica was first. *)
Definition or_winner {A} (m : Op A) (own : A -> Op ProviderKey) : Op ProviderKey :=
  attempt m (fun x =>
    match x with
    | Ok a => own a
    | Err (ErrKeyUnique c) => if bool_decide (c = uniqueActiveKeyConstraint) then activeKey else throw (ErrKeyUnique c)
    | Err e => throw e
    end).
Definition with_new_key (d : KeyDraw) (now : Z) (k : ProviderKey -> Op ProviderKey) : Op ProviderKey :=
  match masterKey with
  | None => throw ErrNoMasterKey
  | Some mk => match buildKey mk d now with None => throw ErrKeyCrypto | Some key => k key end
  end.

Definition Generate_key (d : KeyDraw) (now : Z) : Op ProviderKey :=
  with_new_key d now (fun key => or_winner (exec_or ErrKeyDB (insert_key key)) (fun _ => ret key)).
(** [others]: what the other replicas commit between the two statements. *)
Definition EnsureActive (d : KeyDraw) (others : Keyset -> Keyset) (now : Z) : Op ProviderKey :=
  attempt activeKey (fun x =>
    match x with
    | Err ErrNoActiveKey => do! write others in Generate_key d now
    | Ok active => ret active
    | Err e => throw e
    end).
(** [others]: what the other replicas commit after the snapshot of the UPDATE, before it has its locks. *)
Definition Rotate (d : KeyDraw) (others : Keyset -> Keyset) (now : Z) : Op ProviderKey :=
  with_new_key d now (fun newKey =>
    let! seen := gets (fun s => active_ids (sdb s)) in
    do! write others in
    or_winner (txn ErrKeyDB (do! exec ErrKeyDB (fmap (demote seen)) in exec_or ErrKeyDB (insert_key newKey))) (fun _ => ret newKey)).
(** [others1]: what they commit before the rotation begins. *)
Definition MaybeRotate (d : KeyDraw) (others1 others2 : Keyset -> Keyset) (every now : Z) : Op bool :=
  let! active := activeKey in
  if now - pk_CreatedAt active <? every then ret false else
  do! write others1 in
  let! _ := Rotate d others2 now in ret true.
Definition RetireExpired (now : Z) : Op unit := exec ErrKeyDB (fmap (retire now)).

Definition LoadActiveSigningKey : Op (Priv * string * string) :=
  match masterKey with
  | None => throw ErrNoMasterKey
  | Some mk =>
      let! active := activeKey in
      match Decrypt mk (pk_PrivateKey active) with
      | None => throw ErrKeyCrypto
      | Some plain =>
          match parseRSAPrivateKeyPEM plain with None => throw ErrKeyCrypto | Some priv => ret (priv, pk_KID active, pk_Algorithm active) end
      end
  end.
(** A row whose key does not parse is skipped. *)
Definition verification_key (k : ProviderKey) : option (VerificationKey Pub) :=
  pub ← parseRSAPublicKeyPEM (pk_PublicKey k); Some (mkVerificationKey (pk_KID k) (pk_Algorithm k) pub).
Definition published_rows (ks : Keyset) : Keyset := merge_sort newer (filter (fun k => pk_Status k = KeyActive \/ pk_Status k = KeyRotating) ks).
Definition ListVerificationKeys : Op (list (VerificationKey Pub)) := select ErrKeyDB (fun ks => omap verification_key (published_rows ks)).

(** ** rotation.go *)

Definition rotation_interval (every : Z) : Z := Z.max (Z.quot every 12) Hour.
Record Tick : Type := mkTick { tk_now : Z; tk_draw : KeyDraw; tk_others1 : Keyset -> Keyset; tk_others2 : Keyset -> Keyset }.
(** Both run, whatever the first answers. *)
Definition tick (every : Z) (tk : Tick) : Op bool :=
  attempt (MaybeRotate (tk_draw tk) (tk_others1 tk) (tk_others2 tk) every (tk_now tk)) (fun x =>
    attempt (RetireExpired (tk_now tk)) (fun _ => match x with Ok b => ret b | Err e => throw e end)).
(** The ticks until the context is cancelled. *)
Fixpoint run_ticks (every : Z) (ticks : list Tick) : Op unit :=
  match ticks with [] => ret tt | tk :: rest => attempt (tick every tk) (fun _ => run_ticks every rest) end.
Definition RunRotation (every : Z) (first : Tick) (ticks : list Tick) : Op unit :=
  attempt (EnsureActive (tk_draw first) (tk_others1 first) (tk_now first)) (fun _ =>
    if every <=? 0 then ret tt else run_ticks every ticks).
(** The ticker of a term of leadership that lasts from [start] to [until]. *)
Definition ticker (start until every : Z) (ticks : list Tick) : Prop :=
  Forall (fun tk => start + rotation_interval every <= tk_now tk <= until) ticks.

(** ** storage.go of oidcop *)

Inductive JoseAlg : Type := RS256 | RS384 | RS512.
Definition joseAlg (alg : string) : JoseAlg :=
  if bool_decide (alg = "RS384"%string) then RS384 else if bool_decide (alg = "RS512"%string) then RS512 else RS256.
Definition SigningKey : Op (string * JoseAlg * Priv) :=
  let! '(priv, kid, alg) := LoadActiveSigningKey in ret (kid, joseAlg alg, priv).
Definition SignatureAlgorithms : Op (list JoseAlg) := let! '(_, _, alg) := LoadActiveSigningKey in ret [joseAlg alg].
Definition KeySet : Op (list (string * JoseAlg * Pub)) :=
  let! vks := ListVerificationKeys in ret ((fun vk => (vk_KID vk, joseAlg (vk_Algorithm vk), vk_Public vk)) <$> vks).
End Service.

(** ** Histories of the table *)

(** The interface that decides what a time-to-live buys: what is encoded is decoded. *)
Record KeyLaws {Priv Pub : Type} (lib : KeyLib Priv Pub) (mk : MasterKey) : Prop := mkKeyLaws {
  law_pem : forall ty b, pem_decode lib (pem_encode lib ty b) = Some b;
  law_pkcs1 : forall priv, ParsePKCS1 lib (MarshalPKCS1 lib priv) = Some priv;
  law_pkix : forall pub der, MarshalPKIX lib pub = Some der -> ParsePKIX lib der = Some (Some pub);
  law_master : forall n p c, Encrypt mk n p = Some c -> Decrypt mk c = Some p
}.

Lemma set_status_twice st st' k : set_key_status st (set_key_status st' k) = set_key_status st k.
Proof. by destruct k. Qed.
Lemma set_status_self k : set_key_status (pk_Status k) k = k.
Proof. by destruct k. Qed.
Lemma demote_none k : demote [] k = k.
Proof. unfold demote. by rewrite bool_decide_eq_false_2, andb_false_r by apply not_elem_of_nil. Qed.
Lemma demote_status seen k : exists st, demote seen k = set_key_status st k /\ (st = KeyRotating \/ st = pk_Status k).
Proof. unfold demote. destruct (_ && _); [exists KeyRotating | exists (pk_Status k)]; rewrite ?set_status_self; auto. Qed.
Lemma retire_status now k : exists st, retire now k = set_key_status st k
  /\ (st = pk_Status k \/ st = KeyRetired /\ exists e, pk_ExpiresAt k = Some e /\ e < now).
Proof.
  unfold retire, expired_at. destruct (_ && _) eqn:He; [exists KeyRetired | exists (pk_Status k)]; rewrite ?set_status_self; [|auto].
  split; [done|]. right. split; [done|]. apply andb_true_iff in He as [_ He]. destruct (pk_ExpiresAt k) as [e|]; [|done].
  exists e. split; [done|]. lia.
Qed.
(** Neither makes a key active. *)
Lemma demote_active seen k : key_active (demote seen k) = true -> demote seen k = k.
Proof. unfold demote. by destruct (_ && _). Qed.
Lemma retire_active now k : key_active (retire now k) = true -> retire now k = k.
Proof. unfold retire. by destruct (expired_at _ _). Qed.
Lemma insert_key_inv k ks ks' : insert_key k ks = Ok ks' ->
  pk_ID k ∉ pk_ID <$> ks /\ pk_KID k ∉ pk_KID <$> ks /\ (key_active k = true -> forall a, a ∈ ks -> key_active a = false) /\ ks' = ks ++ [k].
Proof.
  unfold insert_key. case_bool_decide; [done|]. case_bool_decide; [done|]. destruct (_ && _) eqn:Ha; [done|]. intros [= <-].
  split_and!; [done..| |done]. intros Hk a Hin. rewrite Hk in Ha. cbn in Ha. destruct (key_active a) eqn:E; [|done].
  rewrite <- Ha. symmetry. apply existsb_exists. exists a. split; [by apply list_elem_of_In | done].
Qed.
Lemma newest_active_inv ks k : newest_active ks = Some k -> k ∈ ks /\ key_active k = true.
Proof.
  unfold newest_active. intros H. assert (k ∈ merge_sort newer (filter key_active ks)) as Hin.
  { destruct (merge_sort _ _); [done|]. injection H as ->. left. }
  rewrite merge_sort_Permutation in Hin. apply list_elem_of_filter in Hin as [Ha Hin]. split; [done | by apply Is_true_true].
Qed.

Section Histories.
Context {Priv Pub : Type} (lib : KeyLib Priv Pub) (mk : MasterKey).
Abbreviation Op := (M (Store Keyset) KeyErr).
Abbreviation build := (buildKey lib mk).

(** What any replica may commit: a new key, after a demotion of keys it has seen, and a retirement; and
    the clock goes on. *)
Inductive key_step : Keyset * Z -> Keyset * Z -> Prop :=
| key_time ks t t' : t <= t' -> key_step (ks, t) (ks, t')
| key_rotate ks t seen d k ks' : build d t = Some k -> insert_key k (demote seen <$> ks) = Ok ks' -> key_step (ks, t) (ks', t)
| key_retire ks t : key_step (ks, t) (retire t <$> ks, t).
Definition key_history (t0 : Z) (ks : Keyset) (t : Z) : Prop := rtc key_step ([], t0) (ks, t).
Definition rival (now : Z) (others : Keyset -> Keyset) : Prop := forall ks, rtc key_step (ks, now) (others ks, now).

(** A row is a key that was built, under its present status. *)
Definition pair_of (k : ProviderKey) (priv : Priv) : Prop :=
  exists d, build d (pk_CreatedAt k) = Some (set_key_status KeyActive k) /\ GenerateKey lib (kd_seed d) = Some priv.
Record genuine (t : Z) (k : ProviderKey) : Prop := mkGenuine {
  g_pair : exists priv, pair_of k priv;
  g_created : pk_CreatedAt k <= t;
  g_status : pk_Status k = KeyActive \/ pk_Status k = KeyRotating \/ (pk_Status k = KeyRetired /\ pk_CreatedAt k + SigningTTL < t)
}.
Record keyset_sound (ks : Keyset) (t : Z) : Prop := mkSound {
  s_ids : NoDup (pk_ID <$> ks);
  s_kids : NoDup (pk_KID <$> ks);
  s_one : forall a b, a ∈ ks -> b ∈ ks -> key_active a = true -> key_active b = true -> a = b;
  s_rows : forall k, k ∈ ks -> genuine t k
}.

Lemma build_inv d t k : build d t = Some k ->
  exists priv der enc, GenerateKey lib (kd_seed d) = Some priv /\ MarshalPKIX lib (public_key lib priv) = Some der
    /\ Encrypt mk (kd_nonce d) (pem_encode lib "RSA PRIVATE KEY" (MarshalPKCS1 lib priv)) = Some enc
    /\ pk_PublicKey k = pem_encode lib "PUBLIC KEY" der /\ pk_PrivateKey k = enc /\ pk_Algorithm k = "RS256"%string
    /\ pk_Status k = KeyActive /\ pk_CreatedAt k = t /\ pk_ExpiresAt k = Some (t + SigningTTL).
Proof.
  unfold buildKey. destruct (GenerateKey _ _) as [priv|] eqn:Hg; [cbn|done]. destruct (MarshalPKIX _ _) as [der|] eqn:Hm; [cbn|done].
  destruct (Encrypt _ _ _) as [enc|] eqn:He; [cbn|done]. destruct (kd_KID d) as [kid|]; [cbn|done]. intros [= <-].
  exists priv, der, enc. by split_and!.
Qed.
Lemma built_genuine d t k : build d t = Some k -> genuine t k.
Proof.
  intros Hb. destruct (build_inv _ _ _ Hb) as (priv & der & enc & Hg & _ & _ & _ & _ & _ & Hs & Hc & _). constructor; [|lia|by left].
  exists priv, d. rewrite Hc, <- Hs, set_status_self. done.
Qed.
Lemma pair_status st k priv : pair_of k priv -> pair_of (set_key_status st k) priv.
Proof. intros (d & Hb & Hg). exists d. rewrite set_status_twice. done. Qed.
Lemma genuine_later t t' k : t <= t' -> genuine t k -> genuine t' k.
Proof. intros Ht [Hp Hc Hs]. constructor; [done | lia|]. destruct Hs as [?|[?|[? ?]]]; auto. right. right. split; [done | lia]. Qed.
Lemma genuine_expiry t k : genuine t k -> pk_ExpiresAt k = Some (pk_CreatedAt k + SigningTTL).
Proof. intros [(priv & d & Hb & _) _ _]. destruct (build_inv _ _ _ Hb) as (? & ? & ? & _ & _ & _ & _ & _ & _ & _ & _ & He). exact He. Qed.
Lemma genuine_demote seen t k : genuine t k -> genuine t (demote seen k).
Proof.
  intros [(priv & Hp) Hc Hs]. destruct (demote_status seen k) as (st & -> & Hst). constructor; [exists priv; by apply pair_status | done|].
  destruct Hst as [-> | ->]; cbn; [by right; left | done].
Qed.
Lemma genuine_retire t k : genuine t k -> genuine t (retire t k).
Proof.
  intros Hg. pose proof (genuine_expiry _ _ Hg) as Hex. destruct Hg as [(priv & Hp) Hc Hs]. destruct (retire_status t k) as (st & -> & Hst).
  constructor; [exists priv; by apply pair_status | done|]. destruct Hst as [-> | (-> & e & He & Hlt)]; cbn; [done|].
  right. right. split; [done|]. rewrite Hex in He. injection He as <-. exact Hlt.
Qed.

(** A change of status, row by row, that makes no key active. *)
Lemma sound_fmap (f : ProviderKey -> ProviderKey) ks t :
  (forall k, exists st, f k = set_key_status st k) -> (forall k, key_active (f k) = true -> f k = k) -> (forall k, genuine t k -> genuine t (f k)) ->
  keyset_sound ks t -> keyset_sound (f <$> ks) t.
Proof.
  intros Hf Ha Hg [Hi Hk Ho Hr]. constructor.
  - rewrite <- list_fmap_compose. erewrite list_fmap_ext; [exact Hi|]. intros i x _. cbn. by destruct (Hf x) as (st & ->).
  - rewrite <- list_fmap_compose. erewrite list_fmap_ext; [exact Hk|]. intros i x _. cbn. by destruct (Hf x) as (st & ->).
  - intros a b Hin1 Hin2 H1 H2. apply list_elem_of_fmap in Hin1 as (x & -> & Hx). apply list_elem_of_fmap in Hin2 as (y & -> & Hy).
    rewrite (Ha _ H1) in H1 |- *. rewrite (Ha _ H2) in H2 |- *. by apply Ho.
  - intros k Hin. apply list_elem_of_fmap in Hin as (x & -> & Hx). auto.
Qed.
Lemma sound_demote seen ks t : keyset_sound ks t -> keyset_sound (demote seen <$> ks) t.
Proof.
  apply sound_fmap; [|apply demote_active|apply genuine_demote]. intros k. destruct (demote_status seen k) as (st & ? & _). eauto.
Qed.
Lemma sound_insert ks t d k ks' : build d t = Some k -> insert_key k ks = Ok ks' -> keyset_sound ks t -> keyset_sound ks' t.
Proof.
  intros Hb (Hi & Hkid & Ho & ->)%insert_key_inv [H1 H2 H3 H4].
  assert (key_active k = true) as Ha. { destruct (build_inv _ _ _ Hb) as (? & ? & ? & _ & _ & _ & _ & _ & _ & Hs & _). unfold key_active. by rewrite Hs. }
  constructor; rewrite ?fmap_app; cbn.
  - apply NoDup_app. split_and!; [done | | apply NoDup_singleton]. intros x Hx ->%list_elem_of_singleton. done.
  - apply NoDup_app. split_and!; [done | | apply NoDup_singleton]. intros x Hx ->%list_elem_of_singleton. done.
  - intros a b Hin1 Hin2 A1 A2. apply elem_of_app in Hin1 as [Hin1|Hin1]; apply elem_of_app in Hin2 as [Hin2|Hin2]; [by apply H3 | | |set_solver].
    + by rewrite (Ho Ha a Hin1) in A1.
    + by rewrite (Ho Ha b Hin2) in A2.
  - intros x Hx. apply elem_of_app in Hx as [Hx|Hx]; [by apply H4|]. apply list_elem_of_singleton in Hx as ->. by eapply built_genuine.
Qed.
Lemma sound_step p p' : key_step p p' -> keyset_sound p.1 p.2 -> keyset_sound p'.1 p'.2.
Proof.
  intros [ks t t' Ht|ks t seen d k ks' Hb Hi|ks t] Hs; cbn in *.
  - destruct Hs as [? ? ? Hr]. constructor; [done..|]. intros k Hk. eapply genuine_later; [exact Ht | by apply Hr].
  - eapply sound_insert; [done..|]. by apply sound_demote.
  - revert Hs. apply sound_fmap; [|apply retire_active|apply genuine_retire]. intros k. destruct (retire_status t k) as (st & ? & _). eauto.
Qed.
Lemma sound_steps p p' : rtc key_step p p' -> keyset_sound p.1 p.2 -> keyset_sound p'.1 p'.2.
Proof. intros H. eapply (rtc_invariant key_step (fun p => keyset_sound p.1 p.2)); [apply sound_step | exact H]. Qed.
Lemma sound_history t0 ks t : key_history t0 ks t -> keyset_sound ks t.
Proof. intros H. apply (sound_steps _ _ H). constructor; cbn; [constructor..| |]; intros; by apply not_elem_of_nil in H0. Qed.

(** A key stays, and none becomes active again. *)
Lemma key_stays p p' k : rtc key_step p p' -> k ∈ p.1 -> exists st, set_key_status st k ∈ p'.1.
Proof.
  intros H Hin. assert (exists st, set_key_status st k ∈ p.1) as H0 by (exists (pk_Status k); by rewrite set_status_self). revert H0. clear Hin.
  eapply (rtc_invariant key_step (fun p => exists st, set_key_status st k ∈ p.1)); [|exact H]. clear H.
  intros p1 q1 Hs (st & Hin). destruct Hs as [ks t t' Hlt|ks t seen d k' ks' Hb Hi|ks t]; cbn in *; [eauto| |].
  - apply insert_key_inv in Hi as (_ & _ & _ & ->). destruct (demote_status seen (set_key_status st k)) as (st' & Hst & _).
    exists st'. apply elem_of_app. left. apply list_elem_of_fmap. exists (set_key_status st k). by rewrite Hst, set_status_twice.
  - destruct (retire_status t (set_key_status st k)) as (st' & Hst & _).
    exists st'. apply list_elem_of_fmap. exists (set_key_status st k). by rewrite Hst, set_status_twice.
Qed.
Lemma key_time_mono p p' : rtc key_step p p' -> p.2 <= p'.2.
Proof. induction 1 as [|? ? ? Hs _ IH]; [done|]. destruct Hs; cbn in *; lia. Qed.
Lemma active_origin p p' k : rtc key_step p p' -> k ∈ p'.1 -> key_active k = true -> k ∈ p.1 \/ p.2 <= pk_CreatedAt k.
Proof.
  induction 1 as [|p q r Hs Hr IH]; [auto|]. intros Hin Ha. destruct (IH Hin Ha) as [Hq|Ht].
  2:{ right. pose proof (key_time_mono p q (rtc_once _ _ Hs)). lia. }
  destruct Hs as [ks t t' Hlt|ks t seen d k' ks' Hb Hi|ks t]; cbn in *; [auto| |].
  - apply insert_key_inv in Hi as (_ & _ & _ & ->). apply elem_of_app in Hq as [Hq|Hq]; [apply list_elem_of_fmap in Hq as (x & -> & Hx)|apply list_elem_of_singleton in Hq as ->].
    + left. by rewrite demote_active.
    + right. destruct (build_inv _ _ _ Hb) as (? & ? & ? & _ & _ & _ & _ & _ & _ & _ & -> & _). lia.
  - apply list_elem_of_fmap in Hq as (x & -> & Hx). left. by rewrite retire_active.
Qed.
End Histories.

(** ** The operations, in such histories *)

Lemma exec_run {D E} (errDB : E) (f : D -> D) (s : Store D) :
  exec errDB f s = if sfail s (scalls s) then (mkStore (sdb s) (sfail s) (S (scalls s)), Err errDB)
                   else (mkStore (f (sdb s)) (sfail s) (S (scalls s)), Ok tt).
Proof. unfold exec, bind, query. by destruct (sfail s (scalls s)). Qed.

Section Operations.
Context {Priv Pub : Type} (lib : KeyLib Priv Pub) (mk : MasterKey).
Abbreviation step := (key_step lib mk).
Abbreviation Op := (M (Store Keyset) KeyErr).
(** From [p], with the clock at [now], the table is as replicas may have left it. *)
Definition reached (p : Keyset * Z) (now : Z) (ks : Keyset) : Prop := rtc step p (ks, now).

Section At.
Context (p : Keyset * Z) (now : Z).
Lemma keeps_others others : rival lib mk now others -> keeps (E:=KeyErr) (reached p now) (write others).
Proof. intros Hr. apply keeps_write. intros ks H. unfold reached in *; etransitivity; [exact H | apply Hr]. Qed.
Lemma keeps_activeKey : keeps (reached p now) activeKey.
Proof. apply keeps_bind; [apply keeps_select|]. intros [k|]; [apply keeps_ret | apply keeps_throw]. Qed.
Lemma keeps_winner {A} (m : Op A) own : keeps (reached p now) m -> (forall a, keeps (reached p now) (own a)) -> keeps (reached p now) (or_winner m own).
Proof.
  intros Hm Ho. apply keeps_attempt; [exact Hm|]. intros [a|[]]; [apply Ho|..]; try apply keeps_throw.
  case_bool_decide; [apply keeps_activeKey | apply keeps_throw].
Qed.
Lemma keeps_new_key d k : (forall key, buildKey lib mk d now = Some key -> keeps (reached p now) (k key)) ->
  keeps (reached p now) (with_new_key lib (Some mk) d now k).
Proof. intros H. cbn. destruct (buildKey lib mk d now) eqn:Hb; [by apply H | apply keeps_throw]. Qed.
Lemma reached_rotate ks seen d key ks' :
  buildKey lib mk d now = Some key -> insert_key key (demote seen <$> ks) = Ok ks' -> reached p now ks -> reached p now ks'.
Proof. intros Hb Hi H. eapply rtc_r; [exact H|]. by eapply key_rotate. Qed.
Lemma keeps_Generate d : keeps (reached p now) (Generate_key lib (Some mk) d now).
Proof.
  apply keeps_new_key. intros key Hb. apply keeps_winner; [|intros; apply keeps_ret]. apply keeps_exec_or. intros ks ks' H Hi.
  eapply (reached_rotate ks []); [exact Hb| |exact H]. erewrite list_fmap_ext; [rewrite list_fmap_id; exact Hi|]. intros i x _. apply demote_none.
Qed.
Lemma keeps_EnsureActive d others : rival lib mk now others -> keeps (reached p now) (EnsureActive lib (Some mk) d others now).
Proof.
  intros Hr. apply keeps_attempt; [apply keeps_activeKey|]. intros [k|[]]; try apply keeps_throw; [apply keeps_ret|].
  apply keeps_bind; [by apply keeps_others | intros; apply keeps_Generate].
Qed.
Lemma keeps_Rotate d others : rival lib mk now others -> keeps (reached p now) (Rotate lib (Some mk) d others now).
Proof.
  intros Hr. apply keeps_new_key. intros key Hb. apply keeps_bind; [apply keeps_gets|]. intros seen.
  apply keeps_bind; [by apply keeps_others|]. intros _. apply keeps_winner; [|intros; apply keeps_ret].
  apply on_db_txn; [|done]. intros ks Hks. eapply on_db_bind.
  - eapply (on_db_exec _ _ _ (fun ks' x => x = Ok tt -> ks' = demote seen <$> ks)); [by intros ? <- | done].
  - intros []. apply on_db_exec_or; [|done..]. intros ks1 ks' H Hi. specialize (H eq_refl) as ->. by eapply reached_rotate.
  - intros; exact Hks.
Qed.
Lemma keeps_MaybeRotate d o1 o2 every : rival lib mk now o1 -> rival lib mk now o2 ->
  keeps (reached p now) (MaybeRotate lib (Some mk) d o1 o2 every now).
Proof.
  intros H1 H2. apply keeps_bind; [apply keeps_activeKey|]. intros k. destruct (_ <? _); [apply keeps_ret|].
  apply keeps_bind; [by apply keeps_others|]. intros _. apply keeps_bind; [by apply keeps_Rotate | intros; apply keeps_ret].
Qed.
Lemma keeps_Retire : keeps (reached p now) (RetireExpired now).
Proof. apply keeps_exec. intros ks H. eapply rtc_r; [exact H | apply key_retire]. Qed.
End At.

Definition rivals (tk : Tick) : Prop := rival lib mk (tk_now tk) (tk_others1 tk) /\ rival lib mk (tk_now tk) (tk_others2 tk).
Lemma keeps_tick p every tk : rivals tk -> keeps (reached p (tk_now tk)) (tick lib (Some mk) every tk).
Proof.
  intros [H1 H2]. apply keeps_attempt; [by apply keeps_MaybeRotate|]. intros x. apply keeps_attempt; [apply keeps_Retire|].
  intros _. destruct x; [apply keeps_ret | apply keeps_throw].
Qed.

(** *** The key that signs is young after a tick *)

Definition born_after (c : Z) (ks : Keyset) : Prop := forall k, k ∈ ks -> key_active k = true -> c < pk_CreatedAt k.
Lemma insert_key_born c now d key ks ks' : buildKey lib mk d now = Some key -> insert_key key ks = Ok ks' -> c < now -> born_after c ks'.
Proof.
  intros Hb (_ & _ & Ho & ->)%insert_key_inv Hc k Hin Ha. destruct (build_inv _ _ _ _ _ Hb) as (? & ? & ? & _ & _ & _ & _ & _ & _ & Hs & Ht & _).
  apply elem_of_app in Hin as [Hin|Hin]; [|apply list_elem_of_singleton in Hin as ->; lia].
  rewrite Ho in Ha; [done| |done]. unfold key_active. by rewrite Hs.
Qed.
(** The index refuses a second active key only when there is one that the rotation has not seen. *)
Lemma overtaken_born c now key ks ks1 :
  rtc step (ks, now) (ks1, now) -> keyset_sound lib mk ks1 now -> c < now ->
  insert_key key (demote (active_ids ks) <$> ks1) = Err (ErrKeyUnique uniqueActiveKeyConstraint) -> born_after c ks1.
Proof.
  intros Hr [_ _ Ho _] Hc Hi k Hin Ha. unfold insert_key in Hi. case_bool_decide; [by simplify_eq|]. case_bool_decide; [by simplify_eq|].
  destruct (key_active key && existsb _ _) eqn:He; [|done]. apply andb_true_iff in He as [_ He].
  apply existsb_exists in He as (x & Hx & Hax). apply list_elem_of_In, list_elem_of_fmap in Hx as (y & -> & Hy).
  pose proof (demote_active _ _ Hax) as Hd. rewrite Hd in Hax. assert (k = y) as -> by (by apply Ho).
  destruct (active_origin lib mk _ _ y Hr Hy Hax) as [Hseen|Hborn]; cbn in *; [exfalso|lia].
  unfold demote in Hd. rewrite Hax, bool_decide_eq_true_2 in Hd.
  - rewrite <- Hd in Hax. by destruct y.
  - apply list_elem_of_fmap. exists y. split; [done|]. apply list_elem_of_filter. split; [by rewrite Hax | done].
Qed.
Lemma activeKey_run s s' x : activeKey s = (s', x) ->
  sdb s' = sdb s /\ forall k, x = Ok k -> k ∈ sdb s /\ key_active k = true.
Proof.
  unfold activeKey, bind. rewrite select_run. destruct (sfail s (scalls s)); [by intros [= <- <-]|].
  destruct (newest_active (sdb s)) as [k'|] eqn:Hn; unfold ret, throw; intros [= <- <-]; [|done].
  split; [done|]. intros k [= <-]. by apply newest_active_inv.
Qed.
Lemma or_winner_inv {A} (m : Op A) own s s' k : or_winner m own s = (s', Ok k) ->
  (exists a s1, m s = (s1, Ok a) /\ own a s1 = (s', Ok k))
  \/ (exists s1, m s = (s1, Err (ErrKeyUnique uniqueActiveKeyConstraint)) /\ sdb s' = sdb s1).
Proof.
  unfold or_winner, attempt. destruct (m s) as [s1 [a|[]]]; try done; [by left; exists a, s1|]. case_bool_decide as Hc; [|done].
  subst. intros Ha. right. exists s1. split; [done|]. by apply activeKey_run in Ha as [? _].
Qed.
Definition rotation (seen : list Z) (key : ProviderKey) : Op unit :=
  txn ErrKeyDB (do! exec ErrKeyDB (fmap (demote seen)) in exec_or ErrKeyDB (insert_key key)).
Lemma rotation_inv seen key s s' x : rotation seen key s = (s', x) ->
  match x with
  | Ok _ => insert_key key (demote seen <$> sdb s) = Ok (sdb s')
  | Err e => sdb s' = sdb s /\ (e = ErrKeyDB \/ insert_key key (demote seen <$> sdb s) = Err e)
  end.
Proof.
  unfold rotation, txn, bind. rewrite exec_run. destruct (sfail s _); [intros [= <- <-]; auto|]. rewrite exec_or_run. cbn.
  destruct (sfail s _); [intros [= <- <-]; auto|]. cbn. destruct (insert_key _ _) eqn:Hi; cbn; [|intros [= <- <-]; auto].
  unfold query. cbn. destruct (sfail s _); intros [= <- <-]; auto.
Qed.
Lemma Rotate_born c now d others s s' k :
  rival lib mk now others -> c < now -> keyset_sound lib mk (sdb s) now ->
  Rotate lib (Some mk) d others now s = (s', Ok k) -> born_after c (sdb s').
Proof.
  intros Hr Hc Hs. unfold Rotate. cbn [with_new_key]. destruct (buildKey lib mk d now) as [key|] eqn:Hb; [|done].
  intros Hrun. apply bind_ok in Hrun as (seen & s0 & [= <- <-] & Hrun). apply bind_ok in Hrun as ([] & s1 & [= <-] & Hrun).
  pose proof (Hr (sdb s)) as Hrv. pose proof (sound_steps lib mk _ _ Hrv Hs) as Hs1.
  apply or_winner_inv in Hrun as [([] & s2 & Ht & [= <- <-])|(s2 & Ht & E)]; apply rotation_inv in Ht; cbn in Ht.
  - by eapply insert_key_born.
  - destruct Ht as [E2 [|Hi]]; [done|]. rewrite E, E2. by eapply overtaken_born.
Qed.
Lemma MaybeRotate_born now d o1 o2 every s s' b :
  0 < every -> rival lib mk now o1 -> rival lib mk now o2 -> keyset_sound lib mk (sdb s) now ->
  MaybeRotate lib (Some mk) d o1 o2 every now s = (s', Ok b) -> born_after (now - every) (sdb s').
Proof.
  intros He H1 H2 Hs Hr. apply bind_ok in Hr as (k & s1 & Ha & Hr). apply activeKey_run in Ha as [E Ha]. destruct (Ha k eq_refl) as [Hin Hact].
  destruct (Z.ltb_spec (now - pk_CreatedAt k) every) as [Hlt|_].
  - unfold ret in Hr. simplify_eq. rewrite E. intros k' Hin' Ha'. rewrite (s_one _ _ _ _ Hs k' k); [lia | done..].
  - apply bind_ok in Hr as ([] & s2 & [= <-] & Hr). apply bind_ok in Hr as (k2 & s3 & Hr & [= <- _]).
    eapply Rotate_born; [exact H2 | lia | | exact Hr]. cbn. rewrite E. exact (sound_steps lib mk _ _ (H1 (sdb s)) Hs).
Qed.
Lemma tick_born every tk s s' b :
  0 < every -> rivals tk -> keyset_sound lib mk (sdb s) (tk_now tk) ->
  tick lib (Some mk) every tk s = (s', Ok b) -> born_after (tk_now tk - every) (sdb s').
Proof.
  intros He [H1 H2] Hs. unfold tick, attempt at 1. destruct (MaybeRotate _ _ _ _ _ _ _ s) as [s1 x] eqn:Hm.
  unfold attempt, RetireExpired. rewrite exec_run. intros Hr. destruct x as [b'|]; [|by destruct (sfail _ _)].
  pose proof (MaybeRotate_born _ _ _ _ _ _ _ _ He H1 H2 Hs Hm) as Hb. destruct (sfail _ _); unfold ret in Hr; injection Hr as <- _; [exact Hb|].
  intros k Hin Ha. cbn in Hin. apply list_elem_of_fmap in Hin as (y & -> & Hy). rewrite retire_active in Ha |- * by done. by apply Hb.
Qed.

(** *** What is signed with is published *)

Lemma Load_inv t s s' priv kid alg : KeyLaws lib mk -> keyset_sound lib mk (sdb s) t ->
  LoadActiveSigningKey lib (Some mk) s = (s', Ok (priv, kid, alg)) ->
  exists k, k ∈ sdb s /\ key_active k = true /\ kid = pk_KID k /\ alg = pk_Algorithm k
    /\ parseRSAPublicKeyPEM lib (pk_PublicKey k) = Some (public_key lib priv).
Proof.
  intros [Hpem H1 Hpkix Hmk] Hs Hr. apply bind_ok in Hr as (k & s1 & Ha & Hr). apply activeKey_run in Ha as [_ Ha]. destruct (Ha k eq_refl) as [Hin Hact].
  destruct (s_rows _ _ _ _ Hs k Hin) as [(p & d & Hb & Hg) _ _]. destruct (build_inv _ _ _ _ _ Hb) as (p' & der & enc & Hg' & Hm & Henc & Hpub & Hpriv & _).
  rewrite Hg in Hg'. injection Hg' as <-. cbn in Hpub, Hpriv. rewrite Hpriv, (Hmk _ _ _ Henc) in Hr. unfold parseRSAPrivateKeyPEM in Hr.
  rewrite Hpem in Hr. cbn in Hr. rewrite H1 in Hr. unfold ret in Hr. simplify_eq. exists k. split_and!; try done.
  unfold parseRSAPublicKeyPEM. rewrite Hpub, Hpem. cbn. by rewrite (Hpkix _ _ Hm).
Qed.
Lemma published_iff ks t k st :
  keyset_sound lib mk ks t -> set_key_status st k ∈ ks -> t <= pk_CreatedAt k + SigningTTL ->
  forall pub, parseRSAPublicKeyPEM lib (pk_PublicKey k) = Some pub ->
  forall vk, vk ∈ omap (verification_key lib) (published_rows ks) /\ vk_KID vk = pk_KID k
             <-> vk = mkVerificationKey (pk_KID k) (pk_Algorithm k) pub.
Proof.
  intros Hs Hin Ht pub Hp vk.
  assert (set_key_status st k ∈ published_rows ks) as Hpr.
  { unfold published_rows. rewrite merge_sort_Permutation. apply list_elem_of_filter. split; [|done].
    destruct (s_rows _ _ _ _ Hs _ Hin) as [_ _ Hst]. cbn in *. destruct Hst as [?|[?|[_ ?]]]; [by left | by right | lia]. }
  assert (verification_key lib (set_key_status st k) = Some (mkVerificationKey (pk_KID k) (pk_Algorithm k) pub)) as Hv.
  { unfold verification_key. cbn. by rewrite Hp. }
  split.
  - intros [Hvk Hkid]. apply list_elem_of_omap in Hvk as (k' & Hk' & Hvk'). unfold published_rows in Hk'. rewrite merge_sort_Permutation in Hk'.
    apply list_elem_of_filter in Hk' as [_ Hk'].
    assert (pk_KID k' = vk_KID vk) as Hkk. { unfold verification_key in Hvk'. destruct (parseRSAPublicKeyPEM lib (pk_PublicKey k')); [|done]. by injection Hvk' as <-. }
    assert (k' = set_key_status st k) as ->; [|congruence].
    apply list_elem_of_lookup in Hk' as (i & Hi). apply list_elem_of_lookup in Hin as (j & Hj).
    assert (i = j) as ->; [|congruence]. apply (NoDup_lookup (pk_KID <$> ks) i j (pk_KID k)); [exact (s_kids _ _ _ _ Hs) | |].
    + rewrite list_lookup_fmap, Hi. cbn. congruence.
    + rewrite list_lookup_fmap, Hj. done.
  - intros ->. split; [|done]. apply list_elem_of_omap. eauto.
Qed.

(** C33: a token verifies for its whole life: a key that signs after a tick that has worked, and before the
    next is due, is published under its id, alone, as long as any token lives whose life is shorter than
    that of a key less the period of rotation and one interval, whatever replicas commit meanwhile. *)
Theorem issued_tokens_verify every t0 tk s s1 b s2 t2 s2' priv kid alg s3 t3 s3' keys :
  KeyLaws lib mk -> 0 < every -> key_history lib mk t0 (sdb s) (tk_now tk) -> rivals tk ->
  tick lib (Some mk) every tk s = (s1, Ok b) ->
  rtc step (sdb s1, tk_now tk) (sdb s2, t2) -> t2 <= tk_now tk + rotation_interval every ->
  SigningKey lib (Some mk) s2 = (s2', Ok (kid, alg, priv)) ->
  rtc step (sdb s2, t2) (sdb s3, t3) -> t3 <= t2 + (SigningTTL - every - rotation_interval every) ->
  KeySet lib s3 = (s3', Ok keys) ->
  forall e, e ∈ keys /\ e.1.1 = kid <-> e = (kid, alg, public_key lib priv).
Proof.
  intros Hlaws He Hh Hrv Htick H12 Ht2 Hsign H23 Ht3 Hkeys. pose proof (sound_history _ _ _ _ _ Hh) as Hs.
  assert (rtc step (sdb s, tk_now tk) (sdb s1, tk_now tk)) as H01.
  { pose proof (keeps_run (reached (sdb s, tk_now tk) (tk_now tk)) _ s (keeps_tick _ every tk Hrv)) as H. rewrite Htick in H. apply H. apply rtc_refl. }
  pose proof (tick_born _ _ _ _ _ He Hrv Hs Htick) as Hborn. pose proof (sound_steps _ _ _ _ H01 Hs) as Hs1.
  pose proof (sound_steps _ _ _ _ H12 Hs1) as Hs2. pose proof (sound_steps _ _ _ _ H23 Hs2) as Hs3.
  apply bind_ok in Hsign as ([[p kid'] alg'] & s4 & Hl & [= <- <- <- <-]).
  apply (Load_inv t2) in Hl as (k & Hin & Hact & -> & -> & Hpub); [|done|exact Hs2].
  assert (tk_now tk - every < pk_CreatedAt k) as Hc.
  { destruct (active_origin lib mk _ _ k H12 Hin Hact) as [Hin1|Hge]; cbn in *; [by apply Hborn | lia]. }
  destruct (key_stays lib mk _ _ k H23 Hin) as (st & Hst).
  apply bind_ok in Hkeys as (vks & s5 & Hk & [= <- <-]). unfold ListVerificationKeys in Hk. rewrite select_run in Hk.
  destruct (sfail _ _); [done|]. injection Hk as _ <-.
  pose proof (published_iff _ t3 k st Hs3 Hst ltac:(lia) _ Hpub) as Hiff. intros [[kd al] pb]. split.
  - intros [Hine E]. cbn in E. apply list_elem_of_fmap in Hine as ([kd' al' pb'] & Heq & Hvk). injection Heq as -> -> ->. cbn in *. subst kd'.
    assert (mkVerificationKey (pk_KID k) al' pb' = mkVerificationKey (pk_KID k) (pk_Algorithm k) (public_key lib p)) as Heq by (by apply (proj1 (Hiff _))).
    by injection Heq as -> ->.
  - intros [= -> -> ->]. split; [|done]. apply list_elem_of_fmap. exists (mkVerificationKey (pk_KID k) (pk_Algorithm k) (public_key lib p)). split; [done|]. exact (proj1 (proj2 (Hiff _) eq_refl)).
Qed.

(** A term of leadership that is shorter than the interval does not rotate, however old the key. *)
Lemma short_term_never_rotates start until every first ticks s k :
  ticker start until every ticks -> until < start + rotation_interval every -> healthy_from s -> newest_active (sdb s) = Some k ->
  sdb (RunRotation lib (Some mk) every first ticks s).1 = sdb s.
Proof.
  intros Ht Hu Hh Hk. assert (ticks = []) as ->.
  { destruct ticks as [|tk rest]; [done|]. apply Forall_cons in Ht as [Ht _]. lia. }
  unfold RunRotation, attempt at 1, EnsureActive, attempt, activeKey, bind at 1. rewrite select_run, (Hh (scalls s)) by done.
  rewrite Hk. cbn. by destruct (every <=? 0).
Qed.
End Operations.

(** ** Runs *)

Module KeyDemo.
Definition lib : KeyLib string string :=
  mkKeyLib _ _ Some (fun p => "pub " +:+ p)%string (fun p => p) Some (fun _ b => b) Some Some (fun _ => None) (fun b => Some (Some b)).
Definition mk : MasterKey := mkMasterKey (fun _ p => Some p) Some.
Definition day : Z := 24 * Hour.
Definition draw (id : Z) (name : string) : KeyDraw := mkKeyDraw id name "" (Some ("kid " +:+ name)%string).
Definition at_rest (ks : Keyset) : Store Keyset := mkStore ks (fun _ => false) 0.
Definition key1 : ProviderKey :=
  mkProviderKey 1 "kid a" "RS256" "pub a" "a" KeyActive 0 (Some SigningTTL) 0.
Definition rotate_at (t : Z) : Tick := mkTick t (draw 2 "b") (fun ks => ks) (fun ks => ks).
Definition after (t : Z) : Keyset := sdb (tick lib (Some mk) DefaultRotationEvery (rotate_at t) (at_rest [key1])).1.
Definition signs (ks : Keyset) := (SigningKey lib (Some mk) (at_rest ks)).2.
Definition publishes (ks : Keyset) := (KeySet lib (at_rest ks)).2.

Example rotation_overlaps : signs (after (91 * day)) = Ok ("kid b", RS256, "b")%string
  /\ publishes (after (91 * day)) = Ok [("kid b", RS256, "pub b"); ("kid a", RS256, "pub a")]%string.
Proof. vm_compute. by split. Qed.
(** The first tick after a year without one: the key that has signed until then is demoted and retired in
    one go, and what it signed no longer verifies. *)
Example late_rotation_drops_key : signs [key1] = Ok ("kid a", RS256, "a")%string
  /\ publishes (after (366 * day)) = Ok [("kid b", RS256, "pub b")]%string.
Proof. vm_compute. by split. Qed.
(** Weekly terms: the interval is seven days and a half. *)
Example weekly_terms_never_tick : 7 * day < rotation_interval DefaultRotationEvery.
Proof. vm_compute. done. Qed.

Lemma key_laws_hold : KeyLaws lib mk.
Proof. split; [done | done | by intros pub der [= <-] | by intros n p c [= <-]]. Qed.
Lemma first_key : key_history lib mk 0 [key1] (91 * day).
Proof.
  eapply rtc_l; [by apply (key_rotate lib mk [] 0 [] (draw 1 "a") key1 [key1])|]. apply rtc_once, key_time. unfold day, Hour, Minute, Second, Millisecond. lia.
Qed.
Lemma issued_tokens_verify_witness :
  exists keys, publishes (after (91 * day)) = Ok keys
    /\ forall e, e ∈ keys /\ e.1.1 = "kid b"%string <-> e = ("kid b", RS256, "pub b")%string.
Proof.
  eexists. split; [vm_compute; reflexivity|].
  apply (issued_tokens_verify lib mk DefaultRotationEvery 0 (rotate_at (91 * day)) (at_rest [key1])
           (tick lib (Some mk) DefaultRotationEvery (rotate_at (91 * day)) (at_rest [key1])).1 true
           (at_rest (after (91 * day))) (91 * day) (SigningKey lib (Some mk) (at_rest (after (91 * day)))).1 "b" "kid b" RS256
           (at_rest (after (91 * day))) (250 * day) (KeySet lib (at_rest (after (91 * day)))).1).
  - exact key_laws_hold.
  - by vm_compute.
  - exact first_key.
  - split; intros ks; apply rtc_refl.
  - vm_compute. reflexivity.
  - apply rtc_refl.
  - by vm_compute.
  - vm_compute. reflexivity.
  - apply rtc_once, key_time. by vm_compute.
  - by vm_compute.
  - vm_compute. reflexivity.
Defined.
End KeyDemo.
