(* ===== verification/Offboarding.v ===== *)
(** * Offboarding: when somebody leaves

    src/internal/domain/offboarding: model.go, repository.go, service.go, handler.go and the adapters
    of register.go; src/internal/domain/provisioning; and the adapters for them in src/app. An
    offboarding disables an account of User.v, tells the clients of GlobalLogout.v, cuts the sessions
    of Session.v and leaves a list of applications for somebody to go through. *)

From stdpp Require Import sorting.
From Stdlib Require Import Ascii.
From S2P Require Import SessionProps CasTickets Session UserRevocation User UserProps.
From S2P Require Import Redis Statements Prelude Text Saml GlobalLogout.
#[global] Open Scope Z_scope.

(** ** model.go *)

Definition TaskStatusOpen : Z := 0.
Definition TaskStatusResolved : Z := 1.
Definition ItemStatusPending : Z := 0.
Definition ItemStatusDone : Z := 1.
Definition TierL1 : string := "L1".
Definition TierL2 : string := "L2".

Record Task : Type := mkTask {
  ot_ID : Z; ot_TenantID : Z; ot_UserID : Z; ot_Username : string; ot_Status : Z; ot_SessionsKilled : Z; ot_ItemCount : Z;
  ot_DoneCount : Z; ot_CreatedBy : option Z; ot_CreatedAt : Z
}.
Record Item : Type := mkItem {
  oi_ID : Z; oi_TaskID : Z; oi_TenantID : Z; oi_AppID : Z; oi_AppName : string; oi_AppCode : string; oi_Tier : string;
  oi_Status : Z; oi_DoneBy : option Z; oi_DoneAt : option Z; oi_CreatedAt : Z
}.
Record AppRef : Type := mkAppRef { ar_ID : Z; ar_Name : string; ar_Code : string; ar_Tier : string }.

(** ** repository.go: the two tables, which no scope filters *)

Record Review : Type := mkReview { tasks : gmap Z Task; items : gmap Z Item }.
Inductive RevErr : Type := ErrRevDB | ErrRevDuplicate | ErrRevNotFound.
Abbreviation RevOp := (M (Store Review) RevErr).

Definition insert_task (t : Task) (rv : Review) : res RevErr Review :=
  if bool_decide (is_Some (tasks rv !! ot_ID t)) then Err ErrRevDuplicate else Ok (mkReview (<[ot_ID t := t]> (tasks rv)) (items rv)).
(** One INSERT of all rows. *)
Fixpoint insert_items (l : list Item) (rv : Review) : res RevErr Review :=
  match l with
  | [] => Ok rv
  | i :: rest =>
      if bool_decide (is_Some (items rv !! oi_ID i)) then Err ErrRevDuplicate
      else insert_items rest (mkReview (tasks rv) (<[oi_ID i := i]> (items rv)))
  end.
Definition CreateTaskWithItems (task : Task) (l : list Item) : RevOp unit :=
  txn ErrRevDB (
    do! exec_or ErrRevDB (insert_task task) in
    if bool_decide (l = []) then ret tt else exec_or ErrRevDB (insert_items l)).

Definition task_newer (a b : Task) : Prop := ot_CreatedAt b <= ot_CreatedAt a.
#[export] Instance task_newer_dec : RelDecision task_newer.
Proof. intros a b. unfold task_newer. apply _. Defined.
Definition tasks_of (tenantID : Z) (rv : Review) : list Task := filter (fun t => ot_TenantID t = tenantID) (map_to_list (tasks rv)).*2.
Definition ListTasks (tenantID limit offset : Z) : RevOp (list Task * Z) :=
  let! total := select ErrRevDB (fun rv => Z.of_nat (length (tasks_of tenantID rv))) in
  let! rows := select ErrRevDB (fun rv => take (Z.to_nat limit) (drop (Z.to_nat offset) (merge_sort task_newer (tasks_of tenantID rv)))) in
  ret (rows, total).
Definition item_first (a b : Item) : Prop := oi_Status a < oi_Status b \/ (oi_Status a = oi_Status b /\ oi_CreatedAt a <= oi_CreatedAt b).
#[export] Instance item_first_dec : RelDecision item_first.
Proof. intros a b. unfold item_first. apply _. Defined.
Definition ListItems (tenantID taskID : Z) : RevOp (list Item) :=
  select ErrRevDB (fun rv => merge_sort item_first (filter (fun i => oi_TenantID i = tenantID /\ oi_TaskID i = taskID) (map_to_list (items rv)).*2)).

Definition done_item (doneBy now : Z) (i : Item) : Item :=
  mkItem (oi_ID i) (oi_TaskID i) (oi_TenantID i) (oi_AppID i) (oi_AppName i) (oi_AppCode i) (oi_Tier i) ItemStatusDone (Some doneBy) (Some now)
    (oi_CreatedAt i).
Definition mark_item (itemID doneBy now : Z) (rv : Review) : Review := mkReview (tasks rv) (alter (done_item doneBy now) itemID (items rv)).
Definition items_of (taskID : Z) (rv : Review) : gmap Z Item := filter (fun p : Z * Item => oi_TaskID p.2 = taskID) (items rv).
Definition count_items (taskID : Z) (rv : Review) : Z := Z.of_nat (size (items_of taskID rv)).
Definition count_done (taskID : Z) (rv : Review) : Z :=
  Z.of_nat (size (filter (fun p : Z * Item => oi_Status p.2 = ItemStatusDone) (items_of taskID rv))).
Definition set_progress (d total : Z) (t : Task) : Task :=
  mkTask (ot_ID t) (ot_TenantID t) (ot_UserID t) (ot_Username t)
    (if (0 <? total) && (total <=? d) then TaskStatusResolved else TaskStatusOpen) (ot_SessionsKilled t) (ot_ItemCount t) d (ot_CreatedBy t)
    (ot_CreatedAt t).
Definition set_task (taskID d total : Z) (rv : Review) : Review := mkReview (alter (set_progress d total) taskID (tasks rv)) (items rv).
Definition repo_MarkItemDone (tenantID itemID doneBy now : Z) : RevOp Z :=
  txn ErrRevDB (
    let! o := select ErrRevDB (fun rv => items rv !! itemID) in
    match o with
    | Some item =>
        if negb (oi_TenantID item =? tenantID) then throw ErrRevNotFound else
        if oi_Status item =? ItemStatusDone then ret (oi_TaskID item) else
        do! exec ErrRevDB (mark_item itemID doneBy now) in
        let! d := select ErrRevDB (count_done (oi_TaskID item)) in
        let! total := select ErrRevDB (count_items (oi_TaskID item)) in
        do! exec ErrRevDB (set_task (oi_TaskID item) d total) in
        ret (oi_TaskID item)
    | None => throw ErrRevNotFound
    end).

(** ** provisioning *)

Record Config : Type := mkConfig {
  pc_AppID : Z; pc_TenantID : Z; pc_Enabled : bool; pc_Connector : string; pc_BaseURL : string; pc_TokenEnc : string;
  pc_CreatedAt : option Z; pc_UpdatedAt : Z
}.
Definition ConnectorSCIM2 : string := "scim2".
Inductive ProvErr : Type := ErrProvDB | ErrNotFound | ErrNoTenantScope | ErrProvCrypto.
Record View : Type := mkView { vw_AppID : Z; vw_Enabled : bool; vw_Connector : string; vw_BaseURL : string; vw_TokenSet : bool }.
Record SaveInput : Type := mkSaveInput {
  in_AppID : Z; in_TenantID : Z; in_Enabled : bool; in_Connector : string; in_BaseURL : string; in_Token : string
}.

Section Provisioning.
Abbreviation Configs := (gmap Z Config).
Abbreviation ProvOp := (M (Store Configs) ProvErr).
(** gorm's Save of a row whose key is set, by a request of a tenant. *)
Context (gorm_Save : Z -> Config -> Configs -> res ProvErr Configs).
Context (Encrypt Decrypt : string -> option string).
(** The tenant the request is pinned to, if any. *)
Context (scope : option Z).

Definition GetByApp (appID : Z) : ProvOp Config :=
  match scope with
  | None => throw ErrNoTenantScope
  | Some t =>
      let! o := select ErrProvDB (fun cs : Configs => c ← cs !! appID; if pc_TenantID c =? t then Some c else None) in
      match o with Some c => ret c | None => throw ErrNotFound end
  end.
Definition stamped (now : Z) (c : Config) : Config :=
  mkConfig (pc_AppID c) (pc_TenantID c) (pc_Enabled c) (pc_Connector c) (pc_BaseURL c) (pc_TokenEnc c)
    (Some (default now (pc_CreatedAt c))) now.
Definition Upsert (now : Z) (c : Config) : ProvOp unit :=
  match scope with None => throw ErrNoTenantScope | Some t => exec_or ErrProvDB (gorm_Save t (stamped now c)) end.

Definition prov_Get (appID : Z) : ProvOp View :=
  attempt (GetByApp appID) (fun x =>
    match x with
    | Err ErrNotFound => ret (mkView appID false ConnectorSCIM2 "" false)
    | Err e => throw e
    | Ok c => ret (mkView (pc_AppID c) (pc_Enabled c) (pc_Connector c) (pc_BaseURL c) (bool_decide (pc_TokenEnc c <> ""%string)))
    end).
Definition prov_Save (now : Z) (inp : SaveInput) : ProvOp unit :=
  let connector := if bool_decide (in_Connector inp = ""%string) then ConnectorSCIM2 else in_Connector inp in
  attempt (GetByApp (in_AppID inp)) (fun x =>
    let save (tokenEnc : string) (createdAt : option Z) :=
      Upsert now (mkConfig (in_AppID inp) (in_TenantID inp) (in_Enabled inp) connector (in_BaseURL inp) tokenEnc createdAt 0) in
    let with_token (old : string) (createdAt : option Z) :=
      if bool_decide (in_Token inp = ""%string) then save old createdAt else
      match Encrypt (in_Token inp) with None => throw ErrProvCrypto | Some enc => save enc createdAt end in
    match x with
    | Ok c => with_token (pc_TokenEnc c) (pc_CreatedAt c)
    | Err ErrNotFound => with_token ""%string None
    | Err e => throw e
    end).
Definition prov_Enabled (appID : Z) : ProvOp bool :=
  attempt (GetByApp appID) (fun x => ret match x with Ok c => pc_Enabled c && bool_decide (pc_BaseURL c <> ""%string) | Err _ => false end).
(** Enabled, the connector, its address and its token. *)
Definition Resolved (appID : Z) : ProvOp (bool * string * string * string) :=
  attempt (GetByApp appID) (fun x =>
    match x with
    | Err ErrNotFound => ret (false, "", "", "")%string
    | Err e => throw e
    | Ok c =>
        if negb (pc_Enabled c) then ret (false, pc_Connector c, pc_BaseURL c, ""%string) else
        if bool_decide (pc_TokenEnc c = ""%string) then ret (true, pc_Connector c, pc_BaseURL c, ""%string) else
        match Decrypt (pc_TokenEnc c) with
        | None => throw ErrProvCrypto
        | Some plain => ret (true, pc_Connector c, pc_BaseURL c, plain)
        end
    end).
End Provisioning.

(** ** The footprint of a user: src/app/offboarding_footprint.go *)

Record FootEnv : Type := mkFootEnv {
  fe_AppsForUser : Z -> Z -> option (list Z);
  (** id, name and code *)
  fe_GetByIDs : list Z -> option (list (Z * string * string));
  fe_Enabled : Z -> bool
}.
(** registry.IsFeatureRegistered and License.Has of SCIM *)
Definition scimAvailable (registered licensed : bool) : bool := registered && licensed.
Definition ForUser (env : FootEnv) (registered licensed : bool) (userID tenantID : Z) : option (list AppRef) :=
  match fe_AppsForUser env userID tenantID with
  | None => None
  | Some [] => Some []
  | Some ids =>
      let scim := scimAvailable registered licensed in
      option_map (fmap (M:=list) (fun '(id, name, code) => mkAppRef id name code (if scim && fe_Enabled env id then TierL2 else TierL1))) (fe_GetByIDs env ids)
  end.

(** ** service.go *)

(** What is put into the outbox: offboarding_webhook.go and offboarding_deprovision.go *)
Inductive OffMessage : Type :=
| WebhookKind (tenantID taskID userID : Z) (username : string) (apps : list AppRef)
| ScimKind (tenantID appID userID : Z) (username email : string).
Record OffEnv : Type := mkOffEnv {
  oe_ForUser : Z -> Z -> option (list AppRef);
  (** the settings of the webhook of a tenant: whether it is on, and its address *)
  oe_OffboardingWebhook : Z -> option (bool * string);
  (** the outbox takes the message *)
  oe_Enqueue : OffMessage -> bool
}.
Definition webhook_Enabled (env : OffEnv) (tenantID : Z) : bool :=
  match oe_OffboardingWebhook env tenantID with Some (enabled, url) => enabled && bool_decide (url <> ""%string) | None => false end.

(** KillAllByUser's list of namespaces *)
Definition kill_namespaces : list string := [NamespaceConsole; NamespacePortal; NamespaceProtocol].
Definition with_tier (r : AppRef) : AppRef := if bool_decide (ar_Tier r = ""%string) then mkAppRef (ar_ID r) (ar_Name r) (ar_Code r) TierL1 else r.

Record OffEvent : Type := mkOffEvent { ev_user_id : Z; ev_tenant_id : Z; ev_username : string; ev_sessions_killed : Z }.

Section Service.
Context {G : Type} `{!IdGen G}.
Record OffWorld : Type := mkOff {
  ow_users : Store (UserWorld G);
  ow_net : SamlWorld;
  ow_review : Store Review;
  ow_gen : G;
  (** the outbox, the logout tokens sent off, and the bus *)
  ow_outbox : list OffMessage;
  ow_told : list (Z * string);
  ow_events : list OffEvent
}.
Abbreviation Op := (M OffWorld UErr).
Context (m : Manager) (policy : Policy) (scope : option Z) (env : OffEnv).

Definition on_users {A} (o : M (Store (UserWorld G)) UErr A) : Op A := fun w =>
  let '(s, x) := o (ow_users w) in (mkOff s (ow_net w) (ow_review w) (ow_gen w) (ow_outbox w) (ow_told w) (ow_events w), x).
Definition on_net {A B} (o : Saml.Op A) (k : res RErr A -> Op B) : Op B := fun w =>
  let '(n, x) := o (ow_net w) in k x (mkOff (ow_users w) n (ow_review w) (ow_gen w) (ow_outbox w) (ow_told w) (ow_events w)).
Definition on_review {A B} (o : RevOp A) (k : res RevErr A -> Op B) : Op B := fun w =>
  let '(s, x) := o (ow_review w) in k x (mkOff (ow_users w) (ow_net w) s (ow_gen w) (ow_outbox w) (ow_told w) (ow_events w)).
Definition new_off_id : Op Z := fun w =>
  let '(g, id) := Generate (ow_gen w) in (mkOff (ow_users w) (ow_net w) (ow_review w) g (ow_outbox w) (ow_told w) (ow_events w), Ok id).
Definition tell (l : list (Z * string)) : Op unit :=
  modify (fun w => mkOff (ow_users w) (ow_net w) (ow_review w) (ow_gen w) (ow_outbox w) (ow_told w ++ l) (ow_events w)).
Definition announce (e : OffEvent) : Op unit :=
  modify (fun w => mkOff (ow_users w) (ow_net w) (ow_review w) (ow_gen w) (ow_outbox w) (ow_told w) (ow_events w ++ [e])).
(** An error is logged. *)
Definition enqueue (msg : OffMessage) : Op unit :=
  modify (fun w => mkOff (ow_users w) (ow_net w) (ow_review w) (ow_gen w) (if oe_Enqueue env msg then ow_outbox w ++ [msg] else ow_outbox w)
                     (ow_told w) (ow_events w)).

(** How many sessions there were, and the first error. *)
Fixpoint KillAllByUser (namespaces : list string) (userID total : Z) (firstErr : option RErr) : Session.Op (Z * option RErr) :=
  match namespaces with
  | [] => ret (total, firstErr)
  | ns :: rest =>
      attempt (ListByUser m policy ns userID) (fun x =>
        match x with
        | Err e => KillAllByUser rest userID total (match firstErr with None => Some e | _ => firstErr end)
        | Ok sessions =>
            attempt (DeleteAllByUser m policy ns userID) (fun y =>
              let err := match y, firstErr with Err e, None => Some e | _, _ => firstErr end in
              KillAllByUser rest userID (total + Z.of_nat (length sessions)) err)
        end)
  end.
(** Empty and zero for a user who is not found. *)
Definition Lookup (userID : Z) : Op (string * string * Z) :=
  attempt (on_users (GetByID scope userID)) (fun x =>
    ret match x with Ok u => (u_Username u, default ""%string (u_Email u), u_TenantID u) | Err _ => (""%string, ""%string, 0) end).

Fixpoint make_items (taskID tenantID now : Z) (refs : list AppRef) : Op (list Item) :=
  match refs with
  | [] => ret []
  | r :: rest =>
      let! id := new_off_id in
      let! l := make_items taskID tenantID now rest in
      ret (mkItem id taskID tenantID (ar_ID r) (ar_Name r) (ar_Code r) (ar_Tier r) ItemStatusPending None None now :: l)
  end.
Fixpoint deprovision (tenantID userID : Z) (username email : string) (refs : list AppRef) : Op unit :=
  match refs with
  | [] => ret tt
  | r :: rest =>
      do! (if bool_decide (ar_Tier r = TierL2) then enqueue (ScimKind tenantID (ar_ID r) userID username email) else ret tt) in
      deprovision tenantID userID username email rest
  end.
Definition record_review (userID actorID now killed : Z) (username email : string) (tenantID : Z) : Op unit :=
  let! taskID := new_off_id in
  let refs := with_tier <$> default [] (oe_ForUser env userID tenantID) in
  let! l := make_items taskID tenantID now refs in
  let status := if bool_decide (l = []) then TaskStatusResolved else TaskStatusOpen in
  let task := mkTask taskID tenantID userID username status killed (Z.of_nat (length l)) 0 (if 0 <? actorID then Some actorID else None) now in
  on_review (CreateTaskWithItems task l) (fun x =>
    match x with
    | Err _ => ret tt
    | Ok _ =>
        do! (if webhook_Enabled env tenantID then enqueue (WebhookKind tenantID taskID userID username refs) else ret tt) in
        deprovision tenantID userID username email refs
    end).
(** [subscribers]: what those who hear of the disabled account have done to its sessions by the time the
    clients are told; they run beside the request. *)
Definition Offboard (subscribers : SamlWorld -> SamlWorld) (userID actorID now : Z) : Op unit :=
  do! on_users (UpdateStatus scope userID StatusDisabled) in
  on_net (fun n => (subscribers n, Ok tt)) (fun _ =>
  on_net (LogoutUser m policy userID) (fun told =>
  do! tell (match told with Ok l => l | Err _ => [] end) in
  on_net (in_sessions (KillAllByUser kill_namespaces userID 0 None)) (fun x =>
  let killed := match x with Ok (n, _) => n | Err _ => 0 end in
  let! '(username, email, tenantID) := Lookup userID in
  do! record_review userID actorID now killed username email tenantID in
  announce (mkOffEvent userID tenantID username killed)))).
Definition MarkItemDone (tenantID itemID actorID now : Z) : M OffWorld RevErr unit := fun w =>
  let '(s, x) := repo_MarkItemDone tenantID itemID actorID now (ow_review w) in
  (mkOff (ow_users w) (ow_net w) s (ow_gen w) (ow_outbox w) (ow_told w) (ow_events w), match x with Ok _ => Ok tt | Err e => Err e end).

(** ** handler.go: the status and the code of an error *)

Inductive OffReply : Type := Answered | Failed (http num : Z).
Definition with_param (param : string) (k : Z -> M OffWorld UErr OffReply) : M OffWorld UErr OffReply :=
  let '(id, ok) := ParseInt param in if ok then k id else ret (Failed 400 40001).
Definition Offboard_handler (subscribers : SamlWorld -> SamlWorld) (param : string) (actorID now : Z) : Op OffReply :=
  with_param param (fun id =>
    attempt (Offboard subscribers id actorID now) (fun x =>
      ret match x with Ok _ => Answered | Err ErrUserNotFound => Failed 404 40401 | Err _ => Failed 500 50001 end)).
Definition MarkItemDone_handler (tenantID : Z) (param : string) (actorID now : Z) : Op OffReply :=
  with_param param (fun id w =>
    let '(w', x) := MarkItemDone tenantID id actorID now w in (w', Ok (match x with Ok _ => Answered | Err _ => Failed 500 50001 end))).
End Service.
Arguments OffWorld : clear implicits.

(** ** The sessions and the account *)

Section Cut.
Context {G : Type} `{!IdGen G} (m : Manager) (policy : Policy) (scope : option Z) (env : OffEnv).
Abbreviation W := (OffWorld G).
Abbreviation Op := (M W UErr).

Lemma KillAll_spec A namespaces u total err r r' x :
  fine r -> indexed A r -> (forall ns, ns ∈ namespaces -> known_ns ns) -> KillAllByUser m policy namespaces u total err r = (r', x) ->
  shrinks A r r' /\ forall ns id s, ns ∈ namespaces -> has r' ns id s -> UserID s <> u.
Proof.
  revert total err r. induction namespaces as [|ns rest IH]; intros total err r Hf Hi Hns; cbn [KillAllByUser].
  { unfold ret. intros [= <- _]. split; [by apply same_shrinks|]. intros ns id s Hin. by apply elem_of_nil in Hin. }
  unfold attempt. destruct (ListByUser m policy ns u r) as [r1 y] eqn:Hl.
  apply (ListByUser_spec m policy A) in Hl as (Hsh1 & l & -> & _); [|done|done|apply Hns; left].
  destruct (DeleteAllByUser m policy ns u r1) as [r2 z] eqn:Hd.
  apply (DeleteAllByUser_spec m A) in Hd as (Hsh2 & _ & Hgone); [|by eapply fine_env; [apply Hsh1|]|apply Hsh1|apply Hns; left].
  assert (shrinks A r r2) as Hsh by (by eapply shrinks_trans). intros Hr.
  apply IH in Hr as [Hsh3 Hrest]; [|by eapply fine_env; [apply Hsh|]|apply Hsh|intros; apply Hns; by right].
  split; [by eapply shrinks_trans|]. intros ns' id s Hin Hh. apply elem_of_cons in Hin as [->|Hin]; [|by eapply Hrest].
  apply (Hgone id). eapply Hsh3; [apply Hns; left | done].
Qed.

Lemma UpdateStatus_sets id st (s s' : Store (UserWorld G)) : UpdateStatus scope id st s = (s', Ok tt) ->
  exists u, users (sdb s') !! id = Some u /\ u_Status u = st.
Proof.
  intros Hr. set (P := fun w : UserWorld G => exists u, users w !! id = Some u /\ u_Status u = st).
  assert (on_db (fun _ => True) (UpdateStatus scope id st) (fun w x => x = Ok tt -> P w)) as H; [|specialize (H s I); rewrite Hr in H; by apply H].
  unfold UpdateStatus. eapply (on_db_bind _ _ _ (fun w x => x = Ok tt -> P w)); [|intros []|done].
  - unfold or_user_not_found. eapply (on_db_attempt _ _ _ (fun w x => x = Ok tt -> P w)).
    + unfold repo_UpdateStatus. eapply (on_db_bind _ _ _ (fun _ _ => True)); [done| |done]. intros t. apply on_db_exec_or; [|done..].
      intros w w' _. unfold update_user. destruct (users w !! id) as [u|]; [|done]. destruct (user_live _ _); [|done]. intros [= <-] _.
      eexists. cbn. split; [apply lookup_insert_eq | done].
    + intros x. destruct x as [[]|e]; [|by destruct e; apply on_db_throw]. apply on_db_ret. auto.
  - eapply on_db_attempt; [eapply on_db_weaken; [apply (keeps_repo_GetByID scope P id) | | ]|].
    + intros w Hw. by apply Hw.
    + intros w x Hw. exact Hw.
    + intros x. apply on_db_write. intros w Hw _. exact Hw.
Qed.

(** What leaves the account, the sessions, the notices and the bus alone, and does not fail. *)
Definition frame (w w' : W) : Prop :=
  sdb (ow_users w') = sdb (ow_users w) /\ ow_net w' = ow_net w /\ ow_told w' = ow_told w /\ ow_events w' = ow_events w.
Definition framed {A} (o : Op A) : Prop := forall w, frame w (o w).1 /\ exists a, (o w).2 = Ok a.
Lemma framed_ret {A} (a : A) : framed (ret a).
Proof. intros w. split; [done | by exists a]. Qed.
Lemma framed_bind {A B} (o : Op A) (k : A -> Op B) : framed o -> (forall a, framed (k a)) -> framed (bind o k).
Proof.
  intros Ho Hk w. unfold bind. destruct (Ho w) as [(E1 & E2 & E3 & E4) [a Ha]]. destruct (o w) as [w1 x]. cbn in *. subst x.
  destruct (Hk a w1) as [(F1 & F2 & F3 & F4) Hb]. split; [|done]. repeat split; congruence.
Qed.
Lemma framed_new_id : framed new_off_id.
Proof. intros w. unfold new_off_id. destruct (Generate _). split; [done | by eexists]. Qed.
Lemma framed_enqueue msg : framed (enqueue env msg).
Proof. intros w. split; [done | by exists tt]. Qed.
Lemma framed_review {A B} (o : RevOp A) (k : res RevErr A -> Op B) : (forall x, framed (k x)) -> framed (on_review o k).
Proof. intros Hk w. unfold on_review. destruct (o _) as [s x]. apply (Hk x (mkOff _ _ s _ _ _ _)). Qed.
Local Hint Resolve framed_ret framed_new_id framed_enqueue : mxid.
Lemma framed_items tid t now refs : framed (make_items tid t now refs).
Proof. induction refs as [|r rest IH]; cbn; [apply framed_ret|]. apply framed_bind; [eauto with mxid|]. intros id. by apply framed_bind; [|eauto with mxid]. Qed.
Lemma framed_deprovision t u n e refs : framed (deprovision env t u n e refs).
Proof.
  induction refs as [|r rest IH]; cbn; [apply framed_ret|]. apply framed_bind; [case_bool_decide; eauto with mxid | done].
Qed.
Lemma framed_record u actor now killed n e t : framed (record_review env u actor now killed n e t).
Proof.
  apply framed_bind; [apply framed_new_id|]. intros tid. apply framed_bind; [apply framed_items|]. intros l. apply framed_review. intros [a|err].
  - apply framed_bind; [destruct (webhook_Enabled _ _); eauto with mxid | intros; apply framed_deprovision].
  - apply framed_ret.
Qed.
Lemma framed_Lookup u : framed (Lookup scope u).
Proof.
  intros w. unfold Lookup, attempt, on_users. destruct (GetByID scope u (ow_users w)) as [s x] eqn:Hg. split; [|by eexists]. repeat split. cbn.
  assert (sdb (GetByID scope u (ow_users w)).1 = sdb (ow_users w)) as H; [|by rewrite Hg in H].
  apply (keeps_run (fun d => d = sdb (ow_users w))); [|done]. apply keeps_found, keeps_repo_GetByID.
Qed.

End Cut.

(** ** The lists of applications to go through *)

Lemma size_filter_insert (P : Z * Item -> Prop) `{!forall p, Decision (P p)} (l : gmap Z Item) k y :
  size (filter P (<[k:=y]> l)) = (size (filter P (delete k l)) + if decide (P (k, y)) then 1 else 0)%nat.
Proof.
  rewrite <- insert_delete_eq. destruct (decide (P (k, y))) as [Hp|Hp].
  - rewrite map_filter_insert_True by done. rewrite map_size_insert_None; [lia|]. apply map_lookup_filter_None. left. apply lookup_delete_eq.
  - rewrite map_filter_insert_False by done. rewrite delete_delete_eq. lia.
Qed.
Lemma size_filter_fresh (P : Z * Item -> Prop) `{!forall p, Decision (P p)} (l : gmap Z Item) k y :
  l !! k = None -> size (filter P (<[k:=y]> l)) = (size (filter P l) + if decide (P (k, y)) then 1 else 0)%nat.
Proof. intros Hk. by rewrite size_filter_insert, delete_id. Qed.
Lemma size_filter_replace (P : Z * Item -> Prop) `{!forall p, Decision (P p)} (l : gmap Z Item) k x y :
  l !! k = Some x ->
  (size (filter P (<[k:=y]> l)) + (if decide (P (k, x)) then 1 else 0) = size (filter P l) + if decide (P (k, y)) then 1 else 0)%nat.
Proof. intros Hk. rewrite <- (insert_id l k x Hk) at 2. rewrite !size_filter_insert. lia. Qed.

Definition is_done (taskID : Z) (p : Z * Item) : Prop := oi_Status p.2 = ItemStatusDone /\ oi_TaskID p.2 = taskID.
#[export] Instance is_done_dec taskID p : Decision (is_done taskID p).
Proof. unfold is_done. apply _. Defined.
Lemma count_done_eq t rv : count_done t rv = Z.of_nat (size (filter (is_done t) (items rv))).
Proof. unfold count_done, items_of. by rewrite map_filter_filter. Qed.

(** Every item belongs to a task, and the task knows how many there are and how many are done. *)
Record review_sound (rv : Review) : Prop := mkReviewSound {
  rv_items : forall i x, items rv !! i = Some x -> is_Some (tasks rv !! oi_TaskID x) /\ (oi_Status x = ItemStatusPending \/ oi_Status x = ItemStatusDone);
  rv_tasks : forall i t, tasks rv !! i = Some t -> ot_ItemCount t = count_items i rv /\ ot_DoneCount t = count_done i rv
    /\ ot_Status t = if count_items i rv <=? count_done i rv then TaskStatusResolved else TaskStatusOpen
}.
Lemma counts_same rv rv' t : items rv' = items rv -> count_items t rv' = count_items t rv /\ count_done t rv' = count_done t rv.
Proof. intros E. unfold count_items, count_done, items_of. by rewrite E. Qed.

Lemma insert_items_inv tid l rv rv' :
  Forall (fun i => oi_TaskID i = tid /\ oi_Status i = ItemStatusPending) l -> insert_items l rv = Ok rv' ->
  tasks rv' = tasks rv
  /\ (forall t, count_items t rv' = count_items t rv + (if decide (t = tid) then Z.of_nat (length l) else 0) /\ count_done t rv' = count_done t rv)
  /\ forall i x, items rv' !! i = Some x -> items rv !! i = Some x \/ (oi_TaskID x = tid /\ oi_Status x = ItemStatusPending).
Proof.
  revert rv. induction l as [|y l IH]; intros rv Hl; cbn [insert_items].
  { intros [= <-]. split_and!; [done | | by left]. intros t. split; [|done]. destruct (decide _); cbn; lia. }
  apply Forall_cons in Hl as [[Ht Hs] Hl]. case_bool_decide as Hn; [done|]. intros Hi. apply IH in Hi as (E & Hc & Hx); [|done].
  assert (items rv !! oi_ID y = None) as Hnone by (by destruct (items rv !! oi_ID y); [destruct Hn; eexists|]). split_and!; [done | |].
  - intros t. destruct (Hc t) as [-> ->]. rewrite !count_done_eq. unfold count_items, items_of. cbn [items].
    rewrite !size_filter_fresh by done. cbn [length]. rewrite (decide_False (P:=is_done t _)) by (intros [Hd _]; cbn in Hd; by rewrite Hs in Hd). split; [|lia].
    cbn. rewrite Ht. destruct (decide (tid = t)) as [->|]; [rewrite !decide_True by done | rewrite !decide_False by congruence]; lia.
  - intros i x Hin. destruct (Hx i x Hin) as [Hin'|]; [|by right]. cbn in Hin'. apply lookup_insert_Some in Hin' as [[_ <-]|[_ ?]]; auto.
Qed.
Lemma insert_items_keeps l rv rv' i x : insert_items l rv = Ok rv' -> items rv !! i = Some x -> items rv' !! i = Some x.
Proof.
  revert rv. induction l as [|y l IH]; intros rv; cbn [insert_items]; [by intros [= <-]|]. case_bool_decide as Hn; [done|].
  intros Hi Hx. apply (IH _ Hi). cbn. rewrite lookup_insert_ne; [done|]. intros <-. apply Hn. by eexists.
Qed.
Lemma sound_created rv task l rv1 rv2 :
  review_sound rv -> Forall (fun i => oi_TaskID i = ot_ID task /\ oi_Status i = ItemStatusPending) l ->
  ot_ItemCount task = Z.of_nat (length l) -> ot_DoneCount task = 0 ->
  ot_Status task = (if bool_decide (l = []) then TaskStatusResolved else TaskStatusOpen) ->
  insert_task task rv = Ok rv1 -> insert_items l rv1 = Ok rv2 -> review_sound rv2.
Proof.
  intros [Hit Hta] Hl Hn Hd Hst. unfold insert_task. destruct (bool_decide (is_Some _)) eqn:Hfresh; [done|]. apply bool_decide_eq_false in Hfresh. intros [= <-] Hi.
  apply (insert_items_inv (ot_ID task)) in Hi as (E & Hc & Hx); [|done]. cbn in E, Hx.
  assert (forall t, count_items t (mkReview (<[ot_ID task := task]> (tasks rv)) (items rv)) = count_items t rv) as Ec by (intros t; by apply counts_same).
  assert (forall t, count_done t (mkReview (<[ot_ID task := task]> (tasks rv)) (items rv)) = count_done t rv) as Ed by (intros t; by apply counts_same).
  setoid_rewrite Ec in Hc. setoid_rewrite Ed in Hc.
  assert (items_of (ot_ID task) rv = ∅) as He.
  { apply map_empty. intros i. apply map_lookup_filter_None. right. intros x Hin Hid. cbn in Hid. apply Hfresh. rewrite <- Hid. by apply (Hit i). }
  constructor; rewrite E.
  - intros i x Hin. destruct (Hx i x Hin) as [Hin'|[-> Hp]].
    + destruct (Hit i x Hin') as [[t Ht] Hs]. split; [|done]. destruct (decide (oi_TaskID x = ot_ID task)) as [->|Hne].
      * rewrite lookup_insert_eq. by eexists.
      * rewrite lookup_insert_ne by done. by eexists.
    + rewrite lookup_insert_eq. split; [by eexists | by left].
  - intros i t Ht. destruct (Hc i) as [-> ->]. apply lookup_insert_Some in Ht as [[<- <-]|[Hne Ht]].
    + rewrite decide_True by done. assert (count_items (ot_ID task) rv = 0) as -> by (unfold count_items; by rewrite He).
      assert (count_done (ot_ID task) rv = 0) as -> by (unfold count_done; by rewrite He). rewrite Hn, Hd, Hst. split_and!; [lia | done|].
      destruct l; [by rewrite bool_decide_eq_true_2 | rewrite bool_decide_eq_false_2 by done]. destruct (Z.leb_spec (0 + Z.of_nat (length (i :: l))) 0); [cbn in *; lia | done].
    + rewrite decide_False by congruence. rewrite Z.add_0_r. by apply Hta.
Qed.

(** A mark, with the task brought up to date. *)
Definition marked (itemID doneBy now taskID : Z) (rv : Review) : Review :=
  let rv1 := mark_item itemID doneBy now rv in set_task taskID (count_done taskID rv1) (count_items taskID rv1) rv1.
Lemma marked_counts rv itemID doneBy now x :
  items rv !! itemID = Some x -> oi_Status x <> ItemStatusDone -> forall t,
  count_items t (mark_item itemID doneBy now rv) = count_items t rv
  /\ count_done t (mark_item itemID doneBy now rv) = count_done t rv + if decide (t = oi_TaskID x) then 1 else 0.
Proof.
  intros Hx Hs t. rewrite !count_done_eq. unfold count_items, items_of. cbn [items mark_item].
  assert (alter (done_item doneBy now) itemID (items rv) = <[itemID := done_item doneBy now x]> (items rv)) as ->.
  { apply map_eq. intros j. destruct (decide (itemID = j)) as [->|]; [by rewrite lookup_alter_eq, Hx, lookup_insert_eq | by rewrite lookup_alter_ne, lookup_insert_ne]. }
  pose proof (size_filter_replace (fun p => oi_TaskID p.2 = t) (items rv) itemID x (done_item doneBy now x) Hx) as H1.
  pose proof (size_filter_replace (is_done t) (items rv) itemID x (done_item doneBy now x) Hx) as H2. cbn in H1.
  rewrite (decide_False (P:=is_done t (itemID, x))) in H2 by (intros [Hd _]; cbn in Hd; congruence). split; [lia|].
  destruct (decide (t = oi_TaskID x)) as [->|Hne].
  - rewrite (decide_True (P:=is_done _ _)) in H2 by done. lia.
  - rewrite (decide_False (P:=is_done _ _)) in H2 by (intros [_ Hd]; cbn in Hd; congruence). lia.
Qed.
Lemma sound_marked rv itemID doneBy now x :
  review_sound rv -> items rv !! itemID = Some x -> oi_Status x <> ItemStatusDone -> review_sound (marked itemID doneBy now (oi_TaskID x) rv).
Proof.
  intros [Hit Hta] Hx Hs. pose proof (marked_counts rv itemID doneBy now x Hx Hs) as Hc. set (tid := oi_TaskID x) in *.
  set (rv1 := mark_item itemID doneBy now rv) in *. unfold marked. fold rv1.
  assert (0 < count_items tid rv) as Hpos.
  { unfold count_items. enough (size (items_of tid rv) <> 0%nat) by lia. intros H0. apply map_size_empty_iff in H0.
    assert (items_of tid rv !! itemID = Some x) as Hl by (by apply map_lookup_filter_Some). by rewrite H0 in Hl. }
  assert (forall t d n, count_items t (set_task tid d n rv1) = count_items t rv1 /\ count_done t (set_task tid d n rv1) = count_done t rv1) as Hsame.
  { intros t d n. by apply counts_same. }
  constructor.
  - intros i y. cbn. intros Hy. assert (exists y0, items rv !! i = Some y0 /\ oi_TaskID y = oi_TaskID y0 /\ (oi_Status y = oi_Status y0 \/ oi_Status y = ItemStatusDone)) as (y0 & H0 & Et & Es).
    { destruct (decide (i = itemID)) as [->|Hne].
      - rewrite lookup_alter_eq, Hx in Hy. injection Hy as <-. exists x. cbn. auto.
      - rewrite lookup_alter_ne in Hy by done. eauto. }
    destruct (Hit _ _ H0) as [[t0 Ht0] Hst]. rewrite Et. split; [|destruct Es as [->|]; auto].
    destruct (decide (oi_TaskID y0 = tid)) as [E|Hne]; [rewrite E in *; rewrite lookup_alter_eq, Ht0; by eexists | rewrite lookup_alter_ne by done; by eexists].
  - intros i t Ht. destruct (Hsame i (count_done tid rv1) (count_items tid rv1)) as [-> ->]. cbn in Ht.
    destruct (decide (i = tid)) as [->|Hne].
    + rewrite lookup_alter_eq in Ht. destruct (tasks rv !! tid) as [t0|] eqn:Ht0; [|done]. injection Ht as <-. cbn.
      destruct (Hta _ _ Ht0) as (Hn & _ & _). destruct (Hc tid) as [Ei _]. split_and!; [congruence | done|].
      rewrite Ei. destruct (Z.ltb_spec 0 (count_items tid rv)); [done | lia].
    + rewrite lookup_alter_ne in Ht by done. destruct (Hc i) as [-> ->]. rewrite decide_False by done. rewrite Z.add_0_r. by apply Hta.
Qed.

(** What holds of the review lists from [rv0] on: what was ticked off stays so, by whom and when. *)
Definition later (rv0 rv : Review) : Prop :=
  review_sound rv /\ forall i x, items rv0 !! i = Some x -> oi_Status x = ItemStatusDone -> items rv !! i = Some x.
Lemma later_created rv0 task l :
  Forall (fun i => oi_TaskID i = ot_ID task /\ oi_Status i = ItemStatusPending) l -> ot_ItemCount task = Z.of_nat (length l) -> ot_DoneCount task = 0 ->
  ot_Status task = (if bool_decide (l = []) then TaskStatusResolved else TaskStatusOpen) -> keeps (later rv0) (CreateTaskWithItems task l).
Proof.
  intros Hl Hn Hd Hst. apply on_db_txn; [|done]. intros rv [Hs Hx].
  assert (forall rv1 rv2, insert_task task rv = Ok rv1 -> insert_items l rv1 = Ok rv2 -> later rv0 rv2) as H.
  { intros rv1 rv2 H1 H2. split; [by eapply sound_created|]. intros i x Hi Hdn. eapply insert_items_keeps; [done|].
    unfold insert_task in H1. case_bool_decide; [done|]. injection H1 as <-. by apply Hx. }
  eapply (on_db_bind _ _ _ (fun d r => match r with Ok _ => insert_task task rv = Ok d | Err _ => True end)); [apply on_db_exec_or; try done; by intros d d' <- | | done].
  intros _. case_bool_decide as Hnil.
  - apply on_db_ret. intros d H1. apply (H d d H1). by subst l.
  - apply on_db_exec_or; [|done..]. intros d d' H1 H2. by apply (H d d').
Qed.
Lemma later_marked rv0 tenantID itemID doneBy now : keeps (later rv0) (repo_MarkItemDone tenantID itemID doneBy now).
Proof.
  apply on_db_txn; [|done]. intros rv [Hs Hx].
  eapply (on_db_bind _ _ _ (fun d r => d = rv /\ match r with Ok o => o = items rv !! itemID | Err _ => True end)); [apply on_db_select; by intros d <- | | done].
  intros o. apply (on_db_pre _ _ _ (o = items rv !! itemID)); [by intros d [_ ?]|]. intros ->. destruct (items rv !! itemID) as [x|] eqn:Hi; [|by apply on_db_throw].
  destruct (negb _); [by apply on_db_throw|]. destruct (Z.eqb_spec (oi_Status x) ItemStatusDone) as [|Hp]; [apply on_db_ret; by intros d [-> _]|].
  set (rv1 := mark_item itemID doneBy now rv).
  eapply (on_db_bind _ _ _ (fun d r => match r with Ok _ => d = rv1 | Err _ => True end)); [apply on_db_exec; [by intros d [-> _] | done] | | done]. intros _.
  eapply (on_db_bind _ _ _ (fun d r => match r with Ok n => d = rv1 /\ n = count_done (oi_TaskID x) rv1 | Err _ => True end));
    [apply on_db_select; [by intros d -> | done] | | done]. intros n.
  eapply (on_db_bind _ _ _ (fun d r => match r with Ok k => d = rv1 /\ n = count_done (oi_TaskID x) rv1 /\ k = count_items (oi_TaskID x) rv1 | Err _ => True end));
    [apply on_db_select; [by intros d [-> ->] | done] | | done]. intros k.
  eapply (on_db_bind _ _ _ (fun d r => match r with Ok _ => d = marked itemID doneBy now (oi_TaskID x) rv | Err _ => True end));
    [apply on_db_exec; [by intros d (-> & -> & ->) | done] | | done]. intros _.
  apply on_db_ret. intros d ->. split; [by apply sound_marked|]. intros i y Hi0 Hd. cbn. rewrite lookup_alter_ne; [by apply Hx|].
  intros <-. apply Hp. specialize (Hx _ _ Hi0 Hd). by simplify_eq.
Qed.

Section Lists.
Context {G : Type} `{!IdGen G}.
Abbreviation W := (OffWorld G).

Definition rkeeps {A E} (I : Review -> Prop) (o : M W E A) : Prop := forall w, I (sdb (ow_review w)) -> I (sdb (ow_review (o w).1)).
Lemma rkeeps_bind {A B E} I (o : M W E A) (k : A -> M W E B) : rkeeps I o -> (forall a, rkeeps I (k a)) -> rkeeps I (bind o k).
Proof. intros Ho Hk w Hw. specialize (Ho w Hw). unfold bind. destruct (o w) as [w1 [a|e]]; [by apply Hk | done]. Qed.
Lemma rkeeps_review {A B} I (o : RevOp A) (k : res RevErr A -> M W UErr B) : keeps I o -> (forall x, rkeeps I (k x)) -> rkeeps I (on_review o k).
Proof.
  intros Ho Hk w Hw. unfold on_review. specialize (Ho (ow_review w) Hw). destruct (o (ow_review w)) as [s x]. apply Hk. exact Ho.
Qed.
Lemma make_items_values tid t now refs (w w' : W) l : make_items tid t now refs w = (w', Ok l) ->
  Forall (fun i => oi_TaskID i = tid /\ oi_Status i = ItemStatusPending) l.
Proof.
  revert w w' l. induction refs as [|r rest IH]; intros w w' l; cbn [make_items]; [intros [= _ <-]; constructor|].
  intros Hr. apply bind_ok in Hr as (id & w1 & _ & Hr). apply bind_ok in Hr as (l1 & w2 & Hl & Hr). injection Hr as _ <-.
  constructor; [done | by eapply IH].
Qed.
Lemma rkeeps_enqueue I env msg : rkeeps I (enqueue (G:=G) env msg).
Proof. by intros w Hw. Qed.
Lemma rkeeps_new_id I : rkeeps I (new_off_id (G:=G)).
Proof. intros w Hw. unfold new_off_id. by destruct (Generate _). Qed.
Lemma rkeeps_items I tid t now refs : rkeeps I (make_items (G:=G) tid t now refs).
Proof.
  induction refs as [|r rest IH]; cbn; [by intros w Hw|]. apply rkeeps_bind; [apply rkeeps_new_id|]. intros id. apply rkeeps_bind; [done | by intros l w Hw].
Qed.
Lemma rkeeps_deprovision I env t u n e refs : rkeeps I (deprovision (G:=G) env t u n e refs).
Proof. induction refs as [|r rest IH]; cbn; [by intros w Hw|]. apply rkeeps_bind; [by case_bool_decide; intros w Hw | done]. Qed.
Lemma rkeeps_record rv0 env u actor now killed n e t : rkeeps (later rv0) (record_review (G:=G) env u actor now killed n e t).
Proof.
  apply rkeeps_bind; [apply rkeeps_new_id|]. intros tid w Hw. unfold bind at 1. destruct (make_items tid _ now _ w) as [w1 [l|err]] eqn:Hl.
  - pose proof (rkeeps_items (later rv0) tid t now (with_tier <$> default [] (oe_ForUser env u t)) w Hw) as Hw1. rewrite Hl in Hw1. revert w1 Hw1 Hl.
    intros w1 Hw1 Hl. apply make_items_values in Hl. apply (rkeeps_review (later rv0)); [by apply later_created | | done]. intros [a|err]; [|by intros w2 Hw2].
    apply rkeeps_bind; [destruct (webhook_Enabled _ _); [apply rkeeps_enqueue | by intros w2 Hw2] | intros; apply rkeeps_deprovision].
  - pose proof (rkeeps_items (later rv0) tid t now (with_tier <$> default [] (oe_ForUser env u t)) w Hw) as Hw1. by rewrite Hl in Hw1.
Qed.
Lemma rkeeps_Lookup I scope u : rkeeps I (Lookup (G:=G) scope u).
Proof. intros w Hw. unfold Lookup, attempt, on_users. by destruct (GetByID scope u (ow_users w)) as [s x]. Qed.
Lemma rkeeps_net {A B} I (o : Saml.Op A) (k : res RErr A -> M W UErr B) : (forall x, rkeeps I (k x)) -> rkeeps I (on_net o k).
Proof. intros Hk w Hw. unfold on_net. destruct (o (ow_net w)) as [n x]. by apply Hk. Qed.
Lemma rkeeps_Offboard rv0 m policy scope env subscribers u actor now :
  rkeeps (later rv0) (Offboard (G:=G) m policy scope env subscribers u actor now).
Proof.
  apply rkeeps_bind; [intros w Hw; unfold on_users; by destruct (UpdateStatus _ _ _ _)|]. intros []. do 2 (apply rkeeps_net; intros).
  apply rkeeps_bind; [by intros w Hw|]. intros _. apply rkeeps_net. intros. apply rkeeps_bind; [apply rkeeps_Lookup|]. intros [[name email] t].
  apply rkeeps_bind; [apply rkeeps_record | by intros _ w Hw].
Qed.
Lemma rkeeps_MarkItemDone rv0 t i actor now : rkeeps (later rv0) (MarkItemDone (G:=G) t i actor now).
Proof.
  intros w Hw. unfold MarkItemDone. pose proof (later_marked rv0 t i actor now (ow_review w) Hw) as H. by destruct (repo_MarkItemDone _ _ _ _ _).
Qed.

(** One operation at a time on the review lists, any of their statements failing; [rs_elsewhere] is everything else. *)
Inductive review_step : W -> W -> Prop :=
| rs_offboard m policy scope env subscribers u actor now w :
    review_step w (Offboard m policy scope env subscribers u actor now w).1
| rs_mark t i actor now w : review_step w (MarkItemDone t i actor now w).1
| rs_elsewhere w w' : sdb (ow_review w') = sdb (ow_review w) -> review_step w w'.
Lemma later_steps rv0 w w' : rtc review_step w w' -> later rv0 (sdb (ow_review w)) -> later rv0 (sdb (ow_review w')).
Proof.
  intros Hr Hw. induction Hr as [|w w1 w2 Hs _ IH]; [done|]. apply IH. destruct Hs as [| |w w1 E].
  - by apply rkeeps_Offboard.
  - by apply rkeeps_MarkItemDone.
  - by rewrite E.
Qed.
Lemma sound_empty : review_sound (mkReview ∅ ∅).
Proof. constructor; intros i x H; cbn in H; by rewrite lookup_empty in H. Qed.
Lemma sound_later rv : review_sound rv -> later rv rv.
Proof. by intros. Qed.
Lemma all_done_counted rv t : count_items t rv <= count_done t rv <-> forall i x, items rv !! i = Some x -> oi_TaskID x = t -> oi_Status x = ItemStatusDone.
Proof.
  unfold count_done, count_items. set (l := items_of t rv). split.
  - intros Hle i x Hi Ht. assert (l !! i = Some x) as Hl by (by apply map_lookup_filter_Some).
    destruct (decide (oi_Status x = ItemStatusDone)) as [|Hn]; [done | exfalso].
    assert (filter (fun p : Z * Item => oi_Status p.2 = ItemStatusDone) l ⊂ l) as Hs.
    { split; [apply map_filter_subseteq|]. intros Hsub. apply (map_subseteq_spec _ _) with (i:=i) (x:=x) in Hsub; [|done].
      by apply map_lookup_filter_Some in Hsub as [_ ?]. }
    apply map_subset_size in Hs. lia.
  - intros Hall. rewrite map_filter_id; [lia|]. intros i x Hi. apply map_lookup_filter_Some in Hi as [Hi Ht]. by eapply Hall.
Qed.

(** C23: offboardings and marks one after the other, whichever of their statements fail: a task carries the number of
    its items and of those that are ticked off and is resolved exactly when all are, an item belongs to a
    recorded task, and an item that was ticked off keeps who did so and when. *)
Theorem review_counts_exact (w0 w w' : W) :
  sdb (ow_review w0) = mkReview ∅ ∅ -> rtc review_step w0 w -> rtc review_step w w' ->
  let rv := sdb (ow_review w') in
  (forall i t, tasks rv !! i = Some t ->
     ot_ItemCount t = count_items i rv /\ ot_DoneCount t = count_done i rv /\ ot_Status t ∈ [TaskStatusOpen; TaskStatusResolved]
     /\ (ot_Status t = TaskStatusResolved <-> forall j x, items rv !! j = Some x -> oi_TaskID x = i -> oi_Status x = ItemStatusDone))
  /\ (forall j x, items rv !! j = Some x -> is_Some (tasks rv !! oi_TaskID x))
  /\ (forall j x, items (sdb (ow_review w)) !! j = Some x -> oi_Status x = ItemStatusDone -> items rv !! j = Some x).
Proof.
  intros E H1 H2 rv. apply (later_steps (mkReview ∅ ∅)) in H1 as [Hs _]; [|rewrite E; apply sound_later, sound_empty].
  apply (later_steps (sdb (ow_review w))) in H2 as [[Hit Hta] Hx]; [|by apply sound_later]. split_and!; [| |done].
  - intros i t Ht. destruct (Hta i t Ht) as (Hn & Hd & Hst). rewrite <- all_done_counted, Hst. split_and!; [done | done | |].
    + destruct (_ <=? _); set_solver.
    + fold rv. destruct (Z.leb_spec (count_items i rv) (count_done i rv)); unfold TaskStatusOpen, TaskStatusResolved; split; lia.
  - intros j x Hj. by apply (Hit j x).
Qed.
End Lists.

(** ** Runs *)

Module OffboardDemo.
Import SamlDemo.
Definition person : User := mkUser 7 1 "ann" (Some "ann@x"%string) true None None None None "h" StatusActive None None None false false false 0 0 None None None.
Definition people : Store (UserWorld Z) := mkStore (mkUserWorld {[ 7 := person ]} ∅ ∅ ∅ ∅ ∅ 100 50 []) (fun _ => false) 0.
Definition off_env : OffEnv :=
  mkOffEnv (fun _ _ => Some [mkAppRef 3 "Wiki" "wiki" ""; mkAppRef 4 "Crm" "crm" TierL2]) (fun _ => Some (true, "https://hr"%string)) (fun _ => true).
Definition start : OffWorld Z := mkOff people busy (mkStore (mkReview ∅ ∅) (fun _ => false) 0) 0 [] [] [].
Definition offboarded (subscribers : SamlWorld -> SamlWorld) : OffWorld Z * res UErr unit :=
  Offboard mgr timeouts (Some 1) off_env subscribers 7 2 60 start.


(** Disabling the account tells its subscribers, who end its sessions beside the request (app/run.go). When they are
    done first, no session is left to find the clients by, and nobody is told. *)
Definition subscribers_first (n : SamlWorld) : SamlWorld :=
  mkSamlWorld (w_store n) (KillAllByUser mgr timeouts [NamespaceConsole; NamespacePortal; NamespaceProtocol] 7 0 None (w_sessions n)).1.
Example told_or_not :
  ow_told (offboarded id).1 = [(3, "sid"%string)] /\ (offboarded subscribers_first).2 = Ok tt /\ ow_told (offboarded subscribers_first).1 = [].
Proof. vm_compute. done. Qed.

(** Task 1, with the items 2 and 3. *)
Definition listed : Review := sdb (ow_review (offboarded id).1).
Definition mark (i : Z) (rv : Review) : Review := sdb (repo_MarkItemDone 1 i 2 70 (mkStore rv (fun _ => false) 0)).1.
Definition shown_task (rv : Review) : option (Z * Z * Z) := t ← tasks rv !! 1; Some (ot_ItemCount t, ot_DoneCount t, ot_Status t).
Example marks_resolve :
  shown_task listed = Some (2, 0, TaskStatusOpen) /\ shown_task (mark 2 listed) = Some (2, 1, TaskStatusOpen)
  /\ shown_task (mark 3 (mark 2 listed)) = Some (2, 2, TaskStatusResolved).
Proof. vm_compute. done. Qed.
(** Two transactions that mark the last two items at once: each counts before the other commits, and does not see
    its item. The task stays open for good, since an item that is done is not counted again. *)
Definition overlapping : Review :=
  let progress i rv := let seen := mark_item i 2 70 listed in set_task 1 (count_done 1 seen) (count_items 1 seen) rv in
  progress 3 (progress 2 (mark_item 3 2 70 (mark_item 2 2 70 listed))).
Example simultaneous_marks_stick :
  shown_task overlapping = Some (2, 1, TaskStatusOpen) /\ count_done 1 overlapping = 2
  /\ shown_task (mark 3 (mark 2 overlapping)) = Some (2, 1, TaskStatusOpen).
Proof. vm_compute. done. Qed.

Lemma review_witness :
  let w := (MarkItemDone 1 2 2 70 (offboarded id).1).1 in
  (exists t, tasks (sdb (ow_review w)) !! 1 = Some t /\ ot_DoneCount t = 1 /\ ot_Status t <> TaskStatusResolved).
Proof.
  intros w. destruct (review_counts_exact start (offboarded id).1 w eq_refl (rtc_once _ _ (rs_offboard _ _ _ _ _ _ _ _ _))
    (rtc_once _ _ (rs_mark 1 2 2 70 _))) as (Ht & _ & _).
  destruct (tasks (sdb (ow_review w)) !! 1) as [t|] eqn:E; [|exfalso; revert E; vm_compute; discriminate].
  destruct (Ht 1 t E) as (_ & Hd & _ & Hst). exists t. split; [reflexivity|]. split; [rewrite Hd; vm_compute; reflexivity|].
  intros Hr. destruct (items (sdb (ow_review w)) !! 3) as [x|] eqn:Hx; [|revert Hx; vm_compute; discriminate].
  pose proof (proj1 Hst Hr 3 x Hx) as H. revert Hx H. vm_compute. intros [= <-] H. specialize (H eq_refl). discriminate H.
Defined.

(** gorm's Save updates the row of the tenant and, when none was hit, inserts with ON CONFLICT DO UPDATE: a tenant that saves
    a configuration for the application of another one finds none and takes the row over. *)
Definition save_row (tenantID : Z) (c : Config) (cs : gmap Z Config) : res ProvErr (gmap Z Config) := Ok (<[pc_AppID c := c]> cs).
Definition configured : Store (gmap Z Config) :=
  mkStore {[ 9 := mkConfig 9 1 true ConnectorSCIM2 "https://scim" "sealed" (Some 5) 5 ]} (fun _ => false) 0.
Example foreign_save_takes_over :
  let s := (prov_Save save_row Some (Some 2) 60 (mkSaveInput 9 2 true "" "https://elsewhere" "") configured).1 in
  sdb s !! 9 = Some (mkConfig 9 2 true ConnectorSCIM2 "https://elsewhere" "" (Some 60) 60)
  /\ (prov_Get (Some 1) 9 s).2 = Ok (mkView 9 false ConnectorSCIM2 "" false).
Proof. vm_compute. done. Qed.
End OffboardDemo.
